(* ===== verification/_CoqProject ===== *)
-Q . S2P
Prelude.v
MachineInt.v
RustStr.v
Json.v
Company.v
Usage.v
Conditions.v
Prices.v
Catalog.v
Event.v
AskWire.v
AskTable.v
AskWorld.v
AskGate.v
AskHead.v
AskBroker.v
AskSweep.v
AskSafety.v
AskAuthority.v
AskFacts.v
AskDue.v
AskToy.v
AskTheorems.v
AskWitness.v
Filters.v
Subscription.v
SubscriptionFacts.v
Delivery.v
DeliveryFacts.v
Feed.v
Attribution.v
Calendar.v
Engine.v
EngineFacts.v
Reconcile.v
GitPerms.v
Conformance.v
Tracing.v
AuditLog.v
Credits.v
CreditsFacts.v
Resolver.v
Campaign.v
MoneyTheorems.v
Escrow.v
EscrowFacts.v
EscrowSteps.v
EscrowFunds.v
EscrowTheorems.v
MoneyWitness.v
Pairing.v
PairingFacts.v
Queue.v
QueueFacts.v
JobWire.v
JobTable.v
JobFacts.v
JobBroker.v
JobBrokerFacts.v
JobDelivery.v
JobWitness.v
Metering.v
Gateway.v
GatewayWorld.v
GatewayWorldFacts.v
GatewaySettle.v
GatewaySettleFacts.v
GatewayAuth.v
GatewayTheorems.v
GatewayWitness.v
Network.v
Payments.v
TopUps.v
TopUpFacts.v
PaymentFacts.v
TopUpTheorems.v
QrCode.v
Workflow.v
WorkflowRuns.v
WorkflowSchedule.v
