(* ===== verification/Prelude.v ===== *)
(** * Colony: a verification development of its accounting, work and trust core

    Colony (crates of [src/crates/], most of them named [buzz-]) is a workspace
    server for people and AI agents built on signed Nostr events. Much of it is
    I/O around a database, a relay protocol and a user interface; this
    development models the parts that decide about money, work and trust:

    - what every AI call cost, to whom it is booked and whether the books agree
      with the provider and with the agents ([buzz-core/src/ledger/]);
    - who works on a delegated job, under which lease, and what counts as its
      delivery ([buzz-core/src/job.rs], [buzz-db/src/jobs.rs],
      [buzz-relay/src/job_broker.rs], [job_runtime.rs]);
    - who asks whom for a decision, who may answer, and what happens when nobody
      does ([buzz-core/src/interrupt.rs], [buzz-db/src/asks.rs],
      [buzz-relay/src/ask_broker.rs], [interrupt_gate.rs],
      [interrupt_runtime.rs], [ask_state_head.rs]);
    - which event reaches which reader, live, from history and as a count
      ([buzz-core/src/filter.rs], [buzz-relay/src/subscription.rs],
      [handlers/req.rs], [count.rs], [event.rs]);
    - which events an agent is prompted with, and when
      ([buzz-acp/src/queue.rs]);
    - what a member's Credits are spent on: AI calls through the gateway and
      paid Discovery runs ([buzz-db/src/credits.rs], [discovery.rs],
      [discovery_workspace.rs]), and how the gateway admits, streams and charges
      a call ([buzz-relay/src/gateway/mod.rs], [buzz-db/src/gateway.rs],
      [buzz-meter-core/src/]);
    - who may push what to a repository ([git_perms.rs], [channel.rs]);
    - what is kept as evidence: the audit chain ([buzz-audit]) and the traces of
      tenant isolation ([buzz-conformance], [buzz-relay/src/conformance/]);
    - how a secret moves between two devices ([pairing/]);
    - what a member's workflows do in the member's name, and what starts them
      ([buzz-workflow/src/], [buzz-db/src/workflow.rs]).

    ** How the program's parts interact, and where they are modelled

    A usage record (kind 44210) is one metered or stated cost. [Usage] is its
    payload and validator ([usage_record.rs]), [Company] the work context it may
    carry, the cost classification, and the initiative and task lifecycles
    ([company.rs]). Prices come from three places. [Conditions]
    ([ledger/conditions.rs]) is when a price row applies to a call, [Prices]
    ([ledger/prices.rs]) the append-only book, the choice of the row that prices
    a call and the arithmetic, [Catalog] ([ledger/catalog.rs]) the shipped
    catalog, its parser and the merge with a feed, [Feed] ([ledger/feed.rs]) the
    signed document a feed is, read with [Event] ([event_tags.rs] and the
    event record). [Attribution] ([ledger/attribution.rs]) holds the owner's
    rules, corrections and budgets. [Engine] ([ledger/engine.rs]) folds all of
    them into a report in the six numbered steps of [compute_ledger], with
    [Calendar] for [utc_day]. The report's provider-days go to [Reconcile]
    ([ledger/reconcile.rs]), and the same records with the agents' own accounts
    to its second half ([ledger/crosscheck.rs]).

    [GitPerms] has the member roles ([channel.rs]) and the checks of pushes
    against them ([git_perms.rs]). [Pairing] ([pairing/session.rs],
    [types.rs], [crypto.rs]) is the session state machine of one device, every
    operation a method from a session to a result and a session, also when it
    fails; [PairingFacts] composes two of them, and [QrCode] ([qr.rs]) is the
    URI that starts them.

    A job is filed, claimed, kept alive, checkpointed and ended by five events.
    [JobWire] ([job.rs]) parses them and the job head the relay publishes,
    [JobTable] ([jobs.rs] of [buzz-db] and the two migrations) is the table, a
    map of rows, and its statements, each one conditional update that the write
    fence of a community being deleted may refuse (an [Instant] says when it is
    up), [JobBroker] ([job_broker.rs]) the handlers over the relay's tables and the
    sweeps.
    [JobFacts] reasons about every sequence of statements, [JobBrokerFacts] and
    [JobDelivery] about the handlers, and [JobWitness] runs one Task through
    all of them. [Queue] ([queue.rs]) is the harness's event queue with every
    operation, [QueueFacts] its theorems; it keeps the requests [Event]
    parses ([agent_reply.rs]) apart from all others.

    An ask is a question an agent cannot answer itself. [AskWire]
    ([interrupt.rs], over the [Json] values of serde) parses asks, their
    answers, grants, decision logs and state heads; [AskTable] ([asks.rs] and
    migration 0042) is the table and its statements. [AskWorld] is what a
    handler runs in: the tables, the directory of members, employees and heads,
    and a state and error monad in which each database call may fail and may
    come after statements of other relay processes (its [Weather]). In that
    monad, [AskGate] ([interrupt_gate.rs]) computes ranks and reporting lines
    and guards owners and delegated authority and, with [interrupt_runtime.rs],
    finds the one executive, owner or team lead,
    [AskHead] ([ask_state_head.rs]) publishes what will happen at the deadline,
    [AskBroker] ([ask_broker.rs]) files, answers and withdraws, and [AskSweep]
    ([interrupt_runtime.rs]) acts on due asks and silent Tasks. [AskTable] ends
    with the invariant of the table, [AskWorld] with the three ways of reasoning
    about a handler: steps that are [safe] in any weather, parts that only read,
    and parts that are quiet or cannot fail. [AskSafety],
    [AskAuthority], [AskFacts] and [AskDue] apply them,
    [AskTheorems] states what follows, [AskToy] and [AskWitness] run it in a
    small company.

    The relay's read path starts at [Filters]: matching one filter
    ([filter.rs]), the lists of kinds that need a reader of their own
    ([kind.rs]) and the predicates of [handlers/req.rs] over whole requests.
    [Subscription] ([subscription.rs]) is the registry of live subscriptions with
    its five indexes, each operation one atomic step; [SubscriptionFacts] states
    what it promises and proves it against a registry without any index.
    [Delivery] composes the two with channel membership: the REQ and COUNT
    handlers, the loop that reads history, the live fan-out from the local
    process and from the cluster, and eviction when a member leaves
    ([handlers/event.rs], [side_effects.rs], [close.rs], [connection.rs]).
    [DeliveryFacts] runs a server through any sequence of these steps.

    Credits are nanoUSD on an account, changed only by appending to a ledger.
    [Credits] ([credits.rs] and the migrations 0050 to 0066) is the tables, their
    constraints and triggers, every statement that writes them, the holds of the
    gateway's calls in flight, and the resolver that recovers settlements that
    were cut short, whose statements other callers interleave with.
    [CreditsFacts] has the invariant of the tables and of the holds,
    [Resolver] the reasoning about interleaved statements. A Campaign's budget is
    approved by its human payer under a fingerprint ([Campaign]: the contracts of
    [buzz-core/src/discovery.rs] and [discovery_workspace.rs]); a paid run moves
    its whole price from the balance into reservation, the relay stores the Leads
    it finds, and whatever ends the run settles it ([Escrow]:
    [buzz-db/src/discovery.rs], [discovery_workspace.rs]); starting and cancelling
    a run first ask whether the requester may act for the payer. [EscrowFacts] is the
    invariant between budgets, runs, ledger and Leads, [EscrowSteps] and
    [EscrowFunds] that every transaction keeps
    it, that a settlement cannot be refused and what happens to balances;
    [MoneyTheorems] and [EscrowTheorems] state what follows, [MoneyWitness] runs
    it.

    The AI gateway stands between a member's agents and a provider.
    [GatewayAuth] ([gateway/mod.rs], [buzz-db/src/gateway.rs]) is its tokens,
    its catalog, and the request it sends in place of the caller's. [Gateway] is
    the admission controller: the spend of the last hour of each account, its
    calls in flight, and the admission of a call under its gate, with the
    reservation of [Credits]. [GatewayWorld] is the concurrency of it: handlers,
    response workers, dropped futures and permits as tasks whose steps
    interleave at every lock, atomic and answer; that a handler reads the closed
    flag before it takes the lock of the map is two steps. [GatewaySettle] follows the
    response: what is read off its chunks, the job that charges it with its
    retries, and the worker that holds the last chunk back until the charge is
    written; [Metering] ([buzz-meter-core/src/]) reads the provider's usage
    blocks and stated costs, with [MachineInt] for Rust's [f64]. [GatewayWorldFacts] and [GatewaySettleFacts] are the lemmas, [GatewayTheorems]
    what follows, [GatewayWitness] runs it.

    Money comes in as card top-ups. [Payments] is the credit packs and the two
    payment gateways with every gate a delivery passes ([credit_packs.rs],
    [payments_provider.rs], [paystack.rs], [payfast.rs] and the selection and
    source address of [api/payments.rs]); [Network] is the addresses: the guard
    against private ones ([buzz-core/src/network.rs]), what a local proxy
    connects from, and the standard library's reading of an address. [TopUps] is
    the table of checkouts with its checks and the deletion fence
    ([payment_intents.rs], migrations 0059, 0063, 0064 and 0067) and the routes
    ([api/payments.rs]), whose statements run over the checkouts and the tables of
    [Credits] as those of [Resolver] do. [TopUpFacts] makes them steps of a shop
    and states its invariant, [TopUpTheorems] and [PaymentFacts] what follows.

    A workflow acts for its owner when something happens. [Workflow]
    ([schema.rs], the pure part of [executor.rs], [webhook_secret.rs]) is its
    definition, the templates and conditions of its steps, and the requests its
    webhooks make, to addresses [Network] lets through. [WorkflowRuns]
    ([buzz-db/src/workflow.rs], [executor.rs], [buzz-workflow/src/lib.rs]) is the
    tables, the executor, and the ways a run starts: an event of the channel, its
    owner's command ([handlers/command_executor.rs]) or a webhook
    ([api/bridge.rs]), each a run of statements as in [Credits], between which
    others move. [WorkflowSchedule] ([lib.rs]) is the fourth way, the scheduler:
    any number of relay processes that go through the workflows of a tick a
    statement at a time and may be restarted anywhere.

    [AuditLog] ([buzz-audit/src/]) is the hash chain of each community with its
    appends and its verification, over a table whose columns keep an instant to
    the microsecond and the keys of an object in an order of their own. [Conformance] ([buzz-conformance/src/]) checks
    a trace of the relay against the tenancy rules, [Tracing]
    ([conformance/mod.rs] and the seams in [ingest.rs] and [req.rs]) is what
    writes one.

    [Prelude], [MachineInt], [RustStr] and [Json] are the library under the
    models: results and the [?] operator, stable sorting, the best-of-a-list
    loop, sums; machine integers; Rust's string methods on byte strings; ordered
    maps behind the [OrdKey] class, and JSON values over them.

    ** Conventions

    A definition keeps the name of the function it translates where it can, and
    its comment names it. Integers are [Z]; a [u64] or [u128] is a [Z] whose
    range is a hypothesis where it matters, and an operation that can leave the
    range is written with its saturation, check or wrap-around ([u128] sums
    wrap, as in a release build). Strings are byte strings in UTF-8. A
    [HashMap] is a [gmap], a [BTreeMap] a sorted association list, so that the
    order in which reports list things is part of the model. Error messages are
    constructors with the data they print. A panic is [None].

    Libraries outside the repository are parameters: the RFC 3339 parser, serde
    JSON (class [JobJson] for the jobs, [JsonLib] for the asks), the event library
    (classes [EventLib], [NostrLib] and, with UUIDs and sealed keys, [BrokerLib]),
    the pairing cryptography (class [PairingLib]), SHA-256, chrono's text and what
    JSONB and TIMESTAMPTZ columns give back (class [AuditLib]), the hashes, UUIDs, hex and
    keys of Discovery (class [CampaignLib]), the hash, hex and header values of the
    gateway (class [TokenLib]), the digests, form encoding and lower case of the
    top-ups (class [PayLib]), the curve and the URLs of QR codes (class [QrLib]), YAML,
    expressions, cron schedules and keys of workflows (class [WorkflowLib])
    and the double nearest to a decimal text
    (class [JsonFloatLib]). What is assumed of them is stated in
    [EventLibLaws], [JobJsonLaws], [BrokerLaws], [JsonLaws], [NostrLaws],
    [PairingLaws], [CampaignLaws], [PayLaws], [QrLaws], [WorkflowLaws] and
    [AuditLaws] (a JSONB column changes a value without fractional numbers in the
    order of its keys only, a TIMESTAMPTZ column keeps whole microseconds), each
    with a concrete instance the witnesses use; a collision of SHA-256 is part of a
    conclusion and never assumed away, and nothing is assumed of which texts the
    name-based UUIDs of Discovery tell apart. Every reading of a clock is an argument, and so is every
    answer of the database or the cache on the read path (who is a member of a
    channel, which rows a query returns, what a count query says); the order in
    which a [HashMap] is iterated is a parameter too (class [HashOrder]).

    ** What the theorems show

    - [EngineFacts]: a report does not depend on the order of its input, a
      republished record leaves no trace, each dedupe key counts once and each
      disagreement is reported; the totals of a report add up exactly to its
      entries (for up to 1,000,000 records, the bound that rules out wrap-around:
      one entry costs at most a millionth of what [u128] holds); every bucket is
      the spend it is about; corrections move money between buckets but never
      change it; the last correction wins; a missing cost is always reported.
    - [Prices], [Conditions], [Catalog], [Feed], [Attribution], [Calendar]:
      which row prices a call, that history cannot be repriced and a catalog
      cannot displace an owner's rate; exact arithmetic and exact decimal
      parsing; what a merged catalog contains; what a trusted feed has passed
      and that a signed one reads back; which rule attributes a record; the day
      arithmetic is the calendar.
    - [Reconcile]: soundness and completeness of the exceptions
      and findings; a bypassing agent is always found.
    - [GitPerms]: the policy in closed form, its monotonicity, its floor,
      atomicity of pushes, pattern semantics, and what a parsed tag enforces.
    - [PairingFacts]: the session refines the protocol diagram, finished
      sessions are final, secrets move only after both confirmations, events
      are processed once, and two honest devices complete. [QrCode]: a code that
      may be shown is read back, and what is accepted may be shown.
    - [JobFacts]: in every interleaving of the statements leases are numbered
      and fenced, an ending is final, published heads rise, no statement
      breaks a constraint of the table, and one errs only at the write fence of a
      community being deleted; one lapsed lease of such a community stops the
      sweep for all. [JobBrokerFacts]: a head reads back as
      the row it shows, and every job keeps a human accountable. [JobDelivery]:
      a refused event moves nothing, a recorded Task delivery has its evidence,
      and an outcome is recorded once.
    - [AskTheorems]: in any weather a need has one open ask, a default stands
      only where the policy allows it, no ask is lost or rewritten once answered;
      asks climb the ladder one rung at a time; only those it was put to answer
      it; the gates admit exactly what the rules say and fail closed; the sweep
      executes only licensed defaults, does what the published head predicts and,
      in calm weather, never drops a need; the head reads back.
    - [SubscriptionFacts]: in every run the indexed registry answers a fan-out
      exactly as the plain table of subscriptions would, no subscription twice.
      [DeliveryFacts]: an event of a gated kind reaches only readers its tags or
      its author admit, on every path, live or stored; the access check admits
      exactly the channels a reader may see; nothing reaches a connection after
      its eviction; history is every allowed match up to the limit, once; the
      fast count is the number of visible events (with the exception recorded
      for shared team catalogs); a connection keeps at most 1024 subscriptions.
    - [QueueFacts]: a dispatch loses and invents nothing, no event is delivered
      twice in any run, the tables stay consistent and bounded, one batch per
      channel, oldest first, scoped requests alone, and a batch that always
      fails is handed back after ten retries.
    - [EscrowTheorems]: in every world the transactions reach, next to any money
      steps of the other services, balances are the sums of the ledger, budgets
      the sums of their runs within what was approved, and each paid run's rows
      sum to its reservation or its price, unless another service's entry took the
      run's release or debit reference (nothing in the code keeps the gateway from
      writing one, and [MoneyWitness] shows a reservation lost that way); a run
      pays exactly for the Leads it keeps; its payer, while authorized, can cancel
      it and gets the rest back if those references are free and no other community
      has a run of that identifier; starting one sets its whole price aside; a
      budget row always reads; holds stay covered while calls are charged within
      their holds and once, other debits take what the holds leave free, and the
      references of open runs are free. [MoneyTheorems]: a used reference
      moves nothing, the resolver charges a call at most once and resolves it when
      undisturbed, and a fingerprint binds the Campaign. [MoneyWitness] also shows
      two ways in which a settled call is charged again.
    - [GatewayTheorems]: in every interleaving an account has at most four calls
      at the provider and one entry that all its tasks share; a closed gateway
      lets in only the handlers that had found it open, and drains; the wait a
      refused call is told is right up to a millisecond; a refused call leaves no
      hold, unless one of its own statements failed; a settle with its retries
      charges a call at most once, whatever fails, and exactly the stated cost when nothing does;
      the last chunk waits for the charge; a token speaks for the account
      whose session asked for it and the caller's credentials never reach the provider. [GatewayWitness] also shows
      a nested [id] that makes a call free, and a cancelled request that pins its
      entry.
    - [TopUpTheorems]: whatever fails, crashes, is retried or purged, a credit for
      a checkout is the only one of it, is the grant fixed when it was opened and
      answers a payment its own gateway vouched for, and a paid row has its
      credit; the routes take only steps of that kind; one undisturbed delivery
      brings the payment to rest, and any later one changes nothing.
      [PaymentFacts]: what PayFast must have signed, sent from and confirmed, and
      that a genuine notification is read to the cent; no outsider can pose as
      it; how status polls use up the allowance of checkouts. [Network]: the
      guard is the documented list of networks.
    - [Workflow]: a template is read once, whatever its values contain; a
      condition sees the event's own fields whatever a webhook sends; a validated
      definition has steps with distinct names and a schedule that can fire.
      [WorkflowRuns]: a run lets out at most one effect for each step, in its
      workflow's channel and its owner's name or to a public address; an
      undisturbed run ends; an owner without a role, or with a plain one where the
      workflow calls webhooks, starts nothing, whatever is stale or fails.
      [WorkflowSchedule]: with any number of processes and restarts a scheduled
      instant starts one run, and only the first instant the cron schedule has in
      the tick's last minute or the start of the interval that holds the tick; what
      is due is run; how a restart brings a run forward, and what a failed commit
      leaves behind.
    - [AuditLog]: in every interleaving of appends and failures each chain is
      numbered without gaps and verifies whatever its columns reorder or round,
      and two chains with the same last hash
      hold the same bytes or a collision. [Conformance], [Tracing]: the checker
      accepts exactly the traces of one tenant that leak nothing, and a read that
      returns a foreign row is caught.
    - [Company], [Usage], [Event]: an agent's task completes only from review;
      the validator accepts exactly the documented records; a deciding tag is
      read only when unambiguous.

    ** Fuel

    [RustStr.strip_all] takes the string's length (a step removes a character),
    [RustStr.dec] one more than the binary logarithm (a step removes a decimal
    digit), [Metering.utf8_lossy] the length of the body (a step removes a byte),
    and the two scans of [GatewaySettle] one more than the length (a step removes
    the field's name); the loop over a template takes its length (a round removes
    at least the two braces), as does the count of a cron expression's words (a
    step removes a character). [GatewayTheorems] speaks of the first 2^32 steps of a
    relay where it counts with a 32-bit atomic. Everything else is structural.

    ** Not modelled

    The texts of messages, prompts and diagnoses, memory zeroization,
    [shipped_catalog]'s embedded data file, the other validators of
    [company.rs], decompression and the HTTP of the gateways, eviction from the
    rate cache of the payment routes at its capacity, and the choice and wording
    of escalations. Of Discovery the receipts, command claims, checkpoints, source
    counters, lead profiles and listings are left out; of a community's deletion
    its effect on the tables modelled here, but for the checkouts and the fence on
    workflows; of workflows the approvals and their resumption (a run that asks
    for one fails) and the mentions their messages add. Outside the
    files named above nothing is modelled: the rest of the relay (search, the
    text of SQL queries, frames and sockets) and of the database layer, the mesh
    transport, media, the harness's processes and the clients. What
    they decide lies for the most part in services, sockets and interfaces the
    repository only calls, or it validates documents of other product areas. *)

From Stdlib Require Import ZArith Lia.
From stdpp Require Import base list strings gmap numbers sorting.

(** ** Results

    Rust's [Result<A, E>]. The error is kept as a value: which error a
    fallible operation returns is part of what the theorems state. *)

Inductive Result (A E : Type) : Type :=
| Ok (a : A)
| Err (e : E).
Arguments Ok {A E} a.
Arguments Err {A E} e.

#[export] Instance Result_eq_dec {A E} `{EqDecision A, EqDecision E} : EqDecision (Result A E).
Proof. solve_decision. Defined.

Declare Scope colony_scope.
Delimit Scope colony_scope with colony.
Open Scope colony_scope.

(** The [?] operator: the error of [e] is returned unchanged. *)
Definition rbind {A B E} (e : Result A E) (k : A -> Result B E) : Result B E :=
  match e with
  | Ok a => k a
  | Err err => Err err
  end.

Notation "'let?' x ':=' e 'in' k" := (rbind e (fun x => k))
  (at level 10, x pattern, e at level 100, k at level 200)
  : colony_scope.

(** A guard: [if c { return Err(err) }] followed by [k]. *)
Notation "'fail_if' c 'with' err ';' k" := (if c then Err err else k)
  (at level 10, c at level 100, err at level 100, k at level 200)
  : colony_scope.

(** [Option::ok_or]. *)
Definition ok_or {A E} (o : option A) (err : E) : Result A E :=
  match o with
  | Some a => Ok a
  | None => Err err
  end.

(** [Result::map_err]. *)
Definition map_err {A E F} (f : E -> F) (r : Result A E) : Result A F :=
  match r with
  | Ok a => Ok a
  | Err e => Err (f e)
  end.

(** [Result::ok]. *)
Definition ok {A E} (r : Result A E) : option A :=
  match r with
  | Ok a => Some a
  | Err _ => None
  end.

(** [Option<Result>::transpose] after a map: [None] stays [Ok(None)]. *)
Definition map_transpose {A B E} (f : A -> Result B E) (o : option A) : Result (option B) E :=
  match o with
  | None => Ok None
  | Some a => let? b := f a in Ok (Some b)
  end.

Definition is_ok {A E} (r : Result A E) : bool :=
  match r with
  | Ok _ => true
  | Err _ => false
  end.

(** [Option::is_some]. *)
Definition is_some {A} (o : option A) : bool :=
  match o with
  | Some _ => true
  | None => false
  end.

(** [iter.map(f).collect::<Result<Vec<_>, _>>()]: the first error wins. *)
Fixpoint try_map {A B E} (f : A -> Result B E) (l : list A) : Result (list B) E :=
  match l with
  | [] => Ok []
  | a :: l' => let? b := f a in let? bs := try_map f l' in Ok (b :: bs)
  end.

(** ** Stable sorting

    [slice::sort_by] and [sort_by_key] are stable; a stable sort has one
    possible result, so insertion sort is a faithful definition of it. *)

Section StableSort.
Context {A : Type} (leb : A -> A -> bool).

Fixpoint insert_sorted (x : A) (l : list A) : list A :=
  match l with
  | [] => [x]
  | y :: l' => if leb x y then x :: y :: l' else y :: insert_sorted x l'
  end.

Definition sort_by (l : list A) : list A := foldr insert_sorted [] l.
End StableSort.

(** ** Best of a list

    The loop [for x in l { match best { None => best = Some(x), Some(c) if
    better(x, c) => best = Some(x), _ => {} } }]. *)

Definition best_step {A} (better : A -> A -> bool) (best : option A) (x : A) : option A :=
  match best with
  | None => Some x
  | Some c => if better x c then Some x else Some c
  end.

Definition pick_best {A} (better : A -> A -> bool) (l : list A) : option A :=
  foldl (best_step better) None l.

(** [Iterator::filter_map]. *)
Fixpoint filter_map {A B} (f : A -> option B) (l : list A) : list B :=
  match l with
  | [] => []
  | a :: l' =>
      match f a with
      | Some b => b :: filter_map f l'
      | None => filter_map f l'
      end
  end.

(** [Iterator::position]. *)
Fixpoint position {A} (f : A -> bool) (l : list A) : option nat :=
  match l with
  | [] => None
  | a :: l' => if f a then Some O else S <$> position f l'
  end.

(** ** Sums *)

(** [l.iter().map(f).sum()] in unbounded arithmetic. *)
Definition zsum {A} (f : A -> Z) (l : list A) : Z := foldr (fun a s => (f a + s)%Z) 0%Z l.

(** ** Transactions *)

(** How the database behaves during a call: it works, it is lost before the
    commit, or the answer to the commit is lost. *)
Inductive DbFault := DbUp | DbLost | CommitUnknown.

(** A transaction over the tables [S]: when it fails nothing of it stays. *)
Definition run_tx {S A E} (lost : E) (fault : DbFault) (t : S -> Result (S * A) E) (s : S)
    : Result A E * S :=
  match fault, t s with
  | DbLost, _ => (Err lost, s)
  | _, Err e => (Err e, s)
  | DbUp, Ok (s', a) => (Ok a, s')
  | CommitUnknown, Ok (s', _) => (Err lost, s')
  end.

(** ** Tactics of the development *)

(** Case analysis on every [match] and [if] in sight, closing the branches
    that contradict each other. *)
Ltac break_match :=
  repeat (case_match; simplify_eq/=; try done).

(** Splits a hypothesis [rbind e k = Ok v] into the value of [e] and the rest. *)
Ltac inv_bind :=
  repeat match goal with
  | H : rbind ?e _ = Ok _ |- _ =>
      let E := fresh "Hb" in
      destruct e eqn:E; cbn [rbind] in H; [ | discriminate H ]
  | H : (if ?c then Err _ else _) = Ok _ |- _ =>
      let E := fresh "Hc" in
      destruct c eqn:E; [ discriminate H | ]
  | H : Ok _ = Ok _ |- _ => injection H as H; subst
  end.

Create HintDb colony.

(** ** Lemmas on results *)

Lemma ok_or_ok {A E} (o : option A) (e : E) a : ok_or o e = Ok a <-> o = Some a.
Proof. destruct o; cbn; naive_solver. Qed.
Lemma rbind_ok {A B E} (e : Result A E) (k : A -> Result B E) v :
  rbind e k = Ok v <-> exists a, e = Ok a /\ k a = Ok v.
Proof.
  destruct e as [a|err]; simpl; split.
  - intros H. eauto.
  - intros (b & [= ->] & H). done.
  - done.
  - intros (b & H & _). done.
Qed.

Lemma try_map_ok {A B E} (f : A -> Result B E) l bs :
  try_map f l = Ok bs <-> Forall2 (fun a b => f a = Ok b) l bs.
Proof.
  revert bs. induction l as [|a l IH]; intros bs; simpl.
  - split; [intros [= <-]; constructor | inversion 1; done].
  - rewrite rbind_ok. split.
    + intros (b & Hb & H). rewrite rbind_ok in H. destruct H as (bs' & Hbs & [= <-]).
      constructor; [done | by apply IH].
    + inversion 1 as [|? b ? bs' Hb Hbs]; subst. exists b. split; [done|].
      rewrite rbind_ok. exists bs'. split; [by apply IH | done].
Qed.

Lemma try_map_err {A B E} (f : A -> Result B E) l err :
  try_map f l = Err err <->
  exists l1 a l2, l = l1 ++ a :: l2 /\ f a = Err err /\ Forall (fun x => is_ok (f x)) l1.
Proof.
  induction l as [|a l IH]; simpl.
  - split; [done|]. intros (l1 & a & l2 & H & _). by destruct l1.
  - destruct (f a) as [b|e] eqn:Ha; simpl.
    + split.
      * intros H. destruct (try_map f l) as [bs|e']; simpl in H; [done|].
        injection H as ->. destruct IH as [IH _].
        destruct (IH eq_refl) as (l1 & x & l2 & -> & Hx & HF).
        exists (a :: l1), x, l2. split_and!; [done|done|].
        constructor; [by rewrite Ha | done].
      * intros (l1 & x & l2 & Hl & Hx & HF). destruct l1 as [|y l1]; simplify_eq/=; [congruence|].
        apply Forall_cons_1 in HF as [_ HF].
        destruct IH as [_ IH]. rewrite IH; [done|]. by exists l1, x, l2.
    + split.
      * intros [= ->]. exists [], a, l. split_and!; [done|done|constructor].
      * intros (l1 & x & l2 & Hl & Hx & HF). destruct l1 as [|y l1]; simplify_eq/=; [congruence|].
        apply Forall_cons_1 in HF as [HF _]. rewrite Ha in HF. done.
Qed.

(** ** Lemmas on positions *)

Lemma position_some {A} (f : A -> bool) l i :
  position f l = Some i <->
  (exists x, l !! i = Some x /\ f x = true) /\ Forall (fun x => f x = false) (take i l).
Proof.
  revert i. induction l as [|a l IH]; intros i; cbn.
  - split; [done|]. by intros [(x & H & _) _].
  - destruct (f a) eqn:Ha.
    + split; [intros [= <-]; cbn; split; [by exists a|constructor]|].
      intros [_ HF]. destruct i as [|i]; [done|]. cbn in HF.
      apply Forall_cons_1 in HF as [HF _]. congruence.
    + destruct i as [|i]; cbn.
      * split; [by destruct (position f l)|]. intros [(x & [= <-] & Hx) _]. congruence.
      * rewrite Forall_cons. specialize (IH i). destruct (position f l) as [j|]; cbn.
        -- split; [intros [= ->]; split; [apply IH | split; [done|apply IH]]; done|].
           intros (Hx & _ & HF). pose proof (proj2 IH (conj Hx HF)) as E. by injection E as ->.
        -- split; [done|]. intros (Hx & _ & HF). pose proof (proj2 IH (conj Hx HF)) as E. discriminate E.
Qed.

Lemma position_lt {A} (f : A -> bool) l i : position f l = Some i -> (i < length l)%nat.
Proof. intros [(x & Hx & _) _]%position_some. by apply lookup_lt_Some in Hx. Qed.

Lemma position_none {A} (f : A -> bool) l : position f l = None <-> existsb f l = false.
Proof.
  induction l as [|a l IH]; cbn; [done|]. destruct (f a); cbn; [done|]. rewrite <- IH.
  by destruct (position f l).
Qed.

(** ** Lemmas on sums *)

Lemma zsum_cons {A} (f : A -> Z) a l : zsum f (a :: l) = (f a + zsum f l)%Z.
Proof. done. Qed.

Lemma zsum_app {A} (f : A -> Z) l1 l2 : zsum f (l1 ++ l2) = (zsum f l1 + zsum f l2)%Z.
Proof. unfold zsum. induction l1 as [|a l1 IH]; cbn; lia. Qed.

Lemma zsum_fmap {A B} (g : A -> B) (f : B -> Z) l : zsum f (g <$> l) = zsum (fun a => f (g a)) l.
Proof. unfold zsum. induction l as [|a l IH]; cbn; [done|]. by rewrite <- IH. Qed.

Lemma zsum_ext {A} (f g : A -> Z) l : (forall a, a ∈ l -> f a = g a) -> zsum f l = zsum g l.
Proof.
  unfold zsum. induction l as [|a l IH]; cbn; [done|]. intros Hfg.
  rewrite (Hfg a) by apply list_elem_of_here. rewrite IH; [done|].
  intros b Hb. apply Hfg. by apply list_elem_of_further.
Qed.

Lemma zsum_bounds {A} (f : A -> Z) l lo hi :
  (forall a, a ∈ l -> (lo <= f a <= hi)%Z) ->
  (lo * Z.of_nat (length l) <= zsum f l <= hi * Z.of_nat (length l))%Z.
Proof.
  induction l as [|a l IH]; cbn [zsum foldr length]; [lia|]. intros Hb.
  pose proof (Hb a (list_elem_of_here _ _)).
  assert (lo * Z.of_nat (length l) <= zsum f l <= hi * Z.of_nat (length l))%Z as IH'.
  { apply IH. intros b Hin. apply Hb. by apply list_elem_of_further. }
  unfold zsum in IH'. lia.
Qed.

Lemma zsum_perm {A} (f : A -> Z) l l' : l ≡ₚ l' -> zsum f l = zsum f l'.
Proof. unfold zsum. induction 1; cbn; lia. Qed.

Lemma zsum_plus {A} (f g : A -> Z) l : zsum (fun a => (f a + g a)%Z) l = (zsum f l + zsum g l)%Z.
Proof. induction l as [|a l IH]; cbn; [done|]. unfold zsum in *. lia. Qed.

Lemma zsum_filter {A} (f : A -> Z) (p : A -> bool) l :
  zsum f (List.filter p l) = zsum (fun a => if p a then f a else 0%Z) l.
Proof.
  induction l as [|a l IH]; cbn; [done|]. unfold zsum in *. destruct (p a); cbn; lia.
Qed.

(** ** Lemmas on filters *)

Lemma filter_map_ext {A B} (f g : A -> option B) l :
  (forall a, a ∈ l -> f a = g a) -> filter_map f l = filter_map g l.
Proof.
  induction l as [|a l IH]; intros Hfg; cbn; [done|].
  rewrite (Hfg a) by apply list_elem_of_here.
  by rewrite IH by (intros b Hb; apply Hfg; by apply list_elem_of_further).
Qed.

Lemma elem_of_filter_map {A B} (f : A -> option B) l b :
  b ∈ filter_map f l <-> exists a, a ∈ l /\ f a = Some b.
Proof.
  induction l as [|a l IH]; cbn.
  - split; [by intros ?%not_elem_of_nil | intros (a & ?%not_elem_of_nil & _); done].
  - destruct (f a) as [b'|] eqn:Ha; rewrite ?elem_of_cons, IH; setoid_rewrite elem_of_cons;
      naive_solver.
Qed.

Lemma filter_map_app {A B} (f : A -> option B) l1 l2 :
  filter_map f (l1 ++ l2) = filter_map f l1 ++ filter_map f l2.
Proof. induction l1 as [|a l1 IH]; cbn; [done|]. destruct (f a); cbn; by rewrite IH. Qed.

Lemma Forall_elem {A} (P : A -> Prop) l : Forall P l <-> forall x, x ∈ l -> P x.
Proof. apply list.Forall_forall. Qed.

Lemma elem_of_filterb {A} (f : A -> bool) (x : A) l : x ∈ List.filter f l <-> x ∈ l /\ f x = true.
Proof. by rewrite !list_elem_of_In, List.filter_In. Qed.

Lemma filterb_nil {A} (f : A -> bool) l : (forall x, x ∈ l -> f x = false) -> List.filter f l = [].
Proof.
  induction l as [|x l IH]; intros Hf; cbn; [done|]. rewrite (Hf x) by apply list_elem_of_here.
  apply IH. intros y Hy. apply Hf. by apply list_elem_of_further.
Qed.
Lemma filterb_all {A} (f : A -> bool) l : (forall x, x ∈ l -> f x = true) -> List.filter f l = l.
Proof.
  induction l as [|x l IH]; [done|]. intros H. cbn. rewrite H by apply elem_of_cons, or_introl, eq_refl.
  f_equal. apply IH. intros y Hy. apply H. by apply elem_of_cons; right.
Qed.
Lemma length_filterb_nil {A} (f : A -> bool) l : (forall x, x ∈ l -> f x = false) -> length (List.filter f l) = 0%nat.
Proof. intros Hf. by rewrite filterb_nil. Qed.
Lemma existsb_false {A} (f : A -> bool) l : existsb f l = false <-> forall x, x ∈ l -> f x = false.
Proof.
  induction l as [|x l IH]; cbn; [split; [by intros _ y ?%not_elem_of_nil|done]|].
  rewrite orb_false_iff, IH. setoid_rewrite elem_of_cons. split.
  - intros [Hx Hl] y [->|Hy]; auto.
  - intros Hall. split; [apply Hall; by left | intros y Hy; apply Hall; by right].
Qed.

(** A decomposition of the filtered list is one of the list itself. *)
Lemma filter_split {A} (f : A -> bool) (l l1 l2 : list A) e :
  List.filter f l = l1 ++ e :: l2 ->
  exists k1 k2, l = k1 ++ e :: k2 /\ f e = true /\ List.filter f k1 = l1 /\ List.filter f k2 = l2.
Proof.
  revert l1. induction l as [|x l IH]; intros l1 H; cbn in H; [by destruct l1|].
  destruct (f x) eqn:Hx.
  - destruct l1 as [|y l1]; cbn in H.
    + injection H as -> <-. exists [], l. by split_and!.
    + injection H as -> H. destruct (IH l1 H) as (k1 & k2 & -> & He & H1 & H2).
      exists (y :: k1), k2. cbn. rewrite Hx, H1. by split_and!.
  - destruct (IH l1 H) as (k1 & k2 & -> & He & H1 & H2).
    exists (x :: k1), k2. cbn. rewrite Hx. by split_and!.
Qed.

(** ** Lemmas on the stable sort *)

Section StableSortFacts.
Context {A : Type} (leb : A -> A -> bool).
Hypothesis leb_total : forall x y, leb x y = true \/ leb y x = true.
Hypothesis leb_trans : forall x y z, leb x y = true -> leb y z = true -> leb x z = true.

Lemma insert_sorted_perm x l : insert_sorted leb x l ≡ₚ x :: l.
Proof.
  induction l as [|y l IH]; simpl; [done|].
  destruct (leb x y); [done|]. rewrite IH. apply perm_swap.
Qed.

Lemma sort_by_perm l : sort_by leb l ≡ₚ l.
Proof.
  induction l as [|x l IH]; simpl; [done|].
  rewrite insert_sorted_perm. by rewrite IH.
Qed.

Lemma insert_sorted_sorted x l :
  StronglySorted leb l -> StronglySorted leb (insert_sorted leb x l).
Proof.
  induction 1 as [|y l Hl IH Hy]; simpl; [by repeat constructor|].
  destruct (leb x y) eqn:Hxy.
  - constructor; [by constructor|]. constructor; [by apply Is_true_true|].
    eapply Forall_impl; [exact Hy|]. intros z Hz. apply Is_true_true in Hz.
    apply Is_true_true. eauto.
  - constructor; [done|]. rewrite insert_sorted_perm. constructor; [|done].
    apply Is_true_true. destruct (leb_total x y); congruence.
Qed.

Lemma sort_by_sorted l : StronglySorted leb (sort_by leb l).
Proof. induction l; simpl; [constructor | by apply insert_sorted_sorted]. Qed.

(** Inputs that are permutations of each other sort to the same list, as
    long as the order separates the elements. *)
Lemma sort_by_unique l1 l2 :
  (forall x y, x ∈ l1 -> y ∈ l1 -> leb x y = true -> leb y x = true -> x = y) ->
  l1 ≡ₚ l2 -> sort_by leb l1 = sort_by leb l2.
Proof.
  intros Hanti Hperm.
  apply (StronglySorted_unique_strong leb).
  - intros x y Hx Hy. rewrite sort_by_perm in Hx. rewrite sort_by_perm, <- Hperm in Hy.
    rewrite !Is_true_true. eauto.
  - apply sort_by_sorted.
  - apply sort_by_sorted.
  - by rewrite !sort_by_perm.
Qed.
End StableSortFacts.

(** ** Lemmas on the best of a list *)

Section PickBest.
Context {A : Type} (better : A -> A -> bool) (le : A -> A -> Prop).
Hypothesis le_total : forall x y, le x y \/ le y x.
Hypothesis le_trans : forall x y z, le x y -> le y z -> le x z.

Lemma pick_best_snoc l x : pick_best better (l ++ [x]) = best_step better (pick_best better l) x.
Proof. unfold pick_best. by rewrite foldl_app. Qed.

Lemma pick_best_none l : pick_best better l = None <-> l = [].
Proof.
  destruct l as [|x l] using rev_ind; [done|]. rewrite pick_best_snoc.
  split; [|by destruct l]. unfold best_step. by repeat case_match.
Qed.

Lemma pick_best_some l : l <> [] -> exists e, pick_best better l = Some e.
Proof. destruct (pick_best better l) eqn:E; [eauto|]. by rewrite pick_best_none in E. Qed.

Lemma pick_best_elem l e : pick_best better l = Some e -> e ∈ l.
Proof.
  revert e. induction l as [|x l IH] using rev_ind; [done|]. intros e. rewrite pick_best_snoc.
  rewrite elem_of_app, list_elem_of_singleton. unfold best_step.
  destruct (pick_best better l); [case_match|]; intros [= <-]; auto.
Qed.

(** A newcomer that is at least as good wins: the last of the maxima. *)
Lemma pick_best_last_some l e :
  (forall x c, better x c = true <-> le c x) ->
  pick_best better l = Some e ->
  exists l1 l2, l = l1 ++ e :: l2 /\ Forall (fun x => le x e) l1 /\ Forall (fun x => ~ le e x) l2.
Proof.
  intros Hb. revert e. induction l as [|x l IH] using rev_ind; [done|]. intros e.
  rewrite pick_best_snoc. unfold best_step.
  destruct (pick_best better l) as [c|] eqn:E.
  - destruct (IH c eq_refl) as (l1 & l2 & -> & H1 & H2).
    assert (Forall (fun y => le y c) (l1 ++ c :: l2)) as Hall.
    { apply Forall_app. split; [done|]. constructor; [destruct (le_total c c); done|].
      eapply Forall_impl; [exact H2|]. intros y Hy. cbn in Hy. by destruct (le_total c y). }
    destruct (better x c) eqn:Hxc; intros [= <-].
    + apply Hb in Hxc. exists (l1 ++ c :: l2), []. split_and!; [done| |constructor].
      eapply Forall_impl; [exact Hall|]. intros y Hy. cbn in Hy. eauto.
    + exists l1, (l2 ++ [x]). rewrite <- app_assoc. split_and!; [done|done|].
      apply Forall_app. split; [done|]. constructor; [|constructor].
      intros Hle. apply Hb in Hle. congruence.
  - intros [= <-]. apply pick_best_none in E as ->. exists [], []. by split_and!.
Qed.

Lemma pick_best_last l e :
  (forall x c, better x c = true <-> le c x) ->
  pick_best better l = Some e <->
  exists l1 l2, l = l1 ++ e :: l2 /\ Forall (fun x => le x e) l1 /\ Forall (fun x => ~ le e x) l2.
Proof.
  intros Hb. split; [by apply pick_best_last_some|]. intros (l1 & l2 & -> & H1 & H2).
  induction l2 as [|x l2 IH] using rev_ind.
  - rewrite pick_best_snoc. unfold best_step. destruct (pick_best better l1) as [c|] eqn:E; [|done].
    apply pick_best_elem in E. rewrite Forall_elem in H1. apply H1, Hb in E. by rewrite E.
  - apply Forall_app in H2 as [H2 Hx]. apply Forall_cons_1 in Hx as [Hx _].
    rewrite app_comm_cons, app_assoc, pick_best_snoc, IH by done. cbn.
    destruct (better x e) eqn:E; [|done]. by apply Hb in E.
Qed.

(** A newcomer must be strictly better: the first of the maxima. *)
Lemma pick_best_first l e :
  (forall x c, better x c = false <-> le x c) ->
  pick_best better l = Some e ->
  exists l1 l2, l = l1 ++ e :: l2 /\ Forall (fun x => ~ le e x) l1 /\ Forall (fun x => le x e) l2.
Proof.
  intros Hb. revert e. induction l as [|x l IH] using rev_ind; [done|]. intros e.
  rewrite pick_best_snoc. unfold best_step.
  destruct (pick_best better l) as [c|] eqn:E.
  - destruct (IH c eq_refl) as (l1 & l2 & -> & H1 & H2).
    assert (Forall (fun y => le y c) (l1 ++ c :: l2)) as Hall.
    { apply Forall_app. split; [|constructor; [by destruct (le_total c c) | done]].
      eapply Forall_impl; [exact H1|]. intros y Hy. cbn in Hy. by destruct (le_total c y). }
    destruct (better x c) eqn:Hxc; intros [= <-].
    + exists (l1 ++ c :: l2), []. split_and!; [done| |constructor].
      eapply Forall_impl; [exact Hall|]. intros y Hy Hle. cbn in Hy.
      assert (le x c) as Hxc' by eauto. apply Hb in Hxc'. congruence.
    + exists l1, (l2 ++ [x]). rewrite <- app_assoc. split_and!; [done|done|].
      apply Forall_app. split; [done|]. constructor; [|constructor].
      by apply Hb.
  - intros [= <-]. apply pick_best_none in E as ->. exists [], []. by split_and!.
Qed.
End PickBest.

(** ** Transactions *)

Lemma run_tx_state {S A E} (lost : E) fault (t : S -> Result (S * A) E) s :
  snd (run_tx lost fault t s) = s \/ exists s' a, t s = Ok (s', a) /\ snd (run_tx lost fault t s) = s'.
Proof. unfold run_tx. destruct fault, (t s) as [[s' a]|e] eqn:Ht; cbn; eauto. Qed.
