(* ===== verification/MachineInt.v ===== *)
(** * Machine integers

    Rust's fixed-width integers are [Z] with their range stated where it
    matters. Saturating, checked and absolute-difference operations are the
    standard library's. Plain [+] on [u128] wraps, which is what a release
    build does (no profile of the workspace turns [overflow-checks] on); a
    debug build panics in the cases where a wrap would change the value. Rust's
    [f64] is the standard library's binary64. *)

From Stdlib Require Import ZArith Lia SpecFloat.
From stdpp Require Import base numbers.
From S2P Require Import Prelude.
Local Open Scope Z_scope.

Definition u32_max : Z := 4294967295.
Definition u64_max : Z := 18446744073709551615.
Definition u128_modulus : Z := 340282366920938463463374607431768211456.
Definition i32_min : Z := -2147483648.
Definition i32_max : Z := 2147483647.
Definition i64_min : Z := -9223372036854775808.
Definition i64_max : Z := 9223372036854775807.

(** A value of type [u64]. *)
Definition in_u64 (x : Z) : Prop := 0 <= x <= u64_max.
(** A value of type [u128]. *)
Definition in_u128 (x : Z) : Prop := 0 <= x < u128_modulus.

(** [u64::saturating_add], [u64::saturating_sub]. *)
Definition saturating_add64 (a b : Z) : Z := Z.min (a + b) u64_max.
Definition saturating_sub64 (a b : Z) : Z := Z.max (a - b) 0.

(** [u64::checked_mul], [u64::checked_add]. *)
Definition checked_mul64 (a b : Z) : option Z :=
  if a * b <=? u64_max then Some (a * b) else None.
Definition checked_add64 (a b : Z) : option Z :=
  if a + b <=? u64_max then Some (a + b) else None.

(** [i64]: its range, the saturating and the checked operations on a result. *)
Definition in_i64 (x : Z) : bool := (i64_min <=? x) && (x <=? i64_max).
Definition saturate_i64 (x : Z) : Z := Z.max i64_min (Z.min x i64_max).
Definition checked_i64 (x : Z) : option Z := if in_i64 x then Some x else None.

(** [abs_diff] on an unsigned type. *)
Definition abs_diff (a b : Z) : Z := Z.abs (a - b).

(** [+] on [u128]. *)
Definition wrap128 (x : Z) : Z := x mod u128_modulus.
Definition add128 (a b : Z) : Z := wrap128 (a + b).

(** ** Facts *)

Lemma wrap128_range x : in_u128 (wrap128 x).
Proof. apply Z.mod_pos_bound. reflexivity. Qed.

Lemma wrap128_small x : in_u128 x -> wrap128 x = x.
Proof. apply Z.mod_small. Qed.

Lemma wrap128_add_l a b : wrap128 (wrap128 a + b) = wrap128 (a + b).
Proof. apply Zplus_mod_idemp_l. Qed.

Lemma wrap128_add_r a b : wrap128 (a + wrap128 b) = wrap128 (a + b).
Proof. apply Zplus_mod_idemp_r. Qed.

Lemma add128_small a b : 0 <= a -> 0 <= b -> a + b < u128_modulus -> add128 a b = a + b.
Proof. intros. apply wrap128_small. unfold in_u128. lia. Qed.

Lemma saturating_add64_range a b : in_u64 a -> in_u64 b -> in_u64 (saturating_add64 a b).
Proof. unfold in_u64, saturating_add64, u64_max. lia. Qed.

(** Saturating addition is associative on non-negative values: a chain of
    them is the saturated sum. *)
Lemma saturating_add64_assoc a b c :
  0 <= a -> 0 <= b -> 0 <= c ->
  saturating_add64 (saturating_add64 a b) c = Z.min (a + b + c) u64_max.
Proof. unfold saturating_add64, u64_max. lia. Qed.

#[export] Hint Resolve wrap128_range saturating_add64_range : colony.

(** ** Double-precision numbers

    Rust's [f64] as the provider-cost reader uses it: the standard library's
    specification of binary64, whose operations round to nearest even. *)

Local Open Scope Z_scope.

Definition F64 : Type := spec_float.

(** [n as f64], [a * b], [a + b]. *)
Definition f64_of_int (n : Z) : F64 := binary_normalize 53 1024 n 0 false.
Definition f64_mul (a b : F64) : F64 := SFmul 53 1024 a b.
Definition f64_add (a b : F64) : F64 := SFadd 53 1024 a b.
Definition f64_div (a b : F64) : F64 := SFdiv 53 1024 a b.
Definition f64_zero : F64 := S754_zero false.

(** [f64::is_finite], [a > b] and [a >= b], both false on a NaN. *)
Definition is_finite (x : F64) : bool :=
  match x with S754_zero _ | S754_finite _ _ _ => true | _ => false end.
Definition f64_gt (a b : F64) : bool := SFltb b a.
Definition f64_ge (a b : F64) : bool := SFleb b a.

(** [f64::round], half away from zero. The result is a whole number whenever
    the argument is finite: its value is given instead of its bits. *)
Definition f64_round (x : F64) : option Z :=
  match x with
  | S754_zero _ => Some 0
  | S754_finite neg m e =>
      let magnitude :=
        if 0 <=? e then Z.pos m * 2 ^ e
        else (Z.pos m + 2 ^ (- e - 1)) / 2 ^ (- e) in
      Some (if neg then - magnitude else magnitude)
  | _ => None
  end.

(** ** Facts *)

Lemma f64_round_finite x : is_some (f64_round x) = is_finite x.
Proof. by destruct x. Qed.

Lemma f64_round_sign neg m e n :
  f64_round (S754_finite neg m e) = Some n -> if neg then n <= 0 else 0 <= n.
Proof.
  cbn. intros [= <-].
  assert (0 <= if 0 <=? e then Z.pos m * 2 ^ e else (Z.pos m + 2 ^ (- e - 1)) / 2 ^ (- e)).
  { destruct (Z.leb_spec 0 e).
    - pose proof (Z.pow_pos_nonneg 2 e). lia.
    - apply Z.div_pos; [|apply Z.pow_pos_nonneg; lia].
      pose proof (Z.pow_nonneg 2 (- e - 1)). lia. }
  destruct neg; lia.
Qed.

(** Rounding a positive number below a half gives zero, and only then. *)
Lemma f64_round_zero m e :
  f64_round (S754_finite false m e) = Some 0 <-> 2 * Z.pos m < 2 ^ (- e) /\ e < 0.
Proof.
  cbn. destruct (Z.leb_spec 0 e).
  - split; [intros [= Hz]|lia]. pose proof (Z.pow_pos_nonneg 2 e). lia.
  - assert (2 ^ (- e) = 2 * 2 ^ (- e - 1)) as Hp
      by (rewrite <- Z.pow_succ_r by lia; f_equal; lia).
    pose proof (Z.pow_pos_nonneg 2 (- e - 1) ltac:(lia) ltac:(lia)).
    split.
    + intros [= Hz]. split; [|done]. apply Z.div_small_iff in Hz; lia.
    + intros [Hm _]. f_equal. apply Z.div_small. lia.
Qed.
