(* ===== verification/RustStr.v ===== *)
(** * Strings

    A Rust [String] or [&str] is its UTF-8 byte sequence, a Rocq [string].
    [len] is the byte length, [chars().count()] counts the bytes that start a
    character, and [trim] removes the characters of Unicode's [White_Space]
    property by their encodings. All of them agree with Rust on well-formed
    UTF-8, which is the only thing a Rust string can hold. *)

From Stdlib Require Import ZArith Lia Ascii.
From stdpp Require Import base list strings numbers.
From S2P Require Import Prelude MachineInt.
Local Open Scope Z_scope.

#[global] Arguments String.append !_ _ / : simpl nomatch.

Definition code (c : ascii) : Z := Z.of_N (N_of_ascii c).
Definition in_code_range (lo hi : Z) (c : ascii) : bool := (lo <=? code c) && (code c <=? hi).

(** [u8::is_ascii_digit] and friends. *)
Definition is_ascii_digit : ascii -> bool := in_code_range 48 57.
Definition is_ascii_lowercase : ascii -> bool := in_code_range 97 122.
Definition is_ascii_uppercase : ascii -> bool := in_code_range 65 90.
Definition is_ascii_alphanumeric (c : ascii) : bool :=
  is_ascii_digit c || is_ascii_lowercase c || is_ascii_uppercase c.
Definition is_ascii_hexdigit (c : ascii) : bool :=
  is_ascii_digit c || in_code_range 97 102 c || in_code_range 65 70 c.
Definition to_ascii_lower (c : ascii) : ascii :=
  if is_ascii_uppercase c then ascii_of_N (N_of_ascii c + 32) else c.

Definition str_len (s : string) : Z := Z.of_nat (String.length s).

Fixpoint str_map (f : ascii -> ascii) (s : string) : string :=
  match s with
  | EmptyString => EmptyString
  | String c s' => String (f c) (str_map f s')
  end.

(** [bytes().all(p)]; [chars().all(p)] for a predicate that only accepts ASCII. *)
Fixpoint str_all (p : ascii -> bool) (s : string) : bool :=
  match s with
  | EmptyString => true
  | String c s' => p c && str_all p s'
  end.

(** [str::contains(char)] for an ASCII character. *)
Fixpoint str_contains (c : ascii) (s : string) : bool :=
  match s with
  | EmptyString => false
  | String d s' => Ascii.eqb c d || str_contains c s'
  end.

Fixpoint str_filter (p : ascii -> bool) (s : string) : string :=
  match s with
  | EmptyString => EmptyString
  | String c s' => if p c then String c (str_filter p s') else str_filter p s'
  end.

Definition to_ascii_lowercase (s : string) : string := str_map to_ascii_lower s.
Definition eq_ignore_ascii_case (a b : string) : bool :=
  String.eqb (to_ascii_lowercase a) (to_ascii_lowercase b).

(** [chars().count()]: the bytes that are not UTF-8 continuation bytes. *)
Definition is_continuation : ascii -> bool := in_code_range 128 191.
Definition chars_count (s : string) : Z := str_len (str_filter (fun c => negb (is_continuation c)) s).

(** ** Prefixes and splitting *)

(** [str::strip_prefix]. *)
Fixpoint strip_prefix (p s : string) : option string :=
  match p, s with
  | EmptyString, _ => Some s
  | String a p', String b s' => if Ascii.eqb a b then strip_prefix p' s' else None
  | String _ _, EmptyString => None
  end.

(** [str::starts_with]. *)
Definition starts_with (p s : string) : bool := is_some (strip_prefix p s).

(** [str::split_once] on an ASCII character: at its first occurrence. *)
Fixpoint split_once (c : ascii) (s : string) : option (string * string) :=
  match s with
  | EmptyString => None
  | String d s' =>
      if Ascii.eqb c d then Some (EmptyString, s')
      else match split_once c s' with
           | Some (a, b) => Some (String d a, b)
           | None => None
           end
  end.

(** [str::split] on an ASCII character; never empty. *)
Fixpoint split_on (c : ascii) (s : string) : list string :=
  match s with
  | EmptyString => [EmptyString]
  | String d s' =>
      if Ascii.eqb c d then EmptyString :: split_on c s'
      else match split_on c s' with
           | [] => [String d EmptyString]
           | w :: ws => String d w :: ws
           end
  end.

(** ** Trimming *)

Definition bytes_str (l : list N) : string := String.string_of_list_ascii (ascii_of_N <$> l).

(** UTF-8 encodings of the characters with the [White_Space] property. *)
Definition white_space : list string :=
  bytes_str <$> ([[9]; [10]; [11]; [12]; [13]; [32]; [194; 133]; [194; 160]; [225; 154; 128];
   [226; 128; 128]; [226; 128; 129]; [226; 128; 130]; [226; 128; 131]; [226; 128; 132];
   [226; 128; 133]; [226; 128; 134]; [226; 128; 135]; [226; 128; 136]; [226; 128; 137];
   [226; 128; 138]; [226; 128; 168]; [226; 128; 169]; [226; 128; 175]; [226; 129; 159];
   [227; 128; 128]]%N).

Fixpoint str_rev_app (s acc : string) : string :=
  match s with
  | EmptyString => acc
  | String c s' => str_rev_app s' (String c acc)
  end.
Definition str_rev (s : string) : string := str_rev_app s EmptyString.
#[global] Arguments str_rev _ : simpl never.

(** The rest of [s] after the first of [ws] that begins it. *)
Fixpoint strip_one (ws : list string) (s : string) : option string :=
  match ws with
  | [] => None
  | w :: ws' =>
      match strip_prefix w s with
      | Some r => Some r
      | None => strip_one ws' s
      end
  end.

(** One character goes per step, so the byte length is enough fuel. *)
Fixpoint strip_all (fuel : nat) (ws : list string) (s : string) : string :=
  match fuel with
  | O => s
  | S fuel' =>
      match strip_one ws s with
      | Some r => strip_all fuel' ws r
      | None => s
      end
  end.

Definition trim_start (s : string) : string := strip_all (String.length s) white_space s.
Definition trim_end (s : string) : string :=
  str_rev (strip_all (String.length s) (str_rev <$> white_space) (str_rev s)).
(** [str::trim]. *)
Definition trim (s : string) : string := trim_end (trim_start s).
Definition str_is_empty (s : string) : bool := String.eqb s EmptyString.

(** ** Bytes of a number *)

(** [to_be_bytes] of a non-negative number on [n] bytes. *)
Fixpoint be_bytes (n : nat) (z : Z) : string :=
  match n with
  | O => EmptyString
  | S n' => String (ascii_of_N (Z.to_N (z / 256 ^ Z.of_nat n' mod 256))) (be_bytes n' z)
  end.

(** ** Numbers *)

Fixpoint digits_value (acc : Z) (s : string) : option Z :=
  match s with
  | EmptyString => Some acc
  | String c s' => if is_ascii_digit c then digits_value (acc * 10 + (code c - 48)) s' else None
  end.

(** The value of a non-empty run of decimal digits. *)
Definition parse_digits (s : string) : option Z :=
  match s with
  | EmptyString => None
  | String _ _ => digits_value 0 s
  end.

(** [str::parse] for an unsigned type with maximum [hi]: an optional leading
    [+] is accepted, as the standard library does. *)
Definition parse_uint (hi : Z) (s : string) : option Z :=
  match parse_digits (default s (strip_prefix "+" s)) with
  | Some n => if n <=? hi then Some n else None
  | None => None
  end.

(** [str::parse] for a signed type with range [lo, hi]. *)
Definition parse_int (lo hi : Z) (s : string) : option Z :=
  match strip_prefix "-" s with
  | Some r =>
      match parse_digits r with
      | Some n => if lo <=? - n then Some (- n) else None
      | None => None
      end
  | None => parse_uint hi s
  end.

Definition digit_char (d : Z) : ascii := ascii_of_N (Z.to_N (48 + d)).

Fixpoint dec_go (fuel : nat) (n : Z) (acc : string) : string :=
  match fuel with
  | O => acc
  | S fuel' =>
      let acc' := String (digit_char (n mod 10)) acc in
      if n / 10 =? 0 then acc' else dec_go fuel' (n / 10) acc'
  end.

(** [{n}] for a non-negative [n]; the binary length bounds the digits. *)
Definition dec (n : Z) : string := dec_go (S (Z.to_nat (Z.log2 n))) n EmptyString.

Fixpoint zeros (k : nat) (s : string) : string :=
  match k with
  | O => s
  | S k' => String "0"%char (zeros k' s)
  end.

(** [{n:0w}]. *)
Definition dec_pad (w : nat) (n : Z) : string :=
  let s := dec n in zeros (w - String.length s) s.

(** ** Facts: splitting and prefixes *)

Lemma strip_prefix_spec p s r : strip_prefix p s = Some r <-> s = (p +:+ r)%string.
Proof.
  revert s. induction p as [|a p IH]; intros s; cbn.
  - split; [by intros [= ->] | by intros ->].
  - destruct s as [|b s]; [by split|].
    destruct (Ascii.eqb_spec a b) as [->|Hne].
    + rewrite IH. split; [by intros -> | by intros [= ->]].
    + split; [done|]. intros [= -> _]. done.
Qed.

Lemma strip_prefix_app p r : strip_prefix p (p +:+ r)%string = Some r.
Proof. by apply strip_prefix_spec. Qed.

Lemma strip_prefix_self s : strip_prefix s s = Some EmptyString.
Proof. induction s as [|c s IH]; cbn; [done|]. by rewrite Ascii.eqb_refl. Qed.

Lemma str_contains_app c a b :
  str_contains c (a +:+ b)%string = str_contains c a || str_contains c b.
Proof. induction a as [|d a IH]; cbn; [done|]. by rewrite IH, orb_assoc. Qed.

(** What comes before the separator has none, and joining gives the input back. *)
Lemma split_once_spec c s a b :
  split_once c s = Some (a, b) <->
  s = (a +:+ String c b)%string /\ str_contains c a = false.
Proof.
  revert a b. induction s as [|d s IH]; intros a b; cbn.
  - split; [done|]. intros [H _]. by destruct a.
  - destruct (Ascii.eqb_spec c d) as [->|Hne].
    + split.
      * intros [= <- <-]. done.
      * intros [H Hc]. destruct a as [|e a]; cbn in *; simplify_eq; [done|].
        by rewrite Ascii.eqb_refl in Hc.
    + destruct (split_once c s) as [[a' b']|] eqn:Hs.
      * destruct (IH a' b') as [IH1 _]. destruct (IH1 eq_refl) as [-> Hc].
        split.
        -- intros [= <- <-]. cbn. split; [done|]. apply orb_false_iff. split; [|done].
           by apply Ascii.eqb_neq.
        -- intros [H Hc']. destruct a as [|e a]; cbn in H; simplify_eq.
           cbn in Hc'. apply orb_false_iff in Hc' as [_ Hc'].
           specialize (IH a b). destruct IH as [_ IH].
           assert (Some (a', b') = Some (a, b)) as [= -> ->] by (by apply IH). done.
      * split; [done|]. intros [H Hc]. destruct a as [|e a]; cbn in H; simplify_eq.
        cbn in Hc. apply orb_false_iff in Hc as [_ Hc].
        specialize (IH a b). destruct IH as [_ IH]. by discriminate IH.
Qed.

(** A separator-joined key determines its parts when the first has no separator. *)
Lemma joined_key_inj c a1 b1 a2 b2 :
  str_contains c a1 = false -> str_contains c a2 = false ->
  (a1 +:+ String c b1)%string = (a2 +:+ String c b2)%string -> a1 = a2 /\ b1 = b2.
Proof.
  intros H1 H2 Heq.
  assert (split_once c (a1 +:+ String c b1)%string = Some (a1, b1)) as E1
    by (by apply split_once_spec).
  rewrite Heq in E1. assert (split_once c (a2 +:+ String c b2)%string = Some (a2, b2)) as E2
    by (by apply split_once_spec).
  by simplify_eq.
Qed.

Lemma split_on_nonempty c s : split_on c s <> [].
Proof. destruct s as [|d s]; cbn; [done|]. repeat case_match; done. Qed.

Lemma eq_ignore_ascii_case_refl s : eq_ignore_ascii_case s s = true.
Proof. apply String.eqb_refl. Qed.

Lemma eq_ignore_ascii_case_sym a b : eq_ignore_ascii_case a b = eq_ignore_ascii_case b a.
Proof. apply String.eqb_sym. Qed.

(** ** Facts: decimal printing and parsing *)

Lemma code_digit_char d : 0 <= d < 10 -> code (digit_char d) = 48 + d.
Proof.
  intros Hd. unfold code, digit_char. rewrite N_ascii_embedding; [lia|].
  change 256%N with (Z.to_N 256). lia.
Qed.

Lemma is_ascii_digit_digit_char d : 0 <= d < 10 -> is_ascii_digit (digit_char d) = true.
Proof.
  intros Hd. unfold is_ascii_digit, in_code_range. rewrite code_digit_char by done. lia.
Qed.

Lemma digits_value_dec_go fuel n s :
  0 <= n < 10 ^ Z.of_nat fuel -> fuel <> O ->
  digits_value 0 (dec_go fuel n s) = digits_value n s.
Proof.
  revert n s. induction fuel as [|fuel IH]; intros n s Hn Hf; [done|]. cbn [dec_go].
  assert (0 <= n mod 10 < 10) as Hm by (apply Z.mod_pos_bound; lia).
  assert (forall a, digits_value a (String (digit_char (n mod 10)) s)
                    = digits_value (a * 10 + n mod 10) s) as Hstep.
  { intros a. cbn. rewrite is_ascii_digit_digit_char, code_digit_char by done. f_equal. lia. }
  pose proof (Z.div_mod n 10 ltac:(lia)) as Hdm.
  destruct (Z.eqb_spec (n / 10) 0) as [H0|H0].
  - rewrite Hstep. f_equal. lia.
  - destruct fuel as [|fuel].
    + exfalso. apply H0. apply Z.div_small. simpl in Hn. lia.
    + rewrite IH; [|split|done].
      * rewrite Hstep. f_equal. lia.
      * apply Z.div_pos; lia.
      * apply Z.div_lt_upper_bound; [lia|].
        rewrite Nat2Z.inj_succ, Z.pow_succ_r in Hn by lia. lia.
Qed.

Lemma dec_fuel n : 0 <= n -> n < 10 ^ Z.of_nat (S (Z.to_nat (Z.log2 n))).
Proof.
  intros Hn. pose proof (Z.log2_nonneg n).
  rewrite Nat2Z.inj_succ, Z2Nat.id by done.
  destruct (Z.eq_dec n 0) as [->|Hn0]; [done|].
  pose proof (Z.log2_spec n ltac:(lia)) as [_ Hlt].
  eapply Z.lt_le_trans; [exact Hlt|]. apply Z.pow_le_mono_l. lia.
Qed.

Lemma digits_value_dec n : 0 <= n -> digits_value 0 (dec n) = Some n.
Proof.
  intros Hn. unfold dec. rewrite digits_value_dec_go; [done| |done].
  split; [done | by apply dec_fuel].
Qed.

Lemma digits_value_zeros k s : digits_value 0 (zeros k s) = digits_value 0 s.
Proof. induction k as [|k IH]; [done | exact IH]. Qed.

Lemma digits_value_dec_pad w n : 0 <= n -> digits_value 0 (dec_pad w n) = Some n.
Proof. intros Hn. unfold dec_pad. rewrite digits_value_zeros. by apply digits_value_dec. Qed.

(** Padded printing loses nothing. *)
Lemma dec_pad_inj w n m : 0 <= n -> 0 <= m -> dec_pad w n = dec_pad w m -> n = m.
Proof.
  intros Hn Hm H. apply (f_equal (digits_value 0)) in H.
  rewrite !digits_value_dec_pad in H by done. congruence.
Qed.

Lemma dec_inj n m : 0 <= n -> 0 <= m -> dec n = dec m -> n = m.
Proof.
  intros Hn Hm H. apply (f_equal (digits_value 0)) in H.
  rewrite !digits_value_dec in H by done. congruence.
Qed.

Lemma digits_value_lower_bound acc s n : 0 <= acc -> digits_value acc s = Some n -> acc <= n.
Proof.
  revert acc. induction s as [|c s IH]; intros acc Hacc H; cbn in H; simplify_eq; [lia|].
  destruct (is_ascii_digit c) eqn:Hc; [|done].
  unfold is_ascii_digit, in_code_range in Hc. apply IH in H; lia.
Qed.

Lemma parse_digits_nonneg s n : parse_digits s = Some n -> 0 <= n.
Proof. destruct s; [done|]. intros H. by apply (digits_value_lower_bound 0) in H. Qed.

Lemma parse_uint_range hi s n : parse_uint hi s = Some n -> 0 <= n <= hi.
Proof.
  unfold parse_uint. intros H. destruct (parse_digits _) as [m|] eqn:Hm; [|done].
  apply parse_digits_nonneg in Hm. destruct (Z.leb_spec m hi); simplify_eq. lia.
Qed.

(** ** Facts: concatenation, reversal, trimming *)

Lemma str_all_append p a b : str_all p (a +:+ b)%string = str_all p a && str_all p b.
Proof. induction a as [|c a IH]; cbn; [done|]. by rewrite IH, andb_assoc. Qed.

Lemma str_append_nil_r a : (a +:+ EmptyString)%string = a.
Proof. induction a as [|c a IH]; cbn; [done|]. by rewrite IH. Qed.

Lemma str_append_assoc a b c : (a +:+ (b +:+ c))%string = ((a +:+ b) +:+ c)%string.
Proof. induction a as [|d a IH]; cbn; [done|]. by rewrite IH. Qed.

Lemma str_rev_app_spec s acc : str_rev_app s acc = (str_rev s +:+ acc)%string.
Proof.
  unfold str_rev. revert acc. induction s as [|c s IH]; intros acc; cbn; [done|].
  rewrite IH, (IH (String c EmptyString)). by rewrite <- str_append_assoc.
Qed.

Lemma str_rev_cons c s : str_rev (String c s) = (str_rev s +:+ String c EmptyString)%string.
Proof. unfold str_rev at 1. cbn. apply str_rev_app_spec. Qed.

Lemma str_rev_append a b : str_rev (a +:+ b)%string = (str_rev b +:+ str_rev a)%string.
Proof.
  induction a as [|c a IH]; cbn; [by rewrite str_append_nil_r|].
  by rewrite !str_rev_cons, IH, str_append_assoc.
Qed.

Lemma str_rev_involutive s : str_rev (str_rev s) = s.
Proof. induction s as [|c s IH]; [done|]. by rewrite str_rev_cons, str_rev_append, IH. Qed.

Lemma str_all_rev p s : str_all p (str_rev s) = str_all p s.
Proof.
  induction s as [|c s IH]; [done|]. rewrite str_rev_cons, str_all_append, IH. cbn.
  rewrite andb_true_r. apply andb_comm.
Qed.

(** A digit starts no white-space character, and ends none. *)
Lemma strip_white_digit c s :
  is_ascii_digit c = true ->
  strip_one white_space (String c s) = None
  /\ strip_one (str_rev <$> white_space) (String c s) = None.
Proof. intros Hc. destruct c as [[][][][][][][][]]; try discriminate Hc; by split. Qed.

(** A string that starts and ends with a digit is its own trimming. *)
Lemma trim_digit_ends s c1 s1 c2 s2 :
  s = String c1 s1 -> str_rev s = String c2 s2 ->
  is_ascii_digit c1 = true -> is_ascii_digit c2 = true -> trim s = s.
Proof.
  intros H1 H2 D1 D2. unfold trim.
  assert (trim_start s = s) as ->.
  { unfold trim_start. rewrite H1. cbn [String.length strip_all].
    by rewrite (proj1 (strip_white_digit c1 s1 D1)). }
  unfold trim_end. rewrite H2, H1. cbn [String.length strip_all].
  rewrite (proj2 (strip_white_digit c2 s2 D2)), <- H2, str_rev_involutive. done.
Qed.

Lemma all_digits_head s :
  s <> EmptyString -> str_all is_ascii_digit s = true ->
  exists c s', s = String c s' /\ is_ascii_digit c = true.
Proof. destruct s as [|c s']; [done|]. cbn. rewrite andb_true_iff. intros _ [Hc _]. eauto. Qed.

Lemma str_rev_nonempty s : s <> EmptyString -> str_rev s <> EmptyString.
Proof. intros H Hr. apply H. rewrite <- (str_rev_involutive s), Hr. done. Qed.

Lemma dec_go_digits fuel n s :
  0 <= n -> str_all is_ascii_digit s = true -> str_all is_ascii_digit (dec_go fuel n s) = true.
Proof.
  revert n s. induction fuel as [|fuel IH]; intros n s Hn Hs; cbn [dec_go]; [done|].
  assert (str_all is_ascii_digit (String (digit_char (n mod 10)) s) = true) as Hs'.
  { cbn. rewrite Hs, is_ascii_digit_digit_char; [done|]. apply Z.mod_pos_bound. lia. }
  case_match; [done|]. apply IH; [by apply Z.div_pos; lia|done].
Qed.

Lemma dec_digits n : 0 <= n -> str_all is_ascii_digit (dec n) = true.
Proof. intros Hn. by apply dec_go_digits. Qed.

Lemma dec_go_nonempty fuel n s : fuel <> O \/ s <> EmptyString -> dec_go fuel n s <> EmptyString.
Proof.
  revert n s. induction fuel as [|fuel IH]; intros n s H; cbn [dec_go].
  - destruct H; done.
  - case_match; [done|]. apply IH. by right.
Qed.

Lemma dec_nonempty n : dec n <> EmptyString.
Proof. apply dec_go_nonempty. by left. Qed.

Lemma dec_go_length fuel k n s :
  0 <= n < 10 ^ Z.of_nat k -> (1 <= k)%nat ->
  (String.length (dec_go fuel n s) <= k + String.length s)%nat.
Proof.
  revert k n s. induction fuel as [|fuel IH]; intros k n s Hn Hk; cbn [dec_go]; [lia|].
  case_match eqn:E; cbn; [lia|]. apply Z.eqb_neq in E.
  destruct k as [|[|k]]; [lia| |].
  - exfalso. apply E. apply Z.div_small. cbn in Hn. lia.
  - etrans; [apply (IH (S k))|cbn; lia]; [|lia]. split; [apply Z.div_pos; lia|].
    apply Z.div_lt_upper_bound; [lia|]. rewrite (Nat2Z.inj_succ (S k)), Z.pow_succ_r in Hn; lia.
Qed.

Lemma zeros_length k s : String.length (zeros k s) = (k + String.length s)%nat.
Proof. induction k as [|k IH]; cbn; [done|]. by rewrite IH. Qed.

Lemma dec_pad_length k n :
  (1 <= k)%nat -> 0 <= n < 10 ^ Z.of_nat k -> String.length (dec_pad k n) = k.
Proof.
  intros Hk Hn. unfold dec_pad. rewrite zeros_length.
  pose proof (dec_go_length (S (Z.to_nat (Z.log2 n))) k n EmptyString Hn Hk) as Hl.
  fold (dec n) in Hl. change (String.length EmptyString) with 0%nat in Hl. lia.
Qed.

Lemma zeros_digits k s : str_all is_ascii_digit (zeros k s) = str_all is_ascii_digit s.
Proof. induction k as [|k IH]; [done|exact IH]. Qed.

Lemma dec_pad_digits k n : 0 <= n -> str_all is_ascii_digit (dec_pad k n) = true.
Proof. intros Hn. unfold dec_pad. rewrite zeros_digits. by apply dec_digits. Qed.

Lemma all_digits_contains c s :
  is_ascii_digit c = false -> str_all is_ascii_digit s = true -> str_contains c s = false.
Proof.
  intros Hc. induction s as [|d s IH]; cbn; [done|]. rewrite andb_true_iff. intros [Hd Hs].
  rewrite (IH Hs), orb_false_r. apply Ascii.eqb_neq. intros ->. congruence.
Qed.

(** ** Facts: joining and splitting *)

Lemma split_on_none ch b : str_contains ch b = false -> split_on ch b = [b].
Proof.
  induction b as [|d b IH]; [done|]. cbn. intros [Hd Hb]%orb_false_iff. by rewrite Hd, IH.
Qed.
Lemma split_on_snoc ch a b :
  str_contains ch b = false -> split_on ch (a +:+ String ch b)%string = split_on ch a ++ [b].
Proof.
  intros Hb. pose proof (split_on_none ch b Hb) as Hone.
  induction a as [|d a IH]; cbn.
  - by rewrite Ascii.eqb_refl, Hone.
  - destruct (Ascii.eqb ch d); [by rewrite IH|]. rewrite IH.
    pose proof (split_on_nonempty ch a) as Hne. by destruct (split_on ch a).
Qed.

(** Digits, a point and digits: nothing to trim, and the point splits them. *)
Lemma decimal_text a b :
  a <> EmptyString -> b <> EmptyString -> str_all is_ascii_digit a = true -> str_all is_ascii_digit b = true ->
  trim (a +:+ String "."%char b)%string = (a +:+ String "."%char b)%string
  /\ split_once "."%char (a +:+ String "."%char b)%string = Some (a, b).
Proof.
  intros Ha Hb Da Db. destruct (all_digits_head a Ha Da) as (c1 & s1 & E1 & H1).
  destruct (all_digits_head (str_rev b)) as (c2 & s2 & E2 & H2).
  { by apply str_rev_nonempty. }
  { by rewrite str_all_rev. }
  split.
  - eapply trim_digit_ends; [|..|exact H1|exact H2].
    + rewrite E1. reflexivity.
    + rewrite str_rev_append, str_rev_cons, E2. reflexivity.
  - apply split_once_spec. split; [done|]. by apply all_digits_contains.
Qed.

(** Parsing a run of digits with a [u64] value. *)
Lemma parse_uint_digits hi s n :
  s <> EmptyString -> str_all is_ascii_digit s = true -> digits_value 0 s = Some n -> n <= hi ->
  parse_uint hi s = Some n.
Proof.
  intros Hne Hd Hv Hle. unfold parse_uint.
  destruct s as [|c s]; [done|]. cbn [strip_prefix].
  destruct (Ascii.eqb_spec "+"%char c) as [<-|_]; [by cbn in Hd|]. cbn [default parse_digits].
  rewrite Hv. destruct (Z.leb_spec n hi); [done|lia].
Qed.

Lemma parse_int_digits lo hi s n :
  s <> EmptyString -> str_all is_ascii_digit s = true -> digits_value 0 s = Some n -> n <= hi ->
  parse_int lo hi s = Some n.
Proof.
  intros Hne Hd Hv Hle. unfold parse_int. replace (strip_prefix "-" s) with (@None string).
  { by apply parse_uint_digits. }
  destruct s as [|c s]; [done|]. cbn [strip_prefix]. destruct (Ascii.eqb_spec "-"%char c) as [<-|]; [by cbn in Hd|done].
Qed.


(** ** Trimming twice *)

Lemma strip_one_none ws s : strip_one ws s = None <-> forall w, w ∈ ws -> strip_prefix w s = None.
Proof.
  induction ws as [|w ws IH]; cbn.
  - split; [|done]. intros _ w Hw. by apply not_elem_of_nil in Hw.
  - setoid_rewrite elem_of_cons. split.
    + destruct (strip_prefix w s) eqn:E; [done|]. intros H x [->|Hx]; [done|]. by apply IH.
    + intros H. rewrite (H w) by auto. apply IH. auto.
Qed.

Lemma strip_one_some ws s r : strip_one ws s = Some r -> exists w, w ∈ ws /\ s = (w +:+ r)%string.
Proof.
  induction ws as [|w ws IH]; cbn; [done|].
  destruct (strip_prefix w s) as [x|] eqn:E.
  - intros [= ->]. exists w. split; [left|]. by apply strip_prefix_spec.
  - intros H. destruct (IH H) as (w' & ? & ?). exists w'. split; [by right|done].
Qed.

Lemma strip_all_stuck fuel ws s : strip_one ws s = None -> strip_all fuel ws s = s.
Proof. intros H. destruct fuel; cbn; [done|]. by rewrite H. Qed.

Lemma str_append_length a b : String.length (a +:+ b)%string = (String.length a + String.length b)%nat.
Proof. induction a as [|c a IH]; cbn; [done|]. by rewrite IH. Qed.

(** With the length as fuel, nothing strippable is left. *)
Lemma strip_all_done fuel ws s :
  (String.length s <= fuel)%nat -> (forall w, w ∈ ws -> w <> EmptyString) ->
  strip_one ws (strip_all fuel ws s) = None.
Proof.
  intros Hf Hw. revert s Hf. induction fuel as [|fuel IH]; intros s Hf; cbn.
  - apply strip_one_none. intros w Hin. specialize (Hw w Hin).
    destruct s; [|cbn in Hf; lia]. by destruct w.
  - destruct (strip_one ws s) as [r|] eqn:E; [|done]. apply IH.
    apply strip_one_some in E as (w & Hin & ->). specialize (Hw w Hin).
    rewrite str_append_length in Hf. destruct w; [done|]. cbn in Hf. lia.
Qed.

Lemma strip_all_suffix fuel ws s : exists p, s = (p +:+ strip_all fuel ws s)%string.
Proof.
  revert s. induction fuel as [|fuel IH]; intros s; cbn; [by exists EmptyString|].
  destruct (strip_one ws s) as [r|] eqn:E; [|by exists EmptyString].
  apply strip_one_some in E as (w & _ & ->). destruct (IH r) as [p Hp].
  exists (w +:+ p)%string. by rewrite <- str_append_assoc, <- Hp.
Qed.

Lemma strip_prefix_none_app w a b : strip_prefix w (a +:+ b)%string = None -> strip_prefix w a = None.
Proof.
  revert a. induction w as [|c w IH]; intros a; cbn; [done|]. destruct a as [|x a]; cbn; [done|].
  case_match; [|done]. apply IH.
Qed.

(** A trimmed string begins and ends with no white space. *)
Definition stuck (s : string) : Prop :=
  strip_one white_space s = None /\ strip_one (str_rev <$> white_space) (str_rev s) = None.

Lemma white_space_nonempty w : w ∈ white_space -> w <> EmptyString.
Proof.
  intros Hin ->. assert (bool_decide (EmptyString ∈ white_space) = false) as E by (vm_compute; done).
  by apply bool_decide_eq_false in E.
Qed.

Lemma trim_stuck s : stuck (trim s).
Proof.
  unfold trim. set (t0 := trim_start s).
  assert (strip_one white_space t0 = None) as H0.
  { apply strip_all_done; [done|]. apply white_space_nonempty. }
  unfold stuck, trim_end. rewrite str_rev_involutive. split.
  - destruct (strip_all_suffix (String.length t0) (str_rev <$> white_space) (str_rev t0)) as [p Hp].
    set (u := strip_all _ _ _) in *.
    assert (t0 = (str_rev u +:+ str_rev p)%string) as Ht.
    { rewrite <- str_rev_append, <- Hp. by rewrite str_rev_involutive. }
    rewrite strip_one_none in *. intros w Hw. specialize (H0 w Hw). rewrite Ht in H0.
    by eapply strip_prefix_none_app.
  - apply strip_all_done.
    + enough (forall x, String.length (str_rev x) = String.length x) as -> by done.
      induction x as [|c x IH]; [done|]. rewrite str_rev_cons, str_append_length, IH. cbn. lia.
    + intros w Hw. apply list_elem_of_fmap in Hw as (x & -> & Hx).
      by apply str_rev_nonempty, white_space_nonempty.
Qed.

Lemma trim_of_stuck s : stuck s -> trim s = s.
Proof.
  intros [H1 H2]. unfold trim, trim_start. rewrite strip_all_stuck by done.
  unfold trim_end. rewrite strip_all_stuck by done. apply str_rev_involutive.
Qed.

Lemma trim_idem s : trim (trim s) = trim s.
Proof. apply trim_of_stuck, trim_stuck. Qed.

#[export] Hint Resolve eq_ignore_ascii_case_refl strip_prefix_app dec_nonempty trim_stuck : colony.

(** ** Concatenation and big-endian bytes *)

(** Equal texts with ends of the same length have equal ends. *)
Lemma append_inj_suffix (a b s t : string) :
  (a +:+ s)%string = (b +:+ t)%string -> String.length s = String.length t -> a = b /\ s = t.
Proof.
  revert b. induction a as [|x a IH]; intros [|y b] E Hl; cbn in E.
  - done.
  - pose proof (f_equal String.length E) as El. cbn in El. rewrite str_append_length in El. lia.
  - pose proof (f_equal String.length E) as El. cbn in El. rewrite str_append_length in El. lia.
  - injection E as -> E. destruct (IH _ E Hl) as [-> ->]. done.
Qed.
Lemma append_inj_prefix (a b s t : string) :
  (a +:+ s)%string = (b +:+ t)%string -> String.length a = String.length b -> a = b /\ s = t.
Proof.
  intros E Hl. apply append_inj_suffix; [done|]. pose proof (f_equal String.length E) as El.
  rewrite !str_append_length in El. lia.
Qed.

Lemma be_bytes_length n z : String.length (be_bytes n z) = n.
Proof. induction n; cbn; [done|]. by f_equal. Qed.
Lemma be_bytes_inj n a b :
  0 <= a < 256 ^ Z.of_nat n -> 0 <= b < 256 ^ Z.of_nat n -> be_bytes n a = be_bytes n b -> a = b.
Proof.
  assert (forall n z, be_bytes n (z mod 256 ^ Z.of_nat n) = be_bytes n z) as Hmod.
  { clear. induction n as [|n IH]; intros z; [done|]. cbn [be_bytes]. f_equal.
    - do 2 f_equal. rewrite Nat2Z.inj_succ, Z.pow_succ_r by lia.
      rewrite Z.mul_comm, Z.rem_mul_r by lia.
      rewrite Z.mul_comm, Z.div_add by lia. rewrite (Z.div_small (z mod _)) by (apply Z.mod_pos_bound; lia).
      rewrite Z.add_0_l. by rewrite Z.mod_mod by lia.
    - rewrite <- IH, <- (IH z). f_equal. rewrite Nat2Z.inj_succ, Z.pow_succ_r by lia.
      rewrite Z.mul_comm, Z.rem_mul_r by lia.
      rewrite Z.mul_comm, Z.mod_add by lia. by rewrite Z.mod_mod by lia. }
  revert a b. induction n as [|n IH]; intros a b Ha Hb E; [cbn in *; lia|]. cbn [be_bytes] in E.
  injection E as E1 E2. rewrite Nat2Z.inj_succ, Z.pow_succ_r in Ha, Hb by lia.
  assert (0 < 256 ^ Z.of_nat n) as Hp by lia.
  assert (forall z, 0 <= z < 256 * 256 ^ Z.of_nat n -> 0 <= z / 256 ^ Z.of_nat n < 256) as Hd.
  { intros z Hz. split; [apply Z.div_pos; lia|]. apply Z.div_lt_upper_bound; lia. }
  pose proof (Hd _ Ha) as Hda. pose proof (Hd _ Hb) as Hdb.
  rewrite !Z.mod_small in E1 by lia.
  apply (f_equal N_of_ascii) in E1. rewrite !N_ascii_embedding in E1 by lia.
  rewrite <- (Hmod n a), <- (Hmod n b) in E2. apply IH in E2; [|apply Z.mod_pos_bound; lia..].
  rewrite (Z.div_mod a (256 ^ Z.of_nat n)), (Z.div_mod b (256 ^ Z.of_nat n)) by lia.
  rewrite E2. do 2 f_equal. lia.
Qed.
