(* ===== verification/Json.v ===== *)
(** * Ordered maps and JSON values

    Rust's [BTreeMap] as an association list kept sorted by key, so that
    iteration order is the list's order. The key order is a class; strings
    compare by bytes, pairs lexicographically, as the [Ord] instances do. Over
    them, the values of [serde_json] and the accessors the code uses. *)

From Stdlib Require Import ZArith Lia Ascii.
From stdpp Require Import base list strings numbers sorting.
From S2P Require Import Prelude MachineInt RustStr.
Local Open Scope Z_scope.

(** A total order on keys given by a comparison. *)
Class OrdKey (K : Type) := {
  kcmp : K -> K -> comparison;
  kcmp_eq a b : kcmp a b = Eq <-> a = b;
  kcmp_opp a b : kcmp b a = CompOpp (kcmp a b);
  kcmp_trans a b c : kcmp a b = Lt -> kcmp b c = Lt -> kcmp a c = Lt;
}.

Fixpoint string_cmp (a b : string) : comparison :=
  match a, b with
  | EmptyString, EmptyString => Eq
  | EmptyString, String _ _ => Lt
  | String _ _, EmptyString => Gt
  | String x a', String y b' =>
      match N.compare (N_of_ascii x) (N_of_ascii y) with
      | Eq => string_cmp a' b'
      | r => r
      end
  end.

Lemma string_cmp_eq a b : string_cmp a b = Eq <-> a = b.
Proof.
  revert b. induction a as [|x a IH]; intros [|y b]; cbn; try done.
  destruct (N.compare_spec (N_of_ascii x) (N_of_ascii y)) as [Hxy|Hxy|Hxy].
  - rewrite IH. apply (f_equal ascii_of_N) in Hxy. rewrite !ascii_N_embedding in Hxy.
    subst. split; [by intros -> | by intros [= ->]].
  - split; [done|]. intros [= -> _]. lia.
  - split; [done|]. intros [= -> _]. lia.
Qed.

Lemma string_cmp_opp a b : string_cmp b a = CompOpp (string_cmp a b).
Proof.
  revert b. induction a as [|x a IH]; intros [|y b]; cbn; try done.
  rewrite (N.compare_antisym (N_of_ascii x)).
  destruct (N.compare _ _); cbn; [apply IH | done | done].
Qed.

Lemma string_cmp_trans a b c : string_cmp a b = Lt -> string_cmp b c = Lt -> string_cmp a c = Lt.
Proof.
  revert b c. induction a as [|x a IH]; intros [|y b] [|z c]; cbn; try done.
  destruct (N.compare_spec (N_of_ascii x) (N_of_ascii y)) as [Hxy|Hxy|Hxy];
    destruct (N.compare_spec (N_of_ascii y) (N_of_ascii z)) as [Hyz|Hyz|Hyz];
    destruct (N.compare_spec (N_of_ascii x) (N_of_ascii z)) as [Hxz|Hxz|Hxz];
    try lia; try done.
  apply IH.
Qed.

#[export] Instance string_ord : OrdKey string := {|
  kcmp := string_cmp; kcmp_eq := string_cmp_eq;
  kcmp_opp := string_cmp_opp; kcmp_trans := string_cmp_trans |}.

#[export] Program Instance Z_ord : OrdKey Z := {| kcmp := Z.compare |}.
Next Obligation. apply Z.compare_eq_iff. Qed.
Next Obligation. intros. apply Z.compare_antisym. Qed.
Next Obligation. intros a b c. rewrite !Z.compare_lt_iff. lia. Qed.

Definition pair_cmp {A B} `{OrdKey A, OrdKey B} (p q : A * B) : comparison :=
  match kcmp (fst p) (fst q) with
  | Eq => kcmp (snd p) (snd q)
  | r => r
  end.

#[export] Program Instance pair_ord {A B} `{OrdKey A, OrdKey B} : OrdKey (A * B) :=
  {| kcmp := pair_cmp |}.
Next Obligation.
  intros A B ? ? [a b] [c d]. unfold pair_cmp; cbn.
  destruct (kcmp a c) eqn:E.
  - apply kcmp_eq in E as ->. rewrite kcmp_eq. split; [by intros -> | by intros [= ->]].
  - split; [done|]. intros [= -> _]. assert (kcmp c c = Eq) by (by apply kcmp_eq). congruence.
  - split; [done|]. intros [= -> _]. assert (kcmp c c = Eq) by (by apply kcmp_eq). congruence.
Qed.
Next Obligation.
  intros A B ? ? [a b] [c d]. unfold pair_cmp; cbn.
  rewrite (kcmp_opp a c). destruct (kcmp a c); cbn; [apply kcmp_opp | done | done].
Qed.
Next Obligation.
  intros A B ? ? [a b] [c d] [e f]. unfold pair_cmp; cbn.
  destruct (kcmp a c) eqn:E1; [| |done].
  - apply kcmp_eq in E1 as ->. destruct (kcmp c e) eqn:E2; [apply kcmp_trans | done | done].
  - intros _. destruct (kcmp c e) eqn:E2; [| |done].
    + apply kcmp_eq in E2 as ->. by rewrite E1.
    + intros _. by rewrite (kcmp_trans a c e).
Qed.

Section Maps.
Context {K V : Type} `{OrdKey K}.
Implicit Types (k : K) (v d : V) (m : list (K * V)) (f : V -> V).

(** [BTreeMap::get]. *)
Fixpoint bt_get k m : option V :=
  match m with
  | [] => None
  | (k', v) :: m' =>
      match kcmp k k' with
      | Eq => Some v
      | Lt => None
      | Gt => bt_get k m'
      end
  end.

(** [*map.entry(k).or_insert(d)] updated by [f]. *)
Fixpoint bt_update k d f m : list (K * V) :=
  match m with
  | [] => [(k, f d)]
  | (k', v) :: m' =>
      match kcmp k k' with
      | Eq => (k, f v) :: m'
      | Lt => (k, f d) :: (k', v) :: m'
      | Gt => (k', v) :: bt_update k d f m'
      end
  end.

(** [BTreeMap::insert]. *)
Definition bt_insert k v m : list (K * V) := bt_update k v (fun _ => v) m.

(** The loop [for a in l { upd(map.entry(key(a)).or_insert(d)) }]. *)
Definition bt_accum {A} (key : A -> K) (d : V) (upd : A -> V -> V) (l : list A) m : list (K * V) :=
  foldl (fun m a => bt_update (key a) d (upd a) m) m l.

Definition klt (p q : K * V) : Prop := kcmp (fst p) (fst q) = Lt.

(** The representation invariant: keys strictly ascending. *)
Definition bt_wf m : Prop := StronglySorted klt m.
End Maps.

Section MapFacts.
Context {K V : Type} `{OrdKey K}.
Implicit Types (k : K) (v d : V) (m : list (K * V)) (f : V -> V).

Lemma kcmp_refl k : kcmp k k = Eq.
Proof. by apply kcmp_eq. Qed.

Lemma kcmp_gt k k' : kcmp k k' = Gt -> kcmp k' k = Lt.
Proof. intros E. by rewrite kcmp_opp, E. Qed.

Lemma bt_wf_cons k v m :
  bt_wf ((k, v) :: m) <-> Forall (klt (k, v)) m /\ bt_wf m.
Proof.
  unfold bt_wf. split; [inversion 1; done|]. intros [? ?]. by constructor.
Qed.

Lemma bt_update_forall k d f m p :
  Forall (klt p) m -> kcmp (fst p) k = Lt -> Forall (klt p) (bt_update k d f m).
Proof.
  intros Hm Hk. induction Hm as [|[k' v'] m Hp Hm IH]; cbn; [by repeat constructor|].
  destruct (kcmp k k'); repeat constructor; done.
Qed.

Lemma bt_update_wf k d f m : bt_wf m -> bt_wf (bt_update k d f m).
Proof.
  induction m as [|[k' v'] m IH]; intros Hwf; cbn; [by repeat constructor|].
  rewrite bt_wf_cons in Hwf. destruct Hwf as [Hall Hwf].
  destruct (kcmp k k') eqn:E; rewrite bt_wf_cons.
  - apply kcmp_eq in E as ->. split; [|done]. eapply Forall_impl; [exact Hall|]. done.
  - rewrite bt_wf_cons. split; [|done]. constructor; [done|].
    eapply Forall_impl; [exact Hall|]. intros [k2 v2] Hk2. unfold klt in *; cbn in *.
    by eapply kcmp_trans.
  - split; [|by apply IH]. apply bt_update_forall; [done|]. by apply kcmp_gt.
Qed.

(** Reading back what an update wrote, and that it touches no other key. *)
Lemma bt_get_update_eq k d f m : bt_get k (bt_update k d f m) = Some (f (default d (bt_get k m))).
Proof.
  induction m as [|[k' v'] m IH]; cbn; [by rewrite kcmp_refl|].
  destruct (kcmp k k') eqn:E; cbn; rewrite ?kcmp_refl, ?E; done.
Qed.

Lemma bt_get_update_ne k k' d f m :
  bt_wf m -> k <> k' -> bt_get k' (bt_update k d f m) = bt_get k' m.
Proof.
  intros Hwf Hne. induction m as [|[k2 v2] m IH]; cbn.
  - destruct (kcmp k' k) eqn:E; [|done|done]. apply kcmp_eq in E. done.
  - rewrite bt_wf_cons in Hwf. destruct Hwf as [Hall Hwf].
    destruct (kcmp k k2) eqn:E; cbn.
    + apply kcmp_eq in E as ->. destruct (kcmp k' k2) eqn:E2; [|done|done].
      apply kcmp_eq in E2. done.
    + destruct (kcmp k' k) eqn:E2.
      * apply kcmp_eq in E2. done.
      * by rewrite (kcmp_trans k' k k2).
      * done.
    + destruct (kcmp k' k2); auto.
Qed.

Lemma bt_get_head_none k m :
  bt_wf m -> Forall (fun p => kcmp k (fst p) = Lt) m -> bt_get k m = None.
Proof.
  destruct m as [|[k' v'] m]; [done|]. intros _ HF. apply Forall_cons in HF as [Hk _].
  cbn in *. by rewrite Hk.
Qed.

(** The pairs of a well-formed map are its lookups. *)
Lemma bt_get_elem k v m : bt_wf m -> (k, v) ∈ m <-> bt_get k m = Some v.
Proof.
  induction m as [|[k' v'] m IH]; intros Hwf; cbn.
  - split; [by intros ?%not_elem_of_nil | done].
  - rewrite bt_wf_cons in Hwf. destruct Hwf as [Hall Hwf].
    rewrite elem_of_cons, (IH Hwf). destruct (kcmp k k') eqn:E.
    + apply kcmp_eq in E as ->. split; [|intros [= ->]; by left].
      intros [[= ->]|Hg]; [done|]. exfalso. rewrite <- IH in Hg by done.
      rewrite Forall_elem in Hall. apply Hall in Hg. unfold klt in Hg; cbn in Hg.
      by rewrite kcmp_refl in Hg.
    + split; [|done]. intros [[= -> ->]|Hg]; [by rewrite kcmp_refl in E|].
      exfalso. rewrite <- IH in Hg by done. rewrite Forall_elem in Hall.
      apply Hall in Hg. unfold klt in Hg; cbn in Hg.
      rewrite kcmp_opp in E. by rewrite Hg in E.
    + split; [|by right]. intros [[= -> ->]|Hg]; [by rewrite kcmp_refl in E | done].
Qed.

Lemma bt_wf_nodup m : bt_wf m -> NoDup (fst <$> m).
Proof.
  induction m as [|[k v] m IH]; [by constructor|]. rewrite bt_wf_cons. intros [Hall Hwf].
  rewrite fmap_cons. constructor; [|by apply IH].
  intros ([k' v'] & Hk & Hin)%list_elem_of_fmap. rewrite Forall_elem in Hall. apply Hall in Hin.
  unfold klt in Hin; cbn in *. rewrite Hk in Hin. by rewrite kcmp_refl in Hin.
Qed.

(** Maps with the same lookups are equal: iteration order carries no
    information beyond the contents. *)
Lemma bt_ext m1 m2 :
  bt_wf m1 -> bt_wf m2 -> (forall k, bt_get k m1 = bt_get k m2) -> m1 = m2.
Proof.
  intros H1 H2 Heq. apply (StronglySorted_unique_strong klt); [|done|done|].
  - intros [a x] [b y] _ _ Hab Hba. unfold klt in *; cbn in *.
    rewrite kcmp_opp, Hab in Hba. done.
  - assert (forall m, bt_wf m -> NoDup m) as Hnd.
    { intros m Hm. induction Hm as [|[k v] m Hm IH Hk]; constructor; [|done].
      intros Hin. rewrite Forall_elem in Hk. apply Hk in Hin.
      unfold klt in Hin; cbn in Hin. by rewrite kcmp_refl in Hin. }
    apply NoDup_Permutation; [by apply Hnd | by apply Hnd |].
    intros [k v]. rewrite !bt_get_elem by done. by rewrite Heq.
Qed.

Section Accum.
Context `{EqDecision K} {A : Type} (key : A -> K) (d : V) (upd : A -> V -> V).

Lemma bt_accum_wf l m : bt_wf m -> bt_wf (bt_accum key d upd l m).
Proof.
  revert m. induction l as [|a l IH]; intros m Hm; cbn; [done|].
  apply IH. by apply bt_update_wf.
Qed.

(** The accumulator at [k] is the fold of the elements with that key. *)
Lemma bt_accum_get l m k :
  bt_wf m ->
  bt_get k (bt_accum key d upd l m) =
  match filter (fun a => key a = k) l with
  | [] => bt_get k m
  | fl => Some (foldl (fun v a => upd a v) (default d (bt_get k m)) fl)
  end.
Proof.
  revert m. induction l as [|a l IH]; intros m Hm; cbn; [done|].
  unfold bt_accum in IH; rewrite IH by (by apply bt_update_wf).
  destruct (decide (key a = k)) as [<-|Hne]; cbn.
  - rewrite bt_get_update_eq. cbn. by destruct (filter _ l).
  - by rewrite bt_get_update_ne.
Qed.

Lemma bt_accum_get_nil l k :
  bt_get k (bt_accum key d upd l []) =
  match filter (fun a => key a = k) l with
  | [] => None
  | fl => Some (foldl (fun v a => upd a v) d fl)
  end.
Proof. rewrite bt_accum_get by constructor. done. Qed.
End Accum.
End MapFacts.

(** ** Sorting by key *)

(** [a.cmp(&b) != Greater]. *)
Definition kleb {K} `{OrdKey K} (a b : K) : bool :=
  match kcmp a b with
  | Gt => false
  | _ => true
  end.

Section KeyOrder.
Context {K : Type} `{OrdKey K}.
Implicit Types a b c : K.

Lemma kleb_total a b : kleb a b = true \/ kleb b a = true.
Proof. unfold kleb. rewrite (kcmp_opp a b). destruct (kcmp a b); cbn; auto. Qed.

Lemma kleb_spec a b : kleb a b = true <-> a = b \/ kcmp a b = Lt.
Proof.
  unfold kleb. rewrite <- kcmp_eq. destruct (kcmp a b); naive_solver.
Qed.

Lemma kleb_trans a b c : kleb a b = true -> kleb b c = true -> kleb a c = true.
Proof.
  rewrite !kleb_spec. intros [->|H1] [->|H2]; auto. right. by eapply kcmp_trans.
Qed.

Lemma kleb_anti a b : kleb a b = true -> kleb b a = true -> a = b.
Proof.
  rewrite !kleb_spec. intros [->|H1] [?|H2]; auto. rewrite kcmp_opp, H1 in H2. done.
Qed.

Lemma kcmp_lt_ne a b : kcmp a b = Lt -> a <> b.
Proof. intros H1 ->. by rewrite kcmp_refl in H1. Qed.
End KeyOrder.

(** ** Totals

    The sum of a map of amounts; an entry update adds exactly what it adds. *)

Definition bt_sum {K} (m : list (K * Z)) : Z := foldr (fun p s => snd p + s) 0 m.

Lemma bt_sum_update {K} `{OrdKey K} (k : K) (f : Z -> Z) m :
  bt_wf m ->
  bt_sum (bt_update k 0 f m) = bt_sum m - default 0 (bt_get k m) + f (default 0 (bt_get k m)).
Proof.
  unfold bt_sum. intros Hwf. induction m as [|[k' v'] m IH]; cbn; [lia|].
  rewrite bt_wf_cons in Hwf. destruct Hwf as [Hall Hwf]. specialize (IH Hwf).
  destruct (kcmp k k'); cbn in *; lia.
Qed.

#[export] Hint Resolve bt_update_wf bt_accum_wf : colony.

(** ** JSON values

    [serde_json::Value] as the asks and the audit log read and build it: its
    six variants, its readers, and objects as ordered maps (the crate is built
    without [preserve_order]). A number is the integer it is, or its text.
    Parsing and printing are the library's ([JsonLib]). *)

Local Open Scope Z_scope.

Inductive Json :=
| JNull
| JBool (b : bool)
| JInt (n : Z)
| JFloat (text : string)
| JString (s : string)
| JArray (items : list Json)
| JObject (fields : list (string * Json)).

(** [serde_json::from_str] and [Value::to_string]. *)
Class JsonLib := {
  json_from_str : string -> option Json;
  json_to_string : Json -> string;
}.

(** Integers are a [u64] or a negative [i64]. *)
Definition json_int_ok (n : Z) : bool := (i64_min <=? n) && (n <=? u64_max).

(** What the library documents: printing is undone by parsing. *)
Class JsonLaws `{JsonLib} : Prop := {
  json_read_printed v fields :
    v = JObject fields -> bt_wf fields ->
    Forall (fun f => match snd f with
                     | JNull | JBool _ | JString _ => True
                     | JInt n => json_int_ok n = true
                     | _ => False
                     end) fields ->
    json_from_str (json_to_string v) = Some v;
}.

(** [Value::get] with a key. *)
Definition jget (v : Json) (key : string) : option Json :=
  match v with JObject fields => bt_get key fields | _ => None end.
(** [as_str], [as_bool], [as_u64], [as_i64], [as_array], [is_null]. *)
Definition as_string (v : Json) : option string := match v with JString s => Some s | _ => None end.
Definition as_bool (v : Json) : option bool := match v with JBool b => Some b | _ => None end.
Definition as_u64 (v : Json) : option Z :=
  match v with JInt n => if (0 <=? n) && (n <=? u64_max) then Some n else None | _ => None end.
Definition as_i64 (v : Json) : option Z :=
  match v with JInt n => if (i64_min <=? n) && (n <=? i64_max) then Some n else None | _ => None end.
Definition as_array (v : Json) : option (list Json) :=
  match v with JArray items => Some items | _ => None end.
Definition is_null (v : Json) : bool := match v with JNull => true | _ => false end.

(** [value.get(key).and_then(Value::as_str)]. *)
Definition get_str (v : Json) (key : string) : option string := jget v key ≫= as_string.

(** [json!({ k: v, .. })]: a map built field by field. *)
Definition json_object (fields : list (string * Json)) : Json :=
  JObject (foldl (fun m f => bt_insert (fst f) (snd f) m) [] fields).

(** [value[key] = v] on an object. *)
Definition jset (key : string) (v : Json) (object : Json) : Json :=
  match object with
  | JObject fields => JObject (bt_insert key v fields)
  | _ => object
  end.

(** ** Facts *)

Lemma foldl_insert_wf (fields : list (string * Json)) m :
  bt_wf m -> bt_wf (foldl (fun m f => bt_insert (fst f) (snd f) m) m fields).
Proof.
  revert m. induction fields as [|f fields IH]; intros m Hm; cbn; [done|].
  apply IH. by apply bt_update_wf.
Qed.
