(* ===== verification/Company.v ===== *)
(** * Company work: cost classification and lifecycles

    From [crates/buzz-core/src/company.rs]: the commercial purpose of work and
    the deterministic cost class it implies, the work context attached to a
    metered turn and its validator, and the transition tables of initiatives
    and tasks. *)

From Stdlib Require Import ZArith Lia Ascii.
From stdpp Require Import base list strings numbers.
From S2P Require Import Prelude MachineInt RustStr.
Local Open Scope Z_scope.

Inductive CommercialPurpose :=
  ClientDelivery | Sales | Marketing | Administration | InternalProduct | Uncertain.
#[export] Instance CommercialPurpose_eq_dec : EqDecision CommercialPurpose.
Proof. solve_decision. Defined.

Inductive CostClassification := Cogs | Opex | ClassNeedsReview.
#[export] Instance CostClassification_eq_dec : EqDecision CostClassification.
Proof. solve_decision. Defined.

Inductive AttributionState := StateExplicit | StateInherited | StateImplicitTask.
#[export] Instance AttributionState_eq_dec : EqDecision AttributionState.
Proof. solve_decision. Defined.

(** [classify_cost]. *)
Definition classify_cost (purpose : CommercialPurpose) (client_organization_id : option string)
    : CostClassification :=
  match purpose with
  | ClientDelivery =>
      if match client_organization_id with
         | Some id => negb (str_is_empty (trim id))
         | None => false
         end
      then Cogs else ClassNeedsReview
  | Uncertain => ClassNeedsReview
  | Sales | Marketing | Administration | InternalProduct => Opex
  end.

Record AgentWorkContext := {
  task_id : string;
  initiative_id : option string;
  owning_team_id : option string;
  cost_centre_id : string;
  commercial_purpose : CommercialPurpose;
  cost_classification : CostClassification;
  attribution_state : AttributionState;
  client_organization_id : option string;
}.
#[export] Instance AgentWorkContext_eq_dec : EqDecision AgentWorkContext.
Proof. solve_decision. Defined.

Inductive CompanyContractError :=
| InvalidSchema (field : string)
| InvalidIdentifier (field : string)
| InvalidText (field : string)
| TooManyItems (field : string) (max : Z)
| DuplicateIdentifier (field : string)
| MissingReference (field : string)
| MismatchedReference (field : string)
| InvalidExpectedCost
| TeamLeadNotMember
| QaNotOwningTeamMember
| QaNotReviewerTeamMember
| DuplicateAssignee
| AssigneeNotTeamMember
| CostClassificationMismatch
| ImmutableField (field : string)
| UpdatedAtNotMonotonic
| InvalidStatusTransition (entity : string)
| MissingOutcomeReason
| InvalidBounce (why : string)
| InvalidVersion
| InvalidNumber (field : string).

Definition MAX_ID_LEN : Z := 128.

Definition is_id_byte (c : Ascii.ascii) : bool :=
  is_ascii_lowercase c || is_ascii_digit c
  || Ascii.eqb c "."%char || Ascii.eqb c "_"%char || Ascii.eqb c ":"%char || Ascii.eqb c "-"%char.

(** [validate_id]. *)
Definition validate_id (value field : string) : Result unit CompanyContractError :=
  match value with
  | EmptyString => Err (InvalidIdentifier field)
  | String first bytes =>
      if (MAX_ID_LEN <? str_len value)
         || (negb (is_ascii_lowercase first) && negb (is_ascii_digit first))
         || negb (str_all is_id_byte bytes)
      then Err (InvalidIdentifier field) else Ok tt
  end.

(** [validate_optional_id]. *)
Definition validate_optional_id (value : option string) (field : string)
    : Result unit CompanyContractError :=
  match value with
  | Some v => validate_id v field
  | None => Ok tt
  end.

(** [AgentWorkContext::validate]. *)
Definition work_context_validate (ctx : AgentWorkContext) : Result unit CompanyContractError :=
  let? _ := validate_id (task_id ctx) "workContext.taskId" in
  let? _ := validate_optional_id (initiative_id ctx) "workContext.initiativeId" in
  let? _ := validate_optional_id (owning_team_id ctx) "workContext.owningTeamId" in
  let? _ := validate_id (cost_centre_id ctx) "workContext.costCentreId" in
  let? _ := validate_optional_id (client_organization_id ctx) "workContext.clientOrganizationId" in
  if bool_decide (cost_classification ctx
       = classify_cost (commercial_purpose ctx) (client_organization_id ctx))
  then Ok tt else Err CostClassificationMismatch.

(** ** Lifecycles *)

Inductive InitiativeStatus :=
  InitProposed | InitApproved | InitActive | InitBlocked | InitCompleted | InitCancelled.
#[export] Instance InitiativeStatus_eq_dec : EqDecision InitiativeStatus.
Proof. solve_decision. Defined.

(** [is_initiative_status_transition_allowed]. *)
Definition is_initiative_status_transition_allowed (from to : InitiativeStatus) : bool :=
  if bool_decide (from = to) then true
  else match from, to with
  | InitProposed, InitApproved
  | InitApproved, InitActive
  | InitActive, InitBlocked
  | InitBlocked, InitActive
  | InitActive, InitCompleted
  | (InitProposed | InitApproved | InitActive | InitBlocked), InitCancelled => true
  | _, _ => false
  end.

Inductive TaskStatus :=
  Proposed | Ready | InProgress | InReview | Blocked | Snoozed | Completed | Cancelled.
#[export] Instance TaskStatus_eq_dec : EqDecision TaskStatus.
Proof. solve_decision. Defined.

Inductive DoerKind := DoerAgent | DoerHuman.
#[export] Instance DoerKind_eq_dec : EqDecision DoerKind.
Proof. solve_decision. Defined.

Inductive TaskActor := ActorDoer | ActorOwner.
#[export] Instance TaskActor_eq_dec : EqDecision TaskActor.
Proof. solve_decision. Defined.

(** [is_task_status_transition_allowed_for]. *)
Definition is_task_status_transition_allowed_for
    (from to : TaskStatus) (doer_kind : DoerKind) (actor : TaskActor) : bool :=
  if bool_decide (from = to) then true
  else if match actor, from, to with
          | ActorOwner, (Ready | InProgress | InReview | Blocked | Snoozed),
            (Completed | Cancelled) => true
          | _, _, _ => false
          end then true
  else match from, to with
  | Proposed, Ready
  | Ready, (InProgress | Blocked | Snoozed)
  | InProgress, (InReview | Blocked | Snoozed)
  | InReview, (InProgress | Completed | Blocked | Snoozed)
  | Blocked, (Ready | InProgress | Snoozed)
  | Proposed, Snoozed
  | Snoozed, Ready
  | Completed, Ready
  | (Proposed | Ready | InProgress | InReview | Blocked | Snoozed), Cancelled => true
  | InProgress, Completed => bool_decide (doer_kind = DoerHuman)
  | _, _ => false
  end.

(** [is_task_status_transition_allowed]. *)
Definition is_task_status_transition_allowed (from to : TaskStatus) (doer_kind : DoerKind) : bool :=
  is_task_status_transition_allowed_for from to doer_kind ActorDoer.

(** One accepted lifecycle write that changes the status, and histories of them. *)
Inductive task_step (dk : DoerKind) : TaskStatus -> TaskActor -> TaskStatus -> Prop :=
| task_step_intro from actor to :
    is_task_status_transition_allowed_for from to dk actor = true -> from <> to ->
    task_step dk from actor to.

Inductive task_history (dk : DoerKind) : TaskStatus -> list (TaskActor * TaskStatus) -> TaskStatus -> Prop :=
| history_nil s : task_history dk s [] s
| history_snoc s1 s2 s3 actor h :
    task_history dk s1 h s2 -> task_step dk s2 actor s3 ->
    task_history dk s1 (h ++ [(actor, s3)]) s3.

(** ** Facts *)

Lemma validate_id_nonblank v f : validate_id v f = Ok tt -> v <> EmptyString.
Proof. by destruct v. Qed.

(** An accepted identifier is 1 to 128 bytes of the identifier alphabet. *)
Lemma validate_id_ok v f :
  validate_id v f = Ok tt <-> v <> EmptyString /\ str_len v <= MAX_ID_LEN /\ str_all is_id_byte v = true
    /\ match v with String c _ => is_ascii_lowercase c || is_ascii_digit c = true | _ => False end.
Proof.
  destruct v as [|c v]; cbn [validate_id].
  - split; [done|]. by intros [? _].
  - case_match eqn:E.
    + split; [done|]. intros (_ & Hlen & Hall & Hc).
      rewrite !orb_true_iff in E. destruct E as [[E|E]|E]; [lia| |].
      * rewrite andb_true_iff, !negb_true_iff in E. destruct E as [E1 E2]. by rewrite E1, E2 in Hc.
      * apply negb_true_iff in E. cbn in Hall. rewrite E, andb_false_r in Hall. done.
    + split; [|done]. intros _. rewrite !orb_false_iff in E. destruct E as [[E1 E2] E3].
      apply negb_false_iff in E3. cbn. rewrite E3, andb_true_r.
      unfold is_id_byte. split_and!; [done|lia| |].
      all: destruct (is_ascii_lowercase c); [done|]; destruct (is_ascii_digit c); done.
Qed.

Lemma task_step_into_completed from actor :
  task_step DoerAgent from actor Completed -> actor = ActorDoer -> from = InReview.
Proof. intros Hs ->. inversion Hs as [? ? ? Hall Hne]; subst. by destruct from. Qed.

(** The review gate: in any history of an agent's task, a completion
    written with the doer's authority is written on a task in review. *)
Theorem agent_review_gate s1 h1 h2 s2 :
  task_history DoerAgent s1 (h1 ++ (ActorDoer, Completed) :: h2) s2 ->
  (h1 = [] /\ s1 = InReview) \/ exists h a, h1 = h ++ [(a, InReview)].
Proof.
  remember (h1 ++ (ActorDoer, Completed) :: h2) as hh eqn:Hh. intros Hist. revert h1 h2 Hh.
  induction Hist as [s|s1 s2 s3 actor h Hist IH Hstep]; intros h1 h2 Hh.
  - by destruct h1.
  - destruct h2 as [|x h2 _] using rev_ind.
    + apply app_inj_tail in Hh as [-> [= -> ->]]. apply task_step_into_completed in Hstep; [|done].
      subst s2. inversion Hist; subst; [by left|]. right. eauto.
    + rewrite app_comm_cons, app_assoc in Hh. apply app_inj_tail in Hh as [-> _]. eauto.
Qed.

Lemma agent_review_gate_witness :
  exists h a, [(ActorDoer, InProgress); (ActorDoer, InReview)] = h ++ [(a, InReview)].
Proof.
  destruct (agent_review_gate Ready [(ActorDoer, InProgress); (ActorDoer, InReview)] [] Completed)
    as [[H _]|H]; [|discriminate H|exact H].
  apply (history_snoc DoerAgent Ready InReview Completed ActorDoer
           [(ActorDoer, InProgress); (ActorDoer, InReview)]).
  - apply (history_snoc DoerAgent Ready InProgress InReview ActorDoer [(ActorDoer, InProgress)]).
    + apply (history_snoc DoerAgent Ready Ready InProgress ActorDoer []); [constructor|].
      constructor; [reflexivity|discriminate].
    + constructor; [reflexivity|discriminate].
  - constructor; [reflexivity|discriminate].
Defined.

(** Cancelled is a dead end, for both actors and both kinds of doer. *)
Lemma cancelled_is_final dk h s : task_history dk Cancelled h s -> h = [] /\ s = Cancelled.
Proof.
  remember Cancelled as c eqn:Hc. induction 1 as [|s1 s2 s3 actor h Hist IH Hstep]; [done|].
  destruct (IH Hc) as [-> ->]. inversion Hstep as [? ? ? Hall Hne]; subst.
  destruct actor, s3; done.
Qed.

(** The only way out of completed is back to ready. *)
Lemma completed_only_bounces dk actor to :
  task_step dk Completed actor to -> to = Ready.
Proof. inversion 1 as [? ? ? Hall Hne]; subst. destruct actor, to; done. Qed.
