(* ===== verification/Usage.v ===== *)
(** * Usage records

    From [crates/buzz-core/src/usage_record.rs]: the payload of a kind 44210
    event and its structural validator. *)

From Stdlib Require Import ZArith Lia Ascii.
From stdpp Require Import base list strings numbers.
From S2P Require Import Prelude MachineInt RustStr Company.
Local Open Scope Z_scope.

Record UsageBreakdown := {
  input_uncached_tokens : Z;
  cache_read_tokens : Z;
  cache_write_5m_tokens : Z;
  cache_write_1h_tokens : Z;
  output_tokens : Z;
}.
#[export] Instance UsageBreakdown_eq_dec : EqDecision UsageBreakdown.
Proof. solve_decision. Defined.

(** Every count is a [u64]. *)
Definition breakdown_wf (t : UsageBreakdown) : Prop :=
  in_u64 (input_uncached_tokens t) /\ in_u64 (cache_read_tokens t)
  /\ in_u64 (cache_write_5m_tokens t) /\ in_u64 (cache_write_1h_tokens t)
  /\ in_u64 (output_tokens t).

Inductive PaymentMode := Metered | Imputed.
#[export] Instance PaymentMode_eq_dec : EqDecision PaymentMode.
Proof. solve_decision. Defined.

Inductive UsageSource := Wire | AdapterEstimate | Manual.
#[export] Instance UsageSource_eq_dec : EqDecision UsageSource.
Proof. solve_decision. Defined.

Inductive UsageTokenField := CacheRead | CacheWrite5m | CacheWrite1h.
#[export] Instance UsageTokenField_eq_dec : EqDecision UsageTokenField.
Proof. solve_decision. Defined.

Record UsageRecordPayload := {
  source : UsageSource;
  provider : string;
  request_id : string;
  model : option string;
  timestamp : string;
  payment_mode : PaymentMode;
  tokens : option UsageBreakdown;
  unknown_token_fields : list UsageTokenField;
  amount_nanousd : option Z;
  observed_cost_nanousd : option Z;
  harness : option string;
  session_id : option string;
  turn_id : option string;
  http_status : option Z;
  description : option string;
  agent_pubkey : option string;
  channel_id : option string;
  work_context : option AgentWorkContext;
}.
#[export] Instance UsageRecordPayload_eq_dec : EqDecision UsageRecordPayload.
Proof. solve_decision. Defined.

(** The failures [validate] can return; each carries the message's field.
    [InvalidContext] wraps the work-context error the message is printed from. *)
Inductive UsageRecordError :=
| ProviderEmpty
| RequestIdEmpty
| TokensAndAmount
| NeitherTokensNorAmount
| ObservedWithAmount
| InvalidContext (e : CompanyContractError)
| WireWithUnknownFields
| UnknownFieldsWithoutTokens.

(** [UsageRecordPayload::validate]. *)
Definition validate (p : UsageRecordPayload) : Result unit UsageRecordError :=
  if str_is_empty (trim (provider p)) then Err ProviderEmpty
  else if str_is_empty (trim (request_id p)) then Err RequestIdEmpty
  else
    let? _ := match tokens p, amount_nanousd p with
              | Some _, None | None, Some _ => Ok tt
              | Some _, Some _ => Err TokensAndAmount
              | None, None => Err NeitherTokensNorAmount
              end in
    if is_some (observed_cost_nanousd p) && is_some (amount_nanousd p) then Err ObservedWithAmount
    else
      let? _ := match work_context p with
                | Some ctx => map_err InvalidContext (work_context_validate ctx)
                | None => Ok tt
                end in
      if bool_decide (source p = Wire) && negb (bool_decide (unknown_token_fields p = []))
      then Err WireWithUnknownFields
      else if negb (is_some (tokens p)) && negb (bool_decide (unknown_token_fields p = []))
      then Err UnknownFieldsWithoutTokens
      else Ok tt.

(** What an accepted record is known to satisfy. *)
Record valid_payload (p : UsageRecordPayload) : Prop := {
  valid_provider : trim (provider p) <> EmptyString;
  valid_request_id : trim (request_id p) <> EmptyString;
  valid_one_cost : is_some (tokens p) = negb (is_some (amount_nanousd p));
  valid_observed : is_some (observed_cost_nanousd p) = true -> is_some (tokens p) = true;
  valid_context : forall ctx, work_context p = Some ctx ->
    work_context_validate ctx = Ok tt;
  valid_wire : source p = Wire -> unknown_token_fields p = [];
  valid_unknown : tokens p = None -> unknown_token_fields p = [];
}.

(** [validate] accepts exactly the records its documentation describes. *)
Lemma validate_ok p : validate p = Ok tt <-> valid_payload p.
Proof.
  unfold validate. split.
  - intros H.
    destruct (str_is_empty (trim (provider p))) eqn:E1; [done|].
    destruct (str_is_empty (trim (request_id p))) eqn:E2; [done|].
    apply String.eqb_neq in E1, E2.
    destruct (tokens p) as [tk|] eqn:Et, (amount_nanousd p) as [am|] eqn:Ea; cbn in H; try done.
    all: destruct (observed_cost_nanousd p) as [oc|] eqn:Eo; cbn in H; try done.
    all: destruct (work_context p) as [ctx|] eqn:Ec; cbn in H.
    all: try (destruct (work_context_validate ctx) as [[]|err] eqn:Ev; cbn in H; [|done]).
    all: repeat case_bool_decide; cbn in H; try done.
    all: split; rewrite ?Et, ?Ea, ?Eo, ?Ec; try done; intros ctx' [= <-]; done.
  - intros [H1 H2 H3 H4 H5 H6 H7].
    apply String.eqb_neq in H1, H2. unfold str_is_empty. rewrite H1, H2.
    destruct (tokens p) as [tk|] eqn:Et, (amount_nanousd p) as [am|] eqn:Ea;
      cbn in H3; try done; cbn.
    all: destruct (observed_cost_nanousd p) as [oc|] eqn:Eo; cbn in *; try (by discriminate H4).
    all: destruct (work_context p) as [ctx|] eqn:Ec; cbn;
      [rewrite (H5 ctx eq_refl); cbn|].
    all: repeat case_bool_decide; cbn; try done; exfalso; auto.
Qed.
