(* ===== verification/Conditions.v ===== *)
(** * When a price row applies

    From [crates/buzz-core/src/ledger/conditions.rs]: recurring daily windows
    in a vendor's local time, the conditions of a price row, and what was
    observed about one call. *)

From Stdlib Require Import ZArith Lia Ascii.
From stdpp Require Import base list strings numbers.
From S2P Require Import Prelude MachineInt RustStr.
Local Open Scope Z_scope.

Definition MINUTES_PER_DAY : Z := 24 * 60.

Record DailyWindow := {
  start_minute : Z;
  end_minute : Z;
  utc_offset_minutes : Z;
}.
#[export] Instance DailyWindow_eq_dec : EqDecision DailyWindow.
Proof. solve_decision. Defined.

(** [DailyWindow::local_day_minute]. [at_unix / 60] fits [i64], and so does the
    sum with an [i32] offset; [rem_euclid] by a positive is [Z.modulo]. *)
Definition local_day_minute (w : DailyWindow) (at_unix : Z) : Z :=
  let utc_minutes := at_unix / 60 in
  let local := utc_minutes + utc_offset_minutes w in
  local mod MINUTES_PER_DAY.

(** [DailyWindow::contains]. *)
Definition window_contains (w : DailyWindow) (at_unix : Z) : bool :=
  let day_minute := local_day_minute w at_unix in
  if start_minute w <? end_minute w
  then (start_minute w <=? day_minute) && (day_minute <? end_minute w)
  else (start_minute w <=? day_minute) || (day_minute <? end_minute w).

(** [DailyWindow::is_valid]. *)
Definition window_is_valid (w : DailyWindow) : bool :=
  (start_minute w <? MINUTES_PER_DAY) && (end_minute w <=? MINUTES_PER_DAY)
  && negb (start_minute w =? end_minute w)
  && (-1440 <? utc_offset_minutes w) && (utc_offset_minutes w <? 1440).

Record PriceConditions := {
  cond_provider : option string;
  cond_tier : option string;
  min_input_tokens : option Z;
  max_input_tokens : option Z;
  hours : list DailyWindow;
}.
#[export] Instance PriceConditions_eq_dec : EqDecision PriceConditions.
Proof. solve_decision. Defined.

Record CallFacts := {
  fact_input_tokens : Z;
  at_unix : Z;
  fact_provider : option string;
  fact_tier : option string;
}.

(** The test both the provider and the tier go through: an absent condition
    accepts, a present one needs a known and equal observation. *)
Definition named_matches (cond observed : option string) : bool :=
  match cond with
  | None => true
  | Some c =>
      match observed with
      | None => false
      | Some o => eq_ignore_ascii_case o c
      end
  end.

(** [PriceConditions::matches]. *)
Definition matches (c : PriceConditions) (facts : CallFacts) : bool :=
  if negb (named_matches (cond_provider c) (fact_provider facts)) then false
  else if negb (named_matches (cond_tier c) (fact_tier facts)) then false
  else if match min_input_tokens c with
          | Some mn => fact_input_tokens facts <? mn
          | None => false
          end then false
  else if match max_input_tokens c with
          | Some mx => mx <=? fact_input_tokens facts
          | None => false
          end then false
  else if negb (bool_decide (hours c = []))
          && negb (existsb (fun w => window_contains w (at_unix facts)) (hours c)) then false
  else true.

(** [PriceConditions::specificity]. *)
Definition specificity (c : PriceConditions) : Z :=
  Z.b2z (is_some (cond_tier c)) + Z.b2z (is_some (min_input_tokens c))
  + Z.b2z (is_some (max_input_tokens c)) + Z.b2z (negb (bool_decide (hours c = []))).

(** [PriceConditions::is_valid]. *)
Definition conditions_is_valid (c : PriceConditions) : bool :=
  if match min_input_tokens c, max_input_tokens c with
     | Some mn, Some mx => mx <=? mn
     | _, _ => false
     end then false
  else if match cond_tier c with Some t => str_is_empty (trim t) | None => false end then false
  else if match cond_provider c with Some p => str_is_empty (trim p) | None => false end then false
  else forallb window_is_valid (hours c).

(** [PriceConditions::is_unconditional]. *)
Definition is_unconditional (c : PriceConditions) : bool :=
  negb (is_some (cond_provider c)) && (specificity c =? 0).

(** [PriceConditions::default()]: every field absent. *)
Definition no_conditions : PriceConditions := {|
  cond_provider := None; cond_tier := None; min_input_tokens := None;
  max_input_tokens := None; hours := [] |}.

(** ** Facts *)

Lemma local_day_minute_range w t : 0 <= local_day_minute w t < MINUTES_PER_DAY.
Proof. apply Z.mod_pos_bound. reflexivity. Qed.

(** The thresholds and windows as one test each. *)
Definition min_ok (c : PriceConditions) (n : Z) : bool :=
  match min_input_tokens c with Some mn => mn <=? n | None => true end.
Definition max_ok (c : PriceConditions) (n : Z) : bool :=
  match max_input_tokens c with Some mx => n <? mx | None => true end.
Definition hours_ok (c : PriceConditions) (t : Z) : bool :=
  bool_decide (hours c = []) || existsb (fun w => window_contains w t) (hours c).

Lemma matches_conj c facts :
  matches c facts =
  named_matches (cond_provider c) (fact_provider facts)
  && named_matches (cond_tier c) (fact_tier facts)
  && min_ok c (fact_input_tokens facts) && max_ok c (fact_input_tokens facts)
  && hours_ok c (at_unix facts).
Proof.
  unfold matches, min_ok, max_ok, hours_ok.
  destruct (named_matches (cond_provider c) _), (named_matches (cond_tier c) _); cbn; try done.
  destruct (min_input_tokens c) as [mn|], (max_input_tokens c) as [mx|]; rewrite ?Z.ltb_antisym.
  all: try destruct (mn <=? fact_input_tokens facts); cbn; try done.
  all: try destruct (mx <=? fact_input_tokens facts); cbn; try done.
  all: case_bool_decide; cbn; try done; by destruct (existsb _ _).
Qed.

Lemma hours_ok_spec c t :
  hours_ok c t = true <-> hours c = [] \/ exists w, w ∈ hours c /\ window_contains w t = true.
Proof.
  unfold hours_ok. rewrite orb_true_iff, bool_decide_eq_true, existsb_exists.
  by setoid_rewrite list_elem_of_In.
Qed.

Lemma unconditional_is_default c : is_unconditional c = true <-> c = no_conditions.
Proof.
  unfold is_unconditional, specificity, no_conditions.
  destruct c as [p t mn mx h]; cbn. split; [|by intros [= -> -> -> -> ->]].
  destruct p, t, mn, mx; cbn; try done;
    try (intros Hs; exfalso; revert Hs; by destruct (bool_decide _)).
  all: case_bool_decide; subst; cbn; done.
Qed.

(** The default conditions accept every call. *)
Lemma no_conditions_matches facts : matches no_conditions facts = true.
Proof. done. Qed.

(** The minutes a window holds are those outside the window with its ends
    swapped: a wrapping window is read as the complement of the plain one. *)
Lemma window_complement w t :
  start_minute w <> end_minute w ->
  window_contains w t
  = negb (window_contains {| start_minute := end_minute w; end_minute := start_minute w;
                             utc_offset_minutes := utc_offset_minutes w |} t).
Proof.
  intros Hne. unfold window_contains, local_day_minute; cbn.
  generalize ((t / 60 + utc_offset_minutes w) mod MINUTES_PER_DAY) as m. intros m.
  destruct (Z.ltb_spec (start_minute w) (end_minute w)),
           (Z.ltb_spec (end_minute w) (start_minute w)); try lia.
  all: destruct (Z.leb_spec (start_minute w) m), (Z.ltb_spec m (end_minute w)),
           (Z.leb_spec (end_minute w) m), (Z.ltb_spec m (start_minute w)); cbn; try done; lia.
Qed.

(** The first minute of a window, as an instant. *)
Definition minute_instant (w : DailyWindow) : Z :=
  60 * ((start_minute w - utc_offset_minutes w) mod MINUTES_PER_DAY).

Lemma window_valid_instant w :
  0 <= start_minute w -> window_is_valid w = true -> window_contains w (minute_instant w) = true.
Proof.
  intros H0 Hv. unfold window_is_valid in Hv. rewrite !andb_true_iff in Hv.
  destruct Hv as [[[[H1 H2] H3] _] _].
  apply Z.ltb_lt in H1. apply Z.leb_le in H2. apply negb_true_iff, Z.eqb_neq in H3.
  unfold window_contains, local_day_minute, minute_instant.
  rewrite Z.mul_comm, Z.div_mul by lia. rewrite Zplus_mod_idemp_l.
  replace (start_minute w - utc_offset_minutes w + utc_offset_minutes w) with (start_minute w) by lia.
  rewrite Z.mod_small by lia.
  destruct (Z.ltb_spec (start_minute w) (end_minute w)); lia.
Qed.

(** Fields as their types hold them: token thresholds and minutes unsigned. *)
Definition conditions_wf (c : PriceConditions) : Prop :=
  (forall mn, min_input_tokens c = Some mn -> in_u64 mn)
  /\ (forall mx, max_input_tokens c = Some mx -> in_u64 mx)
  /\ Forall (fun w => 0 <= start_minute w) (hours c).

(** The call that meets a row's conditions at their edge. *)
Definition edge_call (c : PriceConditions) : CallFacts := {|
  fact_input_tokens := default 0 (min_input_tokens c);
  at_unix := match hours c with [] => 0 | w :: _ => minute_instant w end;
  fact_provider := cond_provider c;
  fact_tier := cond_tier c |}.

Lemma named_matches_self o : named_matches o o = true.
Proof. destruct o; cbn; [apply eq_ignore_ascii_case_refl | done]. Qed.

(** Every row that [is_valid] accepts can be matched by some call, with
    one exception: a [max_input_tokens] of zero, which is accepted and which
    no call satisfies. *)
Theorem valid_conditions_satisfiable c :
  conditions_wf c -> conditions_is_valid c = true ->
  max_input_tokens c <> Some 0 <-> exists facts, 0 <= fact_input_tokens facts /\ matches c facts = true.
Proof.
  intros (Hmn & Hmx & Hst) Hv. unfold in_u64 in *. setoid_rewrite matches_conj. split.
  - intros Hmax. exists (edge_call c). cbn. rewrite !named_matches_self; cbn.
    unfold conditions_is_valid in Hv.
    destruct (match min_input_tokens c, max_input_tokens c with
              | Some mn, Some mx => mx <=? mn | _, _ => false end) eqn:E; [done|].
    destruct (match cond_tier c with Some t => str_is_empty (trim t) | None => false end); [done|].
    destruct (match cond_provider c with Some p => str_is_empty (trim p) | None => false end); [done|].
    assert (hours_ok c (at_unix (edge_call c)) = true) as Hh.
    { apply hours_ok_spec. cbn. destruct (hours c) as [|w ws]; [by left|right; exists w].
      cbn in Hv; apply andb_true_iff in Hv as [Hw _]; apply Forall_cons_1 in Hst as [Hw0 _].
      split; [apply list_elem_of_here | by apply window_valid_instant]. }
    cbn in Hh. rewrite Hh. unfold min_ok, max_ok.
    destruct (min_input_tokens c) as [mn|] eqn:Emn, (max_input_tokens c) as [mx|] eqn:Emx; cbn.
    all: try specialize (Hmn _ eq_refl); try specialize (Hmx _ eq_refl).
    all: try (assert (mx <> 0) by congruence).
    all: split; lia.
  - intros (facts & H0 & Hm) Hmax. rewrite !andb_true_iff in Hm. destruct Hm as [[_ Hm] _].
    unfold max_ok in Hm. rewrite Hmax in Hm. lia.
Qed.

Definition beijing_peak : DailyWindow :=
  {| start_minute := 540; end_minute := 720; utc_offset_minutes := 480 |}.

Lemma valid_conditions_satisfiable_witness :
  exists facts, 0 <= fact_input_tokens facts
    /\ matches {| cond_provider := Some "vertex"%string; cond_tier := None; min_input_tokens := Some 200000;
                   max_input_tokens := Some 400000; hours := [beijing_peak] |} facts = true.
Proof.
  apply valid_conditions_satisfiable.
  - split_and!; cbn; [intros ? [= <-] | intros ? [= <-] | repeat constructor; done];
      split; vm_compute; discriminate.
  - vm_compute. reflexivity.
  - discriminate.
Defined.
