(* ===== verification/Prices.v ===== *)
(** * The price book

    From [crates/buzz-core/src/ledger/prices.rs]: rates in nanoUSD per million
    tokens, their two wire forms, the append-only book, the selection of the
    row that prices a call, and the cost of a token breakdown. *)

From Stdlib Require Import ZArith Lia Ascii.
From stdpp Require Import base list strings numbers.
From S2P Require Import Prelude MachineInt RustStr Usage Conditions.
Local Open Scope Z_scope.

Record PriceRates := {
  input_nanousd_per_mtok : Z;
  cache_read_nanousd_per_mtok : Z;
  cache_write_5m_nanousd_per_mtok : Z;
  cache_write_1h_nanousd_per_mtok : Z;
  output_nanousd_per_mtok : Z;
}.
#[export] Instance PriceRates_eq_dec : EqDecision PriceRates.
Proof. solve_decision. Defined.

Definition rates_wf (r : PriceRates) : Prop :=
  in_u64 (input_nanousd_per_mtok r) /\ in_u64 (cache_read_nanousd_per_mtok r)
  /\ in_u64 (cache_write_5m_nanousd_per_mtok r) /\ in_u64 (cache_write_1h_nanousd_per_mtok r)
  /\ in_u64 (output_nanousd_per_mtok r).

Definition TOKENS_PER_RATE_UNIT : Z := 1000000.

(** The wire form, in either unit. *)
Record PriceRatesWire := {
  w_input_mtok : option Z;
  w_cache_read_mtok : option Z;
  w_cache_write_5m_mtok : option Z;
  w_cache_write_1h_mtok : option Z;
  w_output_mtok : option Z;
  w_input_token : option Z;
  w_cache_read_token : option Z;
  w_cache_write_5m_token : option Z;
  w_cache_write_1h_token : option Z;
  w_output_token : option Z;
}.

Inductive RatesError :=
| RateOverflow (per_token : Z)
| RatesIncomplete.

(** The closure [scale] of [PriceRates::deserialize]. *)
Definition scale (per_token : Z) : Result Z RatesError :=
  ok_or (checked_mul64 per_token TOKENS_PER_RATE_UNIT) (RateOverflow per_token).

(** [PriceRates::deserialize], after serde has read the wire fields. *)
Definition deserialize_rates (w : PriceRatesWire) : Result PriceRates RatesError :=
  match w_input_mtok w, w_cache_read_mtok w, w_cache_write_5m_mtok w,
        w_cache_write_1h_mtok w, w_output_mtok w with
  | Some i, Some r, Some w5, Some w1h, Some o =>
      Ok {| input_nanousd_per_mtok := i; cache_read_nanousd_per_mtok := r;
            cache_write_5m_nanousd_per_mtok := w5; cache_write_1h_nanousd_per_mtok := w1h;
            output_nanousd_per_mtok := o |}
  | _, _, _, _, _ =>
  match w_input_token w, w_cache_read_token w, w_cache_write_5m_token w,
        w_cache_write_1h_token w, w_output_token w with
  | Some i, Some r, Some w5, Some w1h, Some o =>
      let? i' := scale i in
      let? r' := scale r in
      let? w5' := scale w5 in
      let? w1h' := scale w1h in
      let? o' := scale o in
      Ok {| input_nanousd_per_mtok := i'; cache_read_nanousd_per_mtok := r';
            cache_write_5m_nanousd_per_mtok := w5'; cache_write_1h_nanousd_per_mtok := w1h';
            output_nanousd_per_mtok := o' |}
  | _, _, _, _, _ => Err RatesIncomplete
  end
  end.

(** What the derived [Serialize] writes: always the per-million unit. *)
Definition serialize_rates (r : PriceRates) : PriceRatesWire := {|
  w_input_mtok := Some (input_nanousd_per_mtok r);
  w_cache_read_mtok := Some (cache_read_nanousd_per_mtok r);
  w_cache_write_5m_mtok := Some (cache_write_5m_nanousd_per_mtok r);
  w_cache_write_1h_mtok := Some (cache_write_1h_nanousd_per_mtok r);
  w_output_mtok := Some (output_nanousd_per_mtok r);
  w_input_token := None; w_cache_read_token := None; w_cache_write_5m_token := None;
  w_cache_write_1h_token := None; w_output_token := None |}.

Inductive PriceOrigin := OriginOwner | OriginCatalog.
#[export] Instance PriceOrigin_eq_dec : EqDecision PriceOrigin.
Proof. solve_decision. Defined.

Record PriceEntry := {
  entry_model : string;
  effective_from : Z;
  rates : PriceRates;
  conditions : PriceConditions;
  note : option string;
  origin : PriceOrigin;
}.
#[export] Instance PriceEntry_eq_dec : EqDecision PriceEntry.
Proof. solve_decision. Defined.

(** [alias_matches]. *)
Definition alias_matches (alias observed : string) : bool :=
  match strip_prefix alias observed with
  | None => false
  | Some remainder =>
      match strip_prefix "-" remainder with
      | None => false
      | Some date =>
          let digits := str_filter (fun c => negb (Ascii.eqb c "-"%char)) date in
          let separators := str_len date - chars_count digits in
          (chars_count digits =? 8) && str_all is_ascii_digit digits
          && ((separators =? 0) || ((separators =? 2) && (str_len date =? 10)))
      end
  end.

(** [div_round_half_up]: [u128] arithmetic. *)
Definition div_round_half_up (value divisor : Z) : Z := add128 value (divisor / 2) / divisor.

(** A [PriceBook] is its rows in publication order. *)
Definition PriceBook := list PriceEntry.

(** The comparison of the loop in [rates_matching]: [entry] against the best
    so far. *)
Definition entry_wins (entry current : PriceEntry) : bool :=
  match specificity (conditions entry) ?= specificity (conditions current) with
  | Gt => true
  | Lt => false
  | Eq =>
      match effective_from entry ?= effective_from current with
      | Gt => true
      | Lt => false
      | Eq => negb (bool_decide (origin entry = OriginCatalog /\ origin current = OriginOwner))
      end
  end.

(** [PriceBook::rates_matching]. *)
Definition rates_matching (book : PriceBook) (facts : CallFacts) (is_match : string -> bool)
    (scope : PriceEntry -> bool) : option PriceEntry :=
  pick_best entry_wins
    (List.filter (fun e => scope e && is_match (entry_model e)
                      && (effective_from e <=? at_unix facts)
                      && matches (conditions e) facts) book).

(** [PriceBook::best_in_scope]. *)
Definition best_in_scope (book : PriceBook) (model : string) (facts : CallFacts)
    (scope : PriceEntry -> bool) : option PriceEntry :=
  match rates_matching book facts (fun candidate => String.eqb candidate model) scope with
  | Some e => Some e
  | None => rates_matching book facts (fun candidate => alias_matches candidate model) scope
  end.

Definition names_provider (e : PriceEntry) : bool := is_some (cond_provider (conditions e)).

(** [PriceBook::entry_for_call]. *)
Definition entry_for_call (book : PriceBook) (model : string) (facts : CallFacts) : option PriceEntry :=
  match best_in_scope book model facts names_provider with
  | Some e => Some e
  | None => best_in_scope book model facts (fun e => negb (names_provider e))
  end.

(** [PriceBook::rates_for_call] and [PriceBook::rates_for]. *)
Definition rates_for_call (book : PriceBook) (model : string) (facts : CallFacts) : option PriceRates :=
  rates <$> entry_for_call book model facts.
Definition rates_for (book : PriceBook) (model : string) (at_unix : Z) : option PriceRates :=
  rates_for_call book model
    {| fact_input_tokens := 0; at_unix := at_unix; fact_provider := None; fact_tier := None |}.

(** [total_input_tokens]. *)
Definition total_input_tokens (t : UsageBreakdown) : Z :=
  saturating_add64
    (saturating_add64
       (saturating_add64 (input_uncached_tokens t) (cache_read_tokens t))
       (cache_write_5m_tokens t))
    (cache_write_1h_tokens t).

Inductive PriceBasis := BasisObserved | BasisProviderRow | BasisListRow.
#[export] Instance PriceBasis_eq_dec : EqDecision PriceBasis.
Proof. solve_decision. Defined.

Record PricedCall := { priced_nanousd : Z; basis : PriceBasis }.

(** [apply_rates]: products of two [u64] fit [u128]; the additions wrap. *)
Definition apply_rates (r : PriceRates) (t : UsageBreakdown) : Z :=
  let scaled :=
    add128 (add128 (add128 (add128
      (input_uncached_tokens t * input_nanousd_per_mtok r)
      (cache_read_tokens t * cache_read_nanousd_per_mtok r))
      (cache_write_5m_tokens t * cache_write_5m_nanousd_per_mtok r))
      (cache_write_1h_tokens t * cache_write_1h_nanousd_per_mtok r))
      (output_tokens t * output_nanousd_per_mtok r) in
  div_round_half_up scaled TOKENS_PER_RATE_UNIT.

(** [PriceBook::price_facts]. *)
Definition price_facts (book : PriceBook) (model : string) (t : UsageBreakdown) (facts : CallFacts)
    : option PricedCall :=
  match entry_for_call book model facts with
  | None => None
  | Some entry =>
      let b := if names_provider entry then BasisProviderRow else BasisListRow in
      Some {| priced_nanousd := apply_rates (rates entry) t; basis := b |}
  end.

(** [PriceBook::price_call] and [PriceBook::price_tokens]. *)
Definition price_call (book : PriceBook) (model : string) (t : UsageBreakdown) (at_unix : Z)
    (tier : option string) : option Z :=
  let facts := {| fact_input_tokens := total_input_tokens t; at_unix := at_unix;
                  fact_provider := None; fact_tier := tier |} in
  priced_nanousd <$> price_facts book model t facts.
Definition price_tokens (book : PriceBook) (model : string) (t : UsageBreakdown) (at_unix : Z)
    : option Z := price_call book model t at_unix None.

(** [PriceBook::extends]; the same check guards every append-only book. *)
Definition extends {A} `{EqDecision A} (old new : list A) : bool :=
  (length old <=? length new)%nat && bool_decide (take (length old) new = old).

(** ** The reference selection

    One scan over the rows a call satisfies, by class (rows naming the call's
    provider before list rows, exact models before undated aliases), then
    specificity, then effective date, then owner over catalog, then the later
    append. The code computes it with up to four filtered scans. *)

Definition applicable (model : string) (facts : CallFacts) (e : PriceEntry) : bool :=
  (String.eqb (entry_model e) model || alias_matches (entry_model e) model)
  && (effective_from e <=? at_unix facts) && matches (conditions e) facts.

Definition row_class (model : string) (e : PriceEntry) : Z :=
  (if names_provider e then 0 else 2) + (if String.eqb (entry_model e) model then 0 else 1).

Definition origin_rank (o : PriceOrigin) : Z := match o with OriginOwner => 1 | OriginCatalog => 0 end.

(** [entry_le x y]: [y] is at least as good as [x] within a class. *)
Definition entry_le (x y : PriceEntry) : Prop :=
  specificity (conditions x) < specificity (conditions y)
  \/ specificity (conditions x) = specificity (conditions y)
     /\ (effective_from x < effective_from y
         \/ effective_from x = effective_from y /\ origin_rank (origin x) <= origin_rank (origin y)).

Definition row_le (model : string) (x y : PriceEntry) : Prop :=
  row_class model y < row_class model x
  \/ row_class model x = row_class model y /\ entry_le x y.

(** [e] is the row the rules choose: applicable, at least as good as every
    applicable row before it, strictly better than every one after it. *)
Definition prices_call (book : PriceBook) (model : string) (facts : CallFacts) (e : PriceEntry) : Prop :=
  exists l1 l2, book = l1 ++ e :: l2 /\ applicable model facts e = true
    /\ (forall x, x ∈ l1 -> applicable model facts x = true -> row_le model x e)
    /\ (forall x, x ∈ l2 -> applicable model facts x = true -> ~ row_le model e x).

Definition row_wins (model : string) (x c : PriceEntry) : bool :=
  match row_class model x ?= row_class model c with
  | Lt => true
  | Gt => false
  | Eq => entry_wins x c
  end.

Definition best_row (book : PriceBook) (model : string) (facts : CallFacts) : option PriceEntry :=
  pick_best (row_wins model) (List.filter (applicable model facts) book).

Lemma entry_wins_spec x c : entry_wins x c = true <-> entry_le c x.
Proof.
  unfold entry_wins, entry_le.
  destruct (Z.compare_spec (specificity (conditions x)) (specificity (conditions c))) as [H|H|H];
    [|split; [done|lia]|split; [lia|done]].
  destruct (Z.compare_spec (effective_from x) (effective_from c)) as [H2|H2|H2];
    [|split; [done|lia]|split; [lia|done]].
  rewrite negb_true_iff, bool_decide_eq_false.
  destruct (origin x), (origin c); cbn; split; try (intros; lia); try done; intros; try (intros [? ?]; done); naive_solver.
Qed.

Lemma row_wins_spec model x c : row_wins model x c = true <-> row_le model c x.
Proof.
  unfold row_wins, row_le.
  destruct (Z.compare_spec (row_class model x) (row_class model c)) as [H|H|H].
  - rewrite entry_wins_spec. split; [intros; right; by split|]. intros [?|[_ ?]]; [lia|done].
  - split; [intros _; by left|done].
  - split; [done|]. intros [?|[? _]]; lia.
Qed.

Lemma row_le_total model x y : row_le model x y \/ row_le model y x.
Proof. unfold row_le, entry_le. lia. Qed.

Lemma row_le_trans model x y z : row_le model x y -> row_le model y z -> row_le model x z.
Proof. unfold row_le, entry_le. lia. Qed.

Lemma alias_not_self m : alias_matches m m = false.
Proof.
  unfold alias_matches. by rewrite strip_prefix_self.
Qed.

(** The four scans of the code, by class. *)
Definition scan (k : Z) (book : PriceBook) (model : string) (facts : CallFacts) : option PriceEntry :=
  pick_best entry_wins
    (List.filter (fun e => applicable model facts e && (row_class model e =? k)) book).

Definition first_some {A} (a b : option A) : option A := match a with Some x => Some x | None => b end.

Lemma entry_for_call_scans book model facts :
  entry_for_call book model facts =
  first_some (first_some (scan 0 book model facts) (scan 1 book model facts))
             (first_some (scan 2 book model facts) (scan 3 book model facts)).
Proof.
  assert (forall e, alias_matches (entry_model e) model = true -> String.eqb (entry_model e) model = false)
    as Hal.
  { intros e He. apply String.eqb_neq. intros Heq. rewrite Heq, alias_not_self in He. done. }
  assert (forall f scope k,
    (forall e, scope e && f (entry_model e)
               = (String.eqb (entry_model e) model || alias_matches (entry_model e) model)
                 && (row_class model e =? k)) ->
    rates_matching book facts f scope = scan k book model facts) as Hscan.
  { intros f scope k Hk. unfold rates_matching, scan. f_equal. apply List.filter_ext.
    intros e. rewrite Hk. unfold applicable.
    destruct (_ || _), (row_class model e =? k), (_ <=? _), (matches _ _); done. }
  unfold entry_for_call, best_in_scope.
  rewrite (Hscan _ names_provider 0), (Hscan _ names_provider 1),
    (Hscan _ (fun e => negb (names_provider e)) 2), (Hscan _ (fun e => negb (names_provider e)) 3).
  1: reflexivity.
  all: intros e; specialize (Hal e); unfold row_class.
  all: destruct (names_provider e), (String.eqb (entry_model e) model),
         (alias_matches (entry_model e) model); cbn; try done.
  all: discriminate (Hal eq_refl).
Qed.

Lemma scan_snoc k book x model facts :
  scan k (book ++ [x]) model facts =
  if applicable model facts x && (row_class model x =? k)
  then best_step entry_wins (scan k book model facts) x else scan k book model facts.
Proof.
  unfold scan. rewrite List.filter_app. cbn. destruct (_ && _).
  - by rewrite pick_best_snoc.
  - by rewrite app_nil_r.
Qed.

Lemma scan_class k book model facts e : scan k book model facts = Some e -> row_class model e = k.
Proof.
  intros H. apply pick_best_elem, list_elem_of_In, List.filter_In in H as [_ H].
  apply andb_true_iff in H as [_ H]. by apply Z.eqb_eq.
Qed.

Lemma row_class_range model e :
  row_class model e = 0 \/ row_class model e = 1 \/ row_class model e = 2 \/ row_class model e = 3.
Proof. unfold row_class. repeat case_match; auto. Qed.

(** The code's four scans compute the reference selection. *)
Lemma entry_for_call_best book model facts :
  entry_for_call book model facts = best_row book model facts.
Proof.
  rewrite entry_for_call_scans. unfold best_row.
  induction book as [|x book IH] using rev_ind; [done|].
  rewrite !scan_snoc, List.filter_app. cbn.
  destruct (applicable model facts x); cbn; [|by rewrite app_nil_r].
  rewrite pick_best_snoc, <- IH. clear IH. unfold best_step, row_wins, first_some.
  pose proof (scan_class 0 book model facts) as C0. pose proof (scan_class 1 book model facts) as C1.
  pose proof (scan_class 2 book model facts) as C2. pose proof (scan_class 3 book model facts) as C3.
  destruct (row_class_range model x) as [Hx|[Hx|[Hx|Hx]]]; rewrite Hx; cbn [Z.eqb Pos.eqb].
  all: destruct (scan 0 book model facts) as [e0|]; [specialize (C0 _ eq_refl)|clear C0]; cbn.
  all: destruct (scan 1 book model facts) as [e1|]; [specialize (C1 _ eq_refl)|clear C1]; cbn.
  all: destruct (scan 2 book model facts) as [e2|]; [specialize (C2 _ eq_refl)|clear C2]; cbn.
  all: destruct (scan 3 book model facts) as [e3|]; [specialize (C3 _ eq_refl)|clear C3]; cbn.
  all: try rewrite C0; try rewrite C1; try rewrite C2; try rewrite C3; cbn.
  all: try done; by repeat case_match.
Qed.

(** C34. What [entry_for_call] returns, and when it returns nothing: the row
    chosen is the one the documented precedence determines, and a call is
    unpriced exactly when no row applies to it. *)
Theorem entry_for_call_spec book model facts :
  (forall e, entry_for_call book model facts = Some e <-> prices_call book model facts e)
  /\ (entry_for_call book model facts = None
      <-> forall e, e ∈ book -> applicable model facts e = false).
Proof.
  rewrite entry_for_call_best. unfold best_row. split.
  - intros e. rewrite (pick_best_last _ (row_le model) (row_le_total model) (row_le_trans model))
      by apply row_wins_spec.
    unfold prices_call. setoid_rewrite Forall_elem. split.
    + intros (l1 & l2 & Hl & H1 & H2). apply filter_split in Hl as (k1 & k2 & -> & He & <- & <-).
      exists k1, k2. split_and!; [done|done| |]; intros x Hx Ha; [apply H1|apply H2];
        by apply elem_of_filterb.
    + intros (l1 & l2 & -> & He & H1 & H2).
      exists (List.filter (applicable model facts) l1), (List.filter (applicable model facts) l2).
      rewrite List.filter_app; cbn; rewrite He. split_and!; [done| |];
        intros x [Hx Ha]%elem_of_filterb; eauto.
  - rewrite pick_best_none. split.
    + intros Hnil e He. destruct (applicable model facts e) eqn:Ha; [|done].
      assert (e ∈ List.filter (applicable model facts) book) as Hin
        by (by apply elem_of_filterb).
      rewrite Hnil in Hin. by apply not_elem_of_nil in Hin.
    + intros Hall. induction book as [|x book IH]; [done|]. cbn.
      rewrite (Hall x) by apply list_elem_of_here. apply IH. intros e He. apply Hall.
      by apply list_elem_of_further.
Qed.

Lemma best_row_app book new model facts :
  best_row (book ++ new) model facts
  = foldl (best_step (row_wins model)) (best_row book model facts)
      (List.filter (applicable model facts) new).
Proof. unfold best_row, pick_best. by rewrite List.filter_app, foldl_app. Qed.

(** History is stable: rows that take effect after a call never change
    what that call is priced at, whatever they say. *)
Theorem future_rows_do_not_reprice book new model t facts :
  Forall (fun e => at_unix facts < effective_from e) new ->
  price_facts (book ++ new) model t facts = price_facts book model t facts.
Proof.
  intros Hnew. unfold price_facts. rewrite !entry_for_call_best, best_row_app.
  replace (List.filter (applicable model facts) new) with (@nil PriceEntry); [done|].
  induction Hnew as [|e new He Hnew IH]; [done|]. cbn. unfold applicable.
  replace (effective_from e <=? at_unix facts) with false by lia.
  by rewrite andb_false_r.
Qed.

(** A catalog refresh cannot displace a company's own rate: while an
    owner's row prices a call, appending catalog rows no more specific and no
    later than it, of its provider scope or of none and not an exact model
    where the owner's is an alias, leaves that row in force. *)
Theorem catalog_refresh_keeps_owner_rate book new model facts e :
  entry_for_call book model facts = Some e -> origin e = OriginOwner ->
  Forall (fun c => origin c = OriginCatalog /\ row_class model e <= row_class model c
                   /\ specificity (conditions c) <= specificity (conditions e)
                   /\ effective_from c <= effective_from e) new ->
  entry_for_call (book ++ new) model facts = Some e.
Proof.
  rewrite !entry_for_call_best, best_row_app. intros -> Ho Hnew.
  induction Hnew as [|c new Hc Hnew IH]; [done|]. cbn.
  destruct (applicable model facts c); [|done]. cbn.
  destruct (row_wins model c e) eqn:Hw; [exfalso|done].
  apply row_wins_spec in Hw. destruct Hc as (Hco & Hcl & Hs & Hf).
  unfold row_le, entry_le in Hw. rewrite Ho, Hco in Hw. cbn in Hw. lia.
Qed.

(** ** Cost *)

Definition exact_scaled (r : PriceRates) (t : UsageBreakdown) : Z :=
  input_uncached_tokens t * input_nanousd_per_mtok r
  + cache_read_tokens t * cache_read_nanousd_per_mtok r
  + cache_write_5m_tokens t * cache_write_5m_nanousd_per_mtok r
  + cache_write_1h_tokens t * cache_write_1h_nanousd_per_mtok r
  + output_tokens t * output_nanousd_per_mtok r.

Lemma apply_rates_eq r t :
  apply_rates r t = wrap128 (exact_scaled r t + 500000) / TOKENS_PER_RATE_UNIT.
Proof.
  unfold apply_rates, div_round_half_up, add128, exact_scaled.
  change (TOKENS_PER_RATE_UNIT / 2) with 500000.
  rewrite (wrap128_add_l (_ * _ + _ * _)), (wrap128_add_l (_ * _ + _ * _ + _ * _)),
    (wrap128_add_l (_ * _ + _ * _ + _ * _ + _ * _)).
  by rewrite wrap128_add_l.
Qed.

(** Token counts below 2^61 leave room for every category at any [u64] rate. *)
Definition moderate_tokens (t : UsageBreakdown) : Prop :=
  0 <= input_uncached_tokens t < 2 ^ 61 /\ 0 <= cache_read_tokens t < 2 ^ 61
  /\ 0 <= cache_write_5m_tokens t < 2 ^ 61 /\ 0 <= cache_write_1h_tokens t < 2 ^ 61
  /\ 0 <= output_tokens t < 2 ^ 61.

Lemma mul_below a b : 0 <= a < 2 ^ 61 -> in_u64 b -> 0 <= a * b <= (2 ^ 61 - 1) * u64_max.
Proof.
  intros Ha [Hb0 Hb]. split; [apply Z.mul_nonneg_nonneg; lia|].
  apply Z.mul_le_mono_nonneg; lia.
Qed.

(** C39. A cost is the exact product of counts and rates, rounded once, half
    up: it is off by at most half a nanoUSD, and it does not overflow [u128]
    while every count is below 2^61. *)
Theorem apply_rates_exact r t :
  rates_wf r -> moderate_tokens t ->
  - 500000 <= exact_scaled r t - apply_rates r t * TOKENS_PER_RATE_UNIT < 500000
  /\ in_u128 (apply_rates r t).
Proof.
  intros (R1 & R2 & R3 & R4 & R5) (T1 & T2 & T3 & T4 & T5).
  pose proof (mul_below _ _ T1 R1). pose proof (mul_below _ _ T2 R2).
  pose proof (mul_below _ _ T3 R3). pose proof (mul_below _ _ T4 R4). pose proof (mul_below _ _ T5 R5).
  rewrite apply_rates_eq. unfold TOKENS_PER_RATE_UNIT.
  assert (0 <= exact_scaled r t <= 5 * ((2 ^ 61 - 1) * u64_max)) as Hx by (unfold exact_scaled; lia).
  generalize dependent (exact_scaled r t). intros x Hx.
  rewrite wrap128_small by (unfold in_u128, u64_max, u128_modulus in *; lia).
  pose proof (Z.div_mod (x + 500000) 1000000 ltac:(lia)) as Hd.
  pose proof (Z.mod_pos_bound (x + 500000) 1000000 ltac:(lia)) as Hm.
  split; [lia|]. unfold in_u128, u64_max, u128_modulus in *. lia.
Qed.

(** The order of the categories and their split between categories at one
    rate do not matter: cost depends on the exact product alone. *)
Lemma apply_rates_scaled_eq r1 t1 r2 t2 :
  exact_scaled r1 t1 = exact_scaled r2 t2 -> apply_rates r1 t1 = apply_rates r2 t2.
Proof. intros H. by rewrite !apply_rates_eq, H. Qed.

(** ** The wire form *)

(** Rates survive the wire in the unit serialization writes, and a row in
    the old per-token unit is read as exactly a million times its rates, or
    refused when one of them does not fit; never rounded and never mixed. *)
Theorem rates_wire_roundtrip r :
  deserialize_rates (serialize_rates r) = Ok r
  /\ forall i cr w5 w1h o,
     deserialize_rates {| w_input_mtok := None; w_cache_read_mtok := None; w_cache_write_5m_mtok := None;
       w_cache_write_1h_mtok := None; w_output_mtok := None; w_input_token := Some i;
       w_cache_read_token := Some cr; w_cache_write_5m_token := Some w5;
       w_cache_write_1h_token := Some w1h; w_output_token := Some o |} = Ok r
     <-> input_nanousd_per_mtok r = i * 1000000 /\ cache_read_nanousd_per_mtok r = cr * 1000000
         /\ cache_write_5m_nanousd_per_mtok r = w5 * 1000000
         /\ cache_write_1h_nanousd_per_mtok r = w1h * 1000000
         /\ output_nanousd_per_mtok r = o * 1000000
         /\ Forall (fun x => x * 1000000 <= u64_max) [i; cr; w5; w1h; o].
Proof.
  split; [by destruct r|]. intros i cr w5 w1h o. cbn.
  unfold scale, checked_mul64, TOKENS_PER_RATE_UNIT.
  rewrite !list.Forall_cons, list.Forall_nil.
  destruct (Z.leb_spec (i * 1000000) u64_max); cbn; [|split; [done|intros (_ & _ & _ & _ & _ & ? & ? & ? & ? & ? & _); lia]].
  destruct (Z.leb_spec (cr * 1000000) u64_max); cbn; [|split; [done|intros (_ & _ & _ & _ & _ & ? & ? & ? & ? & ? & _); lia]].
  destruct (Z.leb_spec (w5 * 1000000) u64_max); cbn; [|split; [done|intros (_ & _ & _ & _ & _ & ? & ? & ? & ? & ? & _); lia]].
  destruct (Z.leb_spec (w1h * 1000000) u64_max); cbn; [|split; [done|intros (_ & _ & _ & _ & _ & ? & ? & ? & ? & ? & _); lia]].
  destruct (Z.leb_spec (o * 1000000) u64_max); cbn; [|split; [done|intros (_ & _ & _ & _ & _ & ? & ? & ? & ? & ? & _); lia]].
  split; [intros [= <-]; by split_and!|].
  intros (R1 & R2 & R3 & R4 & R5 & _). destruct r; cbn in *; subst. done.
Qed.

(** ** Append-only books *)

Lemma extends_spec {A} `{EqDecision A} (old new : list A) :
  extends old new = true <-> exists tail, new = old ++ tail.
Proof.
  unfold extends. rewrite andb_true_iff, bool_decide_eq_true, Nat.leb_le. split.
  - intros [_ H]. exists (drop (length old) new). rewrite <- H at 1. by rewrite take_drop.
  - intros [tail ->]. rewrite length_app, take_app_length. split; [lia|done].
Qed.

Lemma extends_refl {A} `{EqDecision A} (b : list A) : extends b b = true.
Proof. apply extends_spec. exists []. by rewrite app_nil_r. Qed.

Lemma extends_trans {A} `{EqDecision A} (a b c : list A) :
  extends a b = true -> extends b c = true -> extends a c = true.
Proof.
  rewrite !extends_spec. intros [t1 ->] [t2 ->]. exists (t1 ++ t2). by rewrite app_assoc.
Qed.

#[export] Hint Resolve extends_refl : colony.

(** ** Concrete books *)

Definition flat_rates (n : Z) : PriceRates := {|
  input_nanousd_per_mtok := n; cache_read_nanousd_per_mtok := n; cache_write_5m_nanousd_per_mtok := n;
  cache_write_1h_nanousd_per_mtok := n; output_nanousd_per_mtok := n |}.

Definition list_row (m : string) (from n : Z) (o : PriceOrigin) : PriceEntry := {|
  entry_model := m; effective_from := from; rates := flat_rates n; conditions := no_conditions;
  note := None; origin := o |}.

Definition provider_row (m p : string) (from n : Z) : PriceEntry := {|
  entry_model := m; effective_from := from; rates := flat_rates n;
  conditions := {| cond_provider := Some p; cond_tier := None; min_input_tokens := None;
                   max_input_tokens := None; hours := [] |};
  note := None; origin := OriginOwner |}.

Definition call_at (t : Z) (p : string) : CallFacts := {|
  fact_input_tokens := 10; at_unix := t; fact_provider := Some p; fact_tier := None |}.

Definition ten_tokens : UsageBreakdown := {|
  input_uncached_tokens := 10; cache_read_tokens := 0; cache_write_5m_tokens := 0;
  cache_write_1h_tokens := 0; output_tokens := 0 |}.

(** A provider's alias row beats an exact list row; a dated list row beats an alias. *)
Example provider_alias_beats_list :
  entry_for_call [list_row "m-20250929" 5 2000000 OriginOwner; provider_row "m" "bedrock" 1 3000000]
    "m-20250929" (call_at 9 "Bedrock") = Some (provider_row "m" "bedrock" 1 3000000).
Proof. reflexivity. Qed.

Example alias_needs_a_date :
  alias_matches "gpt-4o" "gpt-4o-2024-08-06" = true /\ alias_matches "gpt-4" "gpt-4o" = false
  /\ alias_matches "claude-sonnet-4" "claude-sonnet-4-5-20250929" = false.
Proof. by vm_compute. Qed.

(** The date test counts digits and hyphens without looking at where the
    hyphens are. *)
Example alias_misplaced_hyphens : alias_matches "gpt-4o" "gpt-4o-2-0-240806" = true.
Proof. reflexivity. Qed.

Lemma future_rows_do_not_reprice_witness :
  price_facts [list_row "m" 5 2000000 OriginOwner; list_row "m" 20 9000000 OriginOwner] "m"
    ten_tokens (call_at 9 "p")
  = Some {| priced_nanousd := 20; basis := BasisListRow |}.
Proof.
  rewrite (future_rows_do_not_reprice [list_row "m" 5 2000000 OriginOwner]
             [list_row "m" 20 9000000 OriginOwner]).
  - vm_compute. reflexivity.
  - repeat constructor.
Defined.

Lemma catalog_refresh_keeps_owner_rate_witness :
  entry_for_call [list_row "m" 5 2000000 OriginOwner; list_row "m" 5 3000000 OriginCatalog] "m"
    (call_at 9 "p") = Some (list_row "m" 5 2000000 OriginOwner).
Proof.
  apply (catalog_refresh_keeps_owner_rate [list_row "m" 5 2000000 OriginOwner]
           [list_row "m" 5 3000000 OriginCatalog]).
  - reflexivity.
  - reflexivity.
  - repeat constructor; vm_compute; discriminate.
Defined.

Lemma apply_rates_exact_witness :
  - 500000 <= exact_scaled (flat_rates 2800000) ten_tokens
              - apply_rates (flat_rates 2800000) ten_tokens * TOKENS_PER_RATE_UNIT < 500000
  /\ in_u128 (apply_rates (flat_rates 2800000) ten_tokens).
Proof.
  apply apply_rates_exact.
  - unfold rates_wf, in_u64; cbn. split_and!; vm_compute; discriminate.
  - unfold moderate_tokens; cbn. split_and!; try (vm_compute; discriminate); reflexivity.
Defined.
