(* ===== verification/Catalog.v ===== *)
(** * The maintained price catalog

    From [crates/buzz-core/src/ledger/catalog.rs]: reading a catalog document
    into book entries, combining the shipped catalog with a feed, and the rows
    a book is missing. The JSON reader and writer, and the RFC 3339 parser,
    are libraries: they are parameters. *)

From Stdlib Require Import ZArith Lia Ascii.
From stdpp Require Import base list strings numbers.
From S2P Require Import Prelude MachineInt RustStr Json Usage Conditions Prices.
Local Open Scope Z_scope.

Record CatalogWindow := {
  win_start : string;
  win_end : string;
  win_utc_offset_minutes : Z;
}.

Record CatalogRow := {
  row_model : string;
  row_effective_from : string;
  input_per_mtok : string;
  cache_read_per_mtok : string;
  cache_write_5m_per_mtok : string;
  cache_write_1h_per_mtok : string;
  output_per_mtok : string;
  row_note : option string;
  row_provider : option string;
  row_tier : option string;
  row_min_input_tokens : option Z;
  row_max_input_tokens : option Z;
  row_hours : list CatalogWindow;
}.

Record CatalogFile := { version : Z; file_entries : list CatalogRow }.

(** The messages of [CatalogError], with what they are formatted from. *)
Inductive CatalogError :=
| NotHhMm (model value : string)
| NoCallSatisfies (model : string)
| NotDollars (model field value : string)
| NotRfc3339 (model value : string)
| BeforeEpoch (model value : string)
| BadJson (msg : string)
| UnsupportedVersion (version : Z)
| TwoEntries (model effective_from : string)
| EmptyCatalog.
#[export] Instance CatalogError_eq_dec : EqDecision CatalogError.
Proof. solve_decision. Defined.

(** [parse_hh_mm]. *)
Definition parse_hh_mm (value model : string) : Result Z CatalogError :=
  let bad := NotHhMm model value in
  match split_once ":"%char value with
  | None => Err bad
  | Some (hours, minutes) =>
      if negb (str_len hours =? 2) || negb (str_len minutes =? 2) then Err bad
      else
        let? h := ok_or (parse_uint u32_max hours) bad in
        let? m := ok_or (parse_uint u32_max minutes) bad in
        if (24 <? h) || (59 <? m) || ((h =? 24) && negb (m =? 0)) then Err bad
        else Ok (h * 60 + m)
  end.

(** One window of a row, in the loop of [parse_conditions]. *)
Definition parse_window (model : string) (w : CatalogWindow) : Result DailyWindow CatalogError :=
  let? s := parse_hh_mm (win_start w) model in
  let? e := parse_hh_mm (win_end w) model in
  Ok {| start_minute := s; end_minute := e; utc_offset_minutes := win_utc_offset_minutes w |}.

(** [parse_conditions]. *)
Definition parse_conditions (row : CatalogRow) : Result PriceConditions CatalogError :=
  let? hs := try_map (parse_window (row_model row)) (row_hours row) in
  let conds := {| cond_provider := row_provider row; cond_tier := row_tier row;
                  min_input_tokens := row_min_input_tokens row;
                  max_input_tokens := row_max_input_tokens row; hours := hs |} in
  if conditions_is_valid conds then Ok conds else Err (NoCallSatisfies (row_model row)).

Definition SUPPORTED_VERSION : Z := 1.

(** [per_mtok_to_nanousd]. *)
Definition per_mtok_to_nanousd (value model field : string) : Result Z CatalogError :=
  let trimmed := trim value in
  let bad := NotDollars model field value in
  if str_is_empty trimmed || starts_with "-" trimmed then Err bad
  else
    let '(whole, fraction) := default (trimmed, EmptyString) (split_once "."%char trimmed) in
    if str_is_empty whole || negb (str_all is_ascii_digit whole) then Err bad
    else if negb (str_all is_ascii_digit fraction) then Err bad
    else if 9 <? str_len fraction then Err bad
    else
      let? dollars := ok_or (parse_uint u64_max whole) bad in
      let padded := (fraction +:+ zeros (9 - String.length fraction) EmptyString)%string in
      let? nanos := ok_or (parse_uint u64_max padded) bad in
      match checked_mul64 dollars 1000000000 with
      | None => Err bad
      | Some scaled => ok_or (checked_add64 scaled nanos) bad
      end.

Section Documents.
Context (rfc3339 : string -> option Z)
        (json_catalog : string -> Result CatalogFile string)
        (json_conditions : PriceConditions -> Result string string).

(** [parse_rfc3339] of catalog.rs. *)
Definition catalog_instant (value model : string) : Result Z CatalogError :=
  match rfc3339 value with
  | None => Err (NotRfc3339 model value)
  | Some t => if (0 <=? t) && (t <=? u64_max) then Ok t else Err (BeforeEpoch model value)
  end.

Definition catalog_key := (string * Z * string)%type.

(** One row of the loop of [parse_catalog]: its key and the entry it becomes. *)
Definition parse_row (row : CatalogRow) (seen : list catalog_key)
    : Result (catalog_key * PriceEntry) CatalogError :=
  let? from := catalog_instant (row_effective_from row) (row_model row) in
  let? conds := parse_conditions row in
  let? cj := map_err BadJson (json_conditions conds) in
  let key := (row_model row, from, cj) in
  if bool_decide (key ∈ seen) then Err (TwoEntries (row_model row) (row_effective_from row))
  else
    let? i := per_mtok_to_nanousd (input_per_mtok row) (row_model row) "input" in
    let? r := per_mtok_to_nanousd (cache_read_per_mtok row) (row_model row) "cache read" in
    let? w5 := per_mtok_to_nanousd (cache_write_5m_per_mtok row) (row_model row) "5m cache write" in
    let? w1h := per_mtok_to_nanousd (cache_write_1h_per_mtok row) (row_model row) "1h cache write" in
    let? o := per_mtok_to_nanousd (output_per_mtok row) (row_model row) "output" in
    Ok (key, {| entry_model := row_model row; effective_from := from;
                rates := {| input_nanousd_per_mtok := i; cache_read_nanousd_per_mtok := r;
                            cache_write_5m_nanousd_per_mtok := w5;
                            cache_write_1h_nanousd_per_mtok := w1h; output_nanousd_per_mtok := o |};
                conditions := conds; note := row_note row; origin := OriginCatalog |}).

Fixpoint parse_rows (rows : list CatalogRow) (seen : list catalog_key)
    : Result (list PriceEntry) CatalogError :=
  match rows with
  | [] => Ok []
  | row :: rest =>
      let? ke := parse_row row seen in
      let? es := parse_rows rest (fst ke :: seen) in
      Ok (snd ke :: es)
  end.

(** [parse_catalog], and [parse_catalog_document] which is the same. *)
Definition parse_catalog (json : string) : Result (list PriceEntry) CatalogError :=
  let? file := map_err BadJson (json_catalog json) in
  if negb (version file =? SUPPORTED_VERSION) then Err (UnsupportedVersion (version file))
  else parse_rows (file_entries file) [].

Definition parse_catalog_document (json : string) : Result (list PriceEntry) CatalogError :=
  parse_catalog json.

(** The key closure of [missing_from]: a failed serialization is the empty string. *)
Definition entry_key (e : PriceEntry) : catalog_key :=
  (entry_model e, effective_from e, default EmptyString (ok (json_conditions (conditions e)))).

(** [missing_from]. *)
Definition missing_from (catalog existing : list PriceEntry) : list PriceEntry :=
  let present := entry_key <$> existing in
  List.filter (fun e => negb (bool_decide (entry_key e ∈ present))) catalog.
End Documents.

Record CatalogConflict := { conflict_model : string; conflict_effective_from : Z }.
#[export] Instance CatalogConflict_eq_dec : EqDecision CatalogConflict.
Proof. solve_decision. Defined.

(** The coordinate [merge_catalogs] indexes by. *)
Definition coord (e : PriceEntry) : string * Z := (entry_model e, effective_from e).
#[global] Arguments coord _ : simpl never.

Record MergeState := {
  merged : list PriceEntry;
  index : list ((string * Z) * nat);
  conflicts : list CatalogConflict;
}.

(** The first loop of [merge_catalogs]. *)
Definition merge_shipped_step (st : MergeState) (e : PriceEntry) : MergeState := {|
  merged := merged st ++ [e];
  index := bt_insert (coord e) (length (merged st)) (index st);
  conflicts := conflicts st |}.

(** The second loop; [None] where the code would panic on an index out of range. *)
Definition merge_remote_step (st : MergeState) (e : PriceEntry) : option MergeState :=
  match bt_get (coord e) (index st) with
  | Some position =>
      match merged st !! position with
      | None => None
      | Some old =>
          Some {| merged := <[position := e]> (merged st);
                  index := index st;
                  conflicts := if bool_decide (rates old = rates e) then conflicts st
                    else conflicts st ++ [{| conflict_model := entry_model e;
                                             conflict_effective_from := effective_from e |}] |}
      end
  | None => Some (merge_shipped_step st e)
  end.

Fixpoint merge_remote (st : MergeState) (remote : list PriceEntry) : option MergeState :=
  match remote with
  | [] => Some st
  | e :: rest =>
      match merge_remote_step st e with
      | None => None
      | Some st' => merge_remote st' rest
      end
  end.

(** [merge_catalogs]. *)
Definition merge_catalogs (shipped remote : list PriceEntry)
    : option (list PriceEntry * list CatalogConflict) :=
  let st0 := foldl merge_shipped_step {| merged := []; index := []; conflicts := [] |} shipped in
  match merge_remote st0 remote with
  | None => None
  | Some st => Some (merged st, conflicts st)
  end.

(** ** Amounts *)

Lemma starts_with_digit c s : is_ascii_digit c = true -> starts_with "-" (String c s) = false.
Proof.
  intros Hc. unfold starts_with. cbn [strip_prefix].
  destruct (Ascii.eqb_spec "-"%char c) as [<-|_]; [discriminate Hc|done].
Qed.

Lemma fraction_zeros_none f :
  String.length f = 9%nat -> (f +:+ zeros (9 - String.length f) EmptyString)%string = f.
Proof. intros ->. cbn. apply str_append_nil_r. Qed.

(** Dollar amounts are read exactly: an amount printed as dollars, a point
    and nine decimals comes back as that many nanoUSD, for every amount a [u64]
    of nanoUSD can hold. *)
Theorem per_mtok_exact d n model field :
  0 <= d -> 0 <= n < 10 ^ 9 -> d * 1000000000 + n <= u64_max ->
  per_mtok_to_nanousd (dec d +:+ String "."%char (dec_pad 9 n))%string model field
  = Ok (d * 1000000000 + n).
Proof.
  intros Hd Hn Hmax.
  assert (String.length (dec_pad 9 n) = 9%nat) as Hlen by (by apply dec_pad_length; [lia|]).
  assert (dec_pad 9 n <> EmptyString) as Hne by (intros E; by rewrite E in Hlen).
  pose proof (dec_digits d Hd) as Dd. pose proof (dec_pad_digits 9 n (proj1 Hn)) as Dn.
  destruct (all_digits_head (dec d) (dec_nonempty d) Dd) as (c1 & s1 & E1 & H1).
  set (v := (dec d +:+ String "."%char (dec_pad 9 n))%string).
  destruct (decimal_text (dec d) (dec_pad 9 n) (dec_nonempty d) Hne Dd Dn) as [Ht Hs]. fold v in Ht, Hs.
  unfold per_mtok_to_nanousd. rewrite Ht, Hs.
  replace (str_is_empty v) with false by (unfold v; by rewrite E1).
  replace (starts_with "-" v) with false by (unfold v; rewrite E1; symmetry; by apply starts_with_digit).
  cbn [orb from_option id].
  replace (str_is_empty (dec d)) with false by (by rewrite E1).
  rewrite Dd, Dn, fraction_zeros_none by done. cbn [orb negb]. unfold str_len. rewrite Hlen.
  change (9 <? Z.of_nat 9) with false. cbn iota.
  rewrite (parse_uint_digits u64_max (dec d) d); [|apply dec_nonempty|done|by apply digits_value_dec|lia].
  rewrite (parse_uint_digits u64_max (dec_pad 9 n) n);
    [|done|done|apply digits_value_dec_pad; lia|unfold u64_max in *; lia].
  cbn [ok_or rbind]. unfold checked_mul64, checked_add64.
  destruct (Z.leb_spec (d * 1000000000) u64_max); [|lia].
  destruct (Z.leb_spec (d * 1000000000 + n) u64_max); [done|lia].
Qed.

Lemma per_mtok_exact_witness :
  per_mtok_to_nanousd "0.002800000" "deepseek-v4-flash" "cache read" = Ok 2800000.
Proof. apply (per_mtok_exact 0 2800000); vm_compute; repeat split; discriminate. Defined.

(** Whatever is accepted is a [u64]. *)
Lemma per_mtok_range v model field n : per_mtok_to_nanousd v model field = Ok n -> in_u64 n.
Proof.
  unfold per_mtok_to_nanousd. intros H. case_match; [done|].
  destruct (default _ _) as [whole fraction]. repeat (case_match; [done|]).
  apply rbind_ok in H as (d & Hd & H). apply rbind_ok in H as (m & Hm & H).
  destruct (parse_uint u64_max whole) as [d'|] eqn:Ed; [|done].
  destruct (parse_uint u64_max (_ +:+ _)%string) as [m'|] eqn:Em; [|done]. cbn in Hd, Hm. simplify_eq.
  apply parse_uint_range in Ed, Em. unfold checked_mul64, checked_add64, in_u64 in *.
  destruct (Z.leb_spec (d * 1000000000) u64_max); [|done].
  destruct (Z.leb_spec (d * 1000000000 + m) u64_max); [|done]. cbn in H. simplify_eq. lia.
Qed.

(** ** Local times *)

(** A time is at most the end of the day. *)
Lemma parse_hh_mm_range v model n : parse_hh_mm v model = Ok n -> 0 <= n <= 1440.
Proof.
  unfold parse_hh_mm. intros H. destruct (split_once _ v) as [[h m]|]; [|done].
  case_match; [done|]. apply rbind_ok in H as (h' & Hh & H). apply rbind_ok in H as (m' & Hm & H).
  destruct (parse_uint u32_max h) eqn:Eh; [|done]. destruct (parse_uint u32_max m) eqn:Em; [|done].
  cbn in Hh, Hm. simplify_eq. apply parse_uint_range in Eh, Em.
  case_match eqn:E; [done|]. simplify_eq. rewrite !orb_false_iff, andb_false_iff, negb_false_iff in E.
  lia.
Qed.

(** Every padded [HH:MM] is read as its minute. *)
Example hh_mm_all :
  forallb (fun h => forallb (fun m =>
      bool_decide (parse_hh_mm (dec_pad 2 h +:+ String ":"%char (dec_pad 2 m))%string "" = Ok (h * 60 + m)))
    (seqZ 0 60)) (seqZ 0 24) = true.
Proof. vm_compute. reflexivity. Qed.

(** The field parser of the standard library accepts a leading plus sign, so a
    two-byte field need not be two digits. *)
Lemma hh_mm_accepts_signs : parse_hh_mm "+9:+5" "m" = Ok 545.
Proof. reflexivity. Qed.

(** ** Reading a document *)

Section DocumentFacts.
Context (rfc3339 : string -> option Z)
        (json_catalog : string -> Result CatalogFile string)
        (json_conditions : PriceConditions -> Result string string).

#[local] Abbreviation key_of := (entry_key json_conditions).

(** What an accepted row became. *)
Record row_reads (row : CatalogRow) (e : PriceEntry) : Prop := {
  reads_model : entry_model e = row_model row;
  reads_from : rfc3339 (row_effective_from row) = Some (effective_from e);
  reads_conditions : conditions_is_valid (conditions e) = true;
  reads_provider : cond_provider (conditions e) = row_provider row;
  reads_tier : cond_tier (conditions e) = row_tier row;
  reads_min : min_input_tokens (conditions e) = row_min_input_tokens row;
  reads_max : max_input_tokens (conditions e) = row_max_input_tokens row;
  reads_rates : rates_wf (rates e);
  reads_origin : origin e = OriginCatalog;
  reads_note : note e = row_note row;
}.

Lemma parse_conditions_ok row c :
  parse_conditions row = Ok c ->
  conditions_is_valid c = true /\ cond_provider c = row_provider row /\ cond_tier c = row_tier row
  /\ min_input_tokens c = row_min_input_tokens row /\ max_input_tokens c = row_max_input_tokens row.
Proof.
  unfold parse_conditions. rewrite rbind_ok. intros (hs & _ & H).
  case_match eqn:E; [|done]. by injection H as <-.
Qed.

Lemma parse_row_ok row seen k e :
  parse_row rfc3339 json_conditions row seen = Ok (k, e) ->
  row_reads row e /\ k = key_of e /\ k ∉ seen.
Proof.
  unfold parse_row. rewrite rbind_ok. intros (from & Hfrom & H).
  apply rbind_ok in H as (c & Hc & H). apply rbind_ok in H as (cj & Hcj & H).
  destruct (bool_decide _) eqn:Hseen in H; [done|]. apply bool_decide_eq_false in Hseen.
  apply rbind_ok in H as (i & Hi & H). apply rbind_ok in H as (r & Hr & H).
  apply rbind_ok in H as (w5 & Hw5 & H). apply rbind_ok in H as (w1h & Hw1h & H).
  apply rbind_ok in H as (o & Ho & H). injection H as <- <-.
  apply parse_conditions_ok in Hc as (Hv & Hp & Ht & Hmn & Hmx).
  apply per_mtok_range in Hi, Hr, Hw5, Hw1h, Ho.
  unfold catalog_instant in Hfrom. destruct (rfc3339 _) as [t|] eqn:Et; [|done].
  destruct (_ && _) in Hfrom; [|done]. injection Hfrom as ->.
  split; [by split|]. split; [|done]. unfold entry_key; cbn.
  destruct (json_conditions c); [|done]. by injection Hcj as ->.
Qed.

Lemma parse_rows_ok rows seen es :
  parse_rows rfc3339 json_conditions rows seen = Ok es ->
  Forall2 row_reads rows es /\ NoDup (key_of <$> es) /\ (forall e, e ∈ es -> key_of e ∉ seen).
Proof.
  revert seen es. induction rows as [|row rows IH]; intros seen es H; cbn in H.
  - injection H as <-. split_and!; [constructor|constructor|]. by intros e ?%not_elem_of_nil.
  - apply rbind_ok in H as ([k e] & Hrow & H). apply rbind_ok in H as (es' & Hes & H).
    injection H as <-. apply parse_row_ok in Hrow as (Hr & -> & Hk). cbn in *.
    apply IH in Hes as (H2 & Hnd & Hseen). split_and!.
    + by constructor.
    + constructor; [|done]. rewrite list_elem_of_fmap. intros (e' & Heq & He').
      apply (Hseen e' He'). rewrite <- Heq. apply list_elem_of_here.
    + intros e' [->|He']%elem_of_cons; [done|]. specialize (Hseen e' He').
      intros Hin. apply Hseen. by apply list_elem_of_further.
Qed.

(** An accepted catalog document is of the supported version, and gives one
    entry per row, in order, each with the row's model, instant and conditions,
    satisfiable-checked, with [u64] rates and catalog origin; no two entries
    share a model, an instant and conditions. *)
Theorem parse_catalog_ok json es :
  parse_catalog rfc3339 json_catalog json_conditions json = Ok es ->
  exists file, json_catalog json = Ok file /\ version file = 1
    /\ Forall2 row_reads (file_entries file) es /\ NoDup (key_of <$> es).
Proof.
  unfold parse_catalog. rewrite rbind_ok. intros (file & Hf & H).
  destruct (Z.eqb_spec (version file) SUPPORTED_VERSION) as [Hv|Hv]; [|done]. cbn in H.
  apply parse_rows_ok in H as (H2 & Hnd & _). exists file. split_and!; try done.
  destruct (json_catalog json); [|done]. by injection Hf as ->.
Qed.

(** Seeding a book from the catalog is idempotent and complete: only
    catalog rows are added, none at a coordinate the book has, every catalog
    row's coordinate is present afterwards, and a second run adds nothing. *)
Theorem missing_from_idempotent catalog existing :
  let seeded := existing ++ missing_from json_conditions catalog existing in
  extends existing seeded = true
  /\ (forall e, e ∈ missing_from json_conditions catalog existing
        <-> e ∈ catalog /\ key_of e ∉ (key_of <$> existing))
  /\ (forall e, e ∈ catalog -> key_of e ∈ (key_of <$> seeded))
  /\ missing_from json_conditions catalog seeded = [].
Proof.
  cbn zeta.
  assert (forall e, e ∈ missing_from json_conditions catalog existing
        <-> e ∈ catalog /\ key_of e ∉ (key_of <$> existing)) as Hin.
  { intros e. unfold missing_from. by rewrite elem_of_filterb, negb_true_iff, bool_decide_eq_false. }
  assert (forall e, e ∈ catalog ->
    key_of e ∈ (key_of <$> existing ++ missing_from json_conditions catalog existing)) as Hall.
  { intros e He. rewrite fmap_app, elem_of_app.
    destruct (decide (key_of e ∈ (key_of <$> existing))) as [|Hn]; [by left|right].
    apply list_elem_of_fmap. exists e. split; [done|]. by apply Hin. }
  split_and!; [apply extends_spec; eauto|exact Hin|exact Hall|].
  unfold missing_from at 1. revert Hall. generalize (missing_from json_conditions catalog existing).
  intros new Hall. induction catalog as [|e catalog IH]; [done|]. cbn.
  rewrite bool_decide_eq_true_2 by (apply Hall, list_elem_of_here). cbn.
  apply IH.
  - intros e'. unfold missing_from. by rewrite elem_of_filterb, negb_true_iff, bool_decide_eq_false.
  - intros e' He'. apply Hall. by apply list_elem_of_further.
Qed.
End DocumentFacts.

(** A reader for one document, to run the parser on. *)
Definition sample_row (m : string) (mn mx : option Z) : CatalogRow := {|
  row_model := m; row_effective_from := "2026-08-01T00:00:00Z"; input_per_mtok := "5";
  cache_read_per_mtok := "0.5"; cache_write_5m_per_mtok := "6.25"; cache_write_1h_per_mtok := "10";
  output_per_mtok := "30"; row_note := None; row_provider := None; row_tier := None;
  row_min_input_tokens := mn; row_max_input_tokens := mx; row_hours := [] |}.
Definition sample_file : CatalogFile :=
  {| version := 1; file_entries := [sample_row "m" None (Some 200000); sample_row "m" (Some 200000) None] |}.
Definition sample_rfc3339 (s : string) : option Z := Some 1785542400.
Definition sample_json (c : PriceConditions) : Result string string :=
  Ok (match min_input_tokens c with Some n => dec n | None => "-" end).

Lemma parse_catalog_ok_witness :
  exists file, (fun _ => Ok sample_file : Result CatalogFile string) "{}"%string = Ok file /\ version file = 1
    /\ exists es, Forall2 (row_reads sample_rfc3339) (file_entries file) es /\ length es = 2%nat
       /\ NoDup (entry_key sample_json <$> es).
Proof.
  destruct (parse_catalog sample_rfc3339 (fun _ => Ok sample_file) sample_json "{}") as [es|err] eqn:E;
    [|vm_compute in E; discriminate E].
  destruct (parse_catalog_ok sample_rfc3339 (fun _ => Ok sample_file) sample_json "{}" es E)
    as (file & Hf & Hv & H2 & Hnd).
  exists file. split; [exact Hf|]. split; [exact Hv|]. exists es. split; [exact H2|].
  split; [|exact Hnd]. vm_compute in E. injection E as <-. reflexivity.
Defined.

(** ** Merging the shipped catalog with a feed *)

Definition find_coord (c : string * Z) (l : list PriceEntry) : option PriceEntry :=
  List.find (fun e => bool_decide (coord e = c)) l.

(** What a merge is meant to give when coordinates are unique: the feed's row
    in place of the shipped one where both have the coordinate, then the rows
    only the feed has; and the coordinates whose rates differ. *)
Definition override (remote : list PriceEntry) (e : PriceEntry) : PriceEntry :=
  default e (find_coord (coord e) remote).
Definition only_remote (shipped remote : list PriceEntry) : list PriceEntry :=
  List.filter (fun e => negb (bool_decide (coord e ∈ (coord <$> shipped)))) remote.
Definition conflict_of (shipped : list PriceEntry) (r : PriceEntry) : list CatalogConflict :=
  match find_coord (coord r) shipped with
  | Some s => if bool_decide (rates s = rates r) then []
              else [{| conflict_model := entry_model r; conflict_effective_from := effective_from r |}]
  | None => []
  end.

(** The index holds exactly the positions of the coordinates. *)
Record merge_ok (st : MergeState) : Prop := {
  ok_index_wf : bt_wf (index st);
  ok_index : forall c i, bt_get c (index st) = Some i <-> coord <$> merged st !! i = Some c;
}.

Lemma find_coord_insert c i (r e : PriceEntry) m :
  m !! i = Some e -> coord e = coord r -> coord r <> c -> find_coord c (<[i := r]> m) = find_coord c m.
Proof.
  intros Hi Hc Hne. revert i Hi. induction m as [|x m IH]; intros [|i] Hi; cbn in *; try discriminate.
  - injection Hi as ->. by rewrite !bool_decide_eq_false_2 by congruence.
  - case_bool_decide; [done|]. by apply IH.
Qed.

Lemma find_coord_app c m r : coord r <> c -> find_coord c (m ++ [r]) = find_coord c m.
Proof.
  intros Hne. induction m as [|x m IH]; cbn.
  - by rewrite bool_decide_eq_false_2.
  - by case_bool_decide.
Qed.

Lemma find_coord_none c m : c ∉ (coord <$> m) -> find_coord c m = None.
Proof.
  induction m as [|x m IH]; cbn; [done|]. rewrite not_elem_of_cons. intros [Hne Hn].
  rewrite bool_decide_eq_false_2 by congruence. by apply IH.
Qed.

Lemma find_coord_some c m i e :
  NoDup (coord <$> m) -> m !! i = Some e -> coord e = c -> find_coord c m = Some e.
Proof.
  revert i. induction m as [|x m IH]; intros i Hnd Hi Hc; [done|]. cbn in *.
  apply list.NoDup_cons in Hnd as [Hx Hnd]. destruct i as [|i]; cbn in Hi.
  - injection Hi as ->. by rewrite bool_decide_eq_true_2.
  - rewrite bool_decide_eq_false_2; [by eapply IH|]. intros Heq. apply Hx. rewrite Heq.
    apply list_elem_of_fmap. exists e. split; [done|]. by eapply list_elem_of_lookup_2.
Qed.

Lemma override_other r rest e : coord e <> coord r -> override (r :: rest) e = override rest e.
Proof. intros H. unfold override; cbn. by rewrite bool_decide_eq_false_2 by congruence. Qed.

(** Appending a row with a new coordinate keeps the index exact. *)
Lemma merge_shipped_ok st e :
  merge_ok st -> coord e ∉ (coord <$> merged st) -> merge_ok (merge_shipped_step st e).
Proof.
  intros [Hwf Hix] Hn. split; cbn; [by apply bt_update_wf|].
  intros c i. unfold bt_insert. destruct (decide (coord e = c)) as [<-|Hne].
  - rewrite bt_get_update_eq. split.
    + intros [= <-]. by rewrite list_lookup_middle.
    + intros Hi. f_equal. destruct (decide (i < length (merged st))%nat) as [Hlt|Hge].
      * rewrite lookup_app_l in Hi by done. exfalso. apply Hn.
        apply fmap_Some in Hi as (x & Hx & ->). apply list_elem_of_fmap. exists x.
        split; [done|]. by eapply list_elem_of_lookup_2.
      * rewrite lookup_app_r in Hi by lia.
        destruct (i - length (merged st))%nat eqn:E; [lia|]. done.
  - rewrite bt_get_update_ne, Hix by done.
    destruct (decide (i < length (merged st))%nat) as [Hlt|Hge].
    + by rewrite lookup_app_l.
    + rewrite (lookup_ge_None_2 (merged st)), lookup_app_r by lia.
      destruct (i - length (merged st))%nat eqn:E; cbn; [|done].
      split; [done|]. intros [= ?]. done.
Qed.

Lemma merge_replace_ok st i e r :
  merge_ok st -> merged st !! i = Some e -> coord e = coord r ->
  coord <$> <[i := r]> (merged st) = coord <$> merged st.
Proof.
  intros _ Hi Hc. rewrite list_fmap_insert. apply list_insert_id.
  by rewrite list_lookup_fmap, Hi, <- Hc.
Qed.

Lemma override_insert (m : list PriceEntry) i old r rest :
  NoDup (coord <$> m) -> m !! i = Some old -> coord old = coord r -> coord r ∉ (coord <$> rest) ->
  override rest <$> <[i := r]> m = override (r :: rest) <$> m.
Proof.
  intros Hnd Hold Hc Hr. apply list_eq. intros j. rewrite !list_lookup_fmap.
  destruct (decide (i = j)) as [<-|Hne].
  - rewrite list_lookup_insert_eq by (by eapply lookup_lt_Some). rewrite Hold. cbn. f_equal.
    unfold override; cbn. rewrite bool_decide_eq_true_2 by done. by rewrite find_coord_none.
  - rewrite list_lookup_insert_ne by done. destruct (m !! j) as [x|] eqn:Hx; [|done].
    cbn. f_equal. symmetry. apply override_other. intros Heq. apply Hne.
    eapply (NoDup_lookup (coord <$> m)); [done| |]; rewrite list_lookup_fmap; [by rewrite Hold|].
    rewrite Hx; cbn. by rewrite Hc, Heq.
Qed.

Lemma override_fresh (m : list PriceEntry) r rest :
  coord r ∉ (coord <$> m) -> override rest <$> m = override (r :: rest) <$> m.
Proof.
  intros Hn. apply list_fmap_ext. intros j x Hx. symmetry. apply override_other. intros Heq.
  apply Hn. rewrite <- Heq. apply list_elem_of_fmap. exists x. split; [done|].
  by eapply list_elem_of_lookup_2.
Qed.

Lemma conflicts_ext m m' rest :
  (forall x, x ∈ rest -> find_coord (coord x) m' = find_coord (coord x) m) ->
  rest ≫= conflict_of m' = rest ≫= conflict_of m.
Proof.
  intros H. induction rest as [|x rest IH]; [done|]. cbn. f_equal.
  - unfold conflict_of. by rewrite H by apply list_elem_of_here.
  - apply IH. intros y Hy. apply H. by apply list_elem_of_further.
Qed.

Lemma only_remote_fresh m r rest :
  (forall e, e ∈ rest -> coord e <> coord r) -> only_remote (m ++ [r]) rest = only_remote m rest.
Proof.
  intros Hrest. apply List.filter_ext_in. intros x Hx. apply list_elem_of_In in Hx.
  rewrite fmap_app. f_equal. apply bool_decide_ext. rewrite elem_of_app; cbn.
  rewrite list_elem_of_singleton. specialize (Hrest x Hx). naive_solver.
Qed.

Lemma conflicts_cons m r rest :
  (r :: rest) ≫= conflict_of m = conflict_of m r ++ (rest ≫= conflict_of m).
Proof. done. Qed.

Lemma conflict_of_found m i old r :
  NoDup (coord <$> m) -> m !! i = Some old -> coord old = coord r ->
  conflict_of m r = if bool_decide (rates old = rates r) then []
    else [{| conflict_model := entry_model r; conflict_effective_from := effective_from r |}].
Proof. intros Hnd Hi Hc. unfold conflict_of. by rewrite (find_coord_some _ _ _ _ Hnd Hi Hc). Qed.

Lemma conflict_of_fresh m r : coord r ∉ (coord <$> m) -> conflict_of m r = [].
Proof. intros Hn. unfold conflict_of. by rewrite find_coord_none. Qed.

Lemma only_remote_cons m r rest :
  only_remote m (r :: rest)
  = if bool_decide (coord r ∈ (coord <$> m)) then only_remote m rest else r :: only_remote m rest.
Proof. unfold only_remote. cbn. by case_bool_decide. Qed.

Lemma merge_remote_spec st remote :
  merge_ok st -> NoDup (coord <$> merged st) -> NoDup (coord <$> remote) ->
  exists st', merge_remote st remote = Some st'
    /\ merged st' = (override remote <$> merged st) ++ only_remote (merged st) remote
    /\ conflicts st' = conflicts st ++ (remote ≫= conflict_of (merged st)).
Proof.
  revert st. induction remote as [|r rest IH]; intros st Hok Hnd Hndr.
  - exists st. split; [done|]. cbn. rewrite !app_nil_r. split; [|done].
    rewrite <- (list_fmap_id (merged st)) at 1. apply list_fmap_ext. by intros.
  - cbn in Hndr. apply list.NoDup_cons in Hndr as [Hr Hndr]. cbn [merge_remote]. unfold merge_remote_step.
    assert (forall e, e ∈ rest -> coord e <> coord r) as Hrest.
    { intros e He Heq. apply Hr. rewrite <- Heq. apply list_elem_of_fmap. eauto. }
    destruct (bt_get (coord r) (index st)) as [i|] eqn:Hi.
    + pose proof Hi as Hpos. apply (ok_index _ Hok) in Hpos.
      apply fmap_Some in Hpos as (old & Hold & Hc). rewrite Hold. symmetry in Hc.
      pose proof (merge_replace_ok st i old r Hok Hold Hc) as Hcoords.
      assert (coord r ∈ (coord <$> merged st)) as Hin.
      { apply list_elem_of_fmap. exists old. split; [done|]. by eapply list_elem_of_lookup_2. }
      edestruct IH as (st' & -> & Hm & Hcf); [| |done|exists st'; split; [done|]].
      * split; cbn; [apply Hok|]. intros c j. by rewrite (ok_index _ Hok), <- !list_lookup_fmap, Hcoords.
      * cbn. by rewrite Hcoords.
      * cbn in Hm, Hcf. rewrite Hm, Hcf, conflicts_cons, only_remote_cons.
        rewrite (conflict_of_found _ i old), bool_decide_eq_true_2, (override_insert _ i old) by done.
        rewrite (conflicts_ext (merged st)); [split|].
        -- f_equal. unfold only_remote. by rewrite Hcoords.
        -- case_bool_decide; cbn; [done|]. by rewrite <- app_assoc.
        -- intros x Hx. apply (find_coord_insert _ i r old); auto. intros Heq. by eapply Hrest.
    + assert (coord r ∉ (coord <$> merged st)) as Hn.
      { rewrite list_elem_of_lookup. intros (j & Hj). rewrite list_lookup_fmap in Hj.
        apply (ok_index _ Hok) in Hj. congruence. }
      edestruct (IH (merge_shipped_step st r)) as (st' & -> & Hm & Hcf);
        [by apply merge_shipped_ok| |done|exists st'; split; [done|]].
      * cbn. rewrite fmap_app. cbn. apply list.NoDup_app. split_and!; [done| |apply NoDup_singleton].
        intros x Hx. rewrite list_elem_of_singleton. by intros ->.
      * cbn in Hm, Hcf. rewrite Hm, Hcf, fmap_app, only_remote_fresh by done.
        rewrite conflicts_cons, only_remote_cons, conflict_of_fresh by done.
        rewrite bool_decide_eq_false_2, (override_fresh _ r), <- app_assoc by done.
        rewrite (conflicts_ext (merged st)); [split; [|done]|].
        -- cbn. do 2 f_equal. unfold override. by rewrite find_coord_none.
        -- intros x Hx. apply find_coord_app. intros Heq. by eapply Hrest.
Qed.

Lemma merge_shipped_all shipped st :
  merge_ok st -> NoDup (coord <$> merged st ++ shipped) ->
  let st' := foldl merge_shipped_step st shipped in
  merge_ok st' /\ merged st' = merged st ++ shipped /\ conflicts st' = conflicts st.
Proof.
  cbn zeta. revert st. induction shipped as [|e shipped IH]; intros st Hok Hnd; cbn.
  - by rewrite app_nil_r.
  - rewrite cons_middle, app_assoc in Hnd.
    destruct (IH (merge_shipped_step st e)) as (H1 & H2 & H3); [|done|].
    + apply merge_shipped_ok; [done|]. rewrite <- app_assoc, fmap_app in Hnd. cbn in Hnd.
      apply list.NoDup_app in Hnd as (_ & Hd & _). intros Hin. apply (Hd _ Hin), list_elem_of_here.
    + rewrite H2, H3. cbn. by rewrite <- app_assoc.
Qed.

(** Positions in the index are in range: the code's indexing cannot panic. *)
Definition index_in_range (st : MergeState) : Prop :=
  bt_wf (index st) /\ forall c i, bt_get c (index st) = Some i -> (i < length (merged st))%nat.

Lemma index_in_range_shipped st e : index_in_range st -> index_in_range (merge_shipped_step st e).
Proof.
  intros [Hwf Hr]. split; cbn; [by apply bt_update_wf|]. intros c i. rewrite length_app. cbn.
  unfold bt_insert. destruct (decide (coord e = c)) as [<-|Hne].
  - rewrite bt_get_update_eq. intros [= <-]. lia.
  - rewrite bt_get_update_ne by done. intros Hi. apply Hr in Hi. lia.
Qed.

Lemma merge_remote_total remote st : index_in_range st -> is_Some (merge_remote st remote).
Proof.
  revert st. induction remote as [|r rest IH]; intros st Hr; cbn; [done|]. unfold merge_remote_step.
  destruct (bt_get (coord r) (index st)) as [i|] eqn:Hi.
  - pose proof (proj2 Hr _ _ Hi) as Hlt. apply lookup_lt_is_Some in Hlt as [old ->].
    apply IH. split; cbn; [apply Hr|]. intros c j Hj. rewrite length_insert. by eapply Hr.
  - apply IH. by apply index_in_range_shipped.
Qed.

(** Combining the shipped catalog with a feed never panics, and, where
    neither has two rows at one (model, date), gives the feed's row wherever
    both price a coordinate, the shipped rows in their place otherwise, the
    rows only the feed has after them, and one conflict per coordinate whose
    rates differ. *)
Theorem merge_catalogs_spec shipped remote :
  is_Some (merge_catalogs shipped remote)
  /\ (NoDup (coord <$> shipped) -> NoDup (coord <$> remote) ->
      merge_catalogs shipped remote =
      Some ((override remote <$> shipped) ++ only_remote shipped remote,
            remote ≫= conflict_of shipped)).
Proof.
  unfold merge_catalogs. split.
  - set (st0 := {| merged := []; index := []; conflicts := [] |}).
    assert (index_in_range (foldl merge_shipped_step st0 shipped)) as Hr.
    { assert (index_in_range st0) as H0 by (split; [constructor|done]).
      revert H0. generalize st0. induction shipped as [|e sh IH]; intros st Hst; cbn; [done|].
      by apply IH, index_in_range_shipped. }
    destruct (merge_remote_total remote _ Hr) as [st ->]. done.
  - intros Hnd Hndr.
    destruct (merge_shipped_all shipped {| merged := []; index := []; conflicts := [] |})
      as (Hok & Hm & Hc); [split; cbn; [constructor|by intros]|done|]. cbn in Hm, Hc.
    destruct (merge_remote_spec _ remote Hok) as (st' & -> & -> & ->); [by rewrite Hm|done|].
    by rewrite Hm, Hc.
Qed.

Lemma merge_catalogs_spec_witness :
  merge_catalogs [list_row "m" 5 2 OriginCatalog; list_row "n" 5 2 OriginCatalog]
                 [list_row "n" 5 3 OriginCatalog; list_row "n" 9 4 OriginCatalog]
  = Some ([list_row "m" 5 2 OriginCatalog; list_row "n" 5 3 OriginCatalog; list_row "n" 9 4 OriginCatalog],
          [{| conflict_model := "n"; conflict_effective_from := 5 |}]).
Proof.
  destruct (merge_catalogs_spec [list_row "m" 5 2 OriginCatalog; list_row "n" 5 2 OriginCatalog]
              [list_row "n" 5 3 OriginCatalog; list_row "n" 9 4 OriginCatalog]) as [_ H].
  rewrite H.
  - vm_compute. reflexivity.
  - apply (bool_decide_unpack _). vm_compute. exact I.
  - apply (bool_decide_unpack _). vm_compute. exact I.
Defined.

(** The index ignores conditions, so two rows of the feed that a catalog
    legitimately gives one model and date, a short- and a long-context rate
    say, overwrite each other: only the last survives, with a conflict reported
    between them. *)
Theorem merge_drops_conditional_rows (s l : PriceEntry) :
  coord s = coord l -> rates s <> rates l ->
  merge_catalogs [] [s; l]
  = Some ([l], [{| conflict_model := entry_model l; conflict_effective_from := effective_from l |}]).
Proof.
  intros Hc Hr. unfold merge_catalogs, merge_remote, merge_remote_step, merge_shipped_step, bt_insert.
  cbn [foldl index merged conflicts bt_get bt_update length].
  rewrite Hc, kcmp_refl. cbn. by rewrite bool_decide_eq_false_2.
Qed.

Definition context_row (mn mx : option Z) (n : Z) : PriceEntry := {|
  entry_model := "gpt"; effective_from := 5; rates := flat_rates n;
  conditions := {| cond_provider := None; cond_tier := None; min_input_tokens := mn;
                   max_input_tokens := mx; hours := [] |};
  note := None; origin := OriginCatalog |}.

Lemma merge_drops_conditional_rows_witness :
  merge_catalogs [] [context_row None (Some 200000) 5; context_row (Some 200000) None 10]
  = Some ([context_row (Some 200000) None 10],
          [{| conflict_model := "gpt"; conflict_effective_from := 5 |}]).
Proof.
  apply (merge_drops_conditional_rows (context_row None (Some 200000) 5)
           (context_row (Some 200000) None 10)).
  - reflexivity.
  - vm_compute. discriminate.
Defined.
