(* ===== verification/Event.v ===== *)
(** * Events and their tags

    A signed Nostr event as the library hands it over, the relay's wrapper of
    it ([crates/buzz-core/src/event.rs]), [event_tags.rs]: reading a tag that
    carries a decision, and [agent_reply.rs]: the tag that asks one teammate for
    a reply. *)

From Stdlib Require Import ZArith Lia Ascii.
From stdpp Require Import base list strings numbers.
From S2P Require Import Prelude MachineInt RustStr.
Local Open Scope Z_scope.

(** [nostr::Event]: keys, ids and signatures by their hex strings. *)
Record Event := {
  ev_id : string;
  ev_pubkey : string;
  ev_created_at : Z;
  ev_kind : Z;
  ev_tags : list (list string);
  ev_content : string;
  ev_sig : string;
}.

(** [buzz_core::StoredEvent], without its time of receipt. *)
Record StoredEvent := { stored_event : Event; stored_channel : option string; verified : bool }.

Definition KIND_STREAM_MESSAGE : Z := 9.
Definition KIND_GIFT_WRAP : Z := 1059.

Inductive TagLookupError := TagMissing | TagDuplicate.
#[export] Instance TagLookupError_eq_dec : EqDecision TagLookupError.
Proof. solve_decision. Defined.

(** The loop of [optional_tag] from an accumulator. *)
Fixpoint optional_tag_loop (tags : list (list string)) (name : string) (found : option string)
    : Result (option string) TagLookupError :=
  match tags with
  | [] => Ok found
  | parts :: rest =>
      if negb (bool_decide (head parts = Some name)) then optional_tag_loop rest name found
      else
        let? value := ok_or (parts !! 1%nat) TagMissing in
        if is_some found then Err TagDuplicate
        else optional_tag_loop rest name (Some value)
  end.

(** [optional_tag]. *)
Definition optional_tag (event : Event) (name : string) : Result (option string) TagLookupError :=
  optional_tag_loop (ev_tags event) name None.

(** [single_tag]. *)
Definition single_tag (event : Event) (name : string) : Result string TagLookupError :=
  let? v := optional_tag event name in ok_or v TagMissing.

(** ** Facts *)

Definition named (name : string) (parts : list string) : bool := bool_decide (head parts = Some name).

Lemma optional_tag_loop_spec tags name found :
  (forall v, optional_tag_loop tags name found = Ok v <->
     (List.filter (named name) tags = [] /\ v = found)
     \/ (found = None /\ exists x t, List.filter (named name) tags = [name :: x :: t] /\ v = Some x)).
Proof.
  revert found. induction tags as [|parts rest IH]; intros found v; cbn.
  - split; [intros [= <-]; by left|]. intros [[_ ->]|(_ & x & t & H & _)]; done.
  - change (bool_decide (head parts = Some name)) with (named name parts).
    destruct (named name parts) eqn:Hh; cbn; [|apply IH]. apply bool_decide_eq_true in Hh.
    destruct parts as [|n parts]; [done|]. cbn in Hh. injection Hh as ->.
    destruct parts as [|x t]; cbn.
    + split; [done|]. intros [[? _]|(_ & x & t & H & _)]; [done|]. by injection H.
    + destruct found as [y|]; cbn.
      * split; [done|]. intros [[? _]|(? & _)]; done.
      * rewrite IH. split.
        -- intros [[Hnil ->]|(? & _)]; [|done]. right. split; [done|]. exists x, t. by rewrite Hnil.
        -- intros [[? _]|(_ & x' & t' & H & ->)]; [done|]. injection H as -> -> ->. by left.
Qed.

(** A tag that carries a decision is read only when it is unambiguous: the
    value is returned exactly when one tag has the name and it has a value;
    absence is [None]; anything else is an error. *)
Theorem optional_tag_spec event name :
  (optional_tag event name = Ok None <-> List.filter (named name) (ev_tags event) = [])
  /\ (forall x, optional_tag event name = Ok (Some x) <->
        exists t, List.filter (named name) (ev_tags event) = [name :: x :: t])
  /\ (forall x, single_tag event name = Ok x <->
        exists t, List.filter (named name) (ev_tags event) = [name :: x :: t]).
Proof.
  pose proof (optional_tag_loop_spec (ev_tags event) name None) as H.
  assert (forall x, optional_tag event name = Ok (Some x) <->
        exists t, List.filter (named name) (ev_tags event) = [name :: x :: t]) as Hs.
  { intros x. unfold optional_tag. rewrite H. split.
    - intros [[_ ?]|(_ & y & t & Hf & [= ->])]; [done|]. by exists t.
    - intros (t & Ht). right. split; [done|]. by exists x, t. }
  split_and!; [|exact Hs|].
  - unfold optional_tag. rewrite H. split; [|by left].
    intros [[? _]|(_ & y & t & _ & ?)]; done.
  - intros x. rewrite <- Hs. unfold single_tag. rewrite rbind_ok. split.
    + intros ([y|] & Hy & [= ->]). done.
    + intros Hx. exists (Some x). by split.
Qed.

(** ** Model requests on messages

    [crates/buzz-core/src/agent_reply.rs]: the tag with which the owner asks
    one teammate to answer one message with a chosen model. The harness's queue
    keeps such a message apart from every other ([Queue]). *)

Local Open Scope Z_scope.

Definition AGENT_REPLY_TAG : string := "agent-reply".

Record AgentReplyModel := { target : string; model_id : string }.
#[export] Instance AgentReplyModel_eq_dec : EqDecision AgentReplyModel.
Proof. solve_decision. Defined.

Inductive AgentReplyError :=
| ReplyTagNotUnique
| ReplyTagShape
| ReplyTargetInvalid
| ReplyTargetNotLowercase
| ReplyTargetNotMentioned
| ReplyModelInvalid.
#[export] Instance AgentReplyError_eq_dec : EqDecision AgentReplyError.
Proof. solve_decision. Defined.

(** [u8::is_ascii_graphic]. *)
Definition is_ascii_graphic : ascii -> bool := in_code_range 33 126.

Definition is_reply_tag (tag : list string) : bool := bool_decide (head tag = Some AGENT_REPLY_TAG).

(** [tags.iter().any(..)] of the recipient test: a [p] tag with the target. *)
Definition mentions (t : string) (tag : list string) : bool :=
  bool_decide (head tag = Some "p"%string) && bool_decide (tag !! 1%nat = Some t).

(** [has_agent_reply]. *)
Definition has_agent_reply (event : Event) : bool := existsb is_reply_tag (ev_tags event).

(** [model_stays_on_provider]. *)
Definition model_stays_on_provider (model : string) (provider : option string) (fixed_route : bool)
    : bool :=
  if fixed_route then true
  else match split_once "/"%char model with
       | None => true
       | Some (prefix, _) =>
           match provider with Some p => String.eqb prefix p | None => false end
       end.

Section Parse.
(** [PublicKey::from_hex] followed by [to_hex]: the canonical hex of a key. *)
Context (from_hex : string -> option string).

(** The checks of [parse_agent_reply_tags] on its one tag. *)
Definition parse_reply_tag (tags : list (list string)) (tag : list string)
    : Result (option AgentReplyModel) AgentReplyError :=
  match tag with
  | [_; version; t; m] =>
      fail_if negb (String.eqb version "1") with ReplyTagShape;
      let? key := ok_or (from_hex t) ReplyTargetInvalid in
      fail_if negb (String.eqb t key) with ReplyTargetNotLowercase;
      fail_if negb (existsb (mentions t) tags) with ReplyTargetNotMentioned;
      fail_if str_is_empty m || (256 <? str_len m) || negb (str_all is_ascii_graphic m)
        with ReplyModelInvalid;
      Ok (Some {| target := key; model_id := m |})
  | _ => Err ReplyTagShape
  end.

(** [parse_agent_reply_tags]. *)
Definition parse_agent_reply_tags (kind : Z) (tags : list (list string))
    : Result (option AgentReplyModel) AgentReplyError :=
  match List.filter is_reply_tag tags with
  | [] => Ok None
  | tag :: others =>
      fail_if negb (bool_decide (others = [])) || negb (kind =? KIND_STREAM_MESSAGE)
        with ReplyTagNotUnique;
      parse_reply_tag tags tag
  end.

(** [parse_agent_reply]. *)
Definition parse_agent_reply (event : Event) : Result (option AgentReplyModel) AgentReplyError :=
  parse_agent_reply_tags (ev_kind event) (ev_tags event).

(** ** Facts *)

Lemma has_agent_reply_filter event :
  has_agent_reply event = false <-> List.filter is_reply_tag (ev_tags event) = [].
Proof.
  unfold has_agent_reply. induction (ev_tags event) as [|t l IH]; cbn; [done|].
  by destruct (is_reply_tag t).
Qed.

(** An event the queue treats as ordinary carries no model request, and one
    with an accepted request is never treated as ordinary. *)
Lemma parse_agent_reply_none event :
  has_agent_reply event = false <-> parse_agent_reply event = Ok None.
Proof.
  rewrite has_agent_reply_filter. unfold parse_agent_reply, parse_agent_reply_tags.
  destruct (List.filter is_reply_tag (ev_tags event)) as [|t l]; [done|].
  split; [done|]. case_match; [done|]. unfold parse_reply_tag.
  destruct t as [|a [|v [|x [|m [|? ?]]]]]; try done.
  case_match; [done|]. destruct (from_hex x); cbn; [|done]. by repeat case_match.
Qed.
End Parse.
