(* ===== verification/AskWire.v ===== *)
(** * The wire format of interrupts

    [crates/buzz-core/src/interrupt.rs]: asks, their resolutions, withdrawals
    and state heads, delegation grants and decision logs; the ranks of agents
    and the categories that only a human decides. *)

From Stdlib Require Import ZArith Lia Ascii.
From stdpp Require Import base list strings numbers.
From S2P Require Import Prelude MachineInt RustStr Json Event.
Local Open Scope Z_scope.

Definition HARD_LIST_CATEGORIES : list string :=
  ["spend"; "external_send"; "hiring"; "legal"; "pricing"; "deletion"; "vendor"]%string.
Definition MAX_ASK_WINDOW_SECS : Z := 30 * 24 * 60 * 60.
Definition NO_INITIATIVE : string := "no-initiative".
Definition VAGUE_GRANT_SCOPES : list string := ["*"; "all"]%string.

(** [is_hard_list_category]. *)
Definition is_hard_list_category (category : string) : bool :=
  bool_decide (to_ascii_lowercase category ∈ HARD_LIST_CATEGORIES).

Inductive AskType := Decision | Question | Credential | Blocker | Stall.
#[export] Instance AskType_eq_dec : EqDecision AskType.
Proof. solve_decision. Defined.

(** [AskType::as_str], [parse], [is_fast_path]. *)
Definition ask_type_as_str (t : AskType) : string :=
  match t with
  | Decision => "decision" | Question => "question" | Credential => "credential"
  | Blocker => "blocker" | Stall => "stall"
  end.
Definition ask_type_parse (s : string) : option AskType :=
  if String.eqb s "decision" then Some Decision
  else if String.eqb s "question" then Some Question
  else if String.eqb s "credential" then Some Credential
  else if String.eqb s "blocker" then Some Blocker
  else if String.eqb s "stall" then Some Stall
  else None.
Definition is_fast_path (t : AskType) : bool :=
  match t with Credential | Blocker => true | _ => false end.

Inductive AgentTier := Worker | Leader | Executive.
#[export] Instance AgentTier_eq_dec : EqDecision AgentTier.
Proof. solve_decision. Defined.

(** [AgentTier::as_str], [parse], [escalation_target]. *)
Definition tier_as_str (t : AgentTier) : string :=
  match t with Worker => "worker" | Leader => "leader" | Executive => "executive" end.
Definition tier_parse (s : string) : option AgentTier :=
  if String.eqb s "worker" then Some Worker
  else if String.eqb s "leader" then Some Leader
  else if String.eqb s "executive" then Some Executive
  else None.
Definition escalation_target (t : AgentTier) : AgentTier :=
  match t with Worker => Leader | Leader => Executive | Executive => Executive end.

Inductive AskParseError :=
| TagCardinality (name : string)
| MissingTaskTag
| UnknownAskType (value : string)
| InvalidHex (field value : string)
| InvalidNeedKey (value : string)
| InvalidJson
| EmptyField (field : string)
| DefaultOnHardList (category : string)
| DefaultOptionNotInOptions (option : string)
| StallCarriesDefault
| DefaultWindowSecsOutOfRange (got max : Z)
| GrantOnHardList (category : string)
| VagueGrantScope (scope : string)
| DecisionOnHardList (category : string)
| InvalidAmount (field : string)
| UnknownAskStateField (field value : string)
| InvalidAskState (what : string).
#[export] Instance AskParseError_eq_dec : EqDecision AskParseError.
Proof. solve_decision. Defined.

Record ParsedAsk := {
  ask_type : AskType;
  audience_hex : string;
  initiative_id : string;
  task_ids : list string;
  origin_thread_hex : option string;
  need_key : string;
  prior_ask_hex : option string;
  category : option string;
  cost_of_delay : string;
  default_option : option string;
  default_window_secs : option Z;
  headline : string;
  filer_hex : option string;
}.

Record ParsedResolution := {
  resolution_ask_hex : string;
  answer : Json;
  default_executed : bool;
}.

Record ParsedWithdrawal := { withdrawal_ask_hex : string; reason : string }.

Record ParsedGrant := {
  grant_id : string;
  grant_category : string;
  scope : string;
  cap_nano_usd : option Z;
  active : bool;
}.

Record ParsedDecisionLog := {
  log_grant_id : string;
  log_task_ids : list string;
  decision : string;
  undo_path : string;
  log_category : string;
  amount_nano_usd : option Z;
}.

(** ** Reading tags and content *)

(** [is_hex64_lowercase]. *)
Definition is_hex64_lowercase (s : string) : bool :=
  (str_len s =? 64) && str_all (fun c => is_ascii_digit c || in_code_range 97 102 c) s.

(** [validate_hex64_field]. *)
Definition validate_hex64_field (field value : string) : Result unit AskParseError :=
  if is_hex64_lowercase value then Ok tt else Err (InvalidHex field value).

(** [is_valid_need_slug]. *)
Definition is_valid_need_slug (s : string) : bool :=
  negb (str_is_empty s) && (str_len s <=? 64)
  && str_all (fun c => is_ascii_digit c || is_ascii_lowercase c || Ascii.eqb c "-") s.

(** One step of [tag_values]: an exact two-element tag with the name. *)
Definition tag_value (name : string) (parts : list string) : option string :=
  match parts with
  | [n; value] => if String.eqb n name then Some value else None
  | _ => None
  end.

(** [tag_values]. *)
Definition tag_values (event : Event) (name : string) : list string :=
  filter_map (tag_value name) (ev_tags event).

(** [single_tag_value]. *)
Definition single_tag_value (event : Event) (name : string) : Result string AskParseError :=
  match tag_values event name with [first] => Ok first | _ => Err (TagCardinality name) end.

(** [optional_tag_value]. *)
Definition optional_tag_value (event : Event) (name : string)
    : Result (option string) AskParseError :=
  match tag_values event name with
  | [] => Ok None
  | [first] => Ok (Some first)
  | _ => Err (TagCardinality name)
  end.

(** An optional tag that must be 64 hex digits when present. *)
Definition optional_hex_tag (event : Event) (name : string) : Result (option string) AskParseError :=
  let? v := optional_tag_value event name in
  match v with
  | Some hex => let? _ := validate_hex64_field name hex in Ok (Some hex)
  | None => Ok None
  end.

(** [required_content_field]. *)
Definition required_content_field (content : Json) (field : string) : Result string AskParseError :=
  let value := trim (default EmptyString (get_str content field)) in
  fail_if str_is_empty value with EmptyField field;
  Ok value.

(** [required_content_bool_field]. *)
Definition required_content_bool_field (content : Json) (field : string) : Result bool AskParseError :=
  ok_or (jget content field ≫= as_bool) (EmptyField field).

(** [parse_non_negative_amount] and [ask_state_int_field]: absent, null or a
    non-negative [i64]. *)
Definition non_negative_field (err : AskParseError) (content : Json) (field : string)
    : Result (option Z) AskParseError :=
  match jget content field with
  | None | Some JNull => Ok None
  | Some value =>
      match as_i64 value with
      | Some n => if 0 <=? n then Ok (Some n) else Err err
      | None => Err err
      end
  end.
Definition parse_non_negative_amount (content : Json) (field : string) : Result (option Z) AskParseError :=
  non_negative_field (InvalidAmount field) content field.
Definition ask_state_int_field (content : Json) (field : string) : Result (option Z) AskParseError :=
  non_negative_field (InvalidAskState field) content field.

(** [options.iter().any(..)] of [parse_ask]: an option with this label. *)
Definition has_matching_option (content : Json) (label : string) : bool :=
  match jget content "options" ≫= as_array with
  | Some options => existsb (fun o => bool_decide (get_str o "label" = Some label)) options
  | None => false
  end.

(** The rules of [parse_ask] on a stated default. *)
Definition check_default (type : AskType) (category : option string) (content : Json)
    (option : string) : Result unit AskParseError :=
  fail_if bool_decide (type = Stall) with StallCarriesDefault;
  let? _ := match category with
            | Some c => if is_hard_list_category c then Err (DefaultOnHardList c) else Ok tt
            | None => Ok tt
            end in
  fail_if negb (has_matching_option content option) with DefaultOptionNotInOptions option;
  Ok tt.

(** ** Parsers *)

Section Parsers.
Context `{JsonLib}.

(** [parse_content]. *)
Definition parse_content (event : Event) : Result Json AskParseError :=
  ok_or (json_from_str (ev_content event)) InvalidJson.

(** [parse_ask]. *)
Definition parse_ask (event : Event) : Result ParsedAsk AskParseError :=
  let? ask_type_raw := single_tag_value event "ask-type" in
  let? type := ok_or (ask_type_parse ask_type_raw) (UnknownAskType ask_type_raw) in
  let? audience := single_tag_value event "p" in
  let? _ := validate_hex64_field "p" audience in
  let? initiative := single_tag_value event "initiative" in
  let? need := single_tag_value event "need" in
  fail_if negb (is_valid_need_slug need) with InvalidNeedKey need;
  let tasks := tag_values event "task" in
  fail_if bool_decide (tasks = []) with MissingTaskTag;
  let? origin := optional_hex_tag event "e" in
  let? prior := optional_hex_tag event "prior" in
  let? filer := optional_hex_tag event "filer" in
  let? cat := optional_tag_value event "category" in
  let? content := parse_content event in
  let? head := required_content_field content "headline" in
  let? cost := required_content_field content "cost_of_delay" in
  let dflt := get_str content "default_option" in
  let window := jget content "default_window_secs" ≫= as_u64 in
  let? _ := match window with
            | Some secs =>
                if MAX_ASK_WINDOW_SECS <? secs
                then Err (DefaultWindowSecsOutOfRange secs MAX_ASK_WINDOW_SECS) else Ok tt
            | None => Ok tt
            end in
  let? _ := match dflt with
            | Some option => check_default type cat content option
            | None => Ok tt
            end in
  Ok {| ask_type := type; audience_hex := audience; initiative_id := initiative;
        task_ids := tasks; origin_thread_hex := origin; need_key := need;
        prior_ask_hex := prior; category := cat; cost_of_delay := cost;
        default_option := dflt; default_window_secs := window; headline := head;
        filer_hex := filer |}.

(** [parse_resolution]. *)
Definition parse_resolution (event : Event) : Result ParsedResolution AskParseError :=
  let? ask := single_tag_value event "e" in
  let? _ := validate_hex64_field "e" ask in
  let? content := parse_content event in
  Ok {| resolution_ask_hex := ask;
        answer := default JNull (jget content "answer");
        default_executed := default false (jget content "default_executed" ≫= as_bool) |}.

(** [parse_withdrawal]. *)
Definition parse_withdrawal (event : Event) : Result ParsedWithdrawal AskParseError :=
  let? ask := single_tag_value event "e" in
  let? _ := validate_hex64_field "e" ask in
  let? content := parse_content event in
  let? why := required_content_field content "reason" in
  Ok {| withdrawal_ask_hex := ask; reason := why |}.

(** [parse_grant]. *)
Definition parse_grant (event : Event) : Result ParsedGrant AskParseError :=
  let? id := single_tag_value event "d" in
  let? content := parse_content event in
  let? cat := required_content_field content "category" in
  fail_if is_hard_list_category cat with GrantOnHardList cat;
  let? sc := required_content_field content "scope" in
  fail_if bool_decide (to_ascii_lowercase sc ∈ VAGUE_GRANT_SCOPES) with VagueGrantScope sc;
  let? act := required_content_bool_field content "active" in
  let? cap := parse_non_negative_amount content "cap_nano_usd" in
  Ok {| grant_id := id; grant_category := to_ascii_lowercase cat;
        scope := to_ascii_lowercase sc; cap_nano_usd := cap; active := act |}.

(** [parse_decision_log]. *)
Definition parse_decision_log (event : Event) : Result ParsedDecisionLog AskParseError :=
  let? id := single_tag_value event "grant" in
  let tasks := tag_values event "task" in
  fail_if bool_decide (tasks = []) with MissingTaskTag;
  let? content := parse_content event in
  let? what := required_content_field content "decision" in
  let? undo := required_content_field content "undo_path" in
  let? cat := required_content_field content "category" in
  fail_if is_hard_list_category cat with DecisionOnHardList cat;
  let? amount := parse_non_negative_amount content "amount_nano_usd" in
  Ok {| log_grant_id := id; log_task_ids := tasks; decision := what; undo_path := undo;
        log_category := to_ascii_lowercase cat; amount_nano_usd := amount |}.
End Parsers.

(** ** State heads *)

Inductive AskStateStatus := SOpen | SResolved | SWithdrawn | SPromoted.
#[export] Instance AskStateStatus_eq_dec : EqDecision AskStateStatus.
Proof. solve_decision. Defined.

(** [AskStateStatus::as_str], [parse]. *)
Definition ask_status_as_str (s : AskStateStatus) : string :=
  match s with
  | SOpen => "open" | SResolved => "resolved" | SWithdrawn => "withdrawn" | SPromoted => "promoted"
  end.
Definition ask_status_parse (s : string) : option AskStateStatus :=
  if String.eqb s "open" then Some SOpen
  else if String.eqb s "resolved" then Some SResolved
  else if String.eqb s "withdrawn" then Some SWithdrawn
  else if String.eqb s "promoted" then Some SPromoted
  else None.

Inductive AskExpiryAction := DefaultExecutes | Promotes | Rearms.
#[export] Instance AskExpiryAction_eq_dec : EqDecision AskExpiryAction.
Proof. solve_decision. Defined.

(** [AskExpiryAction::as_str], [parse]. *)
Definition expiry_as_str (a : AskExpiryAction) : string :=
  match a with
  | DefaultExecutes => "default_executes" | Promotes => "promotes" | Rearms => "rearms"
  end.
Definition expiry_parse (s : string) : option AskExpiryAction :=
  if String.eqb s "default_executes" then Some DefaultExecutes
  else if String.eqb s "promotes" then Some Promotes
  else if String.eqb s "rearms" then Some Rearms
  else None.

Inductive AskPromotionTarget := TargetExecutive | TargetOwner.
#[export] Instance AskPromotionTarget_eq_dec : EqDecision AskPromotionTarget.
Proof. solve_decision. Defined.

(** [AskPromotionTarget::as_str], [parse]. *)
Definition target_as_str (t : AskPromotionTarget) : string :=
  match t with TargetExecutive => "executive" | TargetOwner => "owner" end.
Definition target_parse (s : string) : option AskPromotionTarget :=
  if String.eqb s "executive" then Some TargetExecutive
  else if String.eqb s "owner" then Some TargetOwner
  else None.

Record ParsedAskState := {
  state_ask_event_id : string;
  state_status : AskStateStatus;
  state_deadline_at : option Z;
  state_on_expiry : option AskExpiryAction;
  state_default_option : option string;
  state_promotes_to : option AskPromotionTarget;
  state_rearmed_at : option Z;
  state_closed_at : option Z;
  state_default_executed : bool;
  state_successor : option string;
}.

(** A word of a pinned vocabulary; absent or empty is [None]. *)
Definition word_field {A} (parse : string -> option A) (content : Json) (field : string)
    : Result (option A) AskParseError :=
  match get_str content field with
  | None => Ok None
  | Some raw =>
      if str_is_empty raw then Ok None
      else let? v := ok_or (parse raw) (UnknownAskStateField field raw) in Ok (Some v)
  end.

(** The successor of a promoted head. *)
Definition successor_field (content : Json) : Result (option string) AskParseError :=
  match get_str content "successor_event_id" with
  | None => Ok None
  | Some raw =>
      if str_is_empty raw then Ok None
      else let? _ := validate_hex64_field "successor_event_id" raw in Ok (Some raw)
  end.

(** The cross-field rules of an open head. *)
Definition check_open_head (deadline : option Z) (on_expiry : option AskExpiryAction)
    (dflt : option string) (promotes : option AskPromotionTarget) : Result unit AskParseError :=
  fail_if negb (is_some deadline) with InvalidAskState "an open head must carry deadline_at";
  match on_expiry with
  | None => Err (InvalidAskState "an open head must name on_expiry")
  | Some DefaultExecutes =>
      fail_if negb (is_some dflt)
        with InvalidAskState "a default-execution head must name default_option";
      Ok tt
  | Some Promotes =>
      fail_if negb (is_some promotes) with InvalidAskState "a promotion head must name promotes_to";
      Ok tt
  | Some Rearms => Ok tt
  end.

(** [parse_ask_state]. *)
Definition parse_ask_state `{JsonLib} (event : Event) : Result ParsedAskState AskParseError :=
  let? id := single_tag_value event "d" in
  let? _ := validate_hex64_field "d" id in
  let? content := parse_content event in
  let? status_raw := ok_or (get_str content "status") (InvalidAskState "status is required") in
  let? status := ok_or (ask_status_parse status_raw) (UnknownAskStateField "status" status_raw) in
  let? deadline := ask_state_int_field content "deadline_at" in
  let? rearmed := ask_state_int_field content "rearmed_at" in
  let? closed := ask_state_int_field content "closed_at" in
  let? on_expiry := word_field expiry_parse content "on_expiry" in
  let dflt := get_str content "default_option" in
  let? promotes := word_field target_parse content "promotes_to" in
  let executed := default false (jget content "default_executed" ≫= as_bool) in
  let? successor := successor_field content in
  let? _ := (if bool_decide (status = SOpen)
             then check_open_head deadline on_expiry dflt promotes else Ok tt) in
  Ok {| state_ask_event_id := id; state_status := status; state_deadline_at := deadline;
        state_on_expiry := on_expiry; state_default_option := dflt;
        state_promotes_to := promotes; state_rearmed_at := rearmed; state_closed_at := closed;
        state_default_executed := executed; state_successor := successor |}.
