(* ===== verification/AskTable.v ===== *)
(** * The asks table

    [crates/buzz-db/src/asks.rs] over [migrations/0042_interrupt_asks.sql]: one
    row per ask event, moved only by conditional updates. Raw 32-byte ids and
    keys are their lower-case hex. [asks_open_need_uniq] admits one open row per
    community, initiative and need. The facts of the table and its invariant
    follow. *)

From Stdlib Require Import ZArith Lia Ascii.
From stdpp Require Import base list gmap strings numbers sorting.
From S2P Require Import Prelude MachineInt RustStr Json AskWire.
Local Open Scope Z_scope.

Record AskRow := {
  community_id : string;
  ask_event_id : string;
  row_type : AskType;
  row_initiative : string;
  row_need : string;
  audience_pubkey : string;
  filer_pubkey : string;
  origin_thread : option string;
  prior_ask : option string;
  row_category : option string;
  row_default : option string;
  deadline_at : option Z;
  ask_status : AskStateStatus;
  resolution_event : option string;
  resolved_by : option string;
  row_default_executed : bool;
  ask_created_at : Z;
  ask_updated_at : Z;
}.
#[export] Instance AskRow_eq_dec : EqDecision AskRow.
Proof. solve_decision. Defined.

Record NewAskRow := {
  new_ask_event_id : string;
  new_ask_type : AskType;
  new_initiative : string;
  new_need : string;
  new_audience : string;
  new_filer : string;
  new_origin : option string;
  new_prior : option string;
  new_category : option string;
  new_default : option string;
  new_deadline : option Z;
}.

(** Community and ask event id: the primary key. *)
Notation AskKey := (string * string)%type.
Notation Asks := (gmap (string * string) AskRow).

Inductive DbError := UniqueViolation | DatabaseDown.
#[export] Instance DbError_eq_dec : EqDecision DbError.
Proof. solve_decision. Defined.

Definition is_open (r : AskRow) : bool := bool_decide (ask_status r = SOpen).
(** The columns of the partial unique index. *)
Definition same_need (community initiative need : string) (r : AskRow) : bool :=
  String.eqb (community_id r) community && String.eqb (row_initiative r) initiative
  && String.eqb (row_need r) need.
Definition rows (t : Asks) : list AskRow := (map_to_list t).*2.

(** ** Queries *)

(** [find_open_ask_by_need]. *)
Definition find_open_ask_by_need (community initiative need : string) (t : Asks) : option AskRow :=
  head (List.filter (fun r => same_need community initiative need r && is_open r) (rows t)).

(** [find_open_ask_by_event_id]. *)
Definition find_open_ask_by_event_id (key : AskKey) (t : Asks) : option AskRow :=
  r ← t !! key; if is_open r then Some r else None.

(** [find_ask_by_event_id]. *)
Definition find_ask_by_event_id (key : AskKey) (t : Asks) : option AskRow := t !! key.

(** [ORDER BY a, ask_event_id]. *)
Definition order_leb (by_ : AskRow -> Z) (a b : AskRow) : bool :=
  kleb (by_ a, ask_event_id a) (by_ b, ask_event_id b).

(** [find_latest_closed_ask_by_need]. *)
Definition find_latest_closed_ask_by_need (community initiative need : string) (t : Asks)
    : option AskRow :=
  last (sort_by (order_leb ask_created_at)
    (List.filter (fun r => same_need community initiative need r
                  && bool_decide (ask_status r = SResolved \/ ask_status r = SWithdrawn)) (rows t))).

Definition due (now : Z) (r : AskRow) : bool :=
  is_open r && match deadline_at r with Some d => d <=? now | None => false end.

(** [query_due_asks]. *)
Definition query_due_asks (now : Z) (limit : nat) (t : Asks) : list AskRow :=
  take limit (sort_by (order_leb (fun r => default 0 (deadline_at r))) (List.filter (due now) (rows t))).

(** The [NOT EXISTS] of [query_orphaned_promoted_asks]. *)
Definition covers (a s : AskRow) : bool :=
  same_need (community_id a) (row_initiative a) (row_need a) s
  && negb (String.eqb (ask_event_id s) (ask_event_id a)) && (ask_updated_at a <=? ask_created_at s).

(** [query_orphaned_promoted_asks]. *)
Definition query_orphaned_promoted_asks (cutoff : Z) (limit : nat) (t : Asks) : list AskRow :=
  take limit (sort_by (order_leb ask_updated_at)
    (List.filter (fun a => bool_decide (ask_status a = SPromoted) && (ask_updated_at a <=? cutoff)
                           && negb (existsb (covers a) (rows t))) (rows t))).

(** [find_open_asks_by_thread]. *)
Definition find_open_asks_by_thread (community thread : string) (t : Asks) : list AskRow :=
  List.filter (fun r => String.eqb (community_id r) community
                        && bool_decide (origin_thread r = Some thread) && is_open r) (rows t).

(** [find_open_asks_by_category_and_audience]; [lower] on ASCII names. *)
Definition find_open_asks_by_category_and_audience (community category audience : string) (t : Asks)
    : list AskRow :=
  List.filter (fun r => String.eqb (community_id r) community
                 && match row_category r with
                    | Some c => eq_ignore_ascii_case c category
                    | None => false
                    end
                 && String.eqb (audience_pubkey r) audience && is_open r) (rows t).

(** ** Updates *)

(** [insert_ask]: the primary key and the partial index. *)
Definition insert_ask (now : Z) (community : string) (row : NewAskRow) (t : Asks)
    : Result Asks DbError :=
  let key := (community, new_ask_event_id row) in
  fail_if is_some (t !! key)
          || is_some (find_open_ask_by_need community (new_initiative row) (new_need row) t)
    with UniqueViolation;
  Ok (<[key := {|
    community_id := community; ask_event_id := new_ask_event_id row; row_type := new_ask_type row;
    row_initiative := new_initiative row; row_need := new_need row;
    audience_pubkey := new_audience row; filer_pubkey := new_filer row;
    origin_thread := new_origin row; prior_ask := new_prior row; row_category := new_category row;
    row_default := new_default row; deadline_at := new_deadline row; ask_status := SOpen;
    resolution_event := None; resolved_by := None; row_default_executed := false;
    ask_created_at := now; ask_updated_at := now |}]> t).

(** [UPDATE asks SET f WHERE key AND p]; whether a row moved. *)
Definition update_ask (p : AskRow -> bool) (f : AskRow -> AskRow) (key : AskKey) (t : Asks)
    : bool * Asks :=
  match t !! key with
  | Some r => if p r then (true, <[key := f r]> t) else (false, t)
  | None => (false, t)
  end.

(** The columns a closing statement sets. *)
Definition closed_row (s : AskStateStatus) (event by_ : option string) (executed : bool) (now : Z)
    (r : AskRow) : AskRow := {|
  community_id := community_id r; ask_event_id := ask_event_id r; row_type := row_type r;
  row_initiative := row_initiative r; row_need := row_need r;
  audience_pubkey := audience_pubkey r; filer_pubkey := filer_pubkey r;
  origin_thread := origin_thread r; prior_ask := prior_ask r; row_category := row_category r;
  row_default := row_default r; deadline_at := deadline_at r; ask_status := s;
  resolution_event := event; resolved_by := by_; row_default_executed := executed;
  ask_created_at := ask_created_at r; ask_updated_at := now |}.

Definition with_deadline (deadline now : Z) (r : AskRow) : AskRow := {|
  community_id := community_id r; ask_event_id := ask_event_id r; row_type := row_type r;
  row_initiative := row_initiative r; row_need := row_need r;
  audience_pubkey := audience_pubkey r; filer_pubkey := filer_pubkey r;
  origin_thread := origin_thread r; prior_ask := prior_ask r; row_category := row_category r;
  row_default := row_default r; deadline_at := Some deadline; ask_status := ask_status r;
  resolution_event := resolution_event r; resolved_by := resolved_by r;
  row_default_executed := row_default_executed r; ask_created_at := ask_created_at r;
  ask_updated_at := now |}.

(** [resolve_ask]. *)
Definition resolve_ask (now : Z) (key : AskKey) (event by_ : string) (executed : bool) (t : Asks)
    : bool * Asks :=
  update_ask is_open (closed_row SResolved (Some event) (Some by_) executed now) key t.

(** [withdraw_ask]. *)
Definition withdraw_ask (now : Z) (key : AskKey) (event : string) (t : Asks) : bool * Asks :=
  update_ask is_open
    (fun r => closed_row SWithdrawn (Some event) (resolved_by r) (row_default_executed r) now r) key t.

(** [mark_ask_promoted]. *)
Definition mark_ask_promoted (now : Z) (key : AskKey) (successor : string) (t : Asks) : bool * Asks :=
  update_ask is_open
    (fun r => closed_row SPromoted (Some successor) (resolved_by r) (row_default_executed r) now r)
    key t.

(** [reopen_promoted_ask]: the partial index still applies. *)
Definition reopen_promoted_ask (now : Z) (key : AskKey) (expected : string) (t : Asks)
    : Result (bool * Asks) DbError :=
  match t !! key with
  | Some r =>
      if bool_decide (ask_status r = SPromoted) && bool_decide (resolution_event r = Some expected)
      then
        fail_if is_some (find_open_ask_by_need (community_id r) (row_initiative r) (row_need r) t)
          with UniqueViolation;
        Ok (true, <[key := closed_row SOpen None (resolved_by r) (row_default_executed r) now r]> t)
      else Ok (false, t)
  | None => Ok (false, t)
  end.

(** [extend_ask_deadline]. *)
Definition extend_ask_deadline (now : Z) (key : AskKey) (deadline : Z) (t : Asks) : bool * Asks :=
  update_ask is_open (with_deadline deadline now) key t.

(** ** What other relay processes do to the table

    One statement of another process, its answer ignored. *)
Inductive Stmt :=
| SInsert (now : Z) (community : string) (row : NewAskRow)
| SResolve (now : Z) (key : AskKey) (event by_ : string) (executed : bool)
| SWithdraw (now : Z) (key : AskKey) (event : string)
| SPromote (now : Z) (key : AskKey) (successor : string)
| SReopen (now : Z) (key : AskKey) (expected : string)
| SExtend (now : Z) (key : AskKey) (deadline : Z).

Definition run_stmt (s : Stmt) (t : Asks) : Asks :=
  match s with
  | SInsert now community row => default t (ok (insert_ask now community row t))
  | SResolve now key event by_ executed => snd (resolve_ask now key event by_ executed t)
  | SWithdraw now key event => snd (withdraw_ask now key event t)
  | SPromote now key successor => snd (mark_ask_promoted now key successor t)
  | SReopen now key expected => default t (snd <$> ok (reopen_promoted_ask now key expected t))
  | SExtend now key deadline => snd (extend_ask_deadline now key deadline t)
  end.

Definition run_stmts (l : list Stmt) (t : Asks) : Asks := foldl (fun t s => run_stmt s t) t l.

(** ** Facts of the asks table

    What no statement, of this process or another, can break: one open ask per
    need, a default only where the policy allows one, and endings that stay. *)

Local Open Scope Z_scope.

(** ** The invariant *)

(** A default needs a category a human need not decide, and no stall. *)
Definition may_default (type : AskType) (category dflt : option string) : Prop :=
  forall option, dflt = Some option ->
  type <> Stall /\ forall c, category = Some c -> is_hard_list_category c = false.

Definition row_policy (r : AskRow) : Prop := may_default (row_type r) (row_category r) (row_default r).
Definition new_policy (n : NewAskRow) : Prop := may_default (new_ask_type n) (new_category n) (new_default n).

Definition need_of (r : AskRow) : string * string * string :=
  (community_id r, row_initiative r, row_need r).

Record wf_asks (t : Asks) : Prop := {
  wf_key : forall k r, t !! k = Some r -> k = (community_id r, ask_event_id r);
  wf_need : forall k1 k2 r1 r2, t !! k1 = Some r1 -> t !! k2 = Some r2 ->
    is_open r1 = true -> is_open r2 = true -> need_of r1 = need_of r2 -> k1 = k2;
  wf_policy : forall k r, t !! k = Some r -> row_policy r;
}.

(** What an ask is about never changes. *)
Definition about (r : AskRow) :=
  (need_of r, ask_event_id r, row_type r, audience_pubkey r, filer_pubkey r,
   (origin_thread r, prior_ask r, row_category r, row_default r, ask_created_at r)).

Definition is_final (r : AskRow) : Prop := ask_status r = SResolved \/ ask_status r = SWithdrawn.

(** A row later on: about the same, and untouched once final. *)
Definition evolves (r r' : AskRow) : Prop := about r' = about r /\ (is_final r -> r' = r).

(** The table later on: no row is lost. *)
Definition grows (t t' : Asks) : Prop :=
  forall k r, t !! k = Some r -> exists r', t' !! k = Some r' /\ evolves r r'.

#[export] Instance evolves_preorder : PreOrder evolves.
Proof.
  split; [by split|]. intros r1 r2 r3 [Ha Hf] [Hb Hg]. split; [by rewrite Hb|].
  intros H. pose proof (Hf H) as ->. by apply Hg.
Qed.
#[export] Instance grows_preorder : PreOrder grows.
Proof.
  split; [intros t k r Hr; exists r; split; [done|reflexivity]|]. intros t1 t2 t3 H1 H2 k r Hr.
  destruct (H1 _ _ Hr) as (r2 & Hr2 & E). destruct (H2 _ _ Hr2) as (r3 & Hr3 & E').
  exists r3. split; [done|]. by etrans.
Qed.

(** ** Queries *)

Lemma elem_of_rows (t : Asks) r : r ∈ rows t <-> exists k, t !! k = Some r.
Proof.
  unfold rows. rewrite list_elem_of_fmap. split.
  - intros ([k r'] & -> & Hr). exists k. by apply elem_of_map_to_list.
  - intros (k & Hk). exists (k, r). split; [done|]. by apply elem_of_map_to_list.
Qed.

Lemma same_need_spec c i n r : same_need c i n r = true <-> need_of r = (c, i, n).
Proof.
  unfold same_need, need_of. rewrite !andb_true_iff, !String.eqb_eq. split; [intros [[-> ->] ->]; done|].
  by intros [= -> -> ->].
Qed.

Lemma head_filter_none {A} (p : A -> bool) (l : list A) :
  head (List.filter p l) = None <-> forall x, x ∈ l -> p x = false.
Proof.
  split.
  - intros H x Hx. destruct (List.filter p l) eqn:E; [|done].
    destruct (p x) eqn:Hp; [|done]. assert (x ∈ List.filter p l) as Hin by (by apply elem_of_filterb).
    rewrite E in Hin. by apply not_elem_of_nil in Hin.
  - intros H. by rewrite filterb_nil.
Qed.

Lemma head_elem {A} (l : list A) x : head l = Some x -> x ∈ l.
Proof. destruct l; [done|]. intros [= ->]. apply list_elem_of_here. Qed.

Lemma find_open_some c i n t r :
  find_open_ask_by_need c i n t = Some r ->
  need_of r = (c, i, n) /\ is_open r = true /\ exists k, t !! k = Some r.
Proof.
  intros H. apply head_elem, elem_of_filterb in H as [H [Hn Ho]%andb_true_iff].
  rewrite same_need_spec in Hn. rewrite elem_of_rows in H. auto.
Qed.

Lemma find_open_none c i n t :
  find_open_ask_by_need c i n t = None <->
  forall k r, t !! k = Some r -> need_of r = (c, i, n) -> is_open r = false.
Proof.
  unfold find_open_ask_by_need. rewrite head_filter_none. split.
  - intros H k r Hr Hn. assert (r ∈ rows t) as Hin by (rewrite elem_of_rows; eauto).
    specialize (H _ Hin). apply andb_false_iff in H as [H|H]; [|done].
    assert (same_need c i n r = true) by (by apply same_need_spec). congruence.
  - intros H r Hr. rewrite elem_of_rows in Hr. destruct Hr as (k & Hr).
    destruct (same_need c i n r) eqn:E; [|done]. rewrite same_need_spec in E. by rewrite (H _ _ Hr).
Qed.

(** Where one open row is, no other is. *)
Lemma find_open_unique t k r :
  wf_asks t -> t !! k = Some r -> is_open r = true ->
  find_open_ask_by_need (community_id r) (row_initiative r) (row_need r) t = Some r.
Proof.
  intros Hw Hr Ho. destruct (find_open_ask_by_need _ _ _ t) as [r'|] eqn:E.
  - apply find_open_some in E as (Hn & Ho' & k' & Hr').
    pose proof (wf_need t Hw _ _ _ _ Hr' Hr Ho' Ho Hn) as ->. congruence.
  - rewrite find_open_none in E. specialize (E _ _ Hr eq_refl). congruence.
Qed.

(** ** Updates *)

(** A row replaced by one about the same that does not newly open. *)
Lemma wf_replace t k r r' :
  wf_asks t -> t !! k = Some r -> about r' = about r -> (is_open r' = true -> is_open r = true) ->
  wf_asks (<[k := r']> t).
Proof.
  intros Hw Hr Ha Ho. pose proof Ha as Ha0. unfold about in Ha0. injection Ha0 as Hcm Hin Hne Hi Ht _ _ _ _ Hc Hd _.
  split.
  - intros k1 r1 [[<- <-]|[_ H1]]%lookup_insert_Some; [|by apply (wf_key t Hw)].
    rewrite Hcm, Hi. by apply (wf_key t Hw).
  - intros k1 k2 r1 r2 H1 H2 Ho1 Ho2 Hneed.
    assert (forall k0 r0, <[k := r']> t !! k0 = Some r0 -> is_open r0 = true ->
      exists r00, t !! k0 = Some r00 /\ is_open r00 = true /\ need_of r00 = need_of r0) as Hb.
    { intros k0 r0 [[<- <-]|[_ H0]]%lookup_insert_Some Ho0; [|eauto].
      exists r. split_and!; [done|by apply Ho|]. unfold need_of. congruence. }
    destruct (Hb _ _ H1 Ho1) as (a & Ha1 & Ha2 & Ha3), (Hb _ _ H2 Ho2) as (b & Hb1 & Hb2 & Hb3).
    apply (wf_need t Hw _ _ _ _ Ha1 Hb1 Ha2 Hb2). congruence.
  - intros k1 r1 [[_ <-]|[_ H1]]%lookup_insert_Some; [|by apply (wf_policy t Hw k1)].
    unfold row_policy. rewrite Ht, Hc, Hd. by apply (wf_policy t Hw k).
Qed.

Lemma grows_replace (t : Asks) k r r' :
  t !! k = Some r -> about r' = about r -> ~ is_final r -> grows t (<[k := r']> t).
Proof.
  intros Hr Ha Hf k1 r1 H1. destruct (decide (k1 = k)) as [->|Hk].
  - rewrite lookup_insert_eq. exists r'. split; [done|]. replace r1 with r by congruence.
    split; [done|]. by intros ?.
  - rewrite lookup_insert_ne by done. exists r1. split; [done|]. reflexivity.
Qed.

Lemma open_not_final r : is_open r = true -> ~ is_final r.
Proof. unfold is_open, is_final. intros H%bool_decide_eq_true. rewrite H. by intros [|]. Qed.

Lemma update_ask_ok f k t :
  (forall r, about (f r) = about r) -> wf_asks t ->
  wf_asks (snd (update_ask is_open f k t)) /\ grows t (snd (update_ask is_open f k t)).
Proof.
  intros Hf Hw. unfold update_ask. destruct (t !! k) as [r|] eqn:Hr; [|by split].
  destruct (is_open r) eqn:Ho; cbn; [|by split].
  split; [by apply (wf_replace t k r (f r))|].
  apply (grows_replace t k r (f r)); [done|done|by apply open_not_final].
Qed.

Lemma about_closed s e b x now r : about (closed_row s e b x now r) = about r.
Proof. done. Qed.
Lemma about_deadline d now r : about (with_deadline d now r) = about r.
Proof. done. Qed.

Lemma insert_ask_ok now c n t t' :
  new_policy n -> wf_asks t -> insert_ask now c n t = Ok t' -> wf_asks t' /\ grows t t'.
Proof.
  intros Hp Hw H. unfold insert_ask in H.
  destruct (is_some (t !! _) || _) eqn:E; [done|]. apply orb_false_iff in E as [E1 E2].
  injection H as <-. destruct (t !! (c, new_ask_event_id n)) eqn:Hfree; [done|].
  destruct (find_open_ask_by_need _ _ _ t) eqn:Hopen; [done|]. rewrite find_open_none in Hopen. split.
  - split.
    + intros k r [[<- <-]|[_ Hr]]%lookup_insert_Some; [done|]. by apply (wf_key t Hw).
    + intros k1 k2 r1 r2 H1 H2 Ho1 Ho2 Hneed.
      apply lookup_insert_Some in H1 as [[<- <-]|[Hk1 H1]], H2 as [[<- <-]|[Hk2 H2]]; [done| | |].
      * rewrite (Hopen _ _ H2) in Ho2; [done|]. by rewrite <- Hneed.
      * rewrite (Hopen _ _ H1) in Ho1; [done|]. by rewrite Hneed.
      * by apply (wf_need t Hw _ _ _ _ H1 H2).
    + intros k r [[_ <-]|[_ Hr]]%lookup_insert_Some; [done|]. by apply (wf_policy t Hw k).
  - intros k r Hr. assert (k <> (c, new_ask_event_id n)) by congruence.
    rewrite lookup_insert_ne by done. exists r. split; [done|reflexivity].
Qed.

Lemma reopen_ok now k e t b t' :
  wf_asks t -> reopen_promoted_ask now k e t = Ok (b, t') -> wf_asks t' /\ grows t t'.
Proof.
  intros Hw H. unfold reopen_promoted_ask in H. destruct (t !! k) as [r|] eqn:Hr; [|by simplify_eq].
  destruct (_ && _) eqn:Hp; [|by simplify_eq].
  destruct (find_open_ask_by_need _ _ _ t) eqn:Hopen; [done|]. injection H as <- <-.
  apply andb_true_iff in Hp as [Hs%bool_decide_eq_true _]. rewrite find_open_none in Hopen. split.
  - split.
    + intros k1 r1 [[<- <-]|[_ H1]]%lookup_insert_Some; [exact (wf_key t Hw _ _ Hr)|by apply (wf_key t Hw)].
    + intros k1 k2 r1 r2 H1 H2 Ho1 Ho2 Hneed.
      apply lookup_insert_Some in H1 as [[<- <-]|[Hk1 H1]], H2 as [[<- <-]|[Hk2 H2]]; [done| | |].
      * rewrite (Hopen _ _ H2) in Ho2; [done|]. by rewrite <- Hneed.
      * rewrite (Hopen _ _ H1) in Ho1; [done|]. by rewrite Hneed.
      * by apply (wf_need t Hw _ _ _ _ H1 H2).
    + intros k1 r1 [[_ <-]|[_ H1]]%lookup_insert_Some; [|by apply (wf_policy t Hw k1)].
      exact (wf_policy t Hw _ _ Hr).
  - eapply grows_replace; [done|done|]. unfold is_final. rewrite Hs. by intros [|].
Qed.

(** ** Every statement *)

Definition stmt_ok (s : Stmt) : Prop :=
  match s with SInsert _ _ row => new_policy row | _ => True end.

Lemma run_stmt_ok s t : stmt_ok s -> wf_asks t -> wf_asks (run_stmt s t) /\ grows t (run_stmt s t).
Proof.
  intros Hs Hw. destruct s; cbn in *.
  - destruct (insert_ask _ _ _ t) as [t'|] eqn:E; cbn; [|by split]. by eapply insert_ask_ok.
  - by apply update_ask_ok.
  - by apply update_ask_ok.
  - by apply update_ask_ok.
  - destruct (reopen_promoted_ask _ _ _ t) as [[b t']|] eqn:E; cbn; [|by split]. by eapply reopen_ok.
  - by apply update_ask_ok.
Qed.

Lemma run_stmts_ok l t :
  Forall stmt_ok l -> wf_asks t -> wf_asks (run_stmts l t) /\ grows t (run_stmts l t).
Proof.
  revert t. induction l as [|s l IH]; intros t Hl Hw; cbn; [by split|].
  apply Forall_cons in Hl as [Hs Hl]. destruct (run_stmt_ok s t Hs Hw) as [Hw1 Hg1].
  destruct (IH _ Hl Hw1) as [Hw2 Hg2]. split; [done|]. by etrans.
Qed.

(** A conditional update that moved found an open row and closed it. *)
Lemma update_moved f k t t' :
  update_ask is_open f k t = (true, t') ->
  exists r, t !! k = Some r /\ is_open r = true /\ t' = <[k := f r]> t.
Proof.
  unfold update_ask. destruct (t !! k) as [r|]; [|done]. destruct (is_open r) eqn:Ho; [|done].
  intros [= <-]. eauto.
Qed.

Lemma wf_empty : wf_asks ∅.
Proof. by split; intros ?*; rewrite lookup_empty. Qed.

#[export] Hint Resolve run_stmts_ok wf_empty : colony.
