(* ===== verification/AskWorld.v ===== *)
(** * What the interrupt handlers run in

    The relay's tables as the handlers of [ask_broker.rs], [interrupt_gate.rs],
    [interrupt_runtime.rs] and [ask_state_head.rs] read and write them, and the
    small state and error monad those handlers are written in. Before every
    database call other processes may run statements, and the call itself may
    fail ([Weather]); nothing else interrupts a handler. One handler reads one
    clock and one directory. The ways of reasoning about handlers follow. *)

From Stdlib Require Import ZArith Lia Ascii.
From stdpp Require Import base list gmap strings numbers sorting.
From S2P Require Import Prelude MachineInt RustStr Json Event AskWire AskTable.
Local Open Scope Z_scope.

(** ** The directory: members, employees, heads, channels *)

Record Employee := {
  emp_pubkey : string;
  role_id : string;
  rank : string;
  manager : option string;
  employed : bool;
  provisioned_handle : option string;
}.

(** An event of a replaceable kind in the events table, by its [d_tag] column. *)
Record HeadRow := { row_community : string; row_kind : Z; row_d : string; row_event : Event }.

(** What is read: [head_rows] newest first, [employees] oldest first. *)
Record Directory := {
  relay_members : gmap (string * string) string;
  employees : list (string * Employee);
  head_rows : list HeadRow;
  channel_members : list (string * string * string);
  open_channels : list (string * string);
  thread_replies : gmap (string * string) (list (string * Json));
  hosts : gmap string string;
  last_message_at : gmap (string * string) Z;
  last_authored_at : gmap (string * string) Z;
}.

(** Other processes' statements before a call, and whether the call fails. *)
Record Weather := { others : list Stmt; down : bool }.

Record World := {
  asks : Asks;
  events : gmap (string * string) StoredEvent;
  ask_heads : gmap (string * string) Event;
  dir : Directory;
  weather : list Weather;
  clock : Z;
}.

Definition set_asks (t : Asks) (w : World) : World := {|
  asks := t; events := events w; ask_heads := ask_heads w; dir := dir w; weather := weather w;
  clock := clock w |}.
Definition set_events (m : gmap (string * string) StoredEvent) (w : World) : World := {|
  asks := asks w; events := m; ask_heads := ask_heads w; dir := dir w; weather := weather w;
  clock := clock w |}.
Definition set_ask_heads (m : gmap (string * string) Event) (w : World) : World := {|
  asks := asks w; events := events w; ask_heads := m; dir := dir w; weather := weather w;
  clock := clock w |}.
Definition set_weather (l : list Weather) (w : World) : World := {|
  asks := asks w; events := events w; ask_heads := ask_heads w; dir := dir w; weather := l;
  clock := clock w |}.

(** ** Errors *)

(** The [Err(String)] of the handlers, by what they say. *)
Inductive AskError :=
| Db (e : DbError)
| Internal (what : string)
| NoRelayKey
| SigningFailed
| NoBackingEvent
| DirectContactDenied (kind : Z) (tier : AgentTier)
| OwnerContactDenied (tier : AgentTier)
| GrantNotByOwner
| LogNotByLeader
| GrantNotActive (grant : string)
| LogCategoryMismatch (claimed granted : string)
| LogAmountMissing (grant : string)
| LogAmountOverCap (amount cap : Z)
| NoUniqueExecutive
| StoredAskInvalid (e : AskParseError)
| PromotionRefused
| StallRefused.

(** ** The monad *)

Definition M (A : Type) : Type := World -> Result A AskError * World.

Definition ret {A} (a : A) : M A := fun w => (Ok a, w).
Definition throw {A} (e : AskError) : M A := fun w => (Err e, w).
Definition bind {A B} (m : M A) (k : A -> M B) : M B := fun w =>
  match m w with
  | (Ok a, w') => k a w'
  | (Err e, w') => (Err e, w')
  end.
(** A failure that the code logs and swallows, or matches on. *)
Definition attempt {A} (m : M A) : M (Result A AskError) := fun w => let '(r, w') := m w in (Ok r, w').

Notation "'let!' x ':=' e 'in' k" := (bind e (fun x => k))
  (at level 10, x pattern, e at level 100, k at level 200) : colony_scope.
Notation "e ;; k" := (bind e (fun _ => k)) (at level 100, right associativity) : colony_scope.

Definition lift {A} (r : Result A AskError) : M A :=
  match r with Ok a => ret a | Err e => throw e end.

(** [for x in l { f(x)? }] collecting nothing. *)
Fixpoint for_each {A} (f : A -> M unit) (l : list A) : M unit :=
  match l with
  | [] => ret tt
  | a :: l' => f a ;; for_each f l'
  end.

(** One database call: the weather, then the call. *)
Definition db {A} (call : World -> Result A DbError * World) : M A := fun w =>
  match weather w with
  | [] => let '(r, w') := call w in (map_err Db r, w')
  | here :: later =>
      let w := set_weather later (set_asks (run_stmts (others here) (asks w)) w) in
      if down here then (Err (Db DatabaseDown), w)
      else let '(r, w') := call w in (map_err Db r, w')
  end.

(** A query. *)
Definition query {A} (f : World -> A) : M A := db (fun w => (Ok (f w), w)).
(** An [UPDATE] of the asks table. *)
Definition update (f : Z -> Asks -> bool * Asks) : M bool :=
  db (fun w => let '(moved, t) := f (clock w) (asks w) in (Ok moved, set_asks t w)).
(** [Utc::now] and [SystemTime::now]. *)
Definition read_clock : M Z := fun w => (Ok (clock w), w).

(** ** Calls of the database layer *)

(** [get_relay_member] and the test of its role. *)
Definition is_owner (community pubkey : string) : M bool :=
  query (fun w => bool_decide (relay_members (dir w) !! (community, pubkey) = Some "owner"%string)).

(** [list_relay_owners]. *)
Definition list_relay_owners (community : string) (limit : nat) : M (list string) :=
  query (fun w => take limit (filter_map
    (fun m => if String.eqb (fst (fst m)) community && String.eqb (snd m) "owner"
              then Some (snd (fst m)) else None) (map_to_list (relay_members (dir w))))).

Definition employees_of (community : string) (d : Directory) : list Employee :=
  filter_map (fun e => if String.eqb (fst e) community then Some (snd e) else None) (employees d).

(** [find_employee]. *)
Definition find_employee (community pubkey : string) : M (option Employee) :=
  query (fun w => head (List.filter (fun e => String.eqb (emp_pubkey e) pubkey)
                          (employees_of community (dir w)))).

(** [find_active_employee_by_role]. *)
Definition find_active_employee_by_role (community role : string) : M (option Employee) :=
  query (fun w => head (List.filter (fun e => String.eqb (role_id e) role && employed e)
                          (employees_of community (dir w)))).

(** [list_active_employees]. *)
Definition list_active_employees (community : string) : M (list Employee) :=
  query (fun w => List.filter employed (employees_of community (dir w))).

Definition of_kind (community : string) (kind : Z) (r : HeadRow) : bool :=
  String.eqb (row_community r) community && (row_kind r =? kind).

(** [query_events] by kind and [d_tag], newest first. *)
Definition query_heads (community : string) (kind : Z) (d : string) (limit : nat) : M (list Event) :=
  query (fun w => take limit (row_event <$>
    List.filter (fun r => of_kind community kind r && String.eqb (row_d r) d) (head_rows (dir w)))).

(** The first row of each [d_tag]: [DISTINCT ON] of rows newest first. *)
Fixpoint distinct_on_d (seen : list string) (l : list HeadRow) : list HeadRow :=
  match l with
  | [] => []
  | r :: l' =>
      if bool_decide (row_d r ∈ seen) then distinct_on_d seen l'
      else r :: distinct_on_d (row_d r :: seen) l'
  end.

(** [query_latest_owner_authored_heads]. *)
Definition latest_owner_heads (community : string) (kind : Z) (d : Directory) : list HeadRow :=
  sort_by (fun a b => kleb (row_d a) (row_d b)) (distinct_on_d []
    (List.filter (fun r => of_kind community kind r
       && bool_decide (relay_members d !! (community, ev_pubkey (row_event r)) = Some "owner"%string))
       (head_rows d))).
Definition query_latest_owner_authored_heads (community : string) (kind : Z) (limit : nat)
    : M (list Event) :=
  query (fun w => row_event <$> take limit (latest_owner_heads community kind (dir w))).

(** [get_event_by_id]. *)
Definition get_event_by_id (community id : string) : M (option StoredEvent) :=
  query (fun w => events w !! (community, id)).

(** [insert_event]: an event already there stays. *)
Definition insert_event (community : string) (event : Event) (channel : option string) : M unit :=
  db (fun w =>
    let key := (community, ev_id event) in
    (Ok tt, match events w !! key with
            | Some _ => w
            | None => set_events (<[key := {| stored_event := event; stored_channel := channel;
                                              verified := true |}]> (events w)) w
            end)).

(** [check_channel_membership]: a member, or the channel is open. *)
Definition check_channel_membership (community channel pubkey : string) : M bool :=
  let! member := query (fun w => bool_decide ((community, channel, pubkey) ∈ channel_members (dir w))) in
  if member then ret true
  else
    let! visible := attempt (query (fun w => bool_decide ((community, channel) ∈ open_channels (dir w)))) in
    ret (match visible with Ok open => open | Err _ => false end).

(** ** Reasoning about the interrupt handlers

    Every step of a handler keeps the asks table well formed and loses no row,
    whatever the weather ([safe]). A part that only reads does in any weather
    what it does in calm weather, or fails ([reader]): it is a function of the
    directory and the events. *)

Local Open Scope Z_scope.

(** ** Safe steps *)

Definition weather_ok (l : list Weather) : Prop := Forall (fun x => Forall stmt_ok (others x)) l.

Record Inv (w : World) : Prop := {
  inv_asks : wf_asks (asks w);
  inv_weather : weather_ok (weather w);
}.

(** A world later on. *)
Record later (w w' : World) : Prop := {
  later_asks : grows (asks w) (asks w');
  later_dir : dir w' = dir w;
  later_clock : clock w' = clock w;
}.
#[export] Instance later_preorder : PreOrder later.
Proof.
  split; [by split|]. intros w1 w2 w3 [] []. split; [by etrans| |]; congruence.
Qed.

Definition safe {A} (m : M A) : Prop := forall w, Inv w -> Inv (snd (m w)) /\ later w (snd (m w)).

Lemma safe_ret {A} (a : A) : safe (ret a).
Proof. by intros w Hw. Qed.
Lemma safe_throw {A} e : safe (throw (A := A) e).
Proof. by intros w Hw. Qed.
Lemma safe_lift {A} (r : Result A AskError) : safe (lift r).
Proof. destruct r; by intros w Hw. Qed.
Lemma safe_clock : safe read_clock.
Proof. by intros w Hw. Qed.

Lemma safe_bind {A B} (m : M A) (k : A -> M B) :
  safe m -> (forall a, safe (k a)) -> safe (bind m k).
Proof.
  intros Hm Hk w Hw. destruct (Hm w Hw) as [Hi Hl]. unfold bind.
  destruct (m w) as [[a|e] w1] eqn:E; cbn in *; [|done].
  destruct (Hk a w1 Hi) as [Hi' Hl']. split; [done|]. by etrans.
Qed.

Lemma safe_attempt {A} (m : M A) : safe m -> safe (attempt m).
Proof. intros Hm w Hw. unfold attempt. specialize (Hm w Hw). by destruct (m w). Qed.

Lemma safe_for_each {A} (f : A -> M unit) l : (forall a, safe (f a)) -> safe (for_each f l).
Proof.
  intros Hf. induction l as [|a l IH]; cbn; [apply safe_ret|]. by apply safe_bind.
Qed.

Lemma safe_db {A} (call : World -> Result A DbError * World) :
  (forall w, Inv w -> Inv (snd (call w)) /\ later w (snd (call w))) -> safe (db call).
Proof.
  intros Hc w [Ha Hw]. unfold db. destruct (weather w) as [|here rest] eqn:E.
  - assert (Inv w) as Hi by (split; [done|by rewrite E]).
    specialize (Hc w Hi). by destruct (call w).
  - apply Forall_cons in Hw as [Hh Hr]. destruct (run_stmts_ok _ _ Hh Ha) as [Ha' Hg].
    set (w1 := set_weather rest (set_asks (run_stmts (others here) (asks w)) w)).
    assert (Inv w1) as Hi by (split; [exact Ha'|exact Hr]).
    assert (later w w1) as Hl by (split; [exact Hg|done|done]).
    destruct (down here); [by split|]. destruct (Hc w1 Hi) as [Hi' Hl'].
    destruct (call w1) as [r w2]. cbn in *. split; [done|]. by etrans.
Qed.

Lemma safe_query {A} (f : World -> A) : safe (query f).
Proof. apply safe_db. intros w Hw. by split. Qed.

Lemma safe_update f :
  (forall now t, wf_asks t -> wf_asks (snd (f now t)) /\ grows t (snd (f now t))) -> safe (update f).
Proof.
  intros Hf. apply safe_db. intros w [Ha Hw]. destruct (Hf (clock w) (asks w) Ha) as [H1 H2].
  destruct (f (clock w) (asks w)) as [b t]. cbn in *. split; [by split|]. by split.
Qed.

Lemma safe_closing s e b x now key :
  forall t, wf_asks t ->
  wf_asks (snd (update_ask is_open (closed_row s e b x now) key t))
  /\ grows t (snd (update_ask is_open (closed_row s e b x now) key t)).
Proof. intros t. by apply update_ask_ok. Qed.

Lemma safe_resolve key e b x : safe (update (fun now => resolve_ask now key e b x)).
Proof. apply safe_update. intros now t. by apply update_ask_ok. Qed.
Lemma safe_withdraw key e : safe (update (fun now => withdraw_ask now key e)).
Proof. apply safe_update. intros now t. by apply update_ask_ok. Qed.
Lemma safe_promote key e : safe (update (fun now => mark_ask_promoted now key e)).
Proof. apply safe_update. intros now t. by apply update_ask_ok. Qed.
Lemma safe_extend key d : safe (update (fun now => extend_ask_deadline now key d)).
Proof. apply safe_update. intros now t. by apply update_ask_ok. Qed.

Lemma safe_insert_event c e ch : safe (insert_event c e ch).
Proof.
  apply safe_db. intros w Hw. cbn. destruct (events w !! _); [by split|].
  destruct Hw. split; [by split|]. by split.
Qed.

#[export] Hint Resolve safe_ret safe_throw safe_lift safe_clock safe_query safe_resolve safe_withdraw
  safe_promote safe_extend safe_insert_event : safe.

(** Takes a handler apart, binds first, then its cases. *)
Ltac safe_step :=
  match goal with
  | |- safe (bind _ _) => apply safe_bind; [|intros ?]
  | |- safe (attempt _) => apply safe_attempt
  | |- safe (for_each _ _) => apply safe_for_each; intros ?
  | |- safe (if ?c then _ else _) => destruct c
  | |- safe (match ?e with _ => _ end) => destruct e
  | |- forall _, _ => intros ?
  | |- safe _ => solve [eauto with safe]
  end.
Ltac safe_auto := repeat safe_step.

(** ** Readers *)

Definition Snap : Type := Directory * gmap (string * string) StoredEvent.
Definition snap (w : World) : Snap := (dir w, events w).

Record reader {A} (m : M A) (f : Snap -> Result A AskError) : Prop := {
  rd_calm : forall w, weather w = [] -> m w = (f (snap w), w);
  rd_ok : forall w a w', m w = (Ok a, w') -> f (snap w) = Ok a;
  rd_snap : forall w, snap (snd (m w)) = snap w;
  rd_safe : safe m;
}.

Lemma reader_ret {A} (a : A) : reader (ret a) (fun _ => Ok a).
Proof. split; [done| |done|apply safe_ret]. by intros w b w' [= -> _]. Qed.
Lemma reader_throw {A} e : reader (throw (A := A) e) (fun _ => Err e).
Proof. split; [done|done|done|apply safe_throw]. Qed.
Lemma reader_lift {A} (r : Result A AskError) : reader (lift r) (fun _ => r).
Proof. destruct r; [apply reader_ret|apply reader_throw]. Qed.

Lemma reader_query {A} (f : World -> A) (g : Snap -> A) :
  (forall w, f w = g (snap w)) -> reader (query f) (fun s => Ok (g s)).
Proof.
  intros Hf. split.
  - intros w Hw. unfold query, db. rewrite Hw. cbn. by rewrite Hf.
  - intros w a w'. unfold query, db. destruct (weather w) as [|here rest].
    + intros [= <- _]. by rewrite Hf.
    + destruct (down here); [done|]. intros [= <- _]. by rewrite Hf.
  - intros w. unfold query, db. destruct (weather w) as [|here rest]; [done|].
    by destruct (down here).
  - apply safe_query.
Qed.

Lemma reader_bind {A B} (m : M A) (k : A -> M B) f g :
  reader m f -> (forall a, reader (k a) (g a)) ->
  reader (bind m k) (fun s => rbind (f s) (fun a => g a s)).
Proof.
  intros Hm Hk. split.
  - intros w Hw. unfold bind. rewrite (rd_calm _ _ Hm w Hw). destruct (f (snap w)); [|done].
    cbn. by apply (rd_calm _ _ (Hk a)).
  - intros w b w'. unfold bind. destruct (m w) as [[a|e] w1] eqn:E; [|done]. intros H.
    rewrite (rd_ok _ _ Hm _ _ _ E). cbn. pose proof (rd_snap _ _ Hm w) as Hs. rewrite E in Hs. cbn in Hs.
    rewrite <- Hs. by apply (rd_ok _ _ (Hk a)) in H.
  - intros w. unfold bind. pose proof (rd_snap _ _ Hm w) as Hs. destruct (m w) as [[a|e] w1]; [|done].
    cbn in Hs. by rewrite (rd_snap _ _ (Hk a)).
  - apply safe_bind; [apply (rd_safe _ _ Hm)|intros a; apply (rd_safe _ _ (Hk a))].
Qed.

Lemma reader_ext {A} (m : M A) f g : reader m f -> (forall s, f s = g s) -> reader m g.
Proof.
  intros [H1 H2 H3 H4] E. split; [|intros w a w' H|done|done].
  - intros w Hw. by rewrite <- E, H1.
  - rewrite <- E. by eapply H2.
Qed.

(** A part that only reads is known by its calm runs. *)
Definition readonly {A} (m : M A) : Prop := exists f, reader m f.

Definition calm (s : Snap) : World := {|
  asks := ∅; events := snd s; ask_heads := ∅; dir := fst s; weather := []; clock := 0 |}.

Lemma reader_calm {A} (m : M A) f :
  readonly m -> (forall w, weather w = [] -> fst (m w) = f (snap w)) -> reader m f.
Proof.
  intros [g Hg] Hf. eapply reader_ext; [exact Hg|]. intros s. specialize (Hf (calm s) eq_refl).
  rewrite (rd_calm _ _ Hg) in Hf by done. by destruct s.
Qed.

Lemma readonly_ret {A} (a : A) : readonly (ret a).
Proof. eexists. apply reader_ret. Qed.
Lemma readonly_throw {A} e : readonly (throw (A := A) e).
Proof. eexists. apply reader_throw. Qed.
Lemma readonly_lift {A} (r : Result A AskError) : readonly (lift r).
Proof. eexists. apply reader_lift. Qed.
Lemma readonly_query {A} (f : World -> A) :
  (forall w, f w = f (calm (snap w))) -> readonly (query f).
Proof. intros Hf. eexists. by apply (reader_query f (fun s => f (calm s))). Qed.
Lemma readonly_bind {A B} (m : M A) (k : A -> M B) :
  readonly m -> (forall a, readonly (k a)) -> readonly (bind m k).
Proof.
  intros [f Hf] Hk. exists (fun s => rbind (f s) (fun a => fst (k a (calm s)))).
  apply reader_bind; [done|]. intros a. destruct (Hk a) as [g Hg].
  eapply reader_ext; [exact Hg|]. intros s. rewrite (rd_calm _ _ Hg) by done. by destruct s.
Qed.

(** A part whose answer cannot be an error but the database's. *)
Definition reads {A} (m : M A) (f : Snap -> A) : Prop := reader m (fun s => Ok (f s)).

Lemma readonly_reads {A} (m : M A) f : reads m f -> readonly m.
Proof. intros Hm. by eexists. Qed.
Lemma readonly_reader {A} (m : M A) f : reader m f -> readonly m.
Proof. intros Hm. by eexists. Qed.

Lemma reads_calm {A} (m : M A) f w : reads m f -> weather w = [] -> m w = (Ok (f (snap w)), w).
Proof. intros Hm. apply (rd_calm _ _ Hm). Qed.

Lemma reads_ok {A} (m : M A) f w a w' : reads m f -> m w = (Ok a, w') -> a = f (snap w).
Proof. intros Hm H. apply (rd_ok _ _ Hm) in H. congruence. Qed.

Lemma reads_query {A} (f : World -> A) (g : Snap -> A) :
  (forall w, f w = g (snap w)) -> reads (query f) g.
Proof. apply reader_query. Qed.

Lemma bind_calm {A B} (m : M A) (k : A -> M B) a w : m w = (Ok a, w) -> bind m k w = k a w.
Proof. unfold bind. by intros ->. Qed.
Lemma bind_assoc {A B C} (m : M A) (k : A -> M B) (l : B -> M C) w :
  bind (bind m k) l w = bind m (fun a => bind (k a) l) w.
Proof. unfold bind. by destruct (m w) as [[]]. Qed.
Lemma bind_attempt {A B} (m : M A) (k : Result A AskError -> M B) w r w1 :
  m w = (r, w1) -> bind (attempt m) k w = k r w1.
Proof. unfold bind, attempt. by intros ->. Qed.
Lemma bind_lift {A B} (r : Result A AskError) (k : A -> M B) w :
  bind (lift r) k w = match r with Ok a => k a w | Err e => (Err e, w) end.
Proof. by destruct r. Qed.
Lemma query_calm {A} (f : World -> A) w : weather w = [] -> query f w = (Ok (f w), w).
Proof. intros H. unfold query, db. by rewrite H. Qed.

#[export] Hint Resolve readonly_ret readonly_throw readonly_lift : readers.

(** Takes a reader apart, binds first, then its cases. *)
Ltac readonly_step :=
  match goal with
  | |- readonly (bind _ _) => apply readonly_bind; [|intros ?]
  | |- readonly (query _) => apply readonly_query; intros ?; reflexivity
  | |- readonly (if ?c then _ else _) => destruct c
  | |- readonly (match ?e with _ => _ end) => destruct e
  | |- readonly _ => solve [eauto with readers | eapply readonly_reads; eauto with readers
                          | eapply readonly_reader; eauto with readers]
  end.
Ltac readonly_auto := repeat readonly_step.

(** Runs one step of a reader in calm weather. *)
Ltac calm_step Hw :=
  first
    [ erewrite bind_calm by (apply reads_calm; [solve [eauto with readers]|exact Hw])
    | erewrite bind_calm by (apply query_calm; exact Hw)
    | erewrite bind_calm by reflexivity
    | erewrite reads_calm by first [exact Hw|solve [eauto with readers]]
    | rewrite query_calm by exact Hw ].

(** What succeeds in some weather would have in calm weather. *)
Lemma readonly_ok {A} (m : M A) w a w' :
  readonly m -> m w = (Ok a, w') ->
  m (calm (snap w)) = (Ok a, calm (snap w)) /\ snap w' = snap w.
Proof.
  intros [f Hf] Hm. rewrite (rd_calm _ _ Hf) by done. pose proof (rd_ok _ _ Hf _ _ _ Hm) as E.
  pose proof (rd_snap _ _ Hf w) as Hs. rewrite Hm in Hs. split; [|done].
  replace (snap (calm (snap w))) with (snap w) by (by destruct (snap w)). by rewrite E.
Qed.

(** ** Quiet steps

    In calm weather, what leaves the asks, the directory and the clock alone. *)

Record same_asks (w w' : World) : Prop := {
  sa_asks : asks w' = asks w;
  sa_dir : dir w' = dir w;
  sa_clock : clock w' = clock w;
  sa_calm : weather w' = [];
}.
Definition quiet {A} (m : M A) : Prop := forall w, weather w = [] -> same_asks w (snd (m w)).

Lemma same_asks_trans w1 w2 w3 : same_asks w1 w2 -> same_asks w2 w3 -> same_asks w1 w3.
Proof. intros [] []. split; congruence. Qed.

Lemma quiet_ret {A} (a : A) : quiet (ret a).
Proof. by intros w Hw. Qed.
Lemma quiet_throw {A} e : quiet (throw (A := A) e).
Proof. by intros w Hw. Qed.
Lemma quiet_lift {A} (r : Result A AskError) : quiet (lift r).
Proof. destruct r; by intros w Hw. Qed.
Lemma quiet_clock : quiet read_clock.
Proof. by intros w Hw. Qed.
Lemma quiet_query {A} (f : World -> A) : quiet (query f).
Proof. intros w Hw. by rewrite query_calm. Qed.
Lemma quiet_readonly {A} (m : M A) : readonly m -> quiet m.
Proof. intros [f Hf] w Hw. by rewrite (rd_calm _ _ Hf). Qed.
Lemma quiet_bind {A B} (m : M A) (k : A -> M B) : quiet m -> (forall a, quiet (k a)) -> quiet (bind m k).
Proof.
  intros Hm Hk w Hw. specialize (Hm w Hw). unfold bind. destruct (m w) as [[a|e] w1]; [|done].
  cbn in Hm. eapply same_asks_trans; [done|]. by apply Hk, (sa_calm _ _ Hm).
Qed.
Lemma quiet_attempt {A} (m : M A) : quiet m -> quiet (attempt m).
Proof. intros Hm w Hw. unfold attempt. specialize (Hm w Hw). by destruct (m w). Qed.
Lemma quiet_insert_event c e ch : quiet (insert_event c e ch).
Proof.
  intros w Hw. unfold insert_event, db. rewrite Hw. cbn. destruct (events w !! _); by split.
Qed.

#[export] Hint Resolve quiet_ret quiet_throw quiet_lift quiet_clock quiet_query quiet_insert_event : quiet.

Ltac quiet_step :=
  match goal with
  | |- quiet (bind _ _) => apply quiet_bind; [|intros ?]
  | |- quiet (attempt _) => apply quiet_attempt
  | |- quiet (if ?c then _ else _) => destruct c
  | |- quiet (match ?e with _ => _ end) => destruct e
  | |- quiet _ => solve [eauto with quiet]
  end.
Ltac quiet_auto := repeat quiet_step.

(** ** Best effort

    What cannot fail, in any weather. *)

Definition sure {A} (m : M A) : Prop := forall w, exists a w', m w = (Ok a, w').

Lemma sure_ret {A} (a : A) : sure (ret a).
Proof. intros w. by eexists _, _. Qed.
Lemma sure_clock : sure read_clock.
Proof. intros w. by eexists _, _. Qed.
Lemma sure_attempt {A} (m : M A) : sure (attempt m).
Proof. intros w. unfold attempt. destruct (m w). eauto. Qed.
Lemma sure_bind {A B} (m : M A) (k : A -> M B) : sure m -> (forall a, sure (k a)) -> sure (bind m k).
Proof. intros Hm Hk w. unfold bind. destruct (Hm w) as (a & w1 & ->). apply Hk. Qed.

#[export] Hint Resolve sure_ret sure_clock sure_attempt : sure.

Ltac sure_step :=
  match goal with
  | |- sure (bind _ _) => apply sure_bind; [|intros ?]
  | |- sure (if ?c then _ else _) => destruct c
  | |- sure (match ?e with _ => _ end) => destruct e
  | |- sure _ => solve [eauto with sure]
  end.
Ltac sure_auto := repeat sure_step.

(** ** Runs that succeed *)

Lemma bind_ok {A B} (m : M A) (k : A -> M B) w b w' :
  bind m k w = (Ok b, w') -> exists a w1, m w = (Ok a, w1) /\ k a w1 = (Ok b, w').
Proof. unfold bind. destruct (m w) as [[a|e] w1]; [|done]. eauto. Qed.

Lemma lifted_ok {A} (r : Result A AskError) w a w' : lift r w = (Ok a, w') -> r = Ok a /\ w' = w.
Proof. destruct r; [|done]. by intros [= -> ->]. Qed.

Lemma attempt_ok {A} (m : M A) w r w' : attempt m w = (Ok r, w') -> m w = (r, w').
Proof. unfold attempt. destruct (m w). by intros [= -> ->]. Qed.

(** The table when a call runs: other processes first. *)
Lemma update_ok_inv f w b w' :
  Inv w -> update f w = (Ok b, w') ->
  exists t, wf_asks t /\ grows (asks w) t /\ f (clock w) t = (b, asks w') /\ snap w' = snap w
            /\ clock w' = clock w /\ ask_heads w' = ask_heads w.
Proof.
  intros [Ha Hw] H. unfold update, db in H. destruct (weather w) as [|here rest].
  - exists (asks w). destruct (f (clock w) (asks w)) as [b' t] eqn:E. injection H as <- <-.
    by split_and!.
  - apply Forall_cons in Hw as [Hh _]. destruct (run_stmts_ok _ _ Hh Ha) as [Ha' Hg].
    destruct (down here); [done|]. cbn in H.
    exists (run_stmts (others here) (asks w)).
    destruct (f (clock w) (run_stmts (others here) (asks w))) as [b' t] eqn:E. injection H as <- <-.
    by split_and!.
Qed.

Lemma update_calm f w :
  weather w = [] ->
  update f w = (Ok (fst (f (clock w) (asks w))), set_asks (snd (f (clock w) (asks w))) w).
Proof. intros H. unfold update, db. rewrite H. by destruct (f (clock w) (asks w)). Qed.
