(* ===== verification/AskGate.v ===== *)
(** * Ranks, the owner-contact gate and delegated authority

    [crates/buzz-relay/src/interrupt_gate.rs]: who an agent is on the ladder
    from worker to owner, who may address an owner, and which decisions an
    agent may record as its own. With the rosters of [interrupt_runtime.rs]: the
    one executive, owner or lead an ask goes to. *)

From Stdlib Require Import ZArith Lia Ascii.
From stdpp Require Import base list gmap strings numbers sorting.
From S2P Require Import Prelude MachineInt RustStr Json Event AskWire AskTable AskWorld.
Local Open Scope Z_scope.

Definition KIND_STREAM_MESSAGE_V2 : Z := 40002.
Definition KIND_STREAM_MESSAGE_EDIT : Z := 40003.
Definition KIND_DM_OPEN : Z := 41010.
Definition KIND_DM_ADD_MEMBER : Z := 41011.
Definition KIND_MANAGED_AGENT : Z := 30177.
Definition KIND_DELEGATION_GRANT : Z := 30189.
Definition MAX_CANDIDATE_TIER_HEADS : nat := 20.
Definition MAX_CANDIDATE_GRANT_HEADS : nat := 20.
Definition MAX_THREAD_REPLIES : nat := 500.

(** What is asked of the event library: signing, and reading a public key from
    its hex ([PublicKey::from_hex], [from_slice]), canonical. *)
Class NostrLib := {
  Keys : Type;
  public_key : Keys -> string;
  sign_event : Keys -> Z -> Z -> list (list string) -> string -> option Event;
  from_hex : string -> option string;
}.

(** [hex::decode], as the lower-case hex of the bytes. *)
Definition hex_decode (s : string) : option string :=
  if Nat.even (String.length s) && str_all is_ascii_hexdigit s then Some (to_ascii_lowercase s)
  else None.

(** [is_gated_kind], [is_direct_contact_kind]. *)
Definition is_gated_kind (kind : Z) : bool :=
  bool_decide (kind ∈ [KIND_STREAM_MESSAGE; KIND_STREAM_MESSAGE_V2; KIND_STREAM_MESSAGE_EDIT;
                       KIND_DM_OPEN; KIND_DM_ADD_MEMBER; KIND_GIFT_WRAP]).
Definition is_direct_contact_kind (kind : Z) : bool :=
  bool_decide (kind ∈ [KIND_DM_OPEN; KIND_DM_ADD_MEMBER; KIND_GIFT_WRAP]).

(** [is_valid_role_slug] of [employee.rs]. *)
Definition is_valid_role_slug (value : string) : bool :=
  let word c := is_ascii_lowercase c || is_ascii_digit c in
  (str_len value <=? 64)
  && match value with String c _ => word c | EmptyString => false end
  && str_all (fun c => word c || Ascii.eqb c "-" || Ascii.eqb c "_") value.

(** [normalize_role_id]. *)
Definition normalize_role_id (raw : string) : string := to_ascii_lowercase (trim raw).

(** [event_single_tag]: the loop, and the function. *)
Fixpoint event_single_tag_loop (tags : list (list string)) (name : string) (found : option string)
    : option string :=
  match tags with
  | [] => found
  | parts :: rest =>
      if negb (named name parts) then event_single_tag_loop rest name found
      else if is_some found then None
      else event_single_tag_loop rest name (parts !! 1%nat)
  end.
Definition event_single_tag (event : Event) (name : string) : option string :=
  event_single_tag_loop (ev_tags event) name None.

(** [extract_p_tags]. *)
Definition extract_p_tags (event : Event) : list string :=
  filter_map (fun parts => if named "p" parts then parts !! 1%nat else None) (ev_tags event).

(** [find_marked_e_tag]. *)
Definition marked_e_tag (marker : string) (parts : list string) : option string :=
  match parts with
  | n :: id :: _ :: m :: _ =>
      if String.eqb n "e" && String.eqb m marker then
        match hex_decode id with
        | Some bytes => if str_len bytes =? 64 then Some bytes else None
        | None => None
        end
      else None
  | _ => None
  end.
Definition find_marked_e_tag (event : Event) (marker : string) : option string :=
  head (filter_map (marked_e_tag marker) (ev_tags event)).

(** [extract_thread_root]. *)
Definition extract_thread_root (event : Event) : option string :=
  match find_marked_e_tag event "root" with
  | Some root => Some root
  | None => find_marked_e_tag event "reply"
  end.

(** [reply_p_tags_contain]. *)
Definition reply_p_tags_contain (tags : Json) (target : string) : bool :=
  match as_array tags with
  | Some tags =>
      existsb (fun tag =>
        match as_array tag with
        | Some (n :: v :: _) =>
            bool_decide (as_string n = Some "p"%string) && bool_decide (as_string v = Some target)
        | _ => false
        end) tags
  | None => false
  end.

(** The role a head claims in [agent_tier], if it is a slug. *)
Definition claimed_role (content : Json) : option string :=
  match normalize_role_id <$> get_str content "role_id" with
  | Some r => if is_valid_role_slug r then Some r else None
  | None => None
  end.

(** An employee's rank; a corrupt one is the lowest. *)
Definition employee_rank (e : Employee) : AgentTier := default Worker (tier_parse (rank e)).

Section Gate.
Context `{JsonLib, NostrLib}.

(** The first head whose author is an owner now, of the candidates. *)
Fixpoint first_owner_authored (community : string) (l : list Event) : M (option Event) :=
  match l with
  | [] => ret None
  | e :: l' =>
      let! owner := is_owner community (ev_pubkey e) in
      if owner then ret (Some e) else first_owner_authored community l'
  end.

(** The rank an owner-authored head confers, in [agent_tier]. *)
Definition head_tier (community : string) (event : Event) : M (option AgentTier) :=
  match json_from_str (ev_content event) with
  | None => ret None
  | Some content =>
      let! filled := (match claimed_role content with
                      | Some r => find_active_employee_by_role community r
                      | None => ret None
                      end) in
      ret (match filled with
           | Some e => Some (employee_rank e)
           | None => get_str content "tier" ≫= tier_parse
           end)
  end.

(** [agent_tier]. *)
Definition agent_tier (community pubkey : string) : M (option AgentTier) :=
  let! employee := find_employee community pubkey in
  match employee with
  | Some e => ret (Some (employee_rank e))
  | None =>
      let! heads := query_heads community KIND_MANAGED_AGENT pubkey MAX_CANDIDATE_TIER_HEADS in
      let! trusted := first_owner_authored community heads in
      match trusted with
      | Some event => head_tier community event
      | None => ret None
      end
  end.

(** [agent_manager]. *)
Definition agent_manager (community pubkey : string) : M (option string) :=
  let! employee := find_employee community pubkey in
  let! claimed :=
    (match employee with
     | Some e => ret (manager e ≫= from_hex)
     | None =>
         let! heads := query_heads community KIND_MANAGED_AGENT pubkey MAX_CANDIDATE_TIER_HEADS in
         let! trusted := first_owner_authored community heads in
         ret (trusted ≫= fun event => event_single_tag event "manager" ≫= from_hex)
     end) in
  match claimed with
  | None => ret None
  | Some claimed =>
      let! subject := agent_tier community pubkey in
      match subject with
      | None | Some Executive => ret None
      | Some tier =>
          let! manager_tier := agent_tier community claimed in
          ret (if bool_decide (manager_tier = Some (escalation_target tier)) then Some claimed else None)
      end
  end.

(** ** The owner-contact gate *)

(** [owner_thread_permits]. *)
Definition owner_thread_permits (community thread_root owner agent : string) : M bool :=
  let! root := get_event_by_id community thread_root in
  match root with
  | None => ret false
  | Some root =>
      if String.eqb (ev_pubkey (stored_event root)) owner then ret true
      else
        let! replies := query (fun w => take MAX_THREAD_REPLIES
          (default [] (thread_replies (dir w) !! (community, thread_root)))) in
        ret (existsb (fun r => String.eqb (fst r) owner && reply_p_tags_contain (snd r) agent) replies)
  end.

(** The owners among the targets. *)
Fixpoint owner_targets (community : string) (targets : list string) : M (list string) :=
  match targets with
  | [] => ret []
  | t :: rest =>
      let! owner := is_owner community t in
      if owner then
        let! bytes := lift (ok_or (hex_decode t) (Internal "stored member pubkey is not valid hex")) in
        let! others := owner_targets community rest in
        ret (bytes :: others)
      else owner_targets community rest
  end.

(** The loop over the owners of [enforce_owner_contact]. *)
Fixpoint all_permit (community root agent : string) (tier : AgentTier) (owners : list string)
    : M unit :=
  match owners with
  | [] => ret tt
  | o :: rest =>
      let! permitted := owner_thread_permits community root o agent in
      if permitted then all_permit community root agent tier rest
      else throw (OwnerContactDenied tier)
  end.

(** [enforce_owner_contact]. *)
Definition enforce_owner_contact (community : string) (event : Event) (auth_pubkey : string) : M unit :=
  let kind := ev_kind event in
  if negb (is_gated_kind kind) then ret tt
  else
    let targets := extract_p_tags event in
    if bool_decide (targets = []) then ret tt
    else
      let! tier := agent_tier community auth_pubkey in
      match tier with
      | None | Some Executive => ret tt
      | Some tier =>
          let! owners := owner_targets community targets in
          if bool_decide (owners = []) then ret tt
          else if is_direct_contact_kind kind then throw (DirectContactDenied kind tier)
          else
            match extract_thread_root event with
            | None => throw (OwnerContactDenied tier)
            | Some root => all_permit community root auth_pubkey tier owners
            end
      end.

(** ** Delegated authority *)

(** [active_grant]. *)
Definition active_grant (community grant : string) : M (option ParsedGrant) :=
  let! heads := query_heads community KIND_DELEGATION_GRANT grant MAX_CANDIDATE_GRANT_HEADS in
  let! trusted := first_owner_authored community heads in
  ret (trusted ≫= fun event => ok (parse_grant event)).

(** [enforce_grant_authorship]. *)
Definition enforce_grant_authorship (community : string) (event : Event) : M unit :=
  let! owner := is_owner community (ev_pubkey event) in
  if owner then ret tt else throw GrantNotByOwner.

(** The checks of a decision against the grant it cites. *)
Definition within_grant (log : ParsedDecisionLog) (grant : ParsedGrant) : Result unit AskError :=
  fail_if negb (String.eqb (log_category log) (grant_category grant))
    with LogCategoryMismatch (log_category log) (grant_category grant);
  match cap_nano_usd grant with
  | None => Ok tt
  | Some cap =>
      match amount_nano_usd log with
      | None => Err (LogAmountMissing (log_grant_id log))
      | Some amount => if cap <? amount then Err (LogAmountOverCap amount cap) else Ok tt
      end
  end.

(** [enforce_decision_log_authority]. *)
Definition enforce_decision_log_authority (community : string) (event : Event)
    (log : ParsedDecisionLog) : M unit :=
  let! tier := agent_tier community (ev_pubkey event) in
  if negb (bool_decide (tier = Some Leader \/ tier = Some Executive)) then throw LogNotByLeader
  else
    let! grant := active_grant community (log_grant_id log) in
    match grant with
    | Some grant =>
        if active grant then lift (within_grant log grant)
        else throw (GrantNotActive (log_grant_id log))
    | None => throw (GrantNotActive (log_grant_id log))
    end.
End Gate.

(** ** The ladder and its gates

    Ranks, reporting lines, the owner-contact gate and delegated authority in
    closed form. Each part of [AskGate] is a function of the directory and the
    stored events; a failing database makes it fail, never answer otherwise. *)

Local Open Scope Z_scope.

(** ** The directory, read *)

Section Ladder.
Context `{JsonLib, NostrLib}.

Definition owner_in (d : Directory) (community pubkey : string) : bool :=
  bool_decide (relay_members d !! (community, pubkey) = Some "owner"%string).

Definition employee_in (d : Directory) (community pubkey : string) : option Employee :=
  head (List.filter (fun e => String.eqb (emp_pubkey e) pubkey) (employees_of community d)).

Definition role_holder_in (d : Directory) (community role : string) : option Employee :=
  head (List.filter (fun e => String.eqb (role_id e) role && employed e) (employees_of community d)).

Definition heads_in (d : Directory) (community : string) (kind : Z) (key : string) (limit : nat)
    : list Event :=
  take limit (row_event <$>
    List.filter (fun r => of_kind community kind r && String.eqb (row_d r) key) (head_rows d)).

(** The newest head an owner stands behind, among those scanned. *)
Definition trusted_in (d : Directory) (community : string) (kind : Z) (key : string) (limit : nat)
    : option Event :=
  head (List.filter (fun e => owner_in d community (ev_pubkey e)) (heads_in d community kind key limit)).

(** The rank a trusted head confers: its staffed role's, else its own word. *)
Definition head_tier_in (d : Directory) (community : string) (event : Event) : option AgentTier :=
  content ← json_from_str (ev_content event);
  match (r ← claimed_role content; role_holder_in d community r) with
  | Some e => Some (employee_rank e)
  | None => get_str content "tier" ≫= tier_parse
  end.

Definition tier_in (d : Directory) (community pubkey : string) : option AgentTier :=
  match employee_in d community pubkey with
  | Some e => Some (employee_rank e)
  | None =>
      event ← trusted_in d community KIND_MANAGED_AGENT pubkey MAX_CANDIDATE_TIER_HEADS;
      head_tier_in d community event
  end.

(** The reporting line someone with authority recorded. *)
Definition claimed_manager_in (d : Directory) (community pubkey : string) : option string :=
  match employee_in d community pubkey with
  | Some e => manager e ≫= from_hex
  | None =>
      event ← trusted_in d community KIND_MANAGED_AGENT pubkey MAX_CANDIDATE_TIER_HEADS;
      event_single_tag event "manager" ≫= from_hex
  end.

Definition manager_in (d : Directory) (community pubkey : string) : option string :=
  claimed ← claimed_manager_in d community pubkey;
  match tier_in d community pubkey with
  | None | Some Executive => None
  | Some tier =>
      if bool_decide (tier_in d community claimed = Some (escalation_target tier))
      then Some claimed else None
  end.

Definition grant_in (d : Directory) (community grant : string) : option ParsedGrant :=
  event ← trusted_in d community KIND_DELEGATION_GRANT grant MAX_CANDIDATE_GRANT_HEADS;
  ok (parse_grant event).

Definition thread_permits_in (s : Snap) (community root owner agent : string) : bool :=
  match snd s !! (community, root) with
  | None => false
  | Some stored =>
      String.eqb (ev_pubkey (stored_event stored)) owner
      || existsb (fun r => String.eqb (fst r) owner && reply_p_tags_contain (snd r) agent)
           (take MAX_THREAD_REPLIES (default [] (thread_replies (fst s) !! (community, root))))
  end.

(** ** The handlers read exactly that *)

Lemma reads_owner c pk : reads (is_owner c pk) (fun s => owner_in (fst s) c pk).
Proof. by apply reads_query. Qed.
#[local] Hint Resolve reads_owner : readers.

Lemma reads_first_owner c l :
  reads (first_owner_authored c l)
    (fun s => head (List.filter (fun e => owner_in (fst s) c (ev_pubkey e)) l)).
Proof.
  apply reader_calm; [by induction l; cbn; readonly_auto|].
  intros w Hw. induction l as [|e l IH]; cbn; [done|]. calm_step Hw. cbn.
  by destruct (owner_in _ _ _).
Qed.
#[local] Hint Resolve reads_first_owner : readers.

Lemma reads_heads c kind key n :
  reads (query_heads c kind key n) (fun s => heads_in (fst s) c kind key n).
Proof. by apply reads_query. Qed.
Lemma reads_employee c pk : reads (find_employee c pk) (fun s => employee_in (fst s) c pk).
Proof. by apply reads_query. Qed.
Lemma reads_role_holder c r :
  reads (find_active_employee_by_role c r) (fun s => role_holder_in (fst s) c r).
Proof. by apply reads_query. Qed.
Lemma reads_event c id : reads (get_event_by_id c id) (fun s => snd s !! (c, id)).
Proof. by apply reads_query. Qed.
#[local] Hint Resolve reads_heads reads_employee reads_role_holder reads_event : readers.

Lemma reads_head_tier c e : reads (head_tier c e) (fun s => head_tier_in (fst s) c e).
Proof.
  apply reader_calm; unfold head_tier, head_tier_in; [readonly_auto|].
  intros w Hw. destruct (json_from_str (ev_content e)) as [content|]; [|done]. cbn.
  destruct (claimed_role content) as [r|]; [by calm_step Hw|done].
Qed.
#[local] Hint Resolve reads_head_tier : readers.

Lemma reads_tier c pk : reads (agent_tier c pk) (fun s => tier_in (fst s) c pk).
Proof.
  apply reader_calm; unfold agent_tier, tier_in; [readonly_auto|].
  intros w Hw. calm_step Hw. cbn. destruct (employee_in _ _ _); [done|].
  do 2 calm_step Hw. cbv beta.
  change (head _) with (trusted_in (dir w) c KIND_MANAGED_AGENT pk MAX_CANDIDATE_TIER_HEADS).
  change (trusted_in (fst (snap w))) with (trusted_in (dir w)).
  destruct (trusted_in _ _ _ _ _) as [e|]; [|done]. by calm_step Hw.
Qed.
#[local] Hint Resolve reads_tier : readers.

(** The reporting line [agent_manager] starts from. *)
Lemma reads_claimed_manager c pk (k : option string -> M (option string)) w :
  weather w = [] ->
  bind (find_employee c pk) (fun employee => bind
    (match employee with
     | Some e => ret (manager e ≫= from_hex)
     | None =>
         let! heads := query_heads c KIND_MANAGED_AGENT pk MAX_CANDIDATE_TIER_HEADS in
         let! trusted := first_owner_authored c heads in
         ret (trusted ≫= fun event => event_single_tag event "manager" ≫= from_hex)
     end) k) w = k (claimed_manager_in (dir w) c pk) w.
Proof.
  intros Hw. calm_step Hw. unfold claimed_manager_in. cbn.
  destruct (employee_in _ _ _); [done|]. apply bind_calm. by do 2 calm_step Hw.
Qed.

Lemma reads_manager c pk : reads (agent_manager c pk) (fun s => manager_in (fst s) c pk).
Proof.
  apply reader_calm; unfold agent_manager, manager_in; [readonly_auto|].
  intros w Hw. rewrite reads_claimed_manager by done. cbn.
  destruct (claimed_manager_in _ _ _) as [claimed|]; [|done]. cbn. calm_step Hw. cbn.
  by destruct (tier_in (dir w) c pk) as [[]|]; try done; calm_step Hw.
Qed.

Lemma reads_grant c g : reads (active_grant c g) (fun s => grant_in (fst s) c g).
Proof.
  apply reader_calm; unfold active_grant, grant_in; [readonly_auto|].
  intros w Hw. by do 2 calm_step Hw.
Qed.

Lemma reads_thread_permits c root owner agent :
  reads (owner_thread_permits c root owner agent) (fun s => thread_permits_in s c root owner agent).
Proof.
  apply reader_calm; unfold owner_thread_permits, thread_permits_in; [readonly_auto|].
  intros w Hw. calm_step Hw. cbn. destruct (events w !! (c, root)) as [stored|]; [|done].
  destruct (String.eqb _ owner); [done|]. by calm_step Hw.
Qed.
End Ladder.

#[export] Hint Resolve reads_owner reads_first_owner reads_heads reads_employee reads_role_holder
  reads_event reads_head_tier reads_tier reads_manager reads_grant reads_thread_permits : readers.

(** ** Who holds an office

    The roster half of [crates/buzz-relay/src/interrupt_runtime.rs]: the heads a
    community's owners (and its provisioned employees) stand behind, the rank
    each confers, and the one executive, owner, persona or team lead that asks
    and mentions are routed to. No candidate, or more than one, is nobody. *)

Local Open Scope Z_scope.

Definition KIND_TEAM : Z := 30176.
Definition MAX_ROSTER_HEADS : nat := 500.

(** [ManagedAgentRoster], [TeamRoster]: the [d] tag and the content. *)
Definition Roster : Type := list (string * Json).

(** [RoleRanks] is a map; [Payroll]. *)
Record Payroll := {
  role_ranks : gmap string AgentTier;
  provisioned : list string;
  provisioned_roles : list string;
}.

(** The first [d] tag with a value. *)
Definition d_tag_of (event : Event) : option string :=
  head (filter_map (fun parts => match parts with
                                 | n :: v :: _ => if String.eqb n "d" then Some v else None
                                 | _ => None
                                 end) (ev_tags event)).

(** A read role, trimmed and folded. *)
Definition content_role (content : Json) : option string := normalize_role_id <$> get_str content "role_id".

(** [head_rank]. *)
Definition head_rank (content : Json) (ranks : gmap string AgentTier) : option AgentTier :=
  match content_role content ≫= fun role => ranks !! role with
  | Some rank => Some rank
  | None => get_str content "tier" ≫= tier_parse
  end.

(** [head_role]. *)
Definition head_role (content : Json) : option string :=
  role ← content_role content; if str_is_empty role then None else Some role.

(** A [HashSet] of public keys, as a list without duplicates. *)
Definition set_insert (x : string) (l : list string) : list string :=
  if bool_decide (x ∈ l) then l else x :: l.

(** [persona_id] of a head. *)
Definition persona_of (content : Json) : option string := get_str content "persona_id".

(** The team the worker's persona is in, when there is one. *)
Definition has_persona (persona : string) (team : string * Json) : bool :=
  match jget (snd team) "persona_ids" ≫= as_array with
  | Some ids => existsb (fun id => bool_decide (as_string id = Some persona)) ids
  | None => false
  end.

Section Roster.
Context `{JsonLib, NostrLib}.

(** A public key named by a [d] tag: [hex::decode], then [from_slice]. *)
Definition d_pubkey (d : string) : option string := hex_decode d ≫= from_hex.

(** One step of [unique_executive_in_roster]: the workspace's own, and
    Colony's. *)
Definition executive_step (payroll : Payroll) (acc : list string * list string)
    (head : string * Json) : list string * list string :=
  let '(workspace, colony) := acc in
  if negb (bool_decide (head_rank (snd head) (role_ranks payroll) = Some Executive)) then acc
  else
    match d_pubkey (fst head) with
    | None => acc
    | Some pubkey =>
        if bool_decide (pubkey ∈ provisioned payroll) then (workspace, set_insert pubkey colony)
        else if match head_role (snd head) with
                | Some role => bool_decide (role ∈ provisioned_roles payroll)
                | None => false
                end
        then acc
        else (set_insert pubkey workspace, colony)
    end.

(** [unique_executive_in_roster]. *)
Definition unique_executive_in_roster (roster : Roster) (payroll : Payroll) : option string :=
  match foldl (executive_step payroll) ([], []) roster with
  | ([workspace], _) => Some workspace
  | ([], [colony]) => Some colony
  | _ => None
  end.

(** [persona_pubkey_in_roster]. *)
Definition persona_pubkey_in_roster (roster : Roster) (persona : string) : option string :=
  match foldl (fun found head =>
      if bool_decide (persona_of (snd head) = Some persona)
      then match d_pubkey (fst head) with Some pk => set_insert pk found | None => found end
      else found) [] roster with
  | [pk] => Some pk
  | _ => None
  end.

(** [team_lead_in_rosters]. *)
Definition team_lead_in_rosters (heads teams : Roster) (ranks : gmap string AgentTier)
    (worker : string) : option string :=
  persona ← head (filter_map (fun h =>
    if String.eqb (fst h) worker then persona_of (snd h) else None) heads);
  match List.filter (has_persona persona) teams with
  | [team] =>
      lead ← get_str (snd team) "lead_persona_id";
      pubkey ← persona_pubkey_in_roster heads lead;
      let lead_tier := head (filter_map (fun h =>
        if bool_decide (persona_of (snd h) = Some lead) then head_rank (snd h) ranks else None) heads) in
      if bool_decide (lead_tier = Some Leader) then Some pubkey else None
  | _ => None
  end.

(** The rows of a roster: a [d] tag and content that is JSON. *)
Definition roster_entry (event : Event) : option (string * Json) :=
  match d_tag_of event, json_from_str (ev_content event) with
  | Some d, Some content => Some (d, content)
  | _, _ => None
  end.

(** [fetch_owner_authored_managed_agent_roster], [fetch_owner_authored_teams]. *)
Definition fetch_owner_authored (kind : Z) (community : string) (limit : nat) : M Roster :=
  let! events := query_latest_owner_authored_heads community kind limit in
  ret (filter_map roster_entry events).

(** [active_payroll]. *)
Definition payroll_of (employees : list Employee) : Payroll :=
  let colony := List.filter (fun e => is_some (provisioned_handle e)) employees in
  {| role_ranks := foldl (fun m e => match tier_parse (rank e) with
                                     | Some t => <[role_id e := t]> m
                                     | None => m
                                     end) ∅ employees;
     provisioned := emp_pubkey <$> colony;
     provisioned_roles := List.filter (fun r => negb (str_is_empty r))
                            ((fun e => normalize_role_id (role_id e)) <$> colony) |}.
Definition active_payroll (community : string) : M Payroll :=
  let! employees := list_active_employees community in
  ret (payroll_of employees).

(** [extend_roster_with_provisioned_heads]: each provisioned employee's own
    newest definition, if it wrote it itself. *)
Fixpoint provisioned_heads (community : string) (pubkeys : list string) : M Roster :=
  match pubkeys with
  | [] => ret []
  | pk :: rest =>
      let! rows := query_heads community KIND_MANAGED_AGENT pk 1 in
      let own := match rows with
                 | e :: _ =>
                     if String.eqb (ev_pubkey e) pk
                     then match json_from_str (ev_content e) with
                          | Some content => [(pk, content)]
                          | None => []
                          end
                     else []
                 | [] => []
                 end in
      let! others := provisioned_heads community rest in
      ret (own ++ others)
  end.

(** [fetch_role_holder_roster]; [provisioned] is a [BTreeSet], read in order. *)
Definition fetch_role_holder_roster (community : string) (payroll : Payroll) (limit : nat) : M Roster :=
  let! roster := fetch_owner_authored KIND_MANAGED_AGENT community limit in
  let! own := provisioned_heads community (sort_by kleb (remove_dups (provisioned payroll))) in
  ret (roster ++ own).

(** [find_unique_executive]. *)
Definition find_unique_executive (community : string) : M (option string) :=
  let! payroll := active_payroll community in
  let! roster := fetch_role_holder_roster community payroll MAX_ROSTER_HEADS in
  ret (unique_executive_in_roster roster payroll).

(** [find_unique_owner]. *)
Definition find_unique_owner (community : string) : M (option string) :=
  let! owners := list_relay_owners community 2 in
  match owners with
  | [owner] => let! pk := lift (ok_or (from_hex owner) (Internal "stored owner pubkey is not valid hex")) in
               ret (Some pk)
  | _ => ret None
  end.

(** [resolve_owner_mention_route]: keep the mention, or route it to. *)
Inductive OwnerMentionRoute := Keep | Route (pubkey : string).

Definition resolve_owner_mention_route (community actor : string) : M OwnerMentionRoute :=
  let! tier := agent_tier community actor in
  match tier with
  | None | Some Executive => ret Keep
  | Some Leader =>
      let! executive := find_unique_executive community in
      match executive with Some pk => ret (Route pk) | None => throw NoUniqueExecutive end
  | Some Worker =>
      let! payroll := active_payroll community in
      let! heads := fetch_role_holder_roster community payroll MAX_ROSTER_HEADS in
      let! teams := fetch_owner_authored KIND_TEAM community MAX_ROSTER_HEADS in
      match team_lead_in_rosters heads teams (role_ranks payroll) actor with
      | Some lead => ret (Route lead)
      | None =>
          match unique_executive_in_roster heads payroll with
          | Some pk => ret (Route pk)
          | None => throw NoUniqueExecutive
          end
      end
  end.

(** [trusted_assignment_personas]: the personas of active roster members. *)
Definition trusted_assignment_personas (community : string) : M (list string) :=
  let! payroll := active_payroll community in
  let! roster := fetch_role_holder_roster community payroll 10000 in
  ret (filter_map (fun h =>
    if negb (is_some (from_hex (fst h)))
       || bool_decide ((jget (snd h) "is_active" ≫= as_bool) = Some false) then None
    else match persona_of (snd h) with
         | Some id => if str_is_empty (trim id) then None else Some id
         | None => None
         end) roster).
End Roster.
