(* ===== verification/AskHead.v ===== *)
(** * Ask-state heads

    [crates/buzz-relay/src/ask_state_head.rs]: the relay-signed head of an ask,
    the only copy of its deadline a client can read. Publication is best
    effort: what can go wrong here is logged and swallowed. *)

From Stdlib Require Import ZArith Lia Ascii.
From stdpp Require Import base list gmap strings numbers sorting.
From S2P Require Import Prelude MachineInt RustStr Json Event AskWire AskTable AskWorld AskGate.
Local Open Scope Z_scope.

Definition KIND_ASK_STATE : Z := 30200.

Inductive ExpiryOutcome :=
| OutcomeDefault (option : string)
| OutcomePromotes (target : AskPromotionTarget)
| OutcomeRearm.
#[export] Instance ExpiryOutcome_eq_dec : EqDecision ExpiryOutcome.
Proof. solve_decision. Defined.

(** [ExpiryOutcome::action], [content_fields]. *)
Definition outcome_action (o : ExpiryOutcome) : AskExpiryAction :=
  match o with
  | OutcomeDefault _ => DefaultExecutes
  | OutcomePromotes _ => Promotes
  | OutcomeRearm => Rearms
  end.
Definition content_fields (o : ExpiryOutcome) : list (string * Json) :=
  ("on_expiry", JString (expiry_as_str (outcome_action o))) ::
  match o with
  | OutcomeDefault option => [("default_option", JString option)]
  | OutcomePromotes target => [("promotes_to", JString (target_as_str target))]
  | OutcomeRearm => []
  end%string.

Inductive AskClosure :=
| ClosureResolved (executed : bool) (option : option string)
| ClosureWithdrawn
| ClosurePromoted (successor : string).

(** The content of an open head, new or re-armed. *)
Definition open_content (deadline : Z) (rearmed : option Z) (o : ExpiryOutcome) : Json :=
  json_object (("status", JString (ask_status_as_str SOpen)) :: ("deadline_at", JInt deadline)
    :: match rearmed with Some at_ => [("rearmed_at", JInt at_)] | None => [] end
    ++ content_fields o)%string.

(** The content of a terminal head. *)
Definition closed_content (now : Z) (c : AskClosure) : Json :=
  let status := match c with
                | ClosureResolved _ _ => SResolved
                | ClosureWithdrawn => SWithdrawn
                | ClosurePromoted _ => SPromoted
                end in
  json_object (("status", JString (ask_status_as_str status)) :: ("closed_at", JInt now)
    :: match c with
       | ClosureResolved executed option =>
           ("default_executed", JBool executed)
           :: match option with Some o => [("default_option", JString o)] | None => [] end
       | ClosureWithdrawn => []
       | ClosurePromoted successor => [("successor_event_id", JString successor)]
       end)%string.

Section Heads.
Context `{JsonLib, NostrLib}.
(** The relay's signing key. *)
Context (relay : Keys).

(** [predict_expiry_outcome]. *)
Definition predict_expiry_outcome (community audience : string) (dflt : option string)
    : M ExpiryOutcome :=
  let! owner := is_owner community audience in
  if owner then
    ret (match dflt with Some option => OutcomeDefault option | None => OutcomeRearm end)
  else
    let! pk := lift (ok_or (from_hex audience) (Internal "audience hex is not a valid pubkey")) in
    let! tier := agent_tier community pk in
    match tier with
    | Some Leader =>
        let! executive := find_unique_executive community in
        ret (if is_some executive then OutcomePromotes TargetExecutive else OutcomeRearm)
    | Some Executive =>
        let! owner := find_unique_owner community in
        ret (if is_some owner then OutcomePromotes TargetOwner else OutcomeRearm)
    | Some Worker | None => ret OutcomeRearm
    end.

(** [replace_parameterized_event]: the newer event of an address stays; on a
    tie, the lower id. *)
Definition replaces (new old : Event) : bool :=
  negb ((ev_created_at new <? ev_created_at old)
        || ((ev_created_at new =? ev_created_at old) && kleb (ev_id old) (ev_id new))).
Definition replace_parameterized_event (community d : string) (event : Event) : M bool :=
  db (fun w =>
    let fresh := match ask_heads w !! (community, d) with
                 | Some old => replaces event old
                 | None => true
                 end in
    (Ok fresh, if fresh then set_ask_heads (<[(community, d) := event]> (ask_heads w)) w else w)).

(** [sign_store_and_fan_out_head], but for the fan-out. *)
Definition sign_store_and_fan_out_head (community id : string) (content : Json) : M unit :=
  let! now := read_clock in
  let! existing := attempt (query (fun w => ask_heads w !! (community, id))) in
  let ts := match existing with
            | Ok (Some previous) => Z.max now (ev_created_at previous + 1)
            | _ => now
            end in
  match sign_event relay KIND_ASK_STATE ts [["d"%string; id]] (json_to_string content) with
  | None => ret tt
  | Some event => let! _ := attempt (replace_parameterized_event community id event) in ret tt
  end.

(** [publish_head_for_new_ask]. *)
Definition publish_head_for_new_ask (community id : string) (deadline : Z) (audience : string)
    (dflt : option string) : M unit :=
  let! outcome := attempt (predict_expiry_outcome community audience dflt) in
  match outcome with
  | Err _ => ret tt
  | Ok o => sign_store_and_fan_out_head community id (open_content deadline None o)
  end.

(** [lookup_community_host]. *)
Definition lookup_community_host (community : string) : M (option string) :=
  query (fun w => hosts (dir w) !! community).

(** [publish_rearmed_head]. *)
Definition publish_rearmed_head (row : AskRow) (deadline rearmed : Z) : M unit :=
  let! host := attempt (lookup_community_host (community_id row)) in
  match host with
  | Ok (Some _) =>
      let! outcome := attempt (predict_expiry_outcome (community_id row) (audience_pubkey row)
                                 (row_default row)) in
      match outcome with
      | Err _ => ret tt
      | Ok o => sign_store_and_fan_out_head (community_id row) (ask_event_id row)
                  (open_content deadline (Some rearmed) o)
      end
  | _ => ret tt
  end.

(** [publish_closed_head]. *)
Definition publish_closed_head (community id : string) (closure : AskClosure) : M unit :=
  let! now := read_clock in
  sign_store_and_fan_out_head community id (closed_content now closure).
End Heads.
