(* ===== verification/AskBroker.v ===== *)
(** * The ask broker

    [crates/buzz-relay/src/ask_broker.rs]: filing, resolving and withdrawing an
    ask, closing the ask a manual escalation supersedes, and an owner's reply
    in the thread. Fan-out and logging are left out. *)

From Stdlib Require Import ZArith Lia Ascii.
From stdpp Require Import base list gmap strings numbers sorting.
From S2P Require Import Prelude MachineInt RustStr Json Event AskWire AskTable AskWorld AskGate AskHead.
Local Open Scope Z_scope.

Definition KIND_ASK : Z := 44300.
Definition KIND_ASK_RESOLUTION : Z := 44301.
Definition KIND_ASK_WITHDRAWAL : Z := 44302.
Definition KIND_COMPANY_PROFILE : Z := 30179.
Definition DEFAULT_ASK_WINDOW_SECS : Z := 3600.

Inductive AskRefusal :=
| BadAskEvent (e : AskParseError)
| OwnersDoNotFile
| WorkersAskTheirLeader
| LeadersAskTheExecutive
| TheExecutiveAsksOwners
| NoSuchAsk
| NotAValidAsk
| NotTheirsToResolve
| AnswerRequired
| AskNotOpen
| NotTheirsToWithdraw.
#[export] Instance AskRefusal_eq_dec : EqDecision AskRefusal.
Proof. solve_decision. Defined.

Inductive AskBrokerOutcome :=
| Applied
| Duplicate (original : string)
| Refused (r : AskRefusal).
#[export] Instance AskBrokerOutcome_eq_dec : EqDecision AskBrokerOutcome.
Proof. solve_decision. Defined.

(** [is_ask_candidate]. *)
Definition is_ask_candidate (event : Event) : bool :=
  bool_decide (ev_kind event ∈ [KIND_ASK; KIND_ASK_RESOLUTION; KIND_ASK_WITHDRAWAL]).

(** [u64 as i64]. *)
Definition as_i64_cast (x : Z) : Z := if x <=? i64_max then x else x - 2 ^ 64.

(** The deadline [handle_ask] stamps. *)
Definition deadline_of (created window : Z) : Z :=
  as_i64_cast (saturating_add64 created (Z.min window MAX_ASK_WINDOW_SECS)).

(** The row [handle_ask] files. *)
Definition new_row (event : Event) (parsed : ParsedAsk) (audience filer : string)
    (origin prior : option string) (deadline : Z) : NewAskRow := {|
  new_ask_event_id := ev_id event; new_ask_type := ask_type parsed;
  new_initiative := initiative_id parsed; new_need := need_key parsed;
  new_audience := audience; new_filer := filer; new_origin := origin; new_prior := prior;
  new_category := category parsed; new_default := default_option parsed;
  new_deadline := Some deadline |}.

Section Broker.
Context `{JsonLib, NostrLib}.
(** [config.relay_private_key.is_some()], and the relay's key pair. *)
Context (durable : bool) (relay : Keys).

(** [decode_hex64]. *)
Definition decode_hex64 (v : option string) : Result (option string) AskError :=
  map_transpose (fun s => ok_or (hex_decode s) (Internal "a validated hex64 field failed to decode")) v.

(** [PublicKey::from_hex] on a field the parser validated. *)
Definition pubkey_of (s : string) : Result string AskError :=
  ok_or (from_hex s) (Internal "not a valid pubkey").

Definition is_relay_signed (event : Event) : bool :=
  durable && String.eqb (ev_pubkey event) (public_key relay).

(** [resolve_filer]. *)
Definition resolve_filer (event : Event) (parsed : ParsedAsk) : Result string AskError :=
  if negb (is_relay_signed event) then Ok (ev_pubkey event)
  else match filer_hex parsed with
       | Some hex => pubkey_of hex
       | None => Ok (ev_pubkey event)
       end.

(** [check_altitude]: the refusal, if any. *)
Definition check_altitude (community : string) (event : Event) (parsed : ParsedAsk)
    : M (option AskRefusal) :=
  if is_relay_signed event then ret None
  else
    let! signer := agent_tier community (ev_pubkey event) in
    match signer with
    | None => ret (Some OwnersDoNotFile)
    | Some tier =>
        let! audience := lift (pubkey_of (audience_hex parsed)) in
        match tier with
        | Worker =>
            let! above := agent_tier community audience in
            ret (if bool_decide (above = Some Leader) then None else Some WorkersAskTheirLeader)
        | Leader =>
            let! above := agent_tier community audience in
            ret (if bool_decide (above = Some Executive) then None else Some LeadersAskTheExecutive)
        | Executive =>
            let! owner := is_owner community (audience_hex parsed) in
            ret (if owner then None else Some TheExecutiveAsksOwners)
        end
    end.

(** [company_ask_window_secs]: the newest company profile the relay signed. *)
Definition company_ask_window_secs (community : string) : M Z :=
  let! rows := attempt (query (fun w => head (List.filter (fun r =>
    of_kind community KIND_COMPANY_PROFILE r
    && String.eqb (ev_pubkey (row_event r)) (public_key relay)) (head_rows (dir w))))) in
  ret (match rows with
       | Ok (Some row) =>
           match json_from_str (ev_content (row_event row)) with
           | Some content => default DEFAULT_ASK_WINDOW_SECS (jget content "ask_window_secs" ≫= as_u64)
           | None => DEFAULT_ASK_WINDOW_SECS
           end
       | _ => DEFAULT_ASK_WINDOW_SECS
       end).

(** [audience_altitude]: worker 0, leader 1, executive 2, owner 3. *)
Definition altitude_of (t : AgentTier) : Z :=
  match t with Worker => 0 | Leader => 1 | Executive => 2 end.
Definition audience_altitude (community audience : string) : M (option Z) :=
  let! owner := is_owner community audience in
  if owner then ret (Some 3)
  else
    let! pk := lift (pubkey_of audience) in
    let! tier := agent_tier community pk in
    ret (altitude_of <$> tier).

(** The withdrawal the relay signs, its reason given. *)
Definition sign_withdrawal (now : Z) (ask reason : string) : option Event :=
  sign_event relay KIND_ASK_WITHDRAWAL now [["e"%string; ask]]
    (json_to_string (json_object [("reason"%string, JString reason)])).

(** [close_superseded_prior]: standing, no stall ask, strictly higher. *)
Definition close_superseded_prior (community prior : string) (successor : Event) (parsed : ParsedAsk)
    (reason : string) : M unit :=
  if negb durable then ret tt
  else
    let! row := attempt (query (fun w => find_open_ask_by_event_id (community, prior) (asks w))) in
    match row with
    | Ok (Some row) =>
        if negb (String.eqb (audience_pubkey row) (ev_pubkey successor))
           || bool_decide (row_type row = Stall) then ret tt
        else
          let! prior_rank := attempt (audience_altitude community (audience_pubkey row)) in
          let! successor_rank := attempt (audience_altitude community (audience_hex parsed)) in
          match prior_rank, successor_rank with
          | Ok (Some low), Ok (Some high) =>
              if high <=? low then ret tt
              else
                let! now := read_clock in
                match sign_withdrawal now prior reason with
                | None => ret tt
                | Some withdrawal =>
                    let! moved := attempt (update (fun now =>
                      withdraw_ask now (community, prior) (ev_id withdrawal))) in
                    match moved with
                    | Ok true => let! _ := attempt (insert_event community withdrawal None) in ret tt
                    | _ => ret tt
                    end
                end
          | _, _ => ret tt
          end
    | _ => ret tt
    end.

(** Losing the race for the open slot: the winner's id. *)
Definition duplicate_of_winner (community : string) (parsed : ParsedAsk) : M AskBrokerOutcome :=
  let! winner := query (fun w =>
    find_open_ask_by_need community (initiative_id parsed) (need_key parsed) (asks w)) in
  match winner with
  | Some row => ret (Duplicate (ask_event_id row))
  | None => throw (Internal "lost an insert race but no open ask now exists for this need")
  end.

(** [handle_ask] after its checks: stamp a deadline and insert. *)
Definition file_ask (community : string) (event : Event) (parsed : ParsedAsk) (supersede_reason : string)
    : M AskBrokerOutcome :=
  let! window := (match default_window_secs parsed with
                  | Some secs => ret secs
                  | None => company_ask_window_secs community
                  end) in
  let deadline := deadline_of (ev_created_at event) window in
  let! audience := lift (pubkey_of (audience_hex parsed)) in
  let! origin := lift (decode_hex64 (origin_thread_hex parsed)) in
  let! prior := lift (decode_hex64 (prior_ask_hex parsed)) in
  let! filer := lift (resolve_filer event parsed) in
  let row := new_row event parsed audience filer origin prior deadline in
  let! inserted := attempt (db (fun w =>
    match insert_ask (clock w) community row (asks w) with
    | Ok t => (Ok tt, set_asks t w)
    | Err e => (Err e, w)
    end)) in
  match inserted with
  | Ok _ =>
      publish_head_for_new_ask relay community (ev_id event) deadline (audience_hex parsed)
        (default_option parsed) ;;
      match prior with
      | Some prior => close_superseded_prior community prior event parsed supersede_reason
      | None => ret tt
      end ;;
      ret Applied
  | Err (Db UniqueViolation) => duplicate_of_winner community parsed
  | Err e => throw e
  end.

(** [handle_ask]. *)
Definition handle_ask (community : string) (event : Event) (supersede_reason : string)
    : M AskBrokerOutcome :=
  match parse_ask event with
  | Err e => ret (Refused (BadAskEvent e))
  | Ok parsed =>
      let! refusal := check_altitude community event parsed in
      match refusal with
      | Some r => ret (Refused r)
      | None =>
          let! existing := query (fun w =>
            find_open_ask_by_need community (initiative_id parsed) (need_key parsed) (asks w)) in
          match existing with
          | Some row => ret (Duplicate (ask_event_id row))
          | None => file_ask community event parsed supersede_reason
          end
      end
  end.

(** ** Receipts *)

(** [emit_ask_receipt]: into a channel the ask was in, or the agent may post in. *)
Definition emit_ask_receipt (community origin content blocked : string) (ask_channel : option string)
    : M unit :=
  match hex_decode origin with
  | None => ret tt
  | Some id =>
      let! root := attempt (get_event_by_id community id) in
      match root with
      | Ok (Some root) =>
          match stored_channel root with
          | None => ret tt
          | Some channel =>
              let! legitimate :=
                (if bool_decide (ask_channel = Some channel) then ret true
                 else
                   let! may := attempt (check_channel_membership community channel blocked) in
                   ret (match may with Ok b => b | Err _ => false end)) in
              if negb legitimate then ret tt
              else
                let! now := read_clock in
                match sign_event relay KIND_STREAM_MESSAGE now
                        [["h"; channel]; ["e"; origin; ""; "root"]; ["p"; blocked]]%string content with
                | None => ret tt
                | Some event =>
                    let! _ := attempt (insert_event community event (Some channel)) in ret tt
                end
          end
      | _ => ret tt
      end
  end.

(** [wake_superseded_prior_filer]. *)
Definition wake_superseded_prior_filer (community : string) (successor : Event) (parsed : ParsedAsk)
    : M unit :=
  match prior_ask_hex parsed ≫= hex_decode with
  | None => ret tt
  | Some prior =>
      let! row := attempt (query (fun w => find_ask_by_event_id (community, prior) (asks w))) in
      match row with
      | Ok (Some row) =>
          if negb (bool_decide (ask_status row = SWithdrawn))
             || negb (String.eqb (audience_pubkey row) (ev_pubkey successor))
             || bool_decide (row_type row = Stall) then ret tt
          else
            match origin_thread row, from_hex (filer_pubkey row) with
            | Some origin, Some filer =>
                let already := match origin_thread_hex parsed, resolve_filer successor parsed with
                               | Some _, Ok primary => String.eqb primary filer
                               | _, _ => false
                               end in
                if already then ret tt
                else
                  let! stored := attempt (get_event_by_id community (ask_event_id row)) in
                  let channel := match stored with Ok (Some e) => stored_channel e | _ => None end in
                  emit_ask_receipt community origin
                    ("Ask resolved upstream: " +:+ headline parsed)%string filer channel
            | _, _ => ret tt
            end
      | _ => ret tt
      end
  end.

(** ** Resolutions *)

(** [resolution_signer_authorized]. *)
Definition resolution_signer_authorized (community signer audience : string) : M bool :=
  if String.eqb signer audience then ret true
  else
    let! audience_is_owner := is_owner community audience in
    if negb audience_is_owner then ret false else is_owner community signer.

(** The answer policy of [handle_resolution]. *)
Definition answer_missing (ask : ParsedAsk) (r : ParsedResolution) : bool :=
  bool_decide (ask_type ask = Decision \/ ask_type ask = Question) && is_null (answer r).

(** [handle_resolution]. *)
Definition handle_resolution (community : string) (event : Event) : M AskBrokerOutcome :=
  if negb durable then throw NoRelayKey
  else
    match parse_resolution event with
    | Err e => ret (Refused (BadAskEvent e))
    | Ok parsed =>
        let! id := lift (ok_or (hex_decode (resolution_ask_hex parsed))
                           (Internal "a validated hex64 field failed to decode")) in
        let! stored := get_event_by_id community id in
        match stored with
        | None => ret (Refused NoSuchAsk)
        | Some stored =>
            match parse_ask (stored_event stored) with
            | Err _ => ret (Refused NotAValidAsk)
            | Ok ask =>
                let! authorized :=
                  (if String.eqb (ev_pubkey event) (public_key relay) then ret true
                   else resolution_signer_authorized community (ev_pubkey event) (audience_hex ask)) in
                if negb authorized then ret (Refused NotTheirsToResolve)
                else if answer_missing ask parsed then ret (Refused AnswerRequired)
                else
                  let! flipped := update (fun now =>
                    resolve_ask now (community, id) (ev_id event) (ev_pubkey event)
                      (default_executed parsed)) in
                  if negb flipped then ret (Refused AskNotOpen)
                  else
                    publish_closed_head relay community id
                      (ClosureResolved (default_executed parsed) None) ;;
                    match origin_thread_hex ask with
                    | Some origin =>
                        let! blocked := lift (resolve_filer (stored_event stored) ask) in
                        emit_ask_receipt community origin ("Ask resolved: " +:+ headline ask)%string
                          blocked (stored_channel stored)
                    | None => ret tt
                    end ;;
                    wake_superseded_prior_filer community (stored_event stored) ask ;;
                    ret Applied
            end
        end
    end.

(** ** Withdrawals *)

(** [handle_withdrawal]. *)
Definition handle_withdrawal (community : string) (event : Event) : M AskBrokerOutcome :=
  if negb durable then throw NoRelayKey
  else
    match parse_withdrawal event with
    | Err e => ret (Refused (BadAskEvent e))
    | Ok parsed =>
        let! authorized :=
          (if String.eqb (ev_pubkey event) (public_key relay) then ret true
           else
             let! tier := agent_tier community (ev_pubkey event) in
             ret (bool_decide (tier = Some Executive))) in
        if negb authorized then ret (Refused NotTheirsToWithdraw)
        else
          let! id := lift (ok_or (hex_decode (withdrawal_ask_hex parsed))
                             (Internal "a validated hex64 field failed to decode")) in
          let! stored := get_event_by_id community id in
          match stored with
          | None => ret (Refused NoSuchAsk)
          | Some stored =>
              match parse_ask (stored_event stored) with
              | Err _ => ret (Refused NotAValidAsk)
              | Ok ask =>
                  let! withdrawn := update (fun now => withdraw_ask now (community, id) (ev_id event)) in
                  if negb withdrawn then ret (Refused AskNotOpen)
                  else
                    publish_closed_head relay community id ClosureWithdrawn ;;
                    match origin_thread_hex ask with
                    | Some origin =>
                        let! blocked := lift (resolve_filer (stored_event stored) ask) in
                        emit_ask_receipt community origin ("Ask withdrawn: " +:+ reason parsed)%string
                          blocked (stored_channel stored)
                    | None => ret tt
                    end ;;
                    ret Applied
              end
          end
    end.

(** [handle_ask_event]. *)
Definition handle_ask_event (community : string) (event : Event) (supersede_reason : string)
    : M AskBrokerOutcome :=
  if ev_kind event =? KIND_ASK then handle_ask community event supersede_reason
  else if ev_kind event =? KIND_ASK_RESOLUTION then handle_resolution community event
  else if ev_kind event =? KIND_ASK_WITHDRAWAL then handle_withdrawal community event
  else throw (Internal "event is not an ask-protocol kind").

(** ** An owner's reply in the thread *)

(** [wake_filer_after_auto_resolve]. *)
Definition wake_filer_after_auto_resolve (community : string) (row : AskRow) (thread : string) : M unit :=
  match from_hex (filer_pubkey row) with
  | None => ret tt
  | Some filer =>
      let! stored := attempt (get_event_by_id community (ask_event_id row)) in
      match stored with
      | Ok (Some stored) =>
          let title := match parse_ask (stored_event stored) with
                       | Ok ask => headline ask
                       | Err _ => EmptyString
                       end in
          emit_ask_receipt community thread ("Ask resolved: " +:+ title)%string filer
            (stored_channel stored)
      | _ => ret tt
      end
  end.

(** [try_resolve_one_candidate]. *)
Definition try_resolve_one_candidate (community : string) (event : Event) (thread : string)
    (row : AskRow) : M unit :=
  let! audience_is_owner := is_owner community (audience_pubkey row) in
  if negb audience_is_owner then ret tt
  else
    let! flipped := update (fun now =>
      resolve_ask now (community, ask_event_id row) (ev_id event) (ev_pubkey event) false) in
    if negb flipped then ret tt
    else
      publish_closed_head relay community (ask_event_id row) (ClosureResolved false None) ;;
      wake_filer_after_auto_resolve community row thread.

(** [try_auto_resolve_from_reply]. *)
Definition try_auto_resolve_from_reply (community : string) (event : Event) : M unit :=
  if negb (bool_decide (ev_kind event ∈ [KIND_STREAM_MESSAGE; KIND_STREAM_MESSAGE_V2])) then ret tt
  else
    let! signer_is_owner := is_owner community (ev_pubkey event) in
    if negb signer_is_owner then ret tt
    else
      match extract_thread_root event with
      | None => ret tt
      | Some thread =>
          let! candidates := query (fun w => find_open_asks_by_thread community thread (asks w)) in
          for_each (fun row =>
            let! _ := attempt (try_resolve_one_candidate community event thread row) in ret tt)
            candidates
      end.
End Broker.
