(* ===== verification/AskSweep.v ===== *)
(** * The interrupt and stall sweeps

    The timers of [crates/buzz-relay/src/interrupt_runtime.rs]: a due ask is
    answered with its default, promoted one rung, or re-armed; a silent Task
    gets a stall ask; a promotion a crash cut short is reopened. *)

From Stdlib Require Import ZArith Lia Ascii.
From stdpp Require Import base list gmap strings numbers sorting.
From S2P Require Import Prelude MachineInt RustStr Json Event AskWire AskTable AskWorld AskGate AskHead AskBroker.
Local Open Scope Z_scope.

Definition MIN_REDEADLINE_WINDOW_SECS : Z := 60.
Definition MAX_STALL_CANDIDATES : nat := 500.
Definition MAX_ORPHANED_PROMOTIONS : nat := 100.
Definition DEFAULT_STALL_AFTER_SECS : Z := 6 * 60 * 60.

(** [i64::saturating_add], [saturating_sub]. *)
Definition clamp_i64 (x : Z) : Z := Z.max i64_min (Z.min i64_max x).

(** What became of one due ask ([InterruptTickStats] counts the first two). *)
Inductive DueOutcome := Promoted | DefaultExecuted | Nothing.
#[export] Instance DueOutcome_eq_dec : EqDecision DueOutcome.
Proof. solve_decision. Defined.

Record InterruptTickStats := { promoted : Z; defaults_executed : Z }.
Definition count_outcome (stats : InterruptTickStats) (o : DueOutcome) : InterruptTickStats :=
  match o with
  | Promoted => {| promoted := promoted stats + 1; defaults_executed := defaults_executed stats |}
  | DefaultExecuted =>
      {| promoted := promoted stats; defaults_executed := defaults_executed stats + 1 |}
  | Nothing => stats
  end.

(** The columns of a Task head the stall sweep reads; [None] is unreadable. *)
Record StallTask := {
  task : string;
  task_title : string;
  task_channel : option string;
  assignee_persona_ids : list string;
  qa_persona_id : option string;
  task_initiative : option string;
}.
Record StallCandidate := {
  candidate_community : string;
  candidate_task : option StallTask;
  task_head_created_at : Z;
}.

Section Sweep.
Context `{JsonLib, NostrLib}.
Context (durable : bool) (relay : Keys).
(** The reason of a ghost's withdrawal, the hash of a Task id, and the texts of
    a stall ask. *)
Context (ghost_reason supersede_reason : string) (sha256_16 : string -> string).
Context (stall_headline : string -> string) (stall_cost : Z -> string).

(** The window a re-armed ask gets: its deadline less its creation. *)
Definition rearm_window (row : AskRow) (original : Z) : Z :=
  Z.max (original - ask_created_at row) MIN_REDEADLINE_WINDOW_SECS.

(** [redeadline]. *)
Definition redeadline (row : AskRow) (now : Z) : M unit :=
  let! original := lift (ok_or (deadline_at row) (Internal "a due ask row has no deadline")) in
  let fresh := clamp_i64 (now + rearm_window row original) in
  let! _ := update (fun clock => extend_ask_deadline clock (community_id row, ask_event_id row) fresh) in
  publish_rearmed_head relay row fresh now.

(** [execute_default]. *)
Definition execute_default (row : AskRow) (stored : StoredEvent) (option : string) : M DueOutcome :=
  let community := community_id row in
  let id := ask_event_id row in
  let! ask := lift (map_err StoredAskInvalid (parse_ask (stored_event stored))) in
  let! now := read_clock in
  let content := json_to_string (json_object
    [("answer", json_object [("option", JString option)]); ("default_executed", JBool true)]%string) in
  let! resolution := lift (ok_or (sign_event relay KIND_ASK_RESOLUTION now [["e"%string; id]] content)
                             SigningFailed) in
  let! flipped := update (fun now =>
    resolve_ask now (community, id) (ev_id resolution) (public_key relay) true) in
  if negb flipped then ret Nothing
  else
    publish_closed_head relay community id (ClosureResolved true (Some option)) ;;
    let! _ := attempt (insert_event community resolution None) in
    match origin_thread row with
    | Some origin =>
        let! filer := lift (pubkey_of (filer_pubkey row)) in
        emit_ask_receipt relay community origin
          ("Default executed: " +:+ headline ask +:+ " -> " +:+ option)%string filer
          (stored_channel stored)
    | None => ret tt
    end ;;
    ret DefaultExecuted.

(** [reopen_after_promotion_failure]. *)
Definition reopen_after_promotion_failure (row : AskRow) (successor : string) : M unit :=
  let! _ := attempt (db (fun w =>
    match reopen_promoted_ask (clock w) (community_id row, ask_event_id row) successor (asks w) with
    | Ok (moved, t) => (Ok moved, set_asks t w)
    | Err e => (Err e, w)
    end)) in
  ret tt.

(** The tags of a promoted ask: re-addressed, its provenance kept. *)
Definition kept_tag (parts : list string) : bool :=
  negb (named "p" parts || named "prior" parts || named "filer" parts).
Definition promoted_tags (stored : Event) (target filer : string) : list (list string) :=
  List.filter kept_tag (ev_tags stored)
  ++ [["p"; target]; ["prior"; ev_id stored]; ["filer"; filer]]%string.

(** [promote_to]. *)
Definition promote_to (row : AskRow) (stored : StoredEvent) (target : string) : M DueOutcome :=
  let community := community_id row in
  let! filer := lift (pubkey_of (filer_pubkey row)) in
  let! now := read_clock in
  let! successor := lift (ok_or
    (sign_event relay KIND_ASK now (promoted_tags (stored_event stored) target filer)
       (ev_content (stored_event stored))) SigningFailed) in
  let! claimed := update (fun now =>
    mark_ask_promoted now (community, ask_event_id row) (ev_id successor)) in
  if negb claimed then ret Nothing
  else
    publish_closed_head relay community (ask_event_id row) (ClosurePromoted (ev_id successor)) ;;
    let! outcome := attempt (handle_ask_event durable relay community successor supersede_reason) in
    match outcome with
    | Err e => reopen_after_promotion_failure row (ev_id successor) ;; throw e
    | Ok (Refused _) => reopen_after_promotion_failure row (ev_id successor) ;; throw PromotionRefused
    | Ok (Duplicate _) => ret Nothing
    | Ok Applied =>
        let! _ := attempt (insert_event community successor (stored_channel stored)) in
        ret Promoted
    end.

(** [promote_or_redeadline]. *)
Definition promote_or_redeadline (row : AskRow) (stored : StoredEvent) (now : Z) : M DueOutcome :=
  let community := community_id row in
  let! audience := lift (pubkey_of (audience_pubkey row)) in
  let! tier := agent_tier community audience in
  let! target := (match tier with
                  | Some Leader => find_unique_executive community
                  | Some Executive => find_unique_owner community
                  | Some Worker | None => ret None
                  end) in
  match target with
  | Some target => promote_to row stored target
  | None => redeadline row now ;; ret Nothing
  end.

(** [close_ask_with_no_backing_event]. *)
Definition close_ask_with_no_backing_event (row : AskRow) : M unit :=
  let community := community_id row in
  let! now := read_clock in
  let! withdrawal := lift (ok_or (sign_withdrawal relay now (ask_event_id row) ghost_reason)
                             SigningFailed) in
  let! withdrawn := update (fun now =>
    withdraw_ask now (community, ask_event_id row) (ev_id withdrawal)) in
  if negb withdrawn then ret tt
  else
    publish_closed_head relay community (ask_event_id row) ClosureWithdrawn ;;
    let! _ := attempt (insert_event community withdrawal None) in
    ret tt.

(** [process_due_ask]. *)
Definition process_due_ask (now : Z) (row : AskRow) : M DueOutcome :=
  let community := community_id row in
  let! host := lookup_community_host community in
  match host with
  | None => redeadline row now ;; ret Nothing
  | Some _ =>
      let! stored := get_event_by_id community (ask_event_id row) in
      match stored with
      | None =>
          let! _ := attempt (close_ask_with_no_backing_event row) in
          throw NoBackingEvent
      | Some stored =>
          let! owner := is_owner community (audience_pubkey row) in
          if owner then
            match row_default row with
            | Some option => execute_default row stored option
            | None => redeadline row now ;; ret Nothing
            end
          else promote_or_redeadline row stored now
      end
  end.

(** The loop of [run_interrupt_tick]: a failing row stops no other. *)
Fixpoint process_due_asks (now : Z) (stats : InterruptTickStats) (due : list AskRow)
    : M InterruptTickStats :=
  match due with
  | [] => ret stats
  | row :: rest =>
      let! outcome := attempt (process_due_ask now row) in
      process_due_asks now
        (match outcome with Ok o => count_outcome stats o | Err _ => stats end) rest
  end.

(** [run_interrupt_tick]. *)
Definition run_interrupt_tick (now : Z) (batch_limit : nat) : M InterruptTickStats :=
  if negb durable then throw NoRelayKey
  else
    let! due := query (fun w => query_due_asks now batch_limit (asks w)) in
    process_due_asks now {| promoted := 0; defaults_executed := 0 |} due.

(** ** Stalls *)

(** [stall_need_key]. *)
Definition stall_need_key (task : string) : string := ("stall-" +:+ sha256_16 task)%string.

(** [reopen_orphaned_promotions]. *)
Definition reopen_orphaned_promotions (now stall_after : Z) : M unit :=
  let! orphans := attempt (query (fun w =>
    query_orphaned_promoted_asks (clamp_i64 (now - stall_after)) MAX_ORPHANED_PROMOTIONS (asks w))) in
  match orphans with
  | Err _ => ret tt
  | Ok orphans =>
      for_each (fun row =>
        match resolution_event row with
        | None => ret tt
        | Some successor => reopen_after_promotion_failure row successor
        end) orphans
  end.

(** The newest activity the sweep knows of: the assignees' own events, or the
    channel's when no assignee resolves. *)
Fixpoint authored_activity (community : string) (pubkeys : list string) : M (list Z) :=
  match pubkeys with
  | [] => ret []
  | pk :: rest =>
      let! last := query (fun w => last_authored_at (dir w) !! (community, pk)) in
      let! others := authored_activity community rest in
      ret (match last with Some t => t :: others | None => others end)
  end.
Definition task_activity (community channel : string) (assignees : list string) : M (list Z) :=
  if bool_decide (assignees = []) then
    let! last := query (fun w => last_message_at (dir w) !! (community, channel)) in
    ret (match last with Some t => [t] | None => [] end)
  else authored_activity community assignees.

(** [iter.max()] with the head's own time. *)
Definition last_activity (head_created : Z) (activity : list Z) : Z := foldr Z.max head_created activity.

(** The stall ask: its tags and its content. *)
Definition stall_tags (audience initiative need task : string) : list (list string) :=
  [["ask-type"; ask_type_as_str Stall]; ["p"; audience]; ["initiative"; initiative];
   ["need"; need]; ["task"; task]]%string.
Definition stall_content (t : StallTask) (silent : Z) : string :=
  json_to_string (json_object [("headline", JString (stall_headline (task_title t)));
                               ("cost_of_delay", JString (stall_cost silent))]%string).

(** The audience of a stall ask: the QA persona's agent, else the executive. *)
Definition stall_audience (t : StallTask) (roster : Roster) (payroll : Payroll) : option string :=
  match qa_persona_id t ≫= persona_pubkey_in_roster roster with
  | Some pk => Some pk
  | None => unique_executive_in_roster roster payroll
  end.

(** [process_stall_candidate] on a readable Task, the roster at hand. *)
Definition file_stall (now stall_after : Z) (candidate : StallCandidate) (t : StallTask)
    (channel : string) (roster : Roster) (payroll : Payroll) : M bool :=
  let community := candidate_community candidate in
  let assignees := filter_map (persona_pubkey_in_roster roster) (assignee_persona_ids t) in
  let! activity := task_activity community channel assignees in
  let active := last_activity (task_head_created_at candidate) activity in
  let silent := clamp_i64 (now - active) in
  if silent <? stall_after then ret false
  else
    let need := stall_need_key (task t) in
    let initiative := default NO_INITIATIVE (task_initiative t) in
    let! closed := query (fun w => find_latest_closed_ask_by_need community initiative need (asks w)) in
    if match closed with Some r => active <=? ask_updated_at r | None => false end then ret false
    else
      match stall_audience t roster payroll with
      | None => ret false
      | Some audience =>
          let! created := read_clock in
          let! event := lift (ok_or (sign_event relay KIND_ASK created
                                       (stall_tags audience initiative need (task t))
                                       (stall_content t silent)) SigningFailed) in
          let! outcome := handle_ask_event durable relay community event supersede_reason in
          match outcome with
          | Duplicate _ => ret false
          | Refused _ => throw StallRefused
          | Applied => let! _ := attempt (insert_event community event None) in ret true
          end
      end.

(** The two per-pass caches: a community's payroll, and its roster. *)
Definition Cache : Type := gmap string (Payroll * option Roster).
Definition cached (community : string) (cache : Cache)
    : M (Cache * Result (Payroll * Roster) AskError) :=
  let! entry := (match cache !! community with
                 | Some entry => ret (Ok entry)
                 | None => attempt (let! payroll := active_payroll community in ret (payroll, None))
                 end) in
  match entry with
  | Err e => ret (cache, Err e)
  | Ok (payroll, Some roster) => ret (cache, Ok (payroll, roster))
  | Ok (payroll, None) =>
      let! roster := attempt (fetch_role_holder_roster community payroll MAX_ROSTER_HEADS) in
      match roster with
      | Err e => ret (<[community := (payroll, None)]> cache, Err e)
      | Ok roster => ret (<[community := (payroll, Some roster)]> cache, Ok (payroll, roster))
      end
  end.

(** [process_stall_candidate], with the caches it leaves. *)
Definition process_stall_candidate (now stall_after : Z) (cache : Cache) (candidate : StallCandidate)
    : M (Cache * Result bool AskError) :=
  match candidate_task candidate with
  | None => ret (cache, Ok false)
  | Some t =>
      match task_channel t with
      | None => ret (cache, Ok false)
      | Some channel =>
          let! (cache, entry) := cached (candidate_community candidate) cache in
          match entry with
          | Err e => ret (cache, Err e)
          | Ok (payroll, roster) =>
              let! filed := attempt (file_stall now stall_after candidate t channel roster payroll) in
              ret (cache, filed)
          end
      end
  end.

Fixpoint process_stall_candidates (now stall_after : Z) (cache : Cache) (filed : Z)
    (l : list StallCandidate) : M Z :=
  match l with
  | [] => ret filed
  | c :: rest =>
      let! (cache, result) := process_stall_candidate now stall_after cache c in
      process_stall_candidates now stall_after cache
        (match result with Ok true => filed + 1 | _ => filed end) rest
  end.

(** [run_stall_tick]; [candidates] is [query_in_progress_task_heads]. *)
Definition run_stall_tick (now stall_after : Z) (candidates : list StallCandidate) : M Z :=
  if negb durable then throw NoRelayKey
  else
    reopen_orphaned_promotions now stall_after ;;
    let! candidates := query (fun _ => take MAX_STALL_CANDIDATES candidates) in
    process_stall_candidates now stall_after ∅ 0 candidates.
End Sweep.
