(* ===== verification/AskSafety.v ===== *)
(** * Every handler is safe

    Filing, answering, withdrawing, the owner's reply and both sweeps keep the
    asks table well formed, in any weather, whether they succeed, refuse or
    fail half way. The reachable worlds are the rule induction over them. *)

From Stdlib Require Import ZArith Lia Ascii.
From stdpp Require Import base list gmap strings numbers sorting.
From S2P Require Import Prelude MachineInt RustStr Json Event AskWire AskTable AskWorld AskGate AskHead AskBroker AskSweep.
Local Open Scope Z_scope.

Lemma safe_reads {A} (m : M A) f : reads m f -> safe m.
Proof. apply rd_safe. Qed.

Section Safety.
Context `{JsonLib, NostrLib}.
Context (durable : bool) (relay : Keys).
Context (ghost_reason supersede_reason : string) (sha256_16 : string -> string).
Context (stall_headline : string -> string) (stall_cost : Z -> string).

(** ** What the parser lets through *)

(** A parsed ask has a default only where one is allowed, among its options. *)
Lemma parse_ask_default event p :
  parse_ask event = Ok p ->
  may_default (ask_type p) (category p) (default_option p)
  /\ forall o, default_option p = Some o ->
     exists content, json_from_str (ev_content event) = Some content
                     /\ has_matching_option content o = true.
Proof.
  intros Hp. unfold parse_ask in Hp. inv_bind. cbn in *. unfold parse_content in *.
  destruct (json_from_str (ev_content event)) as [content|]; [|done]. simplify_eq/=.
  destruct (get_str _ "default_option") as [o|]; [|by split; intros ? ?].
  unfold check_default in *. inv_bind. rewrite bool_decide_eq_false in *. split.
  - intros o' _. split; [done|]. intros c ->. destruct (is_hard_list_category c); [done|done].
  - intros o' [= <-]. eexists. split; [done|]. by destruct (has_matching_option _ _).
Qed.

Lemma new_row_policy event p a f o pr d :
  parse_ask event = Ok p -> new_policy (new_row event p a f o pr d).
Proof. intros Hp. apply (parse_ask_default _ _ Hp). Qed.

(** ** Parts that only read *)

Lemma safe_tier c pk : safe (agent_tier c pk).
Proof. eapply safe_reads, reads_tier. Qed.
Lemma safe_owner c pk : safe (is_owner c pk).
Proof. eapply safe_reads, reads_owner. Qed.
Lemma safe_event c id : safe (get_event_by_id c id).
Proof. eapply safe_reads, reads_event. Qed.
Lemma safe_heads c k d n : safe (query_heads c k d n).
Proof. apply safe_query. Qed.
#[local] Hint Resolve safe_tier safe_owner safe_event safe_heads : safe.

Lemma safe_provisioned c l : safe (provisioned_heads c l).
Proof. induction l; cbn; safe_auto. Qed.
#[local] Hint Resolve safe_provisioned : safe.

Lemma safe_executive c : safe (find_unique_executive c).
Proof. unfold find_unique_executive, active_payroll, list_active_employees, fetch_role_holder_roster,
  fetch_owner_authored, query_latest_owner_authored_heads. safe_auto. Qed.
Lemma safe_one_owner c : safe (find_unique_owner c).
Proof. unfold find_unique_owner, list_relay_owners. safe_auto. Qed.
Lemma safe_membership c ch pk : safe (check_channel_membership c ch pk).
Proof. unfold check_channel_membership. safe_auto. Qed.
#[local] Hint Resolve safe_executive safe_one_owner safe_membership : safe.

Lemma safe_predict c a d : safe (predict_expiry_outcome c a d).
Proof. unfold predict_expiry_outcome. safe_auto. Qed.
#[local] Hint Resolve safe_predict : safe.

(** ** Heads and receipts *)

Lemma safe_replace c d e : safe (replace_parameterized_event c d e).
Proof.
  apply safe_db. intros w Hw. cbn. destruct (match _ with Some _ => _ | None => _ end); [|by split].
  destruct Hw. split; [by split|]. by split.
Qed.
#[local] Hint Resolve safe_replace : safe.

Lemma safe_head c id content : safe (sign_store_and_fan_out_head relay c id content).
Proof. unfold sign_store_and_fan_out_head. safe_auto. Qed.
#[local] Hint Resolve safe_head : safe.

Lemma safe_new_head c id d a o : safe (publish_head_for_new_ask relay c id d a o).
Proof. unfold publish_head_for_new_ask. safe_auto. Qed.
Lemma safe_rearmed_head row d r : safe (publish_rearmed_head relay row d r).
Proof. unfold publish_rearmed_head, lookup_community_host. safe_auto. Qed.
Lemma safe_closed_head c id cl : safe (publish_closed_head relay c id cl).
Proof. unfold publish_closed_head. safe_auto. Qed.
Lemma safe_receipt c o ct b ch : safe (emit_ask_receipt relay c o ct b ch).
Proof. unfold emit_ask_receipt. safe_auto. Qed.
#[local] Hint Resolve safe_new_head safe_rearmed_head safe_closed_head safe_receipt : safe.

(** ** The broker *)

Lemma safe_insert_row c row :
  new_policy row ->
  safe (db (fun w => match insert_ask (clock w) c row (asks w) with
                     | Ok t => (Ok tt, set_asks t w)
                     | Err e => (Err e, w)
                     end)).
Proof.
  intros Hp. apply safe_db. intros w [Ha Hw]. destruct (insert_ask _ _ _ _) as [t|e] eqn:E; [|done].
  destruct (insert_ask_ok _ _ _ _ _ Hp Ha E) as [H1 H2]. split; by split.
Qed.

Lemma safe_altitude c a : safe (audience_altitude c a).
Proof. unfold audience_altitude. safe_auto. Qed.
#[local] Hint Resolve safe_altitude : safe.

Lemma safe_superseded c prior e p r : safe (close_superseded_prior durable relay c prior e p r).
Proof. unfold close_superseded_prior. safe_auto. Qed.
Lemma safe_window c : safe (company_ask_window_secs relay c).
Proof. unfold company_ask_window_secs. safe_auto. Qed.
Lemma safe_check_altitude c e p : safe (check_altitude durable relay c e p).
Proof. unfold check_altitude. safe_auto. Qed.
Lemma safe_winner c p : safe (duplicate_of_winner c p).
Proof. unfold duplicate_of_winner. safe_auto. Qed.
#[local] Hint Resolve safe_superseded safe_window safe_check_altitude safe_winner : safe.

Lemma safe_file c e p r : parse_ask e = Ok p -> safe (file_ask durable relay c e p r).
Proof.
  intros Hp. unfold file_ask.
  pose proof (fun a f o pr d => safe_insert_row c _ (new_row_policy _ _ a f o pr d Hp)). safe_auto.
Qed.

Lemma safe_handle_ask c e r : safe (handle_ask durable relay c e r).
Proof.
  unfold handle_ask. destruct (parse_ask e) eqn:Hp; [|apply safe_ret].
  pose proof safe_file. safe_auto.
Qed.
Lemma safe_wake c e p : safe (wake_superseded_prior_filer durable relay c e p).
Proof. unfold wake_superseded_prior_filer. safe_auto. Qed.
Lemma safe_authorized c s a : safe (resolution_signer_authorized c s a).
Proof. unfold resolution_signer_authorized. safe_auto. Qed.
#[local] Hint Resolve safe_handle_ask safe_wake safe_authorized : safe.

Lemma safe_handle_resolution c e : safe (handle_resolution durable relay c e).
Proof. unfold handle_resolution. safe_auto. Qed.
Lemma safe_handle_withdrawal c e : safe (handle_withdrawal durable relay c e).
Proof. unfold handle_withdrawal. safe_auto. Qed.
#[local] Hint Resolve safe_handle_resolution safe_handle_withdrawal : safe.
Lemma safe_handle_ask_event c e r : safe (handle_ask_event durable relay c e r).
Proof. unfold handle_ask_event. safe_auto. Qed.
#[local] Hint Resolve safe_handle_ask_event : safe.

Lemma safe_try_one c e t row : safe (try_resolve_one_candidate relay c e t row).
Proof. unfold try_resolve_one_candidate, wake_filer_after_auto_resolve. safe_auto. Qed.
#[local] Hint Resolve safe_try_one : safe.
Lemma safe_auto_resolve c e : safe (try_auto_resolve_from_reply relay c e).
Proof. unfold try_auto_resolve_from_reply. safe_auto. Qed.

(** ** The sweeps *)

Lemma safe_redeadline row now : safe (redeadline relay row now).
Proof. unfold redeadline. safe_auto. Qed.
Lemma safe_execute row s o : safe (execute_default relay row s o).
Proof. unfold execute_default. safe_auto. Qed.
Lemma safe_reopen row s : safe (reopen_after_promotion_failure row s).
Proof.
  unfold reopen_after_promotion_failure. apply safe_bind; [apply safe_attempt, safe_db|intros; apply safe_ret].
  intros w [Ha Hw]. destruct (reopen_promoted_ask _ _ _ _) as [[b t]|e] eqn:E; [|done].
  destruct (reopen_ok _ _ _ _ _ _ Ha E). split; by split.
Qed.
#[local] Hint Resolve safe_redeadline safe_execute safe_reopen : safe.
Lemma safe_promote_to row s t : safe (promote_to durable relay supersede_reason row s t).
Proof. unfold promote_to. safe_auto. Qed.
#[local] Hint Resolve safe_promote_to : safe.
Lemma safe_promote_or row s now : safe (promote_or_redeadline durable relay supersede_reason row s now).
Proof. unfold promote_or_redeadline. safe_auto. Qed.
Lemma safe_ghost row : safe (close_ask_with_no_backing_event relay ghost_reason row).
Proof. unfold close_ask_with_no_backing_event. safe_auto. Qed.
#[local] Hint Resolve safe_promote_or safe_ghost : safe.
Lemma safe_due now row : safe (process_due_ask durable relay ghost_reason supersede_reason now row).
Proof. unfold process_due_ask, lookup_community_host. safe_auto. Qed.
#[local] Hint Resolve safe_due : safe.
Lemma safe_dues now st l : safe (process_due_asks durable relay ghost_reason supersede_reason now st l).
Proof. revert st. induction l; intros st; cbn; safe_auto. Qed.
#[local] Hint Resolve safe_dues : safe.
Lemma safe_tick now n : safe (run_interrupt_tick durable relay ghost_reason supersede_reason now n).
Proof. unfold run_interrupt_tick. safe_auto. Qed.

Lemma safe_activity c ch l : safe (task_activity c ch l).
Proof.
  assert (forall pks, safe (authored_activity c pks)) as Ha by (intros pks; induction pks; cbn; safe_auto).
  unfold task_activity. safe_auto.
Qed.
#[local] Hint Resolve safe_activity : safe.
Lemma safe_stall now sa c t ch ro pa :
  safe (file_stall durable relay supersede_reason sha256_16 stall_headline stall_cost now sa c t ch ro pa).
Proof. unfold file_stall. safe_auto. Qed.
Lemma safe_cached c cache : safe (cached c cache).
Proof. unfold cached, active_payroll, list_active_employees, fetch_role_holder_roster,
  fetch_owner_authored, query_latest_owner_authored_heads. safe_auto. Qed.
#[local] Hint Resolve safe_stall safe_cached : safe.
Lemma safe_candidates now sa cache n l :
  safe (process_stall_candidates durable relay supersede_reason sha256_16 stall_headline stall_cost
          now sa cache n l).
Proof.
  revert cache n. induction l as [|c l IH]; intros cache n; cbn; [apply safe_ret|].
  unfold process_stall_candidate. safe_auto.
Qed.
#[local] Hint Resolve safe_candidates : safe.
Lemma safe_stall_tick now sa l :
  safe (run_stall_tick durable relay supersede_reason sha256_16 stall_headline stall_cost now sa l).
Proof. unfold run_stall_tick, reopen_orphaned_promotions. safe_auto. Qed.

(** ** Runs *)

(** The entry points. *)
Inductive entry : forall A, M A -> Prop :=
| entry_event c e r : entry _ (handle_ask_event durable relay c e r)
| entry_reply c e : entry _ (try_auto_resolve_from_reply relay c e)
| entry_tick now n : entry _ (run_interrupt_tick durable relay ghost_reason supersede_reason now n)
| entry_stall now sa l :
    entry _ (run_stall_tick durable relay supersede_reason sha256_16 stall_headline stall_cost now sa l).

(** A handler runs; or the members, the events, the clock and the weather to
    come change, the table as other processes leave it. *)
Inductive ask_step (w : World) : World -> Prop :=
| step_entry A (m : M A) : entry A m -> ask_step w (snd (m w))
| step_outside d ev hd wt cl stmts :
    weather_ok wt -> Forall stmt_ok stmts ->
    ask_step w {| asks := run_stmts stmts (asks w); events := ev; ask_heads := hd; dir := d;
                  weather := wt; clock := cl |}.

Lemma entry_safe A (m : M A) : entry A m -> safe m.
Proof.
  destruct 1; [apply safe_handle_ask_event|apply safe_auto_resolve|apply safe_tick|apply safe_stall_tick].
Qed.

Lemma step_grows w w' : Inv w -> ask_step w w' -> Inv w' /\ grows (asks w) (asks w').
Proof.
  intros Hi [A m Hm|d ev hd wt cl stmts Hw Hs]; cbn.
  - destruct (entry_safe _ _ Hm w Hi) as [H1 [H2 _ _]]. done.
  - destruct Hi as [Ha _]. destruct (run_stmts_ok _ _ Hs Ha). split; [by split|done].
Qed.

Lemma steps_grow w w' : Inv w -> rtc ask_step w w' -> Inv w' /\ grows (asks w) (asks w').
Proof.
  intros Hi Hr. induction Hr as [w|w1 w2 w3 H1 _ IH]; [by split|].
  destruct (step_grows _ _ Hi H1) as [Hi2 Hg]. destruct (IH Hi2). split; [done|]. by etrans.
Qed.

(** A table with no ask yet. *)
Definition empty_relay (w : World) : Prop := asks w = ∅ /\ weather_ok (weather w).
Lemma empty_inv w : empty_relay w -> Inv w.
Proof. intros [He Hw]. split; [rewrite He; apply wf_empty|done]. Qed.
End Safety.
