(* ===== verification/AskAuthority.v ===== *)
(** * Authority

    What the gates decide, said without the code: whom an agent below the
    executive may message, which decisions a leader may log as its own, who
    manages whom, and who the one executive is. *)

From Stdlib Require Import ZArith Lia Ascii.
From stdpp Require Import base list gmap strings numbers sorting.
From S2P Require Import Prelude MachineInt RustStr Json Event AskWire AskTable AskWorld AskGate.
Local Open Scope Z_scope.

Section Authority.
Context `{JsonLib, NostrLib}.

(** ** The owner-contact gate *)

(** Tagging an owner: in a thread the owner wrote in, and by no direct message. *)
Definition contact_allowed (s : Snap) (c : string) (event : Event) (agent : string) : Prop :=
  is_gated_kind (ev_kind event) = true ->
  (exists tier, tier_in (fst s) c agent = Some tier /\ tier <> Executive) ->
  forall owner, owner ∈ extract_p_tags event -> owner_in (fst s) c owner = true ->
  is_direct_contact_kind (ev_kind event) = false
  /\ exists root o, extract_thread_root event = Some root /\ hex_decode owner = Some o
     /\ thread_permits_in s c root o agent = true.

Lemma readonly_targets c l : readonly (owner_targets c l).
Proof. induction l; cbn; readonly_auto. Qed.
Lemma readonly_permit c root a t l : readonly (all_permit c root a t l).
Proof. induction l; cbn; readonly_auto. Qed.
#[local] Hint Resolve readonly_targets readonly_permit : readers.
Lemma readonly_contact c e pk : readonly (enforce_owner_contact c e pk).
Proof. unfold enforce_owner_contact. readonly_auto. Qed.

(** The owners among the targets, decoded; [None] when one is no hex. *)
Definition owners_of (d : Directory) (c : string) (targets : list string) : list string :=
  List.filter (owner_in d c) targets.
Definition targets_in (d : Directory) (c : string) (targets : list string)
    : Result (list string) AskError :=
  try_map (fun t => ok_or (hex_decode t) (Internal "stored member pubkey is not valid hex"))
    (owners_of d c targets).

Lemma calm_targets c l w :
  weather w = [] -> owner_targets c l w = (targets_in (dir w) c l, w).
Proof.
  intros Hw. induction l as [|t l IH]; cbn; [done|]. unfold targets_in in *. cbn. calm_step Hw. cbn.
  destruct (owner_in (dir w) c t); [|done]. cbn. unfold bind, lift.
  destruct (hex_decode t); cbn; [|done]. rewrite IH. by destruct (try_map _ _).
Qed.

Lemma calm_permit c root a t l w :
  weather w = [] ->
  all_permit c root a t l w =
  (if forallb (fun o => thread_permits_in (snap w) c root o a) l then Ok tt
   else Err (OwnerContactDenied t), w).
Proof.
  intros Hw. induction l as [|o l IH]; cbn; [done|]. calm_step Hw. cbv beta.
  destruct (thread_permits_in _ _ _ _ _); cbn; [|done]. by rewrite IH.
Qed.

Lemma owner_in_elem d c l o : o ∈ owners_of d c l <-> o ∈ l /\ owner_in d c o = true.
Proof. apply elem_of_filterb. Qed.

Lemma permits_all s c root a l os :
  try_map (fun t => ok_or (hex_decode t) (Internal "stored member pubkey is not valid hex")) l = Ok os ->
  forallb (fun o => thread_permits_in s c root o a) os = true <->
  forall o, o ∈ l -> exists b, hex_decode o = Some b /\ thread_permits_in s c root b a = true.
Proof.
  rewrite try_map_ok. intros HF. induction HF as [|x y l os Hx HF IH]; cbn.
  - split; [by intros _ o ?%not_elem_of_nil|done].
  - unfold ok_or in Hx. destruct (hex_decode x) as [b|] eqn:Hb; [|done]. injection Hx as ->.
    rewrite andb_true_iff, IH. split.
    + intros [Hy Hl] o [->|Ho]%elem_of_cons; [eauto|by apply Hl].
    + intros Hl. split.
      * destruct (Hl x) as (b' & Hb' & Hp); [apply list_elem_of_here|]. congruence.
      * intros o Ho. apply Hl. by apply list_elem_of_further.
Qed.

Lemma contact_decided c e pk w :
  weather w = [] ->
  exists r, enforce_owner_contact c e pk w = (r, w) /\ (r = Ok tt <-> contact_allowed (snap w) c e pk).
Proof.
  intros Hw. unfold enforce_owner_contact, contact_allowed. cbn [fst snap].
  destruct (is_gated_kind (ev_kind e)); cbn; [|eexists; split; [reflexivity|by split]].
  case_bool_decide as Ht.
  { eexists. split; [reflexivity|]. rewrite Ht. split; [|done]. by intros _ _ _ o ?%not_elem_of_nil. }
  calm_step Hw. cbn [fst snap].
  destruct (tier_in (dir w) c pk) as [t|] eqn:Etier; [|eexists; split; [reflexivity|split; [|done]];
    intros _ _ (? & ? & _); congruence].
  destruct (decide (t = Executive)) as [->|Hne].
  { eexists; split; [reflexivity|split; [|done]]. intros _ _ (? & ? & ?). congruence. }
  assert (forall A (a b : A), match t with Executive => a | _ => b end = b) as Hm by (by destruct t).
  rewrite Hm. clear Hm. unfold bind at 1. rewrite (calm_targets c _ w Hw).
  unfold targets_in. destruct (try_map _ _) as [os|err] eqn:Eos.
  2:{ eexists. split; [reflexivity|]. split; [done|]. intros Hall. exfalso.
      apply try_map_err in Eos as (l1 & x & l2 & El & Hx & _).
      assert (x ∈ owners_of (dir w) c (extract_p_tags e)) as [Hin Ho]%owner_in_elem.
      { rewrite El. set_solver. }
      destruct (Hall eq_refl) with (owner := x) as (_ & _ & o & _ & Hd & _); [by exists t|done|done|].
      by rewrite Hd in Hx. }
  case_bool_decide as Hos.
  { subst os. eexists. split; [reflexivity|]. split; [|done]. intros _ _ _ o Hin Ho. exfalso.
    assert (o ∈ owners_of (dir w) c (extract_p_tags e)) as H' by (by apply owner_in_elem).
    apply try_map_ok, Forall2_nil_inv_r in Eos. rewrite Eos in H'. by apply not_elem_of_nil in H'. }
  assert (exists o, o ∈ owners_of (dir w) c (extract_p_tags e)) as (o0 & Ho0).
  { apply try_map_ok in Eos. destruct (owners_of _ _ _) as [|o l]; [by inversion Eos|].
    exists o. apply list_elem_of_here. }
  pose proof (proj1 (owner_in_elem _ _ _ _) Ho0) as [Hin0 Hown0].
  destruct (is_direct_contact_kind (ev_kind e)).
  { eexists. split; [reflexivity|]. split; [done|]. intros Hall.
    destruct (Hall eq_refl) with (owner := o0) as [? _]; [by exists t|done|done|done]. }
  destruct (extract_thread_root e) as [root|].
  2:{ eexists. split; [reflexivity|]. split; [done|]. intros Hall.
      destruct (Hall eq_refl) with (owner := o0) as (_ & ? & ? & ? & _); [by exists t|done|done|done]. }
  rewrite (calm_permit c root pk t os w Hw). eexists. split; [reflexivity|].
  pose proof (permits_all (snap w) c root pk _ _ Eos) as Hperm. split.
  - destruct (forallb _ os) eqn:Ef; [|done]. intros _ _ _ o Hin Ho. split; [done|].
    destruct (proj1 Hperm eq_refl o) as (b & Hb & Hp); [by apply owner_in_elem|]. exists root, b. auto.
  - intros Hall. replace (forallb _ os) with true; [done|]. symmetry. apply Hperm.
    intros o [Hin Ho]%owner_in_elem.
    destruct (Hall eq_refl) with (owner := o) as (_ & r & b & [= <-] & Hb & Hp); [by exists t|done|done|].
    eauto.
Qed.

(** ** Delegated authority *)

(** A leader's or the executive's decision, under the newest grant an owner
    stands behind: active, of the same category, within its cap. *)
Definition log_authorised (d : Directory) (c : string) (signer : string) (log : ParsedDecisionLog)
    : Prop :=
  (tier_in d c signer = Some Leader \/ tier_in d c signer = Some Executive)
  /\ exists grant, grant_in d c (log_grant_id log) = Some grant /\ active grant = true
     /\ log_category log = grant_category grant
     /\ forall cap, cap_nano_usd grant = Some cap ->
        exists amount, amount_nano_usd log = Some amount /\ amount <= cap.

Lemma within_grant_spec log grant :
  within_grant log grant = Ok tt <->
  log_category log = grant_category grant
  /\ forall cap, cap_nano_usd grant = Some cap ->
     exists amount, amount_nano_usd log = Some amount /\ amount <= cap.
Proof.
  unfold within_grant. destruct (String.eqb_spec (log_category log) (grant_category grant)) as [->|Hne]; cbn.
  2:{ split; [done|]. by intros [? _]. }
  destruct (cap_nano_usd grant) as [cap|]; [|split; [by split|done]].
  destruct (amount_nano_usd log) as [a|]; [|split; [done|intros [_ Hc]; by destruct (Hc _ eq_refl) as (? & ? & _)]].
  destruct (Z.ltb_spec cap a).
  - split; [done|]. intros [_ Hc]. destruct (Hc _ eq_refl) as (? & [= <-] & ?). lia.
  - split; [|done]. intros _. split; [done|]. intros ? [= <-]. eauto.
Qed.

Lemma readonly_log c e log : readonly (enforce_decision_log_authority c e log).
Proof. unfold enforce_decision_log_authority. readonly_auto. Qed.

Lemma log_decided c e log w :
  weather w = [] ->
  exists r, enforce_decision_log_authority c e log w = (r, w)
  /\ (r = Ok tt <-> log_authorised (dir w) c (ev_pubkey e) log).
Proof.
  intros Hw. unfold enforce_decision_log_authority, log_authorised. calm_step Hw. cbn [fst snap].
  case_bool_decide as Ht; cbn; [|eexists; split; [reflexivity|split; [done|by intros [? _]]]].
  calm_step Hw. cbn [fst snap].
  destruct (grant_in _ _ _) as [g|]; [|eexists; split; [reflexivity|split; [done|]]; by intros [_ (? & ? & _)]].
  destruct (active g) eqn:Ha.
  2:{ eexists; split; [reflexivity|split; [done|]]. intros [_ (? & [= <-] & ? & _)]. congruence. }
  exists (within_grant log g). split; [by unfold lift; destruct (within_grant log g)|].
  rewrite within_grant_spec. split.
  - intros [? ?]. split; [done|]. by exists g.
  - by intros [_ (? & [= <-] & _ & ?)].
Qed.

(** A grant in force is an owner's own words, and never of a hard category. *)
Lemma grant_in_spec d c id g :
  grant_in d c id = Some g ->
  exists e, owner_in d c (ev_pubkey e) = true /\ parse_grant e = Ok g
            /\ e ∈ heads_in d c KIND_DELEGATION_GRANT id MAX_CANDIDATE_GRANT_HEADS.
Proof.
  unfold grant_in, trusted_in. destruct (head _) as [e|] eqn:E; [|done]. cbn.
  apply head_elem, elem_of_filterb in E as [Hin Ho]. destruct (parse_grant e) eqn:Hp; [|done].
  intros [= <-]. eauto.
Qed.

Lemma lower_idem s : to_ascii_lowercase (to_ascii_lowercase s) = to_ascii_lowercase s.
Proof.
  unfold to_ascii_lowercase. induction s as [|a s IH]; [done|]. cbn [str_map]. rewrite IH. f_equal.
  by destruct a as [[] [] [] [] [] [] [] []].
Qed.

Lemma parse_grant_soft e g : parse_grant e = Ok g -> is_hard_list_category (grant_category g) = false.
Proof. intros Hp. unfold parse_grant in Hp. inv_bind. cbn. unfold is_hard_list_category in *. by rewrite lower_idem. Qed.
Lemma parse_log_soft e log : parse_decision_log e = Ok log -> is_hard_list_category (log_category log) = false.
Proof.
  intros Hp. unfold parse_decision_log in Hp. inv_bind. cbn. unfold is_hard_list_category in *.
  by rewrite lower_idem.
Qed.

(** ** The reporting line *)

Lemma manager_in_spec d c pk m :
  manager_in d c pk = Some m <->
  claimed_manager_in d c pk = Some m
  /\ exists t, tier_in d c pk = Some t /\ t <> Executive
     /\ tier_in d c m = Some (escalation_target t).
Proof.
  unfold manager_in. destruct (claimed_manager_in d c pk) as [cl|]; cbn; [|naive_solver].
  destruct (tier_in d c pk) as [[]|]; try case_bool_decide; naive_solver.
Qed.

(** Climbing: the managers above an agent. *)
Fixpoint managers (fuel : nat) (d : Directory) (c pk : string) : list string :=
  match fuel with
  | O => []
  | S fuel => match manager_in d c pk with
              | Some m => m :: managers fuel d c m
              | None => []
              end
  end.

Definition rungs_above (t : option AgentTier) : nat :=
  match t with Some Worker => 2 | Some Leader => 1 | _ => 0 end.

Lemma managers_short fuel d c pk : (length (managers fuel d c pk) <= rungs_above (tier_in d c pk))%nat.
Proof.
  revert pk. induction fuel as [|fuel IH]; intros pk; cbn; [lia|].
  destruct (manager_in d c pk) as [m|] eqn:E; cbn; [|lia].
  apply manager_in_spec in E as (_ & t & Ht & Hne & Hm). specialize (IH m). rewrite Hm in IH. rewrite Ht.
  destruct t; cbn in *; [lia|lia|done].
Qed.

Lemma managers_above fuel d c pk m :
  m ∈ managers fuel d c pk -> (rungs_above (tier_in d c m) < rungs_above (tier_in d c pk))%nat.
Proof.
  revert pk. induction fuel as [|fuel IH]; intros pk; cbn; [by intros ?%not_elem_of_nil|].
  destruct (manager_in d c pk) as [m'|] eqn:E; [|by intros ?%not_elem_of_nil].
  apply manager_in_spec in E as (_ & t & Ht & Hne & Hm).
  assert (rungs_above (tier_in d c m') < rungs_above (tier_in d c pk))%nat as Hlt.
  { rewrite Hm, Ht. by destruct t; cbn; try lia. }
  intros [->|Hin]%elem_of_cons; [done|]. specialize (IH _ Hin). lia.
Qed.

(** ** The one executive *)

(** The executives of a roster: the workspace's own, and Colony's. *)
Definition is_colony (payroll : Payroll) (pk : string) : Prop := pk ∈ provisioned payroll.
Definition executive_entry (payroll : Payroll) (h : string * Json) (pk : string) : Prop :=
  head_rank (snd h) (role_ranks payroll) = Some Executive /\ d_pubkey (fst h) = Some pk.
Definition colony_executive (roster : Roster) (payroll : Payroll) (pk : string) : Prop :=
  is_colony payroll pk /\ exists h, h ∈ roster /\ executive_entry payroll h pk.
(** A head that fills a role Colony fills too stands aside for it. *)
Definition workspace_executive (roster : Roster) (payroll : Payroll) (pk : string) : Prop :=
  ~ is_colony payroll pk
  /\ exists h, h ∈ roster /\ executive_entry payroll h pk
     /\ forall role, head_role (snd h) = Some role -> ~ role ∈ provisioned_roles payroll.

Definition only {A} (P : A -> Prop) (x : A) : Prop := forall y, P y <-> y = x.

Lemma elem_of_set_insert x y l : y ∈ set_insert x l <-> y = x \/ y ∈ l.
Proof. unfold set_insert. case_bool_decide; rewrite ?elem_of_cons; naive_solver. Qed.
Lemma set_insert_nodup x l : NoDup l -> NoDup (set_insert x l).
Proof. unfold set_insert. case_bool_decide; [done|]. by constructor. Qed.

Lemma executives_fold payroll roster ws cs :
  NoDup ws -> NoDup cs ->
  let r := foldl (executive_step payroll) (ws, cs) roster in
  NoDup (fst r) /\ NoDup (snd r)
  /\ (forall pk, pk ∈ fst r <-> pk ∈ ws \/ workspace_executive roster payroll pk)
  /\ (forall pk, pk ∈ snd r <-> pk ∈ cs \/ colony_executive roster payroll pk).
Proof.
  revert ws cs. induction roster as [|h roster IH]; intros ws cs Hws Hcs; cbn.
  - split_and!; [done|done| |]; intros pk; (split; [auto|]).
    + intros [?|(_ & ? & ?%not_elem_of_nil & _)]; done.
    + intros [?|(_ & ? & ?%not_elem_of_nil & _)]; done.
  - unfold workspace_executive, colony_executive in *. setoid_rewrite elem_of_cons.
    unfold executive_entry in *. destruct (executive_step payroll (ws, cs) h) as [ws' cs'] eqn:E.
    unfold executive_step in E.
    case_bool_decide as Hr; cbn in E; [|injection E as <- <-; specialize (IH _ _ Hws Hcs); naive_solver].
    destruct (d_pubkey (fst h)) as [pk0|] eqn:Hd;
      [|injection E as <- <-; specialize (IH _ _ Hws Hcs); naive_solver].
    case_bool_decide as Hp.
    + injection E as <- <-. specialize (IH _ _ Hws (set_insert_nodup pk0 cs Hcs)).
      setoid_rewrite elem_of_set_insert in IH. unfold is_colony in *. naive_solver.
    + destruct (match head_role (snd h) with Some _ => _ | None => _ end) eqn:Hro; injection E as <- <-.
      * assert (exists role, head_role (snd h) = Some role /\ role ∈ provisioned_roles payroll).
        { destruct (head_role (snd h)); [|done]. apply bool_decide_eq_true in Hro. eauto. }
        specialize (IH _ _ Hws Hcs). unfold is_colony in *. naive_solver.
      * assert (forall role, head_role (snd h) = Some role -> ~ role ∈ provisioned_roles payroll).
        { intros role Er. rewrite Er in Hro. by apply bool_decide_eq_false in Hro. }
        specialize (IH _ _ (set_insert_nodup pk0 ws Hws) Hcs).
        setoid_rewrite elem_of_set_insert in IH. unfold is_colony in *. naive_solver.
Qed.

Lemma only_singleton (l : list string) (P : string -> Prop) x :
  NoDup l -> (forall y, y ∈ l <-> P y) -> only P x <-> l = [x].
Proof.
  intros Hnd HP. unfold only. split.
  - intros Ho. destruct l as [|a [|b l]].
    + exfalso. assert (x ∈ @nil string) as Hx by (apply HP; by apply Ho). by apply not_elem_of_nil in Hx.
    + f_equal. apply Ho, HP. apply list_elem_of_here.
    + exfalso. assert (a = x) as -> by (apply Ho, HP, list_elem_of_here).
      assert (b = x) as -> by (apply Ho, HP, list_elem_of_further, list_elem_of_here).
      apply NoDup_cons in Hnd as [Hx _]. apply Hx, list_elem_of_here.
  - intros -> y. rewrite <- HP, list_elem_of_singleton. done.
Qed.

Lemma unique_executive_spec roster payroll pk :
  unique_executive_in_roster roster payroll = Some pk <->
  only (workspace_executive roster payroll) pk
  \/ (forall pk', ~ workspace_executive roster payroll pk') /\ only (colony_executive roster payroll) pk.
Proof.
  pose proof (executives_fold payroll roster [] [] (NoDup_nil_2) (NoDup_nil_2)) as (Hw & Hc & HW & HC).
  unfold unique_executive_in_roster. destruct (foldl _ _ _) as [ws cs]. cbn in *.
  assert (forall y, y ∈ ws <-> workspace_executive roster payroll y) as HW'.
  { intros y. rewrite HW. split; [intros [?%not_elem_of_nil|]; done|auto]. }
  assert (forall y, y ∈ cs <-> colony_executive roster payroll y) as HC'.
  { intros y. rewrite HC. split; [intros [?%not_elem_of_nil|]; done|auto]. }
  rewrite (only_singleton ws _ pk Hw HW'), (only_singleton cs _ pk Hc HC').
  assert ((forall pk', ~ workspace_executive roster payroll pk') <-> ws = []) as ->.
  { split.
    - intros Hn. destruct ws as [|a ws]; [done|]. destruct (Hn a). apply HW', list_elem_of_here.
    - intros -> y Hy%HW'. by apply not_elem_of_nil in Hy. }
  destruct ws as [|a [|b ws]]; [destruct cs as [|e [|f cs]]|..]; naive_solver.
Qed.
End Authority.
