(* ===== verification/AskFacts.v ===== *)
(** * Filing and answering

    What an ask that was filed, answered or withdrawn went through: the ladder,
    the open slot of its need, and the authority of the one who closed it. *)

From Stdlib Require Import ZArith Lia Ascii.
From stdpp Require Import base list gmap strings numbers sorting.
From S2P Require Import Prelude MachineInt RustStr Json Event AskWire AskTable AskWorld AskGate AskHead AskBroker AskSweep AskSafety AskAuthority.
Local Open Scope Z_scope.

(** What signing and key parsing promise: the event is the one built, signed
    by the key, and a public key reads back canonically. *)
Class NostrLaws `{NostrLib} : Prop := {
  signed_event k kind at_ tags content e :
    sign_event k kind at_ tags content = Some e ->
    ev_kind e = kind /\ ev_created_at e = at_ /\ ev_tags e = tags /\ ev_content e = content
    /\ ev_pubkey e = public_key k /\ is_hex64_lowercase (ev_id e) = true;
  from_hex_canonical s h : from_hex s = Some h -> is_hex64_lowercase h = true;
}.

Section Facts.
Context `{JsonLib, NostrLib}.
Context (durable : bool) (relay : Keys).

(** ** The ladder *)

(** A worker asks a leader, a leader the executive, the executive an owner. *)
Definition on_ladder (d : Directory) (c signer audience : string) : Prop :=
  exists t pk, tier_in d c signer = Some t /\ from_hex audience = Some pk
  /\ match t with
     | Worker => tier_in d c pk = Some Leader
     | Leader => tier_in d c pk = Some Executive
     | Executive => owner_in d c audience = true
     end.

Lemma readonly_altitude c e p : readonly (check_altitude durable relay c e p).
Proof. unfold check_altitude. readonly_auto. Qed.

Lemma altitude_decided c e p w :
  weather w = [] ->
  exists r, check_altitude durable relay c e p w = (r, w)
  /\ (r = Ok None <-> is_relay_signed durable relay e = true \/ on_ladder (dir w) c (ev_pubkey e) (audience_hex p)).
Proof.
  intros Hw. unfold check_altitude, on_ladder.
  destruct (is_relay_signed durable relay e); [eexists; split; [reflexivity|naive_solver]|].
  calm_step Hw. cbn [fst snap]. destruct (tier_in (dir w) c (ev_pubkey e)) as [t|];
    [|eexists; split; [reflexivity|naive_solver]].
  unfold pubkey_of. destruct (from_hex (audience_hex p)) as [pk|]; cbn.
  2:{ eexists; split; [reflexivity|naive_solver]. }
  destruct t; calm_step Hw; cbn [fst snap]; (eexists; split; [reflexivity|]);
    (case_bool_decide || destruct (owner_in _ _ _)); naive_solver.
Qed.

Lemma altitude_ok c e p w w' :
  check_altitude durable relay c e p w = (Ok None, w') ->
  (is_relay_signed durable relay e = true \/ on_ladder (dir w) c (ev_pubkey e) (audience_hex p))
  /\ snap w' = snap w.
Proof.
  intros [Hc Hs]%readonly_ok; [|apply readonly_altitude]. split; [|done].
  destruct (altitude_decided c e p (calm (snap w)) eq_refl) as (r & Hr & Hiff).
  rewrite Hc in Hr. injection Hr as <-. by apply Hiff.
Qed.

(** ** The deadline *)

Lemma deadline_bounds created window :
  0 <= created <= i64_max - MAX_ASK_WINDOW_SECS -> 0 <= window ->
  created <= deadline_of created window <= created + MAX_ASK_WINDOW_SECS.
Proof.
  intros Hc Hw. unfold deadline_of, as_i64_cast, saturating_add64, MAX_ASK_WINDOW_SECS in *.
  assert (i64_max < u64_max) by done. case_match; lia.
Qed.

(** ** Filing *)

Lemma insert_row_ok c row w u w' :
  Inv w ->
  db (fun w => match insert_ask (clock w) c row (asks w) with
               | Ok t => (Ok tt, set_asks t w)
               | Err e => (Err e, w)
               end) w = (Ok u, w') ->
  exists t, wf_asks t /\ grows (asks w) t /\ insert_ask (clock w) c row t = Ok (asks w').
Proof.
  intros [Ha Hw] H'. unfold db in H'. destruct (weather w) as [|here rest].
  - exists (asks w). destruct (insert_ask _ _ _ _) eqn:E; [|done]. injection H' as _ <-. by split_and!.
  - apply Forall_cons in Hw as [Hh _]. destruct (run_stmts_ok _ _ Hh Ha) as [Ha' Hg].
    destruct (down here); [done|]. cbn in H'. exists (run_stmts (others here) (asks w)).
    destruct (insert_ask _ _ _ _) eqn:E; [|done]. injection H' as _ <-. by split_and!.
Qed.

(** One call after another: the second starts where a safe first one ends. *)
Lemma bind_safe_ok {A B} (m : M A) (k : A -> M B) w b w' :
  safe m -> Inv w -> bind m k w = (Ok b, w') ->
  exists a w1, m w = (Ok a, w1) /\ k a w1 = (Ok b, w') /\ Inv w1 /\ later w w1.
Proof.
  intros Hm Hi (a & w1 & E & Hk)%bind_ok. exists a, w1. specialize (Hm w Hi). rewrite E in Hm.
  by destruct Hm.
Qed.

Lemma as_u64_nonneg j n : as_u64 j = Some n -> 0 <= n.
Proof. destruct j; cbn; try done. destruct (Z.leb_spec 0 n0); cbn; [|done]. case_match; naive_solver lia. Qed.

Lemma window_nonneg c w v w' : company_ask_window_secs relay c w = (Ok v, w') -> 0 <= v.
Proof.
  intros (r & w1 & _ & [= <- _])%bind_ok. unfold DEFAULT_ASK_WINDOW_SECS.
  destruct r as [[row|]|]; [|lia|lia]. destruct (json_from_str _) as [content|]; [|lia].
  destruct (jget _ _ ≫= as_u64) as [n|] eqn:E; cbn; [|lia].
  destruct (jget _ _); [|done]. by apply as_u64_nonneg in E.
Qed.

Lemma parse_window_nonneg e p secs : parse_ask e = Ok p -> default_window_secs p = Some secs -> 0 <= secs.
Proof.
  intros Hp Hs. unfold parse_ask in Hp. inv_bind. cbn in Hs. destruct (jget _ _); [|done].
  by apply as_u64_nonneg in Hs.
Qed.

Lemma parse_window_bounds e p secs :
  parse_ask e = Ok p -> default_window_secs p = Some secs -> 0 <= secs <= MAX_ASK_WINDOW_SECS.
Proof.
  intros Hp Hs. split; [by eapply parse_window_nonneg|]. unfold parse_ask in Hp. inv_bind. cbn in Hs.
  rewrite Hs in *. destruct (Z.ltb_spec MAX_ASK_WINDOW_SECS secs); [done|done].
Qed.

Lemma deadline_exact created secs :
  0 <= created <= i64_max - MAX_ASK_WINDOW_SECS -> 0 <= secs <= MAX_ASK_WINDOW_SECS ->
  deadline_of created secs = created + secs.
Proof.
  intros Hc Hw. unfold deadline_of, as_i64_cast, saturating_add64, MAX_ASK_WINDOW_SECS in *.
  assert (i64_max < u64_max) by done. case_match; lia.
Qed.

(** An ask filed: the row it made, in the slot that was free. *)
Lemma file_ask_applied c e p reason w w' :
  parse_ask e = Ok p -> Inv w -> file_ask durable relay c e p reason w = (Ok Applied, w') ->
  exists window audience origin prior filer t t',
    (forall secs, default_window_secs p = Some secs -> window = secs) /\ 0 <= window
    /\ from_hex (audience_hex p) = Some audience
    /\ resolve_filer durable relay e p = Ok filer
    /\ wf_asks t /\ grows (asks w) t
    /\ insert_ask (clock w) c
         (new_row e p audience filer origin prior (deadline_of (ev_created_at e) window)) t = Ok t'
    /\ grows t' (asks w').
Proof.
  intros Hp Hi Hf. unfold file_ask in Hf.
  apply bind_safe_ok in Hf as (window & w1 & Ewin & Hf & Hi1 & Hl1);
    [|safe_auto; apply safe_window|done].
  apply bind_ok in Hf as (audience & w1' & [Ea ->]%lifted_ok & Hf).
  apply bind_ok in Hf as (origin & w1' & [Eo ->]%lifted_ok & Hf).
  apply bind_ok in Hf as (prior & w1' & [Epr ->]%lifted_ok & Hf).
  apply bind_ok in Hf as (filer & w1' & [Ef ->]%lifted_ok & Hf).
  apply bind_safe_ok in Hf as (r & w2 & Eins%attempt_ok & Hf & Hi2 & Hl2);
    [|apply safe_attempt, safe_insert_row, (new_row_policy _ _ _ _ _ _ _ Hp)|done].
  destruct r as [[]|err].
  2:{ destruct err as [[]| | | | | | | | | | | | | | | |]; try discriminate Hf.
      by apply bind_ok in Hf as ([row|] & w3 & _ & Hf). }
  destruct (insert_row_ok _ _ _ _ _ Hi1 Eins) as (t & Ht & Hg & Hins).
  exists window, audience, origin, prior, filer, t, (asks w2).
  apply bind_safe_ok in Hf as ([] & w3 & _ & Hf & Hi3 & Hl3); [|apply safe_new_head|done].
  apply bind_safe_ok in Hf as ([] & w4 & _ & Hf & Hi4 & Hl4);
    [|destruct prior; [apply safe_superseded|apply safe_ret]|done].
  injection Hf as <-.
  split_and!; [| |by unfold pubkey_of in Ea; destruct (from_hex (audience_hex p)); simplify_eq/=|done|done| | |].
  - intros secs Hs. rewrite Hs in Ewin. by injection Ewin as <- <-.
  - destruct (default_window_secs p) as [secs|] eqn:Es; [|by eapply window_nonneg].
    injection Ewin as <- _. by eapply parse_window_nonneg.
  - etrans; [apply (later_asks _ _ Hl1)|done].
  - by rewrite <- (later_clock _ _ Hl1).
  - etrans; [apply (later_asks _ _ Hl3)|apply (later_asks _ _ Hl4)].
Qed.

(** The row an insertion made is there. *)
Lemma insert_ask_row now c n t t' :
  insert_ask now c n t = Ok t' ->
  t !! (c, new_ask_event_id n) = None
  /\ find_open_ask_by_need c (new_initiative n) (new_need n) t = None
  /\ exists r, t' = <[(c, new_ask_event_id n) := r]> t
     /\ about r = ((c, new_initiative n, new_need n), new_ask_event_id n, new_ask_type n,
                   new_audience n, new_filer n,
                   (new_origin n, new_prior n, new_category n, new_default n, now))
     /\ deadline_at r = new_deadline n /\ ask_status r = SOpen.
Proof.
  unfold insert_ask. destruct (is_some (t !! _) || _) eqn:E; [done|]. intros [= <-].
  apply orb_false_iff in E as [E1 E2]. destruct (t !! _); [done|]. destruct (find_open_ask_by_need _ _ _ t); [done|].
  split_and!; [done|done|]. eexists. by split_and!.
Qed.

(** What a filed ask is about, from its event. *)
Definition filed_as (c : string) (e : Event) (p : ParsedAsk) (r : AskRow) : Prop :=
  community_id r = c /\ ask_event_id r = ev_id e /\ row_initiative r = initiative_id p
  /\ row_need r = need_key p /\ row_type r = ask_type p /\ row_default r = default_option p
  /\ row_category r = category p /\ from_hex (audience_hex p) = Some (audience_pubkey r)
  /\ resolve_filer durable relay e p = Ok (filer_pubkey r).

Lemma handle_ask_applied c e reason w w' :
  Inv w -> handle_ask durable relay c e reason w = (Ok Applied, w') ->
  exists p w1, parse_ask e = Ok p
  /\ (is_relay_signed durable relay e = true \/ on_ladder (dir w) c (ev_pubkey e) (audience_hex p))
  /\ Inv w1 /\ later w w1 /\ file_ask durable relay c e p reason w1 = (Ok Applied, w').
Proof.
  intros Hi Hf. unfold handle_ask in Hf. destruct (parse_ask e) as [p|] eqn:Hp; [|done].
  apply bind_safe_ok in Hf as (r & w1 & Er & Hf & Hi1 & Hl1); [|apply safe_check_altitude|done].
  destruct r as [r|]; [done|]. apply altitude_ok in Er as [Hr _].
  apply bind_safe_ok in Hf as (o & w2 & _ & Hf & Hi2 & Hl2); [|apply safe_query|done].
  destruct o as [o|]; [done|]. exists p, w2. split_and!; try done. by etrans.
Qed.

Lemma about_filed c e p r r' : about r' = about r -> filed_as c e p r -> filed_as c e p r'.
Proof.
  unfold about, need_of, filed_as. intros Ha. injection Ha as -> -> -> -> -> -> -> _ _ -> -> _. done.
Qed.

(** ** Closing *)

(** An open row closed by a conditional update, whatever ran before it. *)
Lemma update_closed key g f w w' :
  Inv w -> (forall now t, g now t = update_ask is_open (f now) key t) ->
  update g w = (Ok true, w') ->
  exists t r, wf_asks t /\ grows (asks w) t /\ t !! key = Some r /\ is_open r = true
  /\ asks w' = <[key := f (clock w) r]> t /\ snap w' = snap w.
Proof.
  intros Hi Hg Hu. destruct (update_ok_inv _ _ _ _ Hi Hu) as (t & Ht & Hgr & E & Hs & _).
  rewrite Hg in E. apply update_moved in E as (r & Hr & Ho & E'). exists t, r. by split_and!.
Qed.

(** Who may answer: the relay, whom it was asked, or a fellow owner. *)
Definition may_resolve (d : Directory) (c signer audience : string) : Prop :=
  signer = public_key relay \/ signer = audience
  \/ (owner_in d c audience = true /\ owner_in d c signer = true).

Lemma readonly_authorized c s a : readonly (resolution_signer_authorized c s a).
Proof. unfold resolution_signer_authorized. readonly_auto. Qed.

Lemma authorized_calm c s a w :
  weather w = [] ->
  resolution_signer_authorized c s a w =
  (Ok (String.eqb s a || (owner_in (dir w) c a && owner_in (dir w) c s)), w).
Proof.
  intros Hw. unfold resolution_signer_authorized. destruct (String.eqb s a); [done|]. calm_step Hw.
  cbn [fst snap]. destruct (owner_in (dir w) c a); [|done]. cbn. apply (reads_calm _ _ _ (reads_owner c s) Hw).
Qed.

Lemma resolver_ok c s a w w' :
  (if String.eqb s (public_key relay) then ret true else resolution_signer_authorized c s a) w
    = (Ok true, w') ->
  may_resolve (dir w) c s a.
Proof.
  unfold may_resolve. destruct (String.eqb_spec s (public_key relay)) as [->|Hne]; [auto|].
  intros [Hc _]%readonly_ok; [|apply readonly_authorized]. rewrite authorized_calm in Hc by done.
  injection Hc as Hc. cbn in Hc. destruct (String.eqb_spec s a) as [->|Hna]; [auto|].
  apply andb_true_iff in Hc as [? ?]. auto.
Qed.

(** A row closed now, and its ending kept since. *)
Lemma closed_since t key r w' :
  is_final r -> grows (<[key := r]> t) (asks w') -> asks w' !! key = Some r.
Proof.
  intros Hf Hg. destruct (Hg key r) as (r' & Hr' & _ & Hr); [by rewrite lookup_insert_eq|].
  rewrite Hr'. f_equal. by apply Hr.
Qed.

(** A resolution applied: the stored ask, its open row, and the row it leaves. *)
Lemma resolution_applied c e w w' :
  Inv w -> handle_resolution durable relay c e w = (Ok Applied, w') ->
  exists p id stored ask t r,
    parse_resolution e = Ok p /\ hex_decode (resolution_ask_hex p) = Some id
    /\ events w !! (c, id) = Some stored /\ parse_ask (stored_event stored) = Ok ask
    /\ may_resolve (dir w) c (ev_pubkey e) (audience_hex ask) /\ answer_missing ask p = false
    /\ wf_asks t /\ grows (asks w) t /\ t !! (c, id) = Some r /\ is_open r = true
    /\ asks w' !! (c, id) = Some (closed_row SResolved (Some (ev_id e)) (Some (ev_pubkey e))
                                   (default_executed p) (clock w) r).
Proof.
  intros Hi Hf. unfold handle_resolution in Hf. destruct durable; [|done]. cbn [negb] in Hf.
  destruct (parse_resolution e) as [p|] eqn:Hp; [|done].
  apply bind_ok in Hf as (id & w0 & [Hid ->]%lifted_ok & Hf).
  apply bind_safe_ok in Hf as (st & w1 & Est & Hf & Hi1 & Hl1); [|apply safe_event|done].
  pose proof (rd_snap _ _ (reads_event c id) w) as Hs1. rewrite Est in Hs1. injection Hs1 as Hd1 _.
  apply (reads_ok _ _ _ _ _ (reads_event c id)) in Est. cbn in Est. subst st.
  destruct (events w !! (c, id)) as [stored|] eqn:Hev; [|done].
  destruct (parse_ask (stored_event stored)) as [ask|] eqn:Hask; [|done].
  apply bind_safe_ok in Hf as (au & w2 & Eau & Hf & Hi2 & Hl2);
    [|destruct (String.eqb _ _); [apply safe_ret|apply safe_authorized]|done].
  destruct au; [|done]. apply resolver_ok in Eau. cbn [negb] in Hf.
  destruct (answer_missing ask p) eqn:Hans; [done|].
  apply bind_safe_ok in Hf as (fl & w3 & Efl & Hf & Hi3 & Hl3); [|apply safe_resolve|done].
  destruct fl; [|done]. cbn [negb] in Hf.
  destruct (update_closed _ _ _ _ _ Hi2 (fun now t => eq_refl) Efl) as (t & r & Ht & Hg & Hr & Ho & E & _).
  assert (grows (asks w3) (asks w')) as Hlast.
  { apply bind_safe_ok in Hf as ([] & w4 & _ & Hf & Hi4 & Hl4); [|apply safe_closed_head|done].
    apply bind_safe_ok in Hf as ([] & w5 & _ & Hf & Hi5 & Hl5);
      [|destruct (origin_thread_hex ask); [safe_auto; apply safe_receipt|apply safe_ret]|done].
    apply bind_safe_ok in Hf as ([] & w6 & _ & Hf & Hi6 & Hl6); [|apply safe_wake|done].
    injection Hf as <-. etrans; [apply (later_asks _ _ Hl4)|].
    etrans; [apply (later_asks _ _ Hl5)|apply (later_asks _ _ Hl6)]. }
  exists p, id, stored, ask, t, r. unfold ok_or in Hid. destruct (hex_decode _); [|done]. injection Hid as ->.
  assert (clock w2 = clock w) as Hck by (by rewrite (later_clock _ _ Hl2), (later_clock _ _ Hl1)).
  split_and!; try done.
  - by rewrite <- Hd1.
  - etrans; [apply (later_asks _ _ Hl1)|]. etrans; [apply (later_asks _ _ Hl2)|done].
  - rewrite E in Hlast. rewrite <- Hck. eapply closed_since; [|exact Hlast]. by left.
Qed.
End Facts.
