(* ===== verification/AskDue.v ===== *)
(** * When the time is up

    What the sweep does with one due ask: whether it may answer it with its
    default, whom it promotes it to, and that the need it stands for stays
    asked until someone answers; what its published head says of that. *)

From Stdlib Require Import ZArith Lia Ascii.
From stdpp Require Import base list gmap strings numbers sorting.
From S2P Require Import Prelude MachineInt RustStr Json Event AskWire AskTable AskWorld AskGate.
From S2P Require Import AskHead AskBroker AskSweep AskSafety AskAuthority AskFacts.
Local Open Scope Z_scope.

(** ** Keys *)

Lemma hex_char_lower c : is_ascii_digit c || in_code_range 97 102 c = true ->
  is_ascii_hexdigit c = true /\ to_ascii_lower c = c.
Proof. by destruct c as [[] [] [] [] [] [] [] []]. Qed.

Lemma hex64_decode s : is_hex64_lowercase s = true -> hex_decode s = Some s.
Proof.
  unfold is_hex64_lowercase, hex_decode, str_len. intros [Hl%Z.eqb_eq Ha]%andb_true_iff.
  assert (String.length s = 64%nat) as -> by lia. cbn [Nat.even andb].
  assert (str_all is_ascii_hexdigit s = true /\ to_ascii_lowercase s = s) as [-> ->]; [|done].
  clear Hl. unfold to_ascii_lowercase. induction s as [|c s IH]; [done|]. cbn [str_all str_map] in *.
  apply andb_true_iff in Ha as [Hc Hs]. destruct (hex_char_lower c Hc) as [-> ->], (IH Hs) as [-> ->]. done.
Qed.

Section Due.
Context `{JsonLib, NostrLib, !NostrLaws}.
Context (relay : Keys).
Context (ghost_reason supersede_reason : string).


(** ** Quiet parts *)

Lemma readonly_provisioned c l : readonly (provisioned_heads c l).
Proof. induction l; cbn; readonly_auto. Qed.
#[local] Hint Resolve readonly_provisioned : readers.
Lemma readonly_executive c : readonly (find_unique_executive c).
Proof. unfold find_unique_executive, active_payroll, list_active_employees, fetch_role_holder_roster,
  fetch_owner_authored, query_latest_owner_authored_heads. readonly_auto. Qed.
Lemma readonly_one_owner c : readonly (find_unique_owner c).
Proof. unfold find_unique_owner, list_relay_owners. readonly_auto. Qed.
#[local] Hint Resolve readonly_executive readonly_one_owner : readers.
Lemma readonly_predict c a d : readonly (predict_expiry_outcome c a d).
Proof. unfold predict_expiry_outcome. readonly_auto. Qed.

Lemma quiet_predict c a d : quiet (predict_expiry_outcome c a d).
Proof. apply quiet_readonly, readonly_predict. Qed.
Lemma quiet_tier c pk : quiet (agent_tier c pk).
Proof. apply quiet_readonly. eapply readonly_reads, reads_tier. Qed.
Lemma quiet_owner c pk : quiet (is_owner c pk).
Proof. apply quiet_readonly. eapply readonly_reads, reads_owner. Qed.
Lemma quiet_event c id : quiet (get_event_by_id c id).
Proof. apply quiet_readonly. eapply readonly_reads, reads_event. Qed.
Lemma quiet_replace c d e : quiet (replace_parameterized_event c d e).
Proof.
  intros w Hw. unfold replace_parameterized_event, db. rewrite Hw. cbn.
  destruct (match _ with Some _ => _ | None => _ end); by split.
Qed.
Lemma quiet_membership c ch pk : quiet (check_channel_membership c ch pk).
Proof. unfold check_channel_membership. quiet_auto. Qed.
#[local] Hint Resolve quiet_predict quiet_tier quiet_owner quiet_event quiet_replace quiet_membership : quiet.
Lemma quiet_head c id content : quiet (sign_store_and_fan_out_head relay c id content).
Proof. unfold sign_store_and_fan_out_head. quiet_auto. Qed.
#[local] Hint Resolve quiet_head : quiet.
Lemma quiet_new_head c id d a o : quiet (publish_head_for_new_ask relay c id d a o).
Proof. unfold publish_head_for_new_ask. quiet_auto. Qed.
Lemma quiet_rearmed_head row d r : quiet (publish_rearmed_head relay row d r).
Proof. unfold publish_rearmed_head, lookup_community_host. quiet_auto. Qed.
Lemma quiet_closed_head c id cl : quiet (publish_closed_head relay c id cl).
Proof. unfold publish_closed_head. quiet_auto. Qed.
Lemma quiet_receipt c o ct b ch : quiet (emit_ask_receipt relay c o ct b ch).
Proof. unfold emit_ask_receipt. quiet_auto. Qed.
Lemma quiet_window c : quiet (company_ask_window_secs relay c).
Proof. unfold company_ask_window_secs. quiet_auto. Qed.
#[local] Hint Resolve quiet_new_head quiet_rearmed_head quiet_closed_head quiet_receipt quiet_window : quiet.

(** Publication and receipts are best effort. *)
Lemma sure_head c id content : sure (sign_store_and_fan_out_head relay c id content).
Proof. unfold sign_store_and_fan_out_head. sure_auto. Qed.
#[local] Hint Resolve sure_head : sure.
Lemma sure_new_head c id d a o : sure (publish_head_for_new_ask relay c id d a o).
Proof. unfold publish_head_for_new_ask. sure_auto. Qed.
Lemma sure_rearmed_head row d r : sure (publish_rearmed_head relay row d r).
Proof. unfold publish_rearmed_head. sure_auto. Qed.
Lemma sure_closed_head c id cl : sure (publish_closed_head relay c id cl).
Proof. unfold publish_closed_head. sure_auto. Qed.
Lemma sure_receipt c o ct b ch : sure (emit_ask_receipt relay c o ct b ch).
Proof. unfold emit_ask_receipt. sure_auto. Qed.
#[local] Hint Resolve sure_new_head sure_rearmed_head sure_closed_head sure_receipt : sure.

(** Runs a quiet first step. *)
Lemma bind_quiet {A B} (m : M A) (k : A -> M B) w :
  quiet m -> weather w = [] ->
  (exists a w1, bind m k w = k a w1 /\ m w = (Ok a, w1) /\ same_asks w w1)
  \/ (exists e w1, bind m k w = (Err e, w1) /\ same_asks w w1).
Proof.
  intros Hm Hw. specialize (Hm w Hw). unfold bind. destruct (m w) as [[a|e] w1]; cbn in Hm; [left|right]; eauto.
Qed.
Lemma bind_sure {A B} (m : M A) (k : A -> M B) w :
  sure m -> quiet m -> weather w = [] -> exists a w1, bind m k w = k a w1 /\ same_asks w w1.
Proof.
  intros Hs Hm Hw. specialize (Hm w Hw). unfold bind. destruct (Hs w) as (a & w1 & E). rewrite E in Hm |- *. eauto.
Qed.

(** ** The published prediction *)

Lemma prediction_sound now row stored w w1 o host :
  weather w = [] -> hosts (dir w) !! community_id row = Some host ->
  events w !! (community_id row, ask_event_id row) = Some stored ->
  predict_expiry_outcome (community_id row) (audience_pubkey row) (row_default row) w = (Ok o, w1) ->
  let run := process_due_ask true relay ghost_reason supersede_reason now row in
  match o with
  | OutcomeDefault option => run w = execute_default relay row stored option w
  | OutcomePromotes target => exists pk,
      fst (match target with
           | TargetExecutive => find_unique_executive (community_id row)
           | TargetOwner => find_unique_owner (community_id row)
           end w) = Ok (Some pk)
      /\ run w = promote_to true relay supersede_reason row stored pk w
  | OutcomeRearm => run w = bind (redeadline relay row now) (fun _ => ret Nothing) w
  end.
Proof.
  intros Hw Hh He Hp. unfold process_due_ask, lookup_community_host. calm_step Hw. rewrite Hh.
  calm_step Hw. cbn [fst snd snap]. rewrite He. unfold predict_expiry_outcome in Hp.
  erewrite bind_calm in Hp by (apply reads_calm; [apply reads_owner|exact Hw]).
  calm_step Hw. cbn [fst snap] in *. destruct (owner_in (dir w) _ _).
  { injection Hp as <- _. by destruct (row_default row). }
  unfold promote_or_redeadline, pubkey_of. destruct (from_hex (audience_pubkey row)) as [pk|]; cbn in Hp; [|done].
  erewrite bind_calm in Hp by (apply reads_calm; [apply reads_tier|exact Hw]).
  cbn [ok_or lift]. rewrite (bind_calm (ret pk) _ pk w eq_refl). calm_step Hw. cbn [fst snap] in *.
  assert (forall m : M (option string), readonly m -> m w = (fst (m w), w)) as Hro.
  { intros m [f Hf]. by rewrite (rd_calm _ _ Hf). }
  destruct (tier_in (dir w) _ pk) as [[]|].
  - by injection Hp as <- _.
  - unfold bind in Hp |- *. rewrite (Hro _ (readonly_executive _)) in Hp |- *.
    destruct (fst (find_unique_executive _ w)) as [[x|]|] eqn:E; [| |done]; injection Hp as <- _; cbn; eauto.
  - unfold bind in Hp |- *. rewrite (Hro _ (readonly_one_owner _)) in Hp |- *.
    destruct (fst (find_unique_owner _ w)) as [[x|]|] eqn:E; [| |done]; injection Hp as <- _; cbn; eauto.
  - by injection Hp as <- _.
Qed.

(** ** Defaults *)

Lemma execute_default_ok row stored option w w' :
  Inv w -> execute_default relay row stored option w = (Ok DefaultExecuted, w') ->
  exists res t r,
    ev_kind res = KIND_ASK_RESOLUTION /\ ev_pubkey res = public_key relay
    /\ wf_asks t /\ grows (asks w) t /\ t !! (community_id row, ask_event_id row) = Some r /\ is_open r = true
    /\ asks w' !! (community_id row, ask_event_id row)
       = Some (closed_row SResolved (Some (ev_id res)) (Some (public_key relay)) true (clock w) r).
Proof.
  intros Hi Hf. unfold execute_default in Hf.
  apply bind_ok in Hf as (ask & w0 & [_ ->]%lifted_ok & Hf).
  apply bind_ok in Hf as (now & w0 & [= <- <-] & Hf).
  apply bind_ok in Hf as (res & w0 & [Hres ->]%lifted_ok & Hf).
  destruct (sign_event _ _ _ _ _) as [res'|] eqn:Es; [|done]. injection Hres as ->.
  apply signed_event in Es as (Hk & _ & _ & _ & Hpk & _).
  apply bind_safe_ok in Hf as (fl & w1 & Efl & Hf & Hi1 & Hl1); [|apply safe_resolve|done].
  destruct fl; [|done]. cbn [negb] in Hf.
  destruct (update_closed _ _ _ _ _ Hi (fun now t => eq_refl) Efl) as (t & r & Ht & Hg & Hr & Ho & E & _).
  exists res, t, r. split_and!; try done. eapply closed_since; [|rewrite <- E]; [by left|].
  apply bind_safe_ok in Hf as ([] & w2 & _ & Hf & Hi2 & Hl2); [|apply safe_closed_head|done].
  apply bind_safe_ok in Hf as (x & w3 & _ & Hf & Hi3 & Hl3); [|apply safe_attempt, safe_insert_event|done].
  apply bind_safe_ok in Hf as ([] & w4 & _ & Hf & Hi4 & Hl4);
    [|destruct (origin_thread row); [safe_auto; apply safe_receipt|apply safe_ret]|done].
  injection Hf as <-. etrans; [apply (later_asks _ _ Hl2)|].
  etrans; [apply (later_asks _ _ Hl3)|apply (later_asks _ _ Hl4)].
Qed.

Lemma elem_of_sort_by {A} (leb : A -> A -> bool) l x : x ∈ sort_by leb l <-> x ∈ l.
Proof.
  unfold sort_by. induction l as [|y l IH]; cbn; [done|]. rewrite elem_of_cons, <- IH.
  generalize (foldr (insert_sorted leb) [] l). intros l0. induction l0 as [|z l0 IH0]; cbn; [set_solver|].
  destruct (leb y z); set_solver.
Qed.

(** A row of the due batch is open, and its time is up. *)
Lemma due_batch now n t row :
  row ∈ query_due_asks now n t ->
  (exists k, t !! k = Some row) /\ is_open row = true /\ exists d, deadline_at row = Some d /\ d <= now.
Proof.
  unfold query_due_asks. intros [i Hr]%list_elem_of_lookup. apply lookup_take_Some in Hr as [Hr _].
  apply list_elem_of_lookup_2, elem_of_sort_by, elem_of_filterb in Hr as [Hr Hd]. rewrite elem_of_rows in Hr. split; [done|].
  unfold due in Hd. apply andb_true_iff in Hd as [Ho Hd]. split; [done|].
  destruct (deadline_at row) as [d|]; [|done]. exists d. split; [done|]. by apply Z.leb_le.
Qed.

(** What a run that executed a default went through. *)
Lemma due_default now row w w' :
  Inv w -> process_due_ask true relay ghost_reason supersede_reason now row w = (Ok DefaultExecuted, w') ->
  exists option stored w1,
    row_default row = Some option /\ owner_in (dir w) (community_id row) (audience_pubkey row) = true
    /\ Inv w1 /\ later w w1 /\ execute_default relay row stored option w1 = (Ok DefaultExecuted, w').
Proof.
  intros Hi Hf. unfold process_due_ask in Hf.
  apply bind_safe_ok in Hf as (h & w1 & _ & Hf & Hi1 & Hl1); [|apply safe_query|done].
  destruct h as [h|]; [|by apply bind_ok in Hf as (? & ? & _ & ?)].
  apply bind_safe_ok in Hf as (st & w2 & _ & Hf & Hi2 & Hl2); [|apply safe_event|done].
  destruct st as [stored|]; [|by apply bind_ok in Hf as (? & ? & _ & ?)].
  apply bind_safe_ok in Hf as (b & w3 & Eb & Hf & Hi3 & Hl3); [|apply safe_owner|done].
  apply (reads_ok _ _ _ _ _ (reads_owner _ _)) in Eb. cbn in Eb.
  rewrite (later_dir _ _ Hl2), (later_dir _ _ Hl1) in Eb. destruct b.
  - destruct (row_default row) as [o|]; [|by apply bind_ok in Hf as (? & ? & _ & ?)].
    exists o, stored, w3. split_and!; try done. etrans; [done|]. by etrans.
  - exfalso. unfold promote_or_redeadline in Hf.
    apply bind_ok in Hf as (a & ? & _ & Hf). apply bind_ok in Hf as (t & ? & _ & Hf).
    apply bind_ok in Hf as ([tg|] & ? & _ & Hf); [|by apply bind_ok in Hf as (? & ? & _ & ?)].
    unfold promote_to in Hf. apply bind_ok in Hf as (? & ? & _ & Hf).
    apply bind_ok in Hf as (? & ? & _ & Hf). apply bind_ok in Hf as (? & ? & _ & Hf).
    apply bind_ok in Hf as ([] & ? & _ & Hf); [|done]. cbn [negb] in Hf.
    apply bind_ok in Hf as (? & ? & _ & Hf). apply bind_ok in Hf as ([[]|] & ? & _ & Hf).
    + by apply bind_ok in Hf as (? & ? & _ & ?).
    + done.
    + by apply bind_ok in Hf as (? & ? & _ & ?).
    + by apply bind_ok in Hf as (? & ? & _ & ?).
Qed.

(** ** Promotion *)

(** The ask one rung up: the same words, re-addressed. *)
Definition readdressed (ask : ParsedAsk) (target prior filer : string) : ParsedAsk := {|
  ask_type := ask_type ask; audience_hex := target; initiative_id := initiative_id ask;
  task_ids := task_ids ask; origin_thread_hex := origin_thread_hex ask; need_key := need_key ask;
  prior_ask_hex := Some prior; category := category ask; cost_of_delay := cost_of_delay ask;
  default_option := default_option ask; default_window_secs := default_window_secs ask;
  headline := headline ask; filer_hex := Some filer |}.

Lemma named_eqb name n parts : named name (n :: parts) = String.eqb n name.
Proof.
  unfold named. cbn. destruct (String.eqb_spec n name) as [->|Hn]; [by apply bool_decide_eq_true|].
  apply bool_decide_eq_false. congruence.
Qed.

Lemma kept_tags_value name l :
  filter_map (tag_value name) (List.filter kept_tag l) =
  if String.eqb name "p" || String.eqb name "prior" || String.eqb name "filer" then []
  else filter_map (tag_value name) l.
Proof.
  induction l as [|parts l IH]; [by repeat case_match|]. cbn [List.filter filter_map].
  assert (forall v, tag_value name parts = Some v ->
    kept_tag parts = negb (String.eqb name "p" || String.eqb name "prior" || String.eqb name "filer")) as Hk.
  { intros v Hv. destruct parts as [|n [|x [|]]]; try done. cbn in Hv.
    destruct (String.eqb_spec n name) as [->|]; [|done]. unfold kept_tag. by rewrite !named_eqb. }
  destruct (tag_value name parts) as [v|] eqn:Ev.
  - rewrite (Hk v eq_refl). destruct (_ || _ || _) eqn:En; cbn; [by rewrite IH|]. by rewrite Ev, IH.
  - destruct (kept_tag parts); cbn; rewrite ?Ev, ?IH; by destruct (_ || _ || _).
Qed.

Lemma promoted_tag_values stored target filer name :
  filter_map (tag_value name) (promoted_tags stored target filer) =
  if String.eqb name "p" then [target] else if String.eqb name "prior" then [ev_id stored]
  else if String.eqb name "filer" then [filer] else filter_map (tag_value name) (ev_tags stored).
Proof.
  unfold promoted_tags. rewrite filter_map_app, kept_tags_value.
  destruct (String.eqb_spec name "p") as [->|Hx1]; [done|].
  destruct (String.eqb_spec name "prior") as [->|Hx2]; [done|].
  destruct (String.eqb_spec name "filer") as [->|Hx3]; [done|]. cbn [orb].
  rewrite <- (app_nil_r (filter_map _ (ev_tags stored))) at 2. f_equal. cbn [filter_map tag_value].
  by rewrite !(proj2 (String.eqb_neq _ name)) by congruence.
Qed.

(** Promoting an ask yields an ask, about the same. *)
Lemma promoted_parses stored successor ask target filer :
  parse_ask stored = Ok ask -> ev_tags successor = promoted_tags stored target filer ->
  ev_content successor = ev_content stored ->
  is_hex64_lowercase target = true -> is_hex64_lowercase filer = true ->
  is_hex64_lowercase (ev_id stored) = true ->
  parse_ask successor = Ok (readdressed ask target (ev_id stored) filer).
Proof.
  intros Hp Ht Hc Hx1 Hx2 Hx3.
  assert (forall name, tag_values successor name =
    if String.eqb name "p" then [target] else if String.eqb name "prior" then [ev_id stored]
    else if String.eqb name "filer" then [filer] else tag_values stored name) as Hv.
  { intros name. unfold tag_values. rewrite Ht. apply promoted_tag_values. }
  unfold parse_ask in Hp |- *. inv_bind.
  unfold optional_hex_tag, single_tag_value, optional_tag_value, parse_content in *.
  rewrite !Hv, Hc. cbn [String.eqb Ascii.eqb Bool.eqb].
  repeat match goal with E : ?e = Ok _ |- context [?e] => rewrite E; cbn [rbind] end.
  unfold validate_hex64_field. by rewrite Hx1, Hx2, Hx3, Hc0, Hc1.
Qed.

(** *** The successor filed *)

(** Runs the first, quiet, step of a handler: it goes on, or it fails here. *)
Ltac quietly Hw :=
  match goal with
  | |- context [bind ?m ?k ?w] =>
      let v := fresh "v" in let w1 := fresh "w" in let E := fresh "Erun" in let Hs := fresh "Hs" in
      let e := fresh "err" in
      destruct (bind_quiet m k w) as [(v & w1 & -> & E & Hs)|(e & w1 & -> & Hs)];
      [quiet_auto|exact Hw| |]
  end.
(** The same for a step that cannot fail. *)
Ltac surely Hw :=
  match goal with
  | |- context [bind ?m ?k ?w] =>
      let v := fresh "v" in let w1 := fresh "w" in let Hs := fresh "Hs" in
      destruct (bind_sure m k w) as (v & w1 & -> & Hs); [sure_auto|quiet_auto|exact Hw|]
  end.

Lemma superseded_closed c prior e p reason w :
  weather w = [] -> find_open_ask_by_event_id (c, prior) (asks w) = None ->
  close_superseded_prior true relay c prior e p reason w = (Ok tt, w).
Proof.
  intros Hw Hn. unfold close_superseded_prior. cbn [negb]. unfold bind, attempt.
  rewrite query_calm by done. by rewrite Hn.
Qed.

(** The end of [file_ask], once its row is in. *)
Lemma after_insert c e p prior deadline w :
  weather w = [] -> find_open_ask_by_event_id (c, prior) (asks w) = None ->
  exists w', (publish_head_for_new_ask relay c (ev_id e) deadline (audience_hex p) (default_option p) ;;
              close_superseded_prior true relay c prior e p supersede_reason ;;
              ret Applied) w = (Ok Applied, w') /\ same_asks w w'.
Proof.
  intros Hw Hn. surely Hw. destruct Hs as [Ha Hd Hc Hw'].
  erewrite bind_calm by (apply superseded_closed; [done|by rewrite Ha]). eexists. split; [reflexivity|]. by split.
Qed.

Lemma insert_calm c row w :
  weather w = [] ->
  db (fun w => match insert_ask (clock w) c row (asks w) with
               | Ok t => (Ok tt, set_asks t w)
               | Err e => (Err e, w)
               end) w
  = match insert_ask (clock w) c row (asks w) with
    | Ok t => (Ok tt, set_asks t w)
    | Err e => (Err (Db e), w)
    end.
Proof. intros Hw. unfold db. rewrite Hw. by destruct (insert_ask _ _ _ _). Qed.

(** The successor of a promoted row takes the slot the row gave up. *)
Lemma successor_filed c e p prior old w :
  weather w = [] -> ev_kind e = KIND_ASK -> ev_pubkey e = public_key relay -> parse_ask e = Ok p ->
  prior_ask_hex p = Some prior -> hex_decode prior = Some prior ->
  asks w !! (c, prior) = Some old -> is_open old = false ->
  find_open_ask_by_need c (initiative_id p) (need_key p) (asks w) = None ->
  exists o w', handle_ask_event true relay c e supersede_reason w = (o, w')
  /\ dir w' = dir w /\ clock w' = clock w /\ weather w' = []
  /\ match o with
     | Ok Applied =>
         asks w !! (c, ev_id e) = None
         /\ exists r, asks w' = <[(c, ev_id e) := r]> (asks w) /\ filed_as true relay c e p r
            /\ is_open r = true /\ prior_ask r = Some prior
     | Ok _ => False
     | Err _ => asks w' = asks w
     end.
Proof.
  intros Hw Hk Hpk Hp Hprior Hdec Hold Hno Hfree. unfold handle_ask_event. rewrite Hk, Z.eqb_refl.
  unfold handle_ask. rewrite Hp. unfold check_altitude, is_relay_signed at 1. rewrite Hpk, String.eqb_refl. cbn [andb].
  rewrite (bind_calm (ret None) _ None w eq_refl). erewrite bind_calm by (by apply query_calm). rewrite Hfree.
  unfold file_ask. quietly Hw; destruct Hs as [Ha Hd Hc Hw1].
  2:{ eexists _, _. split; [reflexivity|]. by split_and!. }
  assert (forall (err : AskError), exists o w', (@Err AskBrokerOutcome _ err, w0) = (o, w')
    /\ dir w' = dir w /\ clock w' = clock w /\ weather w' = [] /\ match o with
       | Ok Applied => asks w !! (c, ev_id e) = None /\ exists r, asks w' = <[(c, ev_id e) := r]> (asks w)
           /\ filed_as true relay c e p r /\ is_open r = true /\ prior_ask r = Some prior
       | Ok _ => False
       | Err _ => asks w' = asks w end) as Herr by (intros err; eexists _, _; by split_and!).
  rewrite bind_lift. unfold pubkey_of. destruct (from_hex (audience_hex p)) as [audience|] eqn:Ea; [|apply Herr].
  cbn [ok_or]. rewrite bind_lift. destruct (decode_hex64 (origin_thread_hex p)) as [origin|]; [|apply Herr].
  rewrite bind_lift. unfold decode_hex64, map_transpose. rewrite Hprior, Hdec. cbn [ok_or rbind].
  rewrite bind_lift. destruct (resolve_filer true relay e p) as [filer|] eqn:Ef; [|apply Herr].
  unfold bind at 1, attempt. rewrite (insert_calm c _ w0 Hw1).
  destruct (insert_ask _ _ _ _) as [t|[]] eqn:Eins.
  - apply insert_ask_row in Eins as (Hfresh & _ & r & Et & Hab & _ & Hst). cbn in Hfresh, Et, Hab.
    rewrite Ha in Hfresh, Et.
    destruct (after_insert c e p prior (deadline_of (ev_created_at e) v) (set_asks t w0)) as (w' & -> & [Ha' Hd' Hc' Hw']).
    { done. }
    { unfold find_open_ask_by_event_id. cbn. rewrite Et. rewrite lookup_insert_ne by congruence. rewrite Hold. cbn.
      by rewrite Hno. }
    cbn in Ha', Hd', Hc'. eexists _, w'. split; [reflexivity|]. split_and!; try congruence. exists r.
    unfold about, need_of in Hab. injection Hab as E1 E2 E3 E4 E5 E6 E7 E8 E9 E10 E11 E12.
    split_and!; [congruence| |by unfold is_open; rewrite Hst|done].
    unfold filed_as. split_and!; congruence.
  - unfold duplicate_of_winner. erewrite bind_calm by (by apply query_calm). rewrite Ha, Hfree. apply Herr.
  - apply Herr.
Qed.

(** *** The row promoted *)

Definition key_of (row : AskRow) : string * string := (community_id row, ask_event_id row).

(** The event a row was filed from is the one stored under its id. *)
Definition backed (row : AskRow) (stored : StoredEvent) : Prop :=
  ev_id (stored_event stored) = ask_event_id row
  /\ is_hex64_lowercase (ask_event_id row) = true
  /\ exists ask, parse_ask (stored_event stored) = Ok ask
     /\ filed_as true relay (community_id row) (stored_event stored) ask row.

(** Someone is still being asked: this row, or the one it was promoted to. *)
Definition still_asked (row : AskRow) (t : Asks) : Prop :=
  exists k r, t !! k = Some r /\ is_open r = true /\ need_of r = need_of row
  /\ (k = key_of row \/ prior_ask r = Some (ask_event_id row)).

Lemma still_open row t r :
  t !! key_of row = Some r -> is_open r = true -> need_of r = need_of row -> still_asked row t.
Proof. intros Hr Ho Hn. exists (key_of row), r. auto. Qed.

Lemma bind_update_row {B} g key f (k : bool -> M B) w row :
  weather w = [] -> (forall now t, g now t = update_ask is_open (f now) key t) ->
  asks w !! key = Some row -> is_open row = true ->
  bind (update g) k w = k true (set_asks (<[key := f (clock w) row]> (asks w)) w).
Proof.
  intros Hw Hg Hr Ho. unfold bind. rewrite update_calm by done. rewrite Hg. unfold update_ask. by rewrite Hr, Ho.
Qed.

Lemma reopen_calm row g successor w :
  weather w = [] -> asks w !! key_of row = Some g -> ask_status g = SPromoted ->
  resolution_event g = Some successor -> need_of g = need_of row ->
  find_open_ask_by_need (community_id row) (row_initiative row) (row_need row) (asks w) = None ->
  exists r w', reopen_after_promotion_failure row successor w = (Ok tt, w')
  /\ asks w' = <[key_of row := r]> (asks w) /\ is_open r = true /\ need_of r = need_of row.
Proof.
  intros Hw Hr Hs Hres Hn Hf. unfold reopen_after_promotion_failure, bind, attempt, db. rewrite Hw.
  unfold reopen_promoted_ask. unfold key_of in Hr. rewrite Hr. rewrite !bool_decide_eq_true_2 by done. cbn.
  unfold need_of in Hn. injection Hn as E1 E2 E3. rewrite E1, E2, E3, Hf. cbn.
  eexists _, _. split; [reflexivity|]. split_and!; [done|done|]. unfold need_of. cbn. congruence.
Qed.

(** The slot a promoted row leaves. *)
Lemma slot_freed t row r :
  wf_asks t -> t !! key_of row = Some row -> is_open row = true -> is_open r = false ->
  need_of r = need_of row ->
  find_open_ask_by_need (community_id row) (row_initiative row) (row_need row) (<[key_of row := r]> t) = None.
Proof.
  intros Ht Hr Ho Hc Hn. apply find_open_none. intros k r' [[<- <-]|[Hk Hr']]%lookup_insert_Some Hn'; [done|].
  destruct (is_open r') eqn:E; [|done]. destruct Hk. symmetry. by apply (wf_need t Ht _ _ r' row).
Qed.

(** Promotion in calm weather: the successor is open in the row's slot, or the
    row is open again. *)
Lemma promote_moves row stored target w :
  weather w = [] -> wf_asks (asks w) -> asks w !! key_of row = Some row -> is_open row = true ->
  backed row stored -> is_hex64_lowercase target = true ->
  let '(o, w') := promote_to true relay supersede_reason row stored target w in
  still_asked row (asks w')
  /\ match o with
     | Ok Promoted => exists s r r', asks w' = <[(community_id row, s) := r]> (<[key_of row := r']> (asks w))
         /\ about r' = about row /\ ask_status r' = SPromoted /\ resolution_event r' = Some s
         /\ is_open r = true /\ need_of r = need_of row /\ prior_ask r = Some (ask_event_id row)
         /\ from_hex target = Some (audience_pubkey r) /\ row_default r = row_default row
         /\ row_type r = row_type row /\ from_hex (filer_pubkey row) ≫= from_hex = Some (filer_pubkey r)
     | Ok _ => False
     | Err _ => True
     end.
Proof.
  intros Hw Ht Hr Ho (Hid & Hhex & ask & Hask & Hfiled) Htg. unfold promote_to.
  rewrite bind_lift. unfold pubkey_of. destruct (from_hex (filer_pubkey row)) as [filer|] eqn:Efil; cbn [ok_or].
  2:{ split; [|done]. by eapply still_open. }
  rewrite (bind_calm read_clock _ (clock w) w eq_refl), bind_lift.
  destruct (sign_event _ _ _ _ _) as [successor|] eqn:Es; cbn [ok_or].
  2:{ split; [|done]. by eapply still_open. }
  apply signed_event in Es as (Hk & _ & Htags & Hcont & Hpk & _).
  set (gone := closed_row SPromoted (Some (ev_id successor)) (resolved_by row) (row_default_executed row)
                 (clock w) row).
  rewrite (bind_update_row (fun now => mark_ask_promoted now (community_id row, ask_event_id row) (ev_id successor))
    (key_of row) (fun now r => closed_row SPromoted (Some (ev_id successor)) (resolved_by r)
    (row_default_executed r) now r) _ w row Hw (fun now t => eq_refl) Hr Ho).
  cbn [negb]. fold gone.
  assert (find_open_ask_by_need (community_id row) (row_initiative row) (row_need row)
            (<[key_of row := gone]> (asks w)) = None) as Hfree by (by apply slot_freed).
  surely Hw. destruct Hs as [Ha0 Hd0 Hc0 Hw0]. cbn in Ha0, Hd0, Hc0.
  pose proof (from_hex_canonical _ _ Efil) as Hfl.
  rewrite <- Hid in Hhex.
  pose proof (promoted_parses _ _ _ _ _ Hask Htags Hcont Htg Hfl Hhex) as Hparse. rewrite Hid in Hparse, Hhex.
  destruct Hfiled as (_ & _ & Hin & Hne & Hty & Hdf & Hct & _ & _).
  destruct (successor_filed (community_id row) successor _ (ask_event_id row) gone w0 Hw0 Hk Hpk Hparse eq_refl
    (hex64_decode _ Hhex)) as (o & w1 & Erun & Hd1 & Hc1 & Hw1 & Hout).
  { rewrite Ha0. apply lookup_insert_eq. }
  { done. }
  { cbn. by rewrite Ha0, <- Hin, <- Hne. }
  rewrite (bind_attempt _ _ _ _ _ Erun).
  destruct o as [[| |]|e]; [|done|done|].
  - destruct Hout as (Hfresh & r & Ha1 & (Ec & Ei & Ein & Ene & Ety & Edf & _ & Eau & Efi) & Hro & Hpr).
    assert (need_of r = need_of row) as Hneed by (unfold need_of; cbn in Ein, Ene; congruence).
    surely Hw1. destruct Hs as [Ha2 _ _ _]. cbn. rewrite Ha2, Ha1, Ha0. split.
    + exists (community_id row, ev_id successor), r. rewrite lookup_insert_eq. auto.
    + exists (ev_id successor), r, gone. cbn in *. split_and!; try done; try congruence.
      unfold resolve_filer, is_relay_signed, pubkey_of in Efi. rewrite Hpk, String.eqb_refl in Efi. cbn in Efi.
      destruct (from_hex filer); cbn in *; congruence.
  - assert (asks w1 = <[key_of row := gone]> (asks w)) as Ha1 by congruence.
    destruct (reopen_calm row gone (ev_id successor) w1 Hw1) as (r & w2 & Er & Ha2 & Ho2 & Hn2); try done.
    { rewrite Ha1. apply lookup_insert_eq. }
    { by rewrite Ha1. }
    unfold bind. rewrite Er. split; [|done]. eapply still_open; [rewrite Ha2; apply lookup_insert_eq|done|done].
Qed.

(** ** One due ask, in calm weather *)

(** Re-armed: open, with a later deadline. *)
Lemma redeadline_calm row d now w :
  weather w = [] -> asks w !! key_of row = Some row -> is_open row = true -> deadline_at row = Some d ->
  exists w', bind (redeadline relay row now) (fun _ => ret Nothing) w = (Ok Nothing, w')
  /\ asks w' = <[key_of row := with_deadline (clamp_i64 (now + rearm_window row d)) (clock w) row]> (asks w).
Proof.
  intros Hw Hr Ho Hd. unfold redeadline. rewrite bind_assoc, bind_lift, Hd. cbn [ok_or]. rewrite bind_assoc.
  rewrite (bind_update_row (fun clock => extend_ask_deadline clock (key_of row)
    (clamp_i64 (now + rearm_window row d))) (key_of row)
    (fun n => with_deadline (clamp_i64 (now + rearm_window row d)) n) _ w row Hw (fun n t => eq_refl) Hr Ho).
  surely Hw. destruct Hs as [Ha _ _ _]. eexists. split; [reflexivity|]. by rewrite Ha.
Qed.

(** The window of a re-armed ask counts from its creation again: unanswered,
    it at least doubles. *)
Lemma rearm_window_doubles row d now clock :
  deadline_at row = Some d -> d <= now -> ask_created_at row <= d ->
  i64_min <= now -> now + rearm_window row d <= i64_max ->
  let row' := with_deadline (clamp_i64 (now + rearm_window row d)) clock row in
  exists d', deadline_at row' = Some d' /\ 2 * (d - ask_created_at row) <= rearm_window row' d'.
Proof.
  intros Hd Hn Hc Hlo Hhi row'. eexists. split; [reflexivity|].
  assert (clamp_i64 (now + rearm_window row d) = now + rearm_window row d) as ->.
  { unfold clamp_i64, rearm_window, MIN_REDEADLINE_WINDOW_SECS in *. lia. }
  unfold rearm_window. cbn. lia.
Qed.

Definition settled (row : AskRow) (t : Asks) : Prop :=
  exists r, t !! key_of row = Some r /\ is_final r.

(** Answered with its default, or left as it was. *)
Lemma execute_calm row stored option w :
  weather w = [] -> asks w !! key_of row = Some row -> is_open row = true ->
  let '(o, w') := execute_default relay row stored option w in
  (still_asked row (asks w') \/ settled row (asks w'))
  /\ (o = Ok DefaultExecuted -> settled row (asks w')) /\ o <> Ok Nothing /\ o <> Ok Promoted.
Proof.
  intros Hw Hr Ho. unfold execute_default. rewrite bind_lift.
  assert (forall e : AskError, (still_asked row (asks w) \/ settled row (asks w))
    /\ (Err e = Ok DefaultExecuted -> settled row (asks w)) /\ Err e <> Ok Nothing /\ Err e <> Ok Promoted) as Herr.
  { intros e. split_and!; try done. left. by eapply still_open. }
  destruct (map_err _ _) as [ask|]; [|apply Herr]. rewrite (bind_calm read_clock _ (clock w) w eq_refl), bind_lift.
  destruct (sign_event _ _ _ _ _) as [res|]; cbn [ok_or]; [|apply Herr].
  rewrite (bind_update_row (fun now => resolve_ask now (key_of row) (ev_id res) (public_key relay) true) (key_of row)
    (fun now => closed_row SResolved (Some (ev_id res)) (Some (public_key relay)) true now) _ w row Hw
    (fun n t => eq_refl) Hr Ho). cbn [negb]. clear Herr.
  surely Hw. destruct Hs as [Ha _ _ Hw0]. surely Hw0. destruct Hs as [Ha1 _ _ Hw1].
  assert (forall w', same_asks w1 w' -> settled row (asks w')) as Hset.
  { intros w' [Ha' _ _ _]. rewrite Ha', Ha1, Ha. eexists. split; [apply lookup_insert_eq|]. by left. }
  quietly Hw1; specialize (Hset _ Hs); split_and!; auto.
Qed.

(** A ghost: withdrawn, or left as it was. *)
Lemma ghost_calm row w :
  weather w = [] -> asks w !! key_of row = Some row -> is_open row = true ->
  let w' := snd (close_ask_with_no_backing_event relay ghost_reason row w) in
  still_asked row (asks w') \/ settled row (asks w').
Proof.
  intros Hw Hr Ho. unfold close_ask_with_no_backing_event.
  rewrite (bind_calm read_clock _ (clock w) w eq_refl), bind_lift.
  destruct (sign_withdrawal _ _ _ _) as [wd|]; cbn [ok_or]; [|left; by eapply still_open].
  rewrite (bind_update_row (fun now => withdraw_ask now (key_of row) (ev_id wd)) (key_of row)
    (fun now r => closed_row SWithdrawn (Some (ev_id wd)) (resolved_by r) (row_default_executed r) now r) _ w row Hw
    (fun n t => eq_refl) Hr Ho). cbn [negb].
  surely Hw. destruct Hs as [Ha _ _ Hw0]. surely Hw0. destruct Hs as [Ha1 _ _ _]. right.
  cbn. rewrite Ha1, Ha. eexists. split; [apply lookup_insert_eq|]. by right.
Qed.

Lemma executive_hex c w pk : fst (find_unique_executive c w) = Ok (Some pk) -> is_hex64_lowercase pk = true.
Proof.
  destruct (find_unique_executive c w) as [r w'] eqn:E. cbn. intros ->. unfold find_unique_executive in E.
  apply bind_ok in E as (payroll & w1 & _ & E). apply bind_ok in E as (roster & w2 & _ & E).
  injection E as E _. apply unique_executive_spec in E as [Ho|[_ Ho]]; specialize (Ho pk);
    destruct Ho as [_ Ho]; destruct (Ho eq_refl) as (_ & h & _ & Hh).
  - destruct Hh as [[_ Hd] _]. unfold d_pubkey in Hd. destruct (hex_decode _); [|done]. by eapply from_hex_canonical.
  - destruct Hh as [_ Hd]. unfold d_pubkey in Hd. destruct (hex_decode _); [|done]. by eapply from_hex_canonical.
Qed.
Lemma one_owner_hex c w pk : fst (find_unique_owner c w) = Ok (Some pk) -> is_hex64_lowercase pk = true.
Proof.
  destruct (find_unique_owner c w) as [r w'] eqn:E. cbn. intros ->. unfold find_unique_owner in E.
  apply bind_ok in E as ([|o [|]] & w1 & _ & E); [done| |done].
  apply bind_ok in E as (k & w2 & [Hk ->]%lifted_ok & E). injection E as <- _.
  destruct (from_hex o) eqn:Eo; [|done]. injection Hk as ->. by eapply from_hex_canonical.
Qed.

(** The next rung of an audience that is no owner. *)
Definition next_rung (community : string) (tier : option AgentTier) : M (option string) :=
  match tier with
  | Some Leader => find_unique_executive community
  | Some Executive => find_unique_owner community
  | Some Worker | None => ret None
  end.
Lemma next_rung_hex c t w pk : fst (next_rung c t w) = Ok (Some pk) -> is_hex64_lowercase pk = true.
Proof. destruct t as [[]|]; [done|apply executive_hex|apply one_owner_hex|done]. Qed.
Lemma readonly_rung c t : readonly (next_rung c t).
Proof. unfold next_rung. readonly_auto. Qed.

Definition due_moved (now : Z) (row : AskRow) (o : Result DueOutcome AskError) (t : Asks) : Prop :=
  (still_asked row t \/ settled row t)
  /\ match o with
     | Ok DefaultExecuted => settled row t
     | Ok Promoted => exists s r, t !! (community_id row, s) = Some r /\ is_open r = true
         /\ need_of r = need_of row /\ prior_ask r = Some (ask_event_id row)
     | Ok Nothing => exists r d, t !! key_of row = Some r /\ is_open r = true
         /\ deadline_at r = Some d /\ now < d
     | Err _ => True
     end.

Lemma due_rearmed now row d t w :
  deadline_at row = Some d -> i64_min <= now -> now + rearm_window row d <= i64_max ->
  due_moved now row (Ok Nothing) (<[key_of row := with_deadline (clamp_i64 (now + rearm_window row d)) w row]> t)
  \/ is_open row = false.
Proof.
  intros Hd Hn Hm. destruct (is_open row) eqn:Ho; [left|auto]. split.
  - left. eapply still_open; [apply lookup_insert_eq|done|done].
  - eexists _, _. split_and!; [apply lookup_insert_eq|done|reflexivity|].
    assert (MIN_REDEADLINE_WINDOW_SECS <= rearm_window row d) by (unfold rearm_window; lia).
    unfold MIN_REDEADLINE_WINDOW_SECS in *. unfold clamp_i64. lia.
Qed.

Lemma due_ask_step now row d w :
  weather w = [] -> wf_asks (asks w) -> asks w !! key_of row = Some row -> is_open row = true ->
  deadline_at row = Some d -> i64_min <= now -> now + rearm_window row d <= i64_max ->
  (forall stored, events w !! key_of row = Some stored -> backed row stored) ->
  let '(o, w') := process_due_ask true relay ghost_reason supersede_reason now row w in
  due_moved now row o (asks w').
Proof.
  intros Hw Ht Hr Ho Hd Hn Hm Hback.
  assert (let '(o, w') := bind (redeadline relay row now) (fun _ => ret Nothing) w in due_moved now row o (asks w'))
    as Hre.
  { destruct (redeadline_calm row d now w Hw Hr Ho Hd) as (w' & -> & ->).
    destruct (due_rearmed now row d (asks w) (clock w) Hd Hn Hm); [done|congruence]. }
  unfold process_due_ask, lookup_community_host. calm_step Hw.
  destruct (hosts (dir w) !! _); [|exact Hre].
  calm_step Hw. cbn [fst snd snap]. fold (key_of row). destruct (events w !! key_of row) as [stored|] eqn:Ev.
  2:{ pose proof (ghost_calm row w Hw Hr Ho) as Hg.
      destruct (close_ask_with_no_backing_event relay ghost_reason row w) as [r w1] eqn:E.
      rewrite (bind_attempt _ _ _ _ _ E). by split. }
  calm_step Hw. cbn [fst snap]. destruct (owner_in _ _ _).
  { destruct (row_default row) as [option|]; [|exact Hre].
    pose proof (execute_calm row stored option w Hw Hr Ho) as Hx.
    destruct (execute_default relay row stored option w) as [[[]|] w1]; destruct Hx as (Hx1 & Hx2 & Hx3 & Hx4);
      split; auto; done. }
  unfold promote_or_redeadline. rewrite bind_lift. unfold pubkey_of.
  destruct (from_hex (audience_pubkey row)) as [pk|]; cbn [ok_or].
  2:{ split; [|done]. left. by eapply still_open. }
  calm_step Hw. cbv beta. set (tier := tier_in (fst (snap w)) (community_id row) pk).
  match goal with |- context [bind ?m _ w] => replace m with (next_rung (community_id row) tier)
    by (by destruct tier as [[]|]) end.
  set (rung := next_rung _ _).
  assert (rung w = (fst (rung w), w)) as Hrung.
  { destruct (readonly_rung (community_id row) tier) as [f Hf]. unfold rung. by rewrite (rd_calm _ _ Hf). }
  unfold bind. rewrite Hrung. destruct (fst (rung w)) as [[target|]|] eqn:Et; [|exact Hre|].
  2:{ split; [|done]. left. by eapply still_open. }
  apply next_rung_hex in Et. specialize (Hback _ eq_refl).
  pose proof (promote_moves row stored target w Hw Ht Hr Ho Hback Et) as Hp.
  destruct (promote_to _ _ _ _ _ _ _) as [[[]|] w1]; destruct Hp as [Hs Hp]; (split; [by left|]); try done.
  destruct Hp as (sx & r & r' & -> & _ & _ & _ & Hro & Hnn & Hpr & _). exists sx, r. rewrite lookup_insert_eq. auto.
Qed.
End Due.

(** ** What a client reads in an ask-state head

    The head the relay publishes replaces the one before it, and parses back
    to the deadline and the ending it was built from. *)

Local Open Scope Z_scope.

(** The words of each vocabulary read back. *)
Lemma ask_type_words t : ask_type_parse (ask_type_as_str t) = Some t.
Proof. by destruct t. Qed.
Lemma tier_words t : tier_parse (tier_as_str t) = Some t.
Proof. by destruct t. Qed.

(** The fields a client learns from an open head. *)
Definition open_state (id : string) (deadline : Z) (rearmed : option Z) (o : ExpiryOutcome)
    : ParsedAskState := {|
  state_ask_event_id := id; state_status := SOpen; state_deadline_at := Some deadline;
  state_on_expiry := Some (outcome_action o);
  state_default_option := match o with OutcomeDefault option => Some option | _ => None end;
  state_promotes_to := match o with OutcomePromotes t => Some t | _ => None end;
  state_rearmed_at := rearmed; state_closed_at := None; state_default_executed := false;
  state_successor := None |}.

Definition closed_state (id : string) (now : Z) (c : AskClosure) : ParsedAskState := {|
  state_ask_event_id := id;
  state_status := match c with
                  | ClosureResolved _ _ => SResolved
                  | ClosureWithdrawn => SWithdrawn
                  | ClosurePromoted _ => SPromoted
                  end;
  state_deadline_at := None; state_on_expiry := None;
  state_default_option := match c with ClosureResolved _ o => o | _ => None end;
  state_promotes_to := None; state_rearmed_at := None; state_closed_at := Some now;
  state_default_executed := match c with ClosureResolved b _ => b | _ => false end;
  state_successor := match c with ClosurePromoted s => Some s | _ => None end |}.

Definition time_ok (n : Z) : Prop := 0 <= n <= i64_max.

Lemma time_int n : time_ok n -> json_int_ok n = true.
Proof. intros [? ?]. unfold json_int_ok. assert (i64_min <= 0 /\ i64_max <= u64_max) as [? ?] by done.
  apply andb_true_iff. split; apply Z.leb_le; lia. Qed.
Lemma time_field n err : time_ok n ->
  match as_i64 (JInt n) with Some n => if 0 <=? n then Ok (Some n) else Err err | None => Err err end
  = (Ok (Some n) : Result (option Z) AskParseError).
Proof.
  intros [? ?]. assert (i64_min <= 0) by done. cbn.
  rewrite (proj2 (Z.leb_le _ _)) by lia. rewrite (proj2 (Z.leb_le _ _)) by lia. cbn.
  by rewrite (proj2 (Z.leb_le _ _)) by lia.
Qed.

Section HeadFacts.
Context `{JsonLib, NostrLib, !JsonLaws, !NostrLaws}.
Context (relay : Keys).

(** Printed flat objects read back. *)
Lemma flat_read v fields :
  v = JObject fields -> bt_wf fields ->
  Forall (fun f => match snd f with
                   | JNull | JBool _ | JString _ => True
                   | JInt n => json_int_ok n = true
                   | _ => False
                   end) fields ->
  json_from_str (json_to_string v) = Some v.
Proof. apply json_read_printed. Qed.

Lemma open_read deadline rearmed o :
  time_ok deadline -> (forall r, rearmed = Some r -> time_ok r) ->
  json_from_str (json_to_string (open_content deadline rearmed o)) = Some (open_content deadline rearmed o).
Proof.
  intros Hd Hr. unfold open_content, json_object. eapply flat_read; [reflexivity| |].
  - apply foldl_insert_wf. constructor.
  - assert (forall r, rearmed = Some r -> json_int_ok r = true) as Hr' by (intros r E; by apply time_int, Hr).
    apply time_int in Hd. destruct rearmed as [r|], o as [?|?|];
      try pose proof (Hr' r eq_refl); cbv -[json_int_ok]; repeat constructor; done.
Qed.

Lemma closed_read now c :
  time_ok now ->
  json_from_str (json_to_string (closed_content now c)) = Some (closed_content now c).
Proof.
  intros Hn. apply time_int in Hn. unfold closed_content, json_object. eapply flat_read; [reflexivity| |].
  - apply foldl_insert_wf. constructor.
  - destruct c as [b [x|]| |x]; cbv -[json_int_ok]; repeat constructor; done.
Qed.

(** The address of a head. *)
Lemma head_address e id : ev_tags e = [["d"%string; id]] -> single_tag_value e "d" = Ok id.
Proof. intros Ht. unfold single_tag_value, tag_values. by rewrite Ht. Qed.

Lemma open_head_parses e id deadline rearmed o :
  ev_tags e = [["d"%string; id]] -> ev_content e = json_to_string (open_content deadline rearmed o) ->
  is_hex64_lowercase id = true -> time_ok deadline -> (forall r, rearmed = Some r -> time_ok r) ->
  parse_ask_state e = Ok (open_state id deadline rearmed o).
Proof.
  intros Ht Hc Hid Hd Hr. unfold parse_ask_state, parse_content. rewrite (head_address _ _ Ht), Hc, open_read by done.
  cbn [rbind ok_or]. unfold validate_hex64_field. rewrite Hid. cbn [rbind].
  assert (forall f, ask_state_int_field (open_content deadline rearmed o) f =
    match jget (open_content deadline rearmed o) f with
    | None | Some JNull => Ok None
    | Some value => match as_i64 value with
        | Some n => if 0 <=? n then Ok (Some n) else Err (InvalidAskState f)
        | None => Err (InvalidAskState f) end end) as Hf by done.
  rewrite !Hf.
  replace (jget (open_content deadline rearmed o) "deadline_at") with (Some (JInt deadline))
    by (by destruct rearmed, o as [|[]|]).
  replace (jget (open_content deadline rearmed o) "rearmed_at") with (JInt <$> rearmed)
    by (by destruct rearmed, o as [|[]|]).
  replace (jget (open_content deadline rearmed o) "closed_at") with (@None Json)
    by (by destruct rearmed, o as [|[]|]).
  rewrite (time_field deadline _ Hd).
  assert (match JInt <$> rearmed with
    | None | Some JNull => Ok None
    | Some value => match as_i64 value with
        | Some n => if 0 <=? n then Ok (Some n) else Err (InvalidAskState "rearmed_at")
        | None => Err (InvalidAskState "rearmed_at") end end = (Ok rearmed : Result _ AskParseError)) as ->.
  { destruct rearmed as [r|]; [|done]. cbn [fmap option_fmap option_map]. by rewrite (time_field r _ (Hr r eq_refl)). }
  unfold open_state. by destruct rearmed, o as [|[]|].
Qed.

(** The successor of a promotion is an event id. *)
Definition closure_ok (c : AskClosure) : Prop :=
  match c with ClosurePromoted s => is_hex64_lowercase s = true | _ => True end.

Lemma hex64_nonempty s : is_hex64_lowercase s = true -> str_is_empty s = false.
Proof. by destruct s. Qed.

Lemma closed_head_parses e id now c :
  ev_tags e = [["d"%string; id]] -> ev_content e = json_to_string (closed_content now c) ->
  is_hex64_lowercase id = true -> time_ok now -> closure_ok c ->
  parse_ask_state e = Ok (closed_state id now c).
Proof.
  intros Ht Hc Hid Hd Hr. unfold parse_ask_state, parse_content. rewrite (head_address _ _ Ht), Hc, closed_read by done.
  cbn [rbind ok_or]. unfold validate_hex64_field at 1. rewrite Hid. cbn [rbind].
  assert (ask_state_int_field (closed_content now c) "closed_at" = Ok (Some now)) as Hcl.
  { unfold ask_state_int_field, non_negative_field.
    replace (jget (closed_content now c) "closed_at") with (Some (JInt now)) by (by destruct c as [? []| |]).
    by rewrite time_field. }
  assert (successor_field (closed_content now c)
    = Ok (match c with ClosurePromoted s => Some s | _ => None end)) as Hs.
  { destruct c as [? []| |s]; [done..|]. unfold successor_field.
    replace (get_str (closed_content now (ClosurePromoted s)) "successor_event_id") with (Some s) by done.
    rewrite (hex64_nonempty s Hr). unfold validate_hex64_field. cbn in Hr. by rewrite Hr. }
  rewrite Hcl, Hs. unfold closed_state. by destruct c as [? []| |].
Qed.

(** ** Publication *)

(** A published head takes the address, whatever head was there. *)
Lemma head_stored c id content w :
  weather w = [] ->
  exists w', sign_store_and_fan_out_head relay c id content w = (Ok tt, w')
  /\ exists ts, (clock w <= ts /\ forall old, ask_heads w !! (c, id) = Some old -> ev_created_at old < ts)
     /\ forall e, sign_event relay KIND_ASK_STATE ts [["d"%string; id]] (json_to_string content) = Some e ->
        ask_heads w' !! (c, id) = Some e.
Proof.
  intros Hw. unfold sign_store_and_fan_out_head. rewrite (bind_calm read_clock _ (clock w) w eq_refl).
  rewrite (bind_attempt _ _ _ _ _ (query_calm _ w Hw)).
  set (ts := match ask_heads w !! (c, id) with Some p => Z.max (clock w) (ev_created_at p + 1) | None => clock w end).
  match goal with |- context [sign_event relay KIND_ASK_STATE ?t _ _] => change t with ts end.
  assert (clock w <= ts /\ forall old, ask_heads w !! (c, id) = Some old -> ev_created_at old < ts) as Hts.
  { unfold ts. split; [destruct (ask_heads w !! _); lia|]. intros old ->. lia. }
  destruct (sign_event relay KIND_ASK_STATE ts _ _) as [e|] eqn:Es.
  2:{ eexists. split; [reflexivity|]. exists ts. split; [done|]. intros e. by rewrite Es. }
  unfold replace_parameterized_event, bind, attempt, db. rewrite Hw. cbn.
  eexists. split; [reflexivity|]. exists ts. split; [done|]. intros e' Es'. rewrite Es in Es'. injection Es' as <-.
  apply signed_event in Es as (_ & Hat & _). destruct (ask_heads w !! (c, id)) as [old|] eqn:Eo.
  - destruct Hts as [_ Hts]. specialize (Hts old eq_refl). unfold replaces.
    rewrite (proj2 (Z.ltb_ge _ _)), (proj2 (Z.eqb_neq _ _)) by lia. cbn. apply lookup_insert_eq.
  - apply lookup_insert_eq.
Qed.
End HeadFacts.
