(* ===== verification/AskToy.v ===== *)
(** * Concrete libraries for the witnesses

    A JSON library that prints flat objects as the digits of their encoding,
    a signing library that always signs, and a small company: an owner, an
    executive, a leader and a worker. *)

From Stdlib Require Import ZArith Lia Ascii.
From stdpp Require Import base list gmap strings numbers countable.
From S2P Require Import Prelude MachineInt RustStr Json Event AskWire AskTable AskWorld AskGate AskHead AskBroker AskFacts.
Local Open Scope Z_scope.

(** ** Printing *)

Fixpoint bits (p : positive) : string :=
  match p with
  | xH => ""
  | xO p => String "0" (bits p)
  | xI p => String "1" (bits p)
  end.
Fixpoint unbits (s : string) : option positive :=
  match s with
  | EmptyString => Some xH
  | String c s =>
      if Ascii.eqb c "0" then xO <$> unbits s
      else if Ascii.eqb c "1" then xI <$> unbits s else None
  end.
Lemma toy_unbits_bits p : unbits (bits p) = Some p.
Proof. induction p as [p IH|p IH|]; cbn; [by rewrite IH..|done]. Qed.

Notation Scalar := (option (bool + (string + Z)))%type.
Definition scalar (v : Json) : option Scalar :=
  match v with
  | JNull => Some None
  | JBool b => Some (Some (inl b))
  | JString s => Some (Some (inr (inl s)))
  | JInt n => Some (Some (inr (inr n)))
  | _ => None
  end.
Definition unscalar (s : Scalar) : Json :=
  match s with
  | None => JNull
  | Some (inl b) => JBool b
  | Some (inr (inl s)) => JString s
  | Some (inr (inr n)) => JInt n
  end.
Fixpoint scalars (l : list (string * Json)) : option (list (string * Scalar)) :=
  match l with
  | [] => Some []
  | (k, v) :: l => s ← scalar v; l' ← scalars l; Some ((k, s) :: l')
  end.
Definition unscalars (l : list (string * Scalar)) : list (string * Json) :=
  (fun f => (fst f, unscalar (snd f))) <$> l.

(** What some asks say. *)
Definition an_option (label : string) : Json := json_object [("label", JString label)]%string.
Definition ask_words (default_ : string) : Json := json_object
  [("headline", JString "Which vendor?"); ("cost_of_delay", JString "a day a day");
   ("options", JArray [an_option "wait"; an_option "go"]); ("default_option", JString default_)]%string.
Definition now_words : Json := jset "default_window_secs" (JInt 0) (ask_words "go").
Definition known_text (s : string) : option Json :=
  if String.eqb s "wait by default" then Some (ask_words "wait")
  else if String.eqb s "go at once" then Some now_words
  else if String.eqb s "grant refunds" then Some (json_object
    [("category", JString "refund"); ("scope", JString "tickets"); ("active", JBool true);
     ("cap_nano_usd", JInt 500)]%string)
  else if String.eqb s "answer" then Some (json_object [("answer", JString "go")]%string)
  else None.

#[export] Instance toy_json : JsonLib := {
  json_from_str s := match unbits s with
                     | Some p => (fun l => JObject (unscalars l)) <$> decode p
                     | None => known_text s
                     end;
  json_to_string v := match v with
                      | JObject fields => match scalars fields with
                                          | Some l => bits (encode l)
                                          | None => "?"
                                          end
                      | _ => "?"
                      end;
}.
#[export] Instance toy_json_laws : JsonLaws.
Proof.
  split. intros v fields -> _ Hf. unfold json_to_string, json_from_str, toy_json.
  assert (exists l, scalars fields = Some l /\ unscalars l = fields) as (l & -> & Hl).
  { induction Hf as [|[k x] fields Hx Hf IH]; [by exists []|]. destruct IH as (l & E & El). cbn.
    destruct x; try done; cbn; rewrite E; (eexists; split; [reflexivity|]); cbn; unfold unscalars in El; by rewrite El. }
  rewrite toy_unbits_bits, decode_encode. cbn. by rewrite Hl.
Qed.

(** ** Signing *)

Fixpoint repeated (n : nat) (c : ascii) : string :=
  match n with O => EmptyString | S n => String c (repeated n c) end.
Definition hex_of (c : ascii) : string := repeated 64 c.

Definition toy_id (kind : Z) : string :=
  if kind =? KIND_ASK then hex_of "1" else if kind =? KIND_ASK_RESOLUTION then hex_of "2"
  else if kind =? KIND_ASK_WITHDRAWAL then hex_of "3" else hex_of "4".

#[export] Instance toy_nostr : NostrLib := {
  Keys := unit;
  public_key _ := hex_of "f";
  sign_event _ kind at_ tags content := Some {|
    ev_id := toy_id kind; ev_pubkey := hex_of "f"; ev_created_at := at_; ev_kind := kind;
    ev_tags := tags; ev_content := content; ev_sig := "" |};
  from_hex s := if is_hex64_lowercase s then Some s else None;
}.
#[export] Instance toy_nostr_laws : NostrLaws.
Proof.
  split.
  - intros k kind at_ tags content e [= <-]. split_and!; try done. cbn. unfold toy_id.
    by repeat case_match.
  - intros s h. cbn. destruct (is_hex64_lowercase s) eqn:E; [|done]. by intros [= <-].
Qed.

Definition toy_key : @Keys toy_nostr := tt.

(** ** A company *)

Definition owner_pk : string := hex_of "a".
Definition executive_pk : string := hex_of "b".
Definition leader_pk : string := hex_of "c".
Definition worker_pk : string := hex_of "d".
Definition relay_pk : string := hex_of "f".

Definition employee (pk role rk : string) (boss : option string) : Employee := {|
  emp_pubkey := pk; role_id := role; rank := rk; manager := boss; employed := true;
  provisioned_handle := None |}.

Definition grant_event : Event := {|
  ev_id := hex_of "9"; ev_pubkey := owner_pk; ev_created_at := 5; ev_kind := KIND_DELEGATION_GRANT;
  ev_tags := [["d"; "g1"]]%string; ev_content := "grant refunds"; ev_sig := "" |}.

(** The executive's own head, an owner's word. *)
Definition executive_head : Event := {|
  ev_id := hex_of "8"; ev_pubkey := owner_pk; ev_created_at := 4; ev_kind := KIND_MANAGED_AGENT;
  ev_tags := [["d"%string; executive_pk]];
  ev_content := json_to_string (json_object [("tier", JString "executive")]%string); ev_sig := "" |}.

Definition company : Directory := {|
  relay_members := {[ ("c", owner_pk) := "owner" ]}%string;
  employees := [("c", employee executive_pk "ceo" "executive" None);
                ("c", employee leader_pk "support" "leader" (Some executive_pk));
                ("c", employee worker_pk "agent" "worker" (Some leader_pk))]%string;
  head_rows := [{| row_community := "c"; row_kind := KIND_DELEGATION_GRANT; row_d := "g1";
                   row_event := grant_event |};
                {| row_community := "c"; row_kind := KIND_MANAGED_AGENT; row_d := executive_pk;
                   row_event := executive_head |}];
  channel_members := []; open_channels := [];
  thread_replies := ∅; hosts := {[ "c" := "acme" ]}%string; last_message_at := ∅; last_authored_at := ∅ |}.

(** An ask with a default. *)
Definition ask_event (signer audience : string) : Event := {|
  ev_id := hex_of "7"; ev_pubkey := signer; ev_created_at := 100; ev_kind := KIND_ASK;
  ev_tags := [["ask-type"; "decision"]; ["p"; audience]; ["initiative"; "launch"]; ["need"; "vendor"];
              ["task"; "t1"]]%string;
  ev_content := "wait by default"; ev_sig := "" |}.

Definition fresh (now : Z) : World := {|
  asks := ∅; events := ∅; ask_heads := ∅; dir := company; weather := []; clock := now |}.

(** The executive's ask of the owner and a leader's of the executive, filed. *)
Definition filed_by (signer audience : string) : World :=
  let w := snd (handle_ask_event true toy_key "c" (ask_event signer audience) "superseded" (fresh 100)) in
  set_events {[ ("c"%string, hex_of "7") :=
    {| stored_event := ask_event signer audience; stored_channel := None; verified := true |} ]} w.

Definition row_of (w : World) : AskRow :=
  default {| community_id := ""; ask_event_id := ""; row_type := Stall; row_initiative := ""; row_need := "";
             audience_pubkey := ""; filer_pubkey := ""; origin_thread := None; prior_ask := None;
             row_category := None; row_default := None; deadline_at := None; ask_status := SOpen;
             resolution_event := None; resolved_by := None; row_default_executed := false;
             ask_created_at := 0; ask_updated_at := 0 |}
    (asks w !! ("c", hex_of "7")%string).

Lemma filed_by_executive :
  fst (handle_ask_event true toy_key "c" (ask_event executive_pk owner_pk) "superseded" (fresh 100)) = Ok Applied.
Proof. vm_compute. reflexivity. Qed.
Lemma filed_by_leader :
  fst (handle_ask_event true toy_key "c" (ask_event leader_pk executive_pk) "superseded" (fresh 100)) = Ok Applied.
Proof. vm_compute. reflexivity. Qed.
