(* ===== verification/AskTheorems.v ===== *)
(** * What the interrupt system promises

    The properties of asks, each with a run of the small company of [AskToy]. *)

From Stdlib Require Import ZArith Lia Ascii.
From stdpp Require Import base list gmap strings numbers sorting countable.
From S2P Require Import Prelude MachineInt RustStr Json Event AskWire AskTable AskWorld AskGate AskHead AskBroker AskSweep AskSafety AskAuthority AskFacts AskDue AskToy.
Local Open Scope Z_scope.

Section Promises.
Context `{JsonLib, NostrLib}.
Context (durable : bool) (relay : Keys).
Context (ghost_reason supersede_reason : string) (sha256_16 : string -> string).
Context (stall_headline : string -> string) (stall_cost : Z -> string).
Notation step := (ask_step durable relay ghost_reason supersede_reason sha256_16 stall_headline stall_cost).

(** C10. Whatever the handlers, the sweeps, other processes and a failing database
    do, from an empty table: a need has at most one open ask, and a row carries
    a default only if it is no stall ask and its category no human's to decide. *)
Theorem asks_stay_wellformed w w' :
  empty_relay w -> rtc step w w' ->
  (forall k1 k2 r1 r2, asks w' !! k1 = Some r1 -> asks w' !! k2 = Some r2 ->
     is_open r1 = true -> is_open r2 = true -> need_of r1 = need_of r2 -> k1 = k2)
  /\ (forall k r o, asks w' !! k = Some r -> row_default r = Some o ->
     row_type r <> Stall /\ forall c, row_category r = Some c -> is_hard_list_category c = false).
Proof.
  intros Hw Hr. destruct (steps_grow _ _ _ _ _ _ _ _ _ (empty_inv _ Hw) Hr) as [[Ha _] _]. split.
  - apply (wf_need _ Ha).
  - intros k r o Hk Hd. exact (wf_policy _ Ha _ _ Hk _ Hd).
Qed.

(** No ask is lost or rewritten: later, its row is there, about the same, and
    once answered or withdrawn it is the same row for good. *)
Theorem asks_are_kept w w' k r :
  empty_relay w -> rtc step w w' -> forall w'', rtc step w' w'' -> asks w' !! k = Some r ->
  exists r', asks w'' !! k = Some r' /\ about r' = about r /\ (is_final r -> r' = r).
Proof.
  intros Hw Hr w'' Hr' Hk. destruct (steps_grow _ _ _ _ _ _ _ _ _ (empty_inv _ Hw) Hr) as [Hi _].
  destruct (steps_grow _ _ _ _ _ _ _ _ _ Hi Hr') as [_ Hg]. destruct (Hg _ _ Hk) as (r' & Hr2 & Ha & Hf).
  eauto.
Qed.

(** An ask is filed up the ladder only: worker to leader, leader to executive,
    executive to owner (the relay's own promotions apart). Its row takes the
    free slot of its need, with a deadline within thirty days. *)
Theorem filing_follows_ladder c e reason w w' :
  Inv w -> 0 <= ev_created_at e <= i64_max - MAX_ASK_WINDOW_SECS ->
  handle_ask durable relay c e reason w = (Ok Applied, w') ->
  exists p t t' r, parse_ask e = Ok p
  /\ (is_relay_signed durable relay e = true \/ on_ladder (dir w) c (ev_pubkey e) (audience_hex p))
  /\ grows (asks w) t /\ find_open_ask_by_need c (initiative_id p) (need_key p) t = None
  /\ t' = <[(c, ev_id e) := r]> t /\ grows t' (asks w')
  /\ filed_as durable relay c e p r /\ is_open r = true
  /\ exists d, deadline_at r = Some d /\ ev_created_at e <= d <= ev_created_at e + MAX_ASK_WINDOW_SECS
     /\ forall secs, default_window_secs p = Some secs -> d = ev_created_at e + secs.
Proof.
  intros Hi Ht Hf. destruct (handle_ask_applied _ _ _ _ _ _ _ Hi Hf) as (p & w1 & Hp & Hl & Hi1 & Hw1 & Hf').
  destruct (file_ask_applied _ _ _ _ _ _ _ _ Hp Hi1 Hf')
    as (window & a & o & pr & fl & t & t' & Hwin & Hpos & Ha & Hfl & _ & Hg & Hins & Hg').
  apply insert_ask_row in Hins as (_ & Hfree & r & -> & Hab & Hd & Hs). cbn in *.
  exists p, t, (<[(c, ev_id e) := r]> t), r. unfold about, need_of in Hab. injection Hab as E1 E2 E3 E4 E5 E6 E7 E8 E9 E10 E11 _.
  split_and!; try done; [etrans; [apply (later_asks _ _ Hw1)|done]| |by unfold is_open; rewrite Hs|].
  - unfold filed_as. split_and!; congruence.
  - exists (deadline_of (ev_created_at e) window). split_and!; [done|by apply deadline_bounds..|].
    intros secs Hsecs. pose proof (parse_window_bounds _ _ _ Hp Hsecs) as Hb. rewrite (Hwin _ Hsecs).
    by apply deadline_exact.
Qed.

(** A resolution that is applied comes from the relay, from whom the ask was
    put to or, for an owner's ask, from a fellow owner; a decision and a
    question get an answer; and the row it closes says so for good. *)
Theorem resolution_is_authorised c e w w' :
  Inv w -> handle_resolution durable relay c e w = (Ok Applied, w') ->
  exists p id stored ask r,
    parse_resolution e = Ok p /\ hex_decode (resolution_ask_hex p) = Some id
    /\ events w !! (c, id) = Some stored /\ parse_ask (stored_event stored) = Ok ask
    /\ (ev_pubkey e = public_key relay \/ ev_pubkey e = audience_hex ask
        \/ (owner_in (dir w) c (audience_hex ask) = true /\ owner_in (dir w) c (ev_pubkey e) = true))
    /\ (ask_type ask = Decision \/ ask_type ask = Question -> answer p <> JNull)
    /\ asks w' !! (c, id) = Some r /\ ask_status r = SResolved
    /\ resolved_by r = Some (ev_pubkey e) /\ resolution_event r = Some (ev_id e).
Proof.
  intros Hi Hf.
  destruct (resolution_applied _ _ _ _ _ _ Hi Hf) as (p & id & st & ask & t & r & Hp & Hid & Hev & Hask & Hmay & Hans & _ & _ & _ & _ & Hrow).
  exists p, id, st, ask. eexists. split_and!; try done. intros Ht Hn. unfold answer_missing in Hans.
  rewrite bool_decide_eq_true_2 in Hans by done. by rewrite Hn in Hans.
Qed.

(** The owner-contact gate, in any weather: what it lets through is allowed -
    a worker or leader tags an owner in a thread that owner wrote in, never by
    direct message. In calm weather it lets exactly that through. *)
Theorem owner_contact_gate c e agent w :
  (forall w', enforce_owner_contact c e agent w = (Ok tt, w') -> contact_allowed (snap w) c e agent)
  /\ (weather w = [] -> contact_allowed (snap w) c e agent -> enforce_owner_contact c e agent w = (Ok tt, w)).
Proof.
  split.
  - intros w' [Hc _]%readonly_ok; [|apply readonly_contact].
    destruct (contact_decided c e agent (calm (snap w)) eq_refl) as (r & Hr & Hiff). rewrite Hc in Hr.
    injection Hr as <-. replace (snap (calm (snap w))) with (snap w) in Hiff by (by destruct (snap w)). by apply Hiff.
  - intros Hw Ha. destruct (contact_decided c e agent w Hw) as (r & -> & Hiff). by rewrite (proj2 Hiff Ha).
Qed.

(** A decision logged as a leader's own stands under the newest grant an owner
    wrote: active, of the decision's category, within its cap, and neither is
    of a category only a human decides. *)
Theorem decision_log_authority c e log w w' :
  parse_decision_log e = Ok log -> enforce_decision_log_authority c e log w = (Ok tt, w') ->
  (tier_in (dir w) c (ev_pubkey e) = Some Leader \/ tier_in (dir w) c (ev_pubkey e) = Some Executive)
  /\ is_hard_list_category (log_category log) = false
  /\ exists event grant, owner_in (dir w) c (ev_pubkey event) = true /\ parse_grant event = Ok grant
     /\ event ∈ heads_in (dir w) c KIND_DELEGATION_GRANT (log_grant_id log) MAX_CANDIDATE_GRANT_HEADS
     /\ active grant = true /\ grant_category grant = log_category log
     /\ forall cap, cap_nano_usd grant = Some cap ->
        exists amount, amount_nano_usd log = Some amount /\ amount <= cap.
Proof.
  intros Hp [Hc _]%readonly_ok; [|apply readonly_log].
  destruct (log_decided c e log (calm (snap w)) eq_refl) as (r & Hr & Hiff). rewrite Hc in Hr. injection Hr as <-.
  destruct (proj1 Hiff eq_refl) as [Ht (g & Hg & Ha & Hcat & Hcap)]. split; [exact Ht|].
  split; [by eapply parse_log_soft|]. apply grant_in_spec in Hg as (ev & Ho & Hpg & Hin).
  exists ev, g. by split_and!.
Qed.

(** The one executive: the workspace's only one or, where it has none,
    Colony's only one; heads that fill a role Colony fills stand aside, and
    neither the order nor the number of heads of one agent matters. *)
Theorem unique_executive roster payroll pk :
  (unique_executive_in_roster roster payroll = Some pk <->
   only (workspace_executive roster payroll) pk
   \/ (forall pk', ~ workspace_executive roster payroll pk') /\ only (colony_executive roster payroll) pk)
  /\ forall roster', (forall h, h ∈ roster <-> h ∈ roster') ->
     unique_executive_in_roster roster' payroll = unique_executive_in_roster roster payroll.
Proof.
  split; [apply unique_executive_spec|]. intros roster' Heq.
  apply option_eq. intros x. rewrite !unique_executive_spec.
  assert (forall y, workspace_executive roster payroll y <-> workspace_executive roster' payroll y) as Hw.
  { intros y. unfold workspace_executive. by setoid_rewrite Heq. }
  assert (forall y, colony_executive roster payroll y <-> colony_executive roster' payroll y) as Hc.
  { intros y. unfold colony_executive. by setoid_rewrite Heq. }
  unfold only. setoid_rewrite Hw. by setoid_rewrite Hc.
Qed.

(** The reporting line climbs: a manager is exactly one rung above, nobody
    manages himself however far up one looks, and at most two manage anyone. *)
Theorem reporting_line_climbs c pk w w' m :
  agent_manager c pk w = (Ok (Some m), w') ->
  (exists t, tier_in (dir w) c pk = Some t /\ t <> Executive /\ tier_in (dir w) c m = Some (escalation_target t))
  /\ forall fuel, m :: managers fuel (dir w) c m = managers (S fuel) (dir w) c pk
     /\ ~ pk ∈ managers (S fuel) (dir w) c pk /\ (length (managers (S fuel) (dir w) c pk) <= 2)%nat.
Proof.
  intros Hm. apply (reads_ok _ _ _ _ _ (reads_manager c pk)) in Hm. cbn in Hm. symmetry in Hm.
  pose proof (proj1 (manager_in_spec _ _ _ _) Hm) as (_ & t & Ht & Hne & Hmt). split; [eauto|].
  intros fuel. split_and!.
  - cbn. by rewrite Hm.
  - intros Hin. apply managers_above in Hin. lia.
  - etrans; [apply managers_short|]. unfold rungs_above. destruct (tier_in _ _ _) as [[]|]; lia.
Qed.
End Promises.

Section Timers.
Context `{JsonLib, NostrLib, !JsonLaws, !NostrLaws}.
Context (relay : Keys) (ghost_reason supersede_reason : string).

(** C11. When the sweep answers an ask by itself, its filer had stated that default,
    its time was up, it was addressed to an owner, was no stall ask and of no
    category only a human decides; and the row says the relay executed it. *)
Theorem default_is_licensed now n w0 w row w' :
  Inv w0 -> Inv w -> later w0 w -> row ∈ query_due_asks now n (asks w0) ->
  process_due_ask true relay ghost_reason supersede_reason now row w = (Ok DefaultExecuted, w') ->
  exists option r,
    row_default row = Some option /\ owner_in (dir w) (community_id row) (audience_pubkey row) = true
    /\ row_type row <> Stall /\ (forall c, row_category row = Some c -> is_hard_list_category c = false)
    /\ (exists d, deadline_at row = Some d /\ d <= now)
    /\ asks w' !! (community_id row, ask_event_id row) = Some r /\ about r = about row
    /\ ask_status r = SResolved /\ resolved_by r = Some (public_key relay) /\ row_default_executed r = true.
Proof.
  intros [Ha0 _] Hi Hl Hrow Hf. apply due_batch in Hrow as ((k & Hk) & Ho & Hd).
  destruct (due_default _ _ _ _ _ _ _ Hi Hf) as (option & stored & w1 & Hdf & Hown & Hi1 & Hl1 & Hx).
  destruct (execute_default_ok _ _ _ _ _ _ Hi1 Hx) as (res & t & r & _ & _ & Ht & Hg & Hr & _ & Hlast).
  pose proof (wf_policy _ Ha0 _ _ Hk _ Hdf) as [Hst Hcat].
  pose proof (wf_key _ Ha0 _ _ Hk) as ->.
  assert (grows (asks w0) t) as Hg0.
  { etrans; [apply (later_asks _ _ Hl)|]. etrans; [apply (later_asks _ _ Hl1)|done]. }
  destruct (Hg0 _ _ Hk) as (r0 & Hr0 & Hab & _). exists option. eexists. split_and!; try done.
  rewrite about_closed. congruence.
Qed.

(** C28. In calm weather, where no database call fails and nobody else writes in
    between, a due ask whose stored event, if any, is the one it was filed as keeps
    its need: after the sweep it is answered or
    withdrawn, or its slot holds an open ask, the same or the successor it was
    promoted to. What the sweep reports is so: a default executed is an ask
    answered, a promotion has its open successor, and an ask left alone has a
    deadline to come. When the sweep reports an error, the ask that stays open may
    keep the deadline it has missed, and is due again. *)
Theorem due_ask_keeps_its_need now row d w :
  weather w = [] -> wf_asks (asks w) -> asks w !! key_of row = Some row -> is_open row = true ->
  deadline_at row = Some d -> i64_min <= now -> now + rearm_window row d <= i64_max ->
  (forall stored, events w !! key_of row = Some stored -> backed relay row stored) ->
  let '(o, w') := process_due_ask true relay ghost_reason supersede_reason now row w in
  (still_asked row (asks w') \/ settled row (asks w'))
  /\ match o with
     | Ok DefaultExecuted => settled row (asks w')
     | Ok Promoted => exists s r, asks w' !! (community_id row, s) = Some r /\ is_open r = true
         /\ need_of r = need_of row /\ prior_ask r = Some (ask_event_id row)
     | Ok Nothing => exists r d, asks w' !! key_of row = Some r /\ is_open r = true
         /\ deadline_at r = Some d /\ now < d
     | Err _ => True
     end.
Proof. apply due_ask_step. Qed.

(** The head published for an ask foretells what the sweep does with it: with
    the same directory, execute that default, promote it to that rung, re-arm. *)
Theorem prediction_is_followed now row stored w w1 o host :
  weather w = [] -> hosts (dir w) !! community_id row = Some host ->
  events w !! (community_id row, ask_event_id row) = Some stored ->
  predict_expiry_outcome (community_id row) (audience_pubkey row) (row_default row) w = (Ok o, w1) ->
  let run := process_due_ask true relay ghost_reason supersede_reason now row in
  match o with
  | OutcomeDefault option => run w = execute_default relay row stored option w
  | OutcomePromotes target => exists pk,
      fst (match target with
           | TargetExecutive => find_unique_executive (community_id row)
           | TargetOwner => find_unique_owner (community_id row)
           end w) = Ok (Some pk)
      /\ run w = promote_to true relay supersede_reason row stored pk w
  | OutcomeRearm => run w = bind (redeadline relay row now) (fun _ => ret Nothing) w
  end.
Proof. apply prediction_sound. Qed.

(** The head of a new ask reads back: in calm weather the newest head of the
    ask is the one just published, and it parses to the deadline and to the
    ending predicted for it. *)
Theorem head_reads_back c id deadline audience dflt w w1 o :
  weather w = [] -> is_hex64_lowercase id = true -> time_ok deadline ->
  predict_expiry_outcome c audience dflt w = (Ok o, w1) ->
  (forall ts content, is_Some (sign_event relay KIND_ASK_STATE ts [["d"%string; id]] content)) ->
  exists w' e, publish_head_for_new_ask relay c id deadline audience dflt w = (Ok tt, w')
  /\ ask_heads w' !! (c, id) = Some e
  /\ (forall old, ask_heads w !! (c, id) = Some old -> ev_created_at old < ev_created_at e)
  /\ parse_ask_state e = Ok (open_state id deadline None o).
Proof.
  intros Hw Hid Hd Hp Hs. unfold publish_head_for_new_ask. rewrite (bind_attempt _ _ _ _ _ Hp).
  destruct (readonly_predict c audience dflt) as [f Hf]. rewrite (rd_calm _ _ Hf) in Hp by done.
  injection Hp as _ <-.
  destruct (head_stored relay c id (open_content deadline None o) w Hw) as (w' & -> & ts & [_ Hold] & He).
  destruct (Hs ts (json_to_string (open_content deadline None o))) as [e Hsig]. specialize (He _ Hsig).
  apply signed_event in Hsig as (_ & Hat & Htags & Hcont & _). exists w', e. split_and!; try done.
  - intros old Ho. rewrite Hat. by apply Hold.
  - by apply open_head_parses.
Qed.
End Timers.
