(* ===== verification/AskWitness.v ===== *)
(** * Runs of the interrupt system

    Each promise of [AskTheorems] at the small company of [AskToy], and two
    runs the documents do not expect. *)

From Stdlib Require Import ZArith Lia Ascii.
From stdpp Require Import base list gmap strings numbers sorting countable.
From S2P Require Import Prelude MachineInt RustStr Json Event AskWire AskTable AskWorld AskGate AskHead AskBroker AskSweep AskSafety AskAuthority AskFacts AskDue AskToy AskTheorems.
Local Open Scope Z_scope.

Lemma fresh_empty now : empty_relay (fresh now).
Proof. split; [reflexivity|constructor]. Qed.
Lemma fresh_inv now : Inv (fresh now).
Proof. apply empty_inv, fresh_empty. Qed.

Lemma run_eq {A} (m : M A) w a : fst (m w) = Ok a -> m w = (Ok a, snd (m w)).
Proof. destruct (m w). cbn. by intros ->. Qed.

(** ** Steps *)

Notation toy_step := (ask_step true toy_key "ghost" "superseded" (fun t => t) (fun t => t) (fun _ => "late")).

Notation filing signer audience :=
  (handle_ask_event true toy_key "c" (ask_event signer audience) "superseded").
Notation after_filing := (snd (filing executive_pk owner_pk (fresh 100))).

Lemma filing_step : toy_step (fresh 100) after_filing.
Proof. apply (step_entry _ _ _ _ _ _ _ _ _ (filing executive_pk owner_pk)). constructor. Qed.

Lemma asks_stay_wellformed_witness :
  (exists r, asks after_filing !! ("c", hex_of "7")%string = Some r /\ is_open r = true)
  /\ (forall k1 k2 r1 r2, asks after_filing !! k1 = Some r1 -> asks after_filing !! k2 = Some r2 ->
     is_open r1 = true -> is_open r2 = true -> need_of r1 = need_of r2 -> k1 = k2).
Proof.
  split; [vm_compute; eexists; split; reflexivity|].
  exact (proj1 (asks_stay_wellformed true toy_key "ghost" "superseded" (fun t => t) (fun t => t) (fun _ => "late")%string
    (fresh 100) after_filing (fresh_empty 100) (rtc_once _ _ filing_step))).
Defined.

(** The owner answers. *)
Definition answer_event : Event := {|
  ev_id := hex_of "6"; ev_pubkey := owner_pk; ev_created_at := 120; ev_kind := KIND_ASK_RESOLUTION;
  ev_tags := [["e"%string; hex_of "7"]]; ev_content := "answer"; ev_sig := "" |}.
Definition answered : ParsedResolution := {|
  resolution_ask_hex := hex_of "7"; answer := JString "go"; default_executed := false |}.
Notation executive_asked := (filed_by executive_pk owner_pk).
Notation answering := (handle_resolution true toy_key "c" answer_event).

Lemma filed_inv signer audience : Inv (filed_by signer audience).
Proof.
  unfold filed_by.
  pose proof (proj1 (safe_handle_ask_event true toy_key "c" (ask_event signer audience) "superseded" (fresh 100)
    (fresh_inv 100))) as Hi.
  generalize dependent (snd (handle_ask_event true toy_key "c" (ask_event signer audience) "superseded" (fresh 100))).
  intros w [Ha Hw]. split; [exact Ha|exact Hw].
Qed.

Lemma answer_applied : answering executive_asked = (Ok Applied, snd (answering executive_asked)).
Proof. apply run_eq. vm_compute. reflexivity. Qed.

Lemma resolution_is_authorised_witness :
  exists r, asks (snd (answering executive_asked)) !! ("c", hex_of "7")%string = Some r
  /\ ask_status r = SResolved /\ resolved_by r = Some owner_pk.
Proof.
  pose proof (resolution_is_authorised true toy_key "c" answer_event executive_asked
    (snd (answering executive_asked)) (filed_inv _ _) answer_applied) as Hr.
  destruct Hr as (p & id & st & ask & r & Hp & Hid & _ & _ & _ & _ & Hk & Hs & Hb & _).
  assert (parse_resolution answer_event = Ok answered) as Ep by (vm_compute; reflexivity).
  rewrite Ep in Hp. injection Hp as <-.
  assert (hex_decode (resolution_ask_hex answered) = Some (hex_of "7")) as Eid by (vm_compute; reflexivity).
  rewrite Eid in Hid. injection Hid as <-.
  exists r. split; [exact Hk|]. split; [exact Hs|exact Hb].
Defined.

Lemma asks_are_kept_witness :
  exists r', asks after_filing !! ("c", hex_of "7")%string = Some r' /\ about r' = about (row_of after_filing).
Proof.
  assert (asks after_filing !! ("c", hex_of "7")%string = Some (row_of after_filing)) as Hr
    by (vm_compute; reflexivity).
  destruct (asks_are_kept true toy_key "ghost" "superseded" (fun t => t) (fun t => t) (fun _ => "late")%string
    (fresh 100) after_filing _ _ (fresh_empty 100) (rtc_once _ _ filing_step) after_filing (rtc_refl _ _) Hr)
    as (r' & H1 & H2 & _).
  exists r'. split; [exact H1|exact H2].
Defined.

Lemma filing_follows_ladder_witness :
  on_ladder company "c" executive_pk owner_pk.
Proof.
  destruct (filing_follows_ladder true toy_key "c" (ask_event executive_pk owner_pk) "superseded" (fresh 100)
    (snd (handle_ask true toy_key "c" (ask_event executive_pk owner_pk) "superseded" (fresh 100))) (fresh_inv 100)) as (p & t & t' & r & Hp & [Hs|Hl] & _).
  - vm_compute. split; intros Hx; discriminate Hx.
  - apply run_eq. vm_compute. reflexivity.
  - assert (is_relay_signed true toy_key (ask_event executive_pk owner_pk) = false) as E by (vm_compute; reflexivity).
    rewrite E in Hs. discriminate Hs.
  - assert (audience_hex <$> ok (parse_ask (ask_event executive_pk owner_pk)) = Some owner_pk) as E
      by (vm_compute; reflexivity).
    rewrite Hp in E. injection E as E. rewrite E in Hl. exact Hl.
Defined.

(** ** Gates *)

(** A worker may tag the owner in a thread the owner began, nowhere else. *)
Definition thread_world : World := set_events {[ ("c"%string, hex_of "5") :=
  {| stored_event := {| ev_id := hex_of "5"; ev_pubkey := owner_pk; ev_created_at := 1; ev_kind := 9;
       ev_tags := []; ev_content := ""; ev_sig := "" |}; stored_channel := None; verified := true |} ]} (fresh 1).
Definition reply_event (root : string) : Event := {|
  ev_id := hex_of "0"; ev_pubkey := worker_pk; ev_created_at := 2; ev_kind := 9;
  ev_tags := [["p"; owner_pk]; ["e"; root; ""; "root"]]%string; ev_content := ""; ev_sig := "" |}.

Lemma owner_contact_gate_witness :
  contact_allowed (snap thread_world) "c" (reply_event (hex_of "5")) worker_pk
  /\ fst (enforce_owner_contact "c" (reply_event (hex_of "9")) worker_pk thread_world)
     = Err (OwnerContactDenied Worker).
Proof.
  split; [|vm_compute; reflexivity].
  apply (proj1 (owner_contact_gate "c" (reply_event (hex_of "5")) worker_pk thread_world)
    (snd (enforce_owner_contact "c" (reply_event (hex_of "5")) worker_pk thread_world))).
  apply run_eq. vm_compute. reflexivity.
Defined.

Definition log_event : Event := {|
  ev_id := hex_of "0"; ev_pubkey := leader_pk; ev_created_at := 2; ev_kind := 44303;
  ev_tags := [["grant"; "g1"]; ["task"; "t1"]]%string;
  ev_content := json_to_string (json_object [("decision", JString "refund it"); ("undo_path", JString "charge again");
    ("category", JString "Refund"); ("amount_nano_usd", JInt 500)]%string); ev_sig := "" |}.
Definition logged : ParsedDecisionLog := {|
  log_grant_id := "g1"; log_task_ids := ["t1"%string]; decision := "refund it"; undo_path := "charge again";
  log_category := "refund"; amount_nano_usd := Some 500 |}.

Lemma decision_log_authority_witness :
  exists event grant, parse_grant event = Ok grant /\ cap_nano_usd grant = Some 500
    /\ owner_in company "c" (ev_pubkey event) = true.
Proof.
  destruct (decision_log_authority "c" log_event logged (fresh 1)
    (snd (enforce_decision_log_authority "c" log_event logged (fresh 1)))) as (_ & _ & e & g & Ho & Hp & Hin & _).
  - vm_compute. reflexivity.
  - apply run_eq. vm_compute. reflexivity.
  - exists e, g. split; [exact Hp|]. split; [|exact Ho].
    assert (heads_in (dir (fresh 1)) "c" KIND_DELEGATION_GRANT (log_grant_id logged) MAX_CANDIDATE_GRANT_HEADS
      = [grant_event]) as E by (vm_compute; reflexivity).
    rewrite E in Hin. apply list_elem_of_singleton in Hin. subst e.
    assert (cap_nano_usd <$> ok (parse_grant grant_event) = Some (Some 500)) as Eg by (vm_compute; reflexivity).
    rewrite Hp in Eg. injection Eg as Eg. exact Eg.
Defined.

(** Two heads of one executive are one executive. *)
Definition ceo_head : string * Json := (executive_pk, json_object [("tier", JString "executive")]%string).
Definition no_payroll : Payroll := {| role_ranks := ∅; provisioned := []; provisioned_roles := [] |}.

Lemma unique_executive_witness :
  unique_executive_in_roster [ceo_head; ceo_head] no_payroll = Some executive_pk
  /\ unique_executive_in_roster [ceo_head; (owner_pk, snd ceo_head)] no_payroll = None.
Proof.
  split; [|vm_compute; reflexivity].
  rewrite (proj2 (unique_executive [ceo_head] no_payroll executive_pk) [ceo_head; ceo_head]).
  - vm_compute. reflexivity.
  - intros h. rewrite !elem_of_cons. tauto.
Defined.

Lemma reporting_line_climbs_witness :
  tier_in company "c" leader_pk = Some Leader /\ ~ worker_pk ∈ managers 2 company "c" worker_pk.
Proof.
  destruct (reporting_line_climbs "c" worker_pk (fresh 1)
    (snd (agent_manager "c" worker_pk (fresh 1))) leader_pk) as [(t & Ht & _ & Hm) Hf].
  - apply run_eq. vm_compute. reflexivity.
  - assert (tier_in company "c" worker_pk = Some Worker) as E by (vm_compute; reflexivity).
    change (dir (fresh 1)) with company in Ht. rewrite E in Ht. injection Ht as <-.
    split; [exact Hm|]. exact (proj1 (proj2 (Hf 1%nat))).
Defined.

(** ** Timers *)

Definition later_world (now : Z) (w : World) : World := {|
  asks := asks w; events := events w; ask_heads := ask_heads w; dir := dir w; weather := []; clock := now |}.

(** The owner sleeps: the executive's ask defaults. *)
Notation overdue := (later_world 9000 executive_asked).
Notation due_row := (row_of executive_asked).
Notation sweep_default := (process_due_ask true toy_key "ghost" "superseded" 9000 due_row).

Lemma later_inv now w : Inv w -> Inv (later_world now w).
Proof. intros [Ha _]. split; [exact Ha|constructor]. Qed.
Lemma overdue_inv : Inv overdue.
Proof. apply later_inv, filed_inv. Qed.

Lemma default_is_licensed_witness :
  row_default due_row = Some "wait"%string
  /\ exists r, asks (snd (sweep_default overdue)) !! ("c", hex_of "7")%string = Some r
     /\ row_default_executed r = true.
Proof.
  assert (due_row ∈ query_due_asks 9000 10 (asks overdue)) as Hdue.
  { assert (query_due_asks 9000 10 (asks overdue) = [due_row]) as E by (vm_compute; reflexivity).
    rewrite E. apply list_elem_of_here. }
  destruct (default_is_licensed toy_key "ghost" "superseded" 9000 10 overdue overdue due_row
    (snd (sweep_default overdue)) overdue_inv overdue_inv (reflexivity overdue) Hdue) as (o & r & Ho & _ & _ & _ & _ & Hr & _ & _ & _ & Hx).
  - apply run_eq. vm_compute. reflexivity.
  - split; [vm_compute; reflexivity|]. exists r. split; [exact Hr|exact Hx].
Defined.

(** The executive does not answer: the leader's ask goes to the owner. *)
Notation leader_asked := (later_world 9000 (filed_by leader_pk executive_pk)).
Notation leader_row := (row_of leader_asked).

Lemma leader_asked_wf : wf_asks (asks leader_asked).
Proof. apply inv_asks, later_inv, filed_inv. Qed.

Lemma leader_backed stored :
  events leader_asked !! key_of leader_row = Some stored -> backed toy_key leader_row stored.
Proof.
  assert (events leader_asked !! key_of leader_row = Some {| stored_event := ask_event leader_pk executive_pk;
    stored_channel := None; verified := true |}) as E by (vm_compute; reflexivity).
  rewrite E. intros [= <-]. split; [vm_compute; reflexivity|]. split; [vm_compute; reflexivity|].
  eexists. split; [vm_compute; reflexivity|]. split_and!; vm_compute; reflexivity.
Qed.

Lemma due_ask_keeps_its_need_witness :
  exists s r, fst (process_due_ask true toy_key "ghost" "superseded" 9000 leader_row leader_asked) = Ok Promoted
  /\ asks (snd (process_due_ask true toy_key "ghost" "superseded" 9000 leader_row leader_asked)) !! ("c"%string, s) = Some r
  /\ is_open r = true.
Proof.
  pose proof (due_ask_keeps_its_need toy_key "ghost" "superseded" 9000 leader_row 3700 leader_asked eq_refl
    leader_asked_wf ltac:(vm_compute; reflexivity) ltac:(vm_compute; reflexivity) ltac:(vm_compute; reflexivity)
    ltac:(vm_compute; discriminate) ltac:(vm_compute; discriminate) leader_backed) as Hd.
  destruct (process_due_ask _ _ _ _ _ _ _) as [o w'] eqn:E. cbn [fst snd].
  assert (fst (process_due_ask true toy_key "ghost" "superseded" 9000 leader_row leader_asked) = Ok Promoted) as Eo
    by (vm_compute; reflexivity).
  rewrite E in Eo. cbn [fst] in Eo. subst o.
  destruct Hd as [_ (s & r & Hr & Ho & _)]. exists s, r.
  split; [reflexivity|]. split; [exact Hr|exact Ho].
Defined.

Notation leader_prediction := (predict_expiry_outcome (community_id leader_row) (audience_pubkey leader_row)
  (row_default leader_row)).
Lemma prediction_is_followed_witness :
  exists pk, fst (find_unique_owner (community_id leader_row) leader_asked) = Ok (Some pk)
  /\ process_due_ask true toy_key "ghost" "superseded" 9000 leader_row leader_asked
     = promote_to true toy_key "superseded" leader_row
         {| stored_event := ask_event leader_pk executive_pk; stored_channel := None; verified := true |}
         pk leader_asked.
Proof.
  assert (leader_prediction leader_asked = (Ok (OutcomePromotes TargetOwner), snd (leader_prediction leader_asked))) as Hp
    by (apply run_eq; vm_compute; reflexivity).
  apply (prediction_is_followed toy_key "ghost" "superseded" 9000 leader_row _ leader_asked _ _ "acme" eq_refl
    ltac:(vm_compute; reflexivity) ltac:(vm_compute; reflexivity) Hp).
Defined.

Lemma head_reads_back_witness :
  exists w' e, publish_head_for_new_ask toy_key "c" (hex_of "7") 3700 owner_pk (Some "wait"%string) (fresh 100)
                 = (Ok tt, w')
  /\ ask_heads w' !! ("c"%string, hex_of "7") = Some e
  /\ parse_ask_state e = Ok (open_state (hex_of "7") 3700 None (OutcomeDefault "wait")).
Proof.
  destruct (head_reads_back toy_key "c" (hex_of "7") 3700 owner_pk (Some "wait"%string) (fresh 100)
    (snd (predict_expiry_outcome "c" owner_pk (Some "wait"%string) (fresh 100)))
    (OutcomeDefault "wait") eq_refl) as (w' & e & H1 & H2 & _ & H3).
  - vm_compute. reflexivity.
  - vm_compute. split; discriminate.
  - apply run_eq. vm_compute. reflexivity.
  - intros ts content. vm_compute. eexists. reflexivity.
  - exists w', e. split; [exact H1|]. split; [exact H2|exact H3].
Defined.

(** ** What the documents do not expect *)

(** The filer picks a window of no seconds: its default is executed at once. *)
Definition hasty_event : Event := {|
  ev_id := hex_of "7"; ev_pubkey := executive_pk; ev_created_at := 100; ev_kind := KIND_ASK;
  ev_tags := ev_tags (ask_event executive_pk owner_pk); ev_content := "go at once"; ev_sig := "" |}.
Definition hasty_world : World := set_events {[ ("c"%string, hex_of "7") :=
    {| stored_event := hasty_event; stored_channel := None; verified := true |} ]}
  (snd (handle_ask_event true toy_key "c" hasty_event "superseded" (fresh 100))).
Lemma default_at_once :
  fst (run_interrupt_tick true toy_key "ghost" "superseded" 100 10 hasty_world)
  = Ok {| promoted := 0; defaults_executed := 1 |}.
Proof. vm_compute. reflexivity. Qed.

(** The owner's own answer, its event claiming to be the default. *)
Lemma claimed_default_is_believed now key event by_ t r :
  t !! key = Some r -> is_open r = true ->
  exists r', snd (resolve_ask now key event by_ true t) !! key = Some r'
  /\ row_default_executed r' = true /\ resolved_by r' = Some by_.
Proof.
  intros Hr Ho. unfold resolve_ask, update_ask. rewrite Hr, Ho. cbn. rewrite lookup_insert_eq.
  eexists. split; [reflexivity|]. split; reflexivity.
Qed.
