(* ===== verification/Filters.v ===== *)
(** * Filters and the gates on reading

    [crates/buzz-core/src/filter.rs], the read lists of [kind.rs], and the
    predicates of [crates/buzz-relay/src/handlers/req.rs] that decide which
    filters a reader may use and which events a reader may see. Keys, ids and
    UUIDs are their canonical strings; a tag is its list of strings, named by
    its first; a [BTreeSet] is a list. *)

From Stdlib Require Import ZArith Lia Ascii.
From stdpp Require Import base list gmap strings numbers.
From S2P Require Import Prelude MachineInt RustStr Event.
Local Open Scope Z_scope.

(** ** Kinds *)

Definition KIND_NIP43_MEMBERSHIP_LIST : Z := 13534.
Definition KIND_AGENT_OBSERVER_FRAME : Z := 24200.
Definition KIND_AGENT_ENGRAM : Z := 30174.
Definition KIND_PERSONA : Z := 30175.
Definition KIND_TEAM_CATALOG : Z := 30193.
Definition KIND_PRIVATE_MANAGED_AGENT : Z := 30194.
Definition KIND_EVENT_REMINDER : Z := 30300.
Definition KIND_PUSH_LEASE : Z := 30350.
Definition KIND_DM_VISIBILITY : Z := 30622.
Definition KIND_DISCOVERY_ACTION : Z := 40017.
Definition KIND_DISCOVERY_RECEIPT : Z := 40018.
Definition KIND_DISCOVERY_WORKER_ACTION : Z := 40019.
Definition KIND_DISCOVERY_WORKER_RECEIPT : Z := 40020.
Definition KIND_DISCOVERY_WORKSPACE_ACTION : Z := 40021.
Definition KIND_DISCOVERY_WORKSPACE_RECEIPT : Z := 40022.
Definition KIND_CANVAS : Z := 40100.
Definition KIND_MEMBER_ADDED_NOTIFICATION : Z := 44100.
Definition KIND_MEMBER_REMOVED_NOTIFICATION : Z := 44101.
Definition KIND_AGENT_TURN_METRIC : Z := 44200.
Definition KIND_USAGE_RECORD : Z := 44210.

Definition AUTHOR_ONLY_KINDS : list Z :=
  [KIND_EVENT_REMINDER; KIND_PUSH_LEASE; KIND_PRIVATE_MANAGED_AGENT; KIND_DISCOVERY_ACTION;
   KIND_DISCOVERY_WORKER_ACTION; KIND_DISCOVERY_WORKSPACE_ACTION].
Definition RESULT_GATED_KINDS : list Z :=
  [KIND_DM_VISIBILITY; KIND_AGENT_TURN_METRIC; KIND_USAGE_RECORD; KIND_DISCOVERY_RECEIPT;
   KIND_DISCOVERY_WORKER_RECEIPT; KIND_DISCOVERY_WORKSPACE_RECEIPT].
Definition P_GATED_KINDS : list Z :=
  [KIND_AGENT_OBSERVER_FRAME; KIND_MEMBER_ADDED_NOTIFICATION; KIND_MEMBER_REMOVED_NOTIFICATION;
   KIND_GIFT_WRAP; KIND_DM_VISIBILITY; KIND_DISCOVERY_RECEIPT; KIND_DISCOVERY_WORKER_RECEIPT;
   KIND_DISCOVERY_WORKSPACE_RECEIPT; KIND_AGENT_TURN_METRIC; KIND_USAGE_RECORD].
Definition SHARED_GATED_KINDS : list Z := [KIND_PERSONA; KIND_TEAM_CATALOG].

Definition in_kinds (kinds : list Z) (k : Z) : bool := bool_decide (k ∈ kinds).

(** ** Filters *)

(** [nostr::Filter]. *)
Record Filter := {
  ids : option (list string);
  authors : option (list string);
  kinds : option (list Z);
  search : option string;
  since : option Z;
  until : option Z;
  limit : option Z;
  generic_tags : gmap string (list string);
}.
Definition any_filter : Filter := {|
  ids := None; authors := None; kinds := None; search := None; since := None; until := None;
  limit := None; generic_tags := ∅ |}.

(** [Option::is_none_or], [Option::is_some_and]. *)
Definition none_or_else {A} (p : A -> bool) (o : option A) : bool :=
  match o with Some a => p a | None => true end.
Definition some_and {A} (p : A -> bool) (o : option A) : bool :=
  match o with Some a => p a | None => false end.

(** [tag.kind().to_string() == name]; [tag.content()]. *)
Definition tag_is (name : string) (t : list string) : bool := bool_decide (head t = Some name).
Definition content (t : list string) : option string := t !! 1%nat.
(** The event has a tag of that name whose content satisfies [p]. *)
Definition tag_with (name : string) (p : string -> bool) (event : Event) : bool :=
  existsb (fun t => tag_is name t && some_and p (content t)) (ev_tags event).
Definition has_tag (name : string) (event : Event) : bool := existsb (tag_is name) (ev_tags event).

(** One entry of [generic_tags] in [filter_match_one]. *)
Definition tag_entry_match (ev : StoredEvent) (entry : string * list string) : bool :=
  let '(key, values) := entry in
  let event := stored_event ev in
  let has_match := existsb (fun v => tag_with key (String.eqb v) event) values in
  if has_match then true
  else if String.eqb key "h" then
    if has_tag "h" event then false
    else some_and (fun ch => existsb (fun v => String.eqb v ch) values) (stored_channel ev)
  else false.

(** [filter_match_one]. *)
Definition filter_match_one (f : Filter) (ev : StoredEvent) : bool :=
  let event := stored_event ev in
  if negb (none_or_else (fun ks => in_kinds ks (ev_kind event)) (kinds f)) then false
  else if (ev_kind event =? KIND_CANVAS)
          && some_and (fun ks => in_kinds ks KIND_CANVAS) (kinds f)
          && negb (is_some (generic_tags f !! "e"%string))
          && has_tag "e" event then false
  else if negb (none_or_else (fun l => bool_decide (ev_pubkey event ∈ l)) (authors f)) then false
  else if some_and (fun s => ev_created_at event <? s) (since f) then false
  else if some_and (fun u => u <? ev_created_at event) (until f) then false
  else if negb (none_or_else (existsb (fun id => starts_with id (ev_id event))) (ids f)) then false
  else forallb (tag_entry_match ev) (map_to_list (generic_tags f)).

(** [filters_match]. *)
Definition filters_match (filters : list Filter) (ev : StoredEvent) : bool :=
  existsb (fun f => filter_match_one f ev) filters.

(** ** Which events a reader may see *)

(** [reader_authorized_for_event]. *)
Definition reader_authorized_for_event (event : Event) (reader : string) : bool :=
  if negb (in_kinds RESULT_GATED_KINDS (ev_kind event)) then true
  else if (ev_kind event =? KIND_USAGE_RECORD) && String.eqb (ev_pubkey event) reader then true
  else tag_with "p" (String.eqb reader) event.

(** [is_shared_gated_kind]. *)
Definition is_shared_gated_kind (kind : Z) : bool := in_kinds SHARED_GATED_KINDS kind.

(** The loop of [event_is_shared]. *)
Fixpoint shared_loop (tags : list (list string)) (count : nat) : bool :=
  match tags with
  | [] => bool_decide (count = 1%nat)
  | t :: rest =>
      match t with
      | [name; value] =>
          if String.eqb name "shared" then
            if String.eqb value "true" then shared_loop rest (S count) else false
          else shared_loop rest count
      | name :: _ => if String.eqb name "shared" then false else shared_loop rest count
      | [] => shared_loop rest count
      end
  end.

(** [event_is_shared], [is_unshared_gated_event]. *)
Definition event_is_shared (event : Event) : bool := shared_loop (ev_tags event) 0.
Definition is_unshared_gated_event (event : Event) (requester : string) : bool :=
  if negb (is_shared_gated_kind (ev_kind event)) then false
  else if String.eqb (ev_pubkey event) requester then false
  else negb (event_is_shared event).

(** [is_author_only_event]. *)
Definition is_author_only_event (event : Event) (requester : string) : bool :=
  in_kinds AUTHOR_ONLY_KINDS (ev_kind event) && negb (String.eqb (ev_pubkey event) requester).

(** [event_visible_to_reader]. *)
Definition event_visible_to_reader (event : Event) (requester : string) : bool :=
  if is_author_only_event event requester then false
  else if is_unshared_gated_event event requester then false
  else reader_authorized_for_event event requester.

(** ** Which filters a reader may use *)

(** Non-empty, and every value is the reader's key. *)
Definition all_self (eq : string -> string -> bool) (reader : string) (values : list string) : bool :=
  negb (bool_decide (values = [])) && forallb (fun v => eq v reader) values.

(** The kinds of a filter: none stated, or one of the list. *)
Definition can_match (list_kinds : list Z) (f : Filter) : bool :=
  none_or_else (existsb (in_kinds list_kinds)) (kinds f).

(** [p_gated_filters_authorized], one filter. *)
Definition p_gated_filter_authorized (reader : string) (f : Filter) : bool :=
  if negb (can_match P_GATED_KINDS f) then true
  else
    let explicitly_no_ids_exemption := some_and (existsb (in_kinds RESULT_GATED_KINDS)) (kinds f) in
    if negb explicitly_no_ids_exemption
       && some_and (fun l => negb (bool_decide (l = []))) (ids f) then true
    else if some_and (all_self String.eqb reader) (generic_tags f !! "p"%string) then true
    else some_and (forallb (fun k => k =? KIND_USAGE_RECORD)) (kinds f)
         && some_and (all_self String.eqb reader) (authors f).
Definition p_gated_filters_authorized (filters : list Filter) (reader : string) : bool :=
  forallb (p_gated_filter_authorized reader) filters.

(** [engram_filters_authorized]. *)
Definition engram_filter_authorized (reader : string) (f : Filter) : bool :=
  if some_and (fun l => negb (bool_decide (l = []))) (ids f) then true
  else if negb (none_or_else (existsb (fun k => k =? KIND_AGENT_ENGRAM)) (kinds f)) then true
  else if some_and (all_self eq_ignore_ascii_case reader) (authors f) then true
  else some_and (all_self String.eqb reader) (generic_tags f !! "p"%string).
Definition engram_filters_authorized (filters : list Filter) (reader : string) : bool :=
  forallb (engram_filter_authorized reader) filters.

(** [author_only_filters_authorized]. *)
Definition author_only_filter_authorized (reader : string) (f : Filter) : bool :=
  if negb (some_and (fun ks => negb (bool_decide (ks = []))
                               && forallb (in_kinds AUTHOR_ONLY_KINDS) ks) (kinds f)) then true
  else some_and (all_self eq_ignore_ascii_case reader) (authors f).
Definition author_only_filters_authorized (filters : list Filter) (reader : string) : bool :=
  forallb (author_only_filter_authorized reader) filters.

(** [filter_can_match_author_only_kinds], [.._shared_gated_kinds],
    [.._result_gated_kinds], [result_gated_count_safe_for_pushdown]. *)
Definition filter_can_match_author_only_kinds (f : Filter) : bool := can_match AUTHOR_ONLY_KINDS f.
Definition filter_can_match_shared_gated_kinds (f : Filter) : bool :=
  none_or_else (existsb (fun k => k =? KIND_PERSONA)) (kinds f).
Definition filter_can_match_result_gated_kinds (f : Filter) : bool := can_match RESULT_GATED_KINDS f.
Definition result_gated_count_safe_for_pushdown (f : Filter) (reader : string) : bool :=
  some_and (all_self String.eqb reader) (generic_tags f !! "p"%string).

(** [is_parameterized_replaceable], [filter_fully_pushable]. *)
Definition is_parameterized_replaceable (kind : Z) : bool := (30000 <=? kind) && (kind <? 40000).
Definition tag_pushable (nip33_only : bool) (entry : string * list string) : bool :=
  let '(key, values) := entry in
  if String.eqb key "h" || String.eqb key "p" then (length values <=? 1)%nat
  else if String.eqb key "d" then bool_decide (values = []) || nip33_only
  else if String.eqb key "e" then true
  else bool_decide (values = []).
Definition filter_fully_pushable (f : Filter) : bool :=
  let nip33_only := some_and (fun ks => negb (bool_decide (ks = []))
                                        && forallb is_parameterized_replaceable ks) (kinds f) in
  forallb (tag_pushable nip33_only) (map_to_list (generic_tags f)) && negb (is_some (search f)).

(** [filters_are_nip43_membership_only]. *)
Definition filters_are_nip43_membership_only (filters : list Filter) : bool :=
  negb (bool_decide (filters = []))
  && forallb (fun f => some_and (fun ks => negb (bool_decide (ks = []))
                && forallb (fun k => k =? KIND_NIP43_MEMBERSHIP_LIST) ks) (kinds f)) filters.

Section Scope.
(** [str::parse::<Uuid>], to the canonical string. *)
Context (parse_uuid : string -> option string).

(** The channels a filter names. *)
Definition channels_named (f : Filter) : list string :=
  filter_map parse_uuid (default [] (generic_tags f !! "h"%string)).

(** The loop of [extract_channel_id_from_filters] over one filter's channels:
    [None] when they disagree with what was found. *)
Fixpoint agree (found : option string) (channels : list string) : option (option string) :=
  match channels with
  | [] => Some found
  | id :: rest =>
      match found with
      | Some existing => if String.eqb existing id then agree (Some id) rest else None
      | None => agree (Some id) rest
      end
  end.
Fixpoint extract_loop (filters : list Filter) (found : option string) : option string :=
  match filters with
  | [] => found
  | f :: rest =>
      match channels_named f with
      | [] => None
      | channels =>
          match agree found channels with
          | Some found => extract_loop rest found
          | None => None
          end
      end
  end.

(** [extract_channel_id_from_filters]. *)
Definition extract_channel_id_from_filters (filters : list Filter) : option string :=
  extract_loop filters None.
End Scope.

(** [resolve_request_local_access]. *)
Definition resolve_request_local_access (accessible : list string) (ch : string) (token_allows : bool)
    (db_is_member : option bool) : bool * list string :=
  if negb token_allows then (false, accessible)
  else if bool_decide (ch ∈ accessible) then (true, accessible)
  else match db_is_member with
       | Some true => (true, accessible ++ [ch])
       | _ => (false, accessible)
       end.
