(* ===== verification/Subscription.v ===== *)
(** * The subscription registry

    [crates/buzz-relay/src/subscription.rs]: who subscribed to what, and the
    five indexes that find the candidates for an event. An index maps a key to
    a vector of subscriptions; the order within a [HashMap] of subscriptions
    does not show. *)

From Stdlib Require Import ZArith Lia Ascii.
From stdpp Require Import base list gmap strings numbers.
From S2P Require Import Prelude MachineInt RustStr Event Filters.
Local Open Scope Z_scope.

Definition ConnId : Type := string.
Definition SubId : Type := string.
Definition CommunityId : Type := string.

(** A subscription of a connection, and what is stored of it. *)
Definition Target : Type := string * string.
Definition SubEntry : Type := list Filter * string * option string.

Record RemovedSubscription := { removed_community : string; removed_channel : option string }.
#[export] Instance RemovedSubscription_eq_dec : EqDecision RemovedSubscription.
Proof. solve_decision. Defined.

(** [GlobalPKindIndexKey] is community, kind and recipient; [IndexKey], with
    its community, is community, channel and kind. *)
Record SubscriptionRegistry := {
  subs : gmap string (gmap string SubEntry);
  channel_kind_index : gmap (string * string * Z) (list Target);
  channel_wildcard_index : gmap (string * string) (list Target);
  global_kind_index : gmap (string * Z) (list Target);
  global_p_kind_index : gmap (string * Z * string) (list Target);
  global_wildcard_index : gmap string (list Target);
}.

(** [SubscriptionRegistry::new]. *)
Definition new_registry : SubscriptionRegistry := {|
  subs := ∅; channel_kind_index := ∅; channel_wildcard_index := ∅; global_kind_index := ∅;
  global_p_kind_index := ∅; global_wildcard_index := ∅ |}.

Definition set_subs s r := {|
  subs := s; channel_kind_index := channel_kind_index r;
  channel_wildcard_index := channel_wildcard_index r; global_kind_index := global_kind_index r;
  global_p_kind_index := global_p_kind_index r; global_wildcard_index := global_wildcard_index r |}.
Definition set_channel_kind f r := {|
  subs := subs r; channel_kind_index := f (channel_kind_index r);
  channel_wildcard_index := channel_wildcard_index r; global_kind_index := global_kind_index r;
  global_p_kind_index := global_p_kind_index r; global_wildcard_index := global_wildcard_index r |}.
Definition set_channel_wildcard f r := {|
  subs := subs r; channel_kind_index := channel_kind_index r;
  channel_wildcard_index := f (channel_wildcard_index r); global_kind_index := global_kind_index r;
  global_p_kind_index := global_p_kind_index r; global_wildcard_index := global_wildcard_index r |}.
Definition set_global_kind f r := {|
  subs := subs r; channel_kind_index := channel_kind_index r;
  channel_wildcard_index := channel_wildcard_index r; global_kind_index := f (global_kind_index r);
  global_p_kind_index := global_p_kind_index r; global_wildcard_index := global_wildcard_index r |}.
Definition set_global_p_kind f r := {|
  subs := subs r; channel_kind_index := channel_kind_index r;
  channel_wildcard_index := channel_wildcard_index r; global_kind_index := global_kind_index r;
  global_p_kind_index := f (global_p_kind_index r); global_wildcard_index := global_wildcard_index r |}.
Definition set_global_wildcard f r := {|
  subs := subs r; channel_kind_index := channel_kind_index r;
  channel_wildcard_index := channel_wildcard_index r; global_kind_index := global_kind_index r;
  global_p_kind_index := global_p_kind_index r; global_wildcard_index := f (global_wildcard_index r) |}.

(** ** Keys *)

(** Keeping the first of equals: [seen.insert(x)] then [push]. *)
Fixpoint firsts {A} `{EqDecision A} (seen l : list A) : list A :=
  match l with
  | [] => []
  | a :: l => if bool_decide (a ∈ seen) then firsts seen l else a :: firsts (a :: seen) l
  end.

(** [extract_kinds_from_filters]: [None] when a filter has no kinds. *)
Fixpoint all_kinds (filters : list Filter) : option (list Z) :=
  match filters with
  | [] => Some []
  | f :: rest =>
      match kinds f, all_kinds rest with
      | Some ks, Some ks' => Some (ks ++ ks')
      | _, _ => None
      end
  end.
Definition extract_kinds_from_filters (filters : list Filter) : option (list Z) :=
  firsts [] <$> all_kinds filters.

(** [extract_global_p_kind_index_keys]: one filter, all of them. *)
Definition filter_p_kind_keys (community : string) (f : Filter) : option (list (string * Z * string)) :=
  match kinds f with
  | None => None
  | Some [] => Some []
  | Some ks =>
      match generic_tags f !! "p"%string with
      | None | Some [] => None
      | Some ps => Some (ks ≫= fun k => (fun p => (community, k, p)) <$> ps)
      end
  end.
Fixpoint all_p_kind_keys (community : string) (filters : list Filter)
    : option (list (string * Z * string)) :=
  match filters with
  | [] => Some []
  | f :: rest =>
      match filter_p_kind_keys community f, all_p_kind_keys community rest with
      | Some l, Some l' => Some (l ++ l')
      | _, _ => None
      end
  end.
Definition extract_global_p_kind_index_keys (community : string) (filters : list Filter)
    : option (list (string * Z * string)) :=
  firsts [] <$> all_p_kind_keys community filters.

(** [event_p_tag_values]. *)
Definition event_p_tag_values (ev : StoredEvent) : list string :=
  firsts [] (filter_map content (List.filter (tag_is "p") (ev_tags (stored_event ev)))).

(** ** Index entries *)

Section Entries.
Context {K : Type} `{Countable K}.

(** [index.entry(key).or_default().push(t)]. *)
Definition push_entry (t : Target) (index : gmap K (list Target)) (key : K) : gmap K (list Target) :=
  <[key := default [] (index !! key) ++ [t]]> index.

(** [entries.retain(..)], and the key goes when nothing is left. *)
Definition drop_entry (t : Target) (index : gmap K (list Target)) (key : K) : gmap K (list Target) :=
  match index !! key with
  | Some entries =>
      let entries := List.filter (fun e => negb (bool_decide (e = t))) entries in
      if bool_decide (entries = []) then delete key index else <[key := entries]> index
  | None => index
  end.
End Entries.

(** The dispatch that registration and removal share: which index a
    subscription belongs in, and what is done there. *)
Definition index_with
    (step : forall {K : Type} `{Countable K}, gmap K (list Target) -> K -> gmap K (list Target))
    (filters : list Filter) (community : string) (channel : option string)
    (r : SubscriptionRegistry) : SubscriptionRegistry :=
  match channel with
  | Some ch =>
      match extract_kinds_from_filters filters with
      | None => set_channel_wildcard (fun m => step m (community, ch)) r
      | Some ks =>
          set_channel_kind (fun m => foldl step m ((fun k => (community, ch, k)) <$> ks)) r
      end
  | None =>
      match extract_global_p_kind_index_keys community filters with
      | Some keys => set_global_p_kind (fun m => foldl step m keys) r
      | None =>
          match extract_kinds_from_filters filters with
          | None => set_global_wildcard (fun m => step m community) r
          | Some ks => set_global_kind (fun m => foldl step m ((fun k => (community, k)) <$> ks)) r
          end
      end
  end.

(** [remove_from_index], and the indexing part of [register_scoped]. *)
Definition add_to_index (t : Target) := index_with (fun K _ _ => push_entry t).
Definition remove_from_index (t : Target) := index_with (fun K _ _ => drop_entry t).

(** ** Operations *)

(** [remove_subscription]. The connection's map stays, also when it is empty. *)
Definition remove_subscription (conn sub : string) (r : SubscriptionRegistry)
    : option RemovedSubscription * SubscriptionRegistry :=
  match subs r !! conn with
  | None => (None, r)
  | Some conn_subs =>
      match conn_subs !! sub with
      | None => (None, r)
      | Some (filters, community, channel) =>
          (Some {| removed_community := community; removed_channel := channel |},
           remove_from_index (conn, sub) filters community channel
             (set_subs (<[conn := delete sub conn_subs]> (subs r)) r))
      end
  end.

(** [register_scoped]. *)
Definition register_scoped (community conn sub : string) (filters : list Filter)
    (channel : option string) (r : SubscriptionRegistry)
    : option RemovedSubscription * SubscriptionRegistry :=
  let '(removed, r) := remove_subscription conn sub r in
  let conn_subs := default ∅ (subs r !! conn) in
  (removed, add_to_index (conn, sub) filters community channel
              (set_subs (<[conn := <[sub := (filters, community, channel)]> conn_subs]> (subs r)) r)).

(** [remove_connection]. *)
Definition remove_connection (conn : string) (r : SubscriptionRegistry)
    : list RemovedSubscription * SubscriptionRegistry :=
  match subs r !! conn with
  | None => ([], r)
  | Some conn_subs =>
      let l := map_to_list conn_subs in
      ((fun e : string * SubEntry =>
          {| removed_community := e.2.1.2; removed_channel := e.2.2 |}) <$> l,
       foldl (fun r (e : string * SubEntry) =>
                remove_from_index (conn, e.1) e.2.1.1 e.2.1.2 e.2.2 r)
         (set_subs (delete conn (subs r)) r) l)
  end.

(** [remove_channel_subscriptions_scoped]. *)
Fixpoint remove_each (conn : string) (sub_ids : list string) (r : SubscriptionRegistry)
    : list (string * RemovedSubscription) * SubscriptionRegistry :=
  match sub_ids with
  | [] => ([], r)
  | sub :: rest =>
      let '(removed, r) := remove_subscription conn sub r in
      let '(l, r) := remove_each conn rest r in
      (match removed with Some x => (sub, x) :: l | None => l end, r)
  end.
Definition in_channel (community channel : string) (e : string * SubEntry) : bool :=
  String.eqb e.2.1.2 community && bool_decide (e.2.2 = Some channel).
Definition remove_channel_subscriptions_scoped (community conn channel : string)
    (r : SubscriptionRegistry) : list (string * RemovedSubscription) * SubscriptionRegistry :=
  let ids := fst <$> List.filter (in_channel community channel)
                       (map_to_list (default ∅ (subs r !! conn))) in
  remove_each conn ids r.

(** [channel_subscriber_conns_scoped]: the set of connections. *)
Definition channel_subscriber_conns_scoped (community channel : string) (r : SubscriptionRegistry)
    : gset string :=
  let of_kind := map_to_list (channel_kind_index r) ≫= fun e =>
    if String.eqb e.1.1.1 community && String.eqb e.1.1.2 channel then fst <$> e.2 else [] in
  let of_channel := fst <$> default [] (channel_wildcard_index r !! (community, channel)) in
  list_to_set (of_kind ++ of_channel).

(** [get_filters], [total_subscriptions], [total_connections]. *)
Definition entry_of (r : SubscriptionRegistry) (t : Target) : option SubEntry :=
  match subs r !! t.1 with Some conn_subs => conn_subs !! t.2 | None => None end.
Definition get_filters (conn sub : string) (r : SubscriptionRegistry) : option (list Filter) :=
  (fun e : SubEntry => e.1.1) <$> entry_of r (conn, sub).
Definition total_subscriptions (r : SubscriptionRegistry) : nat :=
  foldr (fun (e : string * gmap string SubEntry) n => (size e.2 + n)%nat) 0%nat (map_to_list (subs r)).
Definition total_connections (r : SubscriptionRegistry) : nat := size (subs r).

(** ** Fan-out *)

(** The test of [push_match]: the stored scope is the event's, and a filter
    matches. *)
Definition entry_matches (community : string) (ev : StoredEvent) (e : SubEntry) : bool :=
  let '(filters, sub_community, sub_channel) := e in
  String.eqb sub_community community && bool_decide (sub_channel = stored_channel ev)
  && filters_match filters ev.

(** [push_match], from the results and the set of the seen. *)
Definition push_match (community : string) (ev : StoredEvent) (r : SubscriptionRegistry)
    (acc : list Target * gset Target) (t : Target) : list Target * gset Target :=
  match entry_of r t with
  | Some e =>
      if entry_matches community ev e then
        if bool_decide (t ∈ acc.2) then acc else (acc.1 ++ [t], {[ t ]} ∪ acc.2)
      else acc
  | None => acc
  end.

(** The candidates, index by index. *)
Definition candidates (community : string) (ev : StoredEvent) (r : SubscriptionRegistry) : list Target :=
  let kind := ev_kind (stored_event ev) in
  match stored_channel ev with
  | Some channel =>
      default [] (channel_kind_index r !! (community, channel, kind))
      ++ default [] (channel_wildcard_index r !! (community, channel))
  | None =>
      (event_p_tag_values ev ≫= fun p => default [] (global_p_kind_index r !! (community, kind, p)))
      ++ default [] (global_kind_index r !! (community, kind))
      ++ default [] (global_wildcard_index r !! community)
  end.

(** [fan_out_scoped]. *)
Definition fan_out_scoped (community : string) (ev : StoredEvent) (r : SubscriptionRegistry)
    : list Target :=
  (foldl (push_match community ev r) ([], ∅) (candidates community ev r)).1.
