(* ===== verification/SubscriptionFacts.v ===== *)
(** * The subscription indexes are exact

    Theorems about [Subscription]: the five indexes and the table of
    subscriptions agree in every state the relay reaches, so fan-out finds
    exactly the subscriptions that match, each once, and whatever the indexes
    hold it never leaves an event's scope. *)

From Stdlib Require Import ZArith Lia Ascii.
From stdpp Require Import base list gmap strings numbers sorting.
From S2P Require Import Prelude MachineInt RustStr Event Filters Subscription.
Local Open Scope Z_scope.

(** ** One view of the five indexes *)

Inductive AnyKey :=
| ChannelKind (k : string * string * Z)
| ChannelAny (k : string * string)
| GlobalPKind (k : string * Z * string)
| GlobalKind (k : string * Z)
| GlobalAny (k : string).
#[export] Instance AnyKey_eq_dec : EqDecision AnyKey.
Proof. solve_decision. Defined.

Definition lookup_index (k : AnyKey) (r : SubscriptionRegistry) : option (list Target) :=
  match k with
  | ChannelKind k => channel_kind_index r !! k
  | ChannelAny k => channel_wildcard_index r !! k
  | GlobalPKind k => global_p_kind_index r !! k
  | GlobalKind k => global_kind_index r !! k
  | GlobalAny k => global_wildcard_index r !! k
  end.
Definition entries_at (k : AnyKey) (r : SubscriptionRegistry) : list Target :=
  default [] (lookup_index k r).

(** The keys a subscription is indexed under. *)
Definition keys_for (filters : list Filter) (community : string) (channel : option string)
    : list AnyKey :=
  match channel with
  | Some ch =>
      match extract_kinds_from_filters filters with
      | None => [ChannelAny (community, ch)]
      | Some ks => (fun k => ChannelKind (community, ch, k)) <$> ks
      end
  | None =>
      match extract_global_p_kind_index_keys community filters with
      | Some keys => GlobalPKind <$> keys
      | None =>
          match extract_kinds_from_filters filters with
          | None => [GlobalAny community]
          | Some ks => (fun k => GlobalKind (community, k)) <$> ks
          end
      end
  end.
Definition keys_of (e : SubEntry) : list AnyKey := keys_for e.1.1 e.1.2 e.2.

(** ** Keys *)

Lemma firsts_spec {A} `{EqDecision A} (seen l : list A) :
  NoDup (firsts seen l) /\ forall a, a ∈ firsts seen l <-> a ∈ l /\ a ∉ seen.
Proof.
  revert seen. induction l as [|b l IH]; intros seen; cbn.
  { split; [constructor|]. intros a. rewrite elem_of_nil. tauto. }
  case_bool_decide as Hb.
  - destruct (IH seen) as [Hd Hin]. split; [done|]. intros a. rewrite Hin, elem_of_cons.
    split; [tauto|]. intros [[->|] ?]; [done|tauto].
  - destruct (IH (b :: seen)) as [Hd Hin]. split.
    + constructor; [|done]. rewrite Hin. intros [_ Hn]. apply Hn. by left.
    + intros a. rewrite !elem_of_cons, Hin, elem_of_cons. destruct (decide (a = b)) as [->|]; tauto.
Qed.

Lemma firsts_nodup {A} `{EqDecision A} (l : list A) : NoDup (firsts [] l).
Proof. apply firsts_spec. Qed.

Lemma elem_of_firsts {A} `{EqDecision A} (l : list A) a : a ∈ firsts [] l <-> a ∈ l.
Proof. rewrite (proj2 (firsts_spec [] l)), elem_of_nil. tauto. Qed.

Lemma extract_kinds_nodup filters ks : extract_kinds_from_filters filters = Some ks -> NoDup ks.
Proof.
  unfold extract_kinds_from_filters. destruct (all_kinds filters); [|done]. intros [= <-].
  apply firsts_nodup.
Qed.

Lemma extract_p_kind_nodup community filters keys :
  extract_global_p_kind_index_keys community filters = Some keys -> NoDup keys.
Proof.
  unfold extract_global_p_kind_index_keys. destruct (all_p_kind_keys community filters); [|done].
  intros [= <-]. apply firsts_nodup.
Qed.

(** ** What a step on the indexes does at every key *)

Section Step.
Context (step : forall (K : Type) (H1 : EqDecision K) (H2 : Countable K),
  gmap K (list Target) -> K -> gmap K (list Target)).
Context (effect : option (list Target) -> option (list Target)).
Context (step_lookup : forall K (H1 : EqDecision K) (H2 : Countable K) (m : gmap K (list Target)) key k,
  step K H1 H2 m key !! k = if decide (k = key) then effect (m !! key) else m !! k).

Lemma foldl_step_lookup {K} `{Countable K} (keys : list K) (m : gmap K (list Target)) k :
  NoDup keys -> foldl (step K _ _) m keys !! k = if decide (k ∈ keys) then effect (m !! k) else m !! k.
Proof.
  revert m. induction keys as [|key keys IH]; intros m; cbn.
  { intros _. by rewrite decide_False by apply not_elem_of_nil. }
  intros [Hn Hd]%NoDup_cons. rewrite IH by done. rewrite step_lookup.
  destruct (decide (k = key)) as [->|Hne].
  - rewrite decide_False by done. by rewrite decide_True by left.
  - destruct (decide (k ∈ keys)); [by rewrite decide_True by (by right)|].
    rewrite decide_False; [done|]. rewrite elem_of_cons. tauto.
Qed.

Lemma index_with_lookup filters community channel r k :
  lookup_index k (index_with step filters community channel r)
  = if decide (k ∈ keys_for filters community channel)
    then effect (lookup_index k r) else lookup_index k r.
Proof.
  assert (forall A B (f : A -> B) (a : A) (l : list A), (forall x y, f x = f y -> x = y) ->
            f a ∈ f <$> l <-> a ∈ l) as Hinj.
  { intros A B f a l Hf. rewrite list_elem_of_fmap. split; [|by eauto].
    intros (x & Hx%Hf & Hin). by subst. }
  unfold index_with, keys_for. destruct channel as [ch|].
  - destruct (extract_kinds_from_filters filters) as [ks|] eqn:Ek.
    + assert (NoDup ((fun k0 => (community, ch, k0)) <$> ks)) as Hd.
      { apply NoDup_fmap_2; [|by eapply extract_kinds_nodup]. by intros x y [= ->]. }
      destruct k as [k| | | |]; cbn; try (rewrite decide_False; [done|];
        rewrite list_elem_of_fmap; by intros (? & ? & _)).
      rewrite foldl_step_lookup by done. apply decide_ext.
      rewrite !list_elem_of_fmap. split; intros (x & Hx & Hin); exists x; [by subst|].
      split; [congruence|done].
    + destruct k as [|k| | |]; cbn; try (rewrite decide_False; [done|]; set_solver).
      rewrite step_lookup. destruct (decide (k = (community, ch))) as [->|];
        [by rewrite decide_True by set_solver|rewrite decide_False; [done|set_solver]].
  - destruct (extract_global_p_kind_index_keys community filters) as [keys|] eqn:Ep.
    + destruct k as [| |k| |]; cbn; try (rewrite decide_False; [done|];
        rewrite list_elem_of_fmap; by intros (? & ? & _)).
      rewrite foldl_step_lookup by (by eapply extract_p_kind_nodup). apply decide_ext.
      symmetry. apply Hinj. by intros x y [= ->].
    + destruct (extract_kinds_from_filters filters) as [ks|] eqn:Ek.
      * assert (NoDup ((fun k0 => (community, k0)) <$> ks)) as Hd.
        { apply NoDup_fmap_2; [|by eapply extract_kinds_nodup]. by intros x y [= ->]. }
        destruct k as [| | |k|]; cbn; try (rewrite decide_False; [done|];
          rewrite list_elem_of_fmap; by intros (? & ? & _)).
        rewrite foldl_step_lookup by done. apply decide_ext.
        rewrite !list_elem_of_fmap. split; intros (x & Hx & Hin); exists x; [by subst|].
        split; [congruence|done].
      * destruct k as [| | | |k]; cbn; try (rewrite decide_False; [done|]; set_solver).
        rewrite step_lookup. destruct (decide (k = community)) as [->|];
          [by rewrite decide_True by set_solver|rewrite decide_False; [done|set_solver]].
Qed.
End Step.

Definition pushed (t : Target) (o : option (list Target)) : option (list Target) :=
  Some (default [] o ++ [t]).
Definition kept (t : Target) (l : list Target) : list Target :=
  List.filter (fun e => negb (bool_decide (e = t))) l.
Definition dropped (t : Target) (o : option (list Target)) : option (list Target) :=
  match o with
  | Some l => if bool_decide (kept t l = []) then None else Some (kept t l)
  | None => None
  end.

Lemma add_lookup t filters community channel r k :
  lookup_index k (add_to_index t filters community channel r)
  = if decide (k ∈ keys_for filters community channel)
    then pushed t (lookup_index k r) else lookup_index k r.
Proof.
  apply index_with_lookup. intros K ? ? m key k'. unfold push_entry, pushed.
  destruct (decide (k' = key)) as [->|]; [by rewrite lookup_insert_eq|by rewrite lookup_insert_ne].
Qed.

Lemma remove_lookup t filters community channel r k :
  lookup_index k (remove_from_index t filters community channel r)
  = if decide (k ∈ keys_for filters community channel)
    then dropped t (lookup_index k r) else lookup_index k r.
Proof.
  apply index_with_lookup. intros K ? ? m key k'. unfold drop_entry, dropped, kept.
  destruct (decide (k' = key)) as [->|].
  - destruct (m !! key) eqn:Hm; [|done]. case_bool_decide; [by rewrite lookup_delete_eq|].
    by rewrite lookup_insert_eq.
  - destruct (m !! key) eqn:Hm; [|done]. case_bool_decide; [by rewrite lookup_delete_ne|].
    by rewrite lookup_insert_ne.
Qed.

(** ** The invariant *)

(** The indexes hold the subscriptions of [E] and nothing else: a vector is
    never empty, holds no one twice, and holds those whose filters put them at
    its key. *)
Definition indexed (E : Target -> option SubEntry) (r : SubscriptionRegistry) : Prop :=
  forall k, lookup_index k r <> Some [] /\ NoDup (entries_at k r)
            /\ forall x, x ∈ entries_at k r <-> exists e, E x = Some e /\ k ∈ keys_of e.

Lemma indexed_ext E E' r : (forall x, E x = E' x) -> indexed E r -> indexed E' r.
Proof. intros He Hi k. destruct (Hi k) as (H1 & H2 & H3). split_and!; [done..|]. intros x. by rewrite <- He. Qed.

Lemma entries_set_subs s r k : lookup_index k (set_subs s r) = lookup_index k r.
Proof. by destruct k. Qed.

Lemma indexed_set_subs E s r : indexed E r -> indexed E (set_subs s r).
Proof.
  intros Hi k. unfold entries_at. rewrite entries_set_subs. apply Hi.
Qed.

Lemma elem_of_list_filter {A} (p : A -> bool) l x : x ∈ List.filter p l <-> x ∈ l /\ p x = true.
Proof. by rewrite !list_elem_of_In, List.filter_In. Qed.

Lemma elem_of_kept t l x : x ∈ kept t l <-> x ∈ l /\ x <> t.
Proof.
  unfold kept. by rewrite elem_of_list_filter, negb_true_iff, bool_decide_eq_false.
Qed.

Lemma kept_nodup t l : NoDup l -> NoDup (kept t l).
Proof. rewrite !NoDup_ListNoDup. apply List.NoDup_filter. Qed.

Lemma dropped_entries t o x : x ∈ default [] (dropped t o) <-> x ∈ default [] o /\ x <> t.
Proof.
  unfold dropped. destruct o as [l|]; cbn; [|rewrite elem_of_nil; tauto].
  case_bool_decide as Hk; cbn; [|apply elem_of_kept].
  rewrite <- elem_of_kept, Hk. by rewrite !elem_of_nil.
Qed.

Lemma indexed_remove E t e r :
  indexed E r -> E t = Some e ->
  indexed (fun x => if decide (x = t) then None else E x) (remove_from_index t e.1.1 e.1.2 e.2 r).
Proof.
  intros Hi Ht k. destruct (Hi k) as (Hne & Hd & Hin). unfold entries_at in *.
  rewrite remove_lookup. fold (keys_of e). destruct (decide (k ∈ keys_of e)) as [Hk|Hk].
  - split_and!.
    + unfold dropped. destruct (lookup_index k r); [|done]. case_bool_decide; [done|]. congruence.
    + unfold dropped. destruct (lookup_index k r); cbn in *; [|constructor].
      case_bool_decide; cbn; [constructor|]. by apply kept_nodup.
    + intros x. rewrite dropped_entries, Hin. destruct (decide (x = t)) as [->|Hx].
      * split; [by intros [_ ?]|by intros (? & ? & _)].
      * tauto.
  - split_and!; [done..|]. intros x. rewrite Hin. destruct (decide (x = t)) as [->|Hx]; [|done].
    split; [|by intros (? & ? & _)]. intros (e' & He & Hk'). rewrite Ht in He. by injection He as <-.
Qed.

Lemma indexed_add E t e r :
  indexed E r -> E t = None ->
  indexed (fun x => if decide (x = t) then Some e else E x) (add_to_index t e.1.1 e.1.2 e.2 r).
Proof.
  intros Hi Ht k. destruct (Hi k) as (Hne & Hd & Hin). unfold entries_at in *.
  assert (t ∉ default [] (lookup_index k r)) as Hout.
  { rewrite Hin. intros (? & He & _). congruence. }
  rewrite add_lookup. fold (keys_of e). destruct (decide (k ∈ keys_of e)) as [Hk|Hk].
  - unfold pushed. cbn. split_and!.
    + by destruct (default [] _).
    + apply NoDup_app. split_and!; [done| |apply NoDup_singleton].
      intros x Hx. by intros ->%list_elem_of_singleton.
    + intros x. rewrite elem_of_app, list_elem_of_singleton, Hin.
      destruct (decide (x = t)) as [->|Hx]; [|by split; [intros [?|?]|left]].
      split; [intros _; by exists e|by right].
  - split_and!; [done..|]. intros x. rewrite Hin. destruct (decide (x = t)) as [->|Hx]; [|done].
    split; [by rewrite Ht; intros (? & ? & _)|]. by intros (? & [= <-] & ?).
Qed.

(** ** The operations *)

Definition wf_registry (r : SubscriptionRegistry) : Prop := indexed (entry_of r) r.

Lemma index_with_subs step filters community channel r :
  subs (index_with step filters community channel r) = subs r.
Proof. unfold index_with. repeat case_match; done. Qed.

Lemma wf_subs E r : indexed E r -> (forall x, entry_of r x = E x) -> wf_registry r.
Proof. intros Hi He. eapply indexed_ext; [|exact Hi]. done. Qed.

Lemma entry_of_delete r conn sub m x :
  subs r !! conn = Some m ->
  entry_of (set_subs (<[conn := delete sub m]> (subs r)) r) x
  = if decide (x = (conn, sub)) then None else entry_of r x.
Proof.
  intros Hm. unfold entry_of. cbn. destruct x as [c s]. cbn.
  destruct (decide (c = conn)) as [->|Hc].
  - rewrite lookup_insert_eq, Hm. destruct (decide (s = sub)) as [->|Hs].
    + by rewrite lookup_delete_eq, decide_True.
    + rewrite lookup_delete_ne by done. rewrite decide_False; [done|congruence].
  - rewrite lookup_insert_ne by done. rewrite decide_False; [done|congruence].
Qed.

Lemma remove_subscription_spec conn sub r :
  wf_registry r ->
  let '(removed, r') := remove_subscription conn sub r in
  wf_registry r' /\ removed = (fun e : SubEntry => {| removed_community := e.1.2; removed_channel := e.2 |})
                                <$> entry_of r (conn, sub)
  /\ forall x, entry_of r' x = if decide (x = (conn, sub)) then None else entry_of r x.
Proof.
  intros Hw. unfold remove_subscription.
  destruct (subs r !! conn) as [m|] eqn:Hm.
  2: { assert (entry_of r (conn, sub) = None) as Hn by (unfold entry_of; cbn; by rewrite Hm).
       rewrite Hn. split_and!; [done..|]. intros x. by destruct (decide _) as [->|]. }
  destruct (m !! sub) as [[[filters community] channel]|] eqn:He.
  2: { assert (entry_of r (conn, sub) = None) as Hn by (unfold entry_of; cbn; by rewrite Hm).
       rewrite Hn. split_and!; [done..|]. intros x. by destruct (decide _) as [->|]. }
  assert (entry_of r (conn, sub) = Some (filters, community, channel)) as Hn
    by (unfold entry_of; cbn; by rewrite Hm).
  assert (forall x, entry_of (remove_from_index (conn, sub) filters community channel
            (set_subs (<[conn := delete sub m]> (subs r)) r)) x
          = if decide (x = (conn, sub)) then None else entry_of r x) as Hent.
  { intros x. rewrite <- (entry_of_delete r conn sub m x Hm). unfold entry_of, remove_from_index.
    by rewrite index_with_subs. }
  split_and!; [|by rewrite Hn|done].
  eapply wf_subs; [|exact Hent].
  apply (indexed_remove (entry_of r) (conn, sub) (filters, community, channel)); [|done].
  by apply indexed_set_subs.
Qed.

Lemma register_scoped_spec community conn sub filters channel r :
  wf_registry r ->
  let '(removed, r') := register_scoped community conn sub filters channel r in
  wf_registry r' /\ removed = (fun e : SubEntry => {| removed_community := e.1.2; removed_channel := e.2 |})
                                <$> entry_of r (conn, sub)
  /\ forall x, entry_of r' x = if decide (x = (conn, sub)) then Some (filters, community, channel)
                               else entry_of r x.
Proof.
  intros Hw. unfold register_scoped. pose proof (remove_subscription_spec conn sub r Hw) as Hr.
  destruct (remove_subscription conn sub r) as [removed r1]. destruct Hr as (Hw1 & Hrem & Hent).
  set (m := default ∅ (subs r1 !! conn)). set (e := (filters, community, channel)).
  assert (forall x, entry_of (add_to_index (conn, sub) filters community channel
            (set_subs (<[conn := <[sub := e]> m]> (subs r1)) r1)) x
          = if decide (x = (conn, sub)) then Some e else entry_of r1 x) as Hent1.
  { intros x. unfold entry_of, add_to_index. rewrite index_with_subs. cbn. destruct x as [c s]. cbn.
    destruct (decide (c = conn)) as [->|Hc].
    - rewrite lookup_insert_eq. destruct (decide (s = sub)) as [->|Hs].
      + by rewrite lookup_insert_eq, decide_True.
      + rewrite lookup_insert_ne by done. rewrite decide_False by congruence. unfold m.
        destruct (subs r1 !! conn); cbn; [done|]. by rewrite lookup_empty.
    - rewrite lookup_insert_ne by done. rewrite decide_False; [done|congruence]. }
  split_and!; [|done|].
  - eapply wf_subs; [|exact Hent1].
    apply (indexed_add (entry_of r1) (conn, sub) e); [by apply indexed_set_subs|].
    rewrite Hent. by rewrite decide_True.
  - intros x. rewrite Hent1, Hent. by destruct (decide _).
Qed.

Lemma remove_entries_indexed conn l E r :
  indexed E r -> NoDup (fst <$> l) -> (forall s e, (s, e) ∈ l -> E (conn, s) = Some e) ->
  let r' := foldl (fun r (e : string * SubEntry) =>
                     remove_from_index (conn, e.1) e.2.1.1 e.2.1.2 e.2.2 r) r l in
  indexed (fun x => if decide (x.1 = conn /\ x.2 ∈ fst <$> l) then None else E x) r'
  /\ subs r' = subs r.
Proof.
  revert E r. induction l as [|[s e] l IH]; intros E r Hi Hd Hl; cbn in *.
  { split; [|done]. eapply indexed_ext; [|exact Hi]. intros x. rewrite decide_False; [done|].
    intros [_ Hx]. by apply not_elem_of_nil in Hx. }
  apply NoDup_cons in Hd as [Hn Hd].
  destruct (IH (fun x => if decide (x = (conn, s)) then None else E x)
              (remove_from_index (conn, s) e.1.1 e.1.2 e.2 r)) as [Hi' Hs'].
  - apply indexed_remove; [done|]. apply Hl. by left.
  - done.
  - intros s' e' Hin. rewrite decide_False; [apply Hl; by right|]. intros [= ->].
    apply Hn. apply list_elem_of_fmap. by exists (s, e').
  - split; [|by rewrite Hs'; apply index_with_subs].
    eapply indexed_ext; [|exact Hi']. intros [c s']. cbn.
    repeat case_decide; try done.
    + set_solver.
    + simplify_eq. set_solver.
    + exfalso. destruct_and?; subst. set_solver.
Qed.

Lemma remove_connection_spec conn r :
  wf_registry r ->
  let r' := (remove_connection conn r).2 in
  wf_registry r' /\ forall x, entry_of r' x = if decide (x.1 = conn) then None else entry_of r x.
Proof.
  intros Hw. unfold remove_connection. destruct (subs r !! conn) as [m|] eqn:Hm; cbn [snd].
  2: { split; [done|]. intros [c s]. cbn. destruct (decide (c = conn)) as [->|]; [|done].
       unfold entry_of. cbn. by rewrite Hm. }
  destruct (remove_entries_indexed conn (map_to_list m) (entry_of r)
              (set_subs (delete conn (subs r)) r)) as [Hi Hs].
  - by apply indexed_set_subs.
  - apply NoDup_fst_map_to_list.
  - intros s e Hin%elem_of_map_to_list. unfold entry_of. cbn. by rewrite Hm.
  - assert (forall x, (if decide (x.1 = conn /\ x.2 ∈ fst <$> map_to_list m) then None else entry_of r x)
                      = if decide (x.1 = conn) then None else entry_of r x) as Heq.
    { intros [c s]. cbn. destruct (decide (c = conn)) as [->|Hc].
      - destruct (decide (conn = conn /\ s ∈ fst <$> map_to_list m)) as [_|Hno]; [done|].
        unfold entry_of. cbn. rewrite Hm. destruct (m !! s) as [e|] eqn:He; [|done]. destruct Hno.
        split; [done|]. apply list_elem_of_fmap. exists (s, e). split; [done|]. by apply elem_of_map_to_list.
      - rewrite decide_False; [done|tauto]. }
    assert (forall x, entry_of (foldl (fun r (e : string * SubEntry) =>
              remove_from_index (conn, e.1) e.2.1.1 e.2.1.2 e.2.2 r)
              (set_subs (delete conn (subs r)) r) (map_to_list m)) x
            = if decide (x.1 = conn) then None else entry_of r x) as Hent.
    { intros [c s]. unfold entry_of. rewrite Hs. cbn. destruct (decide (c = conn)) as [->|Hc].
      - by rewrite lookup_delete_eq.
      - by rewrite lookup_delete_ne. }
    split; [|exact Hent]. eapply wf_subs; [eapply indexed_ext; [|exact Hi]; exact Heq|exact Hent].
Qed.

Lemma remove_each_spec conn ids r :
  wf_registry r ->
  let r' := (remove_each conn ids r).2 in
  wf_registry r'
  /\ forall x, entry_of r' x = if decide (x.1 = conn /\ x.2 ∈ ids) then None else entry_of r x.
Proof.
  revert r. induction ids as [|sub ids IH]; intros r Hw; cbn.
  { split; [done|]. intros x. rewrite decide_False; [done|]. intros [_ Hx]. by apply not_elem_of_nil in Hx. }
  pose proof (remove_subscription_spec conn sub r Hw) as Hr.
  destruct (remove_subscription conn sub r) as [o r1]. destruct Hr as (Hw1 & _ & Hent).
  destruct (IH r1 Hw1) as [Hw2 Hent2]. destruct (remove_each conn ids r1) as [l r2]. cbn in *.
  split; [done|]. intros [c s]. rewrite Hent2, Hent. cbn. repeat case_decide; try done.
  - set_solver.
  - simplify_eq. set_solver.
  - exfalso. destruct_and?; subst. set_solver.
Qed.

Lemma in_channel_spec community channel e :
  in_channel community channel e = true <-> e.2.1.2 = community /\ e.2.2 = Some channel.
Proof. unfold in_channel. by rewrite andb_true_iff, String.eqb_eq, bool_decide_eq_true. Qed.

Lemma remove_each_ids conn ids r s : s ∈ fst <$> (remove_each conn ids r).1 -> s ∈ ids.
Proof.
  revert r. induction ids as [|sub ids IH]; intros r; cbn; [done|].
  destruct (remove_subscription conn sub r) as [o r1]. specialize (IH r1).
  destruct (remove_each conn ids r1) as [l r2]. cbn in *. destruct o; cbn; set_solver.
Qed.

(** Eviction takes the connection's subscriptions to that channel. *)
Lemma evict_spec community conn channel r :
  wf_registry r ->
  let '(removed, r') := remove_channel_subscriptions_scoped community conn channel r in
  wf_registry r'
  /\ (forall x e, entry_of r' x = Some e <->
        entry_of r x = Some e /\ ~ (x.1 = conn /\ e.1.2 = community /\ e.2 = Some channel))
  /\ forall s, s ∈ fst <$> removed -> entry_of r' (conn, s) = None.
Proof.
  intros Hw. unfold remove_channel_subscriptions_scoped.
  set (ids := fst <$> List.filter (in_channel community channel) (map_to_list (default ∅ (subs r !! conn)))).
  pose proof (remove_each_spec conn ids r Hw) as Hr. pose proof (remove_each_ids conn ids r) as Hids.
  destruct (remove_each conn ids r) as [removed r']. cbn in Hr, Hids. destruct Hr as [Hw' Hent].
  assert (forall s, s ∈ ids <-> exists e, entry_of r (conn, s) = Some e /\ e.1.2 = community
                                          /\ e.2 = Some channel) as Hin.
  { intros s. unfold ids, entry_of. cbn. rewrite list_elem_of_fmap. split.
    - intros ([s' e] & -> & [Hin Hc%in_channel_spec]%elem_of_list_filter).
      destruct (subs r !! conn) as [ms|]; cbn in Hin; apply elem_of_map_to_list in Hin; [by exists e|].
      by rewrite lookup_empty in Hin.
    - intros (e & He & Hc). destruct (subs r !! conn) as [ms|]; [|done]. exists (s, e). split; [done|].
      apply elem_of_list_filter. split; [by apply elem_of_map_to_list|by apply in_channel_spec]. }
  split_and!; [done| |].
  - intros [c s] e. rewrite Hent. cbn. case_decide as Hx.
    + split; [done|]. destruct Hx as [-> Hs]. apply Hin in Hs as (e' & He' & Hc). intros [He Hn].
      rewrite He in He'. injection He' as <-. tauto.
    + split; [|by intros [? _]]. intros He. split; [done|]. intros (-> & Hc). apply Hx. split; [done|].
      apply Hin. by exists e.
  - intros s Hs. rewrite Hent. rewrite decide_True; [done|]. split; [done|by apply Hids].
Qed.

(** ** The specification *)

(** What clients and the relay do to subscriptions, and what it means: a table
    of subscriptions, with no index. *)
Inductive Op :=
| Register (community conn sub : string) (filters : list Filter) (channel : option string)
| Unsubscribe (conn sub : string)
| Disconnect (conn : string)
| Evict (community conn channel : string).

Definition spec_op (m : gmap (string * string) SubEntry) (op : Op) : gmap (string * string) SubEntry :=
  match op with
  | Register community conn sub filters channel => <[(conn, sub) := (filters, community, channel)]> m
  | Unsubscribe conn sub => delete (conn, sub) m
  | Disconnect conn => filter (fun p => p.1.1 <> conn) m
  | Evict community conn channel =>
      filter (fun p => ~ (p.1.1 = conn /\ p.2.1.2 = community /\ p.2.2 = Some channel)) m
  end.
Definition spec (ops : list Op) : gmap (string * string) SubEntry := foldl spec_op ∅ ops.

Definition run_op (r : SubscriptionRegistry) (op : Op) : SubscriptionRegistry :=
  match op with
  | Register community conn sub filters channel => (register_scoped community conn sub filters channel r).2
  | Unsubscribe conn sub => (remove_subscription conn sub r).2
  | Disconnect conn => (remove_connection conn r).2
  | Evict community conn channel => (remove_channel_subscriptions_scoped community conn channel r).2
  end.
Definition run (ops : list Op) : SubscriptionRegistry := foldl run_op new_registry ops.

Definition implements (m : gmap (string * string) SubEntry) (r : SubscriptionRegistry) : Prop :=
  wf_registry r /\ forall x, entry_of r x = m !! x.

Lemma run_op_implements m r op : implements m r -> implements (spec_op m op) (run_op r op).
Proof.
  intros [Hw Hm]. destruct op as [community conn sub filters channel|conn sub|conn|community conn channel]; cbn.
  - pose proof (register_scoped_spec community conn sub filters channel r Hw) as Hr.
    destruct (register_scoped _ _ _ _ _ r) as [o r']. destruct Hr as (Hw' & _ & Hent). split; [done|].
    intros x. cbn. rewrite Hent. case_decide as Hx; [by rewrite Hx, lookup_insert_eq|].
    rewrite lookup_insert_ne by congruence. apply Hm.
  - pose proof (remove_subscription_spec conn sub r Hw) as Hr.
    destruct (remove_subscription _ _ r) as [o r']. destruct Hr as (Hw' & _ & Hent). split; [done|].
    intros x. cbn. rewrite Hent. case_decide as Hx; [by rewrite Hx, lookup_delete_eq|].
    rewrite lookup_delete_ne by congruence. apply Hm.
  - destruct (remove_connection_spec conn r Hw) as [Hw' Hent]. split; [done|].
    intros x. rewrite Hent, Hm. case_decide as Hx.
    + symmetry. apply map_lookup_filter_None. right. intros e _. cbn. tauto.
    + symmetry. destruct (m !! x) as [e|] eqn:He.
      * apply map_lookup_filter_Some. done.
      * apply map_lookup_filter_None. by left.
  - pose proof (evict_spec community conn channel r Hw) as Hr.
    destruct (remove_channel_subscriptions_scoped _ _ _ r) as [o r']. destruct Hr as (Hw' & Hent & _).
    split; [done|]. intros x. cbn. apply option_eq. intros e. rewrite Hent, Hm. symmetry.
    apply map_lookup_filter_Some.
Qed.

Lemma run_implements ops : implements (spec ops) (run ops).
Proof.
  unfold spec, run. assert (implements ∅ new_registry) as H0.
  { split; [|intros [c s]; cbn; by rewrite lookup_empty]. intros k. split_and!.
    - destruct k; cbn; by rewrite lookup_empty.
    - destruct k; cbn; rewrite lookup_empty; constructor.
    - intros x. unfold entries_at. assert (lookup_index k new_registry = None) as ->
        by (destruct k; cbn; apply lookup_empty). cbn. rewrite elem_of_nil. split; [done|].
      intros (e & He & _). unfold entry_of in He. cbn in He. by rewrite lookup_empty in He. }
  revert H0. generalize (∅ : gmap (string * string) SubEntry), new_registry.
  induction ops as [|op ops IH]; intros m r Hi; cbn; [done|]. apply IH. by apply run_op_implements.
Qed.

(** ** Fan-out *)

(** Whatever the indexes hold, the result is the matching subscriptions among
    the candidates, each once. *)
Lemma push_match_fold community ev r l acc :
  NoDup acc.1 -> (forall t, t ∈ acc.2 <-> t ∈ acc.1) ->
  let out := foldl (push_match community ev r) acc l in
  NoDup out.1
  /\ forall t, t ∈ out.1 <-> t ∈ acc.1 \/ t ∈ l /\ exists e, entry_of r t = Some e
                                                /\ entry_matches community ev e = true.
Proof.
  revert acc. induction l as [|t0 l IH]; intros acc Hd Hs; cbn.
  { split; [done|]. intros t. rewrite elem_of_nil. tauto. }
  assert (forall acc', acc' = push_match community ev r acc t0 ->
    NoDup acc'.1 /\ (forall t, t ∈ acc'.2 <-> t ∈ acc'.1)
    /\ forall t, t ∈ acc'.1 <-> t ∈ acc.1 \/ t = t0 /\ exists e, entry_of r t = Some e
                                                /\ entry_matches community ev e = true) as Hstep.
  { intros acc' ->. unfold push_match. destruct (entry_of r t0) as [e|] eqn:He.
    2: { split_and!; [done..|]. intros t. split; [by left|]. intros [?|(-> & e & ? & _)]; [done|congruence]. }
    destruct (entry_matches community ev e) eqn:Hm.
    2: { split_and!; [done..|]. intros t. split; [by left|].
         intros [?|(-> & e' & He' & Hm')]; [done|]. rewrite He in He'. injection He' as <-. congruence. }
    case_bool_decide as Hin.
    - split_and!; [done..|]. intros t. split; [by left|]. intros [?|(-> & _)]; [done|by apply Hs].
    - cbn. split_and!.
      + apply NoDup_app. split_and!; [done| |apply NoDup_singleton].
        intros t Ht ->%list_elem_of_singleton. by apply Hin, Hs.
      + intros t. rewrite elem_of_union, elem_of_singleton, elem_of_app, list_elem_of_singleton, Hs. tauto.
      + intros t. rewrite elem_of_app, list_elem_of_singleton. split; [|tauto].
        intros [?| ->]; [by left|]. right. split; [done|]. by exists e. }
  destruct (Hstep _ eq_refl) as (Hd' & Hs' & Ht'). destruct (IH _ Hd' Hs') as [Hd'' Ht''].
  split; [done|]. intros t. rewrite Ht'', Ht', elem_of_cons. tauto.
Qed.

Lemma fan_out_candidates community ev r :
  NoDup (fan_out_scoped community ev r)
  /\ forall t, t ∈ fan_out_scoped community ev r <->
       t ∈ candidates community ev r /\ exists e, entry_of r t = Some e
                                       /\ entry_matches community ev e = true.
Proof.
  destruct (push_match_fold community ev r (candidates community ev r) ([], ∅)) as [Hd Ht].
  - constructor.
  - intros t. cbn. rewrite elem_of_nil. set_solver.
  - split; [exact Hd|]. intros t. unfold fan_out_scoped. rewrite Ht. cbn. rewrite elem_of_nil. tauto.
Qed.

(** ** Routing: a match is a candidate *)

Lemma all_kinds_elem filters ks f fks k :
  all_kinds filters = Some ks -> f ∈ filters -> kinds f = Some fks -> k ∈ fks -> k ∈ ks.
Proof.
  revert ks. induction filters as [|g filters IH]; intros ks Ha Hf Hk Hin; [by apply not_elem_of_nil in Hf|].
  cbn in Ha. destruct (kinds g) as [gks|] eqn:Hg; [|done].
  destruct (all_kinds filters) as [ks'|]; [|done]. injection Ha as <-. apply elem_of_app.
  apply elem_of_cons in Hf as [->|Hf]; [left; congruence|right; by eapply IH].
Qed.

Lemma all_kinds_some filters ks f : all_kinds filters = Some ks -> f ∈ filters -> kinds f <> None.
Proof.
  revert ks. induction filters as [|g filters IH]; intros ks Ha Hf; [by apply not_elem_of_nil in Hf|].
  cbn in Ha. destruct (kinds g) as [gks|] eqn:Hg; [|done].
  destruct (all_kinds filters) as [ks'|]; [|done].
  apply elem_of_cons in Hf as [->|Hf]; [by rewrite Hg|by eapply IH].
Qed.

Lemma all_p_kind_keys_elem community filters keys f :
  all_p_kind_keys community filters = Some keys -> f ∈ filters ->
  exists l, filter_p_kind_keys community f = Some l /\ forall x, x ∈ l -> x ∈ keys.
Proof.
  revert keys. induction filters as [|g filters IH]; intros keys Ha Hf; [by apply not_elem_of_nil in Hf|].
  cbn in Ha. destruct (filter_p_kind_keys community g) as [l|] eqn:Hg; [|done].
  destruct (all_p_kind_keys community filters) as [l'|]; [|done]. injection Ha as <-.
  apply elem_of_cons in Hf as [->|Hf].
  - exists l. split; [done|]. intros x Hx. apply elem_of_app. by left.
  - destruct (IH l' eq_refl Hf) as (l1 & Hl1 & Hin). exists l1. split; [done|].
    intros x Hx. apply elem_of_app. right. by apply Hin.
Qed.

(** What a match says of a filter's kinds and tags. *)
Lemma filter_match_kind f ev ks :
  filter_match_one f ev = true -> kinds f = Some ks -> ev_kind (stored_event ev) ∈ ks.
Proof.
  unfold filter_match_one. intros Hm Hk. rewrite Hk in Hm. cbn in Hm.
  destruct (in_kinds ks (ev_kind (stored_event ev))) eqn:Hi; [|done].
  unfold in_kinds in Hi. by apply bool_decide_eq_true in Hi.
Qed.

Lemma filter_match_tags f ev key values :
  filter_match_one f ev = true -> generic_tags f !! key = Some values ->
  tag_entry_match ev (key, values) = true.
Proof.
  unfold filter_match_one. intros Hm Hk. repeat (case_match; [done|]).
  rewrite forallb_forall in Hm. apply Hm. apply list_elem_of_In. by apply elem_of_map_to_list.
Qed.

Lemma tag_with_spec name p event :
  tag_with name p event = true <->
  exists t v, t ∈ ev_tags event /\ head t = Some name /\ content t = Some v /\ p v = true.
Proof.
  unfold tag_with. rewrite existsb_exists. unfold tag_is, some_and. split.
  - intros (t & Hin & [Hh%bool_decide_eq_true Hp]%andb_true_iff). destruct (content t) as [v|] eqn:Hc; [|done].
    exists t, v. by rewrite list_elem_of_In.
  - intros (t & v & Hin & Hh & Hc & Hp). exists t. rewrite <- list_elem_of_In, Hc, Hp.
    by rewrite bool_decide_eq_true_2.
Qed.

Lemma filter_map_elem {A B} (f : A -> option B) l b :
  b ∈ filter_map f l <-> exists a, a ∈ l /\ f a = Some b.
Proof.
  induction l as [|a l IH]; cbn.
  { split; [by intros ?%not_elem_of_nil|]. by intros (a & ?%not_elem_of_nil & _). }
  destruct (f a) as [b'|] eqn:Hf; rewrite ?elem_of_cons, IH; split.
  - intros [->|(a' & ? & ?)]; [exists a; split; [left|done]|exists a'; split; [by right|done]].
  - intros (a' & [->|Hin]%elem_of_cons & Ha); [left; congruence|right; by exists a'].
  - intros (a' & ? & ?). exists a'. split; [by right|done].
  - intros (a' & [->|Hin]%elem_of_cons & Ha); [congruence|by exists a'].
Qed.

Lemma elem_of_p_values ev p :
  p ∈ event_p_tag_values ev <-> tag_with "p" (String.eqb p) (stored_event ev) = true.
Proof.
  unfold event_p_tag_values. rewrite elem_of_firsts, filter_map_elem, tag_with_spec. split.
  - intros (t & [Hin Hn]%elem_of_list_filter & Hc). exists t, p. unfold tag_is in Hn.
    apply bool_decide_eq_true in Hn. by rewrite String.eqb_refl.
  - intros (t & v & Hin & Hn & Hc & ->%String.eqb_eq). exists t. split; [|done].
    apply elem_of_list_filter. split; [done|]. unfold tag_is. by apply bool_decide_eq_true.
Qed.

(** The keys fan-out looks under. *)
Definition keys_looked_up (community : string) (ev : StoredEvent) : list AnyKey :=
  let kind := ev_kind (stored_event ev) in
  match stored_channel ev with
  | Some channel => [ChannelKind (community, channel, kind); ChannelAny (community, channel)]
  | None => ((fun p => GlobalPKind (community, kind, p)) <$> event_p_tag_values ev)
            ++ [GlobalKind (community, kind); GlobalAny community]
  end.

Lemma elem_of_candidates community ev r t :
  t ∈ candidates community ev r <->
  exists k, k ∈ keys_looked_up community ev /\ t ∈ entries_at k r.
Proof.
  unfold candidates, keys_looked_up, entries_at. destruct (stored_channel ev) as [ch|].
  - rewrite elem_of_app. setoid_rewrite elem_of_cons. setoid_rewrite list_elem_of_singleton. split.
    + intros [Ht|Ht]; [exists (ChannelKind (community, ch, ev_kind (stored_event ev)))
                     |exists (ChannelAny (community, ch))]; auto.
    + intros (k & [->| ->] & Ht); auto.
  - rewrite !elem_of_app, list_elem_of_bind. split.
    + intros [(p & Ht & Hp)|[Ht|Ht]].
      * exists (GlobalPKind (community, ev_kind (stored_event ev), p)). split; [|done].
        apply elem_of_app. left. apply list_elem_of_fmap. by exists p.
      * exists (GlobalKind (community, ev_kind (stored_event ev))). split; [|done]. set_solver.
      * exists (GlobalAny community). split; [|done]. set_solver.
    + intros (k & Hk & Ht). rewrite elem_of_app, list_elem_of_fmap in Hk.
      destruct Hk as [(p & -> & Hp)|Hk]; [left; by exists p|].
      rewrite elem_of_cons, list_elem_of_singleton in Hk. destruct Hk as [->| ->]; auto.
Qed.

(** A matching subscription is indexed under a key that fan-out looks under. *)
Lemma match_is_routed community ev e :
  entry_matches community ev e = true ->
  exists k, k ∈ keys_of e /\ k ∈ keys_looked_up community ev.
Proof.
  destruct e as [[filters community'] channel]. unfold entry_matches, keys_of. cbn [fst snd].
  rewrite !andb_true_iff, String.eqb_eq, bool_decide_eq_true. intros [[-> Hch] Hm].
  unfold filters_match in Hm. apply existsb_exists in Hm as (f & Hf & Hm).
  rewrite <- list_elem_of_In in Hf. set (kind := ev_kind (stored_event ev)) in *.
  assert (forall ks, extract_kinds_from_filters filters = Some ks -> kind ∈ ks) as Hkinds.
  { unfold extract_kinds_from_filters. intros ks Hk. destruct (all_kinds filters) as [l|] eqn:Ha; [|done].
    injection Hk as <-. apply elem_of_firsts. destruct (kinds f) as [fks|] eqn:Hfk.
    - eapply all_kinds_elem; [done..|]. by eapply filter_match_kind.
    - by destruct (all_kinds_some filters l f Ha Hf). }
  unfold keys_for, keys_looked_up. rewrite <- Hch. fold kind. destruct channel as [ch|].
  - destruct (extract_kinds_from_filters filters) as [ks|] eqn:Ek.
    + exists (ChannelKind (community, ch, kind)). split; [|set_solver].
      apply list_elem_of_fmap. exists kind. split; [done|]. by apply Hkinds.
    + exists (ChannelAny (community, ch)). split; set_solver.
  - destruct (extract_global_p_kind_index_keys community filters) as [keys|] eqn:Ep.
    + unfold extract_global_p_kind_index_keys in Ep.
      destruct (all_p_kind_keys community filters) as [l|] eqn:Ha; [|done]. injection Ep as <-.
      destruct (all_p_kind_keys_elem community filters l f Ha Hf) as (lf & Hlf & Hsub).
      unfold filter_p_kind_keys in Hlf. destruct (kinds f) as [fks|] eqn:Hfk; [|done].
      pose proof (filter_match_kind f ev fks Hm Hfk) as Hkin. fold kind in Hkin.
      destruct fks as [|k0 fks]; [by apply not_elem_of_nil in Hkin|].
      destruct (generic_tags f !! "p"%string) as [[|p0 ps]|] eqn:Hp; try done.
      apply Some_inj in Hlf. subst lf.
      pose proof (filter_match_tags f ev "p" (p0 :: ps) Hm Hp) as Ht. unfold tag_entry_match in Ht.
      destruct (existsb _ (p0 :: ps)) eqn:Hex; [|by destruct (String.eqb_spec "p" "h")].
      apply existsb_exists in Hex as (p & Hpin & Hpt). rewrite <- list_elem_of_In in Hpin.
      exists (GlobalPKind (community, kind, p)). split.
      * apply list_elem_of_fmap. exists (community, kind, p). split; [done|].
        apply elem_of_firsts, Hsub, list_elem_of_bind. exists kind. split; [|done].
        apply list_elem_of_fmap. by exists p.
      * apply elem_of_app. left. apply list_elem_of_fmap. exists p. split; [done|].
        by apply elem_of_p_values.
    + destruct (extract_kinds_from_filters filters) as [ks|] eqn:Ek.
      * exists (GlobalKind (community, kind)). split; [|set_solver].
        apply list_elem_of_fmap. exists kind. split; [done|]. by apply Hkinds.
      * exists (GlobalAny community). split; set_solver.
Qed.

(** C24. Fan-out is exact. After any sequence of registrations, replacements,
    closes, disconnects and evictions, [fan_out_scoped] returns exactly the
    subscriptions that a table without any index would: those of the event's
    community and channel (or of no channel, for a global event) with a filter
    that matches it, each once. *)
Theorem fan_out_exact ops community ev :
  NoDup (fan_out_scoped community ev (run ops))
  /\ forall t, t ∈ fan_out_scoped community ev (run ops) <->
       exists filters, spec ops !! t = Some (filters, community, stored_channel ev)
                       /\ filters_match filters ev = true.
Proof.
  destruct (fan_out_candidates community ev (run ops)) as [Hd Ht]. split; [done|].
  destruct (run_implements ops) as [Hw Hspec]. intros t. rewrite Ht.
  assert (forall filters c ch, entry_matches community ev (filters, c, ch) = true <->
            c = community /\ ch = stored_channel ev /\ filters_match filters ev = true) as Hem.
  { intros. unfold entry_matches. rewrite !andb_true_iff, String.eqb_eq, bool_decide_eq_true. tauto. }
  split.
  - intros [_ ([[filters c] ch] & He & Hm)]. apply Hem in Hm as (-> & -> & Hm).
    exists filters. split; [|done]. etrans; [symmetry; apply Hspec|exact He].
  - intros (filters & Hs & Hm). set (e := (filters, community, stored_channel ev) : SubEntry).
    assert (entry_of (run ops) t = Some e) as He by (rewrite Hspec; exact Hs).
    assert (entry_matches community ev e = true) as Hme by (by apply Hem). split; [|by exists e].
    destruct (match_is_routed community ev e Hme) as (k & Hk & Hl). apply elem_of_candidates.
    exists k. split; [done|]. apply (proj2 (proj2 (Hw k))). by exists e.
Qed.

(** The indexes hold nothing else: in every reachable state each index
    entry belongs to a live subscription whose filters put it there, no vector
    is empty and none holds a subscription twice. *)
Theorem indexes_hold_live_only ops k :
  lookup_index k (run ops) <> Some [] /\ NoDup (entries_at k (run ops))
  /\ forall t, t ∈ entries_at k (run ops) <->
       exists filters community channel, spec ops !! t = Some (filters, community, channel)
         /\ k ∈ keys_for filters community channel.
Proof.
  destruct (run_implements ops) as [Hw Hspec]. destruct (Hw k) as (Hne & Hd & Hin).
  split_and!; [done..|]. intros t. rewrite Hin. split.
  - intros ([[filters community] channel] & He & Hk). exists filters, community, channel.
    split; [|done]. etrans; [symmetry; apply Hspec|exact He].
  - intros (filters & community & channel & He & Hk). exists (filters, community, channel).
    split; [|done]. rewrite Hspec. exact He.
Qed.
