(* ===== verification/Delivery.v ===== *)
(** * Delivery of events

    How the relay answers a subscription request ([handle_req] and its
    historical loop, [crates/buzz-relay/src/handlers/req.rs]), which COUNTs take
    the fast path ([count.rs]), who receives a live event
    ([handlers/event.rs]), and eviction from a channel ([side_effects.rs],
    [close.rs]). Database and cache lookups are arguments; the connection
    manager and the echo cache are part of the state. *)

From Stdlib Require Import ZArith Lia Ascii.
From stdpp Require Import base list gmap strings numbers.
From S2P Require Import Prelude MachineInt RustStr Event Filters Subscription.
Local Open Scope Z_scope.

Definition MAX_SUBSCRIPTIONS : nat := 1024.
Definition COUNT_FALLBACK_CANDIDATE_LIMIT : nat := 5000.

(** A failed lookup. *)
Inductive LookupError := LookupFailed.

(** What authentication left on a connection. *)
Record AuthContext := {
  auth_pubkey : string;
  may_read : bool;
  token_channels : option (list string);
}.
(** [ConnectionState] and its entry in the [ConnectionManager]. *)
Record Connection := {
  conn_community : string;
  conn_auth : option AuthContext;
  conn_subs : gset string;
}.

Record Server := {
  connections : gmap string Connection;
  registry : SubscriptionRegistry;
  local_event_ids : gset (string * string);
}.
Definition set_registry r s := {|
  connections := connections s; registry := r; local_event_ids := local_event_ids s |}.
Definition set_connections c s := {|
  connections := c; registry := registry s; local_event_ids := local_event_ids s |}.
Definition set_local_ids l s := {|
  connections := connections s; registry := registry s; local_event_ids := l |}.
Definition with_subs (f : gset string -> gset string) (c : Connection) : Connection := {|
  conn_community := conn_community c; conn_auth := conn_auth c; conn_subs := f (conn_subs c) |}.

(** [community_for_conn], [pubkey_for_conn]. *)
Definition community_for_conn (s : Server) (conn : string) : option string :=
  conn_community <$> connections s !! conn.
Definition pubkey_for_conn (s : Server) (conn : string) : option string :=
  match connections s !! conn with
  | Some c => auth_pubkey <$> conn_auth c
  | None => None
  end.

(** ** Subscription requests *)

Inductive ReqRefusal :=
| NotAuthenticated
| InsufficientScope
| TooManySubscriptions
| DatabaseFailed
| NotAMember
| PGated
| EngramGated
| AuthorOnlyGated
| MixedSearch.
#[export] Instance ReqRefusal_eq_dec : EqDecision ReqRefusal.
Proof. solve_decision. Defined.

(** Where an accepted request goes, with the channels it may read. *)
Inductive Route :=
| ToSearch (accessible : list string)
| ToSubscription (channel : option string) (accessible : list string).

Section Request.
Context (parse_uuid : string -> option string).

(** The channel check of [handle_req]. *)
Definition check_channel (channel : option string) (tokens : option (list string))
    (is_member : string -> Result bool LookupError) (accessible : list string)
    : Result (list string) ReqRefusal :=
  match channel with
  | None => Ok accessible
  | Some ch =>
      let token_allows := none_or_else (fun allowed => bool_decide (ch ∈ allowed)) tokens in
      let? db := (if negb token_allows || bool_decide (ch ∈ accessible) then Ok None
                  else match is_member ch with
                       | Ok m => Ok (Some m)
                       | Err _ => Err DatabaseFailed
                       end) in
      let '(allowed, accessible) := resolve_request_local_access accessible ch token_allows db in
      fail_if negb allowed with NotAMember;
      Ok accessible
  end.

(** The gates on a global request. *)
Definition check_gates (channel : option string) (filters : list Filter) (reader : string)
    : Result unit ReqRefusal :=
  match channel with
  | Some _ => Ok tt
  | None =>
      fail_if negb (p_gated_filters_authorized filters reader) with PGated;
      fail_if negb (engram_filters_authorized filters reader) with EngramGated;
      fail_if negb (author_only_filters_authorized filters reader) with AuthorOnlyGated;
      Ok tt
  end.

(** [handle_req] up to the search branch or the registration. [accessible_ids]
    is the membership lookup. *)
Definition admit_req (auth : option AuthContext) (open_subs : gset string) (sub : string)
    (accessible_ids : Result (list string) LookupError) (is_member : string -> Result bool LookupError)
    (filters : list Filter) : Result Route ReqRefusal :=
  let? ctx := ok_or auth NotAuthenticated in
  fail_if negb (may_read ctx) with InsufficientScope;
  fail_if negb (bool_decide (sub ∈ open_subs)) && (MAX_SUBSCRIPTIONS <=? size open_subs)%nat
    with TooManySubscriptions;
  let? ids := (if filters_are_nip43_membership_only filters then Ok []
               else map_err (fun _ => DatabaseFailed) accessible_ids) in
  let accessible := match token_channels ctx with
                    | Some allowed => List.filter (fun ch => bool_decide (ch ∈ allowed)) ids
                    | None => ids
                    end in
  let channel := extract_channel_id_from_filters parse_uuid filters in
  let? accessible := check_channel channel (token_channels ctx) is_member accessible in
  let? _ := check_gates channel filters (auth_pubkey ctx) in
  if existsb (fun f => is_some (search f)) filters then
    fail_if existsb (fun f => negb (is_some (search f))) filters with MixedSearch;
    Ok (ToSearch accessible)
  else Ok (ToSubscription channel accessible).

(** [handle_req], its effect on the server: the local map, then the registry. *)
Definition handle_req (conn sub : string) (filters : list Filter)
    (accessible_ids : Result (list string) LookupError) (is_member : string -> Result bool LookupError)
    (s : Server) : Result Route ReqRefusal * Server :=
  match connections s !! conn with
  | None => (Err NotAuthenticated, s)
  | Some c =>
      let r := admit_req (conn_auth c) (conn_subs c) sub accessible_ids is_member filters in
      match r with
      | Ok (ToSubscription channel _) =>
          (r, set_registry (register_scoped (conn_community c) conn sub filters channel (registry s)).2
                (set_connections (<[conn := with_subs (union {[ sub ]}) c]> (connections s)) s))
      | _ => (r, s)
      end
  end.
End Request.

(** [handle_close]; the end of a connection; [evict_conn_channel_subscriptions]. *)
Definition handle_close (conn sub : string) (s : Server) : Server :=
  set_registry (remove_subscription conn sub (registry s)).2
    (set_connections (alter (with_subs (fun l => l ∖ {[ sub ]})) conn (connections s)) s).
Definition disconnect (conn : string) (s : Server) : Server :=
  set_connections (delete conn (connections s))
    (set_registry (remove_connection conn (registry s)).2 s).
Definition evict_conn (community channel conn : string) (s : Server) : Server :=
  let '(removed, r) := remove_channel_subscriptions_scoped community conn channel (registry s) in
  set_registry r
    (set_connections
       (alter (with_subs (fun l => l ∖ list_to_set (fst <$> removed))) conn (connections s)) s).

(** [evict_all_channel_subscriptions]; [evict_non_member_channel_subscriptions]. *)
Definition evict_all (community channel : string) (s : Server) : Server :=
  foldl (fun s conn => evict_conn community channel conn s) s
    (elements (channel_subscriber_conns_scoped community channel (registry s))).
Definition is_member_conn (members : gset string) (s : Server) (conn : string) : bool :=
  match pubkey_for_conn s conn with Some pk => bool_decide (pk ∈ members) | None => false end.
Definition evict_non_members (community channel : string) (members : gset string) (s : Server) : Server :=
  foldl (fun s conn => if is_member_conn members s conn then s else evict_conn community channel conn s) s
    (elements (channel_subscriber_conns_scoped community channel (registry s))).

(** ** Stored events *)

(** The test of the historical loop on one event of one filter's query. *)
Definition may_send (reader : string) (accessible : list string) (filter : Filter) (ev : StoredEvent)
    : bool :=
  filters_match [filter] ev
  && none_or_else (fun ch => bool_decide (ch ∈ accessible)) (stored_channel ev)
  && event_visible_to_reader (stored_event ev) reader.

(** Events by id, each once. *)
Fixpoint send_events (reader : string) (accessible : list string) (filter : Filter)
    (events : list StoredEvent) (seen : gset string) : list StoredEvent * gset string :=
  match events with
  | [] => ([], seen)
  | ev :: rest =>
      let id := ev_id (stored_event ev) in
      if may_send reader accessible filter ev && negb (bool_decide (id ∈ seen)) then
        let '(l, seen) := send_events reader accessible filter rest ({[ id ]} ∪ seen) in (ev :: l, seen)
      else send_events reader accessible filter rest seen
  end.

(** The historical loop: what each filter's query returned, until one fails. *)
Fixpoint send_historical (reader : string) (accessible : list string)
    (results : list (Filter * Result (list StoredEvent) LookupError)) (seen : gset string)
    : list StoredEvent :=
  match results with
  | [] => []
  | (f, Err _) :: _ => []
  | (f, Ok events) :: rest =>
      let '(l, seen) := send_events reader accessible f events seen in
      l ++ send_historical reader accessible rest seen
  end.

(** The choice of COUNT: the fast path counts in SQL, without looking at the
    events. *)
Definition count_takes_fast_path (f : Filter) (reader : string) : bool :=
  let author_is_self := some_and (all_self eq_ignore_ascii_case reader) (authors f) in
  filter_fully_pushable f
  && (negb (filter_can_match_author_only_kinds f) || author_is_self)
  && negb (filter_can_match_result_gated_kinds f && negb (result_gated_count_safe_for_pushdown f reader))
  && negb (filter_can_match_shared_gated_kinds f).

(** [count_fallback_exceeded], and the fallback: [None] when the candidates are
    too many. *)
Definition count_fallback (reader : string) (f : Filter) (candidates : list StoredEvent) : option nat :=
  if (COUNT_FALLBACK_CANDIDATE_LIMIT <? length candidates)%nat then None
  else Some (length (List.filter (fun ev => filters_match [f] ev
                                   && event_visible_to_reader (stored_event ev) reader) candidates)).

(** ** Live events *)

(** [ThreadedChannelVisibility]. *)
Record Threaded := { threaded_community : string; threaded_channel : string; threaded_visibility : string }.

Section FanOut.
(** [channel_visibility_cached], [is_member_cached]. *)
Context (channel_visibility : string -> string -> Result string LookupError).
Context (is_member : string -> string -> string -> Result bool LookupError).

(** The author-only test of [filter_fanout_by_access]. *)
Definition author_gate (s : Server) (event : Event) (t : Target) : bool :=
  if in_kinds AUTHOR_ONLY_KINDS (ev_kind event)
  then some_and (fun pk => String.eqb pk (ev_pubkey event)) (pubkey_for_conn s t.1)
  else true.

(** The shared-read test. *)
Definition shared_gate (s : Server) (event : Event) (t : Target) : bool :=
  if is_shared_gated_kind (ev_kind event) then
    match pubkey_for_conn s t.1 with
    | None => false
    | Some pk =>
        if String.eqb pk (ev_pubkey event) then true else negb (is_unshared_gated_event event pk)
    end
  else true.

(** The visibility a fan-out goes by. *)
Definition visibility_of (community channel : string) (threaded : option Threaded)
    : Result string LookupError :=
  match threaded with
  | Some t =>
      if String.eqb (threaded_community t) community && String.eqb (threaded_channel t) channel
      then Ok (threaded_visibility t) else channel_visibility community channel
  | None => channel_visibility community channel
  end.

(** The membership test on a private channel. *)
Definition member_gate (s : Server) (community channel : string) (t : Target) : bool :=
  match pubkey_for_conn s t.1 with
  | None => false
  | Some pk => match is_member community channel pk with Ok b => b | Err _ => false end
  end.

(** [filter_fanout_by_access]. *)
Definition filter_fanout_by_access (s : Server) (community : string) (ev : StoredEvent)
    (matches : list Target) (threaded : option Threaded) : list Target :=
  let event := stored_event ev in
  let matches := List.filter (fun t => bool_decide (community_for_conn s t.1 = Some community)) matches in
  let matches := List.filter (author_gate s event) matches in
  let matches := List.filter (shared_gate s event) matches in
  match stored_channel ev with
  | None => matches
  | Some channel =>
      match visibility_of community channel threaded with
      | Ok v => if String.eqb v "private" then List.filter (member_gate s community channel) matches
                else matches
      | Err _ => []
      end
  end.

(** [fan_out_event_to_local_subscribers]: the recipients. *)
Definition fan_out_event_to_local_subscribers (community : string) (ev : StoredEvent) (s : Server)
    : list Target :=
  filter_fanout_by_access s community ev (fan_out_scoped community ev (registry s)) None.

(** [fan_out_pubsub_event]: an event from another relay, or an echo. *)
Definition fan_out_pubsub_event (community : string) (channel : option string) (event : Event) (s : Server)
    : list Target * Server :=
  let ev := {| stored_event := event; stored_channel := channel; verified := false |} in
  let echo_key := (community, ev_id event) in
  if bool_decide (echo_key ∈ local_event_ids s)
  then ([], set_local_ids (local_event_ids s ∖ {[ echo_key ]}) s)
  else (filter_fanout_by_access s community ev (fan_out_scoped community ev (registry s)) None, s).

(** The owner of a viewer-private event: the first [p] tag with content. *)
Definition private_event_owner (event : Event) : option string :=
  if (ev_kind event =? KIND_DM_VISIBILITY) || (ev_kind event =? KIND_AGENT_TURN_METRIC)
  then head (filter_map Filters.content (List.filter (tag_is "p") (ev_tags event)))
  else None.

(** [dispatch_persistent_event_inner], to its recipients. [published]: whether
    Redis took the event. *)
Definition dispatch_persistent_event_inner (community : string) (ev : StoredEvent)
    (threaded : option Threaded) (published : bool) (s : Server) : list Target * Server :=
  let event := stored_event ev in
  let key := (community, ev_id event) in
  let s := set_local_ids ({[ key ]} ∪ local_event_ids s) s in
  let s := if published then s else set_local_ids (local_event_ids s ∖ {[ key ]}) s in
  let matches := filter_fanout_by_access s community ev (fan_out_scoped community ev (registry s)) threaded in
  (List.filter (fun t => match private_event_owner event with
                         | Some owner => bool_decide (pubkey_for_conn s t.1 = Some owner)
                         | None => true
                         end) matches, s).
End FanOut.
