(* ===== verification/DeliveryFacts.v ===== *)
(** * Who receives what

    Theorems about [Delivery]: over every run of a relay, what a reader is sent,
    stored or live, is what its gates allow; eviction ends delivery; an event is
    not delivered twice through the cluster; and where the code falls short of
    its own rule. *)

From Stdlib Require Import ZArith Lia Ascii.
From stdpp Require Import base list gmap strings numbers sorting.
From S2P Require Import Prelude MachineInt RustStr Event Filters Subscription SubscriptionFacts Delivery.
Local Open Scope Z_scope.

(** ** Runs of a server *)

Section Runs.
Context (parse_uuid : string -> option string).

Definition authenticated (ctx : AuthContext) (c : Connection) : Connection := {|
  conn_community := conn_community c; conn_auth := Some ctx; conn_subs := conn_subs c |}.

(** A connection is made under a fresh id and authenticates at most once. *)
Inductive server_step : Server -> Server -> Prop :=
| StepConnect conn community s :
    connections s !! conn = None ->
    server_step s (set_connections (<[conn := {| conn_community := community; conn_auth := None;
                                                 conn_subs := ∅ |}]> (connections s)) s)
| StepAuth conn c ctx s :
    connections s !! conn = Some c -> conn_auth c = None ->
    server_step s (set_connections (<[conn := authenticated ctx c]> (connections s)) s)
| StepReq conn sub filters accessible_ids is_member s :
    server_step s (handle_req parse_uuid conn sub filters accessible_ids is_member s).2
| StepClose conn sub s : server_step s (handle_close conn sub s)
| StepDisconnect conn s : server_step s (disconnect conn s)
| StepEvict community channel conn s : server_step s (evict_conn community channel conn s)
| StepEcho ids s : server_step s (set_local_ids ids s).

Definition start : Server := {|
  connections := ∅; registry := new_registry; local_event_ids := ∅ |}.

(** A live subscription: its connection is there, authenticated, of that
    community, knows it, and the request passed the gates. *)
Definition live (s : Server) (t : Target) (e : SubEntry) : Prop :=
  exists c ctx, connections s !! t.1 = Some c /\ conn_auth c = Some ctx /\ conn_community c = e.1.2
    /\ t.2 ∈ conn_subs c /\ e.2 = extract_channel_id_from_filters parse_uuid e.1.1
    /\ check_gates e.2 e.1.1 (auth_pubkey ctx) = Ok tt.

Record served (s : Server) : Prop := {
  served_wf : wf_registry (registry s);
  served_live : forall t e, entry_of (registry s) t = Some e -> live s t e;
  served_bound : forall conn c, connections s !! conn = Some c ->
    (size (conn_subs c) <= MAX_SUBSCRIPTIONS)%nat;
}.

Lemma admit_subscription auth open_subs sub ids is_member filters channel accessible :
  admit_req parse_uuid auth open_subs sub ids is_member filters = Ok (ToSubscription channel accessible) ->
  exists ctx, auth = Some ctx
    /\ (sub ∈ open_subs \/ size open_subs < MAX_SUBSCRIPTIONS)%nat
    /\ channel = extract_channel_id_from_filters parse_uuid filters
    /\ check_gates channel filters (auth_pubkey ctx) = Ok tt.
Proof.
  unfold admit_req. intros Ha. destruct auth as [ctx|]; cbn [ok_or rbind] in Ha; [|done].
  exists ctx. split; [done|]. inv_bind.
  destruct (existsb (fun f => is_some (search f)) filters).
  { destruct (existsb _ filters); [done|]. done. }
  injection Ha as <- _. destruct a1. split_and!; [|done|done].
  apply andb_false_iff in Hc0 as [Hs%negb_false_iff%bool_decide_eq_true|Hs%Nat.leb_gt]; [by left|by right].
Qed.

Lemma live_same_conns s s' t e :
  connections s' !! t.1 = connections s !! t.1 -> live s t e -> live s' t e.
Proof. unfold live. by intros ->. Qed.

Lemma served_req conn sub filters ids is_member s :
  served s -> served (handle_req parse_uuid conn sub filters ids is_member s).2.
Proof.
  intros [Hw Hl Hb]. unfold handle_req. destruct (connections s !! conn) as [c|] eqn:Hc; [|by split].
  destruct (admit_req _ _ _ _ _ _ _) as [[acc|channel acc]|] eqn:Ha; [by split| |by split]. cbn [snd].
  apply admit_subscription in Ha as (ctx & Hctx & Hsize & Hch & Hg).
  pose proof (register_scoped_spec (conn_community c) conn sub filters channel (registry s) Hw) as Hr.
  destruct (register_scoped _ _ _ _ _ _) as [o r]. destruct Hr as (Hw' & _ & Hent). cbn. split; cbn.
  - exact Hw'.
  - intros t e. rewrite Hent. case_decide as Ht.
    + subst t. intros He. injection He as <-. exists (with_subs (union {[sub]}) c), ctx. cbn.
      rewrite lookup_insert_eq. split_and!; [done|done|done|set_solver|done|done].
    + intros He. destruct (Hl t e He) as (c' & ctx' & Hc' & Hctx' & Hcom & Hin & Hrest).
      unfold live. cbn. destruct (decide (conn = t.1)) as [Heq|Hne].
      * rewrite <- Heq in Hc'. rewrite Hc in Hc'. injection Hc' as <-. rewrite <- Heq, lookup_insert_eq.
        exists (with_subs (union {[sub]}) c), ctx'. cbn. split_and!; [done..|set_solver|apply Hrest|apply Hrest].
      * rewrite lookup_insert_ne by done. by exists c', ctx'.
  - intros conn' c'. destruct (decide (conn = conn')) as [->|Hne].
    + rewrite lookup_insert_eq. intros [= <-]. cbn. pose proof (Hb _ _ Hc). destruct Hsize as [Hin|Hlt].
      * by rewrite subseteq_union_1_L by set_solver.
      * pose proof (size_union_alt {[sub]} (conn_subs c)) as Hu. rewrite Hu, size_singleton.
        assert (size (conn_subs c ∖ {[sub]}) <= size (conn_subs c))%nat by (apply subseteq_size; set_solver).
        lia.
    + rewrite lookup_insert_ne by done. apply Hb.
Qed.

(** Steps that take subscriptions away, from one connection. *)
Lemma served_shrink s r conn f :
  served s -> wf_registry r ->
  (forall t e, entry_of r t = Some e -> entry_of (registry s) t = Some e) ->
  (forall l, f l ⊆ l) ->
  (forall sub e l, entry_of r (conn, sub) = Some e -> sub ∈ l -> sub ∈ f l) ->
  served (set_registry r (set_connections (alter (with_subs f) conn (connections s)) s)).
Proof.
  intros [Hw Hl Hb] Hr Hsub Hf Hin. split; cbn; [done| |].
  - intros t e He. destruct (Hl t e (Hsub t e He)) as (c & ctx & Hc & Hctx & Hcom & Hs & Hrest).
    unfold live. cbn. destruct (decide (conn = t.1)) as [->|Hne].
    + rewrite lookup_alter_eq, Hc. exists (with_subs f c), ctx. cbn. split_and!; [done..| |apply Hrest|apply Hrest].
      destruct t as [conn sub]. by eapply Hin.
    + rewrite lookup_alter_ne by done. by exists c, ctx.
  - intros conn' c'. destruct (decide (conn = conn')) as [->|Hne].
    + rewrite lookup_alter_eq. destruct (connections s !! conn') as [c|] eqn:Hc; [|done].
      cbn. intros [= <-]. cbn. pose proof (Hb _ _ Hc). pose proof (subseteq_size _ _ (Hf (conn_subs c))). lia.
    + rewrite lookup_alter_ne by done. apply Hb.
Qed.

Lemma server_step_served s s' : server_step s s' -> served s -> served s'.
Proof.
  intros Hs Hv. destruct Hs as [conn community s Hn|conn c ctx s Hc Hctx| |conn sub s|conn s|community channel conn s|].
  - destruct Hv as [Hw Hl Hb]. split; cbn; [done| |].
    + intros t e He. destruct (Hl t e He) as (c & ctx & Hc & Hrest). exists c, ctx. cbn.
      rewrite lookup_insert_ne; [done|]. congruence.
    + intros conn' c'. destruct (decide (conn = conn')) as [->|Hne].
      * rewrite lookup_insert_eq. intros [= <-]. cbn. rewrite size_empty. lia.
      * rewrite lookup_insert_ne by done. apply Hb.
  - destruct Hv as [Hw Hl Hb]. split; cbn; [done| |].
    + intros t e He. destruct (Hl t e He) as (c' & ctx' & Hc' & Hctx' & Hrest). exists c', ctx'. cbn.
      rewrite lookup_insert_ne; [done|]. intros ->. congruence.
    + intros conn' c'. destruct (decide (conn = conn')) as [->|Hne].
      * rewrite lookup_insert_eq. intros [= <-]. cbn. by apply (Hb _ _ Hc).
      * rewrite lookup_insert_ne by done. apply Hb.
  - by apply served_req.
  - pose proof (remove_subscription_spec conn sub (registry s) (served_wf s Hv)) as Hr.
    unfold handle_close. destruct (remove_subscription _ _ _) as [o r]. destruct Hr as (Hw & _ & Hent).
    apply served_shrink; [done..| | |]; cbn.
    + intros t e. rewrite Hent. by case_decide.
    + set_solver.
    + intros sub' e l. rewrite Hent. case_decide as Hd; [done|]. intros _ Hl. set_solver.
  - destruct (remove_connection_spec conn (registry s) (served_wf s Hv)) as [Hw Hent].
    destruct Hv as [_ Hl Hb]. split; cbn; [done| |].
    + intros t e. rewrite Hent. case_decide as Hd; [done|]. intros He.
      apply (live_same_conns s); [|by apply Hl]. cbn. by rewrite lookup_delete_ne.
    + intros conn' c' Hc'. apply lookup_delete_Some in Hc' as [_ Hc']. by eapply Hb.
  - pose proof (evict_spec community conn channel (registry s) (served_wf s Hv)) as Hr.
    unfold evict_conn. destruct (remove_channel_subscriptions_scoped _ _ _ _) as [removed r].
    destruct Hr as (Hw & Hent & Hgone). apply served_shrink; [done..| | |].
    + intros t e He. by apply Hent in He as [? _].
    + set_solver.
    + intros sub e l He Hin. apply elem_of_difference. split; [done|].
      intros Hr%elem_of_list_to_set. rewrite (Hgone sub Hr) in He. done.
  - destruct Hv as [Hw Hl Hb]. by split.
Qed.

Lemma runs_served s : rtc server_step start s -> served s.
Proof.
  assert (served start) as H0.
  { split; cbn.
    - apply (proj1 (run_implements [])).
    - intros t e He. unfold entry_of in He. cbn in He. by rewrite lookup_empty in He.
    - intros conn c Hc. by rewrite lookup_empty in Hc. }
  intros Hr. induction Hr as [|x y z Hxy _ IH]; [done|]. apply IH. by eapply server_step_served.
Qed.

(** ** Gated events *)

(** The event concerns the reader: it is addressed to them, or it is a usage
    record they wrote. *)
Definition concerns (reader : string) (event : Event) : Prop :=
  tag_with "p" (String.eqb reader) event = true
  \/ ev_kind event = KIND_USAGE_RECORD /\ ev_pubkey event = reader.

(** The reader asked for it by its id, without naming a result-gated kind. *)
Definition asked_by_id (f : Filter) (event : Event) : Prop :=
  (exists l id, ids f = Some l /\ id ∈ l /\ starts_with id (ev_id event) = true)
  /\ some_and (existsb (in_kinds RESULT_GATED_KINDS)) (kinds f) = false.

Lemma all_self_spec eq reader values :
  all_self eq reader values = true <-> values <> [] /\ forall v, v ∈ values -> eq v reader = true.
Proof.
  unfold all_self. rewrite andb_true_iff, negb_true_iff, bool_decide_eq_false, forallb_forall.
  setoid_rewrite list_elem_of_In. done.
Qed.

Lemma in_kinds_spec l k : in_kinds l k = true <-> k ∈ l.
Proof. unfold in_kinds. apply bool_decide_eq_true. Qed.

Lemma can_match_spec l f ev :
  filter_match_one f ev = true -> ev_kind (stored_event ev) ∈ l -> can_match l f = true.
Proof.
  intros Hm Hk. unfold can_match. destruct (kinds f) as [ks|] eqn:Hks; [|done]. cbn.
  apply existsb_exists. exists (ev_kind (stored_event ev)). rewrite <- list_elem_of_In.
  split; [by eapply filter_match_kind|by apply in_kinds_spec].
Qed.

Lemma filter_match_ids f ev l :
  filter_match_one f ev = true -> ids f = Some l ->
  exists id, id ∈ l /\ starts_with id (ev_id (stored_event ev)) = true.
Proof.
  unfold filter_match_one. intros Hm Hi. rewrite Hi in Hm. repeat (case_match; [done|]). cbn in *.
  match goal with H : negb (existsb _ l) = false |- _ =>
    apply negb_false_iff, existsb_exists in H as (id & Hin & Hs) end.
  exists id. by rewrite list_elem_of_In.
Qed.

Lemma filter_match_authors f ev l :
  filter_match_one f ev = true -> authors f = Some l -> ev_pubkey (stored_event ev) ∈ l.
Proof.
  unfold filter_match_one. intros Hm Hi. rewrite Hi in Hm. repeat (case_match; [done|]). cbn in *.
  match goal with H : negb (bool_decide (_ ∈ l)) = false |- _ =>
    by apply negb_false_iff, bool_decide_eq_true in H end.
Qed.

Lemma match_self_tag f ev reader values :
  filter_match_one f ev = true -> generic_tags f !! "p"%string = Some values ->
  all_self String.eqb reader values = true ->
  tag_with "p" (String.eqb reader) (stored_event ev) = true.
Proof.
  intros Hm Hp [_ Hall]%all_self_spec. pose proof (filter_match_tags f ev "p" values Hm Hp) as Ht.
  unfold tag_entry_match in Ht. destruct (existsb _ values) eqn:Hex; [|by destruct (String.eqb_spec "p" "h")].
  apply existsb_exists in Hex as (v & Hv & Hw). rewrite <- list_elem_of_In in Hv.
  apply Hall, String.eqb_eq in Hv. by subst.
Qed.

Lemma p_gate_sound reader f ev :
  p_gated_filter_authorized reader f = true -> filter_match_one f ev = true ->
  ev_kind (stored_event ev) ∈ P_GATED_KINDS ->
  concerns reader (stored_event ev) \/ asked_by_id f (stored_event ev).
Proof.
  intros Hg Hm Hk. unfold p_gated_filter_authorized in Hg.
  rewrite (can_match_spec _ _ _ Hm Hk) in Hg. cbn [negb] in Hg.
  destruct (negb _ && _) eqn:Hids.
  - right. apply andb_true_iff in Hids as [Hn%negb_true_iff Hl]. split; [|done].
    destruct (ids f) as [l|] eqn:Hi; [|done]. destruct (filter_match_ids f ev l Hm Hi) as (id & Hin & Hs).
    by exists l, id.
  - left. destruct (some_and (all_self String.eqb reader) (generic_tags f !! "p"%string)) eqn:Hp.
    + left. destruct (generic_tags f !! "p"%string) as [values|] eqn:Hv; [|done].
      by eapply match_self_tag.
    + right. apply andb_true_iff in Hg as [Hks Hau].
      destruct (kinds f) as [ks|] eqn:Hkf; [|done]. destruct (authors f) as [aus|] eqn:Haf; [|done].
      cbn in Hks, Hau. apply all_self_spec in Hau as [_ Hau]. rewrite forallb_forall in Hks. split.
      * apply Z.eqb_eq, Hks, list_elem_of_In. by eapply filter_match_kind.
      * apply String.eqb_eq, Hau. by eapply filter_match_authors.
Qed.

Lemma delivered_live s community ev t :
  served s -> t ∈ fan_out_scoped community ev (registry s) ->
  exists filters, entry_of (registry s) t = Some (filters, community, stored_channel ev)
    /\ filters_match filters ev = true /\ live s t (filters, community, stored_channel ev).
Proof.
  intros Hv Ht. apply fan_out_candidates in Ht as (_ & [[filters c] ch] & He & Hm).
  unfold entry_matches in Hm. rewrite !andb_true_iff, String.eqb_eq, bool_decide_eq_true in Hm.
  destruct Hm as [[-> ->] Hm]. exists filters. split_and!; [done..|]. by apply (served_live s Hv).
Qed.

(** C27. No fishing for gated events. In every state the relay reaches, a
    subscription that receives a live global event of a [#p]-gated kind is of
    an authenticated reader in the event's community, and either the event
    concerns that reader (or is a usage record they wrote), or the subscription
    asked for it by its id in a filter that names no result-gated kind. *)
Theorem gated_events_reach_their_reader s community ev t :
  rtc server_step start s -> stored_channel ev = None ->
  ev_kind (stored_event ev) ∈ P_GATED_KINDS -> t ∈ fan_out_scoped community ev (registry s) ->
  exists reader, pubkey_for_conn s t.1 = Some reader /\ community_for_conn s t.1 = Some community
    /\ (concerns reader (stored_event ev)
        \/ exists filters f, get_filters t.1 t.2 (registry s) = Some filters /\ f ∈ filters
             /\ asked_by_id f (stored_event ev)).
Proof.
  intros Hr Hn Hk Ht. apply runs_served in Hr.
  destruct (delivered_live s community ev t Hr Ht) as (filters & He & Hm & c & ctx & Hc & Hctx & Hcom & _ & _ & Hg).
  exists (auth_pubkey ctx). unfold pubkey_for_conn, community_for_conn. rewrite Hc, Hctx. cbn.
  cbn in Hcom, Hg. split_and!; [done|by rewrite Hcom|].
  rewrite Hn in Hg. cbn in Hg. destruct (p_gated_filters_authorized filters (auth_pubkey ctx)) eqn:Hp; [|done].
  unfold filters_match in Hm. apply existsb_exists in Hm as (f & Hf & Hm).
  unfold p_gated_filters_authorized in Hp. rewrite forallb_forall in Hp.
  destruct (p_gate_sound (auth_pubkey ctx) f ev (Hp f Hf) Hm Hk) as [Hc'|Ha]; [by left|right].
  exists filters, f. rewrite list_elem_of_In. split_and!; [|done|done].
  unfold get_filters. destruct t as [conn sub]. cbn. by rewrite He.
Qed.

(** A connection never holds more than 1024 subscriptions in the registry,
    whatever it asks for, replaces, closes or is evicted from. *)
Theorem subscriptions_bounded s conn c l :
  rtc server_step start s -> connections s !! conn = Some c ->
  NoDup l -> (forall sub, sub ∈ l -> entry_of (registry s) (conn, sub) <> None) ->
  (length l <= MAX_SUBSCRIPTIONS)%nat.
Proof.
  intros Hr Hc Hd Hl. apply runs_served in Hr. pose proof (served_bound s Hr conn c Hc) as Hb.
  enough (length l <= size (conn_subs c))%nat by lia.
  rewrite <- (length_map id), List.map_id. rewrite <- (size_list_to_set (C := gset string) l Hd).
  apply subseteq_size. intros sub Hin%elem_of_list_to_set. specialize (Hl sub Hin).
  destruct (entry_of (registry s) (conn, sub)) as [e|] eqn:He; [|done].
  destruct (served_live s Hr _ _ He) as (c' & ctx & Hc' & _ & _ & Hs & _). cbn in *. congruence.
Qed.
End Runs.

(** ** Access at the point of sending *)

Section Access.
Context (channel_visibility : string -> string -> Result string LookupError).
Context (is_member : string -> string -> string -> Result bool LookupError).

(** What a recipient must satisfy. *)
Record Allowed (s : Server) (community : string) (ev : StoredEvent) (threaded : option Threaded)
    (t : Target) : Prop := {
  allowed_tenant : community_for_conn s t.1 = Some community;
  allowed_author : ev_kind (stored_event ev) ∈ AUTHOR_ONLY_KINDS ->
    pubkey_for_conn s t.1 = Some (ev_pubkey (stored_event ev));
  allowed_shared : ev_kind (stored_event ev) ∈ SHARED_GATED_KINDS ->
    exists pk, pubkey_for_conn s t.1 = Some pk
      /\ (pk = ev_pubkey (stored_event ev) \/ event_is_shared (stored_event ev) = true);
  allowed_member : forall channel, stored_channel ev = Some channel ->
    exists v, visibility_of channel_visibility community channel threaded = Ok v
      /\ (v = "private"%string -> exists pk, pubkey_for_conn s t.1 = Some pk
            /\ is_member community channel pk = Ok true);
}.

Lemma author_gate_spec s event t :
  author_gate s event t = true <->
  (ev_kind event ∈ AUTHOR_ONLY_KINDS -> pubkey_for_conn s t.1 = Some (ev_pubkey event)).
Proof.
  unfold author_gate. destruct (in_kinds AUTHOR_ONLY_KINDS (ev_kind event)) eqn:Hk.
  - apply in_kinds_spec in Hk. destruct (pubkey_for_conn s t.1) as [pk|]; cbn.
    + rewrite String.eqb_eq. split; [by intros -> _|]. intros H. specialize (H Hk). congruence.
    + split; [done|]. intros H. by specialize (H Hk).
  - split; [|done]. intros _ Hin%in_kinds_spec. congruence.
Qed.

Lemma shared_gate_spec s event t :
  shared_gate s event t = true <->
  (ev_kind event ∈ SHARED_GATED_KINDS ->
   exists pk, pubkey_for_conn s t.1 = Some pk /\ (pk = ev_pubkey event \/ event_is_shared event = true)).
Proof.
  unfold shared_gate, is_shared_gated_kind. destruct (in_kinds SHARED_GATED_KINDS (ev_kind event)) eqn:Hk.
  - pose proof Hk as Hin. apply in_kinds_spec in Hin. destruct (pubkey_for_conn s t.1) as [pk|].
    + unfold is_unshared_gated_event, is_shared_gated_kind. rewrite Hk. cbn [negb].
      destruct (String.eqb_spec pk (ev_pubkey event)) as [->|Hne].
      * split; [|done]. intros _ _. eexists. split; [done|]. by left.
      * destruct (String.eqb_spec (ev_pubkey event) pk) as [|_]; [congruence|]. rewrite negb_involutive.
        split; [intros He _; exists pk; split; [done|by right]|].
        intros H. destruct (H Hin) as (pk' & [= <-] & [?|?]); [done|done].
    + split; [done|]. intros H. by destruct (H Hin) as (pk & ? & _).
  - split; [|done]. intros _ Hin%in_kinds_spec. congruence.
Qed.

(** The send chokepoint lets through exactly those with access: their
    connection is of the event's community, an author-only event goes to its
    author, an unshared persona or team to its author, and an event of a
    private channel to its members; a failed lookup lets no one through. *)
Theorem access_filter_exact s community ev matches threaded t :
  t ∈ filter_fanout_by_access channel_visibility is_member s community ev matches threaded <->
  t ∈ matches /\ Allowed s community ev threaded t.
Proof.
  assert (t ∈ List.filter (shared_gate s (stored_event ev)) (List.filter (author_gate s (stored_event ev))
      (List.filter (fun t => bool_decide (community_for_conn s t.1 = Some community)) matches))
    <-> t ∈ matches /\ community_for_conn s t.1 = Some community
        /\ author_gate s (stored_event ev) t = true /\ shared_gate s (stored_event ev) t = true) as Hb.
  { rewrite !elem_of_list_filter, bool_decide_eq_true. tauto. }
  rewrite author_gate_spec, shared_gate_spec in Hb.
  unfold filter_fanout_by_access. destruct (stored_channel ev) as [channel|] eqn:Hch.
  2: { rewrite Hb. split; [intros (? & ? & ? & ?); split; [done|]; split; try done; congruence|].
       intros (? & []). split_and!; done. }
  destruct (visibility_of channel_visibility community channel threaded) as [v|] eqn:Hv.
  2: { split; [by intros ?%not_elem_of_nil|]. intros (_ & []).
       destruct (allowed_member0 channel Hch) as (v & Hv' & _). congruence. }
  destruct (String.eqb_spec v "private") as [->|Hne].
  - rewrite elem_of_list_filter, Hb.
    assert (member_gate is_member s community channel t = true <->
            exists pk, pubkey_for_conn s t.1 = Some pk /\ is_member community channel pk = Ok true) as Hm.
    { unfold member_gate. destruct (pubkey_for_conn s t.1) as [pk|].
      - destruct (is_member community channel pk) as [b|] eqn:Hi; split.
        + intros ->. by exists pk.
        + intros (pk' & [= <-] & Hi'). congruence.
        + done.
        + intros (pk' & [= <-] & Hi'). congruence.
      - split; [done|]. by intros (? & ? & _). }
    rewrite Hm. split.
    + intros [(? & ? & ? & ?) ?]. split; [done|]. split; [done..|]. intros ch Heq.
      assert (ch = channel) as -> by congruence. by exists "private"%string.
    + intros (? & []). split; [split_and!; done|]. destruct (allowed_member0 channel Hch) as (v & Hv' & Hp).
      apply Hp. congruence.
  - rewrite Hb. split.
    + intros (? & ? & ? & ?). split; [done|]. split; [done..|]. intros ch Heq.
      assert (ch = channel) as -> by congruence. by exists v.
    + intros (? & []). split_and!; done.
Qed.

(** ** Echoes *)

(** An event is delivered once on the relay that accepted it: once Redis
    has taken it, its echo reaches no one and is forgotten; if Redis refused it,
    nothing is left that would suppress a later copy. *)
Theorem local_echo_once community ev threaded published s :
  let '(recipients, s') := dispatch_persistent_event_inner channel_visibility is_member
                             community ev threaded published s in
  let key := (community, ev_id (stored_event ev)) in
  let '(echoed, s'') := fan_out_pubsub_event channel_visibility is_member community
                          (stored_channel ev) (stored_event ev) s' in
  key ∉ local_event_ids s''
  /\ (published = true -> echoed = [])
  /\ registry s'' = registry s /\ connections s'' = connections s.
Proof.
  unfold dispatch_persistent_event_inner, fan_out_pubsub_event. destruct published; cbn.
  - rewrite bool_decide_eq_true_2 by set_solver. cbn. split_and!; [set_solver|done..].
  - rewrite bool_decide_eq_false_2 by set_solver. cbn. split_and!; [set_solver|done..].
Qed.
End Access.

(** ** Eviction *)

Lemma evict_conn_spec community channel conn s :
  wf_registry (registry s) ->
  wf_registry (registry (evict_conn community channel conn s))
  /\ (forall x e, entry_of (registry (evict_conn community channel conn s)) x = Some e <->
        entry_of (registry s) x = Some e /\ ~ (x.1 = conn /\ e.1.2 = community /\ e.2 = Some channel))
  /\ forall c, pubkey_for_conn (evict_conn community channel conn s) c = pubkey_for_conn s c.
Proof.
  intros Hw. unfold evict_conn. pose proof (evict_spec community conn channel (registry s) Hw) as Hr.
  destruct (remove_channel_subscriptions_scoped _ _ _ _) as [removed r]. destruct Hr as (Hw' & Hent & _).
  split_and!; [done..|]. intros c. unfold pubkey_for_conn. cbn. destruct (decide (conn = c)) as [->|Hne].
  - rewrite lookup_alter_eq. by destruct (connections s !! c).
  - by rewrite lookup_alter_ne.
Qed.

(** Evicting those of a list that [keep] does not spare. *)
Lemma evict_fold community channel (keep : Server -> string -> bool) l s0 s :
  (forall s c, (forall c, pubkey_for_conn s c = pubkey_for_conn s0 c) -> keep s c = keep s0 c) ->
  (forall c, pubkey_for_conn s c = pubkey_for_conn s0 c) -> wf_registry (registry s) ->
  let s' := foldl (fun s conn => if keep s conn then s else evict_conn community channel conn s) s l in
  wf_registry (registry s') /\ (forall c, pubkey_for_conn s' c = pubkey_for_conn s0 c)
  /\ forall x e, entry_of (registry s') x = Some e <->
       entry_of (registry s) x = Some e
       /\ ~ (x.1 ∈ l /\ keep s0 x.1 = false /\ e.1.2 = community /\ e.2 = Some channel).
Proof.
  intros Hk. revert s. induction l as [|conn l IH]; intros s Hp Hw; cbn.
  { split_and!; [done..|]. intros x e. rewrite elem_of_nil. tauto. }
  rewrite (Hk s conn Hp). destruct (keep s0 conn) eqn:Hkc.
  - destruct (IH s Hp Hw) as (H1 & H2 & H3). split_and!; [done..|]. intros x e. rewrite H3, elem_of_cons.
    split; intros [He Hn]; (split; [done|]); [|tauto]. intros ([->|?] & Hk' & Hc); [congruence|tauto].
  - destruct (evict_conn_spec community channel conn s Hw) as (Hw' & Hent & Hpk).
    destruct (IH (evict_conn community channel conn s)) as (H1 & H2 & H3); [|done|].
    { intros c. by rewrite Hpk. }
    split_and!; [done..|]. intros x e. rewrite H3, Hent, elem_of_cons. split.
    + intros [[He Hn1] Hn2]. split; [done|]. intros ([Heq|Hin] & Hk' & Hc); tauto.
    + intros [He Hn]. split; [split; [done|]|tauto]. intros (Heq & Hc). apply Hn. rewrite Heq. tauto.
Qed.

Lemma subscribers_found community channel ev r t filters :
  wf_registry r -> stored_channel ev = Some channel ->
  entry_of r t = Some (filters, community, Some channel) -> filters_match filters ev = true ->
  t.1 ∈ channel_subscriber_conns_scoped community channel r.
Proof.
  intros Hw Hch He Hm. set (e := (filters, community, Some channel) : SubEntry) in *.
  assert (entry_matches community ev e = true) as Hem.
  { unfold e, entry_matches. by rewrite String.eqb_refl, Hch, Hm, bool_decide_eq_true_2. }
  destruct (match_is_routed community ev e Hem) as (k & Hk & Hl).
  assert (t ∈ entries_at k r) as Hin by (apply (proj2 (proj2 (Hw k))); by exists e).
  unfold keys_looked_up in Hl. rewrite Hch in Hl. unfold channel_subscriber_conns_scoped.
  apply elem_of_list_to_set, elem_of_app. apply elem_of_cons in Hl as [->|Hl].
  - left. unfold entries_at in Hin. cbn in Hin.
    destruct (channel_kind_index r !! _) as [l|] eqn:Hi; [|by apply not_elem_of_nil in Hin].
    apply list_elem_of_bind. exists (community, channel, ev_kind (stored_event ev), l).
    split; [|by apply elem_of_map_to_list]. cbn. rewrite !String.eqb_refl. cbn.
    apply list_elem_of_fmap. by exists t.
  - right. apply list_elem_of_singleton in Hl as ->. apply list_elem_of_fmap. by exists t.
Qed.

(** Eviction ends delivery. Once a channel's subscriptions are evicted, no
    live event of that channel finds a subscription; once non-members are, it
    finds only members'. Every other subscription stays. *)
Theorem eviction_ends_delivery parse_uuid s community channel members ev :
  rtc (server_step parse_uuid) start s -> stored_channel ev = Some channel ->
  fan_out_scoped community ev (registry (evict_all community channel s)) = []
  /\ (forall t, t ∈ fan_out_scoped community ev (registry (evict_non_members community channel members s)) ->
        exists pk, pubkey_for_conn s t.1 = Some pk /\ pk ∈ members)
  /\ forall t e, entry_of (registry s) t = Some e -> (e.1.2 <> community \/ e.2 <> Some channel) ->
       entry_of (registry (evict_all community channel s)) t = Some e
       /\ entry_of (registry (evict_non_members community channel members s)) t = Some e.
Proof.
  intros Hr Hch. apply runs_served in Hr. pose proof (served_wf _ s Hr) as Hw.
  set (l := elements (channel_subscriber_conns_scoped community channel (registry s))).
  assert (forall keep : Server -> string -> bool, let s' := foldl (fun s conn => if keep s conn then s
                                   else evict_conn community channel conn s) s l in
     (forall s1 c, (forall c, pubkey_for_conn s1 c = pubkey_for_conn s c) -> keep s1 c = keep s c) ->
     (forall t, t ∈ fan_out_scoped community ev (registry s') -> keep s t.1 = true)
     /\ forall t e, entry_of (registry s) t = Some e -> (e.1.2 <> community \/ e.2 <> Some channel) ->
          entry_of (registry s') t = Some e) as Hgen.
  { intros keep s' Hk. destruct (evict_fold community channel keep l s s Hk (fun _ => eq_refl) Hw)
      as (_ & _ & Hent). fold s' in Hent. split.
    - intros t Ht. apply fan_out_candidates in Ht as (_ & [[filters c] ch] & He & Hm).
      unfold entry_matches in Hm. rewrite !andb_true_iff, String.eqb_eq, bool_decide_eq_true, Hch in Hm.
      destruct Hm as [[-> ->] Hm]. apply Hent in He as [He Hn].
      destruct (keep s t.1) eqn:Hkt; [done|]. destruct Hn. split_and!; [|done..].
      unfold l. apply elem_of_elements. by eapply subscribers_found.
    - intros t e He Hne. apply Hent. split; [done|]. tauto. }
  destruct (Hgen (fun _ _ => false)) as [Hall Hother]; [done|].
  destruct (Hgen (is_member_conn members)) as [Hmem Hother'].
  { intros s1 c Hp. unfold is_member_conn. by rewrite Hp. }
  split_and!.
  - apply elem_of_nil_inv. intros t Ht. discriminate (Hall t Ht).
  - intros t Ht. apply Hmem in Ht. unfold is_member_conn in Ht.
    destruct (pubkey_for_conn s t.1) as [pk|]; [|done]. exists pk. by apply bool_decide_eq_true in Ht.
  - intros t e He Hne. split; [by apply Hother|by apply Hother'].
Qed.

(** ** Stored events *)

Definition id_of (ev : StoredEvent) : string := ev_id (stored_event ev).

Lemma send_events_spec reader accessible f events seen :
  let '(l, seen') := send_events reader accessible f events seen in
  NoDup (id_of <$> l) /\ (forall ev, ev ∈ l -> ev ∈ events /\ may_send reader accessible f ev = true
                                               /\ id_of ev ∉ seen)
  /\ seen' = seen ∪ list_to_set (id_of <$> l)
  /\ forall ev, ev ∈ events -> may_send reader accessible f ev = true -> id_of ev ∈ seen'.
Proof.
  revert seen. induction events as [|ev events IH]; intros seen; cbn.
  { split_and!; [constructor| |set_solver|]; by intros ev ?%not_elem_of_nil. }
  destruct (may_send reader accessible f ev && negb (bool_decide (ev_id (stored_event ev) ∈ seen))) eqn:Ht.
  - apply andb_true_iff in Ht as [Hm Hn%negb_true_iff%bool_decide_eq_false]. fold (id_of ev) in *.
    specialize (IH ({[ id_of ev ]} ∪ seen)).
    destruct (send_events reader accessible f events _) as [l seen']. destruct IH as (Hd & Hin & -> & Hall).
    split_and!.
    + cbn. constructor; [|done]. intros (x & Hx & Hl)%list_elem_of_fmap. destruct (Hin x Hl) as (_ & _ & Hns).
      apply Hns. rewrite <- Hx. set_solver.
    + intros x [->|Hx]%elem_of_cons; [split_and!; [by left|done|done]|].
      destruct (Hin x Hx) as (? & ? & ?). split_and!; [by right|done|set_solver].
    + cbn. set_solver.
    + intros x [->|Hx]%elem_of_cons Hmx; [set_solver|]. by apply Hall.
  - specialize (IH seen). destruct (send_events reader accessible f events seen) as [l seen'].
    destruct IH as (Hd & Hin & -> & Hall). split_and!; [done| |done|].
    + intros x Hx. destruct (Hin x Hx) as (? & ? & ?). split_and!; [by right|done..].
    + intros x [->|Hx]%elem_of_cons Hmx; [|by apply Hall]. rewrite Hmx in Ht. cbn in Ht.
      apply negb_false_iff, bool_decide_eq_true in Ht. unfold id_of. set_solver.
Qed.

Lemma send_historical_spec reader accessible results seen :
  let l := send_historical reader accessible results seen in
  NoDup (id_of <$> l)
  /\ (forall ev, ev ∈ l -> id_of ev ∉ seen /\ exists f events, (f, Ok events) ∈ results /\ ev ∈ events
                          /\ may_send reader accessible f ev = true)
  /\ (Forall (fun r => is_ok r.2 = true) results ->
      forall f events ev, (f, Ok events) ∈ results -> ev ∈ events -> may_send reader accessible f ev = true ->
      id_of ev ∈ seen \/ id_of ev ∈ id_of <$> l).
Proof.
  revert seen. induction results as [|[f [events|e]] results IH]; intros seen; cbn.
  - split_and!; [constructor|by intros ev ?%not_elem_of_nil|]. by intros _ f events ev ?%not_elem_of_nil.
  - pose proof (send_events_spec reader accessible f events seen) as Hs.
    destruct (send_events reader accessible f events seen) as [l seen']. destruct Hs as (Hd & Hin & -> & Hall).
    destruct (IH (seen ∪ list_to_set (id_of <$> l))) as (Hd' & Hin' & Hall'). split_and!.
    + rewrite fmap_app. apply NoDup_app. split_and!; [done| |done].
      intros i Hi (x & -> & Hx)%list_elem_of_fmap. destruct (Hin' x Hx) as [Hn _]. apply Hn. set_solver.
    + intros ev [Hev|Hev]%elem_of_app.
      * destruct (Hin ev Hev) as (? & ? & ?). split; [done|]. exists f, events. split_and!; [by left|done..].
      * destruct (Hin' ev Hev) as (Hn & f' & events' & ? & ? & ?). split; [set_solver|].
        exists f', events'. split_and!; [by right|done..].
    + intros [_ Hok]%Forall_cons_1 f' events' ev Hr Hev Hm. rewrite fmap_app, elem_of_app.
      apply elem_of_cons in Hr as [[= -> ->]|Hr].
      * specialize (Hall ev Hev Hm). set_solver.
      * destruct (Hall' Hok f' events' ev Hr Hev Hm) as [Hs|Hs]; [set_solver|auto].
  - split_and!; [constructor|by intros ev ?%not_elem_of_nil|]. by intros [? _]%Forall_cons_1.
Qed.

(** A request's stored events are sent exactly: each once, each matching a
    filter, in a channel the reader may read and visible to the reader; and when
    every query succeeds, every such event that the database returned. *)
Theorem history_is_exact reader accessible results :
  let l := send_historical reader accessible results ∅ in
  NoDup (id_of <$> l)
  /\ (forall ev, ev ∈ l -> exists f events, (f, Ok events) ∈ results /\ ev ∈ events
        /\ filters_match [f] ev = true /\ event_visible_to_reader (stored_event ev) reader = true
        /\ forall ch, stored_channel ev = Some ch -> ch ∈ accessible)
  /\ (Forall (fun r => is_ok r.2 = true) results ->
      forall f events ev, (f, Ok events) ∈ results -> ev ∈ events -> may_send reader accessible f ev = true ->
      id_of ev ∈ id_of <$> l).
Proof.
  destruct (send_historical_spec reader accessible results ∅) as (Hd & Hin & Hall). split_and!; [done| |].
  - intros ev Hev. destruct (Hin ev Hev) as (_ & f & events & Hr & He & Hm). exists f, events.
    unfold may_send in Hm. rewrite !andb_true_iff in Hm. destruct Hm as [[? Ha] ?]. split_and!; [done..|].
    intros ch Hch. rewrite Hch in Ha. by apply bool_decide_eq_true in Ha.
  - intros Hok f events ev Hr Hev Hm. destruct (Hall Hok f events ev Hr Hev Hm) as [Hs|Hs]; [set_solver|done].
Qed.

(** ** Counting *)

Lemma lower_key_eq a b :
  to_ascii_lowercase a = a -> to_ascii_lowercase b = b -> eq_ignore_ascii_case a b = true -> a = b.
Proof. unfold eq_ignore_ascii_case. intros Ha Hb. rewrite Ha, Hb. by intros ?%String.eqb_eq. Qed.

(** COUNT takes its fast path, which looks at no event, only where every
    event it counts is visible to the reader, with one exception: team catalogs
    (kind 30193), see [fast_count_sees_private_teams]. *)
Theorem fast_count_is_visible f reader ev :
  count_takes_fast_path f reader = true -> filter_match_one f ev = true ->
  to_ascii_lowercase reader = reader ->
  to_ascii_lowercase (ev_pubkey (stored_event ev)) = ev_pubkey (stored_event ev) ->
  ev_kind (stored_event ev) <> KIND_TEAM_CATALOG ->
  event_visible_to_reader (stored_event ev) reader = true.
Proof.
  intros Hf Hm Hlr Hle Hk. unfold count_takes_fast_path in Hf. rewrite !andb_true_iff in Hf.
  destruct Hf as [[[_ Hau] Hres] Hsh]. unfold event_visible_to_reader.
  assert (is_author_only_event (stored_event ev) reader = false) as ->.
  { unfold is_author_only_event. destruct (in_kinds AUTHOR_ONLY_KINDS _) eqn:Hin; [|done]. cbn.
    apply in_kinds_spec in Hin. unfold filter_can_match_author_only_kinds in Hau.
    rewrite (can_match_spec _ _ _ Hm Hin) in Hau. cbn in Hau. destruct (authors f) as [l|] eqn:Hal; [|done].
    cbn in Hau. apply all_self_spec in Hau as [_ Hself].
    rewrite (lower_key_eq _ _ Hle Hlr (Hself _ (filter_match_authors f ev l Hm Hal))).
    by rewrite String.eqb_refl. }
  assert (is_unshared_gated_event (stored_event ev) reader = false) as ->.
  { unfold is_unshared_gated_event, is_shared_gated_kind.
    destruct (in_kinds SHARED_GATED_KINDS _) eqn:Hin; [|done]. exfalso. apply in_kinds_spec in Hin.
    unfold SHARED_GATED_KINDS in Hin. rewrite elem_of_cons, list_elem_of_singleton in Hin.
    destruct Hin as [Hp|Ht]; [|done]. unfold filter_can_match_shared_gated_kinds in Hsh.
    destruct (kinds f) as [ks|] eqn:Hks; [|done]. cbn in Hsh. apply negb_true_iff in Hsh.
    assert (existsb (fun k => k =? KIND_PERSONA) ks = true); [|congruence].
    apply existsb_exists. exists KIND_PERSONA. rewrite <- list_elem_of_In. split; [|done].
    rewrite <- Hp. by eapply filter_match_kind. }
  unfold reader_authorized_for_event. destruct (in_kinds RESULT_GATED_KINDS _) eqn:Hin; [|done]. cbn [negb].
  case_match; [done|]. apply in_kinds_spec in Hin. unfold filter_can_match_result_gated_kinds in Hres.
  rewrite (can_match_spec _ _ _ Hm Hin) in Hres. cbn in Hres. rewrite negb_involutive in Hres.
  unfold result_gated_count_safe_for_pushdown in Hres.
  destruct (generic_tags f !! "p"%string) as [values|] eqn:Hv; [|done]. by eapply match_self_tag.
Qed.

(** ** Where the code falls short *)

Definition alice : string := "a1".
Definition mallory : string := "b2".
Definition private_team : Event := {|
  ev_id := "e1"; ev_pubkey := alice; ev_created_at := 0; ev_kind := KIND_TEAM_CATALOG;
  ev_tags := [["d"; "ops"]]; ev_content := "{}"; ev_sig := "" |}%string.
Definition team_filter : Filter := {|
  ids := None; authors := Some [alice]; kinds := Some [KIND_TEAM_CATALOG]; search := None; since := None;
  until := None; limit := None; generic_tags := ∅ |}.

(** [filter_can_match_shared_gated_kinds] knows personas only, so counting
    someone else's unshared teams goes the fast way and tells how many there
    are. *)
Lemma fast_count_sees_private_teams :
  let ev := {| stored_event := private_team; stored_channel := None; verified := true |} in
  count_takes_fast_path team_filter mallory = true /\ filters_match [team_filter] ev = true
  /\ event_visible_to_reader private_team mallory = false
  /\ count_fallback mallory team_filter [ev] = Some 0%nat.
Proof. vm_compute. done. Qed.

Definition hidden : Event := {|
  ev_id := "e2"; ev_pubkey := "relay"; ev_created_at := 0; ev_kind := KIND_DM_VISIBILITY;
  ev_tags := [["p"; alice]]; ev_content := "{}"; ev_sig := "" |}%string.
Definition by_id : Filter := {|
  ids := Some ["e2"%string]; authors := None; kinds := None; search := None; since := None; until := None;
  limit := None; generic_tags := ∅ |}.
Definition no_uuid (_ : string) : option string := None.
Definition mallory_ctx : AuthContext := {|
  auth_pubkey := mallory; may_read := true; token_channels := None |}.
Definition mallory_connected : Server := set_connections
  {[ "c1"%string := {| conn_community := "acme"; conn_auth := Some mallory_ctx; conn_subs := ∅ |} ]} start.
Definition watching : Server :=
  (handle_req no_uuid "c1" "s1" [by_id] (Ok []) (fun _ => Ok false) mallory_connected).2.
Definition open_channels (_ _ : string) : Result string LookupError := Ok "open"%string.
Definition no_members (_ _ _ : string) : Result bool LookupError := Ok false.

(** A viewer-private event that arrives from another relay reaches a foreign
    subscription that asks for it by its id: the owner gate of
    [dispatch_persistent_event_inner] is on the accepting relay only. *)
Lemma cluster_fan_out_skips_owner_gate :
  let ev := {| stored_event := hidden; stored_channel := None; verified := false |} in
  (dispatch_persistent_event_inner open_channels no_members "acme" ev None true watching).1 = []
  /\ (fan_out_pubsub_event open_channels no_members "acme" None hidden watching).1
     = [("c1", "s1")]%string
  /\ event_visible_to_reader hidden mallory = false.
Proof. vm_compute. done. Qed.

(** [total_connections] is documented to count connections with at least one
    subscription; a connection that closed its last one still counts. *)
Lemma idle_connections_are_counted :
  let r := run [Register "acme" "c1" "s1" [any_filter] None; Unsubscribe "c1" "s1"] in
  total_connections r = 1%nat /\ total_subscriptions r = 0%nat.
Proof. vm_compute. done. Qed.

(** ** The theorems at concrete servers *)

Definition alice_ctx : AuthContext := {| auth_pubkey := alice; may_read := true; token_channels := None |}.
Definition fresh : Connection := {| conn_community := "acme"; conn_auth := None; conn_subs := ∅ |}.
Definition connected : Server := set_connections (<["c0"%string := fresh]> (connections start)) start.
Definition alice_connected : Server :=
  set_connections (<["c0"%string := authenticated alice_ctx fresh]> (connections connected)) connected.
Definition own_hidden : Filter := {|
  ids := None; authors := None; kinds := Some [KIND_DM_VISIBILITY]; search := None; since := None;
  until := None; limit := None; generic_tags := {[ "p"%string := [alice] ]} |}.
Definition room : Filter := {|
  ids := None; authors := None; kinds := Some [9]; search := None; since := None; until := None;
  limit := None; generic_tags := {[ "h"%string := ["room"%string] ]} |}.
Definition asked (sub : string) (filters : list Filter) : Server :=
  (handle_req Some "c0" sub filters (Ok ["room"%string]) (fun _ => Ok false) alice_connected).2.

Lemma asked_runs sub filters : rtc (server_step Some) start (asked sub filters).
Proof.
  eapply rtc_l; [apply (StepConnect Some "c0" "acme"); reflexivity|].
  eapply rtc_l; [apply (StepAuth Some "c0" fresh alice_ctx); [vm_compute; reflexivity|reflexivity]|].
  eapply rtc_l; [apply StepReq|]. apply rtc_refl.
Qed.

Definition hidden_event : StoredEvent := {|
  stored_event := hidden; stored_channel := None; verified := true |}.
Lemma gated_events_reach_their_reader_witness :
  fan_out_scoped "acme" hidden_event (registry (asked "mine" [own_hidden])) = [("c0", "mine")]%string
  /\ exists reader, pubkey_for_conn (asked "mine" [own_hidden]) "c0" = Some reader.
Proof.
  assert (fan_out_scoped "acme" hidden_event (registry (asked "mine" [own_hidden]))
          = [("c0", "mine")]%string) as Hf by (vm_compute; reflexivity).
  split; [exact Hf|].
  destruct (gated_events_reach_their_reader Some (asked "mine" [own_hidden]) "acme" hidden_event
              ("c0", "mine")%string) as (reader & Hr & _).
  - apply asked_runs.
  - reflexivity.
  - apply in_kinds_spec. vm_compute. reflexivity.
  - rewrite Hf. left.
  - exists reader. exact Hr.
Defined.

Definition room_event : StoredEvent := {|
  stored_event := {| ev_id := "e3"; ev_pubkey := mallory; ev_created_at := 0; ev_kind := 9;
                     ev_tags := [["h"; "room"]]; ev_content := "hi"; ev_sig := "" |};
  stored_channel := Some "room"; verified := true |}%string.
Lemma eviction_ends_delivery_witness :
  fan_out_scoped "acme" room_event (registry (asked "r" [room])) = [("c0", "r")]%string
  /\ fan_out_scoped "acme" room_event (registry (evict_all "acme" "room" (asked "r" [room]))) = [].
Proof.
  split; [vm_compute; reflexivity|].
  exact (proj1 (eviction_ends_delivery Some (asked "r" [room]) "acme" "room" ∅ room_event
                  (asked_runs "r" [room]) eq_refl)).
Defined.

Lemma subscriptions_bounded_witness :
  entry_of (registry (asked "r" [room])) ("c0", "r")%string <> None
  /\ (length ["r"%string] <= MAX_SUBSCRIPTIONS)%nat.
Proof.
  assert (is_some (entry_of (registry (asked "r" [room])) ("c0", "r")%string) = true) as He
    by (vm_compute; reflexivity).
  assert (is_some (connections (asked "r" [room]) !! "c0"%string) = true) as Hc by (vm_compute; reflexivity).
  destruct (connections (asked "r" [room]) !! "c0"%string) as [c|] eqn:E; [|discriminate Hc].
  assert (entry_of (registry (asked "r" [room])) ("c0", "r")%string <> None) as Hn.
  { intros Hx. rewrite Hx in He. discriminate He. }
  split; [exact Hn|]. apply (subscriptions_bounded Some (asked "r" [room]) "c0" c); [apply asked_runs|exact E| |].
  - apply NoDup_singleton.
  - intros sub ->%list_elem_of_singleton. exact Hn.
Defined.

Definition own_events : Filter := {|
  ids := None; authors := Some [alice]; kinds := Some [KIND_EVENT_REMINDER]; search := None;
  since := None; until := None; limit := None; generic_tags := ∅ |}.
Definition reminder : StoredEvent := {|
  stored_event := {| ev_id := "e4"; ev_pubkey := alice; ev_created_at := 0; ev_kind := KIND_EVENT_REMINDER;
                     ev_tags := []; ev_content := ""; ev_sig := "" |};
  stored_channel := None; verified := true |}%string.
Lemma fast_count_is_visible_witness :
  count_takes_fast_path own_events alice = true
  /\ event_visible_to_reader (stored_event reminder) alice = true.
Proof.
  split; [vm_compute; reflexivity|].
  apply (fast_count_is_visible own_events alice reminder); try (vm_compute; reflexivity).
  vm_compute. discriminate.
Defined.
