(* ===== verification/Feed.v ===== *)
(** * The signed price feed

    From [crates/buzz-core/src/ledger/feed.rs]: signing a catalog document and
    verifying a feed document. The event library (JSON, ids, signatures) is a
    parameter, as are the catalog's own parameters. *)

From Stdlib Require Import ZArith Lia Ascii.
From stdpp Require Import base list strings numbers.
From S2P Require Import Prelude MachineInt RustStr Usage Conditions Prices Catalog Event.
Local Open Scope Z_scope.

Definition KIND_PRICE_FEED : Z := 30188.
Definition PRICE_FEED_D_TAG : string := "pricefeed".
Definition MAX_CLOCK_SKEW_SECS : Z := 3600.

(** The messages of [FeedError], with what they are formatted from. *)
Inductive FeedError :=
| CatalogInvalid (e : CatalogError)
| CatalogHasNoPrices
| CannotBuildTag (msg : string)
| CannotSign (msg : string)
| NotSignedEvent
| WrongKind (kind : Z)
| WrongPublisher (author pinned : string)
| IdMismatch
| BadSignature
| AheadOfClock (created_at : Z)
| TooOld (age ceiling : Z)
| DocumentInvalid (e : CatalogError).

(** What the ledger asks of the event library. *)
Class EventLib (Keys : Type) := {
  from_json : string -> option Event;
  as_json : Event -> string;
  verify_id : Event -> bool;
  verify_signature : Event -> bool;
  tag_parse : list string -> Result (list string) string;
  sign_with_keys : Keys -> Z -> list (list string) -> string -> Result Event string;
  public_key : Keys -> string;
}.

Section Feed.
Context {Keys : Type} `{EventLib Keys}
        (rfc3339 : string -> option Z)
        (json_catalog : string -> Result CatalogFile string)
        (json_conditions : PriceConditions -> Result string string).

#[local] Abbreviation parse_document := (parse_catalog_document rfc3339 json_catalog json_conditions).

(** [sign_feed_document]. *)
Definition sign_feed_document (catalog_json : string) (keys : Keys) : Result string FeedError :=
  let? entries := map_err CatalogInvalid (parse_document catalog_json) in
  if bool_decide (entries = []) then Err CatalogHasNoPrices
  else
    let? tag := map_err CannotBuildTag (tag_parse ["d"%string; PRICE_FEED_D_TAG]) in
    let? event := map_err CannotSign (sign_with_keys keys KIND_PRICE_FEED [tag] catalog_json) in
    Ok (as_json event).

(** [verify_feed_document]. *)
Definition verify_feed_document (document publisher_pubkey : string) (now_unix max_age_secs : Z)
    : Result (list PriceEntry) FeedError :=
  let? event := ok_or (from_json document) NotSignedEvent in
  if negb (ev_kind event =? KIND_PRICE_FEED) then Err (WrongKind (ev_kind event))
  else if negb (eq_ignore_ascii_case (ev_pubkey event) publisher_pubkey)
  then Err (WrongPublisher (ev_pubkey event) publisher_pubkey)
  else if negb (verify_id event) then Err IdMismatch
  else if negb (verify_signature event) then Err BadSignature
  else if saturating_add64 now_unix MAX_CLOCK_SKEW_SECS <? ev_created_at event
  then Err (AheadOfClock (ev_created_at event))
  else
    let age := saturating_sub64 now_unix (ev_created_at event) in
    if (0 <? max_age_secs) && (max_age_secs <? age) then Err (TooOld age max_age_secs)
    else map_err DocumentInvalid (parse_document (ev_content event)).
End Feed.

(** What the event library documents about events it signs. *)
Class EventLibLaws (Keys : Type) `{EventLib Keys} := {
  from_json_u64 s e : from_json s = Some e -> in_u64 (ev_created_at e);
  sign_roundtrip k kind tags content e :
    sign_with_keys k kind tags content = Ok e ->
    from_json (as_json e) = Some e /\ ev_kind e = kind /\ ev_content e = content
    /\ ev_pubkey e = public_key k /\ verify_id e = true /\ verify_signature e = true;
}.

Section FeedFacts.
Context {Keys : Type} `{EventLibLaws Keys}
        (rfc3339 : string -> option Z)
        (json_catalog : string -> Result CatalogFile string)
        (json_conditions : PriceConditions -> Result string string).

#[local] Abbreviation parse_document := (parse_catalog_document rfc3339 json_catalog json_conditions).
#[local] Abbreviation verify := (verify_feed_document rfc3339 json_catalog json_conditions).

(** The checks a trusted document has passed, in terms of the event it is. *)
Record feed_trusted (event : Event) (publisher : string) (now max_age : Z) : Prop := {
  trusted_kind : ev_kind event = KIND_PRICE_FEED;
  trusted_author : eq_ignore_ascii_case (ev_pubkey event) publisher = true;
  trusted_id : verify_id event = true;
  trusted_signature : verify_signature event = true;
  trusted_not_ahead : ev_created_at event <= now + MAX_CLOCK_SKEW_SECS;
  trusted_fresh : max_age <= 0 \/ now - ev_created_at event <= max_age;
}.

Lemma verify_feed_trusted document event publisher now max_age :
  from_json document = Some event -> feed_trusted event publisher now max_age ->
  verify document publisher now max_age = map_err DocumentInvalid (parse_document (ev_content event)).
Proof.
  intros Hj [H1 H2 H3 H4 H5 H6]. pose proof (from_json_u64 _ _ Hj) as Hu.
  unfold verify_feed_document. rewrite Hj. cbn. rewrite H1, H2, H3, H4. cbn.
  unfold saturating_add64, saturating_sub64, in_u64 in *.
  destruct (Z.ltb_spec (Z.min (now + MAX_CLOCK_SKEW_SECS) u64_max) (ev_created_at event)); [lia|].
  destruct (Z.ltb_spec 0 max_age); [|done].
  destruct (Z.ltb_spec max_age (Z.max (now - ev_created_at event) 0)); [lia|done].
Qed.

Lemma verify_feed_accepts document publisher now max_age es :
  verify document publisher now max_age = Ok es ->
  exists event, from_json document = Some event /\ feed_trusted event publisher now max_age
    /\ parse_document (ev_content event) = Ok es.
Proof.
  unfold verify_feed_document. rewrite rbind_ok. intros (event & Hj & Hv).
  destruct (from_json document) as [e|] eqn:E; [|done]. injection Hj as ->.
  exists event. split; [done|]. unfold saturating_add64, saturating_sub64 in Hv.
  destruct (Z.eqb_spec (ev_kind event) KIND_PRICE_FEED); [|done]. cbn in Hv.
  destruct (eq_ignore_ascii_case (ev_pubkey event) publisher) eqn:Ea; [|done]. cbn in Hv.
  destruct (verify_id event) eqn:Ei; [|done]. cbn in Hv.
  destruct (verify_signature event) eqn:Es; [|done]. cbn in Hv.
  destruct (Z.ltb_spec (Z.min (now + MAX_CLOCK_SKEW_SECS) u64_max) (ev_created_at event)); [done|].
  destruct (Z.ltb_spec 0 max_age);
    destruct (Z.ltb_spec max_age (Z.max (now - ev_created_at event) 0)); cbn in Hv; try done.
  all: destruct (parse_document (ev_content event)); [|done]; injection Hv as ->.
  all: split; [split|]; try done; lia.
Qed.

(** A price feed is accepted exactly when it is one event of the feed kind
    by the pinned publisher, whose id matches its content and whose signature
    verifies, not dated ahead of the clock skew nor past the staleness
    ceiling, and whose content is a readable catalog; its prices are then
    that catalog's. *)
Theorem verify_feed_spec document publisher now max_age es :
  verify document publisher now max_age = Ok es <->
  exists event, from_json document = Some event /\ feed_trusted event publisher now max_age
    /\ parse_document (ev_content event) = Ok es.
Proof.
  split; [apply verify_feed_accepts|]. intros (event & Hj & Ht & Hp).
  rewrite (verify_feed_trusted document event) by done. by rewrite Hp.
Qed.

(** Whatever the publisher manages to sign, every relay pinned to its key
    reads back as the same prices, and never an empty list, for as long as
    the clock bounds hold. *)
Theorem signed_feed_verifies catalog_json keys document :
  sign_feed_document rfc3339 json_catalog json_conditions catalog_json keys = Ok document ->
  exists event es, from_json document = Some event
    /\ parse_document catalog_json = Ok es /\ es <> []
    /\ forall now max_age,
         ev_created_at event <= now + MAX_CLOCK_SKEW_SECS ->
         max_age <= 0 \/ now - ev_created_at event <= max_age ->
         verify document (public_key keys) now max_age = Ok es.
Proof.
  unfold sign_feed_document. rewrite rbind_ok. intros (es & Hp & Hs).
  destruct (parse_document catalog_json) as [es'|] eqn:E; [|done]. injection Hp as ->.
  case_bool_decide as Hne; [done|]. rewrite rbind_ok in Hs. destruct Hs as (tag & _ & Hs).
  rewrite rbind_ok in Hs. destruct Hs as (event & He & [= <-]).
  destruct (sign_with_keys _ _ _ _) as [ev|] eqn:Esign; [|done]. injection He as ->.
  apply sign_roundtrip in Esign as (Hj & Hk & Hc & Hpk & Hid & Hsig).
  exists event, es. split_and!; [done|done|done|]. intros now max_age H1 H2.
  rewrite (verify_feed_trusted _ event); [by rewrite Hc, E | done |].
  split; try done. rewrite Hpk. apply eq_ignore_ascii_case_refl.
Qed.
End FeedFacts.

(** A toy event library: one publisher, and an id that names the content. *)
Definition toy_event (content : string) : Event := {|
  ev_id := ("id:" +:+ content)%string; ev_pubkey := "ab"; ev_created_at := 100;
  ev_kind := KIND_PRICE_FEED; ev_tags := [["d"%string; PRICE_FEED_D_TAG]];
  ev_content := content; ev_sig := "sig" |}.

#[local] Instance toy_lib : EventLib unit := {|
  from_json s := Some (toy_event s);
  as_json := ev_content;
  verify_id e := bool_decide (ev_id e = ("id:" +:+ ev_content e)%string);
  verify_signature e := bool_decide (ev_sig e = "sig"%string);
  tag_parse t := Ok t;
  sign_with_keys _ kind tags content :=
    if (kind =? KIND_PRICE_FEED) then Ok (toy_event content) else Err "kind"%string;
  public_key _ := "ab"%string;
|}.

#[local] Instance toy_laws : EventLibLaws unit.
Proof.
  split.
  - cbn. intros s e [= <-]. cbn. unfold in_u64, u64_max. lia.
  - cbn. intros _ kind tags content e. destruct (Z.eqb_spec kind KIND_PRICE_FEED); [|done].
    intros [= <-]. subst. cbn. rewrite bool_decide_eq_true_2 by done. by split_and!.
Defined.

Lemma verify_feed_spec_witness :
  exists es, verify_feed_document sample_rfc3339 (fun _ => Ok sample_file) sample_json "{}" "AB" 200 0 = Ok es.
Proof.
  destruct (parse_catalog_document sample_rfc3339 (fun _ => Ok sample_file) sample_json "{}")
    as [es|] eqn:E; [|vm_compute in E; discriminate E].
  exists es. apply verify_feed_spec. exists (toy_event "{}"). split; [reflexivity|].
  split; [|exact E]. split; try reflexivity; [|left]; cbn; unfold MAX_CLOCK_SKEW_SECS; lia.
Defined.

Lemma signed_feed_verifies_witness :
  exists document es, sign_feed_document (Keys := unit) sample_rfc3339 (fun _ => Ok sample_file) sample_json "{}" tt = Ok document
    /\ verify_feed_document sample_rfc3339 (fun _ => Ok sample_file) sample_json document "ab" 200 0 = Ok es.
Proof.
  destruct (sign_feed_document (Keys := unit) sample_rfc3339 (fun _ => Ok sample_file) sample_json "{}" tt)
    as [document|] eqn:E; [|vm_compute in E; discriminate E].
  destruct (signed_feed_verifies _ _ _ _ _ _ E) as (event & es & Hj & _ & _ & Hv).
  exists document, es. split; [reflexivity|].
  injection Hj as <-. apply Hv; cbn; unfold MAX_CLOCK_SKEW_SECS; [lia | left; lia].
Defined.
