(* ===== verification/Attribution.v ===== *)
(** * Attribution rules, corrections and budgets

    From [crates/buzz-core/src/ledger/attribution.rs]. *)

From Stdlib Require Import ZArith Lia Ascii.
From stdpp Require Import base list strings numbers.
From S2P Require Import Prelude MachineInt RustStr Company Usage.
Local Open Scope Z_scope.

Record RuleAssignment := {
  assign_cost_centre_id : string;
  assign_owning_team_id : option string;
  assign_commercial_purpose : CommercialPurpose;
  assign_client_organization_id : option string;
  assign_task_id : option string;
}.
#[export] Instance RuleAssignment_eq_dec : EqDecision RuleAssignment.
Proof. solve_decision. Defined.

Record AttributionRule := {
  rule_id : string;
  priority : Z;
  match_provider : option string;
  match_harness : option string;
  match_agent_pubkey : option string;
  match_channel_id : option string;
  match_model : option string;
  rule_assign : RuleAssignment;
}.
#[export] Instance AttributionRule_eq_dec : EqDecision AttributionRule.
Proof. solve_decision. Defined.

(** The helper [ok] inside [AttributionRule::matches]. *)
Definition matcher_ok (matcher value : option string) : bool :=
  match matcher with
  | None => true
  | Some expected => bool_decide (value = Some expected)
  end.

(** [AttributionRule::matches]. *)
Definition rule_matches (r : AttributionRule) (record : UsageRecordPayload) : bool :=
  matcher_ok (match_provider r) (Some (provider record))
  && matcher_ok (match_harness r) (harness record)
  && matcher_ok (match_model r) (model record)
  && matcher_ok (match_agent_pubkey r) (agent_pubkey record)
  && matcher_ok (match_channel_id r) (channel_id record).

(** A [Rulebook] is its rules in publication order. *)
Definition Rulebook := list AttributionRule.

(** [Rulebook::best_match]. *)
Definition best_match (book : Rulebook) (record : UsageRecordPayload) : option AttributionRule :=
  pick_best (fun rule current => priority current <? priority rule)
    (List.filter (fun r => rule_matches r record) book).

Record Correction := {
  correction_id : string;
  usage_record_event_id : string;
  correction_assign : RuleAssignment;
  reason : string;
  corrected_at : Z;
}.
#[export] Instance Correction_eq_dec : EqDecision Correction.
Proof. solve_decision. Defined.

(** A [CorrectionBook] is its corrections in publication order. *)
Definition CorrectionBook := list Correction.

Record Budget := {
  budget_cost_centre_id : string;
  budget_period : string;
  budget_amount_nanousd : Z;
}.

(** ** Facts *)

(** [rule] is the one the contract names: it matches, no earlier matching
    rule has its priority or more, no later one has more. *)
Definition claims (book : Rulebook) (record : UsageRecordPayload) (rule : AttributionRule) : Prop :=
  exists l1 l2, book = l1 ++ rule :: l2 /\ rule_matches rule record = true
    /\ (forall r, r ∈ l1 -> rule_matches r record = true -> priority r < priority rule)
    /\ (forall r, r ∈ l2 -> rule_matches r record = true -> priority r <= priority rule).

(** The rule that attributes a record is the highest-priority match, the
    earliest of equals; none exactly when no rule matches. *)
Theorem best_match_spec book record :
  (forall rule, best_match book record = Some rule -> claims book record rule)
  /\ (best_match book record = None <-> forall r, r ∈ book -> rule_matches r record = false).
Proof.
  split.
  - intros rule H. unfold best_match in H.
    apply (pick_best_first _ (fun x y => priority x <= priority y)) in H
      as (l1 & l2 & Hl & H1 & H2); [|intros; lia|intros; lia|intros; lia].
    apply filter_split in Hl as (k1 & k2 & -> & Hm & <- & <-).
    rewrite Forall_elem in H1. rewrite Forall_elem in H2.
    exists k1, k2. split_and!; [done|done| |]; intros r Hr Hrm.
    + enough (~ priority rule <= priority r) by lia. apply H1. by apply elem_of_filterb.
    + apply H2. by apply elem_of_filterb.
  - unfold best_match. rewrite pick_best_none. split.
    + intros Hnil r Hr. destruct (rule_matches r record) eqn:Hm; [|done].
      assert (r ∈ List.filter (fun r => rule_matches r record) book) as Hin
        by (by apply elem_of_filterb).
      rewrite Hnil in Hin. by apply not_elem_of_nil in Hin.
    + intros Hall. induction book as [|r book IH]; [done|]. cbn.
      rewrite (Hall r) by apply list_elem_of_here. apply IH. intros r' Hr'. apply Hall.
      by apply list_elem_of_further.
Qed.

(** Adding rules cannot re-route work an existing rule claims, unless one
    of the new rules matches it with a strictly higher priority. *)
Theorem appended_rules_do_not_reroute book new record rule :
  best_match book record = Some rule ->
  Forall (fun r => rule_matches r record = true -> priority r <= priority rule) new ->
  best_match (book ++ new) record = Some rule.
Proof.
  unfold best_match, pick_best. rewrite List.filter_app, foldl_app. intros -> Hnew.
  induction Hnew as [|r new Hr Hnew IH]; [done|]. cbn.
  destruct (rule_matches r record); [|done]. cbn. specialize (Hr eq_refl).
  by replace (priority rule <? priority r) with false by lia.
Qed.

Definition harness_rule (i : string) (p : Z) (h : option string) : AttributionRule := {|
  rule_id := i; priority := p; match_provider := None; match_harness := h;
  match_agent_pubkey := None; match_channel_id := None; match_model := None;
  rule_assign := {| assign_cost_centre_id := i; assign_owning_team_id := None;
                    assign_commercial_purpose := Administration;
                    assign_client_organization_id := None; assign_task_id := None |} |}.

Definition sample_record : UsageRecordPayload := {|
  source := Wire; provider := "anthropic"; request_id := "r"; model := Some "m"%string;
  timestamp := "t"; payment_mode := Metered; tokens := None; unknown_token_fields := [];
  amount_nanousd := Some 5; observed_cost_nanousd := None; harness := Some "buzz-acp"%string;
  session_id := None; turn_id := None; http_status := None; description := None;
  agent_pubkey := None; channel_id := None; work_context := None |}.

Lemma appended_rules_do_not_reroute_witness :
  best_match ([harness_rule "low" 1 None; harness_rule "high" 5 (Some "buzz-acp")]
              ++ [harness_rule "late" 5 None; harness_rule "other" 9 (Some "x")]) sample_record
  = Some (harness_rule "high" 5 (Some "buzz-acp"%string)).
Proof.
  apply appended_rules_do_not_reroute; [reflexivity|].
  constructor; [intros _; cbn; lia|]. constructor; [intros H; discriminate H | constructor].
Defined.
