(* ===== verification/Calendar.v ===== *)
(** * UTC days

    [utc_day] of [crates/buzz-core/src/ledger/engine.rs]: unix seconds to a
    [YYYY-MM-DD] label by the civil-from-days arithmetic, and the proof that
    the arithmetic is the calendar. *)

From Stdlib Require Import ZArith Lia Ascii.
From stdpp Require Import base list strings numbers.
From S2P Require Import Prelude MachineInt RustStr.
Local Open Scope Z_scope.

(** Year, month, day of a day count from 1970-01-01: the arithmetic of
    [utc_day] before it formats. Rust's [/] truncates. *)
Definition civil_from_days (days : Z) : Z * Z * Z :=
  let z := days + 719468 in
  let era := Z.quot (if 0 <=? z then z else z - 146096) 146097 in
  let doe := z - era * 146097 in
  let yoe := (doe - doe / 1460 + doe / 36524 - doe / 146096) / 365 in
  let y := yoe + era * 400 in
  let doy := doe - (365 * yoe + yoe / 4 - yoe / 100) in
  let mp := (5 * doy + 2) / 153 in
  let d := doy - (153 * mp + 2) / 5 + 1 in
  let m := if mp <? 10 then mp + 3 else mp - 9 in
  let year := if m <=? 2 then y + 1 else y in
  (year, m, d).

(** [format!("{year:04}-{m:02}-{d:02}")]. *)
Definition format_day (date : Z * Z * Z) : string :=
  let '(y, m, d) := date in
  (dec_pad 4 y +:+ String "-" (dec_pad 2 m +:+ String "-" (dec_pad 2 d)))%string.

(** [utc_day]. *)
Definition utc_day (unix_seconds : Z) : string := format_day (civil_from_days (unix_seconds / 86400)).

(** ** The calendar, one day at a time *)

Definition is_leap (y : Z) : bool := (y mod 4 =? 0) && (negb (y mod 100 =? 0) || (y mod 400 =? 0)).

Definition days_in_month (y m : Z) : Z :=
  if m =? 2 then (if is_leap y then 29 else 28)
  else if bool_decide (m ∈ [4; 6; 9; 11]) then 30 else 31.

Definition next_day (date : Z * Z * Z) : Z * Z * Z :=
  let '(y, m, d) := date in
  if d <? days_in_month y m then (y, m, d + 1)
  else if m <? 12 then (y, m + 1, 1) else (y + 1, 1, 1).

(** ** The arithmetic decomposed

    A day is an era of 400 years, a year of the era counted from March, and a
    day of that year. *)

(** First day of March year [k] of an era. *)
Definition year_start (k : Z) : Z := 365 * k + k / 4 - k / 100 + k / 400.

Definition year_of_era (doe : Z) : Z := (doe - doe / 1460 + doe / 36524 - doe / 146096) / 365.

Definition month_day (y doy : Z) : Z * Z * Z :=
  let mp := (5 * doy + 2) / 153 in
  let d := doy - (153 * mp + 2) / 5 + 1 in
  let m := if mp <? 10 then mp + 3 else mp - 9 in
  (if m <=? 2 then y + 1 else y, m, d).

Fixpoint all_below (n : nat) (p : Z -> bool) : bool :=
  match n with
  | O => true
  | S n' => p (Z.of_nat n') && all_below n' p
  end.

Lemma all_below_spec n p k : all_below n p = true -> 0 <= k < Z.of_nat n -> p k = true.
Proof.
  induction n as [|n IH]; [lia|]. cbn [all_below]. intros [Hp Hall]%andb_true_iff Hk.
  destruct (decide (k = Z.of_nat n)) as [->|]; [done|]. apply IH; [done|lia].
Qed.

(** The year formula is right at both ends of each of the 400 years... *)
Lemma year_ends k : 0 <= k < 400 ->
  year_of_era (year_start k) = k /\ year_of_era (year_start (k + 1) - 1) = k
  /\ year_of_era (Z.min (year_start (k + 1) - 1) 146095) = k.
Proof.
  intros Hk.
  assert (((year_of_era (year_start k) =? k) && (year_of_era (year_start (k + 1) - 1) =? k)
    && (year_of_era (Z.min (year_start (k + 1) - 1) 146095) =? k)) = true) as H; [|lia].
  apply (all_below_spec 400 (fun k => (year_of_era (year_start k) =? k)
    && (year_of_era (year_start (k + 1) - 1) =? k)
    && (year_of_era (Z.min (year_start (k + 1) - 1) 146095) =? k))); [by vm_compute | lia].
Qed.

(** ... and it is monotone up to the last day of the era. *)
Lemma year_of_era_mono a b : 0 <= a <= b -> b <= 146095 -> year_of_era a <= year_of_era b.
Proof.
  intros H1 H2. unfold year_of_era. apply Z.div_le_mono; [lia|].
  assert (a / 146096 = 0) by (apply Z.div_small; lia).
  assert (b / 146096 = 0) by (apply Z.div_small; lia).
  assert (a / 36524 <= b / 36524) by (apply Z.div_le_mono; lia).
  assert (a - a / 1460 <= b - b / 1460).
  { pose proof (Z.div_mod a 1460). pose proof (Z.div_mod b 1460).
    pose proof (Z.mod_pos_bound a 1460). pose proof (Z.mod_pos_bound b 1460).
    assert (a / 1460 <= b / 1460) by (apply Z.div_le_mono; lia). lia. }
  lia.
Qed.

Lemma year_start_bound k : 0 <= k <= 400 -> 0 <= year_start k <= 146097.
Proof. unfold year_start. intros. Z.to_euclidean_division_equations. lia. Qed.

Lemma year_of_era_unique k doe :
  0 <= k < 400 -> year_start k <= doe < year_start (k + 1) -> year_of_era doe = k.
Proof.
  intros Hk Hd. destruct (year_ends k Hk) as (H1 & H2 & H3).
  pose proof (year_start_bound k ltac:(lia)). pose proof (year_start_bound (k + 1) ltac:(lia)).
  destruct (decide (doe = 146096)) as [->|].
  - replace (year_start (k + 1) - 1) with 146096 in H2 by lia. done.
  - assert (year_of_era (year_start k) <= year_of_era doe) by (apply year_of_era_mono; lia).
    assert (year_of_era doe <= year_of_era (Z.min (year_start (k + 1) - 1) 146095))
      by (apply year_of_era_mono; lia).
    lia.
Qed.

(** Every day number splits. *)
Lemma day_splits z : exists era k doy,
  0 <= k < 400 /\ 0 <= doy < year_start (k + 1) - year_start k
  /\ z = era * 146097 + year_start k + doy.
Proof.
  assert (forall n doe, 0 <= doe < year_start (Z.of_nat n) -> (n <= 400)%nat ->
    exists k, 0 <= k < Z.of_nat n /\ year_start k <= doe < year_start (k + 1)) as Hfind.
  { induction n as [|n IH]; intros doe Hd Hn; [change (year_start (Z.of_nat 0)) with 0 in Hd; lia|].
    destruct (decide (doe < year_start (Z.of_nat n))) as [Hlt|Hge].
    - destruct (IH doe ltac:(lia) ltac:(lia)) as (k & Hk & ?). exists k. split; [lia|done].
    - exists (Z.of_nat n). split; [lia|]. split; [lia|].
      replace (Z.of_nat n + 1) with (Z.of_nat (S n)) by lia. lia. }
  pose proof (Z.mod_pos_bound z 146097 ltac:(lia)) as Hm.
  destruct (Hfind 400%nat (z mod 146097)) as (k & Hk & Hd); [exact Hm | lia |].
  exists (z / 146097), k, (z mod 146097 - year_start k). split; [lia|]. split; [lia|].
  pose proof (Z.div_mod z 146097). lia.
Qed.

(** On a split day the code computes the month and day of that year. *)
Lemma civil_split days era k doy :
  0 <= era -> 0 <= k < 400 -> 0 <= doy < year_start (k + 1) - year_start k ->
  days + 719468 = era * 146097 + year_start k + doy ->
  civil_from_days days = month_day (k + era * 400) doy.
Proof.
  intros He Hk Hd Hz. pose proof (year_start_bound k ltac:(lia)).
  pose proof (year_start_bound (k + 1) ltac:(lia)).
  unfold civil_from_days. rewrite Hz.
  replace (0 <=? era * 146097 + year_start k + doy) with true by lia.
  assert (Z.quot (era * 146097 + year_start k + doy) 146097 = era) as ->.
  { rewrite Z.quot_div_nonneg by lia. symmetry.
    apply (Z.div_unique _ _ era (year_start k + doy)); lia. }
  replace (era * 146097 + year_start k + doy - era * 146097) with (year_start k + doy) by lia.
  fold (year_of_era (year_start k + doy)). rewrite (year_of_era_unique k) by lia.
  assert (k / 400 = 0) as H400 by (apply Z.div_small; lia).
  replace (year_start k + doy - (365 * k + k / 4 - k / 100)) with doy
    by (unfold year_start; lia).
  reflexivity.
Qed.

(** The length of a March year is set by the leap rule of the year it ends in. *)
Lemma march_year_length era k :
  0 <= k < 400 ->
  year_start (k + 1) - year_start k = if is_leap (k + era * 400 + 1) then 366 else 365.
Proof.
  intros Hk.
  assert (is_leap (k + era * 400 + 1) = is_leap (k + 1)) as ->.
  { unfold is_leap.
    replace (k + era * 400 + 1) with (k + 1 + era * 400) by lia.
    rewrite (Z.mod_add (k + 1) era 400) by lia.
    replace ((k + 1 + era * 400) mod 4) with ((k + 1) mod 4)
      by (replace (era * 400) with (era * 100 * 4) by lia; by rewrite Z.mod_add).
    replace ((k + 1 + era * 400) mod 100) with ((k + 1) mod 100)
      by (replace (era * 400) with (era * 4 * 100) by lia; by rewrite Z.mod_add). done. }
  apply Z.eqb_eq. apply (all_below_spec 400 (fun k =>
    year_start (k + 1) - year_start k =? (if is_leap (k + 1) then 366 else 365))); [by vm_compute|lia].
Qed.

(** Month and day advance as the calendar does: 366 cases, by computation on
    the offsets from the year. *)
Definition day_advances (leap : bool) (doy : Z) : bool :=
  let '(y1, m1, d1) := month_day 0 doy in
  let dim := if m1 =? 2 then (if leap then 29 else 28)
             else if bool_decide (m1 ∈ [4; 6; 9; 11]) then 30 else 31 in
  let next := if d1 <? dim then (y1, m1, d1 + 1)
              else if m1 <? 12 then (y1, m1 + 1, 1) else (y1 + 1, 1, 1) in
  let last := if leap then 365 else 364 in
  bool_decide (next = if doy =? last then month_day 1 0 else month_day 0 (doy + 1))
  && ((negb (m1 =? 2)) || (y1 =? 1)).

Lemma month_day_shift y doy :
  month_day y doy = let '(y0, m, d) := month_day 0 doy in (y + y0, m, d).
Proof. unfold month_day. repeat f_equal. case_match; lia. Qed.

Lemma month_day_next y doy :
  0 <= doy < (if is_leap (y + 1) then 366 else 365) ->
  next_day (month_day y doy) =
  if doy =? (if is_leap (y + 1) then 365 else 364) then month_day (y + 1) 0 else month_day y (doy + 1).
Proof.
  intros Hd. assert (day_advances (is_leap (y + 1)) doy = true) as H.
  { destruct (is_leap (y + 1)).
    - apply (all_below_spec 366 (day_advances true)); [by vm_compute | lia].
    - apply (all_below_spec 365 (day_advances false)); [by vm_compute | lia]. }
  unfold day_advances in H. rewrite (month_day_shift y doy), (month_day_shift y (doy + 1)),
    (month_day_shift (y + 1) 0).
  change (month_day 1 0) with (1, 3, 1) in H. change (month_day 0 0) with (0, 3, 1).
  destruct (month_day 0 doy) as [[y1 m1] d1]. destruct (month_day 0 (doy + 1)) as [[y2 m2] d2].
  apply andb_true_iff in H as [H H2]. apply bool_decide_eq_true in H.
  assert (days_in_month (y + y1) m1 = if m1 =? 2 then (if is_leap (y + 1) then 29 else 28)
             else if bool_decide (m1 ∈ [4; 6; 9; 11]) then 30 else 31) as Hdim.
  { unfold days_in_month. destruct (m1 =? 2); [|done]. cbn in H2.
    by replace (y + y1) with (y + 1) by lia. }
  unfold next_day. rewrite Hdim.
  destruct (doy =? _); repeat (case_match; try lia); simplify_eq; f_equal; try f_equal; lia.
Qed.

Lemma civil_next days : -719468 <= days -> civil_from_days (days + 1) = next_day (civil_from_days days).
Proof.
  intros Hz. destruct (day_splits (days + 719468)) as (era & k & doy & Hk & Hd & Heq).
  pose proof (year_start_bound k ltac:(lia)). pose proof (year_start_bound (k + 1) ltac:(lia)).
  assert (0 <= era) as He by nia.
  pose proof (march_year_length era k Hk) as Hlen.
  rewrite (civil_split days era k doy) by done.
  rewrite month_day_next by (rewrite Hlen in Hd; destruct (is_leap _); lia).
  destruct (Z.eqb_spec doy (if is_leap (k + era * 400 + 1) then 365 else 364)) as [Hlast|Hmid].
  - assert (year_start (k + 1) = year_start k + doy + 1) as Hs
      by (destruct (is_leap (k + era * 400 + 1)); lia).
    destruct (decide (k = 399)) as [->|].
    + rewrite (civil_split (days + 1) (era + 1) 0 0).
      * f_equal; lia.
      * lia.
      * lia.
      * change (year_start (0 + 1) - year_start 0) with 365. lia.
      * change (year_start (399 + 1)) with 146097 in Hs. change (year_start 0) with 0. lia.
    + rewrite (civil_split (days + 1) era (k + 1) 0); [f_equal; lia | done | lia | | lia].
      rewrite (march_year_length era) by lia. destruct (is_leap (k + 1 + era * 400 + 1)); lia.
  - rewrite (civil_split (days + 1) era k (doy + 1)); [done | done | done | | lia].
    destruct (is_leap (k + era * 400 + 1)); lia.
Qed.

Lemma civil_counts n : civil_from_days (Z.of_nat n) = Nat.iter n next_day (1970, 1, 1).
Proof.
  induction n as [|n IH]; [reflexivity|]. cbn [Nat.iter].
  replace (Z.of_nat (S n)) with (Z.of_nat n + 1) by lia. rewrite civil_next by lia. by rewrite IH.
Qed.

(** ** Labels identify days *)

Definition valid_date (date : Z * Z * Z) : Prop :=
  let '(y, m, d) := date in 0 <= y /\ 1 <= m <= 12 /\ 1 <= d <= 31.

(** A rank that the calendar's successor strictly increases. *)
Definition date_rank (date : Z * Z * Z) : Z := let '(y, m, d) := date in 372 * y + 31 * m + d.

Lemma next_day_rank date :
  valid_date date -> valid_date (next_day date) /\ date_rank date < date_rank (next_day date).
Proof.
  destruct date as [[y m] d]. unfold valid_date, date_rank, next_day. intros (Hy & Hm & Hd).
  assert (days_in_month y m <= 31) by (unfold days_in_month; destruct (m =? 2); [destruct (is_leap y)|destruct (bool_decide _)]; lia).
  destruct (Z.ltb_spec d (days_in_month y m)); [lia|]. destruct (Z.ltb_spec m 12); lia.
Qed.

Lemma iter_next_valid n : valid_date (Nat.iter n next_day (1970, 1, 1)).
Proof.
  induction n as [|n IH]; cbn [Nat.iter]; [cbn; lia|]. by apply next_day_rank.
Qed.

Lemma iter_next_rank n k :
  date_rank (Nat.iter n next_day (1970, 1, 1)) + Z.of_nat k
  <= date_rank (Nat.iter (k + n) next_day (1970, 1, 1)).
Proof.
  induction k as [|k IH]; [change (0 + n)%nat with n; lia|].
  change (S k + n)%nat with (S (k + n)). rewrite Nat.iter_succ.
  pose proof (next_day_rank _ (iter_next_valid (k + n))) as [_ Hr]. lia.
Qed.

Lemma iter_next_inj a b :
  Nat.iter a next_day (1970, 1, 1) = Nat.iter b next_day (1970, 1, 1) -> a = b.
Proof.
  intros Heq. destruct (decide (a <= b)%nat).
  - pose proof (iter_next_rank a (b - a)) as Hr.
    replace (b - a + a)%nat with b in Hr by lia. rewrite <- Heq in Hr. lia.
  - pose proof (iter_next_rank b (a - b)) as Hr.
    replace (a - b + b)%nat with a in Hr by lia. rewrite Heq in Hr. lia.
Qed.

Lemma no_dash w n : 0 <= n -> str_contains "-" (dec_pad w n) = false.
Proof. intros Hn. apply all_digits_contains; [reflexivity | by apply dec_pad_digits]. Qed.

Lemma format_day_inj p q : valid_date p -> valid_date q -> format_day p = format_day q -> p = q.
Proof.
  destruct p as [[y1 m1] d1], q as [[y2 m2] d2]. unfold valid_date, format_day.
  intros (Hy1 & Hm1 & Hd1) (Hy2 & Hm2 & Hd2) H.
  apply joined_key_inj in H as [Hy H]; [|apply no_dash; lia..].
  apply joined_key_inj in H as [Hm Hd]; [|apply no_dash; lia..].
  apply dec_pad_inj in Hy; [|lia..]. apply dec_pad_inj in Hm; [|lia..].
  apply dec_pad_inj in Hd; [|lia..]. by subst.
Qed.

Lemma utc_day_counts t : 0 <= t ->
  utc_day t = format_day (Nat.iter (Z.to_nat (t / 86400)) next_day (1970, 1, 1)).
Proof.
  intros Ht. unfold utc_day. rewrite <- civil_counts. rewrite Z2Nat.id; [done|].
  apply Z.div_pos; lia.
Qed.

(** The day a record is booked under is the calendar's: counting one day at
    a time from 1970-01-01 with the Gregorian month lengths and leap rule, for
    every instant the type can hold. *)
Theorem utc_day_is_calendar t :
  0 <= t -> utc_day t = format_day (Nat.iter (Z.to_nat (t / 86400)) next_day (1970, 1, 1)).
Proof. apply utc_day_counts. Qed.

Lemma utc_day_is_calendar_witness :
  utc_day 951868799 = format_day (Nat.iter (Z.to_nat (951868799 / 86400)) next_day (1970, 1, 1))
  /\ utc_day 951868799 = "2000-02-29"%string /\ utc_day 951868800 = "2000-03-01"%string.
Proof. split; [apply utc_day_is_calendar; lia | split; reflexivity]. Defined.

(** Two instants get the same day label exactly when they lie in the same
    24 hours since the epoch: no two days share a bucket. *)
Theorem utc_day_same a b : 0 <= a -> 0 <= b -> utc_day a = utc_day b <-> a / 86400 = b / 86400.
Proof.
  intros Ha Hb. split; [|unfold utc_day; by intros ->].
  rewrite !utc_day_counts by done. intros H.
  apply format_day_inj in H; [|apply iter_next_valid..]. apply iter_next_inj in H.
  pose proof (Z.div_pos a 86400). pose proof (Z.div_pos b 86400). lia.
Qed.

Lemma utc_day_same_witness : utc_day 0 = utc_day 86399 <-> 0 / 86400 = 86399 / 86400.
Proof. apply utc_day_same; lia. Defined.
