(* ===== verification/Engine.v ===== *)
(** * The ledger engine

    [crates/buzz-core/src/ledger/engine.rs]: folding usage records, prices,
    rules, corrections and budgets into a report. [compute_ledger] is cut
    along its own numbered steps; the RFC 3339 parser is a parameter. *)

From Stdlib Require Import ZArith Lia Ascii.
From stdpp Require Import base list gmap strings numbers sorting.
From S2P Require Import Prelude MachineInt RustStr Json Company Usage Conditions Prices.
From S2P Require Import Attribution Calendar.
Local Open Scope Z_scope.

Record StoredUsageRecord := {
  event_id : string;
  created_at : Z;
  payload : UsageRecordPayload;
}.
#[export] Instance StoredUsageRecord_eq_dec : EqDecision StoredUsageRecord.
Proof. solve_decision. Defined.

Inductive AttributionMethod :=
| MethodExplicit
| MethodRule (id : string)
| MethodCorrection (id : string)
| MethodNeedsReview.
#[export] Instance AttributionMethod_eq_dec : EqDecision AttributionMethod.
Proof. solve_decision. Defined.

Inductive MissingSide := SideLedger | SideProviderReport.
#[export] Instance MissingSide_eq_dec : EqDecision MissingSide.
Proof. solve_decision. Defined.

Inductive LedgerException :=
| DuplicateConflict (key kept_event_id dropped_event_id : string)
| UnpricedModel (event_id model : string)
| BadTimestamp (event_id timestamp : string)
| ReconcileDrift (provider day : string) (ledger_nanousd provider_nanousd : Z)
| ReconcileMissingDay (provider day : string) (side : MissingSide).
#[export] Instance LedgerException_eq_dec : EqDecision LedgerException.
Proof. solve_decision. Defined.

Record LedgerEntry := {
  entry_event_id : string;
  entry_day : string;
  entry_provider : string;
  entry_source : UsageSource;
  entry_record_model : option string;
  entry_payment_mode : PaymentMode;
  cost_nanousd : option Z;
  price_basis : option PriceBasis;
  original_classification : CostClassification;
  effective_classification : CostClassification;
  effective_assignment : option RuleAssignment;
  attributed_by : AttributionMethod;
}.

Record ClassTotals := { cogs : Z; opex : Z; needs_review : Z }.
Record DailySum := { sum_provider : string; sum_day : string; metered_sum : Z }.
Record BudgetStatus := {
  status_cost_centre_id : string;
  status_period : string;
  status_budget_nanousd : Z;
  actual_nanousd : Z;
}.

Record LedgerReport := {
  entries : list LedgerEntry;
  totals : ClassTotals;
  metered_nanousd : Z;
  imputed_nanousd : Z;
  by_cost_centre : list (string * Z);
  by_day : list DailySum;
  budget_status : list BudgetStatus;
  exceptions : list LedgerException;
}.

Definition NEEDS_REVIEW_COST_CENTRE : string := "needs-review".

(** Step 1: the order of [sort_by] on [(created_at, event_id)]. *)
Definition record_leb (a b : StoredUsageRecord) : bool :=
  kleb (created_at a, event_id a) (created_at b, event_id b).

(** [dedupe_key]. *)
Definition dedupe_key (record : StoredUsageRecord) : string :=
  match source (payload record) with
  | Wire | AdapterEstimate =>
      (provider (payload record) +:+ String ":" (request_id (payload record)))%string
  | Manual => event_id record
  end.

(** Step 2: the loop over the ordered records; returns what it counts and the
    exceptions it raises. *)
Fixpoint dedupe (ordered : list StoredUsageRecord) (seen : gmap string StoredUsageRecord)
    : list StoredUsageRecord * list LedgerException :=
  match ordered with
  | [] => ([], [])
  | record :: rest =>
      let key := dedupe_key record in
      match seen !! key with
      | None =>
          let '(counted, exs) := dedupe rest (<[key := record]> seen) in (record :: counted, exs)
      | Some kept =>
          let '(counted, exs) := dedupe rest seen in
          if bool_decide (payload kept <> payload record)
          then (counted, DuplicateConflict key (event_id kept) (event_id record) :: exs)
          else (counted, exs)
      end
  end.

(** Step 5's index: the last correction per record. *)
Definition latest_correction (corrections : CorrectionBook) : gmap string Correction :=
  foldl (fun m c => <[usage_record_event_id c := c]> m) ∅ corrections.

(** Step 4. *)
Definition attribute (rules : Rulebook) (p : UsageRecordPayload)
    : CostClassification * option RuleAssignment * AttributionMethod :=
  match work_context p with
  | Some context =>
      (classify_cost (commercial_purpose context) (client_organization_id context),
       Some {| assign_cost_centre_id := cost_centre_id context;
               assign_owning_team_id := owning_team_id context;
               assign_commercial_purpose := commercial_purpose context;
               assign_client_organization_id := client_organization_id context;
               assign_task_id := Some (task_id context) |},
       MethodExplicit)
  | None =>
      match best_match rules p with
      | Some rule =>
          (classify_cost (assign_commercial_purpose (rule_assign rule))
             (assign_client_organization_id (rule_assign rule)),
           Some (rule_assign rule), MethodRule (rule_id rule))
      | None => (ClassNeedsReview, None, MethodNeedsReview)
      end
  end.

(** Step 5 on one attribution. *)
Definition correct (c : option Correction) (a : CostClassification * option RuleAssignment * AttributionMethod)
    : CostClassification * option RuleAssignment * AttributionMethod :=
  match c with
  | Some c =>
      (classify_cost (assign_commercial_purpose (correction_assign c))
         (assign_client_organization_id (correction_assign c)),
       Some (correction_assign c), MethodCorrection (correction_id c))
  | None => a
  end.

Section Engine.
Context (rfc3339 : string -> option Z).

(** [parse_rfc3339]: [u64::try_from] refuses instants before the epoch. *)
Definition parse_rfc3339 (ts : string) : option Z :=
  match rfc3339 ts with
  | Some t => if (0 <=? t) && (t <=? u64_max) then Some t else None
  | None => None
  end.

(** [utc_day_for]. *)
Definition utc_day_for (record : StoredUsageRecord) : string :=
  utc_day (default (created_at record) (parse_rfc3339 (timestamp (payload record)))).

(** Step 3, the pricing instant: what the timestamp says, else [created_at]
    and an exception. *)
Definition pricing_instant (record : StoredUsageRecord) : Z * list LedgerException :=
  match parse_rfc3339 (timestamp (payload record)) with
  | Some seconds => (seconds, [])
  | None => (created_at record, [BadTimestamp (event_id record) (timestamp (payload record))])
  end.

(** Step 3, the cost and its basis. *)
Definition price_record (prices : PriceBook) (record : StoredUsageRecord) (instant : Z)
    : option Z * option PriceBasis * list LedgerException :=
  let p := payload record in
  match tokens p, amount_nanousd p with
  | Some t, _ =>
      match observed_cost_nanousd p with
      | Some observed => (Some observed, Some BasisObserved, [])
      | None =>
          let m := default EmptyString (model p) in
          let facts := {| fact_input_tokens := total_input_tokens t; at_unix := instant;
                          fact_provider := Some (provider p); fact_tier := None |} in
          match price_facts prices m t facts with
          | Some priced => (Some (priced_nanousd priced), Some (basis priced), [])
          | None => (None, None, [UnpricedModel (event_id record) m])
          end
      end
  | None, Some amount => (Some amount, None, [])
  | None, None => (None, None, [])
  end.

(** The body of the loop over the counted records. *)
Definition book_record (prices : PriceBook) (rules : Rulebook) (latest : gmap string Correction)
    (record : StoredUsageRecord) : LedgerEntry * list LedgerException :=
  let p := payload record in
  let '(instant, ts_exs) := pricing_instant record in
  let '(cost, pbasis, price_exs) := price_record prices record instant in
  let attribution := attribute rules p in
  let '(classification, assignment, method) := correct (latest !! event_id record) attribution in
  ({| entry_event_id := event_id record;
      entry_day := utc_day instant;
      entry_provider := provider p;
      entry_source := source p;
      entry_record_model := model p;
      entry_payment_mode := payment_mode p;
      cost_nanousd := cost;
      price_basis := pbasis;
      original_classification := fst (fst attribution);
      effective_classification := if is_some cost then classification else ClassNeedsReview;
      effective_assignment := assignment;
      attributed_by := method |},
   ts_exs ++ price_exs).

(** Step 6's accumulators. *)
Record Aggregates := {
  agg_totals : ClassTotals;
  agg_metered : Z;
  agg_imputed : Z;
  agg_by_cost_centre : list (string * Z);
  agg_by_day : list ((string * string) * Z);
  agg_by_centre_period : list ((string * string) * Z);
}.

Definition no_aggregates : Aggregates := {|
  agg_totals := {| cogs := 0; opex := 0; needs_review := 0 |};
  agg_metered := 0; agg_imputed := 0;
  agg_by_cost_centre := []; agg_by_day := []; agg_by_centre_period := [] |}.

(** The cost centre of an entry, [needs-review] when none was established. *)
Definition centre_of (e : LedgerEntry) : string :=
  match effective_assignment e with
  | Some a => assign_cost_centre_id a
  | None => NEEDS_REVIEW_COST_CENTRE
  end.

(** [entry.day.get(..7).unwrap_or(&entry.day)]: days are ASCII, so seven bytes
    are a character boundary. *)
Definition period_of (e : LedgerEntry) : string :=
  if 7 <=? str_len (entry_day e) then String.substring 0 7 (entry_day e) else entry_day e.

Definition day_key (e : LedgerEntry) : string * string := (entry_provider e, entry_day e).
Definition period_key (e : LedgerEntry) : string * string := (centre_of e, period_of e).

Definition add_class (c : CostClassification) (cost : Z) (t : ClassTotals) : ClassTotals :=
  match c with
  | Cogs => {| cogs := add128 (cogs t) cost; opex := opex t; needs_review := needs_review t |}
  | Opex => {| cogs := cogs t; opex := add128 (opex t) cost; needs_review := needs_review t |}
  | ClassNeedsReview =>
      {| cogs := cogs t; opex := opex t; needs_review := add128 (needs_review t) cost |}
  end.

Definition is_metered (e : LedgerEntry) : bool := bool_decide (entry_payment_mode e = Metered).

(** The body of step 6's loop. *)
Definition agg_step (agg : Aggregates) (e : LedgerEntry) : Aggregates :=
  match cost_nanousd e with
  | None => agg
  | Some cost =>
      let plus v := add128 v cost in {|
      agg_totals := add_class (effective_classification e) cost (agg_totals agg);
      agg_metered := if is_metered e then plus (agg_metered agg) else agg_metered agg;
      agg_imputed := if is_metered e then agg_imputed agg else plus (agg_imputed agg);
      agg_by_cost_centre := bt_update (centre_of e) 0 plus (agg_by_cost_centre agg);
      agg_by_day := if is_metered e then bt_update (day_key e) 0 plus (agg_by_day agg)
                    else agg_by_day agg;
      agg_by_centre_period := bt_update (period_key e) 0 plus (agg_by_centre_period agg) |}
  end.

Definition aggregate (es : list LedgerEntry) : Aggregates := foldl agg_step no_aggregates es.

(** [compute_ledger]. *)
Definition compute_ledger (records : list StoredUsageRecord) (prices : PriceBook) (rules : Rulebook)
    (corrections : CorrectionBook) (budgets : list Budget) : LedgerReport :=
  let ordered := sort_by record_leb records in
  let '(counted, dup_exs) := dedupe ordered ∅ in
  let latest := latest_correction corrections in
  let booked := book_record prices rules latest <$> counted in
  let es := fst <$> booked in
  let agg := aggregate es in {|
  entries := es;
  totals := agg_totals agg;
  metered_nanousd := agg_metered agg;
  imputed_nanousd := agg_imputed agg;
  by_cost_centre := agg_by_cost_centre agg;
  by_day := (fun p => {| sum_provider := fst (fst p); sum_day := snd (fst p); metered_sum := snd p |})
              <$> agg_by_day agg;
  budget_status := (fun b => {|
      status_cost_centre_id := budget_cost_centre_id b;
      status_period := budget_period b;
      status_budget_nanousd := budget_amount_nanousd b;
      actual_nanousd :=
        default 0 (bt_get (budget_cost_centre_id b, budget_period b) (agg_by_centre_period agg)) |})
    <$> budgets;
  exceptions := dup_exs ++ mjoin (snd <$> booked) |}.
End Engine.
