(* ===== verification/EngineFacts.v ===== *)
(** * What a ledger report promises

    Theorems on [Engine.compute_ledger]: order independence, deduplication,
    conservation of money, the effect of corrections, and that no cost is
    silently zero. *)

From Stdlib Require Import ZArith Lia Ascii.
From stdpp Require Import base list gmap strings numbers sorting.
From S2P Require Import Prelude MachineInt RustStr Json Company Usage Conditions Prices.
From S2P Require Import Attribution Calendar Engine.
Local Open Scope Z_scope.

(** ** Deduplication *)

(** The record counted under key [k]: one already seen, else the first of [l]. *)
Definition kept_for (seen : gmap string StoredUsageRecord) (l : list StoredUsageRecord) (k : string)
    : option StoredUsageRecord :=
  match seen !! k with
  | Some r => Some r
  | None => head (List.filter (fun r => bool_decide (dedupe_key r = k)) l)
  end.

(** The exception a record raises against the one kept for its key. *)
Definition conflict_with (kept : option StoredUsageRecord) (d : StoredUsageRecord)
    : option LedgerException :=
  match kept with
  | Some r =>
      if bool_decide (payload r <> payload d)
      then Some (DuplicateConflict (dedupe_key d) (event_id r) (event_id d)) else None
  | None => None
  end.

Lemma kept_for_insert seen r rest k :
  seen !! dedupe_key r = None ->
  kept_for (<[dedupe_key r := r]> seen) rest k = kept_for seen (r :: rest) k.
Proof.
  intros Hs. unfold kept_for. cbn [List.filter].
  destruct (decide (dedupe_key r = k)) as [<-|Hne].
  - rewrite lookup_insert_eq, Hs. by rewrite bool_decide_true.
  - rewrite lookup_insert_ne by done. by rewrite bool_decide_false.
Qed.

Lemma kept_for_skip seen r rest k :
  is_Some (seen !! dedupe_key r) -> kept_for seen (r :: rest) k = kept_for seen rest k.
Proof.
  intros [x Hx]. unfold kept_for. cbn [List.filter].
  destruct (decide (dedupe_key r = k)) as [<-|Hne]; [by rewrite Hx|].
  by rewrite bool_decide_false.
Qed.

Lemma dedupe_exceptions l seen :
  snd (dedupe l seen) = filter_map (fun d => conflict_with (kept_for seen l (dedupe_key d)) d) l.
Proof.
  revert seen. induction l as [|r l IH]; intros seen; [done|]. cbn [dedupe filter_map].
  destruct (seen !! dedupe_key r) as [kept|] eqn:Hs.
  - specialize (IH seen). destruct (dedupe l seen) as [counted exs]. cbn in IH.
    assert (filter_map (fun d => conflict_with (kept_for seen (r :: l) (dedupe_key d)) d) l = exs) as Hl.
    { rewrite IH. apply filter_map_ext. intros d _. by rewrite kept_for_skip by eauto. }
    rewrite Hl.
    assert (kept_for seen (r :: l) (dedupe_key r) = Some kept) as -> by (unfold kept_for; by rewrite Hs).
    unfold conflict_with. by case_bool_decide.
  - specialize (IH (<[dedupe_key r := r]> seen)).
    destruct (dedupe l (<[dedupe_key r := r]> seen)) as [counted exs]. cbn in IH. cbn [snd].
    assert (filter_map (fun d => conflict_with (kept_for seen (r :: l) (dedupe_key d)) d) l = exs) as Hl.
    { rewrite IH. apply filter_map_ext. intros d _. by rewrite kept_for_insert. }
    rewrite Hl.
    assert (kept_for seen (r :: l) (dedupe_key r) = Some r) as ->.
    { unfold kept_for. rewrite Hs. cbn. by rewrite bool_decide_true. }
    unfold conflict_with. by rewrite bool_decide_false by (intros H; by apply H).
Qed.

Lemma dedupe_counted l seen r :
  r ∈ fst (dedupe l seen) <-> seen !! dedupe_key r = None /\ kept_for seen l (dedupe_key r) = Some r.
Proof.
  revert seen. induction l as [|x l IH]; intros seen; cbn [dedupe].
  - unfold kept_for. cbn. split; [by intros ?%not_elem_of_nil|]. intros [-> ?]. done.
  - destruct (seen !! dedupe_key x) as [kept|] eqn:Hs.
    + specialize (IH seen). destruct (dedupe l seen) as [counted exs].
      assert (r ∈ counted <-> seen !! dedupe_key r = None /\ kept_for seen (x :: l) (dedupe_key r) = Some r)
        as Hc by (rewrite kept_for_skip by eauto; exact IH).
      by case_bool_decide.
    + specialize (IH (<[dedupe_key x := x]> seen)).
      destruct (dedupe l (<[dedupe_key x := x]> seen)) as [counted exs]. cbn [fst] in *.
      rewrite elem_of_cons, IH, kept_for_insert by done.
      destruct (decide (dedupe_key x = dedupe_key r)) as [Heq|Hne].
      * rewrite <- Heq, lookup_insert_eq. unfold kept_for. rewrite Hs. cbn.
        rewrite bool_decide_true by done. cbn.
        split; [intros [->|[? _]]; done | intros [_ [= ->]]; by left].
      * rewrite lookup_insert_ne by done. split; [|by right].
        intros [->|?]; done.
Qed.

Lemma dedupe_nodup l seen :
  NoDup (dedupe_key <$> fst (dedupe l seen)) /\ fst (dedupe l seen) `sublist_of` l.
Proof.
  revert seen. induction l as [|x l IH]; intros seen; cbn [dedupe]; [by split; constructor|].
  destruct (seen !! dedupe_key x) as [kept|] eqn:Hs.
  - specialize (IH seen). destruct (dedupe l seen) as [counted exs]. cbn in IH.
    case_bool_decide; (split; [apply IH | apply sublist_cons, IH]).
  - pose proof (dedupe_counted l (<[dedupe_key x := x]> seen)) as Hc.
    specialize (IH (<[dedupe_key x := x]> seen)).
    destruct (dedupe l (<[dedupe_key x := x]> seen)) as [counted exs]. cbn [fst] in *.
    split; [|apply sublist_skip, IH]. rewrite fmap_cons. constructor; [|apply IH].
    intros (y & Hy & Hin)%list_elem_of_fmap. apply Hc in Hin as [Hn _].
    by rewrite <- Hy, lookup_insert_eq in Hn.
Qed.

(** Deduplication counts each key once: of the records sorted by
    [(created_at, event_id)], exactly the first of each key, in order; and it
    raises one [DuplicateConflict] for exactly the records that disagree with
    the one kept for their key, naming both. *)
Theorem dedupe_spec l :
  NoDup (dedupe_key <$> fst (dedupe l ∅))
  /\ fst (dedupe l ∅) `sublist_of` l
  /\ (forall r, r ∈ fst (dedupe l ∅) <-> kept_for ∅ l (dedupe_key r) = Some r)
  /\ (forall r, r ∈ l -> exists kept, kept ∈ fst (dedupe l ∅) /\ dedupe_key kept = dedupe_key r)
  /\ snd (dedupe l ∅) = filter_map (fun d => conflict_with (kept_for ∅ l (dedupe_key d)) d) l.
Proof.
  split_and!; [apply dedupe_nodup|apply dedupe_nodup| | |apply dedupe_exceptions].
  - intros r. rewrite dedupe_counted, lookup_empty. naive_solver.
  - intros r Hr. destruct (head (List.filter (fun x => bool_decide (dedupe_key x = dedupe_key r)) l))
      as [kept|] eqn:Hk.
    + assert (kept ∈ List.filter (fun x => bool_decide (dedupe_key x = dedupe_key r)) l) as Hin
        by (apply list_elem_of_In; destruct (List.filter _ l); simplify_eq/=; by left).
      apply elem_of_filterb in Hin as [_ Hkey%bool_decide_eq_true]. exists kept. split; [|done].
      rewrite dedupe_counted, lookup_empty. split; [done|]. unfold kept_for.
      by rewrite lookup_empty, Hkey.
    + assert (r ∈ List.filter (fun x => bool_decide (dedupe_key x = dedupe_key r)) l) as Hin
        by (apply elem_of_filterb; split; [done | by apply bool_decide_eq_true]).
      destruct (List.filter _ l); [by apply not_elem_of_nil in Hin | done].
Qed.

(** ** The order of records does not matter *)

Lemma record_leb_total a b : record_leb a b = true \/ record_leb b a = true.
Proof. apply kleb_total. Qed.

Lemma record_leb_trans a b c : record_leb a b = true -> record_leb b c = true -> record_leb a c = true.
Proof. apply kleb_trans. Qed.

Lemma record_leb_anti a b :
  record_leb a b = true -> record_leb b a = true -> (created_at a, event_id a) = (created_at b, event_id b).
Proof. apply kleb_anti. Qed.

(** C1. The report does not depend on the order records arrive in, as long as
    a record's creation time and event id name it. *)
Theorem compute_ledger_order_independent rfc3339 records records' prices rules corrections budgets :
  (forall x y, x ∈ records -> y ∈ records ->
     (created_at x, event_id x) = (created_at y, event_id y) -> x = y) ->
  records ≡ₚ records' ->
  compute_ledger rfc3339 records prices rules corrections budgets
  = compute_ledger rfc3339 records' prices rules corrections budgets.
Proof.
  intros Hid Hperm. unfold compute_ledger.
  rewrite (sort_by_unique record_leb record_leb_total record_leb_trans records records'); [done| |done].
  intros x y Hx Hy H1 H2. apply Hid; [done|done|]. by apply record_leb_anti.
Qed.

(** ** Republishing *)

Lemma insert_sorted_splits (x : StoredUsageRecord) l :
  StronglySorted record_leb l ->
  exists l1 l2, l = l1 ++ l2 /\ insert_sorted record_leb x l = l1 ++ x :: l2
    /\ forall y, y ∈ l -> record_leb x y = false -> y ∈ l1.
Proof.
  induction l as [|z l IH]; intros Hs; cbn.
  - exists [], []. split_and!; [done|done|]. by intros y ?%not_elem_of_nil.
  - inversion Hs as [|? ? Hs' Hz]; subst. destruct (record_leb x z) eqn:Hxz.
    + exists [], (z :: l). split_and!; [done|done|]. intros y [->|Hy]%elem_of_cons Hxy; [congruence|].
      rewrite Forall_elem in Hz. specialize (Hz y Hy). apply Is_true_true in Hz.
      by rewrite (record_leb_trans x z y) in Hxy.
    + destruct (IH Hs') as (l1 & l2 & -> & Hins & Hin). exists (z :: l1), l2.
      split_and!; [done | by rewrite Hins |]. intros y [->|Hy]%elem_of_cons Hxy; [by left|].
      right. by apply Hin.
Qed.

(** A record whose key is already counted with the same content leaves no trace. *)
Lemma dedupe_drops l1 l2 seen d kept :
  kept_for seen l1 (dedupe_key d) = Some kept -> payload kept = payload d ->
  dedupe (l1 ++ d :: l2) seen = dedupe (l1 ++ l2) seen.
Proof.
  revert seen. induction l1 as [|r l1 IH]; intros seen Hk Hp; cbn [app dedupe].
  - unfold kept_for in Hk. cbn in Hk. destruct (seen !! dedupe_key d) as [k|]; simplify_eq.
    destruct (dedupe l2 seen) as [counted exs]. by rewrite bool_decide_false by (intros H; by apply H).
  - destruct (seen !! dedupe_key r) as [kr|] eqn:Hs.
    + rewrite IH; [done| |done]. by rewrite <- (kept_for_skip seen r) by eauto.
    + rewrite IH; [done| |done]. by rewrite kept_for_insert.
Qed.

Lemma kept_for_prefix l1 l2 r :
  kept_for ∅ (l1 ++ l2) (dedupe_key r) = Some r -> r ∈ l1 -> kept_for ∅ l1 (dedupe_key r) = Some r.
Proof.
  unfold kept_for. rewrite lookup_empty, List.filter_app. intros Hh Hin.
  assert (r ∈ List.filter (fun x => bool_decide (dedupe_key x = dedupe_key r)) l1) as Hf
    by (apply elem_of_filterb; split; [done | by apply bool_decide_eq_true]).
  destruct (List.filter _ l1) as [|y fl]; [by apply not_elem_of_nil in Hf | done].
Qed.

(** A republished record changes nothing: an input with the same key and
    content as a counted record, ordered after it, leaves the whole report,
    exceptions included, as it was. *)
Theorem republish_is_free rfc3339 records prices rules corrections budgets r d :
  r ∈ fst (dedupe (sort_by record_leb records) ∅) ->
  dedupe_key d = dedupe_key r -> payload d = payload r -> record_leb d r = false ->
  compute_ledger rfc3339 (d :: records) prices rules corrections budgets
  = compute_ledger rfc3339 records prices rules corrections budgets.
Proof.
  intros Hr Hkey Hp Hle. unfold compute_ledger.
  change (sort_by record_leb (d :: records))
    with (insert_sorted record_leb d (sort_by record_leb records)).
  apply dedupe_counted in Hr as Hkept. destruct Hkept as [_ Hkept].
  assert (r ∈ sort_by record_leb records) as Hin.
  { destruct (dedupe_nodup (sort_by record_leb records) ∅) as [_ Hsub].
    eapply sublist_submseteq, elem_of_submseteq in Hsub; [exact Hsub | exact Hr]. }
  destruct (insert_sorted_splits d (sort_by record_leb records)) as (l1 & l2 & Hl & -> & Hbefore).
  { apply (sort_by_sorted record_leb record_leb_total record_leb_trans). }
  specialize (Hbefore r Hin Hle). rewrite Hl in Hkept |- *.
  rewrite (dedupe_drops l1 l2 ∅ d r); [done| |done].
  rewrite Hkey. by eapply kept_for_prefix.
Qed.

(** ** What keys tell apart *)

(** Two wire records share a dedupe key exactly when they name the same
    request of the same provider, provided the provider slug has no colon;
    and no manual record shares one with a wire record. *)
Theorem dedupe_key_identifies r1 r2 :
  str_contains ":" (provider (payload r1)) = false ->
  str_contains ":" (provider (payload r2)) = false ->
  str_contains ":" (event_id r1) = false ->
  source (payload r2) <> Manual ->
  dedupe_key r1 = dedupe_key r2 <->
  source (payload r1) <> Manual
  /\ provider (payload r1) = provider (payload r2) /\ request_id (payload r1) = request_id (payload r2).
Proof.
  intros H1 H2 He Hw. unfold dedupe_key. destruct (source (payload r2)) eqn:Hs2; [| |done].
  all: destruct (source (payload r1)) eqn:Hs1; split; try (intros (? & Hp & Hq); by rewrite ?Hp, ?Hq).
  all: try (intros H; apply joined_key_inj in H as [? ?]; [split_and!; done | done | done]).
  all: intros H; rewrite H, str_contains_app in He; cbn in He; by rewrite orb_true_r in He.
Qed.

(** ** Conservation of money *)

(** What an entry adds to the totals: its cost, nothing when unpriced. *)
Definition entry_cost (e : LedgerEntry) : Z := default 0 (cost_nanousd e).

(** Spend of the entries satisfying [p]. *)
Definition spend (p : LedgerEntry -> bool) (es : list LedgerEntry) : Z :=
  zsum (fun e => if p e then entry_cost e else 0) es.

Definition in_class (c : CostClassification) (e : LedgerEntry) : bool :=
  bool_decide (effective_classification e = c).
Definition is_imputed (e : LedgerEntry) : bool := negb (is_metered e).
Definition in_centre (k : string) (e : LedgerEntry) : bool := bool_decide (centre_of e = k).
Definition in_period (k : string * string) (e : LedgerEntry) : bool := bool_decide (period_key e = k).
Definition metered_on (k : string * string) (e : LedgerEntry) : bool :=
  is_metered e && bool_decide (day_key e = k).
Definition priced (e : LedgerEntry) : bool := is_some (cost_nanousd e).

Lemma spend_snoc p es e : spend p (es ++ [e]) = spend p es + (if p e then entry_cost e else 0).
Proof. unfold spend. rewrite zsum_app. cbn. lia. Qed.

Lemma add128_wrap x y : add128 (wrap128 x) y = wrap128 (x + y).
Proof. apply wrap128_add_l. Qed.

Lemma aggregate_snoc es e : aggregate (es ++ [e]) = agg_step (aggregate es) e.
Proof. unfold aggregate. by rewrite foldl_app. Qed.

Lemma spend_snoc_unpriced p es e : cost_nanousd e = None -> spend p (es ++ [e]) = spend p es.
Proof. intros He. rewrite spend_snoc. unfold entry_cost. rewrite He. cbn. destruct (p e); lia. Qed.

Lemma spend_snoc_in p es e c :
  cost_nanousd e = Some c -> p e = true -> wrap128 (spend p (es ++ [e])) = add128 (wrap128 (spend p es)) c.
Proof. intros He Hp. rewrite add128_wrap, spend_snoc, Hp. unfold entry_cost. by rewrite He. Qed.

Lemma spend_snoc_out p es e : p e = false -> spend p (es ++ [e]) = spend p es.
Proof. intros Hp. rewrite spend_snoc, Hp. lia. Qed.

Lemma spend_nobody p es : existsb (fun e => priced e && p e) es = false -> spend p es = 0.
Proof.
  unfold spend. induction es as [|x es IH]; [done|]. cbn. intros [Hx Hex]%orb_false_iff.
  unfold zsum in IH. rewrite (IH Hex). destruct (p x); [|done].
  unfold entry_cost, priced in *. by destruct (cost_nanousd x).
Qed.

Lemma spend_mono p q es :
  Forall (fun e => 0 <= entry_cost e) es -> (forall e, p e = true -> q e = true) ->
  0 <= spend p es <= spend q es.
Proof.
  intros Hc Hpq. unfold spend. induction Hc as [|e es He Hc IH]; cbn; [lia|]. unfold zsum in IH.
  specialize (Hpq e). destruct (p e), (q e); lia || (exfalso; by discriminate Hpq).
Qed.

Lemma spend_all es : spend (fun _ => true) es = zsum entry_cost es.
Proof. reflexivity. Qed.

(** Entries whose total fits the type the engine sums in. *)
Definition summable (es : list LedgerEntry) : Prop :=
  Forall (fun e => 0 <= entry_cost e) es /\ zsum entry_cost es < u128_modulus.

Lemma summable_wrap p es : summable es -> wrap128 (spend p es) = spend p es.
Proof.
  intros [Hc Ht]. apply wrap128_small. rewrite <- spend_all in Ht.
  pose proof (spend_mono p (fun _ => true) es Hc ltac:(done)). unfold in_u128. lia.
Qed.

Lemma summable_prefix es e : summable (es ++ [e]) -> summable es /\ 0 <= entry_cost e.
Proof.
  intros [Hc Ht]. apply Forall_app in Hc as [Hc He]. apply Forall_cons_1 in He as [He _].
  rewrite zsum_app in Ht. cbn in Ht. split; [split; [done|lia]|done].
Qed.

(** The running totals are the wrapped sums of what they count. *)
Lemma aggregate_totals es :
  agg_totals (aggregate es) =
    {| cogs := wrap128 (spend (in_class Cogs) es); opex := wrap128 (spend (in_class Opex) es);
       needs_review := wrap128 (spend (in_class ClassNeedsReview) es) |}
  /\ agg_metered (aggregate es) = wrap128 (spend is_metered es)
  /\ agg_imputed (aggregate es) = wrap128 (spend is_imputed es).
Proof.
  induction es as [|e es IH] using rev_ind; [done|]. rewrite aggregate_snoc. unfold agg_step.
  destruct (cost_nanousd e) as [c|] eqn:He; [|by rewrite !spend_snoc_unpriced by done].
  destruct IH as (Ht & Hm & Hi). cbn [agg_totals agg_metered agg_imputed]. rewrite Ht, Hm, Hi.
  split_and!.
  - destruct (effective_classification e) eqn:Hc; cbn; f_equal.
    all: first [ symmetry; apply spend_snoc_in; [done | unfold in_class; by rewrite Hc]
               | f_equal; symmetry; apply spend_snoc_out; unfold in_class; by rewrite Hc ].
  - destruct (is_metered e) eqn:Hp.
    + symmetry. by apply spend_snoc_in.
    + by rewrite spend_snoc_out.
  - destruct (is_metered e) eqn:Hp.
    + rewrite spend_snoc_out; [done|]. unfold is_imputed. by rewrite Hp.
    + symmetry. apply spend_snoc_in; [done|]. unfold is_imputed. by rewrite Hp.
Qed.

(** A map of totals: each key has the wrapped spend of its entries, and no key
    without a priced entry appears. *)
Section KeyedTotals.
Context {K : Type} `{OrdKey K, EqDecision K} (key : LedgerEntry -> K) (counts : LedgerEntry -> bool).

Definition add_entry (m : list (K * Z)) (e : LedgerEntry) : list (K * Z) :=
  match cost_nanousd e with
  | Some c => if counts e then bt_update (key e) 0 (fun v => add128 v c) m else m
  | None => m
  end.

Definition keyed (es : list LedgerEntry) : list (K * Z) := foldl add_entry [] es.

Definition with_key (k : K) (e : LedgerEntry) : bool := counts e && bool_decide (key e = k).

Lemma keyed_snoc es e : keyed (es ++ [e]) = add_entry (keyed es) e.
Proof. unfold keyed. by rewrite foldl_app. Qed.

Lemma keyed_wf es : bt_wf (keyed es).
Proof.
  induction es as [|e es IH] using rev_ind; [constructor|]. rewrite keyed_snoc. unfold add_entry.
  destruct (cost_nanousd e); [|done]. destruct (counts e); [by apply bt_update_wf | done].
Qed.

Lemma keyed_get es k :
  bt_get k (keyed es) =
  if existsb (fun e => priced e && with_key k e) es then Some (wrap128 (spend (with_key k) es)) else None.
Proof.
  induction es as [|e es IH] using rev_ind; [done|]. rewrite keyed_snoc, existsb_app. unfold add_entry.
  cbn [existsb]. rewrite orb_false_r. unfold priced at 2.
  destruct (cost_nanousd e) as [c|] eqn:He; cbn [is_some andb].
  2:{ rewrite orb_false_r, spend_snoc_unpriced by done. exact IH. }
  destruct (counts e) eqn:Hc.
  2:{ assert (with_key k e = false) as Hw by (unfold with_key; by rewrite Hc).
      rewrite Hw, orb_false_r, spend_snoc_out by done. exact IH. }
  destruct (decide (key e = k)) as [<-|Hne].
  - assert (with_key (key e) e = true) as Hw
      by (unfold with_key; rewrite Hc; by apply bool_decide_eq_true).
    rewrite Hw, orb_true_r, bt_get_update_eq, IH, (spend_snoc_in _ es e c He Hw). f_equal.
    destruct (existsb _ es) eqn:Hex; [done|]. cbn. by rewrite (spend_nobody _ _ Hex).
  - assert (with_key k e = false) as Hw
      by (unfold with_key; rewrite Hc; by apply bool_decide_eq_false).
    rewrite Hw, orb_false_r, spend_snoc_out by done.
    rewrite bt_get_update_ne; [exact IH | apply keyed_wf | done].
Qed.

Lemma keyed_sum es : wrap128 (bt_sum (keyed es)) = wrap128 (spend counts es).
Proof.
  induction es as [|e es IH] using rev_ind; [done|]. rewrite keyed_snoc. unfold add_entry.
  destruct (cost_nanousd e) as [c|] eqn:He; [|by rewrite spend_snoc_unpriced].
  destruct (counts e) eqn:Hc; [|by rewrite spend_snoc_out].
  rewrite (spend_snoc_in _ es e c He Hc), bt_sum_update by apply keyed_wf. rewrite add128_wrap.
  set (g := default 0 _). unfold add128. rewrite wrap128_add_r.
  replace (bt_sum (keyed es) - g + (g + c)) with (bt_sum (keyed es) + c) by lia.
  by rewrite <- wrap128_add_l, IH, wrap128_add_l.
Qed.

Lemma keyed_get_exact es k :
  summable es -> default 0 (bt_get k (keyed es)) = spend (with_key k) es.
Proof.
  intros Hs. rewrite keyed_get. destruct (existsb _ es) eqn:Hex; cbn.
  - by apply summable_wrap.
  - by rewrite spend_nobody.
Qed.

Lemma keyed_sum_exact es : summable es -> bt_sum (keyed es) = spend counts es.
Proof.
  induction es as [|e es IH] using rev_ind; [done|]. intros Hs.
  destruct (summable_prefix _ _ Hs) as [Hs' He]. specialize (IH Hs').
  rewrite keyed_snoc, spend_snoc. unfold add_entry, entry_cost in *.
  destruct (cost_nanousd e) as [c|] eqn:Hcost; [|destruct (counts e); cbn; lia].
  destruct (counts e) eqn:Hc; [|lia]. cbn in He |- *.
  rewrite bt_sum_update, keyed_get_exact by (done || apply keyed_wf).
  rewrite add128_small; [lia| |done|].
  - apply (spend_mono _ (fun _ => true)); [apply Hs'|done].
  - destruct Hs as [_ Ht]. rewrite zsum_app in Ht. cbn in Ht. unfold entry_cost in Ht at 2.
    rewrite Hcost in Ht. cbn in Ht. rewrite <- spend_all in Ht.
    pose proof (spend_mono (with_key (key e)) (fun _ => true) es (proj1 Hs') ltac:(done)). lia.
Qed.

Lemma keyed_elem_exact es k v :
  summable es ->
  (k, v) ∈ keyed es <->
  (exists e, e ∈ es /\ priced e = true /\ with_key k e = true) /\ v = spend (with_key k) es.
Proof.
  intros Hs. rewrite bt_get_elem by apply keyed_wf. rewrite keyed_get, summable_wrap by done.
  destruct (existsb _ es) eqn:Hex.
  - apply existsb_exists in Hex as (e & Hin & [Hp Hk]%andb_true_iff). split; [|by intros [_ ->]].
    intros [= <-]. split; [|done]. exists e. by rewrite list_elem_of_In.
  - split; [done|]. intros [(e & Hin & Hp & Hk) _].
    assert (existsb (fun e => priced e && with_key k e) es = true) as Ht; [|congruence].
    apply existsb_exists. exists e. rewrite <- list_elem_of_In. by rewrite Hp, Hk.
Qed.
End KeyedTotals.

Lemma aggregate_maps es :
  agg_by_cost_centre (aggregate es) = keyed centre_of (fun _ => true) es
  /\ agg_by_day (aggregate es) = keyed day_key is_metered es
  /\ agg_by_centre_period (aggregate es) = keyed period_key (fun _ => true) es.
Proof.
  induction es as [|e es IH] using rev_ind; [done|]. rewrite aggregate_snoc, !keyed_snoc.
  destruct IH as (<- & <- & <-). unfold agg_step, add_entry. by destruct (cost_nanousd e).
Qed.

(** ** Reports in terms of their entries *)

Section Reports.
Context (rfc3339 : string -> option Z).

Definition ledger_entries (records : list StoredUsageRecord) (prices : PriceBook) (rules : Rulebook)
    (corrections : CorrectionBook) : list LedgerEntry :=
  (fun r => fst (book_record rfc3339 prices rules (latest_correction corrections) r))
    <$> fst (dedupe (sort_by record_leb records) ∅).

Lemma compute_ledger_eq records prices rules corrections budgets :
  let es := ledger_entries records prices rules corrections in
  let report := compute_ledger rfc3339 records prices rules corrections budgets in
  entries report = es
  /\ totals report = agg_totals (aggregate es)
  /\ metered_nanousd report = agg_metered (aggregate es)
  /\ imputed_nanousd report = agg_imputed (aggregate es)
  /\ by_cost_centre report = keyed centre_of (fun _ => true) es
  /\ by_day report = (fun p => {| sum_provider := fst (fst p); sum_day := snd (fst p);
                                 metered_sum := snd p |}) <$> keyed day_key is_metered es
  /\ budget_status report = (fun b => {|
       status_cost_centre_id := budget_cost_centre_id b; status_period := budget_period b;
       status_budget_nanousd := budget_amount_nanousd b;
       actual_nanousd := default 0 (bt_get (budget_cost_centre_id b, budget_period b)
                                      (keyed period_key (fun _ => true) es)) |}) <$> budgets
  /\ exceptions report = snd (dedupe (sort_by record_leb records) ∅)
       ++ mjoin ((fun r => snd (book_record rfc3339 prices rules (latest_correction corrections) r))
                   <$> fst (dedupe (sort_by record_leb records) ∅)).
Proof.
  unfold compute_ledger, ledger_entries. destruct (dedupe _ ∅) as [counted exs]. cbv zeta.
  cbn [fst snd entries totals metered_nanousd imputed_nanousd by_cost_centre by_day budget_status
       exceptions].
  rewrite <- !list_fmap_compose. unfold compose.
  destruct (aggregate_maps ((fun r => fst (book_record rfc3339 prices rules
              (latest_correction corrections) r)) <$> counted)) as (H1 & H2 & H3).
  rewrite <- H1, <- H2, <- H3. by split_and!.
Qed.

(** Amounts a record states are [u64]s. *)
Definition record_wf (r : StoredUsageRecord) : Prop :=
  (forall n, amount_nanousd (payload r) = Some n -> in_u64 n)
  /\ (forall n, observed_cost_nanousd (payload r) = Some n -> in_u64 n).

(** No entry costs more than a millionth of what [u128] holds. *)
Definition entry_cap : Z := (u128_modulus - 1) / TOKENS_PER_RATE_UNIT.

Lemma apply_rates_cap rates t : 0 <= apply_rates rates t <= entry_cap.
Proof.
  unfold apply_rates, div_round_half_up, entry_cap. set (v := add128 _ (_ / 2)).
  assert (in_u128 v) as Hv by apply wrap128_range. unfold in_u128 in Hv.
  split; [apply Z.div_pos; [lia | reflexivity] | apply Z.div_le_mono; [reflexivity | lia]].
Qed.

Lemma book_record_cap prices rules latest r :
  record_wf r -> 0 <= entry_cost (fst (book_record rfc3339 prices rules latest r)) <= entry_cap.
Proof.
  assert (forall n, in_u64 n -> 0 <= n <= entry_cap) as Hu.
  { intros n [? Hn]. split; [done|]. etransitivity; [exact Hn|]. by vm_compute. }
  intros [Ha Ho]. unfold book_record, entry_cost.
  destruct (pricing_instant rfc3339 r) as [instant exs].
  destruct (price_record prices r instant) as [[cost pb] pexs] eqn:Hp.
  destruct (correct _ _) as [[? ?] ?]. cbn. unfold price_record, price_facts in Hp.
  repeat case_match; simplify_eq/=; auto using apply_rates_cap; split; done.
Qed.

Lemma ledger_entries_summable records prices rules corrections :
  Forall record_wf records -> Z.of_nat (length records) <= 1000000 ->
  summable (ledger_entries records prices rules corrections).
Proof.
  intros Hwf Hlen. unfold ledger_entries.
  destruct (dedupe_nodup (sort_by record_leb records) ∅) as [_ Hsub].
  assert (Forall record_wf (fst (dedupe (sort_by record_leb records) ∅))) as Hwf'.
  { apply Forall_elem. intros r Hr. rewrite Forall_elem in Hwf. apply Hwf.
    rewrite <- (sort_by_perm record_leb records).
    eapply elem_of_submseteq; [exact Hr | by apply sublist_submseteq]. }
  apply sublist_length in Hsub. rewrite (Permutation_length (sort_by_perm record_leb records)) in Hsub.
  rewrite Forall_elem in Hwf'.
  assert (forall r, r ∈ fst (dedupe (sort_by record_leb records) ∅) ->
    0 <= entry_cost (fst (book_record rfc3339 prices rules (latest_correction corrections) r))
      <= entry_cap) as Hcap by (intros r Hr; by apply book_record_cap, Hwf').
  split.
  - apply Forall_elem. intros e (r & -> & Hr)%list_elem_of_fmap. by apply Hcap.
  - rewrite zsum_fmap.
    pose proof (zsum_bounds _ (fst (dedupe (sort_by record_leb records) ∅)) 0 entry_cap Hcap) as [_ Hb].
    assert (entry_cap * 1000000 < u128_modulus) by reflexivity.
    assert (0 <= entry_cap) by (by vm_compute). nia.
Qed.
End Reports.

(** C2. No money appears or disappears: for up to a million records the three
    classes, the metered/imputed split and the cost centres each add up to
    exactly the sum of the entries' costs, the provider-days add up to the
    metered part, and no sum overflows. *)
Theorem ledger_conserves rfc3339 records prices rules corrections budgets :
  Forall record_wf records -> Z.of_nat (length records) <= 1000000 ->
  let report := compute_ledger rfc3339 records prices rules corrections budgets in
  let total := zsum entry_cost (entries report) in
  cogs (totals report) + opex (totals report) + needs_review (totals report) = total
  /\ metered_nanousd report + imputed_nanousd report = total
  /\ zsum snd (by_cost_centre report) = total
  /\ zsum metered_sum (by_day report) = metered_nanousd report
  /\ 0 <= total < u128_modulus.
Proof.
  intros Hwf Hlen report total.
  destruct (compute_ledger_eq rfc3339 records prices rules corrections budgets)
    as (He & Ht & Hm & Hi & Hc & Hd & _).
  pose proof (ledger_entries_summable rfc3339 records prices rules corrections Hwf Hlen) as Hs.
  subst total. fold report in He, Ht, Hm, Hi, Hc, Hd.
  rewrite He, Ht, Hm, Hi, Hc, Hd, zsum_fmap.
  destruct (aggregate_totals (ledger_entries rfc3339 records prices rules corrections)) as (-> & -> & ->).
  cbn [cogs opex needs_review metered_sum]. rewrite !summable_wrap by done. rewrite <- spend_all.
  pose proof (keyed_sum_exact centre_of (fun _ => true) _ Hs) as Hcentres.
  pose proof (keyed_sum_exact day_key is_metered _ Hs) as Hdays.
  split_and!; try done.
  - unfold spend. rewrite <- !zsum_plus. apply zsum_ext. intros e _. unfold in_class.
    destruct (effective_classification e); repeat case_bool_decide; done || lia.
  - unfold spend. rewrite <- zsum_plus. apply zsum_ext. intros e _. unfold is_imputed.
    destruct (is_metered e); cbn; lia.
  - apply (spend_mono _ (fun _ => true)); [apply Hs | done].
  - apply Hs.
Qed.

(** Every bucket of the report is the spend of the entries it is about: a
    cost centre or provider-day is listed exactly when a priced entry falls
    in it, once, with their exact total; and a budget's actual is the spend
    of its centre in its month, zero when there is none. *)
Theorem ledger_buckets rfc3339 records prices rules corrections budgets :
  Forall record_wf records -> Z.of_nat (length records) <= 1000000 ->
  let report := compute_ledger rfc3339 records prices rules corrections budgets in
  let es := entries report in
  NoDup (fst <$> by_cost_centre report)
  /\ (forall k v, (k, v) ∈ by_cost_centre report <->
        (exists e, e ∈ es /\ priced e = true /\ centre_of e = k) /\ v = spend (in_centre k) es)
  /\ (forall d, d ∈ by_day report <->
        (exists e, e ∈ es /\ priced e = true /\ metered_on (sum_provider d, sum_day d) e = true)
        /\ metered_sum d = spend (metered_on (sum_provider d, sum_day d)) es)
  /\ Forall2 (fun b s => status_cost_centre_id s = budget_cost_centre_id b
                /\ status_period s = budget_period b /\ status_budget_nanousd s = budget_amount_nanousd b
                /\ actual_nanousd s = spend (in_period (budget_cost_centre_id b, budget_period b)) es)
       budgets (budget_status report).
Proof.
  intros Hwf Hlen report es.
  destruct (compute_ledger_eq rfc3339 records prices rules corrections budgets)
    as (He & _ & _ & _ & Hc & Hd & Hb & _).
  pose proof (ledger_entries_summable rfc3339 records prices rules corrections Hwf Hlen) as Hs.
  subst es. fold report in He, Hc, Hd, Hb. rewrite He, Hc, Hd, Hb. split_and!.
  - apply bt_wf_nodup, keyed_wf.
  - intros k v. rewrite keyed_elem_exact by done. unfold with_key. cbn.
    setoid_rewrite bool_decide_eq_true. done.
  - intros [p d m]. rewrite list_elem_of_fmap. cbn. split.
    + intros ([[p' d'] m'] & [= -> -> ->] & Hin). by apply keyed_elem_exact in Hin.
    + intros Hin. exists ((p, d), m). split; [done|]. by apply keyed_elem_exact.
  - apply Forall2_fmap_r, Forall2_same_length_lookup_2; [done|]. intros i b b' Hb1 Hb2.
    rewrite Hb1 in Hb2. injection Hb2 as <-. cbn. split_and!; [done|done|done|].
    by rewrite keyed_get_exact.
Qed.

(** ** What corrections may touch *)

(** The part of an entry that is evidence: everything but its attribution. *)
Definition evidence (e : LedgerEntry) :=
  (entry_event_id e, entry_day e, entry_provider e, entry_source e, entry_record_model e,
   entry_payment_mode e, cost_nanousd e, price_basis e, original_classification e).

Lemma evidence_aggregates es1 es2 :
  evidence <$> es1 = evidence <$> es2 ->
  agg_metered (aggregate es1) = agg_metered (aggregate es2)
  /\ agg_imputed (aggregate es1) = agg_imputed (aggregate es2)
  /\ agg_by_day (aggregate es1) = agg_by_day (aggregate es2).
Proof.
  revert es2. induction es1 as [|e1 es1 IH] using rev_ind; intros es2 Heq.
  - symmetry in Heq. by apply fmap_nil_inv in Heq as ->.
  - destruct es2 as [|e2 es2 _] using rev_ind; [by rewrite fmap_app in Heq; destruct (evidence <$> es1)|].
    rewrite !fmap_app in Heq. apply app_inj_2 in Heq as [Heq He]; [|done].
    destruct (IH es2 Heq) as (Hm & Hi & Hd). rewrite !aggregate_snoc. unfold agg_step.
    injection He as _ Hday Hprov _ _ Hmode Hcost _ _.
    rewrite Hcost. destruct (cost_nanousd e2); [|done]. cbn. unfold is_metered, day_key.
    rewrite Hmode, Hprov, Hday, Hm, Hi, Hd. done.
Qed.

(** Corrections re-attribute money, they never change it: whatever the
    correction book, every entry keeps its cost, basis, day and original
    classification, and the metered and imputed totals, the provider-days
    and the exceptions are the same. *)
Theorem corrections_keep_evidence rfc3339 records prices rules c1 c2 budgets :
  let report1 := compute_ledger rfc3339 records prices rules c1 budgets in
  let report2 := compute_ledger rfc3339 records prices rules c2 budgets in
  evidence <$> entries report1 = evidence <$> entries report2
  /\ metered_nanousd report1 = metered_nanousd report2
  /\ imputed_nanousd report1 = imputed_nanousd report2
  /\ by_day report1 = by_day report2
  /\ exceptions report1 = exceptions report2.
Proof.
  intros report1 report2.
  destruct (compute_ledger_eq rfc3339 records prices rules c1 budgets) as (H1 & _ & Hm1 & Hi1 & _ & Hd1 & _ & He1).
  destruct (compute_ledger_eq rfc3339 records prices rules c2 budgets) as (H2 & _ & Hm2 & Hi2 & _ & Hd2 & _ & He2).
  fold report1 in H1, Hm1, Hi1, Hd1, He1. fold report2 in H2, Hm2, Hi2, Hd2, He2.
  assert (forall r, evidence (fst (book_record rfc3339 prices rules (latest_correction c1) r))
      = evidence (fst (book_record rfc3339 prices rules (latest_correction c2) r))
    /\ snd (book_record rfc3339 prices rules (latest_correction c1) r)
      = snd (book_record rfc3339 prices rules (latest_correction c2) r)) as Hrec.
  { intros r. unfold book_record. destruct (pricing_instant rfc3339 r), (price_record prices r z) as [[? ?] ?].
    destruct (correct (latest_correction c1 !! _) _) as [[? ?] ?].
    destruct (correct (latest_correction c2 !! _) _) as [[? ?] ?]. done. }
  assert (evidence <$> ledger_entries rfc3339 records prices rules c1
          = evidence <$> ledger_entries rfc3339 records prices rules c2) as Hev.
  { unfold ledger_entries. rewrite <- !list_fmap_compose. apply list_fmap_ext. intros i r _. apply Hrec. }
  destruct (evidence_aggregates _ _ Hev) as (Hm & Hi & Hd).
  destruct (aggregate_maps (ledger_entries rfc3339 records prices rules c1)) as (_ & Ha1 & _).
  destruct (aggregate_maps (ledger_entries rfc3339 records prices rules c2)) as (_ & Ha2 & _).
  rewrite H1, H2, Hm1, Hm2, Hi1, Hi2, Hd1, Hd2, He1, He2, <- Ha1, <- Ha2, Hd.
  split_and!; [done|done|done|done|]. f_equal. f_equal. apply list_fmap_ext. intros i r _. apply Hrec.
Qed.

Lemma latest_correction_spec book id :
  latest_correction book !! id = last (List.filter (fun c => bool_decide (usage_record_event_id c = id)) book).
Proof.
  unfold latest_correction. induction book as [|c book IH] using rev_ind; [done|].
  rewrite foldl_app, List.filter_app, last_app. cbn.
  destruct (decide (usage_record_event_id c = id)) as [<-|Hne].
  - rewrite lookup_insert_eq. by rewrite bool_decide_true.
  - rewrite lookup_insert_ne by done. rewrite bool_decide_false by done. cbn. exact IH.
Qed.

(** The last correction naming a record decides it: its entry is assigned
    as that correction says, credited to it, and classified by it unless the
    money is unpriced, while the original classification stays what the work
    context or the rules gave. *)
Theorem last_correction_wins rfc3339 records prices rules before c after budgets e :
  (forall c', c' ∈ after -> usage_record_event_id c' <> usage_record_event_id c) ->
  e ∈ entries (compute_ledger rfc3339 records prices rules (before ++ c :: after) budgets) ->
  entry_event_id e = usage_record_event_id c ->
  effective_assignment e = Some (correction_assign c)
  /\ attributed_by e = MethodCorrection (correction_id c)
  /\ (priced e = true -> effective_classification e =
        classify_cost (assign_commercial_purpose (correction_assign c))
          (assign_client_organization_id (correction_assign c)))
  /\ exists r, r ∈ records /\ event_id r = entry_event_id e
       /\ original_classification e = fst (fst (attribute rules (payload r))).
Proof.
  intros Hafter Hin Hid.
  destruct (compute_ledger_eq rfc3339 records prices rules (before ++ c :: after) budgets) as (He & _).
  rewrite He in Hin. unfold ledger_entries in Hin. apply list_elem_of_fmap in Hin as (r & -> & Hr).
  assert (latest_correction (before ++ c :: after) !! event_id r = Some c) as Hlast.
  { assert (event_id r = usage_record_event_id c) as ->.
    { revert Hid. unfold book_record. destruct (pricing_instant rfc3339 r).
      destruct (price_record _ _ _) as [[? ?] ?]. by destruct (correct _ _) as [[? ?] ?]. }
    rewrite latest_correction_spec, List.filter_app. cbn.
    rewrite bool_decide_true, last_app by done.
    assert (List.filter (fun c' => bool_decide (usage_record_event_id c' = usage_record_event_id c)) after = [])
      as ->; [|done].
    apply filterb_nil. intros c' Hc'. apply bool_decide_eq_false. by apply Hafter. }
  assert (r ∈ records) as Hrin.
  { rewrite <- (sort_by_perm record_leb records).
    eapply elem_of_submseteq; [exact Hr | apply sublist_submseteq, dedupe_nodup]. }
  unfold book_record. rewrite Hlast. destruct (pricing_instant rfc3339 r) as [instant exs].
  destruct (price_record prices r instant) as [[cost pb] pexs]. cbn.
  split_and!; [done|done| |by exists r]. unfold priced; cbn. by intros ->.
Qed.

(** No cost is silently missing: when the records are ones the relay's
    validator accepts, every entry without a cost is under Needs Review, has
    no price basis, and its model is reported as unpriced; and only such
    entries lack a cost. *)
Theorem unpriced_is_reported rfc3339 records prices rules corrections budgets :
  Forall (fun r => validate (payload r) = Ok tt) records ->
  let report := compute_ledger rfc3339 records prices rules corrections budgets in
  forall e, e ∈ entries report ->
  (cost_nanousd e = None ->
     effective_classification e = ClassNeedsReview /\ price_basis e = None
     /\ UnpricedModel (entry_event_id e) (default EmptyString (entry_record_model e)) ∈ exceptions report)
  /\ (price_basis e = None -> cost_nanousd e = None \/ exists r n, r ∈ records
        /\ event_id r = entry_event_id e /\ amount_nanousd (payload r) = Some n /\ cost_nanousd e = Some n).
Proof.
  intros Hval report e Hin.
  destruct (compute_ledger_eq rfc3339 records prices rules corrections budgets)
    as (He & _ & _ & _ & _ & _ & _ & Hx).
  fold report in He, Hx. rewrite He in Hin. rewrite Hx. unfold ledger_entries in Hin.
  apply list_elem_of_fmap in Hin as (r & -> & Hr).
  assert (r ∈ records) as Hrin.
  { rewrite <- (sort_by_perm record_leb records).
    eapply elem_of_submseteq; [exact Hr | apply sublist_submseteq, dedupe_nodup]. }
  rewrite Forall_elem in Hval. specialize (Hval r Hrin). apply validate_ok in Hval as [_ _ Hone _ _ _ _].
  assert (forall x, x ∈ snd (book_record rfc3339 prices rules (latest_correction corrections) r) ->
    x ∈ snd (dedupe (sort_by record_leb records) ∅) ++ mjoin ((fun r => snd (book_record rfc3339 prices
          rules (latest_correction corrections) r)) <$> fst (dedupe (sort_by record_leb records) ∅))) as Hex.
  { intros x Hx'. apply elem_of_app. right. apply list_elem_of_join. eexists. split; [exact Hx'|].
    apply list_elem_of_fmap. by exists r. }
  unfold book_record in *. destruct (pricing_instant rfc3339 r) as [instant exs].
  destruct (correct _ _) as [[cls asg] mth].
  unfold price_record in *. destruct (tokens (payload r)) as [t|] eqn:Et.
  - destruct (observed_cost_nanousd (payload r)) as [o|] eqn:Eo; [done|].
    destruct (price_facts prices _ t _) as [pc|] eqn:Ef; [done|]. cbn in *. split; [|by left].
    intros _. split_and!; [done|done|]. apply Hex, elem_of_app. right. apply list_elem_of_here.
  - destruct (amount_nanousd (payload r)) as [a|] eqn:Ea; [|done]. cbn. split; [done|].
    intros _. right. by exists r, a.
Qed.

(** ** A small ledger *)

Definition sample_clock (s : string) : option Z :=
  if String.eqb s "t" then Some 1785628800 else None.

Definition wire_record (id req : string) (at_ : Z) (amount : Z) : StoredUsageRecord := {|
  event_id := id; created_at := at_;
  payload := {|
    source := Wire; provider := "anthropic"; request_id := req; model := Some "m"%string;
    timestamp := "t"; payment_mode := Metered; tokens := None; unknown_token_fields := [];
    amount_nanousd := Some amount; observed_cost_nanousd := None; harness := None;
    session_id := None; turn_id := None; http_status := None; description := None;
    agent_pubkey := None; channel_id := None; work_context := None |} |}.

Definition token_record (id req : string) (at_ : Z) : StoredUsageRecord := {|
  event_id := id; created_at := at_;
  payload := {|
    source := Wire; provider := "anthropic"; request_id := req; model := Some "m"%string;
    timestamp := "t"; payment_mode := Imputed; tokens := Some ten_tokens; unknown_token_fields := [];
    amount_nanousd := None; observed_cost_nanousd := None; harness := None;
    session_id := None; turn_id := None; http_status := None; description := None;
    agent_pubkey := None; channel_id := None; work_context := None |} |}.

Definition sample_records : list StoredUsageRecord :=
  [wire_record "bb" "r2" 20 7; wire_record "aa" "r1" 10 5; token_record "cc" "r3" 30].

Definition sample_correction (i : string) (id centre : string) : Correction := {|
  correction_id := i; usage_record_event_id := id;
  correction_assign := {| assign_cost_centre_id := centre; assign_owning_team_id := None;
                          assign_commercial_purpose := Sales; assign_client_organization_id := None;
                          assign_task_id := None |};
  reason := "r"; corrected_at := 0 |}.

Definition sample_report : LedgerReport :=
  compute_ledger sample_clock sample_records [] []
    [sample_correction "c1" "aa" "x"; sample_correction "c2" "aa" "growth"; sample_correction "c3" "bb" "y"]
    [{| budget_cost_centre_id := "growth"; budget_period := "2026-08"; budget_amount_nanousd := 100 |}].

Example sample_report_totals :
  (cogs (totals sample_report), opex (totals sample_report), metered_nanousd sample_report,
   by_cost_centre sample_report, actual_nanousd <$> budget_status sample_report)
  = (0, 12, 12, [("growth"%string, 5); ("y"%string, 7)], [5]).
Proof. vm_compute. reflexivity. Qed.

Lemma compute_ledger_order_independent_witness :
  compute_ledger sample_clock sample_records [] [] [] []
  = compute_ledger sample_clock (rev sample_records) [] [] [] [].
Proof.
  apply compute_ledger_order_independent; [|apply Permutation_rev].
  intros x y Hx Hy. unfold sample_records in Hx, Hy.
  repeat (apply elem_of_cons in Hx as [->|Hx]); try (by apply not_elem_of_nil in Hx);
    repeat (apply elem_of_cons in Hy as [->|Hy]); try (by apply not_elem_of_nil in Hy);
    cbn; intros H; first [reflexivity | discriminate H].
Defined.

Lemma republish_is_free_witness :
  compute_ledger sample_clock (wire_record "ff" "r1" 99 5 :: sample_records) [] [] [] []
  = compute_ledger sample_clock sample_records [] [] [] [].
Proof.
  apply (republish_is_free _ _ _ _ _ _ (wire_record "aa" "r1" 10 5)); try reflexivity.
  vm_compute. apply list_elem_of_here.
Defined.

Lemma dedupe_key_identifies_witness :
  dedupe_key (wire_record "aa" "r1" 10 5) = dedupe_key (wire_record "bb" "r1" 20 7) <->
  Wire <> Manual /\ "anthropic"%string = "anthropic"%string /\ "r1"%string = "r1"%string.
Proof.
  apply (dedupe_key_identifies (wire_record "aa" "r1" 10 5) (wire_record "bb" "r1" 20 7));
    first [reflexivity | discriminate].
Defined.

Lemma sample_records_wf : Forall record_wf sample_records.
Proof.
  unfold sample_records. constructor; [|constructor; [|constructor; [|constructor]]].
  all: split; cbn; intros n H; first [discriminate H | injection H as <-; unfold in_u64, u64_max; lia].
Qed.

Lemma ledger_conserves_witness :
  zsum snd (by_cost_centre sample_report) = zsum entry_cost (entries sample_report)
  /\ zsum entry_cost (entries sample_report) = 12.
Proof.
  split; [|vm_compute; reflexivity].
  apply (ledger_conserves sample_clock sample_records); [apply sample_records_wf|].
  cbn. lia.
Defined.

Lemma ledger_buckets_witness : NoDup (fst <$> by_cost_centre sample_report).
Proof.
  apply (ledger_buckets sample_clock sample_records); [apply sample_records_wf|]. cbn. lia.
Defined.

Lemma last_correction_wins_witness :
  exists e, e ∈ entries sample_report /\ effective_assignment e
    = Some (correction_assign (sample_correction "c2" "aa" "growth")).
Proof.
  destruct (entries sample_report) as [|e es] eqn:E; [vm_compute in E; discriminate E|].
  exists e. split; [apply list_elem_of_here|].
  apply (last_correction_wins sample_clock sample_records [] [] [sample_correction "c1" "aa" "x"]
    (sample_correction "c2" "aa" "growth") [sample_correction "c3" "bb" "y"]
    [{| budget_cost_centre_id := "growth"; budget_period := "2026-08"; budget_amount_nanousd := 100 |}] e).
  - intros c' Hc'. apply list_elem_of_singleton in Hc' as ->. discriminate.
  - cbn [app]. fold sample_report. rewrite E. apply list_elem_of_here.
  - vm_compute in E. injection E as <- _. reflexivity.
Defined.

Lemma unpriced_is_reported_witness :
  UnpricedModel "cc" "m" ∈ exceptions sample_report.
Proof.
  destruct (entries sample_report !! 2%nat) as [e|] eqn:E; [|vm_compute in E; discriminate E].
  assert (e ∈ entries sample_report) as Hin by (by eapply list_elem_of_lookup_2).
  destruct (unpriced_is_reported sample_clock sample_records [] []
    [sample_correction "c1" "aa" "x"; sample_correction "c2" "aa" "growth"; sample_correction "c3" "bb" "y"]
    [{| budget_cost_centre_id := "growth"; budget_period := "2026-08"; budget_amount_nanousd := 100 |}])
    with (e := e) as [H _].
  - unfold sample_records. repeat constructor.
  - exact Hin.
  - vm_compute in E. injection E as <-. destruct H as (_ & _ & Hx); [reflexivity|exact Hx].
Defined.

(** A provider slug with a colon makes two different requests share a key. *)
Lemma dedupe_key_collides : exists r1 r2,
  dedupe_key r1 = dedupe_key r2 /\ provider (payload r1) <> provider (payload r2)
  /\ validate (payload r1) = Ok tt /\ validate (payload r2) = Ok tt.
Proof.
  exists {| event_id := "aa"; created_at := 0; payload := {|
    source := Wire; provider := "a:b"; request_id := "c"; model := None;
    timestamp := "t"; payment_mode := Metered; tokens := None; unknown_token_fields := [];
    amount_nanousd := Some 1; observed_cost_nanousd := None; harness := None;
    session_id := None; turn_id := None; http_status := None; description := None;
    agent_pubkey := None; channel_id := None; work_context := None |} |}.
  exists {| event_id := "bb"; created_at := 0; payload := {|
    source := Wire; provider := "a"; request_id := "b:c"; model := None;
    timestamp := "t"; payment_mode := Metered; tokens := None; unknown_token_fields := [];
    amount_nanousd := Some 1; observed_cost_nanousd := None; harness := None;
    session_id := None; turn_id := None; http_status := None; description := None;
    agent_pubkey := None; channel_id := None; work_context := None |} |}.
  by vm_compute.
Qed.
