(* ===== verification/Reconcile.v ===== *)
(** * Reconciliation with the provider's cost report

    [crates/buzz-core/src/ledger/reconcile.rs]: comparing the ledger's metered
    provider-days with what the provider says it charged; then [crosscheck.rs]:
    comparing metered records with what the agents report of their turns. *)

From Stdlib Require Import ZArith Lia Ascii.
From stdpp Require Import base list gmap strings numbers sorting.
From S2P Require Import Prelude MachineInt RustStr Json Company Usage Conditions Prices Attribution Calendar.
From S2P Require Import Engine.
Local Open Scope Z_scope.

Record ProviderDailyCost := {
  cost_provider : string;
  cost_day : string;
  cost_amount_nanousd : Z;
}.

Definition sum_key (s : DailySum) : string * string := (sum_provider s, sum_day s).
Definition row_key (r : ProviderDailyCost) : string * string := (cost_provider r, cost_day r).

(** The two summing loops of [reconcile]. *)
Definition tally {A} (key : A -> string * string) (amount : A -> Z) (rows : list A)
    : list ((string * string) * Z) :=
  bt_accum key 0 (fun a v => add128 v (amount a)) rows [].

(** The exception one ledger provider-day raises. *)
Definition compare_day (provider : list ((string * string) * Z)) (tolerance_nanousd : Z)
    (day : (string * string) * Z) : option LedgerException :=
  let '(k, ledger_amount) := day in
  match bt_get k provider with
  | None => Some (ReconcileMissingDay (fst k) (snd k) SideProviderReport)
  | Some provider_amount =>
      if tolerance_nanousd <? abs_diff ledger_amount provider_amount
      then Some (ReconcileDrift (fst k) (snd k) ledger_amount provider_amount) else None
  end.

(** The exception a provider-day absent from the ledger raises. *)
Definition absent_day (ledger : list ((string * string) * Z)) (day : (string * string) * Z)
    : option LedgerException :=
  if is_some (bt_get (fst day) ledger) then None
  else Some (ReconcileMissingDay (fst (fst day)) (snd (fst day)) SideLedger).

(** [reconcile]. *)
Definition reconcile (ledger_by_day : list DailySum) (provider_rows : list ProviderDailyCost)
    (tolerance_nanousd : Z) : list LedgerException :=
  let ledger := tally sum_key metered_sum ledger_by_day in
  let provider := tally row_key cost_amount_nanousd provider_rows in
  filter_map (compare_day provider tolerance_nanousd) ledger ++ filter_map (absent_day ledger) provider.

(** The messages [diagnose] picks between. *)
Inductive Diagnosis := ProviderAbove | LedgerAbove | LedgerLacksDay | ProviderLacksDay.

(** [diagnose]. *)
Definition diagnose (ex : LedgerException) : option Diagnosis :=
  match ex with
  | ReconcileDrift _ _ l p => Some (if l <? p then ProviderAbove else LedgerAbove)
  | ReconcileMissingDay _ _ SideLedger => Some LedgerLacksDay
  | ReconcileMissingDay _ _ SideProviderReport => Some ProviderLacksDay
  | _ => None
  end.

(** ** Facts *)

(** What a side says about a provider-day: the wrapped total of its rows,
    nothing when it has none. *)
Definition day_total {A} (key : A -> string * string) (amount : A -> Z) (rows : list A)
    (k : string * string) : option Z :=
  match filter (fun a => key a = k) rows with
  | [] => None
  | fl => Some (wrap128 (zsum amount fl))
  end.

Lemma foldl_add128 {A} (amount : A -> Z) l z :
  foldl (fun v a => add128 v (amount a)) (wrap128 z) l = wrap128 (z + zsum amount l).
Proof.
  revert z. induction l as [|a l IH]; intros z; cbn; [by rewrite Z.add_0_r|].
  unfold add128 at 2. rewrite wrap128_add_l, IH. by rewrite Z.add_assoc.
Qed.

Lemma tally_wf {A} key (amount : A -> Z) rows : bt_wf (tally key amount rows).
Proof. apply bt_accum_wf. constructor. Qed.

Lemma tally_get {A} key (amount : A -> Z) rows k :
  bt_get k (tally key amount rows) = day_total key amount rows k.
Proof.
  unfold tally, day_total. rewrite bt_accum_get_nil.
  destruct (filter _ rows) as [|a fl]; [done|].
  change 0 with (wrap128 0). by rewrite (foldl_add128 amount (a :: fl) 0).
Qed.

Lemma day_total_perm {A} key (amount : A -> Z) rows rows' k :
  rows ≡ₚ rows' -> day_total key amount rows k = day_total key amount rows' k.
Proof.
  intros Hp. unfold day_total.
  assert (filter (fun a => key a = k) rows ≡ₚ filter (fun a => key a = k) rows') as Hf by (by rewrite Hp).
  pose proof (zsum_perm amount _ _ Hf) as Hs.
  destruct (filter _ rows) as [|a l]; [by apply Permutation_nil in Hf as ->|].
  destruct (filter _ rows') as [|b l']; [by apply Permutation_sym, Permutation_nil in Hf|].
  by rewrite Hs.
Qed.

Lemma tally_perm {A} key (amount : A -> Z) rows rows' :
  rows ≡ₚ rows' -> tally key amount rows = tally key amount rows'.
Proof.
  intros Hp. apply bt_ext; [apply tally_wf..|]. intros k. rewrite !tally_get. by apply day_total_perm.
Qed.

Section Spec.
Context (ledger_by_day : list DailySum) (provider_rows : list ProviderDailyCost) (tolerance : Z).

#[local] Abbreviation ledger_says := (day_total sum_key metered_sum ledger_by_day).
#[local] Abbreviation provider_says := (day_total row_key cost_amount_nanousd provider_rows).

(** The disagreements the contract names. *)
Definition disagreement (ex : LedgerException) : Prop :=
  match ex with
  | ReconcileDrift p d l v =>
      ledger_says (p, d) = Some l /\ provider_says (p, d) = Some v /\ tolerance < Z.abs (l - v)
  | ReconcileMissingDay p d SideProviderReport =>
      is_Some (ledger_says (p, d)) /\ provider_says (p, d) = None
  | ReconcileMissingDay p d SideLedger =>
      ledger_says (p, d) = None /\ is_Some (provider_says (p, d))
  | _ => False
  end.

Lemma compare_day_spec ex :
  ex ∈ filter_map (compare_day (tally row_key cost_amount_nanousd provider_rows) tolerance)
         (tally sum_key metered_sum ledger_by_day)
  <-> exists p d l, ledger_says (p, d) = Some l
      /\ ((provider_says (p, d) = None /\ ex = ReconcileMissingDay p d SideProviderReport)
          \/ exists v, provider_says (p, d) = Some v /\ tolerance < Z.abs (l - v)
                       /\ ex = ReconcileDrift p d l v).
Proof.
  rewrite elem_of_filter_map. split.
  - intros ([[p d] l] & Hin & Hc). apply bt_get_elem in Hin; [|apply tally_wf].
    rewrite tally_get in Hin. exists p, d, l. split; [done|]. unfold compare_day in Hc.
    rewrite tally_get in Hc. destruct (provider_says (p, d)) as [v|]; [|left; by simplify_eq/=].
    right. exists v. unfold abs_diff in Hc. destruct (Z.ltb_spec tolerance (Z.abs (l - v))); by simplify_eq/=.
  - intros (p & d & l & Hl & Hcase). exists ((p, d), l).
    rewrite bt_get_elem, tally_get by apply tally_wf. split; [done|]. unfold compare_day.
    rewrite tally_get. destruct Hcase as [[-> ->]|(v & -> & Hv & ->)]; [done|].
    unfold abs_diff. by rewrite (proj2 (Z.ltb_lt _ _) Hv).
Qed.

Lemma absent_day_spec ex :
  ex ∈ filter_map (absent_day (tally sum_key metered_sum ledger_by_day))
         (tally row_key cost_amount_nanousd provider_rows)
  <-> exists p d, ledger_says (p, d) = None /\ is_Some (provider_says (p, d))
      /\ ex = ReconcileMissingDay p d SideLedger.
Proof.
  rewrite elem_of_filter_map. split.
  - intros ([[p d] v] & Hin & Ha). apply bt_get_elem in Hin; [|apply tally_wf].
    rewrite tally_get in Hin. exists p, d. unfold absent_day in Ha. cbn [fst snd] in Ha.
    rewrite tally_get in Ha. destruct (ledger_says (p, d)); [done|]. by simplify_eq/=.
  - intros (p & d & Hl & [v Hv] & ->). exists ((p, d), v).
    rewrite bt_get_elem, tally_get by apply tally_wf. split; [done|].
    unfold absent_day. cbn [fst snd]. by rewrite tally_get, Hl.
Qed.

(** Reconciliation raises an exception for exactly the provider-days on
    which the two sides disagree: a drift beyond the tolerance with both
    totals, or a day only one side has, naming the side that lacks it. *)
Theorem reconcile_spec ex :
  ex ∈ reconcile ledger_by_day provider_rows tolerance <-> disagreement ex.
Proof.
  unfold reconcile. rewrite elem_of_app, compare_day_spec, absent_day_spec. split.
  - intros [(p & d & l & Hl & [[Hn ->]|(v & Hv & Ht & ->)])|(p & d & Hl & Hv & ->)]; cbn; eauto.
  - destruct ex as [| | |p d l v|p d []]; cbn; try done.
    + intros (Hl & Hv & Ht). left. exists p, d, l. split; [done|]. right. by exists v.
    + intros (Hl & Hv). right. by exists p, d.
    + intros ([l Hl] & Hv). left. exists p, d, l. split; [done|]. by left.
Qed.
End Spec.

(** The exceptions come in the same order whatever order the rows of
    either side arrive in. *)
Theorem reconcile_order_independent l l' p p' tolerance :
  l ≡ₚ l' -> p ≡ₚ p' -> reconcile l p tolerance = reconcile l' p' tolerance.
Proof.
  intros Hl Hp. unfold reconcile. by rewrite (tally_perm _ _ l l' Hl), (tally_perm _ _ p p' Hp).
Qed.

Lemma reconcile_order_independent_witness :
  let a := {| sum_provider := "a"; sum_day := "2026-08-01"; metered_sum := 1 |} in
  let b := {| sum_provider := "b"; sum_day := "2026-08-01"; metered_sum := 2 |} in
  reconcile [a; b] [] 0 = reconcile [b; a] [] 0.
Proof. apply reconcile_order_independent; [apply perm_swap | done]. Defined.

(** ** Cross-checking agents' own accounts

    [crates/buzz-core/src/ledger/crosscheck.rs]: per agent and day, what the
    meter saw against what the agent reported. *)

Local Open Scope Z_scope.

Record SelfReportedTurn := {
  turn_agent_pubkey : string;
  turn_day : string;
  turn_input_tokens : Z;
  turn_output_tokens : Z;
  delta_reliable : bool;
}.

Record CrossCheckRow := {
  row_agent_pubkey : string;
  row_day : string;
  row_wire_input_tokens : Z;
  row_wire_output_tokens : Z;
  reported_input_tokens : Z;
  reported_output_tokens : Z;
  row_skipped_unreliable_turns : Z;
}.

(** [CrossCheckRow::wire_total] and [reported_total]. *)
Definition wire_total (r : CrossCheckRow) : Z :=
  saturating_add64 (row_wire_input_tokens r) (row_wire_output_tokens r).
Definition reported_total (r : CrossCheckRow) : Z :=
  saturating_add64 (reported_input_tokens r) (reported_output_tokens r).

Inductive CrossCheckFinding :=
| ReportedAboveWire (agent_pubkey day : string) (wire_tokens reported_tokens : Z)
| WireAboveReported (agent_pubkey day : string) (wire_tokens reported_tokens : Z)
| NoWireRecords (agent_pubkey day : string) (reported_tokens : Z).

Record CrossCheckReport := {
  rows : list CrossCheckRow;
  findings : list CrossCheckFinding;
  skipped_unreliable_turns : Z;
}.

(** [wire_input_tokens]. *)
Definition wire_input_tokens (record : StoredUsageRecord) : Z :=
  match tokens (payload record) with
  | None => 0
  | Some t =>
      saturating_add64 (saturating_add64 (saturating_add64
        (input_uncached_tokens t) (cache_read_tokens t)) (cache_write_5m_tokens t))
        (cache_write_1h_tokens t)
  end.

(** [wire_output_tokens]. *)
Definition wire_output_tokens (record : StoredUsageRecord) : Z :=
  match tokens (payload record) with
  | None => 0
  | Some t => output_tokens t
  end.

(** [beyond_tolerance]. *)
Definition beyond_tolerance (left right tolerance_bps floor_tokens : Z) : bool :=
  let gap := abs_diff left right in
  if gap <=? floor_tokens then false
  else
    let larger := Z.max left right in
    if larger =? 0 then false
    else larger * tolerance_bps / 10000 <? gap.

(** [Vec::dedup]: consecutive repeats are removed. *)
Fixpoint vec_dedup {A} `{EqDecision A} (l : list A) : list A :=
  match l with
  | x :: ((y :: _) as rest) => if decide (x = y) then vec_dedup rest else x :: vec_dedup rest
  | _ => l
  end.

(** The findings' severity in the final sort. *)
Definition severity (f : CrossCheckFinding) : Z :=
  match f with
  | NoWireRecords _ _ _ => 0
  | ReportedAboveWire _ _ _ _ => 1
  | WireAboveReported _ _ _ _ => 2
  end.

Definition finding_leb (a b : CrossCheckFinding) : bool := severity a <=? severity b.

(** The branch of the row loop that pushes a finding. *)
Definition finding_of (tolerance_bps floor_tokens : Z) (row : CrossCheckRow)
    : option CrossCheckFinding :=
  let w := wire_total row in
  let r := reported_total row in
  if (0 <? r) && (w =? 0) then Some (NoWireRecords (row_agent_pubkey row) (row_day row) r)
  else if beyond_tolerance w r tolerance_bps floor_tokens then
    if w <? r then Some (ReportedAboveWire (row_agent_pubkey row) (row_day row) w r)
    else Some (WireAboveReported (row_agent_pubkey row) (row_day row) w r)
  else None.

Section CrossCheck.
Context (rfc3339 : string -> option Z).

(** The agent-day a record is compared under, when it is compared at all. *)
Definition wire_key (record : StoredUsageRecord) : option (string * string) :=
  if bool_decide (source (payload record) = Wire)
  then (fun agent => (agent, utc_day_for rfc3339 record)) <$> agent_pubkey (payload record)
  else None.

(** The loop over the wire records. *)
Definition wire_map (wire_records : list StoredUsageRecord) : list ((string * string) * (Z * Z)) :=
  foldl (fun m record =>
    match wire_key record with
    | None => m
    | Some k => bt_update k (0, 0) (fun e =>
        (saturating_add64 (fst e) (wire_input_tokens record),
         saturating_add64 (snd e) (wire_output_tokens record))) m
    end) [] wire_records.

Definition turn_key (t : SelfReportedTurn) : string * string := (turn_agent_pubkey t, turn_day t).

(** What one turn does to its agent-day: reliable turns add their tokens, the
    others are only counted. *)
Definition add_turn (t : SelfReportedTurn) (e : Z * Z * Z) : Z * Z * Z :=
  let '(i, o, s) := e in
  if delta_reliable t
  then (saturating_add64 i (turn_input_tokens t), saturating_add64 o (turn_output_tokens t), s)
  else (i, o, saturating_add64 s 1).

Definition reported_map (turns : list SelfReportedTurn) : list ((string * string) * (Z * Z * Z)) :=
  bt_accum turn_key (0, 0, 0) add_turn turns [].

Definition skipped_turns (turns : list SelfReportedTurn) : Z :=
  foldl (fun n t => if delta_reliable t then n else saturating_add64 n 1) 0 turns.

(** The keys of both sides: collected, sorted, deduplicated. *)
Definition agent_days (wire : list ((string * string) * (Z * Z)))
    (reported : list ((string * string) * (Z * Z * Z))) : list (string * string) :=
  vec_dedup (sort_by kleb ((fst <$> wire) ++ (fst <$> reported))).

Definition row_of (wire : list ((string * string) * (Z * Z)))
    (reported : list ((string * string) * (Z * Z * Z))) (k : string * string) : CrossCheckRow :=
  let '(wi, wo) := default (0, 0) (bt_get k wire) in
  let '(ri, ro, sk) := default (0, 0, 0) (bt_get k reported) in
  {| row_agent_pubkey := fst k; row_day := snd k;
     row_wire_input_tokens := wi; row_wire_output_tokens := wo;
     reported_input_tokens := ri; reported_output_tokens := ro;
     row_skipped_unreliable_turns := sk |}.

(** [cross_check]. *)
Definition cross_check (wire_records : list StoredUsageRecord) (self_reports : list SelfReportedTurn)
    (tolerance_bps floor_tokens : Z) : CrossCheckReport :=
  let wire := wire_map wire_records in
  let reported := reported_map self_reports in
  let rs := row_of wire reported <$> agent_days wire reported in {|
  rows := rs;
  findings := sort_by finding_leb (filter_map (finding_of tolerance_bps floor_tokens) rs);
  skipped_unreliable_turns := skipped_turns self_reports |}.
End CrossCheck.

(** ** Facts *)

Definition saturated (n : Z) : Z := Z.min n u64_max.

Lemma saturated_add a b : 0 <= a -> 0 <= b -> saturating_add64 (saturated a) (saturated b) = saturated (a + b).
Proof. unfold saturating_add64, saturated, u64_max. lia. Qed.

Lemma saturated_u64 a : in_u64 a -> saturated a = a.
Proof. unfold saturated, in_u64. lia. Qed.

Lemma saturated_zero a : 0 <= a -> saturated a = 0 <-> a = 0.
Proof. unfold saturated, u64_max. lia. Qed.

Definition record_tokens_wf (r : StoredUsageRecord) : Prop :=
  forall t, tokens (payload r) = Some t -> breakdown_wf t.
Definition turn_wf (t : SelfReportedTurn) : Prop :=
  in_u64 (turn_input_tokens t) /\ in_u64 (turn_output_tokens t).

Lemma wire_tokens_u64 r :
  record_tokens_wf r -> in_u64 (wire_input_tokens r) /\ in_u64 (wire_output_tokens r).
Proof.
  unfold record_tokens_wf, wire_input_tokens, wire_output_tokens, breakdown_wf.
  destruct (tokens (payload r)) as [t|]; [|by unfold in_u64, u64_max].
  intros H. destruct (H t eq_refl) as (H1 & H2 & H3 & H4 & H5). auto 10 with colony.
Qed.

Lemma sorted_weaken {A} (R S : A -> A -> Prop) l :
  (forall a b, R a b -> S a b) -> StronglySorted R l -> StronglySorted S l.
Proof.
  intros HRS. induction 1 as [|a l Hl IH Ha]; constructor; [done|].
  eapply Forall_impl; [exact Ha|]. intros b. apply HRS.
Qed.

(** *** Keys *)

Lemma vec_dedup_cons {A} `{EqDecision A} (a b : A) l :
  vec_dedup (a :: b :: l) = if decide (a = b) then vec_dedup (b :: l) else a :: vec_dedup (b :: l).
Proof. reflexivity. Qed.

Lemma vec_dedup_elem {A} `{EqDecision A} (l : list A) x : x ∈ vec_dedup l <-> x ∈ l.
Proof.
  induction l as [|a [|b l] IH]; [done|done|]. rewrite vec_dedup_cons.
  destruct (decide (a = b)) as [<-|Hne]; rewrite ?elem_of_cons, IH, ?elem_of_cons; naive_solver.
Qed.

Lemma vec_dedup_strict (l : list (string * string)) :
  StronglySorted kleb l -> StronglySorted (fun a b => kcmp a b = Lt) (vec_dedup l).
Proof.
  induction l as [|a [|b l] IH]; intros Hs; [constructor|by repeat constructor|].
  rewrite vec_dedup_cons.
  inversion Hs as [|? ? Hs' Ha]; subst. specialize (IH Hs').
  destruct (decide (a = b)) as [<-|Hne]; [exact IH|]. constructor; [exact IH|].
  inversion Hs' as [|? ? _ Hb]; subst. inversion Ha as [|? ? Hab _]; subst.
  apply Is_true_true, kleb_spec in Hab as [?|Hab]; [done|].
  apply Forall_elem. intros x Hx. rewrite vec_dedup_elem in Hx. apply elem_of_cons in Hx as [->|Hx]; [done|].
  rewrite Forall_elem in Hb. specialize (Hb x Hx). apply Is_true_true, kleb_spec in Hb as [<-|Hb]; [done|].
  by eapply kcmp_trans.
Qed.

Section Facts.
Context (rfc3339 : string -> option Z).

#[local] Abbreviation wkey := (wire_key rfc3339).
#[local] Abbreviation wmap := (wire_map rfc3339).

(** What a side adds up to on an agent-day. *)
Definition wire_sum (f : StoredUsageRecord -> Z) (k : string * string) (rs : list StoredUsageRecord) : Z :=
  zsum (fun r => if bool_decide (wkey r = Some k) then f r else 0) rs.
Definition turn_sum (f : SelfReportedTurn -> Z) (k : string * string) (ts : list SelfReportedTurn) : Z :=
  zsum (fun t => if bool_decide (turn_key t = k) then f t else 0) ts.

Definition reliable (f : SelfReportedTurn -> Z) (t : SelfReportedTurn) : Z :=
  if delta_reliable t then f t else 0.
Definition unreliable (t : SelfReportedTurn) : Z := if delta_reliable t then 0 else 1.

Definition on_wire (k : string * string) (rs : list StoredUsageRecord) : Prop :=
  exists r, r ∈ rs /\ wkey r = Some k.
Definition was_reported (k : string * string) (ts : list SelfReportedTurn) : Prop :=
  exists t, t ∈ ts /\ turn_key t = k.

Lemma wire_map_wf rs : bt_wf (wmap rs).
Proof.
  unfold wire_map. induction rs as [|r rs IH] using rev_ind; [constructor|]. rewrite foldl_app. cbn.
  destruct (wkey r); [by apply bt_update_wf | done].
Qed.

Lemma zsum_snoc {A} (f : A -> Z) l a : zsum f (l ++ [a]) = zsum f l + f a.
Proof. rewrite zsum_app. cbn. lia. Qed.

Lemma zsum_nonneg {A} (f : A -> Z) l : (forall a, a ∈ l -> 0 <= f a) -> 0 <= zsum f l.
Proof.
  unfold zsum. induction l as [|a l IH]; intros Hf; cbn; [done|].
  pose proof (Hf a (list_elem_of_here _ _)). assert (0 <= foldr (fun a s => f a + s) 0 l); [|lia].
  apply IH. intros b Hb. apply Hf. by apply list_elem_of_further.
Qed.

Lemma wire_map_sums rs k :
  Forall record_tokens_wf rs ->
  (is_Some (bt_get k (wmap rs)) <-> on_wire k rs)
  /\ default (0, 0) (bt_get k (wmap rs))
     = (saturated (wire_sum wire_input_tokens k rs), saturated (wire_sum wire_output_tokens k rs)).
Proof.
  unfold wire_map, wire_sum, on_wire. induction rs as [|r rs IH] using rev_ind; intros Hwf.
  - cbn. split; [|done]. split; [intros []; done | by intros (? & ?%not_elem_of_nil & _)].
  - apply Forall_app in Hwf as [Hwf Hr]. apply Forall_cons_1 in Hr as [Hr _].
    specialize (IH Hwf). rewrite foldl_app, !zsum_snoc. cbn [foldl].
    pose proof (wire_map_wf rs) as Hmwf. unfold wire_map in Hmwf.
    set (m := foldl _ [] rs) in *. destruct IH as [IH1 IH2].
    setoid_rewrite elem_of_app. setoid_rewrite list_elem_of_singleton.
    destruct (wire_tokens_u64 r Hr) as [Hi Ho].
    assert (forall f, (forall r, record_tokens_wf r -> 0 <= f r) ->
      0 <= zsum (fun r => if bool_decide (wkey r = Some k) then f r else 0) rs) as Hnn.
    { intros f Hf. apply zsum_nonneg. intros x Hx. rewrite Forall_elem in Hwf.
      case_bool_decide; [by apply Hf, Hwf | done]. }
    pose proof (Hnn wire_input_tokens ltac:(intros x Hx; apply wire_tokens_u64, Hx)).
    pose proof (Hnn wire_output_tokens ltac:(intros x Hx; apply (wire_tokens_u64 x Hx))).
    destruct (wkey r) as [k'|] eqn:Hk.
    + destruct (decide (k' = k)) as [->|Hne].
      * rewrite bt_get_update_eq, IH2. cbn. rewrite bool_decide_true by done.
        rewrite <- (saturated_u64 (wire_input_tokens r)), <- (saturated_u64 (wire_output_tokens r)) by done.
        rewrite !saturated_add by (done || apply saturated_u64 || unfold in_u64 in *; lia).
        rewrite !(saturated_u64 (wire_input_tokens r)), !(saturated_u64 (wire_output_tokens r)) by done.
        split; [|done]. split; [|done]. intros _. exists r. auto.
      * rewrite bt_get_update_ne by done. rewrite bool_decide_false by congruence.
        rewrite !Z.add_0_r. split; [|done]. rewrite IH1. naive_solver.
    + rewrite bool_decide_false by done. rewrite !Z.add_0_r. split; [|done]. rewrite IH1. naive_solver.
Qed.

Lemma reported_map_wf ts : bt_wf (reported_map ts).
Proof. apply bt_accum_wf. constructor. Qed.

Lemma reported_map_snoc ts t :
  reported_map (ts ++ [t]) = bt_update (turn_key t) (0, 0, 0) (add_turn t) (reported_map ts).
Proof. unfold reported_map, bt_accum. by rewrite foldl_app. Qed.

Lemma add_turn_sums t i o s :
  turn_wf t -> 0 <= i -> 0 <= o -> 0 <= s ->
  add_turn t (saturated i, saturated o, saturated s)
  = (saturated (i + reliable turn_input_tokens t), saturated (o + reliable turn_output_tokens t),
     saturated (s + unreliable t)).
Proof.
  intros [[Hi1 Hi2] [Ho1 Ho2]] ? ? ?. unfold add_turn, reliable, unreliable.
  destruct (delta_reliable t); rewrite !Z.add_0_r; f_equal; try f_equal.
  - rewrite <- (saturated_u64 (turn_input_tokens t)) at 1 by done. by apply saturated_add.
  - rewrite <- (saturated_u64 (turn_output_tokens t)) at 1 by done. by apply saturated_add.
  - change 1 with (saturated 1) at 1. by apply saturated_add.
Qed.

Lemma turn_sum_nonneg f k ts : (forall t, turn_wf t -> 0 <= f t) -> Forall turn_wf ts -> 0 <= turn_sum f k ts.
Proof.
  intros Hf Hwf. apply zsum_nonneg. intros t Ht. rewrite Forall_elem in Hwf.
  case_bool_decide; [by apply Hf, Hwf | done].
Qed.

Lemma reliable_nonneg t :
  turn_wf t -> 0 <= reliable turn_input_tokens t /\ 0 <= reliable turn_output_tokens t /\ 0 <= unreliable t.
Proof. intros [[? ?] [? ?]]. unfold reliable, unreliable. destruct (delta_reliable t); lia. Qed.

Lemma reported_map_sums ts k :
  Forall turn_wf ts ->
  (is_Some (bt_get k (reported_map ts)) <-> was_reported k ts)
  /\ default (0, 0, 0) (bt_get k (reported_map ts))
     = (saturated (turn_sum (reliable turn_input_tokens) k ts),
        saturated (turn_sum (reliable turn_output_tokens) k ts),
        saturated (turn_sum unreliable k ts)).
Proof.
  unfold was_reported. induction ts as [|t ts IH] using rev_ind; intros Hwf.
  - cbn. split; [|done]. split; [intros []; done | by intros (? & ?%not_elem_of_nil & _)].
  - apply Forall_app in Hwf as [Hwf Ht]. apply Forall_cons_1 in Ht as [Ht _].
    destruct (IH Hwf) as [IH1 IH2]. rewrite reported_map_snoc.
    setoid_rewrite elem_of_app. setoid_rewrite list_elem_of_singleton.
    destruct (decide (turn_key t = k)) as [<-|Hne].
    + rewrite bt_get_update_eq, IH2. cbn [default from_option]. unfold turn_sum. rewrite !zsum_snoc.
      rewrite bool_decide_true by done.
      rewrite add_turn_sums; [|done|apply turn_sum_nonneg; [|done]; intros x Hx; by apply reliable_nonneg..].
      split; [|done]. split; [|done]. intros _. exists t. auto.
    + rewrite bt_get_update_ne by (done || apply reported_map_wf). unfold turn_sum. rewrite !zsum_snoc.
      rewrite bool_decide_false by done. rewrite !Z.add_0_r. split; [|exact IH2]. rewrite IH1.
      split; [intros (x & Hx & Hk); eauto|]. intros (x & [Hx| ->] & Hk); [eauto|done].
Qed.

Lemma skipped_turns_sum ts : skipped_turns ts = saturated (zsum unreliable ts).
Proof.
  induction ts as [|t ts IH] using rev_ind; [done|]. unfold skipped_turns in *.
  rewrite foldl_app, zsum_snoc. cbn. rewrite IH.
  assert (0 <= zsum unreliable ts) by (apply zsum_nonneg; intros x _; unfold unreliable; case_match; lia).
  change (unreliable t) with (if delta_reliable t then 0 else 1). destruct (delta_reliable t); [by rewrite Z.add_0_r|].
  change 1 with (saturated 1) at 1. by rewrite saturated_add.
Qed.

(** ** The report *)

(** The comparison of one agent-day, in unbounded sums clamped to [u64]. *)
Definition reference_row (wire_records : list StoredUsageRecord) (turns : list SelfReportedTurn)
    (k : string * string) : CrossCheckRow := {|
  row_agent_pubkey := fst k; row_day := snd k;
  row_wire_input_tokens := saturated (wire_sum wire_input_tokens k wire_records);
  row_wire_output_tokens := saturated (wire_sum wire_output_tokens k wire_records);
  reported_input_tokens := saturated (turn_sum (reliable turn_input_tokens) k turns);
  reported_output_tokens := saturated (turn_sum (reliable turn_output_tokens) k turns);
  row_skipped_unreliable_turns := saturated (turn_sum unreliable k turns) |}.

Lemma row_of_reference wire_records turns k :
  Forall record_tokens_wf wire_records -> Forall turn_wf turns ->
  row_of (wmap wire_records) (reported_map turns) k = reference_row wire_records turns k.
Proof.
  intros Hw Ht. unfold row_of, reference_row.
  destruct (wire_map_sums wire_records k Hw) as [_ ->].
  by destruct (reported_map_sums turns k Ht) as [_ ->].
Qed.

Lemma bt_get_dom {V} (m : list ((string * string) * V)) k :
  bt_wf m -> k ∈ (fst <$> m) <-> is_Some (bt_get k m).
Proof.
  intros Hm. rewrite list_elem_of_fmap. split.
  - intros ([k' v] & -> & Hin). exists v. by apply bt_get_elem.
  - intros [v Hv]. exists (k, v). split; [done|]. by apply bt_get_elem.
Qed.

Lemma agent_days_spec wire_records turns :
  Forall record_tokens_wf wire_records -> Forall turn_wf turns ->
  StronglySorted (fun a b => kcmp a b = Lt) (agent_days (wmap wire_records) (reported_map turns))
  /\ forall k, k ∈ agent_days (wmap wire_records) (reported_map turns) <->
       on_wire k wire_records \/ was_reported k turns.
Proof.
  intros Hw Ht. unfold agent_days. split.
  - apply vec_dedup_strict. apply (sort_by_sorted kleb kleb_total kleb_trans).
  - intros k. rewrite vec_dedup_elem, (sort_by_perm kleb), elem_of_app.
    rewrite !bt_get_dom by (apply wire_map_wf || apply reported_map_wf).
    destruct (wire_map_sums wire_records k Hw) as [-> _].
    by destruct (reported_map_sums turns k Ht) as [-> _].
Qed.

(** The report has one row per agent-day that either side knows about, in
    ascending order of agent and day, and each row holds what the two sides
    add up to: cache reads and writes inside the input figure, unreliable
    turns left out and counted. *)
Theorem cross_check_rows wire_records turns bps floor :
  Forall record_tokens_wf wire_records -> Forall turn_wf turns ->
  exists days, rows (cross_check rfc3339 wire_records turns bps floor)
                 = reference_row wire_records turns <$> days
    /\ StronglySorted (fun a b => kcmp a b = Lt) days
    /\ (forall k, k ∈ days <-> on_wire k wire_records \/ was_reported k turns)
    /\ skipped_unreliable_turns (cross_check rfc3339 wire_records turns bps floor)
       = saturated (zsum unreliable turns).
Proof.
  intros Hw Ht. exists (agent_days (wmap wire_records) (reported_map turns)).
  destruct (agent_days_spec wire_records turns Hw Ht) as [Hs He].
  split_and!; [|done|done|apply skipped_turns_sum]. cbn.
  apply list_fmap_ext. intros i k _. by apply row_of_reference.
Qed.

(** What the documentation says a row is a finding of. *)
Definition is_finding (bps floor : Z) (row : CrossCheckRow) (f : CrossCheckFinding) : Prop :=
  let w := wire_total row in
  let r := reported_total row in
  match f with
  | NoWireRecords a d n => a = row_agent_pubkey row /\ d = row_day row /\ n = r /\ 0 < r /\ w = 0
  | ReportedAboveWire a d wn rn =>
      a = row_agent_pubkey row /\ d = row_day row /\ wn = w /\ rn = r
      /\ 0 < w < r /\ floor < r - w /\ r * bps < (r - w) * 10000
  | WireAboveReported a d wn rn =>
      a = row_agent_pubkey row /\ d = row_day row /\ wn = w /\ rn = r
      /\ r < w /\ floor < w - r /\ w * bps < (w - r) * 10000
  end.

Lemma beyond_tolerance_spec l r bps floor :
  0 <= l -> 0 <= r -> 0 <= floor ->
  beyond_tolerance l r bps floor = true <->
  floor < Z.abs (l - r) /\ Z.max l r * bps < Z.abs (l - r) * 10000.
Proof.
  intros Hl Hr Hf. unfold beyond_tolerance, abs_diff.
  destruct (Z.leb_spec (Z.abs (l - r)) floor); [split; [done|lia]|].
  destruct (Z.eqb_spec (Z.max l r) 0); [split; [done|lia]|].
  rewrite Z.ltb_lt. split.
  - intros Hd. split; [done|]. apply Z.lt_nge. intros Hge.
    assert (Z.abs (l - r) <= Z.max l r * bps / 10000); [|lia].
    apply Z.div_le_lower_bound; lia.
  - intros [_ Hlt]. apply Z.div_lt_upper_bound; lia.
Qed.

Lemma finding_of_spec bps floor row f :
  0 <= floor -> 0 <= wire_total row -> 0 <= reported_total row ->
  finding_of bps floor row = Some f <-> is_finding bps floor row f.
Proof.
  intros Hf Hw Hr. pose proof (beyond_tolerance_spec (wire_total row) (reported_total row) bps floor Hw Hr Hf) as Hb.
  unfold finding_of, is_finding.
  destruct (Z.ltb_spec 0 (reported_total row)); destruct (Z.eqb_spec (wire_total row) 0); cbn [andb].
  1: split; [intros [= <-]; by split_and!|].
  1: destruct f; intros H'; destruct_and? H'; subst; first [done | exfalso; lia].
  all: destruct (beyond_tolerance _ _ _ _) eqn:E.
  2, 4, 6: split; [done|]; destruct f; intros H'; destruct_and? H'; exfalso;
    first [lia | assert (false = true) by (apply Hb; lia); done].
  all: destruct (proj1 Hb eq_refl) as [E1 E2]; destruct (Z.ltb_spec (wire_total row) (reported_total row)).
  all: split; [intros [= <-]; split_and!; first [done | lia] |].
  all: destruct f; intros H'; destruct_and? H'; subst; first [done | exfalso; lia].
Qed.

Lemma wire_sum_nonneg f k rs :
  (forall r, record_tokens_wf r -> 0 <= f r) -> Forall record_tokens_wf rs -> 0 <= wire_sum f k rs.
Proof.
  intros Hf Hwf. apply zsum_nonneg. intros r Hr. rewrite Forall_elem in Hwf.
  case_bool_decide; [by apply Hf, Hwf | done].
Qed.

Lemma saturated_total a b : 0 <= a -> 0 <= b -> 0 <= saturating_add64 (saturated a) (saturated b).
Proof. unfold saturating_add64, saturated, u64_max. lia. Qed.

Lemma reference_row_nonneg wire_records turns k :
  Forall record_tokens_wf wire_records -> Forall turn_wf turns ->
  0 <= wire_total (reference_row wire_records turns k)
  /\ 0 <= reported_total (reference_row wire_records turns k).
Proof.
  intros Hw Ht. split; apply saturated_total.
  1, 2: apply wire_sum_nonneg; [intros r Hr; apply (wire_tokens_u64 r Hr) | done].
  all: apply turn_sum_nonneg; [intros t Htw; by apply reliable_nonneg | done].
Qed.

Lemma findings_elem wire_records turns bps floor f :
  0 <= floor -> Forall record_tokens_wf wire_records -> Forall turn_wf turns ->
  f ∈ findings (cross_check rfc3339 wire_records turns bps floor) <->
  exists row, row ∈ rows (cross_check rfc3339 wire_records turns bps floor) /\ is_finding bps floor row f.
Proof.
  intros Hf Hw Ht. cbn [findings rows cross_check]. rewrite (sort_by_perm finding_leb), elem_of_filter_map.
  split; intros (row & Hrow & H'); exists row; (split; [done|]).
  all: apply list_elem_of_fmap in Hrow as (k & -> & _).
  all: destruct (reference_row_nonneg wire_records turns k Hw Ht).
  all: rewrite (row_of_reference wire_records turns k Hw Ht) in *; by apply finding_of_spec.
Qed.

(** A finding is reported exactly when a row's two totals disagree beyond
    both the floor and the relative tolerance, or the agent reported tokens
    on a day the meter saw none; and the most serious come first. *)
Theorem cross_check_findings wire_records turns bps floor :
  0 <= floor -> Forall record_tokens_wf wire_records -> Forall turn_wf turns ->
  let report := cross_check rfc3339 wire_records turns bps floor in
  (forall f, f ∈ findings report <-> exists row, row ∈ rows report /\ is_finding bps floor row f)
  /\ StronglySorted (fun a b => severity a <= severity b) (findings report).
Proof.
  intros Hf Hw Ht report. split; [intros f; by apply findings_elem|].
  apply (sorted_weaken finding_leb); [intros a b H; by apply Is_true_true, Z.leb_le in H|].
  apply sort_by_sorted; unfold finding_leb; intros; lia.
Qed.

Lemma turn_sum_ge f turns t :
  (forall x, turn_wf x -> 0 <= reliable f x) -> Forall turn_wf turns ->
  t ∈ turns -> delta_reliable t = true -> f t <= turn_sum (reliable f) (turn_key t) turns.
Proof.
  intros Hfn Ht Hin Hrel. apply list_elem_of_split in Hin as (l1 & l2 & ->). unfold turn_sum.
  rewrite zsum_app. cbn [zsum foldr]. rewrite bool_decide_true by done.
  apply Forall_app in Ht as [H1 H2]. apply Forall_cons_1 in H2 as [_ H2].
  pose proof (turn_sum_nonneg (reliable f) (turn_key t) l1 Hfn H1).
  pose proof (turn_sum_nonneg (reliable f) (turn_key t) l2 Hfn H2).
  unfold turn_sum, zsum in *. unfold reliable at 2. rewrite Hrel. lia.
Qed.

Lemma wire_sum_off f k rs : ~ on_wire k rs -> wire_sum f k rs = 0.
Proof.
  intros Hoff. unfold wire_sum. rewrite (zsum_ext _ (fun _ => 0)).
  - clear. unfold zsum. induction rs; cbn; lia.
  - intros r Hrin. rewrite bool_decide_false; [done|]. intros Hk. apply Hoff. by exists r.
Qed.

(** An agent whose calls bypass the meter is always caught: if it reports
    tokens in a reliable turn on a day the meter has no record of it, the
    report has a [NoWireRecords] finding for it, whatever the tolerances. *)
Theorem bypass_is_reported wire_records turns bps floor t :
  0 <= floor -> Forall record_tokens_wf wire_records -> Forall turn_wf turns ->
  t ∈ turns -> delta_reliable t = true -> 0 < turn_input_tokens t + turn_output_tokens t ->
  ~ on_wire (turn_key t) wire_records ->
  exists n, 0 < n /\ NoWireRecords (turn_agent_pubkey t) (turn_day t) n
    ∈ findings (cross_check rfc3339 wire_records turns bps floor).
Proof.
  intros Hf Hw Ht Hin Hrel Hpos Hoff.
  set (row := reference_row wire_records turns (turn_key t)).
  exists (reported_total row).
  assert (0 < reported_total row) as Hr.
  { pose proof (turn_sum_ge turn_input_tokens turns t ltac:(intros x Hx; apply (reliable_nonneg x Hx)) Ht Hin Hrel).
    pose proof (turn_sum_ge turn_output_tokens turns t ltac:(intros x Hx; apply (reliable_nonneg x Hx)) Ht Hin Hrel).
    rewrite Forall_elem in Ht. destruct (Ht t Hin) as [[? ?] [? ?]].
    unfold reported_total, row, reference_row, saturating_add64, saturated, u64_max; cbn. lia. }
  split; [done|]. apply findings_elem; [done..|]. exists row. split.
  - cbn. apply list_elem_of_fmap. exists (turn_key t). split.
    + symmetry. by apply row_of_reference.
    + apply (agent_days_spec wire_records turns Hw Ht). right. by exists t.
  - cbn. split_and!; [done|done|done|done|].
    unfold wire_total, row, reference_row; cbn. by rewrite !wire_sum_off.
Qed.
End Facts.

(** Two wire records and two turns of one agent on one day. *)
Definition metered_call (agent : string) (n : Z) : StoredUsageRecord := {|
  event_id := "e"; created_at := 0;
  payload := {|
    source := Wire; provider := "anthropic"; request_id := "r"; model := None;
    timestamp := "t"; payment_mode := Metered;
    tokens := Some {| input_uncached_tokens := n; cache_read_tokens := 0; cache_write_5m_tokens := 0;
                      cache_write_1h_tokens := 0; output_tokens := n |};
    unknown_token_fields := []; amount_nanousd := None; observed_cost_nanousd := None;
    harness := None; session_id := None; turn_id := None; http_status := None; description := None;
    agent_pubkey := Some agent; channel_id := None; work_context := None |} |}.

Definition reported_turn (agent : string) (n : Z) (ok : bool) : SelfReportedTurn := {|
  turn_agent_pubkey := agent; turn_day := "1970-01-01"; turn_input_tokens := n;
  turn_output_tokens := n; delta_reliable := ok |}.

Definition no_clock (s : string) : option Z := None.
Definition sample_calls : list StoredUsageRecord := [metered_call "a" 100; metered_call "a" 20].
Definition sample_turns : list SelfReportedTurn :=
  [reported_turn "a" 120 true; reported_turn "b" 7 true; reported_turn "a" 999 false].

Lemma sample_calls_wf : Forall record_tokens_wf sample_calls.
Proof.
  unfold sample_calls. constructor; [|constructor; [|constructor]].
  all: intros t H; injection H as <-; unfold breakdown_wf, in_u64, u64_max; cbn; lia.
Qed.

Lemma sample_turns_wf : Forall turn_wf sample_turns.
Proof.
  unfold sample_turns. constructor; [|constructor; [|constructor; [|constructor]]].
  all: unfold turn_wf, in_u64, u64_max; cbn; lia.
Qed.

Example sample_findings :
  findings (cross_check no_clock sample_calls sample_turns 100 10) = [NoWireRecords "b" "1970-01-01" 14].
Proof. vm_compute. reflexivity. Qed.

Lemma cross_check_rows_witness : exists days,
  rows (cross_check no_clock sample_calls sample_turns 100 10)
  = reference_row no_clock sample_calls sample_turns <$> days.
Proof.
  destruct (cross_check_rows no_clock sample_calls sample_turns 100 10 sample_calls_wf sample_turns_wf)
    as (days & H & _).
  exists days. exact H.
Defined.

Lemma cross_check_findings_witness :
  StronglySorted (fun a b => severity a <= severity b)
    (findings (cross_check no_clock sample_calls sample_turns 100 10)).
Proof. apply cross_check_findings; [lia | apply sample_calls_wf | apply sample_turns_wf]. Defined.

Lemma bypass_is_reported_witness : exists n, 0 < n /\
  NoWireRecords "b" "1970-01-01" n ∈ findings (cross_check no_clock sample_calls sample_turns 10000 1000).
Proof.
  apply (bypass_is_reported no_clock sample_calls sample_turns 10000 1000 (reported_turn "b" 7 true)).
  - lia.
  - apply sample_calls_wf.
  - apply sample_turns_wf.
  - apply list_elem_of_further, list_elem_of_here.
  - reflexivity.
  - cbn. lia.
  - intros (r & Hr & Hk). unfold sample_calls in Hr.
    apply elem_of_cons in Hr as [->|Hr]; [vm_compute in Hk; discriminate Hk|].
    apply list_elem_of_singleton in Hr as ->. vm_compute in Hk. discriminate Hk.
Defined.
