(* ===== verification/GitPerms.v ===== *)
(** * Channels, roles and the git push policy

    [crates/buzz-core/src/channel.rs]: the enums of a channel and its members,
    their wire names and the permission order of roles; then, in a part of its
    own below, [git_perms.rs]: who may push what. *)

From Stdlib Require Import ZArith Lia Ascii.
From stdpp Require Import base list strings numbers gmap sorting.
From S2P Require Import Prelude MachineInt RustStr.
Local Open Scope Z_scope.

(** [canonical_channel_name]. *)
Definition canonical_channel_name (name : string) : string :=
  trim_end (strip_all (String.length name) ("#"%string :: white_space) name).

Inductive ChannelVisibility := VisOpen | VisPrivate.
#[export] Instance ChannelVisibility_eq_dec : EqDecision ChannelVisibility.
Proof. solve_decision. Defined.

(** [ChannelVisibility::as_str], [from_str]; [None] is the error. *)
Definition visibility_as_str (v : ChannelVisibility) : string :=
  match v with VisOpen => "open" | VisPrivate => "private" end.
Definition visibility_from_str (s : string) : option ChannelVisibility :=
  if String.eqb s "open" then Some VisOpen
  else if String.eqb s "private" then Some VisPrivate else None.

Inductive ChannelType := Stream | Forum | Dm | Workflow.
#[export] Instance ChannelType_eq_dec : EqDecision ChannelType.
Proof. solve_decision. Defined.

(** [ChannelType::as_str], [from_str]. *)
Definition channel_type_as_str (t : ChannelType) : string :=
  match t with Stream => "stream" | Forum => "forum" | Dm => "dm" | Workflow => "workflow" end.
Definition channel_type_from_str (s : string) : option ChannelType :=
  if String.eqb s "stream" then Some Stream
  else if String.eqb s "forum" then Some Forum
  else if String.eqb s "dm" then Some Dm
  else if String.eqb s "workflow" then Some Workflow else None.

Inductive MemberRole := Owner | Admin | Member | Guest | Bot.
#[export] Instance MemberRole_eq_dec : EqDecision MemberRole.
Proof. solve_decision. Defined.

(** [MemberRole::as_str], [from_str]. *)
Definition role_as_str (r : MemberRole) : string :=
  match r with
  | Owner => "owner" | Admin => "admin" | Member => "member" | Guest => "guest" | Bot => "bot"
  end.
Definition role_from_str (s : string) : option MemberRole :=
  if String.eqb s "owner" then Some Owner
  else if String.eqb s "admin" then Some Admin
  else if String.eqb s "member" then Some Member
  else if String.eqb s "guest" then Some Guest
  else if String.eqb s "bot" then Some Bot else None.

(** [MemberRole::is_elevated]. *)
Definition is_elevated (r : MemberRole) : bool :=
  match r with Owner | Admin => true | Member | Guest | Bot => false end.

(** [MemberRole::permission_level]. *)
Definition permission_level (r : MemberRole) : Z :=
  match r with Owner => 4 | Admin => 3 | Member => 2 | Guest => 1 | Bot => 0 end.

(** [MemberRole::has_at_least]. *)
Definition has_at_least (r required : MemberRole) : bool := permission_level required <=? permission_level r.

(** ** Facts *)

Lemma role_roundtrip r : role_from_str (role_as_str r) = Some r.
Proof. by destruct r. Qed.

Lemma visibility_roundtrip v : visibility_from_str (visibility_as_str v) = Some v.
Proof. by destruct v. Qed.

Lemma channel_type_roundtrip t : channel_type_from_str (channel_type_as_str t) = Some t.
Proof. by destruct t. Qed.

Lemma permission_level_inj a b : permission_level a = permission_level b -> a = b.
Proof. destruct a, b; cbn; lia || done. Qed.

Lemma has_at_least_spec r q : has_at_least r q = true <-> permission_level q <= permission_level r.
Proof. apply Z.leb_le. Qed.

(** ** Git push permissions

    [crates/buzz-core/src/git_perms.rs]: ref patterns, [buzz-protect] tags and
    the push policy. *)

Local Open Scope Z_scope.

Definition MAX_PROTECTION_RULES : Z := 50.
Definition MAX_PATTERN_LENGTH : Z := 256.
Definition MAX_WILDCARDS_PER_PATTERN : Z := 3.

Inductive PatternSegment := Literal (s : string) | Wildcard | RecursiveWildcard.
#[export] Instance PatternSegment_eq_dec : EqDecision PatternSegment.
Proof. solve_decision. Defined.

Record RefPattern := { raw : string; segments : list PatternSegment }.
#[export] Instance RefPattern_eq_dec : EqDecision RefPattern.
Proof. solve_decision. Defined.

Inductive PatternError :=
| PatternEmpty | PatternTooLong | MissingRefsPrefix | InvalidSegment (s : string) | TooManyWildcards.

(** [c.is_ascii_alphanumeric() || c == '.' || c == '_' || c == '-'] on the
    bytes: every byte of a non-ASCII character fails it, as the character does. *)
Definition is_ref_char (c : ascii) : bool :=
  is_ascii_alphanumeric c || Ascii.eqb c "." || Ascii.eqb c "_" || Ascii.eqb c "-".

Definition has_glob_char (s : string) : bool :=
  str_contains "*" s || str_contains "?" s || str_contains "[" s || str_contains "]" s.

(** The loop of [RefPattern::parse] over the remaining parts. *)
Fixpoint parse_segments (parts : list string) (wildcard_count : Z)
    : Result (list PatternSegment) PatternError :=
  match parts with
  | [] => Ok []
  | part :: rest =>
      if String.eqb part "**" then
        if negb (bool_decide (rest = [])) then Err (InvalidSegment "** must be the last segment")
        else if MAX_WILDCARDS_PER_PATTERN <? wildcard_count + 1 then Err TooManyWildcards
        else let? segs := parse_segments rest (wildcard_count + 1) in Ok (RecursiveWildcard :: segs)
      else if String.eqb part "*" then
        if MAX_WILDCARDS_PER_PATTERN <? wildcard_count + 1 then Err TooManyWildcards
        else let? segs := parse_segments rest (wildcard_count + 1) in Ok (Wildcard :: segs)
      else if str_is_empty part then Err (InvalidSegment EmptyString)
      else if has_glob_char part then Err (InvalidSegment part)
      else if negb (str_all is_ref_char part) then Err (InvalidSegment part)
      else let? segs := parse_segments rest wildcard_count in Ok (Literal part :: segs)
  end.

(** [RefPattern::parse]. *)
Definition parse_pattern (pattern : string) : Result RefPattern PatternError :=
  if str_is_empty pattern then Err PatternEmpty
  else if MAX_PATTERN_LENGTH <? str_len pattern then Err PatternTooLong
  else if negb (starts_with "refs/" pattern) then Err MissingRefsPrefix
  else
    let? segs := parse_segments (split_on "/" pattern) 0 in
    Ok {| raw := pattern; segments := segs |}.

(** [zip(..).all(..)] of [RefPattern::matches]; [None] is its [unreachable!]. *)
Fixpoint zip_all (pats : list PatternSegment) (segs : list string) : option bool :=
  match pats, segs with
  | pat :: pats', seg :: segs' =>
      match pat with
      | Wildcard => zip_all pats' segs'
      | Literal lit => if String.eqb lit seg then zip_all pats' segs' else Some false
      | RecursiveWildcard => None
      end
  | _, _ => Some true
  end.

(** [RefPattern::matches]. *)
Definition pattern_matches (p : RefPattern) (ref_name : string) : option bool :=
  let ref_segments := split_on "/" ref_name in
  match last (segments p) with
  | Some RecursiveWildcard =>
      let prefix_len := (length (segments p) - 1)%nat in
      if (length ref_segments <=? prefix_len)%nat then Some false
      else zip_all (take prefix_len (segments p)) (take prefix_len ref_segments)
  | _ =>
      if negb (Nat.eqb (length ref_segments) (length (segments p))) then Some false
      else zip_all (segments p) ref_segments
  end.

Inductive UpdateKind := Create | FastForward | NonFastForward | Delete.
#[export] Instance UpdateKind_eq_dec : EqDecision UpdateKind.
Proof. solve_decision. Defined.

Definition ZERO_OID : string := "0000000000000000000000000000000000000000".

(** [UpdateKind::classify]. *)
Definition classify (old_oid new_oid : string) (is_ancestor : bool) : UpdateKind :=
  if String.eqb old_oid ZERO_OID then Create
  else if String.eqb new_oid ZERO_OID then Delete
  else if is_ancestor then FastForward else NonFastForward.

Record RefUpdate := {
  ref_name : string;
  kind : UpdateKind;
  old_oid : string;
  new_oid : string;
}.

Record ProtectionRule := {
  pattern : RefPattern;
  push_role : option MemberRole;
  no_force_push : bool;
  no_delete : bool;
  require_patch : bool;
}.

Inductive RuleParseError :=
| TooFewValues | TooManyRules | InvalidPattern (e : PatternError) | UnknownRule (s : string)
| InvalidRole (s : string).

(** "Take the strictest": the same fold in the parser and in [for_ref]. *)
Definition strictest (current : option MemberRole) (role : MemberRole) : option MemberRole :=
  Some match current with
       | None => role
       | Some existing =>
           if permission_level existing <? permission_level role then role else existing
       end.

(** One rule string of [parse_protection_tag_with_warnings]. *)
Definition add_rule (rule : ProtectionRule) (unknown : list string) (rule_str : string)
    : Result (ProtectionRule * list string) RuleParseError :=
  match strip_prefix "push:" rule_str with
  | Some role_str =>
      let? role := ok_or (role_from_str role_str) (InvalidRole role_str) in
      match role with
      | Bot | Guest => Err (InvalidRole role_str)
      | _ => Ok ({| pattern := pattern rule; push_role := strictest (push_role rule) role;
                    no_force_push := no_force_push rule; no_delete := no_delete rule;
                    require_patch := require_patch rule |}, unknown)
      end
  | None =>
      if String.eqb rule_str "no-force-push" then
        Ok ({| pattern := pattern rule; push_role := push_role rule; no_force_push := true;
               no_delete := no_delete rule; require_patch := require_patch rule |}, unknown)
      else if String.eqb rule_str "no-delete" then
        Ok ({| pattern := pattern rule; push_role := push_role rule;
               no_force_push := no_force_push rule; no_delete := true;
               require_patch := require_patch rule |}, unknown)
      else if String.eqb rule_str "require-patch" then
        Ok ({| pattern := pattern rule; push_role := push_role rule;
               no_force_push := no_force_push rule; no_delete := no_delete rule;
               require_patch := true |}, unknown)
      else Ok (rule, unknown ++ [rule_str])
  end.

Fixpoint add_rules (rule : ProtectionRule) (unknown rule_strs : list string)
    : Result (ProtectionRule * list string) RuleParseError :=
  match rule_strs with
  | [] => Ok (rule, unknown)
  | s :: rest => let? ru := add_rule rule unknown s in add_rules (fst ru) (snd ru) rest
  end.

(** [parse_protection_tag_with_warnings]. *)
Definition parse_protection_tag_with_warnings (values : list string)
    : Result (ProtectionRule * list string) RuleParseError :=
  match values with
  | v0 :: (_ :: _) as rules =>
      let? p := map_err InvalidPattern (parse_pattern v0) in
      add_rules {| pattern := p; push_role := None; no_force_push := false; no_delete := false;
                   require_patch := false |} [] (tail values)
  | _ => Err TooFewValues
  end.

(** [parse_protection_tag]. *)
Definition parse_protection_tag (values : list string) : Result ProtectionRule RuleParseError :=
  let? ru := parse_protection_tag_with_warnings values in Ok (fst ru).

Record ParsedProtection := { rules : list ProtectionRule; unknown_rules : list string }.

(** The loop of [parse_protection_tags]. *)
Fixpoint parse_tags_loop (tags : list (list string)) (acc : ParsedProtection)
    : Result ParsedProtection RuleParseError :=
  match tags with
  | [] => Ok acc
  | tag :: rest =>
      if negb (bool_decide (head tag = Some "buzz-protect"%string)) then parse_tags_loop rest acc
      else if MAX_PROTECTION_RULES <=? Z.of_nat (length (rules acc)) then Err TooManyRules
      else
        let? ru := parse_protection_tag_with_warnings (tail tag) in
        parse_tags_loop rest {| rules := rules acc ++ [fst ru];
                                unknown_rules := unknown_rules acc ++ snd ru |}
  end.

(** [parse_protection_tags]. *)
Definition parse_protection_tags (tags : list (list string)) : Result ParsedProtection RuleParseError :=
  parse_tags_loop tags {| rules := []; unknown_rules := [] |}.

(** [default_min_role]. *)
Definition default_min_role (ref_name : string) (kind : UpdateKind) : MemberRole :=
  let is_branch := starts_with "refs/heads/" ref_name in
  let is_tag := starts_with "refs/tags/" ref_name in
  match kind with
  | Create => if is_branch || is_tag then Member else Admin
  | FastForward => if is_branch then Member else if is_tag then Admin else Admin
  | NonFastForward => Admin
  | Delete => Admin
  end.

Record EffectiveRules := {
  eff_push_role : option MemberRole;
  eff_no_force_push : bool;
  eff_no_delete : bool;
  eff_require_patch : bool;
  has_explicit_match : bool;
}.

Definition no_rules : EffectiveRules := {|
  eff_push_role := None; eff_no_force_push := false; eff_no_delete := false;
  eff_require_patch := false; has_explicit_match := false |}.

(** One step of [EffectiveRules::for_ref]; [None] when matching panics. *)
Definition union_rule (ref_name : string) (eff : option EffectiveRules) (rule : ProtectionRule)
    : option EffectiveRules :=
  match eff, pattern_matches (pattern rule) ref_name with
  | Some eff, Some true => Some {|
      eff_push_role := match push_role rule with
                       | Some role => strictest (eff_push_role eff) role
                       | None => eff_push_role eff
                       end;
      eff_no_force_push := eff_no_force_push eff || no_force_push rule;
      eff_no_delete := eff_no_delete eff || no_delete rule;
      eff_require_patch := eff_require_patch eff || require_patch rule;
      has_explicit_match := true |}
  | Some eff, Some false => Some eff
  | _, _ => None
  end.

(** [EffectiveRules::for_ref]. *)
Definition for_ref (ref_name : string) (rules : list ProtectionRule) : option EffectiveRules :=
  foldl (union_rule ref_name) (Some no_rules) rules.

(** The reasons of a [Denial], with what the message prints. *)
Inductive DenialReason :=
| BelowDefaultRole (min_role role : MemberRole)
| RequirePatch
| BelowRole (min_role role : MemberRole)
| ForcePushDenied
| DeleteDenied.

Record Denial := { denial_ref_name : string; denial_reason : DenialReason }.

(** [evaluate_ref_update] once the effective rules are known. *)
Definition evaluate_effective (update : RefUpdate) (role : MemberRole) (effective : EffectiveRules)
    : Result unit Denial :=
  let deny r := Err {| denial_ref_name := ref_name update; denial_reason := r |} in
  let default_role := default_min_role (ref_name update) (kind update) in
  if negb (has_explicit_match effective) then
    if negb (has_at_least role default_role) then deny (BelowDefaultRole default_role role) else Ok tt
  else if eff_require_patch effective then deny RequirePatch
  else
    let min_role := match eff_push_role effective with
                    | Some explicit =>
                        if permission_level default_role <=? permission_level explicit
                        then explicit else default_role
                    | None => default_role
                    end in
    if negb (has_at_least role min_role) then deny (BelowRole min_role role)
    else if eff_no_force_push effective && bool_decide (kind update = NonFastForward)
    then deny ForcePushDenied
    else if eff_no_delete effective && bool_decide (kind update = Delete) then deny DeleteDenied
    else Ok tt.

(** [evaluate_ref_update]; [None] when matching panics. *)
Definition evaluate_ref_update (update : RefUpdate) (role : MemberRole) (rules : list ProtectionRule)
    : option (Result unit Denial) :=
  evaluate_effective update role <$> for_ref (ref_name update) rules.

(** The denials [evaluate_push] collects. *)
Fixpoint push_denials (updates : list RefUpdate) (role : MemberRole) (rules : list ProtectionRule)
    : option (list Denial) :=
  match updates with
  | [] => Some []
  | update :: rest =>
      match evaluate_ref_update update role rules with
      | None => None
      | Some (Ok _) => push_denials rest role rules
      | Some (Err d) => cons d <$> push_denials rest role rules
      end
  end.

(** [evaluate_push]. *)
Definition evaluate_push (updates : list RefUpdate) (role : MemberRole) (rules : list ProtectionRule)
    : option (Result unit (list Denial)) :=
  (fun denials => if bool_decide (denials = []) then Ok tt else Err denials)
    <$> push_denials updates role rules.

(** ** Pattern semantics *)

(** The documented meaning of a pattern, on the parts of the pattern and of the
    ref: ["*"] is any one part, a last ["**"] one or more, anything else itself. *)
Fixpoint glob (pats refs : list string) : bool :=
  match pats, refs with
  | [], [] => true
  | p :: pats', r :: refs' =>
      if String.eqb p "**" then true
      else (String.eqb p "*" || String.eqb p r) && glob pats' refs'
  | _, _ => false
  end.

(** [pattern_matches] on split lists. *)
Definition match_segments (segs : list PatternSegment) (refs : list string) : option bool :=
  match last segs with
  | Some RecursiveWildcard =>
      let prefix_len := (length segs - 1)%nat in
      if (length refs <=? prefix_len)%nat then Some false
      else zip_all (take prefix_len segs) (take prefix_len refs)
  | _ => if negb (Nat.eqb (length refs) (length segs)) then Some false else zip_all segs refs
  end.

Definition segment_accepts (x : PatternSegment) (r : string) : bool :=
  match x with
  | Literal l => String.eqb l r
  | _ => true
  end.

Lemma match_segments_cons x segs r refs :
  x <> RecursiveWildcard ->
  match_segments (x :: segs) (r :: refs) =
  if segment_accepts x r then match_segments segs refs else Some false.
Proof.
  intros Hx. unfold match_segments. destruct segs as [|y segs].
  - destruct x as [l| |]; [| |done]; cbn; destruct refs; cbn; try done; by destruct (String.eqb l r).
  - rewrite last_cons_cons. destruct (last (y :: segs)) as [[l'| |]|].
    3: { replace (length (x :: y :: segs) - 1)%nat with (S (length (y :: segs) - 1)) by (cbn; lia).
         cbn [take length]. destruct x as [l| |]; cbn [zip_all segment_accepts]; [| |done].
         all: destruct (Nat.leb_spec (S (length refs)) (S (S (length segs) - 1)));
           destruct (Nat.leb_spec (length refs) (S (length segs) - 1)); try lia; try done;
           by destruct (String.eqb l r). }
    all: cbn [length Nat.eqb]; destruct x as [l| |]; cbn [zip_all segment_accepts]; try done;
      destruct (Nat.eqb _ _); cbn [negb]; try done; by destruct (String.eqb l r).
Qed.

Lemma match_segments_nil x segs : match_segments (x :: segs) [] = Some false.
Proof. unfold match_segments. destruct (last (x :: segs)) as [[]|]; done. Qed.

Lemma parse_segments_glob parts n segs refs :
  parse_segments parts n = Ok segs -> match_segments segs refs = Some (glob parts refs).
Proof.
  revert n segs refs. induction parts as [|p parts IH]; intros n segs refs; cbn [parse_segments].
  { intros [= <-]. by destruct refs. }
  destruct (String.eqb_spec p "**") as [->|Hrec].
  - case_bool_decide as Hnil; [subst|done]. cbn [negb]. case_match; [done|].
    cbn. intros [= <-]. by destruct refs.
  - assert (forall x segs', x <> RecursiveWildcard -> (forall r, segment_accepts x r = (String.eqb p "*" || String.eqb p r)) ->
      (exists m, parse_segments parts m = Ok segs') -> match_segments (x :: segs') refs = Some (glob (p :: parts) refs))
      as Hstep.
    { intros x segs' Hx Hacc [m Hm]. destruct refs as [|r refs]; [apply match_segments_nil|].
      rewrite match_segments_cons, Hacc, (IH m segs' refs Hm) by done. cbn [glob].
      apply String.eqb_neq in Hrec as ->. by destruct (_ || _). }
    destruct (String.eqb_spec p "*") as [->|Hstar].
    + case_match; [done|]. rewrite rbind_ok. intros (segs' & Hs & [= <-]). apply Hstep; [done|done|eauto].
    + repeat (case_match; [done|]). rewrite rbind_ok. intros (segs' & Hs & [= <-]). apply Hstep; [done|done|eauto].
Qed.

Lemma parsed_pattern_glob s p ref :
  parse_pattern s = Ok p -> pattern_matches p ref = Some (glob (split_on "/" s) (split_on "/" ref)).
Proof.
  unfold parse_pattern. repeat (case_match; [done|]). rewrite rbind_ok. intros (segs & Hs & [= <-]).
  exact (parse_segments_glob _ _ _ (split_on "/" ref) Hs).
Qed.

(** A parsed pattern matches exactly the refs its documentation says: part
    by part, ["*"] standing for one part and a last ["**"] for one or more;
    the [unreachable!] arms are never reached. *)
Theorem pattern_matches_spec s p ref :
  parse_pattern s = Ok p ->
  raw p = s /\ pattern_matches p ref = Some (glob (split_on "/" s) (split_on "/" ref)).
Proof.
  intros Hp. split; [|by apply parsed_pattern_glob]. unfold parse_pattern in Hp.
  repeat (case_match; [done|]). apply rbind_ok in Hp as (segs & _ & [= <-]). done.
Qed.

Lemma pattern_matches_spec_witness : exists p,
  parse_pattern "refs/heads/*/**" = Ok p /\ pattern_matches p "refs/heads/a/b/c" = Some true.
Proof.
  destruct (parse_pattern "refs/heads/*/**") as [p|] eqn:E; [|vm_compute in E; discriminate E].
  exists p. split; [reflexivity|].
  destruct (pattern_matches_spec "refs/heads/*/**" p "refs/heads/a/b/c" E) as [_ ->]. reflexivity.
Defined.

(** ** Effective rules *)

Definition rule_wf (rule : ProtectionRule) : Prop := exists s, parse_pattern s = Ok (pattern rule).

Definition applies (ref : string) (rule : ProtectionRule) : bool :=
  bool_decide (pattern_matches (pattern rule) ref = Some true).

Definition meets (required : option MemberRole) (role : MemberRole) : Prop :=
  forall q, required = Some q -> permission_level q <= permission_level role.

Lemma meets_strictest current q role :
  meets (strictest current q) role <-> meets current role /\ permission_level q <= permission_level role.
Proof.
  unfold meets, strictest. destruct current as [c|].
  - destruct (Z.ltb_spec (permission_level c) (permission_level q)); split.
    + intros Hq. specialize (Hq q eq_refl). split; [intros ? [= <-]; lia | done].
    + intros [_ Hq] ? [= <-]. done.
    + intros Hc. specialize (Hc c eq_refl). split; [intros ? [= <-]; lia | lia].
    + intros [Hc _]. done.
  - split; [intros Hq; split; [done|by apply Hq]|]. intros [_ Hq] ? [= <-]. done.
Qed.

(** The unions [for_ref] computes. *)
Record effective_ok (ref : string) (rs : list ProtectionRule) (eff : EffectiveRules) : Prop := {
  eff_explicit : has_explicit_match eff = existsb (applies ref) rs;
  eff_patch : eff_require_patch eff = existsb (fun r => applies ref r && require_patch r) rs;
  eff_force : eff_no_force_push eff = existsb (fun r => applies ref r && no_force_push r) rs;
  eff_delete : eff_no_delete eff = existsb (fun r => applies ref r && no_delete r) rs;
  eff_role : forall role, meets (eff_push_role eff) role <->
    forall r, r ∈ rs -> applies ref r = true -> meets (push_role r) role;
}.

Lemma for_ref_ok ref rs :
  Forall rule_wf rs -> exists eff, for_ref ref rs = Some eff /\ effective_ok ref rs eff.
Proof.
  unfold for_ref. induction rs as [|rule rs IH] using rev_ind; intros Hwf.
  - exists no_rules. split; [done|]. split; try done. intros role. split; [|done].
    by intros _ r ?%not_elem_of_nil.
  - apply Forall_app in Hwf as [Hwf Hs]. apply Forall_cons_1 in Hs as [[s Hs] _].
    destruct (IH Hwf) as (eff & Heff & [H1 H2 H3 H4 H5]).
    rewrite foldl_app. cbn [foldl]. rewrite Heff. cbn [union_rule].
    pose proof (parsed_pattern_glob s (pattern rule) ref Hs) as Hm.
    assert (applies ref rule = glob (split_on "/" s) (split_on "/" ref)) as Ha.
    { unfold applies. rewrite Hm. destruct (glob _ _); [by apply bool_decide_eq_true_2 | by apply bool_decide_eq_false_2]. }
    rewrite Hm. destruct (glob _ _).
    + eexists. split; [done|]. split; cbn; rewrite ?existsb_app; cbn; rewrite ?Ha, ?orb_true_r; try done.
      * by rewrite H2, orb_false_r.
      * by rewrite H3, orb_false_r.
      * by rewrite H4, orb_false_r.
      * intros role. setoid_rewrite elem_of_app. setoid_rewrite list_elem_of_singleton.
        destruct (push_role rule) as [q|] eqn:Hq.
        -- rewrite meets_strictest, H5. split.
           ++ intros [Hall Hle] r [Hr| ->] Hr'; [by apply Hall|]. rewrite Hq. intros ? [= <-]. done.
           ++ intros Hall. split; [intros r Hr; apply Hall; by left|]. apply (Hall rule); [by right|done|done].
        -- rewrite H5. split.
           ++ intros Hall r [Hr| ->] Hr'; [by apply Hall|]. by rewrite Hq.
           ++ intros Hall r Hr. apply Hall. by left.
    + eexists. split; [done|]. split; rewrite ?existsb_app; cbn; rewrite ?Ha, ?orb_false_r; try done.
      intros role. rewrite H5. setoid_rewrite elem_of_app. setoid_rewrite list_elem_of_singleton.
      split; [|eauto]. intros Hall r [Hr| ->] Hr'; [by apply Hall | congruence].
Qed.

(** ** The policy *)

(** What the policy allows: the role reaches the built-in default and every
    matching rule, and no matching rule forbids the kind of update. *)
Definition allowed (u : RefUpdate) (role : MemberRole) (rs : list ProtectionRule) : Prop :=
  permission_level (default_min_role (ref_name u) (kind u)) <= permission_level role
  /\ forall r, r ∈ rs -> applies (ref_name u) r = true ->
       meets (push_role r) role /\ require_patch r = false
       /\ (kind u = NonFastForward -> no_force_push r = false)
       /\ (kind u = Delete -> no_delete r = false).

Lemma existsb_applies ref (f : ProtectionRule -> bool) rs :
  existsb (fun r => applies ref r && f r) rs = false <->
  forall r, r ∈ rs -> applies ref r = true -> f r = false.
Proof.
  rewrite existsb_false. split; intros Hall r Hr; specialize (Hall r Hr).
  - intros Ha. by rewrite Ha in Hall.
  - destruct (applies ref r); [by apply Hall | done].
Qed.

(** The stricter of an explicit role and the default. *)
Lemma stricter_role explicit d role :
  has_at_least role (if permission_level d <=? permission_level explicit then explicit else d) = true <->
  permission_level explicit <= permission_level role /\ permission_level d <= permission_level role.
Proof.
  rewrite has_at_least_spec. destruct (Z.leb_spec (permission_level d) (permission_level explicit)); lia.
Qed.

(** The role check of [evaluate_effective] on the stricter of rule and default. *)
Lemma required_role_spec o d role :
  has_at_least role match o with
                    | Some explicit => if permission_level d <=? permission_level explicit then explicit else d
                    | None => d
                    end = true <->
  permission_level d <= permission_level role /\ meets o role.
Proof.
  unfold meets. destruct o as [q|].
  - rewrite stricter_role. split; [intros [? ?]; split; [done|by intros ? [= <-]]|].
    intros [? Hq]. split; [by apply Hq | done].
  - rewrite has_at_least_spec. split; [done | by intros [? _]].
Qed.

Lemma evaluate_effective_cases u role eff :
  evaluate_effective u role eff = Ok tt <->
  permission_level (default_min_role (ref_name u) (kind u)) <= permission_level role
  /\ (has_explicit_match eff = true ->
       meets (eff_push_role eff) role /\ eff_require_patch eff = false
       /\ (kind u = NonFastForward -> eff_no_force_push eff = false)
       /\ (kind u = Delete -> eff_no_delete eff = false)).
Proof.
  unfold evaluate_effective. set (d := default_min_role _ _).
  destruct (has_explicit_match eff); cbn [negb].
  2:{ rewrite <- has_at_least_spec. destruct (has_at_least role d); cbn; split; try done.
      by intros [? _]. }
  destruct (eff_require_patch eff); [split; [done|]; by intros (_ & (_ & ? & _))|].
  pose proof (required_role_spec (eff_push_role eff) d role) as Hr.
  destruct (has_at_least role _); cbn [negb].
  2:{ split; [done|]. intros (Hd & Hm). destruct Hr as [_ Hr]. discriminate Hr.
      split; [done | by apply Hm]. }
  destruct (proj1 Hr eq_refl) as [Hd Hm].
  destruct (eff_no_force_push eff), (eff_no_delete eff); repeat case_bool_decide; cbn [andb];
    (split; [try done; intros _; split_and!; try done; intros _; split_and!; congruence
            | try done; intros (_ & Hx); destruct (Hx eq_refl) as (_ & _ & Hf & Hdel)]).
  all: first [by specialize (Hf ltac:(done)) | by specialize (Hdel ltac:(done))].
Qed.

Lemma evaluate_effective_ok u role rs eff :
  effective_ok (ref_name u) rs eff -> evaluate_effective u role eff = Ok tt <-> allowed u role rs.
Proof.
  intros [He Hp Hf Hd Hr]. rewrite evaluate_effective_cases. unfold allowed.
  rewrite Hp, Hf, Hd, Hr, !existsb_applies. destruct (has_explicit_match eff) eqn:Hex.
  - split.
    + intros (Hl & Hall). destruct (Hall eq_refl) as (H1 & H2 & H3 & H4). split; [done|]. auto 10.
    + intros (Hl & Hall). split; [done|]. intros _. split_and!; intros; by eapply Hall.
  - symmetry in He. rewrite existsb_false in He. split.
    + intros (Hl & _). split; [done|]. intros r H1 H2. by rewrite (He r H1) in H2.
    + intros (Hl & _). done.
Qed.

Lemma evaluate_total u role rs :
  Forall rule_wf rs -> exists v, evaluate_ref_update u role rs = Some v /\ (v = Ok tt <-> allowed u role rs).
Proof.
  intros Hwf. destruct (for_ref_ok (ref_name u) rs Hwf) as (eff & He & Hok).
  unfold evaluate_ref_update. rewrite He. cbn. eexists. split; [done|]. by apply evaluate_effective_ok.
Qed.

(** C35. A ref update passes exactly when the pusher's role reaches both the
    built-in default and every matching rule's role, no matching rule requires
    a patch, a non-fast-forward meets no [no-force-push] and a deletion no
    [no-delete]; evaluation never panics on parsed rules. *)
Theorem evaluate_ref_update_spec u role rs :
  Forall rule_wf rs ->
  exists v, evaluate_ref_update u role rs = Some v /\ (v = Ok tt <-> allowed u role rs).
Proof. apply evaluate_total. Qed.

Lemma allowed_weaken u role role' rs rs' :
  (forall r, r ∈ rs -> r ∈ rs') -> permission_level role <= permission_level role' ->
  allowed u role rs' -> allowed u role' rs.
Proof.
  intros Hsub Hle (Hd & Hall). split; [lia|]. intros r Hr Ha.
  destruct (Hall r (Hsub r Hr) Ha) as (Hm & H2 & H3 & H4). split_and!; [|done|done|done].
  intros q Hq. specialize (Hm q Hq). lia.
Qed.

(** Rules only ever restrict, roles only ever extend: what a push may do
    under some rules it may also do under fewer of them and with a higher
    role. *)
Theorem policy_monotone u role role' rs rs' :
  Forall rule_wf rs' -> (forall r, r ∈ rs -> r ∈ rs') ->
  permission_level role <= permission_level role' ->
  evaluate_ref_update u role rs' = Some (Ok tt) -> evaluate_ref_update u role' rs = Some (Ok tt).
Proof.
  intros Hwf Hsub Hle He.
  assert (Forall rule_wf rs) as Hwf'.
  { apply Forall_elem. intros r Hr. rewrite Forall_elem in Hwf. by apply Hwf, Hsub. }
  destruct (evaluate_total u role rs' Hwf) as (v & Hv & Hiff). rewrite He in Hv. injection Hv as <-.
  destruct (evaluate_total u role' rs Hwf') as (v' & -> & Hiff'). f_equal. apply Hiff'.
  eapply allowed_weaken; [exact Hsub | exact Hle | by apply Hiff].
Qed.

(** Below the rules there is a floor: guests and bots never push, and only
    admins and owners force-push or delete, whatever the rules say. *)
Theorem policy_floor u role rs :
  Forall rule_wf rs -> evaluate_ref_update u role rs = Some (Ok tt) ->
  role ∈ [Owner; Admin; Member]
  /\ (kind u = NonFastForward \/ kind u = Delete -> is_elevated role = true).
Proof.
  intros Hwf He. destruct (evaluate_total u role rs Hwf) as (v & Hv & Hiff). rewrite He in Hv.
  injection Hv as <-. destruct (proj1 Hiff eq_refl) as [Hd _].
  assert (2 <= permission_level (default_min_role (ref_name u) (kind u))) as H2.
  { unfold default_min_role. destruct (kind u), (starts_with "refs/heads/" (ref_name u)),
      (starts_with "refs/tags/" (ref_name u)); cbn; lia. }
  split.
  - destruct role; cbn in Hd; rewrite !elem_of_cons; auto; lia.
  - intros [Hk|Hk]; rewrite Hk in Hd; cbn in Hd; destruct role; cbn in Hd; done || lia.
Qed.

(** A push is atomic: it passes exactly when every ref update would pass on
    its own, and otherwise it is refused with one denial per refused update,
    in order. *)
Theorem evaluate_push_spec updates role rs :
  Forall rule_wf rs ->
  (evaluate_push updates role rs = Some (Ok tt) <-> Forall (fun u => allowed u role rs) updates)
  /\ (forall ds, evaluate_push updates role rs = Some (Err ds) ->
       ds <> [] /\ ds = filter_map (fun u => match evaluate_ref_update u role rs with
                                            | Some (Err d) => Some d
                                            | _ => None
                                            end) updates).
Proof.
  intros Hwf. unfold evaluate_push.
  assert (exists ds, push_denials updates role rs = Some ds
    /\ ds = filter_map (fun u => match evaluate_ref_update u role rs with
                                 | Some (Err d) => Some d | _ => None end) updates
    /\ (ds = [] <-> Forall (fun u => allowed u role rs) updates)) as (ds & -> & Hds & Hiff).
  { induction updates as [|u us IH]; [exists []; by split_and!|].
    destruct IH as (ds & Hp & Hd & Hiff). cbn [push_denials filter_map].
    destruct (evaluate_total u role rs Hwf) as (v & Hv & Hu). rewrite Hv, Hp.
    destruct v as [[]|d].
    - exists ds. split_and!; [done|done|]. rewrite Hiff, list.Forall_cons.
      split; [intros Hf; split; [by apply Hu | done] | by intros [_ ?]].
    - exists (d :: ds). split_and!; [done|by rewrite Hd|]. split; [done|]. intros Hf.
      apply Forall_cons_1 in Hf as [Hf _]. by apply Hu in Hf. }
  cbn. case_bool_decide as Hnil.
  - split; [|done]. split; [intros _; by apply Hiff | done].
  - split; [split; [done|intros Hf; by apply Hiff in Hf]|]. intros ds' [= <-]. done.
Qed.

(** ** Reading the tags *)

Definition push_string (q : MemberRole) : string := ("push:" +:+ role_as_str q)%string.

Lemma role_from_str_sound s q : role_from_str s = Some q -> s = role_as_str q.
Proof.
  unfold role_from_str.
  repeat match goal with
  | |- context [String.eqb s ?t] => destruct (String.eqb_spec s t) as [->|_]; [by intros [= <-]|]
  end. done.
Qed.

(** What a parsed rule says about the strings read so far. *)
Record rule_reads (strs : list string) (p : RefPattern) (rule : ProtectionRule) : Prop := {
  reads_pattern : pattern rule = p;
  reads_patch : require_patch rule = bool_decide ("require-patch"%string ∈ strs);
  reads_force : no_force_push rule = bool_decide ("no-force-push"%string ∈ strs);
  reads_delete : no_delete rule = bool_decide ("no-delete"%string ∈ strs);
  reads_role : forall role, meets (push_role rule) role <->
    forall q, push_string q ∈ strs -> permission_level q <= permission_level role;
  reads_push : forall q, push_string q ∈ strs -> q ∈ [Owner; Admin; Member];
}.

Lemma bool_decide_snoc (x y : string) l :
  bool_decide (x ∈ l ++ [y]) = bool_decide (x ∈ l) || bool_decide (x = y).
Proof.
  apply eq_true_iff_eq. rewrite orb_true_iff, !bool_decide_eq_true, elem_of_app, list_elem_of_singleton. done.
Qed.

Lemma push_string_snoc q strs s : s <> push_string q -> push_string q ∈ strs ++ [s] <-> push_string q ∈ strs.
Proof. intros Hne. rewrite elem_of_app, list_elem_of_singleton. naive_solver. Qed.

Lemma push_string_inj q q' : push_string q = push_string q' -> q = q'.
Proof. by destruct q, q'. Qed.

(** A rule string that is not a push rule leaves the role alone. *)
Lemma reads_other strs p rule rule' s :
  strip_prefix "push:" s = None -> rule_reads strs p rule ->
  pattern rule' = pattern rule -> push_role rule' = push_role rule ->
  require_patch rule' = require_patch rule || bool_decide ("require-patch"%string = s) ->
  no_force_push rule' = no_force_push rule || bool_decide ("no-force-push"%string = s) ->
  no_delete rule' = no_delete rule || bool_decide ("no-delete"%string = s) ->
  rule_reads (strs ++ [s]) p rule'.
Proof.
  intros Hs [H1 H2 H3 H4 H5 H6] Hp Hr Hpatch Hforce Hdel.
  assert (forall q, s <> push_string q) as Hne.
  { intros q ->. unfold push_string in Hs. by rewrite strip_prefix_app in Hs. }
  split; rewrite ?bool_decide_snoc, ?Hp, ?Hr, ?Hpatch, ?Hforce, ?Hdel; try congruence.
  - intros role. rewrite H5. by setoid_rewrite push_string_snoc; [|apply Hne].
  - intros q Hq. apply H6. by apply push_string_snoc in Hq.
Qed.

Lemma add_rule_reads strs p rule unknown s rule' unknown' :
  rule_reads strs p rule -> add_rule rule unknown s = Ok (rule', unknown') ->
  rule_reads (strs ++ [s]) p rule'.
Proof.
  intros Hok. unfold add_rule. destruct (strip_prefix "push:" s) as [role_str|] eqn:Hs.
  - rewrite rbind_ok. intros (q & Hq & Hrest). destruct (role_from_str role_str) as [q'|] eqn:Er; [|done].
    injection Hq as ->. apply role_from_str_sound in Er as ->. apply strip_prefix_spec in Hs as ->.
    assert (q ∈ [Owner; Admin; Member] /\ rule' = {| pattern := pattern rule;
      push_role := strictest (push_role rule) q; no_force_push := no_force_push rule;
      no_delete := no_delete rule; require_patch := require_patch rule |}) as [Hin ->].
    { destruct q; try discriminate Hrest; injection Hrest as <- _; (split; [|done]);
        rewrite !elem_of_cons; auto. }
    destruct Hok as [H1 H2 H3 H4 H5 H6]. fold (push_string q).
    split; cbn; rewrite ?bool_decide_snoc, ?H2, ?H3, ?H4; try done.
    1, 2, 3: rewrite (bool_decide_eq_false_2 (_ = push_string q)), orb_false_r by (by destruct q); done.
    + intros role. rewrite meets_strictest, H5. setoid_rewrite elem_of_app.
      setoid_rewrite list_elem_of_singleton. split.
      * intros [Hall Hle] q' [Hq'|Hq']; [by apply Hall|]. apply push_string_inj in Hq' as ->. done.
      * intros Hall. split; [intros q' Hq'; apply Hall; by left | apply Hall; by right].
    + intros q'. rewrite elem_of_app, list_elem_of_singleton. intros [Hq'|Hq']; [by apply H6|].
      by apply push_string_inj in Hq' as ->.
  - destruct (String.eqb_spec s "no-force-push") as [->|Hf].
    { intros [= <- _]. eapply reads_other; try done; cbn; by rewrite ?orb_true_r, ?orb_false_r. }
    destruct (String.eqb_spec s "no-delete") as [->|Hd].
    { intros [= <- _]. eapply reads_other; try done; cbn; by rewrite ?orb_true_r, ?orb_false_r. }
    destruct (String.eqb_spec s "require-patch") as [->|Hp].
    { intros [= <- _]. eapply reads_other; try done; cbn; by rewrite ?orb_true_r, ?orb_false_r. }
    intros [= <- _]. eapply reads_other; try done; rewrite bool_decide_eq_false_2 by congruence;
      by rewrite orb_false_r.
Qed.

Lemma add_rules_reads strs p rule unknown rest rule' unknown' :
  rule_reads strs p rule -> add_rules rule unknown rest = Ok (rule', unknown') ->
  rule_reads (strs ++ rest) p rule'.
Proof.
  revert strs rule unknown. induction rest as [|s rest IH]; intros strs rule unknown Hok; cbn.
  - intros [= <- _]. by rewrite app_nil_r.
  - rewrite rbind_ok. intros ([rule1 unknown1] & H1 & H2). cbn in H2.
    replace (strs ++ s :: rest) with ((strs ++ [s]) ++ rest) by (by rewrite <- app_assoc).
    eapply IH; [|exact H2]. by eapply add_rule_reads.
Qed.

(** A parsed protection tag enforces exactly what its strings say: each
    flag is set when its word is among them, the role is the strictest of the
    [push:] roles (which are never bot or guest), and the pattern is the
    first value's. *)
Theorem parse_protection_tag_reads v0 strs rule :
  parse_protection_tag (v0 :: strs) = Ok rule ->
  exists p, parse_pattern v0 = Ok p /\ rule_reads strs p rule.
Proof.
  unfold parse_protection_tag. rewrite rbind_ok. intros ([rule' unknown] & Ht & [= <-]).
  unfold parse_protection_tag_with_warnings in Ht. destruct strs as [|s0 strs]; [done|].
  apply rbind_ok in Ht as (p & Hp & Ha). destruct (parse_pattern v0) as [p'|]; [|done].
  injection Hp as ->. exists p. split; [done|]. cbn [tail fst] in *.
  apply (add_rules_reads [] p _ _ _ _ _) in Ha; [done|]. split; try done.
  - intros role. split; [by intros _ q ?%not_elem_of_nil | done].
  - by intros q ?%not_elem_of_nil.
Qed.

Lemma parse_protection_tag_reads_witness : exists p rule,
  parse_protection_tag ["refs/heads/main"; "push:member"; "no-delete"; "push:admin"]%string = Ok rule
  /\ rule_reads ["push:member"; "no-delete"; "push:admin"]%string p rule /\ push_role rule = Some Admin.
Proof.
  destruct (parse_protection_tag ["refs/heads/main"; "push:member"; "no-delete"; "push:admin"]%string)
    as [rule|] eqn:E; [|vm_compute in E; discriminate E].
  destruct (parse_protection_tag_reads _ _ _ E) as (p & _ & Hr). exists p, rule.
  split; [reflexivity|]. split; [exact Hr|]. vm_compute in E. by injection E as <-.
Defined.

(** ** Sample rules *)

Definition main_pattern : RefPattern :=
  {| raw := "refs/heads/main"; segments := [Literal "refs"; Literal "heads"; Literal "main"] |}.
Definition main_rule (patch : bool) (role : option MemberRole) : ProtectionRule := {|
  pattern := main_pattern; push_role := role; no_force_push := true; no_delete := true;
  require_patch := patch |}.
Definition main_update (k : UpdateKind) : RefUpdate := {|
  ref_name := "refs/heads/main"; kind := k; old_oid := "a"; new_oid := "b" |}.

Lemma main_rule_wf patch role : rule_wf (main_rule patch role).
Proof. exists "refs/heads/main"%string. reflexivity. Qed.

Lemma evaluate_ref_update_spec_witness : exists v,
  evaluate_ref_update (main_update NonFastForward) Owner [main_rule false None] = Some v
  /\ (v = Ok tt <-> allowed (main_update NonFastForward) Owner [main_rule false None]).
Proof.
  apply evaluate_ref_update_spec. constructor; [apply main_rule_wf | constructor].
Defined.

Lemma policy_monotone_witness :
  evaluate_ref_update (main_update FastForward) Owner [] = Some (Ok tt).
Proof.
  apply (policy_monotone _ Admin Owner [] [main_rule false (Some Admin)]).
  - constructor; [apply main_rule_wf | constructor].
  - intros r Hr. by apply not_elem_of_nil in Hr.
  - cbn. lia.
  - vm_compute. reflexivity.
Defined.

Lemma policy_floor_witness : Member ∈ [Owner; Admin; Member].
Proof.
  apply (policy_floor (main_update FastForward) Member [main_rule false (Some Member)]).
  - constructor; [apply main_rule_wf | constructor].
  - vm_compute. reflexivity.
Defined.

Lemma evaluate_push_spec_witness :
  evaluate_push [main_update FastForward; main_update Delete] Owner [main_rule false None] = Some (Ok tt)
  <-> Forall (fun u => allowed u Owner [main_rule false None]) [main_update FastForward; main_update Delete].
Proof.
  apply evaluate_push_spec. constructor; [apply main_rule_wf | constructor].
Defined.

(** The type's documentation excludes ["**"]; the parser accepts it last. *)
Example recursive_wildcard_accepted : is_ok (parse_pattern "refs/heads/**") = true.
Proof. reflexivity. Qed.
