(* ===== verification/Conformance.v ===== *)
(** * The conformance checker

    [crates/buzz-conformance]: the relay emits a trace of what one request did,
    and [check_trace] replays it against the rules of the multi-tenant
    specification. The first breach of a rule is the answer. *)

From Stdlib Require Import ZArith Lia Ascii.
From stdpp Require Import base list strings numbers.
From S2P Require Import Prelude.
Local Open Scope Z_scope.

(** ** The trace *)

Definition SCHEMA_VERSION : Z := 1.

Inductive Verdict := Allow | Deny.
#[export] Instance Verdict_eq_dec : EqDecision Verdict.
Proof. solve_decision. Defined.
Inductive SanitizedReason := Restricted | Invalid | ServerError.
#[export] Instance SanitizedReason_eq_dec : EqDecision SanitizedReason.
Proof. solve_decision. Defined.

(** Labels are opaque strings: a community, a host, an actor, a channel. *)
Record AbstractState := { resolved_community : string; bound_host : string; actor : string }.
#[export] Instance AbstractState_eq_dec : EqDecision AbstractState.
Proof. solve_decision. Defined.

Inductive TraceAction :=
| WriteInsert (msg_id channel : string) (claimed_community : option string)
| WriteInsertGlobal (msg_id : string) (claimed_community : option string)
| WriteDuplicate (msg_id channel : string) (claimed_community : option string)
| SanitizedError (reason : SanitizedReason)
| AuthCheck (channel : string) (claimed_community : option string) (verdict : Verdict)
| ReadMessageRows (channel : option string) (row_communities : list string)
| ReadByIdRows (channel : option string) (row_communities : list string)
| ReadHostFeedRows (row_communities : list string)
| ImplBug (kind : string).

(** [TraceAction::kind], [action_channel]. *)
Definition action_kind (a : TraceAction) : string :=
  match a with
  | WriteInsert _ _ _ => "write_insert"
  | WriteInsertGlobal _ _ => "write_insert_global"
  | WriteDuplicate _ _ _ => "write_duplicate"
  | SanitizedError _ => "sanitized_error"
  | AuthCheck _ _ _ => "auth_check"
  | ReadMessageRows _ _ => "read_message_rows"
  | ReadByIdRows _ _ => "read_by_id_rows"
  | ReadHostFeedRows _ => "read_host_feed_rows"
  | ImplBug _ => "impl_bug"
  end.
Definition action_channel (a : TraceAction) : option string :=
  match a with
  | WriteInsert _ channel _ | WriteDuplicate _ channel _ | AuthCheck channel _ _ => Some channel
  | ReadMessageRows channel _ | ReadByIdRows channel _ => channel
  | _ => None
  end.

Record TraceStep := { schema_version : Z; action : TraceAction; state_after : AbstractState }.

(** ** The rules *)

(** The text of an error, by what it names. *)
Inductive Detail :=
| SchemaVersion (version : Z)
| ClaimMismatch (claimed resolved : string)
| ChangedMidRequest (field bootstrap step : string)
| ForeignRow (foreign resolved : string)
| ImplBugKind (kind : string)
| NoTrace
| NeverEmitted (missing : list string).
#[export] Instance Detail_eq_dec : EqDecision Detail.
Proof. solve_decision. Defined.
Inductive TransitionError :=
| IllegalTransition (step_index : nat) (detail : Detail)
| StateMismatch (step_index : nat) (detail : Detail)
| NonInterference (step_index : nat) (detail : Detail)
| CoverageBreach (detail : Detail).
#[export] Instance TransitionError_eq_dec : EqDecision TransitionError.
Proof. solve_decision. Defined.

(** [check_row_labels]. *)
Definition check_row_labels (i : nat) (model : AbstractState) (rows : list string)
    : Result unit TransitionError :=
  match find (fun c => negb (String.eqb c (resolved_community model))) rows with
  | Some foreign => Err (NonInterference i (ForeignRow foreign (resolved_community model)))
  | None => Ok tt
  end.

(** The obligations of one action, in [check_step]. *)
Definition check_action (i : nat) (model : AbstractState) (a : TraceAction) : Result unit TransitionError :=
  match a with
  | WriteInsert _ _ _ | WriteInsertGlobal _ _ | WriteDuplicate _ _ _ | SanitizedError _ => Ok tt
  | AuthCheck _ claimed verdict =>
      match verdict, claimed with
      | Allow, Some c =>
          fail_if negb (String.eqb c (resolved_community model))
            with IllegalTransition i (ClaimMismatch c (resolved_community model));
          Ok tt
      | _, _ => Ok tt
      end
  | ReadMessageRows _ rows | ReadByIdRows _ rows | ReadHostFeedRows rows => check_row_labels i model rows
  | ImplBug kind => Err (CoverageBreach (ImplBugKind kind))
  end.

(** [check_step]; [ModelState::bootstrap] copies the three fields of the state. *)
Definition check_step (i : nat) (model : AbstractState) (step : TraceStep) : Result unit TransitionError :=
  let s := state_after step in
  fail_if negb (String.eqb (resolved_community s) (resolved_community model))
    with StateMismatch i (ChangedMidRequest "resolved_community" (resolved_community model) (resolved_community s));
  fail_if negb (String.eqb (bound_host s) (bound_host model))
    with StateMismatch i (ChangedMidRequest "bound_host" (bound_host model) (bound_host s));
  fail_if negb (String.eqb (actor s) (actor model))
    with StateMismatch i (ChangedMidRequest "actor" (actor model) (actor s));
  check_action i model (action step).

(** The loop of [check_trace]: the version, then the step. *)
Definition check_one (i : nat) (model : AbstractState) (step : TraceStep) : Result unit TransitionError :=
  fail_if negb (schema_version step =? SCHEMA_VERSION) with IllegalTransition i (SchemaVersion (schema_version step));
  check_step i model step.
Fixpoint check_steps (i : nat) (model : AbstractState) (trace : list TraceStep)
    : Result unit TransitionError :=
  match trace with
  | [] => Ok tt
  | step :: rest => let? _ := check_one i model step in check_steps (S i) model rest
  end.

(** [Scenario]; the required kinds are a set, listed here in the order it is walked. *)
Record Scenario := { trace : list TraceStep; required_critical_actions : list string }.

(** The required kinds that never appeared. *)
Definition missing_actions (s : Scenario) : list string :=
  let seen := (fun step => action_kind (action step)) <$> trace s in
  List.filter (fun k => negb (bool_decide (k ∈ seen))) (required_critical_actions s).

(** [check_trace]. *)
Definition check_trace (s : Scenario) : Result unit TransitionError :=
  match trace s with
  | [] => Err (CoverageBreach NoTrace)
  | first :: _ =>
      fail_if negb (schema_version first =? SCHEMA_VERSION) with IllegalTransition 0 (SchemaVersion (schema_version first));
      let? _ := check_steps 0 (state_after first) (trace s) in
      fail_if negb (bool_decide (missing_actions s = [])) with CoverageBreach (NeverEmitted (sort_by String.leb (missing_actions s)));
      Ok tt
  end.

(** ** The specification *)

(** The labels an action observes: the rows it returned, the claim it allowed. *)
Definition observed (a : TraceAction) : list string :=
  match a with
  | ReadMessageRows _ rows | ReadByIdRows _ rows | ReadHostFeedRows rows => rows
  | AuthCheck _ (Some c) Allow => [c]
  | _ => []
  end.
Definition is_bug (a : TraceAction) : Prop := exists kind, a = ImplBug kind.

(** One request: one tenant, host and actor throughout, no label but the
    tenant's, no missing emit. *)
Definition step_conforms (model : AbstractState) (step : TraceStep) : Prop :=
  schema_version step = SCHEMA_VERSION /\ state_after step = model
  /\ (forall c, c ∈ observed (action step) -> c = resolved_community model)
  /\ ~ is_bug (action step).

(** ** Facts *)

Lemma find_foreign_none c rows :
  find (fun x => negb (String.eqb x c)) rows = None <-> forall x, x ∈ rows -> x = c.
Proof.
  induction rows as [|r rows IH]; cbn; [split; [by intros _ x ?%not_elem_of_nil|done]|].
  setoid_rewrite elem_of_cons. destruct (String.eqb_spec r c) as [->|Hne]; cbn; [rewrite IH; naive_solver|].
  split; [done|]. intros Hx. destruct Hne. apply Hx. auto.
Qed.

Lemma check_row_labels_ok i model rows :
  check_row_labels i model rows = Ok tt <-> forall c, c ∈ rows -> c = resolved_community model.
Proof.
  rewrite <- find_foreign_none. unfold check_row_labels. by destruct (find _ rows).
Qed.

Lemma check_action_ok i model a :
  check_action i model a = Ok tt <->
  (forall c, c ∈ observed a -> c = resolved_community model) /\ ~ is_bug a.
Proof.
  unfold is_bug. destruct a as [| | | |ch claimed v|ch rows|ch rows|rows|k]; cbn.
  1-4: split; [intros _; split; [by intros ? ?%not_elem_of_nil|by intros [? ?]]|done].
  - destruct v, claimed as [c|]; cbn;
      try (split; [intros _; split; [by intros ? ?%not_elem_of_nil|by intros [? ?]]|done]).
    setoid_rewrite list_elem_of_singleton.
    destruct (String.eqb_spec c (resolved_community model)) as [->|Hne]; cbn.
    + split; [intros _; split; [by intros ? ->|by intros [? ?]]|done].
    + split; [done|]. intros [Hc _]. destruct Hne. by apply Hc.
  - rewrite check_row_labels_ok. split; [intros Hr; split; [done|by intros [? ?]]|by intros [? _]].
  - rewrite check_row_labels_ok. split; [intros Hr; split; [done|by intros [? ?]]|by intros [? _]].
  - rewrite check_row_labels_ok. split; [intros Hr; split; [done|by intros [? ?]]|by intros [? _]].
  - split; [done|]. intros [_ Hb]. destruct Hb. by exists k.
Qed.

Lemma check_one_ok i model step : check_one i model step = Ok tt <-> step_conforms model step.
Proof.
  unfold check_one, check_step, step_conforms.
  destruct (Z.eqb_spec (schema_version step) SCHEMA_VERSION) as [->|Hv]; cbn; [|naive_solver].
  assert (state_after step = model <->
    resolved_community (state_after step) = resolved_community model
    /\ bound_host (state_after step) = bound_host model /\ actor (state_after step) = actor model) as Hs.
  { split; [by intros ->|]. destruct (state_after step), model. cbn. by intros (-> & -> & ->). }
  rewrite Hs.
  destruct (String.eqb_spec (resolved_community (state_after step)) (resolved_community model)) as [E1|];
    cbn [negb]; [|naive_solver].
  destruct (String.eqb_spec (bound_host (state_after step)) (bound_host model)) as [E2|]; cbn [negb]; [|naive_solver].
  destruct (String.eqb_spec (actor (state_after step)) (actor model)) as [E3|]; cbn [negb]; [|naive_solver].
  rewrite check_action_ok. naive_solver.
Qed.

Lemma check_one_err i model step e : check_one i model step = Err e -> ~ step_conforms model step.
Proof. intros He Hc. apply (check_one_ok i) in Hc. congruence. Qed.

Lemma check_steps_ok i model l : check_steps i model l = Ok tt <-> Forall (step_conforms model) l.
Proof.
  revert i. induction l as [|s l IH]; intros i; cbn; [split; [constructor|done]|].
  destruct (check_one i model s) as [[]|] eqn:E; cbn.
  - rewrite IH. split; [|intros H; by inversion H]. intros H. constructor; [by apply (check_one_ok i)|done].
  - split; [done|]. intros H. inversion H as [|? ? H1 H2]; subst. apply (check_one_ok i) in H1. by rewrite E in H1.
Qed.

Lemma check_steps_err i model l e :
  check_steps i model l = Err e ->
  exists l1 s l2, l = l1 ++ s :: l2 /\ Forall (step_conforms model) l1 /\ ~ step_conforms model s
  /\ check_one (i + length l1) model s = Err e.
Proof.
  revert i. induction l as [|s l IH]; intros i; cbn; [done|].
  destruct (check_one i model s) as [[]|e'] eqn:E; cbn.
  - intros (l1 & x & l2 & -> & H1 & H2 & H3)%IH. exists (s :: l1), x, l2. split_and!; [done| |done|].
    + constructor; [by apply (check_one_ok i)|done].
    + cbn. by rewrite Nat.add_succ_r.
  - intros [= ->]. exists [], s, l. cbn. rewrite Nat.add_0_r. split_and!; [done|constructor|by eapply check_one_err|done].
Qed.

Lemma missing_none s :
  missing_actions s = [] <->
  forall k, k ∈ required_critical_actions s -> exists step, step ∈ trace s /\ action_kind (action step) = k.
Proof.
  unfold missing_actions. split.
  - intros Hf k Hk. destruct (decide (k ∈ (fun step => action_kind (action step)) <$> trace s)) as [Hin|Hn].
    + apply list_elem_of_fmap in Hin as (step & -> & Hs). eauto.
    + assert (k ∈ @nil string) as Hx; [|by apply not_elem_of_nil in Hx]. rewrite <- Hf. apply elem_of_filterb.
      split; [done|]. by rewrite bool_decide_eq_false_2.
  - intros Hall. apply filterb_nil. intros k Hk. destruct (Hall k Hk) as (step & Hs & <-).
    apply negb_false_iff, bool_decide_eq_true. apply list_elem_of_fmap. eauto.
Qed.

(** What the checker accepts. *)
Lemma check_trace_ok s :
  check_trace s = Ok tt <->
  (exists first, head (trace s) = Some first /\ Forall (step_conforms (state_after first)) (trace s))
  /\ forall k, k ∈ required_critical_actions s -> exists step, step ∈ trace s /\ action_kind (action step) = k.
Proof.
  pose proof (missing_none s) as Hm. unfold check_trace. destruct (trace s) as [|first rest] eqn:Et.
  { split; [done|by intros [(? & ? & _) _]]. }
  destruct (Z.eqb_spec (schema_version first) SCHEMA_VERSION) as [Hv|Hv]; cbn [negb].
  2:{ split; [done|]. intros [(f & [= <-] & HF) _]. inversion HF as [|? ? (? & _) _]. done. }
  pose proof (check_steps_ok 0 (state_after first) (first :: rest)) as Hs.
  destruct (check_steps 0 (state_after first) (first :: rest)) as [[]|e]; cbn [rbind].
  - case_bool_decide as Hmiss; cbn [negb].
    + split; [intros _; split; [exists first; split; [done|by apply Hs]|by apply Hm]|done].
    + split; [done|]. intros [_ Hall]. destruct Hmiss. by apply Hm.
  - split; [done|]. intros [(f & [= <-] & HF) _]. apply Hs in HF. congruence.
Qed.

(** C37. The checker is sound and complete for the specification: it accepts
    exactly the traces that are not empty, keep one tenant, host and actor from
    the first step on, show no label of another community, never report a
    missing emit, and contain every required action. What it blames is the
    first step that breaks a rule. *)
Theorem check_trace_exact s :
  (check_trace s = Ok tt <->
   (exists first, head (trace s) = Some first /\ Forall (step_conforms (state_after first)) (trace s))
   /\ forall k, k ∈ required_critical_actions s -> exists step, step ∈ trace s /\ action_kind (action step) = k)
  /\ forall e, check_trace s = Err e ->
     trace s = []
     \/ (exists first l1 step l2, head (trace s) = Some first /\ trace s = l1 ++ step :: l2
         /\ Forall (step_conforms (state_after first)) l1 /\ ~ step_conforms (state_after first) step
         /\ check_one (length l1) (state_after first) step = Err e)
     \/ (e = CoverageBreach (NeverEmitted (sort_by String.leb (missing_actions s))) /\ missing_actions s <> []).
Proof.
  split; [apply check_trace_ok|]. intros e. unfold check_trace.
  destruct (trace s) as [|first rest] eqn:Et; [auto|].
  destruct (Z.eqb_spec (schema_version first) SCHEMA_VERSION) as [Hv|Hv]; cbn [negb].
  2:{ intros [= <-]. right. left. exists first, [], first, rest. split_and!; [done|done|constructor| |].
      - by intros (? & _).
      - unfold check_one. cbn. by rewrite (proj2 (Z.eqb_neq _ _)) by done. }
  destruct (check_steps 0 (state_after first) (first :: rest)) as [[]|e'] eqn:Es; cbn [rbind].
  - case_bool_decide as Hmiss; cbn [negb]; [done|]. intros [= <-]. auto.
  - intros [= <-]. apply check_steps_err in Es as (l1 & x & l2 & E & H1 & H2 & H3).
    right. left. exists first, l1, x, l2. by split_and!.
Qed.

Definition alice (community : string) : AbstractState := {|
  resolved_community := community; bound_host := "h"; actor := "a" |}.
Definition step_of (a : TraceAction) : TraceStep := {|
  schema_version := SCHEMA_VERSION; action := a; state_after := alice "c1" |}.
Definition leaking : Scenario := {|
  trace := [step_of (AuthCheck "ch" (Some "c1"%string) Allow); step_of (ReadMessageRows None ["c1"; "c2"]%string)];
  required_critical_actions := ["auth_check"%string] |}.

Lemma check_trace_exact_witness :
  check_trace leaking = Err (NonInterference 1 (ForeignRow "c2" "c1"))
  /\ exists l1 step l2, trace leaking = l1 ++ step :: l2 /\ ~ step_conforms (alice "c1") step.
Proof.
  split; [reflexivity|].
  destruct (proj2 (check_trace_exact leaking) (NonInterference 1 (ForeignRow "c2" "c1")) eq_refl)
    as [He|[(f & l1 & st & l2 & Hf & Ht & _ & Hn & _)|[He _]]].
  - discriminate He.
  - exists l1, st, l2. split; [exact Ht|]. injection Hf as <-. exact Hn.
  - discriminate He.
Defined.
