(* ===== verification/Tracing.v ===== *)
(** * The relay's side of conformance

    [crates/buzz-relay/src/conformance]: what the relay records while it serves
    one request, the guard that reports a request that recorded nothing, and the
    places of [handlers/ingest.rs] and [handlers/req.rs] that record. Composed
    with the checker of Conformance.v: which requests pass. *)

From Stdlib Require Import ZArith Lia Ascii.
From stdpp Require Import base list strings numbers gmap.
From S2P Require Import Prelude MachineInt RustStr Event Conformance.
Local Open Scope Z_scope.

(** ** Labels *)

(** [buzz_core::tenant::TenantContext]. *)
Record TenantContext := { community : string; host : string }.

(** [actor_label]: keys are hex strings, of which sixteen characters are kept. *)
Definition actor_label (actor : string) : string := String.substring 0 16 actor.
(** [msg_id_label]: eight bytes of the id in hex, on the id in hex. *)
Definition msg_id_label (event_id : string) : string := String.substring 0 16 event_id.

(** [state_for_request]. *)
Definition state_for_request (tenant : TenantContext) (actor : string) : AbstractState := {|
  resolved_community := community tenant; bound_host := host tenant; actor := actor_label actor |}.

(** [TraceStep::new]. *)
Definition new_step (a : TraceAction) (s : AbstractState) : TraceStep := {|
  schema_version := SCHEMA_VERSION; action := a; state_after := s |}.

Section Emitter.
(** [Uuid::parse_str], to the canonical string. *)
Context (parse_uuid : string -> option string).

(** [claimed_community_from_event]: the first [h] tag decides. *)
Definition claimed_community_from_event (event : Event) : option string :=
  match find (fun tag => bool_decide (head tag = Some "h"%string)) (ev_tags event) with
  | Some tag => tag !! 1%nat ≫= parse_uuid
  | None => None
  end.

(** ** Tracers *)

(** A tracer that observes is the list of the steps it was given; the counter
    is an [AtomicUsize]. [enabled = false] is the tracer of production. *)
Record Tracer := { enabled : bool; steps : list TraceStep }.
Definition record (t : Tracer) (s : TraceStep) : Tracer :=
  if enabled t then {| enabled := true; steps := steps t ++ [s] |} else t.
Definition NoopTracer : Tracer := {| enabled := false; steps := [] |}.
Definition VecTracer : Tracer := {| enabled := true; steps := [] |}.

(** [EmitGuard], [CountingTracer]: one tracer and one counter that both share. *)
Record EmitGuard := { inner : Tracer; counter : Z; guard_state : AbstractState; kind : string }.
Definition arm (tracer : Tracer) (s : AbstractState) (k : string) : EmitGuard := {|
  inner := tracer; counter := 0; guard_state := s; kind := k |}.
Definition counting_record (g : EmitGuard) (s : TraceStep) : EmitGuard := {|
  inner := record (inner g) s; counter := (counter g + 1) mod 2 ^ 64;
  guard_state := guard_state g; kind := kind g |}.
(** [Drop::drop]. *)
Definition drop_guard (g : EmitGuard) : Tracer :=
  if counter g =? 0 then record (inner g) (new_step (ImplBug (kind g)) (guard_state g)) else inner g.

(** [emit], through the counting tracer of a request. *)
Definition emit (g : EmitGuard) (a : TraceAction) (s : AbstractState) : EmitGuard :=
  counting_record g (new_step a s).

(** ** Writes *)

Inductive IngestError := Rejected (m : string) | AuthFailed (m : string) | Internal (m : string).
(** [sanitized_reason_for]. *)
Definition sanitized_reason_for (e : IngestError) : SanitizedReason :=
  match e with
  | Rejected _ => Invalid
  | AuthFailed _ => Restricted
  | Internal _ => ServerError
  end.

(** What [ingest_event_inner] emits once an ordinary event is persisted, and
    for product feedback. *)
Definition persisted_action (channel : option string) (was_inserted : bool) (event : Event) : TraceAction :=
  let claimed := claimed_community_from_event event in
  match channel, was_inserted with
  | Some ch, true => WriteInsert (msg_id_label (ev_id event)) ch claimed
  | Some ch, false => WriteDuplicate (msg_id_label (ev_id event)) ch claimed
  | None, _ => WriteInsertGlobal (msg_id_label (ev_id event)) claimed
  end.
Definition feedback_action (event : Event) : TraceAction :=
  WriteInsertGlobal (msg_id_label (ev_id event)) (claimed_community_from_event event).

(** The wrapper [ingest_event] around a run of [ingest_event_inner], which is
    what the inner function emitted and what it returned. *)
Definition ingest_event {A} (tracer : Tracer) (tenant : TenantContext) (pubkey : string)
    (emitted : list TraceAction) (result : Result A IngestError) : Result A IngestError * Tracer :=
  let abstract_state := state_for_request tenant pubkey in
  let g := arm tracer abstract_state "ingest_event_exited_without_trace" in
  let g := foldl (fun g a => emit g a (state_for_request tenant pubkey)) g emitted in
  let g := match result with
           | Err err => emit g (SanitizedError (sanitized_reason_for err)) abstract_state
           | Ok _ => g
           end in
  (result, drop_guard g).
End Emitter.

(** ** Reads *)

(** [record_req_authcheck]. *)
Definition record_req_authcheck (t : Tracer) (s : AbstractState) (channel : string) (member : bool) : Tracer :=
  record t (new_step (AuthCheck channel None (if member then Allow else Deny)) s).

(** [project_row_community]: a row without a channel is the tenant's. *)
Definition project_row_community (row : option string) (resolved : string)
    (communities : gmap string string) : option string :=
  match row with
  | None => Some resolved
  | Some ch => communities !! ch
  end.

Inductive RowCommunityProjection :=
| ProjectedOk (labels : list string)
| MissingLookup (kind first_missing_channel : string).

(** [project_row_communities]. *)
Fixpoint project_row_communities (rows : list (option string)) (resolved : string)
    (communities : gmap string string) (out : list string) : RowCommunityProjection :=
  match rows with
  | [] => ProjectedOk out
  | row :: rest =>
      match project_row_community row resolved communities with
      | Some label => project_row_communities rest resolved communities (out ++ [label])
      | None => MissingLookup "row_community_lookup_missing" (default "" row)
      end
  end.

(** [record_read_message_rows], [record_read_by_id_rows]. *)
Definition record_read_message_rows (t : Tracer) (s : AbstractState) (filter_channel : option string)
    (rows : list (option string)) (communities : gmap string string) : Tracer :=
  match project_row_communities rows (resolved_community s) communities [] with
  | ProjectedOk labels => record t (new_step (ReadMessageRows filter_channel labels) s)
  | MissingLookup k _ => record t (new_step (ImplBug k) s)
  end.
Definition record_read_by_id_rows (t : Tracer) (s : AbstractState) (filter_channel : option string)
    (rows : list (option string)) (communities : gmap string string) : Tracer :=
  match project_row_communities rows (resolved_community s) communities [] with
  | ProjectedOk labels => record t (new_step (ReadByIdRows filter_channel labels) s)
  | MissingLookup k _ => record t (new_step (ImplBug k) s)
  end.

Section Reads.
(** [Db::communities_of_channels], over the distinct channels in order. *)
Context {E : Type} (communities_of_channels : list string -> Result (gmap string string) E).

(** The channels a set of rows names, through a [BTreeSet]. *)
Definition distinct_channels (rows : list (option string)) : list string :=
  sort_by String.leb (remove_dups (omap id rows)).
Definition looked_up (rows : list (option string)) : gmap string string :=
  match communities_of_channels (distinct_channels rows) with
  | Ok m => m
  | Err _ => ∅
  end.

(** The read seams of [handle_req], one query after the other: a lookup that
    nobody would observe is skipped. [None] is a malformed key. *)
Definition trace_message_rows (t : Tracer) (s : option AbstractState) (filter_channel : option string)
    (rows : list (option string)) : Tracer :=
  match s with
  | Some s => if enabled t then record_read_message_rows t s filter_channel rows (looked_up rows) else t
  | None => t
  end.
Definition trace_search_rows (t : Tracer) (s : option AbstractState) (rows : list (option string)) : Tracer :=
  match s with
  | Some s => if enabled t then record_read_by_id_rows t s None rows (looked_up rows) else t
  | None => t
  end.

(** A query a request runs: of a filter, or of a page of search hits. *)
Inductive Query := OfFilter (channel : option string) | OfSearch.
Definition trace_query (t : Tracer) (s : option AbstractState) (q : Query * list (option string)) : Tracer :=
  match q.1 with
  | OfFilter channel => trace_message_rows t s channel q.2
  | OfSearch => trace_search_rows t s q.2
  end.
End Reads.

(** ** Facts *)

Definition unstructured (trace : list TraceStep) : Scenario := {|
  trace := trace; required_critical_actions := [] |}.

(** Steps that share their state conform when their actions do. *)
Definition action_conforms (community : string) (a : TraceAction) : Prop :=
  (forall c, c ∈ observed a -> c = community) /\ ~ is_bug a.

Lemma check_unstructured s acts :
  check_trace (unstructured ((fun a => new_step a s) <$> acts)) = Ok tt <->
  acts <> [] /\ Forall (action_conforms (resolved_community s)) acts.
Proof.
  rewrite check_trace_ok. cbn [trace unstructured]. split.
  - intros [(f & Hf & HF) _]. destruct acts as [|a acts]; [done|]. split; [done|].
    injection Hf as <-. apply Forall_forall. intros x Hx.
    rewrite Forall_forall in HF. destruct (HF (new_step x s)) as (_ & _ & H1 & H2); [|by split].
    apply list_elem_of_fmap. eauto.
  - intros [Hne HF]. destruct acts as [|a acts]; [done|]. split; [|by intros k ?%not_elem_of_nil].
    eexists. split; [done|]. apply Forall_forall.
    intros x (y & -> & Hy)%list_elem_of_fmap. rewrite Forall_forall in HF. destruct (HF y Hy). by split_and!.
Qed.

Lemma record_enabled t s : enabled t = true -> record t s = {| enabled := true; steps := steps t ++ [s] |}.
Proof. unfold record. by intros ->. Qed.

Lemma emits_spec (l : list TraceAction) s g :
  enabled (inner g) = true -> 0 <= counter g -> counter g + Z.of_nat (length l) < 2 ^ 64 ->
  let g' := foldl (fun g a => emit g a s) g l in
  enabled (inner g') = true /\ steps (inner g') = steps (inner g) ++ ((fun a => new_step a s) <$> l)
  /\ counter g' = counter g + Z.of_nat (length l) /\ guard_state g' = guard_state g /\ kind g' = kind g.
Proof.
  revert g. induction l as [|a l IH]; intros g He H0 Hl; cbn [foldl fmap list_fmap length].
  { rewrite app_nil_r, Z.add_0_r. by split_and!. }
  cbn [length] in Hl. destruct (IH (emit g a s)) as (H1 & H2 & H3 & H4 & H5).
  - cbn. by rewrite record_enabled.
  - cbn. apply Z.mod_pos_bound. lia.
  - cbn. rewrite Z.mod_small; lia.
  - cbn [emit counting_record inner counter guard_state kind] in *. rewrite record_enabled in H2 by done.
    rewrite Z.mod_small in H3 by lia. split_and!; [done| |lia|done|done].
    rewrite H2. cbn [steps]. by rewrite <- app_assoc.
Qed.

(** The actions a request leaves in the trace. *)
Definition error_action {A} (result : Result A IngestError) : list TraceAction :=
  match result with
  | Err e => [SanitizedError (sanitized_reason_for e)]
  | Ok _ => []
  end.
Definition ingest_actions {A} (emitted : list TraceAction) (result : Result A IngestError) : list TraceAction :=
  let l := emitted ++ error_action result in
  if bool_decide (l = []) then [ImplBug "ingest_event_exited_without_trace"] else l.

Lemma ingest_trace {A} tenant pk emitted (result : Result A IngestError) :
  Z.of_nat (length emitted) + 1 < 2 ^ 64 ->
  ingest_event VecTracer tenant pk emitted result =
  (result, {| enabled := true;
              steps := (fun a => new_step a (state_for_request tenant pk)) <$> ingest_actions emitted result |}).
Proof.
  intros Hlen. unfold ingest_actions.
  set (s := state_for_request tenant pk). set (last := error_action result).
  transitivity (result, drop_guard (foldl (fun g a => emit g a s)
    (arm VecTracer s "ingest_event_exited_without_trace") (emitted ++ last))).
  { rewrite foldl_app. subst last. by destruct result. }
  assert (Z.of_nat (length (emitted ++ last)) < 2 ^ 64) as Hl
    by (rewrite length_app; subst last; destruct result; cbn; lia).
  destruct (emits_spec (emitted ++ last) s (arm VecTracer s "ingest_event_exited_without_trace"))
    as (H1 & H2 & H3 & H4 & H5); [done|done|done|].
  f_equal. unfold drop_guard. rewrite H3, H4, H5. cbn [counter arm]. rewrite Z.add_0_l. case_bool_decide as Hn.
  - rewrite Hn in *. cbn [length]. cbn in H1, H2 |- *. done.
  - destruct (Z.eqb_spec (Z.of_nat (length (emitted ++ last))) 0) as [E|_].
    { destruct (emitted ++ last); [done|cbn in E; lia]. }
    destruct (inner _) as [en st]. cbn in H1, H2. by subst.
Qed.

Lemma conforms_unobserved c a : observed a = [] -> ~ is_bug a -> action_conforms c a.
Proof. intros H Hb. split; [|done]. rewrite H. by intros x ?%not_elem_of_nil. Qed.

(** What the inner function may emit. *)
Definition is_write (a : TraceAction) : bool :=
  match a with
  | WriteInsert _ _ _ | WriteInsertGlobal _ _ | WriteDuplicate _ _ _ => true
  | _ => false
  end.
Lemma write_conforms c a : is_write a = true -> action_conforms c a.
Proof. intros H. destruct a; try done; apply conforms_unobserved; try done; by intros [? ?]. Qed.

(** *** Rows *)

Lemma project_row_communities_spec rows resolved m out :
  match project_row_communities rows resolved m out with
  | ProjectedOk labels =>
      exists l, labels = out ++ l /\ Forall2 (fun row x => project_row_community row resolved m = Some x) rows l
  | MissingLookup _ _ => exists row, row ∈ rows /\ project_row_community row resolved m = None
  end.
Proof.
  revert out. induction rows as [|row rows IH]; intros out; cbn [project_row_communities].
  { exists []. by rewrite app_nil_r. }
  destruct (project_row_community row resolved m) as [x|] eqn:E.
  - specialize (IH (out ++ [x])). destruct (project_row_communities rows resolved m (out ++ [x])) as [labels|k c].
    + destruct IH as (l & -> & Hl). exists (x :: l). rewrite <- app_assoc. split; [done|by constructor].
    + destruct IH as (r & Hr & Hn). exists r. split; [by constructor|done].
  - exists row. split; [constructor|done].
Qed.

Section ReadFacts.
Context {E : Type} (communities_of_channels : list string -> Result (gmap string string) E).

(** The action a query records. *)
Definition query_action (s : AbstractState) (q : Query * list (option string)) : TraceAction :=
  match project_row_communities q.2 (resolved_community s) (looked_up communities_of_channels q.2) [] with
  | ProjectedOk labels =>
      match q.1 with
      | OfFilter channel => ReadMessageRows channel labels
      | OfSearch => ReadByIdRows None labels
      end
  | MissingLookup k _ => ImplBug k
  end.

Lemma trace_query_eq t s q :
  trace_query communities_of_channels t (Some s) q = record t (new_step (query_action s q) s).
Proof.
  destruct q as [[ch|] rows]; unfold trace_query, trace_message_rows, trace_search_rows,
    record_read_message_rows, record_read_by_id_rows, query_action; cbn [fst snd];
    destruct (enabled t) eqn:He; try (unfold record; rewrite He; done);
    by destruct (project_row_communities _ _ _ _).
Qed.

Lemma trace_queries s qs t :
  enabled t = true ->
  foldl (fun t q => trace_query communities_of_channels t (Some s) q) t qs
  = {| enabled := true; steps := steps t ++ ((fun a => new_step a s) <$> (query_action s <$> qs)) |}.
Proof.
  revert t. induction qs as [|q qs IH]; intros t He; cbn [foldl fmap list_fmap].
  { rewrite app_nil_r. destruct t. cbn in *. by subst. }
  rewrite trace_query_eq, record_enabled by done. rewrite IH by done. cbn [steps]. by rewrite <- app_assoc.
Qed.

Lemma query_conforms s q :
  action_conforms (resolved_community s) (query_action s q) <->
  forall row, row ∈ q.2 ->
    project_row_community row (resolved_community s) (looked_up communities_of_channels q.2)
    = Some (resolved_community s).
Proof.
  unfold query_action. set (m := looked_up _ _).
  pose proof (project_row_communities_spec q.2 (resolved_community s) m []) as Hp.
  destruct (project_row_communities q.2 (resolved_community s) m []) as [labels|k c].
  - destruct Hp as (l & -> & Hl). rewrite app_nil_l.
    assert (action_conforms (resolved_community s)
      match q.1 with OfFilter channel => ReadMessageRows channel l | OfSearch => ReadByIdRows None l end <->
      forall c, c ∈ l -> c = resolved_community s) as ->.
    { destruct q.1; (split; [by intros [H _]|intros H; split; [done|by intros [? ?]]]). }
    split.
    + intros Hc row (i & Hi)%list_elem_of_lookup. destruct (Forall2_lookup_l _ _ _ _ _ Hl Hi) as (x & Hx & ->).
      f_equal. apply Hc. by eapply list_elem_of_lookup_2.
    + intros Hr x (i & Hi)%list_elem_of_lookup. destruct (Forall2_lookup_r _ _ _ _ _ Hl Hi) as (row & Hrow & Hx).
      rewrite Hr in Hx; [congruence|by eapply list_elem_of_lookup_2].
  - destruct Hp as (row & Hr & Hn). split.
    + intros [_ Hb]. destruct Hb. by exists k.
    + intros Hall. rewrite Hall in Hn; done.
Qed.

Lemma elem_of_distinct rows c : c ∈ distinct_channels rows <-> Some c ∈ rows.
Proof.
  unfold distinct_channels. rewrite sort_by_perm, elem_of_remove_dups, list_elem_of_omap.
  split; [|intros H; by exists (Some c)]. intros (o & Ho & Hi). cbn in Hi. by subst.
Qed.
End ReadFacts.

(** A write request passes exactly when it failed or recorded a write: the
    guard turns an accepted request that recorded nothing into a coverage
    breach, and the wrapper records every failure itself. *)
Theorem ingest_is_covered {A} tenant pk (emitted : list TraceAction) (result : Result A IngestError) :
  Z.of_nat (length emitted) + 1 < 2 ^ 64 -> Forall (fun a => is_write a = true) emitted ->
  let out := ingest_event VecTracer tenant pk emitted result in
  out.1 = result
  /\ (check_trace (unstructured (steps out.2)) = Ok tt <-> emitted <> [] \/ exists e, result = Err e)
  /\ (emitted = [] -> (exists v, result = Ok v) ->
      check_trace (unstructured (steps out.2))
      = Err (CoverageBreach (ImplBugKind "ingest_event_exited_without_trace")))
  /\ ingest_event NoopTracer tenant pk emitted result = (result, NoopTracer).
Proof.
  intros Hlen Hw out. subst out. rewrite ingest_trace by done. cbn [fst snd steps].
  split; [done|]. split; [|split].
  - rewrite check_unstructured. unfold ingest_actions. case_bool_decide as Hn.
    + apply app_eq_nil in Hn as [-> Hr]. split.
      * intros [_ HF]. inversion HF as [|? ? [_ Hb] _]. destruct Hb. by eexists.
      * intros [?|[e ->]]; done.
    + split.
      * intros _. destruct emitted; [right|by left]. destruct result as [|e]; [done|by exists e].
      * intros _. split; [done|]. apply Forall_app. split.
        -- eapply Forall_impl; [exact Hw|]. intros a. apply write_conforms.
        -- destruct result; constructor; [|constructor]. apply conforms_unobserved; [done|by intros [? ?]].
  - intros -> [v ->]. cbn [ingest_actions error_action app]. unfold check_trace, check_steps, check_one, check_step.
    cbn -[String.eqb]. by rewrite !String.eqb_refl.
  - assert (forall s g, inner g = NoopTracer -> inner (foldl (fun g a => emit g a s) g emitted) = NoopTracer) as Hf.
    { clear. intros s. induction emitted as [|a l IH]; intros g Hg; [done|]. cbn [foldl]. apply IH. cbn. by rewrite Hg. }
    unfold ingest_event. f_equal. set (g := foldl _ _ _).
    assert (inner g = NoopTracer) as Hg by by apply Hf.
    unfold drop_guard, record. destruct result; cbn [emit counting_record inner record]; unfold record;
      rewrite ?Hg; by destruct (_ =? 0).
Qed.

(** A read request passes exactly when no row it returned belongs to another
    community. [owner] is the community of a channel in the database; a lookup
    that failed, or a channel that has no owner, is reported as well. *)
Theorem leaking_read_is_caught {E} lookup (owner : string -> option string)
    tenant pk (auth : option (string * bool)) (qs : list (Query * list (option string))) :
  (forall l (m : gmap string string), lookup l = Ok (E := E) m -> forall c, c ∈ l -> m !! c = owner c) ->
  auth <> None \/ qs <> [] ->
  let s := state_for_request tenant pk in
  let start := match auth with
               | Some (channel, member) => record_req_authcheck VecTracer s channel member
               | None => VecTracer
               end in
  let out := foldl (fun t q => trace_query lookup t (Some s) q) start qs in
  check_trace (unstructured (steps out)) = Ok tt <->
  forall q channel, q ∈ qs -> Some channel ∈ q.2 ->
    owner channel = Some (community tenant) /\ exists m, lookup (distinct_channels q.2) = Ok m.
Proof.
  intros Howner Hne s start out.
  set (first := match auth with
                | Some (channel, member) => [AuthCheck channel None (if member : bool then Allow else Deny)]
                | None => []
                end).
  assert (steps out = (fun a => new_step a s) <$> (first ++ (query_action lookup s <$> qs))) as ->.
  { subst out. rewrite trace_queries by (subst start; by destruct auth as [[? ?]|]).
    rewrite fmap_app. cbn [steps]. f_equal. subst start first. by destruct auth as [[? ?]|]. }
  rewrite check_unstructured, Forall_app, Forall_fmap.
  assert (Forall (action_conforms (resolved_community s)) first) as Hfirst.
  { subst first. destruct auth as [[ch mb]|]; [|constructor]. constructor; [|constructor].
    destruct mb; apply conforms_unobserved; try done; by intros [? ?]. }
  transitivity (forall q, q ∈ qs -> action_conforms (resolved_community s) (query_action lookup s q)).
  { rewrite (Forall_forall _ qs). split; [intros (_ & _ & H); exact H|]. intros H. split_and!; [|done|exact H].
    destruct Hne as [Ha|Hq]; [subst first; destruct auth as [[? ?]|]; done|].
    destruct qs; [done|]. by destruct first. }
  assert (forall rows ch, Some ch ∈ rows ->
    (looked_up lookup rows !! ch = Some (community tenant) <->
     owner ch = Some (community tenant) /\ exists m, lookup (distinct_channels rows) = Ok m)) as Hl.
  { intros rows ch Hin. unfold looked_up. destruct (lookup (distinct_channels rows)) as [m|e] eqn:Elk.
    - rewrite (Howner _ _ Elk) by by apply elem_of_distinct. split; [eauto|by intros [? _]].
    - rewrite lookup_empty. split; [intros ?; discriminate|intros [_ [m Hm]]; discriminate Hm]. }
  setoid_rewrite query_conforms. split.
  - intros H q ch Hq Hch. apply Hl; [done|]. by apply (H q Hq (Some ch)).
  - intros H q Hq [ch|] Hrow; [|done]. cbn. apply Hl; [done|]. by apply H.
Qed.

Definition tenant1 : TenantContext := {| community := "c1"; host := "h" |}.
Definition owners : gmap string string := {["ch1" := "c1"; "ch2" := "c2"]}%string.
Definition lookup_owner (l : list string) : Result (gmap string string) unit := Ok owners.

Lemma ingest_is_covered_witness :
  check_trace (unstructured (steps (ingest_event (A := unit) VecTracer tenant1 "a" [] (Ok tt)).2))
  = Err (CoverageBreach (ImplBugKind "ingest_event_exited_without_trace")).
Proof.
  destruct (ingest_is_covered tenant1 "a" [] (Ok tt)) as (_ & _ & H & _); [reflexivity|constructor|].
  apply H; [reflexivity|by exists tt].
Defined.

Lemma leaking_read_is_caught_witness :
  check_trace (unstructured (steps (trace_query lookup_owner VecTracer
    (Some (state_for_request tenant1 "a")) (OfSearch, [Some "ch1"; Some "ch2"]%string)))) <> Ok tt.
Proof.
  intros H.
  pose proof (leaking_read_is_caught lookup_owner (fun c => owners !! c) tenant1 "a" None
    [(OfSearch, [Some "ch1"; Some "ch2"]%string)]) as Hc.
  cbv zeta in Hc. destruct Hc as [Hc _].
  - intros l m [= <-] c _. reflexivity.
  - right. discriminate.
  - destruct (Hc H (OfSearch, [Some "ch1"; Some "ch2"]%string) "ch2"%string) as [Ho _].
    + constructor.
    + do 2 constructor.
    + vm_compute in Ho. discriminate Ho.
Defined.
