(* ===== verification/AuditLog.v ===== *)
(** * The audit log

    [crates/buzz-audit]: one hash chain of entries per community, in the table
    [audit_log]. Bytes are strings; an instant is its nanoseconds. *)

From Stdlib Require Import ZArith Lia Ascii Sorted.
From stdpp Require Import base list sorting strings numbers relations.
From S2P Require Import Prelude MachineInt RustStr Json.
Local Open Scope Z_scope.

(** ** Actions *)

Inductive AuditAction :=
| EventCreated | EventDeleted | ChannelCreated | ChannelUpdated | ChannelDeleted | MemberAdded
| MemberRemoved | AuthSuccess | AuthFailure | RateLimitExceeded | MediaUploaded | EmployeeKeyReleased.

(** [AuditAction::as_str], [ALL], [FromStr]. *)
Definition action_str (a : AuditAction) : string :=
  match a with
  | EventCreated => "event_created"
  | EventDeleted => "event_deleted"
  | ChannelCreated => "channel_created"
  | ChannelUpdated => "channel_updated"
  | ChannelDeleted => "channel_deleted"
  | MemberAdded => "member_added"
  | MemberRemoved => "member_removed"
  | AuthSuccess => "auth_success"
  | AuthFailure => "auth_failure"
  | RateLimitExceeded => "rate_limit_exceeded"
  | MediaUploaded => "media_uploaded"
  | EmployeeKeyReleased => "employee_key_released"
  end.
Definition ALL : list AuditAction :=
  [EventCreated; EventDeleted; ChannelCreated; ChannelUpdated; ChannelDeleted; MemberAdded;
   MemberRemoved; AuthSuccess; AuthFailure; RateLimitExceeded; MediaUploaded; EmployeeKeyReleased].
Definition action_from_str (s : string) : option AuditAction :=
  find (fun a => String.eqb (action_str a) s) ALL.

(** ** Entries *)

Record AuditEntry := {
  community_id : string;
  seq : Z;
  hash : string;
  prev_hash : option string;
  action : AuditAction;
  actor_pubkey : option string;
  object_id : option string;
  detail : Json;
  created_at : Z;
}.

Record NewAuditEntry := {
  new_community : string;
  new_action : AuditAction;
  new_actor : option string;
  new_object : option string;
  new_detail : Json;
}.

Inductive AuditError :=
| Database
| ChainViolation (at_seq : Z)
| HashMismatch (at_seq : Z)
| UnknownAction
| Serialization (e : string).
#[export] Instance AuditError_eq_dec : EqDecision AuditError.
Proof. solve_decision. Defined.

(** What the crate calls: SHA-256, [Uuid::as_bytes], [DateTime::to_rfc3339],
    [serde_json::to_string], and what a [JSONB] column (which refuses some texts)
    and a [TIMESTAMPTZ] column give back. *)
Class AuditLib := {
  sha256 : string -> string;
  uuid_bytes : string -> string;
  to_rfc3339 : Z -> string;
  scalar_to_string : Json -> Result string string;
  jsonb : Json -> option Json;
  timestamptz : Z -> Z;
}.

(** The same value with the keys of its objects in another order. *)
Inductive json_same : Json -> Json -> Prop :=
| same_null : json_same JNull JNull
| same_bool b : json_same (JBool b) (JBool b)
| same_int n : json_same (JInt n) (JInt n)
| same_float t : json_same (JFloat t) (JFloat t)
| same_string s : json_same (JString s) (JString s)
| same_array l l' : Forall2 json_same l l' -> json_same (JArray l) (JArray l')
| same_object fs hs gs :
    NoDup (fst <$> fs) -> Forall2 (fun f h : string * Json => fst f = fst h /\ json_same (snd f) (snd h)) fs hs ->
    hs ≡ₚ gs -> json_same (JObject fs) (JObject gs).

(** A value of [serde_json], its keys distinct, without a fractional number. *)
Fixpoint plain (v : Json) : bool :=
  match v with
  | JFloat _ => false
  | JArray items => forallb plain items
  | JObject fields => bool_decide (NoDup (fst <$> fields)) && forallb (fun f => plain (snd f)) fields
  | _ => true
  end.

(** What the columns are documented to keep: [JSONB] gives back the value of a
    plain text but for the order of keys (it stores a number as a decimal, so
    the text of a fractional one may change), [TIMESTAMPTZ] a whole number of
    microseconds. *)
Class AuditLaws `{AuditLib} : Prop := {
  jsonb_same : forall v v', plain v = true -> jsonb v = Some v' -> json_same v v';
  timestamptz_micros : forall t, t mod 1000 = 0 -> timestamptz t = t;
}.

(** ** Hashing *)

Definition GENESIS_HASH : string := String.string_of_list_ascii (replicate 32 "000"%char).

(** [i64::to_be_bytes], in two's complement. *)
Definition i64_be_bytes (z : Z) : string := be_bytes 8 (z mod 2 ^ 64).

(** [to_storage_precision]: [trunc_subsecs(6)]. *)
Definition to_storage_precision (t : Z) : Z := t - t mod 1000.

Section Hash.
Context `{AuditLib}.

(** [out.push(',')] between the parts. *)
Fixpoint comma_join (parts : list string) : string :=
  match parts with
  | [] => ""
  | [p] => p
  | p :: rest => p ++ "," ++ comma_join rest
  end.

(** [canonical_json]: the keys of an object in order, nothing else changed. *)
Fixpoint canonical_json (v : Json) : Result string string :=
  match v with
  | JObject fields =>
      let texts := List.map (fun f => (fst f, canonical_json (snd f))) fields in
      let sorted := foldl (fun m f => bt_insert (fst f) (snd f) m) [] texts in
      let? parts := try_map (fun f : string * Result string string =>
        let? k := scalar_to_string (JString (fst f)) in
        let? x := snd f in
        Ok (k ++ ":" ++ x)%string) sorted in
      Ok ("{" ++ comma_join parts ++ "}")%string
  | JArray items =>
      let? parts := try_map canonical_json items in
      Ok ("[" ++ comma_join parts ++ "]")%string
  | _ => scalar_to_string v
  end.

(** A byte that says whether the field is there, then the field. *)
Definition tagged (o : option string) : string :=
  match o with
  | Some s => String "001" s
  | None => "000"
  end.

(** What [compute_hash] feeds the hasher, before and with the previous hash. *)
Definition preimage_body (entry : AuditEntry) : Result string AuditError :=
  let? d := map_err Serialization (canonical_json (detail entry)) in
  Ok (uuid_bytes (community_id entry) ++ i64_be_bytes (seq entry)
    ++ to_rfc3339 (to_storage_precision (created_at entry)) ++ action_str (action entry)
    ++ tagged (actor_pubkey entry) ++ tagged (object_id entry) ++ d)%string.
Definition preimage (entry : AuditEntry) : Result string AuditError :=
  let? body := preimage_body entry in
  Ok (body ++ default GENESIS_HASH (prev_hash entry))%string.
(** [compute_hash]. *)
Definition compute_hash (entry : AuditEntry) : Result string AuditError :=
  let? p := preimage entry in Ok (sha256 p).
End Hash.

(** ** The service *)

(** A row of [audit_log]; rows are kept in the order they were inserted. *)
Record AuditRow := {
  r_community : string;
  r_seq : Z;
  r_hash : string;
  r_prev_hash : option string;
  r_action : string;
  r_actor : option string;
  r_object : option string;
  r_detail : Json;
  r_created_at : Z;
}.

Section Service.
Context `{AuditLib}.

(** [row_to_audit_entry]. *)
Definition row_to_audit_entry (row : AuditRow) : Result AuditEntry AuditError :=
  let? a := ok_or (action_from_str (r_action row)) UnknownAction in
  Ok {| community_id := r_community row; seq := r_seq row; hash := r_hash row;
        prev_hash := r_prev_hash row; action := a; actor_pubkey := r_actor row;
        object_id := r_object row; detail := r_detail row; created_at := r_created_at row |}.

(** [ORDER BY seq ASC] over the rows of a community. *)
Definition seq_leb (a b : AuditRow) : bool := r_seq a <=? r_seq b.
Definition chain_of (community : string) (rows : list AuditRow) : list AuditRow :=
  sort_by seq_leb (List.filter (fun r => String.eqb (r_community r) community) rows).

(** The release build wraps [prev_seq + 1]. *)
Definition next_seq (prev : Z) : Z := if prev =? i64_max then i64_min else prev + 1.

(** [INSERT INTO audit_log]: the primary key and the unique index on the hash. *)
Definition insert_row (row : AuditRow) (rows : list AuditRow) : option (list AuditRow) :=
  if existsb (fun r => String.eqb (r_community r) (r_community row)
                       && ((r_seq r =? r_seq row) || String.eqb (r_hash r) (r_hash row))) rows
  then None
  else Some (rows ++ [row]).

(** The entry [log_inner] is about to write, without its hash. *)
Definition draft_entry (now : Z) (entry : NewAuditEntry) (rows : list AuditRow) : AuditEntry :=
  let head := last (chain_of (new_community entry) rows) in
  {| community_id := new_community entry;
     seq := next_seq (from_option r_seq 0 head);
     hash := "";
     prev_hash := r_hash <$> head;
     action := new_action entry;
     actor_pubkey := new_actor entry;
     object_id := new_object entry;
     detail := new_detail entry;
     created_at := to_storage_precision now |}.

(** The row of an entry, [d] what the column makes of its [detail]. *)
Definition entry_row (e : AuditEntry) (h : string) (d : Json) : AuditRow :=
  {| r_community := community_id e; r_seq := seq e; r_hash := h; r_prev_hash := prev_hash e;
     r_action := action_str (action e); r_actor := actor_pubkey e; r_object := object_id e;
     r_detail := d; r_created_at := timestamptz (created_at e) |}.
Definition with_hash (e : AuditEntry) (h : string) : AuditEntry :=
  {| community_id := community_id e; seq := seq e; hash := h; prev_hash := prev_hash e;
     action := action e; actor_pubkey := actor_pubkey e; object_id := object_id e;
     detail := detail e; created_at := created_at e |}.

(** [log], [log_inner]: the advisory lock makes the calls of one community
    follow each other, and the transaction makes each of them one step. *)
Definition log (fault : DbFault) (now : Z) (entry : NewAuditEntry) (rows : list AuditRow)
    : Result AuditEntry AuditError * list AuditRow :=
  match fault with
  | DbLost => (Err Database, rows)
  | _ =>
      let e := draft_entry now entry rows in
      match compute_hash e with
      | Err err => (Err err, rows)
      | Ok h =>
          match (d ← jsonb (detail e); insert_row (entry_row e h d) rows) with
          | None => (Err Database, rows)
          | Some rows' =>
              match fault with
              | CommitUnknown => (Err Database, rows')
              | _ => (Ok (with_hash e h), rows')
              end
          end
      end
  end.

Definition in_range (from_seq to_seq : Z) (r : AuditRow) : bool :=
  (from_seq <=? r_seq r) && (r_seq r <=? to_seq).

(** The loop of [verify_chain], from the hash it expects. *)
Fixpoint verify_rows (expected_prev : option string) (rows : list AuditRow) : Result unit AuditError :=
  match rows with
  | [] => Ok tt
  | row :: rest =>
      let? entry := row_to_audit_entry row in
      fail_if match expected_prev with
              | Some expected => negb (bool_decide (prev_hash entry = Some expected))
              | None => false
              end with ChainViolation (seq entry);
      let? computed := compute_hash entry in
      fail_if negb (String.eqb computed (hash entry)) with HashMismatch (seq entry);
      verify_rows (Some (hash entry)) rest
  end.
(** [verify_chain]. *)
Definition verify_chain (community : string) (from_seq to_seq : Z) (rows : list AuditRow)
    : Result bool AuditError :=
  match List.filter (in_range from_seq to_seq) (chain_of community rows) with
  | [] => Ok false
  | selected => let? _ := verify_rows None selected in Ok true
  end.

(** [get_entries]; the database refuses a negative limit. *)
Definition get_entries (community : string) (from_seq limit : Z) (rows : list AuditRow)
    : Result (list AuditEntry) AuditError :=
  fail_if limit <? 0 with Database;
  try_map row_to_audit_entry
    (take (Z.to_nat limit) (List.filter (fun r => from_seq <=? r_seq r) (chain_of community rows))).

(** A call of [log]. The relay's details are of texts, whole numbers and nulls. *)
Definition log_step (rows rows' : list AuditRow) : Prop :=
  exists fault now entry, plain (new_detail entry) = true /\ rows' = (log fault now entry rows).2.
End Service.

(** ** The chain of a community *)

Lemma action_roundtrip a : action_from_str (action_str a) = Some a.
Proof. by destruct a. Qed.

Section Chain.
Context `{AuditLib}.

(** A row whose hash is the hash of its entry. *)
Definition sealed (r : AuditRow) : Prop :=
  exists e, row_to_audit_entry r = Ok e /\ compute_hash e = Ok (r_hash r).

Inductive chained : list AuditRow -> Prop :=
| chain_nil : chained []
| chain_snoc l r :
    chained l -> r_seq r = Z.of_nat (length l) + 1 -> r_prev_hash r = r_hash <$> last l -> sealed r ->
    chained (l ++ [r]).

Lemma chain_seqs l : chained l -> r_seq <$> l = seqZ 1 (Z.of_nat (length l)).
Proof.
  induction 1 as [|l r _ IH Hs _ _]; [done|].
  rewrite fmap_app, IH, length_app, Nat2Z.inj_add. change (Z.of_nat (length [r])) with 1.
  rewrite seqZ_app by lia. f_equal. cbn [fmap list_fmap]. rewrite Hs, seqZ_cons by lia. f_equal. lia.
Qed.

Lemma chain_bound l x : chained l -> x ∈ l -> 1 <= r_seq x <= Z.of_nat (length l).
Proof.
  intros Hc Hx. assert (r_seq x ∈ seqZ 1 (Z.of_nat (length l))) as Hin.
  { rewrite <- chain_seqs by done. apply list_elem_of_fmap. eauto. }
  apply elem_of_seqZ in Hin. lia.
Qed.

Lemma chain_last l x : chained l -> last l = Some x -> r_seq x = Z.of_nat (length l).
Proof.
  intros Hc Hl. destruct Hc as [|l r Hc Hs _ _]; [done|]. rewrite last_snoc in Hl. injection Hl as <-.
  rewrite length_app. cbn. lia.
Qed.

Lemma chain_sorted l : chained l -> StronglySorted seq_leb l.
Proof.
  induction 1 as [|l r Hc IH Hs _ _]; [constructor|].
  apply StronglySorted_app_2; [|done|by repeat constructor].
  intros x y Hx Hy%list_elem_of_singleton. subst y. apply Is_true_true, Z.leb_le.
  pose proof (chain_bound _ _ Hc Hx). lia.
Qed.

Lemma chain_sort l : chained l -> sort_by seq_leb l = l.
Proof.
  intros Hc. apply (StronglySorted_unique_strong seq_leb).
  - intros x y Hx Hy. rewrite sort_by_perm in Hx. rewrite !Is_true_true. unfold seq_leb. rewrite !Z.leb_le.
    intros H1 H2. apply list_elem_of_lookup in Hx as [i Hi], Hy as [j Hj].
    assert (i = j) as ->; [|congruence].
    pose proof (f_equal (fun k => k !! i) (chain_seqs l Hc)) as Ei.
    pose proof (f_equal (fun k => k !! j) (chain_seqs l Hc)) as Ej.
    cbn in Ei, Ej. rewrite list_lookup_fmap, Hi in Ei. rewrite list_lookup_fmap, Hj in Ej. cbn in Ei, Ej.
    symmetry in Ei, Ej. apply lookup_seqZ in Ei, Ej. lia.
  - apply sort_by_sorted; unfold seq_leb; intros *; rewrite ?Z.leb_le; lia.
  - by apply chain_sorted.
  - by rewrite sort_by_perm.
Qed.

(** *** Verifying it *)

Lemma row_entry r e :
  row_to_audit_entry r = Ok e ->
  hash e = r_hash r /\ prev_hash e = r_prev_hash r /\ seq e = r_seq r /\ community_id e = r_community r.
Proof. unfold row_to_audit_entry. destruct (action_from_str _); [|done]. by intros [= <-]. Qed.

Lemma verify_rows_snoc p l r :
  verify_rows p (l ++ [r]) =
  let? _ := verify_rows p l in verify_rows (match last l with Some x => Some (r_hash x) | None => p end) [r].
Proof.
  revert p. induction l as [|x l IH]; intros p; [done|]. cbn [app verify_rows].
  destruct (row_to_audit_entry x) as [e|] eqn:He; [|done]. cbn [rbind].
  destruct (match p with Some _ => _ | None => _ end); [done|].
  destruct (compute_hash _) as [h|]; [|done]. cbn [rbind]. destruct (negb _); [done|].
  rewrite IH. f_equal. apply row_entry in He as (-> & _).
  destruct l; [done|]. cbn [last]. by destruct (last (_ :: _)) eqn:E; [|apply last_None in E].
Qed.

Lemma chain_verifies l from_seq to_seq :
  chained l -> verify_rows None (List.filter (in_range from_seq to_seq) l) = Ok tt.
Proof.
  induction 1 as [|l r Hc IH Hs Hp (e & He & Hh)]; [done|].
  rewrite List.filter_app. cbn [List.filter]. destruct (in_range from_seq to_seq r) eqn:Hr; [|by rewrite app_nil_r].
  rewrite verify_rows_snoc, IH. cbn [rbind verify_rows]. rewrite He. cbn [rbind]. rewrite Hh. cbn [rbind].
  destruct (row_entry _ _ He) as (Hhash & Hprev & _ & _).
  rewrite Hhash, Hprev, String.eqb_refl. cbn [negb].
  destruct (last (List.filter (in_range from_seq to_seq) l)) as [x|] eqn:Hx; [|done].
  assert (last l = Some x) as Hl; [|by rewrite Hp, Hl, bool_decide_eq_true_2].
  apply last_Some in Hx as [k Hk]. assert (x ∈ List.filter (in_range from_seq to_seq) l) as Hin
    by (rewrite Hk; apply elem_of_app; right; constructor).
  apply elem_of_filterb in Hin as [Hin Hrx]. unfold in_range in *. apply andb_prop in Hr as [_ Hr], Hrx as [Hrx _].
  apply Z.leb_le in Hr, Hrx. pose proof (chain_bound _ _ Hc Hin) as Hb.
  destruct (last l) as [y|] eqn:Hy; [|apply last_None in Hy; subst; by apply not_elem_of_nil in Hin].
  pose proof (chain_last _ _ Hc Hy) as Hsy. apply last_Some in Hy as [l' ->].
  rewrite List.filter_app in Hk. cbn [List.filter] in Hk. rewrite length_app in *. cbn [length] in *.
  replace ((from_seq <=? r_seq y) && (r_seq y <=? to_seq)) with true in Hk by lia.
  by apply app_inj_tail in Hk as [_ ->].
Qed.
End Chain.

(** ** The canonical text does not depend on the order of keys *)

Lemma inserted_get {V} (l : list (string * V)) k : NoDup (fst <$> l) ->
  let m := foldl (fun m f => bt_insert (fst f) (snd f) m) [] l in
  bt_wf m /\ forall x, bt_get k m = Some x <-> (k, x) ∈ l.
Proof.
  induction l as [|[k' v] l IH] using rev_ind; intros Hnd.
  - split; [constructor|]. intros x. cbn. split; [done|]. by intros ?%not_elem_of_nil.
  - rewrite fmap_app in Hnd. apply NoDup_app in Hnd as (Hnd & Hk' & _).
    destruct (IH Hnd) as [Hwf Hget]. cbn. rewrite foldl_app. cbn. split; [by apply bt_update_wf|]. intros x.
    rewrite elem_of_app, list_elem_of_singleton. unfold bt_insert.
    destruct (decide (k' = k)) as [->|Hne].
    + rewrite bt_get_update_eq. split; [intros [= ->]; by right|]. intros [Hin|[= ->]]; [|done].
      destruct (Hk' k); [|left]. apply list_elem_of_fmap. by exists (k, x).
    + rewrite bt_get_update_ne by done. rewrite Hget. split; [by left|]. intros [?|[= -> _]]; done.
Qed.

Lemma inserted_perm {V} (l l' : list (string * V)) : NoDup (fst <$> l) -> l ≡ₚ l' ->
  foldl (fun m f => bt_insert (fst f) (snd f) m) [] l = foldl (fun m f => bt_insert (fst f) (snd f) m) [] l'.
Proof.
  intros Hnd Hp. assert (NoDup (fst <$> l')) as Hnd' by (by rewrite <- Hp).
  apply bt_ext; [by apply (inserted_get l "")|by apply (inserted_get l' "")|]. intros k.
  destruct (inserted_get l k Hnd) as [_ Hg], (inserted_get l' k Hnd') as [_ Hg'].
  apply option_eq. intros x. by rewrite Hg, Hg', Hp.
Qed.

Lemma canonical_same `{AuditLib} : forall v v', json_same v v' -> canonical_json v = canonical_json v'.
Proof.
  fix IH 3. intros v v' [ | | | | |l l' Hl|fs hs gs Hnd Hfs Hp]; try reflexivity.
  - cbn [canonical_json]. assert (try_map canonical_json l = try_map canonical_json l') as ->; [|done].
    induction Hl as [|x y l l' Hxy _ IHl]; [done|]. cbn. by rewrite (IH x y Hxy), IHl.
  - cbn [canonical_json].
    assert (List.map (fun f => (fst f, canonical_json (snd f))) fs = List.map (fun f => (fst f, canonical_json (snd f))) hs) as Hmap.
    { clear Hnd Hp. induction Hfs as [|f h fs hs [Hk Hv] _ IHf]; [done|]. cbn. by rewrite Hk, (IH _ _ Hv), IHf. }
    assert (NoDup (List.map (fun f => (fst f, canonical_json (snd f))) fs).*1) as Hnd'.
    { replace (_.*1) with (fst <$> fs); [done|]. clear. induction fs as [|f fs IHf]; [done|]. cbn. by rewrite IHf. }
    rewrite (inserted_perm _ (List.map (fun f => (fst f, canonical_json (snd f))) gs) Hnd'); [done|].
    rewrite Hmap. by apply Permutation_map.
Qed.

(** ** Appending *)

Section Append.
Context `{AuditLaws}.

Definition of_community (c : string) (rows : list AuditRow) : list AuditRow :=
  List.filter (fun r => String.eqb (r_community r) c) rows.
Definition audit_wf (rows : list AuditRow) : Prop := forall c, chained (of_community c rows).

Lemma wf_chain_of c rows : audit_wf rows -> chain_of c rows = of_community c rows.
Proof. intros Hwf. apply chain_sort, Hwf. Qed.

Definition with_detail (e : AuditEntry) (d : Json) : AuditEntry :=
  {| community_id := community_id e; seq := seq e; hash := hash e; prev_hash := prev_hash e;
     action := action e; actor_pubkey := actor_pubkey e; object_id := object_id e;
     detail := d; created_at := created_at e |}.

Lemma storage_micros t : to_storage_precision t mod 1000 = 0.
Proof. unfold to_storage_precision. rewrite Zminus_mod_idemp_r, Z.sub_diag. done. Qed.
Lemma storage_idem t : t mod 1000 = 0 -> to_storage_precision t = t.
Proof. unfold to_storage_precision. lia. Qed.

(** What is read back is what was logged, but for the order of keys; and a hash
    does not cover itself, nor that order. *)
Lemma row_reads_back e h d : created_at e mod 1000 = 0 ->
  row_to_audit_entry (entry_row e h d) = Ok (with_hash (with_detail e d) h).
Proof.
  intros Ht. unfold row_to_audit_entry. cbn [entry_row r_action]. rewrite action_roundtrip. cbn [ok_or rbind].
  unfold with_hash, with_detail. cbn. by rewrite timestamptz_micros.
Qed.
Lemma compute_hash_row e h d : json_same (detail e) d -> compute_hash (with_hash (with_detail e d) h) = compute_hash e.
Proof.
  intros Hs. unfold compute_hash, preimage, preimage_body. cbn [with_hash with_detail detail community_id seq created_at action
    actor_pubkey object_id prev_hash]. by rewrite (canonical_same _ _ Hs).
Qed.

Lemma of_community_len c rows : (length (of_community c rows) <= length rows)%nat.
Proof. apply List.filter_length_le. Qed.

(** What a call does: nothing, or one more row at the end of one chain. *)
Lemma log_cases fault now entry rows :
  let e := draft_entry now entry rows in
  (log fault now entry rows).2 = rows /\ (exists err, (log fault now entry rows).1 = Err err)
  \/ exists h d, compute_hash e = Ok h /\ jsonb (new_detail entry) = Some d
     /\ (log fault now entry rows).2 = rows ++ [entry_row e h d]
     /\ ((log fault now entry rows).1 = Ok (with_hash e h)
         \/ fault = CommitUnknown /\ (log fault now entry rows).1 = Err Database).
Proof.
  intros e. unfold log. fold e. change (detail e) with (new_detail entry).
  destruct fault; (destruct (compute_hash e) as [h|err]; [|left; eauto]); try (by left; eauto);
    (destruct (jsonb (new_detail entry)) as [d|]; [|left; eauto]); cbn [mbind option_bind];
    unfold insert_row; try (destruct (existsb _ rows)); cbn [fst snd]; eauto 10.
Qed.

Lemma log_wf fault now entry rows :
  audit_wf rows -> plain (new_detail entry) = true -> Z.of_nat (length rows) < i64_max ->
  audit_wf (log fault now entry rows).2.
Proof.
  intros Hwf Hst Hlen. destruct (log_cases fault now entry rows) as [[-> _]|(h & d & Hh & Hd & -> & _)]; [done|].
  intros c. unfold of_community. rewrite List.filter_app. cbn [List.filter entry_row r_community draft_entry community_id].
  destruct (String.eqb_spec (new_community entry) c) as [<-|Hne]; [|rewrite app_nil_r; apply Hwf].
  fold (of_community (new_community entry) rows). pose proof (Hwf (new_community entry)) as Hc.
  pose proof (of_community_len (new_community entry) rows) as Hl.
  apply chain_snoc; [done| | |].
  - cbn [entry_row r_seq draft_entry seq]. rewrite wf_chain_of by done.
    assert (from_option r_seq 0 (last (of_community (new_community entry) rows))
            = Z.of_nat (length (of_community (new_community entry) rows))) as ->.
    { destruct (last _) as [x|] eqn:E; cbn; [by apply chain_last|]. apply last_None in E. by rewrite E. }
    unfold next_seq. destruct (Z.eqb_spec (Z.of_nat (length (of_community (new_community entry) rows))) i64_max); lia.
  - cbn [entry_row r_prev_hash draft_entry prev_hash]. by rewrite wf_chain_of by done.
  - eexists. split; [apply row_reads_back; cbn; apply storage_micros|].
    rewrite compute_hash_row; [exact Hh|]. by apply jsonb_same.
Qed.

Lemma log_grows fault now entry rows : (length rows <= length (log fault now entry rows).2)%nat.
Proof.
  destruct (log_cases fault now entry rows) as [[-> _]|(h & d & _ & _ & -> & _)]; rewrite ?length_app; lia.
Qed.

Lemma reachable_wf rows : rtc log_step [] rows -> Z.of_nat (length rows) <= i64_max -> audit_wf rows.
Proof.
  revert rows. refine (rtc_ind_r _ [] _ _); [intros _ c; constructor|].
  intros r1 r2 _ (fault & now & entry & Hs & ->) IH Hlen.
  destruct (log_cases fault now entry r1) as [[E _]|(h & d & _ & _ & E & _)].
  - rewrite E in Hlen |- *. by apply IH.
  - apply log_wf; [|done|]; rewrite E, length_app in Hlen; cbn in Hlen; [apply IH|]; lia.
Qed.

(** C36. Whatever the interleaving of the communities' calls, and whichever of them
    failed: each community's entries are numbered from one without a gap, and
    every part of its chain verifies, although it is computed from what the
    columns give back: instants of whole microseconds, and details with their keys
    in another order. A call touches the chain of its own community only, and adds
    at most the one entry it reports, which reads back as it was reported but for
    that order. Details hold no fractional numbers, as none of the relay's does. *)
Theorem audit_log_verifies rows :
  rtc log_step [] rows -> Z.of_nat (length rows) < i64_max ->
  (forall c, r_seq <$> chain_of c rows = seqZ 1 (Z.of_nat (length (chain_of c rows))))
  /\ (forall c from_seq to_seq,
        verify_chain c from_seq to_seq rows = Ok (existsb (in_range from_seq to_seq) (chain_of c rows)))
  /\ forall fault now entry, plain (new_detail entry) = true ->
       let out := log fault now entry rows in
       (forall c, c <> new_community entry -> chain_of c out.2 = chain_of c rows)
       /\ match out.1 with
          | Ok e => exists d, json_same (detail e) d
              /\ chain_of (new_community entry) out.2
                 = chain_of (new_community entry) rows ++ [entry_row e (hash e) d]
              /\ row_to_audit_entry (entry_row e (hash e) d) = Ok (with_detail e d)
          | Err _ => fault = CommitUnknown \/ out.2 = rows
          end.
Proof.
  intros Hr Hlen. assert (audit_wf rows) as Hwf by (apply reachable_wf; [done|lia]). split; [|split].
  - intros c. rewrite wf_chain_of by done. apply chain_seqs, Hwf.
  - intros c f t. unfold verify_chain. rewrite wf_chain_of by done.
    pose proof (chain_verifies _ f t (Hwf c)) as Hv.
    assert (existsb (in_range f t) (of_community c rows)
            = match List.filter (in_range f t) (of_community c rows) with [] => false | _ => true end) as ->.
    { clear. induction (of_community c rows) as [|x l IH]; [done|]. cbn. by destruct (in_range f t x). }
    destruct (List.filter _ (of_community c rows)); [done|]. by rewrite Hv.
  - intros fault now entry Hst out. subst out.
    pose proof (log_wf fault now entry rows Hwf Hst Hlen) as Hwf'.
    split.
    + intros c Hc. rewrite !wf_chain_of by done.
      destruct (log_cases fault now entry rows) as [[-> _]|(h & d & _ & _ & -> & _)]; [done|].
      unfold of_community. rewrite List.filter_app. cbn [List.filter entry_row r_community draft_entry community_id].
      destruct (String.eqb_spec (new_community entry) c); [done|]. by rewrite app_nil_r.
    + destruct (log_cases fault now entry rows) as [[E2 [err E1]]|(h & d & _ & Hd & E2 & [E1|[-> E1]])];
        rewrite E1; [by right| |by left].
      exists d. split; [by apply jsonb_same|]. split; [|rewrite row_reads_back by apply storage_micros; reflexivity].
      rewrite !wf_chain_of by done. rewrite E2. unfold of_community. rewrite List.filter_app.
      cbn [List.filter entry_row r_community draft_entry community_id with_hash hash]. by rewrite String.eqb_refl.
Qed.
End Append.

(** ** Tampering *)

Section Tamper.
Context `{AuditLib}.

(** The bytes a row's hash is computed from. *)
Definition row_preimage (r : AuditRow) : Result string AuditError :=
  let? e := row_to_audit_entry r in preimage e.

Lemma verify_rows_cons p r l :
  verify_rows p (r :: l) = Ok tt ->
  exists bytes, row_preimage r = Ok bytes /\ r_hash r = sha256 bytes
  /\ (forall h, p = Some h -> r_prev_hash r = Some h) /\ verify_rows (Some (r_hash r)) l = Ok tt.
Proof.
  cbn [verify_rows]. unfold row_preimage. destruct (row_to_audit_entry r) as [e|] eqn:He; [|done].
  destruct (row_entry _ _ He) as (Hh & Hp & _). cbn [rbind]. rewrite Hh, Hp.
  destruct (match p with Some _ => _ | None => _ end) eqn:Ep; [done|].
  unfold compute_hash. destruct (preimage e) as [bytes|]; [|done]. cbn [rbind].
  destruct (String.eqb_spec (sha256 bytes) (r_hash r)) as [E|]; [|done]. cbn [negb]. intros Hv.
  exists bytes. split_and!; [done|done| |done]. intros h ->. by apply negb_false_iff, bool_decide_eq_true in Ep.
Qed.

(** The previous hash is the last thing in a preimage, the community and the
    number the first. *)
Lemma row_preimage_split r bytes :
  row_preimage r = Ok bytes ->
  exists rest, bytes = (uuid_bytes (r_community r) ++ i64_be_bytes (r_seq r) ++ rest)%string
  /\ exists body, bytes = (body ++ default GENESIS_HASH (r_prev_hash r))%string.
Proof.
  unfold row_preimage. destruct (row_to_audit_entry r) as [e|] eqn:He; [|done].
  destruct (row_entry _ _ He) as (_ & <- & <- & <-). cbn [rbind]. unfold preimage, preimage_body.
  destruct (map_err _ _) as [d|]; [|done]. cbn [rbind]. intros [= <-]. eexists. split; [|by eexists].
  rewrite <- !str_append_assoc. reflexivity.
Qed.

(** Two inputs with one digest. *)
Definition collision : Prop := exists a b, a <> b /\ sha256 a = sha256 b.
(** Rows that were hashed from the same bytes. *)
Definition same_row (a b : AuditRow) : Prop :=
  row_preimage a = row_preimage b /\ r_hash a = r_hash b /\ uuid_bytes (r_community a) = uuid_bytes (r_community b)
  /\ r_seq a = r_seq b.
Definition bigint (r : AuditRow) : Prop := i64_min <= r_seq r <= i64_max.

Context (sha_len : forall s, String.length (sha256 s) = 32%nat)
  (uuid_len : forall s, String.length (uuid_bytes s) = 16%nat).

Lemma same_hash_same_row a b x y :
  row_preimage a = Ok x -> row_preimage b = Ok y -> r_hash a = sha256 x -> r_hash b = sha256 y ->
  r_hash a = r_hash b -> bigint a -> bigint b -> collision \/ (same_row a b /\ x = y).
Proof.
  intros Ha Hb Hha Hhb Heq Ba Bb. destruct (decide (x = y)) as [->|Hne]; [|left; exists x, y; split; congruence].
  right. split; [|done]. destruct (row_preimage_split _ _ Ha) as (r1 & E1 & _).
  destruct (row_preimage_split _ _ Hb) as (r2 & E2 & _). rewrite E1 in E2.
  apply append_inj_prefix in E2 as [Eu E2]; [|by rewrite !uuid_len].
  apply append_inj_prefix in E2 as [Es _]; [|unfold i64_be_bytes; by rewrite !be_bytes_length].
  split_and!; [congruence|done|done|]. unfold i64_be_bytes in Es.
  apply be_bytes_inj in Es; [|apply Z.mod_pos_bound; lia..]. unfold bigint, i64_min, i64_max in *.
  pose proof (Z.div_mod (r_seq a) (2 ^ 64)). pose proof (Z.div_mod (r_seq b) (2 ^ 64)). lia.
Qed.

Lemma anchored l1 : forall l2 p1 p2,
  verify_rows p1 l1 = Ok tt -> verify_rows p2 l2 = Ok tt -> length l1 = length l2 -> l1 <> [] ->
  r_hash <$> last l1 = r_hash <$> last l2 -> Forall bigint l1 -> Forall bigint l2 ->
  collision \/ Forall2 same_row l1 l2 /\ (forall h1 h2, p1 = Some h1 -> p2 = Some h2 ->
    String.length h1 = 32%nat -> String.length h2 = 32%nat -> h1 = h2).
Proof.
  induction l1 as [|a l1 IH]; intros [|b l2] p1 p2 V1 V2 Hl Hne Hlast B1 B2; [done..|].
  apply verify_rows_cons in V1 as (x & Px & Hx & Kx & V1). apply verify_rows_cons in V2 as (y & Py & Hy & Ky & V2).
  inversion B1 as [|? ? Ba B1']; inversion B2 as [|? ? Bb B2']; subst.
  assert (collision \/ r_hash a = r_hash b /\ Forall2 same_row l1 l2) as [Hc|[Hh Hs]]; [|by left|].
  { destruct l1 as [|a' l1], l2 as [|b' l2]; [|done..|].
    - right. split; [|constructor]. by injection Hlast.
    - destruct (IH (b' :: l2) _ _ V1 V2) as [Hc|[Hs Hp]]; [cbn in Hl |- *; lia|done|exact Hlast|done|done|by left|].
      right. split; [|done]. apply Hp; [done|done|by rewrite Hx|by rewrite Hy]. }
  destruct (same_hash_same_row a b x y Px Py Hx Hy Hh Ba Bb) as [Hc|[Hab ->]]; [by left|]. right.
  split; [by constructor|]. intros h1 h2 E1 E2 L1 L2. specialize (Kx _ E1). specialize (Ky _ E2).
  destruct (row_preimage_split _ _ Px) as (_ & _ & b1 & F1). destruct (row_preimage_split _ _ Py) as (_ & _ & b2 & F2).
  rewrite Kx in F1. rewrite Ky in F2. cbn in F1, F2. rewrite F1 in F2. apply append_inj_suffix in F2 as [_ ->]; [done|lia].
Qed.

Lemma verify_rows_drop k p l : verify_rows p l = Ok tt -> exists p', verify_rows p' (drop k l) = Ok tt.
Proof.
  revert p l. induction k as [|k IH]; intros p [|r l] Hv; [eexists; exact Hv..|].
  apply verify_rows_cons in Hv as (x & _ & _ & _ & Hv). cbn [drop]. eauto.
Qed.
End Tamper.

(** The hash of the last entry fixes the chain: two tables whose chains verify
    over a range and end in the same hash hold the same hashed bytes row by row,
    as far back as the shorter of the two goes, unless two inputs of SHA-256
    with one digest are at hand. Nothing can be altered, inserted, dropped or
    moved to another community before an entry whose hash is known. *)
Theorem audit_chain_is_anchored `{AuditLib} c d from_seq to_seq rows1 rows2 :
  (forall s, String.length (sha256 s) = 32%nat) -> (forall s, String.length (uuid_bytes s) = 16%nat) ->
  let s1 := List.filter (in_range from_seq to_seq) (chain_of c rows1) in
  let s2 := List.filter (in_range from_seq to_seq) (chain_of d rows2) in
  Forall bigint s1 -> Forall bigint s2 ->
  verify_chain c from_seq to_seq rows1 = Ok true -> verify_chain d from_seq to_seq rows2 = Ok true ->
  (length s2 <= length s1)%nat -> r_hash <$> last s1 = r_hash <$> last s2 ->
  collision \/ Forall2 same_row (drop (length s1 - length s2) s1) s2.
Proof.
  intros Hsha Huuid s1 s2 B1 B2 V1 V2 Hlen Hlast. unfold verify_chain in V1, V2. fold s1 in V1. fold s2 in V2.
  assert (s1 <> [] /\ verify_rows None s1 = Ok tt) as [N1 W1].
  { destruct s1; [done|]. split; [done|]. by destruct (verify_rows _ _) as [[]|]. }
  assert (s2 <> [] /\ verify_rows None s2 = Ok tt) as [N2 W2].
  { destruct s2; [done|]. split; [done|]. by destruct (verify_rows _ _) as [[]|]. }
  set (k := (length s1 - length s2)%nat). assert (length (drop k s1) = length s2) as Hk by (rewrite length_drop; lia).
  destruct (verify_rows_drop k None s1 W1) as [p Wk].
  destruct (anchored Hsha Huuid (drop k s1) s2 p None Wk W2 Hk) as [Hc|[Hs _]]; [| |by apply Forall_drop|done|by left|by right].
  - intros E. rewrite E in Hk. destruct s2; done.
  - assert (last (drop k s1) = last s1) as ->; [|done]. destruct s2 as [|y s2]; [done|].
    rewrite !last_lookup, lookup_drop, length_drop. f_equal. cbn [length] in *. lia.
Qed.

(** Two different entries with the same hash: nothing marks where the object's
    id ends and the detail begins. *)
Lemma boundary_is_ambiguous `{AuditLib} c n t :
  scalar_to_string (JInt 2) = Ok "2"%string -> scalar_to_string (JInt 12) = Ok "12"%string ->
  let entry o d := {| community_id := c; seq := n; hash := ""; prev_hash := None; action := EventCreated;
                      actor_pubkey := None; object_id := Some o; detail := d; created_at := t |} in
  compute_hash (entry "abc1"%string (JInt 2)) = compute_hash (entry "abc"%string (JInt 12)).
Proof.
  intros H2 H12 entry. unfold entry, compute_hash, preimage, preimage_body.
  cbn [detail community_id seq created_at action actor_pubkey object_id prev_hash canonical_json].
  rewrite H2, H12. reflexivity.
Qed.

(** ** A log of two communities *)

Definition toy_zeros : string := String.string_of_list_ascii (replicate 32 "0"%char).
Definition toy_scalar (v : Json) : Result string string :=
  match v with
  | JNull => Ok "null"%string
  | JString s => Ok s
  | _ => Err "unsupported"%string
  end.
Definition toy_jsonb (v : Json) : Json :=
  match v with
  | JObject fields => JObject (rev fields)
  | _ => v
  end.
#[local] Instance toy_audit : AuditLib := {|
  sha256 s := String.substring 0 32 (s ++ toy_zeros);
  uuid_bytes s := String.substring 0 16 (s ++ toy_zeros);
  to_rfc3339 _ := ""; scalar_to_string := toy_scalar; jsonb v := Some (toy_jsonb v);
  timestamptz t := t - t mod 1000 |}.

Lemma plain_same : forall v, plain v = true -> json_same v v.
Proof.
  fix IH 1. intros [ | | | | |l|fs] Hp; try by constructor.
  - constructor. cbn in Hp. induction l as [|x l IHl]; [constructor|]. cbn in Hp. apply andb_prop in Hp as [Hx Hl].
    constructor; [by apply IH|by apply IHl].
  - cbn in Hp. apply andb_prop in Hp as [Hnd Hp]. apply bool_decide_eq_true in Hnd.
    apply (same_object fs fs); [done| |done]. clear Hnd. induction fs as [|[k x] fs IHf]; [constructor|].
    cbn in Hp. apply andb_prop in Hp as [Hx Hp]. constructor; [split; [done|by apply IH]|by apply IHf].
Qed.
#[local] Instance toy_audit_laws : AuditLaws.
Proof.
  split.
  - intros v _ Hp [= <-]. pose proof (plain_same v Hp) as Hs. destruct v as [ | | | | |l|fs]; try done. cbn.
    inversion Hs as [ | | | | | |f hs gs Hnd Hfs Hperm]; subst. apply (same_object fs hs); [done|done|].
    rewrite <- Permutation_rev. exact Hperm.
  - intros t Ht. cbn. lia.
Qed.
Definition new_entry (c : string) : NewAuditEntry := {|
  new_community := c; new_action := MemberAdded; new_actor := None; new_object := Some "x"%string;
  new_detail := JObject [("a", JNull); ("b", JArray [JString "s"])]%string |}.
Definition logged1 : list AuditRow := (log DbUp 1500 (new_entry "c1") []).2.
Definition logged2 : list AuditRow := (log CommitUnknown 1700 (new_entry "c2") logged1).2.
Definition logged : list AuditRow := (log DbUp 2500 (new_entry "c1") logged2).2.

Lemma logged_reachable : rtc log_step [] logged.
Proof.
  apply (rtc_l _ _ logged1); [exists DbUp, 1500, (new_entry "c1"); by split|].
  apply (rtc_l _ _ logged2); [exists CommitUnknown, 1700, (new_entry "c2"); by split|].
  apply (rtc_l _ _ logged); [exists DbUp, 2500, (new_entry "c1"); by split|]. constructor.
Qed.

Lemma audit_log_verifies_witness :
  verify_chain "c1" 1 2 logged = Ok true /\ verify_chain "c2" 2 9 logged = Ok false
  /\ r_seq <$> chain_of "c1" logged = [1; 2].
Proof.
  assert (Z.of_nat (length logged) < i64_max) as Hl by (vm_compute; reflexivity).
  destruct (audit_log_verifies logged logged_reachable Hl) as (Hs & Hv & _).
  rewrite (Hv "c1"%string), (Hv "c2"%string), (Hs "c1"%string). split_and!; vm_compute; reflexivity.
Defined.

Lemma substring_prefix_length n (s : string) :
  (n <= String.length s)%nat -> String.length (String.substring 0 n s) = n.
Proof.
  revert s. induction n as [|n IH]; intros [|x s] Hl; cbn in *; [done..|lia|]. f_equal. apply IH. lia.
Qed.

Notation segment := (List.filter (in_range 1 2) (chain_of "c1" logged)).
Lemma audit_chain_is_anchored_witness :
  length segment = 2%nat
  /\ (collision \/ Forall2 same_row (drop (length segment - length segment) segment) segment).
Proof.
  split; [vm_compute; reflexivity|].
  apply (audit_chain_is_anchored "c1" "c1" 1 2 logged logged).
  - intros s. apply substring_prefix_length. rewrite str_append_length. cbn. lia.
  - intros s. apply substring_prefix_length. rewrite str_append_length. cbn. lia.
  - repeat constructor; vm_compute; discriminate.
  - repeat constructor; vm_compute; discriminate.
  - vm_compute; reflexivity.
  - vm_compute; reflexivity.
  - apply le_n.
  - reflexivity.
Defined.
