(* ===== verification/Credits.v ===== *)
(** * Colony Credits: accounts, the ledger and the settlement intents

    [crates/buzz-db/src/credits.rs] over the tables of migrations 0050 to 0066.
    Money is nanoUSD. A transaction takes the tables to the new tables or to an
    error; [run_tx] says what its caller sees. Two calls of one process
    interleave between transactions and between the statements of a function
    that opens none, never inside a transaction, which holds its row locks.
    Bytes are strings; [now] is the database's clock, in seconds. *)

From Stdlib Require Import ZArith Lia Ascii.
From stdpp Require Import base gmap list strings numbers.
From S2P Require Import Prelude MachineInt RustStr.
Local Open Scope Z_scope.

(** [buzz-db]'s error, in the cases these modules raise. [Sqlx] is everything
    the driver reports: a lost connection, a violated constraint, a row that is
    not there, a number out of range. *)
Inductive DbError :=
| Sqlx
| InvalidAmount (m : string)
| InvalidData (m : string)
| NotFound (m : string)
| AccessDenied (m : string).
#[export] Instance DbError_eq_dec : EqDecision DbError.
Proof. solve_decision. Defined.

(** ** Accounts and ledger *)

(** A row of [accounts]: the balance and the admission overrides. *)
Record Account := {
  balance : Z;
  typical_call_cost_nanousd : option Z;
  max_in_flight : option Z;
  hourly_burn_cap_nanousd : option Z;
}.
Definition new_account : Account :=
  {| balance := 0; typical_call_cost_nanousd := None; max_in_flight := None;
     hourly_burn_cap_nanousd := None |}.

(** The columns a Discovery charge adds to a ledger row. *)
Record DiscoveryCharge := {
  quantity : Z;
  unit_price_nanousd : Z;
  charge_community : string;
  charge_campaign : string;
  charge_run : string;
}.
#[export] Instance DiscoveryCharge_eq_dec : EqDecision DiscoveryCharge.
Proof. solve_decision. Defined.

(** A row of [credit_ledger]. [service] is ['discovery'] exactly on the rows
    with a [discovery] part, and ['model'] exactly on those with a [model]. *)
Record LedgerEntry := {
  id : Z;
  pubkey : string;
  delta : Z;
  kind : string;
  reference : string;
  model : option string;
  observed_cost : option Z;
  request_id : option string;
  settle_basis : option string;
  discovery : option DiscoveryCharge;
  created_at : Z;
}.
#[export] Instance LedgerEntry_eq_dec : EqDecision LedgerEntry.
Proof. solve_decision. Defined.

(** The accounts, the ledger in the order it was written, and the identity
    sequence of the ledger. *)
Record Book := { accounts : gmap string Account; ledger : list LedgerEntry; next_id : Z }.
Definition empty_book : Book := {| accounts := ∅; ledger := []; next_id := 1 |}.

Definition octet_length (s : string) : Z := str_len s.
Definition ledger_kinds : list string :=
  ["debit"; "credit"; "seed"; "correction"; "hold"; "release"]%string.
Definition mem (l : list string) (s : string) : bool := existsb (String.eqb s) l.

(** [discovery_ledger_attribution_complete]. *)
Definition discovery_charge_ok (e : LedgerEntry) (d : DiscoveryCharge) : bool :=
  mem ["debit"; "hold"; "release"]%string (kind e)
  && (if String.eqb (kind e) "release" then 0 <? delta e else delta e <? 0)
  && (0 <? quantity d) && (0 <? unit_price_nanousd d)
  && (Z.abs (delta e) =? quantity d * unit_price_nanousd d)
  && negb (is_some (model e)) && negb (is_some (observed_cost e))
  && negb (is_some (request_id e)) && negb (is_some (settle_basis e)).

(** The checks of [credit_ledger]. *)
Definition ledger_row_ok (e : LedgerEntry) : bool :=
  (octet_length (pubkey e) =? 32)
  && mem ledger_kinds (kind e)
  && match observed_cost e with Some c => 0 <=? c | None => true end
  && match settle_basis e with Some b => mem ["observed"; "estimated"]%string b | None => true end
  && match discovery e with Some d => discovery_charge_ok e d | None => true end.

(** The key of [UNIQUE (pubkey, ref)] and that of the partial index
    [credit_ledger_discovery_run_idx]. *)
Definition same_ref (pk ref : string) (e : LedgerEntry) : bool :=
  String.eqb (pubkey e) pk && String.eqb (reference e) ref.
Definition discovery_debit_of (e : LedgerEntry) : option string :=
  if String.eqb (kind e) "debit" then charge_run <$> discovery e else None.
Definition same_discovery_debit (e e' : LedgerEntry) : bool :=
  String.eqb (pubkey e) (pubkey e')
  && match discovery_debit_of e, discovery_debit_of e' with
     | Some r, Some r' => String.eqb r r'
     | _, _ => false
     end.

(** [INSERT INTO credit_ledger ... ON CONFLICT (pubkey, ref) DO NOTHING
    RETURNING id]. *)
Definition insert_ledger (row : LedgerEntry) (b : Book) : Result (Book * option LedgerEntry) DbError :=
  fail_if negb (ledger_row_ok row) with Sqlx;
  if existsb (same_ref (pubkey row) (reference row)) (ledger b)
  then Ok ({| accounts := accounts b; ledger := ledger b; next_id := next_id b + 1 |}, None)
  else
    fail_if existsb (same_discovery_debit row) (ledger b) with Sqlx;
    let row := {| id := next_id b; pubkey := pubkey row; delta := delta row; kind := kind row;
                  reference := reference row; model := model row; observed_cost := observed_cost row;
                  request_id := request_id row; settle_basis := settle_basis row;
                  discovery := discovery row; created_at := created_at row |} in
    Ok ({| accounts := accounts b; ledger := ledger b ++ [row]; next_id := next_id b + 1 |}, Some row).

(** [INSERT INTO accounts ... ON CONFLICT (pubkey) DO NOTHING]. *)
Definition ensure_account (pk : string) (b : Book) : Result Book DbError :=
  fail_if negb (octet_length pk =? 32) with Sqlx;
  match accounts b !! pk with
  | Some _ => Ok b
  | None => Ok {| accounts := <[pk := new_account]> (accounts b); ledger := ledger b;
                  next_id := next_id b |}
  end.

(** [UPDATE accounts SET balance = balance + $1 WHERE pubkey = $2]: no row, no
    change; out of [BIGINT], an error. *)
Definition add_balance (amount : Z) (pk : string) (b : Book) : Result Book DbError :=
  match accounts b !! pk with
  | None => Ok b
  | Some a =>
      let? v := ok_or (checked_i64 (balance a + amount)) Sqlx in
      Ok {| accounts := <[pk := {| balance := v;
                                   typical_call_cost_nanousd := typical_call_cost_nanousd a;
                                   max_in_flight := max_in_flight a;
                                   hourly_burn_cap_nanousd := hourly_burn_cap_nanousd a |}]> (accounts b);
            ledger := ledger b; next_id := next_id b |}
  end.

(** [AppliedLedgerEntry]: the entry, and whether this call wrote it. *)
Record AppliedLedgerEntry := { entry : LedgerEntry; applied : bool }.

(** [EntryParams]. *)
Record EntryParams := {
  p_pubkey : string;
  p_delta : Z;
  p_kind : string;
  p_reference : string;
  p_model : option string;
  p_observed_cost : option Z;
  p_request_id : option string;
  p_settle_basis : option string;
}.
Definition params_row (now : Z) (p : EntryParams) : LedgerEntry :=
  {| id := 0; pubkey := p_pubkey p; delta := p_delta p; kind := p_kind p;
     reference := p_reference p; model := p_model p; observed_cost := p_observed_cost p;
     request_id := p_request_id p; settle_basis := p_settle_basis p; discovery := None;
     created_at := now |}.

(** [apply_entry_tx]. *)
Definition apply_entry_tx (now : Z) (p : EntryParams) (b : Book)
    : Result (Book * AppliedLedgerEntry) DbError :=
  let? b := ensure_account (p_pubkey p) b in
  let? r := insert_ledger (params_row now p) b in
  match r with
  | (b, Some row) =>
      let? b := add_balance (p_delta p) (p_pubkey p) b in
      Ok (b, {| entry := row; applied := true |})
  | (b, None) =>
      let? row := ok_or (find (same_ref (p_pubkey p) (p_reference p)) (ledger b)) Sqlx in
      Ok (b, {| entry := row; applied := false |})
  end.

(** ** Settlement intents *)

Inductive IntentState := AdmittedIntent | ProviderCompleted | Debited | Reconciliation | Resolved.
#[export] Instance IntentState_eq_dec : EqDecision IntentState.
Proof. solve_decision. Defined.

(** A row of [gateway_settlement_intents]. *)
Record GatewaySettlementIntent := {
  i_id : Z;
  i_pubkey : string;
  i_reference : string;
  i_model : string;
  i_state : IntentState;
  i_request_id : option string;
  i_observed_cost : option Z;
  i_status : option Z;
  i_reason : option string;
  i_correction_ref : option string;
  i_reserved : Z;
  i_created_at : Z;
  i_updated_at : Z;
  i_resolved_at : option Z;
}.
#[export] Instance GatewaySettlementIntent_eq_dec : EqDecision GatewaySettlementIntent.
Proof. solve_decision. Defined.

(** A row of [gateway_reconciliation_outcomes]. *)
Record ReconciliationOutcome := {
  o_pubkey : string;
  o_reference : string;
  o_model : string;
  o_http_status : Z;
  o_reason : string;
  o_intent : option Z;
  o_request_id : option string;
  o_observed_cost : option Z;
  o_correction_ref : option string;
  o_resolved_at : option Z;
}.

(** The tables of the money layer. [discovery_reserved] is
    [SELECT COALESCE(sum(budget_reserved_nanousd),0) FROM discovery_campaigns
     WHERE budget_payer_pubkey = $1], read from the Campaigns. *)
Record Tables := {
  book : Book;
  intents : list GatewaySettlementIntent;
  next_intent : Z;
  outcomes : list ReconciliationOutcome;
}.
Definition empty_tables : Tables :=
  {| book := empty_book; intents := []; next_intent := 1; outcomes := [] |}.
Definition with_book (b : Book) (t : Tables) : Tables :=
  {| book := b; intents := intents t; next_intent := next_intent t; outcomes := outcomes t |}.
Definition with_intents (l : list GatewaySettlementIntent) (t : Tables) : Tables :=
  {| book := book t; intents := l; next_intent := next_intent t; outcomes := outcomes t |}.
Definition with_outcomes (l : list ReconciliationOutcome) (t : Tables) : Tables :=
  {| book := book t; intents := intents t; next_intent := next_intent t; outcomes := l |}.

(** [state IN ('admitted','provider_completed','reconciliation')]. *)
Definition active (s : IntentState) : bool :=
  match s with AdmittedIntent | ProviderCompleted | Reconciliation => true | Debited | Resolved => false end.
Definition unresolved (s : IntentState) : bool := negb (bool_decide (s = Resolved)).

Definition set_reserved (r : Z) (i : GatewaySettlementIntent) : GatewaySettlementIntent :=
  {| i_id := i_id i; i_pubkey := i_pubkey i; i_reference := i_reference i; i_model := i_model i;
     i_state := i_state i; i_request_id := i_request_id i; i_observed_cost := i_observed_cost i;
     i_status := i_status i; i_reason := i_reason i; i_correction_ref := i_correction_ref i;
     i_reserved := r; i_created_at := i_created_at i; i_updated_at := i_updated_at i;
     i_resolved_at := i_resolved_at i |}.

(** The trigger [gateway_settlement_intent_reservation_compat]. *)
Definition reservation_compat (b : Book) (i : GatewaySettlementIntent) : GatewaySettlementIntent :=
  if active (i_state i) then
    if i_reserved i =? 0 then
      set_reserved (Z.max (default 50000000 (a ← accounts b !! i_pubkey i; typical_call_cost_nanousd a)) 1) i
    else i
  else set_reserved 0 i.

(** The checks of [gateway_settlement_intents]. *)
Definition intent_row_ok (i : GatewaySettlementIntent) : bool :=
  (octet_length (i_pubkey i) =? 32)
  && match i_observed_cost i with Some c => 0 <=? c | None => true end
  && (if active (i_state i) then 0 <? i_reserved i else i_reserved i =? 0).

(** What a row becomes once the trigger has run and the checks have passed. *)
Definition store_intent (b : Book) (i : GatewaySettlementIntent)
    : Result GatewaySettlementIntent DbError :=
  let i := reservation_compat b i in
  fail_if negb (intent_row_ok i) with Sqlx;
  Ok i.

Definition intent_by_id (n : Z) (t : Tables) : option GatewaySettlementIntent :=
  find (fun i => i_id i =? n) (intents t).
Definition intent_by_key (pk ref : string) (t : Tables) : option GatewaySettlementIntent :=
  find (fun i => String.eqb (i_pubkey i) pk && String.eqb (i_reference i) ref) (intents t).
Definition replace_intent (i : GatewaySettlementIntent) (l : list GatewaySettlementIntent)
    : list GatewaySettlementIntent :=
  List.map (fun j => if i_id j =? i_id i then i else j) l.

(** [UPDATE gateway_settlement_intents SET ... WHERE id = $1 RETURNING ...],
    read with [fetch_one]. *)
Definition update_intent (n : Z) (f : GatewaySettlementIntent -> GatewaySettlementIntent) (t : Tables)
    : Result (Tables * GatewaySettlementIntent) DbError :=
  let? i := ok_or (intent_by_id n t) Sqlx in
  let? i := store_intent (book t) (f i) in
  Ok (with_intents (replace_intent i (intents t)) t, i).

(** [sum(reserved_nanousd) ... WHERE pubkey=$1 AND state <> 'resolved'] as
    [BIGINT]. *)
Definition gateway_reserved_sum (pk : string) (t : Tables) : Z :=
  zsum i_reserved (List.filter (fun i => String.eqb (i_pubkey i) pk && unresolved (i_state i)) (intents t)).
Definition as_bigint (z : Z) : Result Z DbError := ok_or (checked_i64 z) Sqlx.

(** ** Entries outside an intent *)

Definition on_book {A} (f : Book -> Result (Book * A) DbError) (t : Tables)
    : Result (Tables * A) DbError :=
  let? r := f (book t) in
  Ok (with_book (fst r) t, snd r).

(** [apply_entry_inner]. *)
Definition apply_entry_inner (fault : DbFault) (now : Z) (p : EntryParams) (t : Tables)
    : Result AppliedLedgerEntry DbError * Tables :=
  run_tx Sqlx fault (on_book (apply_entry_tx now p)) t.

(** [apply_entry_applied]: the sign of the amount, then the transaction. *)
Definition apply_entry_applied (fault : DbFault) (now : Z) (p : EntryParams) (t : Tables)
    : Result AppliedLedgerEntry DbError * Tables :=
  if (String.eqb (p_kind p) "credit" || String.eqb (p_kind p) "seed") && (p_delta p <=? 0)
  then (Err (InvalidAmount "must be a positive amount"), t)
  else if String.eqb (p_kind p) "debit" && (0 <? p_delta p)
  then (Err (InvalidAmount "debit cost must be non-negative"), t)
  else apply_entry_inner fault now p t.

(** [apply_entry]. *)
Definition apply_entry (fault : DbFault) (now : Z) (p : EntryParams) (t : Tables)
    : Result LedgerEntry DbError * Tables :=
  let (r, t) := apply_entry_applied fault now p t in
  (let? a := r in Ok (entry a), t).

Definition money_in (kind pk : string) (delta : Z) (ref : string) : EntryParams :=
  {| p_pubkey := pk; p_delta := delta; p_kind := kind; p_reference := ref; p_model := None;
     p_observed_cost := None; p_request_id := None; p_settle_basis := None |}.
Definition credit (fault : DbFault) (now : Z) (pk : string) (delta : Z) (ref : string) (t : Tables) :=
  apply_entry fault now (money_in "credit" pk delta ref) t.
Definition seed (fault : DbFault) (now : Z) (pk : string) (delta : Z) (ref : string) (t : Tables) :=
  apply_entry fault now (money_in "seed" pk delta ref) t.

Definition debit_params (pk : string) (cost : Z) (ref : string) (model request_id basis : option string)
    : EntryParams :=
  {| p_pubkey := pk; p_delta := - cost; p_kind := "debit"; p_reference := ref; p_model := model;
     p_observed_cost := Some cost; p_request_id := request_id; p_settle_basis := basis |}.
(** [i64::try_from(cost)] of a [u64]. *)
Definition cost_i64 (cost : Z) : option Z := if cost <=? i64_max then Some cost else None.

(** [debit_internal]. *)
Definition debit_internal (fault : DbFault) (now : Z) (pk : string) (cost : Z) (ref : string)
    (model request_id basis : option string) (t : Tables) : Result AppliedLedgerEntry DbError * Tables :=
  match cost_i64 cost with
  | None => (Err (InvalidAmount "cost exceeds i64"), t)
  | Some cost => apply_entry_applied fault now (debit_params pk cost ref model request_id basis) t
  end.
Definition debit_observed_applied fault now pk cost ref model request_id :=
  debit_internal fault now pk cost ref model request_id (Some "observed"%string).
Definition debit_estimated_applied fault now pk cost ref model request_id :=
  debit_internal fault now pk cost ref model request_id (Some "estimated"%string).

(** ** The reads *)

(** [SELECT balance + COALESCE(reserved, 0) ...]; [discovery_reserved] is what
    the account's Campaigns hold. *)
Definition account_balance (discovery_reserved : Z) (pk : string) (t : Tables) : Result Z DbError :=
  match accounts (book t) !! pk with
  | Some a =>
      let? r := as_bigint discovery_reserved in
      as_bigint (balance a + r)
  | None => Ok 0
  end.

Record AdmissionAccount := {
  aa_balance : Z;
  aa_discovery_reserved : Z;
  aa_gateway_reserved : Z;
  aa_typical_call_cost : option Z;
  aa_max_in_flight : option Z;
  aa_hourly_burn_cap : option Z;
}.

(** [admission_account]. *)
Definition admission_account (discovery_reserved : Z) (pk : string) (t : Tables)
    : Result AdmissionAccount DbError :=
  match accounts (book t) !! pk with
  | Some a =>
      let? d := as_bigint discovery_reserved in
      let? g := as_bigint (gateway_reserved_sum pk t) in
      Ok {| aa_balance := saturate_i64 (balance a + d); aa_discovery_reserved := d;
            aa_gateway_reserved := g; aa_typical_call_cost := typical_call_cost_nanousd a;
            aa_max_in_flight := max_in_flight a; aa_hourly_burn_cap := hourly_burn_cap_nanousd a |}
  | None =>
      Ok {| aa_balance := 0; aa_discovery_reserved := 0; aa_gateway_reserved := 0;
            aa_typical_call_cost := None; aa_max_in_flight := None; aa_hourly_burn_cap := None |}
  end.

Record RecentDebit := {
  rd_id : Z;
  rd_reference : string;
  rd_pubkey : string;
  rd_cost : Z;
  rd_created_at : Z;
}.
(** [ORDER BY pubkey, created_at, id]. *)
Definition debit_leb (a b : RecentDebit) : bool :=
  match String.compare (rd_pubkey a) (rd_pubkey b) with
  | Lt => true
  | Gt => false
  | Eq => (rd_created_at a <? rd_created_at b)
          || ((rd_created_at a =? rd_created_at b) && (rd_id a <=? rd_id b))
  end.
Definition recent_debit (since : Z) (e : LedgerEntry) : option RecentDebit :=
  match observed_cost e with
  | Some c =>
      if String.eqb (kind e) "debit" && (0 <? c) && (since <=? created_at e)
      then Some {| rd_id := id e; rd_reference := reference e; rd_pubkey := pubkey e; rd_cost := c;
                   rd_created_at := created_at e |}
      else None
  | None => None
  end.
(** [recent_debits]. *)
Definition recent_debits (since : Z) (t : Tables) : list RecentDebit :=
  sort_by debit_leb (filter_map (recent_debit since) (ledger (book t))).

(** [debits_on_day], the day given by its two midnights. *)
Definition debits_on_day (start stop : Z) (t : Tables) : Result Z DbError :=
  as_bigint (zsum (fun e => default 0 (observed_cost e))
    (List.filter (fun e => String.eqb (kind e) "debit" && (start <=? created_at e) && (created_at e <? stop))
       (ledger (book t)))).

(** ** The life of an intent *)

(** The columns an [UPDATE] of an intent sets; the others stay. *)
Definition amend (i : GatewaySettlementIntent) (now : Z) (state : IntentState)
    (request_id : option string) (cost status : option Z) (reason correction : option string)
    (reserved : Z) (resolved : option Z) : GatewaySettlementIntent :=
  {| i_id := i_id i; i_pubkey := i_pubkey i; i_reference := i_reference i; i_model := i_model i;
     i_state := state; i_request_id := request_id; i_observed_cost := cost; i_status := status;
     i_reason := reason; i_correction_ref := correction; i_reserved := reserved;
     i_created_at := i_created_at i; i_updated_at := now; i_resolved_at := resolved |}.

(** [COALESCE(a, b)]. *)
Definition coalesce {A} (a b : option A) : option A := match a with Some _ => a | None => b end.

Inductive GatewayIntentReservation :=
| Reserved (intent : GatewaySettlementIntent) (account : AdmissionAccount)
| Insufficient (available_nanousd required_nanousd : Z).

(** [INSERT INTO gateway_settlement_intents ... ON CONFLICT DO NOTHING
    RETURNING ...], when no row has the key. *)
Definition insert_intent (now : Z) (pk ref model : string) (reserved : Z) (t : Tables)
    : Result (Tables * GatewaySettlementIntent) DbError :=
  let? i := store_intent (book t)
    {| i_id := next_intent t; i_pubkey := pk; i_reference := ref; i_model := model;
       i_state := AdmittedIntent; i_request_id := None; i_observed_cost := None; i_status := None;
       i_reason := None; i_correction_ref := None; i_reserved := reserved; i_created_at := now;
       i_updated_at := now; i_resolved_at := None |} in
  Ok ({| book := book t; intents := intents t ++ [i]; next_intent := next_intent t + 1;
         outcomes := outcomes t |}, i).

(** The transaction of [create_gateway_settlement_intent]. [discovery_reserved]
    is what the account's Campaigns hold. An [Insufficient] answer rolls back. *)
Definition create_intent_tx (now discovery_reserved : Z) (pk ref model : string)
    (default_typical minimum : Z) (t : Tables) : Result (Tables * GatewayIntentReservation) DbError :=
  let t0 := t in
  let? c := match intent_by_key pk ref t with
            | Some i => Ok (t, i, false)
            | None =>
                let? r := insert_intent now pk ref model (Z.max (Z.max default_typical minimum) 1) t in
                Ok (r, true)
            end in
  match c with
  | (t, intent, created) =>
      match accounts (book t) !! pk with
      | None => Ok (t0, Insufficient 0 (Z.max default_typical minimum))
      | Some account =>
          let required :=
            Z.max (Z.max (default default_typical (typical_call_cost_nanousd account)) minimum) 1 in
          let? u := if created && negb (i_reserved intent =? required)
                    then update_intent (i_id intent) (fun i =>
                           amend i now (i_state i) (i_request_id i) (i_observed_cost i) (i_status i)
                             (i_reason i) (i_correction_ref i) required (i_resolved_at i)) t
                    else Ok (t, intent) in
          match u with
          | (t, intent) =>
              let? d := as_bigint discovery_reserved in
              let? gateway_reserved := as_bigint (gateway_reserved_sum pk t) in
              let prior := saturate_i64 (gateway_reserved - i_reserved intent) in
              let available := saturate_i64 (balance account - prior) in
              if created && (available <? i_reserved intent)
              then Ok (t0, Insufficient available (i_reserved intent))
              else Ok (t, Reserved intent
                {| aa_balance := saturate_i64 (balance account + d); aa_discovery_reserved := d;
                   aa_gateway_reserved := gateway_reserved;
                   aa_typical_call_cost := typical_call_cost_nanousd account;
                   aa_max_in_flight := max_in_flight account;
                   aa_hourly_burn_cap := hourly_burn_cap_nanousd account |})
          end
      end
  end.
Definition create_gateway_settlement_intent (fault : DbFault) (now discovery_reserved : Z)
    (pk ref model : string) (default_typical minimum : Z) (t : Tables)
    : Result GatewayIntentReservation DbError * Tables :=
  run_tx Sqlx fault (create_intent_tx now discovery_reserved pk ref model default_typical minimum) t.

(** [mark_gateway_provider_completed]. *)
Definition mark_gateway_provider_completed (fault : DbFault) (now n : Z) (request_id : option string)
    (cost : option Z) (status : Z) (t : Tables) : Result GatewaySettlementIntent DbError * Tables :=
  run_tx Sqlx fault (update_intent n (fun i =>
    amend i now (match i_state i with Debited => Debited | Resolved => Resolved | _ => ProviderCompleted end)
      (coalesce request_id (i_request_id i)) (coalesce cost (i_observed_cost i)) (Some status)
      (i_reason i) (i_correction_ref i) (i_reserved i) (i_resolved_at i))) t.

(** [CASE WHEN state = 'resolved' THEN state ELSE $s END]. *)
Definition unless_resolved (i : GatewaySettlementIntent) (s : IntentState) : IntentState :=
  if bool_decide (i_state i = Resolved) then Resolved else s.

(** [... state = CASE WHEN state='resolved' ... ELSE 'debited' END,
    reserved_nanousd = 0]. *)
Definition debited (now : Z) (i : GatewaySettlementIntent) : GatewaySettlementIntent :=
  amend i now (unless_resolved i Debited) (i_request_id i) (i_observed_cost i) (i_status i)
    (i_reason i) (i_correction_ref i) 0 (i_resolved_at i).
(** [mark_gateway_intent_debited]. *)
Definition mark_gateway_intent_debited (fault : DbFault) (now n : Z) (t : Tables)
    : Result GatewaySettlementIntent DbError * Tables :=
  run_tx Sqlx fault (update_intent n (debited now)) t.

(** [resolve_gateway_intent_no_charge]. *)
Definition resolve_gateway_intent_no_charge (fault : DbFault) (now n status : Z) (t : Tables)
    : Result GatewaySettlementIntent DbError * Tables :=
  run_tx Sqlx fault (update_intent n (fun i =>
    amend i now Resolved (i_request_id i) (coalesce (i_observed_cost i) (Some 0)) (Some status)
      (coalesce (i_reason i) (Some "provider_non_success"%string)) (i_correction_ref i) 0
      (coalesce (i_resolved_at i) (Some now)))) t.

(** [INSERT INTO gateway_reconciliation_outcomes ... ON CONFLICT (pubkey,
    reference) DO UPDATE SET ...]. *)
Definition upsert_outcome (o : ReconciliationOutcome) (l : list ReconciliationOutcome)
    : list ReconciliationOutcome :=
  let same p := String.eqb (o_pubkey p) (o_pubkey o) && String.eqb (o_reference p) (o_reference o) in
  if existsb same l then
    List.map (fun p => if same p then
      {| o_pubkey := o_pubkey p; o_reference := o_reference p; o_model := o_model p;
         o_http_status := o_http_status p; o_reason := o_reason o;
         o_intent := coalesce (o_intent p) (o_intent o);
         o_request_id := coalesce (o_request_id p) (o_request_id o);
         o_observed_cost := coalesce (o_observed_cost p) (o_observed_cost o);
         o_correction_ref := o_correction_ref p; o_resolved_at := o_resolved_at p |} else p) l
  else l ++ [o].
Definition outcome_row_ok (o : ReconciliationOutcome) : bool :=
  (octet_length (o_pubkey o) =? 32)
  && match o_observed_cost o with Some c => 0 <=? c | None => true end.

(** The transaction of [mark_gateway_intent_reconciliation]. *)
Definition reconciliation_tx (now n : Z) (reason : string) (request_id : option string)
    (cost : option Z) (status : Z) (t : Tables) : Result (Tables * GatewaySettlementIntent) DbError :=
  let? u := update_intent n (fun i =>
    amend i now (unless_resolved i Reconciliation) (coalesce request_id (i_request_id i))
      (coalesce cost (i_observed_cost i)) (Some status) (Some reason) (i_correction_ref i)
      (i_reserved i) (i_resolved_at i)) t in
  match u with
  | (t, intent) =>
      let o := {| o_pubkey := i_pubkey intent; o_reference := i_reference intent;
                  o_model := i_model intent; o_http_status := status; o_reason := reason;
                  o_intent := Some (i_id intent); o_request_id := request_id; o_observed_cost := cost;
                  o_correction_ref := None; o_resolved_at := None |} in
      fail_if negb (outcome_row_ok o) with Sqlx;
      Ok (with_outcomes (upsert_outcome o (outcomes t)) t, intent)
  end.
Definition mark_gateway_intent_reconciliation (fault : DbFault) (now n : Z) (reason : string)
    (request_id : option string) (cost : option Z) (status : Z) (t : Tables)
    : Result GatewaySettlementIntent DbError * Tables :=
  run_tx Sqlx fault (reconciliation_tx now n reason request_id cost status) t.

(** [record_gateway_reconciliation], the older form. *)
Definition record_gateway_reconciliation (fault : DbFault) (pk ref model : string) (status : Z)
    (reason : string) (t : Tables) : Result unit DbError * Tables :=
  run_tx Sqlx fault (fun t =>
    let o := {| o_pubkey := pk; o_reference := ref; o_model := model; o_http_status := status;
                o_reason := reason; o_intent := None; o_request_id := None; o_observed_cost := None;
                o_correction_ref := None; o_resolved_at := None |} in
    fail_if negb (outcome_row_ok o) with Sqlx;
    if existsb (fun p => String.eqb (o_pubkey p) pk && String.eqb (o_reference p) ref) (outcomes t)
    then Ok (t, tt)
    else Ok (with_outcomes (outcomes t ++ [o]) t, tt)) t.

(** The transaction of [debit_gateway_intent_internal]: the charge and the
    release of the hold, or neither. *)
Definition debit_intent_tx (now n : Z) (pk : string) (cost : Z) (ref model : string)
    (request_id : option string) (basis : string) (t : Tables)
    : Result (Tables * AppliedLedgerEntry) DbError :=
  let? intent := ok_or (intent_by_id n t) (NotFound "gateway settlement intent") in
  fail_if negb (String.eqb (i_pubkey intent) pk && String.eqb (i_model intent) model)
    with InvalidData "gateway settlement does not match its admission intent";
  let? r := on_book (apply_entry_tx now
              (debit_params pk cost ref (Some model) request_id (Some basis))) t in
  match r with
  | (t, applied) =>
      let? u := update_intent n (debited now) t in
      Ok (fst u, applied)
  end.
Definition debit_gateway_intent_internal (basis : string) (fault : DbFault) (now n : Z) (pk : string)
    (cost : Z) (ref model : string) (request_id : option string) (t : Tables)
    : Result AppliedLedgerEntry DbError * Tables :=
  match cost_i64 cost with
  | None => (Err (InvalidAmount "cost exceeds i64"), t)
  | Some cost => run_tx Sqlx fault (debit_intent_tx now n pk cost ref model request_id basis) t
  end.
Definition debit_observed_for_gateway_intent := debit_gateway_intent_internal "observed".
Definition debit_estimated_for_gateway_intent := debit_gateway_intent_internal "estimated".

(** [pending_gateway_settlement_intents]. *)
Definition pending_gateway_settlement_intents (t : Tables) : list GatewaySettlementIntent :=
  List.filter (fun i => unresolved (i_state i)) (intents t).

(** ** The resolver

    [resolve_gateway_settlement_intent] opens no transaction around its
    statements. Each statement takes a turn: what other callers do just before
    it, the clock it reads, and how the database behaves. [S] is the tables. *)

Record TurnOf (S : Type) := { fault : DbFault; clock : Z; between : S -> S }.
Arguments fault {S} _.
Arguments clock {S} _.
Arguments between {S} _.
Definition calm {S} (now : Z) : TurnOf S := {| fault := DbUp; clock := now; between := fun s => s |}.

Definition DbOf (S A : Type) : Type := list (TurnOf S) -> S -> Result A DbError * list (TurnOf S) * S.
Notation Turn := (TurnOf Tables).
Notation Db := (DbOf Tables).

Section Statements.
Context {S : Type}.
Definition db_ret {A} (r : Result A DbError) : DbOf S A := fun turns t => (r, turns, t).
Definition db_bind {A B} (m : DbOf S A) (k : A -> DbOf S B) : DbOf S B := fun turns t =>
  match m turns t with
  | (Ok a, turns, t) => k a turns t
  | (Err e, turns, t) => (Err e, turns, t)
  end.
(** One statement or transaction of its own. No turn left: nothing happens
    before it and it works. *)
Definition stmt {A} (op : DbFault -> Z -> S -> Result A DbError * S) : DbOf S A := fun turns t =>
  match turns with
  | [] => let (r, t) := op DbUp 0 t in (r, [], t)
  | turn :: turns => let (r, t) := op (fault turn) (clock turn) (between turn t) in (r, turns, t)
  end.
(** A statement that reads. *)
Definition query {A} (f : S -> Result A DbError) : DbOf S A :=
  stmt (fun fault _ t => match fault with DbUp => (f t, t) | _ => (Err Sqlx, t) end).
(** Statements whose failure is kept as a value. *)
Definition recover {A} (m : DbOf S A) : DbOf S (Result A DbError) := fun turns t =>
  match m turns t with (r, turns, t) => (Ok r, turns, t) end.
End Statements.

Record GatewayProviderUsage := {
  u_pubkey : string;
  u_reference : string;
  u_model : string;
  u_cost : Z;
  u_request_id : option string;
}.

(** The ledger row the resolver takes for the charge of this very call. *)
Definition settled_debit (pk req : string) (cost : Z) (e : LedgerEntry) : bool :=
  String.eqb (pubkey e) pk && bool_decide (request_id e = Some req)
  && String.eqb (kind e) "debit" && bool_decide (observed_cost e = Some cost).

(** [SELECT ref FROM credit_ledger WHERE pubkey=$1 AND request_id=$2 AND
    kind='debit' AND observed_cost=$3 LIMIT 1], the first written. *)
Definition existing_debit (pk : string) (usage : GatewayProviderUsage) : Db (option string) :=
  match u_request_id usage, cost_i64 (u_cost usage) with
  | None, _ => db_ret (Ok None)
  | Some _, None => db_ret (Err (InvalidAmount "provider cost exceeds BIGINT"))
  | Some req, Some cost =>
      query (fun t => Ok (reference <$> find (settled_debit pk req cost) (ledger (book t))))
  end.

(** [correction_ref]. *)
Definition correction_reference (existing : option string) (intent : GatewaySettlementIntent)
    (usage : GatewayProviderUsage) : string :=
  default (match u_request_id usage with
           | None => i_reference intent
           | Some _ => "gateway-intent:" +:+ dec (i_id intent)
           end)%string (coalesce existing (i_correction_ref intent)).

(** [UPDATE gateway_settlement_intents SET state='resolved', ...]. *)
Definition resolve_row (usage : GatewayProviderUsage) (cost : Z) (correction : string) (now : Z)
    (i : GatewaySettlementIntent) : GatewaySettlementIntent :=
  amend i now Resolved (coalesce (u_request_id usage) (i_request_id i)) (Some cost) (i_status i)
    (i_reason i) (Some correction) 0 (coalesce (i_resolved_at i) (Some now)).

(** [UPDATE gateway_reconciliation_outcomes SET ...]. *)
Definition resolve_outcomes (now : Z) (intent : GatewaySettlementIntent) (correction : string) (cost : Z)
    (t : Tables) : Tables :=
  with_outcomes (List.map (fun o =>
    if bool_decide (o_intent o = Some (i_id intent))
       || (String.eqb (o_pubkey o) (i_pubkey intent) && String.eqb (o_reference o) (i_reference intent))
    then {| o_pubkey := o_pubkey o; o_reference := o_reference o; o_model := o_model o;
            o_http_status := o_http_status o; o_reason := o_reason o; o_intent := o_intent o;
            o_request_id := o_request_id o;
            o_observed_cost := coalesce (o_observed_cost o) (Some cost);
            o_correction_ref := coalesce (o_correction_ref o) (Some correction);
            o_resolved_at := coalesce (o_resolved_at o) (Some now) |}
    else o) (outcomes t)) t.

Notation "'db!' x ':=' m 'in' k" := (db_bind m (fun x => k))
  (at level 10, x name, m at level 100, k at level 200) : colony_scope.
Local Open Scope colony_scope.

(** The rest of the resolver once the intent is read and is not resolved. *)
Definition resolve_unresolved (intent : GatewaySettlementIntent) (usage : GatewayProviderUsage)
    : Db (option GatewaySettlementIntent) :=
  if negb (String.eqb (i_pubkey intent) (u_pubkey usage)
           && String.eqb (i_reference intent) (u_reference usage)
           && String.eqb (i_model intent) (u_model usage))
  then db_ret (Err (InvalidData "provider usage does not match settlement intent identity/model"))
  else
    db! existing := existing_debit (i_pubkey intent) usage in
    let correction := correction_reference existing intent usage in
    db! _ := if is_some existing then db_ret (Ok tt)
             else db! _ := stmt (fun fault now => debit_observed_for_gateway_intent fault now
                    (i_id intent) (i_pubkey intent) (u_cost usage) correction (u_model usage)
                    (u_request_id usage)) in db_ret (Ok tt) in
    match cost_i64 (u_cost usage) with
    | None => db_ret (Err (InvalidAmount "provider cost exceeds BIGINT"))
    | Some cost =>
        db! row := stmt (fun fault now =>
          run_tx Sqlx fault (update_intent (i_id intent) (resolve_row usage cost correction now))) in
        db! _ := stmt (fun fault now =>
          run_tx Sqlx fault (fun t => Ok (resolve_outcomes now intent correction cost t, tt))) in
        db_ret (Ok (Some row))
    end.

(** [resolve_gateway_settlement_intent]. *)
Definition resolve_gateway_settlement_intent (n : Z) (usage : GatewayProviderUsage)
    : Db (option GatewaySettlementIntent) :=
  db! found := query (fun t => Ok (intent_by_id n t)) in
  match found with
  | None => db_ret (Ok None)
  | Some intent =>
      if bool_decide (i_state intent = Resolved) then db_ret (Ok (Some intent))
      else resolve_unresolved intent usage
  end.

(** The loop of [resolve_pending_gateway_settlements]. *)
Fixpoint resolve_each (usages : list GatewayProviderUsage) (pending : list GatewaySettlementIntent)
    (resolved : Z) : Db Z :=
  match pending with
  | [] => db_ret (Ok resolved)
  | intent :: rest =>
      match find (fun u => String.eqb (u_pubkey u) (i_pubkey intent)
                           && String.eqb (u_reference u) (i_reference intent)) usages with
      | None => resolve_each usages rest resolved
      | Some usage =>
          db! r := resolve_gateway_settlement_intent (i_id intent) usage in
          resolve_each usages rest
            (if match r with Some i => bool_decide (i_state i = Resolved) | None => false end
             then resolved + 1 else resolved)
      end
  end.
Definition resolve_pending_gateway_settlements (usages : list GatewayProviderUsage) : Db Z :=
  db! pending := query (fun t => Ok (pending_gateway_settlement_intents t)) in
  resolve_each usages pending 0.
