(* ===== verification/CreditsFacts.v ===== *)
(** * Facts of the money layer

    What every entry point of [Credits] keeps true of the books, of the intents
    and of the holds. *)

From Stdlib Require Import ZArith Lia Ascii.
From stdpp Require Import base gmap list strings numbers.
From S2P Require Import Prelude MachineInt RustStr Credits.
Local Open Scope Z_scope.

(** ** The books *)

Definition of_account (pk : string) (e : LedgerEntry) : bool := String.eqb (pubkey e) pk.
(** What the ledger says an account holds. *)
Definition ledger_sum (pk : string) (l : list LedgerEntry) : Z := zsum delta (List.filter (of_account pk) l).
Arguments ledger_sum : simpl never.

Definition entry_key (e : LedgerEntry) : string * string := (pubkey e, reference e).

(** Books in balance: the balance of an account is the sum of its entries and
    fits its column, every entry has its account, a reference is used once per
    account, and the identities rise. *)
Record book_ok (b : Book) : Prop := {
  bo_balance : forall pk a, accounts b !! pk = Some a ->
    balance a = ledger_sum pk (ledger b) /\ in_i64 (balance a) = true;
  bo_account : forall e, e ∈ ledger b -> is_Some (accounts b !! pubkey e);
  bo_refs : NoDup (entry_key <$> ledger b);
  bo_ids : forall e, e ∈ ledger b -> id e < next_id b;
}.

Lemma checked_i64_some x v : checked_i64 x = Some v <-> v = x /\ in_i64 x = true.
Proof. unfold checked_i64. case_match; naive_solver. Qed.

Lemma ledger_sum_app pk l1 l2 : ledger_sum pk (l1 ++ l2) = ledger_sum pk l1 + ledger_sum pk l2.
Proof. unfold ledger_sum. by rewrite List.filter_app, zsum_app. Qed.

Lemma ledger_sum_snoc pk l e :
  ledger_sum pk (l ++ [e]) = ledger_sum pk l + if String.eqb (pubkey e) pk then delta e else 0.
Proof.
  rewrite ledger_sum_app. f_equal. unfold ledger_sum. cbn. unfold of_account.
  destruct (String.eqb _ _); cbn; lia.
Qed.

Lemma ledger_sum_none pk l : (forall e, e ∈ l -> pubkey e <> pk) -> ledger_sum pk l = 0.
Proof.
  intros H. unfold ledger_sum. rewrite filterb_nil; [done|].
  intros e He. apply String.eqb_neq. by apply H.
Qed.

Lemma empty_book_ok : book_ok empty_book.
Proof. split; cbn; [intros pk a; by rewrite lookup_empty | by intros e ?%elem_of_nil | constructor | by intros e ?%elem_of_nil]. Qed.

Lemma ensure_account_ok pk b b' :
  ensure_account pk b = Ok b' -> book_ok b ->
  book_ok b' /\ is_Some (accounts b' !! pk) /\ ledger b' = ledger b
  /\ (forall q, q <> pk -> accounts b' !! q = accounts b !! q)
  /\ (accounts b' !! pk = accounts b !! pk
      \/ (accounts b !! pk = None /\ accounts b' !! pk = Some new_account)).
Proof.
  unfold ensure_account. intros H Hb. destruct (negb _) eqn:Hl; [done|].
  destruct (accounts b !! pk) as [a|] eqn:Ha; simplify_eq; [by eauto 10|].
  split_and!; cbn.
  - destruct Hb as [H1 H2 H3 H4]. split; cbn; [| |done|done].
    + intros q a. rewrite lookup_insert_Some. intros [[<- <-]|[Hne Hq]]; [|by apply H1].
      split; [|done]. symmetry. apply (ledger_sum_none pk (ledger b)). intros e He Heq.
      destruct (H2 e He). congruence.
    + intros e He. destruct (H2 e He) as [a Hae]. destruct (decide (pk = pubkey e)) as [->|];
        [rewrite lookup_insert_eq; by eauto | rewrite lookup_insert_ne by done; by eauto].
  - rewrite lookup_insert_eq. eauto.
  - done.
  - intros q Hq. by rewrite lookup_insert_ne by done.
  - right. by rewrite lookup_insert_eq.
Qed.

Lemma find_some_elem {A} (f : A -> bool) l x : find f l = Some x -> x ∈ l /\ f x = true.
Proof. intros H%find_some. by rewrite list_elem_of_In. Qed.

Lemma same_ref_key pk ref e : same_ref pk ref e = true <-> entry_key e = (pk, ref).
Proof.
  unfold same_ref, entry_key. rewrite andb_true_iff, !String.eqb_eq. split; [by intros [-> ->] | by intros [= -> ->]].
Qed.

(** The row the table holds for [row], once [now]'s identity is drawn. *)
Definition numbered (n : Z) (row : LedgerEntry) : LedgerEntry :=
  {| id := n; pubkey := pubkey row; delta := delta row; kind := kind row;
     reference := reference row; model := model row; observed_cost := observed_cost row;
     request_id := request_id row; settle_basis := settle_basis row;
     discovery := discovery row; created_at := created_at row |}.

(** [insert_ledger]: a check fails, the reference is taken, the run is already
    charged, or the row is appended. *)
Lemma insert_ledger_spec row b :
  insert_ledger row b =
  if negb (ledger_row_ok row) then Err Sqlx
  else if bool_decide (entry_key row ∈ entry_key <$> ledger b)
  then Ok ({| accounts := accounts b; ledger := ledger b; next_id := next_id b + 1 |}, None)
  else if existsb (same_discovery_debit row) (ledger b) then Err Sqlx
  else Ok ({| accounts := accounts b; ledger := ledger b ++ [numbered (next_id b) row];
              next_id := next_id b + 1 |}, Some (numbered (next_id b) row)).
Proof.
  unfold insert_ledger. destruct (negb _); [done|].
  replace (existsb (same_ref (pubkey row) (reference row)) (ledger b))
    with (bool_decide (entry_key row ∈ entry_key <$> ledger b)); [done|].
  apply eq_true_iff_eq. rewrite bool_decide_eq_true, existsb_exists, list_elem_of_fmap. split.
  - intros (e & He & Hin). exists e. split; [by apply list_elem_of_In|]. by apply same_ref_key.
  - intros (e & Hin & He%same_ref_key). exists e. split; [done|by apply list_elem_of_In].
Qed.

Lemma insert_ledger_none row b b' :
  insert_ledger row b = Ok (b', None) -> book_ok b ->
  book_ok b' /\ accounts b' = accounts b /\ ledger b' = ledger b
  /\ entry_key row ∈ entry_key <$> ledger b.
Proof.
  rewrite insert_ledger_spec. intros H [H1 H2 H3 H4]. repeat case_match; simplify_eq.
  rewrite bool_decide_eq_true in *. split_and!; [|done..].
  split; cbn; [done..|]. intros e He%H4. lia.
Qed.

(** Writing an entry and moving the balance by it. *)
Lemma post_ok row b b1 e b2 :
  insert_ledger row b = Ok (b1, Some e) -> add_balance (delta row) (pubkey row) b1 = Ok b2 ->
  book_ok b -> is_Some (accounts b !! pubkey row) ->
  exists a, accounts b !! pubkey row = Some a /\ in_i64 (balance a + delta row) = true
    /\ e = numbered (next_id b) row /\ (entry_key row ∉ entry_key <$> ledger b)
    /\ existsb (same_discovery_debit row) (ledger b) = false /\ ledger_row_ok row = true
    /\ ledger b2 = ledger b ++ [e]
    /\ accounts b2 = <[pubkey row := {| balance := balance a + delta row;
                         typical_call_cost_nanousd := typical_call_cost_nanousd a;
                         max_in_flight := max_in_flight a;
                         hourly_burn_cap_nanousd := hourly_burn_cap_nanousd a |}]> (accounts b)
    /\ book_ok b2.
Proof.
  rewrite insert_ledger_spec. intros H Hadd [H1 H2 H3 H4] [a Ha].
  destruct (negb _) eqn:Hok; [done|]. case_bool_decide as Hnew; [done|].
  destruct (existsb _ _) eqn:Hdup; [done|]. simplify_eq.
  unfold add_balance in Hadd. cbn in Hadd. rewrite Ha in Hadd. inv_bind.
  apply ok_or_ok, checked_i64_some in Hb as [-> Hin].
  exists a. split_and!; try done; [by destruct (ledger_row_ok row)|].
  split; cbn.
  - intros pk a'. rewrite lookup_insert_Some, ledger_sum_snoc. cbn [pubkey delta numbered].
    intros [[<- <-]|[Hne Hpk]]; cbn [balance].
    + rewrite String.eqb_refl. destruct (H1 _ _ Ha). split; [lia|done].
    + rewrite (proj2 (String.eqb_neq _ _)) by done. destruct (H1 _ _ Hpk). split; [lia|done].
  - intros e [He | ->%list_elem_of_singleton]%elem_of_app; cbn.
    + destruct (decide (pubkey row = pubkey e)) as [->|]; [rewrite lookup_insert_eq; eauto|].
      rewrite lookup_insert_ne by done. by apply H2.
    + rewrite lookup_insert_eq. eauto.
  - rewrite fmap_app. apply list.NoDup_app. split_and!; [done| |apply NoDup_singleton].
    intros k Hk ->%list_elem_of_singleton. done.
  - intros e [He%H4 | ->%list_elem_of_singleton]%elem_of_app; cbn; lia.
Qed.

Lemma find_same_ref pk ref l :
  (pk, ref) ∈ entry_key <$> l -> exists e, find (same_ref pk ref) l = Some e /\ e ∈ l /\ entry_key e = (pk, ref).
Proof.
  intros (e & He & Hin)%list_elem_of_fmap.
  destruct (find (same_ref pk ref) l) as [e'|] eqn:Hf.
  - destruct (find_some_elem _ _ _ Hf) as [? ?%same_ref_key]. eauto.
  - exfalso. eapply find_none in Hf; [|by apply list_elem_of_In].
    assert (same_ref pk ref e = true) by (by apply same_ref_key). congruence.
Qed.

(** [a] was in the books [b], or [b] had no such account and [a] is fresh. *)
Definition account_or_new (b : Book) (pk : string) : Account := default new_account (accounts b !! pk).

(** [apply_entry_tx] on a reference the account has used: the entry it was used
    for, and nothing changes but the drawn identity and perhaps the account's
    row. *)
Lemma apply_entry_replay now p b :
  book_ok b -> (octet_length (p_pubkey p) =? 32) = true -> ledger_row_ok (params_row now p) = true ->
  (p_pubkey p, p_reference p) ∈ entry_key <$> ledger b ->
  exists b' e, apply_entry_tx now p b = Ok (b', {| entry := e; applied := false |})
    /\ e ∈ ledger b /\ entry_key e = (p_pubkey p, p_reference p)
    /\ ledger b' = ledger b /\ accounts b' = accounts b.
Proof.
  intros Hb Hlen Hok Hin. unfold apply_entry_tx.
  assert (is_Some (accounts b !! p_pubkey p)) as [a Ha].
  { apply list_elem_of_fmap in Hin as (e & He & Hin). apply (bo_account b Hb) in Hin.
    injection He as -> _. done. }
  unfold ensure_account. rewrite Hlen, Ha. cbn [negb rbind].
  rewrite insert_ledger_spec, Hok. cbn [negb].
  rewrite bool_decide_eq_true_2 by done. cbn [rbind].
  destruct (find_same_ref _ _ _ Hin) as (e & He & Hel & Hk). cbn [ledger]. rewrite He. cbn. eauto 10.
Qed.

(** [apply_entry_tx] on a new reference that the books accept. *)
Lemma apply_entry_ok now p b b' r :
  apply_entry_tx now p b = Ok (b', r) -> book_ok b ->
  book_ok b' /\ (forall q, q <> p_pubkey p -> accounts b' !! q = accounts b !! q)
  /\ if applied r
     then ledger b' = ledger b ++ [entry r]
          /\ ((p_pubkey p, p_reference p) ∉ entry_key <$> ledger b)
          /\ entry r = numbered (next_id b) (params_row now p)
          /\ (exists a, accounts b' !! p_pubkey p = Some a
               /\ balance a = balance (account_or_new b (p_pubkey p)) + p_delta p)
     else ledger b' = ledger b /\ entry r ∈ ledger b
          /\ entry_key (entry r) = (p_pubkey p, p_reference p)
          /\ accounts b' = accounts b.
Proof.
  unfold apply_entry_tx. intros H Hb.
  destruct (ensure_account _ b) as [b1|] eqn:He; [|done]. cbn [rbind] in H.
  destruct (ensure_account_ok _ _ _ He Hb) as (Hb1 & Hsome & Hl & Hoth & Hacc).
  destruct (insert_ledger _ b1) as [[b2 [row|]]|] eqn:Hi; [| |done]; cbn [rbind] in H.
  - destruct (add_balance _ _ b2) as [b3|] eqn:Hadd; [|done]. cbn [rbind] in H. injection H as <- <-.
    destruct (post_ok _ _ _ _ _ Hi Hadd Hb1 Hsome) as (a & Ha & Hin & -> & Hnew & _ & _ & Hl3 & Ha3 & Hb3).
    cbn [applied entry]. cbn [params_row pubkey delta] in *. rewrite Hl in *.
    split_and!; [done| |done|done| |].
    + intros q Hq. rewrite Ha3, lookup_insert_ne by done. by apply Hoth.
    + f_equal. unfold ensure_account in He. repeat case_match; by simplify_eq.
    + rewrite Ha3, lookup_insert_eq. eexists. split; [done|]. cbn [balance]. f_equal. f_equal.
      unfold account_or_new. destruct Hacc as [<-|[-> Hnewacc]]; [by rewrite Ha|].
      cbn. congruence.
  - destruct (insert_ledger_none _ _ _ Hi Hb1) as (Hb2 & Ha2 & Hl2 & Hin).
    destruct (find_same_ref _ _ _ Hin) as (e & Hf & Hel & Hk).
    rewrite Hl2 in H. cbn [params_row pubkey reference] in *. rewrite Hf in H. cbn in H. injection H as <- <-.
    cbn [applied entry]. rewrite Hl in *.
    assert (accounts b2 = accounts b) as Hacc2.
    { rewrite Ha2. destruct (bo_account b Hb e Hel) as [a Ha]. unfold entry_key in Hk.
      injection Hk as Hpk _. rewrite Hpk in Ha.
      unfold ensure_account in He. rewrite Ha in He. repeat case_match; by simplify_eq. }
    split_and!; [done| |by rewrite Hl2|done|done|done]. intros q Hq. by rewrite Hacc2.
Qed.

(** ** The intents *)

Definition intent_key (i : GatewaySettlementIntent) : string * string := (i_pubkey i, i_reference i).

(** Intents in order: identities and keys are unique, every row passes the
    table's checks (so a hold is there exactly while the intent is active), and
    every intent has its account. *)
Record intents_ok (t : Tables) : Prop := {
  io_ids : NoDup (i_id <$> intents t);
  io_fresh : forall i, i ∈ intents t -> i_id i < next_intent t;
  io_keys : NoDup (intent_key <$> intents t);
  io_rows : forall i, i ∈ intents t -> intent_row_ok i = true;
  io_account : forall i, i ∈ intents t -> is_Some (accounts (book t) !! i_pubkey i);
}.
Record tables_ok (t : Tables) : Prop := { to_book : book_ok (book t); to_intents : intents_ok t }.

(** An [UPDATE] leaves the identity of the intent alone. *)
Definition keeps_key (f : GatewaySettlementIntent -> GatewaySettlementIntent) : Prop :=
  forall i, i_id (f i) = i_id i /\ intent_key (f i) = intent_key i /\ i_model (f i) = i_model i.

Lemma amend_keeps now state rid cost status reason corr res rat :
  keeps_key (fun i => amend i now (state i) (rid i) (cost i) (status i) (reason i) (corr i) (res i) (rat i)).
Proof. by intros i. Qed.
#[export] Hint Resolve amend_keeps : core.

Lemma reservation_compat_keeps b : keeps_key (reservation_compat b).
Proof. intros i. unfold reservation_compat. by repeat case_match. Qed.
Lemma reservation_compat_state b i : i_state (reservation_compat b i) = i_state i.
Proof. unfold reservation_compat. by repeat case_match. Qed.

Lemma intent_by_id_some n t i : intent_by_id n t = Some i -> i ∈ intents t /\ i_id i = n.
Proof. intros [Hi Hn%Z.eqb_eq]%find_some_elem. done. Qed.

Lemma replace_intent_cons i j l :
  replace_intent i (j :: l) = (if i_id j =? i_id i then i else j) :: replace_intent i l.
Proof. done. Qed.
Arguments replace_intent : simpl never.
Arguments zsum : simpl never.

(** Rows with distinct identities: replacing one changes one term of a sum. *)
Lemma replace_intent_sum (f : GatewaySettlementIntent -> Z) i0 i l :
  i0 ∈ l -> i_id i = i_id i0 -> NoDup (i_id <$> l) ->
  zsum f (replace_intent i l) = zsum f l - f i0 + f i.
Proof.
  intros Hin Hid. induction l as [|j l IH]; [by apply elem_of_nil in Hin|].
  rewrite fmap_cons, replace_intent_cons, !zsum_cons.
  intros [Hj Hnd]%list.NoDup_cons. apply elem_of_cons in Hin as [->|Hin].
  - rewrite (proj2 (Z.eqb_eq _ _)) by done.
    assert (replace_intent i l = l) as ->; [|lia].
    unfold replace_intent. rewrite <- (List.map_id l) at 2. apply List.map_ext_in.
    intros k Hk%list_elem_of_In. rewrite Hid. destruct (Z.eqb_spec (i_id k) (i_id j)) as [Hk'|]; [|done].
    destruct Hj. rewrite <- Hk'. by apply list_elem_of_fmap_2.
  - rewrite (proj2 (Z.eqb_neq _ _)).
    + rewrite (IH Hin Hnd). lia.
    + intros Heq. apply Hj. rewrite Heq, Hid. by apply list_elem_of_fmap_2.
Qed.

Lemma replace_intent_fmap {A} (g : GatewaySettlementIntent -> A) i l :
  (forall j, j ∈ l -> i_id j = i_id i -> g i = g j) -> g <$> replace_intent i l = g <$> l.
Proof.
  intros H. induction l as [|j l IH]; [done|]. rewrite replace_intent_cons, !fmap_cons. f_equal.
  - destruct (Z.eqb_spec (i_id j) (i_id i)); [|done]. apply H; [left|done].
  - apply IH. intros k Hk. apply H. by right.
Qed.

Lemma elem_of_replace_intent i l j :
  j ∈ replace_intent i l -> j ∈ l \/ j = i.
Proof.
  unfold replace_intent. rewrite list_elem_of_In, in_map_iff. intros (k & Hk & Hin%list_elem_of_In).
  case_match; subst; eauto.
Qed.

Lemma id_inj t i j : intents_ok t -> i ∈ intents t -> j ∈ intents t -> i_id i = i_id j -> i = j.
Proof.
  intros Ht Hi Hj Hid. apply list_elem_of_lookup in Hi as [m Hm], Hj as [n Hn].
  assert (m = n) as ->; [|congruence].
  eapply (NoDup_lookup (i_id <$> intents t)); [apply Ht| |]; rewrite list_lookup_fmap.
  - by rewrite Hm.
  - rewrite Hn. cbn. by rewrite Hid.
Qed.

(** What an [UPDATE] of an intent does. *)
Lemma update_intent_ok n f t t' i :
  update_intent n f t = Ok (t', i) -> keeps_key f -> intents_ok t ->
  exists i0, intent_by_id n t = Some i0 /\ i0 ∈ intents t /\ i = reservation_compat (book t) (f i0)
    /\ t' = with_intents (replace_intent i (intents t)) t
    /\ i_id i = i_id i0 /\ intent_key i = intent_key i0 /\ intent_row_ok i = true
    /\ i ∈ intents t' /\ intents_ok t'.
Proof.
  unfold update_intent, store_intent. intros H Hf Ht. inv_bind. cbn [rbind] in *.
  apply ok_or_ok in Hb. destruct (intent_by_id_some _ _ _ Hb) as [Hin Hn].
  rename a into i0. set (i := reservation_compat (book t) (f i0)) in *.
  assert (i_id i = i_id i0 /\ intent_key i = intent_key i0) as [Hid Hkey].
  { destruct (reservation_compat_keeps (book t) (f i0)) as (H1 & H2 & _).
    destruct (Hf i0) as (H3 & H4 & _). unfold i. split; congruence. }
  assert (forall j, j ∈ intents t -> i_id j = i_id i -> j = i0) as Huniq.
  { intros j Hj Hji. apply (id_inj t); [done..|congruence]. }
  apply negb_false_iff in Hc.
  exists i0. split_and!; try done.
  - cbn. unfold replace_intent. apply list_elem_of_In, in_map_iff. exists i0.
    rewrite Hid, Z.eqb_refl. split; [done|by apply list_elem_of_In].
  - destruct Ht as [H1 H2 H3 H4 H5]. split; cbn.
    + rewrite replace_intent_fmap; [done|]. by intros j Hj ->.
    + intros j [Hj | ->]%elem_of_replace_intent; [by apply H2|]. rewrite Hid. by apply H2.
    + rewrite replace_intent_fmap; [done|]. intros j Hj Hji. by rewrite (Huniq j).
    + intros j [Hj | ->]%elem_of_replace_intent; [by apply H4|done].
    + intros j [Hj | ->]%elem_of_replace_intent; [by apply H5|]. unfold intent_key in Hkey.
      injection Hkey as -> _. by apply H5.
Qed.

(** ** Every operation keeps the tables in order *)

(** New books under the same intents. *)
Lemma with_book_ok b t :
  tables_ok t -> book_ok b -> (forall pk, is_Some (accounts (book t) !! pk) -> is_Some (accounts b !! pk)) ->
  tables_ok (with_book b t).
Proof.
  intros [_ [H1 H2 H3 H4 H5]] Hb Hacc. split; [done|]. split; cbn; [done..|].
  intros i Hi. by apply Hacc, H5.
Qed.

Lemma apply_entry_accounts now p b b' r :
  apply_entry_tx now p b = Ok (b', r) -> book_ok b ->
  forall pk, is_Some (accounts b !! pk) -> is_Some (accounts b' !! pk).
Proof.
  intros H Hb pk Hpk. destruct (apply_entry_ok _ _ _ _ _ H Hb) as (_ & Hoth & Hr).
  destruct (decide (pk = p_pubkey p)) as [->|Hne]; [|by rewrite Hoth].
  destruct (applied r); [destruct Hr as (_ & _ & _ & a & Ha & _); by rewrite Ha|].
  by destruct Hr as (_ & _ & _ & ->).
Qed.

Lemma on_book_ok {A} (f : Book -> Result (Book * A) DbError) t t' a :
  on_book f t = Ok (t', a) -> exists b, f (book t) = Ok (b, a) /\ t' = with_book b t.
Proof.
  unfold on_book. destruct (f (book t)) as [[b a']|]; cbn; [|done]. intros [= <- <-]. eauto.
Qed.

Lemma apply_tx_tables now p t t' r :
  on_book (apply_entry_tx now p) t = Ok (t', r) -> tables_ok t -> tables_ok t'.
Proof.
  intros (b & H & ->)%on_book_ok Ht. apply with_book_ok; [done| |].
  - by apply (apply_entry_ok _ _ _ _ _ H), Ht.
  - by eapply apply_entry_accounts; [|apply Ht].
Qed.

Lemma update_tables n f t t' i :
  update_intent n f t = Ok (t', i) -> keeps_key f -> tables_ok t -> tables_ok t'.
Proof.
  intros H Hf [Hb Ht]. destruct (update_intent_ok _ _ _ _ _ H Hf Ht) as (_ & _ & _ & _ & -> & _ & _ & _ & _ & Hi).
  by split.
Qed.

(** [debited] and the row of the resolver keep the identity. *)
Lemma debited_keeps now : keeps_key (debited now).
Proof. by intros i. Qed.
Lemma resolve_row_keeps usage cost corr now : keeps_key (resolve_row usage cost corr now).
Proof. by intros i. Qed.
#[export] Hint Resolve debited_keeps resolve_row_keeps : core.

Lemma debit_intent_tables now n pk cost ref m rid basis t t' r :
  debit_intent_tx now n pk cost ref m rid basis t = Ok (t', r) -> tables_ok t -> tables_ok t'.
Proof.
  unfold debit_intent_tx. intros H Ht.
  destruct (ok_or _ _) as [i|]; [|done]. cbn [rbind] in H. destruct (negb _); [done|].
  destruct (on_book _ t) as [[t1 r1]|] eqn:Hb; [|done]. cbn [rbind] in H.
  destruct (update_intent n _ t1) as [[t2 i2]|] eqn:Hu; [|done]. cbn in H. injection H as <- <-.
  eapply update_tables; [done|auto|]. by eapply apply_tx_tables.
Qed.

Lemma store_intent_ok b i i' : store_intent b i = Ok i' -> i' = reservation_compat b i /\ intent_row_ok i' = true.
Proof. unfold store_intent. destruct (negb _) eqn:E; [done|]. intros [= <-]. by apply negb_false_iff in E. Qed.

Lemma intent_by_key_none pk ref t :
  intent_by_key pk ref t = None -> (pk, ref) ∉ intent_key <$> intents t.
Proof.
  intros H (i & Hi & Hin)%list_elem_of_fmap. unfold intent_by_key in H.
  eapply find_none in H; [|by apply list_elem_of_In].
  injection Hi as Hpk Href. by rewrite <- Hpk, <- Href, !String.eqb_refl in H.
Qed.

(** The intents once a row is inserted. *)
Lemma insert_intent_ok now pk ref m reserved t t' i :
  insert_intent now pk ref m reserved t = Ok (t', i) -> tables_ok t -> 0 < reserved ->
  intent_by_key pk ref t = None -> is_Some (accounts (book t) !! pk) ->
  tables_ok t' /\ intents t' = intents t ++ [i] /\ i_id i = next_intent t /\ intent_key i = (pk, ref)
  /\ i_state i = AdmittedIntent /\ i_reserved i = reserved /\ book t' = book t /\ i_model i = m.
Proof.
  unfold insert_intent. intros H [Hb [H1 H2 H3 H4 H5]] Hpos Hkey%intent_by_key_none Hacc. inv_bind.
  apply store_intent_ok in Hb0 as [Hi Hok]. unfold reservation_compat in Hi. cbn in Hi.
  rewrite (proj2 (Z.eqb_neq _ _)) in Hi by lia. subst i. cbn.
  split_and!; try done. split; [done|]. split; cbn.
  - rewrite fmap_app. apply list.NoDup_app. split_and!; [done| |apply NoDup_singleton].
    intros k (j & -> & Hj)%list_elem_of_fmap Hk%list_elem_of_singleton. apply H2 in Hj. cbn in Hk. lia.
  - intros j [Hj%H2 | ->%list_elem_of_singleton]%elem_of_app; cbn; lia.
  - rewrite fmap_app. apply list.NoDup_app. split_and!; [done| |apply NoDup_singleton].
    by intros k Hk ->%list_elem_of_singleton.
  - intros j [Hj%H4 | ->%list_elem_of_singleton]%elem_of_app; done.
  - intros j [Hj%H5 | ->%list_elem_of_singleton]%elem_of_app; done.
Qed.

Lemma replace_intent_snoc i j l :
  (forall k, k ∈ l -> i_id k <> i_id i) -> i_id j = i_id i -> replace_intent i (l ++ [j]) = l ++ [i].
Proof.
  intros H Hj. unfold replace_intent. rewrite List.map_app. cbn. rewrite Hj, Z.eqb_refl. f_equal.
  rewrite <- (List.map_id l) at 2. apply List.map_ext_in. intros k Hk%list_elem_of_In.
  by rewrite (proj2 (Z.eqb_neq _ _)) by (by apply H).
Qed.

(** What an account's unresolved intents hold, as a sum over all of them: a
    resolved row holds nothing. *)
Definition hold_of (pk : string) (i : GatewaySettlementIntent) : Z :=
  if String.eqb (i_pubkey i) pk then i_reserved i else 0.
Lemma gateway_reserved_sum_alt pk t :
  intents_ok t -> gateway_reserved_sum pk t = zsum (hold_of pk) (intents t).
Proof.
  intros Ht. unfold gateway_reserved_sum. rewrite zsum_filter. apply zsum_ext. intros i Hi%(io_rows t Ht).
  unfold hold_of, unresolved. destruct (String.eqb _ _); [|done]. cbn.
  case_bool_decide as Hs; [|done]. unfold intent_row_ok in Hi. rewrite Hs in Hi. cbn in Hi.
  apply andb_true_iff in Hi as [_ Hi%Z.eqb_eq]. by rewrite Hi.
Qed.

Lemma reserved_nonneg i : intent_row_ok i = true -> 0 <= i_reserved i.
Proof.
  unfold intent_row_ok. rewrite !andb_true_iff. intros [_ H]. destruct (active _).
  - apply Z.ltb_lt in H. lia.
  - apply Z.eqb_eq in H. lia.
Qed.

Lemma gateway_reserved_nonneg pk t : intents_ok t -> 0 <= gateway_reserved_sum pk t.
Proof.
  intros Ht. unfold gateway_reserved_sum.
  pose proof (io_rows t Ht) as Hrows. revert Hrows. generalize (intents t).
  intros l Hrows. induction l as [|i l IH]; [done|]. cbn.
  assert (0 <= i_reserved i) by (apply reserved_nonneg, Hrows; left).
  assert (0 <= zsum i_reserved (List.filter (fun i => String.eqb (i_pubkey i) pk && unresolved (i_state i)) l)).
  { apply IH. intros j Hj. apply Hrows. by right. }
  destruct (_ && _); [rewrite zsum_cons; lia|done].
Qed.

(** Updating one intent moves its account's holds by the change of its own. *)
Lemma update_intent_holds n f t t' i pk :
  update_intent n f t = Ok (t', i) -> keeps_key f -> intents_ok t ->
  exists i0, intent_by_id n t = Some i0
    /\ gateway_reserved_sum pk t' = gateway_reserved_sum pk t - hold_of pk i0 + hold_of pk i.
Proof.
  intros H Hf Ht. destruct (update_intent_ok _ _ _ _ _ H Hf Ht)
    as (i0 & Hi0 & Hin & _ & -> & Hid & _ & _ & _ & Ht').
  exists i0. split; [done|]. rewrite !gateway_reserved_sum_alt by done. cbn.
  apply replace_intent_sum; [done|done|apply Ht].
Qed.

(** The estimate an admission must hold. *)
Definition required_hold (account : Account) (default_typical minimum : Z) : Z :=
  Z.max (Z.max (default default_typical (typical_call_cost_nanousd account)) minimum) 1.

Lemma available_saturated bal sum own :
  0 <= own -> own <= sum -> sum <= i64_max -> bal <= i64_max ->
  (saturate_i64 (bal - saturate_i64 (sum - own)) <? own) = false -> sum <= bal.
Proof.
  unfold saturate_i64, i64_min, i64_max. rewrite Z.ltb_ge. lia.
Qed.

(** The new row of an admission, before its balance is looked at: its hold is
    the account's estimate. *)
Lemma admission_row now pk ref m typical minimum t a :
  tables_ok t -> intent_by_key pk ref t = None -> accounts (book t) !! pk = Some a ->
  forall t1 i1, insert_intent now pk ref m (Z.max (Z.max typical minimum) 1) t = Ok (t1, i1) ->
  forall t2 i2,
  (if negb (i_reserved i1 =? required_hold a typical minimum)
   then update_intent (i_id i1) (fun i =>
          amend i now (i_state i) (i_request_id i) (i_observed_cost i) (i_status i) (i_reason i)
            (i_correction_ref i) (required_hold a typical minimum) (i_resolved_at i)) t1
   else Ok (t1, i1)) = Ok (t2, i2) ->
  tables_ok t2 /\ book t2 = book t /\ intents t2 = intents t ++ [i2] /\ intent_key i2 = (pk, ref)
  /\ i_id i2 = next_intent t /\ i_reserved i2 = required_hold a typical minimum /\ i_state i2 = AdmittedIntent.
Proof.
  intros Ht Hnone Ha t1 i1 Hins t2 i2 H.
  destruct (insert_intent_ok _ _ _ _ _ _ _ _ Hins Ht) as (Ht1 & Hl1 & Hid & Hkey & Hst & Hres & Hb1 & _);
    [lia|done|by rewrite Ha|].
  destruct (Z.eqb_spec (i_reserved i1) (required_hold a typical minimum)) as [Heq|Hne]; cbn [negb] in H.
  { injection H as <- <-. by split_and!. }
  pose proof (update_tables _ _ _ _ _ H ltac:(auto) Ht1) as Ht2.
  destruct (update_intent_ok _ _ _ _ _ H ltac:(auto) (to_intents _ Ht1))
    as (i0 & Hi0 & Hin & Hi2 & -> & Hid2 & Hkey2 & _).
  destruct (intent_by_id_some _ _ _ Hi0) as [_ Hid0].
  assert (i0 = i1) as ->.
  { apply (id_inj t1); [apply Ht1|done| |done]. rewrite Hl1. apply elem_of_app. right. by apply list_elem_of_singleton. }
  split_and!; [done|done| |congruence|congruence| |].
  - cbn. rewrite Hl1. apply replace_intent_snoc; [|done].
    intros k Hk%(io_fresh t (to_intents t Ht)). lia.
  - rewrite Hi2. unfold reservation_compat. cbn. rewrite Hst. cbn.
    rewrite (proj2 (Z.eqb_neq _ _)); [done|]. unfold required_hold. lia.
  - rewrite Hi2, reservation_compat_state. done.
Qed.

(** [create_gateway_settlement_intent], on each branch: the intent that is
    already there, the refusal that leaves nothing, or a new intent whose hold
    the account's balance covers together with all its other holds. *)
Lemma create_intent_ok now d pk ref m typical minimum t t' r :
  create_intent_tx now d pk ref m typical minimum t = Ok (t', r) -> tables_ok t ->
  tables_ok t' /\ book t' = book t /\
  match r with
  | Insufficient _ _ => t' = t
  | Reserved i _ =>
      (t' = t /\ intent_by_key pk ref t = Some i)
      \/ (intent_by_key pk ref t = None /\ intents t' = intents t ++ [i] /\ intent_key i = (pk, ref)
          /\ i_state i = AdmittedIntent /\ exists a, accounts (book t) !! pk = Some a
          /\ i_reserved i = required_hold a typical minimum
          /\ gateway_reserved_sum pk t' <= balance a)
  end.
Proof.
  unfold create_intent_tx. intros H Ht.
  destruct (intent_by_key pk ref t) as [i|] eqn:Hkey; cbn [rbind] in H.
  - destruct (accounts (book t) !! pk) as [a|]; [|by injection H as <- <-]. cbn [andb rbind] in H.
    inv_bind. by eauto.
  - destruct (insert_intent _ _ _ _ _ t) as [[t1 i1]|] eqn:Hins; [|done]. cbn [rbind] in H.
    assert (book t1 = book t) as Hb1.
    { unfold insert_intent in Hins. by inv_bind. }
    rewrite Hb1 in H.
    destruct (accounts (book t) !! pk) as [a|] eqn:Ha; [|by injection H as <- <-]. cbn [andb] in H.
    change (Z.max (Z.max (default typical (typical_call_cost_nanousd a)) minimum) 1)
      with (required_hold a typical minimum) in H.
    destruct (if negb _ then _ else _) as [[t2 i2]|] eqn:Hu; [|done]. cbn [rbind] in H.
    destruct (admission_row _ _ _ _ _ _ _ _ Ht Hkey Ha _ _ Hins _ _ Hu)
      as (Ht2 & Hb2 & Hl2 & Hk2 & Hid2 & Hres2 & Hst2).
    destruct (as_bigint d) as [d'|]; [|done]. cbn [rbind] in H.
    destruct (as_bigint _) as [g|] eqn:Hg; [|done]. cbn [rbind] in H.
    apply ok_or_ok, checked_i64_some in Hg as [-> Hg].
    destruct (_ <? _) eqn:Hav; injection H as <- <-; [by eauto|].
    split_and!; [done|done|]. right. split_and!; try done. exists a. split_and!; try done.
    eapply available_saturated; [| | | |exact Hav].
    + rewrite Hres2. unfold required_hold. lia.
    + rewrite gateway_reserved_sum_alt by apply Ht2. rewrite Hl2, zsum_app, zsum_cons.
      unfold hold_of at 2. injection Hk2 as -> _. rewrite String.eqb_refl.
      pose proof (gateway_reserved_nonneg pk t (to_intents t Ht)) as Hnn.
      rewrite gateway_reserved_sum_alt in Hnn by apply Ht. unfold zsum at 2. cbn. lia.
    + unfold in_i64, i64_max in *. lia.
    + destruct (bo_balance _ (to_book t Ht) _ _ Ha) as [_ Hr]. unfold in_i64, i64_max in *. lia.
Qed.

(** ** The calls as steps *)

(** An operator changes the admission overrides of an account. *)
Definition set_policy (pk : string) (typical flight burn : option Z) (t : Tables) : Tables :=
  match accounts (book t) !! pk with
  | None => t
  | Some a =>
      with_book {| accounts := <[pk := {| balance := balance a; typical_call_cost_nanousd := typical;
                                          max_in_flight := flight; hourly_burn_cap_nanousd := burn |}]>
                                 (accounts (book t));
                   ledger := ledger (book t); next_id := next_id (book t) |} t
  end.

(** What one transaction of the money layer can do, whatever its arguments and
    however the database behaves. *)
Inductive money_step : Tables -> Tables -> Prop :=
| step_entry fault now p t : money_step t (snd (apply_entry_applied fault now p t))
| step_create fault now d pk ref m typical minimum t :
    money_step t (snd (create_gateway_settlement_intent fault now d pk ref m typical minimum t))
| step_completed fault now n rid cost status t :
    money_step t (snd (mark_gateway_provider_completed fault now n rid cost status t))
| step_debited fault now n t : money_step t (snd (mark_gateway_intent_debited fault now n t))
| step_no_charge fault now n status t :
    money_step t (snd (resolve_gateway_intent_no_charge fault now n status t))
| step_reconciliation fault now n reason rid cost status t :
    money_step t (snd (mark_gateway_intent_reconciliation fault now n reason rid cost status t))
| step_outcome fault pk ref m status reason t :
    money_step t (snd (record_gateway_reconciliation fault pk ref m status reason t))
| step_debit basis fault now n pk cost ref m rid t :
    money_step t (snd (debit_gateway_intent_internal basis fault now n pk cost ref m rid t))
| step_resolve fault now n usage cost corr t :
    money_step t (snd (run_tx Sqlx fault (update_intent n (resolve_row usage cost corr now)) t))
| step_outcomes fault now i corr cost t :
    money_step t (snd (run_tx Sqlx fault (fun t => Ok (resolve_outcomes now i corr cost t, tt)) t))
| step_policy pk typical flight burn t : money_step t (set_policy pk typical flight burn t).

Lemma run_tx_ind {S A E} (P : S -> Prop) (lost : E) fault (tx : S -> Result (S * A) E) s :
  P s -> (forall s' a, tx s = Ok (s', a) -> P s') -> P (snd (run_tx lost fault tx s)).
Proof. intros Hs Htx. destruct (run_tx_state lost fault tx s) as [->|(s' & a & H & ->)]; eauto. Qed.

Lemma with_outcomes_ok l t : tables_ok t -> tables_ok (with_outcomes l t).
Proof. intros [Hb [H1 H2 H3 H4 H5]]. split; [done|]. by split. Qed.

Lemma reconciliation_tables now n reason rid cost status t t' i :
  reconciliation_tx now n reason rid cost status t = Ok (t', i) -> tables_ok t -> tables_ok t'.
Proof.
  unfold reconciliation_tx. intros H Ht. destruct (update_intent _ _ _) as [[t1 i1]|] eqn:Hu; [|done].
  cbn [rbind] in H. destruct (negb _); [done|]. injection H as <- <-.
  apply with_outcomes_ok. eapply update_tables; [eassumption|by intros ?|done].
Qed.

Lemma set_policy_ok pk typical flight burn t : tables_ok t -> tables_ok (set_policy pk typical flight burn t).
Proof.
  intros Ht. unfold set_policy. destruct (accounts _ !! pk) as [a|] eqn:Ha; [|done].
  apply with_book_ok; [done| |]; cbn.
  - destruct (to_book t Ht) as [H1 H2 H3 H4]. split; cbn; [| |done|done].
    + intros q a'. rewrite lookup_insert_Some. intros [[<- <-]|[_ Hq]]; [|by apply H1]. by apply (H1 pk a).
    + intros e He. destruct (decide (pk = pubkey e)) as [->|].
      * rewrite lookup_insert_eq. eauto.
      * rewrite lookup_insert_ne by done. by apply H2.
  - intros q Hq. destruct (decide (pk = q)) as [->|].
    + rewrite lookup_insert_eq. eauto.
    + by rewrite lookup_insert_ne.
Qed.

Lemma money_step_ok t t' : money_step t t' -> tables_ok t -> tables_ok t'.
Proof.
  intros [] Ht.
  - unfold apply_entry_applied, apply_entry_inner. repeat case_match; try done.
    apply (run_tx_ind tables_ok); [done|]. intros. by eapply apply_tx_tables.
  - apply (run_tx_ind tables_ok); [done|]. intros t1 r H. by eapply create_intent_ok.
  - apply (run_tx_ind tables_ok); [done|]. intros. eapply update_tables; [eassumption|by intros ?|done].
  - apply (run_tx_ind tables_ok); [done|]. intros. eapply update_tables; [eassumption|by intros ?|done].
  - apply (run_tx_ind tables_ok); [done|]. intros. eapply update_tables; [eassumption|by intros ?|done].
  - apply (run_tx_ind tables_ok); [done|]. intros. by eapply reconciliation_tables.
  - apply (run_tx_ind tables_ok); [done|]. intros t1 r H. cbn zeta in H.
    destruct (negb _); [done|]. destruct (existsb _ _); injection H as <- <-; [done|by apply with_outcomes_ok].
  - unfold debit_gateway_intent_internal. case_match; [|done].
    apply (run_tx_ind tables_ok); [done|]. intros. by eapply debit_intent_tables.
  - apply (run_tx_ind tables_ok); [done|]. intros. eapply update_tables; [eassumption|by intros ?|done].
  - apply (run_tx_ind tables_ok); [done|]. intros t1 r H. injection H as <- <-. by apply with_outcomes_ok.
  - by apply set_policy_ok.
Qed.

(** ** Holds and balances *)

(** Every account's balance covers the holds of its unresolved calls. *)
Definition covered (t : Tables) : Prop :=
  forall pk, gateway_reserved_sum pk t <= balance (account_or_new (book t) pk).

(** An update that never activates an intent and keeps the hold of an active
    one raises no hold. *)
Definition keeps_hold (f : GatewaySettlementIntent -> GatewaySettlementIntent) (i : GatewaySettlementIntent)
    : Prop :=
  active (i_state (f i)) = true -> active (i_state i) = true /\ i_reserved (f i) = i_reserved i.

Lemma hold_after_update b f i :
  intent_row_ok i = true -> keeps_key f -> keeps_hold f i ->
  forall pk, hold_of pk (reservation_compat b (f i)) <= hold_of pk i.
Proof.
  intros Hok Hf Hh pk. pose proof (reserved_nonneg i Hok) as Hnn. unfold hold_of.
  destruct (reservation_compat_keeps b (f i)) as (_ & Hk & _). destruct (Hf i) as (_ & Hk' & _).
  unfold intent_key in *. replace (i_pubkey (reservation_compat b (f i))) with (i_pubkey i) by congruence.
  destruct (String.eqb _ _); [|done].
  unfold reservation_compat. destruct (active (i_state (f i))) eqn:Ha; [|done].
  destruct (Hh Ha) as [Hai Hr]. unfold intent_row_ok in Hok. rewrite Hai in Hok.
  apply andb_true_iff in Hok as [_ Hpos%Z.ltb_lt]. rewrite Hr.
  rewrite (proj2 (Z.eqb_neq _ _)) by lia. lia.
Qed.

Lemma update_covered n f t t' i :
  update_intent n f t = Ok (t', i) -> keeps_key f -> tables_ok t ->
  (forall i0, intent_by_id n t = Some i0 -> keeps_hold f i0) ->
  forall pk, gateway_reserved_sum pk t' <= gateway_reserved_sum pk t /\ book t' = book t.
Proof.
  intros H Hf Ht Hh pk. destruct (update_intent_holds _ _ _ _ _ pk H Hf (to_intents t Ht)) as (i0 & Hi0 & ->).
  destruct (update_intent_ok _ _ _ _ _ H Hf (to_intents t Ht)) as (i1 & Hi1 & Hin & -> & -> & _).
  assert (i1 = i0) as -> by congruence. split; [|done].
  pose proof (hold_after_update (book t) f i0 (io_rows t (to_intents t Ht) _ Hin) Hf (Hh _ Hi0) pk). lia.
Qed.

(** Charging an intent: its account pays at most once, and the hold is gone. *)
Lemma debit_intent_ok now n pk cost ref m rid basis t t' r :
  debit_intent_tx now n pk cost ref m rid basis t = Ok (t', r) -> tables_ok t ->
  exists i t1, intent_by_id n t = Some i /\ i_pubkey i = pk /\ i_model i = m
    /\ on_book (apply_entry_tx now (debit_params pk cost ref (Some m) rid (Some basis))) t = Ok (t1, r)
    /\ book t' = book t1
    /\ (forall q, gateway_reserved_sum q t' = gateway_reserved_sum q t - hold_of q i)
    /\ (exists i', intent_by_id n t' = Some i' /\ i' = reservation_compat (book t1) (debited now i)
         /\ i_state i' = unless_resolved i Debited /\ i_reserved i' = 0).
Proof.
  unfold debit_intent_tx. intros H Ht.
  destruct (ok_or _ _) as [i|] eqn:Hi; [|done]. cbn [rbind] in H. apply ok_or_ok in Hi.
  destruct (negb _) eqn:Hm; [done|].
  apply negb_false_iff, andb_true_iff in Hm as [Hpk%String.eqb_eq Hmod%String.eqb_eq].
  destruct (on_book _ t) as [[t1 r1]|] eqn:Hb; [|done]. cbn [rbind] in H.
  destruct (update_intent n _ t1) as [[t2 i2]|] eqn:Hu; [|done]. cbn in H. injection H as <- <-.
  pose proof (apply_tx_tables _ _ _ _ _ Hb Ht) as Ht1.
  destruct (on_book_ok _ _ _ _ Hb) as (b & Hb' & ->).
  destruct (update_intent_ok _ _ _ _ _ Hu (debited_keeps now) (to_intents _ Ht1))
    as (i0 & Hi0 & Hin & Hi2 & Ht2 & Hid & Hkey & Hok & Hin2 & Ht2').
  assert (i0 = i) as -> by (unfold intent_by_id in *; cbn in Hi0; congruence).
  assert (i_reserved i2 = 0 /\ i_state i2 = unless_resolved i Debited) as [Hr Hs].
  { rewrite Hi2. split; [|by rewrite reservation_compat_state].
    unfold reservation_compat, debited, unless_resolved. cbn. by case_bool_decide. }
  exists i, (with_book b t). split_and!; try done.
  - by rewrite Ht2.
  - intros q. destruct (update_intent_holds _ _ _ _ _ q Hu (debited_keeps now) (to_intents _ Ht1)) as (i1 & Hi1 & ->).
    assert (i1 = i) as -> by congruence. unfold hold_of at 2. rewrite Hr. unfold gateway_reserved_sum. cbn.
    destruct (String.eqb _ _); lia.
  - exists i2. split; [|done]. destruct (intent_by_id n t2) as [i3|] eqn:Hi3.
    + f_equal. destruct (intent_by_id_some _ _ _ Hi3). apply (id_inj t2); [done..|].
      destruct (intent_by_id_some _ _ _ Hi0). congruence.
    + exfalso. eapply find_none in Hi3; [|by apply list_elem_of_In]. cbn in Hi3.
      destruct (intent_by_id_some _ _ _ Hi0) as [_ Hn]. rewrite Hid, Hn in Hi3. lia.
Qed.

(** The steps in which no charge of a call takes more than is still held for it,
    no other debit takes more than the holds leave free, and no charged call is
    set back to be reconciled. *)
Inductive careful_step : Tables -> Tables -> Prop :=
| careful_credit fault now pk delta ref t : careful_step t (snd (credit fault now pk delta ref t))
| careful_seed fault now pk delta ref t : careful_step t (snd (seed fault now pk delta ref t))
| careful_plain fault now p t :
    (p_delta p < 0 ->
       gateway_reserved_sum (p_pubkey p) t - p_delta p <= balance (account_or_new (book t) (p_pubkey p))) ->
    careful_step t (snd (apply_entry_applied fault now p t))
| careful_create fault now d pk ref m typical minimum t :
    careful_step t (snd (create_gateway_settlement_intent fault now d pk ref m typical minimum t))
| careful_completed fault now n rid cost status t :
    careful_step t (snd (mark_gateway_provider_completed fault now n rid cost status t))
| careful_debited fault now n t : careful_step t (snd (mark_gateway_intent_debited fault now n t))
| careful_no_charge fault now n status t :
    careful_step t (snd (resolve_gateway_intent_no_charge fault now n status t))
| careful_reconciliation fault now n reason rid cost status t :
    (forall i, intent_by_id n t = Some i -> i_state i <> Debited) ->
    careful_step t (snd (mark_gateway_intent_reconciliation fault now n reason rid cost status t))
| careful_outcome fault pk ref m status reason t :
    careful_step t (snd (record_gateway_reconciliation fault pk ref m status reason t))
| careful_debit basis fault now n pk cost ref m rid t :
    (forall i, intent_by_id n t = Some i ->
       cost <= i_reserved i \/ (pk, ref) ∈ entry_key <$> ledger (book t)) ->
    careful_step t (snd (debit_gateway_intent_internal basis fault now n pk cost ref m rid t))
| careful_resolve fault now n usage cost corr t :
    careful_step t (snd (run_tx Sqlx fault (update_intent n (resolve_row usage cost corr now)) t))
| careful_outcomes fault now i corr cost t :
    careful_step t (snd (run_tx Sqlx fault (fun t => Ok (resolve_outcomes now i corr cost t, tt)) t))
| careful_policy pk typical flight burn t : careful_step t (set_policy pk typical flight burn t).

Lemma entry_balance now p b b' r :
  apply_entry_tx now p b = Ok (b', r) -> book_ok b -> forall q,
  balance (account_or_new b' q)
  = balance (account_or_new b q) + if applied r && String.eqb (p_pubkey p) q then p_delta p else 0.
Proof.
  intros H Hb q. destruct (apply_entry_ok _ _ _ _ _ H Hb) as (_ & Hoth & Hr).
  destruct (String.eqb_spec (p_pubkey p) q) as [<-|Hne].
  - destruct (applied r); cbn [andb].
    + destruct Hr as (_ & _ & _ & a & Ha & Hbal). unfold account_or_new at 1. rewrite Ha. done.
    + destruct Hr as (_ & _ & _ & Ha). unfold account_or_new. rewrite Ha. lia.
  - rewrite andb_false_r. unfold account_or_new. rewrite Hoth by done. lia.
Qed.

Lemma entry_replayed now p b b' r :
  apply_entry_tx now p b = Ok (b', r) -> book_ok b ->
  (p_pubkey p, p_reference p) ∈ entry_key <$> ledger b -> applied r = false.
Proof.
  intros H Hb Hin. destruct (apply_entry_ok _ _ _ _ _ H Hb) as (_ & _ & Hr).
  destruct (applied r); [|done]. by destruct Hr as (_ & Hnew & _).
Qed.

Lemma hold_le_sum t pk i : intents_ok t -> i ∈ intents t -> hold_of pk i <= gateway_reserved_sum pk t.
Proof.
  intros Ht Hin. rewrite gateway_reserved_sum_alt by done.
  pose proof (io_rows t Ht) as Hrows. revert Hrows Hin. generalize (intents t).
  intros l Hrows Hin. induction l as [|j l IH]; [by apply elem_of_nil in Hin|]. rewrite zsum_cons.
  assert (forall k, k ∈ j :: l -> 0 <= hold_of pk k) as Hnn.
  { intros k Hk%Hrows%reserved_nonneg. unfold hold_of. case_match; lia. }
  assert (0 <= zsum (hold_of pk) l).
  { clear IH Hrows Hin. induction l as [|k l IH]; [done|]. rewrite zsum_cons.
    assert (0 <= hold_of pk k) by (apply Hnn; right; left).
    assert (0 <= zsum (hold_of pk) l); [|lia]. apply IH. intros k' Hk'. apply Hnn. set_solver. }
  apply elem_of_cons in Hin as [->|Hin]; [lia|].
  assert (0 <= hold_of pk j) by (apply Hnn; left).
  assert (hold_of pk i <= zsum (hold_of pk) l); [|lia]. apply IH; [|done].
  intros k Hk. apply Hrows. by right.
Qed.

Lemma credit_covered kind fault now pk delta ref t :
  mem ["credit"; "seed"]%string kind = true -> tables_ok t -> covered t ->
  covered (snd (apply_entry fault now (money_in kind pk delta ref) t)).
Proof.
  intros Hkind Ht Hc. unfold apply_entry, apply_entry_applied, apply_entry_inner. cbn [p_kind p_delta money_in].
  unfold mem in Hkind. cbn [existsb] in Hkind. rewrite orb_false_r in Hkind.
  destruct (String.eqb kind "credit" || String.eqb kind "seed") eqn:Hin.
  2:{ rewrite (String.eqb_sym kind "credit"), (String.eqb_sym kind "seed") in Hin. congruence. }
  destruct (Z.leb_spec delta 0) as [|Hpos]; [done|]. cbn [andb].
  destruct (_ && _); [done|].
  destruct (run_tx _ _ _ _) as [r t'] eqn:Hrun. cbn [snd].
  replace t' with (snd (run_tx Sqlx fault (on_book (apply_entry_tx now (money_in kind pk delta ref))) t))
    by (by rewrite Hrun).
  apply (run_tx_ind covered); [done|]. intros t1 a (b & H & ->)%on_book_ok q.
  cbn [book with_book]. rewrite (entry_balance _ _ _ _ _ H (to_book t Ht)). specialize (Hc q).
  change (gateway_reserved_sum q (with_book b t)) with (gateway_reserved_sum q t).
  cbn [p_delta p_pubkey money_in]. destruct (_ && _); lia.
Qed.

Lemma plain_covered fault now p t :
  (p_delta p < 0 ->
     gateway_reserved_sum (p_pubkey p) t - p_delta p <= balance (account_or_new (book t) (p_pubkey p))) ->
  tables_ok t -> covered t -> covered (snd (apply_entry_applied fault now p t)).
Proof.
  intros Hfree Ht Hc. unfold apply_entry_applied, apply_entry_inner. repeat case_match; try done.
  apply (run_tx_ind covered); [done|]. intros t1 a (b & H' & ->)%on_book_ok q.
  cbn [book with_book]. rewrite (entry_balance _ _ _ _ _ H' (to_book t Ht)). specialize (Hc q).
  change (gateway_reserved_sum q (with_book b t)) with (gateway_reserved_sum q t).
  destruct (String.eqb_spec (p_pubkey p) q) as [<-|]; [|rewrite andb_false_r; lia].
  destruct (applied a); cbn [andb]; lia.
Qed.

Lemma same_book_covered t t' :
  covered t -> book t' = book t -> (forall pk, gateway_reserved_sum pk t' <= gateway_reserved_sum pk t) ->
  covered t'.
Proof. intros Hc Hb Hs pk. rewrite Hb. specialize (Hc pk). specialize (Hs pk). lia. Qed.

Lemma update_tx_covered fault n f t :
  keeps_key f -> (forall i, intent_by_id n t = Some i -> keeps_hold f i) -> tables_ok t -> covered t ->
  covered (snd (run_tx Sqlx fault (update_intent n f) t)).
Proof.
  intros Hf Hh Ht Hc. apply (run_tx_ind covered); [done|]. intros t1 a H.
  apply (same_book_covered t); [done| |]; [apply (update_covered _ _ _ _ _ H Hf Ht Hh ""%string)|].
  intros pk. by apply (update_covered _ _ _ _ _ H Hf Ht Hh pk).
Qed.

Lemma create_covered fault now d pk ref m typical minimum t :
  tables_ok t -> covered t ->
  covered (snd (create_gateway_settlement_intent fault now d pk ref m typical minimum t)).
Proof.
  intros Ht Hc. apply (run_tx_ind covered); [done|]. intros t1 r H.
  destruct (create_intent_ok _ _ _ _ _ _ _ _ _ _ H Ht) as (Ht1 & Hb & Hr).
  destruct r as [i acct|]; [|by subst].
  destruct Hr as [[-> _]|(Hnone & Hl & Hk & Hs & a & Ha & Hres & Hsum)]; [done|].
  intros q. rewrite Hb. destruct (decide (q = pk)) as [->|Hne].
  - unfold account_or_new. by rewrite Ha.
  - specialize (Hc q). rewrite !gateway_reserved_sum_alt in * by (by apply Ht || by apply Ht1).
    rewrite Hl, zsum_app, zsum_cons. unfold hold_of at 2. injection Hk as -> _.
    rewrite (proj2 (String.eqb_neq _ _)) by done. unfold zsum at 2. cbn [foldr]. lia.
Qed.

Lemma debit_covered basis fault now n pk cost ref m rid t :
  (forall i, intent_by_id n t = Some i -> cost <= i_reserved i \/ (pk, ref) ∈ entry_key <$> ledger (book t)) ->
  tables_ok t -> covered t ->
  covered (snd (debit_gateway_intent_internal basis fault now n pk cost ref m rid t)).
Proof.
  intros Hcost Ht Hc. unfold debit_gateway_intent_internal. destruct (cost_i64 cost) as [c|] eqn:Hc64; [|done].
  assert (c = cost) as -> by (unfold cost_i64 in Hc64; by case_match; simplify_eq).
  apply (run_tx_ind covered); [done|]. intros t1 r H.
  destruct (debit_intent_ok _ _ _ _ _ _ _ _ _ _ _ H Ht) as (i & t0 & Hi & <- & _ & Hb & Hbook & Hsum & _).
  destruct (intent_by_id_some _ _ _ Hi) as [Hin _].
  intros q. rewrite Hbook, Hsum. apply on_book_ok in Hb as (b & H' & ->). cbn [book with_book].
  rewrite (entry_balance _ _ _ _ _ H' (to_book t Ht)). cbn [p_pubkey p_delta debit_params].
  specialize (Hc q). pose proof (reserved_nonneg i (io_rows t (to_intents t Ht) _ Hin)).
  destruct (Hcost i Hi) as [Hle|Hrep].
  - unfold hold_of. destruct (applied r); cbn [andb]; destruct (String.eqb _ _); lia.
  - rewrite (entry_replayed _ _ _ _ _ H' (to_book t Ht)) by done. cbn [andb].
    unfold hold_of. destruct (String.eqb _ _); lia.
Qed.

Lemma careful_covered t t' : careful_step t t' -> tables_ok t -> covered t -> covered t'.
Proof.
  intros Hstep Ht Hc. destruct Hstep as [| |fault now p t Hfree| |fault now n rid cost status t| |
    |fault now n reason rid cost status t Hnd|fault pk ref m status reason t|basis fault now n pk cost ref m rid t Hcost
    | |fault now i corr cost t|pk typical flight burn t].
  - by apply credit_covered.
  - by apply credit_covered.
  - by apply plain_covered.
  - by apply create_covered.
  - apply update_tx_covered; [by intros ?| |done..]. intros i _ Ha. cbn in *. split; [|done].
    by destruct (i_state i).
  - apply update_tx_covered; [by intros ?| |done..]. intros i _ Ha. cbn in *.
    unfold unless_resolved in Ha. by case_bool_decide.
  - apply update_tx_covered; [by intros ?| |done..]. by intros i _ Ha.
  - apply (run_tx_ind covered); [done|]. unfold reconciliation_tx. intros t1 a H.
    destruct (update_intent _ _ _) as [[t2 i2]|] eqn:Hu; [|done]. cbn [rbind] in H.
    destruct (negb _); [done|]. injection H as <- <-.
    change (covered t2). apply (same_book_covered t); [done| |].
    + apply (update_covered _ _ _ _ _ Hu ltac:(by intros ?) Ht) with (pk := ""%string).
      intros i Hi Ha. cbn in *. split; [|done]. unfold unless_resolved in Ha.
      specialize (Hnd i Hi). case_bool_decide; [done|]. by destruct (i_state i).
    + intros pk. apply (update_covered _ _ _ _ _ Hu ltac:(by intros ?) Ht).
      intros i Hi Ha. cbn in *. split; [|done]. unfold unless_resolved in Ha.
      specialize (Hnd i Hi). case_bool_decide; [done|]. by destruct (i_state i).
  - apply (run_tx_ind covered); [done|]. intros t1 r H. cbn zeta in H.
    destruct (negb _); [done|]. by destruct (existsb _ _); injection H as <- <-.
  - by apply debit_covered.
  - apply update_tx_covered; [by intros ?| |done..]. by intros i _ Ha.
  - apply (run_tx_ind covered); [done|]. by intros t1 r [= <- <-].
  - unfold set_policy. destruct (accounts _ !! pk) as [a|] eqn:Ha; [|done].
    intros q. specialize (Hc q). unfold account_or_new in *. cbn.
    change (gateway_reserved_sum q (with_book _ t)) with (gateway_reserved_sum q t).
    destruct (decide (pk = q)) as [->|Hne].
    + rewrite lookup_insert_eq. rewrite Ha in Hc. done.
    + by rewrite lookup_insert_ne.
Qed.

Lemma apply_entry_step fault now p t : money_step t (snd (apply_entry fault now p t)).
Proof.
  unfold apply_entry. pose proof (step_entry fault now p t) as H. by destruct (apply_entry_applied _ _ _ _).
Qed.

Lemma careful_is_step t t' : careful_step t t' -> money_step t t'.
Proof.
  destruct 1; [exact (apply_entry_step _ _ _ _) | exact (apply_entry_step _ _ _ _) | apply step_entry | apply step_create
    | apply step_completed | apply step_debited | apply step_no_charge | apply step_reconciliation
    | apply step_outcome | apply step_debit | apply step_resolve | apply step_outcomes | apply step_policy].
Qed.

(** ** The ledger is append-only *)

Definition extends (t t' : Tables) : Prop :=
  exists l, ledger (book t') = ledger (book t) ++ l /\ forall e, e ∈ l -> discovery e = None.
Lemma extends_same t t' : book t' = book t -> extends t t'.
Proof. intros H. exists []. rewrite H, app_nil_r. split; [done|]. by intros e ?%elem_of_nil. Qed.
Lemma book_extends_refl t : extends t t.
Proof. by apply extends_same. Qed.
#[export] Hint Resolve book_extends_refl : core.

(** What a step does to the books: nothing, one entry, or an account's
    overrides. *)
Inductive book_change (b b' : Book) : Prop :=
| book_same : b' = b -> book_change b b'
| book_entry now p r : apply_entry_tx now p b = Ok (b', r) -> book_change b b'
| book_policy pk a a' : accounts b !! pk = Some a -> balance a' = balance a -> ledger b' = ledger b ->
    accounts b' = <[pk := a']> (accounts b) -> book_change b b'.

Lemma update_book n f t t' i : update_intent n f t = Ok (t', i) -> book t' = book t.
Proof. unfold update_intent. intros H. by inv_bind. Qed.

Lemma money_step_book t t' : money_step t t' -> tables_ok t -> book_change (book t) (book t').
Proof.
  intros Hstep Ht. set (P := fun s => book_change (book t) (book s)).
  assert (P t) as Hrefl by (by apply book_same).
  assert (forall fault n f, P (snd (run_tx Sqlx fault (update_intent n f) t))) as Hupd.
  { intros fault n f. apply (run_tx_ind P); [done|]. intros t1 i Hu. apply book_same. by eapply update_book. }
  change (P t'). destruct Hstep; try apply Hupd.
  - unfold apply_entry_applied, apply_entry_inner. repeat case_match; try done.
    apply (run_tx_ind P); [done|]. intros t1 r (b & Hap & ->)%on_book_ok. by eapply book_entry.
  - apply (run_tx_ind P); [done|]. intros t1 r H. apply book_same.
    by apply (create_intent_ok _ _ _ _ _ _ _ _ _ _ H).
  - apply (run_tx_ind P); [done|]. unfold reconciliation_tx. intros t1 r H. inv_bind. destruct a. inv_bind.
    apply book_same. cbn. by eapply update_book.
  - apply (run_tx_ind P); [done|]. intros t1 r H. cbn zeta in H.
    destruct (negb _); [done|]. destruct (existsb _ _); injection H as <- <-; by apply book_same.
  - unfold debit_gateway_intent_internal. case_match; [|done].
    apply (run_tx_ind P); [done|]. intros t1 r Hd.
    destruct (debit_intent_ok _ _ _ _ _ _ _ _ _ _ _ Hd Ht) as (i & t0 & _ & _ & _ & Hb & Hbook & _).
    destruct (on_book_ok _ _ _ _ Hb) as (b & Hap & ->). unfold P. rewrite Hbook. by eapply book_entry.
  - apply (run_tx_ind P); [done|]. intros t1 r [= <- <-]. by apply book_same.
  - unfold set_policy. destruct (accounts _ !! pk) as [a|] eqn:Ha; [|done]. by apply (book_policy _ _ pk a {| balance := balance a; typical_call_cost_nanousd := typical; max_in_flight := flight; hourly_burn_cap_nanousd := burn |}).
Qed.

Lemma money_step_extends t t' : money_step t t' -> tables_ok t -> extends t t'.
Proof.
  intros Hstep Ht. destruct (money_step_book _ _ Hstep Ht) as [Hb|now p r Hap|pk a a' _ _ Hl _].
  - by apply extends_same.
  - destruct (apply_entry_ok _ _ _ _ _ Hap (to_book t Ht)) as (_ & _ & Hr). unfold extends.
    destruct (applied r).
    + destruct Hr as (-> & _ & -> & _). eexists. split; [done|]. by intros e ->%list_elem_of_singleton.
    + destruct Hr as [-> _]. exists []. rewrite app_nil_r. split; [done|]. by intros e ?%elem_of_nil.
  - exists []. rewrite Hl, app_nil_r. split; [done|]. by intros e ?%elem_of_nil.
Qed.

Lemma money_step_accounts t t' :
  money_step t t' -> tables_ok t -> forall pk, is_Some (accounts (book t) !! pk) -> is_Some (accounts (book t') !! pk).
Proof.
  intros Hstep Ht q Hq. destruct (money_step_book _ _ Hstep Ht) as [->|now p r Hap|pk a a' _ _ _ ->]; [done| |].
  - by eapply apply_entry_accounts; [|apply Ht|].
  - destruct (decide (pk = q)) as [->|]; [rewrite lookup_insert_eq; eauto|by rewrite lookup_insert_ne].
Qed.
