(* ===== verification/Resolver.v ===== *)
(** * Facts of the settlement resolver

    A logic of triples for the statements of [resolve_gateway_settlement_intent],
    and what a run of the resolver does to the books however it is cut short. *)

From Stdlib Require Import ZArith Lia Ascii.
From stdpp Require Import base gmap list strings numbers relations.
From S2P Require Import Prelude MachineInt RustStr Credits CreditsFacts.
Local Open Scope Z_scope.

(** ** Triples

    [ok_turn] bounds what may happen at a statement; [E] holds where a run ends
    in an error. *)
Section Triples.
Context {S : Type} (ok_turn : TurnOf S -> Prop) (E : S -> Prop).
Hypothesis calm_ok : ok_turn (calm 0).

Definition triple {A} (P : S -> Prop) (m : DbOf S A) (Q : A -> S -> Prop) : Prop :=
  forall turns t, Forall ok_turn turns -> P t ->
  match m turns t with
  | (Ok a, turns', t') => Forall ok_turn turns' /\ Q a t'
  | (Err _, turns', t') => Forall ok_turn turns' /\ E t'
  end.

Lemma triple_ret {A} (a : A) (Q : A -> S -> Prop) : triple (Q a) (db_ret (Ok a)) Q.
Proof. by intros turns t. Qed.

Lemma triple_err {A} e (Q : A -> S -> Prop) : triple E (db_ret (Err e)) Q.
Proof. by intros turns t. Qed.

Lemma triple_bind {A B} P (m : DbOf S A) Q (k : A -> DbOf S B) R :
  triple P m Q -> (forall a, triple (Q a) (k a) R) -> triple P (db_bind m k) R.
Proof.
  intros Hm Hk turns t Ht HP. unfold db_bind. specialize (Hm turns t Ht HP).
  destruct (m turns t) as [[[a|e] turns'] t']; [|done]. destruct Hm as [Ht' HQ]. by apply Hk.
Qed.

Lemma triple_conseq {A} (P P' : S -> Prop) (m : DbOf S A) (Q Q' : A -> S -> Prop) :
  triple P m Q -> (forall t, P' t -> P t) -> (forall a t, Q a t -> Q' a t) -> triple P' m Q'.
Proof.
  intros Hm HP HQ turns t Ht Hp. specialize (Hm turns t Ht (HP _ Hp)).
  destruct (m turns t) as [[[a|e] turns'] t']; naive_solver.
Qed.

Lemma triple_pure {A} (phi : Prop) P (m : DbOf S A) Q :
  (phi -> triple P m Q) -> triple (fun t => P t /\ phi) m Q.
Proof. intros H turns t Ht [HP Hphi]. by apply H. Qed.

Lemma triple_stmt {A} P (op : DbFault -> Z -> S -> Result A DbError * S) Q :
  (forall turn, ok_turn turn -> forall t, P t ->
     match op (fault turn) (clock turn) (between turn t) with
     | (Ok a, t') => Q a t'
     | (Err _, t') => E t'
     end) ->
  triple P (stmt op) Q.
Proof.
  intros H turns t Ht HP. unfold stmt. destruct turns as [|turn turns].
  - specialize (H (calm 0) calm_ok t HP). cbn in H. by destruct (op _ _ _) as [[]].
  - apply Forall_cons in Ht as [Hturn Ht]. specialize (H turn Hturn t HP). by destruct (op _ _ _) as [[]].
Qed.

(** Statements whose state keeps [P], turns that keep it too. *)
Lemma triple_query {A} P (f : S -> Result A DbError) :
  (forall turn, ok_turn turn -> forall t, P t -> P (between turn t)) ->
  (forall t, P t -> E t) ->
  triple P (query f) (fun a t => P t /\ f t = Ok a).
Proof.
  intros Hb HE. apply triple_stmt. intros turn Hturn t HP. specialize (Hb turn Hturn t HP).
  destruct (fault turn); [|by apply HE..]. destruct (f _) eqn:Hf; [done|by apply HE].
Qed.

(** A failure kept as a value is a state the error postcondition describes. *)
Lemma triple_recover {A} P (m : DbOf S A) Q :
  triple P m Q -> triple P (recover m) (fun r t => match r with Ok a => Q a t | Err _ => E t end).
Proof.
  intros Hm turns t Ht HP. specialize (Hm turns t Ht HP). unfold recover.
  by destruct (m turns t) as [[[a|e] turns'] t'].
Qed.
End Triples.

(** ** The resolver is made of money steps *)

Section Steps.
Context (t0 : Tables).

(** Others take money steps. *)
Definition polite (turn : Turn) : Prop := forall t, rtc money_step t (between turn t).
Definition Reached (t : Tables) : Prop := rtc money_step t0 t.

Lemma polite_calm now : polite (calm now).
Proof. by intros t. Qed.
Lemma polite_reached turn : polite turn -> forall t, Reached t -> Reached (between turn t).
Proof. intros H t Ht. unfold Reached in *. etrans; [exact Ht|apply H]. Qed.

Notation tri := (triple polite Reached).

Lemma reached_stmt {A} (op : DbFault -> Z -> Tables -> Result A DbError * Tables) :
  (forall fault now t, money_step t (snd (op fault now t))) -> tri Reached (stmt op) (fun _ => Reached).
Proof.
  intros H. apply triple_stmt; [by apply polite_calm|]. intros turn Hturn t Ht.
  specialize (H (fault turn) (clock turn) (between turn t)).
  assert (Reached (snd (op (fault turn) (clock turn) (between turn t)))) as Hr.
  { eapply rtc_r; [by apply polite_reached|done]. }
  by destruct (op _ _ _) as [[]].
Qed.

Lemma reached_query {A} (f : Tables -> Result A DbError) : tri Reached (query f) (fun _ => Reached).
Proof.
  eapply triple_conseq; [apply (triple_query polite Reached); [apply polite_calm|by apply polite_reached|done] |done|].
  by intros a t [H _].
Qed.

Lemma reached_ret {A} (r : Result A DbError) : tri Reached (db_ret r) (fun _ => Reached).
Proof. intros turns t Ht H. by destruct r. Qed.

Lemma reached_bind {A B} (m : Db A) (k : A -> Db B) :
  tri Reached m (fun _ => Reached) -> (forall a, tri Reached (k a) (fun _ => Reached)) ->
  tri Reached (db_bind m k) (fun _ => Reached).
Proof. apply triple_bind. Qed.

Lemma reached_unresolved i usage : tri Reached (resolve_unresolved i usage) (fun _ => Reached).
Proof.
  unfold resolve_unresolved. destruct (negb _); [apply reached_ret|].
  apply reached_bind; [|intros existing].
  { unfold existing_debit. repeat case_match; (apply reached_query || apply reached_ret). }
  apply reached_bind; [|intros _].
  { destruct (is_some existing); [apply reached_ret|].
    apply reached_bind; [|intros _; apply reached_ret].
    apply reached_stmt. intros fault now t. apply step_debit. }
  destruct (cost_i64 _); [|apply reached_ret].
  apply reached_bind; [|intros row].
  { apply reached_stmt. intros fault now t. apply step_resolve. }
  apply reached_bind; [|intros _; apply reached_ret].
  apply reached_stmt. intros fault now t. apply step_outcomes.
Qed.

Lemma reached_resolve n usage :
  tri Reached (resolve_gateway_settlement_intent n usage) (fun _ => Reached).
Proof.
  apply reached_bind; [apply reached_query|]. intros [i|]; [|apply reached_ret].
  case_bool_decide; [apply reached_ret|apply reached_unresolved].
Qed.

Lemma reached_each usages pending n : tri Reached (resolve_each usages pending n) (fun _ => Reached).
Proof.
  revert n. induction pending as [|i pending IH]; intros n; cbn; [apply reached_ret|].
  destruct (find _ usages); [|apply IH]. apply reached_bind; [apply reached_resolve|]. intros r. apply IH.
Qed.

Lemma reached_pending usages :
  tri Reached (resolve_pending_gateway_settlements usages) (fun _ => Reached).
Proof. apply reached_bind; [apply reached_query|]. intros pending. apply reached_each. Qed.
End Steps.

(** A run of the resolver, cut anywhere and interleaved with anything, takes
    only money steps. *)
Lemma resolver_steps usages turns t :
  Forall polite turns -> rtc money_step t (snd (resolve_pending_gateway_settlements usages turns t)).
Proof.
  intros Ht. pose proof (reached_pending t usages turns t Ht (rtc_refl _ _)) as H.
  destruct (resolve_pending_gateway_settlements usages turns t) as [[[] ?] ?]; by destruct H.
Qed.

(** ** One call is charged once *)

(** Nobody else writes at this statement. *)
Definition alone {S} (turn : TurnOf S) : Prop := forall t, between turn t = t.
Lemma calm_alone {S} now : alone (S := S) (calm now).
Proof. by intros t. Qed.

Section Once.
Context (t0 : Tables) (n : Z) (i0 : GatewaySettlementIntent) (usage : GatewayProviderUsage).
Hypothesis ok0 : tables_ok t0.
Hypothesis row0 : intent_by_id n t0 = Some i0.

Definition same_call (i : GatewaySettlementIntent) : bool :=
  String.eqb (i_pubkey i) (u_pubkey usage) && String.eqb (i_reference i) (u_reference usage)
  && String.eqb (i_model i) (u_model usage).
Hypothesis call0 : same_call i0 = true.

(** The reference a correction of this call is written under. *)
Definition corr : string := correction_reference None i0 usage.

(** The call was charged before the export is read: under the provider's
    request id at this very cost, or, when the export has no id, under the
    reference a correction would use. *)
Definition charged_before : Prop :=
  match u_request_id usage with
  | Some req => exists e, e ∈ ledger (book t0) /\ settled_debit (i_pubkey i0) req (u_cost usage) e = true
  | None => (i_pubkey i0, corr) ∈ entry_key <$> ledger (book t0)
  end.

(** The correction of this call. *)
Definition is_correction (e : LedgerEntry) : Prop :=
  entry_key e = (i_pubkey i0, corr) /\ delta e = - u_cost usage /\ kind e = "debit"%string
  /\ observed_cost e = Some (u_cost usage) /\ request_id e = u_request_id usage.

(** The intent is the same call still, and carries no other correction
    reference until it is resolved. *)
Definition still (i : GatewaySettlementIntent) : Prop :=
  i_id i = i_id i0 /\ intent_key i = intent_key i0 /\ i_model i = i_model i0
  /\ (i_state i = Resolved \/ i_correction_ref i = i_correction_ref i0).

Definition Once (t : Tables) : Prop :=
  tables_ok t /\ (exists i, intent_by_id n t = Some i /\ still i)
  /\ exists l, ledger (book t) = ledger (book t0) ++ l
       /\ (l = [] \/ ~ charged_before /\ exists e, l = [e] /\ is_correction e).

Lemma once_start : Once t0.
Proof.
  split; [done|]. split; [exists i0; split; [done|]; unfold still; by auto|].
  exists []. rewrite app_nil_r. by auto.
Qed.

Notation tri := (triple (S:=Tables) alone Once).

Lemma still_call i : still i -> same_call i = true.
Proof. unfold same_call. intros (_ & [= -> ->] & -> & _). exact call0. Qed.
Lemma still_pubkey i : still i -> i_pubkey i = i_pubkey i0.
Proof. by intros (_ & [= -> _] & _). Qed.
Lemma corr_none : u_request_id usage = None -> i_correction_ref i0 = None -> corr = i_reference i0.
Proof. unfold corr, correction_reference. by intros -> ->. Qed.

Lemma still_corr i :
  still i -> i_state i <> Resolved -> correction_reference None i usage = corr.
Proof.
  intros (Hid & [= Hp Hr] & Hm & [Hs|Hc]) Hns; [done|]. unfold corr, correction_reference. cbn. rewrite Hc.
  destruct (i_correction_ref i0); [done|]. cbn. by rewrite Hr, Hid.
Qed.

Lemma still_update f i :
  keeps_key f -> still i ->
  (i_state (f i) = Resolved \/ i_state (f i) = i_state i /\ i_correction_ref (f i) = i_correction_ref i
   \/ i_correction_ref (f i) = i_correction_ref i /\ i_state i <> Resolved) ->
  forall b, still (reservation_compat b (f i)).
Proof.
  intros Hf (Hid & Hkey & Hm & Hs) Hfi b.
  destruct (Hf i) as (H1 & H2 & H3). destruct (reservation_compat_keeps b (f i)) as (H4 & H5 & H6).
  split_and!; [congruence..|]. rewrite reservation_compat_state.
  assert (i_correction_ref (reservation_compat b (f i)) = i_correction_ref (f i)) as ->
    by (unfold reservation_compat; by repeat case_match).
  destruct Hfi as [?|[[-> ->]|[-> ?]]]; naive_solver.
Qed.

Lemma row_in t i : tables_ok t -> i ∈ intents t -> i_id i = n -> intent_by_id n t = Some i.
Proof.
  intros Ht Hin Hid. destruct (intent_by_id n t) as [j|] eqn:Hj.
  - destruct (intent_by_id_some _ _ _ Hj). f_equal. apply (id_inj t); [apply Ht|done..|congruence].
  - exfalso. eapply find_none in Hj; [|by apply list_elem_of_In]. cbn in Hj. lia.
Qed.

Lemma once_update f t t' i :
  update_intent n f t = Ok (t', i) -> keeps_key f -> Once t ->
  (forall j, still j -> still (reservation_compat (book t) (f j))) -> Once t' /\ still i.
Proof.
  intros H Hf (Ht & (j & Hj & Hsj) & Hl) Hstill.
  pose proof (update_tables _ _ _ _ _ H Hf Ht) as Ht'.
  destruct (update_intent_ok _ _ _ _ _ H Hf (to_intents t Ht)) as (j' & Hj' & _ & Hi & Ht'' & Hid & _ & _ & Hin & _).
  assert (j' = j) as -> by congruence.
  assert (still i) as Hsi by (rewrite Hi; by apply Hstill).
  split; [|done]. split; [done|]. split.
  - exists i. split; [|done]. apply row_in; [done..|]. destruct (intent_by_id_some _ _ _ Hj). congruence.
  - by rewrite Ht''.
Qed.

(** No row of the ledger is a charge of this call under the export's id. *)
Definition no_match (t : Tables) : Prop :=
  match u_request_id usage with
  | Some req => forall e, e ∈ ledger (book t) -> settled_debit (i_pubkey i0) req (u_cost usage) e = false
  | None => True
  end.

Lemma once_debit now t t' r :
  debit_intent_tx now n (i_pubkey i0) (u_cost usage) corr (u_model usage) (u_request_id usage) "observed" t
    = Ok (t', r) ->
  Once t -> no_match t -> Once t'.
Proof.
  intros H (Ht & (j & Hj & Hsj) & l & Hl & Hcase) Hno.
  pose proof (debit_intent_tables _ _ _ _ _ _ _ _ _ _ _ H Ht) as Ht'.
  destruct (debit_intent_ok _ _ _ _ _ _ _ _ _ _ _ H Ht) as (i & t1 & Hi & Hpk & Hmod & Hb & Hbook & _ & i' & Hi' & Hi2 & _).
  destruct (on_book_ok _ _ _ _ Hb) as (b & Hb' & ->).
  destruct (apply_entry_ok _ _ _ _ _ Hb' (to_book t Ht)) as (_ & _ & Hr).
  split; [done|]. split.
  - exists i'. split; [done|]. assert (i = j) as -> by congruence. rewrite Hi2.
    apply still_update; [apply debited_keeps|done|]. unfold debited, unless_resolved. cbn.
    case_bool_decide; [by left|right; by right].
  - rewrite Hbook. cbn [book with_book]. destruct (applied r) eqn:Happ.
    + destruct Hr as (Hl' & Hnew & He & _). cbn [p_pubkey p_reference debit_params] in Hnew.
      assert (l = []) as ->.
      { destruct Hcase as [->|(_ & e & -> & Hk & _)]; [done|]. destruct Hnew. rewrite Hl, fmap_app. cbn. rewrite Hk.
        apply elem_of_app. right. by apply list_elem_of_singleton. }
      rewrite app_nil_r in Hl. exists [entry r]. rewrite Hl', Hl. split; [done|]. right. split.
      * unfold charged_before, no_match in *. rewrite Hl in Hnew, Hno. destruct (u_request_id usage).
        -- intros (e & Hel & Hs). by rewrite Hno in Hs.
        -- done.
      * exists (entry r). split; [done|]. rewrite He. by split_and!.
    + destruct Hr as (Hl' & _). exists l. by rewrite Hl'.
Qed.

Lemma once_unresolved i :
  still i -> i_state i <> Resolved ->
  tri Once (resolve_unresolved i usage) (fun r t => Once t /\ forall j, r = Some j -> i_state j = Resolved).
Proof.
  intros Hs Hns. unfold resolve_unresolved. pose proof (still_call i Hs) as Hcall. unfold same_call in Hcall.
  rewrite Hcall. cbn [negb].
  apply triple_bind with (Q := fun existing t => Once t /\ (existing = None -> no_match t)).
  { unfold existing_debit. destruct (u_request_id usage) as [req|] eqn:Hreq.
    - destruct (cost_i64 (u_cost usage)) as [c|] eqn:Hc.
      + eapply triple_conseq; [apply (triple_query alone Once); [apply calm_alone|intros turn Ha t H; by rewrite (Ha t)|done]|done|].
        intros existing t [Ht [= <-]]. split; [done|]. unfold no_match. rewrite Hreq.
        assert (c = u_cost usage) as -> by (unfold cost_i64 in Hc; by case_match; simplify_eq).
        intros Hnone e He. destruct (find _ _) eqn:Hf; [done|]. rewrite (still_pubkey i Hs) in Hf.
        eapply find_none in Hf; [done|]. by apply list_elem_of_In.
      + intros turns t Ht HO. done.
    - intros turns t Ht HO. split; [done|]. split; [done|]. intros _. unfold no_match. by rewrite Hreq. }
  intros existing. apply triple_bind with (Q := fun _ => Once).
  { destruct existing as [ref|]; cbn [is_some].
    { intros turns t Ht [HO _]. done. }
    apply triple_bind with (Q := fun _ => Once); [|by intros _ turns t Ht HO].
    apply triple_stmt; [apply calm_alone|]. intros turn Hturn t [HO Hno]. rewrite (Hturn t).
    rewrite (still_corr i Hs Hns), (still_pubkey i Hs).
    unfold debit_observed_for_gateway_intent, debit_gateway_intent_internal.
    destruct (cost_i64 (u_cost usage)) as [c|] eqn:Hc; [|done].
    assert (c = u_cost usage) as -> by (unfold cost_i64 in Hc; by case_match; simplify_eq).
    assert (i_id i = n) as ->.
    { destruct Hs as [-> _]. by destruct (intent_by_id_some _ _ _ row0). }
    specialize (Hno eq_refl). unfold run_tx.
    destruct (debit_intent_tx _ _ _ _ _ _ _ _ _) as [[t' r]|e] eqn:Hd; destruct (fault turn); try done;
      by eapply once_debit. }
  intros _. destruct (cost_i64 (u_cost usage)) as [c|] eqn:Hc; [|by intros turns t Ht HO].
  apply triple_bind with (Q := fun row t => Once t /\ i_state row = Resolved).
  { apply triple_stmt; [apply calm_alone|]. intros turn Hturn t HO. rewrite (Hturn t).
    assert (i_id i = n) as ->.
    { destruct Hs as [-> _]. by destruct (intent_by_id_some _ _ _ row0). }
    unfold run_tx. destruct (update_intent _ _ _) as [[t' row]|e] eqn:Hu; [|by destruct (fault turn)].
    assert (Once t' /\ i_state row = Resolved) as [HO' Hrow].
    { split.
      - eapply once_update; [exact Hu|apply resolve_row_keeps|done|].
        intros j Hj. apply still_update; [apply resolve_row_keeps|done|by left].
      - destruct (update_intent_ok _ _ _ _ _ Hu (resolve_row_keeps _ _ _ _) (to_intents t (proj1 HO)))
          as (j & _ & _ & -> & _). by rewrite reservation_compat_state. }
    by destruct (fault turn). }
  intros row. apply triple_bind with (Q := fun _ t => Once t /\ i_state row = Resolved).
  { apply triple_stmt; [apply calm_alone|]. intros turn Hturn t [HO Hrow]. rewrite (Hturn t).
    assert (Once (resolve_outcomes (clock turn) i (correction_reference existing i usage) c t)).
    { destruct HO as (Ht & Hi & Hl). split; [by apply with_outcomes_ok|]. done. }
    unfold run_tx. by destruct (fault turn). }
  intros _ turns t Ht [HO Hrow]. split; [done|]. split; [done|]. by intros j [= <-].
Qed.

Lemma once_resolve :
  tri Once (resolve_gateway_settlement_intent n usage)
    (fun r t => Once t /\ forall j, r = Some j -> i_state j = Resolved).
Proof.
  apply triple_bind with (Q := fun found t => Once t /\ forall i, found = Some i -> still i).
  { eapply triple_conseq;
      [apply (triple_query alone Once); [apply calm_alone|intros turn Ha t H; by rewrite (Ha t)|done]|done|].
    intros found t [HO [= <-]]. split; [done|]. intros i Hi. destruct HO as (_ & (j & Hj & Hs) & _). congruence. }
  intros [i|]; [|intros turns t Ht [HO _]; done].
  intros turns t Ht [HO Hs]. specialize (Hs i eq_refl).
  case_bool_decide as Hr; [|by apply once_unresolved].
  split; [done|]. split; [done|]. by intros j [= <-].
Qed.

(** Any number of runs, each cut short anywhere. *)
Lemma once_runs (runs : list (list Turn)) t :
  Forall (Forall alone) runs -> Once t ->
  Once (foldl (fun t turns => snd (resolve_gateway_settlement_intent n usage turns t)) t runs).
Proof.
  intros Hr. revert t. induction Hr as [|turns runs Hturns Hr IH]; intros t HO; [done|].
  cbn [foldl]. apply IH. pose proof (once_resolve turns t Hturns HO) as H.
  destruct (resolve_gateway_settlement_intent n usage turns t) as [[[] ?] ?]; cbn; naive_solver.
Qed.
End Once.

(** ** An undisturbed run resolves *)

(** The books accept an entry: a replay, or a new reference whose balance fits. *)
Lemma apply_entry_total now p b :
  book_ok b -> (octet_length (p_pubkey p) =? 32) = true -> ledger_row_ok (params_row now p) = true ->
  in_i64 (balance (account_or_new b (p_pubkey p)) + p_delta p) = true ->
  exists b' r, apply_entry_tx now p b = Ok (b', r).
Proof.
  intros Hb Hlen Hok Hin.
  destruct (decide ((p_pubkey p, p_reference p) ∈ entry_key <$> ledger b)) as [Hrep|Hnew].
  { destruct (apply_entry_replay now p b Hb Hlen Hok Hrep) as (b' & e & -> & _). eauto. }
  unfold apply_entry_tx.
  assert (exists b1, ensure_account (p_pubkey p) b = Ok b1) as [b1 He].
  { unfold ensure_account. rewrite Hlen. cbn. case_match; eauto. }
  destruct (ensure_account_ok _ _ _ He Hb) as (_ & [a Ha] & Hl & _ & Hacc). rewrite He. cbn [rbind].
  rewrite insert_ledger_spec, Hok, Hl. cbn [negb].
  rewrite bool_decide_eq_false_2 by done.
  replace (existsb (same_discovery_debit (params_row now p)) (ledger b)) with false.
  2:{ symmetry. apply existsb_false. intros e _. unfold same_discovery_debit, discovery_debit_of. cbn.
      destruct (String.eqb (p_kind p) "debit"); cbn; by rewrite andb_false_r. }
  cbn [rbind]. unfold add_balance. cbn [accounts]. rewrite Ha.
  assert (checked_i64 (balance a + p_delta p) = Some (balance a + p_delta p)) as ->; [|cbn; eauto].
  apply checked_i64_some. split; [done|]. unfold account_or_new in Hin.
  destruct Hacc as [Heq|[Hnone Hfresh]].
  - rewrite <- Heq, Ha in Hin. done.
  - rewrite Hnone in Hin. cbn in Hin. rewrite Hfresh in Ha. by injection Ha as <-.
Qed.

Lemma update_intent_total n f t i :
  intent_by_id n t = Some i -> intent_row_ok (reservation_compat (book t) (f i)) = true ->
  exists t', update_intent n f t = Ok (t', reservation_compat (book t) (f i)) /\ book t' = book t.
Proof. intros Hi Hok. unfold update_intent, store_intent. rewrite Hi. cbn. rewrite Hok. cbn. eauto. Qed.

Lemma released_row_ok b i :
  (octet_length (i_pubkey i) =? 32) = true -> active (i_state i) = false ->
  match i_observed_cost i with Some c => 0 <=? c | None => true end = true ->
  intent_row_ok (reservation_compat b i) = true.
Proof. intros Hp Ha Hc. unfold reservation_compat, intent_row_ok. rewrite Ha. cbn. by rewrite Ha, Hp, Hc. Qed.

Lemma debit_intent_total now n i cost ref rid basis t :
  tables_ok t -> intent_by_id n t = Some i -> 0 <= cost -> mem ["observed"; "estimated"]%string basis = true ->
  in_i64 (balance (account_or_new (book t) (i_pubkey i)) - cost) = true ->
  exists t' r, debit_intent_tx now n (i_pubkey i) cost ref (i_model i) rid basis t = Ok (t', r).
Proof.
  intros Ht Hi Hcost Hbasis Hin. unfold debit_intent_tx. rewrite Hi. cbn [ok_or rbind].
  rewrite !String.eqb_refl. cbn [andb negb].
  destruct (intent_by_id_some _ _ _ Hi) as [Hel _].
  pose proof (io_rows t (to_intents t Ht) i Hel) as Hrow. unfold intent_row_ok in Hrow.
  apply andb_true_iff in Hrow as [[Hlen Hobs]%andb_true_iff _].
  destruct (apply_entry_total now (debit_params (i_pubkey i) cost ref (Some (i_model i)) rid (Some basis)) (book t))
    as (b & r & Hap); [apply Ht|done| |done|].
  { unfold ledger_row_ok. cbn [params_row pubkey kind observed_cost settle_basis discovery debit_params
      p_pubkey p_kind p_observed_cost p_settle_basis]. rewrite Hlen, Hbasis.
    rewrite (proj2 (Z.leb_le _ _)) by done. done. }
  unfold on_book. rewrite Hap. cbn [rbind fst snd].
  destruct (update_intent_total n (debited now) (with_book b t) i) as (t' & -> & _); [done| |cbn; eauto].
  apply released_row_ok; [done| |done]. unfold debited, unless_resolved. cbn. by case_bool_decide.
Qed.

(** A statement of a run nothing disturbs. *)
Definition undisturbed {S} (turn : TurnOf S) : Prop := alone turn /\ fault turn = DbUp.

Lemma stmt_up {S A} (op : DbFault -> Z -> S -> Result A DbError * S) turns t :
  Forall undisturbed turns ->
  exists now turns', Forall undisturbed turns'
    /\ stmt op turns t = (fst (op DbUp now t), turns', snd (op DbUp now t)).
Proof.
  intros H. unfold stmt. destruct H as [|turn turns [Ha Hf] H].
  - exists 0, []. split; [done|]. by destruct (op _ _ _).
  - exists (clock turn), turns. split; [done|]. rewrite (Ha t), Hf. by destruct (op _ _ _).
Qed.

Lemma query_up {S A} (f : S -> Result A DbError) turns t :
  Forall undisturbed turns ->
  exists turns', Forall undisturbed turns' /\ query f turns t = (f t, turns', t).
Proof.
  intros H. destruct (stmt_up (fun fault _ t => match fault with DbUp => (f t, t) | _ => (Err Sqlx, t) end) turns t H)
    as (now & turns' & Ht & Hs). exists turns'. split; [done|]. exact Hs.
Qed.

Lemma db_bind_ok {S A B} (m : DbOf S A) (k : A -> DbOf S B) turns t a turns' t' :
  m turns t = (Ok a, turns', t') -> db_bind m k turns t = k a turns' t'.
Proof. unfold db_bind. by intros ->. Qed.

(** With its failures kept as values, a run goes on. *)
Lemma recover_answers {S A B} (m : DbOf S A) (k : Result A DbError -> DbOf S B) turns t :
  (forall r turns t, exists b turns' t', k r turns t = (Ok b, turns', t')) ->
  exists b turns' t', db_bind (recover m) k turns t = (Ok b, turns', t').
Proof.
  intros Hk. unfold db_bind, recover. destruct (m turns t) as [[r turns1] t1]. apply Hk.
Qed.

Lemma recover_stmt {S A B} (op : DbFault -> Z -> S -> Result A DbError * S)
    (k : Result A DbError -> DbOf S B) turns t :
  Forall undisturbed turns ->
  exists now turns', Forall undisturbed turns'
    /\ db_bind (recover (stmt op)) k turns t = k (fst (op DbUp now t)) turns' (snd (op DbUp now t)).
Proof.
  intros Hturns. destruct (stmt_up op turns t Hturns) as (now & turns' & Ht' & Hs).
  exists now, turns'. split; [done|]. unfold db_bind, recover. by rewrite Hs.
Qed.

(** The same where statements may fail and answers be lost. *)
Lemma recover_alone {S A B} (op : DbFault -> Z -> S -> Result A DbError * S)
    (k : Result A DbError -> DbOf S B) turns t :
  Forall alone turns ->
  exists fault now turns', Forall alone turns' /\ (Forall undisturbed turns -> fault = DbUp /\ Forall undisturbed turns')
    /\ db_bind (recover (stmt op)) k turns t = k (fst (op fault now t)) turns' (snd (op fault now t)).
Proof.
  intros H. unfold db_bind, recover, stmt. destruct H as [|turn turns Ha H].
  - exists DbUp, 0, []. split_and!; [done|done|]. by destruct (op _ _ _).
  - exists (fault turn), (clock turn), turns. split; [done|]. split; [by intros [[_ Hf] Hu]%Forall_cons|].
    rewrite (Ha t). by destruct (op _ _ _).
Qed.

(** The end of a run: the row and the outcomes are written. *)
Lemma resolve_tail n i usage correction now t :
  tables_ok t -> intent_by_id n t = Some i -> 0 <= u_cost usage ->
  exists t' j, update_intent n (resolve_row usage (u_cost usage) correction now) t = Ok (t', j)
    /\ i_state j = Resolved /\ book t' = book t.
Proof.
  intros Ht Hi Hc. destruct (intent_by_id_some _ _ _ Hi) as [Hel _].
  pose proof (io_rows t (to_intents t Ht) i Hel) as Hrow. unfold intent_row_ok in Hrow.
  apply andb_true_iff in Hrow as [[Hlen _]%andb_true_iff _].
  destruct (update_intent_total n (resolve_row usage (u_cost usage) correction now) t i Hi) as (t' & Hu & Hb).
  { apply released_row_ok; [done|done|]. cbn. by apply Z.leb_le. }
  eexists t', _. split; [done|]. split; [by rewrite reservation_compat_state|done].
Qed.

Lemma resolve_up t n i usage turns :
  tables_ok t -> intent_by_id n t = Some i -> i_state i <> Resolved -> same_call usage i = true ->
  0 <= u_cost usage <= i64_max ->
  in_i64 (balance (account_or_new (book t) (i_pubkey i)) - u_cost usage) = true ->
  Forall undisturbed turns ->
  exists j turns' t', resolve_gateway_settlement_intent n usage turns t = (Ok (Some j), turns', t')
    /\ i_state j = Resolved.
Proof.
  intros Ht Hi Hns Hcall Hcost Hfit Hturns.
  destruct (intent_by_id_some _ _ _ Hi) as [_ Hid].
  assert (cost_i64 (u_cost usage) = Some (u_cost usage)) as Hc64.
  { unfold cost_i64. by rewrite (proj2 (Z.leb_le _ _)) by lia. }
  unfold resolve_gateway_settlement_intent.
  destruct (query_up (fun t => Ok (intent_by_id n t)) turns t Hturns) as (turns1 & Ht1 & Hq).
  erewrite db_bind_ok by exact Hq. rewrite Hi. rewrite bool_decide_eq_false_2 by done.
  unfold resolve_unresolved. pose proof Hcall as Hcall'. unfold same_call in Hcall'. rewrite Hcall'. cbn [negb].
  assert (exists existing turns2, Forall undisturbed turns2
    /\ existing_debit (i_pubkey i) usage turns1 t = (Ok existing, turns2, t)) as (existing & turns2 & Ht2 & Hex).
  { unfold existing_debit. destruct (u_request_id usage) as [req|].
    - rewrite Hc64. destruct (query_up (fun t => Ok (reference <$> find (settled_debit (i_pubkey i) req (u_cost usage))
        (ledger (book t)))) turns1 t Ht1) as (turns2 & Ht2 & Hq2). eauto.
    - exists None, turns1. done. }
  erewrite db_bind_ok by exact Hex.
  set (correction := correction_reference existing i usage).
  assert (exists turns3 t3 i3, Forall undisturbed turns3 /\ tables_ok t3 /\ intent_by_id n t3 = Some i3
    /\ (if is_some existing then db_ret (Ok tt)
        else db_bind (stmt (fun fault now => debit_observed_for_gateway_intent fault now (i_id i) (i_pubkey i)
               (u_cost usage) correction (u_model usage) (u_request_id usage))) (fun _ => db_ret (Ok tt)))
       turns2 t = (Ok tt, turns3, t3)) as (turns3 & t3 & i3 & Ht3 & Hok3 & Hi3 & Hd).
  { destruct (is_some existing); [by exists turns2, t, i|].
    destruct (stmt_up (fun fault now => debit_observed_for_gateway_intent fault now (i_id i) (i_pubkey i)
      (u_cost usage) correction (u_model usage) (u_request_id usage)) turns2 t Ht2) as (now & turns3 & Ht3 & Hs).
    apply andb_true_iff in Hcall' as [_ Hmod%String.eqb_eq].
    destruct (debit_intent_total now n i (u_cost usage) correction (u_request_id usage) "observed" t)
      as (t3 & r & Hdeb); [done|done|lia|done|done|].
    destruct (debit_intent_ok _ _ _ _ _ _ _ _ _ _ _ Hdeb Ht) as (_ & _ & _ & _ & _ & _ & _ & _ & i3 & Hi3 & _).
    exists turns3, t3, i3. split_and!; [done|by eapply debit_intent_tables|done|].
    unfold debit_observed_for_gateway_intent, debit_gateway_intent_internal in Hs.
    rewrite Hc64, Hid, <- Hmod in Hs. cbn [run_tx] in Hs. rewrite Hdeb in Hs. cbn [fst snd] in Hs.
    erewrite db_bind_ok; [done|]. unfold debit_observed_for_gateway_intent, debit_gateway_intent_internal.
    rewrite Hc64, Hid, <- Hmod. exact Hs. }
  erewrite db_bind_ok by exact Hd. rewrite Hc64, Hid.
  destruct (stmt_up (fun fault now => run_tx Sqlx fault
    (update_intent n (resolve_row usage (u_cost usage) correction now))) turns3 t3 Ht3) as (now & turns4 & Ht4 & Hs4).
  destruct (resolve_tail n i3 usage correction now t3 Hok3 Hi3) as (t4 & j & Hu & Hj & _); [lia|].
  cbn [run_tx] in Hs4. rewrite Hu in Hs4. cbn [fst snd] in Hs4.
  erewrite db_bind_ok by exact Hs4.
  destruct (stmt_up (fun fault now => run_tx Sqlx fault (fun t =>
    Ok (resolve_outcomes now i correction (u_cost usage) t, tt))) turns4 t4 Ht4) as (now' & turns5 & Ht5 & Hs5).
  cbn [run_tx fst snd] in Hs5. erewrite db_bind_ok by exact Hs5.
  by exists j, turns5, (resolve_outcomes now' i correction (u_cost usage) t4).
Qed.
