(* ===== verification/Campaign.v ===== *)
(** * Discovery contracts about money

    [crates/buzz-core/src/discovery.rs] and [discovery_workspace.rs]: amounts,
    the search a Campaign runs, the Campaign itself, the fingerprint a human
    approves, and the projections of a budget and of a paid run. Text is its
    UTF-8 bytes; an instant is a number of seconds; a [Uuid] is its 16 bytes. *)

From Stdlib Require Import ZArith Lia Ascii.
From stdpp Require Import base list strings numbers.
From S2P Require Import Prelude MachineInt RustStr.
Local Open Scope Z_scope.

(** What the contracts call: SHA-256, [Uuid::new_v5], the text of a [Uuid],
    [hex::decode] and [hex::encode], and whether 32 bytes are a [PublicKey]. *)
Class CampaignLib := {
  sha256 : string -> string;
  uuid_v5 : string -> string -> string;
  uuid_text : string -> string;
  hex_decode : string -> option string;
  hex_encode : string -> string;
  public_key_ok : string -> bool;
}.

(** ** Text *)

(** [chars().any(char::is_control)]: U+0000 to U+001F and U+007F to U+009F. *)
Fixpoint has_control (s : string) : bool :=
  match s with
  | EmptyString => false
  | String c s' =>
      (code c <? 32) || (code c =? 127)
      || ((code c =? 194) && match s' with String d _ => in_code_range 128 159 d | EmptyString => false end)
      || has_control s'
  end.

(** [validate_text]; [validate_search_text] is the same at 256 bytes. *)
Definition text_ok (max_bytes : Z) (s : string) : bool :=
  negb (str_is_empty s) && String.eqb s (trim s) && (str_len s <=? max_bytes) && negb (has_control s).
(** [validate_taxonomy_id]. *)
Definition taxonomy_id_ok (s : string) : bool :=
  negb (str_is_empty s) && (str_len s <=? 128)
  && str_all (fun c => is_ascii_lowercase c || is_ascii_digit c || Ascii.eqb c "-") s.
(** [validate_hex_id]. *)
Definition hex_id_ok (s : string) : bool :=
  (str_len s =? 64) && str_all (fun c => is_ascii_digit c || in_code_range 97 102 c) s.
(** [validate_uuid]. *)
Definition nil_uuid : string := String.string_of_list_ascii (replicate 16 "000"%char).
Definition uuid_ok (u : string) : bool := negb (String.eqb u nil_uuid).

(** ** Amounts *)

Definition DISCOVERY_RETAINED_LEAD_PRICE_NANOUSD : Z := 50000000.
Definition DISCOVERY_HOSTED_GATEWAY_PROTOCOL_VERSION : Z := 3.

(** [DiscoveryNanoUsd::new]. *)
Definition nanousd_new (value : Z) : option Z := if value <? 0 then None else Some value.
(** [DiscoveryNanoUsd::checked_mul]. *)
Definition nanousd_mul (amount quantity : Z) : option Z := checked_i64 (amount * quantity).
(** Its JSON, a decimal string, and back. *)
Definition nanousd_to_string (amount : Z) : string := dec amount.
Definition nanousd_of_string (s : string) : option Z :=
  if String.eqb s "0" || (negb (starts_with "0" s) && str_all is_ascii_digit s)
  then v ← parse_int i64_min i64_max s; nanousd_new v
  else None.

(** ** Campaigns *)

(** [DiscoveryCampaignInputV2]. *)
Record DiscoveryCampaignInput := {
  campaign_id : string;
  name : string;
  industry_id : string;
  industry_name : string;
  vertical_id : string;
  vertical_name : string;
  query : string;
  location : string;
  target : Z;
  description : option string;
  language : string;
  region : option string;
}.

(** [is_ascii_code]. *)
Definition ascii_code_ok (upper : bool) (s : string) : bool :=
  (str_len s =? 2) && str_all (if upper then is_ascii_uppercase else is_ascii_lowercase) s.

(** [DiscoveryBusinessSearchSpec::validate] on the Campaign's search. *)
Definition search_ok (c : DiscoveryCampaignInput) : bool :=
  text_ok 256 (query c) && text_ok 256 (location c)
  && (1 <=? target c) && (target c <=? 500)
  && ascii_code_ok false (language c)
  && match region c with Some r => ascii_code_ok true r | None => true end.

(** [DiscoveryCampaignInputV2::validate]: the name of the first field at fault. *)
Definition campaign_validate (c : DiscoveryCampaignInput) : Result unit string :=
  fail_if negb (uuid_ok (campaign_id c)) with "campaign_id"%string;
  fail_if negb (text_ok 256 (name c)) with "name"%string;
  fail_if negb (taxonomy_id_ok (industry_id c)) with "industry_id"%string;
  fail_if negb (text_ok 256 (industry_name c)) with "industry_name"%string;
  fail_if negb (taxonomy_id_ok (vertical_id c)) with "vertical_id"%string;
  fail_if negb (text_ok 256 (vertical_name c)) with "vertical_name"%string;
  fail_if match description c with Some d => negb (text_ok 2048 d) | None => false end
    with "description"%string;
  fail_if negb (search_ok c) with "business_search"%string;
  Ok tt.

(** [update_fingerprint_text]: the length as [u32], then the text. *)
Definition fingerprint_text (s : string) : string := be_bytes 4 (str_len s mod 2 ^ 32) +:+ s.

Definition fingerprint_domain : string := "colony.discovery-campaign-budget/v1" +:+ String "000" EmptyString.

(** What [campaign_budget_fingerprint] hashes. *)
Definition fingerprint_preimage (c : DiscoveryCampaignInput) (payer : string) (price : Z) : string :=
  fingerprint_domain +:+ campaign_id c +:+ fingerprint_text (industry_id c)
  +:+ fingerprint_text (vertical_id c) +:+ fingerprint_text (query c)
  +:+ fingerprint_text (location c) +:+ be_bytes 2 (target c) +:+ fingerprint_text (language c)
  +:+ match region c with
      | Some r => String "001" (fingerprint_text r)
      | None => String "000" EmptyString
      end
  +:+ be_bytes 8 price +:+ payer.
(** [campaign_budget_fingerprint]. *)
Definition campaign_budget_fingerprint `{CampaignLib} (c : DiscoveryCampaignInput) (payer : string)
    (price : Z) : Result string string :=
  let? _ := campaign_validate c in
  fail_if price =? 0 with "price"%string;
  Ok (sha256 (fingerprint_preimage c payer price)).

(** ** Approvals *)

Record DiscoveryCampaignBudgetApproval := {
  ap_campaign : string;
  ap_payer : string;
  ap_approved : Z;
  ap_price : Z;
  ap_fingerprint : string;
  ap_event_id : option string;
  ap_expires_at : option Z;
}.

(** [DiscoveryCampaignBudgetApproval::validate]. *)
Definition approval_validate (a : DiscoveryCampaignBudgetApproval) : Result unit string :=
  fail_if negb (uuid_ok (ap_campaign a)) with "campaign_id"%string;
  fail_if (ap_approved a =? 0) || negb (ap_price a =? DISCOVERY_RETAINED_LEAD_PRICE_NANOUSD)
    with "budget"%string;
  fail_if negb (hex_id_ok (ap_fingerprint a)) with "campaign_fingerprint"%string;
  match ap_event_id a, ap_expires_at a with
  | None, None => Ok tt
  | Some e, Some _ => if hex_id_ok e then Ok tt else Err "approval_action_event_id"%string
  | _, _ => Err "approval_evidence"%string
  end.

(** ** Projections *)

Inductive BudgetState := BUnapproved | BActive | BPaused | BRevoked | BExhausted.
#[export] Instance BudgetState_eq_dec : EqDecision BudgetState.
Proof. solve_decision. Defined.

(** [DiscoveryCampaignBudgetProjection], without its two hex identifiers, whose
    presence it keeps. *)
Record BudgetProjection := {
  bp_state : BudgetState;
  bp_payer : option string;
  bp_approved : Z;
  bp_spent : Z;
  bp_reserved : Z;
  bp_price : option Z;
  bp_fingerprint : option string;
  bp_event_id : option string;
  bp_approved_at : option Z;
}.

(** [remaining_nanousd]. *)
Definition remaining_nanousd (b : BudgetProjection) : option Z :=
  used ← checked_i64 (bp_spent b + bp_reserved b);
  rest ← checked_i64 (bp_approved b - used);
  nanousd_new rest.

(** [DiscoveryCampaignBudgetProjection::validate]. *)
Definition budget_projection_ok (b : BudgetProjection) : bool :=
  match remaining_nanousd b with
  | None => false
  | Some remaining =>
      match bp_state b with
      | BUnapproved =>
          negb (is_some (bp_payer b)) && (bp_approved b =? 0) && (bp_spent b =? 0) && (bp_reserved b =? 0)
          && negb (is_some (bp_price b)) && negb (is_some (bp_fingerprint b))
          && negb (is_some (bp_event_id b)) && negb (is_some (bp_approved_at b))
      | s =>
          is_some (bp_payer b) && negb (bp_approved b =? 0)
          && match bp_price b with Some p => negb (p =? 0) | None => false end
          && match bp_fingerprint b with Some f => hex_id_ok f | None => false end
          && match bp_event_id b with Some e => hex_id_ok e | None => false end
          && is_some (bp_approved_at b)
          && (negb (bool_decide (s = BActive)) || negb (remaining =? 0))
          && (negb (bool_decide (s = BExhausted)) || (remaining =? 0))
      end
  end.

(** [DiscoveryRunBillingProjection]. *)
Record BillingProjection := {
  rb_payer : string;
  rb_price : Z;
  rb_limit : Z;
  rb_reserved : Z;
  rb_settled : option Z;
  rb_released : option Z;
  rb_billed : option Z;
  rb_ref : option string;
  rb_settled_at : option Z;
}.
(** [DiscoveryRunBillingProjection::validate]. *)
Definition billing_projection_ok (b : BillingProjection) : bool :=
  negb (rb_price b =? 0) && (1 <=? rb_limit b) && (rb_limit b <=? 500)
  && bool_decide (nanousd_mul (rb_price b) (rb_limit b) = Some (rb_reserved b))
  && match rb_settled b, rb_released b, rb_billed b, rb_ref b, rb_settled_at b with
     | None, None, None, None, None => true
     | Some settled, Some released, Some quantity, Some ref, Some _ =>
         (quantity <=? rb_limit b) && String.eqb ref (trim ref) && negb (str_is_empty ref)
         && (str_len ref <=? 256) && negb (has_control ref)
         && bool_decide (nanousd_mul (rb_price b) quantity = Some settled)
         && bool_decide (checked_i64 (settled + released) = Some (rb_reserved b))
     | _, _, _, _, _ => false
     end.
