(* ===== verification/MoneyTheorems.v ===== *)
(** * What the money layer guarantees

    Of the ledger, of the recovery of settlements that were cut short, and of the
    fingerprint a Campaign's budget is approved under. *)

From Stdlib Require Import ZArith Lia Ascii.
From stdpp Require Import base gmap list strings numbers relations.
From S2P Require Import Prelude MachineInt RustStr Credits CreditsFacts Resolver Campaign.
Local Open Scope Z_scope.

Lemma empty_tables_ok : tables_ok empty_tables.
Proof. split; [apply empty_book_ok|]. split; cbn; try constructor; by intros ? ?%elem_of_nil. Qed.
Lemma money_steps_ok t : rtc money_step empty_tables t -> tables_ok t.
Proof.
  revert t. refine (rtc_ind_r _ empty_tables empty_tables_ok _). intros t t' _ Hs Ht. by eapply money_step_ok.
Qed.

(** A reference moves an account's balance once. Whatever the money layer has
    done before, an entry whose reference the account has used is answered with
    the entry first written under it, or with an error, and in either case the
    ledger and every account stay as they are; and with the database up a
    well-formed one is answered. *)
Theorem a_used_reference_moves_nothing fault now p t :
  rtc money_step empty_tables t ->
  (p_pubkey p, p_reference p) ∈ entry_key <$> ledger (book t) ->
  let (r, t') := apply_entry_applied fault now p t in
  ledger (book t') = ledger (book t) /\ accounts (book t') = accounts (book t)
  /\ match r with
     | Ok a => applied a = false /\ entry a ∈ ledger (book t) /\ entry_key (entry a) = (p_pubkey p, p_reference p)
     | Err _ => True
     end.
Proof.
  intros Ht%money_steps_ok Hin. unfold apply_entry_applied, apply_entry_inner.
  destruct (_ && _); [done|]. destruct (_ && _); [done|]. unfold run_tx, on_book.
  destruct (apply_entry_tx now p (book t)) as [[b a]|e] eqn:Hap; cbn [rbind fst snd]; [|by destruct fault].
  destruct (apply_entry_ok _ _ _ _ _ Hap (to_book t Ht)) as (_ & _ & Ha).
  rewrite (entry_replayed _ _ _ _ _ Hap (to_book t Ht) Hin) in Ha. destruct Ha as (Hl & He & Hk & Hacc).
  destruct fault; cbn; split_and!; try done. by eapply entry_replayed; [exact Hap|apply Ht|].
Qed.

(** C30. Recovery charges a call at most once. Run any number of times from an
    export row, each run cut short anywhere by a lost connection or a lost
    acknowledgement, the resolver adds at most one entry to the ledger, it is the
    correction of this call at the provider's cost, and it adds none when the
    call was already charged at that cost under the provider's request id, or,
    without an id, under the reference of the intent. *)
Theorem recovery_charges_once t n i usage runs :
  rtc money_step empty_tables t -> intent_by_id n t = Some i -> same_call usage i = true ->
  Forall (Forall alone) runs ->
  let t' := foldl (fun t turns => snd (resolve_gateway_settlement_intent n usage turns t)) t runs in
  ledger (book t') = ledger (book t)
  \/ ~ charged_before t i usage
     /\ exists e, ledger (book t') = ledger (book t) ++ [e] /\ is_correction i usage e.
Proof.
  intros Ht%money_steps_ok Hi Hcall Hruns t'.
  destruct (once_runs t n i usage Hi Hcall runs t Hruns) as (_ & _ & l & Hl & [->|(Hnot & e & -> & He)]).
  - by apply (once_start t n i usage Ht Hi).
  - left. unfold t'. by rewrite Hl, app_nil_r.
  - right. split; [done|]. by exists e.
Qed.

(** A run of the resolver that nothing disturbs resolves the intent, when the
    balance has room for the provider's cost. *)
Theorem recovery_resolves t n i usage turns :
  rtc money_step empty_tables t -> intent_by_id n t = Some i -> same_call usage i = true ->
  0 <= u_cost usage <= i64_max ->
  in_i64 (balance (account_or_new (book t) (i_pubkey i)) - u_cost usage) = true ->
  Forall undisturbed turns ->
  exists j turns' t', resolve_gateway_settlement_intent n usage turns t = (Ok (Some j), turns', t')
    /\ i_state j = Resolved.
Proof.
  intros Ht%money_steps_ok Hi Hcall Hcost Hfit Hturns. destruct (decide (i_state i = Resolved)) as [Hr|Hns].
  - destruct (query_up (fun t => Ok (intent_by_id n t)) turns t Hturns) as (turns1 & _ & Hq).
    exists i, turns1, t. split; [|done]. unfold resolve_gateway_settlement_intent.
    erewrite db_bind_ok by exact Hq. rewrite Hi, bool_decide_eq_true_2 by done. done.
  - by eapply resolve_up.
Qed.

(** ** The fingerprint of a Campaign *)

Lemma fingerprint_text_inj a b s t :
  str_len a < 2 ^ 32 -> str_len b < 2 ^ 32 ->
  (fingerprint_text a +:+ s = fingerprint_text b +:+ t)%string -> a = b /\ s = t.
Proof.
  intros Ha Hb. unfold fingerprint_text. rewrite <- !str_append_assoc. intros H.
  apply append_inj_prefix in H as [Hl H]; [|by rewrite !be_bytes_length].
  assert (0 <= str_len a) by (unfold str_len; lia). assert (0 <= str_len b) by (unfold str_len; lia).
  apply be_bytes_inj in Hl; [|by apply Z.mod_pos_bound..]. rewrite !Z.mod_small in Hl by lia.
  apply append_inj_prefix in H; [done|]. unfold str_len in Hl. lia.
Qed.

(** What the types of a Campaign and of its approval already say. *)
Definition campaign_typed (c : DiscoveryCampaignInput) (payer : string) (price : Z) : Prop :=
  String.length (campaign_id c) = 16%nat /\ String.length payer = 32%nat /\ 0 <= price <= i64_max.
(** The fields of a Campaign that its approval is bound to. *)
Definition approved_fields (c : DiscoveryCampaignInput) : string * string * string * string * string * Z * string * option string :=
  (campaign_id c, industry_id c, vertical_id c, query c, location c, target c, language c, region c).

(** A valid Campaign's texts are short. *)
Lemma campaign_validate_ok c :
  campaign_validate c = Ok tt ->
  str_len (industry_id c) < 2 ^ 32 /\ str_len (vertical_id c) < 2 ^ 32 /\ str_len (query c) < 2 ^ 32
  /\ str_len (location c) < 2 ^ 32 /\ str_len (language c) < 2 ^ 32 /\ 0 <= target c < 256 ^ Z.of_nat 2
  /\ (forall r, region c = Some r -> str_len r < 2 ^ 32).
Proof.
  unfold campaign_validate. intros H. repeat match type of H with (if ?b then _ else _) = _ => destruct b eqn:?; [done|] end.
  repeat match goal with E : negb _ = false |- _ => apply negb_false_iff in E end.
  unfold search_ok, text_ok, taxonomy_id_ok, ascii_code_ok in *.
  rewrite !andb_true_iff, ?Z.leb_le, ?Z.eqb_eq in *.
  split_and!; try lia. intros r Hr. rewrite Hr in *. rewrite !andb_true_iff, ?Z.eqb_eq in *. lia.
Qed.

Lemma fingerprint_preimage_inj c payer price c' payer' price' :
  campaign_validate c = Ok tt -> campaign_validate c' = Ok tt ->
  campaign_typed c payer price -> campaign_typed c' payer' price' ->
  fingerprint_preimage c payer price = fingerprint_preimage c' payer' price' ->
  approved_fields c = approved_fields c' /\ payer = payer' /\ price = price'.
Proof.
  intros (H1 & H2 & H3 & H4 & H5 & H6 & H7)%campaign_validate_ok (H1' & H2' & H3' & H4' & H5' & H6' & H7')%campaign_validate_ok
    (Hid & Hp & Hpr) (Hid' & Hp' & Hpr').
  unfold fingerprint_preimage. intros E.
  apply append_inj_prefix in E as [_ E]; [|done]. apply append_inj_prefix in E as [Eid E]; [|congruence].
  apply fingerprint_text_inj in E as [E1 E]; [|done..]. apply fingerprint_text_inj in E as [E2 E]; [|done..].
  apply fingerprint_text_inj in E as [E3 E]; [|done..]. apply fingerprint_text_inj in E as [E4 E]; [|done..].
  apply append_inj_prefix in E as [E5 E]; [|by rewrite !be_bytes_length]. apply be_bytes_inj in E5; [|done..].
  apply fingerprint_text_inj in E as [E6 E]; [|done..].
  assert (region c = region c' /\ (be_bytes 8 price +:+ payer = be_bytes 8 price' +:+ payer')%string) as [E7 E8].
  { assert (forall a x y, String a x = String a y -> x = y) as Htail by (intros; congruence).
    destruct (region c) as [r|] eqn:Hr, (region c') as [r'|] eqn:Hr'; cbn [String.append] in E; try discriminate E;
      apply Htail in E; [|done].
    apply fingerprint_text_inj in E as [-> E]; [done|by apply H7|by apply H7']. }
  apply append_inj_prefix in E8 as [E8 E9]; [|by rewrite !be_bytes_length].
  apply be_bytes_inj in E8; [|unfold i64_max in *; cbn; lia..].
  unfold approved_fields. split_and!; congruence.
Qed.

(** The fingerprint a human approves binds the Campaign. Two fingerprints that
    agree are of Campaigns with the same identifier, taxonomy, query, place,
    target, language and region, at the same price for the same payer, or SHA-256
    has a collision. *)
Theorem fingerprints_bind_the_campaign `{CampaignLib} c payer price c' payer' price' h :
  campaign_typed c payer price -> campaign_typed c' payer' price' ->
  campaign_budget_fingerprint c payer price = Ok h -> campaign_budget_fingerprint c' payer' price' = Ok h ->
  approved_fields c = approved_fields c' /\ payer = payer' /\ price = price'
  \/ exists x y, x <> y /\ sha256 x = sha256 y.
Proof.
  unfold campaign_budget_fingerprint. intros Ht Ht' E E'.
  destruct (campaign_validate c) as [[]|] eqn:Hv; [|done]. destruct (campaign_validate c') as [[]|] eqn:Hv'; [|done].
  cbn [rbind] in E, E'. destruct (price =? 0); [done|]. destruct (price' =? 0); [done|].
  injection E as E. injection E' as E'.
  destruct (String.eqb_spec (fingerprint_preimage c payer price) (fingerprint_preimage c' payer' price')) as [Heq|Hne].
  - left. by apply fingerprint_preimage_inj.
  - right. eexists _, _. split; [exact Hne|congruence].
Qed.
