(* ===== verification/Escrow.v ===== *)
(** * Discovery budgets and paid runs

    The money side of [crates/buzz-db/src/discovery.rs] and
    [discovery_workspace.rs]: a human approves a Campaign's budget, a paid run
    reserves it and moves the reservation out of the payer's balance, the relay
    stores the Leads the run finds, and whatever ends the run settles it.
    Identifiers are the 16 bytes of their [Uuid]; keys of the community's tables
    are pairs (community, id). *)

From Stdlib Require Import ZArith Lia Ascii.
From stdpp Require Import base gmap list strings numbers.
From S2P Require Import Prelude MachineInt RustStr Credits Campaign.
Local Open Scope Z_scope.

(** ** Tables *)

(** A row of [discovery_campaigns]. Its source plan is that of the hosted
    gateway: Google Maps, Brave and Exa in a waterfall. *)
Record CampaignRow := {
  c_input : DiscoveryCampaignInput;
  c_payer : option string;
  c_approved : Z;
  c_spent : Z;
  c_reserved : Z;
  c_state : BudgetState;
  c_event : option string;
  c_approved_at : option Z;
  c_fingerprint : option string;
  c_price : option Z;
}.

Inductive RunState := Queued | Running | Succeeded | Cancelled | Failed.
#[export] Instance RunState_eq_dec : EqDecision RunState.
Proof. solve_decision. Defined.
Definition is_terminal (s : RunState) : bool :=
  match s with Succeeded | Cancelled | Failed => true | Queued | Running => false end.
Inductive TerminalReason := CancelledByActor | EntitlementRevoked | ExecutorFailed.
#[export] Instance TerminalReason_eq_dec : EqDecision TerminalReason.
Proof. solve_decision. Defined.

(** The lease of the worker that runs it. *)
Record Lease := { claim_id : string; lease_until : Z; worker_id : string; lease_owner : string }.
#[export] Instance Lease_eq_dec : EqDecision Lease.
Proof. solve_decision. Defined.

(** A row of [discovery_runs]. *)
Record Run := {
  r_campaign : string;
  r_requested_by : string;
  r_state : RunState;
  r_reason : option TerminalReason;
  r_lease : option Lease;
  r_protocol : Z;
  r_payer : option string;
  r_price : option Z;
  r_limit : option Z;
  r_reserved : option Z;
  r_settled : option Z;
  r_released : option Z;
  r_billed : option Z;
  r_ref : option string;
  r_settled_at : option Z;
}.

Inductive SourceStatus :=
| SPending | SActive | SCompleted | SExhausted | SFailed | SCancelled | SOutcomeUnknown | SSkippedTargetMet.
#[export] Instance SourceStatus_eq_dec : EqDecision SourceStatus.
Proof. solve_decision. Defined.
Definition is_terminal_source_status (s : SourceStatus) : bool :=
  match s with SPending | SActive => false | _ => true end.

(** A row of [discovery_run_sources]. *)
Record RunSource := {
  s_community : string;
  s_run : string;
  s_provider : string;
  s_status : SourceStatus;
  s_cursor : option string;
}.

(** A provider's record of a business: its identity with the provider, and the
    three digests by which businesses are the same across providers. *)
Record Observation := {
  ob_id : string;
  ob_provider : string;
  ob_record : string;
  ob_domain : option string;
  ob_phone : option string;
  ob_name : option string;
  ob_valid : bool;
}.
(** A row of [discovery_business_observations]: a Lead of the workspace. *)
Record Lead := { l_community : string; l_first_run : string; l_observation : Observation; l_at : Z }.
(** A row of [discovery_campaign_leads]. *)
Record CampaignLead := { cl_community : string; cl_campaign : string; cl_lead : string; cl_run : string }.

Inductive AttemptStatus := AIntent | APending | AReady.
#[export] Instance AttemptStatus_eq_dec : EqDecision AttemptStatus.
Proof. solve_decision. Defined.
(** A row of [discovery_gateway_attempts]. *)
Record Attempt := {
  a_community : string;
  a_run : string;
  a_provider : string;
  a_payer : string;
  a_intent : string;
  a_request_id : option string;
  a_status : AttemptStatus;
  a_observations : list Observation;
  a_created_at : Z;
}.

Record World := {
  money : Tables;
  campaigns : gmap (string * string) CampaignRow;
  runs : gmap (string * string) Run;
  sources : list RunSource;
  attempts : list Attempt;
  leads : list Lead;
  campaign_leads : list CampaignLead;
  claims : list string;
  users : gmap (string * string) (option string);
  members : list (string * string);
  grants : list (string * string);
  entitlements : gmap string (bool * option Z);
}.
Definition empty_world : World :=
  {| money := empty_tables; campaigns := ∅; runs := ∅; sources := []; attempts := []; leads := [];
     campaign_leads := []; claims := []; users := ∅; members := []; grants := []; entitlements := ∅ |}.

Definition with_money (x : Tables) (w : World) : World :=
  {| money := x; campaigns := campaigns w; runs := runs w; sources := sources w; attempts := attempts w;
     leads := leads w; campaign_leads := campaign_leads w; claims := claims w; users := users w;
     members := members w; grants := grants w; entitlements := entitlements w |}.
Definition with_campaigns (x : gmap (string * string) CampaignRow) (w : World) : World :=
  {| money := money w; campaigns := x; runs := runs w; sources := sources w; attempts := attempts w;
     leads := leads w; campaign_leads := campaign_leads w; claims := claims w; users := users w;
     members := members w; grants := grants w; entitlements := entitlements w |}.
Definition with_runs (x : gmap (string * string) Run) (w : World) : World :=
  {| money := money w; campaigns := campaigns w; runs := x; sources := sources w; attempts := attempts w;
     leads := leads w; campaign_leads := campaign_leads w; claims := claims w; users := users w;
     members := members w; grants := grants w; entitlements := entitlements w |}.
Definition with_sources (x : list RunSource) (w : World) : World :=
  {| money := money w; campaigns := campaigns w; runs := runs w; sources := x; attempts := attempts w;
     leads := leads w; campaign_leads := campaign_leads w; claims := claims w; users := users w;
     members := members w; grants := grants w; entitlements := entitlements w |}.
Definition with_attempts (x : list Attempt) (w : World) : World :=
  {| money := money w; campaigns := campaigns w; runs := runs w; sources := sources w; attempts := x;
     leads := leads w; campaign_leads := campaign_leads w; claims := claims w; users := users w;
     members := members w; grants := grants w; entitlements := entitlements w |}.
Definition with_leads (x : list Lead) (y : list CampaignLead) (w : World) : World :=
  {| money := money w; campaigns := campaigns w; runs := runs w; sources := sources w;
     attempts := attempts w; leads := x; campaign_leads := y; claims := claims w; users := users w;
     members := members w; grants := grants w; entitlements := entitlements w |}.
Definition with_claims (x : list string) (w : World) : World :=
  {| money := money w; campaigns := campaigns w; runs := runs w; sources := sources w;
     attempts := attempts w; leads := leads w; campaign_leads := campaign_leads w; claims := x;
     users := users w; members := members w; grants := grants w; entitlements := entitlements w |}.
Definition with_entitlements (x : gmap string (bool * option Z)) (w : World) : World :=
  {| money := money w; campaigns := campaigns w; runs := runs w; sources := sources w;
     attempts := attempts w; leads := leads w; campaign_leads := campaign_leads w; claims := claims w;
     users := users w; members := members w; grants := grants w; entitlements := x |}.

Definition on_money {A} (f : Book -> Result (Book * A) DbError) (w : World) : Result (World * A) DbError :=
  let? r := on_book f (money w) in
  Ok (with_money (fst r) w, snd r).
Definition on_accounts (f : Book -> Result Book DbError) (w : World) : Result World DbError :=
  let? b := f (book (money w)) in
  Ok (with_money (with_book b (money w)) w).

(** ** Constraints *)

Definition len32 (o : option string) : bool :=
  match o with Some s => octet_length s =? 32 | None => true end.

(** The checks of [discovery_campaigns] on the budget. *)
Definition campaign_row_ok (c : CampaignRow) : bool :=
  (0 <=? c_approved c) && (0 <=? c_spent c) && (0 <=? c_reserved c)
  && (c_spent c + c_reserved c <=? c_approved c)
  && len32 (c_payer c) && len32 (c_event c) && len32 (c_fingerprint c)
  && match c_price c with Some p => 0 <? p | None => true end
  && if bool_decide (c_state c = BUnapproved)
     then negb (is_some (c_payer c)) && (c_approved c =? 0) && (c_spent c =? 0) && (c_reserved c =? 0)
          && negb (is_some (c_event c)) && negb (is_some (c_approved_at c))
          && negb (is_some (c_fingerprint c)) && negb (is_some (c_price c))
     else is_some (c_payer c) && (0 <? c_approved c) && is_some (c_event c) && is_some (c_approved_at c)
          && is_some (c_fingerprint c) && is_some (c_price c).

(** [discovery_runs_billing_snapshot_complete] and the checks on its columns. *)
Definition run_row_ok (r : Run) : bool :=
  len32 (r_payer r) && (1 <=? r_protocol r) && (r_protocol r <=? 3)
  && if r_protocol r <? 3
     then negb (is_some (r_payer r)) && negb (is_some (r_price r)) && negb (is_some (r_limit r))
          && negb (is_some (r_reserved r)) && negb (is_some (r_settled r)) && negb (is_some (r_released r))
          && negb (is_some (r_billed r)) && negb (is_some (r_ref r)) && negb (is_some (r_settled_at r))
     else match r_payer r, r_price r, r_limit r, r_reserved r with
          | Some _, Some price, Some limit, Some reserved =>
              (0 <? price) && (1 <=? limit) && (limit <=? 500) && (reserved =? price * limit)
              && match r_settled r, r_released r, r_billed r, r_ref r, r_settled_at r with
                 | None, None, None, None, None => negb (is_terminal (r_state r))
                 | Some settled, Some released, Some billed, Some _, Some _ =>
                     is_terminal (r_state r) && (0 <=? settled) && (0 <=? released)
                     && (0 <=? billed) && (billed <=? limit)
                     && (settled + released =? reserved) && (settled =? price * billed)
                 | _, _, _, _, _ => false
                 end
          | _, _, _, _ => false
          end.

(** [INSERT] or [UPDATE] of one row. The unique index on the settlement
    reference of a community's runs is left out: the reference names the run. *)
Definition put_campaign (key : string * string) (c : CampaignRow) (w : World) : Result World DbError :=
  fail_if negb (campaign_row_ok c) with Sqlx;
  Ok (with_campaigns (<[key := c]> (campaigns w)) w).
Definition put_run (key : string * string) (r : Run) (w : World) : Result World DbError :=
  fail_if negb (run_row_ok r) with Sqlx;
  Ok (with_runs (<[key := r]> (runs w)) w).

(** ** Budgets *)

(** A user of the community, and whether another is its owned agent. *)
Definition is_human (community pk : string) (w : World) : bool :=
  bool_decide (users w !! (community, pk) = Some None).
Definition owned_agent (community agent owner : string) (w : World) : bool :=
  bool_decide (users w !! (community, agent) = Some (Some owner)).

(** ** Who may use Discovery *)

Definition entitled (now : Z) (community : string) (w : World) : bool :=
  match entitlements w !! community with
  | Some (on, expires) => on && match expires with Some e => now <? e | None => true end
  | None => false
  end.
Definition is_member (community pk : string) (w : World) : bool :=
  existsb (fun m => String.eqb (fst m) community && String.eqb (snd m) pk) (members w).

Definition is_agent (community pk : string) (w : World) : bool :=
  match users w !! (community, pk) with Some (Some _) => true | _ => false end.
(** An active grant of [DISCOVERY_CAPABILITY]. *)
Definition is_granted (community pk : string) (w : World) : bool :=
  existsb (fun g => String.eqb (fst g) community && String.eqb (snd g) pk) (grants w).

Inductive DiscoveryAuthorization :=
| AuthorizedHuman | AuthorizedAgent | EntitlementInactive | MembershipRequired | AgentGrantRequired.
(** [authorization_from_row]. A community that is not there has no entitlement. *)
Definition discovery_authorization (now : Z) (community actor : string) (w : World) : DiscoveryAuthorization :=
  if negb (entitled now community w) then EntitlementInactive
  else if negb (is_member community actor w) then MembershipRequired
  else if is_agent community actor w then
    if is_granted community actor w then AuthorizedAgent else AgentGrantRequired
  else AuthorizedHuman.
(** [require_authorization], [require_discovery_authorized_tx]. *)
Definition require_authorization (a : DiscoveryAuthorization) : Result unit DbError :=
  match a with
  | AuthorizedHuman | AuthorizedAgent => Ok tt
  | EntitlementInactive => Err (AccessDenied "Discovery entitlement is inactive")
  | MembershipRequired => Err (AccessDenied "Discovery requires relay membership")
  | AgentGrantRequired => Err (AccessDenied "Discovery agent capability is required")
  end.
Definition require_discovery_authorized_tx (now : Z) (community actor : string) (w : World)
    : Result unit DbError := require_authorization (discovery_authorization now community actor w).

(** The budget columns of a Campaign, replaced. *)
Definition with_budget (c : CampaignRow) (reserved spent : Z) (state : BudgetState) : CampaignRow :=
  {| c_input := c_input c; c_payer := c_payer c; c_approved := c_approved c; c_spent := spent;
     c_reserved := reserved; c_state := state; c_event := c_event c; c_approved_at := c_approved_at c;
     c_fingerprint := c_fingerprint c; c_price := c_price c |}.

(** A column as [DiscoveryNanoUsd]. *)
Definition nanousd_column (value : Z) : Result Z DbError := ok_or (nanousd_new value) (InvalidData "amount").
(** [campaign_budget_from_row]. *)
Definition campaign_budget_from_row `{CampaignLib} (c : CampaignRow) : Result BudgetProjection DbError :=
  let? payer := map_transpose (fun p =>
    fail_if negb (public_key_ok p) with InvalidData "Campaign budget payer is invalid"; Ok p) (c_payer c) in
  let? approved := nanousd_column (c_approved c) in
  let? spent := nanousd_column (c_spent c) in
  let? reserved := nanousd_column (c_reserved c) in
  let? price := map_transpose nanousd_column (c_price c) in
  let projection :=
    {| bp_state := c_state c; bp_payer := payer; bp_approved := approved; bp_spent := spent;
       bp_reserved := reserved; bp_price := price; bp_fingerprint := hex_encode <$> c_fingerprint c;
       bp_event_id := hex_encode <$> c_event c; bp_approved_at := c_approved_at c |} in
  fail_if negb (budget_projection_ok projection) with InvalidData "budget";
  Ok projection.
(** [load_campaign_budget_tx]. *)
Definition load_campaign_budget_tx `{CampaignLib} (community campaign : string) (w : World)
    : Result BudgetProjection DbError :=
  let? c := ok_or (campaigns w !! (community, campaign)) (NotFound "Discovery campaign") in
  campaign_budget_from_row c.

(** [insert_campaign_tx]. *)
Definition insert_campaign_tx (community : string) (campaign : DiscoveryCampaignInput) (w : World)
    : Result World DbError :=
  let? _ := map_err InvalidData (campaign_validate campaign) in
  let key := (community, campaign_id campaign) in
  fail_if is_some (campaigns w !! key) with AccessDenied "Discovery campaign identifier already exists";
  put_campaign key
    {| c_input := campaign; c_payer := None; c_approved := 0; c_spent := 0; c_reserved := 0;
       c_state := BUnapproved; c_event := None; c_approved_at := None; c_fingerprint := None;
       c_price := None |} w.

(** [approve_campaign_budget_tx]. [verified] is the payer of a verified Approval
    Block, [action_event] the signed action itself. *)
Definition approval_event `{CampaignLib} (now : Z) (actor : string) (verified : option string)
    (action_event : string) (a : DiscoveryCampaignBudgetApproval) : Result string DbError :=
  let denied := AccessDenied "Campaign budget approval authority is invalid" in
  match ap_event_id a, ap_expires_at a, verified with
  | None, None, None => if String.eqb (ap_payer a) actor then Ok action_event else Err denied
  | Some event, Some expires, Some v =>
      if String.eqb v (ap_payer a) && (now <? expires)
      then
        let? decoded := ok_or (hex_decode event)
                          (InvalidData "Campaign budget approval event ID is invalid") in
        fail_if negb (octet_length decoded =? 32)
          with InvalidData "Campaign budget approval event ID is invalid";
        Ok decoded
      else Err denied
  | _, _, _ => Err denied
  end.

Definition approve_campaign_budget_tx `{CampaignLib} (now : Z) (community actor : string)
    (verified : option string) (action_event : string) (a : DiscoveryCampaignBudgetApproval) (w : World)
    : Result World DbError :=
  let? _ := map_err InvalidData (approval_validate a) in
  let payer := ap_payer a in
  let? event := approval_event now actor verified action_event a in
  fail_if negb (is_human community payer w) with AccessDenied "Agents cannot approve Campaign spending";
  fail_if negb (String.eqb actor payer) && negb (owned_agent community actor payer w)
    with AccessDenied "Campaign budget evidence requires the payer's owned agent";
  let? w := on_accounts (ensure_account payer) w in
  let key := (community, ap_campaign a) in
  let? c := ok_or (campaigns w !! key) (NotFound "Discovery campaign") in
  let? expected := map_err InvalidData (campaign_budget_fingerprint (c_input c) payer (ap_price a)) in
  let? supplied := ok_or (hex_decode (ap_fingerprint a))
                     (InvalidData "Campaign budget fingerprint is invalid") in
  fail_if negb (String.eqb supplied expected)
    with AccessDenied "Campaign budget approval does not match the current Campaign";
  let? maximum := ok_or (nanousd_mul (ap_price a) (target (c_input c))) (InvalidData "amount") in
  fail_if negb (ap_approved a =? maximum)
    with InvalidData "Campaign approval must cover its exact Lead target";
  fail_if mem (claims w) event
    with AccessDenied "Campaign budget approval evidence has already been used";
  let w := with_claims (claims w ++ [event]) w in
  fail_if bool_decide (c_state c = BRevoked)
    with AccessDenied "A revoked Campaign budget cannot be reactivated";
  fail_if bool_decide (c_event c = Some event)
    with AccessDenied "Campaign budget approval evidence has already been used";
  let? minimum := ok_or (checked_i64 (c_spent c + c_reserved c))
                    (InvalidData "Campaign budget amount overflow") in
  fail_if ap_approved a <? minimum
    with InvalidData "Campaign budget cannot be reduced below spent and reserved Credits";
  fail_if negb (String.eqb (default payer (c_payer c)) payer)
          || negb (String.eqb (default expected (c_fingerprint c)) expected)
          || negb (default (ap_price a) (c_price c) =? ap_price a)
    with AccessDenied "Campaign budget identity or price cannot change";
  put_campaign key
    {| c_input := c_input c; c_payer := Some payer; c_approved := ap_approved a; c_spent := c_spent c;
       c_reserved := c_reserved c;
       c_state := if ap_approved a =? minimum then BExhausted else BActive;
       c_event := Some event; c_approved_at := Some now; c_fingerprint := Some expected;
       c_price := Some (ap_price a) |} w.

(** A run of this Campaign that has not ended. *)
Definition active_run_of (community campaign : string) (kr : (string * string) * Run) : bool :=
  String.eqb (fst (fst kr)) community && String.eqb (r_campaign (snd kr)) campaign
  && negb (is_terminal (r_state (snd kr))).

(** [set_campaign_budget_state_tx], for the states it accepts. *)
Definition set_campaign_budget_state_tx (community actor campaign : string) (state : BudgetState)
    (w : World) : Result World DbError :=
  fail_if negb (bool_decide (state = BPaused) || bool_decide (state = BRevoked))
    with InvalidData "Unsupported Campaign budget state transition";
  fail_if bool_decide (state = BRevoked)
          && existsb (fun kr => active_run_of community campaign kr && (r_protocol (snd kr) =? 3))
               (map_to_list (runs w))
    with AccessDenied "Cancel the active Discovery run before revoking its budget";
  let denied := AccessDenied "Only the human Campaign payer can change this budget" in
  let? c := ok_or (campaigns w !! (community, campaign)) denied in
  fail_if negb (bool_decide (c_payer c = Some actor))
          || bool_decide (c_state c = BUnapproved) || bool_decide (c_state c = BRevoked) with denied;
  put_campaign (community, campaign) (with_budget c (c_reserved c) (c_spent c) state) w.

(** ** Starting a paid run *)

(** [PaidDiscoveryRunReservation]; its search and source plan follow from the
    Campaign. *)
Record PaidReservation := { pr_payer : string; pr_price : Z; pr_limit : Z; pr_reserved : Z }.

Definition campaign_lead_count (community campaign : string) (w : World) : Z :=
  Z.of_nat (length (List.filter (fun l => String.eqb (cl_community l) community
                                          && String.eqb (cl_campaign l) campaign) (campaign_leads w))).

(** [reserve_paid_discovery_run_tx]. *)
Definition reserve_paid_discovery_run_tx `{CampaignLib} (community campaign actor : string) (w : World)
    : Result (World * PaidReservation) DbError :=
  let key := (community, campaign) in
  let? payer := ok_or (c ← campaigns w !! key; c_payer c)
                  (AccessDenied "Campaign has no approved Credits budget") in
  fail_if negb (octet_length payer =? 32) with InvalidData "Campaign budget payer is invalid";
  fail_if negb (String.eqb actor payer) && negb (owned_agent community actor payer w)
    with AccessDenied "Only the Campaign payer or their owned agent can start paid Discovery";
  let? w := on_accounts (ensure_account payer) w in
  let? account_balance := ok_or (balance <$> accounts (book (money w)) !! payer) Sqlx in
  let? c := ok_or (campaigns w !! key) (NotFound "Discovery campaign") in
  fail_if negb (bool_decide (c_state c = BActive))
    with AccessDenied "Campaign Credits budget is not active";
  let? price := ok_or (c_price c) Sqlx in
  fail_if price <? 0 with InvalidData "price";
  fail_if negb (public_key_ok payer) with InvalidData "Campaign budget payer is invalid";
  let? expected := map_err InvalidData (campaign_budget_fingerprint (c_input c) payer price) in
  fail_if negb (bool_decide (c_fingerprint c = Some expected))
    with AccessDenied "Campaign changed after its Credits budget was approved";
  let retained := Z.min (campaign_lead_count community campaign w) 65535 in
  let capacity := Z.max 0 (target (c_input c) - retained) in
  fail_if capacity =? 0
    with InvalidData "Campaign already contains its target number of retained Leads";
  let? used := ok_or (checked_i64 (c_spent c + c_reserved c))
                 (InvalidData "Campaign budget amount overflow") in
  let? campaign_available := ok_or (checked_i64 (c_approved c - used))
                               (InvalidData "Campaign budget state is invalid") in
  let? gateway_reserved := as_bigint (gateway_reserved_sum payer (money w)) in
  let account_available := Z.max (saturate_i64 (account_balance - gateway_reserved)) 0 in
  let? required := ok_or (nanousd_mul price capacity)
                     (InvalidData "Discovery reservation amount overflow") in
  fail_if campaign_available <? required with AccessDenied "budget_exhausted";
  fail_if account_available <? required with AccessDenied "balance_depleted";
  let? after := ok_or (checked_i64 (used + required))
                  (InvalidData "Campaign budget amount overflow") in
  let? w := put_campaign key (with_budget c (c_reserved c + required) (c_spent c)
              (if after =? c_approved c then BExhausted else BActive)) w in
  Ok (w, {| pr_payer := payer; pr_price := price; pr_limit := capacity; pr_reserved := required |}).

(** [require_no_other_active_campaign_run_tx]. *)
Definition require_no_other_active_campaign_run_tx (community campaign run : string) (w : World)
    : Result unit DbError :=
  fail_if negb (is_some (campaigns w !! (community, campaign))) with NotFound "Discovery campaign";
  match find (active_run_of community campaign) (map_to_list (runs w)) with
  | Some kr => if String.eqb (snd (fst kr)) run then Ok tt
               else Err (AccessDenied "Discovery campaign already has an active run")
  | None => Ok tt
  end.

(** The references of a run's three ledger rows. *)
Definition run_ref `{CampaignLib} (prefix community run : string) : string :=
  (prefix +:+ uuid_text community +:+ ":" +:+ uuid_text run)%string.
Definition hold_prefix : string := "discovery-hold:".
Definition release_prefix : string := "discovery-release:".
Definition debit_prefix : string := "discovery:".

(** The ledger row of a Discovery movement. *)
Definition discovery_row (now : Z) (payer kind ref : string) (delta quantity price : Z)
    (community campaign run : string) : LedgerEntry :=
  {| id := 0; pubkey := payer; delta := delta; kind := kind; reference := ref; model := None;
     observed_cost := None; request_id := None; settle_basis := None;
     discovery := Some {| quantity := quantity; unit_price_nanousd := price;
                          charge_community := community; charge_campaign := campaign;
                          charge_run := run |};
     created_at := now |}.

(** [escrow_paid_discovery_run_tx]. *)
Definition escrow_paid_discovery_run_tx `{CampaignLib} (now : Z) (community campaign run : string)
    (paid : PaidReservation) (w : World) : Result World DbError :=
  let? r := on_money (insert_ledger (discovery_row now (pr_payer paid) "hold"
              (run_ref hold_prefix community run) (- pr_reserved paid) (pr_limit paid) (pr_price paid)
              community campaign run)) w in
  match r with
  | (_, None) => Err (AccessDenied "Discovery escrow reference conflicts with another hold")
  | (w, Some _) => on_accounts (add_balance (- pr_reserved paid) (pr_payer paid)) w
  end.

(** [DiscoverySource::provider] in the order of the hosted plan. *)
Definition hosted_providers : list string := ["outscraper"; "brave_search"; "exa_search"]%string.

(** [Uuid::NAMESPACE_OID]. *)
Definition NAMESPACE_OID : string :=
  bytes_str [107; 167; 184; 18; 157; 173; 17; 209; 128; 180; 0; 192; 79; 212; 48; 200]%N.
(** [deterministic_run_id]. *)
Definition deterministic_run_id `{CampaignLib} (community key : string) : string :=
  uuid_v5 (uuid_v5 NAMESPACE_OID community) key.

(** The [Start] command of [apply_discovery_command_once] for protocol 3, its key
    not used before. *)
Definition start_paid_run_tx `{CampaignLib} (now : Z) (community campaign key actor : string)
    (total_steps : Z) (w : World) : Result World DbError :=
  let? _ := require_discovery_authorized_tx now community actor w in
  let run := deterministic_run_id community key in
  fail_if (total_steps =? 0) || (i32_max <? total_steps)
    with InvalidData "Discovery total steps must be between 1 and i32::MAX";
  let? r := reserve_paid_discovery_run_tx community campaign actor w in
  match r with
  | (w, paid) =>
      let? _ := require_no_other_active_campaign_run_tx community campaign run w in
      fail_if is_some (runs w !! (community, run)) with Sqlx;
      let? w := put_run (community, run)
        {| r_campaign := campaign; r_requested_by := actor; r_state := Queued; r_reason := None;
           r_lease := None; r_protocol := DISCOVERY_HOSTED_GATEWAY_PROTOCOL_VERSION;
           r_payer := Some (pr_payer paid); r_price := Some (pr_price paid);
           r_limit := Some (pr_limit paid); r_reserved := Some (pr_reserved paid); r_settled := None;
           r_released := None; r_billed := None; r_ref := None; r_settled_at := None |} w in
      let? w := escrow_paid_discovery_run_tx now community campaign run paid w in
      Ok (with_sources (sources w ++ List.map (fun p =>
            {| s_community := community; s_run := run; s_provider := p; s_status := SPending;
               s_cursor := None |}) hosted_providers) w)
  end.

(** ** Settling a paid run *)

(** [worker_lease_matches]. *)
Definition worker_lease_matches (now : Z) (r : Run) (guard : string * string * string) : bool :=
  match guard, r_lease r with
  | (actor, worker, lease), Some l =>
      bool_decide (r_state r = Running) && String.eqb (claim_id l) lease && String.eqb (worker_id l) worker
      && String.eqb (lease_owner l) actor && (now <=? lease_until l)
  | _, None => false
  end.

Definition of_run (community run : string) (s : RunSource) : bool :=
  String.eqb (s_community s) community && String.eqb (s_run s) run.
Definition sources_terminal (community run : string) (w : World) : bool :=
  forallb (fun s => negb (of_run community run s) || is_terminal_source_status (s_status s)) (sources w).

(** [SELECT count( * ) FROM discovery_business_observations WHERE first_run_id]. *)
Definition retained_count (community run : string) (w : World) : Z :=
  Z.of_nat (length (List.filter (fun l => String.eqb (l_community l) community
                                          && String.eqb (l_first_run l) run) (leads w))).

(** The ledger movements of a settlement: the hold comes back, then the
    retained Leads are charged. *)
Definition release_hold_tx `{CampaignLib} (now : Z) (community campaign run payer : string)
    (reserved limit price : Z) (w : World) : Result World DbError :=
  let? r := on_money (insert_ledger (discovery_row now payer "release"
              (run_ref release_prefix community run) reserved limit price community campaign run)) w in
  match r with
  | (w, Some _) => on_accounts (add_balance reserved payer) w
  | (w, None) => Ok w
  end.
Definition exact_charge (row e : LedgerEntry) : bool :=
  same_ref (pubkey row) (reference row) e && (delta e =? delta row)
  && bool_decide (discovery e = discovery row).
Definition charge_leads_tx `{CampaignLib} (now : Z) (community campaign run payer : string)
    (settled count price : Z) (w : World) : Result World DbError :=
  let row := discovery_row now payer "debit" (run_ref debit_prefix community run) (- settled) count price
               community campaign run in
  let? r := on_money (insert_ledger row) w in
  match r with
  | (w, Some _) => on_accounts (add_balance (- settled) payer) w
  | (w, None) =>
      if existsb (exact_charge row) (ledger (book (money w))) then Ok w
      else Err (AccessDenied "Discovery settlement reference conflicts with another charge")
  end.

(** The budget of a Campaign after a settlement. *)
Definition settled_budget (c : CampaignRow) (reserved settled : Z) : CampaignRow :=
  with_budget c (c_reserved c - reserved) (c_spent c + settled)
    (match c_state c with
     | BPaused => BPaused
     | BRevoked => BRevoked
     | _ => if c_spent c + settled + c_reserved c - reserved =? c_approved c then BExhausted else BActive
     end).

(** The row of a settled run. *)
Definition settled_run (now : Z) (r : Run) (state : RunState) (reason : option TerminalReason)
    (settled released billed : Z) (ref : string) : Run :=
  {| r_campaign := r_campaign r; r_requested_by := r_requested_by r; r_state := state; r_reason := reason;
     r_lease := None; r_protocol := r_protocol r; r_payer := r_payer r; r_price := r_price r;
     r_limit := r_limit r; r_reserved := r_reserved r; r_settled := Some settled;
     r_released := Some released; r_billed := Some billed; r_ref := Some ref; r_settled_at := Some now |}.

(** [settle_paid_run_tx]. *)
Definition settle_paid_run_tx `{CampaignLib} (now : Z) (community run : string)
    (guard : option (string * string * string)) (state : RunState) (reason : option TerminalReason)
    (w : World) : Result (World * option Run) DbError :=
  let? r := ok_or (runs w !! (community, run)) (NotFound "Discovery run") in
  if negb (r_protocol r =? 3) then Ok (w, None) else
  let? payer := ok_or (r_payer r) Sqlx in
  fail_if negb (is_some (accounts (book (money w)) !! payer)) with Sqlx;
  fail_if negb (is_some (campaigns w !! (community, r_campaign r))) with Sqlx;
  if is_some (r_settled_at r) then Ok (w, Some r) else
  if match guard with Some g => negb (worker_lease_matches now r g) | None => false end
  then Ok (w, None) else
  if match guard with Some _ => false | None => is_terminal (r_state r) end then Ok (w, Some r) else
  fail_if negb (sources_terminal community run w)
    with InvalidData "All Discovery sources must be terminal before settlement";
  let count := retained_count community run w in
  fail_if 65535 <? count with InvalidData "Discovery retained Lead count is invalid";
  let? limit := ok_or (r_limit r) (InvalidData "Paid run has no billable Lead limit") in
  fail_if limit <? count with InvalidData "Paid run retained more Leads than its reserved limit";
  let? price := ok_or (r_price r) (InvalidData "Paid run has no price") in
  let? settled := ok_or (nanousd_mul price count) (InvalidData "amount") in
  let? reserved := ok_or (r_reserved r) (InvalidData "Paid run has no reservation") in
  let? released := ok_or (checked_i64 (reserved - settled))
                     (InvalidData "Paid run settlement exceeds reservation") in
  let? w := release_hold_tx now community (r_campaign r) run payer reserved limit price w in
  let? w := if 0 <? count
            then charge_leads_tx now community (r_campaign r) run payer settled count price w
            else Ok w in
  let? c := ok_or (campaigns w !! (community, r_campaign r)) Sqlx in
  let? w := put_campaign (community, r_campaign r) (settled_budget c reserved settled) w in
  fail_if negb (is_terminal state)
    with InvalidData "Paid Discovery settlement requires a terminal state";
  let row := settled_run now r state reason settled released count (run_ref debit_prefix community run) in
  let? w := put_run (community, run) row w in
  Ok (w, Some row).

(** ** What ends a run *)

(** [UPDATE discovery_run_sources SET status='cancelled' ... status IN
    ('pending','active')] on the sources [p] picks. *)
Definition cancel_sources (p : RunSource -> bool) (w : World) : World :=
  with_sources (List.map (fun s => if p s && negb (is_terminal_source_status (s_status s)) then
    {| s_community := s_community s; s_run := s_run s; s_provider := s_provider s;
       s_status := SCancelled; s_cursor := s_cursor s |} else s) (sources w)) w.

(** [require_paid_run_owner_tx]. *)
Definition require_paid_run_owner_tx (community run actor : string) (w : World) : Result unit DbError :=
  let? r := ok_or (runs w !! (community, run)) (NotFound "Discovery run") in
  if negb (r_protocol r =? DISCOVERY_HOSTED_GATEWAY_PROTOCOL_VERSION) then Ok tt else
  let? payer := ok_or (r_payer r) Sqlx in
  fail_if negb (String.eqb payer actor) && negb (owned_agent community actor payer w)
    with AccessDenied "Only the Campaign payer or their owned agent can cancel paid Discovery";
  Ok tt.

(** A run of protocol 1 or 2, stopped. *)
Definition stopped_run (r : Run) (reason : TerminalReason) : Run :=
  {| r_campaign := r_campaign r; r_requested_by := r_requested_by r; r_state := Cancelled;
     r_reason := Some reason; r_lease := None; r_protocol := r_protocol r; r_payer := r_payer r;
     r_price := r_price r; r_limit := r_limit r; r_reserved := r_reserved r; r_settled := r_settled r;
     r_released := r_released r; r_billed := r_billed r; r_ref := r_ref r;
     r_settled_at := r_settled_at r |}.

(** [request_discovery_cancel], and the [Cancel] command of
    [apply_discovery_command_once]. *)
Definition cancel_run_tx `{CampaignLib} (now : Z) (community run actor : string) (w : World)
    : Result (World * Run) DbError :=
  let? _ := require_discovery_authorized_tx now community actor w in
  let? _ := require_paid_run_owner_tx community run actor w in
  let open := match runs w !! (community, run) with Some r => negb (is_terminal (r_state r)) | None => false end in
  let w := cancel_sources (fun s => open && of_run community run s) w in
  let? s := settle_paid_run_tx now community run None Cancelled (Some CancelledByActor) w in
  match s with
  | (w, Some r) => Ok (w, r)
  | (w, None) =>
      let? r := ok_or (runs w !! (community, run)) (NotFound "Discovery run") in
      if is_terminal (r_state r) then Ok (w, r)
      else let r := stopped_run r CancelledByActor in
           let? w := put_run (community, run) r w in Ok (w, r)
  end.

(** The settlements of a list of runs, one after the other. *)
Fixpoint settle_each `{CampaignLib} (now : Z) (community : string) (ids : list string) (w : World)
    : Result World DbError :=
  match ids with
  | [] => Ok w
  | run :: rest =>
      let? r := settle_paid_run_tx now community run None Cancelled (Some EntitlementRevoked) w in
      settle_each now community rest (fst r)
  end.

(** The open paid runs of a community that [p] picks, [ORDER BY id]. *)
Definition open_paid_runs (p : Run -> bool) (community : string) (w : World) : list string :=
  sort_by String.leb (filter_map (fun kr : (string * string) * Run =>
    if String.eqb (fst (fst kr)) community && (r_protocol (snd kr) =? 3)
       && negb (is_terminal (r_state (snd kr))) && p (snd kr)
    then Some (snd (fst kr)) else None) (map_to_list (runs w))).

(** [set_discovery_entitlement], once the community is locked. *)
Definition set_discovery_entitlement_tx `{CampaignLib} (now : Z) (community : string) (on : bool) (w : World)
    : Result World DbError :=
  let w := with_entitlements (<[community := (on, None)]> (entitlements w)) w in
  if on then Ok w else
  let w := cancel_sources (fun s => String.eqb (s_community s) community
             && match runs w !! (community, s_run s) with
                | Some r => negb (is_terminal (r_state r)) | None => false end) w in
  let? w := settle_each now community (open_paid_runs (fun _ => true) community w) w in
  Ok (with_runs (map_imap (fun k r =>
        Some (if String.eqb (fst k) community && (r_protocol r <? 3) && negb (is_terminal (r_state r))
              then stopped_run r EntitlementRevoked else r)) (runs w)) w).

(** A paid run nobody may pay for any more. *)
Definition unauthorized_run (now : Z) (community : string) (w : World) (r : Run) : bool :=
  negb (entitled now community w)
  || match r_payer r with
     | Some payer => negb (is_human community payer w && is_member community payer w)
     | None => true
     end.
(** One community of [reap_unauthorized_paid_discovery_runs]. *)
Definition reap_community_tx `{CampaignLib} (now : Z) (community : string) (w : World)
    : Result World DbError :=
  let ids := open_paid_runs (unauthorized_run now community w) community w in
  let w := cancel_sources (fun s => String.eqb (s_community s) community
                                    && existsb (String.eqb (s_run s)) ids) w in
  settle_each now community ids w.

(** ** Workers *)

(** A run with another lease, in a state. *)
Definition leased_run (r : Run) (state : RunState) (reason : option TerminalReason) (lease : option Lease) : Run :=
  {| r_campaign := r_campaign r; r_requested_by := r_requested_by r; r_state := state; r_reason := reason;
     r_lease := lease; r_protocol := r_protocol r; r_payer := r_payer r; r_price := r_price r;
     r_limit := r_limit r; r_reserved := r_reserved r; r_settled := r_settled r;
     r_released := r_released r; r_billed := r_billed r; r_ref := r_ref r;
     r_settled_at := r_settled_at r |}.

(** The [Claim] arm of [apply_worker_action_tx] on the run it picks, for a
    worker of protocol 3. Which candidate is picked is left open. *)
Definition claim_run_tx (now : Z) (community run actor : string) (lease : Lease) (w : World)
    : Result World DbError :=
  match runs w !! (community, run) with
  | Some r =>
      if negb (is_terminal (r_state r)) && (r_protocol r =? 3)
         && match r_lease r with None => true | Some l => lease_until l <? now end
         && (String.eqb (r_requested_by r) actor || owned_agent community (r_requested_by r) actor w)
         && existsb (of_run community run) (sources w)
      then put_run (community, run) (leased_run r Running (r_reason r) (Some lease)) w
      else Ok w
  | None => Ok w
  end.

(** [Heartbeat], and the lease a progress report renews. *)
Definition renew_lease_tx (now : Z) (community run : string) (guard : string * string * string)
    (until : Z) (w : World) : Result World DbError :=
  match runs w !! (community, run) with
  | Some r =>
      match r_lease r with
      | Some l =>
          if worker_lease_matches now r guard
          then put_run (community, run) (leased_run r (r_state r) (r_reason r)
                 (Some {| claim_id := claim_id l; lease_until := until; worker_id := worker_id l;
                          lease_owner := lease_owner l |})) w
          else Ok w
      | None => Ok w
      end
  | None => Err (NotFound "Discovery run")
  end.

(** [source_transition_allowed]. *)
Definition source_transition_allowed (current next : SourceStatus) : bool :=
  match current with
  | SPending => match next with SActive | SCancelled | SSkippedTargetMet => true | _ => false end
  | SActive => negb (bool_decide (next = SPending))
  | _ => bool_decide (current = next)
  end.
(** What a progress report does to the status of one source. *)
Definition report_source_tx (community run provider : string) (next : SourceStatus) (w : World)
    : Result World DbError :=
  match find (fun s => of_run community run s && String.eqb (s_provider s) provider) (sources w) with
  | None => Err (InvalidData "Discovery progress provider is not in the run plan")
  | Some s0 =>
      fail_if negb (source_transition_allowed (s_status s0) next)
        with InvalidData "Discovery source transition";
      Ok (with_sources (List.map (fun s =>
            if of_run community run s && String.eqb (s_provider s) provider
            then {| s_community := s_community s; s_run := s_run s; s_provider := s_provider s;
                    s_status := next; s_cursor := s_cursor s |} else s) (sources w)) w)
  end.

(** [require_worker_lease_protocol_tx] on a row whose lease was taken by a
    worker of the run's own protocol; [action] is the protocol of the event. *)
Definition require_worker_lease_protocol (r : option Run) (lease : string) (action : option Z)
    : Result Z DbError :=
  let? a := ok_or action (AccessDenied "Discovery worker action has no protocol") in
  match r with
  | Some r =>
      match r_lease r with
      | Some l =>
          fail_if negb (String.eqb (claim_id l) lease)
            with AccessDenied "Discovery worker lease is missing its protocol fence";
          fail_if negb ((r_protocol r =? a) || ((r_protocol r =? 3) && (a =? 2)))
            with AccessDenied "Discovery worker action protocol does not match the current lease";
          Ok (r_protocol r)
      | None => Err (AccessDenied "Discovery worker lease is missing its protocol fence")
      end
  | None => Err (AccessDenied "Discovery worker lease is missing its protocol fence")
  end.

Inductive FinishOutcome := Finished (r : Run) | LostLease (r : Run).

(** The [Fail] and [Complete] arms of [apply_worker_action_tx]. *)
Definition finish_run_tx `{CampaignLib} (now : Z) (community run : string)
    (guard : string * string * string) (action : option Z) (state : RunState)
    (reason : option TerminalReason) (w : World) : Result (World * FinishOutcome) DbError :=
  let? version := require_worker_lease_protocol (runs w !! (community, run)) (snd guard) action in
  let? s := settle_paid_run_tx now community run (Some guard) state reason w in
  match s with
  | (w, Some r) => Ok (w, Finished r)
  | (w, None) =>
      let? r := ok_or (runs w !! (community, run)) (NotFound "Discovery run") in
      if negb (worker_lease_matches now r guard) then Ok (w, LostLease r) else
      fail_if negb (version =? 1) && negb (sources_terminal community run w)
        with InvalidData "all Discovery sources must be terminal";
      let r := leased_run r state reason None in
      let? w := put_run (community, run) r w in
      Ok (w, Finished r)
  end.

(** ** Leads *)

Definition same_digest (a b : option string) : bool :=
  match a, b with Some x, Some y => String.eqb x y | _, _ => false end.
(** The stored Lead of the same provider record. *)
Definition exact_lead (community : string) (o : Observation) (l : Lead) : bool :=
  String.eqb (l_community l) community && String.eqb (ob_provider (l_observation l)) (ob_provider o)
  && String.eqb (ob_record (l_observation l)) (ob_record o).
(** A stored Lead that is the same business by a digest. *)
Definition duplicate_lead (community : string) (o : Observation) (l : Lead) : bool :=
  String.eqb (l_community l) community
  && (same_digest (ob_domain (l_observation l)) (ob_domain o)
      || same_digest (ob_phone (l_observation l)) (ob_phone o)
      || same_digest (ob_name (l_observation l)) (ob_name o)).
Definition lead_leb (a b : Lead) : bool :=
  (l_at a <? l_at b) || ((l_at a =? l_at b) && String.leb (ob_id (l_observation a)) (ob_id (l_observation b))).

Definition same_campaign_lead (community campaign lead : string) (l : CampaignLead) : bool :=
  String.eqb (cl_community l) community && String.eqb (cl_campaign l) campaign
  && String.eqb (cl_lead l) lead.
(** [associate_campaign_lead_tx]: whether a row was written. *)
Definition associate_campaign_lead (community run lead : string) (w : World) : World * bool :=
  match runs w !! (community, run) with
  | None => (w, false)
  | Some r =>
      if existsb (same_campaign_lead community (r_campaign r) lead) (campaign_leads w) then (w, false)
      else (with_leads (leads w) (campaign_leads w ++
              [{| cl_community := community; cl_campaign := r_campaign r; cl_lead := lead; cl_run := run |}]) w,
            true)
  end.

Record InsertOutcome := { new_lead : bool; new_campaign_lead : bool }.

(** [insert_business_observation_tx]; the table's trigger writes the Campaign's
    row of a new Lead. *)
Definition insert_business_observation_tx (now : Z) (community run : string) (o : Observation) (w : World)
    : Result (World * InsertOutcome) DbError :=
  let old (lead : string) : Result (World * InsertOutcome) DbError :=
    let (w, added) := associate_campaign_lead community run lead w in
    Ok (w, {| new_lead := false; new_campaign_lead := added |}) in
  match find (exact_lead community o) (leads w) with
  | Some l => old (ob_id (l_observation l))
  | None =>
      match sort_by lead_leb (List.filter (duplicate_lead community o) (leads w)) with
      | l :: _ => old (ob_id (l_observation l))
      | [] =>
          if existsb (fun l => String.eqb (l_community l) community
                               && String.eqb (ob_id (l_observation l)) (ob_id o)) (leads w)
          then Err (AccessDenied "Discovery observation identity conflicts with an existing business")
          else
            let w := with_leads (leads w ++
                       [{| l_community := community; l_first_run := run; l_observation := o; l_at := now |}])
                       (campaign_leads w) w in
            let (w, _) := associate_campaign_lead community run (ob_id o) w in
            Ok (w, {| new_lead := true; new_campaign_lead := true |})
      end
  end.

(** ** Provider responses *)

(** The loop of [record_discovery_gateway_response] over the observations: it
    stops once the run has added the Leads it may still bill. *)
Fixpoint store_observations (now : Z) (community run provider : string) (remaining : Z)
    (observations stored : list Observation) (added : Z) (w : World)
    : Result (World * list Observation) DbError :=
  match observations with
  | [] => Ok (w, stored)
  | o :: rest =>
      if (added =? remaining) || Nat.eqb (length stored) 500 then Ok (w, stored)
      else
        fail_if negb (String.eqb (ob_provider o) provider)
          with AccessDenied "Discovery provider response contains another provider";
        fail_if negb (ob_valid o) with InvalidData "observation";
        let? r := insert_business_observation_tx now community run o w in
        if new_campaign_lead (snd r)
        then store_observations now community run provider remaining rest (stored ++ [o]) (added + 1) (fst r)
        else store_observations now community run provider remaining rest stored added (fst r)
  end.

Inductive StoredResponse := RPending (request_id : string) | RReady (request_id : string) (obs : list Observation).

Definition same_attempt (community run provider : string) (a : Attempt) : bool :=
  String.eqb (a_community a) community && String.eqb (a_run a) run && String.eqb (a_provider a) provider.
Definition set_attempt (community run provider : string) (status : AttemptStatus) (request_id : string)
    (obs : list Observation) (w : World) : World :=
  with_attempts (List.map (fun a => if same_attempt community run provider a then
    {| a_community := a_community a; a_run := a_run a; a_provider := a_provider a; a_payer := a_payer a;
       a_intent := a_intent a; a_request_id := Some request_id; a_status := status;
       a_observations := obs; a_created_at := a_created_at a |} else a) (attempts w)) w.
Definition set_cursor (community run provider cursor : string) (w : World) : World :=
  with_sources (List.map (fun s =>
    if of_run community run s && String.eqb (s_provider s) provider
    then {| s_community := s_community s; s_run := s_run s; s_provider := s_provider s;
            s_status := s_status s; s_cursor := Some cursor |} else s) (sources w)) w.
Definition source_of (community run provider : string) (w : World) : option RunSource :=
  find (fun s => of_run community run s && String.eqb (s_provider s) provider) (sources w).

(** The state a response may still be stored in. *)
Definition response_allowed (now : Z) (community actor lease : string) (r : Run) (c : CampaignRow) (w : World)
    : bool :=
  bool_decide (r_state r = Running) && (r_protocol r =? DISCOVERY_HOSTED_GATEWAY_PROTOCOL_VERSION)
  && match r_lease r with
     | Some l => String.eqb (claim_id l) lease && (now <? lease_until l) && String.eqb (lease_owner l) actor
     | None => false
     end
  && match r_reserved r with Some n => (0 <? n) && (n <=? c_reserved c) | None => false end
  && negb (is_some (r_settled_at r))
  && (bool_decide (c_state c = BActive) || bool_decide (c_state c = BPaused) || bool_decide (c_state c = BExhausted))
  && is_some (c_payer c) && bool_decide (c_payer c = r_payer r) && entitled now community w.

(** The Leads a run has put in its Campaign. *)
Definition discovered_count (community campaign run : string) (w : World) : Z :=
  Z.of_nat (length (List.filter (fun l => String.eqb (cl_community l) community
      && String.eqb (cl_campaign l) campaign && String.eqb (cl_run l) run) (campaign_leads w))).

(** [record_discovery_gateway_response]. *)
Definition record_response_tx (now : Z) (community actor run lease provider expected request_id : string)
    (observations : option (list Observation)) (w : World) : Result (World * StoredResponse) DbError :=
  let? a := ok_or (find (same_attempt community run provider) (attempts w))
              (AccessDenied "Discovery provider request is not fenced") in
  if bool_decide (a_status a = AReady) then
    let? id := ok_or (a_request_id a) (InvalidData "Stored Discovery response has no provider ID") in
    Ok (w, RReady id (a_observations a))
  else if bool_decide (a_status a = APending) && bool_decide (a_request_id a = Some request_id)
          && negb (is_some observations)
  then Ok (w, RPending request_id)
  else
    let cursor := s ← source_of community run provider w; s_cursor s in
    fail_if negb (bool_decide (cursor = Some expected)
                  && ((bool_decide (a_status a = AIntent) && String.eqb (a_intent a) expected)
                      || (bool_decide (a_status a = APending) && bool_decide (a_request_id a = Some expected))))
      with AccessDenied "Discovery provider response conflicts with committed state";
    match observations with
    | None =>
        Ok (set_attempt community run provider APending request_id (a_observations a)
              (set_cursor community run provider request_id w), RPending request_id)
    | Some obs =>
        let? r := ok_or (runs w !! (community, run)) Sqlx in
        let? c := ok_or (campaigns w !! (community, r_campaign r)) Sqlx in
        fail_if negb (response_allowed now community actor lease r c w)
          with AccessDenied "Discovery hosted provider response lease is no longer active";
        let? limit := ok_or (r_limit r) Sqlx in
        let remaining := limit - discovered_count community (r_campaign r) run w in
        fail_if (remaining <? 0) || (65535 <? remaining)
          with InvalidData "Discovery hosted provider capacity is invalid";
        let? s := store_observations now community run provider remaining obs [] 0 w in
        match s with
        | (w, stored) =>
            Ok (set_attempt community run provider AReady request_id stored
                  (set_cursor community run provider request_id w), RReady request_id stored)
        end
    end.

(** The sources planned before a provider's. *)
Fixpoint earlier_sources (provider : string) (l : list RunSource) : list RunSource :=
  match l with
  | [] => []
  | s :: rest => if String.eqb (s_provider s) provider then [] else s :: earlier_sources provider rest
  end.

(** [fence_discovery_gateway_submission]: whether the request may leave. *)
Definition fence_allowed (now : Z) (community actor run lease provider : string) (r : Run) (c : CampaignRow)
    (w : World) : bool :=
  let earlier := earlier_sources provider (List.filter (of_run community run) (sources w)) in
  match source_of community run provider w with
  | Some s => negb (is_some (s_cursor s)) && negb (is_terminal_source_status (s_status s))
  | None => false
  end
  && bool_decide (r_state r = Running) && (r_protocol r =? DISCOVERY_HOSTED_GATEWAY_PROTOCOL_VERSION)
  && match r_lease r with
     | Some l => String.eqb (claim_id l) lease && (now <? lease_until l) && String.eqb (lease_owner l) actor
     | None => false
     end
  && match r_reserved r with Some n => 0 <? n | None => false end
  && (bool_decide (c_state c = BActive) || bool_decide (c_state c = BPaused) || bool_decide (c_state c = BExhausted))
  && forallb (fun s => is_terminal_source_status (s_status s)) earlier
  && is_human community actor w && is_member community actor w && entitled now community w
  && (Z.of_nat (length (List.filter (fun a => bool_decide (Some (a_payer a) = r_payer r)
        && (now - 86400 <? a_created_at a)) (attempts w))) <? 60).
Definition fence_submission_tx (now : Z) (community actor run lease provider fence : string) (w : World)
    : World * bool :=
  match runs w !! (community, run) with
  | None => (w, false)
  | Some r =>
      match campaigns w !! (community, r_campaign r), r_payer r with
      | Some c, Some payer =>
          if fence_allowed now community actor run lease provider r c w
             && negb (existsb (same_attempt community run provider) (attempts w))
          then (with_sources (List.map (fun s =>
                  if of_run community run s && String.eqb (s_provider s) provider
                  then {| s_community := s_community s; s_run := s_run s; s_provider := s_provider s;
                          s_status := SActive; s_cursor := Some fence |} else s) (sources w))
                (with_attempts (attempts w ++
                  [{| a_community := community; a_run := run; a_provider := provider; a_payer := payer;
                      a_intent := fence; a_request_id := None; a_status := AIntent; a_observations := [];
                      a_created_at := now |}]) w), true)
          else (w, false)
      | _, _ => (w, false)
      end
  end.
