(* ===== verification/EscrowFacts.v ===== *)
(** * Facts of budgets and paid runs

    The invariant that ties the Campaigns' budgets, the runs, the ledger and the
    Leads together, and that every transaction of [Escrow] keeps. *)

From Stdlib Require Import ZArith Lia Ascii.
From stdpp Require Import base gmap list strings numbers relations.
From S2P Require Import Prelude MachineInt RustStr Credits CreditsFacts Campaign Escrow.
Local Open Scope Z_scope.

(** What the identifiers rely on: the text of a [Uuid] determines it and has no
    colon, and 32 bytes are 64 lowercase hex digits. *)
Class CampaignLaws `{CampaignLib} := {
  uuid_text_inj : forall u v, uuid_text u = uuid_text v -> u = v;
  uuid_text_colon : forall u, str_contains ":" (uuid_text u) = false;
  hex_encode_ok : forall b, octet_length b = 32 -> hex_id_ok (hex_encode b) = true;
}.

Notation Key := (string * string)%type.

(** ** Sums over runs *)

Definition map_sum (f : Key -> Run -> Z) (m : gmap Key Run) : Z :=
  zsum (fun kr => f (fst kr) (snd kr)) (map_to_list m).

Lemma map_sum_insert_new f m k r :
  m !! k = None -> map_sum f (<[k := r]> m) = f k r + map_sum f m.
Proof. intros Hk. unfold map_sum. by rewrite (zsum_perm _ _ _ (map_to_list_insert m k r Hk)). Qed.

Lemma map_sum_insert f m k r0 r :
  m !! k = Some r0 -> map_sum f (<[k := r]> m) = map_sum f m - f k r0 + f k r.
Proof.
  intros Hk. rewrite <- (insert_id m k r0 Hk) at 2. rewrite <- (insert_delete_eq m k r), <- (insert_delete_eq m k r0).
  rewrite !map_sum_insert_new by apply lookup_delete_eq. lia.
Qed.

Lemma map_sum_ext f g m : (forall k r, m !! k = Some r -> f k r = g k r) -> map_sum f m = map_sum g m.
Proof. intros H. apply zsum_ext. intros [k r] Hin%elem_of_map_to_list. by apply H. Qed.

Lemma map_sum_imap f (g : Key -> Run -> Run) m :
  map_sum f (map_imap (fun k r => Some (g k r)) m) = map_sum (fun k r => f k (g k r)) m.
Proof.
  induction m as [|k r m Hk IH] using map_ind; [by rewrite map_imap_empty|].
  rewrite (map_imap_insert_Some _ k r m (g k r)) by done.
  rewrite !map_sum_insert_new; [by rewrite IH|done|]. by rewrite map_lookup_imap, Hk.
Qed.

(** ** What a run holds and what it cost *)

Definition paid (r : Run) : bool := r_protocol r =? 3.
Definition settledb (r : Run) : bool := is_some (r_settled_at r).
Definition open_hold (r : Run) : Z := if settledb r then 0 else default 0 (r_reserved r).
Definition spent_by (r : Run) : Z := default 0 (r_settled r).
(** The part of [f] that belongs to a Campaign. *)
Definition of_campaign (ck : Key) (f : Run -> Z) (k : Key) (r : Run) : Z :=
  if String.eqb (fst k) (fst ck) && String.eqb (r_campaign r) (snd ck) then f r else 0.

(** The ledger rows of a run, and what they sum to. *)
Definition row_of_run (k : Key) (e : LedgerEntry) : bool :=
  match discovery e with
  | Some d => String.eqb (charge_community d) (fst k) && String.eqb (charge_run d) (snd k)
  | None => false
  end.
Definition run_net (k : Key) (l : list LedgerEntry) : Z := zsum delta (List.filter (row_of_run k) l).
Arguments run_net : simpl never.

(** References of the three rows of a run. *)
Section Refs.
Context `{CampaignLaws}.

Definition is_run_ref (prefix : string) (k : Key) (ref : string) : Prop := ref = run_ref prefix (fst k) (snd k).

Lemma run_ref_inj p c r c' r' : run_ref p c r = run_ref p c' r' -> c = c' /\ r = r'.
Proof.
  unfold run_ref. intros Heq. apply append_inj_prefix in Heq as [_ Heq]; [|done].
  apply (joined_key_inj ":") in Heq as [Hc Hr]; [|apply uuid_text_colon..].
  split; by apply uuid_text_inj.
Qed.

Lemma refs_apart c r c' r' :
  run_ref hold_prefix c r <> run_ref release_prefix c' r'
  /\ run_ref hold_prefix c r <> run_ref debit_prefix c' r'
  /\ run_ref release_prefix c r <> run_ref debit_prefix c' r'.
Proof. unfold run_ref, hold_prefix, release_prefix, debit_prefix. cbn. by split_and!; intros [=]. Qed.

(** The references under which the reservation of a run returns and its Leads are
    charged, and whether an entry of another service bears one. The gateway takes
    the response ids of its provider as references, whatever they are. *)
Definition closing_ref (k : Key) (ref : string) : bool :=
  String.eqb ref (run_ref release_prefix (fst k) (snd k)) || String.eqb ref (run_ref debit_prefix (fst k) (snd k)).
Definition taken (k : Key) (pk : string) (l : list LedgerEntry) : bool :=
  existsb (fun e => negb (is_some (discovery e)) && String.eqb (pubkey e) pk && closing_ref k (reference e)) l.
Lemma taken_app k pk l l' : taken k pk (l ++ l') = taken k pk l || taken k pk l'.
Proof. apply existsb_app. Qed.
Lemma taken_discovery k pk l : (forall e, e ∈ l -> is_some (discovery e) = true) -> taken k pk l = false.
Proof. intros Hl. apply existsb_false. intros e He. by rewrite (Hl e He). Qed.
End Refs.

(** ** The invariant *)

(** Budgets: every row passes its checks, an active budget has room and an
    exhausted one none, reserved and spent are what the Campaign's runs hold and
    cost, and a paid run is paid by its Campaign's payer at its price. *)
Record budgets_ok (cs : gmap Key CampaignRow) (rs : gmap Key Run) : Prop := {
  bu_rows : forall k c, cs !! k = Some c -> campaign_row_ok c = true;
  bu_active : forall k c, cs !! k = Some c -> c_state c = BActive -> c_spent c + c_reserved c < c_approved c;
  bu_exhausted : forall k c, cs !! k = Some c -> c_state c = BExhausted -> c_spent c + c_reserved c = c_approved c;
  bu_approved : forall k c, cs !! k = Some c -> in_i64 (c_approved c) = true;
  bu_reserved : forall k c, cs !! k = Some c -> c_reserved c = map_sum (of_campaign k open_hold) rs;
  bu_spent : forall k c, cs !! k = Some c -> c_spent c = map_sum (of_campaign k spent_by) rs;
  bu_runs : forall k r, rs !! k = Some r -> run_row_ok r = true;
  bu_payer : forall k r, rs !! k = Some r -> paid r = true ->
    exists c, cs !! (fst k, r_campaign r) = Some c /\ c_payer c = r_payer r /\ c_price c = r_price r;
}.

(** The ledger: Discovery rows belong to paid runs under their own references,
    and the rows of a run sum to what it holds or cost, unless another service
    took its closing references. *)
Record ledger_ok `{CampaignLib} (l : list LedgerEntry) (rs : gmap Key Run) : Prop := {
  le_rows : forall e d, e ∈ l -> discovery e = Some d ->
    exists r, rs !! (charge_community d, charge_run d) = Some r /\ paid r = true
      /\ r_payer r = Some (pubkey e)
      /\ (kind e = "hold"%string /\ reference e = run_ref hold_prefix (charge_community d) (charge_run d)
          \/ settledb r = true
             /\ (reference e = run_ref release_prefix (charge_community d) (charge_run d)
                 \/ reference e = run_ref debit_prefix (charge_community d) (charge_run d)));
  le_net : forall k r payer, rs !! k = Some r -> paid r = true -> r_payer r = Some payer ->
    taken k payer l = false ->
    run_net k l = if settledb r then - spent_by r else - default 0 (r_reserved r);
}.

(** The Leads: what is linked exists, a paid run has kept no more Leads than it
    discovered and discovered no more than it may bill, and a settled run was
    billed for what it kept. *)
Definition retained (k : Key) (ls : list Lead) : Z :=
  Z.of_nat (length (List.filter (fun l => String.eqb (l_community l) (fst k)
                                          && String.eqb (l_first_run l) (snd k)) ls)).
Definition discovered (k : Key) (campaign : string) (cls : list CampaignLead) : Z :=
  Z.of_nat (length (List.filter (fun l => String.eqb (cl_community l) (fst k)
      && String.eqb (cl_campaign l) campaign && String.eqb (cl_run l) (snd k)) cls)).
Record leads_ok (ls : list Lead) (cls : list CampaignLead) (rs : gmap Key Run) : Prop := {
  ld_run : forall l, l ∈ ls -> is_Some (rs !! (l_community l, l_first_run l));
  ld_link_run : forall l, l ∈ cls -> is_Some (rs !! (cl_community l, cl_run l));
  ld_link_lead : forall l, l ∈ cls ->
    exists l', l' ∈ ls /\ l_community l' = cl_community l /\ ob_id (l_observation l') = cl_lead l;
  ld_kept : forall k r, rs !! k = Some r -> paid r = true ->
    retained k ls <= discovered k (r_campaign r) cls
    /\ discovered k (r_campaign r) cls <= default 0 (r_limit r);
  ld_billed : forall k r, rs !! k = Some r -> settledb r = true -> r_billed r = Some (retained k ls);
}.

Record world_ok `{CampaignLib} (w : World) : Prop := {
  wo_money : tables_ok (money w);
  wo_budgets : budgets_ok (campaigns w) (runs w);
  wo_ledger : ledger_ok (ledger (book (money w))) (runs w);
  wo_leads : leads_ok (leads w) (campaign_leads w) (runs w);
  wo_accounts : forall k r payer, runs w !! k = Some r -> paid r = true -> r_payer r = Some payer ->
    is_Some (accounts (book (money w)) !! payer);
}.

Lemma campaign_row_facts c :
  campaign_row_ok c = true -> 0 <= c_spent c /\ 0 <= c_reserved c /\ c_spent c + c_reserved c <= c_approved c.
Proof. unfold campaign_row_ok. rewrite !andb_true_iff, !Z.leb_le. naive_solver. Qed.

(** A paid run, opened. *)
Lemma paid_row r :
  run_row_ok r = true -> paid r = true ->
  exists payer price limit, r_payer r = Some payer /\ r_price r = Some price /\ r_limit r = Some limit
  /\ r_reserved r = Some (price * limit) /\ 0 < price /\ 1 <= limit <= 500
  /\ (settledb r = false /\ is_terminal (r_state r) = false /\ r_settled r = None
      \/ settledb r = true /\ is_terminal (r_state r) = true /\ exists billed, r_billed r = Some billed
         /\ r_settled r = Some (price * billed) /\ 0 <= billed <= limit
         /\ r_released r = Some (price * limit - price * billed)).
Proof.
  unfold run_row_ok, paid. rewrite Z.eqb_eq. intros H Hp. rewrite Hp in H. cbn in H.
  destruct (r_payer r) as [payer|]; [|by rewrite andb_false_r in H].
  destruct (r_price r) as [price|]; [|by rewrite andb_false_r in H].
  destruct (r_limit r) as [limit|]; [|by rewrite andb_false_r in H].
  destruct (r_reserved r) as [reserved|]; [|by rewrite andb_false_r in H].
  rewrite !andb_true_iff in H. destruct H as (_ & (((Hprice & Hl1) & Hl2) & Hres) & H).
  apply Z.ltb_lt in Hprice. apply Z.leb_le in Hl1, Hl2. apply Z.eqb_eq in Hres. subst reserved.
  exists payer, price, limit. split_and!; [done|done|done|done|lia|lia|lia|].
  unfold settledb. destruct (r_settled r), (r_released r), (r_billed r), (r_ref r), (r_settled_at r); try done.
  - right. rewrite !andb_true_iff in H. destruct H as ((((((Ht & H1) & H2) & H3) & H4) & H5) & H6).
    apply Z.eqb_eq in H5, H6. apply Z.leb_le in H1, H2, H3, H4. split_and!; [done|done|].
    eexists. split; [done|]. subst. split_and!; [done|lia|lia|f_equal; lia].
  - left. split_and!; [done| |done]. by apply negb_true_iff in H.
Qed.

Lemma unpaid_row r :
  run_row_ok r = true -> paid r = false ->
  r_payer r = None /\ r_reserved r = None /\ r_settled r = None /\ settledb r = false /\ r_limit r = None
  /\ r_billed r = None /\ r_price r = None.
Proof.
  unfold run_row_ok, paid, settledb. rewrite Z.eqb_neq. intros H Hp.
  destruct (Z.ltb_spec (r_protocol r) 3) as [Hlt|Hge].
  - rewrite !andb_true_iff in H. destruct H as (_ & H).
    destruct (r_payer r), (r_price r), (r_limit r), (r_reserved r), (r_settled r), (r_released r), (r_billed r),
      (r_ref r), (r_settled_at r); cbn in H; try (by destruct H as (?&?)); naive_solver.
  - rewrite !andb_true_iff, !Z.leb_le in H. lia.
Qed.

(** Two rows of a run that bill the same. *)
Definition same_bill (r r' : Run) : Prop :=
  r_campaign r' = r_campaign r /\ r_protocol r' = r_protocol r /\ r_payer r' = r_payer r
  /\ r_price r' = r_price r /\ r_limit r' = r_limit r /\ r_reserved r' = r_reserved r
  /\ r_settled r' = r_settled r /\ r_released r' = r_released r /\ r_billed r' = r_billed r
  /\ r_settled_at r' = r_settled_at r.
Lemma leased_same_bill r state reason lease : same_bill r (leased_run r state reason lease).
Proof. by unfold same_bill. Qed.
Lemma stopped_same_bill r reason : same_bill r (stopped_run r reason).
Proof. by unfold same_bill. Qed.
#[export] Hint Resolve leased_same_bill stopped_same_bill : core.

(** Runs replaced by rows that bill the same. *)
Definition same_bills (rs rs' : gmap Key Run) : Prop :=
  (forall k, rs !! k = None -> rs' !! k = None)
  /\ forall k r, rs !! k = Some r -> exists r', rs' !! k = Some r' /\ same_bill r r' /\ run_row_ok r' = true.

Lemma same_bills_back rs rs' k r' :
  same_bills rs rs' -> rs' !! k = Some r' -> exists r, rs !! k = Some r /\ same_bill r r' /\ run_row_ok r' = true.
Proof.
  intros [H1 H2] Hk. destruct (rs !! k) as [r|] eqn:Hr.
  - destruct (H2 k r Hr) as (r'' & Hk' & Hs & Hok). exists r. split; [done|]. by simplify_eq.
  - rewrite (H1 k Hr) in Hk. done.
Qed.

Lemma same_bills_sum rs rs' f g :
  same_bills rs rs' -> (forall k r r', same_bill r r' -> f k r = g k r') -> map_sum f rs = map_sum g rs'.
Proof.
  revert rs'. induction rs as [|k r rs Hk IH] using map_ind; intros rs' Hs Hf.
  - assert (rs' = ∅) as ->; [|done]. apply map_empty. intros k. by apply Hs.
  - destruct (proj2 Hs k r) as (r' & Hr' & Hb & Hok); [by rewrite lookup_insert_eq|].
    rewrite <- (insert_delete_id rs' k r' Hr').
    rewrite !map_sum_insert_new; [|by rewrite lookup_delete_eq|done].
    rewrite (Hf k r r' Hb). f_equal. apply IH; [|done]. split.
    + intros q Hq. destruct (decide (q = k)) as [->|Hne]; [by rewrite lookup_delete_eq|].
      rewrite lookup_delete_ne by done. apply Hs. by rewrite lookup_insert_ne.
    + intros q rq Hq. destruct (decide (q = k)) as [->|Hne]; [congruence|].
      rewrite lookup_delete_ne by done. apply (proj2 Hs). by rewrite lookup_insert_ne.
Qed.

Lemma same_bill_amounts r r' ck k :
  same_bill r r' -> of_campaign ck open_hold k r = of_campaign ck open_hold k r'
  /\ of_campaign ck spent_by k r = of_campaign ck spent_by k r'.
Proof.
  intros (H1 & _ & _ & _ & _ & H6 & H7 & _ & _ & H10).
  unfold of_campaign, open_hold, spent_by, settledb. by rewrite H1, H6, H7, H10.
Qed.

Lemma budgets_same cs rs rs' : same_bills rs rs' -> budgets_ok cs rs -> budgets_ok cs rs'.
Proof.
  intros Hs [H1 H2 H3 H3' H4 H5 H6 H7]. split; try done.
  - intros k c Hc. rewrite (H4 k c Hc). apply same_bills_sum; [done|].
    intros q r r' Hb. by apply same_bill_amounts.
  - intros k c Hc. rewrite (H5 k c Hc). apply same_bills_sum; [done|].
    intros q r r' Hb. by apply same_bill_amounts.
  - intros k r' Hr'. by destruct (same_bills_back _ _ _ _ Hs Hr') as (r & _ & _ & ?).
  - intros k r' Hr' Hp. destruct (same_bills_back _ _ _ _ Hs Hr') as (r & Hr & (Hb1 & Hb2 & Hb3 & Hb4 & _) & _).
    rewrite Hb1, Hb3, Hb4. apply H7; [done|]. unfold paid in *. by rewrite <- Hb2.
Qed.

Lemma ledger_same `{CampaignLib} l rs rs' : same_bills rs rs' -> ledger_ok l rs -> ledger_ok l rs'.
Proof.
  intros Hs [H2 H3]. split.
  - intros e d He Hd. destruct (H2 e d He Hd) as (r & Hr & Hp & Hpay & Hk).
    destruct (proj2 Hs _ _ Hr) as (r' & Hr' & Hb & _).
    exists r'. split; [done|]. destruct Hb as (_ & Hb2 & Hb3 & _ & _ & _ & _ & _ & _ & Hb10).
    unfold paid, settledb in *. by rewrite Hb2, Hb3, Hb10.
  - intros k r' payer Hr' Hp Hpay Ht. destruct (same_bills_back _ _ _ _ Hs Hr') as (r & Hr & Hb & _).
    destruct Hb as (_ & Hb2 & Hb3 & _ & _ & Hb6 & Hb7 & _ & _ & Hb10).
    unfold paid, settledb, spent_by in *. rewrite Hb6, Hb7, Hb10.
    apply (H3 k r payer Hr); [by rewrite <- Hb2|by rewrite <- Hb3|done].
Qed.

Lemma leads_same ls cls rs rs' : same_bills rs rs' -> leads_ok ls cls rs -> leads_ok ls cls rs'.
Proof.
  intros Hs [H1 H2 H3 H4 H5].
  assert (forall k, is_Some (rs !! k) -> is_Some (rs' !! k)) as Hdom.
  { intros k [r Hr]. destruct (proj2 Hs _ _ Hr) as (r' & Hr' & _). eauto. }
  split; [auto|auto|done| |].
  - intros k r' Hr' Hp. destruct (same_bills_back _ _ _ _ Hs Hr') as (r & Hr & (-> & Hb2 & _ & _ & -> & _) & _).
    apply H4; [done|]. unfold paid in *. by rewrite <- Hb2.
  - intros k r' Hr' Hst. destruct (same_bills_back _ _ _ _ Hs Hr') as (r & Hr & Hb & _).
    destruct Hb as (_ & _ & _ & _ & _ & _ & _ & _ & -> & Hb10). apply H5; [done|].
    unfold settledb in *. by rewrite <- Hb10.
Qed.

(** The world after such a change. *)
Lemma world_same `{CampaignLib} w rs' : same_bills (runs w) rs' -> world_ok w -> world_ok (with_runs rs' w).
Proof.
  intros Hs [H1 H2 H3 H4 H5]. split; cbn; [done|by eapply budgets_same|by eapply ledger_same|by eapply leads_same|].
  - intros k r' payer Hr' Hp Hpay. destruct (same_bills_back _ _ _ _ Hs Hr') as (r & Hr & (_ & Hb2 & Hb3 & _) & _).
    apply (H5 k r payer Hr); [unfold paid in *; by rewrite <- Hb2 | by rewrite <- Hb3].
Qed.

Lemma put_run_same `{CampaignLib} k r r' w w' :
  put_run k r' w = Ok w' -> runs w !! k = Some r -> same_bill r r' -> world_ok w -> world_ok w'.
Proof.
  unfold put_run. intros H0 Hr Hb Hw. destruct (negb _) eqn:Hok; [done|]. injection H0 as <-.
  apply negb_false_iff in Hok. apply world_same; [|done]. split.
  - intros q Hq. by rewrite lookup_insert_ne by congruence.
  - intros q rq Hq. destruct (decide (q = k)) as [->|Hne].
    + rewrite lookup_insert_eq. simplify_eq. eauto.
    + rewrite lookup_insert_ne by done. exists rq. split_and!; [done|by unfold same_bill|].
      by apply (bu_runs _ _ (wo_budgets w Hw) q).
Qed.

(** ** Money steps of the other services *)

Lemma run_net_app k l1 l2 : run_net k (l1 ++ l2) = run_net k l1 + run_net k l2.
Proof. unfold run_net. by rewrite List.filter_app, zsum_app. Qed.
Lemma run_net_foreign k l : (forall e, e ∈ l -> row_of_run k e = false) -> run_net k l = 0.
Proof. intros H. unfold run_net. by rewrite filterb_nil. Qed.
Lemma run_net_snoc k l e : run_net k (l ++ [e]) = run_net k l + if row_of_run k e then delta e else 0.
Proof.
  rewrite run_net_app. f_equal. unfold run_net. cbn. destruct (row_of_run k e); [|done].
  rewrite zsum_cons. unfold zsum. cbn. lia.
Qed.

Lemma ledger_foreign `{CampaignLib} l l' rs :
  ledger_ok l rs -> (forall e, e ∈ l' -> discovery e = None) -> ledger_ok (l ++ l') rs.
Proof.
  intros [H2 H3] Hl'. split.
  - intros e d [He|He]%elem_of_app Hd; [by apply H2|]. rewrite (Hl' e He) in Hd. done.
  - intros k r payer Hr Hp Hpay Ht. rewrite taken_app in Ht. apply orb_false_iff in Ht as [Ht _].
    rewrite run_net_app, (run_net_foreign k l'); [by rewrite Z.add_0_r, (H3 k r payer)|].
    intros e He. unfold row_of_run. by rewrite (Hl' e He).
Qed.

Lemma money_world_ok `{CampaignLib} w t' : money_step (money w) t' -> world_ok w -> world_ok (with_money t' w).
Proof.
  intros Hstep [H1 H2 H3 H4 H5]. destruct (money_step_extends _ _ Hstep H1) as (l & Hl & Hd).
  split; cbn; [by eapply money_step_ok|done| |done|].
  - rewrite Hl. by apply ledger_foreign.
  - intros k r payer Hr Hp Hpay. apply (money_step_accounts _ _ Hstep H1). by eapply H5.
Qed.

(** ** Budgets *)

Lemma put_campaign_world key c w w' : put_campaign key c w = Ok w' -> campaign_row_ok c = true /\ w' = with_campaigns (<[key := c]> (campaigns w)) w.
Proof. unfold put_campaign. destruct (negb _) eqn:E; [done|]. intros [= <-]. by apply negb_false_iff in E. Qed.
Lemma put_run_world key r w w' : put_run key r w = Ok w' -> run_row_ok r = true /\ w' = with_runs (<[key := r]> (runs w)) w.
Proof. unfold put_run. destruct (negb _) eqn:E; [done|]. intros [= <-]. by apply negb_false_iff in E. Qed.

(** The state of a budget agrees with its amounts. *)
Definition state_agrees (c : CampaignRow) : Prop :=
  (c_state c = BActive -> c_spent c + c_reserved c < c_approved c)
  /\ (c_state c = BExhausted -> c_spent c + c_reserved c = c_approved c)
  /\ in_i64 (c_approved c) = true.

(** A Campaign's budget replaced, its amounts following the runs. *)
Lemma budgets_put key c cs rs rs' :
  budgets_ok cs rs -> campaign_row_ok c = true -> state_agrees c ->
  c_reserved c = map_sum (of_campaign key open_hold) rs' ->
  c_spent c = map_sum (of_campaign key spent_by) rs' ->
  (forall k, k <> key -> map_sum (of_campaign k open_hold) rs' = map_sum (of_campaign k open_hold) rs
     /\ map_sum (of_campaign k spent_by) rs' = map_sum (of_campaign k spent_by) rs) ->
  (forall k r, rs' !! k = Some r -> run_row_ok r = true) ->
  (forall k r, rs' !! k = Some r -> paid r = true ->
     if bool_decide ((fst k, r_campaign r) = key) then c_payer c = r_payer r /\ c_price c = r_price r
     else exists r0 k0, rs !! k0 = Some r0 /\ paid r0 = true /\ fst k0 = fst k /\ r_campaign r0 = r_campaign r
            /\ r_payer r0 = r_payer r /\ r_price r0 = r_price r) ->
  budgets_ok (<[key := c]> cs) rs'.
Proof.
  intros [H1 H2 H3 H3' H4 H5 H6 H7] Hok (Ha & He & Hi) Hres Hsp Hoth Hrows Hpaid.
  split; try (intros k c'; rewrite lookup_insert_Some; intros [[<- <-]|[Hne Hc']]; by eauto).
  - intros k c'. rewrite lookup_insert_Some. intros [[<- <-]|[Hne Hc']]; [done|].
    rewrite (proj1 (Hoth k ltac:(done))). by apply H4.
  - intros k c'. rewrite lookup_insert_Some. intros [[<- <-]|[Hne Hc']]; [done|].
    rewrite (proj2 (Hoth k ltac:(done))). by apply H5.
  - done.
  - intros k r Hr Hp. specialize (Hpaid k r Hr Hp). case_bool_decide as Hkey.
    + rewrite Hkey. exists c. by rewrite lookup_insert_eq.
    + destruct Hpaid as (r0 & k0 & Hr0 & Hp0 & Hf & Hcamp & Hpay & Hpr).
      destruct (H7 k0 r0 Hr0 Hp0) as (c0 & Hc0 & Hc1 & Hc2). exists c0. rewrite Hf, Hcamp in Hc0.
      rewrite lookup_insert_ne by done. split_and!; [done|congruence|congruence].
Qed.

(** A budget changed without touching the runs. *)
Lemma budgets_put_same key c0 c cs rs :
  budgets_ok cs rs -> cs !! key = Some c0 -> campaign_row_ok c = true -> state_agrees c ->
  c_reserved c = c_reserved c0 -> c_spent c = c_spent c0 ->
  (c_payer c0 <> None -> c_payer c = c_payer c0) -> (c_price c0 <> None -> c_price c = c_price c0) ->
  budgets_ok (<[key := c]> cs) rs.
Proof.
  intros Hb Hc0 Hok Hst Hres Hsp Hpay Hpr. pose proof Hb as [H1 H2 H3 H3' H4 H5 H6 H7].
  apply budgets_put with (rs := rs); try done.
  - rewrite Hres. by apply H4.
  - rewrite Hsp. by apply H5.
  - intros k r Hr Hp. case_bool_decide as Hkey; [|by exists r, k].
    destruct (H7 k r Hr Hp) as (c1 & Hc1 & Hpc & Hprc). rewrite Hkey, Hc0 in Hc1. injection Hc1 as <-.
    destruct (paid_row r (H6 k r Hr) Hp) as (p & price & _ & Hp1 & Hp2 & _).
    rewrite Hp1, Hp2 in *. rewrite Hpay, Hpr by congruence. done.
Qed.

(** A change of the Campaigns alone. *)
Lemma world_campaigns `{CampaignLib} cs w :
  world_ok w -> budgets_ok cs (runs w) -> world_ok (with_campaigns cs w).
Proof. intros [H1 H2 H3 H4 H5] Hb. by split. Qed.
Lemma world_claims `{CampaignLib} cl w : world_ok w -> world_ok (with_claims cl w).
Proof. intros [H1 H2 H3 H4 H5]. by split. Qed.
Lemma world_sources `{CampaignLib} l w : world_ok w -> world_ok (with_sources l w).
Proof. intros [H1 H2 H3 H4 H5]. by split. Qed.
Lemma world_attempts `{CampaignLib} l w : world_ok w -> world_ok (with_attempts l w).
Proof. intros [H1 H2 H3 H4 H5]. by split. Qed.
Lemma world_entitlements `{CampaignLib} l w : world_ok w -> world_ok (with_entitlements l w).
Proof. intros [H1 H2 H3 H4 H5]. by split. Qed.
#[export] Hint Resolve world_claims world_sources world_attempts world_entitlements : core.

(** New books under the same Campaigns and runs. *)
Lemma world_book `{CampaignLib} b w :
  world_ok w -> book_ok b -> ledger b = ledger (book (money w)) ->
  (forall pk, is_Some (accounts (book (money w)) !! pk) -> is_Some (accounts b !! pk)) ->
  world_ok (with_money (with_book b (money w)) w).
Proof.
  intros [H1 H2 H3 H4 H5] Hb Hl Hacc. split; cbn; [by apply with_book_ok|done|by rewrite Hl|done|].
  intros k r payer Hr Hp Hpay. by eapply Hacc, H5.
Qed.

Lemma on_accounts_ok f w w' :
  on_accounts f w = Ok w' -> exists b, f (book (money w)) = Ok b /\ w' = with_money (with_book b (money w)) w.
Proof. unfold on_accounts. destruct (f _) as [b|]; cbn; [|done]. intros [= <-]. eauto. Qed.

Lemma ensure_world `{CampaignLib} pk w w' :
  on_accounts (ensure_account pk) w = Ok w' -> world_ok w ->
  world_ok w' /\ runs w' = runs w /\ campaigns w' = campaigns w /\ leads w' = leads w
  /\ campaign_leads w' = campaign_leads w /\ sources w' = sources w /\ claims w' = claims w
  /\ is_Some (accounts (book (money w')) !! pk) /\ ledger (book (money w')) = ledger (book (money w))
  /\ intents (money w') = intents (money w)
  /\ (forall q, account_or_new (book (money w')) q = account_or_new (book (money w)) q).
Proof.
  intros (b & Hb & ->)%on_accounts_ok Hw.
  destruct (ensure_account_ok _ _ _ Hb (to_book _ (wo_money w Hw))) as (Hbok & Hsome & Hl & Hoth & Hacc).
  split_and!; try done.
  - apply world_book; [done..|]. intros q Hq. destruct (decide (q = pk)) as [->|]; [done|by rewrite Hoth].
  - intros q. unfold account_or_new. cbn. destruct (decide (q = pk)) as [->|]; [|by rewrite Hoth].
    destruct Hacc as [->|[-> ->]]; done.
Qed.

Lemma of_campaign_zero ck f k r : f r = 0 -> of_campaign ck f k r = 0.
Proof. unfold of_campaign. intros ->. by destruct (_ && _). Qed.
Lemma map_sum_zero f m : (forall k r, m !! k = Some r -> f k r = 0) -> map_sum f m = 0.
Proof.
  intros H. rewrite (map_sum_ext f (fun _ _ => 0)) by done. unfold map_sum.
  induction (map_to_list m) as [|kr l IH]; [done|]. rewrite zsum_cons, IH. done.
Qed.

(** An unpaid run moves no money. *)
Lemma unpaid_zero r : run_row_ok r = true -> paid r = false -> open_hold r = 0 /\ spent_by r = 0.
Proof.
  intros Hok Hp. destruct (unpaid_row r Hok Hp) as (_ & H1 & H2 & H3 & _).
  unfold open_hold, spent_by. by rewrite H1, H2, H3.
Qed.

(** A Campaign that is not there has no paid run. *)
Lemma no_campaign_zero cs rs key :
  budgets_ok cs rs -> cs !! key = None ->
  map_sum (of_campaign key open_hold) rs = 0 /\ map_sum (of_campaign key spent_by) rs = 0.
Proof.
  intros Hb Hnone.
  assert (forall k r, rs !! k = Some r -> paid r = true -> (fst k, r_campaign r) <> key) as Hne.
  { intros k r Hr Hp Hk. destruct (bu_payer _ _ Hb k r Hr Hp) as (c & Hc & _). congruence. }
  assert (forall (f : Run -> Z), (forall r, run_row_ok r = true -> paid r = false -> f r = 0) ->
    map_sum (of_campaign key f) rs = 0) as Hz.
  { intros f Hf. apply map_sum_zero. intros k r Hr. destruct (paid r) eqn:Hp.
    - unfold of_campaign. specialize (Hne k r Hr Hp).
      destruct (String.eqb_spec (fst k) (fst key)) as [E1|]; [|done].
      destruct (String.eqb_spec (r_campaign r) (snd key)) as [E2|]; [|done].
      destruct Hne. rewrite E1, E2. by destruct key.
    - apply of_campaign_zero, Hf; [by apply (bu_runs _ _ Hb k)|done]. }
  split; apply Hz; intros r Hok Hp; by apply unpaid_zero.
Qed.

Lemma insert_campaign_ok `{CampaignLib} community campaign w w' :
  insert_campaign_tx community campaign w = Ok w' -> world_ok w -> world_ok w'.
Proof.
  unfold insert_campaign_tx. intros H0 Hw. destruct (map_err _ _); [|done]. cbn [rbind] in H0.
  destruct (is_some _) eqn:Hnone; [done|]. apply put_campaign_world in H0 as [Hok ->].
  destruct (campaigns w !! _) eqn:Hc in Hnone; [done|]. apply world_campaigns; [done|].
  pose proof (wo_budgets w Hw) as Hb. destruct (no_campaign_zero _ _ _ Hb Hc) as [Hz1 Hz2].
  eapply budgets_put; [exact Hb|done|by split_and!|by rewrite Hz1|by rewrite Hz2|done|apply Hb|].
  intros k r Hr Hp. case_bool_decide as Hkey; [|by exists r, k].
  destruct (bu_payer _ _ Hb k r Hr Hp) as (c & Hc' & _). congruence.
Qed.

(** The destructuring of a chain of [let?] and [fail_if] that ended in [Ok]. *)
Ltac steps H :=
  repeat first
    [ progress cbn [rbind] in H
    | match type of H with
      | rbind ?e _ = Ok _ => let E := fresh "E" in destruct e eqn:E; [|discriminate H]
      | (if ?c then Err _ else _) = Ok _ => let E := fresh "G" in destruct c eqn:E; [discriminate H|]
      end ].

Lemma approve_ok `{CampaignLib} now community actor verified event a w w' :
  approve_campaign_budget_tx now community actor verified event a w = Ok w' -> world_ok w -> world_ok w'.
Proof.
  unfold approve_campaign_budget_tx. intros H0 Hw. steps H0. rename a2 into w1, a3 into c.
  destruct (ensure_world _ _ _ E1 Hw) as (Hw1 & _).
  apply put_campaign_world in H0 as [Hok ->].
  apply ok_or_ok in E2. apply ok_or_ok, checked_i64_some in E6 as [-> Hmin].
  apply ok_or_ok in E5. unfold nanousd_mul in E5. apply checked_i64_some in E5 as [-> Hmax].
  apply negb_false_iff, Z.eqb_eq in G2.
  apply orb_false_iff in G7 as [[G7a G7b]%orb_false_iff G7c].
  apply negb_false_iff in G7a, G7b, G7c. apply String.eqb_eq in G7a, G7b. apply Z.eqb_eq in G7c.
  apply Z.ltb_ge in G6.
  apply world_campaigns; [by apply world_claims|]. cbn [campaigns with_claims runs].
  eapply budgets_put_same; [apply Hw1|exact E2|done| |done|done| |].
  - split_and!; cbn; [| |congruence].
    + destruct (Z.eqb_spec (ap_approved a) (c_spent c + c_reserved c)); [done|lia].
    + destruct (Z.eqb_spec (ap_approved a) (c_spent c + c_reserved c)); [lia|done].
  - cbn. destruct (c_payer c) as [p|]; [|done]. cbn in G7a. by subst p.
  - cbn. destruct (c_price c) as [p|]; [|done]. cbn in G7c. by subst p.
Qed.

Lemma budget_state_ok `{CampaignLib} community actor campaign state w w' :
  set_campaign_budget_state_tx community actor campaign state w = Ok w' -> world_ok w -> world_ok w'.
Proof.
  unfold set_campaign_budget_state_tx. intros H0 Hw. steps H0. rename a into c.
  apply put_campaign_world in H0 as [Hok ->]. apply ok_or_ok in E.
  apply world_campaigns; [done|]. eapply budgets_put_same; [apply Hw|exact E|done| |done..].
  apply negb_false_iff, orb_true_iff in G. rewrite !bool_decide_eq_true in G.
  split_and!; cbn; [by destruct G as [-> | ->]..|]. by apply (bu_approved _ _ (wo_budgets w Hw) _ _ E).
Qed.

(** ** Starting a run *)

(** A ledger row written with its balance change. *)
Lemma post_world row delta' pk w w1 e w2 :
  on_money (insert_ledger row) w = Ok (w1, Some e) -> on_accounts (add_balance delta' pk) w1 = Ok w2 ->
  delta' = delta row -> pk = pubkey row ->
  tables_ok (money w) -> is_Some (accounts (book (money w)) !! pk) ->
  exists b, w2 = with_money (with_book b (money w)) w /\ tables_ok (with_book b (money w))
    /\ e = numbered (next_id (book (money w))) row
    /\ ledger b = ledger (book (money w)) ++ [e]
    /\ (entry_key row ∉ entry_key <$> ledger (book (money w)))
    /\ (forall q, is_Some (accounts (book (money w)) !! q) -> is_Some (accounts b !! q))
    /\ (forall q, balance (account_or_new b q)
         = balance (account_or_new (book (money w)) q) + if String.eqb pk q then delta row else 0).
Proof.
  intros Hi Ha -> -> Ht Hsome. unfold on_money in Hi.
  destruct (on_book _ _) as [[t1 o]|] eqn:Hb; [|done]. cbn [rbind fst snd] in Hi. injection Hi as <- ->.
  apply on_book_ok in Hb as (b1 & Hi & ->). apply on_accounts_ok in Ha as (b2 & Ha & ->).
  cbn [money with_money book with_book] in *.
  destruct (post_ok _ _ _ _ _ Hi Ha (to_book _ Ht) Hsome)
    as (a & Hacc & _ & He & Hnew & _ & _ & Hl & Hacc2 & Hb2).
  assert (forall q, is_Some (accounts (book (money w)) !! q) -> is_Some (accounts b2 !! q)) as Hmono.
  { intros q Hq. rewrite Hacc2. destruct (decide (pubkey row = q)) as [->|];
      [rewrite lookup_insert_eq; eauto|by rewrite lookup_insert_ne]. }
  exists b2. split_and!; try done; [by apply with_book_ok|].
  intros q. unfold account_or_new. rewrite Hacc2. destruct (String.eqb_spec (pubkey row) q) as [<-|Hne].
  - rewrite lookup_insert_eq, Hacc. done.
  - rewrite lookup_insert_ne by done. lia.
Qed.

(** What a reservation has checked, and the Campaign it leaves. *)
Lemma reserve_spec `{CampaignLib} community campaign actor w w' p :
  reserve_paid_discovery_run_tx community campaign actor w = Ok (w', p) ->
  exists w1 c, on_accounts (ensure_account (pr_payer p)) w = Ok w1
    /\ campaigns w !! (community, campaign) = Some c /\ c_state c = BActive
    /\ c_payer c = Some (pr_payer p) /\ c_price c = Some (pr_price p)
    /\ pr_reserved p = pr_price p * pr_limit p /\ 0 < pr_limit p
    /\ (actor = pr_payer p \/ owned_agent community actor (pr_payer p) w = true)
    /\ pr_limit p = target (c_input c) - Z.min (campaign_lead_count community campaign w) 65535
    /\ c_spent c + c_reserved c + pr_reserved p <= c_approved c
    /\ Z.max (saturate_i64 (balance (account_or_new (book (money w)) (pr_payer p))
              - gateway_reserved_sum (pr_payer p) (money w))) 0 >= pr_reserved p
    /\ w' = with_campaigns (<[(community, campaign) := with_budget c (c_reserved c + pr_reserved p) (c_spent c)
              (if c_spent c + c_reserved c + pr_reserved p =? c_approved c then BExhausted else BActive)]>
              (campaigns w)) w1
    /\ campaign_row_ok (with_budget c (c_reserved c + pr_reserved p) (c_spent c)
              (if c_spent c + c_reserved c + pr_reserved p =? c_approved c then BExhausted else BActive)) = true.
Proof.
  unfold reserve_paid_discovery_run_tx. intros H0. steps H0. injection H0 as <- <-. cbn [pr_payer pr_price pr_limit pr_reserved].
  rename a into payer, a0 into w1, a1 into bal, a2 into c, a3 into price.
  apply ok_or_ok in E, E1, E2, E3.
  apply on_accounts_ok in E0 as Hw1. destruct Hw1 as (b & Hens & Hw1).
  apply ok_or_ok, checked_i64_some in E5 as [-> _]. apply ok_or_ok, checked_i64_some in E6 as [-> _].
  apply ok_or_ok in E8. unfold nanousd_mul in E8. apply checked_i64_some in E8 as [-> _].
  apply ok_or_ok, checked_i64_some in E9 as [-> _].
  apply put_campaign_world in E10 as [Hok ->].
  assert (campaigns w1 = campaigns w) as Hcs by (by rewrite Hw1).
  assert (campaign_leads w1 = campaign_leads w) as Hcl by (by rewrite Hw1).
  unfold campaign_lead_count in *. rewrite Hcs, Hcl in *.
  apply negb_false_iff, bool_decide_eq_true in G1.
  rewrite E2 in E. cbn in E. apply Z.ltb_ge in G6, G7. apply Z.eqb_neq in G5.
  apply ok_or_ok, checked_i64_some in E7 as [-> _].
  assert (balance (account_or_new (book (money w)) payer) = bal) as Hbal.
  { unfold account_or_new. destruct (accounts (book (money w1)) !! payer) as [acct|] eqn:Hacct; [|done].
    cbn in E1. injection E1 as <-. rewrite Hw1 in Hacct. cbn in Hacct.
    unfold ensure_account in Hens. destruct (negb _); [done|].
    destruct (accounts (book (money w)) !! payer) as [a'|] eqn:Ha'; injection Hens as <-; [by rewrite Ha' in Hacct; injection Hacct as ->|].
    cbn in Hacct. rewrite lookup_insert_eq in Hacct. by injection Hacct as <-. }
  assert (gateway_reserved_sum payer (money w1) = gateway_reserved_sum payer (money w)) as Hg by (by rewrite Hw1).
  rewrite Hg in *.
  exists w1, c. split_and!; try done; try lia.
  - apply andb_false_iff in G0 as [G0|G0]; apply negb_false_iff in G0; [left; by apply String.eqb_eq|by right].
  - rewrite Hbal. lia.
Qed.

(** The row of a new paid run. *)
Definition new_run (campaign actor : string) (p : PaidReservation) : Run :=
  {| r_campaign := campaign; r_requested_by := actor; r_state := Queued; r_reason := None;
     r_lease := None; r_protocol := DISCOVERY_HOSTED_GATEWAY_PROTOCOL_VERSION;
     r_payer := Some (pr_payer p); r_price := Some (pr_price p);
     r_limit := Some (pr_limit p); r_reserved := Some (pr_reserved p); r_settled := None;
     r_released := None; r_billed := None; r_ref := None; r_settled_at := None |}.

(** What a started run changes. *)
Lemma start_spec `{CampaignLib} now community campaign key actor steps w w' :
  start_paid_run_tx now community campaign key actor steps w = Ok w' -> world_ok w ->
  let run := deterministic_run_id community key in
  exists p w1 c b e budget,
    reserve_paid_discovery_run_tx community campaign actor w
      = Ok (with_campaigns (<[(community, campaign) := budget]> (campaigns w)) w1, p)
    /\ campaigns w !! (community, campaign) = Some c
    /\ budget = with_budget c (c_reserved c + pr_reserved p) (c_spent c)
         (if c_spent c + c_reserved c + pr_reserved p =? c_approved c then BExhausted else BActive)
    /\ (forall kr, kr ∈ map_to_list (runs w) -> active_run_of community campaign kr = true -> False)
    /\ runs w !! (community, run) = None
    /\ run_row_ok (new_run campaign actor p) = true
    /\ tables_ok (with_book b (money w))
    /\ discovery e = Some {| quantity := pr_limit p; unit_price_nanousd := pr_price p;
         charge_community := community; charge_campaign := campaign; charge_run := run |}
    /\ pubkey e = pr_payer p /\ delta e = - pr_reserved p /\ kind e = "hold"%string
    /\ reference e = run_ref hold_prefix community run
    /\ ledger b = ledger (book (money w)) ++ [e]
    /\ (forall q, is_Some (accounts (book (money w)) !! q) \/ q = pr_payer p -> is_Some (accounts b !! q))
    /\ (forall q, balance (account_or_new b q) = balance (account_or_new (book (money w)) q)
         - if String.eqb (pr_payer p) q then pr_reserved p else 0)
    /\ w' = with_sources (sources w ++ List.map (fun p =>
              {| s_community := community; s_run := run; s_provider := p; s_status := SPending;
                 s_cursor := None |}) hosted_providers)
            (with_money (with_book b (money w))
              (with_runs (<[(community, run) := new_run campaign actor p]> (runs w))
                (with_campaigns (<[(community, campaign) := budget]> (campaigns w)) w))).
Proof.
  intros H0 Hw run. unfold start_paid_run_tx in H0.
  destruct (require_discovery_authorized_tx _ _ _ _) eqn:Hauth; [|done]. cbn [rbind] in H0.
  destruct ((steps =? 0) || _); [done|].
  destruct (reserve_paid_discovery_run_tx _ _ _ _) as [[w2 p]|] eqn:Hres; [|done]. cbn [rbind] in H0.
  destruct (reserve_spec _ _ _ _ _ _ Hres)
    as (w1 & c & Hens & Hc & Hst & Hpay & Hpr & Hmul & Hpos & _ & _ & Hle & Hav & -> & Hrow).
  destruct (ensure_world _ _ _ Hens Hw) as (Hw1 & Hr1 & Hc1 & Hl1 & Hcl1 & Hs1 & Hcm1 & Hsome & Hled & Hint & Hbal).
  destruct (require_no_other_active_campaign_run_tx _ _ _ _) eqn:Hno; [|done]. cbn [rbind] in H0.
  fold run in H0. cbn [runs with_campaigns] in H0. rewrite Hr1 in H0.
  destruct (is_some _) eqn:Hnone; [done|].
  destruct (runs w !! (community, run)) eqn:Hrun in Hnone; [done|]. clear Hnone.
  destruct (put_run _ _ _) as [w3|] eqn:Hput; [|done]. cbn [rbind] in H0.
  apply put_run_world in Hput as [Hrok ->].
  destruct (escrow_paid_discovery_run_tx _ _ _ _ _ _) as [w4|] eqn:Hesc; [|done]. cbn [rbind] in H0. injection H0 as <-.
  unfold escrow_paid_discovery_run_tx in Hesc.
  destruct (on_money _ _) as [[w5 [e|]]|] eqn:Hm; [|done..]. cbn [rbind] in Hesc.
  destruct (post_world _ _ _ _ _ _ _ Hm Hesc) as (b & -> & Htok & He & Hlb & _ & Hmono & Hb);
    [done|done|apply Hw1|done|].
  cbn [money with_runs with_campaigns] in *.
  assert (money w1 = with_book (book (money w1)) (money w)) as Hmw1.
  { apply on_accounts_ok in Hens as (b1 & _ & ->). done. }
  exists p, w1, c, b, e. eexists. split_and!; try done.
  - intros kr Hin Hact. unfold require_no_other_active_campaign_run_tx in Hno. cbn [runs with_campaigns] in Hno. fold run in Hno.
    rewrite Hr1 in Hno. destruct (negb _); [done|]. destruct (find _ _) as [kr'|] eqn:Hf.
    + apply find_some_elem in Hf as [Hin' Hact']. destruct (String.eqb_spec (snd (fst kr')) run) as [E|]; [|done].
      destruct kr' as [[kc kr'] rr]. cbn in E. subst kr'.
      unfold active_run_of in Hact'. cbn in Hact'. rewrite !andb_true_iff in Hact'.
      destruct Hact' as [[->%String.eqb_eq _] _]. apply elem_of_map_to_list in Hin'. congruence.
    + eapply find_none in Hf; [|by apply list_elem_of_In]. congruence.
  - rewrite Hmw1 in Htok. exact Htok.
  - rewrite He. done.
  - rewrite He. done.
  - rewrite He. done.
  - rewrite He. done.
  - rewrite He. done.
  - by rewrite Hlb, Hled.
  - intros q [Hq | ->]; [|by apply Hmono]. apply Hmono.
    apply on_accounts_ok in Hens as (b1 & Hens & ->). cbn. destruct (ensure_account_ok _ _ _ Hens (to_book _ (wo_money w Hw)))
      as (_ & Hs & _ & Ho & _). destruct (decide (q = pr_payer p)) as [->|]; [done|by rewrite Ho].
  - intros q. rewrite Hb, Hbal. cbn [delta discovery_row]. destruct (String.eqb _ _); lia.
  - apply on_accounts_ok in Hens as (b1 & _ & ->). done.
Qed.

Lemma of_campaign_hit ck f k r : fst k = fst ck -> r_campaign r = snd ck -> of_campaign ck f k r = f r.
Proof. unfold of_campaign. intros -> ->. by rewrite !String.eqb_refl. Qed.
Lemma of_campaign_miss ck f k r : (fst k, r_campaign r) <> ck -> of_campaign ck f k r = 0.
Proof.
  unfold of_campaign. intros Hne. destruct (String.eqb_spec (fst k) (fst ck)) as [E1|]; [|done].
  destruct (String.eqb_spec (r_campaign r) (snd ck)) as [E2|]; [|done]. destruct Hne. rewrite E1, E2. by destruct ck.
Qed.

(** The budget table once a run is started under a Campaign. *)
Lemma start_budgets cs rs community campaign run actor p c :
  budgets_ok cs rs -> cs !! (community, campaign) = Some c -> rs !! (community, run) = None ->
  c_payer c = Some (pr_payer p) -> c_price c = Some (pr_price p) -> 0 <= pr_reserved p ->
  c_spent c + c_reserved c + pr_reserved p <= c_approved c ->
  run_row_ok (new_run campaign actor p) = true ->
  let budget := with_budget c (c_reserved c + pr_reserved p) (c_spent c)
    (if c_spent c + c_reserved c + pr_reserved p =? c_approved c then BExhausted else BActive) in
  campaign_row_ok budget = true ->
  budgets_ok (<[(community, campaign) := budget]> cs) (<[(community, run) := new_run campaign actor p]> rs).
Proof.
  intros Hb Hc Hrun Hpay Hpr Hnn Hle Hrow budget Hok.
  eapply budgets_put; [exact Hb|done| | | | | |].
  - split_and!; cbn; [| |by apply (bu_approved _ _ Hb _ _ Hc)];
      destruct (Z.eqb_spec (c_spent c + c_reserved c + pr_reserved p) (c_approved c)); (done || lia).
  - rewrite map_sum_insert_new, of_campaign_hit by done. cbn. rewrite (bu_reserved _ _ Hb _ _ Hc). lia.
  - rewrite map_sum_insert_new, of_campaign_hit by done. cbn. rewrite (bu_spent _ _ Hb _ _ Hc). done.
  - intros k Hk. rewrite !map_sum_insert_new by done.
    assert ((fst (community, run), r_campaign (new_run campaign actor p)) <> k) by (cbn; congruence).
    by rewrite !of_campaign_miss.
  - intros k r. rewrite lookup_insert_Some. intros [[<- <-]|[_ Hr]]; [done|by apply (bu_runs _ _ Hb k)].
  - intros k r. rewrite lookup_insert_Some. intros [[<- <-]|[_ Hr]] Hp.
    + rewrite bool_decide_eq_true_2 by done. done.
    + case_bool_decide as Hkey; [|by exists r, k].
      destruct (bu_payer _ _ Hb k r Hr Hp) as (c' & Hc' & H1 & H2). rewrite Hkey, Hc in Hc'. by injection Hc' as <-.
Qed.

Lemma row_of_run_spec k e d :
  discovery e = Some d -> row_of_run k e = true <-> k = (charge_community d, charge_run d).
Proof.
  intros Hd. unfold row_of_run. rewrite Hd, andb_true_iff, !String.eqb_eq. destruct k. cbn. naive_solver.
Qed.

(** A run that is not there has no row in the ledger. *)
Lemma no_run_net `{CampaignLib} l rs k : ledger_ok l rs -> rs !! k = None -> forall e, e ∈ l -> row_of_run k e = false.
Proof.
  intros Hl Hk e He. destruct (row_of_run k e) eqn:Hrow; [|done].
  destruct (discovery e) as [d|] eqn:Hd; [|by unfold row_of_run in Hrow; rewrite Hd in Hrow].
  apply (row_of_run_spec k e d Hd) in Hrow as ->.
  destruct (le_rows _ _ Hl e d He Hd) as (r & Hr & _). congruence.
Qed.

Lemma start_ledger `{CampaignLib} l rs k campaign actor p e :
  ledger_ok l rs -> rs !! k = None -> run_row_ok (new_run campaign actor p) = true ->
  discovery e = Some {| quantity := pr_limit p; unit_price_nanousd := pr_price p;
    charge_community := fst k; charge_campaign := campaign; charge_run := snd k |} ->
  pubkey e = pr_payer p -> delta e = - pr_reserved p -> kind e = "hold"%string ->
  reference e = run_ref hold_prefix (fst k) (snd k) ->
  ledger_ok (l ++ [e]) (<[k := new_run campaign actor p]> rs).
Proof.
  intros Hl Hk Hok Hd Hpk Hdel Hkind Href. split.
  - intros e' d [He | ->%list_elem_of_singleton]%elem_of_app Hd'.
    + destruct (le_rows _ _ Hl e' d He Hd') as (r & Hr & Hrest). exists r.
      rewrite lookup_insert_ne by congruence. done.
    + rewrite Hd in Hd'. injection Hd' as <-. cbn. exists (new_run campaign actor p).
      destruct k as [kc kr]. rewrite lookup_insert_eq, Hpk. split_and!; [done|done|done|]. by left.
  - intros k' r payer. rewrite lookup_insert_Some, run_net_snoc. intros [[<- <-]|[Hne Hr]] Hp Hpay Ht.
    + rewrite (run_net_foreign k l) by (by eapply no_run_net).
      rewrite (proj2 (row_of_run_spec k e _ Hd)) by (by destruct k). cbn. lia.
    + rewrite taken_app in Ht. apply orb_false_iff in Ht as [Ht _].
      replace (row_of_run k' e) with false; [rewrite Z.add_0_r; by eapply (le_net _ _ Hl)|].
      symmetry. apply not_true_iff_false. intros Hrow%(row_of_run_spec k' e _ Hd). cbn in Hrow.
      destruct k. by apply Hne.
Qed.

Lemma start_leads ls cls rs k campaign actor p :
  leads_ok ls cls rs -> rs !! k = None -> run_row_ok (new_run campaign actor p) = true ->
  leads_ok ls cls (<[k := new_run campaign actor p]> rs).
Proof.
  intros [H1 H2 H3 H4 H5] Hk Hok.
  assert (forall q, is_Some (rs !! q) -> is_Some (<[k := new_run campaign actor p]> rs !! q)) as Hdom.
  { intros q [r Hr]. rewrite lookup_insert_ne by congruence. eauto. }
  assert (retained k ls = 0) as Hret.
  { unfold retained. rewrite length_filterb_nil; [done|]. intros l Hl. apply not_true_iff_false.
    rewrite andb_true_iff, !String.eqb_eq. intros [E1 E2]. destruct (H1 l Hl) as [r Hr].
    rewrite E1, E2 in Hr. destruct k. cbn in *. congruence. }
  assert (discovered k campaign cls = 0) as Hdis.
  { unfold discovered. rewrite length_filterb_nil; [done|]. intros l Hl. apply not_true_iff_false.
    rewrite !andb_true_iff, !String.eqb_eq. intros [[E1 _] E2]. destruct (H2 l Hl) as [r Hr].
    rewrite E1, E2 in Hr. destruct k. cbn in *. congruence. }
  split; [auto|auto|done| |].
  - intros q r. rewrite lookup_insert_Some. intros [[<- <-]|[_ Hr]] Hp; [|by apply H4].
    cbn [r_campaign r_limit new_run]. rewrite Hret, Hdis. split; [done|].
    destruct (paid_row _ Hok Hp) as (? & ? & limit & _ & _ & Hlim & _ & _ & Hl & _). cbn in Hlim.
    injection Hlim as <-. cbn. lia.
  - intros q r. rewrite lookup_insert_Some. intros [[<- <-]|[_ Hr]] Hs; [done|by apply H5].
Qed.

Lemma start_ok `{CampaignLib} now community campaign key actor steps w w' :
  start_paid_run_tx now community campaign key actor steps w = Ok w' -> world_ok w -> world_ok w'.
Proof.
  intros H0 Hw. destruct (start_spec _ _ _ _ _ _ _ _ H0 Hw)
    as (p & w1 & c & b & e & budget & Hres & Hc & -> & _ & Hrun & Hrok & Htok & Hd & Hpk & Hdel & Hkind & Href & Hl & Hacc & _ & ->).
  destruct (reserve_spec _ _ _ _ _ _ Hres)
    as (w1' & c' & _ & Hc' & _ & Hpay & Hpr & Hmul & Hpos & _ & _ & Hle & _ & _ & Hrow).
  rewrite Hc in Hc'. injection Hc' as <-.
  assert (0 <= pr_reserved p) as Hnn.
  { destruct (paid_row _ Hrok eq_refl) as (? & price & limit & _ & E1 & E2 & E3 & ? & ? & _). cbn in *.
    assert (pr_price p = price) by congruence. assert (pr_limit p = limit) by congruence. nia. }
  apply world_sources. destruct Hw as [H1 H2 H3 H4 H5]. split; cbn.
  - done.
  - by apply start_budgets.
  - rewrite Hl. by apply start_ledger.
  - by apply start_leads.
  - intros k r payer. rewrite lookup_insert_Some. intros [[<- <-]|[_ Hr]] Hp Hpayer.
    + cbn in Hpayer. injection Hpayer as <-. apply Hacc. by right.
    + apply Hacc. left. by eapply H5.
Qed.

(** ** Settling a run *)

(** While a run is open, its release and its charge are in the ledger only if
    another service took their references. *)
Lemma end_ref_new `{CampaignLaws} l rs k r prefix pk :
  ledger_ok l rs -> rs !! k = Some r -> settledb r = false -> prefix ∈ [release_prefix; debit_prefix] ->
  (pk, run_ref prefix (fst k) (snd k)) ∈ entry_key <$> l -> taken k pk l = true.
Proof.
  intros Hl Hr Hopen Hp (e & [= -> Href] & Hin)%list_elem_of_fmap. symmetry in Href.
  assert (closing_ref k (reference e) = true) as Hclose.
  { unfold closing_ref. rewrite Href. apply orb_true_iff. rewrite !String.eqb_eq.
    apply elem_of_cons in Hp as [->|Hp]; [by left|]. apply list_elem_of_singleton in Hp as ->. by right. }
  destruct (discovery e) as [d|] eqn:Hd.
  - destruct (refs_apart (charge_community d) (charge_run d) (fst k) (snd k)) as (A1 & A2 & _).
    destruct (le_rows _ _ Hl e d Hin Hd) as (r' & Hr' & _ & _ & [[_ Hk]|[Hs Hk]]).
    + rewrite Href in Hk. apply elem_of_cons in Hp as [->|Hp]; [by symmetry in Hk|].
      apply list_elem_of_singleton in Hp as ->. by symmetry in Hk.
    + assert ((charge_community d, charge_run d) = k) as Heq.
      { destruct (refs_apart (charge_community d) (charge_run d) (fst k) (snd k)) as (_ & _ & A3).
        destruct (refs_apart (fst k) (snd k) (charge_community d) (charge_run d)) as (_ & _ & A4).
        rewrite Href in Hk. apply elem_of_cons in Hp as [->|Hp]; [|apply list_elem_of_singleton in Hp as ->];
          destruct Hk as [Hk|Hk]; try (by destruct A4); try (by destruct A3);
          apply run_ref_inj in Hk as [<- <-]; by destruct k. }
      rewrite Heq in Hr'. congruence.
  - apply existsb_exists. exists e. split; [by apply list_elem_of_In|]. by rewrite Hd, Hclose, String.eqb_refl.
Qed.

(** The rows a settlement adds to the ledger. *)
Definition settlement_row `{CampaignLib} (k : Key) (payer : string) (e : LedgerEntry) : Prop :=
  pubkey e = payer
  /\ (exists d, discovery e = Some d /\ charge_community d = fst k /\ charge_run d = snd k)
  /\ (reference e = run_ref release_prefix (fst k) (snd k) \/ reference e = run_ref debit_prefix (fst k) (snd k)).

Lemma settle_ledger `{CampaignLib} l rs k r r' payer es :
  ledger_ok l rs -> rs !! k = Some r -> paid r = true -> settledb r = false -> r_payer r = Some payer ->
  paid r' = true -> settledb r' = true -> r_payer r' = Some payer ->
  (forall e, e ∈ es -> settlement_row k payer e) ->
  (taken k payer l = false -> zsum delta es = default 0 (r_reserved r) - spent_by r') ->
  ledger_ok (l ++ es) (<[k := r']> rs).
Proof.
  intros Hl Hr Hp Hopen Hpay Hp' Hset Hpay' Hes Hsum. split.
  - intros e d [He|He]%elem_of_app Hd.
    + destruct (le_rows _ _ Hl e d He Hd) as (r0 & Hr0 & Hp0 & Hpay0 & Hk).
      destruct (decide ((charge_community d, charge_run d) = k)) as [Heq|Hne].
      * rewrite Heq in *. rewrite lookup_insert_eq. rewrite Hr in Hr0. injection Hr0 as <-. exists r'.
        split_and!; [done|done|congruence|]. destruct Hk as [Hk|[Hs _]]; [by left|congruence].
      * rewrite lookup_insert_ne by done. by exists r0.
    + destruct (Hes e He) as (Hpk & (d' & Hd' & Hc & Hru) & Href). rewrite Hd in Hd'. injection Hd' as <-.
      rewrite Hc, Hru. exists r'. destruct k as [kc kr]. rewrite lookup_insert_eq.
      split_and!; [done|done|congruence|]. by right.
  - intros q r0 pq. rewrite lookup_insert_Some, run_net_app, taken_app.
    intros [[<- <-]|[Hne Hr0]] Hp0 Hpq [Ht _]%orb_false_iff.
    + assert (pq = payer) as -> by congruence. specialize (Hsum Ht).
      rewrite (le_net _ _ Hl k r payer Hr Hp Hpay Ht), Hopen, Hset.
      replace (run_net k es) with (zsum delta es); [lia|]. unfold run_net. rewrite filterb_all; [done|].
      intros e He. destruct (Hes e He) as (_ & (d & Hd & Hc & Hru) & _).
      apply (row_of_run_spec k e d Hd). destruct k. cbn in *. congruence.
    + rewrite (run_net_foreign q es); [rewrite Z.add_0_r; by eapply (le_net _ _ Hl)|].
      intros e He. apply not_true_iff_false. destruct (Hes e He) as (_ & (d & Hd & Hc & Hru) & _).
      intros Hrow%(row_of_run_spec q e d Hd). destruct Hne. rewrite Hrow, Hc, Hru. by destruct k.
Qed.

Lemma settle_leads ls cls rs k r r' :
  leads_ok ls cls rs -> rs !! k = Some r -> r_campaign r' = r_campaign r -> r_protocol r' = r_protocol r ->
  r_limit r' = r_limit r -> r_billed r' = Some (retained k ls) -> leads_ok ls cls (<[k := r']> rs).
Proof.
  intros [H1 H2 H3 H4 H5] Hr Hc Hp Hl Hb.
  assert (forall q, is_Some (rs !! q) -> is_Some (<[k := r']> rs !! q)) as Hdom.
  { intros q Hq. destruct (decide (k = q)) as [->|]; [rewrite lookup_insert_eq; eauto|by rewrite lookup_insert_ne]. }
  split; [auto|auto|done| |].
  - intros q rq. rewrite lookup_insert_Some. intros [[<- <-]|[_ Hq]] Hpaid; [|by apply H4].
    rewrite Hc, Hl. apply H4; [done|]. unfold paid in *. by rewrite <- Hp.
  - intros q rq. rewrite lookup_insert_Some. intros [[<- <-]|[_ Hq]] Hs; [done|by apply H5].
Qed.

Lemma settle_budgets cs rs k r r' c reserved settled :
  budgets_ok cs rs -> rs !! k = Some r -> paid r = true -> settledb r = false -> r_settled r = None ->
  r_reserved r = Some reserved ->
  r_campaign r' = r_campaign r -> r_payer r' = r_payer r -> r_price r' = r_price r ->
  r_settled r' = Some settled -> settledb r' = true -> run_row_ok r' = true ->
  cs !! (fst k, r_campaign r) = Some c -> campaign_row_ok (settled_budget c reserved settled) = true ->
  budgets_ok (<[(fst k, r_campaign r) := settled_budget c reserved settled]> cs) (<[k := r']> rs).
Proof.
  intros Hb Hr Hp Hopen Hns Hres Hcamp Hpay Hpr Hset Hsd Hrow Hc Hok.
  assert (forall ck, (fst k, r_campaign r) = ck -> map_sum (of_campaign ck open_hold) (<[k := r']> rs)
    = map_sum (of_campaign ck open_hold) rs - reserved
    /\ map_sum (of_campaign ck spent_by) (<[k := r']> rs) = map_sum (of_campaign ck spent_by) rs + settled) as Hsum.
  { intros ck <-. rewrite !(map_sum_insert _ _ _ _ _ Hr), !of_campaign_hit by done.
    unfold open_hold, spent_by. rewrite Hopen, Hsd, Hres, Hset, Hns. cbn. lia. }
  destruct (campaign_row_facts _ Hok) as (_ & _ & Hle). cbn in Hle.
  eapply budgets_put; [exact Hb|done| | | | | |].
  - split_and!; cbn; [| |by apply (bu_approved _ _ Hb _ _ Hc)];
      destruct (c_state c); try done;
      destruct (Z.eqb_spec (c_spent c + settled + c_reserved c - reserved) (c_approved c)); (done || lia).
  - rewrite (proj1 (Hsum _ eq_refl)). cbn. by rewrite (bu_reserved _ _ Hb _ _ Hc).
  - rewrite (proj2 (Hsum _ eq_refl)). cbn. by rewrite (bu_spent _ _ Hb _ _ Hc).
  - intros ck Hne. rewrite !(map_sum_insert _ _ _ _ _ Hr), !of_campaign_miss by congruence. lia.
  - intros q rq. rewrite lookup_insert_Some. intros [[<- <-]|[_ Hq]]; [done|by apply (bu_runs _ _ Hb q)].
  - intros q rq Hq Hpq. apply lookup_insert_Some in Hq as [[<- <-]|[_ Hq]]; case_bool_decide as Hkey.
    + destruct (bu_payer _ _ Hb k r Hr Hp) as (c' & Hc' & ? & ?). rewrite Hc in Hc'. injection Hc' as <-.
      cbn. by rewrite Hpay, Hpr.
    + rewrite Hcamp in Hkey. done.
    + destruct (bu_payer _ _ Hb q rq Hq Hpq) as (c' & Hc' & ? & ?). rewrite Hkey, Hc in Hc'. by injection Hc' as <-.
    + by exists rq, q.
Qed.

(** A row was written and its amount added to the balance. *)
Definition posted (row : LedgerEntry) (w w' : World) : Prop :=
  exists b, w' = with_money (with_book b (money w)) w /\ tables_ok (with_book b (money w))
    /\ ledger b = ledger (book (money w)) ++ [numbered (next_id (book (money w))) row]
    /\ (forall q, is_Some (accounts (book (money w)) !! q) -> is_Some (accounts b !! q))
    /\ (forall q, balance (account_or_new b q)
         = balance (account_or_new (book (money w)) q) + if String.eqb (pubkey row) q then delta row else 0).

(** A row whose reference is taken is not written, and no entry or balance
    changes. *)
Definition left_alone (w w' : World) : Prop :=
  exists b, w' = with_money (with_book b (money w)) w /\ tables_ok (with_book b (money w))
    /\ accounts b = accounts (book (money w)) /\ ledger b = ledger (book (money w)).
Lemma on_money_none row w w1 :
  on_money (insert_ledger row) w = Ok (w1, None) -> tables_ok (money w) ->
  left_alone w w1 /\ entry_key row ∈ entry_key <$> ledger (book (money w)).
Proof.
  unfold on_money. destruct (on_book _ _) as [[t1 o]|] eqn:Hb; [|done]. cbn. intros [= <- ->] Ht.
  apply on_book_ok in Hb as (b1 & Hi & ->).
  destruct (insert_ledger_none _ _ _ Hi (to_book _ Ht)) as (Hb & Ha & Hl & Hin). split; [|done].
  exists b1. split_and!; [done| |done|done]. apply with_book_ok; [done|done|]. by rewrite Ha.
Qed.

Lemma release_posted `{CampaignLib} now community campaign run payer reserved limit price w w' :
  release_hold_tx now community campaign run payer reserved limit price w = Ok w' ->
  tables_ok (money w) -> is_Some (accounts (book (money w)) !! payer) ->
  posted (discovery_row now payer "release" (run_ref release_prefix community run) reserved limit price
            community campaign run) w w'
  \/ left_alone w w' /\ (payer, run_ref release_prefix community run) ∈ entry_key <$> ledger (book (money w)).
Proof.
  unfold release_hold_tx. intros H0 Ht Hacc.
  destruct (on_money _ _) as [[w1 [e|]]|] eqn:Hm; [| |done]; cbn [rbind] in H0.
  - left. destruct (post_world _ _ _ _ _ _ _ Hm H0 eq_refl eq_refl Ht Hacc) as (b & ? & ? & -> & ? & _ & ? & ?).
    by exists b.
  - right. injection H0 as <-. exact (on_money_none _ _ _ Hm Ht).
Qed.

(** A charge is written, unless the very same row is there. *)
Lemma charge_posted `{CampaignLib} now community campaign run payer settled count price w w' :
  charge_leads_tx now community campaign run payer settled count price w = Ok w' ->
  tables_ok (money w) -> is_Some (accounts (book (money w)) !! payer) ->
  posted (discovery_row now payer "debit" (run_ref debit_prefix community run) (- settled) count price
            community campaign run) w w'
  \/ exists e, e ∈ ledger (book (money w)) /\ reference e = run_ref debit_prefix community run
       /\ exists d, discovery e = Some d /\ charge_community d = community /\ charge_run d = run.
Proof.
  unfold charge_leads_tx. intros H0 Ht Hacc.
  destruct (on_money _ _) as [[w1 [e|]]|] eqn:Hm; [| |done]; cbn [rbind] in H0.
  - left. destruct (post_world _ _ _ _ _ _ _ Hm H0 eq_refl eq_refl Ht Hacc) as (b & ? & ? & -> & ? & _ & ? & ?).
    by exists b.
  - right. destruct (on_money_none _ _ _ Hm Ht) as [(b & -> & _ & _ & Hl) _].
    destruct (existsb _ _) eqn:Hex; [|done]. apply existsb_exists in Hex as (e & He & Hsame). exists e.
    apply list_elem_of_In in He. cbn in He. rewrite Hl in He. split; [done|].
    unfold exact_charge, same_ref in Hsame. rewrite !andb_true_iff, !String.eqb_eq, bool_decide_eq_true in Hsame.
    destruct Hsame as [[[_ Href] _] Hd]. split; [done|]. rewrite Hd. by eexists.
Qed.

(** The money of a settlement: [count] Leads at [price] out of [reserved]. *)
Definition settlement_money `{CampaignLib} (k : Key) (payer : string) (reserved settled : Z) (w : World) (b : Book)
    : Prop :=
  tables_ok (with_book b (money w))
  /\ (forall q, is_Some (accounts (book (money w)) !! q) -> is_Some (accounts b !! q))
  /\ exists es, ledger b = ledger (book (money w)) ++ es /\ (forall e, e ∈ es -> settlement_row k payer e)
       /\ (taken k payer (ledger (book (money w))) = false -> zsum delta es = reserved - settled)
       /\ (forall q, balance (account_or_new b q)
            = balance (account_or_new (book (money w)) q) + if String.eqb payer q then zsum delta es else 0).

Lemma settlement_posted `{CampaignLaws} now k campaign payer reserved limit price settled count w w1 w2 rs r :
  release_hold_tx now (fst k) campaign (snd k) payer reserved limit price w = Ok w1 ->
  (if 0 <? count then charge_leads_tx now (fst k) campaign (snd k) payer settled count price w1 else Ok w1) = Ok w2 ->
  settled = price * count -> 0 <= count ->
  tables_ok (money w) -> is_Some (accounts (book (money w)) !! payer) ->
  ledger_ok (ledger (book (money w))) rs -> rs !! k = Some r -> settledb r = false ->
  exists b, w2 = with_money (with_book b (money w)) w /\ settlement_money k payer reserved settled w b.
Proof.
  intros Hrel Hch Hs Hnn Ht Hacc Hl Hr Hopen.
  set (row kind ref d q n := numbered n (discovery_row now payer kind ref d q price (fst k) campaign (snd k))).
  assert (forall n kind ref d q, closing_ref k ref = true -> settlement_row k payer (row kind ref d q n)) as Hrow.
  { intros n kind ref d q Href. unfold closing_ref in Href. rewrite orb_true_iff, !String.eqb_eq in Href.
    split_and!; [done|by eexists|done]. }
  assert (closing_ref k (run_ref release_prefix (fst k) (snd k)) = true
          /\ closing_ref k (run_ref debit_prefix (fst k) (snd k)) = true) as [Cr Cd]
    by (unfold closing_ref; by rewrite !String.eqb_refl, orb_true_r).
  assert (exists b1 es1, w1 = with_money (with_book b1 (money w)) w /\ tables_ok (with_book b1 (money w))
    /\ (forall q, is_Some (accounts (book (money w)) !! q) -> is_Some (accounts b1 !! q))
    /\ ledger b1 = ledger (book (money w)) ++ es1 /\ (forall e, e ∈ es1 -> settlement_row k payer e)
    /\ (forall e, e ∈ es1 -> reference e <> run_ref debit_prefix (fst k) (snd k))
    /\ (taken k payer (ledger (book (money w))) = false -> zsum delta es1 = reserved)
    /\ (forall q, balance (account_or_new b1 q)
         = balance (account_or_new (book (money w)) q) + if String.eqb payer q then zsum delta es1 else 0))
    as (b1 & es1 & -> & Ht1 & Hm1 & Hl1 & He1 & Hne1 & Hsum1 & Hb1).
  { destruct (release_posted _ _ _ _ _ _ _ _ _ _ Hrel Ht Hacc) as [(b1 & -> & Ht1 & Hl1 & Hm1 & Hb1)|[(b1 & -> & Ht1 & Ha & Hl1) Hin]].
    - eexists b1, [_]. split_and!; [done|done|done|exact Hl1| | | |].
      + intros e ->%list_elem_of_singleton. by apply Hrow.
      + intros e ->%list_elem_of_singleton. cbn. by destruct (refs_apart (fst k) (snd k) (fst k) (snd k)) as (_ & _ & A).
      + intros _. unfold zsum. cbn. lia.
      + intros q. rewrite Hb1. unfold zsum. cbn. destruct (String.eqb payer q); lia.
    - exists b1, []. rewrite app_nil_r. split_and!; try done; try (by intros e ?%elem_of_nil).
      + by rewrite Ha.
      + intros Hfree. rewrite (end_ref_new _ _ _ _ release_prefix payer Hl Hr Hopen) in Hfree; [done|set_solver|done].
      + intros q. unfold account_or_new, zsum. rewrite Ha. cbn. destruct (String.eqb payer q); lia. }
  destruct (0 <? count) eqn:Hc.
  - cbn [money with_money with_book book] in *.
    destruct (charge_posted _ _ _ _ _ _ _ _ _ _ Hch Ht1) as [(b2 & -> & Ht2 & Hl2 & Hm2 & Hb2)|Hin]; [by apply Hm1| |].
    + exists b2. split; [done|]. split_and!; [done|auto|]. cbn in Hl2. rewrite Hl1, <- app_assoc in Hl2.
      eexists. split; [exact Hl2|]. split_and!.
      * intros e [He|He]%elem_of_app; [by apply He1|]. apply list_elem_of_singleton in He as ->. by apply Hrow.
      * intros Hfree. rewrite zsum_app, (Hsum1 Hfree). unfold zsum. cbn. lia.
      * intros q. rewrite Hb2. cbn [money with_money with_book book]. rewrite Hb1, zsum_app.
        unfold zsum at 3. cbn [pubkey delta discovery_row numbered foldr]. destruct (String.eqb payer q); lia.
    + destruct Hin as (e & He & Href & d & Hd & Hdc & Hdr). cbn in He. rewrite Hl1 in He.
      apply elem_of_app in He as [He|He]; [|by destruct (Hne1 e He)].
      destruct (le_rows _ _ Hl e d He Hd) as (r' & Hr' & _ & _ & [[_ Hk]|[Hs' _]]).
      * rewrite Href, Hdc, Hdr in Hk. by destruct (refs_apart (fst k) (snd k) (fst k) (snd k)) as (_ & A & _).
      * rewrite Hdc, Hdr in Hr'. destruct k. cbn in Hr'. congruence.
  - injection Hch as <-. apply Z.ltb_ge in Hc. assert (count = 0) as -> by lia. rewrite Z.mul_0_r in Hs. subst settled.
    exists b1. split; [done|]. split_and!; [done|auto|]. exists es1. split_and!; try done.
    intros Hfree. rewrite (Hsum1 Hfree). lia.
Qed.

(** What a settlement did, when it did anything: the run was open and paid, its
    retained Leads are within its limit, and every table follows. *)
Definition settled_now `{CampaignLib} (now : Z) (k : Key) (state : RunState) (reason : option TerminalReason)
    (w w' : World) (o : option Run) : Prop :=
  exists r payer price limit c b,
    let count := retained k (leads w) in
    let settled := price * count in
    let reserved := price * limit in
    let ck := (fst k, r_campaign r) in
    let row := settled_run now r state reason settled (reserved - settled) count
                 (run_ref debit_prefix (fst k) (snd k)) in
    runs w !! k = Some r /\ paid r = true /\ settledb r = false
    /\ r_payer r = Some payer /\ r_price r = Some price /\ r_limit r = Some limit
    /\ r_reserved r = Some reserved /\ r_settled r = None /\ count <= limit
    /\ campaigns w !! ck = Some c /\ campaign_row_ok (settled_budget c reserved settled) = true
    /\ run_row_ok row = true /\ is_terminal state = true /\ sources_terminal (fst k) (snd k) w = true
    /\ settlement_money k payer reserved settled w b
    /\ o = Some row
    /\ w' = with_runs (<[k := row]> (runs w))
              (with_campaigns (<[ck := settled_budget c reserved settled]> (campaigns w))
                (with_money (with_book b (money w)) w)).

Lemma settle_spec `{CampaignLaws} now community run guard state reason w w' o :
  settle_paid_run_tx now community run guard state reason w = Ok (w', o) -> world_ok w ->
  w' = w \/ settled_now now (community, run) state reason w w' o.
Proof.
  intros H1 Hw. set (k := (community, run)). unfold settle_paid_run_tx in H1.
  destruct (runs w !! (community, run)) as [r|] eqn:Hr; [|done]. cbn [rbind ok_or] in H1.
  destruct (negb (r_protocol r =? 3)) eqn:Hp; [left; congruence|]. apply negb_false_iff in Hp.
  destruct (paid_row r (bu_runs _ _ (wo_budgets w Hw) _ _ Hr) Hp)
    as (payer & price & limit & Epay & Epr & Elim & Eres & Hpos & Hlim & Hcase).
  rewrite Epay in H1. cbn [rbind ok_or] in H1.
  destruct (negb (is_some (accounts _ !! payer))); [done|].
  destruct (negb (is_some (campaigns w !! _))); [done|].
  destruct (is_some (r_settled_at r)) eqn:Hset; [left; congruence|].
  destruct (match guard with Some _ => _ | None => _ end); [left; congruence|].
  destruct (match guard with Some _ => false | None => _ end); [left; congruence|].
  destruct Hcase as [(Hopen & _ & Hns)|(Hs & _)]; [|unfold settledb in Hs; congruence].
  rewrite Epr, Elim, Eres in H1. steps H1. injection H1 as <- <-. right.
  apply ok_or_ok in E, E0, E1, E2, E3, E6. unfold nanousd_mul in E1. apply checked_i64_some in E1 as [-> _].
  apply checked_i64_some in E3 as [-> _].
  apply Z.ltb_ge in G1. injection E as <-. injection E0 as <-. injection E2 as <-.
  assert (retained_count community run w = retained k (leads w)) as Hret by done. rewrite Hret in *.
  destruct (settlement_posted now k (r_campaign r) payer (price * limit) limit price
    (price * retained k (leads w)) (retained k (leads w)) w a4 a5 (runs w) r) as (b & -> & Hb); try done.
  - unfold retained. lia.
  - apply Hw.
  - by eapply (wo_accounts w Hw).
  - apply Hw.
  - apply put_campaign_world in E7 as [Hcok ->]. apply put_run_world in E8 as [Hrok ->].
    cbn [campaigns runs with_money with_campaigns] in *.
    exists r, payer, price, limit, a6, b. apply negb_false_iff in G2, G.
    split_and!; done.
Qed.

Lemma settled_now_ok `{CampaignLaws} now k state reason w w' o :
  settled_now now k state reason w w' o -> world_ok w -> world_ok w'.
Proof.
  intros (r & payer & price & limit & c & b & Hr & Hp & Hopen & Epay & Epr & Elim & Eres & Hns & _ & Hc & Hcok & Hrok
    & _ & _ & (Ht & Hm & es & Hl & Hes & Hsum & _) & _ & ->) Hw.
  destruct Hw as [H1 H2 H3 H4 H5]. split; cbn.
  - done.
  - by eapply settle_budgets.
  - rewrite Hl. eapply settle_ledger; try done. intros Hfree. by rewrite Eres, (Hsum Hfree).
  - by eapply settle_leads.
  - intros q rq pq. rewrite lookup_insert_Some. intros [[<- <-]|[_ Hq]] Hpq Epq; eapply Hm; [|by eapply H5].
    cbn in Epq. by eapply H5.
Qed.

Lemma settle_ok `{CampaignLaws} now community run guard state reason w w' o :
  settle_paid_run_tx now community run guard state reason w = Ok (w', o) -> world_ok w -> world_ok w'.
Proof.
  intros H1 Hw. destruct (settle_spec _ _ _ _ _ _ _ _ _ H1 Hw) as [->|Hs]; [done|]. by eapply settled_now_ok.
Qed.
