(* ===== verification/EscrowSteps.v ===== *)
(** * Facts of the Leads a run stores

    What one observation and one provider response do to the Leads, and that the
    billable limit of a paid run bounds both; then that every transaction of
    Discovery keeps the invariant of [EscrowFacts]. *)

From Stdlib Require Import ZArith Lia Ascii.
From stdpp Require Import base gmap list strings numbers relations.
From S2P Require Import Prelude MachineInt RustStr Credits CreditsFacts Campaign Escrow EscrowFacts.
Local Open Scope Z_scope.

Definition first_of (k : Key) (l : Lead) : bool :=
  String.eqb (l_community l) (fst k) && String.eqb (l_first_run l) (snd k).
Definition link_of (k : Key) (campaign : string) (l : CampaignLead) : bool :=
  String.eqb (cl_community l) (fst k) && String.eqb (cl_campaign l) campaign && String.eqb (cl_run l) (snd k).

Lemma retained_snoc k ls l : retained k (ls ++ [l]) = retained k ls + if first_of k l then 1 else 0.
Proof.
  unfold retained. rewrite List.filter_app, length_app. cbn. fold (first_of k l).
  destruct (first_of k l); cbn; lia.
Qed.
Lemma discovered_snoc k c cls l : discovered k c (cls ++ [l]) = discovered k c cls + if link_of k c l then 1 else 0.
Proof.
  unfold discovered. rewrite List.filter_app, length_app. cbn. fold (link_of k c l).
  destruct (link_of k c l); cbn; lia.
Qed.
Lemma first_of_key k l : first_of k l = true <-> k = (l_community l, l_first_run l).
Proof. unfold first_of. rewrite andb_true_iff, !String.eqb_eq. destruct k; cbn. naive_solver. Qed.
Lemma link_of_key k c l : link_of k c l = true <-> k = (cl_community l, cl_run l) /\ c = cl_campaign l.
Proof. unfold link_of. rewrite !andb_true_iff, !String.eqb_eq. destruct k; cbn. naive_solver. Qed.

(** One more Lead for an open run with room left; it may be new to the
    workspace. *)
Lemma add_lead_ok ls ls' cls rs k r lead :
  leads_ok ls cls rs -> rs !! k = Some r -> settledb r = false ->
  (paid r = true -> discovered k (r_campaign r) cls + 1 <= default 0 (r_limit r)) ->
  ls' = ls \/ (exists l, ls' = ls ++ [l] /\ (l_community l, l_first_run l) = k) ->
  (exists l', l' ∈ ls' /\ l_community l' = fst k /\ ob_id (l_observation l') = lead) ->
  leads_ok ls' (cls ++ [{| cl_community := fst k; cl_campaign := r_campaign r; cl_lead := lead; cl_run := snd k |}]) rs.
Proof.
  intros [H1 H2 H3 H4 H5] Hr Hopen Hroom Hls Hlead. set (link := Build_CampaignLead _ _ _ _).
  assert ((cl_community link, cl_run link) = k) as Hlk by (by destruct k).
  assert (forall q, q <> k -> retained q ls' = retained q ls) as Hother.
  { intros q Hne. destruct Hls as [->|(l & -> & Hl)]; [done|]. rewrite retained_snoc.
    destruct (first_of q l) eqn:Hf; [|lia]. apply first_of_key in Hf as ->. congruence. }
  assert (retained k ls' <= retained k ls + 1) as Hmine.
  { destruct Hls as [->|(l & -> & Hl)]; [lia|]. rewrite retained_snoc. destruct (first_of k l); lia. }
  split.
  - destruct Hls as [->|(l & -> & Hl)]; [done|].
    intros x [Hx | ->%list_elem_of_singleton]%elem_of_app; [by apply H1|]. rewrite Hl. eauto.
  - intros x [Hx | ->%list_elem_of_singleton]%elem_of_app; [by apply H2|]. rewrite Hlk. eauto.
  - intros x [Hx | ->%list_elem_of_singleton]%elem_of_app; [|done].
    destruct (H3 x Hx) as (l' & Hl' & ?). exists l'. split; [|done].
    destruct Hls as [->|(l & -> & _)]; [done|]. by apply elem_of_app; left.
  - intros q rq Hq Hp. rewrite discovered_snoc. destruct (decide (q = k)) as [->|Hne].
    + rewrite Hr in Hq. injection Hq as <-. rewrite (proj2 (link_of_key k _ link)) by done.
      destruct (H4 k r Hr Hp). specialize (Hroom Hp). lia.
    + rewrite Hother by done. destruct (link_of q _ link) eqn:Hl; [|rewrite Z.add_0_r; by apply H4].
      apply link_of_key in Hl as [-> _]. done.
  - intros q rq Hq Hs. rewrite Hother; [by apply H5|]. intros ->. congruence.
Qed.

(** What storing one observation did. *)
Definition stored_one (k : Key) (r : Run) (w w' : World) (added : bool) : Prop :=
  w' = with_leads (leads w') (campaign_leads w') w
  /\ leads_ok (leads w') (campaign_leads w') (runs w)
  /\ discovered k (r_campaign r) (campaign_leads w')
     = discovered k (r_campaign r) (campaign_leads w) + if added then 1 else 0.

Lemma associate_ok community run lead r w w' added :
  associate_campaign_lead community run lead w = (w', added) ->
  runs w !! (community, run) = Some r -> leads_ok (leads w) (campaign_leads w) (runs w) -> settledb r = false ->
  (paid r = true -> discovered (community, run) (r_campaign r) (campaign_leads w) + 1 <= default 0 (r_limit r)) ->
  (exists l, l ∈ leads w /\ l_community l = community /\ ob_id (l_observation l) = lead) ->
  stored_one (community, run) r w w' added.
Proof.
  unfold associate_campaign_lead. intros H0 Hr Hl Hopen Hroom Hlead. rewrite Hr in H0.
  destruct (existsb _ _); injection H0 as <- <-.
  - split_and!; [by destruct w|done|lia].
  - split_and!; [by destruct w| |].
    + cbn. apply (add_lead_ok (leads w) (leads w) _ _ (community, run) r lead); try done. by left.
    + cbn. rewrite discovered_snoc. by rewrite (proj2 (link_of_key (community, run) _ _)).
Qed.

Lemma insert_observation_ok now community run o r w w' out :
  insert_business_observation_tx now community run o w = Ok (w', out) ->
  runs w !! (community, run) = Some r -> leads_ok (leads w) (campaign_leads w) (runs w) -> settledb r = false ->
  (paid r = true -> discovered (community, run) (r_campaign r) (campaign_leads w) + 1 <= default 0 (r_limit r)) ->
  stored_one (community, run) r w w' (new_campaign_lead out).
Proof.
  unfold insert_business_observation_tx. intros H0 Hr Hl Hopen Hroom.
  destruct (find _ _) as [l|] eqn:Hf.
  { apply find_some_elem in Hf as [Hin [[Hc%String.eqb_eq _]%andb_true_iff _]%andb_true_iff].
    destruct (associate_campaign_lead _ _ _ _) as [w1 added] eqn:Ha. injection H0 as <- <-.
    eapply associate_ok; eauto. }
  destruct (sort_by _ _) as [|l rest] eqn:Hs.
  - destruct (existsb _ (leads w)) eqn:Hid; [done|]. cbn [rbind] in H0.
    unfold associate_campaign_lead in H0. cbn [runs with_leads] in H0. rewrite Hr in H0.
    destruct (existsb (same_campaign_lead _ _ _) _) eqn:Hlink; cbn in H0.
    + apply existsb_exists in Hlink as (x & Hx%list_elem_of_In & Hsame).
      unfold same_campaign_lead in Hsame. rewrite !andb_true_iff, !String.eqb_eq in Hsame. destruct Hsame as [[Hxc _] Hxl].
      destruct (ld_link_lead _ _ _ Hl x Hx) as (l' & Hl' & E1 & E2).
      eapply existsb_false in Hid; [|exact Hl']. rewrite E1, E2, Hxc, Hxl, !String.eqb_refl in Hid. done.
    + injection H0 as <- <-. split_and!; [by destruct w| |].
      * cbn. eapply (add_lead_ok (leads w) _ _ _ (community, run) r (ob_id o)); try done; [right; by eexists|].
        eexists. split; [by apply elem_of_app; right; apply list_elem_of_singleton|done].
      * cbn. rewrite discovered_snoc. by rewrite (proj2 (link_of_key (community, run) _ _)).
  - assert (l ∈ leads w /\ duplicate_lead community o l = true) as [Hin Hd].
    { assert (l ∈ sort_by lead_leb (List.filter (duplicate_lead community o) (leads w))) as Hm by (rewrite Hs; set_solver).
      rewrite sort_by_perm in Hm. apply list_elem_of_In, List.filter_In in Hm as [Hm ?]. by rewrite list_elem_of_In. }
    apply andb_true_iff in Hd as [Hc%String.eqb_eq _].
    destruct (associate_campaign_lead _ _ _ _) as [w1 added] eqn:Ha. injection H0 as <- <-.
    eapply associate_ok; eauto.
Qed.

Lemma stored_one_same (k : Key) (r : Run) w : leads_ok (leads w) (campaign_leads w) (runs w) -> stored_one k r w w false.
Proof. intros Hl. split_and!; [by destruct w|done|lia]. Qed.

(** The loop over a response stops at the limit. *)
Lemma store_observations_ok now community run provider remaining r obs stored added w w' stored' :
  store_observations now community run provider remaining obs stored added w = Ok (w', stored') ->
  runs w !! (community, run) = Some r -> leads_ok (leads w) (campaign_leads w) (runs w) -> settledb r = false ->
  added <= remaining ->
  discovered (community, run) (r_campaign r) (campaign_leads w) + (remaining - added) <= default 0 (r_limit r) ->
  w' = with_leads (leads w') (campaign_leads w') w /\ leads_ok (leads w') (campaign_leads w') (runs w)
  /\ discovered (community, run) (r_campaign r) (campaign_leads w') <= default 0 (r_limit r)
  /\ (exists more, stored' = stored ++ more /\ more `sublist_of` obs
        /\ discovered (community, run) (r_campaign r) (campaign_leads w')
           = discovered (community, run) (r_campaign r) (campaign_leads w) + Z.of_nat (length more)).
Proof.
  revert stored added w. induction obs as [|o obs IH]; intros stored added w H0 Hr Hl Hopen Hle Hroom; cbn in H0.
  { injection H0 as <- <-. split_and!; [by destruct w|done|lia|]. exists []. rewrite app_nil_r. split_and!; [done..|cbn; lia]. }
  destruct ((added =? remaining) || _) eqn:Hstop.
  { injection H0 as <- <-. split_and!; [by destruct w|done|lia|]. exists []. rewrite app_nil_r.
    split_and!; [done|apply sublist_nil_l|cbn; lia]. }
  apply orb_false_iff in Hstop as [Hne%Z.eqb_neq _].
  destruct (negb _); [done|]. destruct (negb (ob_valid o)); [done|].
  destruct (insert_business_observation_tx _ _ _ _ _) as [[w1 out]|] eqn:Hins; [|done]. cbn [rbind fst snd] in H0.
  destruct (insert_observation_ok _ _ _ _ r _ _ _ Hins) as (Hw1 & Hl1 & Hd1); [done..|lia|].
  assert (runs w1 = runs w) as Hr1 by (by rewrite Hw1).
  destruct (new_campaign_lead out) eqn:Hnew; apply IH in H0; rewrite ?Hr1; try done; try lia.
  - destruct H0 as (Hw' & Hl' & Hd' & more & -> & Hsub & Hcount). rewrite Hr1 in Hl'.
    split_and!; [by rewrite Hw', Hw1|done|done|]. exists (o :: more). rewrite <- app_assoc.
    split_and!; [done|by constructor|cbn; lia].
  - destruct H0 as (Hw' & Hl' & Hd' & more & -> & Hsub & Hcount). rewrite Hr1 in Hl'.
    split_and!; [by rewrite Hw', Hw1|done|done|]. exists more. split_and!; [done|by constructor|lia].
Qed.

Lemma world_leads `{CampaignLib} ls cls w :
  world_ok w -> leads_ok ls cls (runs w) -> world_ok (with_leads ls cls w).
Proof. intros [H1 H2 H3 H4 H5] Hl. by split. Qed.

Lemma record_response_ok `{CampaignLib} now community actor run lease provider expected rid obs w w' out :
  record_response_tx now community actor run lease provider expected rid obs w = Ok (w', out) ->
  world_ok w -> world_ok w'.
Proof.
  unfold record_response_tx. intros H0 Hw. destruct (ok_or _ _) as [a|] eqn:Ha; [|done]. cbn [rbind] in H0.
  destruct (bool_decide (a_status a = AReady)). { destruct (ok_or (a_request_id a) _) as [id|]; [|done]. cbn in H0. congruence. }
  destruct (_ && negb (is_some obs)). { congruence. }
  destruct (negb _); [done|]. destruct obs as [obs|].
  2:{ injection H0 as <- _. unfold set_attempt, set_cursor. by auto. }
  destruct (ok_or (runs w !! _) _) as [r|] eqn:Hr; [|done]. cbn [rbind] in H0. apply ok_or_ok in Hr.
  destruct (ok_or (campaigns w !! _) _) as [c|] eqn:Hc; [|done]. cbn [rbind] in H0.
  destruct (negb (response_allowed _ _ _ _ _ _ _)) eqn:Hal; [done|]. apply negb_false_iff in Hal.
  destruct (ok_or (r_limit r) _) as [limit|] eqn:Hlim; [|done]. cbn [rbind] in H0. apply ok_or_ok in Hlim.
  destruct (_ || _) eqn:Hcap; [done|]. apply orb_false_iff in Hcap as [Hcap%Z.ltb_ge _].
  destruct (store_observations _ _ _ _ _ _ _ _ _) as [[w1 stored]|] eqn:Hs; [|done]. cbn [rbind] in H0.
  injection H0 as <- _.
  destruct (store_observations_ok _ _ _ _ _ r _ _ _ _ _ _ Hs) as (Hw1 & Hl1 & _); [done|apply Hw| |lia| |].
  - unfold response_allowed in Hal. rewrite !andb_true_iff in Hal. unfold settledb. by destruct Hal as (((((_ & ->%negb_true_iff) & _) & _) & _) & _).
  - change (discovered_count community (r_campaign r) run w)
      with (discovered (community, run) (r_campaign r) (campaign_leads w)). rewrite Hlim.
    change (default 0 (Some limit)) with limit. lia.
  - rewrite Hw1. unfold set_attempt, set_cursor. apply world_attempts, world_sources. by apply world_leads.
Qed.

(** ** Every transaction of budgets and paid runs keeps the invariant

    The transactions of [Escrow] as the steps of one system, next to the money
    steps of the other services, and what holds of every world they reach. *)

Local Open Scope Z_scope.

(** ** Ending runs *)

Lemma cancel_sources_ok `{CampaignLib} p w : world_ok w -> world_ok (cancel_sources p w).
Proof. apply world_sources. Qed.
#[export] Hint Resolve cancel_sources_ok : core.

Lemma cancel_run_ok `{CampaignLaws} now community run actor w w' r :
  cancel_run_tx now community run actor w = Ok (w', r) -> world_ok w -> world_ok w'.
Proof.
  unfold cancel_run_tx. intros H1 Hw. destruct (require_discovery_authorized_tx _ _ _ _); [|done]. cbn [rbind] in H1.
  destruct (require_paid_run_owner_tx _ _ _ _); [|done]. cbn [rbind] in H1.
  destruct (settle_paid_run_tx _ _ _ _ _ _ _) as [[w1 [r1|]]|] eqn:Hs; [| |done]; cbn [rbind] in H1.
  - injection H1 as <- <-. eapply settle_ok; [exact Hs|by auto].
  - assert (world_ok w1) as Hw1 by (eapply settle_ok; [exact Hs|by auto]).
    destruct (runs w1 !! _) as [r1|] eqn:Hr; [|done]. cbn [rbind ok_or] in H1.
    destruct (is_terminal _); [congruence|].
    destruct (put_run _ _ _) as [w2|] eqn:Hp; [|done]. cbn [rbind] in H1. injection H1 as <- <-.
    eapply put_run_same; [exact Hp|exact Hr|by auto|done].
Qed.

Lemma settle_each_ok `{CampaignLaws} now community ids w w' :
  settle_each now community ids w = Ok w' -> world_ok w -> world_ok w'.
Proof.
  revert w. induction ids as [|run ids IH]; intros w H1 Hw; cbn in H1; [congruence|].
  destruct (settle_paid_run_tx _ _ _ _ _ _ _) as [[w1 o]|] eqn:Hs; [|done]. cbn [rbind fst] in H1.
  eapply IH; [exact H1|]. by eapply settle_ok.
Qed.

(** A run of protocol 1 or 2 has nothing to settle, so it may stop at once. *)
Lemma stopped_row_ok r reason : run_row_ok r = true -> r_protocol r < 3 -> run_row_ok (stopped_run r reason) = true.
Proof.
  unfold run_row_ok, stopped_run. cbn [r_protocol r_payer r_price r_limit r_reserved r_settled r_released r_billed
    r_ref r_settled_at r_state]. intros H Hlt. rewrite (proj2 (Z.ltb_lt _ _) Hlt) in *. done.
Qed.

Lemma set_entitlement_ok `{CampaignLaws} now community on w w' :
  set_discovery_entitlement_tx now community on w = Ok w' -> world_ok w -> world_ok w'.
Proof.
  unfold set_discovery_entitlement_tx. intros H1 Hw. destruct on; [injection H1 as <-; by auto|].
  destruct (settle_each _ _ _ _) as [w1|] eqn:Hs; [|done]. cbn [rbind] in H1. injection H1 as <-.
  assert (world_ok w1) as Hw1 by (eapply settle_each_ok; [exact Hs|by auto]).
  apply world_same; [|done]. split.
  - intros k Hk. by rewrite map_lookup_imap, Hk.
  - intros k r Hr. rewrite map_lookup_imap, Hr. cbn [mbind option_bind].
    pose proof (bu_runs _ _ (wo_budgets _ Hw1) k r Hr) as Hok.
    destruct (_ && _) eqn:Hc; [|by exists r].
    exists (stopped_run r EntitlementRevoked). split_and!; [done|by auto|].
    rewrite !andb_true_iff in Hc. destruct Hc as [[_ Hlt%Z.ltb_lt] _]. by apply stopped_row_ok.
Qed.

Lemma reap_ok `{CampaignLaws} now community w w' :
  reap_community_tx now community w = Ok w' -> world_ok w -> world_ok w'.
Proof. unfold reap_community_tx. intros H1 Hw. eapply settle_each_ok; [exact H1|by auto]. Qed.

(** ** Workers *)

Lemma claim_run_ok `{CampaignLib} now community run actor lease w w' :
  claim_run_tx now community run actor lease w = Ok w' -> world_ok w -> world_ok w'.
Proof.
  unfold claim_run_tx. intros H1 Hw. destruct (runs w !! _) as [r|] eqn:Hr; [|congruence].
  destruct (_ && _); [|congruence]. eapply put_run_same; [exact H1|exact Hr|by auto|done].
Qed.

Lemma renew_lease_ok `{CampaignLib} now community run guard until w w' :
  renew_lease_tx now community run guard until w = Ok w' -> world_ok w -> world_ok w'.
Proof.
  unfold renew_lease_tx. intros H1 Hw. destruct (runs w !! _) as [r|] eqn:Hr; [|congruence].
  destruct (r_lease r); [|congruence]. destruct (worker_lease_matches _ _ _); [|congruence].
  eapply put_run_same; [exact H1|exact Hr|by auto|done].
Qed.

Lemma report_source_ok `{CampaignLib} community run provider next w w' :
  report_source_tx community run provider next w = Ok w' -> world_ok w -> world_ok w'.
Proof.
  unfold report_source_tx. intros H1 Hw. destruct (find _ _); [|done].
  destruct (negb _); [done|]. injection H1 as <-. by auto.
Qed.

Lemma finish_run_ok `{CampaignLaws} now community run guard action state reason w w' out :
  finish_run_tx now community run guard action state reason w = Ok (w', out) -> world_ok w -> world_ok w'.
Proof.
  unfold finish_run_tx. intros H1 Hw. destruct (require_worker_lease_protocol _ _ _); [|done]. cbn [rbind] in H1.
  destruct (settle_paid_run_tx _ _ _ _ _ _ _) as [[w1 [r1|]]|] eqn:Hs; [| |done]; cbn [rbind] in H1.
  - injection H1 as <- <-. by eapply settle_ok.
  - assert (world_ok w1) as Hw1 by by eapply settle_ok.
    destruct (runs w1 !! _) as [r1|] eqn:Hr; [|done]. cbn [rbind ok_or] in H1.
    destruct (negb (worker_lease_matches _ _ _)); [congruence|].
    destruct (_ && _); [done|]. destruct (put_run _ _ _) as [w2|] eqn:Hp; [|done]. cbn [rbind] in H1.
    injection H1 as <- <-. eapply put_run_same; [exact Hp|exact Hr|by auto|done].
Qed.

(** An observation an older worker stores for a run that is not paid. *)
Lemma old_observation_ok `{CampaignLib} now community run o r w w' out :
  insert_business_observation_tx now community run o w = Ok (w', out) ->
  runs w !! (community, run) = Some r -> paid r = false -> world_ok w -> world_ok w'.
Proof.
  intros H1 Hr Hp Hw.
  destruct (insert_observation_ok _ _ _ _ r _ _ _ H1 Hr (wo_leads _ Hw)) as (-> & Hl & _); [|by rewrite Hp|by apply world_leads].
  by destruct (unpaid_row r (bu_runs _ _ (wo_budgets _ Hw) _ _ Hr) Hp) as (_ & _ & _ & ? & _).
Qed.

Lemma fence_ok `{CampaignLib} now community actor run lease provider fence w :
  world_ok w -> world_ok (fst (fence_submission_tx now community actor run lease provider fence w)).
Proof.
  unfold fence_submission_tx. intros Hw. destruct (runs w !! _) as [r|]; [|done].
  destruct (campaigns w !! _), (r_payer r); try done. destruct (_ && _); cbn; by auto.
Qed.

(** ** The system *)

(** A transaction without an answer. *)
Definition tx (f : World -> Result World DbError) (w : World) : Result (World * unit) DbError :=
  let? w := f w in Ok (w, tt).
(** People join, leave and change their agents. *)
Definition with_people (u : gmap (string * string) (option string)) (m g : list (string * string)) (w : World) : World :=
  {| money := money w; campaigns := campaigns w; runs := runs w; sources := sources w; attempts := attempts w;
     leads := leads w; campaign_leads := campaign_leads w; claims := claims w; users := u; members := m;
     grants := g; entitlements := entitlements w |}.

Inductive discovery_step `{CampaignLib} : World -> World -> Prop :=
| ws_insert fault community c w :
    discovery_step w (snd (run_tx Sqlx fault (tx (insert_campaign_tx community c)) w))
| ws_approve fault now community actor verified event a w :
    discovery_step w (snd (run_tx Sqlx fault (tx (approve_campaign_budget_tx now community actor verified event a)) w))
| ws_budget_state fault community actor campaign state w :
    discovery_step w (snd (run_tx Sqlx fault (tx (set_campaign_budget_state_tx community actor campaign state)) w))
| ws_start fault now community campaign key actor steps w :
    discovery_step w (snd (run_tx Sqlx fault (tx (start_paid_run_tx now community campaign key actor steps)) w))
| ws_cancel fault now community run actor w :
    discovery_step w (snd (run_tx Sqlx fault (cancel_run_tx now community run actor) w))
| ws_entitle fault now community on w :
    discovery_step w (snd (run_tx Sqlx fault (tx (set_discovery_entitlement_tx now community on)) w))
| ws_reap fault now community w :
    discovery_step w (snd (run_tx Sqlx fault (tx (reap_community_tx now community)) w))
| ws_claim fault now community run actor lease w :
    discovery_step w (snd (run_tx Sqlx fault (tx (claim_run_tx now community run actor lease)) w))
| ws_renew fault now community run guard until w :
    discovery_step w (snd (run_tx Sqlx fault (tx (renew_lease_tx now community run guard until)) w))
| ws_report fault community run provider next w :
    discovery_step w (snd (run_tx Sqlx fault (tx (report_source_tx community run provider next)) w))
| ws_finish fault now community run guard action state reason w :
    discovery_step w (snd (run_tx Sqlx fault (finish_run_tx now community run guard action state reason) w))
| ws_fence now community actor run lease provider fence w :
    discovery_step w (fst (fence_submission_tx now community actor run lease provider fence w))
| ws_response fault now community actor run lease provider expected rid obs w :
    discovery_step w (snd (run_tx Sqlx fault
      (record_response_tx now community actor run lease provider expected rid obs) w))
| ws_observation fault now community run o r w :
    runs w !! (community, run) = Some r -> paid r = false ->
    discovery_step w (snd (run_tx Sqlx fault (insert_business_observation_tx now community run o) w))
| ws_people u m g w : discovery_step w (with_people u m g w).

(** Next to them the other services move money, under any references. *)
Inductive world_step `{CampaignLib} : World -> World -> Prop :=
| step_discovery w w' : discovery_step w w' -> world_step w w'
| step_money t w : money_step (money w) t -> world_step w (with_money t w).

Lemma tx_ind (P : World -> Prop) fault f w :
  P w -> (forall w', f w = Ok w' -> P w') -> P (snd (run_tx Sqlx fault (tx f) w)).
Proof.
  intros H1 H2. apply (run_tx_ind P); [done|]. unfold tx. intros w' []. destruct (f w) as [w1|]; [|done].
  cbn. intros [= ->]. by apply H2.
Qed.

Lemma discovery_step_ok `{CampaignLaws} w w' : discovery_step w w' -> world_ok w -> world_ok w'.
Proof.
  intros Hs Hw. destruct Hs; try (apply (tx_ind world_ok); [done|intros w' Hok]);
    try (apply (run_tx_ind world_ok); [done|intros w' out Hok]).
  - by eapply insert_campaign_ok.
  - by eapply approve_ok.
  - by eapply budget_state_ok.
  - by eapply start_ok.
  - by eapply cancel_run_ok.
  - by eapply set_entitlement_ok.
  - by eapply reap_ok.
  - by eapply claim_run_ok.
  - by eapply renew_lease_ok.
  - by eapply report_source_ok.
  - by eapply finish_run_ok.
  - by apply fence_ok.
  - by eapply record_response_ok.
  - by eapply old_observation_ok.
  - destruct Hw as [H1 H2 H3 H4 H5]. by split.
Qed.

Lemma world_step_ok `{CampaignLaws} w w' : world_step w w' -> world_ok w -> world_ok w'.
Proof. intros [w1 w2 Hs|t w1 Hs] Hw; [by eapply discovery_step_ok|by apply money_world_ok]. Qed.
