(* ===== verification/EscrowFunds.v ===== *)
(** * Settling an open run cannot be refused

    Whatever state a reachable world is in, the settlement of an open paid run
    whose sources are closed goes through: no row is refused by the ledger's
    indexes, no check of a table fails and no amount overflows, as long as the
    payer's balance has room for the reservation that comes back. Then what the
    transactions do to balances and the holds on them. *)

From Stdlib Require Import ZArith Lia Ascii.
From stdpp Require Import base gmap list strings numbers relations.
From S2P Require Import Prelude MachineInt RustStr Credits CreditsFacts Campaign Escrow EscrowFacts EscrowSteps.
Local Open Scope Z_scope.

Lemma map_sum_nonneg f m : (forall k r, m !! k = Some r -> 0 <= f k r) -> 0 <= map_sum f m.
Proof.
  intros H. unfold map_sum.
  assert (forall kr, kr ∈ map_to_list m -> 0 <= f (fst kr) (snd kr)) as Hl.
  { intros [k r] Hin%elem_of_map_to_list. by apply H. }
  induction (map_to_list m) as [|kr l IH]; [done|]. rewrite zsum_cons.
  assert (0 <= f (fst kr) (snd kr)) by (apply Hl; set_solver).
  assert (0 <= zsum (fun kr => f kr.1 kr.2) l) by (apply IH; intros x Hx; apply Hl; set_solver). lia.
Qed.

Lemma map_sum_elem f m k r :
  m !! k = Some r -> (forall q rq, m !! q = Some rq -> 0 <= f q rq) -> f k r <= map_sum f m.
Proof.
  intros Hk H. rewrite <- (insert_delete_id m k r Hk), map_sum_insert_new by apply lookup_delete_eq.
  assert (0 <= map_sum f (delete k m)); [|lia].
  apply map_sum_nonneg. intros q rq [_ Hq]%lookup_delete_Some. by apply H.
Qed.

Lemma open_hold_nonneg r : run_row_ok r = true -> 0 <= open_hold r.
Proof.
  intros Hok. destruct (paid r) eqn:Hp.
  - destruct (paid_row r Hok Hp) as (_ & price & limit & _ & _ & _ & Hres & ? & ? & _).
    unfold open_hold. destruct (settledb r); [lia|]. rewrite Hres. cbn. nia.
  - by destruct (unpaid_zero r Hok Hp) as [-> _].
Qed.

(** A Campaign's reservation covers each of its open runs. *)
Lemma open_hold_le cs rs k r c :
  budgets_ok cs rs -> rs !! k = Some r -> cs !! (fst k, r_campaign r) = Some c -> open_hold r <= c_reserved c.
Proof.
  intros Hb Hr Hc. rewrite (bu_reserved _ _ Hb _ _ Hc).
  rewrite <- (of_campaign_hit (fst k, r_campaign r) open_hold k r) by done.
  apply map_sum_elem; [done|]. intros q rq Hq. unfold of_campaign. destruct (_ && _); [|lia].
  apply open_hold_nonneg. by apply (bu_runs _ _ Hb q).
Qed.

(** No other community has a run of the same identifier, the hash of a
    community's own. *)
Definition own_id (k : Key) (w : World) : Prop := forall c r, runs w !! (c, snd k) = Some r -> c = fst k.
(** No row yet charges an open run. *)
Lemma no_charge_yet `{CampaignLaws} w k r row :
  world_ok w -> own_id k w -> runs w !! k = Some r -> settledb r = false ->
  discovery_debit_of row = Some (snd k) -> existsb (same_discovery_debit row) (ledger (book (money w))) = false.
Proof.
  intros Hw Hown Hr Hopen Hrow. apply existsb_false. intros e He. apply not_true_iff_false.
  unfold same_discovery_debit. rewrite Hrow. intros [_ Hsame]%andb_true_iff.
  unfold discovery_debit_of in Hsame. destruct (String.eqb_spec (kind e) "debit") as [Hkind|]; [|done].
  destruct (discovery e) as [d|] eqn:Hd; [|done]. cbn in Hsame. apply String.eqb_eq in Hsame.
  destruct (le_rows _ _ (wo_ledger w Hw) e d He Hd) as (r' & Hr' & _ & _ & [[Hh _]|[Hs _]]); [congruence|].
  rewrite <- Hsame in Hr'. rewrite (Hown _ _ Hr') in Hr'. destruct k as [kc kr]. cbn in Hr'. congruence.
Qed.

(** A row the ledger takes. *)
Lemma post_total row w a :
  ledger_row_ok row = true -> (entry_key row ∉ entry_key <$> ledger (book (money w))) ->
  existsb (same_discovery_debit row) (ledger (book (money w))) = false ->
  accounts (book (money w)) !! pubkey row = Some a -> in_i64 (balance a + delta row) = true ->
  exists w1 e w2, on_money (insert_ledger row) w = Ok (w1, Some e)
    /\ on_accounts (add_balance (delta row) (pubkey row)) w1 = Ok w2.
Proof.
  intros Hok Hnew Hdup Ha Hin. unfold on_money, on_book. rewrite insert_ledger_spec, Hok. cbn [negb].
  rewrite bool_decide_eq_false_2 by done. rewrite Hdup. cbn [rbind fst snd].
  eexists _, _, _. split; [done|].
  unfold on_accounts, add_balance. cbn [money with_money with_book book accounts]. rewrite Ha.
  assert (checked_i64 (balance a + delta row) = Some (balance a + delta row)) as -> by (by apply checked_i64_some).
  done.
Qed.

(** The money of a settlement is accepted. *)
Lemma settlement_total `{CampaignLaws} now w k r payer price limit count a :
  world_ok w -> own_id k w -> taken k payer (ledger (book (money w))) = false ->
  runs w !! k = Some r -> settledb r = false ->
  accounts (book (money w)) !! payer = Some a -> octet_length payer = 32 ->
  0 < price -> 0 < limit -> 0 <= count <= limit ->
  in_i64 (balance a + price * limit) = true ->
  exists w1 w2,
    release_hold_tx now (fst k) (r_campaign r) (snd k) payer (price * limit) limit price w = Ok w1
    /\ (if 0 <? count then charge_leads_tx now (fst k) (r_campaign r) (snd k) payer (price * count) count price w1
        else Ok w1) = Ok w2.
Proof.
  intros Hw Hown Hfree Hr Hopen Ha Hlen Hp Hl Hc Hin.
  assert (is_Some (accounts (book (money w)) !! payer)) as Hacc by (by exists a).
  assert (forall prefix, prefix ∈ [release_prefix; debit_prefix] ->
    (payer, run_ref prefix (fst k) (snd k)) ∉ entry_key <$> ledger (book (money w))) as Hn.
  { intros prefix Hpre Hin'. rewrite (end_ref_new _ _ _ _ _ _ (wo_ledger w Hw) Hr Hopen Hpre Hin') in Hfree. done. }
  pose proof (Hn release_prefix ltac:(set_solver)) as Hn1. pose proof (Hn debit_prefix ltac:(set_solver)) as Hn2.
  set (rel := discovery_row now payer "release" (run_ref release_prefix (fst k) (snd k)) (price * limit) limit price
    (fst k) (r_campaign r) (snd k)).
  destruct (post_total rel w a) as (w0 & e & w1 & Hm & Hadd); [| | |done|done|].
  { unfold ledger_row_ok, discovery_charge_ok. cbn. rewrite !andb_true_iff, !Z.eqb_eq, !Z.ltb_lt.
    split_and!; (done || nia). }
  { exact Hn1. }
  { apply existsb_false. intros x _. unfold same_discovery_debit. cbn. by rewrite andb_false_r. }
  assert (release_hold_tx now (fst k) (r_campaign r) (snd k) payer (price * limit) limit price w = Ok w1) as Hrel.
  { unfold release_hold_tx. fold rel. rewrite Hm. exact Hadd. }
  exists w1. destruct (Z.ltb_spec 0 count) as [Hpos|]; [|by exists w1].
  destruct (release_posted _ _ _ _ _ _ _ _ _ _ Hrel (wo_money w Hw) Hacc) as [(b & -> & Ht & Hlb & Hmono & Hbal)|[_ ?]]; [|done].
  destruct (Hmono payer Hacc) as [a1 Ha1].
  assert (balance a1 = balance a + price * limit) as Hb1.
  { specialize (Hbal payer). unfold account_or_new in Hbal. rewrite Ha, Ha1 in Hbal. cbn in Hbal.
    by rewrite String.eqb_refl in Hbal. }
  set (deb := discovery_row now payer "debit" (run_ref debit_prefix (fst k) (snd k)) (- (price * count)) count price
    (fst k) (r_campaign r) (snd k)).
  destruct (post_total deb (with_money (with_book b (money w)) w) a1) as (w2 & e2 & w3 & Hm2 & Hadd2).
  { unfold ledger_row_ok, discovery_charge_ok. cbn. rewrite !andb_true_iff, !Z.eqb_eq, !Z.ltb_lt.
    split_and!; (done || nia). }
  { cbn. rewrite Hlb, fmap_app, elem_of_app. intros [Hx|Hx]; [done|].
    apply list_elem_of_singleton in Hx. cbn in Hx. injection Hx as Hx.
    by destruct (refs_apart (fst k) (snd k) (fst k) (snd k)) as (_ & _ & A). }
  { cbn [money with_money with_book book]. rewrite Hlb, existsb_app. apply orb_false_iff. split.
    - by eapply no_charge_yet.
    - cbn. unfold same_discovery_debit. cbn. by rewrite andb_false_r. }
  { done. }
  { cbn [delta deb discovery_row]. destruct (bo_balance _ (to_book _ Ht) payer a1 Ha1) as [_ Hi1].
    destruct (bo_balance _ (to_book _ (wo_money w Hw)) payer a Ha) as [_ Hi0].
    unfold in_i64 in *. rewrite !andb_true_iff, !Z.leb_le in *. nia. }
  exists w3. split; [exact Hrel|]. unfold charge_leads_tx. fold deb. rewrite Hm2. exact Hadd2.
Qed.

(** The rows a settlement writes pass their checks. *)
Lemma settled_budget_row_ok c reserved settled :
  campaign_row_ok c = true -> is_some (c_payer c) = true -> 0 <= settled <= reserved -> reserved <= c_reserved c ->
  campaign_row_ok (settled_budget c reserved settled) = true.
Proof.
  intros Hok Hpay Hs Hr. destruct (campaign_row_facts c Hok) as (H1 & H2 & H3).
  assert (c_state c <> BUnapproved) as Hst.
  { intros E. unfold campaign_row_ok in Hok. rewrite E, bool_decide_eq_true_2, Hpay in Hok by done.
    rewrite !andb_true_iff in Hok. naive_solver. }
  assert (c_state (settled_budget c reserved settled) <> BUnapproved) as Hst'.
  { cbn. destruct (c_state c); try done; by case_match. }
  unfold campaign_row_ok in *. rewrite bool_decide_eq_false_2 in * by done.
  cbn [settled_budget with_budget c_approved c_spent c_reserved c_payer c_event c_fingerprint c_price c_approved_at] in *.
  rewrite !andb_true_iff, !Z.leb_le in *. naive_solver lia.
Qed.

Lemma settled_run_row_ok now r state reason price limit count ref :
  run_row_ok r = true -> paid r = true -> r_price r = Some price -> r_limit r = Some limit ->
  is_terminal state = true -> 0 <= count <= limit -> 0 < price ->
  run_row_ok (settled_run now r state reason (price * count) (price * limit - price * count) count ref) = true.
Proof.
  intros Hok Hp Hpr Hl Ht Hc Hpos. destruct (paid_row r Hok Hp) as (payer & p & l & E1 & E2 & E3 & E4 & _ & Hl' & _).
  assert (p = price) as -> by congruence. assert (l = limit) as -> by congruence.
  assert (len32 (r_payer r) = true) as Hlen.
  { unfold run_row_ok in Hok. rewrite !andb_true_iff in Hok. tauto. }
  unfold paid in Hp. apply Z.eqb_eq in Hp. unfold run_row_ok.
  cbn [settled_run r_payer r_protocol r_price r_limit r_reserved r_settled r_released r_billed r_ref r_settled_at r_state].
  rewrite Hp, E1, Hpr, Hl, E4, Ht. rewrite E1 in Hlen. rewrite Hlen. cbn.
  rewrite !andb_true_iff, !Z.leb_le, !Z.eqb_eq, Z.ltb_lt. split_and!; (done || lia || nia).
Qed.

(** Settling an open run whose sources are closed, without a worker's guard. *)
Lemma settle_total `{CampaignLaws} now community run state reason w r payer a :
  world_ok w -> own_id (community, run) w -> taken (community, run) payer (ledger (book (money w))) = false ->
  runs w !! (community, run) = Some r -> paid r = true -> settledb r = false ->
  r_payer r = Some payer -> accounts (book (money w)) !! payer = Some a ->
  in_i64 (balance a + default 0 (r_reserved r)) = true ->
  is_terminal state = true -> sources_terminal community run w = true ->
  exists w' o, settle_paid_run_tx now community run None state reason w = Ok (w', o)
    /\ settled_now now (community, run) state reason w w' o.
Proof.
  intros Hw Hown Hfree Hr Hp Hopen Hpay Ha Hin Hst Hsrc. pose proof (wo_budgets w Hw) as Hb.
  pose proof (bu_runs _ _ Hb _ _ Hr) as Hrok.
  destruct (paid_row r Hrok Hp) as (p & price & limit & E1 & E2 & E3 & E4 & Hpos & Hlim & [(_ & Hnt & Hns)|(Hs & _)]); [|congruence].
  assert (p = payer) as -> by congruence. rewrite E4 in Hin. cbn [from_option Datatypes.id] in Hin.
  destruct (bu_payer _ _ Hb _ _ Hr Hp) as (c & Hc & Hcp & Hcpr). cbn [fst] in Hc.
  pose proof (open_hold_le _ _ _ _ _ Hb Hr Hc) as Hle. unfold open_hold in Hle. rewrite Hopen, E4 in Hle.
  cbn [from_option Datatypes.id] in Hle.
  pose proof (bu_rows _ _ Hb _ _ Hc) as Hcok. destruct (campaign_row_facts c Hcok) as (Hc1 & Hc2 & Hc3).
  pose proof (bu_approved _ _ Hb _ _ Hc) as Hci. unfold in_i64 in Hci. rewrite andb_true_iff, !Z.leb_le in Hci.
  destruct (ld_kept _ _ _ (wo_leads w Hw) _ _ Hr Hp) as [Hk1 Hk2]. rewrite E3 in Hk2. cbn [from_option Datatypes.id] in Hk2.
  set (count := retained (community, run) (leads w)).
  change (retained (community, run) (leads w)) with count in Hk1.
  assert (0 <= count <= limit) as Hcount by (unfold count, retained in *; lia).
  assert (0 <= price * count <= price * limit) as Hprod by nia.
  assert (octet_length payer = 32) as Hlen.
  { unfold run_row_ok in Hrok. rewrite E1, !andb_true_iff in Hrok. cbn in Hrok. apply Z.eqb_eq. tauto. }
  assert (forall z, 0 <= z <= price * limit -> checked_i64 z = Some z) as Hi64.
  { intros z Hz. apply checked_i64_some. split; [done|]. apply andb_true_iff. rewrite !Z.leb_le. split; [transitivity 0; done || lia|lia]. }
  destruct (settlement_total now w (community, run) r payer price limit count a) as (w1 & w2 & Hrel & Hch); try done; [lia|].
  destruct (settlement_posted _ _ _ _ _ _ _ _ _ _ _ _ _ _ Hrel Hch eq_refl (proj1 Hcount) (wo_money w Hw)
    ltac:(by exists a) (wo_ledger w Hw) Hr Hopen) as (b & -> & _).
  cbn [fst snd] in *.
  assert (exists w' o, settle_paid_run_tx now community run None state reason w = Ok (w', o)
    /\ exists r', runs w' !! (community, run) = Some r' /\ settledb r' = true) as (w' & o & Hset & r' & Hr' & Hs').
  { unfold settle_paid_run_tx. rewrite Hr. cbn [ok_or rbind]. unfold paid in Hp. rewrite Hp. cbn [negb].
    rewrite E1. cbn [ok_or rbind]. rewrite Ha, Hc. cbn [is_some negb]. unfold settledb in Hopen. rewrite Hopen, Hnt, Hsrc.
    cbn [negb]. change (retained_count community run w) with count.
    rewrite (proj2 (Z.ltb_ge 65535 count)) by lia. rewrite E2, E3, E4. cbn [ok_or rbind].
    rewrite (proj2 (Z.ltb_ge limit count)) by lia. unfold nanousd_mul.
    rewrite Hi64 by lia. cbn [ok_or rbind]. rewrite Hi64 by lia. cbn [ok_or rbind]. rewrite Hrel. cbn [rbind]. rewrite Hch. cbn [rbind].
    change (campaigns (with_money (with_book b (money w)) w)) with (campaigns w). rewrite Hc. cbn [ok_or rbind].
    unfold put_campaign. rewrite settled_budget_row_ok by (rewrite ?Hcp, ?E1; done || lia). cbn [negb rbind].
    rewrite Hst. cbn [negb rbind]. unfold put_run.
    rewrite settled_run_row_ok by (done || lia || apply Z.eqb_eq, Hp). cbn [negb rbind].
    eexists _, _. split; [done|]. eexists. cbn. by rewrite lookup_insert_eq. }
  exists w', o. split; [done|]. destruct (settle_spec _ _ _ _ _ _ _ _ _ Hset Hw) as [->|]; [congruence|done].
Qed.

(** ** What budgets and paid runs do to balances

    Every transaction of [Escrow] but the start of a run leaves each balance as
    it is or raises it, and touches no settlement intent; a start takes no more
    than what the holds of the gateway leave free. So the holds of the gateway
    stay covered by the balances. *)

Local Open Scope Z_scope.

(** No hold changes and no balance falls. *)
Definition grows (w w' : World) : Prop :=
  intents (money w') = intents (money w)
  /\ forall pk, balance (account_or_new (book (money w)) pk) <= balance (account_or_new (book (money w')) pk).

Lemma grows_refl w w' : money w' = money w -> grows w w'.
Proof. intros H. unfold grows. by rewrite H. Qed.
Lemma grows_trans w1 w2 w3 : grows w1 w2 -> grows w2 w3 -> grows w1 w3.
Proof. intros [H1 H2] [H3 H4]. split; [congruence|]. intros pk. specialize (H2 pk). specialize (H4 pk). lia. Qed.
Lemma grows_covered w w' : grows w w' -> covered (money w) -> covered (money w').
Proof.
  intros [Hi Hb] Hc pk. specialize (Hc pk). specialize (Hb pk).
  unfold gateway_reserved_sum in *. rewrite Hi. lia.
Qed.
#[export] Hint Resolve grows_refl : core.

Lemma grows_put_run k r w w' : put_run k r w = Ok w' -> grows w w'.
Proof. intros [_ ->]%put_run_world. by apply grows_refl. Qed.
Lemma grows_put_campaign k c w w' : put_campaign k c w = Ok w' -> grows w w'.
Proof. intros [_ ->]%put_campaign_world. by apply grows_refl. Qed.

Lemma grows_ensure `{CampaignLib} pk w w' : on_accounts (ensure_account pk) w = Ok w' -> world_ok w -> grows w w'.
Proof.
  intros H1 Hw. destruct (ensure_world _ _ _ H1 Hw) as (_ & _ & _ & _ & _ & _ & _ & _ & _ & Hi & Hb).
  split; [done|]. intros q. by rewrite Hb.
Qed.

Lemma grows_approve `{CampaignLib} now community actor verified event a w w' :
  approve_campaign_budget_tx now community actor verified event a w = Ok w' -> world_ok w -> grows w w'.
Proof.
  unfold approve_campaign_budget_tx. intros H0 Hw. steps H0.
  eapply grows_trans; [by eapply grows_ensure|]. eapply grows_trans; [|by eapply grows_put_campaign].
  by apply grows_refl.
Qed.

(** No other service has taken a closing reference of an open run. *)
Definition untaken `{CampaignLib} (w : World) : Prop :=
  forall k r payer, runs w !! k = Some r -> paid r = true -> settledb r = false -> r_payer r = Some payer ->
    taken k payer (ledger (book (money w))) = false.

Lemma settle_untaken `{CampaignLaws} now community run guard state reason w w' o :
  settle_paid_run_tx now community run guard state reason w = Ok (w', o) -> world_ok w -> untaken w -> untaken w'.
Proof.
  intros H1 Hw Hfree. destruct (settle_spec _ _ _ _ _ _ _ _ _ H1 Hw) as [->|Hs]; [done|].
  destruct Hs as (r & payer & price & limit & c & b & _ & _ & _ & _ & _ & _ & _ & _ & _ & _ & _ & _
    & _ & _ & (_ & _ & es & Hl & Hes & _) & _ & ->).
  intros k r' payer'. cbn [runs with_runs money with_campaigns with_money book with_book]. rewrite lookup_insert_Some.
  intros [[_ <-]|[_ Hr']] Hp Hopen Hpay; [done|].
  rewrite Hl, taken_app, (Hfree k r' payer' Hr' Hp Hopen Hpay). apply taken_discovery.
  intros e He. destruct (Hes e He) as (_ & (d & -> & _) & _). done.
Qed.

Lemma grows_settle `{CampaignLaws} now community run guard state reason w w' o :
  settle_paid_run_tx now community run guard state reason w = Ok (w', o) -> world_ok w -> untaken w -> grows w w'.
Proof.
  intros H1 Hw Hfree. destruct (settle_spec _ _ _ _ _ _ _ _ _ H1 Hw) as [->|Hs]; [by apply grows_refl|].
  destruct Hs as (r & payer & price & limit & c & b & Hr & Hp & Hopen & Epay & Epr & Elim & _ & _ & Hle & _ & _ & _
    & _ & _ & (_ & _ & es & _ & _ & Hsum & Hbal) & _ & ->).
  specialize (Hsum (Hfree _ _ _ Hr Hp Hopen Epay)).
  destruct (paid_row r (bu_runs _ _ (wo_budgets w Hw) _ _ Hr) Hp) as (_ & p & l & _ & E1 & _ & _ & Hpos & _).
  assert (p = price) as -> by congruence. split; [done|]. intros q. cbn [money with_runs with_campaigns with_money book with_book].
  rewrite Hbal, Hsum. destruct (String.eqb payer q); nia.
Qed.

Lemma grows_each `{CampaignLaws} now community ids w w' :
  settle_each now community ids w = Ok w' -> world_ok w -> untaken w -> grows w w'.
Proof.
  revert w. induction ids as [|run ids IH]; intros w H1 Hw Hfree; cbn in H1; [injection H1 as ->; by apply grows_refl|].
  destruct (settle_paid_run_tx _ _ _ _ _ _ _) as [[w1 o]|] eqn:Hs; [|done]. cbn [rbind fst] in H1.
  eapply grows_trans; [by eapply grows_settle|]. apply IH; [done|by eapply settle_ok|by eapply settle_untaken].
Qed.

Lemma grows_cancel `{CampaignLaws} now community run actor w w' r :
  cancel_run_tx now community run actor w = Ok (w', r) -> world_ok w -> untaken w -> grows w w'.
Proof.
  unfold cancel_run_tx. intros H1 Hw Hfree. destruct (require_discovery_authorized_tx _ _ _ _); [|done].
  cbn [rbind] in H1. destruct (require_paid_run_owner_tx _ _ _ _); [|done]. cbn [rbind] in H1.
  destruct (settle_paid_run_tx _ _ _ _ _ _ _) as [[w1 o]|] eqn:Hs; [|done]. cbn [rbind] in H1.
  assert (grows w w1) as Hg.
  { eapply grows_trans; [|eapply grows_settle; [exact Hs|by auto|exact Hfree]]. by apply grows_refl. }
  destruct o as [r1|]; [by injection H1 as <- <-|].
  destruct (ok_or (runs w1 !! _) _) as [r1|]; [|done]. cbn [rbind] in H1.
  destruct (is_terminal _); [by injection H1 as <- <-|].
  destruct (put_run _ _ _) as [w2|] eqn:Hp; [|done]. cbn [rbind] in H1. injection H1 as <- <-.
  eapply grows_trans; [exact Hg|]. by eapply grows_put_run.
Qed.

Lemma grows_finish `{CampaignLaws} now community run guard action state reason w w' out :
  finish_run_tx now community run guard action state reason w = Ok (w', out) -> world_ok w -> untaken w -> grows w w'.
Proof.
  unfold finish_run_tx. intros H1 Hw Hfree. destruct (require_worker_lease_protocol _ _ _); [|done]. cbn [rbind] in H1.
  destruct (settle_paid_run_tx _ _ _ _ _ _ _) as [[w1 o]|] eqn:Hs; [|done]. cbn [rbind] in H1.
  pose proof (grows_settle _ _ _ _ _ _ _ _ _ Hs Hw Hfree) as Hg.
  destruct o as [r1|]; [by injection H1 as <- <-|].
  destruct (ok_or (runs w1 !! _) _) as [r1|]; [|done]. cbn [rbind] in H1.
  destruct (negb (worker_lease_matches _ _ _)); [by injection H1 as <- <-|].
  destruct (_ && _); [done|]. destruct (put_run _ _ _) as [w2|] eqn:Hp; [|done]. cbn [rbind] in H1.
  injection H1 as <- <-. eapply grows_trans; [exact Hg|]. by eapply grows_put_run.
Qed.

Lemma grows_entitlement `{CampaignLaws} now community on w w' :
  set_discovery_entitlement_tx now community on w = Ok w' -> world_ok w -> untaken w -> grows w w'.
Proof.
  unfold set_discovery_entitlement_tx. intros H1 Hw Hfree. destruct on; [injection H1 as <-; by apply grows_refl|].
  destruct (settle_each _ _ _ _) as [w1|] eqn:Hs; [|done]. cbn [rbind] in H1. injection H1 as <-.
  apply grows_trans with w1; [|by apply grows_refl].
  eapply grows_trans; [|eapply grows_each; [exact Hs|by auto|exact Hfree]]. by apply grows_refl.
Qed.

(** Observations and responses move no money. *)
Lemma associate_money community run lead w :
  money (fst (associate_campaign_lead community run lead w)) = money w.
Proof. unfold associate_campaign_lead. repeat case_match; done. Qed.
Lemma insert_observation_money now community run o w w' out :
  insert_business_observation_tx now community run o w = Ok (w', out) -> money w' = money w.
Proof.
  unfold insert_business_observation_tx.
  assert (forall lead w1 b, associate_campaign_lead community run lead w = (w1, b) -> money w1 = money w) as Hold.
  { intros lead w1 b Ha. by rewrite <- (associate_money community run lead w), Ha. }
  intros H1. destruct (find _ _).
  { destruct (associate_campaign_lead _ _ _ _) eqn:Ha. injection H1 as <- <-. by eapply Hold. }
  destruct (sort_by _ _).
  - destruct (existsb _ _); [done|]. destruct (associate_campaign_lead _ _ _ _) as [w1 b] eqn:Ha. injection H1 as <- <-.
    by rewrite <- (f_equal fst Ha : _ = w1), associate_money.
  - destruct (associate_campaign_lead _ _ _ _) eqn:Ha. injection H1 as <- <-. by eapply Hold.
Qed.
Lemma store_observations_money now community run provider remaining obs stored added w w' stored' :
  store_observations now community run provider remaining obs stored added w = Ok (w', stored') ->
  money w' = money w.
Proof.
  revert stored added w. induction obs as [|o obs IH]; intros stored added w H0; cbn in H0; [by injection H0 as <- <-|].
  destruct (_ || _); [by injection H0 as <- <-|]. destruct (negb _); [done|]. destruct (negb (ob_valid o)); [done|].
  destruct (insert_business_observation_tx _ _ _ _ _) as [[w1 out]|] eqn:Hins; [|done]. cbn [rbind fst snd] in H0.
  apply insert_observation_money in Hins. rewrite <- Hins. destruct (new_campaign_lead out); by eapply IH.
Qed.
Lemma record_response_money now community actor run lease provider expected rid obs w w' out :
  record_response_tx now community actor run lease provider expected rid obs w = Ok (w', out) ->
  money w' = money w.
Proof.
  unfold record_response_tx. intros H0. destruct (ok_or _ _) as [a|]; [|done]. cbn [rbind] in H0.
  destruct (bool_decide (a_status a = AReady)); [destruct (ok_or (a_request_id a) _); [|done]; cbn in H0; congruence|].
  destruct (_ && negb (is_some obs)); [congruence|]. destruct (negb _); [done|].
  destruct obs as [obs|]; [|by injection H0 as <- _].
  steps H0. destruct a3 as [w1 stored]. injection H0 as <- _. by apply store_observations_money in E2.
Qed.

(** ** Starting a run spends only what is free *)

Lemma saturated_enough x reserved :
  Z.max (saturate_i64 x) 0 >= reserved -> 0 < reserved -> reserved <= x.
Proof. unfold saturate_i64, i64_min, i64_max. lia. Qed.

Lemma start_covered `{CampaignLib} now community campaign key actor steps w w' :
  start_paid_run_tx now community campaign key actor steps w = Ok w' -> world_ok w ->
  covered (money w) -> covered (money w').
Proof.
  intros H0 Hw Hc. destruct (start_spec _ _ _ _ _ _ _ _ H0 Hw)
    as (p & w1 & c & b & e & budget & Hres & _ & _ & _ & _ & Hrok & _ & _ & _ & _ & _ & _ & _ & _ & Hbal & ->).
  destruct (reserve_spec _ _ _ _ _ _ Hres)
    as (_ & _ & _ & _ & _ & _ & _ & Hmul & Hpos & _ & _ & _ & Hav & _).
  destruct (paid_row _ Hrok eq_refl) as (? & price & limit & _ & E1 & E2 & _ & Hprice & _).
  assert (pr_price p = price) as Hp by (cbn in E1; congruence).
  intros q. cbn [money with_sources with_money book with_book]. rewrite Hbal.
  change (gateway_reserved_sum q (with_book b (money w))) with (gateway_reserved_sum q (money w)).
  destruct (String.eqb_spec (pr_payer p) q) as [<-|]; [|specialize (Hc q); lia].
  apply saturated_enough in Hav; [|rewrite Hmul, Hp; by apply Z.mul_pos_pos]. lia.
Qed.

Lemma discovery_step_covered `{CampaignLaws} w w' :
  discovery_step w w' -> world_ok w -> untaken w -> covered (money w) -> covered (money w').
Proof.
  intros Hs Hw Hfree Hc. destruct Hs; try (apply (tx_ind (fun w' => covered (money w'))); [done|intros w' Hok]);
    try (apply (run_tx_ind (fun w' => covered (money w'))); [done|intros w' out Hok]);
    first [by eapply start_covered | eapply (grows_covered w); [|done]].
  - unfold insert_campaign_tx in Hok. steps Hok. by eapply grows_put_campaign.
  - by eapply grows_approve.
  - unfold set_campaign_budget_state_tx in Hok. steps Hok. by eapply grows_put_campaign.
  - by eapply grows_cancel.
  - by eapply grows_entitlement.
  - unfold reap_community_tx in Hok. eapply grows_trans; [|eapply grows_each; [exact Hok|by auto|exact Hfree]]. by apply grows_refl.
  - unfold claim_run_tx in Hok.
    repeat case_match; first [injection Hok as <-; by apply grows_refl | by eapply grows_put_run].
  - unfold renew_lease_tx in Hok.
    repeat case_match; first [done | injection Hok as <-; by apply grows_refl | by eapply grows_put_run].
  - unfold report_source_tx in Hok. repeat case_match; try done. injection Hok as <-. by apply grows_refl.
  - by eapply grows_finish.
  - apply grows_refl. unfold fence_submission_tx. by repeat case_match.
  - apply grows_refl. by eapply record_response_money.
  - apply grows_refl. by eapply insert_observation_money.
  - by apply grows_refl.
Qed.

(** Worlds whose other services are careful with money, and leave the closing
    references of open runs alone. *)
Inductive careful_world `{CampaignLib} : World -> World -> Prop :=
| careful_discovery w w' : discovery_step w w' -> untaken w -> careful_world w w'
| careful_money t w : careful_step (money w) t -> careful_world w (with_money t w).

Lemma careful_world_covered `{CampaignLaws} w w' :
  careful_world w w' -> world_ok w -> covered (money w) -> world_ok w' /\ covered (money w').
Proof.
  intros [w1 w2 Hs Hfree|t w1 Hs] Hw Hc.
  - split; [by eapply discovery_step_ok|by eapply discovery_step_covered].
  - split; [by apply money_world_ok; [apply careful_is_step|]|]. eapply careful_covered; [exact Hs|apply Hw|done].
Qed.
