(* ===== verification/EscrowTheorems.v ===== *)
(** * What budgets and paid runs guarantee

    Of every world the transactions of [Escrow] reach from an empty one, next to
    any money steps of the other services, under whatever references, and whatever
    the database does to each commit. *)

From Stdlib Require Import ZArith Lia Ascii.
From stdpp Require Import base gmap list strings numbers relations.
From S2P Require Import Prelude MachineInt RustStr Credits CreditsFacts Campaign Escrow EscrowFacts EscrowSteps EscrowFunds.
Local Open Scope Z_scope.

Lemma empty_world_ok `{CampaignLib} : world_ok empty_world.
Proof.
  split; cbn; [| | | |by intros ? ?].
  - split; [apply empty_book_ok|]. split; cbn; try constructor; by intros ? ?%elem_of_nil.
  - split; by intros ? ?.
  - split; [by intros ? ? ?%elem_of_nil|by intros ? ?].
  - split; [by intros ? ?%elem_of_nil..|by intros ? ?|by intros ? ?].
Qed.

(** The worlds the program reaches. *)
Definition reachable `{CampaignLib} (w : World) : Prop := rtc world_step empty_world w.
Lemma steps_world_ok `{CampaignLaws} w w' : rtc world_step w w' -> world_ok w -> world_ok w'.
Proof. intros Hs. induction Hs as [|w w1 w2 H1 _ IH]; [done|]. intros Hw. by eapply IH, world_step_ok. Qed.
Lemma reachable_ok `{CampaignLaws} w : reachable w -> world_ok w.
Proof. intros Hs. eapply steps_world_ok; [exact Hs|apply empty_world_ok]. Qed.

(** C3. Every nanodollar of a paid run is accounted for. In every world the
    transactions reach, whatever the other services write, the balance of an
    account is the sum of its ledger, and what a Campaign holds and has spent are
    the sums over its open and its settled runs and together stay within the
    approved budget. The ledger rows of a run sum to minus its reservation while it
    is open and to minus its price once it is settled, unless another service
    wrote, on the payer's account, an entry under one of the run's two closing
    references. *)
Theorem discovery_money_adds_up `{CampaignLaws} w :
  reachable w ->
  (forall pk a, accounts (book (money w)) !! pk = Some a ->
     balance a = ledger_sum pk (ledger (book (money w))))
  /\ (forall k c, campaigns w !! k = Some c ->
        c_reserved c = map_sum (of_campaign k open_hold) (runs w)
        /\ c_spent c = map_sum (of_campaign k spent_by) (runs w)
        /\ 0 <= c_spent c /\ 0 <= c_reserved c /\ c_spent c + c_reserved c <= c_approved c)
  /\ (forall k r payer, runs w !! k = Some r -> paid r = true -> r_payer r = Some payer ->
        taken k payer (ledger (book (money w))) = false ->
        run_net k (ledger (book (money w))) = if settledb r then - spent_by r else - default 0 (r_reserved r)).
Proof.
  intros Hw%reachable_ok. split_and!.
  - intros pk a Ha. by apply (bo_balance _ (to_book _ (wo_money w Hw))).
  - intros k c Hc. destruct (campaign_row_facts c (bu_rows _ _ (wo_budgets w Hw) k c Hc)) as (? & ? & ?).
    split_and!; try done; [by apply (bu_reserved _ _ (wo_budgets w Hw))|by apply (bu_spent _ _ (wo_budgets w Hw))].
  - intros k r payer. apply (le_net _ _ (wo_ledger w Hw)).
Qed.

(** C12. A paid run never keeps more Leads than it may bill, it is settled
    exactly when it has ended, and then it was charged its price for each Lead it
    kept, no more and no less, the rest of its reservation having gone back. *)
Theorem runs_pay_for_what_they_keep `{CampaignLaws} w k r :
  reachable w -> runs w !! k = Some r -> paid r = true ->
  exists price limit,
    r_price r = Some price /\ r_limit r = Some limit /\ r_reserved r = Some (price * limit)
    /\ retained k (leads w) <= limit
    /\ settledb r = is_terminal (r_state r)
    /\ if settledb r
       then r_billed r = Some (retained k (leads w))
            /\ r_settled r = Some (price * retained k (leads w))
            /\ r_released r = Some (price * (limit - retained k (leads w)))
       else r_settled r = None.
Proof.
  intros Hw%reachable_ok Hr Hp.
  destruct (paid_row r (bu_runs _ _ (wo_budgets w Hw) k r Hr) Hp)
    as (payer & price & limit & _ & E2 & E3 & E4 & _ & _ & Hcase).
  destruct (ld_kept _ _ _ (wo_leads w Hw) k r Hr Hp) as [Hk1 Hk2]. rewrite E3 in Hk2.
  change (retained k (leads w) <= discovered k (r_campaign r) (campaign_leads w)) in Hk1.
  exists price, limit. destruct Hcase as [(-> & -> & Hn)|(Hs & -> & billed & Hb & Hset & _ & Hrel)].
  { split_and!; try done. by etrans. }
  pose proof (ld_billed _ _ _ (wo_leads w Hw) k r Hr Hs) as Hb'. assert (billed = retained k (leads w)) as -> by congruence.
  rewrite Hs. split_and!; try done; [by etrans|]. rewrite Hrel. f_equal. lia.
Qed.

(** The result of cancelling. *)
Definition cancelled_and_settled (k : Key) (payer : string) (w w' : World) (r' : Run) : Prop :=
  runs w' !! k = Some r' /\ r_state r' = Cancelled /\ settledb r' = true
  /\ r_billed r' = Some (retained k (leads w))
  /\ forall q, balance (account_or_new (book (money w')) q)
       = balance (account_or_new (book (money w)) q)
         + if String.eqb payer q then default 0 (r_released r') else 0.


(** A budget row of a reachable world passes the projection's validation. *)
Lemma remaining_of_row c b :
  campaign_row_ok c = true -> in_i64 (c_approved c) = true ->
  bp_approved b = c_approved c -> bp_spent b = c_spent c -> bp_reserved b = c_reserved c ->
  remaining_nanousd b = Some (c_approved c - c_spent c - c_reserved c).
Proof.
  intros Hok Hi Ea Es Er. destruct (campaign_row_facts c Hok) as (H1 & H2 & H3).
  assert (forall z, 0 <= z <= c_approved c -> checked_i64 z = Some z) as Hc.
  { intros z Hz. apply checked_i64_some. split; [done|]. unfold in_i64 in *. rewrite !andb_true_iff, !Z.leb_le in *.
    split; [transitivity 0; done || lia|lia]. }
  unfold remaining_nanousd. rewrite Ea, Es, Er, Hc by lia. cbn [mbind option_bind]. rewrite Hc by lia.
  cbn [mbind option_bind]. unfold nanousd_new. rewrite (proj2 (Z.ltb_ge _ _)) by lia. f_equal. lia.
Qed.

Lemma hex_of_column `{CampaignLaws} o :
  len32 o = true -> is_some o = true -> match hex_encode <$> o with Some e => hex_id_ok e | None => false end = true.
Proof. destruct o as [x|]; [|done]. cbn. intros Hl%Z.eqb_eq _. by apply hex_encode_ok. Qed.

Lemma budget_row_projects `{CampaignLaws} c b :
  campaign_row_ok c = true -> in_i64 (c_approved c) = true ->
  (c_state c = BActive -> c_spent c + c_reserved c < c_approved c) ->
  (c_state c = BExhausted -> c_spent c + c_reserved c = c_approved c) ->
  b = {| bp_state := c_state c; bp_payer := c_payer c; bp_approved := c_approved c; bp_spent := c_spent c;
         bp_reserved := c_reserved c; bp_price := c_price c; bp_fingerprint := hex_encode <$> c_fingerprint c;
         bp_event_id := hex_encode <$> c_event c; bp_approved_at := c_approved_at c |} ->
  budget_projection_ok b = true.
Proof.
  intros Hok Hi Ha He ->. unfold budget_projection_ok. rewrite (remaining_of_row c) by done.
  cbn [bp_state bp_payer bp_approved bp_spent bp_reserved bp_price bp_fingerprint bp_event_id bp_approved_at].
  unfold campaign_row_ok in Hok. rewrite !andb_true_iff in Hok.
  destruct Hok as [[[[[_ _] Hev] Hfp] Hpr] Hst].
  case_bool_decide as Hun.
  - rewrite Hun. rewrite !andb_true_iff in *.
    destruct (c_fingerprint c), (c_event c); cbn in *; naive_solver.
  - rewrite !andb_true_iff in Hst. destruct Hst as (((((Hpay & Hap) & Hev') & Hat) & Hfp') & Hprice).
    pose proof (hex_of_column _ Hev Hev') as E1. pose proof (hex_of_column _ Hfp Hfp') as E2.
    apply Z.ltb_lt in Hap.
    assert (match c_price c with Some p => negb (p =? 0) | None => false end = true) as E3.
    { destruct (c_price c); [|done]. apply Z.ltb_lt in Hpr. apply negb_true_iff, Z.eqb_neq. lia. }
    assert (negb (c_approved c =? 0) = true) as E4 by (apply negb_true_iff, Z.eqb_neq; lia).
    destruct (c_state c); try done; rewrite Hpay, E4, E3, E1, E2, Hat; cbn; try done.
    + specialize (Ha eq_refl). rewrite andb_true_r. apply negb_true_iff, Z.eqb_neq. lia.
    + specialize (He eq_refl). apply Z.eqb_eq. lia.
Qed.

(** Reading the budget of a Campaign never fails: whatever has happened, the
    row passes the projection's own validation, and the remaining budget it
    reports is what no run has taken. *)
Theorem campaign_budgets_are_readable `{CampaignLaws} w community campaign c :
  reachable w -> campaigns w !! (community, campaign) = Some c ->
  (forall p, c_payer c = Some p -> public_key_ok p = true) ->
  exists b, load_campaign_budget_tx community campaign w = Ok b
    /\ bp_state b = c_state c
    /\ remaining_nanousd b
       = Some (c_approved c - map_sum (of_campaign (community, campaign) spent_by) (runs w)
               - map_sum (of_campaign (community, campaign) open_hold) (runs w)).
Proof.
  intros Hw%reachable_ok Hc Hpk. unfold load_campaign_budget_tx. rewrite Hc. cbn [ok_or rbind].
  destruct (wo_budgets w Hw) as [H1 H2 H3 H4 H5 H6 _ _].
  pose proof (H1 _ _ Hc) as Hok. destruct (campaign_row_facts c Hok) as (Hs & Hr & Hle).
  unfold campaign_budget_from_row, nanousd_column, nanousd_new.
  rewrite !(proj2 (Z.ltb_ge _ 0)) by lia.
  assert (map_transpose (fun p => fail_if negb (public_key_ok p) with InvalidData "Campaign budget payer is invalid"; Ok p)
    (c_payer c) = Ok (c_payer c)) as -> by (destruct (c_payer c); [cbn; by rewrite Hpk|done]).
  cbn [ok_or rbind].
  assert (map_transpose (fun z => ok_or (if z <? 0 then None else Some z) (InvalidData "amount")) (c_price c)
    = Ok (c_price c)) as ->.
  { unfold campaign_row_ok in Hok. rewrite !andb_true_iff in Hok. destruct Hok as [[_ Hpr] _].
    destruct (c_price c); [|done]. apply Z.ltb_lt in Hpr. cbn. by rewrite (proj2 (Z.ltb_ge _ 0)) by lia. }
  cbn [rbind]. set (b := Build_BudgetProjection _ _ _ _ _ _ _ _ _). exists b.
  rewrite (budget_row_projects c b) by (try done; by eauto). split_and!; [done|done|].
  rewrite (remaining_of_row c b) by (try done; by eauto). by rewrite (H5 _ _ Hc), (H6 _ _ Hc).
Qed.

(** Starting a paid run sets its whole price aside before any work is done:
    its actor is authorized, the Campaign is active and has no other run going, the price of every Lead it
    still wants fits both the approved budget and what the payer's balance has
    free of gateway holds, and exactly that amount moves from the balance into
    the Campaign's and the run's reservation. *)
Theorem starting_a_run_sets_its_price_aside `{CampaignLaws} now w w' community campaign key actor total_steps :
  reachable w -> start_paid_run_tx now community campaign key actor total_steps w = Ok w' ->
  exists c payer price,
    let capacity := target (c_input c) - Z.min (campaign_lead_count community campaign w) 65535 in
    let amount := price * capacity in
    require_discovery_authorized_tx now community actor w = Ok tt
    /\ campaigns w !! (community, campaign) = Some c /\ c_state c = BActive
    /\ c_payer c = Some payer /\ c_price c = Some price /\ 0 < amount
    /\ (forall k r, runs w !! k = Some r -> fst k = community -> r_campaign r = campaign ->
          is_terminal (r_state r) = true)
    /\ c_spent c + c_reserved c + amount <= c_approved c
    /\ gateway_reserved_sum payer (money w) + amount <= balance (account_or_new (book (money w)) payer)
    /\ (forall q, balance (account_or_new (book (money w')) q)
          = balance (account_or_new (book (money w)) q) - if String.eqb payer q then amount else 0)
    /\ (exists r, runs w' !! (community, deterministic_run_id community key) = Some r
          /\ r_reserved r = Some amount /\ r_limit r = Some capacity /\ r_price r = Some price
          /\ r_payer r = Some payer)
    /\ exists c', campaigns w' !! (community, campaign) = Some c'
         /\ c_reserved c' = c_reserved c + amount /\ c_spent c' = c_spent c
         /\ (c_state c' = BExhausted <-> c_spent c + c_reserved c + amount = c_approved c).
Proof.
  intros Hw%reachable_ok Hst0. assert (require_discovery_authorized_tx now community actor w = Ok tt) as Hauth.
  { unfold start_paid_run_tx in Hst0. by destruct (require_discovery_authorized_tx _ _ _ _) as [[]|]. }
  destruct (start_spec _ _ _ _ _ _ _ _ Hst0 Hw)
    as (p & w1 & c & b & e & budget & Hres & Hc & -> & Hno & _ & Hrok & _ & _ & _ & _ & _ & _ & _ & _ & Hbal & ->).
  destruct (reserve_spec _ _ _ _ _ _ Hres)
    as (w1' & c' & _ & Hc' & Hst & Hpay & Hpr & Hmul & Hpos & _ & Hlim & Hle & Hav & _).
  rewrite Hc in Hc'. injection Hc' as <-.
  destruct (paid_row _ Hrok eq_refl) as (? & price & limit & _ & E1 & _ & _ & Hprice & _).
  assert (pr_price p = price) as Hp by (cbn in E1; congruence).
  assert (0 < pr_reserved p) as Hamt by (rewrite Hmul, Hp; by apply Z.mul_pos_pos).
  apply saturated_enough in Hav; [|done].
  exists c, (pr_payer p), (pr_price p). cbn zeta. rewrite <- Hlim, <- Hmul.
  split_and!; try done.
  - intros [kc kr] r Hr <- <-. apply not_false_iff_true. intros Hnt.
    apply (Hno ((kc, kr), r)); [by apply elem_of_map_to_list|].
    unfold active_run_of. cbn. by rewrite !String.eqb_refl, Hnt.
  - lia.
  - eexists. cbn [runs with_sources with_money with_runs]. rewrite lookup_insert_eq. by split_and!.
  - eexists. cbn [campaigns with_sources with_money with_runs with_campaigns]. rewrite lookup_insert_eq.
    split_and!; try done. cbn.
    destruct (Z.eqb_spec (c_spent c + c_reserved c + pr_reserved p) (c_approved c)); naive_solver.
Qed.

(** C31. The balance of every account covers all the holds of the gateway on it, so
    no balance is ever negative, whatever paid runs are started, cancelled and
    settled in between, as long as no charge of a call takes more than is still
    held for it, no other debit takes more than the holds leave free, no charged
    call is set back to be reconciled, and no other service has taken a closing
    reference of an open run. *)
Theorem balances_cover_their_holds `{CampaignLaws} w :
  rtc careful_world empty_world w ->
  forall pk, 0 <= gateway_reserved_sum pk (money w) <= balance (account_or_new (book (money w)) pk).
Proof.
  intros Hs. assert (world_ok w /\ covered (money w)) as [Hw Hc].
  { revert w Hs. refine (rtc_ind_r _ empty_world _ _).
    - split; [apply empty_world_ok|]. intros pk. cbn. unfold gateway_reserved_sum, account_or_new. cbn.
      by rewrite lookup_empty.
    - intros w1 w2 _ Hstep [Hw Hc]. by eapply careful_world_covered. }
  intros pk. split; [apply gateway_reserved_nonneg; apply Hw|apply Hc].
Qed.
