(* ===== verification/MoneyWitness.v ===== *)
(** * A small community that runs Discovery

    The library parameters of the Discovery contracts with concrete functions
    that satisfy what the proofs rely on, and one Campaign from its approval to a
    run that is cancelled after it has found two Leads; then the witnesses of
    [MoneyTheorems] and [EscrowTheorems]. *)

From Stdlib Require Import ZArith Lia Ascii.
From stdpp Require Import base gmap list strings numbers relations.
From S2P Require Import Prelude MachineInt RustStr Credits CreditsFacts Resolver Campaign MoneyTheorems Escrow EscrowFacts.
From S2P Require Import EscrowSteps EscrowFunds EscrowTheorems.
Local Open Scope Z_scope.

(** ** The libraries *)

Definition hexdigit (n : Z) : ascii := ascii_of_N (Z.to_N (if n <? 10 then 48 + n else 87 + n)).
Fixpoint to_hex (s : string) : string :=
  match s with
  | EmptyString => EmptyString
  | String c s' => String (hexdigit (code c / 16)) (String (hexdigit (code c mod 16)) (to_hex s'))
  end.
Definition nibble (c : ascii) : option Z :=
  if is_ascii_digit c then Some (code c - 48)
  else if in_code_range 97 102 c then Some (code c - 87) else None.
Fixpoint of_hex (s : string) : option string :=
  match s with
  | EmptyString => Some EmptyString
  | String a (String b s') =>
      hi ← nibble a; lo ← nibble b; rest ← of_hex s';
      Some (String (ascii_of_N (Z.to_N (16 * hi + lo))) rest)
  | String _ EmptyString => None
  end.

Lemma hex_byte c :
  nibble (hexdigit (code c / 16)) = Some (code c / 16) /\ nibble (hexdigit (code c mod 16)) = Some (code c mod 16)
  /\ ascii_of_N (Z.to_N (16 * (code c / 16) + code c mod 16)) = c.
Proof. destruct c as [[] [] [] [] [] [] [] []]; vm_compute; done. Qed.
Lemma of_to_hex s : of_hex (to_hex s) = Some s.
Proof.
  induction s as [|c s IH]; [done|]. cbn [to_hex of_hex]. destruct (hex_byte c) as (-> & -> & Hc).
  cbn [mbind option_bind]. rewrite IH. cbn [mbind option_bind]. by rewrite Hc.
Qed.
Lemma to_hex_inj s t : to_hex s = to_hex t -> s = t.
Proof. intros H. apply (f_equal of_hex) in H. rewrite !of_to_hex in H. congruence. Qed.

Definition hex_char (c : ascii) : bool := is_ascii_digit c || in_code_range 97 102 c.
Lemma hex_byte_chars c : hex_char (hexdigit (code c / 16)) = true /\ hex_char (hexdigit (code c mod 16)) = true.
Proof. destruct c as [[] [] [] [] [] [] [] []]; vm_compute; done. Qed.
Lemma to_hex_chars s : str_all hex_char (to_hex s) = true.
Proof. induction s as [|c s IH]; [done|]. cbn [to_hex str_all]. destruct (hex_byte_chars c) as [-> ->]. done. Qed.
Lemma to_hex_length s : str_len (to_hex s) = 2 * str_len s.
Proof.
  unfold str_len. induction s as [|c s IH]; [done|].
  change (String.length (to_hex (String c s))) with (S (S (String.length (to_hex s)))). cbn [String.length]. lia.
Qed.
Lemma hex_no_colon s : str_all hex_char s = true -> str_contains ":" s = false.
Proof.
  induction s as [|c s IH]; [done|]. cbn [str_all]. intros [Hc Hs]%andb_true_iff. cbn [str_contains].
  destruct (Ascii.eqb_spec ":" c) as [<-|]; [done|]. by apply IH.
Qed.

#[export] Instance toy_campaign_lib : CampaignLib := {
  sha256 _ := String.string_of_list_ascii (replicate 32 "h"%char);
  uuid_v5 n a := (to_hex n +:+ ":" +:+ a)%string;
  uuid_text := to_hex;
  hex_decode := of_hex;
  hex_encode := to_hex;
  public_key_ok s := octet_length s =? 32;
}.
#[export] Instance toy_campaign_laws : CampaignLaws.
Proof.
  split.
  - exact to_hex_inj.
  - intros u. apply hex_no_colon, to_hex_chars.
  - intros b Hb. unfold hex_id_ok. cbn [hex_encode toy_campaign_lib]. rewrite to_hex_length.
    unfold octet_length in Hb. rewrite Hb. exact (to_hex_chars b).
Qed.

(** ** One Campaign *)

Definition repeated_char (n : nat) (c : ascii) : string := String.string_of_list_ascii (replicate n c).
Definition toy_payer : string := repeated_char 32 "p".
Definition toy_campaign : DiscoveryCampaignInput :=
  {| campaign_id := repeated_char 16 "c"; name := "Roofers"; industry_id := "trades"; industry_name := "Trades";
     vertical_id := "roofing"; vertical_name := "Roofing"; query := "roofer"; location := "Leeds"; target := 3;
     description := None; language := "en"; region := Some "GB"%string |}.
Definition toy_approval : DiscoveryCampaignBudgetApproval :=
  {| ap_campaign := campaign_id toy_campaign; ap_payer := toy_payer; ap_approved := 150000000;
     ap_price := 50000000; ap_fingerprint := to_hex (repeated_char 32 "h"); ap_event_id := None;
     ap_expires_at := None |}.
Definition toy_run : string := deterministic_run_id "acme" "start-1".
Definition toy_observation (n d : string) : Observation :=
  {| ob_id := n; ob_provider := "outscraper"; ob_record := n; ob_domain := Some d; ob_phone := None;
     ob_name := None; ob_valid := true |}.

(** The steps, from people and a purchase to a response with two Leads, and the
    cancellation. *)
Definition toy_people : World := with_people {[ ("acme", toy_payer) := None ]} [("acme", toy_payer)]%string [] empty_world.
Definition toy_funded : World :=
  with_money (snd (credit DbUp 1 toy_payer 1000000000 "stripe:1" (money toy_people))) toy_people.
Definition toy_inserted : World :=
  snd (run_tx Sqlx DbUp (tx (insert_campaign_tx "acme" toy_campaign)) toy_funded).
Definition toy_approved : World :=
  snd (run_tx Sqlx DbUp (tx (approve_campaign_budget_tx 2 "acme" toy_payer None (repeated_char 32 "e") toy_approval))
    toy_inserted).
Definition toy_entitled : World :=
  snd (run_tx Sqlx DbUp (tx (set_discovery_entitlement_tx 3 "acme" true)) toy_approved).
Definition toy_started : World :=
  snd (run_tx Sqlx DbUp (tx (start_paid_run_tx 4 "acme" (campaign_id toy_campaign) "start-1" toy_payer 10)) toy_entitled).
Definition toy_lease : Lease := {| claim_id := "lease"; lease_until := 100; worker_id := "w"; lease_owner := toy_payer |}.
Definition toy_claimed : World :=
  snd (run_tx Sqlx DbUp (tx (claim_run_tx 5 "acme" toy_run toy_payer toy_lease)) toy_started).
Definition toy_fenced : World :=
  fst (fence_submission_tx 6 "acme" toy_payer toy_run "lease" "outscraper" "fence-1" toy_claimed).
Definition toy_found : World :=
  snd (run_tx Sqlx DbUp (record_response_tx 7 "acme" toy_payer toy_run "lease" "outscraper" "fence-1" "req-1"
    (Some [toy_observation "l1" "a.example"; toy_observation "l2" "b.example"; toy_observation "l3" "a.example"]))
    toy_fenced).
Definition toy_cancelled : World :=
  snd (run_tx Sqlx DbUp (cancel_run_tx 8 "acme" toy_run toy_payer) toy_found).
Definition toy_row (w : World) : Run :=
  default (stopped_run {| r_campaign := ""; r_requested_by := ""; r_state := Queued; r_reason := None;
     r_lease := None; r_protocol := 1; r_payer := None; r_price := None; r_limit := None; r_reserved := None;
     r_settled := None; r_released := None; r_billed := None; r_ref := None; r_settled_at := None |} CancelledByActor)
    (runs w !! ("acme"%string, toy_run)).

Example toy_run_cancelled :
  (r_state (toy_row toy_cancelled), r_billed (toy_row toy_cancelled), r_settled (toy_row toy_cancelled))
  = (Cancelled, Some 2, Some 100000000)
  /\ balance <$> accounts (book (money toy_cancelled)) !! toy_payer = Some 900000000.
Proof. vm_compute. done. Qed.

(** ** Runs of the money layer and of a Campaign

    Each theorem of [EscrowTheorems] and [MoneyTheorems] at a state of the small
    community of the first part of this file or of one account with one call. *)

Local Open Scope Z_scope.

(** ** The Campaign *)

Lemma careful_is_world_step `{CampaignLib} w w' : careful_world w w' -> world_step w w'.
Proof. intros [w1 w2 Hs _|t w1 Hs]; [by apply step_discovery|by apply step_money, careful_is_step]. Qed.
Lemma careful_reachable `{CampaignLib} w : rtc careful_world empty_world w -> reachable w.
Proof. apply rtc_subrel. intros w1 w2. apply careful_is_world_step. Qed.

(** A ledger whose other references do not look like Discovery's. *)
Definition other_refs_plain (w : World) : bool :=
  forallb (fun e => is_some (discovery e) || negb (starts_with "discovery" (reference e))) (ledger (book (money w))).
Lemma plain_not_taken `{CampaignLib} w k pk :
  other_refs_plain w = true -> taken k pk (ledger (book (money w))) = false.
Proof.
  intros Hp. apply existsb_false. intros e He. unfold other_refs_plain in Hp. rewrite forallb_forall in Hp.
  specialize (Hp e ltac:(by apply list_elem_of_In)). destruct (is_some (discovery e)); [done|].
  unfold closing_ref. destruct (String.eqb_spec (reference e) (run_ref release_prefix (fst k) (snd k))) as [E|].
  { rewrite E in Hp. done. }
  destruct (String.eqb_spec (reference e) (run_ref debit_prefix (fst k) (snd k))) as [E|].
  { rewrite E in Hp. done. }
  by rewrite andb_false_r.
Qed.
Lemma plain_discovery `{CampaignLib} w w' : other_refs_plain w = true -> discovery_step w w' -> careful_world w w'.
Proof. intros Hp Hs. apply careful_discovery; [done|]. intros k r payer _ _ _ _. by apply plain_not_taken. Qed.

Lemma toy_careful_entitled : rtc careful_world empty_world toy_entitled.
Proof.
  apply (rtc_l _ _ toy_people); [apply (plain_discovery empty_world toy_people); [by vm_compute|apply ws_people]|].
  apply (rtc_l _ _ toy_funded); [apply careful_money, careful_credit|].
  apply (rtc_l _ _ toy_inserted); [apply (plain_discovery toy_funded toy_inserted); [by vm_compute|apply ws_insert]|].
  apply (rtc_l _ _ toy_approved); [apply (plain_discovery toy_inserted toy_approved); [by vm_compute|apply ws_approve]|].
  apply (rtc_l _ _ toy_entitled); [apply (plain_discovery toy_approved toy_entitled); [by vm_compute|apply ws_entitle]|]. apply rtc_refl.
Qed.
Lemma toy_careful_found : rtc careful_world toy_entitled toy_found.
Proof.
  apply (rtc_l _ _ toy_started); [apply (plain_discovery toy_entitled toy_started); [by vm_compute|apply ws_start]|].
  apply (rtc_l _ _ toy_claimed); [apply (plain_discovery toy_started toy_claimed); [by vm_compute|apply ws_claim]|].
  apply (rtc_l _ _ toy_fenced); [apply (plain_discovery toy_claimed toy_fenced); [by vm_compute|apply ws_fence]|].
  apply (rtc_l _ _ toy_found); [apply (plain_discovery toy_fenced toy_found); [by vm_compute|apply ws_response]|]. apply rtc_refl.
Qed.
Lemma toy_careful_cancelled : rtc careful_world empty_world toy_cancelled.
Proof.
  etrans; [exact toy_careful_entitled|]. etrans; [exact toy_careful_found|].
  apply (rtc_l _ _ toy_cancelled); [apply (plain_discovery toy_found toy_cancelled); [by vm_compute|apply ws_cancel]|]. apply rtc_refl.
Qed.
Lemma toy_reachable_found : reachable toy_found.
Proof. apply careful_reachable. etrans; [exact toy_careful_entitled|exact toy_careful_found]. Qed.

Notation toy_key := ("acme"%string, toy_run).

Lemma discovery_money_adds_up_witness :
  reachable toy_cancelled /\ run_net toy_key (ledger (book (money toy_cancelled))) = -100000000.
Proof.
  assert (reachable toy_cancelled) as Hr by (apply careful_reachable, toy_careful_cancelled).
  split; [exact Hr|].
  destruct (discovery_money_adds_up toy_cancelled Hr) as (_ & _ & Hnet).
  rewrite (Hnet toy_key (toy_row toy_cancelled) toy_payer); vm_compute; reflexivity.
Defined.

(** A response of the provider that bears the reference under which the
    reservation would return: the cancellation goes through, the Leads are
    charged, and the reservation stays gone. *)
Definition toy_taken : World :=
  with_money (snd (apply_entry_applied DbUp 7
    (debit_params toy_payer 1 (run_ref release_prefix "acme" toy_run) None None None) (money toy_found))) toy_found.
Example a_taken_reference_keeps_the_reservation :
  match cancel_run_tx 8 "acme" toy_run toy_payer toy_taken with
  | Ok (w, r) => (r_settled r, r_released r) = (Some 100000000, Some 50000000)
                 /\ balance (account_or_new (book (money w)) toy_payer)
                    = balance (account_or_new (book (money toy_taken)) toy_payer) - 100000000
  | Err _ => False
  end.
Proof. vm_compute. done. Qed.

Lemma runs_pay_for_what_they_keep_witness :
  reachable toy_cancelled
  /\ exists price, r_settled (toy_row toy_cancelled) = Some (price * retained toy_key (leads toy_cancelled)).
Proof.
  assert (reachable toy_cancelled) as Hr by (apply careful_reachable, toy_careful_cancelled).
  split; [exact Hr|].
  destruct (runs_pay_for_what_they_keep toy_cancelled toy_key (toy_row toy_cancelled) Hr) as (price & limit & H);
    [vm_compute; reflexivity..|].
  exists price. assert (settledb (toy_row toy_cancelled) = true) as Hs by (vm_compute; reflexivity).
  rewrite Hs in H. destruct H as (_ & _ & _ & _ & _ & _ & H & _). exact H.
Defined.

Lemma toy_one_run c r : runs toy_found !! (c, toy_run) = Some r -> c = "acme"%string.
Proof.
  assert (forallb (fun kr : Key * Run => String.eqb (fst (fst kr)) "acme") (map_to_list (runs toy_found)) = true) as Hall
    by (vm_compute; reflexivity).
  rewrite forallb_forall in Hall. intros Hr%elem_of_map_to_list%list_elem_of_In.
  apply String.eqb_eq. exact (Hall _ Hr).
Qed.

Definition toy_budget_row (w : World) : CampaignRow :=
  default {| c_input := toy_campaign; c_payer := None; c_approved := 0; c_spent := 0; c_reserved := 0;
     c_state := BUnapproved; c_event := None; c_approved_at := None; c_fingerprint := None; c_price := None |}
    (campaigns w !! ("acme"%string, campaign_id toy_campaign)).

Lemma campaign_budgets_are_readable_witness :
  exists b, load_campaign_budget_tx "acme" (campaign_id toy_campaign) toy_found = Ok b /\ bp_state b = BExhausted.
Proof.
  destruct (campaign_budgets_are_readable toy_found "acme" (campaign_id toy_campaign) (toy_budget_row toy_found))
    as (b & Hb & Hs & _); [exact toy_reachable_found|vm_compute; reflexivity| |].
  - intros p Hp. assert (c_payer (toy_budget_row toy_found) = Some toy_payer) as E by (vm_compute; reflexivity).
    rewrite E in Hp. injection Hp as <-. vm_compute. reflexivity.
  - exists b. split; [exact Hb|]. rewrite Hs. vm_compute. reflexivity.
Defined.

Lemma toy_start_ok :
  start_paid_run_tx 4 "acme" (campaign_id toy_campaign) "start-1" toy_payer 10 toy_entitled = Ok toy_started.
Proof.
  assert (is_ok (start_paid_run_tx 4 "acme" (campaign_id toy_campaign) "start-1" toy_payer 10 toy_entitled) = true) as Hok
    by (vm_compute; reflexivity).
  unfold toy_started, run_tx, tx. by destruct (start_paid_run_tx _ _ _ _ _ _ toy_entitled).
Qed.
Lemma starting_a_run_sets_its_price_aside_witness :
  exists c payer price, campaigns toy_entitled !! ("acme"%string, campaign_id toy_campaign) = Some c
    /\ c_payer c = Some payer /\ c_price c = Some price.
Proof.
  destruct (starting_a_run_sets_its_price_aside 4 toy_entitled toy_started "acme" (campaign_id toy_campaign) "start-1"
    toy_payer 10) as (c & payer & price & _ & Hc & _ & Hpay & Hpr & _).
  - apply careful_reachable, toy_careful_entitled.
  - exact toy_start_ok.
  - exists c, payer, price. split; [exact Hc|]. split; [exact Hpay|exact Hpr].
Defined.

Lemma balances_cover_their_holds_witness :
  0 <= gateway_reserved_sum toy_payer (money toy_cancelled)
    <= balance (account_or_new (book (money toy_cancelled)) toy_payer).
Proof. apply (balances_cover_their_holds toy_cancelled toy_careful_cancelled). Defined.

Lemma fingerprints_bind_the_campaign_witness :
  approved_fields toy_campaign = approved_fields toy_campaign /\ toy_payer = toy_payer /\ 50000000 = 50000000
  \/ exists x y, x <> y /\ sha256 x = sha256 y.
Proof.
  apply (fingerprints_bind_the_campaign toy_campaign toy_payer 50000000 toy_campaign toy_payer 50000000
    (repeated_char 32 "h")); [repeat split; vm_compute; congruence..|vm_compute; reflexivity|vm_compute; reflexivity].
Defined.

(** ** One call *)

(** The account buys 1000, a call is admitted at 10 and the provider answers. *)
Definition call_bought : Tables := snd (apply_entry_applied DbUp 1 (money_in "credit" toy_payer 1000 "stripe:1") empty_tables).
Definition call_admitted : Tables :=
  snd (create_gateway_settlement_intent DbUp 2 0 toy_payer "call-1" "m" 10 1 call_bought).
Definition call_completed : Tables :=
  snd (mark_gateway_provider_completed DbUp 3 1 None None 200 call_admitted).
Lemma call_completed_steps : rtc money_step empty_tables call_completed.
Proof.
  eapply rtc_l; [apply step_entry|]. eapply rtc_l; [apply step_create|]. eapply rtc_l; [apply step_completed|].
  apply rtc_refl.
Qed.
Definition call_intent (t : Tables) : GatewaySettlementIntent :=
  default {| i_id := 0; i_pubkey := ""; i_reference := ""; i_model := ""; i_state := Resolved; i_request_id := None;
     i_observed_cost := None; i_status := None; i_reason := None; i_correction_ref := None; i_reserved := 0;
     i_created_at := 0; i_updated_at := 0; i_resolved_at := None |} (intent_by_id 1 t).
Definition call_usage (cost : Z) (req : option string) : GatewayProviderUsage :=
  {| u_pubkey := toy_payer; u_reference := "call-1"; u_model := "m"; u_cost := cost; u_request_id := req |}.

Lemma a_used_reference_moves_nothing_witness :
  ledger (book (snd (apply_entry_applied DbUp 9 (money_in "credit" toy_payer 5 "stripe:1") call_bought)))
  = ledger (book call_bought).
Proof.
  pose proof (a_used_reference_moves_nothing DbUp 9 (money_in "credit" toy_payer 5 "stripe:1") call_bought) as H.
  destruct (apply_entry_applied _ _ _ _) as [r t']. apply H.
  - eapply rtc_l; [apply step_entry|]. apply rtc_refl.
  - apply list_elem_of_In. left. vm_compute. reflexivity.
Defined.

(** The first run loses the acknowledgement of its charge, the second ends. *)
Definition lost_run : list Turn :=
  [calm 4; calm 4; {| fault := CommitUnknown; clock := 4; between := fun t => t |}].
Lemma recovery_charges_once_witness :
  let t' := foldl (fun t turns => snd (resolve_gateway_settlement_intent 1 (call_usage 12 (Some "r1")) turns t))
              call_completed [lost_run; []] in
  ledger (book t') = ledger (book call_completed)
  \/ ~ charged_before call_completed (call_intent call_completed) (call_usage 12 (Some "r1"))
     /\ exists e, ledger (book t') = ledger (book call_completed) ++ [e]
          /\ is_correction (call_intent call_completed) (call_usage 12 (Some "r1")) e.
Proof.
  apply recovery_charges_once; [exact call_completed_steps|vm_compute; reflexivity..|].
  repeat constructor.
Defined.

Lemma recovery_resolves_witness :
  exists j turns' t', resolve_gateway_settlement_intent 1 (call_usage 12 (Some "r1")) [] call_completed
    = (Ok (Some j), turns', t') /\ i_state j = Resolved.
Proof.
  apply (recovery_resolves call_completed 1 (call_intent call_completed)); [exact call_completed_steps|vm_compute; reflexivity..|
    vm_compute; split; congruence|vm_compute; reflexivity|constructor].
Defined.

(** A settled call is charged again. Its provider reported no cost, so it was
    charged the estimate of 10; the export has the cost of 12, and the resolver,
    which looks for a charge of exactly 12, charges all of it on top. *)
Definition call_estimated : Tables :=
  snd (debit_estimated_for_gateway_intent DbUp 4 1 toy_payer 10 "call-1" "m" (Some "r1") call_completed).
Example an_estimated_call_is_charged_again :
  i_state (call_intent call_estimated) = Debited
  /\ List.map (fun e => (kind e, delta e))
       (ledger (book (snd (resolve_pending_gateway_settlements [call_usage 12 (Some "r1")] [] call_estimated))))
     = [("credit", 1000); ("debit", -10); ("debit", -12)]%string.
Proof. vm_compute. done. Qed.

(** So is a call whose response had no request id, at the same cost, when the
    export has one. *)
Definition call_observed : Tables :=
  snd (debit_observed_for_gateway_intent DbUp 4 1 toy_payer 12 "call-1" "m" None call_completed).
Example a_call_without_request_id_is_charged_again :
  i_state (call_intent call_observed) = Debited
  /\ List.map (fun e => (kind e, delta e))
       (ledger (book (snd (resolve_pending_gateway_settlements [call_usage 12 (Some "r1")] [] call_observed))))
     = [("credit", 1000); ("debit", -12); ("debit", -12)]%string.
Proof. vm_compute. done. Qed.
