(* ===== verification/Pairing.v ===== *)
(** * Device pairing

    [crates/buzz-core/src/pairing/]: the NIP-AB session state machine of
    [session.rs], its messages ([types.rs]) and key derivation ([crypto.rs]).
    Cryptography, JSON and event signing are the [PairingLib] parameter; the
    clocks and randomness a call reads are its [Env]. *)

From Stdlib Require Import ZArith Lia Ascii.
From stdpp Require Import base list gmap strings numbers sorting.
From S2P Require Import Prelude MachineInt RustStr Event.
Local Open Scope Z_scope.

Inductive PayloadType := Nsec | Bunker | Connect | Custom.
#[export] Instance PayloadType_eq_dec : EqDecision PayloadType.
Proof. solve_decision. Defined.

Inductive AbortReason := AbortSasMismatch | UserDenied | AbortTimeout | ProtocolError | AbortUnknown.
#[export] Instance AbortReason_eq_dec : EqDecision AbortReason.
Proof. solve_decision. Defined.

Inductive PairingMessage :=
| Offer (session_id : string) (version : Z)
| SasConfirm (transcript_hash : string)
| Payload (payload_type : PayloadType) (payload : string)
| Complete (success : bool)
| AbortMsg (reason : AbortReason).
#[export] Instance PairingMessage_eq_dec : EqDecision PairingMessage.
Proof. solve_decision. Defined.

Inductive PairingError :=
| InvalidSessionId
| SasMismatch
| TranscriptMismatch
| UnexpectedMessage (expected got : string)
| SessionExpired
| Nip44 (msg : string)
| Json (msg : string)
| InvalidPubkey (msg : string)
| SigningError (msg : string).

Inductive Role := Source | Target.
#[export] Instance Role_eq_dec : EqDecision Role.
Proof. solve_decision. Defined.

Inductive SessionState :=
| Waiting | Confirming | AwaitingConfirmation | Transferring | PayloadExchanged | Completed | Aborted.
#[export] Instance SessionState_eq_dec : EqDecision SessionState.
Proof. solve_decision. Defined.

(** [{:?}] of the two enums. *)
Definition state_debug (s : SessionState) : string :=
  match s with
  | Waiting => "Waiting" | Confirming => "Confirming"
  | AwaitingConfirmation => "AwaitingConfirmation" | Transferring => "Transferring"
  | PayloadExchanged => "PayloadExchanged" | Completed => "Completed" | Aborted => "Aborted"
  end.
Definition role_debug (r : Role) : string := match r with Source => "Source" | Target => "Target" end.

(** The libraries: keys, ECDH, HKDF, NIP-44, serde, hex, signing. Public keys
    are their hex, byte arrays byte strings. *)
Class PairingLib := {
  SecretKey : Type;
  pubkey_of : SecretKey -> string;
  pubkey_bytes : string -> string;
  generate_shared_key : SecretKey -> string -> Result string string;
  hkdf_extract : string -> string -> string;
  hkdf_expand : string -> string -> nat -> string;
  subtle_ct_eq : string -> string -> bool;
  nip44_encrypt : SecretKey -> string -> string -> string -> Result string string;
  nip44_decrypt : SecretKey -> string -> string -> Result string string;
  message_to_json : PairingMessage -> Result string string;
  message_from_json : string -> Result PairingMessage string;
  hex_encode : string -> string;
  hex_decode : string -> option string;
  sign_event : SecretKey -> Z -> string -> list (list string) -> Z -> Result Event string;
  verify_event : Event -> Result unit string;
}.

(** What a call reads from its surroundings: the monotonic clock, the wall
    clock, a random number and an encryption nonce. *)
Record Env := { instant : Z; unix_now : Z; random : Z; nonce : string }.

Definition DEFAULT_TIMEOUT : Z := 120.
Definition PAIRING_KIND : Z := 24134.

Section Crypto.
Context `{PairingLib}.

(** [hkdf32]. *)
Definition hkdf32 (salt ikm info : string) : string :=
  String.substring 0 32 (hkdf_expand (hkdf_extract salt ikm) info 32).

(** [derive_session_id]. *)
Definition derive_session_id (session_secret : string) : string :=
  hkdf32 EmptyString session_secret "nostr-pair-session-id".

(** [u32::from_be_bytes] of the first four bytes. *)
Definition be_u32 (s : string) : Z :=
  match s with
  | String a (String b (String c (String d _))) =>
      code a * 16777216 + code b * 65536 + code c * 256 + code d
  | _ => 0
  end.

(** [derive_sas]. *)
Definition derive_sas (ecdh_shared session_secret : string) : Z * string :=
  let sas_input := hkdf32 session_secret ecdh_shared "nostr-pair-sas-v1" in
  (be_u32 sas_input mod 1000000, sas_input).

(** [derive_transcript_hash]. *)
Definition derive_transcript_hash (session_id source_pubkey target_pubkey sas_input session_secret : string)
    : string :=
  hkdf32 session_secret (session_id +:+ (source_pubkey +:+ (target_pubkey +:+ sas_input)))%string
    "nostr-pair-transcript-v1".

(** [format_sas]. *)
Definition format_sas (c : Z) : string := dec_pad 6 c.
End Crypto.

Record QrPayload := {
  qr_source_pubkey : string;
  qr_session_secret : string;
  qr_relays : list string;
}.

Section Session.
Context {K : Type}.

Record PairingSession := {
  role : Role;
  state : SessionState;
  keys : K;
  session_secret : string;
  relay_urls : list string;
  peer_pubkey : option string;
  session_id : string;
  sas_code : option Z;
  sas_input : option string;
  processed_ids : gset string;
  created_at : Z;
  timeout : Z;
}.

(** Assignments to the fields that change. *)
Definition set_state (st : SessionState) (s : PairingSession) : PairingSession := {|
  role := role s; state := st; keys := keys s; session_secret := session_secret s;
  relay_urls := relay_urls s; peer_pubkey := peer_pubkey s; session_id := session_id s;
  sas_code := sas_code s; sas_input := sas_input s; processed_ids := processed_ids s;
  created_at := created_at s; timeout := timeout s |}.
Definition set_peer (p : string) (s : PairingSession) : PairingSession := {|
  role := role s; state := state s; keys := keys s; session_secret := session_secret s;
  relay_urls := relay_urls s; peer_pubkey := Some p; session_id := session_id s;
  sas_code := sas_code s; sas_input := sas_input s; processed_ids := processed_ids s;
  created_at := created_at s; timeout := timeout s |}.
Definition set_sas (c : Z) (input : string) (s : PairingSession) : PairingSession := {|
  role := role s; state := state s; keys := keys s; session_secret := session_secret s;
  relay_urls := relay_urls s; peer_pubkey := peer_pubkey s; session_id := session_id s;
  sas_code := Some c; sas_input := Some input; processed_ids := processed_ids s;
  created_at := created_at s; timeout := timeout s |}.
(** [record_event]. *)
Definition record_event (event : Event) (s : PairingSession) : PairingSession := {|
  role := role s; state := state s; keys := keys s; session_secret := session_secret s;
  relay_urls := relay_urls s; peer_pubkey := peer_pubkey s; session_id := session_id s;
  sas_code := sas_code s; sas_input := sas_input s;
  processed_ids := {[ev_id event]} ∪ processed_ids s;
  created_at := created_at s; timeout := timeout s |}.

End Session.
Arguments PairingSession K : clear implicits.

Section Methods.
Context `{PairingLib}.
#[local] Abbreviation Session := (PairingSession SecretKey).

(** A method on [&mut self]: its result and the session it leaves behind,
    changed or not, also when it fails. *)
Definition Method (A : Type) : Type := Session -> Result A PairingError * Session.

Definition finish {A} (a : A) : Method A := fun s => (Ok a, s).
Definition lift {A} (f : Session -> Result A PairingError) : Method A := fun s => (f s, s).
Definition update (f : Session -> Session) : Method unit := fun s => (Ok tt, f s).
Definition fails {A} (e : PairingError) : Method A := fun s => (Err e, s).
Definition chain {A B} (m : Method A) (k : A -> Method B) : Method B := fun s =>
  match m s with
  | (Ok a, s') => k a s'
  | (Err e, s') => (Err e, s')
  end.
End Methods.

Notation "'do' x '<-' m ';;' k" := (chain m (fun x => k))
  (at level 10, x name, m at level 99, k at level 200) : colony_scope.

Notation "'do_' m ';;' k" := (chain m (fun _ => k))
  (at level 10, m at level 99, k at level 200) : colony_scope.

Section Checks.
Context `{PairingLib}.
#[local] Abbreviation Session := (PairingSession SecretKey).

(** [is_expired], [check_expired]. *)
Definition is_expired (env : Env) (s : Session) : bool :=
  timeout s <? saturating_sub64 (instant env) (created_at s).
Definition check_expired (env : Env) (s : Session) : Result unit PairingError :=
  if is_expired env s then Err SessionExpired else Ok tt.

(** [expect_state], [expect_role]. *)
Definition expect_state (expected : SessionState) (s : Session) : Result unit PairingError :=
  if bool_decide (state s = expected) then Ok tt
  else Err (UnexpectedMessage ("state " +:+ state_debug expected)%string
                              ("state " +:+ state_debug (state s))%string).
Definition expect_role (expected : Role) (s : Session) : Result unit PairingError :=
  if bool_decide (role s = expected) then Ok tt
  else Err (UnexpectedMessage ("role " +:+ role_debug expected)%string
                              ("role " +:+ role_debug (role s))%string).

(** The three checks that open every step of the protocol. *)
Definition guard (env : Env) (st : SessionState) (r : Role) (s : Session) : Result unit PairingError :=
  let? _ := check_expired env s in
  let? _ := expect_state st s in
  expect_role r s.

Definition tags_us (our_pk : string) (t : list string) : bool :=
  bool_decide (head t = Some "p"%string) && bool_decide (t !! 1%nat = Some our_pk).

(** [validate_event_basics]. *)
Definition validate_event_basics (event : Event) (s : Session) : Result unit PairingError :=
  let? _ := map_err (fun e => InvalidPubkey ("event verification failed: " +:+ e)%string) (verify_event event) in
  if bool_decide (ev_id event ∈ processed_ids s)
  then Err (UnexpectedMessage "new event" "duplicate event id")
  else if negb (ev_kind event =? PAIRING_KIND)
  then Err (UnexpectedMessage ("kind " +:+ dec PAIRING_KIND)%string ("kind " +:+ dec (ev_kind event))%string)
  else if negb (existsb (tags_us (pubkey_of (keys s))) (ev_tags event))
  then Err (InvalidPubkey "event p-tag does not match our ephemeral pubkey")
  else Ok tt.

(** [validate_event_from_peer]. *)
Definition validate_event_from_peer (event : Event) (s : Session) : Result unit PairingError :=
  let? _ := validate_event_basics event s in
  match peer_pubkey s with
  | Some expected =>
      if bool_decide (ev_pubkey event <> expected)
      then Err (InvalidPubkey ("event from " +:+ ev_pubkey event +:+ " but expected " +:+ expected)%string)
      else Ok tt
  | None => Ok tt
  end.

(** [decrypt_message]. *)
Definition decrypt_message (event : Event) (s : Session) : Result PairingMessage PairingError :=
  let content_len := str_len (ev_content event) in
  if negb ((132 <=? content_len) && (content_len <=? 87472))
  then Err (UnexpectedMessage "NIP-44 content (132–87472 chars)" (dec content_len +:+ " chars")%string)
  else
    let? decrypted := map_err Nip44 (nip44_decrypt (keys s) (ev_pubkey event) (ev_content event)) in
    if 65535 <? str_len decrypted
    then Err (UnexpectedMessage "plaintext ≤ 65535 bytes" (dec (str_len decrypted) +:+ " bytes")%string)
    else map_err Json (message_from_json decrypted).

(** [build_event]. *)
Definition build_event (env : Env) (message : PairingMessage) (s : Session)
    : Result Event PairingError :=
  let? peer := ok_or (peer_pubkey s) (InvalidPubkey "no peer pubkey set") in
  let? plaintext := map_err Json (message_to_json message) in
  let? encrypted := map_err Nip44 (nip44_encrypt (keys s) peer plaintext (nonce env)) in
  let jitter := random env mod 31 in
  let ts := saturating_sub64 (unix_now env) jitter in
  map_err SigningError (sign_event (keys s) PAIRING_KIND encrypted [["p"%string; peer]] ts).

(** [unexpected]. *)
Definition message_name (m : PairingMessage) : string :=
  match m with
  | Offer _ _ => "offer" | SasConfirm _ => "sas-confirm" | Payload _ _ => "payload"
  | Complete _ => "complete" | AbortMsg _ => "abort"
  end.
Definition unexpected (expected : string) (got : PairingMessage) : PairingError :=
  UnexpectedMessage expected (message_name got).

(** [hex::decode(h).ok().and_then(|b| <[u8; 32]>::try_from(b).ok())]. *)
Definition hex32 (h : string) : option string :=
  match hex_decode h with
  | Some b => if str_len b =? 32 then Some b else None
  | None => None
  end.

(** The hash both sides compare, from one side's own fields. *)
Definition own_transcript (source target input : string) (s : Session) : string :=
  derive_transcript_hash (session_id s) (pubkey_bytes source) (pubkey_bytes target) input (session_secret s).

(** [matches!(state, Completed | Aborted)]. *)
Definition is_terminal (s : Session) : bool :=
  bool_decide (state s = Completed) || bool_decide (state s = Aborted).
Definition refuse_terminal (s : Session) : Result unit PairingError :=
  if is_terminal s then Err (UnexpectedMessage "non-terminal state" ("state " +:+ state_debug (state s))%string)
  else Ok tt.
End Checks.

Section Steps.
Context `{PairingLib}.
#[local] Abbreviation Session := (PairingSession SecretKey).

(** [new_source]: the fresh keys and secret are arguments. *)
Definition new_source (env : Env) (fresh : SecretKey) (secret relay_url : string)
    : Session * QrPayload :=
  ({| role := Source; state := Waiting; keys := fresh; session_secret := secret;
      relay_urls := [relay_url]; peer_pubkey := None; session_id := derive_session_id secret;
      sas_code := None; sas_input := None; processed_ids := ∅;
      created_at := instant env; timeout := DEFAULT_TIMEOUT |},
   {| qr_source_pubkey := pubkey_of fresh; qr_session_secret := secret; qr_relays := [relay_url] |}).

(** [handle_offer]. The peer is locked before the shared key is derived, so a
    failing derivation leaves it locked. *)
Definition handle_offer (env : Env) (event : Event) : Method string :=
  do_ lift (guard env Waiting Source);;
  do_ lift (validate_event_basics event);;
  do msg <- lift (decrypt_message event);;
  do offer <- lift (fun _ =>
      match msg with
      | Offer i v => Ok (i, v)
      | other => Err (unexpected "offer" other)
      end);;
  do_ lift (fun s =>
      if negb (snd offer =? 1)
      then Err (UnexpectedMessage "version 1" ("version " +:+ dec (snd offer))%string)
      else
        match hex32 (fst offer) with
        | Some i => if subtle_ct_eq i (session_id s) then Ok tt else Err InvalidSessionId
        | None => Err InvalidSessionId
        end);;
  let peer := ev_pubkey event in
  do_ update (set_peer peer);;
  do ecdh <- lift (fun s => map_err SigningError (generate_shared_key (keys s) peer));;
  do sas <- lift (fun s => Ok (derive_sas ecdh (session_secret s)));;
  do_ update (set_sas (fst sas) (snd sas));;
  do_ update (set_state Confirming);;
  do_ update (record_event event);;
  finish (format_sas (fst sas)).

(** [confirm_sas]. *)
Definition confirm_sas (env : Env) : Method Event :=
  do_ lift (guard env Confirming Source);;
  do event <- lift (fun s =>
      let? input := ok_or (sas_input s) SasMismatch in
      let? peer := ok_or (peer_pubkey s) (InvalidPubkey "no peer") in
      let transcript_hash := own_transcript (pubkey_of (keys s)) peer input s in
      build_event env (SasConfirm (hex_encode transcript_hash)) s);;
  do_ update (set_state Transferring);;
  finish event.

(** Accepting a payload: [handle_payload] and [handle_return_payload]. *)
Definition receive_payload (env : Env) (r : Role) (event : Event) : Method (PayloadType * string) :=
  do_ lift (guard env Transferring r);;
  do_ lift (validate_event_from_peer event);;
  do msg <- lift (decrypt_message event);;
  match msg with
  | Payload pt payload =>
      do_ update (set_state PayloadExchanged);;
      do_ update (record_event event);;
      finish (pt, payload)
  | other => fails (unexpected "payload" other)
  end.
Definition handle_return_payload (env : Env) := receive_payload env Source.
Definition handle_payload (env : Env) := receive_payload env Target.

(** [send_source_complete]. *)
Definition send_source_complete (env : Env) (success : bool) : Method Event :=
  do_ lift (guard env PayloadExchanged Source);;
  do event <- lift (build_event env (Complete success));;
  do_ update (set_state (if success then Completed else Aborted));;
  finish event.

(** [send_payload]. *)
Definition send_payload (env : Env) (payload_type : PayloadType) (payload : string) : Method Event :=
  do_ lift (guard env Transferring Source);;
  do event <- lift (build_event env (Payload payload_type payload));;
  do_ update (set_state PayloadExchanged);;
  finish event.

(** [handle_complete]. *)
Definition handle_complete (env : Env) (event : Event) : Method unit :=
  do_ lift (guard env PayloadExchanged Source);;
  do_ lift (validate_event_from_peer event);;
  do msg <- lift (decrypt_message event);;
  match msg with
  | Complete true =>
      do_ update (set_state Completed);;
      update (record_event event)
  | Complete false =>
      do_ update (set_state Aborted);;
      fails (UnexpectedMessage "complete(success=true)" "complete(success=false)")
  | other => fails (unexpected "complete" other)
  end.

(** [new_target]. *)
Definition new_target (env : Env) (fresh : SecretKey) (qr : QrPayload)
    : Result (Session * Event) PairingError :=
  let sid := derive_session_id (qr_session_secret qr) in
  let? ecdh := map_err SigningError (generate_shared_key fresh (qr_source_pubkey qr)) in
  let sas := derive_sas ecdh (qr_session_secret qr) in
  let session := {|
    role := Target; state := Waiting; keys := fresh; session_secret := qr_session_secret qr;
    relay_urls := qr_relays qr; peer_pubkey := Some (qr_source_pubkey qr); session_id := sid;
    sas_code := Some (fst sas); sas_input := Some (snd sas); processed_ids := ∅;
    created_at := instant env; timeout := DEFAULT_TIMEOUT |} in
  let? event := build_event env (Offer (hex_encode sid) 1) session in
  Ok (set_state Confirming session, event).

(** [handle_sas_confirm]. A wrong hash aborts the session. *)
Definition handle_sas_confirm (env : Env) (event : Event) : Method string :=
  do_ lift (guard env Confirming Target);;
  do_ lift (validate_event_from_peer event);;
  do msg <- lift (decrypt_message event);;
  do received_hash <- lift (fun _ =>
      match msg with
      | SasConfirm h => Ok h
      | other => Err (unexpected "sas-confirm" other)
      end);;
  do expected_hash <- lift (fun s =>
      let? input := ok_or (sas_input s) SasMismatch in
      let? peer := ok_or (peer_pubkey s) (InvalidPubkey "no peer") in
      Ok (own_transcript peer (pubkey_of (keys s)) input s));;
  if match hex32 received_hash with
     | Some rb => subtle_ct_eq rb expected_hash
     | None => false
     end
  then
    do_ update (set_state AwaitingConfirmation);;
    do_ update (record_event event);;
    lift (fun s => let? c := ok_or (sas_code s) SasMismatch in Ok (format_sas c))
  else
    do_ update (set_state Aborted);;
    fails TranscriptMismatch.

(** [confirm_target_sas]. *)
Definition confirm_target_sas (env : Env) : Method unit :=
  do_ lift (guard env AwaitingConfirmation Target);;
  update (set_state Transferring).

(** [send_complete]. *)
Definition send_complete (env : Env) : Method Event :=
  do_ lift (guard env PayloadExchanged Target);;
  do event <- lift (build_event env (Complete true));;
  do_ update (set_state Completed);;
  finish event.

(** [abort]. *)
Definition abort (env : Env) (reason : AbortReason) : Method (option Event) :=
  do_ lift refuse_terminal;;
  do peer <- lift (fun s => Ok (peer_pubkey s));;
  match peer with
  | None =>
      do_ update (set_state Aborted);;
      finish None
  | Some _ =>
      do event <- lift (build_event env (AbortMsg reason));;
      do_ update (set_state Aborted);;
      finish (Some event)
  end.

(** [handle_abort]. *)
Definition handle_abort (event : Event) : Method AbortReason :=
  do_ lift refuse_terminal;;
  do peer <- lift (fun s => Ok (peer_pubkey s));;
  match peer with
  | None => fails (InvalidPubkey "cannot accept abort before peer is known")
  | Some _ =>
      do_ lift (validate_event_from_peer event);;
      do msg <- lift (decrypt_message event);;
      match msg with
      | AbortMsg reason =>
          do_ update (set_state Aborted);;
          do_ update (record_event event);;
          finish reason
      | other => fails (unexpected "abort" other)
      end
  end.

(** The calls a session can receive after it is created. *)
Inductive Call :=
| CallHandleOffer (event : Event)
| CallConfirmSas
| CallHandleReturnPayload (event : Event)
| CallSendSourceComplete (success : bool)
| CallSendPayload (payload_type : PayloadType) (payload : string)
| CallHandleComplete (event : Event)
| CallHandleSasConfirm (event : Event)
| CallConfirmTargetSas
| CallHandlePayload (event : Event)
| CallSendComplete
| CallAbort (reason : AbortReason)
| CallHandleAbort (event : Event).

(** Whether a call returned [Ok], and the session after it. *)
Definition outcome {A} (m : Method A) (s : Session) : bool * Session :=
  let '(r, s') := m s in (is_ok r, s').

Definition run_call (env : Env) (c : Call) (s : Session) : bool * Session :=
  match c with
  | CallHandleOffer e => outcome (handle_offer env e) s
  | CallConfirmSas => outcome (confirm_sas env) s
  | CallHandleReturnPayload e => outcome (handle_return_payload env e) s
  | CallSendSourceComplete b => outcome (send_source_complete env b) s
  | CallSendPayload t p => outcome (send_payload env t p) s
  | CallHandleComplete e => outcome (handle_complete env e) s
  | CallHandleSasConfirm e => outcome (handle_sas_confirm env e) s
  | CallConfirmTargetSas => outcome (confirm_target_sas env) s
  | CallHandlePayload e => outcome (handle_payload env e) s
  | CallSendComplete => outcome (send_complete env) s
  | CallAbort r => outcome (abort env r) s
  | CallHandleAbort e => outcome (handle_abort e) s
  end.
End Steps.
