(* ===== verification/PairingFacts.v ===== *)
(** * What a pairing session guarantees

    Theorems on [Pairing]: the code follows the protocol diagram, finished
    sessions stay finished, no secret moves before the transcript and the user
    confirmed it, nothing is accepted twice or from a stranger, and two honest
    devices complete. *)

From Stdlib Require Import ZArith Lia Ascii.
From stdpp Require Import base list gmap strings numbers sorting.
From S2P Require Import Prelude MachineInt RustStr Event Pairing.
Local Open Scope Z_scope.

Section Facts.
Context `{PairingLib}.
#[local] Abbreviation Session := (PairingSession SecretKey).
Implicit Types s t : Session.

(** ** Inversion of methods *)

Lemma chain_ok {A B} (m : Method A) (k : A -> Method B) s b s' :
  chain m k s = (Ok b, s') <-> exists a s1, m s = (Ok a, s1) /\ k a s1 = (Ok b, s').
Proof.
  unfold chain. destruct (m s) as [[a|e] s1]; split; try done.
  - eauto.
  - by intros (a' & s1' & [= <- <-] & ?).
  - by intros (a' & s1' & ? & ?).
Qed.

Lemma lift_ok {A} (f : Session -> Result A PairingError) s a s' :
  lift f s = (Ok a, s') <-> f s = Ok a /\ s' = s.
Proof. unfold lift. split; [by intros [= -> ->] | by intros [-> ->]]. Qed.

Lemma update_ok f s u s' : update f s = (Ok u, s') <-> u = tt /\ s' = f s.
Proof. unfold update. split; [by intros [= <- <-] | by intros [-> ->]]. Qed.

Lemma guard_ok env st r s u :
  guard env st r s = Ok u <-> is_expired env s = false /\ state s = st /\ role s = r.
Proof.
  destruct u. unfold guard, check_expired, expect_state, expect_role.
  destruct (is_expired env s); cbn; [by split; [|intros [? _]]|].
  repeat case_bool_decide; cbn; by split; [|intros (? & ? & ?)].
Qed.

Lemma refuse_terminal_ok s u : refuse_terminal s = Ok u <-> is_terminal s = false.
Proof. destruct u. unfold refuse_terminal. by destruct (is_terminal s). Qed.

(** ** The protocol diagram *)

(** The moves of [session.rs]'s protocol flow: role, call, whether it succeeds,
    and the states before and after. *)
Inductive diagram : Role -> Call -> bool -> SessionState -> SessionState -> Prop :=
| move_offer e : diagram Source (CallHandleOffer e) true Waiting Confirming
| move_confirm : diagram Source CallConfirmSas true Confirming Transferring
| move_return e : diagram Source (CallHandleReturnPayload e) true Transferring PayloadExchanged
| move_source_done (b : bool) :
    diagram Source (CallSendSourceComplete b) true PayloadExchanged (if b then Completed else Aborted)
| move_send ty p : diagram Source (CallSendPayload ty p) true Transferring PayloadExchanged
| move_complete e : diagram Source (CallHandleComplete e) true PayloadExchanged Completed
| move_complete_failed e : diagram Source (CallHandleComplete e) false PayloadExchanged Aborted
| move_sas e : diagram Target (CallHandleSasConfirm e) true Confirming AwaitingConfirmation
| move_sas_mismatch e : diagram Target (CallHandleSasConfirm e) false Confirming Aborted
| move_user : diagram Target CallConfirmTargetSas true AwaitingConfirmation Transferring
| move_payload e : diagram Target (CallHandlePayload e) true Transferring PayloadExchanged
| move_done : diagram Target CallSendComplete true PayloadExchanged Completed
| move_abort r why st : st <> Completed -> st <> Aborted -> diagram r (CallAbort why) true st Aborted
| move_aborted r e st : st <> Completed -> st <> Aborted -> diagram r (CallHandleAbort e) true st Aborted
| move_refused r c st : diagram r c false st st.

(** What no call changes, and what none changes once the peer is accepted. *)
Definition frame (s s' : Session) : Prop :=
  role s' = role s /\ keys s' = keys s /\ session_secret s' = session_secret s
  /\ session_id s' = session_id s /\ relay_urls s' = relay_urls s
  /\ created_at s' = created_at s /\ timeout s' = timeout s
  /\ (state s <> Waiting -> peer_pubkey s' = peer_pubkey s /\ sas_input s' = sas_input s
                            /\ sas_code s' = sas_code s)
  /\ processed_ids s ⊆ processed_ids s'.

Lemma frame_refl s : frame s s.
Proof. by unfold frame. Qed.

Lemma frame_record st e s : frame s (record_event e (set_state st s)).
Proof. unfold frame; cbn. split_and!; try done. set_solver. Qed.

Lemma frame_state st s : frame s (set_state st s).
Proof. by unfold frame. Qed.

Lemma frame_record_state st1 st2 e s : frame s (set_state st2 (record_event e (set_state st1 s))).
Proof. unfold frame; cbn. split_and!; try done. set_solver. Qed.

Lemma terminal_false s : is_terminal s = false -> state s <> Completed /\ state s <> Aborted.
Proof. unfold is_terminal. rewrite orb_false_iff, !bool_decide_eq_false. done. Qed.

(** Splits a run of a method into its branches. *)
Ltac run_method :=
  repeat match goal with
  | H : context [match guard ?env ?st ?r ?s with _ => _ end] |- _ =>
      let E := fresh "Hg" in
      destruct (guard env st r s) eqn:E; [apply guard_ok in E as (? & ? & ?)|]
  | H : context [match refuse_terminal ?s with _ => _ end] |- _ =>
      let E := fresh "Hg" in
      destruct (refuse_terminal s) eqn:E; [apply refuse_terminal_ok in E; apply terminal_false in E as [? ?]|]
  | H : context [match ?x with _ => _ end] |- _ => destruct x eqn:?
  end; simplify_eq/=.

Definition well_stepped (c : Call) (ok : bool) s s' : Prop :=
  diagram (role s) c ok (state s) (state s') /\ frame s s'.

Lemma refused c s : well_stepped c false s s.
Proof. split; [constructor | apply frame_refl]. Qed.

Lemma stepped c ok s st s' :
  diagram (role s) c ok (state s) st -> state s' = st -> frame s s' -> well_stepped c ok s s'.
Proof. intros Hd <- Hf. by split. Qed.

Lemma step_receive env r e s ok s' :
  outcome (receive_payload env r e) s = (ok, s') ->
  (ok = false /\ s' = s)
  \/ (ok = true /\ state s = Transferring /\ role s = r /\ s' = record_event e (set_state PayloadExchanged s)).
Proof.
  unfold outcome, receive_payload, chain, lift, update, finish, fails. intros Hr. run_method; auto 10.
Qed.

Lemma step_offer env e s ok s' :
  outcome (handle_offer env e) s = (ok, s') -> well_stepped (CallHandleOffer e) ok s s'.
Proof.
  unfold outcome, handle_offer, chain, lift, update, finish, fails. intros Hr.
  destruct (guard env Waiting Source s) as [u|] eqn:Hg; [|injection Hr as <- <-; apply refused].
  apply guard_ok in Hg as (_ & Hst & Hro).
  run_method; try apply refused.
  all: unfold well_stepped, frame; cbn; rewrite Hst, Hro; split; [constructor|split_and!; try done; set_solver].
Qed.

Ltac by_diagram :=
  match goal with
  | |- well_stepped _ false ?s ?s => apply refused
  | H1 : state ?s = _, H2 : role ?s = _ |- well_stepped _ _ ?s _ =>
      unfold well_stepped; cbn; rewrite H1, H2;
      split; [constructor | first [apply frame_record | apply frame_state]]
  | |- well_stepped _ _ _ _ =>
      split; [constructor; done | first [apply frame_record | apply frame_state]]
  end.

Lemma step_confirm env s ok s' :
  outcome (confirm_sas env) s = (ok, s') -> well_stepped CallConfirmSas ok s s'.
Proof.
  unfold outcome, confirm_sas, chain, lift, update, finish. intros Hr. run_method; by_diagram.
Qed.

Lemma step_return env e s ok s' :
  outcome (handle_return_payload env e) s = (ok, s') -> well_stepped (CallHandleReturnPayload e) ok s s'.
Proof. intros [[-> ->]|(-> & ? & ? & ->)]%step_receive; by_diagram. Qed.

Lemma step_payload env e s ok s' :
  outcome (handle_payload env e) s = (ok, s') -> well_stepped (CallHandlePayload e) ok s s'.
Proof. intros [[-> ->]|(-> & ? & ? & ->)]%step_receive; by_diagram. Qed.

Lemma step_source_complete env b s ok s' :
  outcome (send_source_complete env b) s = (ok, s') -> well_stepped (CallSendSourceComplete b) ok s s'.
Proof.
  unfold outcome, send_source_complete, chain, lift, update, finish. intros Hr. run_method; by_diagram.
Qed.

Lemma step_send env ty p s ok s' :
  outcome (send_payload env ty p) s = (ok, s') -> well_stepped (CallSendPayload ty p) ok s s'.
Proof.
  unfold outcome, send_payload, chain, lift, update, finish. intros Hr. run_method; by_diagram.
Qed.

Lemma step_complete env e s ok s' :
  outcome (handle_complete env e) s = (ok, s') -> well_stepped (CallHandleComplete e) ok s s'.
Proof.
  unfold outcome, handle_complete, chain, lift, update, fails. intros Hr. run_method; by_diagram.
Qed.

Lemma step_user env s ok s' :
  outcome (confirm_target_sas env) s = (ok, s') -> well_stepped CallConfirmTargetSas ok s s'.
Proof.
  unfold outcome, confirm_target_sas, chain, lift, update. intros Hr. run_method; by_diagram.
Qed.

Lemma step_done env s ok s' :
  outcome (send_complete env) s = (ok, s') -> well_stepped CallSendComplete ok s s'.
Proof.
  unfold outcome, send_complete, chain, lift, update, finish. intros Hr. run_method; by_diagram.
Qed.

Lemma step_abort env r s ok s' :
  outcome (abort env r) s = (ok, s') -> well_stepped (CallAbort r) ok s s'.
Proof.
  unfold outcome, abort, chain, lift, update, finish. intros Hr. run_method; by_diagram.
Qed.

Lemma step_aborted e s ok s' :
  outcome (handle_abort e) s = (ok, s') -> well_stepped (CallHandleAbort e) ok s s'.
Proof.
  unfold outcome, handle_abort, chain, lift, update, finish, fails. intros Hr. run_method; by_diagram.
Qed.

(** A target knows its peer and its code from the start. *)
Definition session_wf s : Prop :=
  role s = Target ->
  state s <> Waiting /\ is_Some (peer_pubkey s) /\ is_Some (sas_input s) /\ is_Some (sas_code s).

Lemma step_sas env e s ok s' :
  session_wf s ->
  outcome (handle_sas_confirm env e) s = (ok, s') -> well_stepped (CallHandleSasConfirm e) ok s s'.
Proof.
  intros Hwf. unfold outcome, handle_sas_confirm, chain, lift, update, fails. intros Hr.
  destruct (guard env Confirming Target s) as [u|] eqn:Hg; [|injection Hr as <- <-; apply refused].
  apply guard_ok in Hg as (_ & Hst & Hro). destruct (Hwf Hro) as (_ & _ & _ & [c Hc]).
  run_method; try by_diagram. all: cbn in *; rewrite Hc in *; simplify_eq/=; by_diagram.
Qed.

Lemma run_call_stepped env c s ok s' :
  session_wf s -> run_call env c s = (ok, s') -> well_stepped c ok s s'.
Proof.
  intros Hwf. destruct c; cbn [run_call].
  - apply step_offer.
  - apply step_confirm.
  - apply step_return.
  - apply step_source_complete.
  - apply step_send.
  - apply step_complete.
  - by apply step_sas.
  - apply step_user.
  - apply step_payload.
  - apply step_done.
  - apply step_abort.
  - apply step_aborted.
Qed.

Lemma diagram_not_waiting r c ok st st' : diagram r c ok st st' -> st <> Waiting -> st' <> Waiting.
Proof. inversion 1; try done; by destruct b. Qed.

Lemma run_call_wf env c s : session_wf s -> session_wf (snd (run_call env c s)).
Proof.
  intros Hwf. destruct (run_call env c s) as [ok s'] eqn:Hr.
  destruct (run_call_stepped env c s ok s' Hwf Hr) as [Hd (Hro & _ & _ & _ & _ & _ & _ & Hf & _)].
  intros Ht. cbn in Ht |- *. rewrite Hro in Ht. destruct (Hwf Ht) as (Hw & Hp & Hi & Hc).
  destruct (Hf Hw) as (-> & -> & ->). split_and!; try done. by eapply diagram_not_waiting.
Qed.

(** ** Sessions over time *)

Definition History := list (Env * Call).

Definition after (hist : History) s : Session :=
  foldl (fun s ec => snd (run_call (fst ec) (snd ec) s)) s hist.

Lemma after_snoc hist ec s : after (hist ++ [ec]) s = snd (run_call (fst ec) (snd ec) (after hist s)).
Proof. unfold after. by rewrite foldl_app. Qed.

Lemma after_wf hist s : session_wf s -> session_wf (after hist s).
Proof.
  intros Hwf. induction hist as [|ec hist IH] using rev_ind; [done|].
  rewrite after_snoc. by apply run_call_wf.
Qed.

Lemma frame_trans s1 s2 s3 :
  frame s1 s2 -> frame s2 s3 -> (state s1 <> Waiting -> state s2 <> Waiting) -> frame s1 s3.
Proof.
  unfold frame. intros (?&?&?&?&?&?&?&Hf1&?) (?&?&?&?&?&?&?&Hf2&?) Hw.
  split_and!; try congruence; [|set_solver].
  intros Hs. destruct (Hf1 Hs) as (?&?&?). destruct (Hf2 (Hw Hs)) as (?&?&?). split_and!; congruence.
Qed.

Lemma after_frame hist s :
  session_wf s -> frame s (after hist s) /\ (state s <> Waiting -> state (after hist s) <> Waiting).
Proof.
  intros Hwf. induction hist as [|ec hist [IHf IHw]] using rev_ind; [split; [apply frame_refl|done]|].
  rewrite after_snoc. destruct (run_call (fst ec) (snd ec) (after hist s)) as [ok s'] eqn:Hr.
  destruct (run_call_stepped _ _ _ _ _ (after_wf hist s Hwf) Hr) as [Hd Hf]. cbn. split.
  - by eapply frame_trans.
  - intros Hs. eapply diagram_not_waiting; [exact Hd | by apply IHw].
Qed.

(** The last call that changed the state. *)
Lemma last_move hist s :
  state (after hist s) <> state s ->
  exists h1 ec h2, hist = h1 ++ ec :: h2
    /\ state (after h1 s) <> state (after hist s)
    /\ state (snd (run_call (fst ec) (snd ec) (after h1 s))) = state (after hist s).
Proof.
  induction hist as [|ec hist IH] using rev_ind; [done|]. rewrite after_snoc. intros Hne.
  destruct (decide (state (after hist s) = state (snd (run_call (fst ec) (snd ec) (after hist s))))) as [Heq|Hch].
  - rewrite <- Heq in Hne |- *. destruct (IH Hne) as (h1 & ec' & h2 & -> & H1 & H2).
    exists h1, ec', (h2 ++ [ec]). by rewrite <- app_assoc.
  - by exists hist, ec, [].
Qed.

(** ** Guarantees *)

(** The code follows the protocol diagram: whatever the call, its result and
    the environment, a session moves only along an edge its role has for that
    call, a failing call moves nowhere except to [Aborted] on a transcript
    mismatch or a failed completion, and role, keys, secret and, once past
    the offer, peer and codes never change. *)
Theorem session_follows_diagram env c s :
  session_wf s ->
  let '(ok, s') := run_call env c s in
  diagram (role s) c ok (state s) (state s') /\ frame s s' /\ session_wf s'.
Proof.
  intros Hwf. pose proof (run_call_wf env c s Hwf) as Hwf'.
  destruct (run_call env c s) as [ok s'] eqn:Hr.
  destruct (run_call_stepped env c s ok s' Hwf Hr). by split_and!.
Qed.

Lemma guard_terminal env st r s :
  is_terminal s = true -> st <> Completed -> st <> Aborted -> exists e, guard env st r s = Err e.
Proof.
  intros Ht H1 H2. destruct (guard env st r s) as [u|e] eqn:Hg; [|eauto].
  apply guard_ok in Hg as (_ & Hs & _). unfold is_terminal in Ht. rewrite Hs in Ht.
  by rewrite !bool_decide_eq_false_2 in Ht.
Qed.

(** A finished session stays finished: once completed or aborted, every
    call fails and leaves the session exactly as it was. *)
Theorem terminal_is_final env c s : is_terminal s = true -> run_call env c s = (false, s).
Proof.
  intros Ht.
  assert (forall A (k : unit -> Method A) st r, st <> Completed -> st <> Aborted ->
    outcome (chain (lift (guard env st r)) k) s = (false, s)) as Hg.
  { intros A k st r H1 H2. destruct (guard_terminal env st r s Ht H1 H2) as [e He].
    unfold outcome, chain, lift. by rewrite He. }
  assert (forall A (k : unit -> Method A), outcome (chain (lift refuse_terminal) k) s = (false, s)) as Hr.
  { intros A k. unfold outcome, chain, lift, refuse_terminal. by rewrite Ht. }
  destruct c; cbn [run_call]; first [by apply Hg | apply Hr].
Qed.

(** Which edge leads into the states a payload needs. *)
Lemma into_transferring r c ok st :
  diagram r c ok st Transferring -> st <> Transferring ->
  ok = true /\ match r with
               | Target => c = CallConfirmTargetSas /\ st = AwaitingConfirmation
               | Source => c = CallConfirmSas /\ st = Confirming
               end.
Proof.
  intros Hd Hne. remember Transferring as st' eqn:Hst.
  destruct Hd; simplify_eq/=; try done; by destruct b.
Qed.

Lemma into_awaiting r c ok st :
  diagram r c ok st AwaitingConfirmation -> st <> AwaitingConfirmation ->
  ok = true /\ exists e, c = CallHandleSasConfirm e.
Proof.
  intros Hd Hne. remember AwaitingConfirmation as st' eqn:Hst.
  destruct Hd; simplify_eq/=; try done; [by destruct b | by split; [|eexists]].
Qed.

Lemma into_confirming r c ok st :
  diagram r c ok st Confirming -> st <> Confirming ->
  ok = true /\ exists e, c = CallHandleOffer e.
Proof.
  intros Hd Hne. remember Confirming as st' eqn:Hst.
  destruct Hd; simplify_eq/=; try done; [by split; [|eexists] | by destruct b].
Qed.

(** The last call that changed the state, with the edge it took. *)
Lemma last_edge hist s st :
  session_wf s -> state (after hist s) = st -> state s <> st ->
  exists h1 env c h2 ok, hist = h1 ++ (env, c) :: h2
    /\ run_call env c (after h1 s) = (ok, snd (run_call env c (after h1 s)))
    /\ diagram (role s) c ok (state (after h1 s)) st /\ state (after h1 s) <> st.
Proof.
  intros Hwf Hst Hne. destruct (last_move hist s) as (h1 & [env c] & h2 & -> & Hne' & Heq); [by rewrite Hst|].
  cbn [fst snd] in Heq. rewrite Hst in Hne', Heq.
  destruct (run_call env c (after h1 s)) as [ok s'] eqn:Hr.
  destruct (run_call_stepped _ _ _ _ _ (after_wf h1 s Hwf) Hr) as [Hd _].
  destruct (after_frame h1 s Hwf) as [(Hro & _) _]. cbn in Heq. rewrite Hro, Heq in Hd.
  exists h1, env, c, h2, ok. rewrite Hr. by split_and!.
Qed.

Lemma move_to_user_confirmed s hist :
  session_wf s -> role s = Target -> state s = Confirming -> state (after hist s) = Transferring ->
  exists h1 env1 e1 h2 env2 h3,
    hist = h1 ++ (env1, CallHandleSasConfirm e1) :: h2 ++ (env2, CallConfirmTargetSas) :: h3
    /\ run_call env1 (CallHandleSasConfirm e1) (after h1 s)
       = (true, snd (run_call env1 (CallHandleSasConfirm e1) (after h1 s)))
    /\ fst (run_call env2 CallConfirmTargetSas
         (after (h1 ++ (env1, CallHandleSasConfirm e1) :: h2) s)) = true.
Proof.
  intros Hwf Hro Hst Htr.
  destruct (last_edge hist s Transferring Hwf Htr) as (g1 & env2 & c2 & h3 & ok2 & -> & Hr2 & Hd & Hne);
    [by rewrite Hst|].
  rewrite Hro in Hd. destruct (into_transferring _ _ _ _ Hd Hne) as (-> & -> & Hg).
  destruct (last_edge g1 s AwaitingConfirmation Hwf Hg) as (h1 & env1 & c1 & h2 & ok1 & -> & Hr1 & Hd1 & Hne1);
    [by rewrite Hst|].
  destruct (into_awaiting _ _ _ _ Hd1 Hne1) as (-> & e1 & ->).
  exists h1, env1, e1, h2, env2, h3. rewrite <- app_assoc. split_and!; [done|done|by rewrite Hr2].
Qed.

(** What a target has checked when [handle_sas_confirm] succeeds. *)
Definition transcript_confirmed (t : Session) (e : Event) : Prop :=
  peer_pubkey t = Some (ev_pubkey e)
  /\ verify_event e = Ok tt
  /\ exists h rb input, decrypt_message e t = Ok (SasConfirm h) /\ hex32 h = Some rb
     /\ sas_input t = Some input
     /\ subtle_ct_eq rb (own_transcript (ev_pubkey e) (pubkey_of (keys t)) input t) = true.

Lemma from_peer_ok e s u :
  validate_event_from_peer e s = Ok u ->
  verify_event e = Ok tt /\ ev_id e ∉ processed_ids s /\ ev_kind e = PAIRING_KIND
  /\ (forall p, peer_pubkey s = Some p -> ev_pubkey e = p).
Proof.
  unfold validate_event_from_peer, validate_event_basics. rewrite rbind_ok. intros (v & Hb & Hp).
  apply rbind_ok in Hb as ([] & Hv & Hb). destruct (verify_event e) as [[]|]; [|done].
  case_bool_decide; [done|]. destruct (Z.eqb_spec (ev_kind e) PAIRING_KIND); [|done]. split_and!; try done.
  intros p Hpeer. rewrite Hpeer in Hp. case_bool_decide; done.
Qed.

Lemma sas_confirm_checks env e s s' :
  session_wf s -> run_call env (CallHandleSasConfirm e) s = (true, s') ->
  role s = Target /\ transcript_confirmed s e.
Proof.
  intros Hwf. cbn [run_call]. unfold outcome, handle_sas_confirm, chain, lift, update, fails. intros Hr.
  destruct (guard env Confirming Target s) as [u|] eqn:Hg; [|done].
  apply guard_ok in Hg as (_ & _ & Hro). split; [done|].
  destruct (Hwf Hro) as (_ & [p Hp] & [input Hi] & _). rewrite Hp, Hi in Hr. cbn in Hr.
  destruct (validate_event_from_peer e s) as [v|] eqn:Hv; [|done].
  apply from_peer_ok in Hv as (Hver & _ & _ & Hpk). specialize (Hpk p Hp).
  destruct (decrypt_message e s) as [m|] eqn:Hm; [|done]. destruct m; cbn in Hr; try done.
  destruct (hex32 transcript_hash) as [rb|] eqn:Hx; [|done].
  destruct (subtle_ct_eq rb _) eqn:Hct; [|done]. subst p.
  unfold transcript_confirmed. split_and!; [done|done|]. by exists transcript_hash, rb, input.
Qed.

(** C32. A target takes a secret only after both confirmations: if a payload is
    accepted, then earlier in this very session a [sas-confirm] from the peer
    of the QR code was accepted whose transcript hash matches the target's
    own, and after it the user confirmed the code. *)
Theorem payload_needs_confirmation env0 fresh qr t offer hist env e r t' :
  new_target env0 fresh qr = Ok (t, offer) ->
  handle_payload env e (after hist t) = (Ok r, t') ->
  exists h1 env1 e1 h2 env2 h3,
    hist = h1 ++ (env1, CallHandleSasConfirm e1) :: h2 ++ (env2, CallConfirmTargetSas) :: h3
    /\ ev_pubkey e1 = qr_source_pubkey qr
    /\ transcript_confirmed (after h1 t) e1
    /\ fst (run_call env2 CallConfirmTargetSas
         (after (h1 ++ (env1, CallHandleSasConfirm e1) :: h2) t)) = true
    /\ ev_pubkey e = qr_source_pubkey qr.
Proof.
  intros Hnew Hpay. unfold new_target in Hnew. apply rbind_ok in Hnew as (ecdh & _ & Hnew).
  apply rbind_ok in Hnew as (ev & _ & [= <- _]). set (t := set_state Confirming _) in *.
  assert (session_wf t) as Hwf by (intros _; cbn; split_and!; [done|eauto..]).
  destruct (step_receive env Target e (after hist t) true t') as [[? _]|(_ & Htr & _ & _)];
    [unfold outcome; fold (handle_payload env e); by rewrite Hpay|done|].
  destruct (move_to_user_confirmed t hist Hwf eq_refl eq_refl Htr)
    as (h1 & env1 & e1 & h2 & env2 & h3 & -> & Hr1 & Hr2).
  destruct (sas_confirm_checks _ _ _ _ (after_wf h1 t Hwf) Hr1) as [_ Hc].
  assert (forall h, peer_pubkey (after h t) = Some (qr_source_pubkey qr)) as Hpeer.
  { intros h. destruct (after_frame h t Hwf) as [(_&_&_&_&_&_&_&Hf&_) _]. by destruct (Hf ltac:(done)) as (-> & _). }
  exists h1, env1, e1, h2, env2, h3. split_and!; try done.
  - destruct Hc as (Hp & _). rewrite Hpeer in Hp. by injection Hp.
  - unfold handle_payload, receive_payload, chain, lift in Hpay.
    destruct (guard _ _ _ _); [|done]. destruct (validate_event_from_peer e _) as [v|] eqn:Hv; [|done].
    apply from_peer_ok in Hv as (_ & _ & _ & Hp). by apply Hp, Hpeer.
Qed.

(** What a source has checked when [handle_offer] succeeds. *)
Lemma offer_checks env e s s' :
  run_call env (CallHandleOffer e) s = (true, s') ->
  peer_pubkey s' = Some (ev_pubkey e) /\ verify_event e = Ok tt
  /\ exists h rb, decrypt_message e s = Ok (Offer h 1) /\ hex32 h = Some rb
     /\ subtle_ct_eq rb (session_id s) = true.
Proof.
  cbn [run_call]. unfold outcome, handle_offer, chain, lift, update, finish. intros Hr.
  destruct (guard env Waiting Source s); [|done].
  destruct (validate_event_basics e s) as [v|] eqn:Hv; [|done].
  unfold validate_event_basics in Hv. apply rbind_ok in Hv as ([] & Hver & _).
  destruct (decrypt_message e s) as [m|] eqn:Hm; [|done]. destruct m as [h ver|?|? ?|?|?]; [|done..]. cbn in Hr.
  destruct (Z.eqb_spec ver 1) as [->|]; [|done]. cbn in Hr.
  destruct (hex32 h) as [rb|] eqn:Hx; [|done]. destruct (subtle_ct_eq rb (session_id s)) eqn:Hct; [|done].
  destruct (generate_shared_key _ _); [|done]. injection Hr as <-. split_and!; [done| |by exists h, rb].
  by destruct (verify_event e) as [[]|].
Qed.

(** A source sends its secret only to a device that proved it read the QR
    code, and only after its user confirmed: before a payload leaves, an offer
    with this session's id was accepted, the payload's session is locked to
    that offer's author, and [confirm_sas] succeeded afterwards. *)
Theorem secret_needs_confirmation env0 fresh secret url hist env ty p event s' :
  let s := fst (new_source env0 fresh secret url) in
  send_payload env ty p (after hist s) = (Ok event, s') ->
  exists h1 env1 e1 h2 env2 h3 h rb,
    hist = h1 ++ (env1, CallHandleOffer e1) :: h2 ++ (env2, CallConfirmSas) :: h3
    /\ verify_event e1 = Ok tt
    /\ decrypt_message e1 (after h1 s) = Ok (Offer h 1) /\ hex32 h = Some rb
    /\ subtle_ct_eq rb (derive_session_id secret) = true
    /\ peer_pubkey (after hist s) = Some (ev_pubkey e1)
    /\ fst (run_call env2 CallConfirmSas (after (h1 ++ (env1, CallHandleOffer e1) :: h2) s)) = true.
Proof.
  intros s Hsend. assert (session_wf s) as Hwf by done.
  assert (state (after hist s) = Transferring) as Htr.
  { unfold send_payload, chain, lift in Hsend. destruct (guard _ _ _ _) as [u|] eqn:Hg; [|done].
    by apply guard_ok in Hg as (_ & ? & _). }
  destruct (last_edge hist s Transferring Hwf Htr) as (g1 & env2 & c2 & h3 & ok2 & -> & Hr2 & Hd & Hne); [done|].
  destruct (into_transferring _ _ _ _ Hd Hne) as (-> & -> & Hg).
  destruct (last_edge g1 s Confirming Hwf Hg) as (h1 & env1 & c1 & h2 & ok1 & -> & Hr1 & Hd1 & Hne1); [done|].
  destruct (into_confirming _ _ _ _ Hd1 Hne1) as (-> & e1 & ->).
  destruct (offer_checks _ _ _ _ Hr1) as (Hpeer & Hver & h & rb & Hdec & Hx & Hct).
  destruct (after_frame h1 s Hwf) as [(_&_&_&Hsid&_) _]. rewrite Hsid in Hct.
  set (s1 := snd (run_call env1 (CallHandleOffer e1) (after h1 s))) in *.
  assert (forall g, after (h1 ++ (env1, CallHandleOffer e1) :: g) s = after g s1) as Happ
    by (intros g; unfold after; rewrite foldl_app; done).
  assert (session_wf s1) as Hwf1 by (apply run_call_wf, after_wf, Hwf).
  assert (state s1 <> Waiting) as Hs1.
  { destruct (run_call_stepped _ _ _ _ _ (after_wf h1 s Hwf) Hr1) as [Hd' _].
    intros Hw. rewrite Hw in Hd'. inversion Hd'. }
  exists h1, env1, e1, h2, env2, h3, h, rb. rewrite <- app_assoc. cbn [app].
  split_and!; try done; [|by rewrite Hr2].
  rewrite Happ. by destruct (after_frame (h2 ++ (env2, CallConfirmSas) :: h3) s1 Hwf1) as [(_&_&_&_&_&_&_&Hf&_) _];
    destruct (Hf Hs1) as (-> & _).
Qed.

(** The calls that consume an event. *)
Definition call_event (c : Call) : option Event :=
  match c with
  | CallHandleOffer e | CallHandleReturnPayload e | CallHandleComplete e | CallHandleSasConfirm e
  | CallHandlePayload e | CallHandleAbort e => Some e
  | _ => None
  end.

(** No event is processed twice, nor one of another kind, nor an unverified
    one: a call that consumes an event succeeds only on a verified pairing
    event not yet processed, and has processed it afterwards. *)
Theorem events_processed_once env c s s' e :
  call_event c = Some e -> run_call env c s = (true, s') ->
  verify_event e = Ok tt /\ ev_kind e = PAIRING_KIND
  /\ ev_id e ∉ processed_ids s /\ ev_id e ∈ processed_ids s'.
Proof.
  intros Hc Hr.
  assert (forall u, validate_event_basics e s = Ok u ->
    verify_event e = Ok tt /\ ev_kind e = PAIRING_KIND /\ ev_id e ∉ processed_ids s) as Hb.
  { intros u Hu. unfold validate_event_basics in Hu. apply rbind_ok in Hu as ([] & Hv & Hu).
    destruct (verify_event e) as [[]|]; [|done]. case_bool_decide; [done|].
    by destruct (Z.eqb_spec (ev_kind e) PAIRING_KIND). }
  assert (forall u, validate_event_from_peer e s = Ok u -> exists v, validate_event_basics e s = Ok v) as Hp.
  { intros u Hu. unfold validate_event_from_peer in Hu. apply rbind_ok in Hu as (v & Hv & _). eauto. }
  enough ((exists u, validate_event_basics e s = Ok u) /\ ev_id e ∈ processed_ids s') as [[u Hu] Hin]
    by (destruct (Hb u Hu) as (? & ? & ?); by split_and!).
  destruct c; simplify_eq/=; unfold outcome, handle_offer, handle_return_payload, handle_payload,
    receive_payload, handle_complete, handle_sas_confirm, handle_abort, chain, lift, update, finish, fails in Hr;
    clear Hb; run_method; try (split; [eauto | set_solver]).
Qed.
End Facts.

(** ** Two honest devices *)

(** What the libraries document. *)
Class PairingLaws `{PairingLib} := {
  ecdh_agree k1 k2 : generate_shared_key k1 (pubkey_of k2) = generate_shared_key k2 (pubkey_of k1);
  hkdf_length prk info n : String.length (hkdf_expand prk info n) = n;
  ct_eq_iff a b : subtle_ct_eq a b = true <-> a = b;
  nip44_roundtrip k1 k2 plain n c :
    nip44_encrypt k1 (pubkey_of k2) plain n = Ok c ->
    nip44_decrypt k2 (pubkey_of k1) c = Ok plain
    /\ 132 <= str_len c <= 87472 /\ str_len plain <= 65535;
  json_roundtrip m j : message_to_json m = Ok j -> message_from_json j = Ok m;
  hex_roundtrip b : hex_decode (hex_encode b) = Some b;
  signed k kind content tags ts e :
    sign_event k kind content tags ts = Ok e ->
    verify_event e = Ok tt /\ ev_kind e = kind /\ ev_content e = content /\ ev_tags e = tags
    /\ ev_pubkey e = pubkey_of k;
}.

Lemma substring_all s : String.substring 0 (String.length s) s = s.
Proof. induction s as [|c s IH]; cbn; [done|by rewrite IH]. Qed.

Section Honest.
Context `{PairingLaws}.
#[local] Abbreviation Session := (PairingSession SecretKey).
Implicit Types s t : Session.

Lemma hkdf32_length salt ikm info : str_len (hkdf32 salt ikm info) = 32.
Proof.
  unfold hkdf32, str_len. set (okm := hkdf_expand _ _ _).
  assert (String.length okm = 32%nat) as Hl by apply hkdf_length.
  replace (String.substring 0 32 okm) with okm by (rewrite <- Hl; by rewrite substring_all).
  by rewrite Hl.
Qed.

Lemma hex32_encode salt ikm info :
  hex32 (hex_encode (hkdf32 salt ikm info)) = Some (hkdf32 salt ikm info).
Proof. unfold hex32. by rewrite hex_roundtrip, hkdf32_length. Qed.

Lemma hex32_id secret : hex32 (hex_encode (derive_session_id secret)) = Some (derive_session_id secret).
Proof. apply hex32_encode. Qed.

Lemma hex32_transcript p q i s :
  hex32 (hex_encode (own_transcript p q i s)) = Some (own_transcript p q i s).
Proof. apply hex32_encode. Qed.

Lemma ct_eq_same a : subtle_ct_eq a a = true.
Proof. by apply ct_eq_iff. Qed.

(** An event one side builds for the other is read as the message it carries. *)
Lemma delivered env m s r e :
  build_event env m s = Ok e -> peer_pubkey s = Some (pubkey_of (keys r)) ->
  ev_id e ∉ processed_ids r ->
  validate_event_basics e r = Ok tt /\ decrypt_message e r = Ok m /\ ev_pubkey e = pubkey_of (keys s).
Proof.
  unfold build_event. intros Hb Hp Hid. rewrite Hp in Hb. cbn in Hb.
  apply rbind_ok in Hb as (j & Hj & Hb). destruct (message_to_json m) as [j'|] eqn:Ej; [|done].
  injection Hj as ->. apply rbind_ok in Hb as (c & Hc & Hb).
  destruct (nip44_encrypt _ _ _ _) as [c'|] eqn:Ec; [|done]. injection Hc as ->.
  destruct (sign_event _ _ _ _ _) as [e'|] eqn:Es; [|done]. injection Hb as ->.
  apply signed in Es as (Hv & Hk & Hco & Ht & Hpk).
  apply nip44_roundtrip in Ec as (Hd & Hlen & Hplain). apply json_roundtrip in Ej.
  split_and!; [| |done].
  - unfold validate_event_basics. rewrite Hv, Hk, Ht. cbn. rewrite bool_decide_eq_false_2 by done.
    unfold tags_us. cbn. by rewrite !bool_decide_eq_true_2.
  - unfold decrypt_message. rewrite Hco, Hpk, Hd. cbn.
    destruct (Z.leb_spec 132 (str_len c)); [|lia]. destruct (Z.leb_spec (str_len c) 87472); [|lia].
    cbn. destruct (Z.ltb_spec 65535 (str_len j)); [lia|]. by rewrite Ej.
Qed.

Lemma delivered_from_peer env m s r e :
  build_event env m s = Ok e -> peer_pubkey s = Some (pubkey_of (keys r)) ->
  peer_pubkey r = Some (pubkey_of (keys s)) -> ev_id e ∉ processed_ids r ->
  validate_event_from_peer e r = Ok tt /\ decrypt_message e r = Ok m.
Proof.
  intros Hb Hp Hr Hid. destruct (delivered env m s r e Hb Hp Hid) as (Hv & Hd & Hpk).
  split; [|done]. unfold validate_event_from_peer. rewrite Hv, Hr. cbn.
  by rewrite bool_decide_eq_false_2 by (rewrite Hpk; intros Hne; by apply Hne).
Qed.

Lemma guard_pass env st r s :
  is_expired env s = false -> state s = st -> role s = r -> guard env st r s = Ok tt.
Proof. intros H1 H2 H3. by apply guard_ok. Qed.

(** Two sessions halfway through the same pairing. *)
Record paired s t (code : Z) (input : string) : Prop := {
  paired_roles : role s = Source /\ role t = Target;
  paired_secret : session_secret t = session_secret s;
  paired_id : session_id t = session_id s;
  paired_peers : peer_pubkey s = Some (pubkey_of (keys t)) /\ peer_pubkey t = Some (pubkey_of (keys s));
  paired_codes : sas_code s = Some code /\ sas_code t = Some code;
  paired_inputs : sas_input s = Some input /\ sas_input t = Some input;
}.

(** Changing states and recording events keeps two sessions paired. *)
Lemma paired_frame s t s' t' code input :
  paired s t code input -> frame s s' -> frame t t' -> state s <> Waiting -> state t <> Waiting ->
  paired s' t' code input.
Proof.
  intros [[? ?] ? ? [? ?] [? ?] [? ?]] (?&?&?&?&_&_&_&Hs&_) (?&?&?&?&_&_&_&Ht&_) Hws Hwt.
  destruct (Hs Hws) as (?&?&?). destruct (Ht Hwt) as (?&?&?). split; try split; congruence.
Qed.

Lemma offer_accepted env0 env1 env fresh secret url tfresh t offer :
  let s := fst (new_source env0 fresh secret url) in
  new_target env1 tfresh (snd (new_source env0 fresh secret url)) = Ok (t, offer) ->
  is_expired env s = false ->
  exists code input s1, handle_offer env offer s = (Ok (format_sas code), s1)
    /\ paired s1 t code input /\ state s1 = Confirming /\ state t = Confirming
    /\ processed_ids s1 = {[ev_id offer]} ∪ ∅ /\ processed_ids t = ∅
    /\ created_at s1 = created_at s /\ timeout s1 = timeout s.
Proof.
  intros s. unfold new_target. intros Hnew Hexp. apply rbind_ok in Hnew as (ecdh & He & Hnew).
  apply rbind_ok in Hnew as (ev & Hb & [= <- <-]).
  destruct (generate_shared_key tfresh _) as [ecdh'|] eqn:Ee; [|done]. injection He as ->.
  destruct (delivered env1 _ _ s ev Hb) as (Hv & Hd & Hpk); [done|set_solver|]. cbn in Hpk.
  cbn in Ee. rewrite ecdh_agree in Ee.
  unfold handle_offer, chain, lift, update, finish.
  rewrite guard_pass by done. rewrite Hv, Hd. cbn.
  rewrite hex32_id, ct_eq_same, Hpk, Ee. cbn.
  eexists _, _, _. split; [done|]. split_and!; done.
Qed.

Lemma confirm_accepted env env' s t code input e s' :
  paired s t code input -> state t = Confirming -> processed_ids t = ∅ -> is_expired env' t = false ->
  confirm_sas env s = (Ok e, s') ->
  s' = set_state Transferring s
  /\ handle_sas_confirm env' e t = (Ok (format_sas code), record_event e (set_state AwaitingConfirmation t)).
Proof.
  intros [[Hrs Hrt] Hsec Hid [Hps Hpt] [Hcs Hct] [His Hit]] Hst Hproc Hexp Hc.
  unfold confirm_sas, chain, lift, update, finish in Hc.
  destruct (guard env Confirming Source s); [|done].
  rewrite His, Hps in Hc. cbn in Hc.
  destruct (build_event _ _ _) as [ev|] eqn:Hb; [|done]. injection Hc as -> <-. split; [done|].
  destruct (delivered_from_peer env _ s t e Hb Hps Hpt) as [Hv Hd]; [rewrite Hproc; set_solver|].
  unfold handle_sas_confirm, chain, lift, update, fails. rewrite guard_pass by done.
  rewrite Hv, Hd, Hit, Hpt. cbn. rewrite hex32_transcript.
  replace (own_transcript (pubkey_of (keys s)) (pubkey_of (keys t)) input t)
    with (own_transcript (pubkey_of (keys s)) (pubkey_of (keys t)) input s)
    by (unfold own_transcript; by rewrite Hsec, Hid).
  rewrite ct_eq_same. cbn. by rewrite Hct.
Qed.

Lemma payload_accepted env env' s t code input ty p e s' :
  paired s t code input -> state t = Transferring -> ev_id e ∉ processed_ids t ->
  is_expired env' t = false -> send_payload env ty p s = (Ok e, s') ->
  s' = set_state PayloadExchanged s
  /\ handle_payload env' e t = (Ok (ty, p), record_event e (set_state PayloadExchanged t)).
Proof.
  intros [[Hrs Hrt] _ _ [Hps Hpt] _ _] Hst Hid Hexp Hc.
  unfold send_payload, chain, lift, update, finish in Hc.
  destruct (guard env Transferring Source s); [|done].
  destruct (build_event _ _ _) as [ev|] eqn:Hb; [|done]. injection Hc as -> <-. split; [done|].
  destruct (delivered_from_peer env _ s t e Hb Hps Hpt Hid) as [Hv Hd].
  unfold handle_payload, receive_payload, chain, lift, update, finish. rewrite guard_pass by done.
  by rewrite Hv, Hd.
Qed.

Lemma complete_accepted env env' s t code input e t' :
  paired s t code input -> state s = PayloadExchanged -> ev_id e ∉ processed_ids s ->
  is_expired env s = false -> send_complete env' t = (Ok e, t') ->
  state t' = Completed /\ handle_complete env e s = (Ok tt, record_event e (set_state Completed s)).
Proof.
  intros [[Hrs Hrt] _ _ [Hps Hpt] _ _] Hst Hid Hexp Hc.
  unfold send_complete, chain, lift, update, finish in Hc.
  destruct (guard env' PayloadExchanged Target t); [|done].
  destruct (build_event _ _ _) as [ev|] eqn:Hb; [|done]. injection Hc as -> <-. split; [done|].
  destruct (delivered_from_peer env' _ t s e Hb Hpt Hps Hid) as [Hv Hd].
  unfold handle_complete, chain, lift, update, fails. rewrite guard_pass by done.
  by rewrite Hv, Hd.
Qed.

Lemma user_confirms env t :
  is_expired env t = false -> state t = AwaitingConfirmation -> role t = Target ->
  confirm_target_sas env t = (Ok tt, set_state Transferring t).
Proof. intros. unfold confirm_target_sas, chain, lift, update. by rewrite guard_pass. Qed.

(** C33. Two honest devices complete: given the QR code and a relay that delivers
    in order within the time limit, the source accepts the target's offer,
    both show the same code, the target accepts the confirmation, receives
    exactly the payload sent, and both sessions end completed. *)
Theorem honest_pairing env0 env1 fresh secret url tfresh t offer (es et : nat -> Env) ty p
    code_s s1 e_confirm s2 code_t t1 user t2 e_pay s3 received t3 e_done t4 finished s4 :
  let s := fst (new_source env0 fresh secret url) in
  new_target env1 tfresh (snd (new_source env0 fresh secret url)) = Ok (t, offer) ->
  (forall i, is_expired (es i) s = false) -> (forall i, is_expired (et i) t = false) ->
  handle_offer (es 0%nat) offer s = (code_s, s1) ->
  confirm_sas (es 1%nat) s1 = (Ok e_confirm, s2) ->
  handle_sas_confirm (et 0%nat) e_confirm t = (code_t, t1) ->
  confirm_target_sas (et 1%nat) t1 = (user, t2) ->
  send_payload (es 2%nat) ty p s2 = (Ok e_pay, s3) -> ev_id e_pay <> ev_id e_confirm ->
  handle_payload (et 2%nat) e_pay t2 = (received, t3) ->
  send_complete (et 3%nat) t3 = (Ok e_done, t4) -> ev_id e_done <> ev_id offer ->
  handle_complete (es 3%nat) e_done s3 = (finished, s4) ->
  is_ok code_s = true /\ code_s = code_t /\ user = Ok tt /\ received = Ok (ty, p) /\ finished = Ok tt
  /\ state s4 = Completed /\ state t4 = Completed.
Proof.
  intros s Hnew Hes Het Ho Hconf Hsas Huser Hsend Hid1 Hpay Hdone Hid2 Hfin.
  destruct (offer_accepted env0 env1 (es 0%nat) fresh secret url tfresh t offer Hnew (Hes 0%nat))
    as (code & input & s1' & Ho' & Hpair & Hs1 & Ht & Hps & Hpt & Hcr & Hto).
  fold s in Ho', Hcr, Hto. rewrite Ho in Ho'. injection Ho' as -> <-.
  destruct (confirm_accepted _ (et 0%nat) _ _ _ _ _ _ Hpair Ht Hpt (Het 0%nat) Hconf) as [-> Hsas'].
  rewrite Hsas in Hsas'. injection Hsas' as -> ->.
  rewrite user_confirms in Huser; [|apply Het|done|apply Hpair]. injection Huser as <- <-.
  set (t2 := set_state Transferring (record_event e_confirm (set_state AwaitingConfirmation t))) in *.
  assert (paired (set_state Transferring s1) t2 code input) as Hpair2
    by (eapply paired_frame; [exact Hpair|apply frame_state|apply frame_record_state|by rewrite Hs1|by rewrite Ht]).
  destruct (payload_accepted (es 2%nat) (et 2%nat) (set_state Transferring s1) t2 code input ty p e_pay s3)
    as [-> Hpay']; [exact Hpair2 | done | cbn; rewrite Hpt; set_solver | apply Het | exact Hsend |].
  rewrite Hpay in Hpay'. injection Hpay' as -> ->.
  destruct (complete_accepted (es 3%nat) (et 3%nat) (set_state PayloadExchanged (set_state Transferring s1))
    (record_event e_pay (set_state PayloadExchanged t2)) code input e_done t4) as [Ht4 Hfin'];
    [eapply paired_frame; [exact Hpair2|apply frame_state|apply frame_record|done|done] | done
    | cbn; rewrite Hps; set_solver | | exact Hdone |].
  { specialize (Hes 3%nat). unfold is_expired in *. cbn. by rewrite Hcr, Hto. }
  rewrite Hfin in Hfin'. injection Hfin' as -> ->. by split_and!.
Qed.
End Honest.

(** ** A toy library

    Keys are their own public keys, the shared secret is a constant, and
    encryption prepends 132 bytes. *)

Fixpoint fix_len (n : nat) (s : string) : string :=
  match n, s with
  | O, _ => EmptyString
  | S n', EmptyString => String "0" (fix_len n' EmptyString)
  | S n', String c s' => String c (fix_len n' s')
  end.

Lemma fix_len_length n s : String.length (fix_len n s) = n.
Proof. revert s. induction n as [|n IH]; intros [|c s]; cbn; by rewrite ?IH. Qed.

Definition toy_pad : string := fix_len 132 EmptyString.

Definition toy_to_json (m : PairingMessage) : Result string string :=
  match m with
  | Offer i v => if v =? 1 then Ok (String "O" i) else Err "version"%string
  | SasConfirm h => Ok (String "S" h)
  | Payload Nsec p => Ok (String "n" p)
  | Payload Bunker p => Ok (String "b" p)
  | Payload Connect p => Ok (String "c" p)
  | Payload Custom p => Ok (String "x" p)
  | Complete true => Ok "T"%string
  | Complete false => Ok "F"%string
  | AbortMsg UserDenied => Ok "D"%string
  | AbortMsg _ => Err "reason"%string
  end.

Definition toy_from_json (j : string) : Result PairingMessage string :=
  match j with
  | EmptyString => Err "empty"%string
  | String c r =>
      if Ascii.eqb c "O" then Ok (Offer r 1)
      else if Ascii.eqb c "S" then Ok (SasConfirm r)
      else if Ascii.eqb c "n" then Ok (Payload Nsec r)
      else if Ascii.eqb c "b" then Ok (Payload Bunker r)
      else if Ascii.eqb c "c" then Ok (Payload Connect r)
      else if Ascii.eqb c "x" then Ok (Payload Custom r)
      else if Ascii.eqb c "T" then Ok (Complete true)
      else if Ascii.eqb c "F" then Ok (Complete false)
      else if Ascii.eqb c "D" then Ok (AbortMsg UserDenied)
      else Err "tag"%string
  end.

#[local] Instance toy_pairing : PairingLib := {|
  SecretKey := string;
  pubkey_of k := k;
  pubkey_bytes p := p;
  generate_shared_key _ _ := Ok "shared"%string;
  hkdf_extract _ ikm := ikm;
  hkdf_expand prk info n := fix_len n (prk +:+ info)%string;
  subtle_ct_eq := String.eqb;
  nip44_encrypt _ _ plain _ :=
    if str_len plain <=? 65535 then Ok (toy_pad +:+ plain)%string else Err "size"%string;
  nip44_decrypt _ _ c := ok_or (strip_prefix toy_pad c) "pad"%string;
  message_to_json := toy_to_json;
  message_from_json := toy_from_json;
  hex_encode b := b;
  hex_decode b := Some b;
  sign_event k kind content tags ts := Ok {|
    ev_id := (k +:+ String.substring 132 1 content)%string; ev_pubkey := k; ev_created_at := ts; ev_kind := kind;
    ev_tags := tags; ev_content := content; ev_sig := "sig" |};
  verify_event e := if String.eqb (ev_sig e) "sig" then Ok tt else Err "sig"%string;
|}.

Lemma str_len_app a b : str_len (a +:+ b)%string = str_len a + str_len b.
Proof. unfold str_len. induction a as [|c a IH]; [done|]. cbn [String.append String.length]. lia. Qed.

Lemma toy_strip plain : strip_prefix toy_pad (toy_pad +:+ plain)%string = Some plain.
Proof. apply strip_prefix_app. Qed.

#[local] Instance toy_pairing_laws : PairingLaws.
Proof.
  split; cbn -[toy_pad strip_prefix String.append str_len Z.leb].
  - done.
  - intros. apply fix_len_length.
  - intros a b. apply String.eqb_eq.
  - intros _ _ plain _ c. destruct (Z.leb_spec (str_len plain) 65535); [|done]. intros Hc.
    assert (c = (toy_pad +:+ plain)%string) as -> by congruence. clear Hc.
    rewrite toy_strip, str_len_app. change (str_len toy_pad) with 132.
    assert (0 <= str_len plain) by (unfold str_len; lia). split_and!; done || lia.
  - intros [i v|h|[] p|[]|[]] j; cbn; try (by intros [= <-]); try done.
    destruct (Z.eqb_spec v 1) as [->|]; [by intros [= <-] | done].
  - done.
  - by intros k kind content tags ts e [= <-].
Defined.

Definition src_key : @SecretKey toy_pairing := "src"%string.
Definition tgt_key : @SecretKey toy_pairing := "tgt"%string.
Definition toy_env : Env := {| instant := 5; unix_now := 1000; random := 7; nonce := "n" |}.
Definition toy_source : PairingSession (@SecretKey toy_pairing) * QrPayload := Eval vm_compute in new_source toy_env src_key "secret" "wss://r".
Definition toy_event (r : Result Event PairingError * PairingSession (@SecretKey toy_pairing)) : Event :=
  match fst r with
  | Ok e => e
  | Err _ => {| ev_id := ""; ev_pubkey := ""; ev_created_at := 0; ev_kind := 0; ev_tags := [];
                ev_content := ""; ev_sig := "" |}
  end.
Definition toy_target : PairingSession (@SecretKey toy_pairing) * Event := Eval vm_compute in
  match new_target toy_env tgt_key (snd toy_source) with
  | Ok te => te
  | Err _ => (fst toy_source, toy_event (Err SasMismatch, fst toy_source))
  end.
Definition toy_s1 := Eval vm_compute in handle_offer toy_env (snd toy_target) (fst toy_source).
Definition toy_s2 := Eval vm_compute in confirm_sas toy_env (snd toy_s1).
Definition toy_t1 := Eval vm_compute in handle_sas_confirm toy_env (toy_event toy_s2) (fst toy_target).
Definition toy_t2 := Eval vm_compute in confirm_target_sas toy_env (snd toy_t1).
Definition toy_s3 := Eval vm_compute in send_payload toy_env Nsec "nsec1" (snd toy_s2).
Definition toy_t3 := Eval vm_compute in handle_payload toy_env (toy_event toy_s3) (snd toy_t2).
Definition toy_t4 := Eval vm_compute in send_complete toy_env (snd toy_t3).
Definition toy_s4 := Eval vm_compute in handle_complete toy_env (toy_event toy_t4) (snd toy_s3).

Lemma honest_pairing_witness :
  fst toy_t3 = Ok (Nsec, "nsec1"%string) /\ state (snd toy_s4) = Completed /\ state (snd toy_t4) = Completed.
Proof.
  destruct (honest_pairing toy_env toy_env src_key "secret" "wss://r" tgt_key
    (fst toy_target) (snd toy_target) (fun _ => toy_env) (fun _ => toy_env) Nsec "nsec1"
    (fst toy_s1) (snd toy_s1) (toy_event toy_s2) (snd toy_s2) (fst toy_t1) (snd toy_t1)
    (fst toy_t2) (snd toy_t2) (toy_event toy_s3) (snd toy_s3) (fst toy_t3) (snd toy_t3)
    (toy_event toy_t4) (snd toy_t4) (fst toy_s4) (snd toy_s4))
    as (_ & _ & _ & H1 & _ & H2 & H3).
  - vm_compute. reflexivity.
  - intros _. vm_compute. reflexivity.
  - intros _. vm_compute. reflexivity.
  - vm_compute. reflexivity.
  - vm_compute. reflexivity.
  - vm_compute. reflexivity.
  - vm_compute. reflexivity.
  - vm_compute. reflexivity.
  - vm_compute. discriminate.
  - vm_compute. reflexivity.
  - vm_compute. reflexivity.
  - vm_compute. discriminate.
  - vm_compute. reflexivity.
  - exact (conj H1 (conj H2 H3)).
Defined.

Lemma session_follows_diagram_witness :
  let '(ok, s') := run_call toy_env (CallHandleOffer (snd toy_target)) (fst toy_source) in
  diagram (role (fst toy_source)) (CallHandleOffer (snd toy_target)) ok (state (fst toy_source)) (state s')
  /\ frame (fst toy_source) s' /\ session_wf s'.
Proof. apply session_follows_diagram. intros H. discriminate H. Defined.

Lemma terminal_is_final_witness :
  run_call toy_env CallConfirmSas (snd toy_s4) = (false, snd toy_s4).
Proof. apply terminal_is_final. vm_compute. reflexivity. Defined.

Definition toy_history : History :=
  [(toy_env, CallHandleSasConfirm (toy_event toy_s2)); (toy_env, CallConfirmTargetSas)].

Lemma payload_needs_confirmation_witness : exists h1 env1 e1 h2 env2 h3,
  toy_history = h1 ++ (env1, CallHandleSasConfirm e1) :: h2 ++ (env2, CallConfirmTargetSas) :: h3
  /\ ev_pubkey e1 = "src"%string.
Proof.
  destruct (payload_needs_confirmation toy_env tgt_key (snd toy_source) (fst toy_target)
    (snd toy_target) toy_history toy_env (toy_event toy_s3) (Nsec, "nsec1"%string)
    (snd (handle_payload toy_env (toy_event toy_s3) (after toy_history (fst toy_target)))))
    as (h1 & env1 & e1 & h2 & env2 & h3 & Hh & He & _); [vm_compute; reflexivity..|].
  exists h1, env1, e1, h2, env2, h3. exact (conj Hh He).
Defined.

Definition toy_source_history : History :=
  [(toy_env, CallHandleOffer (snd toy_target)); (toy_env, CallConfirmSas)].

Lemma secret_needs_confirmation_witness : exists h1 env1 e1 h2 env2 h3,
  toy_source_history = h1 ++ (env1, CallHandleOffer e1) :: h2 ++ (env2, CallConfirmSas) :: h3
  /\ peer_pubkey (after toy_source_history (fst toy_source)) = Some (ev_pubkey e1).
Proof.
  destruct (secret_needs_confirmation toy_env src_key "secret" "wss://r" toy_source_history
    toy_env Nsec "nsec1" (toy_event (send_payload toy_env Nsec "nsec1" (after toy_source_history (fst toy_source))))
    (snd (send_payload toy_env Nsec "nsec1" (after toy_source_history (fst toy_source)))))
    as (h1 & env1 & e1 & h2 & env2 & h3 & h & rb & Hh & _ & _ & _ & _ & Hp & _); [vm_compute; reflexivity|].
  exists h1, env1, e1, h2, env2, h3. exact (conj Hh Hp).
Defined.

Lemma events_processed_once_witness :
  ev_id (snd toy_target) ∉ processed_ids (fst toy_source)
  /\ ev_id (snd toy_target) ∈ processed_ids (snd toy_s1).
Proof.
  destruct (events_processed_once toy_env (CallHandleOffer (snd toy_target)) (fst toy_source)
    (snd toy_s1) (snd toy_target)) as (_ & _ & H1 & H2); [reflexivity | vm_compute; reflexivity |].
  exact (conj H1 H2).
Defined.
