(* ===== verification/Queue.v ===== *)
(** * The agent harness's event queue

    [crates/buzz-acp/src/queue.rs], [EventQueue]: the per-channel queues that
    feed the agents, with in-flight tracking, retry backoff, cancelled batches
    and events withheld for a steer. A method is a function from a queue to a
    queue and its result; [Instant::now] is an argument. A [HashMap] is a
    [gmap], and the order in which one is iterated, which Rust leaves open, is
    an instance of [HashOrder] that every method may be given anew. *)

From Stdlib Require Import ZArith Lia Ascii.
From stdpp Require Import base list gmap strings numbers sorting.
From S2P Require Import Prelude MachineInt RustStr Event.
Local Open Scope Z_scope.

(** A channel id ([Uuid]) and an instant in nanoseconds. *)
Definition Uuid : Type := Z.
Definition Instant : Type := Z.
Definition secs (s : Z) : Z := s * 1000000000.

Definition MAX_PENDING_PER_CHANNEL : nat := 500.
Definition MAX_BATCH_EVENTS : nat := 50.
Arguments MAX_PENDING_PER_CHANNEL : simpl never.
Arguments MAX_BATCH_EVENTS : simpl never.
Definition MAX_RETRIES : Z := 10.
Definition BASE_RETRY_DELAY_SECS : Z := 5.
Definition MAX_RETRY_DELAY_SECS : Z := 300.
Definition IN_FLIGHT_DEADLINE_BUFFER_SECS : Z := 100.
Definition DEFAULT_IN_FLIGHT_DEADLINE_SECS : Z := 7300.

Inductive DedupMode := DedupDrop | DedupQueue.
#[export] Instance DedupMode_eq_dec : EqDecision DedupMode.
Proof. solve_decision. Defined.

Record BatchEvent := { event : Event; prompt_tag : string; received_at : Instant }.
(** A [QueuedEvent] has the fields of a [BatchEvent] and its channel. *)
Record QueuedEvent := { channel_id : Uuid; queued : BatchEvent }.

Inductive CancelReason := Interrupt | Steer.
#[export] Instance CancelReason_eq_dec : EqDecision CancelReason.
Proof. solve_decision. Defined.

Record FlushBatch := {
  batch_channel : Uuid;
  events : list BatchEvent;
  cancelled_events : list BatchEvent;
  cancel_reason : option CancelReason;
}.

Record EventQueue := {
  queues : gmap Uuid (list QueuedEvent);
  in_flight_channels : gset Uuid;
  in_flight_deadlines : gmap Uuid Instant;
  in_flight_batch_sizes : gmap Uuid nat;
  retry_after : gmap Uuid Instant;
  retry_counts : gmap Uuid Z;
  dedup_mode : DedupMode;
  cancelled_batches : gmap Uuid (list BatchEvent);
  cancel_reasons : gmap Uuid CancelReason;
  withheld_native_steer : gmap Uuid (list QueuedEvent);
  in_flight_deadline : Z;
}.

(** ** Field updates *)

Definition set_queues f q := {|
  queues := f (queues q); in_flight_channels := in_flight_channels q;
  in_flight_deadlines := in_flight_deadlines q; in_flight_batch_sizes := in_flight_batch_sizes q;
  retry_after := retry_after q; retry_counts := retry_counts q; dedup_mode := dedup_mode q;
  cancelled_batches := cancelled_batches q; cancel_reasons := cancel_reasons q;
  withheld_native_steer := withheld_native_steer q; in_flight_deadline := in_flight_deadline q |}.
Definition set_flight fc fd fs q := {|
  queues := queues q; in_flight_channels := fc (in_flight_channels q);
  in_flight_deadlines := fd (in_flight_deadlines q);
  in_flight_batch_sizes := fs (in_flight_batch_sizes q);
  retry_after := retry_after q; retry_counts := retry_counts q; dedup_mode := dedup_mode q;
  cancelled_batches := cancelled_batches q; cancel_reasons := cancel_reasons q;
  withheld_native_steer := withheld_native_steer q; in_flight_deadline := in_flight_deadline q |}.
Definition set_retry fa fc q := {|
  queues := queues q; in_flight_channels := in_flight_channels q;
  in_flight_deadlines := in_flight_deadlines q; in_flight_batch_sizes := in_flight_batch_sizes q;
  retry_after := fa (retry_after q); retry_counts := fc (retry_counts q); dedup_mode := dedup_mode q;
  cancelled_batches := cancelled_batches q; cancel_reasons := cancel_reasons q;
  withheld_native_steer := withheld_native_steer q; in_flight_deadline := in_flight_deadline q |}.
Definition set_cancelled fb fr q := {|
  queues := queues q; in_flight_channels := in_flight_channels q;
  in_flight_deadlines := in_flight_deadlines q; in_flight_batch_sizes := in_flight_batch_sizes q;
  retry_after := retry_after q; retry_counts := retry_counts q; dedup_mode := dedup_mode q;
  cancelled_batches := fb (cancelled_batches q); cancel_reasons := fr (cancel_reasons q);
  withheld_native_steer := withheld_native_steer q; in_flight_deadline := in_flight_deadline q |}.
Definition set_withheld f q := {|
  queues := queues q; in_flight_channels := in_flight_channels q;
  in_flight_deadlines := in_flight_deadlines q; in_flight_batch_sizes := in_flight_batch_sizes q;
  retry_after := retry_after q; retry_counts := retry_counts q; dedup_mode := dedup_mode q;
  cancelled_batches := cancelled_batches q; cancel_reasons := cancel_reasons q;
  withheld_native_steer := f (withheld_native_steer q); in_flight_deadline := in_flight_deadline q |}.
Definition set_deadline d q := {|
  queues := queues q; in_flight_channels := in_flight_channels q;
  in_flight_deadlines := in_flight_deadlines q; in_flight_batch_sizes := in_flight_batch_sizes q;
  retry_after := retry_after q; retry_counts := retry_counts q; dedup_mode := dedup_mode q;
  cancelled_batches := cancelled_batches q; cancel_reasons := cancel_reasons q;
  withheld_native_steer := withheld_native_steer q; in_flight_deadline := d |}.

(** ** Iteration order *)

(** The order in which a [HashMap] yields its entries: some permutation. *)
Class HashOrder := {
  hash_iter {A : Type} (m : gmap Uuid A) : list (Uuid * A);
  hash_iter_perm {A : Type} (m : gmap Uuid A) : hash_iter m ≡ₚ map_to_list m;
}.

(** ** Construction *)

(** [EventQueue::new]. *)
Definition new (mode : DedupMode) : EventQueue := {|
  queues := ∅; in_flight_channels := ∅; in_flight_deadlines := ∅; in_flight_batch_sizes := ∅;
  retry_after := ∅; retry_counts := ∅; dedup_mode := mode; cancelled_batches := ∅;
  cancel_reasons := ∅; withheld_native_steer := ∅;
  in_flight_deadline := secs DEFAULT_IN_FLIGHT_DEADLINE_SECS |}.

(** [with_in_flight_deadline]. *)
Definition with_in_flight_deadline (max_turn_duration_secs : Z) (q : EventQueue) : EventQueue :=
  set_deadline (secs (max_turn_duration_secs + IN_FLIGHT_DEADLINE_BUFFER_SECS)) q.

(** [extend_in_flight_deadline]. *)
Definition extend_in_flight_deadline (now : Instant) (channel : Uuid) (max_turn_secs : Z)
    (q : EventQueue) : EventQueue :=
  match in_flight_deadlines q !! channel with
  | Some current =>
      let extended := now + secs (max_turn_secs + IN_FLIGHT_DEADLINE_BUFFER_SECS) in
      if current <? extended then set_flight id (insert channel extended) id q else q
  | None => q
  end.

(** ** Queue primitives *)

(** [while queue.len() > MAX { queue.pop_back(); }]. *)
Definition enforce_cap {A} (l : list A) : list A :=
  Nat.iter (length l - MAX_PENDING_PER_CHANNEL) (@removelast A) l.

(** [for x in front.into_iter().rev() { queue.push_front(x) }]. *)
Definition push_front_all {A} (front queue : list A) : list A :=
  foldl (fun l x => x :: l) queue (rev front).

(** [entry(channel).or_default()]. *)
Definition queue_of (channel : Uuid) (q : EventQueue) : list QueuedEvent :=
  default [] (queues q !! channel).

Definition is_scoped (be : BatchEvent) : bool := has_agent_reply (event be).
Definition has_id (id : string) (qe : QueuedEvent) : bool := String.eqb (ev_id (event (queued qe))) id.

(** The push of [requeue], [requeue_preserve_timestamps] and the two recoveries:
    to the front, then the cap from the back. *)
Definition requeue_front (channel : Uuid) (front : list QueuedEvent) (q : EventQueue) : EventQueue :=
  set_queues (insert channel (enforce_cap (push_front_all front (queue_of channel q)))) q.

(** ** push *)

(** [push]: in drop mode an ordinary event for a busy channel is refused; at
    the cap the oldest makes room. *)
Definition push (e : QueuedEvent) (q : EventQueue) : bool * EventQueue :=
  if bool_decide (dedup_mode q = DedupDrop) && bool_decide (channel_id e ∈ in_flight_channels q)
     && negb (is_scoped (queued e))
  then (false, q)
  else
    let queue := queue_of (channel_id e) q in
    let queue := if (MAX_PENDING_PER_CHANNEL <=? length queue)%nat then tail queue else queue in
    (true, set_queues (insert (channel_id e) (queue ++ [e])) q).

(** ** Expiry *)

(** [recover_withheld_for_expired_channel]. *)
Definition recover_withheld_for_expired_channel (channel : Uuid) (q : EventQueue) : EventQueue :=
  match withheld_native_steer q !! channel with
  | None => q
  | Some entries => requeue_front channel entries (set_withheld (delete channel) q)
  end.

Definition expire_one (q : EventQueue) (channel : Uuid) : EventQueue :=
  recover_withheld_for_expired_channel channel
    (set_flight (.∖ {[channel]}) (delete channel) (delete channel) q).

Section Ops.
Context `{HashOrder}.

(** The expiry loop that opens [flush_next] and [has_flushable_work]. *)
Definition expired_channels (now : Instant) (q : EventQueue) : list Uuid :=
  fst <$> List.filter (fun p => snd p <=? now) (hash_iter (in_flight_deadlines q)).
Definition expire (now : Instant) (q : EventQueue) : EventQueue :=
  foldl expire_one q (expired_channels now q).

(** ** flush_next *)

(** [!in_flight_channels.contains(id)] and the throttle test. *)
Definition free (q : EventQueue) (channel : Uuid) : bool :=
  negb (bool_decide (channel ∈ in_flight_channels q)).
Definition unthrottled (now : Instant) (q : EventQueue) (channel : Uuid) : bool :=
  match retry_after q !! channel with Some t => t <=? now | None => true end.

(** The three inserts that put a channel in flight. *)
Definition put_in_flight (now : Instant) (channel : Uuid) (n : nat) (q : EventQueue) : EventQueue :=
  set_flight (.∪ {[channel]}) (insert channel (now + in_flight_deadline q)) (insert channel n) q.

(** The search for a recovered scoped request. *)
Definition find_scoped (now : Instant) (q : EventQueue) : option Uuid :=
  fst <$> List.find (fun p => free q (fst p) && unthrottled now q (fst p) && existsb is_scoped (snd p))
            (hash_iter (cancelled_batches q)).

(** Its dispatch: alone. *)
Definition flush_scoped (now : Instant) (channel : Uuid) (q : EventQueue)
    : option FlushBatch * EventQueue :=
  match cancelled_batches q !! channel with
  | None => (None, q)
  | Some recovered =>
      match position is_scoped recovered with
      | None => (None, q)
      | Some index =>
          let events := option_list (recovered !! index) in
          let recovered := delete index recovered in
          let reason := cancel_reasons q !! channel in
          let q :=
            if bool_decide (recovered = []) then set_cancelled (delete channel) (delete channel) q
            else set_cancelled (insert channel recovered) id q in
          (Some {| batch_channel := channel; events := events; cancelled_events := [];
                   cancel_reason := reason |},
           put_in_flight now channel (length events) q)
      end
  end.

(** [q.front().unwrap().received_at]. *)
Definition head_received (queue : list QueuedEvent) : Instant :=
  match queue with qe :: _ => received_at (queued qe) | [] => 0 end.

Definition queue_ready (now : Instant) (q : EventQueue) (p : Uuid * list QueuedEvent) : bool :=
  negb (bool_decide (snd p = [])) && free q (fst p) && unthrottled now q (fst p).

(** The channel with the oldest head: [min_by_key], which keeps the first of
    equals. *)
Definition oldest_ready (now : Instant) (q : EventQueue) : option Uuid :=
  fst <$> pick_best (fun x c => head_received (snd x) <? head_received (snd c))
            (List.filter (queue_ready now q) (hash_iter (queues q))).

(** The fallback: a channel with a cancelled batch and nothing new. *)
Definition find_cancelled (q : EventQueue) : option Uuid :=
  List.find (free q) (fst <$> hash_iter (cancelled_batches q)).

Definition flush_cancelled (now : Instant) (channel : Uuid) (q : EventQueue) : FlushBatch * EventQueue :=
  let cancelled := default [] (cancelled_batches q !! channel) in
  ({| batch_channel := channel; events := cancelled; cancelled_events := [];
      cancel_reason := cancel_reasons q !! channel |},
   put_in_flight now channel (length cancelled) (set_cancelled (delete channel) (delete channel) q)).

(** How many events the next batch takes. *)
Definition drain_count (queue : list QueuedEvent) : nat :=
  match position (fun qe => is_scoped (queued qe)) queue with
  | Some O => 1
  | Some index => Nat.min MAX_BATCH_EVENTS index
  | None => Nat.min MAX_BATCH_EVENTS (length queue)
  end.

Definition newest_last (a b : BatchEvent) : bool := ev_created_at (event a) <=? ev_created_at (event b).

Definition flush_queue (now : Instant) (channel : Uuid) (q : EventQueue) : FlushBatch * EventQueue :=
  let queue := queue_of channel q in
  let n := drain_count queue in
  let events := sort_by newest_last (queued <$> take n queue) in
  let rest := drop n queue in
  let q := set_queues (if bool_decide (rest = []) then delete channel else insert channel rest) q in
  let q := put_in_flight now channel (length events) q in
  if existsb is_scoped events
  then ({| batch_channel := channel; events := events; cancelled_events := [];
           cancel_reason := None |}, q)
  else
    let cancelled := default [] (cancelled_batches q !! channel) in
    let reason := cancel_reasons q !! channel in
    ({| batch_channel := channel; events := events; cancelled_events := cancelled;
        cancel_reason := if bool_decide (cancelled = []) then None else reason |},
     set_cancelled (delete channel) (delete channel) q).

(** [flush_next]. *)
Definition flush_next (now : Instant) (q : EventQueue) : option FlushBatch * EventQueue :=
  let q := expire now q in
  match find_scoped now q with
  | Some channel => flush_scoped now channel q
  | None =>
      match oldest_ready now q with
      | Some channel => let '(b, q) := flush_queue now channel q in (Some b, q)
      | None =>
          match find_cancelled q with
          | Some channel => let '(b, q) := flush_cancelled now channel q in (Some b, q)
          | None => (None, q)
          end
      end
  end.

(** [has_flushable_work]. *)
Definition has_flushable_work (now : Instant) (q : EventQueue) : bool * EventQueue :=
  let q := expire now q in
  (existsb (queue_ready now q) (hash_iter (queues q))
   || existsb (free q) (fst <$> hash_iter (cancelled_batches q)), q).

(** [has_undispatched_work]. *)
Definition has_undispatched_work (q : EventQueue) : bool :=
  existsb (fun p => negb (bool_decide (snd p = [])) && free q (fst p)) (hash_iter (queues q))
  || existsb (free q) (fst <$> hash_iter (cancelled_batches q))
  || existsb (fun p => negb (bool_decide (snd p = [])) && free q (fst p))
       (hash_iter (withheld_native_steer q)).
End Ops.

(** ** Completion and retries *)

(** [mark_complete]. *)
Definition mark_complete (now : Instant) (channel : Uuid) (q : EventQueue) : EventQueue :=
  let q := set_flight (.∖ {[channel]}) (delete channel) (delete channel) q in
  match retry_after q !! channel with
  | Some deadline =>
      if now <? deadline then q else set_retry (delete channel) (delete channel) q
  | None => set_retry id (delete channel) q
  end.

(** The capped exponential delay of [requeue], in seconds. *)
Definition capped_secs (attempt : Z) : Z :=
  Z.min (Z.min (BASE_RETRY_DELAY_SECS * Z.shiftl 1 (Z.min (attempt - 1) 6)) u64_max)
        MAX_RETRY_DELAY_SECS.

(** The jittered delay in nanoseconds, [capped * (0.8 + nanos / u32::MAX * 0.4)]
    to the nearest nanosecond; the code computes it in [f64], whose rounding
    (below a nanosecond for these delays) is not modelled. *)
Definition retry_delay (attempt nanos : Z) : Z :=
  (secs (capped_secs attempt) * (8 * u32_max + 4 * nanos) * 2 + 10 * u32_max) / (20 * u32_max).

Definition to_queued (channel : Uuid) (be : BatchEvent) : QueuedEvent :=
  {| channel_id := channel; queued := be |}.

(** [requeue]: the dead-lettered batch, or [None] when it was requeued. [nanos]
    is [subsec_nanos] of the wall clock. *)
Definition requeue (now : Instant) (nanos : Z) (b : FlushBatch) (q : EventQueue)
    : option FlushBatch * EventQueue :=
  let channel := batch_channel b in
  let attempt := default 0 (retry_counts q !! channel) + 1 in
  let q := set_retry id (insert channel attempt) q in
  if MAX_RETRIES <? attempt
  then (Some b, set_retry (delete channel) (delete channel) q)
  else
    (None, set_retry (insert channel (now + retry_delay attempt nanos)) id
             (requeue_front channel (to_queued channel <$> events b) q)).

(** [requeue_preserve_timestamps]. *)
Definition requeue_preserve_timestamps (b : FlushBatch) (q : EventQueue) : EventQueue :=
  requeue_front (batch_channel b) (to_queued (batch_channel b) <$> events b) q.

(** [requeue_as_cancelled]. *)
Definition requeue_as_cancelled (b : FlushBatch) (reason : CancelReason) (q : EventQueue) : EventQueue :=
  let entry := default [] (cancelled_batches q !! batch_channel b) in
  set_cancelled (insert (batch_channel b) (entry ++ cancelled_events b ++ events b))
    (insert (batch_channel b) reason) q.

(** ** Removal and steering *)

(** [drain_channel]: the ids of the queued events it drops. *)
Definition drain_channel (channel : Uuid) (q : EventQueue) : list string * EventQueue :=
  ((fun qe => ev_id (event (queued qe))) <$> queue_of channel q,
   set_withheld (delete channel)
     (set_cancelled (delete channel) (delete channel)
        (set_retry (delete channel) (delete channel)
           (set_queues (delete channel) q)))).

(** [mark_native_steer_pending]. *)
Definition mark_native_steer_pending (channel : Uuid) (id : string) (q : EventQueue)
    : bool * EventQueue :=
  match queues q !! channel with
  | None => (false, q)
  | Some queue =>
      match position (has_id id) queue with
      | None => (false, q)
      | Some pos =>
          let rest := delete pos queue in
          let q := set_queues (if bool_decide (rest = []) then delete channel
                               else insert channel rest) q in
          (true, set_withheld
                   (insert channel (default [] (withheld_native_steer q !! channel)
                                    ++ option_list (queue !! pos))) q)
      end
  end.

(** [release_native_steer]. *)
Definition release_native_steer (channel : Uuid) (id : string) (q : EventQueue) : EventQueue :=
  match withheld_native_steer q !! channel with
  | None => q
  | Some entries =>
      match position (has_id id) entries with
      | None => q
      | Some pos =>
          let rest := delete pos entries in
          requeue_front channel (option_list (entries !! pos))
            (set_withheld (if bool_decide (rest = []) then delete channel
                           else insert channel rest) q)
      end
  end.

(** [retain(|qe| id != event_id)] on one table, dropping an emptied entry. *)
Definition remove_from (channel : Uuid) (id : string) (m : gmap Uuid (list QueuedEvent))
    : gmap Uuid (list QueuedEvent) :=
  match m !! channel with
  | None => m
  | Some l =>
      let kept := List.filter (fun qe => negb (has_id id qe)) l in
      (if bool_decide (kept = []) then delete channel else insert channel kept) m
  end.

(** [remove_event]. *)
Definition remove_event (channel : Uuid) (id : string) (q : EventQueue) : EventQueue :=
  set_queues (remove_from channel id) (set_withheld (remove_from channel id) q).

(** [compact_expired_state]. *)
Definition compact_expired_state (now : Instant) (q : EventQueue) : EventQueue :=
  let q := set_retry (filter (fun p : Uuid * Instant => now < snd p)) Datatypes.id q in
  set_retry Datatypes.id
    (filter (fun p : Uuid * Z =>
       is_Some (retry_after q !! fst p) \/ queue_of (fst p) q <> []
       \/ fst p ∈ in_flight_channels q)) q.

(** [pending_channels], [is_channel_in_flight], [has_in_flight]. *)
Definition pending_channels (q : EventQueue) : nat := size (queues q).
Definition is_channel_in_flight (channel : Uuid) (q : EventQueue) : bool :=
  bool_decide (channel ∈ in_flight_channels q).
Definition has_in_flight (q : EventQueue) : bool := negb (bool_decide (in_flight_channels q = ∅)).
