(* ===== verification/QueueFacts.v ===== *)
(** * What the event queue guarantees

    Theorems about [Queue]: where events are, what a dispatch takes, the
    in-flight discipline over every run of the harness, and retries. *)

From Stdlib Require Import ZArith Lia Ascii.
From stdpp Require Import base list gmap strings numbers sorting.
From S2P Require Import Prelude MachineInt RustStr Event Queue.
Local Open Scope Z_scope.

(** ** Definitions the theorems use *)

(** Everything in a table of lists. *)
Definition held {A} (m : gmap Uuid (list A)) : list A := mjoin (snd <$> map_to_list m).

(** Every event the queue holds, in whichever table. *)
Definition contents (q : EventQueue) : list BatchEvent :=
  (queued <$> held (queues q)) ++ held (cancelled_batches q)
  ++ (queued <$> held (withheld_native_steer q)).

Definition batch_contents (b : FlushBatch) : list BatchEvent := events b ++ cancelled_events b.


Definition withheld_of (channel : Uuid) (q : EventQueue) : list QueuedEvent :=
  default [] (withheld_native_steer q !! channel).

(** The same, of one channel and of the others. *)
Definition cancelled_of (channel : Uuid) (q : EventQueue) : list BatchEvent :=
  default [] (cancelled_batches q !! channel).
Definition contents_at (channel : Uuid) (q : EventQueue) : list BatchEvent :=
  (queued <$> queue_of channel q) ++ cancelled_of channel q ++ (queued <$> withheld_of channel q).
Definition contents_off (channel : Uuid) (q : EventQueue) : list BatchEvent :=
  (queued <$> held (delete channel (queues q))) ++ held (delete channel (cancelled_batches q))
  ++ (queued <$> held (delete channel (withheld_native_steer q))).

(** Recovering a channel's withheld events would not overflow its queue. *)
Definition fits (q : EventQueue) : Prop :=
  forall c, (length (queue_of c q) + length (withheld_of c q) <= MAX_PENDING_PER_CHANNEL)%nat.

(** ** The tables *)

Lemma held_insert {A} (m : gmap Uuid (list A)) k l : held (<[k := l]> m) ≡ₚ l ++ held (delete k m).
Proof.
  unfold held. rewrite <- insert_delete_eq. rewrite map_to_list_insert by apply lookup_delete_eq.
  reflexivity.
Qed.

Lemma held_split {A} (m : gmap Uuid (list A)) k : held m ≡ₚ default [] (m !! k) ++ held (delete k m).
Proof.
  destruct (m !! k) as [l|] eqn:Hk; cbn.
  - rewrite <- (insert_id m k l Hk) at 1. apply held_insert.
  - by rewrite delete_id.
Qed.

Lemma held_empty {A} : held (∅ : gmap Uuid (list A)) = [].
Proof. unfold held. by rewrite map_to_list_empty. Qed.

Lemma queued_to_queued c (l : list BatchEvent) : queued <$> (to_queued c <$> l) = l.
Proof. induction l as [|b l IH]; cbn; [done|]. by rewrite IH. Qed.

Lemma removelast_take {A} (l : list A) : removelast l = take (length l - 1) l.
Proof.
  induction l as [|a [|b l] IH]; [done..|]. cbn [removelast length] in *. rewrite IH.
  replace (S (S (length l)) - 1)%nat with (S (S (length l) - 1)) by lia. done.
Qed.

Lemma enforce_cap_take {A} (l : list A) : enforce_cap l = take MAX_PENDING_PER_CHANNEL l.
Proof.
  unfold enforce_cap.
  assert (forall n, Nat.iter n (@removelast A) l = take (length l - n) l) as Hn.
  { induction n as [|n IH]; [cbn; by rewrite Nat.sub_0_r, firstn_all|].
    rewrite Nat.iter_succ, IH, removelast_take, length_take, take_take. f_equal. lia. }
  rewrite Hn. destruct (decide (length l <= MAX_PENDING_PER_CHANNEL)%nat) as [Hle|Hgt].
  - rewrite !take_ge by lia. done.
  - f_equal. lia.
Qed.

Lemma push_front_all_app {A} (front queue : list A) : push_front_all front queue = front ++ queue.
Proof.
  unfold push_front_all. rewrite <- (rev_involutive front) at 2. generalize (rev front) as r.
  intros r. revert queue. induction r as [|x r IH]; intros queue; cbn; [done|].
  rewrite IH. by rewrite <- app_assoc.
Qed.

(** ** Where events are *)

Lemma contents_split c q : contents q ≡ₚ contents_at c q ++ contents_off c q.
Proof.
  unfold contents, contents_at, contents_off.
  rewrite (held_split (queues q) c), (held_split (cancelled_batches q) c),
    (held_split (withheld_native_steer q) c).
  rewrite !fmap_app. unfold queue_of, cancelled_of, withheld_of. solve_Permutation.
Qed.

(** An operation on one channel moves only that channel's events. *)
Lemma contents_local c q q' X Y :
  contents_off c q' = contents_off c q ->
  contents_at c q' ++ X ≡ₚ contents_at c q ++ Y -> contents q' ++ X ≡ₚ contents q ++ Y.
Proof.
  intros Hoff Hat. rewrite !(contents_split c), Hoff.
  transitivity (contents_off c q ++ (contents_at c q' ++ X)); [solve_Permutation|].
  rewrite Hat. solve_Permutation.
Qed.

Lemma contents_local_le c q q' X Y :
  contents_off c q' = contents_off c q ->
  contents_at c q' ++ X ⊆+ contents_at c q ++ Y -> contents q' ++ X ⊆+ contents q ++ Y.
Proof.
  intros Hoff Hat. rewrite !(contents_split c), Hoff.
  transitivity (contents_off c q ++ (contents_at c q' ++ X)); [solve_submseteq|].
  etrans; [apply submseteq_skips_l, Hat|]. solve_submseteq.
Qed.

(** The other channels' events do not change. *)
Ltac solve_off :=
  unfold contents_off; cbn; rewrite ?delete_insert_eq, ?delete_delete_eq; done.

Lemma requeue_front_contents c front q :
  contents (requeue_front c front q)
    ++ (queued <$> drop MAX_PENDING_PER_CHANNEL (front ++ queue_of c q))
  ≡ₚ contents q ++ (queued <$> front).
Proof.
  apply (contents_local c); [solve_off|].
  unfold contents_at, requeue_front, queue_of, cancelled_of, withheld_of. cbn.
  rewrite lookup_insert_eq, enforce_cap_take, push_front_all_app. cbn.
  set (l := front ++ default [] (queues q !! c)).
  transitivity ((queued <$> take MAX_PENDING_PER_CHANNEL l)
    ++ (queued <$> drop MAX_PENDING_PER_CHANNEL l) ++ cancelled_of c q ++ (queued <$> withheld_of c q)).
  { unfold cancelled_of, withheld_of. solve_Permutation. }
  rewrite (app_assoc (queued <$> take _ _)), <- fmap_app, take_drop. subst l. rewrite fmap_app.
  unfold cancelled_of, withheld_of. solve_Permutation.
Qed.

Lemma recover_contents c q :
  exists dropped,
    contents (recover_withheld_for_expired_channel c q) ++ dropped ≡ₚ contents q
    /\ (fits q -> dropped = [] /\ fits (recover_withheld_for_expired_channel c q)).
Proof.
  unfold recover_withheld_for_expired_channel.
  destruct (withheld_native_steer q !! c) as [entries|] eqn:Hw; [|exists []; by rewrite app_nil_r].
  set (q1 := set_withheld (delete c) q).
  exists (queued <$> drop MAX_PENDING_PER_CHANNEL (entries ++ queue_of c q1)). split.
  - rewrite requeue_front_contents, <- (app_nil_r (contents q)).
    apply (contents_local c); [solve_off|].
    unfold contents_at, queue_of, cancelled_of, withheld_of. cbn.
    rewrite lookup_delete_eq, Hw. cbn. solve_Permutation.
  - intros Hf. pose proof (Hf c) as Hc. unfold withheld_of, queue_of in Hc. rewrite Hw in Hc. cbn in Hc.
    split.
    + rewrite drop_ge; [done|]. rewrite length_app. unfold queue_of. cbn. lia.
    + intros c'. unfold requeue_front, queue_of, withheld_of. cbn.
      destruct (decide (c' = c)) as [->|Hne].
      * rewrite lookup_insert_eq, lookup_delete_eq, enforce_cap_take, push_front_all_app.
        cbn. rewrite length_take. lia.
      * rewrite lookup_insert_ne, lookup_delete_ne by done. apply Hf.
Qed.

Lemma expire_one_contents q c :
  exists dropped, contents (expire_one q c) ++ dropped ≡ₚ contents q
    /\ (fits q -> dropped = [] /\ fits (expire_one q c)).
Proof.
  exact (recover_contents c (set_flight (.∖ {[c]}) (delete c) (delete c) q)).
Qed.

Lemma expire_contents `{HashOrder} now q :
  exists dropped, contents (expire now q) ++ dropped ≡ₚ contents q
    /\ (fits q -> dropped = [] /\ fits (expire now q)).
Proof.
  unfold expire. generalize (expired_channels now q) as l. intros l. revert q.
  induction l as [|c l IH]; intros q; cbn; [exists []; by rewrite app_nil_r|].
  destruct (IH (expire_one q c)) as (d & Hd & Hf), (expire_one_contents q c) as (d1 & Hd1 & Hf1).
  exists (d ++ d1). split.
  - rewrite app_assoc, Hd. done.
  - intros Hq. destruct (Hf1 Hq) as [-> Hq1]. destruct (Hf Hq1) as [-> ?]. done.
Qed.

(** ** What a dispatch takes *)

Lemma drain_count_le queue : queue <> [] -> (0 < drain_count queue <= length queue)%nat.
Proof.
  intros Hne. unfold drain_count. assert (MAX_BATCH_EVENTS = 50)%nat as Hm by done.
  destruct queue as [|e queue]; [done|]. cbn [position length].
  destruct (is_scoped (queued e)); [lia|].
  destruct (position _ queue) as [i|] eqn:Hp; cbn [fmap option_fmap option_map]; [|lia].
  apply position_lt in Hp. lia.
Qed.

Lemma flush_queue_contents now c q b q' :
  flush_queue now c q = (b, q') -> contents q' ++ batch_contents b ≡ₚ contents q.
Proof.
  unfold flush_queue.
  set (n := drain_count (queue_of c q)).
  set (evs := sort_by newest_last (queued <$> take n (queue_of c q))).
  set (rest := drop n (queue_of c q)).
  set (q1 := set_queues _ q).
  assert (evs ++ (queued <$> rest) ≡ₚ queued <$> queue_of c q) as Hq.
  { subst evs rest. rewrite sort_by_perm, <- fmap_app, take_drop. done. }
  assert (queue_of c q1 = rest) as Hr.
  { unfold queue_of, q1. cbn. case_bool_decide as E; [by rewrite lookup_delete_eq, E|].
    by rewrite lookup_insert_eq. }
  assert (contents_off c q1 = contents_off c q) as Hoff.
  { unfold contents_off, q1. cbn. case_bool_decide;
      rewrite ?delete_insert_eq, ?delete_delete_eq; done. }
  intros Hf. rewrite <- (app_nil_r (contents q)).
  destruct (existsb is_scoped evs); injection Hf as <- <-; unfold batch_contents; cbn [events cancelled_events].
  - apply (contents_local c); [exact Hoff|]. rewrite !app_nil_r. unfold contents_at.
    change (queue_of c (put_in_flight now c (length evs) q1)) with (queue_of c q1). rewrite Hr, <- Hq.
    unfold cancelled_of, withheld_of, q1. cbn. solve_Permutation.
  - apply (contents_local c).
    { unfold contents_off. cbn. rewrite delete_delete_eq. exact Hoff. }
    rewrite !app_nil_r. unfold contents_at.
    match goal with |- context [queue_of c (set_cancelled ?f ?g ?x)] =>
      change (queue_of c (set_cancelled f g x)) with (queue_of c q1) end.
    rewrite Hr, <- Hq. unfold cancelled_of, withheld_of, q1. cbn. rewrite lookup_delete_eq. cbn.
    solve_Permutation.
Qed.

(** ** Which channel is dispatched *)

Lemma existsb_elem {A} (f : A -> bool) l : existsb f l = true <-> exists x, x ∈ l /\ f x = true.
Proof. rewrite existsb_exists. by setoid_rewrite list_elem_of_In. Qed.

Section Choice.
Context `{HashOrder}.

Lemma hash_iter_elem {A} (m : gmap Uuid A) k v : (k, v) ∈ hash_iter m <-> m !! k = Some v.
Proof. by rewrite hash_iter_perm, elem_of_map_to_list. Qed.

Lemma hash_iter_keys {A} (m : gmap Uuid A) k : k ∈ (hash_iter m).*1 <-> is_Some (m !! k).
Proof.
  rewrite list_elem_of_fmap. split.
  - intros ([k' v] & -> & Hin). exists v. by apply hash_iter_elem.
  - intros [v Hv]. exists (k, v). split; [done|]. by apply hash_iter_elem.
Qed.

Lemma find_spec {A} (f : A -> bool) l :
  match List.find f l with
  | Some x => x ∈ l /\ f x = true
  | None => forall x, x ∈ l -> f x = false
  end.
Proof.
  destruct (List.find f l) as [x|] eqn:E.
  - apply List.find_some in E. by rewrite list_elem_of_In.
  - intros x Hx. apply (List.find_none f l E). by apply list_elem_of_In.
Qed.

Lemma find_scoped_some now q c :
  find_scoped now q = Some c ->
  exists l, cancelled_batches q !! c = Some l /\ free q c = true
            /\ unthrottled now q c = true /\ existsb is_scoped l = true.
Proof.
  unfold find_scoped. match goal with |- context [List.find ?f ?l] => pose proof (find_spec f l) as Hs end.
  destruct (List.find _ _) as [[c' l]|]; [|done]. intros [= ->]. destruct Hs as [Hin Hp].
  exists l. apply hash_iter_elem in Hin. cbn in Hp. rewrite !andb_true_iff in Hp. tauto.
Qed.

Lemma oldest_ready_some now q c :
  oldest_ready now q = Some c ->
  exists queue, queues q !! c = Some queue /\ queue_ready now q (c, queue) = true
    /\ forall c' queue', queues q !! c' = Some queue' -> queue_ready now q (c', queue') = true ->
       head_received queue <= head_received queue'.
Proof.
  unfold oldest_ready.
  destruct (pick_best _ _) as [[c' queue]|] eqn:E; [|done]. intros [= ->].
  pose proof (pick_best_elem _ _ _ E) as Hin. apply elem_of_filterb in Hin as [Hin Hr].
  apply hash_iter_elem in Hin. exists queue. split_and!; [done..|]. intros c' queue' Hc' Hr'.
  apply (pick_best_first _ (fun x c : Uuid * list QueuedEvent => head_received (snd c) <= head_received (snd x)))
    in E as (l1 & l2 & Hl & H1 & H2); [|intros; lia..].
  assert ((c', queue') ∈ l1 ++ (c, queue) :: l2) as Hin'.
  { rewrite <- Hl. apply elem_of_filterb. by rewrite hash_iter_elem. }
  rewrite !Forall_elem in *. rewrite elem_of_app, elem_of_cons in Hin'.
  destruct Hin' as [Hin'|[[= -> ->]|Hin']]; [|done|by apply (H2 _ Hin')].
  specialize (H1 _ Hin'). cbn in H1. lia.
Qed.

Lemma oldest_ready_is_some now q :
  is_some (oldest_ready now q) = existsb (queue_ready now q) (hash_iter (queues q)).
Proof.
  unfold oldest_ready. apply eq_bool_prop_intro. rewrite !Is_true_true, existsb_elem.
  destruct (pick_best _ _) as [p|] eqn:E; cbn.
  - split; [intros _|done]. exists p. apply elem_of_filterb. by apply pick_best_elem in E.
  - split; [done|]. intros (p & Hp). apply elem_of_filterb in Hp.
    apply pick_best_none in E. by rewrite E in Hp; apply not_elem_of_nil in Hp.
Qed.

Lemma find_cancelled_some q c :
  find_cancelled q = Some c -> is_Some (cancelled_batches q !! c) /\ free q c = true.
Proof.
  unfold find_cancelled. match goal with |- context [List.find ?f ?l] => pose proof (find_spec f l) as Hs end.
  destruct (List.find _ _) as [c'|]; [|done]. intros [= ->]. by rewrite hash_iter_keys in Hs.
Qed.

Lemma find_cancelled_is_some q :
  is_some (find_cancelled q) = existsb (free q) (hash_iter (cancelled_batches q)).*1.
Proof.
  unfold find_cancelled. generalize ((hash_iter (cancelled_batches q)).*1) as l.
  induction l as [|c l IH]; cbn; [done|]. by destruct (free q c).
Qed.

(** The dispatch of a scoped request always succeeds: it is the first scoped
    event of the channel's cancelled ones, alone. *)
Lemma flush_scoped_spec now q c :
  find_scoped now q = Some c ->
  exists l i be b q',
    cancelled_batches q !! c = Some l /\ position is_scoped l = Some i /\ l !! i = Some be
    /\ flush_scoped now c q = (Some b, q')
    /\ b = {| batch_channel := c; events := [be]; cancelled_events := [];
              cancel_reason := cancel_reasons q !! c |}
    /\ q' = put_in_flight now c 1
              (if bool_decide (delete i l = [])
               then set_cancelled (delete c) (delete c) q
               else set_cancelled (insert c (delete i l)) id q).
Proof.
  intros (l & Hl & _ & _ & Hs)%find_scoped_some. unfold flush_scoped. rewrite Hl.
  destruct (position is_scoped l) as [i|] eqn:Hp; [|apply position_none in Hp; congruence].
  pose proof Hp as [(be & Hbe & _) _]%position_some. rewrite Hbe. cbn [option_list length].
  exists l, i, be. eauto 10.
Qed.

Lemma flush_scoped_contents now c q b q' :
  find_scoped now q = Some c -> flush_scoped now c q = (Some b, q') ->
  contents q' ++ batch_contents b ≡ₚ contents q.
Proof.
  intros (l & i & be & b1 & q1 & Hl & _ & Hbe & Hf & -> & Hq)%flush_scoped_spec.
  rewrite Hf. intros [= <- <-]. rewrite <- (app_nil_r (contents q)).
  unfold batch_contents. cbn [events cancelled_events].
  pose proof (delete_Permutation l i be Hbe) as Hperm. generalize dependent (delete i l).
  intros rest Hq Hperm. rewrite Hq. apply (contents_local c).
  - case_bool_decide; solve_off.
  - unfold contents_at, queue_of, cancelled_of, withheld_of. rewrite Hl. cbn [default from_option].
    case_bool_decide as E; cbn; rewrite ?lookup_insert_eq, ?lookup_delete_eq; cbn;
      rewrite Hperm, ?E; solve_Permutation.
Qed.

Lemma flush_cancelled_contents now c q b q' :
  flush_cancelled now c q = (b, q') -> contents q' ++ batch_contents b ≡ₚ contents q.
Proof.
  intros [= <- <-]. rewrite <- (app_nil_r (contents q)). unfold batch_contents. cbn [events cancelled_events].
  apply (contents_local c); [solve_off|].
  unfold contents_at, queue_of, cancelled_of, withheld_of. cbn. rewrite lookup_delete_eq. cbn.
  solve_Permutation.
Qed.

(** The ways a dispatch goes, after expiry. *)
Inductive dispatch (now : Instant) (q : EventQueue) : option FlushBatch -> EventQueue -> Prop :=
| DispatchScoped c b q' :
    find_scoped now q = Some c -> flush_scoped now c q = (Some b, q') ->
    dispatch now q (Some b) q'
| DispatchQueue c b q' :
    find_scoped now q = None -> oldest_ready now q = Some c -> flush_queue now c q = (b, q') ->
    dispatch now q (Some b) q'
| DispatchCancelled c b q' :
    find_scoped now q = None -> oldest_ready now q = None -> find_cancelled q = Some c ->
    flush_cancelled now c q = (b, q') -> dispatch now q (Some b) q'
| DispatchNone :
    find_scoped now q = None -> oldest_ready now q = None -> find_cancelled q = None ->
    dispatch now q None q.

Lemma flush_next_dispatch now q : dispatch now (expire now q) (flush_next now q).1 (flush_next now q).2.
Proof.
  unfold flush_next. destruct (find_scoped now (expire now q)) as [c|] eqn:E1.
  - destruct (flush_scoped_spec now _ _ E1) as (l & i & be & b & q' & _ & _ & _ & Hf & _).
    rewrite Hf. by eapply DispatchScoped.
  - destruct (oldest_ready now (expire now q)) as [c|] eqn:E2.
    + destruct (flush_queue now c (expire now q)) as [b q'] eqn:Hf. by eapply DispatchQueue.
    + destruct (find_cancelled (expire now q)) as [c|] eqn:E3; [|by apply DispatchNone].
      destruct (flush_cancelled now c (expire now q)) as [b q'] eqn:Hf. by eapply DispatchCancelled.
Qed.
End Choice.

(** ** Expiry does not depend on the iteration order *)

Lemma EventQueue_eq q1 q2 :
  queues q1 = queues q2 -> in_flight_channels q1 = in_flight_channels q2 ->
  in_flight_deadlines q1 = in_flight_deadlines q2 ->
  in_flight_batch_sizes q1 = in_flight_batch_sizes q2 -> retry_after q1 = retry_after q2 ->
  retry_counts q1 = retry_counts q2 -> dedup_mode q1 = dedup_mode q2 ->
  cancelled_batches q1 = cancelled_batches q2 -> cancel_reasons q1 = cancel_reasons q2 ->
  withheld_native_steer q1 = withheld_native_steer q2 ->
  in_flight_deadline q1 = in_flight_deadline q2 -> q1 = q2.
Proof. destruct q1, q2; cbn. by intros -> -> -> -> -> -> -> -> -> -> ->. Qed.

(** What expiry does to each table of a channel [a] other than [b]. *)
Lemma expire_one_comm q a b : a <> b -> expire_one (expire_one q a) b = expire_one (expire_one q b) a.
Proof.
  intros Hab. unfold expire_one, recover_withheld_for_expired_channel, requeue_front, queue_of. cbn.
  destruct (withheld_native_steer q !! a) as [la|] eqn:Ha, (withheld_native_steer q !! b) as [lb|] eqn:Hb;
    cbn; rewrite ?lookup_delete_ne, ?lookup_insert_ne, ?Ha, ?Hb by done; cbn;
    apply EventQueue_eq; cbn; rewrite ?lookup_insert_ne by done;
    first [done | apply delete_delete | by rewrite insert_insert_ne | set_solver].
Qed.

Lemma expire_list_perm l l' q : l ≡ₚ l' -> foldl expire_one q l = foldl expire_one q l'.
Proof.
  intros Hp. revert q. induction Hp as [|c l l' _ IH|a b l|l1 l2 l3 _ IH1 _ IH2]; intros q; cbn.
  - done.
  - apply IH.
  - destruct (decide (a = b)) as [->|Hne]; [done|]. by rewrite (expire_one_comm q b a).
  - by rewrite IH1.
Qed.

Lemma filterb_perm {A} (f : A -> bool) l l' : l ≡ₚ l' -> List.filter f l ≡ₚ List.filter f l'.
Proof. induction 1; cbn; repeat case_match; eauto using Permutation. Qed.

Lemma expire_order (H1 H2 : HashOrder) now q : @expire H1 now q = @expire H2 now q.
Proof.
  unfold expire. apply expire_list_perm. unfold expired_channels.
  by rewrite (filterb_perm _ _ _ (@hash_iter_perm H1 _ _)), (filterb_perm _ _ _ (@hash_iter_perm H2 _ _)).
Qed.

Lemma existsb_perm {A} (f : A -> bool) l l' : l ≡ₚ l' -> existsb f l = existsb f l'.
Proof.
  intros Hp. apply eq_bool_prop_intro. rewrite !Is_true_true, !existsb_elem. by setoid_rewrite Hp.
Qed.

Lemma hash_iter_order (H1 H2 : HashOrder) {A} (m : gmap Uuid A) :
  @hash_iter H1 A m ≡ₚ @hash_iter H2 A m.
Proof. by rewrite !hash_iter_perm. Qed.

(** ** The theorems on dispatch *)

(** Nothing is lost or invented in a dispatch: what the queue held before
    is what it holds after and the batch, up to the newest queued events that
    the cap drops when withheld events are recovered into a full queue, and
    exactly when none is over-full. *)
Theorem flush_next_conserves `{HashOrder} now q ob q' :
  flush_next now q = (ob, q') ->
  exists dropped,
    contents q' ++ from_option batch_contents [] ob ++ dropped ≡ₚ contents q
    /\ (fits q -> dropped = []).
Proof.
  intros Hf. destruct (expire_contents now q) as (dropped & Hd & Hfit).
  exists dropped. split; [|intros Hq; by apply Hfit].
  pose proof (flush_next_dispatch now q) as Hx. rewrite Hf in Hx. cbn in Hx. rewrite <- Hd.
  enough (contents q' ++ from_option batch_contents [] ob ≡ₚ contents (expire now q)) as <-.
  { by rewrite <- app_assoc. }
  inversion Hx; subst; cbn.
  - by eapply flush_scoped_contents.
  - by eapply flush_queue_contents.
  - by eapply flush_cancelled_contents.
  - by rewrite app_nil_r.
Qed.

(** The harness's poll and its dispatch agree: [has_flushable_work] says
    yes exactly when [flush_next] at the same instant returns a batch, whatever
    orders the two iterate their maps in, and both leave the same expiry. *)
Theorem has_flushable_work_iff (H1 H2 : HashOrder) now q :
  (@has_flushable_work H1 now q).1 = is_some (@flush_next H2 now q).1
  /\ ((@has_flushable_work H1 now q).1 = false ->
      (@has_flushable_work H1 now q).2 = (@flush_next H2 now q).2).
Proof.
  pose proof (@flush_next_dispatch H2 now q) as Hx. unfold has_flushable_work. cbn.
  rewrite (expire_order H1 H2).
  rewrite (existsb_perm _ _ _ (hash_iter_order H1 H2 (queues _))), <- oldest_ready_is_some.
  assert (existsb (free (@expire H2 now q)) (@hash_iter H1 _ (cancelled_batches (@expire H2 now q))).*1
          = is_some (@find_cancelled H2 (@expire H2 now q))) as ->.
  { rewrite find_cancelled_is_some. apply existsb_perm. by rewrite (hash_iter_order H1 H2). }
  inversion Hx as [c b q' Hs|c b q' Hs Ho|c b q' Hs Ho Hc|Hs Ho Hc]; cbn.
  - apply find_scoped_some in Hs as (l & Hl & Hfree & _).
    assert (is_some (@find_cancelled H2 (@expire H2 now q)) = true) as ->; [|by rewrite orb_true_r].
    rewrite find_cancelled_is_some, existsb_elem. exists c. split; [|done].
    apply hash_iter_keys. by exists l.
  - by rewrite Ho.
  - by rewrite Ho, Hc.
  - rewrite Ho, Hc. done.
Qed.

(** ** Well-formed queues *)

(** A table of queued events: no empty entry, every event under its channel. *)
Definition table_ok (cap : option nat) (m : gmap Uuid (list QueuedEvent)) : Prop :=
  map_Forall (fun c l => l <> [] /\ Forall (fun qe => channel_id qe = c) l
                         /\ from_option (fun n => (length l <= n)%nat) True cap) m.

Record wf (q : EventQueue) : Prop := {
  wf_deadlines : dom (in_flight_deadlines q) = in_flight_channels q;
  wf_sizes : dom (in_flight_batch_sizes q) = in_flight_channels q;
  wf_reasons : dom (cancel_reasons q) = dom (cancelled_batches q);
  wf_cancelled : map_Forall (fun _ l => l <> []) (cancelled_batches q);
  wf_queues : table_ok (Some MAX_PENDING_PER_CHANNEL) (queues q);
  wf_withheld : table_ok None (withheld_native_steer q);
  wf_counts : map_Forall (fun _ n => 1 <= n <= MAX_RETRIES) (retry_counts q);
}.

Lemma table_ok_insert cap m c l :
  table_ok cap m -> l <> [] -> Forall (fun qe => channel_id qe = c) l ->
  from_option (fun n => (length l <= n)%nat) True cap -> table_ok cap (<[c := l]> m).
Proof. intros Hm Hne Hc Hn. by apply map_Forall_insert_2. Qed.

Lemma table_ok_delete cap m c : table_ok cap m -> table_ok cap (delete c m).
Proof. apply map_Forall_delete. Qed.

(** An entry shortened to a sublist, or removed when nothing is left. *)
Lemma table_ok_shorten cap m c l l' :
  table_ok cap m -> m !! c = Some l -> l' ⊆+ l ->
  table_ok cap ((if bool_decide (l' = []) then delete c else insert c l') m).
Proof.
  intros Hm Hl Hsub. case_bool_decide as E; [by apply table_ok_delete|].
  destruct (Hm c l Hl) as (_ & Hc & Hn). apply table_ok_insert; [done..| |].
  - rewrite Forall_elem in *. intros x Hx. apply Hc. by eapply elem_of_submseteq.
  - apply submseteq_length in Hsub. destruct cap; cbn in *; [lia|done].
Qed.

Lemma queue_of_ok q c :
  wf q -> Forall (fun qe => channel_id qe = c) (queue_of c q)
          /\ (length (queue_of c q) <= MAX_PENDING_PER_CHANNEL)%nat.
Proof.
  intros Hwf. unfold queue_of. destruct (queues q !! c) as [l|] eqn:E; cbn.
  - by destruct (wf_queues _ Hwf c l E) as (_ & ? & ?).
  - split; [constructor|lia].
Qed.

Lemma wf_new mode secs : wf (with_in_flight_deadline secs (new mode)).
Proof. split; cbn; try (by rewrite !dom_empty_L); apply map_Forall_empty. Qed.

Lemma wf_requeue_front c front q :
  wf q -> front <> [] -> Forall (fun qe => channel_id qe = c) front -> wf (requeue_front c front q).
Proof.
  intros Hwf Hne Hc. destruct (queue_of_ok q c Hwf) as [Hqc _].
  destruct Hwf as [? ? ? ? Hq ? ?]. split; try done. cbn.
  rewrite enforce_cap_take, push_front_all_app. apply table_ok_insert; [done|..].
  - by destruct front.
  - apply Forall_take, Forall_app. done.
  - cbn. rewrite length_take. lia.
Qed.

Lemma wf_push e q : wf q -> wf (push e q).2.
Proof.
  intros Hwf. unfold push. case_match; [done|]. cbn.
  destruct (queue_of_ok q (channel_id e) Hwf) as [Hqc Hlen].
  destruct Hwf. split; try done. cbn. apply table_ok_insert; [done|..].
  - by destruct (if _ : bool then _ else _).
  - apply Forall_app. split; [|by constructor]. case_match; [|done].
    destruct (queue_of (channel_id e) q); [constructor|]. by apply Forall_cons_1 in Hqc as [_ ?].
  - cbn. rewrite length_app. cbn [length].
    destruct (Nat.leb_spec MAX_PENDING_PER_CHANNEL (length (queue_of (channel_id e) q))); [|lia].
    destruct (queue_of (channel_id e) q); cbn in *; unfold MAX_PENDING_PER_CHANNEL in *; lia.
Qed.

Lemma wf_expire_one q c : wf q -> wf (expire_one q c).
Proof.
  intros Hwf. set (q1 := set_flight (.∖ {[c]}) (delete c) (delete c) q).
  assert (wf q1) as Hwf1.
  { destruct Hwf. split; try done; cbn; rewrite dom_delete_L; congruence. }
  change (wf (recover_withheld_for_expired_channel c q1)). unfold recover_withheld_for_expired_channel.
  destruct (withheld_native_steer q1 !! c) as [l|] eqn:E; [|done].
  destruct (wf_withheld _ Hwf1 c l E) as (Hne & Hc & _).
  apply wf_requeue_front; [|done..]. destruct Hwf1. split; try done. by apply table_ok_delete.
Qed.

Lemma wf_expire `{HashOrder} now q : wf q -> wf (expire now q).
Proof.
  unfold expire. generalize (expired_channels now q) as l. intros l. revert q.
  induction l as [|c l IH]; intros q Hwf; cbn; [done|]. by apply IH, wf_expire_one.
Qed.

Lemma wf_put_in_flight now c n q : wf q -> wf (put_in_flight now c n q).
Proof. intros []. split; try done; cbn; rewrite dom_insert_L; set_solver. Qed.

Lemma wf_drop_cancelled c q : wf q -> wf (set_cancelled (delete c) (delete c) q).
Proof.
  intros []. split; try done; cbn; [rewrite !dom_delete_L; congruence|by apply map_Forall_delete].
Qed.

Lemma wf_mark_complete now c q : wf q -> wf (mark_complete now c q).
Proof.
  intros Hwf. unfold mark_complete. cbn.
  assert (wf (set_flight (.∖ {[c]}) (delete c) (delete c) q)) as Hwf1.
  { destruct Hwf. split; try done; cbn; rewrite dom_delete_L; congruence. }
  destruct Hwf1. case_match; [case_match|]; split; try done; cbn; by apply map_Forall_delete.
Qed.

Lemma sort_by_length {A} (leb : A -> A -> bool) l : length (sort_by leb l) = length l.
Proof. by rewrite sort_by_perm. Qed.

Lemma wf_flush_queue now c q b q' :
  wf q -> queue_of c q <> [] -> flush_queue now c q = (b, q') ->
  wf q' /\ events b <> [] /\ batch_channel b = c.
Proof.
  intros Hwf Hne. unfold flush_queue. set (n := drain_count (queue_of c q)).
  set (evs := sort_by newest_last (queued <$> take n (queue_of c q))).
  set (q1 := set_queues _ q).
  assert (evs <> []) as Hevs.
  { pose proof (drain_count_le _ Hne) as Hn. intros E. apply (f_equal length) in E. cbn in E.
    subst evs. rewrite sort_by_length, length_fmap, length_take in E. lia. }
  assert (wf q1) as Hwf1.
  { destruct Hwf. split; try done. unfold queue_of in *. cbn.
    destruct (queues q !! c) as [l|] eqn:E; [|done]. cbn.
    eapply table_ok_shorten; [done..|]. apply submseteq_drop. }
  intros Hf. destruct (existsb is_scoped evs); injection Hf as <- <-; split_and!; try done.
  - by apply wf_put_in_flight.
  - by apply wf_drop_cancelled, wf_put_in_flight.
Qed.

Lemma wf_dispatch `{HashOrder} now q ob q' :
  wf q -> dispatch now q ob q' ->
  wf q' /\ from_option (fun b => events b <> []) True ob.
Proof.
  intros Hwf Hx. inversion Hx as [c b ? Hs Hf|c b ? Hs Ho Hf|c b ? Hs Ho Hc Hf|]; subst; cbn.
  - apply flush_scoped_spec in Hs as (l & i & be & b1 & q1 & Hl & Hi & Hbe & Hf' & -> & ->).
    rewrite Hf' in Hf. injection Hf as <- <-. split; [|done]. apply wf_put_in_flight.
    case_bool_decide as E; [by apply wf_drop_cancelled|].
    destruct Hwf. split; try done; cbn.
    + rewrite dom_insert_L, wf_reasons0. enough (c ∈ dom (cancelled_batches q)) by set_solver.
      by apply elem_of_dom_2 in Hl.
    + by apply map_Forall_insert_2.
  - apply oldest_ready_some in Ho as (queue & Hq & Hr & _).
    enough (queue_of c q <> []) as Hne by (eapply wf_flush_queue in Hf; [|done..]; tauto).
    unfold queue_of. rewrite Hq. by destruct (wf_queues _ Hwf c queue Hq).
  - apply find_cancelled_some in Hc as [[l Hl] _]. unfold flush_cancelled in Hf.
    rewrite Hl in Hf. injection Hf as <- <-. split; [|by apply (wf_cancelled _ Hwf c)].
    by apply wf_put_in_flight, wf_drop_cancelled.
  - done.
Qed.

Lemma wf_set_retry_after f q : wf q -> wf (set_retry f id q).
Proof. intros []. by split. Qed.

Lemma wf_requeue now nanos b q : wf q -> events b <> [] -> wf (requeue now nanos b q).2.
Proof.
  intros Hwf Hne. unfold requeue.
  set (attempt := default 0 (retry_counts q !! batch_channel b) + 1).
  assert (1 <= attempt) as Ha.
  { subst attempt. destruct (retry_counts q !! batch_channel b) eqn:E; cbn; [|lia].
    apply (wf_counts _ Hwf) in E. lia. }
  destruct (Z.ltb_spec MAX_RETRIES attempt); cbn [snd].
  - destruct Hwf. split; try done. cbn. rewrite delete_insert_eq. by apply map_Forall_delete.
  - apply wf_set_retry_after, wf_requeue_front.
    + destruct Hwf. split; try done. cbn. by apply map_Forall_insert_2.
    + intros E. by apply fmap_nil_inv in E.
    + apply Forall_fmap, Forall_true. done.
Qed.

Lemma wf_requeue_preserve b q : wf q -> events b <> [] -> wf (requeue_preserve_timestamps b q).
Proof.
  intros Hwf Hne. apply wf_requeue_front; [done| |].
  - intros E. by apply fmap_nil_inv in E.
  - apply Forall_fmap, Forall_true. done.
Qed.

Lemma wf_requeue_as_cancelled b reason q :
  wf q -> events b <> [] -> wf (requeue_as_cancelled b reason q).
Proof.
  intros [] Hne. split; try done; cbn.
  - rewrite !dom_insert_L. congruence.
  - apply map_Forall_insert_2; [|done]. intros E. by apply app_nil in E as [_ [_ ?]%app_nil].
Qed.

Lemma wf_drain c q : wf q -> wf (drain_channel c q).2.
Proof.
  intros []. split; try done; cbn; try (by apply map_Forall_delete); try by apply table_ok_delete.
  rewrite !dom_delete_L. congruence.
Qed.

Lemma wf_mark_steer c id q : wf q -> wf (mark_native_steer_pending c id q).2.
Proof.
  intros Hwf. unfold mark_native_steer_pending. destruct (queues q !! c) as [l|] eqn:E; [|done].
  destruct (position (has_id id) l) as [pos|] eqn:Hp; [|done]. cbn [snd].
  apply position_some in Hp as [(qe & Hqe & _) _]. rewrite Hqe. cbn [option_list].
  destruct (wf_queues _ Hwf c l E) as (_ & Hc & _). rewrite Forall_elem in Hc.
  pose proof (Hc qe (list_elem_of_lookup_2 _ _ _ Hqe)) as Hqc.
  destruct Hwf. split; try done; cbn.
  - eapply table_ok_shorten; [done..|]. apply submseteq_delete.
  - apply table_ok_insert; [done| | |done]; [by destruct (default [] _)|].
    apply Forall_app. split; [|by constructor].
    destruct (withheld_native_steer q !! c) as [w|] eqn:Hw; [|by constructor].
    by destruct (wf_withheld0 c w Hw) as (_ & ? & _).
Qed.

Lemma wf_release_steer c id q : wf q -> wf (release_native_steer c id q).
Proof.
  intros Hwf. unfold release_native_steer. destruct (withheld_native_steer q !! c) as [l|] eqn:E; [|done].
  destruct (position (has_id id) l) as [pos|] eqn:Hp; [|done].
  apply position_some in Hp as [(qe & Hqe & _) _]. rewrite Hqe. cbn [option_list].
  destruct (wf_withheld _ Hwf c l E) as (_ & Hc & _). rewrite Forall_elem in Hc.
  apply wf_requeue_front; [|done|].
  - destruct Hwf. split; try done. cbn. eapply table_ok_shorten; [done..|]. apply submseteq_delete.
  - constructor; [|done]. by eapply Hc, list_elem_of_lookup_2.
Qed.

Lemma filterb_submseteq {A} (f : A -> bool) l : List.filter f l ⊆+ l.
Proof. induction l as [|a l IH]; cbn; [done|]. case_match; [by constructor|by apply submseteq_cons]. Qed.

Lemma wf_remove_from cap c id m : table_ok cap m -> table_ok cap (remove_from c id m).
Proof.
  intros Hm. unfold remove_from. destruct (m !! c) as [l|] eqn:E; [|done].
  eapply table_ok_shorten; [done..|]. apply filterb_submseteq.
Qed.

Lemma wf_remove_event c id q : wf q -> wf (remove_event c id q).
Proof. intros []. split; try done; cbn; by apply wf_remove_from. Qed.

Lemma wf_compact now q : wf q -> wf (compact_expired_state now q).
Proof. intros []. split; try done. cbn. intros c n Hc.
  apply map_lookup_filter_Some in Hc as [Hc _]. by eapply wf_counts0.
Qed.

Lemma wf_extend now c s q : wf q -> wf (extend_in_flight_deadline now c s q).
Proof.
  intros Hwf. unfold extend_in_flight_deadline.
  destruct (in_flight_deadlines q !! c) eqn:E; [|done]. case_match; [|done].
  destruct Hwf. split; try done. cbn. rewrite dom_insert_L, <- wf_deadlines0.
  apply elem_of_dom_2 in E. set_solver.
Qed.

(** ** Runs of the harness

    The harness holds the batches it was handed. A batch ends in one of four
    ways, each followed by [mark_complete]: it is done (or dropped), retried,
    given back because no agent was free, or cancelled for a merged re-prompt. *)

Record World := {
  wq : EventQueue;
  outstanding : list FlushBatch;
  gone : list BatchEvent;
}.

Inductive step (w : World) : list BatchEvent -> World -> Prop :=
| StepPush e ok q' :
    push e (wq w) = (ok, q') ->
    step w (if ok then [queued e] else []) {| wq := q'; outstanding := outstanding w; gone := gone w |}
| StepFlush (order : HashOrder) now ob q' :
    flush_next now (wq w) = (ob, q') ->
    step w [] {| wq := q'; outstanding := option_list ob ++ outstanding w; gone := gone w |}
| StepPoll (order : HashOrder) now :
    step w [] {| wq := (has_flushable_work now (wq w)).2; outstanding := outstanding w; gone := gone w |}
| StepDone now b rest :
    outstanding w ≡ₚ b :: rest ->
    step w [] {| wq := mark_complete now (batch_channel b) (wq w); outstanding := rest;
                 gone := batch_contents b ++ gone w |}
| StepRetry now nanos now' b rest dead q' :
    outstanding w ≡ₚ b :: rest -> requeue now nanos b (wq w) = (dead, q') ->
    step w [] {| wq := mark_complete now' (batch_channel b) q'; outstanding := rest;
                 gone := from_option batch_contents (cancelled_events b) dead ++ gone w |}
| StepGiveBack now b rest :
    outstanding w ≡ₚ b :: rest ->
    step w [] {| wq := mark_complete now (batch_channel b) (requeue_preserve_timestamps b (wq w));
                 outstanding := rest; gone := cancelled_events b ++ gone w |}
| StepCancel now reason b rest :
    outstanding w ≡ₚ b :: rest ->
    step w [] {| wq := mark_complete now (batch_channel b) (requeue_as_cancelled b reason (wq w));
                 outstanding := rest; gone := gone w |}
| StepExtend now c s :
    step w [] {| wq := extend_in_flight_deadline now c s (wq w); outstanding := outstanding w;
                 gone := gone w |}
| StepWithhold c id :
    step w [] {| wq := (mark_native_steer_pending c id (wq w)).2; outstanding := outstanding w;
                 gone := gone w |}
| StepRelease c id :
    step w [] {| wq := release_native_steer c id (wq w); outstanding := outstanding w; gone := gone w |}
| StepRemove c id :
    step w [] {| wq := remove_event c id (wq w); outstanding := outstanding w; gone := gone w |}
| StepDrain c :
    step w [] {| wq := (drain_channel c (wq w)).2; outstanding := outstanding w; gone := gone w |}
| StepCompact now :
    step w [] {| wq := compact_expired_state now (wq w); outstanding := outstanding w; gone := gone w |}.

(** The worlds the harness reaches, with the events it accepted on the way. *)
Inductive run : list BatchEvent -> World -> Prop :=
| RunStart mode secs :
    run [] {| wq := with_in_flight_deadline secs (new mode); outstanding := []; gone := [] |}
| RunStep input w more w' : run input w -> step w more w' -> run (more ++ input) w'.

(** ** Where events go in a run *)

Lemma push_contents e ok q q' :
  push e q = (ok, q') -> contents q' ⊆+ contents q ++ (if ok then [queued e] else []).
Proof.
  unfold push. case_match; intros [= <- <-]; [by rewrite app_nil_r|].
  rewrite <- (app_nil_r (contents _)). apply (contents_local_le (channel_id e)); [solve_off|].
  unfold contents_at, queue_of, cancelled_of, withheld_of. cbn. rewrite lookup_insert_eq. cbn.
  rewrite fmap_app. cbn. set (l := default [] _).
  transitivity ((queued <$> l) ++ queued e :: cancelled_of (channel_id e) q
                ++ (queued <$> withheld_of (channel_id e) q));
    unfold cancelled_of, withheld_of; [|solve_submseteq].
  rewrite app_nil_r, <- app_assoc. apply submseteq_skips_r. apply fmap_submseteq.
  case_match; [|done]. destruct l; [done|]. by apply submseteq_cons.
Qed.

Lemma requeue_front_le c front q :
  contents (requeue_front c front q) ⊆+ contents q ++ (queued <$> front).
Proof. rewrite <- requeue_front_contents. by apply submseteq_inserts_r. Qed.

Lemma requeue_contents now nanos b q dead q' :
  requeue now nanos b q = (dead, q') ->
  contents q' ++ from_option batch_contents (cancelled_events b) dead ⊆+ contents q ++ batch_contents b.
Proof.
  unfold requeue, batch_contents. case_match; intros [= <- <-]; cbn; [done|].
  etrans; [apply submseteq_skips_r|].
  { exact (requeue_front_le (batch_channel b) (to_queued (batch_channel b) <$> events b) q). }
  rewrite queued_to_queued, <- app_assoc. done.
Qed.

Lemma requeue_preserve_contents b q :
  contents (requeue_preserve_timestamps b q) ⊆+ contents q ++ events b.
Proof.
  etrans; [apply requeue_front_le|]. by rewrite queued_to_queued.
Qed.

Lemma requeue_as_cancelled_contents b reason q :
  contents (requeue_as_cancelled b reason q) ≡ₚ contents q ++ batch_contents b.
Proof.
  rewrite <- (app_nil_r (contents (requeue_as_cancelled _ _ _))).
  apply (contents_local (batch_channel b)); [solve_off|].
  unfold contents_at, queue_of, cancelled_of, withheld_of, batch_contents. cbn.
  rewrite lookup_insert_eq. cbn. solve_Permutation.
Qed.

Lemma mark_complete_contents now c q : contents (mark_complete now c q) = contents q.
Proof. unfold mark_complete. repeat case_match; done. Qed.

Lemma queue_split_at (l : list QueuedEvent) i x :
  l !! i = Some x -> (queued <$> l) ≡ₚ queued x :: (queued <$> delete i l).
Proof. intros Hx. by rewrite (delete_Permutation l i x Hx) at 1. Qed.

Lemma mark_steer_contents c id q : contents (mark_native_steer_pending c id q).2 ≡ₚ contents q.
Proof.
  unfold mark_native_steer_pending. destruct (queues q !! c) as [l|] eqn:E; [|done].
  destruct (position (has_id id) l) as [pos|] eqn:Hp; [|done]. cbn [snd].
  apply position_some in Hp as [(qe & Hqe & _) _]. rewrite Hqe. cbn [option_list].
  rewrite <- (app_nil_r (contents _)), <- (app_nil_r (contents q)).
  apply (contents_local c); [case_bool_decide; solve_off|].
  unfold contents_at, queue_of, cancelled_of, withheld_of. cbn.
  rewrite E, lookup_insert_eq. cbn. rewrite (queue_split_at l pos qe Hqe).
  generalize (delete pos l). intros rest. rewrite fmap_app. cbn.
  case_bool_decide as Er; [subst rest; rewrite lookup_delete_eq|rewrite lookup_insert_eq]; cbn;
    solve_Permutation.
Qed.

Lemma release_steer_contents c id q : contents (release_native_steer c id q) ⊆+ contents q.
Proof.
  unfold release_native_steer. destruct (withheld_native_steer q !! c) as [l|] eqn:E; [|done].
  destruct (position (has_id id) l) as [pos|] eqn:Hp; [|done].
  apply position_some in Hp as [(qe & Hqe & _) _]. rewrite Hqe. cbn [option_list].
  etrans; [apply requeue_front_le|]. rewrite <- (app_nil_r (contents q)).
  apply (contents_local_le c); [case_bool_decide; solve_off|].
  unfold contents_at, queue_of, cancelled_of, withheld_of. cbn.
  rewrite E. cbn. rewrite (queue_split_at l pos qe Hqe).
  generalize (delete pos l). intros rest.
  case_bool_decide as Er; [subst rest; rewrite lookup_delete_eq|rewrite lookup_insert_eq]; cbn;
    solve_submseteq.
Qed.

Lemma remove_from_held c id m : held (remove_from c id m) ⊆+ held m.
Proof.
  unfold remove_from. destruct (m !! c) as [l|] eqn:E; [|done].
  rewrite (held_split m c), E. cbn. case_bool_decide; [by apply submseteq_inserts_l|].
  rewrite held_insert. apply submseteq_skips_r, filterb_submseteq.
Qed.

Lemma remove_event_contents c id q : contents (remove_event c id q) ⊆+ contents q.
Proof.
  unfold contents. cbn. repeat apply submseteq_app; [|done|]; apply fmap_submseteq, remove_from_held.
Qed.

Lemma held_delete {A} (m : gmap Uuid (list A)) c : held (delete c m) ⊆+ held m.
Proof. rewrite (held_split m c). by apply submseteq_inserts_l. Qed.

Lemma drain_contents c q : contents (drain_channel c q).2 ⊆+ contents q.
Proof.
  unfold contents. cbn. repeat apply submseteq_app; try apply fmap_submseteq; apply held_delete.
Qed.

Lemma extend_contents now c s q : contents (extend_in_flight_deadline now c s q) = contents q.
Proof. unfold extend_in_flight_deadline. by repeat case_match. Qed.

(** Everything a world accounts for. *)
Definition accounted (w : World) : list BatchEvent :=
  contents (wq w) ++ (outstanding w ≫= batch_contents) ++ gone w.

Lemma outstanding_split w b rest :
  outstanding w ≡ₚ b :: rest ->
  (outstanding w ≫= batch_contents) ≡ₚ batch_contents b ++ (rest ≫= batch_contents).
Proof. intros ->. done. Qed.

Lemma accounted_queue w q' more :
  contents q' ⊆+ contents (wq w) ++ more ->
  accounted {| wq := q'; outstanding := outstanding w; gone := gone w |} ⊆+ more ++ accounted w.
Proof.
  intros Hq. unfold accounted. cbn. etrans; [apply submseteq_skips_r, Hq|]. solve_submseteq.
Qed.

(** A batch the harness gives up: [back] returns to the queue, [lost] is gone. *)
Lemma accounted_batch w b rest q' lost :
  outstanding w ≡ₚ b :: rest ->
  contents q' ++ lost ⊆+ contents (wq w) ++ batch_contents b ->
  accounted {| wq := q'; outstanding := rest; gone := lost ++ gone w |} ⊆+ accounted w.
Proof.
  intros Hb%outstanding_split Hq. unfold accounted. cbn. rewrite Hb.
  transitivity ((contents q' ++ lost) ++ (rest ≫= batch_contents) ++ gone w); [solve_submseteq|].
  etrans; [apply submseteq_skips_r, Hq|]. solve_submseteq.
Qed.

Lemma step_accounted w more w' : step w more w' -> accounted w' ⊆+ more ++ accounted w.
Proof.
  intros Hs. destruct Hs as [e ok q' Hp|order now ob q' Hf|order now|now b rest Hb
    |now nanos now' b rest dead q' Hb Hr|now b rest Hb|now reason b rest Hb| | | | | |].
  - apply accounted_queue. by apply push_contents.
  - apply flush_next_conserves in Hf as (d & Hd & _). unfold accounted. cbn.
    rewrite <- Hd. destruct ob as [b|]; cbn; solve_submseteq.
  - destruct (expire_contents now (wq w)) as (d & Hd & _).
    apply accounted_queue. rewrite app_nil_r, <- Hd. by apply submseteq_inserts_r.
  - eapply accounted_batch; [done|].
    by rewrite mark_complete_contents.
  - eapply accounted_batch; [done|]. rewrite mark_complete_contents. by eapply requeue_contents.
  - eapply accounted_batch; [done|]. rewrite mark_complete_contents. unfold batch_contents.
    etrans; [apply submseteq_skips_r, requeue_preserve_contents|]. by rewrite <- app_assoc.
  - apply (accounted_batch w b rest _ []); [done|].
    by rewrite mark_complete_contents, requeue_as_cancelled_contents, app_nil_r.
  - apply accounted_queue. by rewrite extend_contents, app_nil_r.
  - apply accounted_queue. by rewrite mark_steer_contents, app_nil_r.
  - apply accounted_queue. rewrite app_nil_r. apply release_steer_contents.
  - apply accounted_queue. rewrite app_nil_r. apply remove_event_contents.
  - apply accounted_queue. rewrite app_nil_r. apply drain_contents.
  - by apply accounted_queue; rewrite app_nil_r.
Qed.

Definition ids (l : list BatchEvent) : list string := (fun be => ev_id (event be)) <$> l.

(** C29. No event is delivered twice: over every run of the harness, whatever
    orders it iterates its maps in, if the accepted events are distinct then no
    event is in two places, among the queue's tables, the batches handed out
    and what is finished. An event of one batch is in no other batch, is not
    also waiting, and once finished does not come back. *)
Theorem no_double_delivery input w :
  run input w -> NoDup (ids input) ->
  NoDup (ids (contents (wq w) ++ (outstanding w ≫= batch_contents) ++ gone w)).
Proof.
  intros Hr Hn. enough (accounted w ⊆+ input) as Hsub.
  { apply submseteq_Permutation in Hsub as [k Hk]. unfold ids in *. rewrite Hk, fmap_app in Hn.
    by apply NoDup_app in Hn as [Hn _]. }
  clear Hn. induction Hr as [mode secs|input w more w' Hr IH Hs].
  - unfold accounted, contents. cbn. by rewrite !held_empty.
  - etrans; [by apply step_accounted|]. by apply submseteq_skips_l.
Qed.

Lemma step_wf w more w' :
  step w more w' -> wf (wq w) /\ Forall (fun b => events b <> []) (outstanding w) ->
  wf (wq w') /\ Forall (fun b => events b <> []) (outstanding w').
Proof.
  intros Hs [Hwf Hout].
  assert (forall b rest, outstanding w ≡ₚ b :: rest ->
            events b <> [] /\ Forall (fun b => events b <> []) rest) as Hb.
  { intros b rest Hp. rewrite Hp in Hout. exact (Forall_cons_1 _ _ _ Hout). }
  destruct Hs as [e ok q' Hp|order now ob q' Hf|order now|now b rest Hp
    |now nanos now' b rest dead q' Hp Hr|now b rest Hp|now reason b rest Hp| | | | | |]; cbn;
    try (apply Hb in Hp as [Hne Hrest]; split; [apply wf_mark_complete|done]).
  - split; [|done]. change q' with (ok, q').2. rewrite <- Hp. by apply wf_push.
  - pose proof (flush_next_dispatch now (wq w)) as Hx. rewrite Hf in Hx. cbn in Hx.
    apply wf_dispatch in Hx as [? Hev]; [|by apply wf_expire]. split; [done|].
    destruct ob; [by constructor|done].
  - split; [by apply wf_expire|done].
  - done.
  - change q' with (dead, q').2. rewrite <- Hr. by apply wf_requeue.
  - by apply wf_requeue_preserve.
  - by apply wf_requeue_as_cancelled.
  - split; [by apply wf_extend|done].
  - split; [by apply wf_mark_steer|done].
  - split; [by apply wf_release_steer|done].
  - split; [by apply wf_remove_event|done].
  - split; [by apply wf_drain|done].
  - split; [by apply wf_compact|done].
Qed.

(** The queue's invariant holds in every run: exactly the channels in
    flight have a deadline and a batch size, every queue holds between one and
    500 events of its own channel, cancelled batches have a reason and are not
    empty, retry counters stay between 1 and 10, and no batch is handed out
    empty. *)
Theorem queue_invariant input w :
  run input w -> wf (wq w) /\ Forall (fun b => events b <> []) (outstanding w).
Proof.
  induction 1 as [mode secs|input w more w' Hr IH Hs]; [|by eapply step_wf].
  split; [apply wf_new|constructor].
Qed.

(** ** Exclusion *)

Lemma expired_channels_spec `{HashOrder} now q c :
  c ∈ expired_channels now q <-> exists d, in_flight_deadlines q !! c = Some d /\ d <= now.
Proof.
  unfold expired_channels. rewrite list_elem_of_fmap. split.
  - intros ([c' d] & -> & Hin). apply elem_of_filterb in Hin as [Hin Hd].
    apply hash_iter_elem in Hin. exists d. cbn in Hd. split; [done|lia].
  - intros (d & Hd & Hle). exists (c, d). split; [done|]. apply elem_of_filterb.
    split; [by apply hash_iter_elem|]. cbn. lia.
Qed.

Lemma expire_one_flight q c c' :
  (in_flight_channels (expire_one q c) = in_flight_channels q ∖ {[c]})
  /\ (c' <> c -> in_flight_deadlines (expire_one q c) !! c' = in_flight_deadlines q !! c')
  /\ in_flight_deadline (expire_one q c) = in_flight_deadline q
  /\ retry_after (expire_one q c) = retry_after q
  /\ cancelled_batches (expire_one q c) = cancelled_batches q.
Proof.
  unfold expire_one, recover_withheld_for_expired_channel.
  case_match; cbn; split_and!; try done; intros; by rewrite lookup_delete_ne.
Qed.

(** Expiry releases exactly the channels past their deadline. *)
Lemma expire_flight `{HashOrder} now q c :
  c ∈ in_flight_channels (expire now q) <->
  c ∈ in_flight_channels q /\ forall d, in_flight_deadlines q !! c = Some d -> now < d.
Proof.
  transitivity (c ∈ in_flight_channels q /\ c ∉ expired_channels now q).
  - unfold expire. generalize (expired_channels now q) as l. intros l. revert q.
    induction l as [|x l IH]; intros q; cbn.
    + split; [intros; split; [done|apply not_elem_of_nil]|by intros []].
    + rewrite IH. destruct (expire_one_flight q x c) as (-> & _).
      rewrite not_elem_of_cons. set_solver.
  - split; intros [Hc He]; (split; [done|]).
    + intros d Hd. destruct (Z.lt_ge_cases now d); [done|]. destruct He.
      apply expired_channels_spec. by exists d.
    + intros (d & Hd & Hle)%expired_channels_spec. specialize (He d Hd). lia.
Qed.

Lemma flush_queue_flight now c q b q' :
  flush_queue now c q = (b, q') ->
  batch_channel b = c /\ in_flight_channels q' = in_flight_channels q ∪ {[c]}
  /\ in_flight_deadlines q' = <[c := now + in_flight_deadline q]> (in_flight_deadlines q).
Proof. unfold flush_queue. case_match; by intros [= <- <-]. Qed.

Lemma dispatch_flight `{HashOrder} now q b q' :
  dispatch now q (Some b) q' ->
  free q (batch_channel b) = true
  /\ in_flight_channels q' = in_flight_channels q ∪ {[batch_channel b]}
  /\ in_flight_deadlines q' = <[batch_channel b := now + in_flight_deadline q]> (in_flight_deadlines q).
Proof.
  intros Hx. inversion Hx as [c b' ? Hs Hf|c b' ? Hs Ho Hf|c b' ? Hs Ho Hc Hf|]; subst.
  - pose proof (find_scoped_some _ _ _ Hs) as (_ & _ & Hfree & _).
    apply flush_scoped_spec in Hs as (l & i & be & b1 & q1 & _ & _ & _ & Hf' & -> & ->).
    rewrite Hf' in Hf. injection Hf as <- <-. cbn. by case_bool_decide.
  - apply flush_queue_flight in Hf as (-> & -> & ->).
    apply oldest_ready_some in Ho as (queue & _ & Hr & _).
    unfold queue_ready in Hr. cbn in Hr. rewrite !andb_true_iff in Hr. tauto.
  - apply find_cancelled_some in Hc as [_ Hfree]. by injection Hf as <- <-.
Qed.

(** One batch per channel: a dispatch never picks a channel that is in
    flight and not past its deadline; the channel it picks is in flight
    afterwards, until [mark_complete] or for the configured deadline, and every
    other channel keeps its state. *)
Theorem flush_next_excludes `{HashOrder} now q b q' :
  flush_next now q = (Some b, q') ->
  (forall d, in_flight_deadlines q !! batch_channel b = Some d ->
             batch_channel b ∈ in_flight_channels q -> d <= now)
  /\ batch_channel b ∈ in_flight_channels q'
  /\ in_flight_deadlines q' !! batch_channel b = Some (now + in_flight_deadline q)
  /\ (forall c d, c <> batch_channel b -> in_flight_deadlines q !! c = Some d -> now < d ->
       c ∈ in_flight_channels q -> c ∈ in_flight_channels q').
Proof.
  intros Hf. pose proof (flush_next_dispatch now q) as Hx. rewrite Hf in Hx. cbn in Hx.
  apply dispatch_flight in Hx as (Hfree & Hin & Hdl).
  assert (in_flight_deadline (expire now q) = in_flight_deadline q) as Hd.
  { unfold expire. generalize (expired_channels now q) as l. intros l. clear. revert q.
    induction l as [|c l IH]; intros q; cbn; [done|]. rewrite IH. by apply expire_one_flight. }
  rewrite Hin, Hdl, lookup_insert_eq, Hd. split_and!; [|set_solver|done|].
  - intros d Hdd Hc. apply negb_true_iff, bool_decide_eq_false in Hfree.
    rewrite expire_flight in Hfree. destruct (Z.lt_ge_cases now d); [|lia].
    destruct Hfree. split; [done|]. intros d' Hd'. congruence.
  - intros c d _ Hc Hlt Hin'. apply elem_of_union_l, expire_flight. split; [done|].
    intros d' Hd'. congruence.
Qed.

(** ** What a batch is made of *)

Lemma expire_retry_after `{HashOrder} now q :
  retry_after (expire now q) = retry_after q.
Proof.
  unfold expire. generalize (expired_channels now q) as l. intros l. revert q.
  induction l as [|c l IH]; intros q; cbn; [done|]. rewrite IH. by apply expire_one_flight.
Qed.

(** The head of the queue decides: a scoped head goes alone, and otherwise a
    batch stops before the first scoped event. *)
Lemma drain_count_scoped queue be :
  be ∈ take (drain_count queue) queue -> is_scoped (queued be) = true ->
  take (drain_count queue) queue = [be].
Proof.
  unfold drain_count. destruct (position _ queue) as [[|i]|] eqn:Hp.
  - destruct queue as [|x queue]; [done|]. cbn. rewrite list_elem_of_singleton. by intros ->.
  - apply position_some in Hp as [_ Hf]. rewrite Forall_elem in Hf. intros Hin Hs.
    rewrite Hf in Hs; [done|].
    rewrite Nat.min_comm in Hin. rewrite <- take_take in Hin. rewrite take_take, Nat.min_comm in Hin.
    rewrite <- take_take in Hin. eapply elem_of_submseteq; [exact Hin|apply submseteq_take].
  - apply position_none in Hp. intros Hin Hs.
    assert (existsb (fun qe => is_scoped (queued qe)) queue = true) as Ht; [|congruence].
    apply existsb_elem. exists be. split; [|done].
    eapply elem_of_submseteq; [exact Hin|apply submseteq_take].
Qed.

Lemma drain_count_max queue : (drain_count queue <= MAX_BATCH_EVENTS)%nat.
Proof. unfold drain_count. repeat case_match; unfold MAX_BATCH_EVENTS; lia. Qed.

Lemma flush_queue_events now c q b q' :
  flush_queue now c q = (b, q') ->
  events b = sort_by newest_last (queued <$> take (drain_count (queue_of c q)) (queue_of c q))
  /\ (existsb is_scoped (events b) = true -> cancelled_events b = [])
  /\ (existsb is_scoped (events b) = false -> cancelled_events b = cancelled_of c q).
Proof.
  unfold flush_queue. case_match eqn:E; intros [= <- <-]; cbn [events cancelled_events];
    split_and!; try done; intros; congruence.
Qed.

Lemma newest_last_total a b : newest_last a b = true \/ newest_last b a = true.
Proof. unfold newest_last. lia. Qed.
Lemma newest_last_trans a b c :
  newest_last a b = true -> newest_last b c = true -> newest_last a c = true.
Proof. unfold newest_last. lia. Qed.

(** Fairness and shape of a batch taken from the queues: its channel's
    oldest waiting event is no younger than that of any other channel that is
    free and not throttled; the batch is a prefix of that queue, between one and
    fifty events, handed over with the newest last. *)
Theorem flush_next_fair `{HashOrder} now q b q' :
  flush_next now q = (Some b, q') ->
  find_scoped now (expire now q) = None -> oldest_ready now (expire now q) <> None ->
  let waiting c := queue_of c (expire now q) in
  (forall c, queue_ready now (expire now q) (c, waiting c) = true ->
     head_received (waiting (batch_channel b)) <= head_received (waiting c))
  /\ (exists n, (n <= MAX_BATCH_EVENTS)%nat
        /\ events b ≡ₚ queued <$> take n (waiting (batch_channel b)))
  /\ StronglySorted newest_last (events b).
Proof.
  intros Hf Hs Ho waiting. pose proof (flush_next_dispatch now q) as Hx. rewrite Hf in Hx. cbn in Hx.
  inversion Hx as [c b' ? Hs' _|c b' ? _ Ho' Hfq|c b' ? _ Ho' _ _|]; subst; [congruence| |congruence].
  pose proof (flush_queue_flight _ _ _ _ _ Hfq) as (Hc & _).
  apply flush_queue_events in Hfq as (Hev & _).
  apply oldest_ready_some in Ho' as (queue & Hq & _ & Hmin). rewrite Hc, Hev.
  assert (waiting c = queue) as Hw by (unfold waiting, queue_of; by rewrite Hq).
  split_and!.
  - intros c' Hr. rewrite Hw. unfold waiting, queue_of in *.
    destruct (queues (expire now q) !! c') as [l|] eqn:E; cbn in *; [|done]. by eapply Hmin.
  - exists (drain_count (waiting c)). split; [apply drain_count_max|]. by rewrite sort_by_perm.
  - apply sort_by_sorted; [apply newest_last_total|apply newest_last_trans].
Qed.

(** A request for one teammate's reply stays apart: in a channel that is
    not backing off, a batch that contains one contains nothing else, neither
    new events nor cancelled ones. *)
Theorem scoped_request_alone `{HashOrder} now q b q' be :
  flush_next now q = (Some b, q') -> unthrottled now q (batch_channel b) = true ->
  be ∈ batch_contents b -> is_scoped be = true -> batch_contents b = [be].
Proof.
  intros Hf Hun Hin Hsc. pose proof (flush_next_dispatch now q) as Hx. rewrite Hf in Hx. cbn in Hx.
  assert (forall c, c = batch_channel b -> free (expire now q) c = true ->
            find_scoped now (expire now q) = None -> be ∉ cancelled_of c (expire now q)) as Hno.
  { intros c -> Hfree Hs Hc. unfold find_scoped, cancelled_of in *.
    destruct (cancelled_batches (expire now q) !! batch_channel b) as [l|] eqn:El;
      [|by apply not_elem_of_nil in Hc].
    match type of Hs with context [List.find ?f ?l] => pose proof (find_spec f l) as Hfs end.
    destruct (List.find _ _); [done|]. specialize (Hfs (batch_channel b, l)).
    rewrite hash_iter_elem in Hfs. specialize (Hfs El). cbn in Hfs.
    rewrite Hfree in Hfs. unfold unthrottled in *. rewrite expire_retry_after, Hun in Hfs. cbn in Hfs.
    assert (existsb is_scoped l = true); [|congruence]. apply existsb_elem. by exists be. }
  pose proof (dispatch_flight _ _ _ _ Hx) as (Hfree & _).
  unfold batch_contents in *.
  inversion Hx as [c b' ? Hs Hfs|c b' ? Hs Ho Hfq|c b' ? Hs Ho Hc Hfc|]; subst.
  - apply flush_scoped_spec in Hs as (l & i & be' & b1 & q1 & _ & _ & _ & Hf' & -> & _).
    rewrite Hf' in Hfs. injection Hfs as <- <-. cbn in *. apply list_elem_of_singleton in Hin. by subst.
  - pose proof (flush_queue_flight _ _ _ _ _ Hfq) as (Hc & _).
    apply flush_queue_events in Hfq as (Hev & Hc1 & Hc2).
    assert (be ∈ events b) as Hbe.
    { apply elem_of_app in Hin as [?|Hin]; [done|]. destruct (existsb is_scoped (events b)).
      - rewrite Hc1 in Hin by done. by apply not_elem_of_nil in Hin.
      - rewrite Hc2 in Hin by done. destruct (Hno c); [done|by rewrite <- Hc|done|done]. }
    rewrite Hc1, app_nil_r by (apply existsb_elem; by exists be).
    rewrite Hev in *. rewrite sort_by_perm in Hbe. apply list_elem_of_fmap in Hbe as (qe & -> & Hqe).
    by rewrite (drain_count_scoped _ qe Hqe Hsc).
  - exfalso. assert (batch_channel b = c) as Hbc by by injection Hfc as <- <-.
    injection Hfc as <- <-. cbn in Hin. rewrite app_nil_r in Hin.
    by apply (Hno c).
Qed.

(** ** Retries *)

(** The jittered delay lies between 80% and 89.4% of the capped backoff: the
    jitter divides [subsec_nanos], which stays below a billion, by [u32::MAX],
    and so never lengthens a delay. *)
Lemma retry_delay_bounds attempt nanos :
  1 <= attempt -> 0 <= nanos < 1000000000 ->
  BASE_RETRY_DELAY_SECS <= capped_secs attempt <= MAX_RETRY_DELAY_SECS
  /\ 800000000 * capped_secs attempt <= retry_delay attempt nanos < 894000000 * capped_secs attempt.
Proof.
  intros Ha Hn.
  assert (BASE_RETRY_DELAY_SECS <= capped_secs attempt <= MAX_RETRY_DELAY_SECS) as Hc.
  { unfold capped_secs, BASE_RETRY_DELAY_SECS, MAX_RETRY_DELAY_SECS, u64_max.
    rewrite Z.shiftl_mul_pow2 by lia.
    assert (2 ^ 0 <= 2 ^ Z.min (attempt - 1) 6) by (apply Z.pow_le_mono_r; lia). lia. }
  split; [done|]. unfold BASE_RETRY_DELAY_SECS, MAX_RETRY_DELAY_SECS in Hc.
  unfold retry_delay. generalize dependent (capped_secs attempt). intros s Hs.
  unfold secs, u32_max. split; [apply Z.div_le_lower_bound|apply Z.div_lt_upper_bound]; nia.
Qed.

(** One failure of a channel's batch: [requeue], then [mark_complete]. *)
Definition fail_cycle (b : FlushBatch) (q : EventQueue) (c : Instant * Z * Instant)
    : option FlushBatch * EventQueue :=
  let '(now, nanos, now') := c in
  let '(dead, q) := requeue now nanos b q in (dead, mark_complete now' (batch_channel b) q).

(** A prompt completion: [mark_complete] follows within four seconds. *)
Definition prompt (c : Instant * Z * Instant) : Prop :=
  let '(now, nanos, now') := c in 0 <= nanos < 1000000000 /\ now <= now' < now + secs 4.

Lemma fail_cycle_counts b q c n :
  prompt c -> default 0 (retry_counts q !! batch_channel b) = n -> 0 <= n < MAX_RETRIES ->
  (fail_cycle b q c).1 = None
  /\ retry_counts (fail_cycle b q c).2 !! batch_channel b = Some (n + 1)
  /\ exists t, retry_after (fail_cycle b q c).2 !! batch_channel b = Some t /\ c.1.1 + secs 4 <= t.
Proof.
  destruct c as [[now nanos] now']. intros [Hn Ht] Hc Hm. unfold fail_cycle, requeue. rewrite Hc.
  destruct (Z.ltb_spec MAX_RETRIES (n + 1)); [lia|].
  destruct (retry_delay_bounds (n + 1) nanos ltac:(lia) Hn) as [Hb Hd].
  assert (secs 4 <= retry_delay (n + 1) nanos) as H4.
  { unfold BASE_RETRY_DELAY_SECS, secs in *. lia. }
  unfold mark_complete. cbn. rewrite lookup_insert_eq.
  destruct (Z.ltb_spec now' (now + retry_delay (n + 1) nanos)); [|lia].
  cbn. rewrite !lookup_insert_eq. split_and!; [done..|]. eexists. split; [done|]. lia.
Qed.

(** A series of failures: what each [requeue] returned, and the queue. *)
Definition fail_cycles (b : FlushBatch) (cycles : list (Instant * Z * Instant)) (q : EventQueue)
    : list (option FlushBatch) * EventQueue :=
  foldl (fun r c => (r.1 ++ [(fail_cycle b r.2 c).1], (fail_cycle b r.2 c).2)) ([], q) cycles.

Lemma fail_cycles_counts b cycles q :
  retry_counts q !! batch_channel b = None ->
  Forall prompt cycles -> Z.of_nat (length cycles) <= MAX_RETRIES ->
  (fail_cycles b cycles q).1 = replicate (length cycles) None
  /\ default 0 (retry_counts (fail_cycles b cycles q).2 !! batch_channel b) = Z.of_nat (length cycles).
Proof.
  intros Hq. induction cycles as [|c cs IH] using rev_ind; intros Hcs Hlen; [by cbn; rewrite Hq|].
  apply Forall_app in Hcs as [Hcs Hc%Forall_cons_1]. rewrite length_app in *. cbn [length] in *.
  unfold fail_cycles in *. rewrite foldl_app. cbn.
  destruct IH as [IH1 IH2]; [done|lia|].
  destruct (fail_cycle_counts b _ c _ (proj1 Hc) IH2) as (Hd & Hn & _); [lia|].
  rewrite IH1, Hd, Hn, replicate_add. split; [done|cbn; lia].
Qed.

(** A batch that always fails is retried exactly ten times, each time with
    the channel backing off for at least four seconds, and then dead-lettered:
    the eleventh failure hands the batch back to the caller and clears the
    backoff, so that fresh traffic starts anew. *)
Theorem poison_batch_dead_letters b q cycles now nanos now' :
  retry_counts q !! batch_channel b = None ->
  Forall prompt cycles -> length cycles = Z.to_nat MAX_RETRIES ->
  (fail_cycles b cycles q).1 = replicate (length cycles) None
  /\ (forall n (c : Instant * Z * Instant), cycles !! n = Some c -> exists t,
        retry_after (fail_cycles b (take (S n) cycles) q).2 !! batch_channel b = Some t
        /\ c.1.1 + secs 4 <= t)
  /\ let last := fail_cycle b (fail_cycles b cycles q).2 (now, nanos, now') in
     last.1 = Some b /\ retry_counts last.2 !! batch_channel b = None
     /\ retry_after last.2 !! batch_channel b = None.
Proof.
  intros Hq Hp Hl. destruct (fail_cycles_counts b cycles q Hq Hp) as [Hdeads Hcount]; [by rewrite Hl|].
  split_and!; [done| |].
  { intros n c Hn. pose proof (lookup_lt_Some _ _ _ Hn) as Hlt.
    destruct (fail_cycles_counts b (take n cycles) q Hq) as [_ Hcn];
      [by apply Forall_take|rewrite length_take; unfold MAX_RETRIES in *; lia|].
    rewrite (take_S_r cycles n c Hn). unfold fail_cycles in *. rewrite foldl_app. cbn.
    refine (proj2 (proj2 (fail_cycle_counts b _ c _ _ Hcn _))).
    - by eapply Forall_lookup_1.
    - rewrite length_take. unfold MAX_RETRIES in *. lia. }
  generalize dependent (fail_cycles b cycles q).2. intros q1 Hcount.
  unfold fail_cycle, requeue. rewrite Hcount, Hl.
  change (MAX_RETRIES <? _) with true. cbn iota. unfold mark_complete. cbn [retry_after set_retry set_flight].
  rewrite lookup_delete_eq. cbn. by rewrite !lookup_delete_eq.
Qed.

(** What returns when a batch is given back or retried: its own events, and
    only those. The cancelled events a merged batch carries, the interrupted
    request it was to continue, go back to no table. *)
Theorem requeue_drops_cancelled b q now nanos :
  (length (events b) + length (queue_of (batch_channel b) q) <= MAX_PENDING_PER_CHANNEL)%nat ->
  contents (requeue_preserve_timestamps b q) ≡ₚ contents q ++ events b
  /\ ((requeue now nanos b q).1 = None ->
      contents (requeue now nanos b q).2 ≡ₚ contents q ++ events b).
Proof.
  intros Hlen.
  assert (forall q0, queue_of (batch_channel b) q0 = queue_of (batch_channel b) q ->
    contents (requeue_front (batch_channel b) (to_queued (batch_channel b) <$> events b) q0)
    ≡ₚ contents q0 ++ events b) as Hf.
  { intros q0 Hq0.
    pose proof (requeue_front_contents (batch_channel b) (to_queued (batch_channel b) <$> events b) q0) as Hc.
    rewrite drop_ge, queued_to_queued in Hc; [by rewrite app_nil_r in Hc|].
    rewrite length_app, length_fmap, Hq0. done. }
  split; [by apply Hf|]. unfold requeue. case_match; [done|]. intros _. cbn [snd].
  by rewrite <- (Hf _ eq_refl).
Qed.

(** ** Witnesses *)

(** The keys in the order of [gmap]. *)
Definition key_order : HashOrder :=
  {| hash_iter A m := map_to_list m; hash_iter_perm A m := reflexivity _ |}.

Definition message (id : string) (at_ : Z) (tags : list (list string)) : Event := {|
  ev_id := id; ev_pubkey := "ab"; ev_created_at := at_; ev_kind := 9; ev_tags := tags;
  ev_content := "hello"; ev_sig := "" |}.
Definition arrival (c : Uuid) (id : string) (at_ : Z) (tags : list (list string)) : QueuedEvent :=
  to_queued c {| event := message id at_ tags; prompt_tag := "mention"; received_at := at_ |}.
Definition x1 : QueuedEvent := arrival 1 "x1" 10 [].
Definition y1 : QueuedEvent := arrival 1 "y1" 12 [].
Definition s1 : QueuedEvent := arrival 1 "s1" 13 [["agent-reply"%string]].
Definition z2 : QueuedEvent := arrival 2 "z2" 11 [].

(** [x1] interrupted, [y1] waiting behind it, another channel later. *)
Definition start : EventQueue := with_in_flight_deadline 7200 (new DedupQueue).
Definition one : EventQueue := (push x1 start).2.
Definition flown : option FlushBatch * EventQueue := @flush_next key_order 20 one.
Definition b_x1 : FlushBatch := {|
  batch_channel := 1; events := [queued x1]; cancelled_events := []; cancel_reason := None |}.
Definition interrupted : EventQueue :=
  mark_complete 21 1 (requeue_as_cancelled b_x1 Steer flown.2).
Definition waiting : EventQueue := (push z2 (push y1 interrupted).2).2.
Definition b_merged : FlushBatch := {|
  batch_channel := 2; events := [queued z2]; cancelled_events := []; cancel_reason := None |}.

Lemma flush_next_conserves_witness :
  flown.1 = Some b_x1 /\
  exists dropped, contents flown.2 ++ [queued x1] ++ dropped ≡ₚ contents one.
Proof.
  split; [vm_compute; reflexivity|].
  destruct (@flush_next_conserves key_order 20 one (Some b_x1) flown.2) as (d & Hd & _);
    [vm_compute; reflexivity|]. exists d. exact Hd.
Defined.

Lemma flown_run :
  run ([] ++ [queued x1] ++ []) {| wq := flown.2; outstanding := [b_x1]; gone := [] |}.
Proof.
  refine (RunStep _ _ _ _ (RunStep _ _ _ _ (RunStart DedupQueue 7200) _) _).
  - exact (StepPush {| wq := start; outstanding := []; gone := [] |} x1 true one eq_refl).
  - refine (StepFlush {| wq := one; outstanding := []; gone := [] |} key_order 20 (Some b_x1) flown.2 _).
    vm_compute. reflexivity.
Qed.

Lemma no_double_delivery_witness :
  run ([] ++ [queued x1] ++ []) {| wq := flown.2; outstanding := [b_x1]; gone := [] |}
  /\ NoDup (ids (contents flown.2 ++ ([b_x1] ≫= batch_contents) ++ [])).
Proof.
  split; [exact flown_run|].
  apply (no_double_delivery _ _ flown_run). apply (bool_decide_unpack _). vm_compute. exact I.
Defined.

Lemma queue_invariant_witness : wf flown.2.
Proof. exact (proj1 (queue_invariant _ _ flown_run)). Defined.

Lemma flush_next_excludes_witness :
  in_flight_deadlines flown.2 !! (1 : Uuid) = Some (20 + in_flight_deadline one).
Proof.
  destruct (@flush_next_excludes key_order 20 one b_x1 flown.2) as (_ & _ & Hd & _);
    [vm_compute; reflexivity|]. exact Hd.
Defined.

Lemma flush_next_fair_witness :
  (@flush_next key_order 20 (push y1 (push z2 start).2).2).1 = Some b_merged
  /\ head_received [z2] <= head_received [y1].
Proof.
  set (q := (push y1 (push z2 start).2).2). split; [vm_compute; reflexivity|].
  destruct (@flush_next_fair key_order 20 q b_merged (@flush_next key_order 20 q).2) as (Hf & _).
  - vm_compute. reflexivity.
  - vm_compute. reflexivity.
  - vm_compute. discriminate.
  - refine (Hf (1 : Uuid) _). vm_compute. reflexivity.
Defined.

Definition scoped_queue : EventQueue := (push y1 (push s1 start).2).2.
Definition b_s1 : FlushBatch := {|
  batch_channel := 1; events := [queued s1]; cancelled_events := []; cancel_reason := None |}.

Lemma scoped_request_alone_witness :
  (@flush_next key_order 20 scoped_queue).1 = Some b_s1 /\ batch_contents b_s1 = [queued s1].
Proof.
  split; [vm_compute; reflexivity|].
  apply (@scoped_request_alone key_order 20 scoped_queue b_s1 (@flush_next key_order 20 scoped_queue).2).
  - vm_compute. reflexivity.
  - vm_compute. reflexivity.
  - left.
  - vm_compute. reflexivity.
Defined.

Definition failures : list (Instant * Z * Instant) := replicate 10 (20, 500000000, 21).

Lemma poison_batch_dead_letters_witness :
  (fail_cycle b_x1 (fail_cycles b_x1 failures flown.2).2 (30, 0, 31)).1 = Some b_x1.
Proof.
  refine (proj1 (proj2 (proj2 (poison_batch_dead_letters b_x1 flown.2 failures 30 0 31 _ _ _)))).
  - vm_compute. reflexivity.
  - apply Forall_replicate. vm_compute. intuition congruence.
  - reflexivity.
Defined.

(** The merged batch of an interrupted request and its follow-up, given back
    because no agent is free: the request is lost. *)
Definition merged : option FlushBatch * EventQueue :=
  @flush_next key_order 22 (push y1 interrupted).2.
Definition merged_batch : FlushBatch := {|
  batch_channel := 1; events := [queued y1]; cancelled_events := [queued x1];
  cancel_reason := Some Steer |}.

Lemma requeue_drops_cancelled_witness :
  merged.1 = Some merged_batch
  /\ contents (requeue_preserve_timestamps merged_batch merged.2) ≡ₚ contents merged.2 ++ [queued y1].
Proof.
  split; [vm_compute; reflexivity|].
  refine (proj1 (requeue_drops_cancelled merged_batch merged.2 0 0 _)). apply Nat.leb_le. vm_compute. reflexivity.
Defined.
