(* ===== verification/JobWire.v ===== *)
(** * The wire format of the job queue

    [crates/buzz-core/src/job.rs]: the events a worker and the relay exchange
    about one job. JSON is a library ([JobJson]); a message of the parser is a
    constructor of [JobParseError]. *)

From Stdlib Require Import ZArith Lia Ascii.
From stdpp Require Import base list gmap strings numbers.
From S2P Require Import Prelude MachineInt RustStr Event.
Local Open Scope Z_scope.

Definition JOB_LEASE_SECS : Z := 120.
Definition JOB_HEARTBEAT_SECS : Z := 30.
Definition MAX_JOB_ATTEMPTS : Z := 3.
Definition MAX_JOB_INSTRUCTION : Z := 8000.
Definition MAX_NONCE : Z := 64.
Definition MAX_JOB_DETAIL : Z := 16000.
Definition MAX_JOB_STAMP : Z := 256.
Definition MAX_CHECKPOINT_TEXT : Z := 4000.
Definition MAX_ARTIFACT_TEXT : Z := 4000.

Inductive JobStatus := JobOpen | Leased | Done | Failed | Abandoned.
#[export] Instance JobStatus_eq_dec : EqDecision JobStatus.
Proof. solve_decision. Defined.

(** [JobStatus::as_str], [parse], [is_terminal]. *)
Definition status_as_str (s : JobStatus) : string :=
  match s with
  | JobOpen => "open" | Leased => "leased" | Done => "done" | Failed => "failed"
  | Abandoned => "abandoned"
  end.
Definition status_parse (value : string) : option JobStatus :=
  if String.eqb value "open" then Some JobOpen
  else if String.eqb value "leased" then Some Leased
  else if String.eqb value "done" then Some Done
  else if String.eqb value "failed" then Some Failed
  else if String.eqb value "abandoned" then Some Abandoned
  else None.
Definition status_is_terminal (s : JobStatus) : bool :=
  match s with Done | Failed | Abandoned => true | _ => false end.

Inductive JobParseError :=
| MissingTag (name : string)
| DuplicateTag (name : string)
| InvalidHex (field : string)
| InvalidInstruction
| InvalidNonce
| InvalidDetail
| UnknownStatus (value : string)
| NotAnOutcome (value : string)
| InvalidStamp (field : string)
| InvalidNumber (field : string)
| InvalidHeadContent
| InvalidCheckpoint
| InvalidArtifact
| MissingArtifact.
#[export] Instance JobParseError_eq_dec : EqDecision JobParseError.
Proof. solve_decision. Defined.

Record ParsedJobFiling := {
  filing_employee_hex : string;
  filing_instruction : string;
  filing_channel : option string;
  filing_thread_hex : option string;
  parent_job_hex : option string;
  filing_task_id : option string;
}.

Record TaskCheckpoint := {
  summary : string;
  resume_token : option string;
  progress : option Z;
}.
#[export] Instance TaskCheckpoint_eq_dec : EqDecision TaskCheckpoint.
Proof. solve_decision. Defined.

Inductive TaskArtifactKind := ArtifactEvent | ArtifactUrl | ArtifactPath | ArtifactText.
#[export] Instance TaskArtifactKind_eq_dec : EqDecision TaskArtifactKind.
Proof. solve_decision. Defined.

Record TaskArtifact := {
  artifact_kind : TaskArtifactKind;
  reference : string;
  label : option string;
}.
#[export] Instance TaskArtifact_eq_dec : EqDecision TaskArtifact.
Proof. solve_decision. Defined.

Record ParsedJobCheckpoint := {
  checkpoint_job_hex : string;
  checkpoint_attempt : Z;
  sequence : Z;
  checkpoint_body : TaskCheckpoint;
}.

Record ParsedJobClaim := { claim_job_hex : string; nonce : string }.
Record ParsedJobHeartbeat := { beat_job_hex : string; beat_attempt : Z }.

Record ParsedJobOutcome := {
  outcome_job_hex : string;
  outcome_attempt : Z;
  outcome_status : JobStatus;
  outcome_detail : string;
  outcome_provider : option string;
  outcome_model : option string;
  outcome_artifacts : list TaskArtifact;
}.

Inductive TaskRunStatus :=
| Queued | Executing | Recoverable | Delivered | RunFailed | RunAbandoned.
#[export] Instance TaskRunStatus_eq_dec : EqDecision TaskRunStatus.
Proof. solve_decision. Defined.

Record ParsedJobHead := {
  head_job_hex : string;
  head_employee_hex : string;
  head_originator_hex : string;
  head_filed_by_hex : string;
  head_status : JobStatus;
  head_attempts : Z;
  head_lease_holder_hex : option string;
  head_lease_expires_at : option Z;
  head_instruction : string;
  head_result : option string;
  head_failure : option string;
  head_provider : option string;
  head_model : option string;
  head_task_id : option string;
  run_status : option TaskRunStatus;
  head_checkpoint_sequence : Z;
  head_checkpoint : option TaskCheckpoint;
  head_checkpoint_event_hex : option string;
  head_artifacts : list TaskArtifact;
  head_outcome_event_hex : option string;
}.

(** ** Reading tags and text *)

(** [lookup_error], [tag], [optional]. *)
Definition lookup_error (name : string) (e : TagLookupError) : JobParseError :=
  match e with TagMissing => MissingTag name | TagDuplicate => DuplicateTag name end.
Definition tag (event : Event) (name : string) : Result string JobParseError :=
  map_err (lookup_error name) (single_tag event name).
Definition optional (event : Event) (name : string) : Result (option string) JobParseError :=
  map_err (lookup_error name) (optional_tag event name).

(** [hex64]. *)
Definition hex64 (field value : string) : Result string JobParseError :=
  let normalized := to_ascii_lowercase (trim value) in
  fail_if negb (str_len normalized =? 64) || negb (str_all is_ascii_hexdigit normalized)
    with InvalidHex field;
  Ok normalized.

(** [optional_hex64]. *)
Definition optional_hex64 (event : Event) (name : string) : Result (option string) JobParseError :=
  let? v := optional event name in map_transpose (hex64 name) v.

(** The closure of [optional_stamp]. *)
Definition stamp (name value : string) : Result string JobParseError :=
  let trimmed := trim value in
  fail_if str_is_empty trimmed || (MAX_JOB_STAMP <? chars_count trimmed) with InvalidStamp name;
  Ok trimmed.

(** [optional_stamp]. *)
Definition optional_stamp (event : Event) (name : string) : Result (option string) JobParseError :=
  let? v := optional event name in map_transpose (stamp name) v.

(** [instruction]. *)
Definition instruction_of (content : string) : Result string JobParseError :=
  let trimmed := trim content in
  fail_if str_is_empty trimmed || (MAX_JOB_INSTRUCTION <? chars_count trimmed)
    with InvalidInstruction;
  Ok trimmed.

(** [detail]. *)
Definition detail_of (content : string) : Result string JobParseError :=
  let trimmed := trim content in
  fail_if MAX_JOB_DETAIL <? chars_count trimmed with InvalidDetail;
  Ok trimmed.

(** [bounded_text]. *)
Definition bounded_text (value : string) (cap : Z) : bool :=
  let trimmed := trim value in
  negb (str_is_empty trimmed) && (chars_count trimmed <=? cap).

(** [Option::is_some_and(|text| !bounded_text(text, cap))]. *)
Definition out_of_bounds (cap : Z) (o : option string) : bool :=
  match o with Some text => negb (bounded_text text cap) | None => false end.

(** [validate_task_id]. *)
Definition validate_task_id (value : string) : Result string JobParseError :=
  let trimmed := trim value in
  fail_if str_is_empty trimmed || (128 <? chars_count trimmed) with InvalidCheckpoint;
  Ok trimmed.

(** [validate_checkpoint]. *)
Definition validate_checkpoint (value : TaskCheckpoint) : Result TaskCheckpoint JobParseError :=
  fail_if negb (bounded_text (summary value) MAX_CHECKPOINT_TEXT)
          || out_of_bounds MAX_CHECKPOINT_TEXT (resume_token value)
          || match progress value with Some p => 100 <? p | None => false end
    with InvalidCheckpoint;
  Ok value.

(** [str::parse::<i32>], [str::parse::<i64>] on a tag. *)
Definition number (lo hi : Z) (field value : string) : Result Z JobParseError :=
  ok_or (parse_int lo hi value) (InvalidNumber field).

(** The checks [artifact_tags] makes on a parsed artifact. *)
Definition artifact_ok (artifact : TaskArtifact) : bool :=
  bounded_text (reference artifact) MAX_ARTIFACT_TEXT
  && negb (out_of_bounds MAX_ARTIFACT_TEXT (label artifact))
  && match artifact_kind artifact with
     | ArtifactEvent => is_ok (hex64 "artifact.ref" (reference artifact))
     | _ => true
     end.

(** What is asked of the JSON library: values, and the derived readers. An
    object is a map; [from_value] of the code's two types and of text. *)
Class JobJson := {
  Value : Type;
  from_str : string -> option Value;
  to_string : Value -> string;
  as_object : Value -> option (gmap string Value);
  from_object : gmap string Value -> Value;
  as_str : Value -> option string;
  from_text : string -> Value;
  value_checkpoint : Value -> option TaskCheckpoint;
  value_artifact : Value -> option TaskArtifact;
  value_artifacts : Value -> option (list TaskArtifact);
  checkpoint_value : TaskCheckpoint -> Value;
  artifacts_value : list TaskArtifact -> Value;
  array_len : Value -> option nat;
}.

Section Parsers.
Context `{JobJson}.

(** [serde_json::from_str::<T>]. *)
Definition parse_as {A} (read : Value -> option A) (s : string) : option A :=
  match from_str s with Some v => read v | None => None end.

(** One step of [artifact_tags]. *)
Definition artifact_tag (parts : list string) : Result TaskArtifact JobParseError :=
  match parts with
  | [_; body] =>
      let? artifact := ok_or (parse_as value_artifact body) InvalidArtifact in
      fail_if negb (artifact_ok artifact) with InvalidArtifact;
      Ok artifact
  | _ => Err InvalidArtifact
  end.

(** [artifact_tags]. *)
Definition artifact_tags (event : Event) : Result (list TaskArtifact) JobParseError :=
  try_map artifact_tag (List.filter (named "artifact") (ev_tags event)).

(** [parse_job_filing]. *)
Definition parse_job_filing (event : Event) : Result ParsedJobFiling JobParseError :=
  let? p := tag event "p" in
  let? employee_hex := hex64 "p" p in
  let? instruction := instruction_of (ev_content event) in
  let? channel := optional event "h" in
  let? thread_hex := optional_hex64 event "e" in
  let? parent := optional_hex64 event "job" in
  let? task := optional event "task" in
  let? task_id := map_transpose validate_task_id task in
  Ok {| filing_employee_hex := employee_hex; filing_instruction := instruction;
        filing_channel := channel; filing_thread_hex := thread_hex; parent_job_hex := parent;
        filing_task_id := task_id |}.

(** [parse_job_claim]. *)
Definition parse_job_claim (event : Event) : Result ParsedJobClaim JobParseError :=
  let? raw := tag event "nonce" in
  let nonce := trim raw in
  fail_if str_is_empty nonce || (MAX_NONCE <? chars_count nonce) with InvalidNonce;
  let? job := tag event "job" in
  let? job_hex := hex64 "job" job in
  Ok {| claim_job_hex := job_hex; nonce := nonce |}.

(** [lease_reference]. *)
Definition lease_reference (event : Event) : Result (string * Z) JobParseError :=
  let? raw := tag event "attempt" in
  let? attempt := number i32_min i32_max "attempt" raw in
  let? job := tag event "job" in
  let? job_hex := hex64 "job" job in
  Ok (job_hex, attempt).

(** [parse_job_heartbeat]. *)
Definition parse_job_heartbeat (event : Event) : Result ParsedJobHeartbeat JobParseError :=
  let? (job_hex, attempt) := lease_reference event in
  Ok {| beat_job_hex := job_hex; beat_attempt := attempt |}.

(** [parse_job_checkpoint]. *)
Definition parse_job_checkpoint (event : Event) : Result ParsedJobCheckpoint JobParseError :=
  let? (job_hex, attempt) := lease_reference event in
  let? raw := tag event "sequence" in
  let? seq := number i64_min i64_max "sequence" raw in
  fail_if seq <? 1 with InvalidNumber "sequence";
  let? read := ok_or (parse_as value_checkpoint (ev_content event)) InvalidCheckpoint in
  let? checkpoint := validate_checkpoint read in
  Ok {| checkpoint_job_hex := job_hex; checkpoint_attempt := attempt; sequence := seq;
        checkpoint_body := checkpoint |}.

(** [parse_job_outcome]. *)
Definition parse_job_outcome (event : Event) : Result ParsedJobOutcome JobParseError :=
  let? raw := tag event "status" in
  let? status := ok_or (status_parse raw) (UnknownStatus raw) in
  fail_if negb (bool_decide (status = Done) || bool_decide (status = Failed)) with NotAnOutcome raw;
  let? (job_hex, attempt) := lease_reference event in
  let? artifacts := artifact_tags event in
  let? task := (if bool_decide (status = Done) then optional event "task" else Ok None) in
  fail_if is_some task && bool_decide (artifacts = []) with MissingArtifact;
  let? detail := detail_of (ev_content event) in
  let? provider := optional_stamp event "provider" in
  let? model := optional_stamp event "model" in
  Ok {| outcome_job_hex := job_hex; outcome_attempt := attempt; outcome_status := status;
        outcome_detail := detail; outcome_provider := provider; outcome_model := model;
        outcome_artifacts := artifacts |}.

(** The run status of [parse_job_head]. *)
Definition run_status_of (status : JobStatus) (attempts : Z) : TaskRunStatus :=
  match status with
  | JobOpen => if attempts =? 0 then Queued else Recoverable
  | Leased => Executing
  | Done => Delivered
  | Failed => RunFailed
  | Abandoned => RunAbandoned
  end.

(** The content of a head: a JSON object. *)
Definition head_object (content : string) : Result (gmap string Value) JobParseError :=
  fail_if str_is_empty (trim content) with InvalidHeadContent;
  let? v := ok_or (from_str content) InvalidHeadContent in
  ok_or (as_object v) InvalidHeadContent.

(** Its [text] closure. *)
Definition head_text (object : gmap string Value) (key : string) : option string :=
  match object !! key with Some v => as_str v | None => None end.

(** [parse_job_head]. *)
Definition parse_job_head (event : Event) : Result ParsedJobHead JobParseError :=
  let? raw_status := tag event "status" in
  let? status := ok_or (status_parse raw_status) (UnknownStatus raw_status) in
  let? raw_attempts := tag event "attempts" in
  let? attempts := number i32_min i32_max "attempts" raw_attempts in
  let? raw_expires := optional event "lease-expires" in
  let? lease_expires_at := map_transpose (number i64_min i64_max "lease-expires") raw_expires in
  let? object := head_object (ev_content event) in
  let? raw_task := optional event "task" in
  let? task_id := map_transpose validate_task_id raw_task in
  let? raw_seq := optional event "checkpoint-seq" in
  let? seq := map_transpose (number i64_min i64_max "checkpoint-seq") raw_seq in
  let? read := map_transpose (fun v => ok_or (value_checkpoint v) InvalidHeadContent)
                 (object !! "checkpoint"%string) in
  let? checkpoint := map_transpose validate_checkpoint read in
  let? artifacts := map_transpose (fun v => ok_or (value_artifacts v) InvalidHeadContent)
                      (object !! "artifacts"%string) in
  let run := (fun _ => run_status_of status attempts) <$> task_id in
  let? d := tag event "d" in
  let? job_hex := hex64 "d" d in
  let? employee := tag event "employee" in
  let? employee_hex := hex64 "employee" employee in
  let? originator := tag event "originator" in
  let? originator_hex := hex64 "originator" originator in
  let? filed_by := tag event "filed-by" in
  let? filed_by_hex := hex64 "filed-by" filed_by in
  let? lease_holder_hex := optional_hex64 event "lease-holder" in
  let? instruction := instruction_of (default EmptyString (head_text object "instruction")) in
  let? result := map_transpose detail_of (head_text object "result") in
  let? failure := map_transpose detail_of (head_text object "failure") in
  let? provider := optional_stamp event "provider" in
  let? model := optional_stamp event "model" in
  let? checkpoint_event_hex := optional_hex64 event "checkpoint-event" in
  let? outcome_event_hex := optional_hex64 event "outcome-event" in
  Ok {| head_job_hex := job_hex; head_employee_hex := employee_hex;
        head_originator_hex := originator_hex; head_filed_by_hex := filed_by_hex;
        head_status := status; head_attempts := attempts;
        head_lease_holder_hex := lease_holder_hex; head_lease_expires_at := lease_expires_at;
        head_instruction := instruction; head_result := result; head_failure := failure;
        head_provider := provider; head_model := model; head_task_id := task_id;
        run_status := run; head_checkpoint_sequence := default 0 seq;
        head_checkpoint := checkpoint; head_checkpoint_event_hex := checkpoint_event_hex;
        head_artifacts := default [] artifacts; head_outcome_event_hex := outcome_event_hex |}.

(** [job_head_content]: the object, printed. *)
Definition job_head_content (instruction : string) (result failure : option string) : string :=
  let object : gmap string Value := {["instruction"%string := from_text instruction]} in
  let object := match result with
                | Some r => <["result"%string := from_text r]> object | None => object end in
  let object := match failure with
                | Some f => <["failure"%string := from_text f]> object | None => object end in
  to_string (from_object object).
End Parsers.
