(* ===== verification/JobTable.v ===== *)
(** * The jobs table

    [crates/buzz-db/src/jobs.rs]: the SQL statements that arbitrate the job
    queue, each one conditional update, over the table of
    [migrations/0044_jobs.sql] and [0058_task_run_durability.sql]. Raw 32-byte
    keys are their lower-case hex. A statement that matches no row returns
    [None]; one whose new row breaks a [CHECK] of the table is an error, and so
    is one that would write to a community the fence of
    [migrations/0059_community_deletion.sql] protects. *)

From Stdlib Require Import ZArith Lia Ascii.
From stdpp Require Import base list gmap strings numbers.
From S2P Require Import Prelude MachineInt RustStr Event JobWire.
Local Open Scope Z_scope.

Inductive DbError := CheckViolation | WriteFenced.
#[export] Instance DbError_eq_dec : EqDecision DbError.
Proof. solve_decision. Defined.

(** When a statement runs: the clock it binds, and the communities whose writes
    [assert_community_write_allowed] refuses then, being deleted. *)
Record Instant := at_instant { clock :> Z; write_fenced : string -> bool }.

Section Table.
Context `{JobJson}.

Record JobRow := {
  job_id : string;
  employee : string;
  filed_by : string;
  originator : string;
  channel_id : option string;
  thread : option string;
  task_id : option string;
  instruction : string;
  status : JobStatus;
  lease_holder : option string;
  lease_expires_at : option Z;
  attempts : Z;
  result : option string;
  failure : option string;
  provider : option string;
  model : option string;
  checkpoint_seq : Z;
  checkpoint : option Value;
  checkpoint_event : option string;
  checkpoint_at : option Z;
  artifacts : option Value;
  outcome_event : option string;
  escalated_ask : option string;
  created_at : Z;
  updated_at : Z;
  head_at : Z;
}.

(** Community and job id: the primary key. *)
Definition Key : Type := string * string.

(** What a statement returns: the row it moved and the table, or the error. *)
Definition Update : Type := Result (option JobRow * gmap Key JobRow) DbError.

Record NewJob := {
  new_job_id : string;
  new_employee : string;
  new_filed_by : string;
  new_originator : string;
  new_channel_id : option string;
  new_thread : option string;
  new_task_id : option string;
  new_instruction : string;
}.

Record FinishedJob := {
  fin_attempt : Z;
  fin_holder : string;
  fin_status : JobStatus;
  fin_detail : string;
  fin_provider : option string;
  fin_model : option string;
  fin_artifacts : option Value;
  fin_outcome_event : option string;
}.

Record JobCheckpoint := {
  cp_holder : string;
  cp_attempt : Z;
  cp_sequence : Z;
  cp_checkpoint : Value;
  cp_event : string;
}.

(** ** The constraints of the table *)

Definition bytes32 (s : string) : bool := str_len s =? 64.
Definition none_or {A} (p : A -> bool) (o : option A) : bool :=
  match o with Some a => p a | None => true end.

(** [BTRIM]: spaces only. *)
Definition btrim (s : string) : string :=
  str_rev (strip_all (String.length s) [" "%string]
    (str_rev (strip_all (String.length s) [" "%string] s))).

Definition nonempty_array (v : Value) : bool :=
  match array_len v with Some n => (0 <? n)%nat | None => false end.

(** Status against lease. *)
Definition lease_check (r : JobRow) : bool :=
  match status r with
  | JobOpen => negb (is_some (lease_holder r)) && negb (is_some (lease_expires_at r))
  | Leased => is_some (lease_holder r) && is_some (lease_expires_at r)
  | _ => true
  end.

(** [jobs_checkpoint_complete]. *)
Definition checkpoint_check (r : JobRow) : bool :=
  ((checkpoint_seq r =? 0) && negb (is_some (checkpoint r)) && negb (is_some (checkpoint_event r))
   && negb (is_some (checkpoint_at r)))
  || ((0 <? checkpoint_seq r) && is_some (checkpoint r) && is_some (checkpoint_event r)
      && is_some (checkpoint_at r)).

(** [jobs_task_delivery_has_evidence]. *)
Definition delivery_check (r : JobRow) : bool :=
  negb (is_some (task_id r)) || negb (bool_decide (status r = Done))
  || (is_some (artifacts r) && is_some (outcome_event r)).

(** Every [CHECK] of the two migrations. *)
Definition checks (r : JobRow) : bool :=
  bytes32 (job_id r) && bytes32 (employee r) && bytes32 (filed_by r) && bytes32 (originator r)
  && none_or bytes32 (thread r) && none_or bytes32 (lease_holder r)
  && none_or bytes32 (escalated_ask r) && lease_check r
  && none_or (fun t => (1 <=? chars_count (btrim t)) && (chars_count (btrim t) <=? 128)) (task_id r)
  && (0 <=? checkpoint_seq r)
  && none_or bytes32 (checkpoint_event r) && none_or bytes32 (outcome_event r)
  && checkpoint_check r && none_or nonempty_array (artifacts r) && delivery_check r.

(** [UPDATE jobs SET f WHERE key AND p RETURNING ...]: on a row it matches, the
    trigger [enforce_community_write_fence] comes before the constraints. *)
Definition update_where (at_ : Instant) (p : JobRow -> bool) (f : JobRow -> JobRow) (key : Key)
    (t : gmap Key JobRow) : Update :=
  match t !! key with
  | Some r =>
      if p r then
        if write_fenced at_ (fst key) then Err WriteFenced
        else if checks (f r) then Ok (Some (f r), <[key := f r]> t) else Err CheckViolation
      else Ok (None, t)
  | None => Ok (None, t)
  end.

(** SQL comparisons with a nullable column: [NULL] is not true. *)
Definition sql_lt (o : option Z) (n : Z) : bool := match o with Some m => m <? n | None => false end.
Definition sql_ge (o : option Z) (n : Z) : bool := match o with Some m => n <=? m | None => false end.
Definition sql_eq (o : option string) (s : string) : bool := bool_decide (o = Some s).

(** ** Statements *)

(** [insert_job]: the trigger comes before [ON CONFLICT]. *)
Definition insert_job (now : Instant) (community : string) (job : NewJob) (t : gmap Key JobRow)
    : Update :=
  let key := (community, new_job_id job) in
  if write_fenced now community then Err WriteFenced else
  match t !! key with
  | Some _ => Ok (None, t)
  | None =>
      let r := {|
        job_id := new_job_id job; employee := new_employee job; filed_by := new_filed_by job;
        originator := new_originator job; channel_id := new_channel_id job;
        thread := new_thread job; task_id := new_task_id job; instruction := new_instruction job;
        status := JobOpen; lease_holder := None; lease_expires_at := None; attempts := 0;
        result := None; failure := None; provider := None; model := None; checkpoint_seq := 0;
        checkpoint := None; checkpoint_event := None; checkpoint_at := None; artifacts := None;
        outcome_event := None; escalated_ask := None; created_at := now; updated_at := now;
        head_at := 0 |} in
      if checks r then Ok (Some r, <[key := r]> t) else Err CheckViolation
  end.

(** [find_job]. *)
Definition find_job (key : Key) (t : gmap Key JobRow) : option JobRow := t !! key.

(** The columns a lease statement sets. *)
Definition with_lease (s : JobStatus) (holder : option string) (expires : option Z) (att now : Z)
    (r : JobRow) : JobRow := {|
  job_id := job_id r; employee := employee r; filed_by := filed_by r; originator := originator r;
  channel_id := channel_id r; thread := thread r; task_id := task_id r;
  instruction := instruction r; status := s; lease_holder := holder; lease_expires_at := expires;
  attempts := att; result := result r; failure := failure r; provider := provider r;
  model := model r; checkpoint_seq := checkpoint_seq r; checkpoint := checkpoint r;
  checkpoint_event := checkpoint_event r; checkpoint_at := checkpoint_at r;
  artifacts := artifacts r; outcome_event := outcome_event r; escalated_ask := escalated_ask r;
  created_at := created_at r; updated_at := now; head_at := head_at r |}.

(** [claim_job]. *)
Definition claimable (max_attempts now : Z) (r : JobRow) : bool :=
  (attempts r <? max_attempts)
  && (bool_decide (status r = JobOpen)
      || (bool_decide (status r = Leased) && sql_lt (lease_expires_at r) now)).
Definition claim_job (holder : string) (max_attempts : Z) (now : Instant) (expires : Z)
    : Key -> gmap Key JobRow -> Update :=
  update_where now (claimable max_attempts now)
    (fun r => with_lease Leased (Some holder) (Some expires) (attempts r + 1) now r).

(** The fence [heartbeat_job], [checkpoint_job] and [finish_job] share. *)
Definition holds_lease (holder : string) (attempt : Z) (r : JobRow) : bool :=
  bool_decide (status r = Leased) && sql_eq (lease_holder r) holder && (attempts r =? attempt).

(** [heartbeat_job]. *)
Definition heartbeat_job (holder : string) (attempt : Z) (now : Instant) (expires : Z)
    : Key -> gmap Key JobRow -> Update :=
  update_where now (holds_lease holder attempt)
    (fun r => with_lease (status r) (lease_holder r) (Some expires) (attempts r) now r).

(** [checkpoint_job]. *)
Definition with_checkpoint (c : JobCheckpoint) (now expires : Z) (r : JobRow) : JobRow := {|
  job_id := job_id r; employee := employee r; filed_by := filed_by r; originator := originator r;
  channel_id := channel_id r; thread := thread r; task_id := task_id r;
  instruction := instruction r; status := status r; lease_holder := lease_holder r;
  lease_expires_at := Some expires; attempts := attempts r; result := result r;
  failure := failure r; provider := provider r; model := model r;
  checkpoint_seq := cp_sequence c; checkpoint := Some (cp_checkpoint c);
  checkpoint_event := Some (cp_event c); checkpoint_at := Some now; artifacts := artifacts r;
  outcome_event := outcome_event r; escalated_ask := escalated_ask r; created_at := created_at r;
  updated_at := now; head_at := head_at r |}.
Definition checkpoint_job (c : JobCheckpoint) (now : Instant) (expires : Z)
    : Key -> gmap Key JobRow -> Update :=
  update_where now
    (fun r => holds_lease (cp_holder c) (cp_attempt c) r && sql_ge (lease_expires_at r) now
              && (checkpoint_seq r <? cp_sequence c))
    (with_checkpoint c now expires).

(** [finish_job]. *)
Definition with_outcome (o : FinishedJob) (now : Z) (r : JobRow) : JobRow :=
  let done := bool_decide (fin_status o = Done) in
  let failed := bool_decide (fin_status o = Failed) in {|
  job_id := job_id r; employee := employee r; filed_by := filed_by r; originator := originator r;
  channel_id := channel_id r; thread := thread r; task_id := task_id r;
  instruction := instruction r; status := fin_status o; lease_holder := lease_holder r;
  lease_expires_at := None; attempts := attempts r;
  result := if done then Some (fin_detail o) else result r;
  failure := if failed then Some (fin_detail o) else failure r;
  provider := if done then fin_provider o else provider r;
  model := if done then fin_model o else model r;
  checkpoint_seq := checkpoint_seq r; checkpoint := checkpoint r;
  checkpoint_event := checkpoint_event r; checkpoint_at := checkpoint_at r;
  artifacts := if done then fin_artifacts o else artifacts r;
  outcome_event := fin_outcome_event o; escalated_ask := escalated_ask r;
  created_at := created_at r; updated_at := now; head_at := head_at r |}.
Definition finishable (o : FinishedJob) (now : Z) (r : JobRow) : bool :=
  holds_lease (fin_holder o) (fin_attempt o) r
  && (negb (is_some (task_id r)) || sql_ge (lease_expires_at r) now)
  && (negb (bool_decide (fin_status o = Done)) || negb (is_some (task_id r))
      || (match fin_artifacts o with Some v => nonempty_array v | None => false end
          && is_some (fin_outcome_event o))).
Definition finish_job (o : FinishedJob) (now : Instant) : Key -> gmap Key JobRow -> Update :=
  update_where now (finishable o now) (with_outcome o now).

(** [expire_due_leases] on one row: due, and the cap decides. *)
Definition lease_due (now : Z) (r : JobRow) : bool :=
  bool_decide (status r = Leased) && sql_lt (lease_expires_at r) now.
Definition expire_lease (now : Instant) (max_attempts : Z) : Key -> gmap Key JobRow -> Update :=
  update_where now (lease_due now)
    (fun r => with_lease (if max_attempts <=? attempts r then Abandoned else JobOpen)
                None None (attempts r) now r).

(** The sweep's one statement, over the rows [due] that it locked: some subset
    of the due rows ([ORDER BY], [LIMIT] and [SKIP LOCKED] choose which). One row
    that errs is an error of the statement. *)
Fixpoint expire_due_leases (now : Instant) (max_attempts : Z) (due : list Key) (t : gmap Key JobRow)
    : Result (list (Key * JobRow) * gmap Key JobRow) DbError :=
  match due with
  | [] => Ok ([], t)
  | key :: due =>
      let? (moved, t) := expire_lease now max_attempts key t in
      let? (rows, t) := expire_due_leases now max_attempts due t in
      Ok (match moved with Some r => (key, r) :: rows | None => rows end, t)
  end.

(** [list_jobs_needing_escalation], without its order and limit. *)
Definition needs_escalation (unclaimed_before : Z) (r : JobRow) : bool :=
  negb (is_some (escalated_ask r))
  && (bool_decide (status r = Abandoned)
      || (bool_decide (status r = JobOpen) && (created_at r <? unclaimed_before))).

(** [stamp_head]. *)
Definition with_stamp (now : Z) (r : JobRow) : JobRow := {|
  job_id := job_id r; employee := employee r; filed_by := filed_by r; originator := originator r;
  channel_id := channel_id r; thread := thread r; task_id := task_id r;
  instruction := instruction r; status := status r; lease_holder := lease_holder r;
  lease_expires_at := lease_expires_at r; attempts := attempts r; result := result r;
  failure := failure r; provider := provider r; model := model r;
  checkpoint_seq := checkpoint_seq r; checkpoint := checkpoint r;
  checkpoint_event := checkpoint_event r; checkpoint_at := checkpoint_at r;
  artifacts := artifacts r; outcome_event := outcome_event r; escalated_ask := escalated_ask r;
  created_at := created_at r; updated_at := updated_at r; head_at := Z.max (head_at r + 1) now |}.
Definition stamp_head (now : Instant) : Key -> gmap Key JobRow -> Update :=
  update_where now (fun _ => true) (with_stamp now).

(** [record_escalation], [clear_escalation]. *)
Definition with_ask (ask : option string) (now : Z) (r : JobRow) : JobRow := {|
  job_id := job_id r; employee := employee r; filed_by := filed_by r; originator := originator r;
  channel_id := channel_id r; thread := thread r; task_id := task_id r;
  instruction := instruction r; status := status r; lease_holder := lease_holder r;
  lease_expires_at := lease_expires_at r; attempts := attempts r; result := result r;
  failure := failure r; provider := provider r; model := model r;
  checkpoint_seq := checkpoint_seq r; checkpoint := checkpoint r;
  checkpoint_event := checkpoint_event r; checkpoint_at := checkpoint_at r;
  artifacts := artifacts r; outcome_event := outcome_event r; escalated_ask := ask;
  created_at := created_at r; updated_at := now; head_at := head_at r |}.
Definition record_escalation (ask : string) (now : Instant) : Key -> gmap Key JobRow -> Update :=
  update_where now (fun r => negb (is_some (escalated_ask r))) (with_ask (Some ask) now).
Definition clear_escalation (now : Instant) : Key -> gmap Key JobRow -> Update :=
  update_where now (fun _ => true) (with_ask None now).
End Table.
