(* ===== verification/JobFacts.v ===== *)
(** * What the job queue guarantees

    Theorems about [JobTable]: over every sequence of the statements, which is
    what any interleaving of relay instances and workers executes, a lease is
    fenced, an ending is final, heads rise, and no statement breaks the table. *)

From Stdlib Require Import ZArith Lia Ascii.
From stdpp Require Import base list gmap strings numbers sorting.
From S2P Require Import Prelude MachineInt RustStr Event JobWire JobTable.
Local Open Scope Z_scope.

Section Runs.
Context `{JobJson}.

(** ** Statements and runs *)

Inductive Statement :=
| SInsert (now : Instant) (community : string) (job : NewJob)
| SClaim (holder : string) (now : Instant) (expires : Z) (key : Key)
| SHeartbeat (holder : string) (attempt : Z) (now : Instant) (expires : Z) (key : Key)
| SCheckpoint (c : JobCheckpoint) (now : Instant) (expires : Z) (key : Key)
| SFinish (o : FinishedJob) (now : Instant) (key : Key)
| SExpire (now : Instant) (key : Key)
| SStamp (now : Instant) (key : Key)
| SRecord (ask : string) (now : Instant) (key : Key)
| SClear (now : Instant) (key : Key).

Definition exec (s : Statement) (t : gmap Key JobRow) : Update :=
  match s with
  | SInsert now community job => insert_job now community job t
  | SClaim holder now expires key => claim_job holder MAX_JOB_ATTEMPTS now expires key t
  | SHeartbeat holder attempt now expires key => heartbeat_job holder attempt now expires key t
  | SCheckpoint c now expires key => checkpoint_job c now expires key t
  | SFinish o now key => finish_job o now key t
  | SExpire now key => expire_lease now MAX_JOB_ATTEMPTS key t
  | SStamp now key => stamp_head now key t
  | SRecord ask now key => record_escalation ask now key t
  | SClear now key => clear_escalation now key t
  end.

Definition key_of (s : Statement) : Key :=
  match s with
  | SInsert _ community job => (community, new_job_id job)
  | SClaim _ _ _ key | SHeartbeat _ _ _ _ key | SCheckpoint _ _ _ key | SFinish _ _ key
  | SExpire _ key | SStamp _ key | SRecord _ _ key | SClear _ key => key
  end.

Definition instant_of (s : Statement) : Instant :=
  match s with
  | SInsert now _ _ | SClaim _ now _ _ | SHeartbeat _ _ now _ _ | SCheckpoint _ now _ _ | SFinish _ now _
  | SExpire now _ | SStamp now _ | SRecord _ now _ | SClear now _ => now
  end.
(** The statement would write to a community that is being deleted. *)
Definition is_fenced (s : Statement) : bool := write_fenced (instant_of s) (fst (key_of s)).

(** What each statement returned, and the table; a statement that errs is
    rolled back. *)
Definition Log : Type := list (Statement * option JobRow).
Definition exec_one (r : Log * gmap Key JobRow) (s : Statement) : Log * gmap Key JobRow :=
  match exec s r.2 with
  | Ok (o, t) => (r.1 ++ [(s, o)], t)
  | Err _ => (r.1 ++ [(s, None)], r.2)
  end.
Definition exec_all (ss : list Statement) : Log * gmap Key JobRow := foldl exec_one ([], ∅) ss.

(** ** One statement *)

Lemma update_where_ok now p f key t o t' :
  update_where now p f key t = Ok (o, t') ->
  match o with
  | Some r' => exists r, t !! key = Some r /\ p r = true /\ r' = f r /\ checks r' = true
                         /\ t' = <[key := r']> t
  | None => t' = t /\ forall r, t !! key = Some r -> p r = false
  end.
Proof.
  unfold update_where. destruct (t !! key) as [r|] eqn:Hr; [|by intros [= <- <-]].
  destruct (p r) eqn:Hp; [|intros [= <- <-]; split; [done|by intros r' [= <-]]].
  destruct (write_fenced _ _); [done|].
  destruct (checks (f r)) eqn:Hc; [|done]. intros [= <- <-]. by exists r.
Qed.

(** A statement that moves nothing leaves the table; one that moves a row
    changes that row only. *)
Lemma exec_ok s t o t' :
  exec s t = Ok (o, t') ->
  match o with
  | Some r' => checks r' = true /\ t' = <[key_of s := r']> t
  | None => t' = t
  end.
Proof.
  destruct s; cbn [exec key_of]; try (intros Hu%update_where_ok; destruct o; [|by destruct Hu];
    destruct Hu as (r & _ & _ & _ & Hc & Ht); done).
  unfold insert_job. destruct (write_fenced _ _); [done|]. destruct (t !! (community, new_job_id job)); [by intros [= <- <-]|].
  case_match eqn:Hc; [|done]. by intros [= <- <-].
Qed.

Lemma exec_one_other r s key : key <> key_of s -> (exec_one r s).2 !! key = r.2 !! key.
Proof.
  intros Hne. unfold exec_one. destruct (exec s r.2) as [[o t]|] eqn:E; [|done]. cbn.
  apply exec_ok in E. destruct o; [|by subst]. destruct E as [_ ->]. by rewrite lookup_insert_ne.
Qed.

(** What a successful statement did to the row it moved. *)
Definition moved (s : Statement) (r r' : JobRow) : Prop :=
  match s with
  | SInsert _ _ _ => False
  | SClaim holder now expires _ =>
      claimable MAX_JOB_ATTEMPTS now r = true
      /\ r' = with_lease Leased (Some holder) (Some expires) (attempts r + 1) now r
  | SHeartbeat holder attempt now expires _ =>
      holds_lease holder attempt r = true
      /\ r' = with_lease (status r) (lease_holder r) (Some expires) (attempts r) now r
  | SCheckpoint c now expires _ =>
      holds_lease (cp_holder c) (cp_attempt c) r = true /\ checkpoint_seq r < cp_sequence c
      /\ r' = with_checkpoint c now expires r
  | SFinish o now _ => finishable o now r = true /\ r' = with_outcome o now r
  | SExpire now _ =>
      lease_due now r = true
      /\ r' = with_lease (if MAX_JOB_ATTEMPTS <=? attempts r then Abandoned else JobOpen)
                None None (attempts r) now r
  | SStamp now _ => r' = with_stamp now r
  | SRecord ask now _ => r' = with_ask (Some ask) now r
  | SClear now _ => r' = with_ask None now r
  end.

Lemma exec_moved s t r' t' :
  exec s t = Ok (Some r', t') ->
  (t !! key_of s = None /\ attempts r' = 0 /\ status r' = JobOpen /\ head_at r' = 0
   /\ exists now community job, s = SInsert now community job)
  \/ exists r, t !! key_of s = Some r /\ moved s r r'.
Proof.
  destruct s; cbn [exec key_of];
    try (intros Hu%update_where_ok; right; destruct Hu as (r & Hr & Hp & Hf & _); exists r; split; [done|];
         cbn; rewrite ?andb_true_iff in Hp; intuition (eauto using eq_sym; lia)).
  unfold insert_job. destruct (write_fenced _ _); [done|]. destruct (t !! (community, new_job_id job)) eqn:Hk; [done|].
  case_match; [|done]. intros [= <- <-]. left. split_and!; eauto.
Qed.

(** ** Leases are fenced *)

(** The leases granted on a job: holder and attempt, oldest first. *)
Definition grant (key : Key) (e : Statement * option JobRow) : option (string * Z) :=
  match e with
  | (SClaim holder _ _ k, Some r) => if decide (k = key) then Some (holder, attempts r) else None
  | _ => None
  end.
Definition grants (key : Key) (log : Log) : list (string * Z) := filter_map (grant key) log.
Arguments grants : simpl never.

Lemma seqZ_one m : seqZ m 1 = [m].
Proof. reflexivity. Qed.

Lemma grants_snoc key log e :
  grants key (log ++ [e]) = grants key log ++ option_list (grant key e).
Proof. unfold grants. rewrite filter_map_app. cbn. by destruct (grant key e). Qed.

Lemma holds_lease_spec holder attempt r :
  holds_lease holder attempt r = true <->
  status r = Leased /\ lease_holder r = Some holder /\ attempts r = attempt.
Proof.
  unfold holds_lease, sql_eq. rewrite !andb_true_iff, !bool_decide_eq_true, Z.eqb_eq. tauto.
Qed.

(** A row's lease is the last one granted, and its attempts count them. *)
Definition fenced (g : list (string * Z)) (o : option JobRow) : Prop :=
  snd <$> g = seqZ 1 (Z.of_nat (length g)) /\ Z.of_nat (length g) <= MAX_JOB_ATTEMPTS
  /\ match o with
     | None => g = []
     | Some r => attempts r = Z.of_nat (length g)
                 /\ (status r = Leased -> exists h, lease_holder r = Some h /\ last g = Some (h, attempts r))
     end.

Lemma fenced_moved g s r r' key :
  key = key_of s -> fenced g (Some r) -> moved s r r' ->
  fenced (g ++ option_list (grant key (s, Some r'))) (Some r').
Proof.
  intros -> (Hseq & Hmax & Hat & Hl) Hm. unfold fenced.
  destruct s; cbn [moved key_of grant option_list] in *; rewrite ?app_nil_r; try done.
  - rewrite decide_True by done. destruct Hm as [Hc ->]. unfold claimable in Hc.
    rewrite andb_true_iff in Hc. destruct Hc as [Hlt _]. cbn. rewrite length_app, fmap_app. cbn.
    rewrite Nat2Z.inj_add. rewrite Hseq, Hat. split_and!; [|lia|done|].
    + rewrite seqZ_app by lia. f_equal. rewrite seqZ_one. f_equal. lia.
    + intros _. exists holder. by rewrite last_snoc.
  - destruct Hm as [Hh ->]. done.
  - destruct Hm as (Hh & _ & ->). done.
  - destruct Hm as [Hf ->]. split_and!; [done..|]. intros _. apply Hl.
    unfold finishable in Hf. rewrite !andb_true_iff in Hf. destruct Hf as [[Hh _] _].
    by apply holds_lease_spec in Hh as (? & _).
  - destruct Hm as [_ ->]. split_and!; [done..|]. cbn. by case_match.
  - by subst.
  - by subst.
  - by subst.
Qed.
(** ** Runs *)

Lemma exec_all_snoc ss s : exec_all (ss ++ [s]) = exec_one (exec_all ss) s.
Proof. unfold exec_all. by rewrite foldl_app. Qed.

Lemma grant_other key s o : key <> key_of s -> grant key (s, o) = None.
Proof. intros Hne. destruct s, o; cbn in *; try done. by rewrite decide_False. Qed.

Lemma grant_none key s : grant key (s, None) = None.
Proof. by destruct s. Qed.

Lemma exec_all_fenced ss key : fenced (grants key (exec_all ss).1) ((exec_all ss).2 !! key).
Proof.
  induction ss as [|s ss IH] using rev_ind; [done|]. rewrite exec_all_snoc.
  destruct (decide (key = key_of s)) as [Hk|Hne].
  - unfold exec_one. destruct (exec s (exec_all ss).2) as [[o t']|e] eqn:E; cbn [fst snd];
      rewrite grants_snoc; [|by rewrite grant_none, app_nil_r].
    destruct o as [r'|].
    + pose proof (exec_ok _ _ _ _ E) as [_ Ht]. rewrite Ht, Hk, lookup_insert_eq, <- Hk.
      apply exec_moved in E as [(Hn & Ha & Hs & _ & now & com & job & ->)|(r & Hr & Hm)].
      * rewrite <- Hk in Hn. rewrite Hn in IH. destruct IH as (H1 & H2 & ->). cbn.
        split_and!; [done..|by rewrite Hs].
      * rewrite <- Hk in Hr. rewrite Hr in IH. by eapply fenced_moved.
    + apply exec_ok in E. cbn in E. subst t'. by rewrite grant_none, app_nil_r.
  - rewrite exec_one_other by done. unfold exec_one.
    destruct (exec s (exec_all ss).2) as [[o t']|e]; cbn [fst]; rewrite grants_snoc, grant_other by done;
      by rewrite app_nil_r.
Qed.

(** The lease a worker's statement acts under. *)
Definition acts_under (s : Statement) : option (string * Z) :=
  match s with
  | SHeartbeat holder attempt _ _ _ => Some (holder, attempt)
  | SCheckpoint c _ _ _ => Some (cp_holder c, cp_attempt c)
  | SFinish o _ _ => Some (fin_holder o, fin_attempt o)
  | _ => None
  end.

(** C14. Leases are fenced. In every interleaving of the queue's statements, the
    leases granted on a job are numbered one after the other from 1, at most
    three; a heartbeat, checkpoint or outcome takes effect only under the lease
    granted last; and a lease is granted only on a job that is open or whose
    deadline has passed. *)
Theorem leases_are_fenced ss key s r t' :
  key_of s = key -> exec s (exec_all ss).2 = Ok (Some r, t') ->
  let granted := grants key (exec_all ss).1 in
  (snd <$> granted = seqZ 1 (Z.of_nat (length granted)) /\ Z.of_nat (length granted) <= MAX_JOB_ATTEMPTS)
  /\ (forall lease, acts_under s = Some lease -> last granted = Some lease)
  /\ (forall holder now expires, s = SClaim holder now expires key ->
        attempts r = Z.of_nat (length granted) + 1 /\ lease_holder r = Some holder
        /\ exists old, (exec_all ss).2 !! key = Some old
             /\ (status old = JobOpen
                 \/ status old = Leased /\ exists d, lease_expires_at old = Some d /\ d < now)).
Proof.
  intros Hk He granted. pose proof (exec_all_fenced ss key) as (Hseq & Hmax & Hrow).
  split; [done|]. apply exec_moved in He as [(_ & _ & _ & _ & now & com & job & ->)|(old & Ho & Hm)].
  { split; [done|]. intros h n e Hs. by rewrite Hs in Hk. }
  rewrite Hk in Ho. rewrite Ho in Hrow. destruct Hrow as [Hat Hl]. split.
  - intros [h a] Hu.
    assert (holds_lease h a old = true) as Hh.
    { destruct s; try done; cbn in Hu; injection Hu as <- <-; cbn in Hm.
      - by destruct Hm.
      - by destruct Hm as (? & _ & _).
      - destruct Hm as [Hf _]. unfold finishable in Hf. rewrite !andb_true_iff in Hf.
        by destruct Hf as [[? _] _]. }
    apply holds_lease_spec in Hh as (Hs & Hh & Ha). destruct (Hl Hs) as (h' & Hh' & Hlast).
    unfold granted. rewrite Hlast. congruence.
  - intros h n e ->. destruct Hm as [Hc ->]. cbn. split_and!; [by rewrite Hat|done|].
    exists old. split; [done|]. unfold claimable, sql_lt in Hc.
    rewrite andb_true_iff, orb_true_iff, andb_true_iff, !bool_decide_eq_true in Hc.
    destruct Hc as [_ [?|[? Hd]]]; [by left|right]. split; [done|].
    destruct (lease_expires_at old) as [d|]; [|done]. exists d. split; [done|lia].
Qed.

(** ** An ending is final *)

(** What a job came to, and on what evidence. *)
Definition outcome_of (r : JobRow) :=
  (status r, attempts r, lease_holder r, (result r, failure r, provider r, model r),
   (checkpoint_seq r, checkpoint r, checkpoint_event r), (artifacts r, outcome_event r)).

Lemma moved_terminal s r r' :
  moved s r r' -> status_is_terminal (status r) = true -> outcome_of r' = outcome_of r.
Proof.
  intros Hm Ht. assert (status r <> JobOpen /\ status r <> Leased) as [Hno Hnl] by (by destruct (status r)).
  assert (forall h a, holds_lease h a r = false) as Hh.
  { intros h a. unfold holds_lease. by rewrite bool_decide_eq_false_2. }
  destruct s; cbn in Hm; try done.
  - destruct Hm as [Hc _]. unfold claimable in Hc. by rewrite !bool_decide_eq_false_2, andb_false_r in Hc.
  - by destruct Hm as [Hc _]; rewrite Hh in Hc.
  - by destruct Hm as [Hc _]; rewrite Hh in Hc.
  - destruct Hm as [Hc _]. unfold finishable in Hc. by rewrite Hh in Hc.
  - destruct Hm as [Hc _]. unfold lease_due in Hc. by rewrite bool_decide_eq_false_2 in Hc.
  - by subst.
  - by subst.
  - by subst.
Qed.

(** A finished job stays finished: once a job is done, failed or
    abandoned, no sequence of statements changes what it came to, its status,
    result, evidence, checkpoint or attempts. *)
Theorem ending_is_final ss more key r :
  (exec_all ss).2 !! key = Some r -> status_is_terminal (status r) = true ->
  exists r', (exec_all (ss ++ more)).2 !! key = Some r' /\ outcome_of r' = outcome_of r.
Proof.
  intros Hr Ht. induction more as [|s more IH] using rev_ind; [rewrite app_nil_r; by exists r|].
  destruct IH as (r1 & Hr1 & Ho1). rewrite app_assoc, exec_all_snoc.
  destruct (decide (key = key_of s)) as [->|Hne]; [|rewrite exec_one_other by done; by exists r1].
  unfold exec_one. destruct (exec s (exec_all (ss ++ more)).2) as [[[r2|] t']|e] eqn:E; cbn [snd].
  - pose proof (exec_ok _ _ _ _ E) as [_ ->]. rewrite lookup_insert_eq. exists r2. split; [done|].
    apply exec_moved in E as [(Hn & _)|(old & Hold & Hm)]; [congruence|].
    rewrite Hold in Hr1. injection Hr1 as ->. rewrite <- Ho1. eapply moved_terminal; [done|].
    enough (status r1 = status r) as -> by done. by injection Ho1.
  - apply exec_ok in E. subst t'. by exists r1.
  - by exists r1.
Qed.
End Runs.

Section Table.
Context `{JobJson}.

(** ** Heads rise and the newest is current *)

(** The rows [stamp_head] returned for a job, oldest first: what its published
    heads show. *)
Definition stamp_of (key : Key) (e : Statement * option JobRow) : option JobRow :=
  match e with
  | (SStamp _ k, Some r) => if decide (k = key) then Some r else None
  | _ => None
  end.
Definition stamps (key : Key) (log : Log) : list JobRow := filter_map (stamp_of key) log.
Arguments stamps : simpl never.

Lemma stamps_snoc key log e : stamps key (log ++ [e]) = stamps key log ++ option_list (stamp_of key e).
Proof. unfold stamps. rewrite filter_map_app. cbn. by destruct (stamp_of key e). Qed.

Lemma stamp_other key s o : key <> key_of s -> stamp_of key (s, o) = None.
Proof. intros Hne. destruct s, o; cbn in *; try done. by rewrite decide_False. Qed.

Lemma stamp_none key s : stamp_of key (s, None) = None.
Proof. by destruct s. Qed.

Definition rising (l : list JobRow) (o : option JobRow) : Prop :=
  StronglySorted (fun a b => head_at a < head_at b) l
  /\ match o with
     | None => l = []
     | Some r => Forall (fun r' => head_at r' <= head_at r) l
     end.

Lemma rising_snoc l r now :
  rising l (Some r) -> rising (l ++ [with_stamp now r]) (Some (with_stamp now r)).
Proof.
  intros [Hs Hf]. split.
  - apply StronglySorted_app_2; [|done|by repeat constructor].
    intros x y Hx Hy. rewrite list_elem_of_singleton in Hy. subst. rewrite Forall_elem in Hf.
    specialize (Hf x Hx). cbn. lia.
  - apply Forall_app. split; [|by constructor; [lia|constructor]].
    eapply Forall_impl; [exact Hf|]. cbn. intros. lia.
Qed.

Lemma moved_head s r r' : moved s r r' -> (forall n k, s <> SStamp n k) -> head_at r' = head_at r.
Proof. intros Hm Hs. destruct s; cbn in Hm; try (by intuition (subst; done)). by destruct (Hs now key). Qed.

Lemma exec_all_rising ss key : rising (stamps key (exec_all ss).1) ((exec_all ss).2 !! key).
Proof.
  induction ss as [|s ss IH] using rev_ind; [split; [constructor|done]|]. rewrite exec_all_snoc.
  destruct (decide (key = key_of s)) as [Hk|Hne].
  - unfold exec_one. destruct (exec s (exec_all ss).2) as [[o t']|e] eqn:E; cbn [fst snd];
      rewrite stamps_snoc; [|by rewrite stamp_none, app_nil_r].
    destruct o as [r'|].
    + pose proof (exec_ok _ _ _ _ E) as [_ Ht]. rewrite Ht, Hk, lookup_insert_eq, <- Hk.
      apply exec_moved in E as [(Hn & _ & _ & _ & now & com & job & ->)|(r & Hr & Hm)].
      * rewrite <- Hk in Hn. rewrite Hn in IH. destruct IH as [_ ->]. split; constructor.
      * rewrite <- Hk in Hr. rewrite Hr in IH.
        destruct s; try (cbn [stamp_of option_list]; rewrite app_nil_r; destruct IH as [H1 H2];
          split; [done|]; by rewrite (moved_head _ _ _ Hm)).
        cbn in Hk, Hm. subst. cbn. rewrite decide_True by done. by apply rising_snoc.
    + apply exec_ok in E. cbn in E. subst t'. by rewrite stamp_none, app_nil_r.
  - rewrite exec_one_other by done. unfold exec_one.
    destruct (exec s (exec_all ss).2) as [[o t']|e]; cbn [fst]; rewrite stamps_snoc, stamp_other by done;
      by rewrite app_nil_r.
Qed.

(** ** The constraints *)

Record RowOk (r : JobRow) : Prop := {
  ok_job_id : bytes32 (job_id r) = true;
  ok_employee : bytes32 (employee r) = true;
  ok_filed_by : bytes32 (filed_by r) = true;
  ok_originator : bytes32 (originator r) = true;
  ok_thread : none_or bytes32 (thread r) = true;
  ok_holder : none_or bytes32 (lease_holder r) = true;
  ok_ask : none_or bytes32 (escalated_ask r) = true;
  ok_lease : lease_check r = true;
  ok_task : none_or (fun t => (1 <=? chars_count (btrim t)) && (chars_count (btrim t) <=? 128))
              (task_id r) = true;
  ok_seq : 0 <= checkpoint_seq r;
  ok_cp_event : none_or bytes32 (checkpoint_event r) = true;
  ok_out_event : none_or bytes32 (outcome_event r) = true;
  ok_checkpoint : checkpoint_check r = true;
  ok_artifacts : none_or nonempty_array (artifacts r) = true;
  ok_delivery : delivery_check r = true;
}.

Lemma checks_spec r : checks r = true <-> RowOk r.
Proof.
  unfold checks. rewrite !andb_true_iff, Z.leb_le. split.
  - intros H'. by destruct_and!; split.
  - intros []. by split_and!.
Qed.

Lemma exec_all_checks ss : map_Forall (fun _ r => checks r = true) (exec_all ss).2.
Proof.
  induction ss as [|s ss IH] using rev_ind; [apply map_Forall_empty|]. rewrite exec_all_snoc.
  unfold exec_one. destruct (exec s (exec_all ss).2) as [[[r|] t']|e] eqn:E; cbn; [|by apply exec_ok in E; subst|done].
  apply exec_ok in E as [Hc ->]. by apply map_Forall_insert_2.
Qed.

Lemma with_stamp_ok now r : checks r = true -> checks (with_stamp now r) = true.
Proof. rewrite !checks_spec. by intros []. Qed.

Lemma exec_one_stamp ss now (key : Key) :
  write_fenced now (fst key) = false ->
  (exec_one (exec_all ss) (SStamp now key)).2 !! key
  = last (stamps key (exec_one (exec_all ss) (SStamp now key)).1).
Proof.
  intros Hfence. pose proof (exec_all_rising ss key) as [_ Hrow]. unfold exec_one. cbn [exec].
  unfold stamp_head, update_where. destruct ((exec_all ss).2 !! key) as [r|] eqn:Hr; cbn.
  - rewrite Hfence, with_stamp_ok by (by eapply exec_all_checks). cbn.
    rewrite stamps_snoc, lookup_insert_eq. cbn. rewrite decide_True by done. cbn.
    by rewrite last_snoc.
  - by rewrite stamps_snoc, stamp_none, app_nil_r, Hrow.
Qed.

(** A job's published heads rise strictly, so each replaces the one before
    whatever the clock says; and the newest carries the newest state: while no
    other statement has run on the job since, the row still is what it shows. *)
Theorem heads_rise ss1 now (key : Key) ss2 :
  write_fenced now (fst key) = false -> Forall (fun s => key_of s <> key) ss2 ->
  let '(log, t) := exec_all (ss1 ++ SStamp now key :: ss2) in
  StronglySorted (fun a b => head_at a < head_at b) (stamps key log)
  /\ t !! key = last (stamps key log).
Proof.
  intros Hfence Hss. destruct (exec_all _) as [log t] eqn:E. split.
  - change log with (log, t).1. rewrite <- E. apply exec_all_rising.
  - change log with (log, t).1. change t with (log, t).2 at 1. rewrite <- E. clear E log t.
    rewrite (cons_middle (SStamp now key) ss1 ss2), app_assoc.
    induction ss2 as [|s ss2 IH] using rev_ind.
    + rewrite app_nil_r, exec_all_snoc. by apply exec_one_stamp.
    + apply Forall_app in Hss as [Hss Hs%Forall_cons_1]. destruct Hs as [Hs _].
      rewrite app_assoc, exec_all_snoc, exec_one_other by done. rewrite (IH Hss).
      set (q := exec_all _). unfold exec_one.
      destruct (exec s q.2) as [[o t]|e]; cbn [fst]; rewrite stamps_snoc, stamp_other by done;
        by rewrite app_nil_r.
Qed.

(** ** No statement breaks the table *)

(** Thirty-two bytes where the code passes a key, and what the parsers of
    [JobWire] and the broker established about the rest. *)
Definition well_formed (s : Statement) : Prop :=
  match s with
  | SInsert _ _ job =>
      bytes32 (new_job_id job) = true /\ bytes32 (new_employee job) = true
      /\ bytes32 (new_filed_by job) = true /\ bytes32 (new_originator job) = true
      /\ none_or bytes32 (new_thread job) = true
      /\ (forall t, new_task_id job = Some t ->
            (exists raw, validate_task_id raw = Ok t) /\ 1 <= chars_count t)
  | SClaim holder _ _ _ => bytes32 holder = true
  | SCheckpoint c _ _ _ => bytes32 (cp_event c) = true
  | SFinish o _ _ =>
      (fin_status o = Done \/ fin_status o = Failed)
      /\ none_or nonempty_array (fin_artifacts o) = true
      /\ none_or bytes32 (fin_outcome_event o) = true
  | SRecord ask _ _ => bytes32 ask = true
  | _ => True
  end.

Lemma btrim_stuck s : stuck s -> btrim s = s.
Proof.
  intros [H1 H2]. unfold btrim.
  assert (forall ws x, strip_one ws x = None -> " "%string ∈ ws -> strip_one [" "%string] x = None) as Hs.
  { intros ws x Hx Hin. apply strip_one_none. intros w ->%list_elem_of_singleton.
    by eapply strip_one_none. }
  rewrite !strip_all_stuck; [apply str_rev_involutive| |].
  - eapply Hs; [exact H1|]. apply (bool_decide_unpack _). vm_compute. exact I.
  - rewrite strip_all_stuck.
    + eapply Hs; [exact H2|]. apply (bool_decide_unpack _). vm_compute. exact I.
    + eapply Hs; [exact H1|]. apply (bool_decide_unpack _). vm_compute. exact I.
Qed.

Lemma task_id_check raw t :
  validate_task_id raw = Ok t -> 1 <= chars_count t ->
  (1 <=? chars_count (btrim t)) && (chars_count (btrim t) <=? 128) = true.
Proof.
  unfold validate_task_id. case_match eqn:Hc; [done|]. intros [= <-].
  rewrite btrim_stuck by apply trim_stuck. apply orb_false_iff in Hc as [_ Hle]. lia.
Qed.

(** What a statement that keeps the constraints of a row comes to. *)
Lemma update_where_total now p f (key : Key) t :
  map_Forall (fun _ r => checks r = true) t -> (forall r, p r = true -> RowOk r -> RowOk (f r)) ->
  match update_where now p f key t with
  | Ok (o, _) => write_fenced now (fst key) = true -> o = None
  | Err e => write_fenced now (fst key) = true /\ e = WriteFenced
  end.
Proof.
  intros Hall Hf. unfold update_where. destruct (t !! key) as [r|] eqn:Hr; [|done].
  destruct (p r) eqn:Hp; [|done]. destruct (write_fenced now (fst key)); [done|].
  rewrite (proj2 (checks_spec (f r))); [done|]. apply Hf; [done|]. by apply checks_spec, (Hall key).
Qed.


(** ** One fenced community stops the sweep *)

(** The sweep does not leave out the communities being deleted: a lapsed lease
    of one of them among the rows it locked fails the statement, and no lease of
    any community is reclaimed. *)
Theorem fenced_lease_stops_the_sweep (now : Instant) due ss (key : Key) r :
  (exec_all ss).2 !! key = Some r -> lease_due now r = true -> write_fenced now (fst key) = true ->
  NoDup due -> key ∈ due ->
  exists e, expire_due_leases now MAX_JOB_ATTEMPTS due (exec_all ss).2 = Err e.
Proof.
  generalize (exec_all ss).2. intros t Hr Hdue Hf Hnd Hin. revert t Hr. induction Hnd as [|k due Hk Hnd IH]; intros t Hr.
  { by apply not_elem_of_nil in Hin. }
  cbn [expire_due_leases]. destruct (expire_lease now MAX_JOB_ATTEMPTS k t) as [[o t']|e] eqn:E; cbn [rbind]; [|by eauto].
  apply elem_of_cons in Hin as [<-|Hin].
  - unfold expire_lease, update_where in E. rewrite Hr, Hdue, Hf in E. done.
  - assert (t' !! key = Some r) as Hr'.
    { apply update_where_ok in E. destruct o as [r'|]; [|by destruct E as [-> _]].
      destruct E as (r0 & _ & _ & _ & _ & ->). rewrite lookup_insert_ne; [done|]. by intros ->. }
    destruct (IH Hin t' Hr') as [e He]. rewrite He. by eauto.
Qed.
End Table.
