(* ===== verification/JobBroker.v ===== *)
(** * The job broker

    [crates/buzz-relay/src/job_broker.rs] and the two sweeps of
    [job_runtime.rs]: what the relay does with the five events of the job
    queue. The relay's tables are a state; a handler maps it to a result and a
    state. Signing, UUIDs and sealed employee keys are a library
    ([BrokerLib]); every reading of the clock, with the communities fenced at
    that instant, is an argument. *)

From Stdlib Require Import ZArith Lia Ascii.
From stdpp Require Import base list gmap strings numbers.
From S2P Require Import Prelude MachineInt RustStr Event JobWire JobTable.
Local Open Scope Z_scope.

Definition KIND_JOB_HEAD : Z := 30191.
Definition KIND_JOB_FILING : Z := 43010.
Definition KIND_JOB_CLAIM : Z := 43011.
Definition KIND_JOB_HEARTBEAT : Z := 43012.
Definition KIND_JOB_OUTCOME : Z := 43013.
Definition KIND_JOB_CHECKPOINT : Z := 43014.
(** [TASK_ARTIFACT_EVENT_KINDS]. *)
Definition TASK_ARTIFACT_EVENT_KINDS : list Z :=
  [KIND_STREAM_MESSAGE; 40002; 40008; 40100; 45001; 45003].
Definition MAX_TASK_EVENT_ARTIFACTS : nat := 16.
Definition MAX_LEASES_PER_TICK : Z := 200.

Inductive JobOutcome :=
| Filed | AlreadyFiled | Claimed | ClaimLost | LeaseExtended | Checkpointed | CheckpointIgnored
| LeaseGone | Finished | OutcomeIgnored.
#[export] Instance JobOutcome_eq_dec : EqDecision JobOutcome.
Proof. solve_decision. Defined.

(** The refusals, by what their messages say. *)
Inductive Refusal :=
| NotAJobEvent (kind : Z)
| InvalidEvent (e : JobParseError)
| NotHex (field value : string)
| NotAnEmployee (hex : string)
| EmployeeRetired (hex : string)
| DelegationNeedsParent
| NoParentJob (hex : string)
| NotTheirsToDelegate (hex : string)
| NoCanonicalTask (task : string)
| TaskUnreadable (task : string)
| TaskNeedsChannel
| TaskChannelMismatch (channel home : string)
| TaskNeedsThread
| NotAChannelId (value : string)
| NoSuchJob (hex : string)
| BelongsToAnother (hex : string)
| DeliveryNeedsArtifact
| DeliveryNotCurrentLease
| TooManyArtifacts
| ArtifactNotFound (reference : string)
| ArtifactNotExact (reference : string)
| ArtifactBadSignature (reference : string)
| ArtifactNotContent (reference : string)
| ArtifactNotByWorker (reference : string)
| RunHasNoChannel
| ArtifactOtherChannel (reference : string)
| RunHasNoThread
| ArtifactNotInThread (reference : string)
| ArtifactOtherThread (reference : string)
| ArtifactWrongFence (label reference : string)
| OutcomeSuperseded
| DatabaseError.

Inductive JobEventError := Rejected (r : Refusal) | Internal (e : DbError).

(** What the broker asks of the event library, the UUID parser and the vault
    of employee keys. *)
Class BrokerLib := {
  Keys : Type;
  tag_parse : list string -> option (list string);
  sign_with_keys : Keys -> Z -> list (list string) -> string -> Z -> option Event;
  verify_id : Event -> bool;
  verify_signature : Event -> bool;
  parse_uuid : string -> option string;
  open_employee_keys : string -> option Keys;
}.

(** The columns of a thread record the broker reads. *)
Record ThreadMetadataRecord := { thread_channel : string; root_event_id : option string }.

(** [hex::decode]: pairs of hexadecimal digits, case folded. *)
Definition hex32 (field value : string) : Result string Refusal :=
  fail_if negb (Nat.even (String.length value)) || negb (str_all is_ascii_hexdigit value)
    with NotHex field value;
  Ok (to_ascii_lowercase value).

(** [i32::to_string], [i64::to_string]. *)
Definition dec_int (n : Z) : string :=
  if n <? 0 then String "-" (dec (- n)) else dec n.

Section Broker.
Context `{JobJson, BrokerLib}.

(** The tables the broker reads and writes. Employees by activity, Tasks by the
    home channel of their canonical head ([None]: unreadable), and the job
    heads it published. *)
Record Relay := {
  jobs : gmap Key JobRow;
  employees : gmap Key bool;
  task_homes : gmap Key (option string);
  stored_events : gmap Key StoredEvent;
  threads : gmap Key ThreadMetadataRecord;
  heads : list Event;
}.
Definition set_jobs (t : gmap Key JobRow) (s : Relay) : Relay := {|
  jobs := t; employees := employees s; task_homes := task_homes s;
  stored_events := stored_events s; threads := threads s; heads := heads s |}.
Definition add_head (e : Event) (s : Relay) : Relay := {|
  jobs := jobs s; employees := employees s; task_homes := task_homes s;
  stored_events := stored_events s; threads := threads s; heads := heads s ++ [e] |}.

(** ** Publishing a head *)

(** One tag of a head, present when its column is. *)
Definition field_tag (f : string * option string) : list (list string) :=
  match snd f with Some v => [[fst f; v]] | None => [] end.

(** The run status of [build_job_head]. *)
Definition run_status_tag (s : JobStatus) (attempts : Z) : string :=
  match s with
  | JobOpen => if attempts =? 0 then "queued" else "recoverable"
  | Leased => "executing"
  | Done => "delivered"
  | Failed => "failed"
  | Abandoned => "abandoned"
  end.

(** The tags of [build_job_head], in order. *)
Definition head_fields (job : JobRow) : list (string * option string) :=
  [("d", Some (job_id job)); ("employee", Some (employee job));
   ("originator", Some (originator job)); ("filed-by", Some (filed_by job));
   ("status", Some (status_as_str (status job))); ("attempts", Some (dec_int (attempts job)));
   ("p", Some (originator job));
   ("lease-holder", lease_holder job); ("lease-expires", dec_int <$> lease_expires_at job);
   ("h", channel_id job); ("e", thread job); ("provider", provider job); ("model", model job);
   ("task", task_id job);
   ("run-status", (fun _ => run_status_tag (status job) (attempts job)) <$> task_id job);
   ("checkpoint-seq", if (0 <? checkpoint_seq job)%Z then Some (dec_int (checkpoint_seq job)) else None);
   ("checkpoint-event", checkpoint_event job); ("outcome-event", outcome_event job)]%string.

(** The content of [build_job_head]. *)
Definition head_content (job : JobRow) : option string :=
  match from_str (job_head_content (instruction job) (result job) (failure job)) with
  | None => None
  | Some content =>
      match as_object content with
      | None => None
      | Some object =>
          let object := match checkpoint job with
                        | Some c => <["checkpoint"%string := c]> object | None => object end in
          let object := match artifacts job with
                        | Some a => <["artifacts"%string := a]> object | None => object end in
          Some (to_string (from_object object))
      end
  end.

(** [iter.map(Tag::parse).collect()]. *)
Fixpoint parse_tags (l : list (list string)) : option (list (list string)) :=
  match l with
  | [] => Some []
  | t :: l' =>
      match tag_parse t, parse_tags l' with
      | Some t', Some l'' => Some (t' :: l'')
      | _, _ => None
      end
  end.

(** [build_job_head]. *)
Definition build_job_head (keys : Keys) (job : JobRow) (head_at : Z) : option Event :=
  match parse_tags (mjoin (field_tag <$> head_fields job)) with
  | None => None
  | Some tags =>
      match head_content job with
      | None => None
      | Some content => sign_with_keys keys KIND_JOB_HEAD tags content (Z.max head_at 0)
      end
  end.

(** [publish_job_head]: best effort. *)
Definition publish_job_head (now : Instant) (key : Key) (s : Relay) : Relay :=
  match stamp_head now key (jobs s) with
  | Ok (Some job, t) =>
      let s := set_jobs t s in
      match employees s !! (fst key, employee job) with
      | None => s
      | Some _ =>
          match open_employee_keys (employee job) with
          | None => s
          | Some keys =>
              match build_job_head keys job (head_at job) with
              | Some event => add_head event s
              | None => s
              end
          end
      end
  | _ => s
  end.

(** ** Filing *)

(** [require_task_head]. *)
Definition require_task_head (community task : string) (s : Relay) : Result string Refusal :=
  let? head := ok_or (task_homes s !! (community, task)) (NoCanonicalTask task) in
  ok_or head (TaskUnreadable task).

(** [resolve_originator]. *)
Definition resolve_originator (community filed_by : string) (parent_job_hex : option string)
    (s : Relay) : Result string Refusal :=
  if negb (is_some (employees s !! (community, filed_by))) then Ok filed_by
  else
    let? parent_hex := ok_or parent_job_hex DelegationNeedsParent in
    let? parent_id := hex32 "job" parent_hex in
    let? parent := ok_or (find_job (community, parent_id) (jobs s)) (NoParentJob parent_hex) in
    fail_if negb (String.eqb (employee parent) filed_by) with NotTheirsToDelegate parent_hex;
    Ok (originator parent).

(** The Task checks of [handle_filing]. *)
Definition check_task_filing (community : string) (filing : ParsedJobFiling) (s : Relay)
    : Result unit Refusal :=
  match filing_task_id filing with
  | None => Ok tt
  | Some task =>
      let? home := require_task_head community task s in
      let? channel := ok_or (filing_channel filing) TaskNeedsChannel in
      fail_if negb (String.eqb channel home) with TaskChannelMismatch channel home;
      fail_if negb (is_some (filing_thread_hex filing)) with TaskNeedsThread;
      Ok tt
  end.

(** The part of [handle_filing] before the insert. *)
Definition prepare_filing (community : string) (event : Event) (s : Relay) : Result NewJob Refusal :=
  let? filing := map_err InvalidEvent (parse_job_filing event) in
  let? employee := hex32 "p" (filing_employee_hex filing) in
  let? active := ok_or (employees s !! (community, employee))
                   (NotAnEmployee (filing_employee_hex filing)) in
  fail_if negb active with EmployeeRetired (filing_employee_hex filing);
  let filed_by := ev_pubkey event in
  let? originator := resolve_originator community filed_by (parent_job_hex filing) s in
  let? _ := check_task_filing community filing s in
  let? thread := map_transpose (hex32 "e") (filing_thread_hex filing) in
  let? channel := map_transpose (fun v => ok_or (parse_uuid v) (NotAChannelId v))
                    (filing_channel filing) in
  Ok {| new_job_id := ev_id event; new_employee := employee; new_filed_by := filed_by;
        new_originator := originator; new_channel_id := channel; new_thread := thread;
        new_task_id := filing_task_id filing; new_instruction := filing_instruction filing |}.

(** [handle_filing]. *)
Definition handle_filing (now stamp : Instant) (community : string) (event : Event) (s : Relay)
    : Result JobOutcome JobEventError * Relay :=
  match prepare_filing community event s with
  | Err r => (Err (Rejected r), s)
  | Ok job =>
      match insert_job now community job (jobs s) with
      | Err _ => (Err (Rejected DatabaseError), s)
      | Ok (inserted, t) =>
          (Ok (if is_some inserted then Filed else AlreadyFiled),
           publish_job_head stamp (community, new_job_id job) (set_jobs t s))
      end
  end.

(** ** The worker's events *)

(** [handle_claim]. *)
Definition handle_claim (now stamp : Instant) (community : string) (event : Event) (s : Relay)
    : Result JobOutcome JobEventError * Relay :=
  match parse_job_claim event with
  | Err e => (Err (Rejected (InvalidEvent e)), s)
  | Ok claim =>
      match hex32 "job" (claim_job_hex claim) with
      | Err r => (Err (Rejected r), s)
      | Ok job_id =>
          let key := (community, job_id) in
          match find_job key (jobs s) with
          | None => (Err (Rejected (NoSuchJob (claim_job_hex claim))), s)
          | Some job =>
              if negb (String.eqb (originator job) (ev_pubkey event))
              then (Err (Rejected (BelongsToAnother (claim_job_hex claim))), s)
              else
                match claim_job (ev_pubkey event) MAX_JOB_ATTEMPTS now (now + JOB_LEASE_SECS) key
                        (jobs s) with
                | Err _ => (Err (Rejected DatabaseError), s)
                | Ok (claimed, t) =>
                    (Ok (if is_some claimed then Claimed else ClaimLost),
                     publish_job_head stamp key (set_jobs t s))
                end
          end
      end
  end.

(** [handle_heartbeat]. *)
Definition handle_heartbeat (now stamp : Instant) (community : string) (event : Event) (s : Relay)
    : Result JobOutcome JobEventError * Relay :=
  match parse_job_heartbeat event with
  | Err e => (Err (Rejected (InvalidEvent e)), s)
  | Ok beat =>
      match hex32 "job" (beat_job_hex beat) with
      | Err r => (Err (Rejected r), s)
      | Ok job_id =>
          let key := (community, job_id) in
          match heartbeat_job (ev_pubkey event) (beat_attempt beat) now (now + JOB_LEASE_SECS) key
                  (jobs s) with
          | Err _ => (Err (Rejected DatabaseError), s)
          | Ok (Some _, t) => (Ok LeaseExtended, publish_job_head stamp key (set_jobs t s))
          | Ok (None, _) => (Ok LeaseGone, s)
          end
      end
  end.

(** [handle_checkpoint]. *)
Definition handle_checkpoint (now stamp : Instant) (community : string) (event : Event) (s : Relay)
    : Result JobOutcome JobEventError * Relay :=
  match parse_job_checkpoint event with
  | Err e => (Err (Rejected (InvalidEvent e)), s)
  | Ok parsed =>
      match hex32 "job" (checkpoint_job_hex parsed) with
      | Err r => (Err (Rejected r), s)
      | Ok job_id =>
          let key := (community, job_id) in
          let update := {|
            cp_holder := ev_pubkey event; cp_attempt := checkpoint_attempt parsed;
            cp_sequence := sequence parsed;
            cp_checkpoint := checkpoint_value (checkpoint_body parsed);
            cp_event := ev_id event |} in
          match checkpoint_job update now (now + JOB_LEASE_SECS) key (jobs s) with
          | Err _ => (Err (Rejected DatabaseError), s)
          | Ok (Some _, t) => (Ok Checkpointed, publish_job_head stamp key (set_jobs t s))
          | Ok (None, _) =>
              match find_job key (jobs s) with
              | Some job =>
                  if bool_decide (checkpoint_event job = Some (ev_id event))
                  then (Ok Checkpointed, publish_job_head stamp key s)
                  else (Ok CheckpointIgnored, s)
              | None => (Ok CheckpointIgnored, s)
              end
          end
      end
  end.

(** ** Outcomes *)

(** [is_recorded_outcome]. *)
Definition is_recorded_outcome (job : JobRow) (event : Event) : bool :=
  bool_decide (outcome_event job = Some (ev_id event)).

(** [task_outcome_holds_current_lease]. *)
Definition task_outcome_holds_current_lease (job : JobRow) (author : string) (attempt now : Z) : bool :=
  holds_lease author attempt job && sql_ge (lease_expires_at job) now.

(** The loop of [unique_task_event_references]. *)
Fixpoint unique_references (artifacts : list TaskArtifact) (seen : list string)
    : Result (list string) Refusal :=
  match artifacts with
  | [] => Ok []
  | artifact :: rest =>
      let normalized := to_ascii_lowercase (reference artifact) in
      if bool_decide (normalized ∈ seen) then unique_references rest seen
      else
        let? _ := hex32 "artifact.ref" (reference artifact) in
        let? refs := unique_references rest (normalized :: seen) in
        Ok (normalized :: refs)
  end.

(** [unique_task_event_references]. *)
Definition unique_task_event_references (artifacts : list TaskArtifact) : Result (list string) Refusal :=
  let event_artifacts :=
    List.filter (fun a => bool_decide (artifact_kind a = ArtifactEvent)) artifacts in
  fail_if negb (length event_artifacts <=? MAX_TASK_EVENT_ARTIFACTS)%nat with TooManyArtifacts;
  unique_references event_artifacts [].

(** [require_exact_artifact_tag]. *)
Definition require_exact_artifact_tag (event : Event) (name expected label reference : string)
    : Result unit Refusal :=
  match List.filter (named name) (ev_tags event) with
  | [[_; value]] =>
      if String.eqb value expected then Ok tt else Err (ArtifactWrongFence label reference)
  | _ => Err (ArtifactWrongFence label reference)
  end.

(** [validate_task_event_artifact]. *)
Definition validate_task_event_artifact (reference : string) (stored : option StoredEvent)
    (metadata : option ThreadMetadataRecord) (job : JobRow) (task outcome_author : string)
    (attempt : Z) : Result unit Refusal :=
  let? stored := ok_or stored (ArtifactNotFound reference) in
  let event := stored_event stored in
  fail_if negb (String.eqb (ev_id event) (to_ascii_lowercase reference)) with ArtifactNotExact reference;
  fail_if negb (verified stored) || negb (verify_id event) || negb (verify_signature event)
    with ArtifactBadSignature reference;
  fail_if negb (bool_decide (ev_kind event ∈ TASK_ARTIFACT_EVENT_KINDS))
    with ArtifactNotContent reference;
  fail_if negb (String.eqb (ev_pubkey event) outcome_author) with ArtifactNotByWorker reference;
  let? channel := ok_or (channel_id job) RunHasNoChannel in
  fail_if negb (bool_decide (stored_channel stored = Some channel)) with ArtifactOtherChannel reference;
  let? expected_thread := ok_or (thread job) RunHasNoThread in
  let? metadata := ok_or metadata (ArtifactNotInThread reference) in
  fail_if negb (String.eqb (thread_channel metadata) channel)
          || negb (bool_decide (root_event_id metadata = Some expected_thread))
    with ArtifactOtherThread reference;
  let? _ := require_exact_artifact_tag event "task" task "Task" reference in
  let? _ := require_exact_artifact_tag event "job" (job_id job) "job" reference in
  require_exact_artifact_tag event "attempt" (dec_int attempt) "attempt" reference.

(** [validate_task_event_artifacts]. *)
Definition validate_task_event_artifacts (community : string) (outcome_event : Event) (job : JobRow)
    (task : string) (outcome : ParsedJobOutcome) (s : Relay) : Result unit Refusal :=
  let? references := unique_task_event_references (outcome_artifacts outcome) in
  let? _ := try_map (fun reference =>
    let stored := stored_events s !! (community, reference) in
    let metadata := match stored with
                    | Some st => threads s !! (community, ev_id (stored_event st))
                    | None => None
                    end in
    validate_task_event_artifact reference stored metadata job task (ev_pubkey outcome_event)
      (outcome_attempt outcome)) references in
  Ok tt.

(** The checks of [handle_outcome] before the final update. *)
Definition check_outcome (checked_at : Z) (community : string) (event : Event)
    (outcome : ParsedJobOutcome) (job : JobRow) (s : Relay) : Result unit Refusal :=
  let delivered := bool_decide (outcome_status outcome = Done) in
  fail_if is_some (task_id job) && delivered && bool_decide (outcome_artifacts outcome = [])
    with DeliveryNeedsArtifact;
  match task_id job with
  | Some task =>
      if delivered then
        fail_if negb (task_outcome_holds_current_lease job (ev_pubkey event)
                        (outcome_attempt outcome) checked_at) with DeliveryNotCurrentLease;
        validate_task_event_artifacts community event job task outcome s
      else Ok tt
  | None => Ok tt
  end.

(** [handle_outcome]. *)
Definition handle_outcome (checked_at finished_at stamp : Instant) (community : string) (event : Event)
    (s : Relay) : Result JobOutcome JobEventError * Relay :=
  match parse_job_outcome event with
  | Err e => (Err (Rejected (InvalidEvent e)), s)
  | Ok outcome =>
      match hex32 "job" (outcome_job_hex outcome) with
      | Err r => (Err (Rejected r), s)
      | Ok job_id =>
          let key := (community, job_id) in
          match find_job key (jobs s) with
          | None => (Err (Rejected (NoSuchJob (outcome_job_hex outcome))), s)
          | Some job =>
              if is_recorded_outcome job event then (Ok OutcomeIgnored, s)
              else
                match check_outcome checked_at community event outcome job s with
                | Err r => (Err (Rejected r), s)
                | Ok _ =>
                    let finished := {|
                      fin_attempt := outcome_attempt outcome; fin_holder := ev_pubkey event;
                      fin_status := outcome_status outcome; fin_detail := outcome_detail outcome;
                      fin_provider := outcome_provider outcome; fin_model := outcome_model outcome;
                      fin_artifacts :=
                        if bool_decide (outcome_artifacts outcome = []) then None
                        else Some (artifacts_value (outcome_artifacts outcome));
                      fin_outcome_event := Some (ev_id event) |} in
                    match finish_job finished finished_at key (jobs s) with
                    | Err e => (Err (Internal e), s)
                    | Ok (Some _, t) => (Ok Finished, publish_job_head stamp key (set_jobs t s))
                    | Ok (None, _) =>
                        if match find_job key (jobs s) with
                           | Some job => is_recorded_outcome job event
                           | None => false
                           end
                        then (Ok OutcomeIgnored, s)
                        else (Err (Rejected OutcomeSuperseded), s)
                    end
                end
          end
      end
  end.

(** [handle_job_event]. *)
Definition handle_job_event (now later stamp : Instant) (community : string) (event : Event) (s : Relay)
    : Result JobOutcome JobEventError * Relay :=
  let kind := ev_kind event in
  if kind =? KIND_JOB_FILING then handle_filing now stamp community event s
  else if kind =? KIND_JOB_CLAIM then handle_claim now stamp community event s
  else if kind =? KIND_JOB_HEARTBEAT then handle_heartbeat now stamp community event s
  else if kind =? KIND_JOB_CHECKPOINT then handle_checkpoint now stamp community event s
  else if kind =? KIND_JOB_OUTCOME then handle_outcome now later stamp community event s
  else (Err (Rejected (NotAJobEvent kind)), s).

(** ** The sweeps *)

(** [run_job_lease_tick]: reclaim, then publish each moved job. [due] is the
    rows the statement locked. *)
Definition run_job_lease_tick (now : Instant) (stamp : Key -> Instant) (due : list Key) (s : Relay)
    : Result nat DbError * Relay :=
  match expire_due_leases now MAX_JOB_ATTEMPTS due (jobs s) with
  | Err e => (Err e, s)
  | Ok (reclaimed, t) =>
      (Ok (length reclaimed),
       foldl (fun s row => publish_job_head (stamp (fst row)) (fst row) s) (set_jobs t s) reclaimed)
  end.

(** What filing the ask came to. *)
Inductive AskResult := AskApplied | AskDuplicate | AskRefused | AskFailed.

(** [escalate]: the slot is taken before the ask is filed, and given back when
    filing fails. *)
Definition escalate (now later : Instant) (key : Key) (ask : string) (filed : AskResult) (s : Relay)
    : option bool * Relay :=
  match record_escalation ask now key (jobs s) with
  | Err _ => (None, s)
  | Ok (None, _) => (Some false, s)
  | Ok (Some _, t) =>
      let s := set_jobs t s in
      match filed with
      | AskApplied => (Some true, s)
      | AskDuplicate => (Some false, s)
      | AskRefused | AskFailed =>
          (None, match clear_escalation later key (jobs s) with
                 | Ok (_, t) => set_jobs t s
                 | Err _ => s
                 end)
      end
  end.
End Broker.
