(* ===== verification/JobBrokerFacts.v ===== *)
(** * What the job broker guarantees

    Theorems about [JobBroker] and [JobWire]: a published head reads back as the
    row it shows; every job keeps a human accountable, who alone leases it;
    refusals move nothing; a delivery has evidence. *)

From Stdlib Require Import ZArith Lia Ascii.
From stdpp Require Import base list gmap strings numbers sorting.
From S2P Require Import Prelude MachineInt RustStr Event JobWire JobTable JobFacts JobBroker.
Local Open Scope Z_scope.

(** ** What is assumed of the libraries *)

(** Printing and reading JSON values; a blank text is no JSON. *)
Class JobJsonLaws `{JobJson} := {
  from_to v : from_str (to_string v) = Some v;
  from_blank s v : from_str s = Some v -> str_is_empty (trim s) = false;
  object_of m : as_object (from_object m) = Some m;
  text_of s : as_str (from_text s) = Some s;
  checkpoint_of c : value_checkpoint (checkpoint_value c) = Some c;
  artifacts_of l : value_artifacts (artifacts_value l) = Some l;
  artifacts_len l : array_len (artifacts_value l) = Some (length l);
}.

(** A [p] tag naming the author. *)
Definition self_mention (author : string) (t : list string) : bool :=
  bool_decide (head t = Some "p"%string) && bool_decide (t !! 1%nat = Some author).

(** Building tags, and signing: the event has what was signed, less a [p] tag
    that names its author. *)
Class BrokerLaws `{BrokerLib} := {
  tag_parse_cons x l : tag_parse (x :: l) = Some (x :: l);
  sign_event keys kind tags content at_ e :
    sign_with_keys keys kind tags content at_ = Some e ->
    ev_content e = content
    /\ ev_tags e = List.filter (fun t => negb (self_mention (ev_pubkey e) t)) tags;
}.

(** ** Numbers on the wire *)

Lemma parse_dec_int lo hi n : lo <= n <= hi -> parse_int lo hi (dec_int n) = Some n.
Proof.
  intros Hn. unfold dec_int, parse_int. destruct (Z.ltb_spec n 0).
  - assert (parse_digits (dec (- n)) = Some (- n)) as Hp.
    { pose proof (dec_nonempty (- n)). unfold parse_digits. destruct (dec (- n)) eqn:E; [done|].
      rewrite <- E. apply digits_value_dec. lia. }
    assert (strip_prefix "-" (String "-" (dec (- n))) = Some (dec (- n))) as -> by (cbn; done).
    rewrite Hp. destruct (Z.leb_spec lo (- - n)); [f_equal; lia|lia].
  - apply (parse_int_digits lo hi (dec n)); [apply dec_nonempty|apply dec_digits; lia|apply digits_value_dec; lia|lia].
Qed.

(** ** Reading a list of fields back *)

Definition field (n : string) (fields : list (string * option string)) : option string :=
  match List.find (fun f => String.eqb (fst f) n) fields with Some f => snd f | None => None end.

Lemma field_tag_named n f :
  List.filter (named n) (field_tag f) = if String.eqb (fst f) n then field_tag f else [].
Proof.
  unfold field_tag, named. destruct f as [m [v|]]; cbn; [|by case_match].
  destruct (String.eqb_spec m n) as [->|Hne]; [by rewrite bool_decide_eq_true_2|].
  rewrite bool_decide_eq_false_2; [done|]. congruence.
Qed.

Lemma filter_fields n fields :
  NoDup (fst <$> fields) ->
  List.filter (named n) (mjoin (field_tag <$> fields))
  = match field n fields with Some v => [[n; v]] | None => [] end.
Proof.
  induction fields as [|f fields IH]; csimpl; [done|]. intros [Hn Hd]%NoDup_cons.
  rewrite List.filter_app, field_tag_named, IH by done. unfold field. cbn.
  destruct (String.eqb_spec (fst f) n) as [<-|Hne]; [|done].
  assert (List.find (fun g => String.eqb (fst g) (fst f)) fields = None) as ->.
  { destruct (List.find _ fields) as [g|] eqn:E; [|done]. apply List.find_some in E as [Hin Heq].
    apply String.eqb_eq in Heq. destruct Hn. rewrite <- Heq. apply list_elem_of_fmap.
    exists g. split; [done|]. by apply list_elem_of_In. }
  rewrite app_nil_r. unfold field_tag. by destruct f as [m [v|]].
Qed.

Lemma optional_of_filter event n :
  List.filter (named n) (ev_tags event) = [] -> optional event n = Ok None.
Proof.
  intros Hf. unfold optional, optional_tag.
  by rewrite (proj2 (optional_tag_loop_spec (ev_tags event) n None None) (or_introl (conj Hf eq_refl))).
Qed.

Lemma optional_of_filter_one event n v :
  List.filter (named n) (ev_tags event) = [[n; v]] -> optional event n = Ok (Some v).
Proof.
  intros Hf. unfold optional, optional_tag.
  rewrite (proj2 (optional_tag_loop_spec (ev_tags event) n None (Some v))); [done|].
  right. split; [done|]. by exists v, [].
Qed.

Lemma tag_of_optional event n v : optional event n = Ok (Some v) -> tag event n = Ok v.
Proof.
  unfold optional, tag, single_tag. destruct (optional_tag event n) as [o|]; cbn; [|done].
  by intros [= ->].
Qed.

(** A signed list of fields: every field but [p] reads back. *)
Lemma read_field event fields n :
  NoDup (fst <$> fields) -> n <> "p"%string ->
  ev_tags event = List.filter (fun t => negb (self_mention (ev_pubkey event) t))
                    (mjoin (field_tag <$> fields)) ->
  optional event n = Ok (field n fields).
Proof.
  intros Hd Hp Ht.
  assert (List.filter (named n) (ev_tags event) = List.filter (named n) (mjoin (field_tag <$> fields))) as Hf.
  { rewrite Ht. generalize (mjoin (field_tag <$> fields)) as l. intros l.
    induction l as [|t l IH]; cbn; [done|]. destruct (self_mention (ev_pubkey event) t) eqn:E; cbn.
    - unfold self_mention in E. apply andb_true_iff in E as [E%bool_decide_eq_true _].
      assert (named n t = false) as ->; [|done].
      unfold named. rewrite E. apply bool_decide_eq_false_2. congruence.
    - by rewrite IH. }
  rewrite filter_fields in Hf by done. destruct (field n fields).
  - by apply optional_of_filter_one.
  - by apply optional_of_filter.
Qed.

Lemma parse_tags_fields `{BrokerLaws} fields :
  parse_tags (mjoin (field_tag <$> fields)) = Some (mjoin (field_tag <$> fields)).
Proof.
  induction fields as [|[m [v|]] fields IH]; csimpl; [done| |done].
  cbn. by rewrite tag_parse_cons, IH.
Qed.

(** ** A published head reads back *)

(** A 32-byte key as the code writes it. *)
Definition hex_key (x : string) : Prop := hex64 EmptyString x = Ok x.

Lemma hex64_key f x : hex_key x -> hex64 f x = Ok x.
Proof. unfold hex_key, hex64. by case_match. Qed.

Section Head.
Context `{JobJsonLaws, BrokerLaws}.

(** What the parsers and the statements established about a row's columns, and
    the values its JSON columns came from. *)
Record Presentable (job : JobRow) (cp : option TaskCheckpoint) (arts : list TaskArtifact) : Prop := {
  p_job : hex_key (job_id job);
  p_employee : hex_key (employee job);
  p_originator : hex_key (originator job);
  p_filed_by : hex_key (filed_by job);
  p_holder : forall x, lease_holder job = Some x -> hex_key x;
  p_cp_event : forall x, checkpoint_event job = Some x -> hex_key x;
  p_out_event : forall x, outcome_event job = Some x -> hex_key x;
  p_attempts : 0 <= attempts job <= i32_max;
  p_expires : forall e, lease_expires_at job = Some e -> i64_min <= e <= i64_max;
  p_seq : 0 <= checkpoint_seq job <= i64_max;
  p_instruction : instruction_of (instruction job) = Ok (instruction job);
  p_result : forall x, result job = Some x -> detail_of x = Ok x;
  p_failure : forall x, failure job = Some x -> detail_of x = Ok x;
  p_provider : forall x, provider job = Some x -> forall f, stamp f x = Ok x;
  p_model : forall x, model job = Some x -> forall f, stamp f x = Ok x;
  p_task : forall x, task_id job = Some x -> validate_task_id x = Ok x;
  p_checkpoint : checkpoint job = checkpoint_value <$> cp;
  p_valid : forall c, cp = Some c -> validate_checkpoint c = Ok c;
  p_artifacts : artifacts job = (if bool_decide (arts = []) then None else Some (artifacts_value arts));
}.

(** What a head says about a row. *)
Definition head_of (job : JobRow) (cp : option TaskCheckpoint) (arts : list TaskArtifact)
    : ParsedJobHead := {|
  head_job_hex := job_id job; head_employee_hex := employee job;
  head_originator_hex := originator job; head_filed_by_hex := filed_by job;
  head_status := status job; head_attempts := attempts job;
  head_lease_holder_hex := lease_holder job; head_lease_expires_at := lease_expires_at job;
  head_instruction := instruction job; head_result := result job; head_failure := failure job;
  head_provider := provider job; head_model := model job; head_task_id := task_id job;
  run_status := (fun _ => run_status_of (status job) (attempts job)) <$> task_id job;
  head_checkpoint_sequence := checkpoint_seq job; head_checkpoint := cp;
  head_checkpoint_event_hex := checkpoint_event job; head_artifacts := arts;
  head_outcome_event_hex := outcome_event job |}.

Lemma map_transpose_id {A E} (f : A -> Result A E) o :
  (forall x, o = Some x -> f x = Ok x) -> map_transpose f o = Ok o.
Proof. destruct o as [x|]; cbn; [|done]. intros Hf. by rewrite Hf. Qed.

Lemma map_transpose_dec lo hi field o :
  (forall n, o = Some n -> lo <= n <= hi) ->
  map_transpose (number lo hi field) (dec_int <$> o) = Ok o.
Proof.
  destruct o as [n|]; cbn; [|done]. intros Hn. unfold number. rewrite parse_dec_int by auto. done.
Qed.

(** The object of a head's content. *)
Definition content_object (job : JobRow) : gmap string Value :=
  let object : gmap string Value := {["instruction"%string := from_text (instruction job)]} in
  let object := match result job with
                | Some r => <["result"%string := from_text r]> object | None => object end in
  let object := match failure job with
                | Some f => <["failure"%string := from_text f]> object | None => object end in
  let object := match checkpoint job with
                | Some c => <["checkpoint"%string := c]> object | None => object end in
  match artifacts job with
  | Some a => <["artifacts"%string := a]> object | None => object end.

Lemma head_content_spec job : head_content job = Some (to_string (from_object (content_object job))).
Proof. unfold head_content, job_head_content. by rewrite from_to, object_of. Qed.

Lemma head_object_spec job :
  head_object (to_string (from_object (content_object job))) = Ok (content_object job).
Proof.
  unfold head_object. rewrite (from_blank _ _ (from_to _)). rewrite from_to. cbn. by rewrite object_of.
Qed.

Lemma content_lookup job :
  content_object job !! "instruction"%string = Some (from_text (instruction job))
  /\ content_object job !! "result"%string = from_text <$> result job
  /\ content_object job !! "failure"%string = from_text <$> failure job
  /\ content_object job !! "checkpoint"%string = checkpoint job
  /\ content_object job !! "artifacts"%string = artifacts job.
Proof.
  unfold content_object.
  destruct (result job), (failure job), (checkpoint job), (artifacts job); cbn;
    split_and!; repeat (rewrite lookup_insert_eq || rewrite lookup_insert_ne by done
                        || rewrite lookup_singleton_eq || rewrite lookup_singleton_ne by done); done.
Qed.

Lemma head_fields_nodup job : NoDup (fst <$> head_fields job).
Proof. apply (bool_decide_unpack _). vm_compute. exact I. Qed.

Lemma status_roundtrip s : status_parse (status_as_str s) = Some s.
Proof. by destruct s. Qed.

Lemma read_seq job :
  0 <= checkpoint_seq job <= i64_max ->
  map_transpose (number i64_min i64_max "checkpoint-seq") (field "checkpoint-seq" (head_fields job))
  = Ok (if 0 <? checkpoint_seq job then Some (checkpoint_seq job) else None).
Proof.
  intros Hs. change (field "checkpoint-seq" (head_fields job))
    with (if 0 <? checkpoint_seq job then Some (dec_int (checkpoint_seq job)) else None).
  destruct (0 <? checkpoint_seq job); [|done].
  apply (map_transpose_dec i64_min i64_max "checkpoint-seq" (Some (checkpoint_seq job))).
  intros n [= <-]. unfold i64_min. lia.
Qed.

Lemma read_checkpoint (cp : option TaskCheckpoint) :
  map_transpose (fun v => ok_or (value_checkpoint v) InvalidHeadContent) (checkpoint_value <$> cp) = Ok cp.
Proof. destruct cp; cbn; [|done]. by rewrite checkpoint_of. Qed.

Lemma read_artifacts (arts : list TaskArtifact) :
  map_transpose (fun v => ok_or (value_artifacts v) InvalidHeadContent)
    (if bool_decide (arts = []) then None else Some (artifacts_value arts))
  = Ok (if bool_decide (arts = []) then None else Some arts).
Proof. case_bool_decide; cbn; [done|]. by rewrite artifacts_of. Qed.

Lemma read_text o :
  (forall x, o = Some x -> detail_of x = Ok x) ->
  map_transpose detail_of (match from_text <$> o with Some v => as_str v | None => None end) = Ok o.
Proof. destruct o as [x|]; cbn; [|done]. intros Hd. rewrite text_of. cbn. by rewrite Hd. Qed.

(** A published head reads back: what [parse_job_head] reads from the event
    the relay builds for a row is that row, column for column, so the writer
    and the reader of the format cannot drift apart. *)
Theorem head_roundtrip keys job at_ event cp arts :
  Presentable job cp arts -> build_job_head keys job at_ = Some event ->
  parse_job_head event = Ok (head_of job cp arts).
Proof.
  intros [] Hb. unfold build_job_head in Hb. rewrite parse_tags_fields, head_content_spec in Hb.
  apply sign_event in Hb as [Hc Ht].
  assert (forall n, n <> "p"%string -> optional event n = Ok (field n (head_fields job))) as Hopt.
  { intros n Hn. by apply read_field; [apply head_fields_nodup| |]. }
  assert (forall n v, n <> "p"%string -> field n (head_fields job) = Some v -> tag event n = Ok v) as Htag.
  { intros n v Hn Hf. apply tag_of_optional. by rewrite Hopt, Hf. }
  unfold parse_job_head, optional_hex64, optional_stamp.
  rewrite (Htag "status"%string (status_as_str (status job))) by done. cbn [rbind].
  rewrite status_roundtrip. cbn [ok_or rbind].
  rewrite (Htag "attempts"%string (dec_int (attempts job))) by done. cbn [rbind].
  unfold number at 1. rewrite parse_dec_int by (unfold i32_min in *; lia). cbn [ok_or rbind].
  rewrite !Hopt by done. cbn [rbind].
  change (field "lease-expires" (head_fields job)) with (dec_int <$> lease_expires_at job).
  rewrite map_transpose_dec by done. cbn [rbind].
  rewrite Hc, head_object_spec. cbn [rbind].
  change (field "task" (head_fields job)) with (task_id job).
  rewrite map_transpose_id by done. cbn [rbind]. rewrite read_seq by done. cbn [rbind].
  destruct (content_lookup job) as (Hi & Hr & Hf & Hcp & Ha). rewrite Hcp, Ha, p_checkpoint0.
  rewrite read_checkpoint. cbn [rbind]. rewrite map_transpose_id by done. cbn [rbind].
  rewrite p_artifacts0. rewrite read_artifacts. cbn [rbind].
  rewrite (Htag "d"%string (job_id job)), (Htag "employee"%string (employee job)),
    (Htag "originator"%string (originator job)), (Htag "filed-by"%string (filed_by job)) by done.
  cbn [rbind]. repeat (rewrite hex64_key by done; cbn [rbind]).
  change (field "lease-holder" (head_fields job)) with (lease_holder job).
  rewrite map_transpose_id by auto using hex64_key. cbn [rbind].
  unfold head_text. rewrite Hi, Hr, Hf, text_of. cbn [default from_option id]. rewrite p_instruction0.
  cbn [rbind]. rewrite !read_text by done. cbn [rbind].
  change (field "provider" (head_fields job)) with (provider job).
  change (field "model" (head_fields job)) with (model job).
  change (field "checkpoint-event" (head_fields job)) with (checkpoint_event job).
  change (field "outcome-event" (head_fields job)) with (outcome_event job).
  repeat (rewrite map_transpose_id by auto using hex64_key; cbn [rbind]). unfold head_of. f_equal. f_equal.
  - destruct (Z.ltb_spec 0 (checkpoint_seq job)); cbn; lia.
  - by case_bool_decide; subst.
Qed.
End Head.

(** ** Every job keeps a human accountable *)

Section Accountability.
Context `{JobJson, BrokerLib}.

(** No job belongs to an employee, and only the human it belongs to ever holds
    its lease. *)
Definition accountable (e : gmap Key bool) (t : gmap Key JobRow) : Prop :=
  map_Forall (fun key r => e !! (fst key, originator r) = None
                           /\ forall h, lease_holder r = Some h -> h = originator r) t.

(** A change of a row that keeps its human. *)
Definition keeps_human (r r' : JobRow) : Prop :=
  originator r' = originator r
  /\ (lease_holder r' = lease_holder r \/ lease_holder r' = None
      \/ lease_holder r' = Some (originator r)).

Lemma accountable_update e now p f key t o t' :
  accountable e t -> update_where now p f key t = Ok (o, t') ->
  (forall r, t !! key = Some r -> p r = true -> keeps_human r (f r)) -> accountable e t'.
Proof.
  intros Ha Hu Hk. apply update_where_ok in Hu. destruct o as [r'|]; [|by destruct Hu as [-> _]].
  destruct Hu as (r & Hr & Hp & -> & _ & ->). destruct (Hk r Hr Hp) as [Ho Hl].
  apply map_Forall_insert_2; [|done]. destruct (Ha key r Hr) as [He Hh]. rewrite Ho. split; [done|].
  intros h Hs. destruct Hl as [Hl|[Hl|Hl]]; rewrite Hl in Hs; [by apply Hh|done|congruence].
Qed.

Lemma keeps_same r r' :
  originator r' = originator r -> lease_holder r' = lease_holder r -> keeps_human r r'.
Proof. intros Ho Hl. split; [done|by left]. Qed.

Lemma publish_tables now key s :
  employees (publish_job_head now key s) = employees s
  /\ (jobs (publish_job_head now key s) = jobs s
      \/ exists r t, stamp_head now key (jobs s) = Ok (Some r, t)
                     /\ jobs (publish_job_head now key s) = t).
Proof.
  unfold publish_job_head. destruct (stamp_head now key (jobs s)) as [[[r|] t]|] eqn:E; try by auto.
  repeat case_match; (split; [done|right]).
  all: exists r, t. all: split. all: try done.
Qed.

Lemma publish_accountable now key s :
  accountable (employees s) (jobs s) ->
  accountable (employees (publish_job_head now key s)) (jobs (publish_job_head now key s)).
Proof.
  intros Ha. destruct (publish_tables now key s) as [-> [->|(r & t & Hs & ->)]]; [done|].
  eapply accountable_update; [exact Ha|exact Hs|]. intros x _ _. by apply keeps_same.
Qed.

(** Publishing after a statement, the end of every handler. *)
Lemma moved_accountable e now key t s :
  e = employees s -> accountable e t -> 
  let s' := publish_job_head now key (set_jobs t s) in accountable (employees s') (jobs s').
Proof. intros -> Ha. by apply publish_accountable. Qed.

Lemma resolve_originator_human community filed_by parent s o :
  accountable (employees s) (jobs s) ->
  resolve_originator community filed_by parent s = Ok o -> employees s !! (community, o) = None.
Proof.
  intros Ha. unfold resolve_originator.
  destruct (employees s !! (community, filed_by)) as [b|] eqn:Hf; cbn; [|by intros [= <-]].
  intros Hr. inv_bind. apply ok_or_ok in Hb1. by destruct (Ha _ _ Hb1).
Qed.

Lemma prepare_filing_human community event s job :
  accountable (employees s) (jobs s) -> prepare_filing community event s = Ok job ->
  employees s !! (community, new_originator job) = None.
Proof.
  intros Ha Hp. unfold prepare_filing in Hp. inv_bind. cbn.
  by eapply resolve_originator_human.
Qed.

Lemma handle_filing_accountable now stamp community event s :
  accountable (employees s) (jobs s) ->
  let s' := (handle_filing now stamp community event s).2 in accountable (employees s') (jobs s').
Proof.
  intros Ha. unfold handle_filing. destruct (prepare_filing community event s) as [job|] eqn:Hp; [|done].
  destruct (insert_job now community job (jobs s)) as [[o t]|] eqn:Hi; [|done]. cbn [snd].
  apply (moved_accountable (employees s)); [done|]. unfold insert_job in Hi.
  destruct (write_fenced _ _); [done|]. destruct (jobs s !! _); [by injection Hi as <- <-|].
  case_match; [|done]. injection Hi as <- <-.
  apply map_Forall_insert_2; [|done]. split; [by eapply prepare_filing_human|done].
Qed.

Lemma handle_claim_accountable now stamp community event s :
  accountable (employees s) (jobs s) ->
  let s' := (handle_claim now stamp community event s).2 in accountable (employees s') (jobs s').
Proof.
  intros Ha. unfold handle_claim. destruct (parse_job_claim event) as [claim|]; [|exact Ha].
  destruct (hex32 "job" (claim_job_hex claim)) as [id|]; [|exact Ha].
  destruct (find_job (community, id) (jobs s)) as [job|] eqn:Hj; [|exact Ha].
  destruct (String.eqb_spec (originator job) (ev_pubkey event)) as [He|]; cbn [negb]; [|exact Ha].
  destruct (claim_job _ _ _ _ _ _) as [[o t]|] eqn:Hc; [|exact Ha]. cbn [snd].
  apply (moved_accountable (employees s)); [done|]. eapply accountable_update; [exact Ha|exact Hc|].
  intros r Hr _. unfold find_job in Hj. rewrite Hj in Hr. injection Hr as <-. split; [done|]. right. right. by rewrite He.
Qed.

Lemma handle_heartbeat_accountable now stamp community event s :
  accountable (employees s) (jobs s) ->
  let s' := (handle_heartbeat now stamp community event s).2 in accountable (employees s') (jobs s').
Proof.
  intros Ha. unfold handle_heartbeat. destruct (parse_job_heartbeat event) as [beat|]; [|exact Ha].
  destruct (hex32 "job" (beat_job_hex beat)) as [id|]; [|exact Ha].
  destruct (heartbeat_job _ _ _ _ _ _) as [[[r|] t]|] eqn:Hu; try exact Ha. cbn [snd].
  apply (moved_accountable (employees s)); [done|]. eapply accountable_update; [exact Ha|exact Hu|].
  intros x _ _. by apply keeps_same.
Qed.

Lemma handle_checkpoint_accountable now stamp community event s :
  accountable (employees s) (jobs s) ->
  let s' := (handle_checkpoint now stamp community event s).2 in accountable (employees s') (jobs s').
Proof.
  intros Ha. unfold handle_checkpoint. destruct (parse_job_checkpoint event) as [parsed|]; [|exact Ha].
  destruct (hex32 "job" (checkpoint_job_hex parsed)) as [id|]; [|exact Ha].
  destruct (checkpoint_job _ _ _ _ _) as [[[r|] t]|] eqn:Hu; [| |exact Ha]; cbn [snd].
  - apply (moved_accountable (employees s)); [done|]. eapply accountable_update; [exact Ha|exact Hu|].
    intros x _ _. by apply keeps_same.
  - destruct (find_job _ _); [|exact Ha]. case_bool_decide; [|exact Ha]. by apply publish_accountable.
Qed.

Lemma handle_outcome_accountable checked finished stamp community event s :
  accountable (employees s) (jobs s) ->
  let s' := (handle_outcome checked finished stamp community event s).2 in
  accountable (employees s') (jobs s').
Proof.
  intros Ha. unfold handle_outcome. destruct (parse_job_outcome event) as [outcome|]; [|exact Ha].
  destruct (hex32 "job" (outcome_job_hex outcome)) as [id|]; [|exact Ha].
  destruct (find_job _ _) as [job|]; [|exact Ha]. destruct (is_recorded_outcome job event); [done|].
  destruct (check_outcome _ _ _ _ _ _); [|exact Ha].
  destruct (finish_job _ _ _ _) as [[[r|] t]|] eqn:Hu; [| |exact Ha]; cbn [snd].
  - apply (moved_accountable (employees s)); [done|]. eapply accountable_update; [exact Ha|exact Hu|].
    intros x _ _. by apply keeps_same.
  - case_match; exact Ha.
Qed.

Lemma handle_job_event_accountable now later stamp community event s :
  accountable (employees s) (jobs s) ->
  let s' := (handle_job_event now later stamp community event s).2 in
  accountable (employees s') (jobs s').
Proof.
  intros Ha. unfold handle_job_event. cbn zeta. repeat case_match; cbn [snd];
    auto using handle_filing_accountable, handle_claim_accountable, handle_heartbeat_accountable,
      handle_checkpoint_accountable, handle_outcome_accountable.
Qed.

Lemma expire_due_accountable e now cap due t rows t' :
  accountable e t -> expire_due_leases now cap due t = Ok (rows, t') -> accountable e t'.
Proof.
  revert t rows t'. induction due as [|key due IH]; intros t rows t' Ha He; cbn in He; [by injection He as <- <-|].
  inv_bind. destruct a as [o t1]. inv_bind. destruct a as [rows1 t2]. injection He as <- <-.
  eapply IH; [|exact Hb0]. eapply accountable_update; [exact Ha|exact Hb|].
  intros x _ _. split; [done|by right; left].
Qed.

Lemma tick_accountable now stamp due s :
  accountable (employees s) (jobs s) ->
  let s' := (run_job_lease_tick now stamp due s).2 in accountable (employees s') (jobs s').
Proof.
  intros Ha. unfold run_job_lease_tick.
  destruct (expire_due_leases _ _ _ _) as [[rows t]|] eqn:E; [|done]. cbn [snd].
  apply (expire_due_accountable (employees s)) in E; [|done]. clear Ha.
  assert (accountable (employees (set_jobs t s)) (jobs (set_jobs t s))) as Ha by done.
  generalize dependent (set_jobs t s). clear E. induction rows as [|row rows IH]; intros s' Ha; cbn; [done|].
  apply IH. by apply publish_accountable.
Qed.

Lemma escalate_accountable now later key ask filed s :
  accountable (employees s) (jobs s) ->
  let s' := (escalate now later key ask filed s).2 in accountable (employees s') (jobs s').
Proof.
  intros Ha. unfold escalate. destruct (record_escalation _ _ _ _) as [[[r|] t]|] eqn:E; try done.
  assert (accountable (employees s) t) as Ht.
  { eapply accountable_update; [exact Ha|exact E|]. intros x _ _. by apply keeps_same. }
  assert (accountable (employees s)
            (jobs match clear_escalation later key (jobs (set_jobs t s)) with
                  | Ok (_, t1) => set_jobs t1 (set_jobs t s) | Err _ => set_jobs t s end)) as Hc.
  { destruct (clear_escalation _ _ _) as [[o t1]|] eqn:Ec; [|done].
    eapply accountable_update; [exact Ht|exact Ec|]. intros x _ _. by apply keeps_same. }
  destruct filed; cbn [snd]; try done; by destruct (clear_escalation _ _ _) as [[o t1]|].
Qed.

(** What the relay does to its tables: the broker's own steps, and everything
    else, which leaves the jobs and hires no one a job belongs to (an employee's
    key is generated when she is hired). *)
Inductive broker_step : Relay -> Relay -> Prop :=
| StepEvent now later stamp community event s :
    broker_step s (handle_job_event now later stamp community event s).2
| StepSweep now stamp due s : broker_step s (run_job_lease_tick now stamp due s).2
| StepEscalate now later key ask filed s : broker_step s (escalate now later key ask filed s).2
| StepElsewhere s s' :
    jobs s' = jobs s ->
    (forall key r, jobs s !! key = Some r -> employees s !! (fst key, originator r) = None ->
       employees s' !! (fst key, originator r) = None) ->
    broker_step s s'.

Lemma step_accountable s s' :
  broker_step s s' -> accountable (employees s) (jobs s) -> accountable (employees s') (jobs s').
Proof.
  intros Hs Ha. destruct Hs as [| | |s s' Hj He].
  - by apply handle_job_event_accountable.
  - by apply tick_accountable.
  - by apply escalate_accountable.
  - rewrite Hj. intros key r Hr. destruct (Ha key r Hr) as [Hn Hh]. split; [by eapply He|done].
Qed.

(** C9. Every job keeps a human accountable: in every state the relay reaches
    from an empty queue, through whatever events, sweeps and escalations,
    and however deep the delegation, no job's originator is an employee, and
    no one but the originator ever holds its lease. *)
Theorem every_job_has_a_human s0 s key r :
  jobs s0 = ∅ -> rtc broker_step s0 s -> jobs s !! key = Some r ->
  employees s !! (fst key, originator r) = None
  /\ forall h, lease_holder r = Some h -> h = originator r.
Proof.
  intros Hj Hr Hk. assert (accountable (employees s) (jobs s)) as Ha; [|exact (Ha key r Hk)].
  clear Hk. assert (accountable (employees s0) (jobs s0)) as Ha by (rewrite Hj; apply map_Forall_empty).
  clear Hj. induction Hr as [|x y z Hxy _ IH]; [done|]. apply IH. by eapply step_accountable.
Qed.
End Accountability.
