(* ===== verification/JobDelivery.v ===== *)
(** * What a job's delivery proves

    Theorems about the handlers of [JobBroker]: an event they refuse or ignore
    moves nothing, a delivery of Task work carries its evidence, and an outcome
    sent twice is recorded once. *)

From Stdlib Require Import ZArith Lia Ascii.
From stdpp Require Import base list gmap strings numbers sorting.
From S2P Require Import Prelude MachineInt RustStr Event JobWire JobTable JobFacts JobBroker JobBrokerFacts.
Local Open Scope Z_scope.

Section Delivery.
Context `{JobJson, BrokerLib}.

(** ** Refusals *)

(** The answers that leave the relay as it was. *)
Definition leaves_alone (r : Result JobOutcome JobEventError) : bool :=
  match r with
  | Err _ | Ok LeaseGone | Ok CheckpointIgnored | Ok OutcomeIgnored => true
  | Ok _ => false
  end.

Lemma handle_filing_refused now stamp community event s :
  leaves_alone (handle_filing now stamp community event s).1 = true ->
  (handle_filing now stamp community event s).2 = s.
Proof.
  unfold handle_filing. destruct (prepare_filing community event s) as [job|]; [|done].
  destruct (insert_job _ _ _ _) as [[[r|] t]|]; done.
Qed.

Lemma handle_claim_refused now stamp community event s :
  leaves_alone (handle_claim now stamp community event s).1 = true ->
  (handle_claim now stamp community event s).2 = s.
Proof.
  unfold handle_claim. destruct (parse_job_claim event) as [claim|]; [|done].
  destruct (hex32 "job" (claim_job_hex claim)) as [id|]; [|done].
  destruct (find_job (community, id) (jobs s)) as [job|]; [|done].
  destruct (negb _); [done|]. destruct (claim_job _ _ _ _ _ _) as [[[r|] t]|]; done.
Qed.

Lemma handle_heartbeat_refused now stamp community event s :
  leaves_alone (handle_heartbeat now stamp community event s).1 = true ->
  (handle_heartbeat now stamp community event s).2 = s.
Proof.
  unfold handle_heartbeat. destruct (parse_job_heartbeat event) as [beat|]; [|done].
  destruct (hex32 "job" (beat_job_hex beat)) as [id|]; [|done].
  destruct (heartbeat_job _ _ _ _ _ _) as [[[r|] t]|]; done.
Qed.

Lemma handle_checkpoint_refused now stamp community event s :
  leaves_alone (handle_checkpoint now stamp community event s).1 = true ->
  (handle_checkpoint now stamp community event s).2 = s.
Proof.
  unfold handle_checkpoint. destruct (parse_job_checkpoint event) as [parsed|]; [|done].
  destruct (hex32 "job" (checkpoint_job_hex parsed)) as [id|]; [|done].
  destruct (checkpoint_job _ _ _ _ _) as [[[r|] t]|]; [done| |done].
  destruct (find_job (community, id) (jobs s)) as [job|]; [|done]. by case_bool_decide.
Qed.

Lemma handle_outcome_refused checked finished stamp community event s :
  leaves_alone (handle_outcome checked finished stamp community event s).1 = true ->
  (handle_outcome checked finished stamp community event s).2 = s.
Proof.
  unfold handle_outcome. destruct (parse_job_outcome event) as [outcome|]; [|done].
  destruct (hex32 "job" (outcome_job_hex outcome)) as [id|]; [|done].
  destruct (find_job (community, id) (jobs s)) as [job|] eqn:Hj; [|done].
  destruct (is_recorded_outcome job event); [done|]. destruct (check_outcome _ _ _ _ _ _); [|done].
  destruct (finish_job _ _ _ _) as [[[r|] t]|]; [done| |done].
  by destruct (is_recorded_outcome job event).
Qed.

(** A refused event moves nothing: when the relay answers a job event with
    an error, a lost lease, an ignored checkpoint or an ignored outcome, no
    table has changed and no head was published. *)
Theorem refused_moves_nothing now later stamp community event s :
  leaves_alone (handle_job_event now later stamp community event s).1 = true ->
  (handle_job_event now later stamp community event s).2 = s.
Proof.
  unfold handle_job_event. cbn zeta. repeat case_match; auto using handle_filing_refused,
    handle_claim_refused, handle_heartbeat_refused, handle_checkpoint_refused, handle_outcome_refused.
Qed.

(** ** Evidence *)

(** The references to check: every event artifact once, folded to lower case. *)
Lemma unique_references_complete l seen refs a :
  unique_references l seen = Ok refs -> a ∈ l ->
  to_ascii_lowercase (reference a) ∈ refs \/ to_ascii_lowercase (reference a) ∈ seen.
Proof.
  revert seen refs. induction l as [|b l IH]; intros seen refs Hu Ha; [by apply not_elem_of_nil in Ha|].
  cbn in Hu. apply elem_of_cons in Ha. case_bool_decide as Hs.
  - destruct Ha as [->|Ha]; [by right|]. by eapply IH.
  - inv_bind. destruct Ha as [->|Ha]; [left; by left|].
    destruct (IH _ _ Hb0 Ha) as [Hin|Hin]; [left; by right|].
    apply elem_of_cons in Hin as [->|Hin]; [left; by left|by right].
Qed.

(** No reference is checked twice. *)
Lemma unique_references_nodup l seen refs :
  unique_references l seen = Ok refs -> NoDup refs /\ forall x, x ∈ refs -> x ∉ seen.
Proof.
  revert seen refs. induction l as [|b l IH]; intros seen refs Hu; cbn in Hu.
  { injection Hu as <-. split; [constructor|]. intros x Hx. by apply not_elem_of_nil in Hx. }
  case_bool_decide as Hs; [by eapply IH|]. inv_bind. destruct (IH _ _ Hb0) as [Hd Hn]. split.
  - constructor; [|done]. intros Hin. apply (Hn _ Hin). by left.
  - intros x [->|Hx]%elem_of_cons Hxs; [done|]. apply (Hn _ Hx). by right.
Qed.

(** One tag of that name, with that value and nothing more. *)
Definition exact_tag (event : Event) (name value : string) : Prop :=
  List.filter (named name) (ev_tags event) = [[name; value]].

Lemma require_exact_ok event name expected label reference u :
  require_exact_artifact_tag event name expected label reference = Ok u ->
  exact_tag event name expected.
Proof.
  unfold require_exact_artifact_tag, exact_tag.
  destruct (List.filter (named name) (ev_tags event)) as [|t [|]] eqn:Hf; try done.
  2: { destruct t as [|? [|? [|]]]; done. }
  destruct t as [|x [|v [|]]]; try done. destruct (String.eqb_spec v expected) as [->|]; [|done].
  intros _. assert (In [x; expected] (List.filter (named name) (ev_tags event))) as Hin
    by (rewrite Hf; by left).
  apply List.filter_In in Hin as [_ Hn]. unfold named in Hn. apply bool_decide_eq_true in Hn.
  by injection Hn as ->.
Qed.

(** What an event artifact must be: an event the relay stores and verified,
    signed by the worker, of a content kind, in the run's channel and thread,
    naming this Task, this job and this attempt. *)
Record Evidence (community : string) (s : Relay) (job : JobRow) (task worker : string) (attempt : Z)
    (ref : string) : Prop := {
  evidence_stored : exists st, stored_events s !! (community, ref) = Some st
    /\ ev_id (stored_event st) = to_ascii_lowercase ref
    /\ verified st = true /\ verify_id (stored_event st) = true
    /\ verify_signature (stored_event st) = true
    /\ ev_kind (stored_event st) ∈ TASK_ARTIFACT_EVENT_KINDS
    /\ ev_pubkey (stored_event st) = worker
    /\ (exists c th meta, channel_id job = Some c /\ stored_channel st = Some c
          /\ thread job = Some th /\ threads s !! (community, ev_id (stored_event st)) = Some meta
          /\ thread_channel meta = c /\ root_event_id meta = Some th)
    /\ exact_tag (stored_event st) "task" task
    /\ exact_tag (stored_event st) "job" (job_id job)
    /\ exact_tag (stored_event st) "attempt" (dec_int attempt);
}.

Lemma validate_artifact_ok community s job task worker attempt ref u :
  validate_task_event_artifact ref (stored_events s !! (community, ref))
    (match stored_events s !! (community, ref) with
     | Some st => threads s !! (community, ev_id (stored_event st)) | None => None end)
    job task worker attempt = Ok u ->
  Evidence community s job task worker attempt ref.
Proof.
  unfold validate_task_event_artifact. intros Hv.
  destruct (stored_events s !! (community, ref)) as [st|] eqn:Hs; [|done]. cbn [ok_or rbind] in Hv.
  inv_bind. apply ok_or_ok in Hb, Hb0, Hb1.
  rewrite !orb_false_iff, !negb_false_iff in *. destruct_and!.
  rewrite ?bool_decide_eq_true, ?String.eqb_eq in *.
  split. exists st. split_and!; eauto using require_exact_ok. by exists a, a0, a1.
Qed.

(** What the checks before a Task delivery established. *)
Lemma check_outcome_ok checked community event outcome job s task u :
  check_outcome checked community event outcome job s = Ok u ->
  task_id job = Some task -> outcome_status outcome = Done ->
  outcome_artifacts outcome <> []
  /\ sql_ge (lease_expires_at job) checked = true
  /\ forall a, a ∈ outcome_artifacts outcome -> artifact_kind a = ArtifactEvent ->
       Evidence community s job task (ev_pubkey event) (outcome_attempt outcome)
         (to_ascii_lowercase (reference a)).
Proof.
  intros Hc Ht Hd. unfold check_outcome in Hc. rewrite Ht, Hd in Hc. cbn in Hc.
  rewrite !bool_decide_eq_true_2 in Hc by done. cbn in Hc. inv_bind.
  apply bool_decide_eq_false in Hc0. split; [done|].
  unfold task_outcome_holds_current_lease in Hc1. rewrite negb_false_iff, andb_true_iff in Hc1.
  split; [by destruct Hc1|]. intros a Ha Hk. unfold validate_task_event_artifacts in Hc. inv_bind.
  unfold unique_task_event_references in Hb. inv_bind.
  destruct (unique_references_complete _ _ _ a Hb) as [Hin|Hin];
    [|  |by apply not_elem_of_nil in Hin].
  { apply list_elem_of_In, List.filter_In. split; [by apply list_elem_of_In|].
    by apply bool_decide_eq_true. }
  apply try_map_ok in Hb0. apply list_elem_of_lookup in Hin as [i Hi].
  destruct (Forall2_lookup_l _ _ _ _ _ Hb0 Hi) as (v & _ & Hv). by eapply validate_artifact_ok.
Qed.

(** The row of a job survives publishing its head, but for the stamp. *)
Lemma publish_lookup now key s r :
  jobs s !! key = Some r ->
  jobs (publish_job_head now key s) !! key = Some r
  \/ jobs (publish_job_head now key s) !! key = Some (with_stamp now r).
Proof.
  intros Hr. destruct (publish_tables now key s) as [_ [->|(r' & t & Hs & ->)]]; [by left|right].
  apply update_where_ok in Hs as (r0 & Hr0 & _ & -> & _ & ->). rewrite lookup_insert_eq. congruence.
Qed.

(** What recording an outcome found and left. *)
Lemma recorded_row checked finished stamp community event s s' :
  handle_outcome checked finished stamp community event s = (Ok Finished, s') ->
  exists outcome id job job' u,
    parse_job_outcome event = Ok outcome /\ hex32 "job" (outcome_job_hex outcome) = Ok id
    /\ jobs s !! (community, id) = Some job /\ jobs s' !! (community, id) = Some job'
    /\ check_outcome checked community event outcome job s = Ok u
    /\ holds_lease (ev_pubkey event) (outcome_attempt outcome) job = true
    /\ (negb (is_some (task_id job)) || sql_ge (lease_expires_at job) finished) = true
    /\ status job' = outcome_status outcome /\ outcome_event job' = Some (ev_id event)
    /\ artifacts job' =
         (if bool_decide (outcome_status outcome = Done) then
            if bool_decide (outcome_artifacts outcome = []) then None
            else Some (artifacts_value (outcome_artifacts outcome))
          else artifacts job).
Proof.
  intros Ho. unfold handle_outcome in Ho. destruct (parse_job_outcome event) as [outcome|]; [|done].
  destruct (hex32 "job" (outcome_job_hex outcome)) as [id|] eqn:Hid; [|done]. cbn zeta in Ho.
  destruct (find_job (community, id) (jobs s)) as [job|] eqn:Hj; [|done].
  destruct (is_recorded_outcome job event); [done|].
  destruct (check_outcome _ _ _ _ _ _) as [u|] eqn:Hc; [|done].
  destruct (finish_job _ _ _ _) as [[[r|] t]|] eqn:Hf; [| |done].
  2: { destruct (is_recorded_outcome job event); done. }
  injection Ho as <-. apply update_where_ok in Hf as (r0 & Hr0 & Hp & -> & _ & ->).
  unfold find_job in Hj. rewrite Hj in Hr0. injection Hr0 as <-.
  unfold finishable in Hp. rewrite !andb_true_iff in Hp. cbn in Hp. destruct Hp as [[Hh He] _].
  match goal with |- context [set_jobs (<[_ := ?row]> _) _] => set (r := row) end.
  set (s1 := set_jobs _ s). assert (jobs s1 !! (community, id) = Some r) as H1 by apply lookup_insert_eq.
  by destruct (publish_lookup stamp (community, id) s1 r H1) as [Hr|Hr];
    eexists outcome, id, job, _, u; split_and!; [..|exact Hr|exact Hc|exact Hh|exact He| | |].
Qed.

(** C17. A delivery of Task work has its evidence: when the relay records a
    [done] on a Task, the worker held the lease under that attempt both when
    the evidence was read and when the row was written, there is at least one
    artifact, and every event among them is stored, signed by the worker, in
    the run's own channel and thread and names this Task, job and attempt. *)
Theorem delivery_is_evidenced checked finished stamp community event s s' :
  handle_outcome checked finished stamp community event s = (Ok Finished, s') ->
  exists outcome id job job',
    parse_job_outcome event = Ok outcome /\ hex32 "job" (outcome_job_hex outcome) = Ok id
    /\ jobs s !! (community, id) = Some job /\ jobs s' !! (community, id) = Some job'
    /\ holds_lease (ev_pubkey event) (outcome_attempt outcome) job = true
    /\ status job' = outcome_status outcome /\ outcome_event job' = Some (ev_id event)
    /\ (forall task, task_id job = Some task -> outcome_status outcome = Done ->
          (exists e, lease_expires_at job = Some e /\ checked <= e /\ finished <= e)
          /\ outcome_artifacts outcome <> []
          /\ artifacts job' = Some (artifacts_value (outcome_artifacts outcome))
          /\ forall a, a ∈ outcome_artifacts outcome -> artifact_kind a = ArtifactEvent ->
               Evidence community s job task (ev_pubkey event) (outcome_attempt outcome)
                 (to_ascii_lowercase (reference a))).
Proof.
  intros Ho. destruct (recorded_row _ _ _ _ _ _ _ Ho)
    as (outcome & id & job & job' & u & Hp & Hid & Hj & Hj' & Hc & Hh & He & Hs & Hev & Ha).
  exists outcome, id, job, job'. split_and!; try done. intros task Ht Hd.
  destruct (check_outcome_ok _ _ _ _ _ _ task _ Hc Ht Hd) as (Hne & Hge & Hevd).
  rewrite Ht in He. cbn in He. unfold sql_ge in *. destruct (lease_expires_at job) as [e|]; [|done].
  split; [exists e; split_and!; [done|lia|lia]|]. split; [done|]. split; [|exact Hevd].
  by rewrite Ha, Hd, bool_decide_eq_true_2, bool_decide_eq_false_2.
Qed.

(** ** One outcome *)

Lemma parse_outcome_status event outcome :
  parse_job_outcome event = Ok outcome ->
  outcome_status outcome = Done \/ outcome_status outcome = Failed.
Proof.
  unfold parse_job_outcome. intros Hp. inv_bind. destruct a1 as [hex att]. inv_bind. cbn.
  apply negb_false_iff, orb_true_iff in Hc. rewrite !bool_decide_eq_true in Hc. done.
Qed.

(** An outcome is recorded once: after one is, sending the same event again
    is ignored and moves nothing, and any other event that closes the job is
    refused and moves nothing. *)
Theorem outcome_recorded_once checked finished stamp community event s s' :
  handle_outcome checked finished stamp community event s = (Ok Finished, s') ->
  (forall c2 f2 st2, handle_outcome c2 f2 st2 community event s' = (Ok OutcomeIgnored, s'))
  /\ forall c2 f2 st2 other outcome id o,
       parse_job_outcome event = Ok outcome -> hex32 "job" (outcome_job_hex outcome) = Ok id ->
       parse_job_outcome other = Ok o -> hex32 "job" (outcome_job_hex o) = Ok id ->
       ev_id other <> ev_id event ->
       exists r, handle_outcome c2 f2 st2 community other s' = (Err (Rejected r), s').
Proof.
  intros Ho. destruct (recorded_row _ _ _ _ _ _ _ Ho)
    as (outcome & id & job & r & u & Hp & Hid & _ & Hr & _ & _ & _ & Hs & Hev & _).
  assert (find_job (community, id) (jobs s') = Some r) as Hfind by exact Hr. split.
  - intros. unfold handle_outcome. rewrite Hp, Hid. cbn zeta. rewrite Hfind.
    unfold is_recorded_outcome. by rewrite bool_decide_eq_true_2.
  - intros c2 f2 st2 other outcome' id' o Hp' Hid' Hpo Hido Hne. rewrite Hp in Hp'. injection Hp' as <-.
    rewrite Hid in Hid'. injection Hid' as <-. unfold handle_outcome. rewrite Hpo, Hido. cbn zeta.
    rewrite Hfind. unfold is_recorded_outcome. rewrite Hev, bool_decide_eq_false_2 by congruence.
    destruct (check_outcome _ _ _ _ _ _); [|by eauto].
    match goal with |- context [finish_job ?f ?n ?k _] =>
      assert (finish_job f n k (jobs s') = Ok (None, jobs s')) as -> end; [|by eauto].
    unfold finish_job, update_where. unfold find_job in Hfind. rewrite Hfind.
    assert (forall f n, finishable f n r = false) as ->; [|done].
    intros f n. unfold finishable, holds_lease. rewrite (bool_decide_eq_false_2 (status r = Leased)); [done|].
    rewrite Hs. by destruct (parse_outcome_status _ _ Hp) as [-> | ->].
Qed.
End Delivery.
