(* ===== verification/JobWitness.v ===== *)
(** * A job queue that runs

    Concrete libraries for the parameters of the job queue, the laws they keep,
    and one Task's run through the broker: filed, claimed, checkpointed,
    delivered. The theorems of [JobFacts], [JobBrokerFacts] and [JobDelivery]
    are applied to it. *)

From Stdlib Require Import ZArith Lia Ascii.
From stdpp Require Import base list gmap strings numbers countable sorting.
From S2P Require Import Prelude MachineInt RustStr Event JobWire JobTable JobFacts JobBroker JobBrokerFacts JobDelivery.
Local Open Scope Z_scope.

(** ** JSON values as numbers, written in binary *)

#[export] Instance TaskArtifactKind_countable : Countable TaskArtifactKind.
Proof.
  refine (inj_countable'
    (fun k => match k with ArtifactEvent => 0%nat | ArtifactUrl => 1%nat | ArtifactPath => 2%nat
                      | ArtifactText => 3%nat end)
    (fun n => match n with 0%nat => ArtifactEvent | 1%nat => ArtifactUrl | 2%nat => ArtifactPath
                      | _ => ArtifactText end) _).
  by intros [].
Defined.
#[export] Instance TaskArtifact_countable : Countable TaskArtifact.
Proof.
  refine (inj_countable' (fun a => (artifact_kind a, reference a, label a))
    (fun '(k, r, l) => {| artifact_kind := k; reference := r; label := l |}) _).
  by intros [].
Defined.
#[export] Instance TaskCheckpoint_countable : Countable TaskCheckpoint.
Proof.
  refine (inj_countable' (fun c => (summary c, resume_token c, progress c))
    (fun '(s, r, p) => {| summary := s; resume_token := r; progress := p |}) _).
  by intros [].
Defined.

(** The values the code writes. *)
Definition Tree : Type :=
  gmap string positive + (string + (TaskCheckpoint + (list TaskArtifact + TaskArtifact))).
Definition as_tree (v : positive) : option Tree := decode v.
Definition of_tree (t : Tree) : positive := encode t.
Lemma as_of_tree t : as_tree (of_tree t) = Some t.
Proof. apply decode_encode. Qed.

Fixpoint bits (p : positive) : string :=
  match p with
  | xH => "2" | xO q => String "0" (bits q) | xI q => String "1" (bits q)
  end.
Fixpoint unbits (s : string) : option positive :=
  match s with
  | EmptyString => None
  | String c s' =>
      if Ascii.eqb c "2" then if str_is_empty s' then Some xH else None
      else if Ascii.eqb c "0" then xO <$> unbits s'
      else if Ascii.eqb c "1" then xI <$> unbits s' else None
  end.

Lemma unbits_bits p : unbits (bits p) = Some p.
Proof. induction p as [p IH|p IH|]; cbn; [by rewrite IH|by rewrite IH|done]. Qed.

Lemma unbits_digits s p : unbits s = Some p -> str_all is_ascii_digit s = true /\ s <> EmptyString.
Proof.
  revert p. induction s as [|c s IH]; intros p Hu; cbn in Hu; [done|]. split; [|done]. cbn.
  destruct (Ascii.eqb_spec c "2"%char) as [->|]; [destruct s; done|].
  destruct (Ascii.eqb_spec c "0"%char) as [->|].
  { destruct (unbits s) as [q|] eqn:E; [|done]. cbn. by destruct (IH q eq_refl). }
  destruct (Ascii.eqb_spec c "1"%char) as [->|]; [|done].
  destruct (unbits s) as [q|] eqn:E; [|done]. cbn. by destruct (IH q eq_refl).
Qed.

Lemma digits_not_blank s :
  str_all is_ascii_digit s = true -> s <> EmptyString -> str_is_empty (trim s) = false.
Proof.
  intros Hd Hn. pose proof Hd as Hr. rewrite <- str_all_rev in Hr.
  pose proof (str_rev_nonempty s Hn) as Hrn. destruct s as [|c1 s1] eqn:Es; [done|].
  destruct (str_rev s) as [|c2 s2] eqn:Er; rewrite Es in Er; rewrite Er in *; [done|].
  cbn in Hd, Hr. apply andb_true_iff in Hd as [D1 _]. apply andb_true_iff in Hr as [D2 _].
  by rewrite (trim_digit_ends _ c1 s1 c2 s2).
Qed.

#[export] Instance toy_json : JobJson := {
  Value := positive;
  from_str := unbits;
  to_string := bits;
  as_object v := match as_tree v with Some (inl m) => Some m | _ => None end;
  from_object m := of_tree (inl m);
  as_str v := match as_tree v with Some (inr (inl s)) => Some s | _ => None end;
  from_text s := of_tree (inr (inl s));
  value_checkpoint v := match as_tree v with Some (inr (inr (inl c))) => Some c | _ => None end;
  value_artifact v := match as_tree v with Some (inr (inr (inr (inr a)))) => Some a | _ => None end;
  value_artifacts v := match as_tree v with Some (inr (inr (inr (inl l)))) => Some l | _ => None end;
  checkpoint_value c := of_tree (inr (inr (inl c)));
  artifacts_value l := of_tree (inr (inr (inr (inl l))));
  array_len v := match as_tree v with
                 | Some (inr (inr (inr (inl l)))) => Some (length l) | _ => None end;
}.

#[export] Instance toy_json_laws : JobJsonLaws.
Proof.
  split; intros; cbn; rewrite ?as_of_tree; try done.
  - apply unbits_bits.
  - apply unbits_digits in H as [? ?]. by apply digits_not_blank.
Qed.

(** ** Signing *)

#[export] Instance toy_lib : BrokerLib := {
  Keys := string;
  tag_parse l := match l with [] => None | _ => Some l end;
  sign_with_keys keys kind tags content at_ :=
    Some {| ev_id := "signed"; ev_pubkey := keys; ev_created_at := at_; ev_kind := kind;
            ev_tags := List.filter (fun t => negb (self_mention keys t)) tags;
            ev_content := content; ev_sig := "" |};
  verify_id _ := true;
  verify_signature e := String.eqb (ev_sig e) "ok";
  parse_uuid s := Some s;
  open_employee_keys e := Some e;
}.

#[export] Instance toy_lib_laws : BrokerLaws.
Proof. split; [done|]. intros ?????? H. injection H as <-. done. Qed.

(** ** One Task's run *)

(** An instant at which no community is being deleted. *)
Definition calm (t : Z) : Instant := {| clock := t; write_fenced _ := false |}.

Fixpoint hexes (n : nat) (c : ascii) : string :=
  match n with O => EmptyString | S n' => String c (hexes n' c) end.
Definition human : string := hexes 64 "a".
Definition worker_bee : string := hexes 64 "b".
Definition run_id : string := hexes 64 "c".
Definition note_id : string := hexes 64 "d".
Definition root_id : string := hexes 64 "e".
Definition home : string := "home".

Definition toy_event (id kind_tag : string) (kind : Z) (tags : list (list string)) (content : string)
    : Event := {|
  ev_id := hexes 63 "1" +:+ id; ev_pubkey := human; ev_created_at := 100; ev_kind := kind;
  ev_tags := tags; ev_content := content; ev_sig := "ok" |}%string.

Definition filing_event : Event := {|
  ev_id := run_id; ev_pubkey := human; ev_created_at := 100; ev_kind := KIND_JOB_FILING;
  ev_tags := [["p"; worker_bee]; ["h"; home]; ["e"; root_id]; ["task"; "tidy"]];
  ev_content := "Tidy the books."; ev_sig := "ok" |}%string.
Definition claim_event : Event :=
  toy_event "2" "claim" KIND_JOB_CLAIM [["nonce"; "n1"]; ["job"; run_id]]%string "".
Definition plan : TaskCheckpoint :=
  {| summary := "half way"; resume_token := Some "page 2"; progress := Some 50 |}%string.
Definition checkpoint_event_1 : Event :=
  toy_event "3" "checkpoint" KIND_JOB_CHECKPOINT
    [["job"; run_id]; ["attempt"; "1"]; ["sequence"; "1"]]%string
    (to_string (checkpoint_value plan)).
Definition note : TaskArtifact :=
  {| artifact_kind := ArtifactEvent; reference := note_id; label := Some "the note"%string |}.
Definition outcome_event_1 : Event :=
  toy_event "4" "outcome" KIND_JOB_OUTCOME
    [["job"; run_id]; ["attempt"; "1"]; ["status"; "done"]; ["task"; "tidy"];
     ["artifact"; bits (of_tree (inr (inr (inr (inr note)))))]]%string "All tidy.".
Definition note_event : Event := {|
  ev_id := note_id; ev_pubkey := human; ev_created_at := 150; ev_kind := KIND_STREAM_MESSAGE;
  ev_tags := [["task"; "tidy"]; ["job"; run_id]; ["attempt"; "1"]];
  ev_content := "Here."; ev_sig := "ok" |}%string.

Definition acme : string := "acme".
Definition relay0 : Relay := {|
  jobs := ∅; employees := {[ (acme, worker_bee) := true ]};
  task_homes := {[ (acme, "tidy"%string) := Some home ]};
  stored_events := {[ (acme, note_id) :=
    {| stored_event := note_event; stored_channel := Some home; verified := true |} ]};
  threads := {[ (acme, note_id) := {| thread_channel := home; root_event_id := Some root_id |} ]};
  heads := [] |}.

Definition filed := handle_job_event (calm 100) (calm 100) (calm 100) acme filing_event relay0.
Definition claimed := handle_job_event (calm 110) (calm 110) (calm 110) acme claim_event filed.2.
Definition checkpointed := handle_job_event (calm 150) (calm 150) (calm 150) acme checkpoint_event_1 claimed.2.
Definition delivered := handle_job_event (calm 200) (calm 201) (calm 201) acme outcome_event_1 checkpointed.2.

Example run_answers :
  (filed.1, claimed.1, checkpointed.1, delivered.1)
  = (Ok Filed, Ok Claimed, Ok Checkpointed, Ok Finished).
Proof. vm_compute. reflexivity. Qed.

Example run_heads : length (heads delivered.2) = 4%nat.
Proof. vm_compute. reflexivity. Qed.

(** ** The theorems at this run *)

Definition job_key : Key := (acme, run_id).
Definition new_job : NewJob := {|
  new_job_id := run_id; new_employee := worker_bee; new_filed_by := human; new_originator := human;
  new_channel_id := Some home; new_thread := Some root_id; new_task_id := Some "tidy"%string;
  new_instruction := "Tidy the books." |}.
Definition outcome_row : FinishedJob := {|
  fin_attempt := 1; fin_holder := human; fin_status := Done; fin_detail := "All tidy.";
  fin_provider := None; fin_model := None; fin_artifacts := Some (artifacts_value [note]);
  fin_outcome_event := Some (hexes 64 "4") |}.
Definition one_lease : list Statement := [SInsert (calm 100) acme new_job; SClaim human (calm 110) 230 job_key].
Definition two_leases : list Statement :=
  [SInsert (calm 100) acme new_job; SClaim human (calm 110) 230 job_key; SClaim human (calm 300) 420 job_key].

Definition is_moved (u : Update) : bool := match u with Ok (Some _, _) => true | _ => false end.

Lemma leases_are_fenced_witness :
  match exec (SHeartbeat human 2 (calm 310) 430 job_key) (exec_all two_leases).2 with
  | Ok (Some r, _) => grants job_key (exec_all two_leases).1 = [(human, 1); (human, 2)]
                      /\ Some (human, 2) = acts_under (SHeartbeat human 2 (calm 310) 430 job_key)
                      /\ last (grants job_key (exec_all two_leases).1) = Some (human, 2)
  | _ => False
  end.
Proof.
  assert (is_moved (exec (SHeartbeat human 2 (calm 310) 430 job_key) (exec_all two_leases).2) = true) as Hm
    by (vm_compute; reflexivity).
  destruct (exec _ _) as [[[r|] t]|] eqn:E; [|discriminate Hm..].
  pose proof (leases_are_fenced two_leases job_key (SHeartbeat human 2 (calm 310) 430 job_key) r t
                eq_refl E) as Hf. cbv zeta in Hf. destruct Hf as (_ & Hu & _).
  split; [vm_compute; reflexivity|]. split; [reflexivity|]. by apply Hu.
Defined.

Definition finished_run : list Statement :=
  [SInsert (calm 100) acme new_job; SClaim human (calm 110) 230 job_key; SFinish outcome_row (calm 200) job_key].
Lemma ending_is_final_witness :
  match (exec_all finished_run).2 !! job_key with
  | Some r => status_is_terminal (status r) = true
              /\ exists r', (exec_all (finished_run ++ two_leases)).2 !! job_key = Some r'
                            /\ outcome_of r' = outcome_of r
  | None => False
  end.
Proof.
  assert (status <$> (exec_all finished_run).2 !! job_key = Some Done) as Hs by (vm_compute; reflexivity).
  destruct ((exec_all finished_run).2 !! job_key) as [r|] eqn:E; [|discriminate Hs].
  assert (status_is_terminal (status r) = true) as Ht by (injection Hs as Hs; rewrite Hs; reflexivity).
  split; [exact Ht|]. exact (ending_is_final finished_run two_leases job_key r E Ht).
Defined.

Definition stamps_run : list Statement := two_leases ++ [SStamp (calm 500) job_key].
Lemma heads_rise_witness :
  let '(log, t) := exec_all (stamps_run ++ [SStamp (calm 20) job_key]) in
  head_at <$> stamps job_key log = [500; 501] /\ t !! job_key = last (stamps job_key log).
Proof.
  pose proof (heads_rise stamps_run (calm 20) job_key [] eq_refl (List.Forall_nil _)) as Hr.
  assert (head_at <$> stamps job_key (exec_all (stamps_run ++ [SStamp (calm 20) job_key])).1 = [500; 501]) as Hh
    by (vm_compute; reflexivity).
  destruct (exec_all (stamps_run ++ [SStamp (calm 20) job_key])) as [log t]. split; [exact Hh|apply Hr].
Defined.

(** The same statement while the community is being deleted. *)
Definition late_finish : Statement :=
  SFinish outcome_row {| clock := 200; write_fenced c := String.eqb c acme |} job_key.

Lemma fenced_lease_stops_the_sweep_witness :
  exists e, expire_due_leases {| clock := 300; write_fenced c := String.eqb c acme |} MAX_JOB_ATTEMPTS
              [("other"%string, run_id); job_key] (exec_all one_lease).2 = Err e.
Proof.
  assert (is_some ((exec_all one_lease).2 !! job_key) = true) as Hs by (vm_compute; reflexivity).
  destruct ((exec_all one_lease).2 !! job_key) as [r|] eqn:E; [|discriminate Hs].
  apply (fenced_lease_stops_the_sweep _ _ one_lease job_key r E).
  - assert (lease_due 300 <$> (exec_all one_lease).2 !! job_key = Some true) as Hd by (vm_compute; reflexivity).
    rewrite E in Hd. by injection Hd.
  - vm_compute. reflexivity.
  - apply (bool_decide_unpack _). vm_compute. exact I.
  - right. left.
Defined.

Definition delivered_job : JobRow := {|
  job_id := run_id; employee := worker_bee; filed_by := human; originator := human;
  channel_id := Some home; thread := Some root_id; task_id := Some "tidy"%string;
  instruction := "Tidy the books."; status := Done; lease_holder := Some human;
  lease_expires_at := None; attempts := 1; result := Some "All tidy."%string; failure := None;
  provider := Some "acme-ai"%string; model := None; checkpoint_seq := 1;
  checkpoint := Some (checkpoint_value plan); checkpoint_event := Some (hexes 64 "3");
  checkpoint_at := Some 150; artifacts := Some (artifacts_value [note]);
  outcome_event := Some (hexes 64 "4"); escalated_ask := None; created_at := 100; updated_at := 200;
  head_at := 201 |}.
Lemma only {A} (o : option A) (P : A -> Prop) :
  match o with Some x => P x | None => True end -> forall x, o = Some x -> P x.
Proof. by intros Ho x ->. Qed.
Lemma head_roundtrip_witness :
  match build_job_head worker_bee delivered_job 201 with
  | Some event => parse_job_head event = Ok (head_of delivered_job (Some plan) [note])
  | None => False
  end.
Proof.
  assert (is_some (build_job_head worker_bee delivered_job 201) = true) as Hs by (vm_compute; reflexivity).
  destruct (build_job_head _ delivered_job 201) as [event|] eqn:E; [|discriminate Hs].
  eapply head_roundtrip; [|exact E]. clear E.
  split.
  1-4: vm_compute; reflexivity.
  1-3: apply only; vm_compute; reflexivity.
  - split; vm_compute; discriminate.
  - discriminate.
  - split; vm_compute; discriminate.
  - vm_compute; reflexivity.
  - apply only; vm_compute; reflexivity.
  - discriminate.
  - apply (only _ (fun x => forall f, stamp f x = Ok x)); intros f; vm_compute; reflexivity.
  - discriminate.
  - apply only; vm_compute; reflexivity.
  - reflexivity.
  - intros c Hc. injection Hc as <-. vm_compute. reflexivity.
  - reflexivity.
Defined.

Lemma every_job_has_a_human_witness :
  match jobs claimed.2 !! job_key with
  | Some r => lease_holder r = Some human /\ human = originator r
              /\ employees claimed.2 !! (acme, originator r) = None
  | None => False
  end.
Proof.
  assert (rtc broker_step relay0 claimed.2) as Hr.
  { eapply rtc_l; [apply (StepEvent (calm 100) (calm 100) (calm 100) acme filing_event)|].
    eapply rtc_l; [apply (StepEvent (calm 110) (calm 110) (calm 110) acme claim_event)|]. apply rtc_refl. }
  assert (lease_holder <$> jobs claimed.2 !! job_key = Some (Some human)) as Hs
    by (vm_compute; reflexivity).
  destruct (jobs claimed.2 !! job_key) as [r|] eqn:Hj; [|discriminate Hs].
  destruct (every_job_has_a_human relay0 claimed.2 job_key r eq_refl Hr Hj) as [He Hh].
  assert (lease_holder r = Some human) as Hl by (injection Hs as Hs; exact Hs).
  split; [exact Hl|]. split; [by apply Hh|exact He].
Defined.

(** An outcome of an attempt that never was. *)
Definition stale_outcome : Event :=
  toy_event "5" "stale" KIND_JOB_OUTCOME
    [["job"; run_id]; ["attempt"; "3"]; ["status"; "failed"]]%string "No.".
Lemma refused_moves_nothing_witness :
  (handle_job_event (calm 200) (calm 201) (calm 201) acme stale_outcome checkpointed.2).1 = Err (Rejected OutcomeSuperseded)
  /\ (handle_job_event (calm 200) (calm 201) (calm 201) acme stale_outcome checkpointed.2).2 = checkpointed.2.
Proof.
  assert ((handle_job_event (calm 200) (calm 201) (calm 201) acme stale_outcome checkpointed.2).1
          = Err (Rejected OutcomeSuperseded)) as He by (vm_compute; reflexivity).
  split; [exact He|]. apply (refused_moves_nothing (calm 200) (calm 201) (calm 201) acme stale_outcome). by rewrite He.
Defined.

Lemma delivery_is_evidenced_witness :
  (handle_outcome (calm 200) (calm 201) (calm 201) acme outcome_event_1 checkpointed.2).1 = Ok Finished
  /\ exists job, jobs delivered.2 !! job_key = Some job /\ status job = Done.
Proof.
  assert ((handle_outcome (calm 200) (calm 201) (calm 201) acme outcome_event_1 checkpointed.2).1 = Ok Finished) as He
    by (vm_compute; reflexivity).
  split; [exact He|].
  pose proof (delivery_is_evidenced (calm 200) (calm 201) (calm 201) acme outcome_event_1 checkpointed.2 delivered.2) as Hd.
  assert (handle_outcome (calm 200) (calm 201) (calm 201) acme outcome_event_1 checkpointed.2 = (Ok Finished, delivered.2)) as Ho.
  { change delivered with (handle_outcome (calm 200) (calm 201) (calm 201) acme outcome_event_1 checkpointed.2).
    rewrite <- He. by destruct (handle_outcome _ _ _ _ _ _). }
  destruct (Hd Ho) as (o & id & _ & job & Hp & Hid & _ & Hj & _ & Hs & _).
  vm_compute in Hp. injection Hp as <-. vm_compute in Hid. injection Hid as <-.
  exists job. split; [exact Hj|exact Hs].
Defined.

Lemma outcome_recorded_once_witness :
  handle_outcome (calm 300) (calm 301) (calm 301) acme outcome_event_1 delivered.2 = (Ok OutcomeIgnored, delivered.2)
  /\ exists r, handle_outcome (calm 300) (calm 301) (calm 301) acme stale_outcome delivered.2 = (Err (Rejected r), delivered.2).
Proof.
  assert (handle_outcome (calm 200) (calm 201) (calm 201) acme outcome_event_1 checkpointed.2 = (Ok Finished, delivered.2)) as Ho.
  { change delivered with (handle_outcome (calm 200) (calm 201) (calm 201) acme outcome_event_1 checkpointed.2).
    assert ((handle_outcome (calm 200) (calm 201) (calm 201) acme outcome_event_1 checkpointed.2).1 = Ok Finished) as He
      by (vm_compute; reflexivity).
    rewrite <- He. by destruct (handle_outcome _ _ _ _ _ _). }
  destruct (outcome_recorded_once _ _ _ _ _ _ _ Ho) as [Hsame Hother]. split; [apply Hsame|].
  destruct (parse_job_outcome outcome_event_1) as [o1|] eqn:E1; [|vm_compute in E1; discriminate E1].
  destruct (parse_job_outcome stale_outcome) as [o2|] eqn:E2; [|vm_compute in E2; discriminate E2].
  apply (Hother (calm 300) (calm 301) (calm 301) stale_outcome o1 run_id o2 eq_refl); [|exact E2| |vm_compute; discriminate].
  - vm_compute in E1. injection E1 as <-. vm_compute. reflexivity.
  - vm_compute in E2. injection E2 as <-. vm_compute. reflexivity.
Defined.
