(* ===== verification/Metering.v ===== *)
(** * What a provider's response says a call used and cost

    [crates/buzz-meter-core/src]: the cost a provider states ([cost.rs]), the
    payloads of a server-sent-event stream ([sse.rs]), and the OpenAI and
    Anthropic dialects of a usage block ([openai.rs], [anthropic.rs]) with the
    one rewrite of a streaming request. A body is a string of bytes; parsing
    and printing JSON are the library's ([JsonLib]), and so is reading the text
    of a fractional number ([JsonFloatLib]). *)

From Stdlib Require Import ZArith Lia Ascii SpecFloat.
From stdpp Require Import base list strings numbers.
From S2P Require Import Prelude MachineInt RustStr Json Usage.
Local Open Scope Z_scope.

(** The double nearest to the text of a JSON number. *)
Class JsonFloatLib := { float_of_text : string -> F64 }.

(** [Value::as_f64], [Value::is_object]. *)
Definition as_f64 `{JsonFloatLib} (v : Json) : option F64 :=
  match v with
  | JInt n => Some (f64_of_int n)
  | JFloat text => Some (float_of_text text)
  | _ => None
  end.
Definition is_object (v : Json) : bool := match v with JObject _ => true | _ => false end.
Definition get_u64 (v : Json) (key : string) : option Z := jget v key ≫= as_u64.

(** ** Text of a body *)

(** The ranges the bytes after a UTF-8 lead byte fall in; [None] for a byte
    that begins no character. *)
Definition utf8_tail (lead : ascii) : option (list (Z * Z)) :=
  let c := (128, 191) in
  let n := code lead in
  if n <? 128 then Some []
  else if (194 <=? n) && (n <=? 223) then Some [c]
  else if n =? 224 then Some [(160, 191); c]
  else if n =? 237 then Some [(128, 159); c]
  else if (225 <=? n) && (n <=? 239) then Some [c; c]
  else if n =? 240 then Some [(144, 191); c; c]
  else if (241 <=? n) && (n <=? 243) then Some [c; c; c]
  else if n =? 244 then Some [(128, 143); c; c]
  else None.

(** The bytes of [s] that fall in [ranges], one after the other, and the rest;
    whether all were found. *)
Fixpoint utf8_take (ranges : list (Z * Z)) (s : string) : string * bool * string :=
  match ranges, s with
  | [], _ => (EmptyString, true, s)
  | (lo, hi) :: ranges, String c s' =>
      if in_code_range lo hi c then
        let '(taken, whole, rest) := utf8_take ranges s' in (String c taken, whole, rest)
      else (EmptyString, false, s)
  | _ :: _, EmptyString => (EmptyString, false, s)
  end.

(** U+FFFD. *)
Definition replacement : string := bytes_str [239; 191; 189]%N.

(** [String::from_utf8_lossy]: the longest part of a character that begins at
    a bad byte is one replacement. A byte goes per step: the length is enough
    fuel. *)
Fixpoint utf8_lossy_go (fuel : nat) (s : string) : string :=
  match fuel, s with
  | S fuel, String c s =>
      match utf8_tail c with
      | None => replacement +:+ utf8_lossy_go fuel s
      | Some ranges =>
          let '(taken, whole, rest) := utf8_take ranges s in
          (if whole then String c taken else replacement) +:+ utf8_lossy_go fuel rest
      end
  | _, _ => EmptyString
  end.
Definition utf8_lossy (s : string) : string := utf8_lossy_go (String.length s) s.

Definition newline : ascii := ascii_of_N 10.
Definition carriage_return : string := bytes_str [13]%N.
Definition strip_suffix (p s : string) : option string :=
  str_rev <$> strip_prefix (str_rev p) (str_rev s).
(** [str::lines]: a piece that ends in a newline loses one carriage return
    before it; an empty last piece is no line. *)
Fixpoint lines_of (pieces : list string) : list string :=
  match pieces with
  | [] => []
  | [last] => if str_is_empty last then [] else [last]
  | piece :: pieces => default piece (strip_suffix carriage_return piece) :: lines_of pieces
  end.
Definition str_lines (s : string) : list string := lines_of (split_on newline s).

(** [data_payloads]. *)
Definition data_payload (line : string) : option string :=
  payload ← strip_prefix "data:" line; Some (default payload (strip_prefix " " payload)).
Definition data_payloads (text : string) : list string := filter_map data_payload (str_lines text).

(** ** The stated cost *)

(** [NANOUSD_PER_USD]. *)
Definition NANOUSD_PER_USD : F64 := f64_of_int 1000000000.
(** [u64::MAX as f64]. *)
Definition u64_max_f64 : Z := 18446744073709551616.

(** [usd_field]. *)
Definition usd_field `{JsonFloatLib} (scope : Json) (key : string) : option F64 :=
  amount ← jget scope key ≫= as_f64;
  if is_finite amount && f64_ge amount f64_zero then Some amount else None.

(** [to_nanousd]; the cast to [u64] saturates. *)
Definition to_nanousd (usd : F64) : option Z :=
  nanos ← f64_round (f64_mul usd NANOUSD_PER_USD);
  if (nanos <? 0) || (u64_max_f64 <? nanos) then None
  else if (nanos =? 0) && f64_gt usd f64_zero then Some 1
  else Some (Z.min nanos u64_max).

(** [observed_cost_nanousd]. *)
Definition observed_cost_nanousd `{JsonFloatLib} (usage : Json) : option Z :=
  charged ← usd_field usage "cost";
  if default false (jget usage "is_byok" ≫= as_bool) then
    upstream ← jget usage "cost_details" ≫= (fun details => usd_field details "upstream_inference_cost");
    to_nanousd (f64_add charged upstream)
  else to_nanousd charged.

(** ** OpenAI *)

(** [ParsedUsage]. *)
Record ParsedUsage := {
  pu_tokens : option UsageBreakdown;
  pu_model : option string;
  pu_request_id : option string;
  pu_observed_cost : option Z;
}.
#[export] Instance ParsedUsage_eq_dec : EqDecision ParsedUsage.
Proof. solve_decision. Defined.
Definition no_usage : ParsedUsage :=
  {| pu_tokens := None; pu_model := None; pu_request_id := None; pu_observed_cost := None |}.

(** [string_field]. *)
Definition string_field (v : Json) (key : string) : option string :=
  text ← get_str v key; if str_is_empty text then None else Some text.

(** [Option::or]. *)
Definition opt_or {A} (a b : option A) : option A := match a with Some _ => a | None => b end.

(** [cached_tokens]. *)
Definition openai_cached_tokens (usage : Json) (details_key : string) : Z :=
  default 0 (jget usage details_key ≫= (fun details => get_u64 details "cached_tokens")).

(** One shape of [breakdown]: the key of the total input, of its details and
    of the output. *)
Definition openai_shape (usage : Json) (input_key details_key output_key : string) : option UsageBreakdown :=
  input ← get_u64 usage input_key;
  let cached := openai_cached_tokens usage details_key in
  Some {| input_uncached_tokens := saturating_sub64 input cached;
          cache_read_tokens := cached;
          cache_write_5m_tokens := 0; cache_write_1h_tokens := 0;
          output_tokens := default 0 (get_u64 usage output_key) |}.
(** [breakdown]: Chat Completions, then Responses. *)
Definition openai_breakdown (usage : Json) : option UsageBreakdown :=
  opt_or (openai_shape usage "prompt_tokens" "prompt_tokens_details" "completion_tokens")
         (openai_shape usage "input_tokens" "input_tokens_details" "output_tokens").

Section Parse.
Context `{JsonFloatLib}.

Definition openai_read_scope (scope : Json) : option ParsedUsage :=
  usage ← jget scope "usage";
  if is_object usage then
    Some {| pu_tokens := openai_breakdown usage; pu_model := string_field scope "model";
            pu_request_id := string_field scope "id";
            pu_observed_cost := observed_cost_nanousd usage |}
  else None.
(** [read_document]: the document, then its [response]. *)
Definition openai_read_document (document : Json) : option ParsedUsage :=
  opt_or (openai_read_scope document) (jget document "response" ≫= openai_read_scope).

(** [parse_json_response], once the body is read. *)
Definition openai_read_root (root : Json) : ParsedUsage :=
  default {| pu_tokens := None; pu_model := string_field root "model";
             pu_request_id := string_field root "id"; pu_observed_cost := None |}
    (openai_read_document root).
Definition openai_parse_json_response `{JsonLib} (body : string) : ParsedUsage :=
  match json_from_str body with
  | None => no_usage
  | Some root => openai_read_root root
  end.

(** One turn of the loop of [parse_sse_response]. *)
Definition openai_sse_step (parsed : ParsedUsage) (document : Json) : ParsedUsage :=
  let model := opt_or (string_field document "model") (pu_model parsed) in
  let id := opt_or (string_field document "id") (pu_request_id parsed) in
  match openai_read_document document with
  | Some chunk =>
      {| pu_tokens := pu_tokens chunk; pu_model := opt_or (pu_model chunk) model;
         pu_request_id := opt_or (pu_request_id chunk) id;
         pu_observed_cost := pu_observed_cost chunk |}
  | None =>
      {| pu_tokens := pu_tokens parsed; pu_model := model; pu_request_id := id;
         pu_observed_cost := pu_observed_cost parsed |}
  end.
(** [parse_sse_response]: what is not JSON is skipped. *)
Definition openai_parse_sse_response `{JsonLib} (body : string) : ParsedUsage :=
  foldl openai_sse_step no_usage (filter_map json_from_str (data_payloads (utf8_lossy body))).

End Parse.

(** [ensure_stream_usage] on the parsed request. *)
Definition openai_with_stream_usage (root : Json) : option Json :=
  match root with
  | JObject object =>
      if negb (bool_decide (jget root "stream" ≫= as_bool = Some true)) then None
      else
        match jget root "stream_options" with
        | Some (JObject options) =>
            if bool_decide (jget (JObject options) "include_usage" ≫= as_bool = Some true) then None
            else Some (JObject (bt_insert "stream_options"
                         (JObject (bt_insert "include_usage" (JBool true) options)) object))
        | _ => Some (JObject (bt_insert "stream_options"
                       (JObject (bt_insert "include_usage" (JBool true) [])) object))
        end
  | _ => None
  end%string.
(** [ensure_stream_usage]. *)
Definition openai_ensure_stream_usage `{JsonLib} (body : string) : option string :=
  json_to_string <$> (json_from_str body ≫= openai_with_stream_usage).

(** ** Anthropic *)

(** [u64_field]. *)
Definition anthropic_u64_field (v : Json) (key : string) : Z := default 0 (get_u64 v key).

(** [breakdown]. *)
Definition anthropic_breakdown (usage : Json) : UsageBreakdown :=
  let writes :=
    match jget usage "cache_creation" with
    | Some (JObject creation) =>
        (anthropic_u64_field (JObject creation) "ephemeral_5m_input_tokens",
         anthropic_u64_field (JObject creation) "ephemeral_1h_input_tokens")
    | _ => (anthropic_u64_field usage "cache_creation_input_tokens", 0)
    end in
  {| input_uncached_tokens := anthropic_u64_field usage "input_tokens";
     cache_read_tokens := anthropic_u64_field usage "cache_read_input_tokens";
     cache_write_5m_tokens := fst writes; cache_write_1h_tokens := snd writes;
     output_tokens := anthropic_u64_field usage "output_tokens" |}.

(** [get("usage").filter(is_object)]. *)
Definition anthropic_usage_of (v : Json) : option Json :=
  usage ← jget v "usage"; if is_object usage then Some usage else None.

Section Parse.
Context `{JsonFloatLib}.

(** [parse_json_response]. *)
Definition anthropic_parse_json_response `{JsonLib} (body : string) : ParsedUsage :=
  match json_from_str body with
  | None => no_usage
  | Some root =>
      {| pu_tokens := anthropic_breakdown <$> anthropic_usage_of root; pu_model := string_field root "model";
         pu_request_id := string_field root "id";
         pu_observed_cost := anthropic_usage_of root ≫= observed_cost_nanousd |}
  end.

(** The variables of the loop of [parse_sse_response]. *)
Record AnthropicSse := {
  ss_model : option string;
  ss_request_id : option string;
  ss_cost : option Z;
  start_usage : option Json;
  final_output_tokens : option Z;
}.
Definition anthropic_sse_start : AnthropicSse :=
  {| ss_model := None; ss_request_id := None; ss_cost := None; start_usage := None;
     final_output_tokens := None |}.
(** One turn of the loop. *)
Definition anthropic_sse_step (s : AnthropicSse) (event : Json) : AnthropicSse :=
  match get_str event "type" with
  | Some "message_start"%string =>
      match jget event "message" with
      | None => s
      | Some message =>
          {| ss_model := string_field message "model"; ss_request_id := string_field message "id";
             ss_cost := match anthropic_usage_of message with
                        | Some usage => observed_cost_nanousd usage
                        | None => ss_cost s
                        end;
             start_usage := opt_or (anthropic_usage_of message) (start_usage s);
             final_output_tokens := final_output_tokens s |}
      end
  | Some "message_delta"%string =>
      match anthropic_usage_of event with
      | None => s
      | Some usage =>
          {| ss_model := ss_model s; ss_request_id := ss_request_id s;
             ss_cost := opt_or (observed_cost_nanousd usage) (ss_cost s);
             start_usage := start_usage s;
             final_output_tokens := opt_or (get_u64 usage "output_tokens") (final_output_tokens s) |}
      end
  | _ => s
  end.
(** What the loop leaves. *)
Definition anthropic_sse_result (s : AnthropicSse) : ParsedUsage :=
  {| pu_tokens :=
       usage ← start_usage s;
       let t := anthropic_breakdown usage in
       Some {| input_uncached_tokens := input_uncached_tokens t; cache_read_tokens := cache_read_tokens t;
               cache_write_5m_tokens := cache_write_5m_tokens t;
               cache_write_1h_tokens := cache_write_1h_tokens t;
               output_tokens := default (output_tokens t) (final_output_tokens s) |};
     pu_model := ss_model s; pu_request_id := ss_request_id s; pu_observed_cost := ss_cost s |}.
(** [parse_sse_response]. *)
Definition anthropic_parse_sse_response `{JsonLib} (body : string) : ParsedUsage :=
  anthropic_sse_result (foldl anthropic_sse_step anthropic_sse_start (filter_map json_from_str (data_payloads (utf8_lossy body)))).

End Parse.

(** ** Facts *)

(** A stated cost is a [u64], and an amount above zero is never free. *)
Lemma to_nanousd_range usd n :
  to_nanousd usd = Some n ->
  is_finite (f64_mul usd NANOUSD_PER_USD) = true /\ 0 <= n <= u64_max
  /\ (f64_gt usd f64_zero = true -> 1 <= n).
Proof.
  unfold to_nanousd. destruct (f64_round _) as [nanos|] eqn:Hr; [|done]. cbn.
  pose proof (f64_round_finite (f64_mul usd NANOUSD_PER_USD)) as Hf. rewrite Hr in Hf.
  destruct (Z.ltb_spec nanos 0); [done|]. destruct (Z.ltb_spec u64_max_f64 nanos); [done|].
  cbn. destruct (Z.eqb_spec nanos 0) as [->|]; cbn.
  - destruct (f64_gt usd f64_zero) eqn:Hg; intros [= <-]; split_and!; (done || (unfold u64_max; lia)).
  - intros [= <-]. unfold u64_max. split_and!; [done|lia..].
Qed.

Lemma observed_cost_range `{JsonFloatLib} usage n :
  observed_cost_nanousd usage = Some n -> 0 <= n <= u64_max.
Proof.
  unfold observed_cost_nanousd. intros Hn.
  destruct (usd_field usage "cost") as [charged|]; [|done]. cbn in Hn.
  destruct (default false _); [|by destruct (to_nanousd_range _ _ Hn) as (_ & ? & _)].
  destruct (jget usage "cost_details" ≫= _) as [upstream|]; [|done]. cbn in Hn. by destruct (to_nanousd_range _ _ Hn) as (_ & ? & _).
Qed.

(** A routing fee alone never stands for a call billed elsewhere. *)
Lemma byok_needs_upstream `{JsonFloatLib} usage :
  jget usage "is_byok" = Some (JBool true) -> jget usage "cost_details" = None ->
  observed_cost_nanousd usage = None.
Proof.
  intros Hb Hd. unfold observed_cost_nanousd. destruct (usd_field usage "cost"); [|done].
  cbn. by rewrite Hb, Hd.
Qed.

Lemma get_u64_range v key n : get_u64 v key = Some n -> in_u64 n.
Proof.
  unfold get_u64. destruct (jget v key) as [[]|]; try done. cbn.
  destruct (Z.leb_spec 0 n0), (Z.leb_spec n0 u64_max); cbn; try done. intros [= <-]. by split.
Qed.

Lemma get_u64_default v key : in_u64 (default 0 (get_u64 v key)).
Proof.
  destruct (get_u64 v key) eqn:Hk; [by apply get_u64_range in Hk|]. unfold in_u64, u64_max. cbn. lia.
Qed.

Lemma cached_tokens_range usage key : in_u64 (openai_cached_tokens usage key).
Proof.
  unfold openai_cached_tokens. destruct (jget usage key) as [d|]; [apply get_u64_default|].
  unfold in_u64, u64_max. cbn. lia.
Qed.

(** Every count read off a usage block is a [u64], and the uncached and the
    cached input make up the stated total, or the cached part when it is the
    larger. *)
Lemma openai_shape_counts usage ik dk ok t :
  openai_shape usage ik dk ok = Some t ->
  breakdown_wf t
  /\ exists input, get_u64 usage ik = Some input
     /\ input_uncached_tokens t + cache_read_tokens t = Z.max input (cache_read_tokens t).
Proof.
  unfold openai_shape. destruct (get_u64 usage ik) as [input|] eqn:Hi; [|done]. cbn. intros [= <-].
  apply get_u64_range in Hi as Hr. pose proof (cached_tokens_range usage dk) as Hc.
  pose proof (get_u64_default usage ok) as Ho. unfold breakdown_wf, in_u64, saturating_sub64 in *. cbn.
  split; [split_and!; (lia || done)|]. exists input. split; [done|lia].
Qed.

Lemma openai_breakdown_wf usage t : openai_breakdown usage = Some t -> breakdown_wf t.
Proof.
  unfold openai_breakdown, opt_or. destruct (openai_shape usage "prompt_tokens" _ _) as [t'|] eqn:Hs.
  - intros [= <-]. by destruct (openai_shape_counts _ _ _ _ _ Hs).
  - intros Ht. by destruct (openai_shape_counts _ _ _ _ _ Ht).
Qed.

Lemma anthropic_breakdown_wf usage : breakdown_wf (anthropic_breakdown usage).
Proof.
  unfold anthropic_breakdown, breakdown_wf, anthropic_u64_field. cbn [input_uncached_tokens cache_read_tokens
    cache_write_5m_tokens cache_write_1h_tokens output_tokens].
  pose proof (get_u64_default usage "input_tokens"). pose proof (get_u64_default usage "output_tokens").
  pose proof (get_u64_default usage "cache_read_input_tokens").
  pose proof (get_u64_default usage "cache_creation_input_tokens").
  assert (in_u64 0) by (unfold in_u64, u64_max; lia).
  split_and!; try done; destruct (jget usage "cache_creation") as [[]|]; cbn [fst snd];
    (done || apply get_u64_default).
Qed.

Section Stream.
Context `{JsonFloatLib}.

(** The last document that carries a usage block decides the tokens and the
    cost of a stream, whatever came before and whatever follows without one. *)
Lemma sse_last_usage parsed d chunk docs :
  openai_read_document d = Some chunk ->
  Forall (fun d => openai_read_document d = None) docs ->
  let r := foldl openai_sse_step (openai_sse_step parsed d) docs in
  pu_tokens r = pu_tokens chunk /\ pu_observed_cost r = pu_observed_cost chunk.
Proof.
  intros Hd. cbn zeta. revert parsed.
  assert (forall p q : ParsedUsage, pu_tokens p = pu_tokens q -> pu_observed_cost p = pu_observed_cost q ->
    Forall (fun d => openai_read_document d = None) docs ->
    pu_tokens (foldl openai_sse_step p docs) = pu_tokens q
    /\ pu_observed_cost (foldl openai_sse_step p docs) = pu_observed_cost q) as Hgen.
  { induction docs as [|d' docs IH]; intros p q Hp Hq Hall; [done|].
    apply list.Forall_cons in Hall as [Hd' Hall]. cbn. apply IH; [| |done];
      unfold openai_sse_step; by rewrite Hd'. }
  intros parsed Hall. apply Hgen; [..|done]; unfold openai_sse_step; by rewrite Hd.
Qed.
End Stream.

(** The rewrite of a streaming request asks for the usage block, leaves every
    other key as it was, and asks only once. The library's maps are sorted. *)
Lemma stream_usage_asked root root' :
  (forall object, root = JObject object -> bt_wf object) ->
  (forall o, jget root "stream_options" = Some (JObject o) -> bt_wf o) ->
  openai_with_stream_usage root = Some root' ->
  (exists options, jget root' "stream_options" = Some options
     /\ jget options "include_usage" = Some (JBool true)
     /\ forall key, key <> "include_usage"%string ->
          jget options key = (jget root "stream_options" ≫= fun o => jget o key))
  /\ (forall key, key <> "stream_options"%string -> jget root' key = jget root key)
  /\ openai_with_stream_usage root' = None.
Proof.
  intros Hwf Hwfo Hr.
  assert (exists object options, root = JObject object /\ bt_wf options
    /\ root' = JObject (bt_insert "stream_options"
                (JObject (bt_insert "include_usage" (JBool true) options)) object)%string
    /\ (jget root "stream" ≫= as_bool = Some true)
    /\ forall key, bt_get key options = (jget root "stream_options" ≫= fun o => jget o key))
    as (object & options & -> & Hwo & -> & Hs & Ho).
  { destruct root as [| | | | | |object]; try done. cbn [openai_with_stream_usage] in Hr.
    case_bool_decide as Hs; [|done]. cbn [negb] in Hr.
    destruct (jget (JObject object) "stream_options") as [o|] eqn:Hso.
    - destruct o as [| | | | | |options]; try (injection Hr as <-; eexists _, []; split_and!; [done|constructor|done..]).
      case_bool_decide; [done|]. injection Hr as <-. eexists _, options. split_and!; [done|by apply Hwfo|done..].
    - injection Hr as <-. eexists _, []. split_and!; [done|constructor|done..]. }
  assert (forall key, jget (JObject (bt_insert "stream_options"
      (JObject (bt_insert "include_usage" (JBool true) options)) object)) key
    = if bool_decide (key = "stream_options")
      then Some (JObject (bt_insert "include_usage" (JBool true) options)) else bt_get key object)%string as Hget.
  { intros key. cbn [jget]. unfold bt_insert. case_bool_decide as Hk.
    - subst. by rewrite bt_get_update_eq.
    - by rewrite bt_get_update_ne by eauto. }
  split_and!.
  - eexists. rewrite Hget. split; [done|]. cbn [jget]. unfold bt_insert. split.
    + by rewrite bt_get_update_eq.
    + intros key Hk. by rewrite bt_get_update_ne.
  - intros key Hk. rewrite Hget. by rewrite bool_decide_eq_false_2.
  - unfold openai_with_stream_usage. rewrite !Hget. cbn [jget] in Hs.
    rewrite (bool_decide_eq_false_2 ("stream" = "stream_options")%string) by done. rewrite Hs.
    rewrite bool_decide_eq_true_2 by done. cbn [negb]. rewrite bool_decide_eq_true_2 by done.
    cbn [jget]. unfold bt_insert. rewrite bt_get_update_eq. by rewrite bool_decide_eq_true_2.
Qed.
