(* ===== verification/Gateway.v ===== *)
(** * The AI gateway: admission of a paid call

    [crates/buzz-relay/src/gateway/mod.rs], the admission controller: the spend
    an account's calls made in the last hour, the bounded map of accounts with
    their gates, and the admission of one call against its balance, its hourly
    cap and its number of calls in flight. A [HashMap] of [Arc]s is a map to
    addresses and a heap of entries, so that two holders of one entry share it.
    Instants and durations are nanoseconds. The facts of each part follow. *)

From Stdlib Require Import ZArith Lia Ascii Sorted.
From stdpp Require Import base gmap list strings numbers sorting.
From S2P Require Import Prelude MachineInt RustStr Credits.
Local Open Scope Z_scope.
Local Open Scope colony_scope.

Definition ADMISSION_FLOOR_NANOUSD : Z := 50000000.
Definition MAX_MAX_IN_FLIGHT : Z := 4.
Definition MAX_ADMISSION_ENTRIES : nat := 4096.
Definition second : Z := 1000000000.
Definition millisecond : Z := 1000000.
Definition BURN_WINDOW : Z := 3600 * second.
Definition ADMISSION_IDLE_TTL : Z := 3600 * second.
(** The instant of a database timestamp, which [Credits] counts in seconds. *)
Definition instant (timestamp : Z) : Z := timestamp * second.

(** ** The spend of the last hour *)

(** [SpendPoint]. *)
Record SpendPoint := { ledger_id : Z; sp_reference : string; at_ : Z; cost_nanousd : Z }.
#[export] Instance SpendPoint_eq_dec : EqDecision SpendPoint.
Proof. solve_decision. Defined.

(** [AccountRuntime]. *)
Record AccountRuntime := {
  in_flight : Z;
  spend_nanousd : Z;
  spend : list SpendPoint;
  last_touched : option Z;
}.
Definition new_runtime : AccountRuntime :=
  {| in_flight := 0; spend_nanousd := 0; spend := []; last_touched := None |}.

(** The loop of [prune]: the queue and the total after it. *)
Fixpoint prune_points (cutoff total : Z) (points : list SpendPoint) : Z * list SpendPoint :=
  match points with
  | point :: rest =>
      if at_ point <=? cutoff
      then prune_points cutoff (saturate_i64 (total - cost_nanousd point)) rest
      else (total, points)
  | [] => (total, [])
  end.
(** [AccountRuntime::prune]. *)
Definition prune (now : Z) (r : AccountRuntime) : AccountRuntime :=
  let '(total, points) := prune_points (now - BURN_WINDOW) (spend_nanousd r) (spend r) in
  {| in_flight := in_flight r; spend_nanousd := total; spend := points; last_touched := last_touched r |}.

(** [position(|current| current.at > point.at)] and the insertion there. *)
Fixpoint insert_point (point : SpendPoint) (points : list SpendPoint) : list SpendPoint :=
  match points with
  | current :: rest =>
      if at_ point <? at_ current then point :: points else current :: insert_point point rest
  | [] => [point]
  end.
(** The point is already in the queue. *)
Definition known (point : SpendPoint) (points : list SpendPoint) : bool :=
  ((0 <? ledger_id point) && existsb (fun c => ledger_id c =? ledger_id point) points)
  || (negb (str_is_empty (sp_reference point))
      && existsb (fun c => String.eqb (sp_reference c) (sp_reference point)) points).
(** [AccountRuntime::push_spend]. *)
Definition push_spend (point : SpendPoint) (r : AccountRuntime) : AccountRuntime :=
  if (cost_nanousd point <=? 0) || known point (spend r) then r
  else {| in_flight := in_flight r; spend_nanousd := saturate_i64 (spend_nanousd r + cost_nanousd point);
          spend := insert_point point (spend r); last_touched := last_touched r |}.

(** [AccountRuntime::touch]. *)
Definition touch (now : Z) (r : AccountRuntime) : AccountRuntime :=
  {| in_flight := in_flight r; spend_nanousd := spend_nanousd r; spend := spend r;
     last_touched := Some now |}.
Definition with_in_flight (n : Z) (r : AccountRuntime) : AccountRuntime :=
  {| in_flight := n; spend_nanousd := spend_nanousd r; spend := spend r;
     last_touched := last_touched r |}.

(** [num_milliseconds] truncates toward zero. *)
Definition retry_secs (left : Z) : Z :=
  let millis := Z.max (Z.quot left millisecond) 1 in
  Z.min (Z.max ((millis + 999) / 1000) 1) (BURN_WINDOW / second + 1).
(** The loop of [retry_after_secs]. *)
Fixpoint retry_points (cap now remaining : Z) (points : list SpendPoint) : Z :=
  match points with
  | point :: rest =>
      let remaining := saturate_i64 (remaining - cost_nanousd point) in
      if remaining <? cap then retry_secs (at_ point + BURN_WINDOW - now)
      else retry_points cap now remaining rest
  | [] => 1
  end.
(** [AccountRuntime::retry_after_secs]. *)
Definition retry_after_secs (cap now : Z) (r : AccountRuntime) : Z :=
  retry_points cap now (spend_nanousd r) (spend r).

(** [release_runtime]: at zero it only logs. *)
Definition release_runtime (r : AccountRuntime) : AccountRuntime :=
  if in_flight r =? 0 then r else with_in_flight (in_flight r - 1) r.

(** ** The accounts *)

(** [AccountAdmissionEntry]: whether the gate is held, how many operations have
    registered for it, and the runtime behind its own lock. *)
Record Entry := { gate : bool; gate_users : Z; runtime : AccountRuntime }.
Definition blank_entry : Entry := {| gate := false; gate_users := 0; runtime := new_runtime |}.
Definition on_runtime (f : AccountRuntime -> AccountRuntime) (e : Entry) : Entry :=
  {| gate := gate e; gate_users := gate_users e; runtime := f (runtime e) |}.
Definition set_gate (b : bool) (e : Entry) : Entry :=
  {| gate := b; gate_users := gate_users e; runtime := runtime e |}.
(** [fetch_add], [fetch_sub] of an [AtomicU32] wrap. *)
Definition add_users (n : Z) (e : Entry) : Entry :=
  {| gate := gate e; gate_users := (gate_users e + n) mod 4294967296; runtime := runtime e |}.

(** [AdmissionDefaults]. *)
Record AdmissionDefaults := {
  d_typical_call_cost : Z;
  d_max_in_flight : Z;
  d_hourly_burn_cap : Z;
}.

(** [AdmissionController]: [entries] gives the address of an account's entry,
    [heap] what is there. An entry taken out of [entries] stays in the [heap]
    for those who hold it. *)
Record AdmissionController := {
  entries : gmap string nat;
  heap : gmap nat Entry;
  next_address : nat;
  closed : bool;
}.
Definition empty_controller : AdmissionController :=
  {| entries := ∅; heap := ∅; next_address := 0; closed := false |}.

Inductive AdmissionError :=
| Payment (balance_nanousd required_nanousd : Z)
| Rate (message : string) (retry_after_secs : Z)
| Database (error : DbError).

(** What its holder reads at [a], and how it changes it. *)
Definition entry_at (c : AdmissionController) (a : nat) : Entry := default blank_entry (heap c !! a).
Definition at_entry (a : nat) (f : Entry -> Entry) (c : AdmissionController) : AdmissionController :=
  {| entries := entries c; heap := alter f a (heap c); next_address := next_address c;
     closed := closed c |}.

(** [safe] of [prune_idle_entries]. *)
Definition idle (now : Z) (e : Entry) : bool :=
  (gate_users e =? 0) && (in_flight (runtime e) =? 0) && bool_decide (spend (runtime e) = [])
  && match last_touched (runtime e) with Some t => t + ADMISSION_IDLE_TTL <=? now | None => false end.
(** [prune_idle_entries]: every entry of the map loses its old spend, and the
    idle ones leave the map. *)
Definition mapped (c : AdmissionController) (a : nat) : bool :=
  bool_decide (a ∈ (map_to_list (entries c)).*2).
Definition prune_heap (now : Z) (c : AdmissionController) : gmap nat Entry :=
  map_imap (fun a e => Some (if mapped c a then on_runtime (prune now) e else e)) (heap c).
Definition prune_idle_entries (now : Z) (c : AdmissionController) : AdmissionController :=
  let heap' := prune_heap now c in
  {| entries := filter (fun pa => idle now (default blank_entry (heap' !! snd pa)) = false) (entries c);
     heap := heap'; next_address := next_address c; closed := closed c |}.

(** A new entry for [pk], registered by [users] operations. *)
Definition insert_entry (pk : string) (users : Z) (c : AdmissionController) : AdmissionController :=
  {| entries := <[pk := next_address c]> (entries c);
     heap := <[next_address c := add_users users blank_entry]> (heap c);
     next_address := S (next_address c); closed := closed c |}.

(** [entry_unchecked]. *)
Definition entry_unchecked (pk : string) (c : AdmissionController) : nat * AdmissionController :=
  match entries c !! pk with
  | Some a => (a, c)
  | None => (next_address c, insert_entry pk 0 c)
  end.

(** [entry_for_admission]: one turn under the lock of the map. *)
Definition entry_for_admission (now : Z) (pk : string) (c : AdmissionController)
    : Result nat AdmissionError * AdmissionController :=
  let c := prune_idle_entries now c in
  match entries c !! pk with
  | Some a => (Ok a, at_entry a (add_users 1) c)
  | None =>
      if (MAX_ADMISSION_ENTRIES <=? size (entries c))%nat
      then (Err (Rate "gateway admission capacity exhausted" 1), c)
      else (Ok (next_address c), insert_entry pk 1 c)
  end.

(** The rebuild of [try_new]: [clock] is read once per debit. *)
Fixpoint rebuild (recent : list RecentDebit) (clock : nat -> Z) (n : nat) (c : AdmissionController)
    : AdmissionController :=
  match recent with
  | [] => c
  | debit :: recent =>
      let '(a, c) := entry_unchecked (rd_pubkey debit) c in
      let point := {| ledger_id := rd_id debit; sp_reference := rd_reference debit;
                      at_ := instant (rd_created_at debit); cost_nanousd := rd_cost debit |} in
      rebuild recent clock (S n) (at_entry a (on_runtime (fun r => touch (clock n) (push_spend point r))) c)
  end.
(** [try_new]: the defaults it keeps and the controller, or the number of
    accounts that is over the limit. *)
Definition try_new (defaults : AdmissionDefaults) (clock : nat -> Z) (recent : list RecentDebit)
    : Result (AdmissionDefaults * AdmissionController) nat :=
  let defaults := {| d_typical_call_cost := d_typical_call_cost defaults;
                     d_max_in_flight := Z.min (d_max_in_flight defaults) MAX_MAX_IN_FLIGHT;
                     d_hourly_burn_cap := d_hourly_burn_cap defaults |} in
  let accounts := size (list_to_set (rd_pubkey <$> recent) : gset string) in
  fail_if (MAX_ADMISSION_ENTRIES <? accounts)%nat with accounts;
  Ok (defaults, rebuild recent clock 0 empty_controller).

(** [GatewayState::new_with_clock]: [authority] is whether the advisory lock of
    the deployment was free; then the debits since the start of the window are
    read. A timestamp is kept when its instant is in the window. *)
Definition window_start (now : Z) : Z := - ((- (now - BURN_WINDOW)) / second).
Definition new_with_clock (authority : bool) (defaults : AdmissionDefaults) (now : Z) (clock : nat -> Z)
    (t : Tables) : Result (AdmissionDefaults * AdmissionController) string :=
  fail_if negb authority with "gateway admission authority already held by another relay process"%string;
  match try_new defaults clock (recent_debits (window_start now) t) with
  | Ok r => Ok r
  | Err _ => Err "gateway admission rebuild found too many active accounts"%string
  end.

(** ** One admission *)

(** [u32::try_from] of an [i32]. *)
Definition u32_of (n : Z) : option Z := if 0 <=? n then Some n else None.
(** The account's limits, with the deployment's for those it does not set. *)
Definition flight_cap (defaults : AdmissionDefaults) (account : AdmissionAccount) : Z :=
  Z.min (default (d_max_in_flight defaults) (aa_max_in_flight account ≫= u32_of)) MAX_MAX_IN_FLIGHT.
Definition burn_cap (defaults : AdmissionDefaults) (account : AdmissionAccount) : Z :=
  default (d_hourly_burn_cap defaults) (aa_hourly_burn_cap account).

(** The block [check] of [admit], under the lock of the runtime. *)
Definition check (defaults : AdmissionDefaults) (account : AdmissionAccount) (now : Z) (r : AccountRuntime)
    : Result unit AdmissionError * AccountRuntime :=
  let r := touch now (prune now r) in
  if flight_cap defaults account <=? in_flight r
  then (Err (Rate "gateway concurrency limit reached" 1), r)
  else if burn_cap defaults account <=? spend_nanousd r
  then (Err (Rate "gateway hourly spend limit reached"
               (retry_after_secs (burn_cap defaults account) now r)), r)
  else (Ok tt, with_in_flight (Z.min (in_flight r + 1) u32_max) r).

(** What [with_registered_gate] does once its operation has answered. *)
Definition leave_gate (e : Entry) : Entry := add_users (-1) (set_gate false e).

(** The reservation's answer: the intent to admit, or the refusal. *)
Definition reservation (r : Result GatewayIntentReservation DbError)
    : Result (GatewaySettlementIntent * AdmissionAccount) AdmissionError :=
  match r with
  | Err e => Err (Database e)
  | Ok (Insufficient available required) => Err (Payment available required)
  | Ok (Reserved intent account) => Ok (intent, account)
  end.

(** The operation of [admit] that runs behind the gate, on the entry at [a]. *)
Definition admit_gated (defaults : AdmissionDefaults) (now discovery_reserved : Z) (pk ref model : string)
    (a : nat) (c : AdmissionController)
    : Db (Result GatewaySettlementIntent AdmissionError * AdmissionController) :=
  db! r := recover (stmt (fun fault clock => create_gateway_settlement_intent fault clock discovery_reserved
              pk ref model (d_typical_call_cost defaults) ADMISSION_FLOOR_NANOUSD)) in
  match reservation r with
  | Err e => db_ret (Ok (Err e, c))
  | Ok (intent, account) =>
      let '(verdict, r) := check defaults account now (runtime (entry_at c a)) in
      let c := at_entry a (on_runtime (fun _ => r)) c in
      match verdict with
      | Ok _ => db_ret (Ok (Ok intent, c))
      | Err error =>
          db! closing := recover (stmt (fun fault clock =>
                           resolve_gateway_intent_no_charge fault clock (i_id intent) 0)) in
          db_ret (Ok (match closing with Ok _ => Err error | Err e => Err (Database e) end, c))
      end
  end.

(** [admit], when its gate is free and nothing else runs: the permit is the
    address of the entry. *)
Definition admit_call (defaults : AdmissionDefaults) (entered checked discovery_reserved : Z)
    (pk ref model : string) (c : AdmissionController)
    : Db (Result (nat * GatewaySettlementIntent) AdmissionError * AdmissionController) :=
  if closed c then db_ret (Ok (Err (Rate "gateway is shutting down" 1), c))
  else
    match entry_for_admission entered pk c with
    | (Err e, c) => db_ret (Ok (Err e, c))
    | (Ok a, c) =>
        db! r := admit_gated defaults checked discovery_reserved pk ref model a (at_entry a (set_gate true) c) in
        let '(result, c) := r in
        let c := at_entry a leave_gate c in
        db_ret (Ok (match result with Ok intent => Ok (a, intent) | Err e => Err e end, c))
    end.

(** [close]. *)
Definition close (c : AdmissionController) : AdmissionController :=
  {| entries := entries c; heap := heap c; next_address := next_address c; closed := true |}.

(** [SettledDebit]. *)
Record SettledDebit := {
  sd_ledger_id : Z;
  sd_reference : string;
  sd_cost : Z;
  sd_created_at : Z;
}.
Definition point_of (s : SettledDebit) : SpendPoint :=
  {| ledger_id := sd_ledger_id s; sp_reference := sd_reference s; at_ := sd_created_at s;
     cost_nanousd := sd_cost s |}.
(** The block of [finish_with] after the settle, under the lock of the
    runtime; without a debit, that of [drop]. *)
Definition settle_runtime (now : Z) (settled : option SettledDebit) (r : AccountRuntime) : AccountRuntime :=
  let r := touch now r in
  release_runtime (match settled with Some s => push_spend (point_of s) r | None => r end).

(** ** Facts of the gateway's spend window

    The queue of an account's spend stays in the order of the ledger's
    timestamps, no debit is in it twice, its total is the sum of what it holds,
    and the wait a refused call is told is the wait it needs. *)

Local Open Scope Z_scope.

Definition earlier (p q : SpendPoint) : Prop := at_ p <= at_ q.
Definition total (points : list SpendPoint) : Z := zsum cost_nanousd points.
Arguments total : simpl never.
Arguments zsum : simpl never.

(** Two points of one debit. *)
Definition same_debit (p q : SpendPoint) : Prop :=
  (0 < ledger_id p /\ ledger_id p = ledger_id q)
  \/ (sp_reference p <> EmptyString /\ sp_reference p = sp_reference q).

Record runtime_ok (r : AccountRuntime) : Prop := {
  ro_sorted : StronglySorted earlier (spend r);
  ro_positive : Forall (fun p => 0 < cost_nanousd p) (spend r);
  ro_distinct : ForallOrdPairs (fun p q => ~ same_debit p q) (spend r);
  ro_total : spend_nanousd r = total (spend r);
  ro_fits : total (spend r) <= i64_max;
}.

Lemma new_runtime_ok : runtime_ok new_runtime.
Proof. split; cbn; [constructor..|done|done]. Qed.

Lemma total_cons p l : total (p :: l) = cost_nanousd p + total l.
Proof. apply zsum_cons. Qed.

Lemma total_nonneg l : Forall (fun p => 0 < cost_nanousd p) l -> 0 <= total l.
Proof.
  induction 1 as [|p l Hp _ IH]; [done|]. rewrite total_cons. lia.
Qed.

Lemma total_insert p l : total (insert_point p l) = cost_nanousd p + total l.
Proof.
  induction l as [|q l IH]; [done|]. cbn. case_match; rewrite !total_cons; [done|]. rewrite IH. lia.
Qed.

Lemma insert_point_elem p l q : q ∈ insert_point p l <-> q = p \/ q ∈ l.
Proof.
  induction l as [|x l IH]; cbn; [set_solver|]. case_match; set_solver.
Qed.

Lemma insert_point_sorted p l : StronglySorted earlier l -> StronglySorted earlier (insert_point p l).
Proof.
  induction 1 as [|q l Hl IH Hq]; cbn; [repeat constructor|].
  destruct (Z.ltb_spec (at_ p) (at_ q)) as [Hlt|Hge].
  - constructor; [by constructor|]. constructor; [unfold earlier; lia|].
    eapply List.Forall_impl; [|exact Hq]. unfold earlier. intros; lia.
  - constructor; [done|]. apply Forall_forall. intros x [->|Hx]%insert_point_elem; [unfold earlier; lia|].
    rewrite Forall_forall in Hq. by apply Hq.
Qed.

Lemma same_debit_sym p q : same_debit p q -> same_debit q p.
Proof. unfold same_debit. intros [[? Heq]|[? Heq]]; rewrite Heq in *; auto. Qed.

Lemma insert_point_distinct p l :
  Forall (fun q => ~ same_debit p q) l -> ForallOrdPairs (fun p q => ~ same_debit p q) l ->
  ForallOrdPairs (fun p q => ~ same_debit p q) (insert_point p l).
Proof.
  intros Hp Hl. induction Hl as [|q l Hq Hl IH]; cbn; [repeat constructor|].
  apply list.Forall_cons in Hp as [Hpq Hp]. case_match; [by repeat constructor|].
  constructor; [|by apply IH]. apply Forall_forall. intros x [->|Hx]%insert_point_elem.
  - by intros ?%same_debit_sym.
  - rewrite Forall_forall in Hq. by apply Hq.
Qed.

Lemma known_spec p l : known p l = true <-> Exists (same_debit p) l.
Proof.
  unfold known, same_debit, str_is_empty. rewrite orb_true_iff, !andb_true_iff, negb_true_iff, !existsb_exists,
    Z.ltb_lt, String.eqb_neq, list.Exists_exists.
  setoid_rewrite <- list_elem_of_In. split.
  - intros [[Hp (q & Hq & Heq%Z.eqb_eq)]|[Hp (q & Hq & Heq%String.eqb_eq)]]; exists q; auto.
  - intros (q & Hq & [[Hp Heq]|[Hp Heq]]); [left|right]; (split; [done|]); exists q; split; try done.
    + by apply Z.eqb_eq.
    + by apply String.eqb_eq.
Qed.

Lemma saturate_i64_in z : i64_min <= z <= i64_max -> saturate_i64 z = z.
Proof. unfold saturate_i64. lia. Qed.

Lemma total_in_i64 l : Forall (fun p => 0 < cost_nanousd p) l -> total l <= i64_max -> i64_min <= total l <= i64_max.
Proof. intros Hl. pose proof (total_nonneg l Hl). unfold i64_min, i64_max. lia. Qed.

Lemma push_spend_ok p r :
  runtime_ok r -> total (spend r) + Z.max 0 (cost_nanousd p) <= i64_max -> runtime_ok (push_spend p r).
Proof.
  intros [Hs Hp Hd Ht Hf] Hroom. unfold push_spend.
  destruct (Z.leb_spec (cost_nanousd p) 0); [done|]. destruct (known p (spend r)) eqn:Hk; [done|].
  assert (~ Exists (same_debit p) (spend r)) as Hnew by (rewrite <- known_spec; congruence).
  cbn [orb]. rewrite Ht. pose proof (total_nonneg _ Hp). split; cbn.
  - by apply insert_point_sorted.
  - apply Forall_forall. intros q [->|Hq]%insert_point_elem; [done|]. rewrite Forall_forall in Hp. by apply Hp.
  - apply insert_point_distinct; [|done]. by apply Forall_Exists_neg.
  - rewrite total_insert, saturate_i64_in; [lia|]. unfold i64_min in *. lia.
  - rewrite total_insert. lia.
Qed.

(** What is left of a sorted queue: the points after the cutoff. *)
Lemma prune_points_filter cutoff n l :
  StronglySorted earlier l -> Forall (fun p => 0 < cost_nanousd p) l -> n = total l -> n <= i64_max ->
  prune_points cutoff n l
  = (total (filter (fun p => cutoff < at_ p) l), filter (fun p => cutoff < at_ p) l).
Proof.
  intros Hs. revert n. induction Hs as [|p l Hl IH Hp]; intros n Hpos -> Hn; [done|].
  apply list.Forall_cons in Hpos as [Hp0 Hpos]. cbn [prune_points].
  destruct (Z.leb_spec (at_ p) cutoff).
  - rewrite filter_cons_False by lia. apply IH; [done| |].
    + rewrite total_cons in *. pose proof (total_in_i64 l Hpos ltac:(lia)).
      rewrite saturate_i64_in; lia.
    + rewrite total_cons in *. pose proof (total_in_i64 l Hpos ltac:(lia)). rewrite saturate_i64_in; lia.
  - assert (filter (fun p => cutoff < at_ p) (p :: l) = p :: l) as ->; [|done].
    rewrite filter_cons_True by lia. f_equal. clear IH Hn Hl.
    induction Hp as [|q l Hq _ IH]; [done|]. rewrite filter_cons_True by (unfold earlier in Hq; lia).
    f_equal. apply IH. by apply list.Forall_cons in Hpos as [_ ?].
Qed.

(** The points of the hour before [now]. *)
Definition within (now : Z) (points : list SpendPoint) : list SpendPoint :=
  filter (fun p => now - BURN_WINDOW < at_ p) points.

Lemma prune_spec now r :
  runtime_ok r ->
  prune now r = {| in_flight := in_flight r; spend_nanousd := total (within now (spend r));
                   spend := within now (spend r); last_touched := last_touched r |}.
Proof.
  intros [Hs Hp _ Ht Hf]. unfold prune. rewrite prune_points_filter; [done..|lia].
Qed.

Lemma filter_total_le (P : SpendPoint -> Prop) `{!forall p, Decision (P p)} l :
  Forall (fun p => 0 < cost_nanousd p) l -> total (filter P l) <= total l.
Proof.
  induction 1 as [|p l Hp _ IH]; [done|]. rewrite filter_cons.
  case_decide; rewrite ?total_cons; lia.
Qed.

Lemma filter_forall {A} (R P : A -> Prop) `{!forall x, Decision (P x)} l : Forall R l -> Forall R (filter P l).
Proof. rewrite !Forall_forall. intros Hall x [_ Hx]%list_elem_of_filter. by apply Hall. Qed.

Lemma filter_sorted (P : SpendPoint -> Prop) `{!forall p, Decision (P p)} l :
  StronglySorted earlier l -> StronglySorted earlier (filter P l).
Proof.
  induction 1 as [|p l Hl IH Hp]; [constructor|]. rewrite filter_cons. case_decide; [|done].
  constructor; [done|]. by apply filter_forall.
Qed.

Lemma filter_pairs {A} (R : A -> A -> Prop) (P : A -> Prop) `{!forall x, Decision (P x)} l :
  ForallOrdPairs R l -> ForallOrdPairs R (filter P l).
Proof.
  induction 1 as [|p l Hp Hl IH]; [constructor|]. rewrite filter_cons. case_decide; [|done].
  constructor; [|done]. by apply filter_forall.
Qed.

Lemma prune_ok now r : runtime_ok r -> runtime_ok (prune now r).
Proof.
  intros Hr. rewrite prune_spec by done. destruct Hr as [Hs Hp Hd Ht Hf]. split; cbn.
  - by apply filter_sorted.
  - by apply filter_forall.
  - by apply filter_pairs.
  - done.
  - pose proof (filter_total_le (fun p => now - BURN_WINDOW < at_ p) _ Hp). unfold within. lia.
Qed.

Lemma touch_ok now r : runtime_ok r -> runtime_ok (touch now r).
Proof. by intros []. Qed.
Lemma with_in_flight_ok n r : runtime_ok r -> runtime_ok (with_in_flight n r).
Proof. by intros []. Qed.
Lemma release_runtime_ok r : runtime_ok r -> runtime_ok (release_runtime r).
Proof. intros ?. unfold release_runtime. case_match; [done|]. by apply with_in_flight_ok. Qed.
#[export] Hint Resolve new_runtime_ok prune_ok touch_ok with_in_flight_ok release_runtime_ok : colony.

(** ** The wait of a refused call *)

(** The instant the spend of the hour falls below the cap: a window after the
    first point whose later points are below it. *)
Fixpoint freed_at (cap : Z) (points : list SpendPoint) : option Z :=
  match points with
  | point :: rest => if total rest <? cap then Some (at_ point + BURN_WINDOW) else freed_at cap rest
  | [] => None
  end.

Lemma retry_points_freed cap now l :
  Forall (fun p => 0 < cost_nanousd p) l -> total l <= i64_max ->
  retry_points cap now (total l) l = match freed_at cap l with Some f => retry_secs (f - now) | None => 1 end.
Proof.
  induction 1 as [|p l Hp Hl IH]; intros Hf; [done|]. cbn. rewrite total_cons in *.
  pose proof (total_nonneg l Hl). pose proof (total_in_i64 l Hl ltac:(lia)).
  replace (cost_nanousd p + total l - cost_nanousd p) with (total l) by lia.
  rewrite saturate_i64_in by lia. destruct (total l <? cap); [done|]. apply IH. lia.
Qed.

Lemma freed_at_some cap l : 0 < cap -> cap <= total l -> is_Some (freed_at cap l).
Proof.
  intros Hc. induction l as [|p l IH]; [unfold total, zsum; cbn; lia|]. intros _. cbn.
  destruct (Z.ltb_spec (total l) cap); [by eauto|]. by apply IH.
Qed.

Lemma within_all now l : StronglySorted earlier l ->
  match l with p :: _ => now - BURN_WINDOW < at_ p | [] => True end -> within now l = l.
Proof.
  intros Hs. induction Hs as [|p l Hl IH Hp]; [done|]. intros Hnow. unfold within.
  rewrite filter_cons_True by done. f_equal. apply IH. destruct l as [|q l]; [done|].
  apply list.Forall_cons in Hp as [Hq _]. unfold earlier in Hq. lia.
Qed.

Lemma filter_drop_total (P : SpendPoint -> Prop) `{!forall p, Decision (P p)} p l :
  Forall (fun p => 0 < cost_nanousd p) (p :: l) -> total (filter P l) <= total (filter P (p :: l)).
Proof.
  intros [Hp Hl]%list.Forall_cons. rewrite filter_cons. case_decide; [rewrite total_cons; lia|done].
Qed.

(** Below the cap from that instant on, and not before. *)
Lemma freed_at_spec cap l f now :
  StronglySorted earlier l -> Forall (fun p => 0 < cost_nanousd p) l -> cap <= total l ->
  freed_at cap l = Some f -> (total (within now l) < cap <-> f <= now).
Proof.
  intros Hs Hp. induction Hs as [|p l Hl IH Hpl]; [done|]. cbn [freed_at]. intros Hcap.
  apply list.Forall_cons in Hp as Hp'. destruct Hp' as [Hp0 Hpos].
  destruct (Z.ltb_spec (total l) cap) as [Hlt|Hge].
  - intros [= <-]. split.
    + intros Hw. destruct (Z_le_gt_dec (at_ p + BURN_WINDOW) now) as [|Hgt]; [done|exfalso].
      rewrite (within_all now (p :: l)) in Hw; [lia|by constructor|lia].
    + intros Hnow. unfold within. rewrite filter_cons_False by lia.
      pose proof (filter_total_le (fun q => now - BURN_WINDOW < at_ q) l Hpos). lia.
  - intros Hf. rewrite <- (IH Hpos Hge Hf). unfold within. split; intros Hw.
    + pose proof (filter_drop_total (fun q => now - BURN_WINDOW < at_ q) p l Hp). lia.
    + destruct (decide (now - BURN_WINDOW < at_ p)) as [Hin|Hout]; [exfalso|by rewrite filter_cons_False].
      change (total (within now l) < cap) in Hw. rewrite (within_all now l Hl) in Hw; [lia|].
      destruct l as [|q l']; [done|]. apply list.Forall_cons in Hpl as [Hq _]. unfold earlier in Hq. lia.
Qed.

Lemma freed_at_elem cap l f : freed_at cap l = Some f -> exists p, p ∈ l /\ f = at_ p + BURN_WINDOW.
Proof.
  induction l as [|p l IH]; [done|]. cbn. case_match; [intros [= <-]; exists p; set_solver|].
  intros Hf. destruct (IH Hf) as (q & Hq & ->). exists q. set_solver.
Qed.

(** [retry_secs] rounds a wait up to whole seconds, after dropping what is left
    of a millisecond. *)
Lemma retry_secs_spec left :
  0 < left <= BURN_WINDOW ->
  1 <= retry_secs left <= 3600
  /\ left < retry_secs left * second + millisecond /\ (retry_secs left - 1) * second < left.
Proof.
  intros Hl. assert (BURN_WINDOW = 3600000000000) as HW by reflexivity. rewrite HW in Hl.
  unfold retry_secs, second, millisecond.
  change (BURN_WINDOW / 1000000000 + 1) with 3601.
  rewrite Z.quot_div_nonneg by lia.
  pose proof (Z.div_mod left 1000000 ltac:(lia)) as Hd.
  pose proof (Z.mod_pos_bound left 1000000 ltac:(lia)) as Hm.
  generalize dependent (left mod 1000000). generalize dependent (left / 1000000). intros q r Hd Hr.
  set (m := Z.max q 1). assert (1 <= m <= 3600000) by lia.
  pose proof (Z.div_mod (m + 999) 1000 ltac:(lia)) as He.
  pose proof (Z.mod_pos_bound (m + 999) 1000 ltac:(lia)) as Hn.
  generalize dependent ((m + 999) mod 1000). generalize dependent ((m + 999) / 1000). intros s n He Hn.
  assert (1 <= s <= 3600) by lia.
  rewrite (Z.max_l s 1), Z.min_l by lia. lia.
Qed.

(** A call refused for the spend of its account's last hour is told how long to
    wait, in seconds: between one and an hour. Nothing added meanwhile, a
    millisecond past that wait the spend is below the cap, and a second before
    it, it is not. *)
Lemma retry_after_spec cap now r :
  runtime_ok r -> 0 < cap -> cap <= total (within now (spend r)) ->
  Forall (fun p => at_ p <= now) (spend r) ->
  let wait := retry_after_secs cap now (prune now r) in
  1 <= wait <= 3600
  /\ (forall later, now + wait * second + millisecond <= later -> spend_nanousd (prune later r) < cap)
  /\ (forall sooner, now <= sooner <= now + (wait - 1) * second -> cap <= spend_nanousd (prune sooner r)).
Proof.
  intros Hr Hcap Hover Hpast. cbn zeta. pose proof (prune_ok now r Hr) as Hpr.
  rewrite (prune_spec now) in Hpr by done. destruct Hpr as [Hs Hp Hd Ht Hf]. cbn in Hs, Hp, Hd, Ht, Hf.
  unfold retry_after_secs. rewrite (prune_spec now) by done. cbn [spend_nanousd spend].
  rewrite retry_points_freed by done.
  destruct (freed_at_some cap (within now (spend r)) Hcap Hover) as [f Hfree]. rewrite Hfree.
  destruct (freed_at_elem _ _ _ Hfree) as (p & Hin & Hfp).
  apply list_elem_of_filter in Hin as [Hnow Hin]. pose proof (proj1 (list.Forall_forall _ _) Hpast p Hin) as Hpp. cbn in Hpp.
  destruct (retry_secs_spec (f - now) ltac:(lia)) as (Hw & Hup & Hdown).
  assert (forall t, now <= t -> spend_nanousd (prune t r) = total (within t (within now (spend r)))) as Hwin.
  { intros t Hle. rewrite prune_spec by done. cbn. f_equal. unfold within. rewrite list_filter_filter_l; [done|].
    intros; lia. }
  split; [done|]. split.
  - intros later Hle. rewrite Hwin by (unfold second, millisecond in *; lia).
    apply (freed_at_spec cap _ f later Hs Hp Hover Hfree). lia.
  - intros sooner [Hge Hle]. rewrite Hwin by done.
    pose proof (freed_at_spec cap _ f sooner Hs Hp Hover Hfree) as Hiff. lia.
Qed.
