(* ===== verification/GatewayWorld.v ===== *)
(** * The AI gateway: concurrent calls

    The handlers, the response workers and the permits being given back of one
    relay process ([crates/buzz-relay/src/gateway/mod.rs]) as tasks over one
    [AdmissionController]. A task moves from one point where another task can
    run to the next: a lock of the map, of a gate or of a runtime, an atomic
    counter, an answer of the database or of the provider. What the database
    and the provider answer is any value. A future that is dropped disappears
    where it waits: what it registered stays registered, the guard it holds is
    released, and the permit it owns is given back by a task of its own. *)

From Stdlib Require Import ZArith Lia Ascii.
From stdpp Require Import base gmap fin_maps list strings numbers.
From S2P Require Import Prelude MachineInt RustStr Credits Gateway.
Local Open Scope Z_scope.

(** What a task does behind the gate: admit a call, close the intent of a call
    it refuses, answer a refusal or a grant, settle a call, or give back the
    permit of a dropped one. *)
Inductive Work := Admitting | Closing | Refused | Granted | Settling | Releasing.
#[export] Instance Work_eq_dec : EqDecision Work.
Proof. solve_decision. Defined.

(** Where a task is: in [with_registered_gate] (waiting for the gate, holding
    it, about to drop the guard, about to deregister), calling the provider
    with its permit, or a dropped permit whose task has not begun. *)
Inductive Phase :=
| Waiting (w : Work)
| Inside (w : Work)
| Unlocking (w : Work)
| Deregistering (w : Work)
| Calling
| Dropped.
#[export] Instance Phase_eq_dec : EqDecision Phase.
Proof. solve_decision. Defined.

Record Task := { t_pubkey : string; t_entry : nat; t_phase : Phase }.
(** [entering] are the handlers, by account, that have found the controller open
    and not yet taken the lock of its map; nothing in between lets a future be
    dropped. *)
Record World := { ctl : AdmissionController; tasks : gmap nat Task; entering : gmap nat string }.

(** The task counts in the [gate_users] of its entry; it holds its gate; it
    counts in its [in_flight]. *)
Definition registered (p : Phase) : bool :=
  match p with Waiting _ | Inside _ | Unlocking _ | Deregistering _ => true | _ => false end.
Definition inside (p : Phase) : bool :=
  match p with Inside _ | Unlocking _ => true | _ => false end.
Definition holds (p : Phase) : bool :=
  match p with
  | Waiting (Settling | Releasing) | Inside (Settling | Releasing)
  | Unlocking Granted | Deregistering Granted | Calling | Dropped => true
  | _ => false
  end.

Definition with_phase (t : Task) (p : Phase) : Task :=
  {| t_pubkey := t_pubkey t; t_entry := t_entry t; t_phase := p |}.
(** Task [k] is [t] and goes on at [p], having changed its entry by [f]; or it
    ends. *)
Definition goes (k : nat) (t : Task) (f : Entry -> Entry) (p : Phase) (w : World) : World :=
  {| ctl := at_entry (t_entry t) f (ctl w); tasks := <[k := with_phase t p]> (tasks w);
     entering := entering w |}.
Definition ends (k : nat) (t : Task) (f : Entry -> Entry) (w : World) : World :=
  {| ctl := at_entry (t_entry t) f (ctl w); tasks := delete k (tasks w);
     entering := entering w |}.
Definition same (e : Entry) : Entry := e.

(** A step is a request that comes in or the gateway's closing ([Outside]), a
    handler's taking the map's lock ([Enter]), the next thing a task does ([Run]),
    or its being dropped ([Cut]). *)
Inductive Label := Outside | Enter (j : nat) | Run (k : nat) | Cut (k : nat).

Section Steps.
Variable defaults : AdmissionDefaults.

Inductive gstep : Label -> World -> World -> Prop :=
(** The first lines of [admit]: the load of [closed], and the map's lock. *)
| s_open w pk j :
    closed (ctl w) = false -> entering w !! j = None ->
    gstep Outside w {| ctl := ctl w; tasks := tasks w; entering := <[j := pk]> (entering w) |}
| s_arrive w now pk j k a c :
    entering w !! j = Some pk -> tasks w !! k = None ->
    entry_for_admission now pk (ctl w) = (Ok a, c) ->
    gstep (Enter j) w {|
      ctl := c; entering := delete j (entering w);
      tasks := <[k := {| t_pubkey := pk; t_entry := a; t_phase := Waiting Admitting |}]> (tasks w) |}
| s_full w now pk j e c :
    entering w !! j = Some pk -> entry_for_admission now pk (ctl w) = (Err e, c) ->
    gstep (Enter j) w {| ctl := c; tasks := tasks w; entering := delete j (entering w) |}
| s_close w : gstep Outside w {| ctl := close (ctl w); tasks := tasks w; entering := entering w |}
(** [with_registered_gate]. *)
| s_lock w k t work :
    tasks w !! k = Some t -> t_phase t = Waiting work -> gate (entry_at (ctl w) (t_entry t)) = false ->
    gstep (Run k) w (goes k t (set_gate true) (Inside work) w)
| s_unlock w k t work :
    tasks w !! k = Some t -> t_phase t = Unlocking work ->
    gstep (Run k) w (goes k t (set_gate false) (Deregistering work) w)
| s_granted w k t :
    tasks w !! k = Some t -> t_phase t = Deregistering Granted ->
    gstep (Run k) w (goes k t (add_users (-1)) Calling w)
| s_done w k t work :
    tasks w !! k = Some t -> t_phase t = Deregistering work -> work <> Granted ->
    gstep (Run k) w (ends k t (add_users (-1)) w)
(** The operation of [admit]: no reservation, or one and the check. *)
| s_unreserved w k t :
    tasks w !! k = Some t -> t_phase t = Inside Admitting ->
    gstep (Run k) w (goes k t same (Unlocking Refused) w)
| s_checked w k t account now r :
    tasks w !! k = Some t -> t_phase t = Inside Admitting ->
    check defaults account now (runtime (entry_at (ctl w) (t_entry t))) = (Ok tt, r) ->
    gstep (Run k) w (goes k t (on_runtime (fun _ => r)) (Unlocking Granted) w)
| s_over w k t account now error r :
    tasks w !! k = Some t -> t_phase t = Inside Admitting ->
    check defaults account now (runtime (entry_at (ctl w) (t_entry t))) = (Err error, r) ->
    gstep (Run k) w (goes k t (on_runtime (fun _ => r)) (Inside Closing) w)
| s_intent_closed w k t :
    tasks w !! k = Some t -> t_phase t = Inside Closing ->
    gstep (Run k) w (goes k t same (Unlocking Refused) w)
(** [finish_with], from the call's end to the settled debit. *)
| s_finish w k t :
    tasks w !! k = Some t -> t_phase t = Calling ->
    gstep (Run k) w (goes k t (add_users 1) (Waiting Settling) w)
| s_settled w k t now settled :
    tasks w !! k = Some t -> t_phase t = Inside Settling ->
    gstep (Run k) w (goes k t (on_runtime (settle_runtime now settled)) (Unlocking Settling) w)
(** [AdmissionPermit::drop]: the task it spawns, or, outside of a runtime, at
    once. *)
| s_release_begins w k t :
    tasks w !! k = Some t -> t_phase t = Dropped ->
    gstep (Run k) w (goes k t (add_users 1) (Waiting Releasing) w)
| s_released w k t now :
    tasks w !! k = Some t -> t_phase t = Inside Releasing ->
    gstep (Run k) w (goes k t (on_runtime (settle_runtime now None)) (Unlocking Releasing) w)
| s_release_direct w k t :
    tasks w !! k = Some t -> t_phase t = Dropped ->
    gstep (Run k) w (ends k t (on_runtime release_runtime) w)
(** A dropped future: before its permit, and after. *)
| s_cut_waiting w k t :
    tasks w !! k = Some t -> t_phase t = Waiting Admitting ->
    gstep (Cut k) w (ends k t same w)
| s_cut_inside w k t work :
    tasks w !! k = Some t -> t_phase t = Inside work -> work = Admitting \/ work = Closing ->
    gstep (Cut k) w (ends k t (set_gate false) w)
| s_cut_call w k t :
    tasks w !! k = Some t -> t_phase t = Calling ->
    gstep (Cut k) w (goes k t same Dropped w)
| s_cut_finish w k t :
    tasks w !! k = Some t -> t_phase t = Waiting Settling ->
    gstep (Cut k) w (goes k t same Dropped w)
| s_cut_settle w k t :
    tasks w !! k = Some t -> t_phase t = Inside Settling ->
    gstep (Cut k) w (goes k t (set_gate false) Dropped w).

(** The worlds [n] steps after the start of a relay. *)
Inductive reach : nat -> World -> Prop :=
| reach_start d clock recent c :
    try_new d clock recent = Ok (defaults, c) -> reach 0 {| ctl := c; tasks := ∅; entering := ∅ |}
| reach_step n l w w' : reach n w -> gstep l w w' -> reach (S n) w'.

End Steps.

(** ** Counting tasks *)

(** The tasks of [ts] that [P] holds of. *)
Definition count (P : Task -> bool) (ts : gmap nat Task) : Z :=
  Z.of_nat (size (filter (fun kt => P (snd kt) = true) ts)).
Definition b2z (b : bool) : Z := if b then 1 else 0.

Lemma count_empty P : count P ∅ = 0.
Proof. unfold count. by rewrite map_filter_empty, map_size_empty. Qed.

Lemma count_insert P k t ts : ts !! k = None -> count P (<[k := t]> ts) = count P ts + b2z (P t).
Proof.
  intros Hk. unfold count. destruct (P t) eqn:Ht; cbn [b2z].
  - rewrite map_filter_insert_True by done. rewrite map_size_insert_None; [lia|].
    apply map_lookup_filter_None. by left.
  - rewrite map_filter_insert_False by (cbn; congruence). rewrite delete_id by done. lia.
Qed.

Lemma count_delete P k t ts : ts !! k = Some t -> count P (delete k ts) = count P ts - b2z (P t).
Proof.
  intros Hk. rewrite <- (insert_delete_id ts k t Hk) at 2.
  rewrite count_insert by apply lookup_delete_eq. lia.
Qed.

Lemma count_update P k t t' ts :
  ts !! k = Some t -> count P (<[k := t']> ts) = count P ts - b2z (P t) + b2z (P t').
Proof.
  intros Hk. rewrite <- insert_delete_eq. rewrite count_insert by apply lookup_delete_eq.
  by rewrite (count_delete _ _ t).
Qed.

Lemma count_nonneg P ts : 0 <= count P ts.
Proof. unfold count. lia. Qed.

Lemma count_pos P k t ts : ts !! k = Some t -> P t = true -> 1 <= count P ts.
Proof.
  intros Hk HP. pose proof (count_delete P k t ts Hk). pose proof (count_nonneg P (delete k ts)).
  rewrite HP in *. cbn in *. lia.
Qed.

Lemma count_zero P ts : (forall k t, ts !! k = Some t -> P t = false) -> count P ts = 0.
Proof.
  intros HP. unfold count. replace (filter _ ts) with (∅ : gmap nat Task); [by rewrite map_size_empty|].
  symmetry. apply map_empty. intros k. apply map_lookup_filter_None. right. intros t Ht. cbn.
  rewrite (HP k t Ht). done.
Qed.

Lemma count_exists P ts : 1 <= count P ts -> exists k t, ts !! k = Some t /\ P t = true.
Proof.
  intros Hc. destruct (decide (filter (fun kt => P (snd kt) = true) ts = ∅)) as [He|He].
  - unfold count in Hc. rewrite He, map_size_empty in Hc. lia.
  - apply map_choose in He as (k & t & Hkt). apply map_lookup_filter_Some in Hkt as [? ?]. by exists k, t.
Qed.

Lemma count_mono (P Q : Task -> bool) ts :
  (forall k t, ts !! k = Some t -> P t = true -> Q t = true) -> count P ts <= count Q ts.
Proof.
  intros HPQ. unfold count. apply inj_le, map_subseteq_size, map_subseteq_spec.
  intros k t [Hk HP]%map_lookup_filter_Some. apply map_lookup_filter_Some. split; [done|]. by eapply HPQ.
Qed.

(** The tasks on the entry at [a] that [Q] holds of. *)
Definition on_entry (a : nat) (Q : Phase -> bool) (t : Task) : bool := (t_entry t =? a)%nat && Q (t_phase t).
