(* ===== verification/GatewayWorldFacts.v ===== *)
(** * Facts of the gateway's concurrent calls

    The invariant of every reachable world: each task's entry is the one the
    map has for its account, the counters of an entry count its tasks, its gate
    is held by one of them, and the map is bounded. Registrations outlive a
    dropped task, so [gate_users] is what registered so far, less those that
    deregistered, modulo 2^32; below 2^32 steps it has not wrapped. *)

From Stdlib Require Import ZArith Lia Ascii.
From stdpp Require Import base gmap fin_maps list strings numbers.
From S2P Require Import Prelude MachineInt RustStr Credits Gateway GatewayWorld.
Local Open Scope Z_scope.

Definition users_modulus : Z := 4294967296.

(** The counters of the entry [e] at [a] against the tasks [ts], [n] steps in. *)
Record entry_ok (n : nat) (ts : gmap nat Task) (a : nat) (e : Entry) : Prop := {
  eo_flight : in_flight (runtime e) = count (on_entry a holds) ts;
  eo_cap : in_flight (runtime e) <= MAX_MAX_IN_FLIGHT;
  eo_gate : count (on_entry a inside) ts = b2z (gate e);
  eo_users : exists g, gate_users e = g mod users_modulus
               /\ count (on_entry a registered) ts <= g <= Z.of_nat n;
}.

(** The map and the heap: addresses are in use or fresh, and the map is
    bounded. *)
Record map_ok (c : AdmissionController) : Prop := {
  mo_heap : forall pk a, entries c !! pk = Some a -> is_Some (heap c !! a);
  mo_fresh : forall a, (next_address c <= a)%nat -> heap c !! a = None;
  mo_size : (size (entries c) <= MAX_ADMISSION_ENTRIES)%nat;
}.

Record world_ok (n : nat) (w : World) : Prop := {
  wo_map : map_ok (ctl w);
  wo_entries : forall a e, heap (ctl w) !! a = Some e -> entry_ok n (tasks w) a e;
  wo_authority : forall k t, tasks w !! k = Some t -> entries (ctl w) !! t_pubkey t = Some (t_entry t);
}.

Lemma live p : registered p = true \/ holds p = true.
Proof. destruct p; auto. Qed.

Lemma gate_users_wrap g k : ((g mod users_modulus) + k) mod 4294967296 = (g + k) mod users_modulus.
Proof. apply Zplus_mod_idemp_l. Qed.

Definition opt_phase (Q : Phase -> bool) (p : option Phase) : Z :=
  match p with Some p => b2z (Q p) | None => 0 end.

(** A task [t] goes from [old] to [new] (no phase is no task), and its entry
    from [e] to [f e]: the counters move with it. *)
Record moves (n : nat) (f : Entry -> Entry) (old new : option Phase) (e : Entry) : Prop := {
  mv_flight : in_flight (runtime (f e))
              = in_flight (runtime e) - opt_phase holds old + opt_phase holds new;
  mv_cap : in_flight (runtime (f e)) <= MAX_MAX_IN_FLIGHT;
  mv_gate : b2z (gate (f e)) = b2z (gate e) - opt_phase inside old + opt_phase inside new;
  mv_users : exists d, gate_users (f e) = (gate_users e + d) mod users_modulus
               /\ opt_phase registered new - opt_phase registered old <= d <= 1;
}.

Definition update_task (k : nat) (t : Task) (new : option Phase) (ts : gmap nat Task) : gmap nat Task :=
  match new with Some p => <[k := with_phase t p]> ts | None => delete k ts end.

Lemma count_move Q a k t old new ts :
  ts !! k = (with_phase t <$> old) ->
  count (on_entry a Q) (update_task k t new ts)
  = count (on_entry a Q) ts
    + if (t_entry t =? a)%nat then opt_phase Q new - opt_phase Q old else 0.
Proof.
  intros Hk. unfold update_task.
  assert (forall p, b2z (on_entry a Q (with_phase t p))
                    = if (t_entry t =? a)%nat then b2z (Q p) else 0) as Hp.
  { intros p. unfold on_entry. cbn. by destruct (t_entry t =? a)%nat. }
  destruct old as [p|], new as [q|]; cbn in Hk |- *.
  - rewrite (count_update _ _ _ _ _ Hk), !Hp. case_match; lia.
  - rewrite (count_delete _ _ _ _ Hk), Hp. case_match; lia.
  - rewrite (count_insert _ _ _ _ Hk), Hp. case_match; lia.
  - rewrite delete_id by done. case_match; lia.
Qed.

Lemma entry_ok_moves n ts f k t old new e :
  ts !! k = (with_phase t <$> old) -> entry_ok n ts (t_entry t) e -> moves n f old new e ->
  entry_ok (S n) (update_task k t new ts) (t_entry t) (f e).
Proof.
  intros Hk [Hf Hc Hg (g & Hu & Hlo & Hhi)] [Mf Mc Mg (d & Mu & Mlo & Mhi)].
  split; rewrite ?(count_move _ _ _ _ old _ _ Hk), ?Nat.eqb_refl.
  - lia.
  - done.
  - lia.
  - exists (g + d). split; [by rewrite Mu, Hu, gate_users_wrap|lia].
Qed.

Lemma entry_ok_others n ts k t old new a e :
  ts !! k = (with_phase t <$> old) -> t_entry t <> a -> entry_ok n ts a e ->
  entry_ok (S n) (update_task k t new ts) a e.
Proof.
  intros Hk Ha [Hf Hc Hg (g & Hu & Hlo & Hhi)].
  split; rewrite ?(count_move _ _ _ _ old _ _ Hk), ?(proj2 (Nat.eqb_neq _ _) Ha), ?Z.add_0_r; try done.
  exists g. split; [done|lia].
Qed.

Lemma map_ok_at a f c : map_ok c -> map_ok (at_entry a f c).
Proof.
  intros [Hh Hf Hs]. split; cbn; [| |done].
  - intros pk b Hb. rewrite lookup_alter. destruct (Hh _ _ Hb) as [e He]. case_decide; subst; rewrite He; eauto.
  - intros b Hb. rewrite lookup_alter. case_decide; subst; by rewrite Hf.
Qed.

Lemma entry_at_some c a e : heap c !! a = Some e -> entry_at c a = e.
Proof. unfold entry_at. by intros ->. Qed.

(** The step of one task. *)
Lemma world_moves n w k t f old new :
  world_ok n w -> tasks w !! k = (with_phase t <$> old) ->
  entries (ctl w) !! t_pubkey t = Some (t_entry t) ->
  (forall e, heap (ctl w) !! t_entry t = Some e -> moves n f old new e) ->
  forall i, world_ok (S n) {| ctl := at_entry (t_entry t) f (ctl w); tasks := update_task k t new (tasks w);
                              entering := i |}.
Proof.
  intros [Hm He Ha] Hk Hpk Hmv i. split; cbn [ctl tasks].
  - by apply map_ok_at.
  - intros a e Hae. cbn [heap at_entry] in Hae. rewrite lookup_alter in Hae. case_decide as Heq; subst.
    + destruct (heap (ctl w) !! t_entry t) as [e0|] eqn:He0; [|done]. injection Hae as <-.
      apply (entry_ok_moves n _ _ _ _ old); auto.
    + apply (entry_ok_others n _ _ _ old); auto.
  - intros k' t' Hk'. cbn [entries at_entry]. unfold update_task in Hk'. destruct new as [p|].
    + apply lookup_insert_Some in Hk' as [[_ <-]|[_ Hk']]; [done|by apply (Ha k')].
    + apply lookup_delete_Some in Hk' as [_ Hk']. by apply (Ha k').
Qed.

(** ** The moves of the steps *)

Lemma moves_phase n w k t :
  world_ok n w -> tasks w !! k = Some t -> tasks w !! k = (with_phase t <$> Some (t_phase t)).
Proof. intros _ ->. by destruct t. Qed.

Lemma add_users_gate k e : gate (add_users k e) = gate e /\ runtime (add_users k e) = runtime e.
Proof. done. Qed.

Lemma gate_users_same n a ts e : entry_ok n ts a e -> gate_users e = gate_users e mod users_modulus.
Proof. intros [_ _ _ (g & -> & _)]. by rewrite Z.mod_mod. Qed.

Lemma moves_intro n f old new e :
  in_flight (runtime (f e)) = in_flight (runtime e) - opt_phase holds old + opt_phase holds new ->
  in_flight (runtime (f e)) <= MAX_MAX_IN_FLIGHT ->
  b2z (gate (f e)) = b2z (gate e) - opt_phase inside old + opt_phase inside new ->
  (exists d, gate_users (f e) = (gate_users e + d) mod users_modulus
     /\ opt_phase registered new - opt_phase registered old <= d <= 1) ->
  moves n f old new e.
Proof. by split. Qed.

Lemma push_spend_flight p r : in_flight (push_spend p r) = in_flight r.
Proof. unfold push_spend. by case_match. Qed.
Lemma prune_flight now r : in_flight (prune now r) = in_flight r.
Proof. unfold prune. by destruct (prune_points _ _ _). Qed.
Lemma release_flight r : 1 <= in_flight r -> in_flight (release_runtime r) = in_flight r - 1.
Proof. intros. unfold release_runtime. by rewrite (proj2 (Z.eqb_neq _ _)) by lia. Qed.
Lemma settle_flight now s r : 1 <= in_flight r -> in_flight (settle_runtime now s r) = in_flight r - 1.
Proof.
  intros. unfold settle_runtime. rewrite release_flight; destruct s; rewrite ?push_spend_flight; done.
Qed.

(** The check lets a call in below the cap, and counts it. *)
Lemma check_ok defaults account now r r' :
  check defaults account now r = (Ok tt, r') ->
  in_flight r < flight_cap defaults account
  /\ in_flight r' = Z.min (in_flight r + 1) u32_max
  /\ spend_nanousd (prune now r) < burn_cap defaults account.
Proof.
  unfold check. change (in_flight (touch now (prune now r))) with (in_flight (prune now r)).
  rewrite prune_flight. destruct (Z.leb_spec (flight_cap defaults account) (in_flight r)); [done|].
  change (spend_nanousd (touch now (prune now r))) with (spend_nanousd (prune now r)).
  destruct (Z.leb_spec (burn_cap defaults account) (spend_nanousd (prune now r))); [done|].
  intros [= <-]. done.
Qed.

Lemma check_error defaults account now r error r' :
  check defaults account now r = (Err error, r') -> in_flight r' = in_flight r.
Proof.
  unfold check. rewrite <- (prune_flight now r). change (in_flight (touch now (prune now r))) with (in_flight (prune now r)).
  case_match; [by intros [= _ <-]|]. case_match; [by intros [= _ <-]|done].
Qed.

Lemma flight_cap_max defaults account : flight_cap defaults account <= MAX_MAX_IN_FLIGHT.
Proof. unfold flight_cap. lia. Qed.

(** What the task itself contributes to its entry's counters. *)
Lemma task_counts n w k t e :
  world_ok n w -> tasks w !! k = Some t -> heap (ctl w) !! t_entry t = Some e ->
  (holds (t_phase t) = true -> 1 <= in_flight (runtime e))
  /\ (inside (t_phase t) = true -> gate e = true) /\ entry_ok n (tasks w) (t_entry t) e.
Proof.
  intros Hw Hk He. pose proof (wo_entries n w Hw _ _ He) as Ho. split_and!; [| |done].
  - intros Hh. rewrite (eo_flight _ _ _ _ Ho). apply (count_pos _ k t); [done|].
    unfold on_entry. by rewrite Nat.eqb_refl, Hh.
  - intros Hi. pose proof (eo_gate _ _ _ _ Ho) as Hg.
    assert (1 <= count (on_entry (t_entry t) inside) (tasks w)).
    { apply (count_pos _ k t); [done|]. unfold on_entry. by rewrite Nat.eqb_refl, Hi. }
    rewrite Hg in *. by destruct (gate e).
Qed.

(** A step that leaves [gate_users] alone. *)
Lemma moves_quiet n ts a f old new e :
  entry_ok n ts a e -> gate_users (f e) = gate_users e ->
  opt_phase registered new <= opt_phase registered old ->
  in_flight (runtime (f e)) = in_flight (runtime e) - opt_phase holds old + opt_phase holds new ->
  in_flight (runtime (f e)) <= MAX_MAX_IN_FLIGHT ->
  b2z (gate (f e)) = b2z (gate e) - opt_phase inside old + opt_phase inside new ->
  moves n f old new e.
Proof.
  intros Ho Hu Hr Hf Hc Hg. apply moves_intro; [done..|]. exists 0.
  rewrite Z.add_0_r, <- (gate_users_same _ _ _ _ Ho). split; [done|lia].
Qed.

(** A step that only registers or deregisters. *)
Lemma moves_users n ts a d old new e :
  entry_ok n ts a e -> opt_phase registered new - opt_phase registered old <= d <= 1 ->
  opt_phase holds old = opt_phase holds new -> opt_phase inside old = opt_phase inside new ->
  moves n (add_users d) old new e.
Proof.
  intros Ho Hd Hh Hi. destruct (add_users_gate d e) as [Hg Hr].
  apply moves_intro; rewrite ?Hg, ?Hr; [lia|apply Ho|lia|]. by exists d.
Qed.

(** The change each task makes to its entry as it takes a step. *)
Lemma run_moves defaults l n w w' :
  gstep defaults l w w' -> world_ok n w -> (exists k, l = Run k \/ l = Cut k) ->
  exists k t f new, tasks w !! k = Some t /\ (l = Run k \/ l = Cut k)
    /\ w' = {| ctl := at_entry (t_entry t) f (ctl w); tasks := update_task k t new (tasks w);
               entering := entering w |}
    /\ forall e, heap (ctl w) !! t_entry t = Some e -> moves n f (Some (t_phase t)) new e.
Proof.
  intros Hstep Hw [k0 Hl]. destruct Hstep; try by destruct Hl.
  all: clear Hl k0.
  all: match goal with Hk : tasks _ !! ?k = Some ?t, Hp : t_phase ?t = _ |- _ =>
         exists k, t; pose proof (fun e => task_counts n _ k t e Hw Hk) as Hc; rewrite Hp in Hc |- * end.
  all: match goal with |- context [goes _ _ ?f ?p _] => exists f, (Some p)
       | |- context [ends _ _ ?f _] => exists f, None end.
  all: split_and!; [done|by auto|done|]; intros e He;
       destruct (Hc e He) as (Hh & Hg & Ho); clear Hc;
       pose proof (eo_cap _ _ _ _ Ho).
  all: try (eapply moves_users; [exact Ho|destruct work|destruct work|destruct work]; done || (cbn; lia)).
  all: try (eapply moves_users; [exact Ho|cbn; lia|done|done]).
  all: eapply moves_quiet; [exact Ho|done|..].
  all: cbn [registered holds inside opt_phase b2z runtime gate set_gate on_runtime same].
  all: try (cbn in Hg; rewrite (Hg eq_refl)).
  all: rewrite ?settle_flight, ?release_flight by (apply Hh; done).
  all: try match goal with Hgate : gate (entry_at _ _) = false |- _ =>
         rewrite (entry_at_some _ _ _ He) in Hgate; rewrite Hgate end.
  all: try match goal with Hchk : check _ _ _ (runtime (entry_at _ _)) = (Ok _, _) |- _ =>
         rewrite (entry_at_some _ _ _ He) in Hchk; apply check_ok in Hchk as (Hlt & -> & _);
         pose proof (flight_cap_max defaults account); unfold MAX_MAX_IN_FLIGHT, u32_max in * end.
  all: try match goal with Hchk : check _ _ _ (runtime (entry_at _ _)) = (Err _, _) |- _ =>
         rewrite (entry_at_some _ _ _ He) in Hchk; apply check_error in Hchk as -> end.
  all: try match goal with Hwork : _ \/ _ |- _ => destruct Hwork; subst end.
  all: unfold same; try (destruct work; cbn; lia); try rewrite (Hg eq_refl); cbn; lia.
Qed.

(** ** Requests that come in *)

(** A live task's entry is not idle: it is registered, or a call is in flight. *)
Lemma not_idle n w k t now :
  world_ok n w -> Z.of_nat n < users_modulus -> tasks w !! k = Some t ->
  idle now (default blank_entry (prune_heap now (ctl w) !! t_entry t)) = false.
Proof.
  intros Hw Hn Hk. pose proof (wo_authority n w Hw k t Hk) as Ha.
  destruct (mo_heap _ (wo_map n w Hw) _ _ Ha) as [e He].
  unfold prune_heap. rewrite map_lookup_imap, He. cbn.
  set (e' := if mapped _ _ then _ else _).
  assert (gate_users e' = gate_users e /\ in_flight (runtime e') = in_flight (runtime e)) as [Hu Hf].
  { unfold e'. case_match; [|done]. split; [done|]. apply prune_flight. }
  unfold idle. rewrite Hu, Hf. pose proof (wo_entries n w Hw _ _ He) as Ho.
  assert (forall Q, Q (t_phase t) = true -> 1 <= count (on_entry (t_entry t) Q) (tasks w)) as Hcount.
  { intros Q HQ. apply (count_pos _ k t); [done|]. unfold on_entry. by rewrite Nat.eqb_refl, HQ. }
  destruct (live (t_phase t)) as [Hr|Hh].
  - specialize (Hcount _ Hr). destruct (eo_users _ _ _ _ Ho) as (g & -> & Hlo & Hhi).
    rewrite Z.mod_small by lia. rewrite (proj2 (Z.eqb_neq g 0)) by lia. done.
  - specialize (Hcount _ Hh). rewrite (eo_flight _ _ _ _ Ho).
    rewrite (proj2 (Z.eqb_neq (count _ _) 0)) by lia. by rewrite andb_false_r.
Qed.

Lemma prune_world n w now :
  world_ok n w -> Z.of_nat n < users_modulus ->
  world_ok n {| ctl := prune_idle_entries now (ctl w); tasks := tasks w; entering := entering w |}.
Proof.
  intros Hw Hn. pose proof (wo_map n w Hw) as [Hh Hf Hs]. split; cbn [ctl tasks].
  - split; cbn [prune_idle_entries entries heap next_address].
    + intros pk a [Ha _]%map_lookup_filter_Some. destruct (Hh _ _ Ha) as [e He].
      unfold prune_heap. rewrite map_lookup_imap, He. by eexists.
    + intros a Ha. unfold prune_heap. by rewrite map_lookup_imap, Hf.
    + etransitivity; [|exact Hs]. apply map_subseteq_size, map_filter_subseteq.
  - intros a e. cbn [prune_idle_entries heap]. unfold prune_heap. rewrite map_lookup_imap.
    destruct (heap (ctl w) !! a) as [e0|] eqn:He; [|done]. cbn. intros [= <-].
    destruct (wo_entries n w Hw _ _ He) as [H1 H2 H3 H4]. case_match; split; cbn; rewrite ?prune_flight; done.
  - intros k t Hk. cbn [prune_idle_entries entries]. apply map_lookup_filter_Some.
    split; [by apply (wo_authority n w Hw k)|]. by apply (not_idle n w k).
Qed.

Lemma count_fresh n w a Q : world_ok n w -> heap (ctl w) !! a = None -> count (on_entry a Q) (tasks w) = 0.
Proof.
  intros Hw Ha. apply count_zero. intros k t Hk. unfold on_entry.
  destruct (Nat.eqb_spec (t_entry t) a) as [<-|]; [exfalso|done].
  destruct (mo_heap _ (wo_map n w Hw) _ _ (wo_authority n w Hw k t Hk)) as [e He]. congruence.
Qed.

(** A new account: its entry begins with no task, at an address nothing has. *)
Lemma insert_world n w pk :
  world_ok n w -> entries (ctl w) !! pk = None -> (size (entries (ctl w)) < MAX_ADMISSION_ENTRIES)%nat ->
  world_ok n {| ctl := insert_entry pk 0 (ctl w); tasks := tasks w; entering := entering w |}.
Proof.
  intros Hw Hpk Hsz. pose proof (wo_map n w Hw) as [Hh Hf Hs].
  pose proof (Hf (next_address (ctl w)) (le_n _)) as Hnew.
  split; cbn [ctl tasks insert_entry].
  - split; cbn.
    + intros q a. rewrite !lookup_insert_Some. intros [[<- <-]|[_ Ha]]; [rewrite lookup_insert_eq; eauto|].
      destruct (Hh _ _ Ha) as [e He]. rewrite lookup_insert_ne by congruence. eauto.
    + intros a Ha. rewrite lookup_insert_ne by lia. apply Hf. lia.
    + rewrite map_size_insert_None by done. lia.
  - intros a e. cbn [heap insert_entry]. rewrite lookup_insert_Some. intros [[<- <-]|[_ Ha]]; [|by apply (wo_entries n w Hw)].
    split; cbn; rewrite ?(count_fresh n w) by done; [done|unfold MAX_MAX_IN_FLIGHT; lia|done|].
    exists 0. split; [done|lia].
  - intros k t Hk. cbn. rewrite lookup_insert_ne; [by apply (wo_authority n w Hw k)|].
    intros ->. rewrite (wo_authority n w Hw k t Hk) in Hpk. done.
Qed.

Lemma insert_entry_at pk c :
  insert_entry pk 1 c = at_entry (next_address c) (add_users 1) (insert_entry pk 0 c).
Proof. unfold at_entry, insert_entry. cbn. by rewrite alter_insert_eq. Qed.

(** [entry_for_admission] on a world in order: the account's entry, registered
    once more, or none when the map is full. *)
Lemma entry_for_admission_ok n w now pk r c :
  world_ok n w -> Z.of_nat n < users_modulus -> entry_for_admission now pk (ctl w) = (r, c) ->
  exists c0, world_ok n {| ctl := c0; tasks := tasks w; entering := entering w |} /\
    match r with
    | Ok a => entries c0 !! pk = Some a /\ c = at_entry a (add_users 1) c0
    | Err _ => c = c0
    end.
Proof.
  intros Hw Hn. pose proof (prune_world n w now Hw Hn) as Hp. unfold entry_for_admission.
  destruct (entries (prune_idle_entries now (ctl w)) !! pk) as [a|] eqn:Ha.
  - intros [= <- <-]. eexists. split; [exact Hp|]. done.
  - destruct (Nat.leb_spec MAX_ADMISSION_ENTRIES (size (entries (prune_idle_entries now (ctl w)))));
      intros [= <- <-]; [by eexists|].
    eexists. split; [by apply (insert_world n _ pk Hp)|]. cbn [ctl]. split; [|by rewrite insert_entry_at].
    cbn. by rewrite lookup_insert_eq.
Qed.

Lemma entry_ok_later n m ts a e : (n <= m)%nat -> entry_ok n ts a e -> entry_ok m ts a e.
Proof. intros Hnm [H1 H2 H3 (g & H4 & H5 & H6)]. split; [done..|]. exists g. split; [done|lia]. Qed.
Lemma world_ok_later n m c ts i i' : (n <= m)%nat ->
  world_ok n {| ctl := c; tasks := ts; entering := i |} -> world_ok m {| ctl := c; tasks := ts; entering := i' |}.
Proof. intros Hnm [H1 H2 H3]. split; [done| |done]. intros a e He. by apply (entry_ok_later n), H2. Qed.

Lemma classify l : (l = Outside \/ exists j, l = Enter j) \/ exists k, l = Run k \/ l = Cut k.
Proof. destruct l; eauto. Qed.

Lemma step_ok defaults l n w w' :
  gstep defaults l w w' -> world_ok n w -> Z.of_nat n < users_modulus -> world_ok (S n) w'.
Proof.
  intros Hstep Hw Hn. destruct (classify l) as [Hl|(k' & Hl)].
  2: { destruct (run_moves _ _ _ _ _ Hstep Hw ltac:(by exists k')) as (k & t & f & new & Hk & _ & -> & Hm).
       apply (world_moves n w k t f (Some (t_phase t))); [done|by eapply moves_phase| |done].
       by apply (wo_authority n w Hw k). }
  destruct w as [c0 ts i]. remember {| ctl := c0; tasks := ts; entering := i |} as w eqn:Hweq.
  destruct Hstep as [w pk j Hopen Hj|w now pk j k a c Hj Hk He|w now pk j e c Hj He|w| | | | | | | | | | | | | | | | | | ];
    try (by destruct Hl as [|[? ?]]); clear Hl; subst w; cbn [ctl tasks entering] in *.
  - by apply (world_ok_later n _ _ _ i); [lia|].
  - destruct (entry_for_admission_ok _ _ _ _ _ _ Hw Hn He) as (c1 & Hw0 & Ha & ->). cbn [tasks entering] in Hw0.
    set (t := {| t_pubkey := pk; t_entry := a; t_phase := Waiting Admitting |}).
    apply (world_moves n {| ctl := c1; tasks := ts; entering := i |} k t (add_users 1) None (Some (Waiting Admitting)));
      [done|by cbn|done|]. intros e Hae.
    eapply moves_users; [by apply (wo_entries n _ Hw0)|cbn; lia|done|done].
  - destruct (entry_for_admission_ok _ _ _ _ _ _ Hw Hn He) as (c1 & Hw0 & ->).
    by apply (world_ok_later n _ _ _ i); [lia|].
  - apply (world_ok_later n _ _ _ i); [lia|]. destruct Hw as [[H1 H2 H3] H4 H5]. by split; [split|..].
Qed.

(** ** The start of a relay *)

Definition idle_world (c : AdmissionController) : World := {| ctl := c; tasks := ∅; entering := ∅ |}.

Lemma quiet_runtime f a c :
  world_ok 0 (idle_world c) -> (forall r, in_flight (f r) = in_flight r) ->
  world_ok 0 (idle_world (at_entry a (on_runtime f) c)).
Proof.
  intros Hw Hf. split; cbn [ctl tasks idle_world]; [apply map_ok_at, Hw| |by intros k t Hk].
  intros b e. cbn [heap at_entry]. rewrite lookup_alter. case_decide as Hab; [subst|].
  - destruct (heap c !! b) as [e0|] eqn:He; [|done]. cbn. intros [= <-].
    destruct (wo_entries 0 _ Hw _ _ He) as [H1 H2 H3 H4]. split; cbn; rewrite ?Hf; done.
  - apply (wo_entries 0 _ Hw).
Qed.

Lemma size_below (c : AdmissionController) (pk : string) (S : gset string) :
  dom (entries c) ⊆ S -> pk ∈ S -> entries c !! pk = None -> (size (entries c) < size S)%nat.
Proof.
  intros Hdom Hpk Hnew. rewrite <- (size_dom (entries c)). apply not_elem_of_dom in Hnew.
  assert (size ({[pk]} ∪ dom (entries c)) <= size S)%nat as Hsz by (apply subseteq_size; set_solver).
  rewrite size_union, size_singleton in Hsz by set_solver. lia.
Qed.

Lemma rebuild_ok (S : gset string) clock recent : (size S <= MAX_ADMISSION_ENTRIES)%nat ->
  forall n c, world_ok 0 (idle_world c) -> dom (entries c) ⊆ S -> (forall d, d ∈ recent -> rd_pubkey d ∈ S) ->
  world_ok 0 (idle_world (rebuild recent clock n c)).
Proof.
  intros Hsz. induction recent as [|d recent IH]; intros n c Hc Hdom Hin; [done|]. cbn [rebuild].
  assert (rd_pubkey d ∈ S) as Hd by (apply Hin; left).
  unfold entry_unchecked. destruct (entries c !! rd_pubkey d) as [a|] eqn:Ha.
  - apply IH; [|done|intros d' Hd'; apply Hin; by right].
    apply quiet_runtime; [done|]. intros r. apply push_spend_flight.
  - apply IH; [| |intros d' Hd'; apply Hin; by right].
    + apply quiet_runtime; [|intros r; apply push_spend_flight].
      apply (insert_world 0 (idle_world c)); [done|done|].
      pose proof (size_below c (rd_pubkey d) S Hdom Hd Ha). cbn. lia.
    + cbn. rewrite dom_insert_L. set_solver.
Qed.

Lemma empty_controller_ok : world_ok 0 (idle_world empty_controller).
Proof.
  split; cbn; [|by intros a e; rewrite lookup_empty|by intros k t; rewrite lookup_empty].
  split; cbn; [by intros pk a; rewrite lookup_empty|by intros a _; rewrite lookup_empty|].
  rewrite map_size_empty. unfold MAX_ADMISSION_ENTRIES. lia.
Qed.

Lemma try_new_ok d clock recent d' c :
  try_new d clock recent = Ok (d', c) -> world_ok 0 (idle_world c) /\ d_max_in_flight d' <= MAX_MAX_IN_FLIGHT.
Proof.
  unfold try_new. destruct (Nat.ltb_spec MAX_ADMISSION_ENTRIES
    (size (list_to_set (rd_pubkey <$> recent) : gset string))) as [|Hsz]; [done|].
  intros [= <- <-]. split; [|cbn; lia].
  apply (rebuild_ok (list_to_set (rd_pubkey <$> recent))); [done|apply empty_controller_ok|cbn; set_solver|].
  intros r Hr. apply elem_of_list_to_set, list_elem_of_fmap. by exists r.
Qed.

(** Every world fewer than 2^32 steps from the start is in order. *)
Lemma reach_ok defaults n w : reach defaults n w -> Z.of_nat n <= users_modulus -> world_ok n w.
Proof.
  induction 1 as [d clock recent c Hnew|n l w w' Hreach IH Hstep]; intros Hn.
  - by apply try_new_ok in Hnew as [? _].
  - eapply step_ok; [exact Hstep|apply IH; lia|lia].
Qed.

(** ** Draining *)

(** How many steps a task has left at most. *)
Definition rank (p : Phase) : nat :=
  match p with
  | Waiting Admitting => 13 | Inside Admitting => 12
  | Unlocking Granted => 10 | Deregistering Granted => 9 | Calling => 8
  | Waiting Settling => 7 | Inside Settling => 6 | Dropped => 5 | Waiting _ => 4 | Inside _ => 3
  | Unlocking _ => 2 | Deregistering _ => 1
  end.
Definition ranks (ts : gmap nat Task) : nat := map_fold (fun _ t n => (rank (t_phase t) + n)%nat) 0%nat ts.

Lemma ranks_insert k t ts : ts !! k = None -> ranks (<[k := t]> ts) = (rank (t_phase t) + ranks ts)%nat.
Proof. intros Hk. unfold ranks. rewrite map_fold_insert_L; [done| |done]. intros. lia. Qed.
Lemma ranks_delete k t ts : ts !! k = Some t -> ranks ts = (rank (t_phase t) + ranks (delete k ts))%nat.
Proof.
  intros Hk. rewrite <- (insert_delete_id ts k t Hk) at 1. by rewrite ranks_insert by apply lookup_delete_eq.
Qed.

(** With the handlers that are about to become tasks. *)
Definition work_left (w : World) : nat := (ranks (tasks w) + 14 * size (entering w))%nat.

(** What a task does, or its being dropped, brings the end nearer, and so does a
    handler's entering. *)
Lemma task_step_ranks defaults l w w' : gstep defaults l w w' -> l <> Outside -> (work_left w' < work_left w)%nat.
Proof.
  intros Hstep Hl. unfold work_left. destruct Hstep; try done; cbn [goes ends tasks entering].
  1,2: match goal with Hj : entering ?w !! ?j = Some _ |- _ =>
         pose proof (map_size_delete_Some _ _ (mk_is_Some _ _ Hj)) as Hsz;
         assert (size (entering w) <> 0%nat) as Hpos
           by (intros Hz; apply map_size_empty_iff in Hz; rewrite Hz, lookup_empty in Hj; done) end.
  1: rewrite ranks_insert by done; cbn; lia.
  1: lia.
  all: match goal with Hk : tasks ?w !! ?k = Some ?t |- _ =>
         rewrite (ranks_delete k t (tasks w) Hk), ?(ranks_delete k t (tasks w) Hk) end.
  all: try (rewrite <- insert_delete_eq, ranks_insert by apply lookup_delete_eq; cbn [with_phase t_phase]).
  all: match goal with Hp : t_phase _ = _ |- _ => rewrite Hp end.
  all: try match goal with work : Work |- _ => destruct work end; try done; cbn; lia.
Qed.

(** Where a task does what: no task waits with a refusal, and so on. *)
Definition proper (p : Phase) : bool :=
  match p with
  | Waiting (Admitting | Settling | Releasing) | Inside (Admitting | Closing | Settling | Releasing)
  | Unlocking (Refused | Granted | Settling | Releasing)
  | Deregistering (Refused | Granted | Settling | Releasing) | Calling | Dropped => true
  | _ => false
  end.

Lemma proper_step defaults l w w' :
  gstep defaults l w w' -> (forall k t, tasks w !! k = Some t -> proper (t_phase t) = true) ->
  forall k t, tasks w' !! k = Some t -> proper (t_phase t) = true.
Proof.
  intros Hstep Hw k' t' Hk'. destruct Hstep; cbn [tasks goes ends] in Hk'; try (by apply (Hw k'));
    try (apply lookup_delete_Some in Hk' as [_ Hk']; by apply (Hw k')).
  all: apply lookup_insert_Some in Hk' as [[_ <-]|[_ Hk']]; [|by apply (Hw k')]; cbn; try done.
  all: match goal with Hk : tasks _ !! _ = Some _, Hp : t_phase _ = _ |- _ =>
         pose proof (Hw _ _ Hk) as Ht; rewrite Hp in Ht; destruct work; done end.
Qed.

Lemma reach_proper defaults n w :
  reach defaults n w -> forall k t, tasks w !! k = Some t -> proper (t_phase t) = true.
Proof.
  induction 1 as [|n l w w' Hreach IH Hstep]; [by intros k t Hk|]. by eapply proper_step.
Qed.

(** A task that does not wait for a gate can go on. *)
Lemma task_runs defaults w k t :
  tasks w !! k = Some t -> proper (t_phase t) = true -> (forall work, t_phase t <> Waiting work) ->
  exists w', gstep defaults (Run k) w w'.
Proof.
  intros Hk Hpr Hnw. destruct (t_phase t) as [work|work|work|work| |] eqn:Hp; [by destruct (Hnw work)|..].
  - destruct work; try done; eexists; [by eapply s_unreserved|by eapply s_intent_closed
      |by eapply (s_settled defaults w k t 0 None)|by eapply (s_released defaults w k t 0)].
  - eexists. by eapply s_unlock.
  - destruct work; try done; eexists; first [by eapply s_granted|by eapply s_done].
  - eexists. by eapply s_finish.
  - eexists. by eapply s_release_begins.
Qed.

(** One of the tasks can always go on: who waits for a gate waits for a task
    that holds it. *)
Lemma someone_runs defaults n w k t :
  world_ok n w -> (forall k t, tasks w !! k = Some t -> proper (t_phase t) = true) ->
  tasks w !! k = Some t -> exists k' w', gstep defaults (Run k') w w'.
Proof.
  intros Hw Hpr Hk. destruct (t_phase t) as [work|work|work|work| |] eqn:Hp;
    try (exists k; apply (task_runs defaults w k t); [done|by apply (Hpr k)|congruence]).
  pose proof (wo_authority n w Hw k t Hk) as Ha.
  destruct (mo_heap _ (wo_map n w Hw) _ _ Ha) as [e He].
  destruct (gate e) eqn:Hg.
  - pose proof (eo_gate _ _ _ _ (wo_entries n w Hw _ _ He)) as Hc. rewrite Hg in Hc.
    destruct (count_exists (on_entry (t_entry t) inside) (tasks w)) as (k' & t' & Hk' & Ht'); [by rewrite Hc|].
    exists k'. apply (task_runs defaults w k' t'); [done|by apply (Hpr k')|].
    intros work' Hw'. unfold on_entry in Ht'. rewrite Hw' in Ht'. by rewrite andb_false_r in Ht'.
  - exists k. eexists. eapply s_lock; [done|done|]. by rewrite (entry_at_some _ _ _ He).
Qed.

(** A handler that found the controller open goes on. *)
Lemma enters defaults w j pk : entering w !! j = Some pk -> exists w', gstep defaults (Enter j) w w'.
Proof.
  intros Hj. destruct (entry_for_admission 0 pk (ctl w)) as [[a|e] c] eqn:He; eexists; [|by eapply s_full].
  eapply (s_arrive _ _ _ _ _ (fresh (dom (tasks w)))); [done| |done]. apply not_elem_of_dom, is_fresh.
Qed.

Lemma entry_for_admission_closed now pk c : closed (entry_for_admission now pk c).2 = closed c.
Proof. unfold entry_for_admission. case_match; [done|]. by case_match. Qed.

(** Once the controller is closed it stays so, and no handler or task is added:
    one that entered before becomes a task or is refused. *)
Lemma closed_step defaults l w w' :
  gstep defaults l w w' -> closed (ctl w) = true ->
  closed (ctl w') = true /\ entering w' ⊆ entering w
  /\ (size (tasks w') + size (entering w') <= size (tasks w) + size (entering w))%nat.
Proof.
  intros Hstep Hc. destruct Hstep as [w|w now pk j k a c Hj Hk He|w now pk j e c Hj He|w| | | | | | | | | | | | | | | | | | ];
    [congruence|..]; cbn [goes ends ctl tasks entering at_entry close closed].
  1,2: pose proof (entry_for_admission_closed now pk (ctl w)) as Hcl; rewrite He in Hcl; cbn in Hcl;
    pose proof (map_size_delete_Some _ _ (mk_is_Some _ _ Hj)) as Hsz;
    assert (size (entering w) <> 0%nat) as Hpos
      by (intros Hz; apply map_size_empty_iff in Hz; rewrite Hz, lookup_empty in Hj; done);
    split_and!; [congruence|apply delete_subseteq|rewrite ?map_size_insert_None by done; lia].
  1: done.
  all: split_and!; [done|done|].
  all: match goal with Hk : tasks _ !! _ = Some _ |- _ =>
         rewrite ?(map_size_insert_Some _ _ _ (mk_is_Some _ _ Hk)), ?(map_size_delete_Some _ _ (mk_is_Some _ _ Hk)) end.
  all: lia.
Qed.
