(* ===== verification/GatewaySettle.v ===== *)
(** * The AI gateway: settling a call

    The rest of [crates/buzz-relay/src/gateway/mod.rs]: what is read off a
    provider's response as it streams by, the job that charges it with its
    retries, and the worker that forwards the response. The worker holds one
    chunk back until the charge is written. *)

From Stdlib Require Import ZArith Lia Ascii.
From stdpp Require Import base gmap list strings numbers.
From S2P Require Import Prelude MachineInt RustStr Json Usage Prices Metering Credits Gateway.
Local Open Scope Z_scope.
Local Open Scope colony_scope.

Definition SETTLE_MAX_ATTEMPTS : nat := 3.
Definition MAX_TEE_PARSE_TAIL_BYTES : nat := 131072.

(** ** Reading a chunk that may hold half a document *)

(** What follows the first [needle] of [s]. *)
Fixpoint after_needle (needle s : string) : option string :=
  match strip_prefix needle s with
  | Some rest => Some rest
  | None => match s with String _ s => after_needle needle s | EmptyString => None end
  end.
(** [u8::is_ascii_whitespace]. *)
Definition ascii_whitespace (c : ascii) : bool :=
  existsb (Z.eqb (code c)) [32; 9; 10; 12; 13].
Fixpoint skip_whitespace (s : string) : string :=
  match s with
  | String c s' => if ascii_whitespace c then skip_whitespace s' else s
  | EmptyString => s
  end.
Definition quote : string := bytes_str [34]%N.
Definition is_char (n : Z) (c : ascii) : bool := code c =? n.

(** The string literal that goes on with [s], up to its closing quote. *)
Fixpoint string_literal (escaped : bool) (s : string) : option string :=
  match s with
  | EmptyString => None
  | String c s =>
      if is_char 34 c && negb escaped then Some (String c EmptyString)
      else String c <$> string_literal (is_char 92 c && negb escaped) s
  end.
(** [extract_json_string_field], from an offset on. An occurrence of the field's
    name takes its bytes: the length is enough fuel. *)
Fixpoint extract_string_go `{JsonLib} (fuel : nat) (needle s : string) : option string :=
  match fuel with
  | O => None
  | S fuel =>
      match after_needle needle s with
      | None => None
      | Some rest =>
          match strip_prefix ":" (skip_whitespace rest) with
          | None => extract_string_go fuel needle rest
          | Some value =>
              match strip_prefix quote (skip_whitespace value) with
              | None => extract_string_go fuel needle rest
              | Some text =>
                  literal ← string_literal false text;
                  json_from_str (quote +:+ literal) ≫= as_string
              end
          end
      end
  end.
Definition extract_json_string_field `{JsonLib} (bytes field : string) : option string :=
  extract_string_go (S (String.length bytes)) (quote +:+ field +:+ quote) bytes.

(** The object that goes on with [s], up to the brace that closes it; the count
    of open braces saturates. *)
Fixpoint object_literal (depth : nat) (in_string escaped : bool) (s : string) : option string :=
  match s with
  | EmptyString => None
  | String c s =>
      if in_string then
        String c <$> object_literal depth (negb (is_char 34 c && negb escaped))
                       (is_char 92 c && negb escaped) s
      else if is_char 34 c then String c <$> object_literal depth true escaped s
      else if is_char 123 c then String c <$> object_literal (S depth) false escaped s
      else if is_char 125 c then
        if (depth <=? 1)%nat then Some (String c EmptyString)
        else String c <$> object_literal (pred depth) false escaped s
      else String c <$> object_literal depth false escaped s
  end.
(** [extract_json_object]. *)
Fixpoint extract_object_go `{JsonLib} (fuel : nat) (needle s : string) : option Json :=
  match fuel with
  | O => None
  | S fuel =>
      match after_needle needle s with
      | None => None
      | Some rest =>
          let rest := skip_whitespace rest in
          match strip_prefix ":" rest with
          | None => extract_object_go fuel needle rest
          | Some value =>
              let value := skip_whitespace value in
              if starts_with "{" value
              then object_literal 0 false false value ≫= json_from_str
              else extract_object_go fuel needle value
          end
      end
  end.
Definition extract_json_object `{JsonLib} (bytes field : string) : option Json :=
  extract_object_go (S (String.length bytes)) (quote +:+ field +:+ quote) bytes.

Section Settle.
Context `{JsonLib, JsonFloatLib}.

Definition with_identity (request_id model : option string) (parsed : ParsedUsage) : ParsedUsage :=
  {| pu_tokens := pu_tokens parsed; pu_model := opt_or model (pu_model parsed);
     pu_request_id := opt_or request_id (pu_request_id parsed);
     pu_observed_cost := pu_observed_cost parsed |}.
Definition opt_field (key : string) (value : option string) : list (string * Json) :=
  match value with Some v => [(key, JString v)] | None => [] end.
(** [parse_bounded_json_response]. *)
Definition parse_bounded_json_response (tail : string) (request_id model : option string) : ParsedUsage :=
  let parsed := openai_parse_json_response tail in
  if is_some (pu_tokens parsed) || is_some (pu_observed_cost parsed) then parsed
  else
    match extract_json_object tail "usage" with
    | None => with_identity request_id model parsed
    | Some usage =>
        let root := json_object ([("usage"%string, usage)] ++ opt_field "id" request_id
                                 ++ opt_field "model" model) in
        with_identity request_id model (openai_parse_json_response (json_to_string root))
    end.

(** ** The job *)

(** [SettleMeta]. *)
Record SettleMeta := {
  m_pubkey : string;
  m_model_id : string;
  m_intent_id : Z;
  m_intent_reference : string;
  m_is_sse : bool;
  m_parseable : bool;
  m_http_status : Z;
}.
(** [SettleJob]. *)
Record SettleJob := {
  j_pubkey : string;
  j_model_id : string;
  j_intent_id : Z;
  j_intent_reference : string;
  j_parsed : ParsedUsage;
  j_http_status : Z;
  j_parseable : bool;
  j_reference : string;
}.
(** The fields of [SettleTee] that it changes. *)
Record SettleTee := {
  buffer : string;
  captured_request_id : option string;
  captured_model : option string;
  pending : option string;
  meta : option SettleMeta;
}.

(** [StatusCode::is_success]; [i16::try_from(status).unwrap_or(i16::MAX)]. *)
Definition is_success (status : Z) : bool := (200 <=? status) && (status <? 300).
Definition status_i16 (status : Z) : Z := Z.min status 32767.

(** The last [MAX_TEE_PARSE_TAIL_BYTES] bytes. *)
Definition tail_bytes (s : string) : string :=
  String.substring (String.length s - MAX_TEE_PARSE_TAIL_BYTES) (String.length s) s.
(** [SettleTee::accumulate], without the chunk it holds back. *)
Definition accumulate (chunk : string) (tee : SettleTee) : SettleTee :=
  {| buffer := tail_bytes (buffer tee +:+ chunk);
     captured_request_id := opt_or (captured_request_id tee) (extract_json_string_field chunk "id");
     captured_model := opt_or (captured_model tee) (extract_json_string_field chunk "model");
     pending := pending tee; meta := meta tee |}.
Definition set_pending (chunk : option string) (tee : SettleTee) : SettleTee :=
  {| buffer := buffer tee; captured_request_id := captured_request_id tee;
     captured_model := captured_model tee; pending := chunk; meta := meta tee |}.

(** What the wire said, as [take_job] reads it. *)
Definition parse_response (m : SettleMeta) (tee : SettleTee) : ParsedUsage :=
  let parsed :=
    if negb (m_parseable m) || negb (is_success (m_http_status m)) then no_usage
    else if m_is_sse m then openai_parse_sse_response (buffer tee)
    else parse_bounded_json_response (buffer tee) (captured_request_id tee) (captured_model tee) in
  {| pu_tokens := pu_tokens parsed; pu_model := opt_or (pu_model parsed) (captured_model tee);
     pu_request_id := opt_or (pu_request_id parsed) (captured_request_id tee);
     pu_observed_cost := pu_observed_cost parsed |}.
(** [SettleTee::take_job]: once. *)
Definition take_job (tee : SettleTee) : option SettleJob * SettleTee :=
  match meta tee with
  | None => (None, tee)
  | Some m =>
      let parsed := parse_response m tee in
      let reference := match pu_request_id parsed with
                       | Some id => if str_is_empty id then m_intent_reference m else id
                       | None => m_intent_reference m
                       end in
      (Some {| j_pubkey := m_pubkey m; j_model_id := m_model_id m; j_intent_id := m_intent_id m;
               j_intent_reference := m_intent_reference m; j_parsed := parsed;
               j_http_status := m_http_status m; j_parseable := m_parseable m;
               j_reference := reference |},
       {| buffer := EmptyString; captured_request_id := captured_request_id tee;
          captured_model := captured_model tee; pending := pending tee; meta := None |})
  end.

(** ** Charging

    [anyhow]'s errors only reach the log: those of [settle_one]'s own are
    [InvalidData]. [wall] gives the clock of each recover, in seconds. *)

(** The [SettledDebit] of a written entry. *)
Definition settled_of (applied : AppliedLedgerEntry) (message : string) : Db (option SettledDebit) :=
  db_ret (let? cost := ok_or (observed_cost (entry applied)) (InvalidData message) in
          Ok (Some {| sd_ledger_id := id (entry applied); sd_reference := reference (entry applied);
                      sd_cost := cost; sd_created_at := instant (created_at (entry applied)) |})).

(** The charge of [settle_one], once the intent says the provider answered. *)
Definition charge (prices : PriceBook) (at_unix : Z) (job : SettleJob) : Db (option SettledDebit) :=
  match pu_observed_cost (j_parsed job) with
  | Some cost =>
      db! result := stmt (fun fault now => debit_observed_for_gateway_intent fault now (j_intent_id job)
                            (j_pubkey job) cost (j_reference job) (j_model_id job)
                            (pu_request_id (j_parsed job))) in
      settled_of result "observed debit returned without observed_cost"
  | None =>
      match pu_tokens (j_parsed job) ≫= fun tokens => price_tokens prices (j_model_id job) tokens at_unix with
      | None => db_ret (Ok None)
      | Some cost =>
          if u64_max <? cost then db_ret (Err (InvalidData "estimated cost exceeds u64"))
          else
            db! result := stmt (fun fault now => debit_estimated_for_gateway_intent fault now (j_intent_id job)
                                  (j_pubkey job) cost (j_reference job) (j_model_id job)
                                  (pu_request_id (j_parsed job))) in
            settled_of result "estimated debit returned without observed_cost"
      end
  end.
(** [settle_one]. *)
Definition settle_one (prices : PriceBook) (wall : Z) (job : SettleJob) : Db (option SettledDebit) :=
  if negb (is_success (j_http_status job)) then db_ret (Ok None)
  else
    let observed := pu_observed_cost (j_parsed job) in
    if is_some observed && negb (is_some (observed ≫= cost_i64))
    then db_ret (Err (InvalidData "observed cost exceeds BIGINT"))
    else
      db! _ := stmt (fun fault now => mark_gateway_provider_completed fault now (j_intent_id job)
                       (pu_request_id (j_parsed job)) observed (status_i16 (j_http_status job))) in
      charge prices (Z.max wall 0) job.

(** The loop of [settle_with_retry]: [attempts] are left. *)
Fixpoint retry (attempts : nat) (prices : PriceBook) (wall : nat -> Z) (job : SettleJob)
    (last : DbError) : Db (option SettledDebit) :=
  match attempts with
  | O => db_ret (Err last)
  | S attempts =>
      db! r := recover (settle_one prices (wall attempts) job) in
      match r with
      | Ok settled => db_ret (Ok settled)
      | Err e => retry attempts prices wall job e
      end
  end.
Definition settle_with_retry (prices : PriceBook) (wall : nat -> Z) (job : SettleJob)
    : Db (option SettledDebit) :=
  retry SETTLE_MAX_ATTEMPTS prices wall job (InvalidData "settle failed").

(** [record_reconciliation_outcome]: a failure only reaches the log. *)
Definition record_reconciliation_outcome (job : SettleJob) (reason : string) : Db unit :=
  db! _ := recover (stmt (fun fault now => mark_gateway_intent_reconciliation fault now (j_intent_id job)
                            reason (pu_request_id (j_parsed job))
                            (pu_observed_cost (j_parsed job) ≫= cost_i64)
                            (status_i16 (j_http_status job)))) in
  db_ret (Ok tt).

(** [settle_job]. *)
Definition settle_job (prices : PriceBook) (wall : nat -> Z) (job : option SettleJob)
    : Db (option SettledDebit) :=
  match job with
  | None => db_ret (Ok None)
  | Some job =>
      if negb (is_success (j_http_status job)) then
        db! _ := recover (stmt (fun fault now => resolve_gateway_intent_no_charge fault now
                                  (j_intent_id job) (status_i16 (j_http_status job)))) in
        db_ret (Ok None)
      else
        db! r := recover (settle_with_retry prices wall job) in
        match r with
        | Ok (Some settled) => db_ret (Ok (Some settled))
        | Ok None =>
            db! _ := record_reconciliation_outcome job
                       (if j_parseable job then "missing_or_unusable_usage"
                        else "unsupported_content_encoding") in
            db_ret (Ok None)
        | Err _ =>
            db! _ := record_reconciliation_outcome job "settle_failed_after_retries" in
            db_ret (Ok None)
        end
  end.

(** ** The worker *)

(** What the worker does that another can see: a chunk handed to the client, an
    error handed to it, the settle of a job. *)
Inductive Effect :=
| Forwarded (chunk : string)
| Broken
| Settled (job : option SettleJob).

(** [send] to the client's channel, the [n]th of the response: [open n] is
    whether the client still listens. A failed send drops the sender. *)
Definition send (listens : nat -> bool) (n : nat) (e : Effect) : list Effect * bool :=
  if listens n then ([e], true) else ([], false).

(** The end of [drive]: settle, then release what was held back, then the error
    the provider's stream broke with. *)
Definition finish_stream (listens : nat -> bool) (n : nat) (sender broken : bool) (tee : SettleTee)
    : list Effect :=
  let '(job, tee) := take_job tee in
  Settled job ::
  if sender then
    match pending tee with
    | Some chunk =>
        let '(sent, sender) := send listens n (Forwarded chunk) in
        sent ++ if broken && sender then fst (send listens (S n) Broken) else []
    | None => if broken then fst (send listens n Broken) else []
    end
  else [].

(** [SettleTee::drive] over the chunks of the provider's stream, which ends or
    [breaks]. *)
Fixpoint drive (listens : nat -> bool) (n : nat) (sender : bool) (chunks : list string) (breaks : bool)
    (tee : SettleTee) : list Effect :=
  match chunks with
  | [] => finish_stream listens n sender breaks tee
  | chunk :: chunks =>
      let tee := accumulate chunk tee in
      match pending tee with
      | Some previous =>
          if sender then
            let '(sent, sender) := send listens n (Forwarded previous) in
            sent ++ drive listens (S n) sender chunks breaks (set_pending (Some chunk) tee)
          else drive listens n sender chunks breaks (set_pending (Some chunk) tee)
      | None => drive listens n sender chunks breaks (set_pending (Some chunk) tee)
      end
  end.

(** [SettleTee::new]. *)
Definition new_tee (m : SettleMeta) : SettleTee :=
  {| buffer := EmptyString; captured_request_id := None; captured_model := None; pending := None;
     meta := Some m |}.

End Settle.
