(* ===== verification/GatewaySettleFacts.v ===== *)
(** * Facts of settling a call

    A settle with its retries writes at most one entry, whatever the database
    does at each statement; undisturbed it writes that entry. What the worker
    forwards is the provider's stream, and its last chunk comes after the
    settle. *)

From Stdlib Require Import ZArith Lia Ascii.
From stdpp Require Import base gmap list strings numbers relations.
From S2P Require Import Prelude MachineInt RustStr Json Usage Prices Metering Credits CreditsFacts Resolver.
From S2P Require Import Gateway GatewaySettle.
Local Open Scope Z_scope.
Local Open Scope colony_scope.

Section Once.
Context (prices : PriceBook) (t0 : Tables) (job : SettleJob).
Hypothesis ok0 : tables_ok t0.

(** The entry that charges this job: the stated cost, or the price book's
    estimate for the tokens of a response that states none. *)
Definition is_charge (e : LedgerEntry) : Prop :=
  entry_key e = (j_pubkey job, j_reference job) /\ kind e = "debit"%string
  /\ model e = Some (j_model_id job) /\ request_id e = pu_request_id (j_parsed job)
  /\ exists cost, observed_cost e = Some cost /\ delta e = - cost
     /\ match pu_observed_cost (j_parsed job) with
        | Some stated => cost = stated /\ settle_basis e = Some "observed"%string
        | None => settle_basis e = Some "estimated"%string
            /\ exists tokens at_unix, pu_tokens (j_parsed job) = Some tokens
                 /\ price_tokens prices (j_model_id job) tokens at_unix = Some cost
        end.

(** Nothing was written since [t0], or the charge of this job, once. *)
Definition Charged (t : Tables) : Prop :=
  tables_ok t
  /\ (ledger (book t) = ledger (book t0)
      \/ ((j_pubkey job, j_reference job) ∉ entry_key <$> ledger (book t0))
         /\ exists e, ledger (book t) = ledger (book t0) ++ [e] /\ is_charge e).

(** What the settle answers is in the ledger. *)
Definition in_ledger (s : SettledDebit) (t : Tables) : Prop :=
  exists e, e ∈ ledger (book t) /\ entry_key e = (j_pubkey job, j_reference job)
    /\ id e = sd_ledger_id s /\ observed_cost e = Some (sd_cost s) /\ sd_reference s = j_reference job
    /\ sd_created_at s = instant (created_at e).

Definition answered (r : option SettledDebit) (t : Tables) : Prop :=
  Charged t /\ forall s, r = Some s -> in_ledger s t.

Notation tri := (triple (S:=Tables) alone Charged).

Lemma charged_start : Charged t0.
Proof. split; [done|by left]. Qed.

Lemma charged_update n f t t' i :
  update_intent n f t = Ok (t', i) -> keeps_key f -> Charged t -> Charged t'.
Proof.
  intros Hu Hf [Ht Hl]. split; [by eapply update_tables|]. by rewrite (update_book _ _ _ _ _ Hu).
Qed.

(** A statement that writes an intent, and no entry. *)
Lemma charged_stmt {A} (op : DbFault -> Z -> Tables -> Result A DbError * Tables) :
  (forall fault now t, Charged t -> Charged (snd (op fault now t))) ->
  tri Charged (stmt op) (fun _ => Charged).
Proof.
  intros Hop. apply triple_stmt; [by intros t|]. intros turn Hturn t Ht.
  rewrite (Hturn t). specialize (Hop (fault turn) (clock turn) t Ht). by destruct (op _ _ _) as [[]].
Qed.

Lemma charged_update_tx f n fault t :
  keeps_key f -> Charged t -> Charged (snd (run_tx Sqlx fault (update_intent n f) t)).
Proof. intros Hf Ht. apply (run_tx_ind Charged); [done|]. intros. by eapply charged_update. Qed.

Lemma charged_debit now n cost basis t t' r :
  debit_intent_tx now n (j_pubkey job) cost (j_reference job) (j_model_id job)
    (pu_request_id (j_parsed job)) basis t = Ok (t', r) ->
  match pu_observed_cost (j_parsed job) with
  | Some stated => cost = stated /\ basis = "observed"%string
  | None => basis = "estimated"%string /\ exists tokens at_unix, pu_tokens (j_parsed job) = Some tokens
              /\ price_tokens prices (j_model_id job) tokens at_unix = Some cost
  end ->
  Charged t ->
  Charged t' /\ entry r ∈ ledger (book t') /\ entry_key (entry r) = (j_pubkey job, j_reference job).
Proof.
  intros Hd Hcost [Ht Hl]. pose proof (debit_intent_tables _ _ _ _ _ _ _ _ _ _ _ Hd Ht) as Ht'.
  destruct (debit_intent_ok _ _ _ _ _ _ _ _ _ _ _ Hd Ht) as (i & t1 & _ & _ & _ & Hb & Hbook & _).
  destruct (on_book_ok _ _ _ _ Hb) as (b & Hb' & ->).
  destruct (apply_entry_ok _ _ _ _ _ Hb' (to_book t Ht)) as (_ & _ & Hr).
  unfold Charged. rewrite Hbook. cbn [book with_book]. destruct (applied r).
  - destruct Hr as (Hl' & Hnew & He & _). cbn [p_pubkey p_reference debit_params] in Hnew.
    assert (ledger (book t) = ledger (book t0)) as Hsame.
    { destruct Hl as [?|(_ & e & Hl & Hk & _)]; [done|]. destruct Hnew. rewrite Hl, fmap_app. cbn. rewrite Hk.
      apply elem_of_app. right. by apply list_elem_of_singleton. }
    split_and!; [done| |rewrite Hl'; apply elem_of_app; right; by apply list_elem_of_singleton|by rewrite He].
    right. rewrite <- Hsame. split; [done|]. exists (entry r). split; [done|]. rewrite He.
    split_and!; try done. exists cost. split_and!; [done|done|].
    destruct (pu_observed_cost (j_parsed job)); destruct Hcost as [? ?]; subst; by split.
  - destruct Hr as (Hl' & Hin & Hk & _). rewrite Hl'. done.
Qed.

Lemma cost_i64_some cost c : cost_i64 cost = Some c -> c = cost.
Proof. unfold cost_i64. by case_match; intros [= <-]. Qed.

(** One charge and the answer made of its entry. *)
Lemma debit_answer basis cost message :
  match pu_observed_cost (j_parsed job) with
  | Some stated => cost = stated /\ basis = "observed"%string
  | None => basis = "estimated"%string /\ exists tokens at_unix, pu_tokens (j_parsed job) = Some tokens
              /\ price_tokens prices (j_model_id job) tokens at_unix = Some cost
  end ->
  tri Charged
    (db! result := stmt (fun fault now => debit_gateway_intent_internal basis fault now (j_intent_id job)
                           (j_pubkey job) cost (j_reference job) (j_model_id job)
                           (pu_request_id (j_parsed job))) in
     settled_of result message) answered.
Proof.
  intros Hcost. apply triple_bind with (Q := fun r t => Charged t /\ entry r ∈ ledger (book t)
    /\ entry_key (entry r) = (j_pubkey job, j_reference job)).
  - apply triple_stmt; [by intros t|]. intros turn Hturn t Ht. rewrite (Hturn t).
    unfold debit_gateway_intent_internal. destruct (cost_i64 cost) as [c|] eqn:Hc; [|done].
    apply cost_i64_some in Hc as ->. unfold run_tx.
    destruct (debit_intent_tx _ _ _ _ _ _ _ _ t) as [[t' r]|e] eqn:Hd; [|by destruct (fault turn)].
    pose proof (charged_debit _ _ _ _ _ _ _ Hd Hcost Ht) as Hafter. destruct (fault turn); naive_solver.
  - intros r. unfold settled_of. destruct (observed_cost (entry r)) as [c|] eqn:Hoc; cbn [ok_or rbind].
    + eapply triple_conseq; [apply triple_ret| |by intros a t Ha; exact Ha].
      intros t (Ht & Hin & Hk). split; [done|]. intros s [= <-]. exists (entry r). cbn.
      split_and!; try done. by injection Hk as _ ->.
    + intros turns t Hturns (Ht & _). done.
Qed.

Lemma charge_once at_unix : tri Charged (charge prices at_unix job) answered.
Proof.
  unfold charge. destruct (pu_observed_cost (j_parsed job)) as [cost|] eqn:Hobs.
  - apply debit_answer. by rewrite Hobs.
  - destruct (pu_tokens (j_parsed job)) as [tokens|] eqn:Htok; cbn [mbind option_bind].
    2:{ intros turns t Hturns Ht. split; [done|]. split; [done|]. by intros s. }
    destruct (price_tokens _ _ _ _) as [cost|] eqn:Hprice.
    2:{ intros turns t Hturns Ht. split; [done|]. split; [done|]. by intros s. }
    destruct (u64_max <? cost); [by intros turns t|].
    apply debit_answer. rewrite Hobs. split; [done|]. eauto.
Qed.

Lemma settle_one_once wall : tri Charged (settle_one prices wall job) answered.
Proof.
  unfold settle_one. destruct (negb _); [intros turns t Hturns Ht; split; [done|]; split; [done|]; by intros s|].
  destruct (_ && _); [by intros turns t|].
  apply triple_bind with (Q := fun _ => Charged); [|intros _; apply charge_once].
  apply charged_stmt. intros fault now t Ht. apply charged_update_tx; [by intros ?|done].
Qed.

Lemma retry_once wall attempts last : tri Charged (retry attempts prices wall job last) answered.
Proof.
  revert last. induction attempts as [|attempts IH]; intros last; cbn [retry]; [by intros turns t|].
  eapply triple_bind; [apply triple_recover, settle_one_once|]. intros [settled|e]; [|apply IH].
  by intros turns t.
Qed.

Lemma record_outcome_once reason : tri Charged (record_reconciliation_outcome job reason) (fun _ => Charged).
Proof.
  eapply triple_bind; [apply triple_recover, charged_stmt|intros [?|?]; by intros turns t].
  intros fault now t Ht. apply (run_tx_ind Charged); [done|]. unfold reconciliation_tx. intros t1 r Hr.
  destruct (update_intent _ _ _) as [[t2 i2]|] eqn:Hu; [|done]. cbn [rbind] in Hr.
  destruct (negb _); [done|]. injection Hr as <- <-.
  destruct (charged_update _ _ _ _ _ Hu ltac:(by intros ?) Ht) as [Ht2 Hl]. split; [by apply with_outcomes_ok|done].
Qed.

Lemma settle_job_once wall : tri Charged (settle_job prices wall (Some job)) answered.
Proof.
  unfold settle_job. destruct (negb _).
  - eapply triple_bind; [apply triple_recover, charged_stmt|].
    { intros fault now t Ht. apply charged_update_tx; [by intros ?|done]. }
    intros [?|?] turns t Hturns Ht; (split; [done|]; split; [done|by intros s]).
  - eapply triple_bind; [apply triple_recover, retry_once|]. intros [[settled|]|e].
    + by intros turns t.
    + eapply triple_bind; [eapply triple_conseq; [apply record_outcome_once| |by intros a t Ha; exact Ha]; by intros t []|].
      intros _ turns t Hturns Ht. split; [done|]. split; [done|by intros s].
    + eapply triple_bind; [apply record_outcome_once|]. intros _ turns t Hturns Ht.
      split; [done|]. split; [done|by intros s].
Qed.

End Once.

(** The settle always answers: what fails is on the record, and in the log. *)
Lemma settle_job_answers prices wall job turns t :
  exists r turns' t', settle_job prices wall job turns t = (Ok r, turns', t').
Proof.
  assert (forall job reason turns t, exists turns' t',
    record_reconciliation_outcome job reason turns t = (Ok tt, turns', t')) as Hrec.
  { intros j reason turns0 t1. destruct (recover_answers (stmt (fun fault now => mark_gateway_intent_reconciliation fault now
      (j_intent_id j) reason (pu_request_id (j_parsed j)) (pu_observed_cost (j_parsed j) ≫= cost_i64)
      (status_i16 (j_http_status j)))) (fun _ => db_ret (Ok tt)) turns0 t1) as ([] & turns' & t' & Heq); [|by eauto].
    by intros r turns' t'; eexists _, _, _. }
  unfold settle_job. destruct job as [job|]; [|by eexists _, _, _]. destruct (negb _).
  - apply recover_answers. by intros r turns' t'; eexists _, _, _.
  - apply recover_answers. intros [[settled|]|e] turns1 t1; [by eexists _, _, _|..].
    + destruct (Hrec job (if j_parseable job then "missing_or_unusable_usage"
        else "unsupported_content_encoding")%string turns1 t1) as (turns2 & t2 & Heq).
      erewrite db_bind_ok by exact Heq. by eexists _, _, _.
    + destruct (Hrec job "settle_failed_after_retries"%string turns1 t1) as (turns2 & t2 & Heq).
      erewrite db_bind_ok by exact Heq. by eexists _, _, _.
Qed.

(** ** A settle that nothing disturbs *)

Lemma undisturbed_alone (turns : list Turn) : Forall undisturbed turns -> Forall alone turns.
Proof. intros Hall. eapply List.Forall_impl; [|exact Hall]. by intros turn []. Qed.

(** The row [mark_gateway_provider_completed] writes passes the checks. *)
Lemma completed_row b i now rid cost status :
  intent_row_ok i = true -> match cost with Some c => 0 <=? c | None => true end = true ->
  intent_row_ok (reservation_compat b (amend i now
    (match i_state i with Debited => Debited | Resolved => Resolved | _ => ProviderCompleted end)
    rid (coalesce cost (i_observed_cost i)) status (i_reason i) (i_correction_ref i) (i_reserved i)
    (i_resolved_at i))) = true.
Proof.
  unfold intent_row_ok. intros [[Hp Hc]%andb_true_iff Hr]%andb_true_iff Hcost.
  unfold reservation_compat. cbn [amend i_state i_pubkey i_observed_cost i_reserved].
  assert (match coalesce cost (i_observed_cost i) with Some c => 0 <=? c | None => true end = true) as Hco
    by (by destruct cost).
  set (obs := coalesce cost (i_observed_cost i)) in *.
  destruct (i_state i); cbn in Hr |- *; rewrite ?(proj2 (Z.eqb_neq (i_reserved i) 0)) by lia; cbn;
    by rewrite Hp, Hco.
Qed.

Section Undisturbed.
Context (prices : PriceBook) (t : Tables) (job : SettleJob)
  (i : GatewaySettlementIntent) (cost : Z).
Hypothesis Ht : tables_ok t.
Hypothesis Hi : intent_by_id (j_intent_id job) t = Some i.
Hypothesis Hpk : i_pubkey i = j_pubkey job.
Hypothesis Hmodel : i_model i = j_model_id job.
Hypothesis Hstatus : is_success (j_http_status job) = true.
Hypothesis Hstated : pu_observed_cost (j_parsed job) = Some cost.
Hypothesis Hcost : 0 <= cost <= i64_max.
Hypothesis Hnew : (j_pubkey job, j_reference job) ∉ entry_key <$> ledger (book t).
Hypothesis Hroom : in_i64 (balance (account_or_new (book t) (j_pubkey job)) - cost) = true.

(** The first statement: the intent says the provider answered. *)
Lemma completed_up turns :
  Forall undisturbed turns ->
  exists r turns1 t1 i1,
    stmt (fun fault now => mark_gateway_provider_completed fault now (j_intent_id job)
      (pu_request_id (j_parsed job)) (Some cost) (status_i16 (j_http_status job))) turns t = (Ok r, turns1, t1)
    /\ Forall undisturbed turns1 /\ tables_ok t1 /\ book t1 = book t
    /\ intent_by_id (j_intent_id job) t1 = Some i1 /\ i_pubkey i1 = j_pubkey job /\ i_model i1 = j_model_id job.
Proof.
  intros Hturns. destruct (intent_by_id_some _ _ _ Hi) as [Hel Hid].
  destruct (stmt_up (fun fault now => mark_gateway_provider_completed fault now (j_intent_id job)
    (pu_request_id (j_parsed job)) (Some cost) (status_i16 (j_http_status job))) turns t Hturns)
    as (now & turns1 & Hturns1 & Hs1).
  unfold mark_gateway_provider_completed in Hs1 at 2 3.
  set (f := fun i => amend i now _ _ _ _ _ _ _ _) in Hs1.
  destruct (update_intent_total (j_intent_id job) f t i Hi) as (t1 & Hu & Hb1).
  { apply completed_row; [by apply (io_rows t (to_intents t Ht))|]. apply Z.leb_le. lia. }
  unfold run_tx in Hs1. rewrite Hu in Hs1. cbn [fst snd] in Hs1.
  destruct (update_intent_ok _ _ _ _ _ Hu ltac:(by intros ?) (to_intents t Ht))
    as (i0 & Hi0 & _ & Hi1 & _ & Hid1 & _ & _ & Hin1 & _).
  assert (i0 = i) as -> by congruence.
  destruct (reservation_compat_keeps (book t) (f i)) as (_ & Hk1 & Hm1).
  pose proof (update_tables _ _ _ _ _ Hu ltac:(by intros ?) Ht) as Ht1.
  eexists _, turns1, t1, _. split; [exact Hs1|]. split_and!; [done..|by apply row_in; [done..|congruence]| |].
  - injection Hk1 as -> _. done.
  - rewrite Hm1. done.
Qed.

(** The second: the charge, whose entry is new. *)
Lemma charged_up i1 t1 turns :
  Forall undisturbed turns -> tables_ok t1 -> book t1 = book t ->
  intent_by_id (j_intent_id job) t1 = Some i1 -> i_pubkey i1 = j_pubkey job -> i_model i1 = j_model_id job ->
  exists r turns' t' j,
    stmt (fun fault now => debit_observed_for_gateway_intent fault now (j_intent_id job) (j_pubkey job) cost
      (j_reference job) (j_model_id job) (pu_request_id (j_parsed job))) turns t1 = (Ok r, turns', t')
    /\ observed_cost (entry r) = Some cost
    /\ intent_by_id (j_intent_id job) t' = Some j /\ i_reserved j = 0
    /\ balance (account_or_new (book t') (j_pubkey job))
       = balance (account_or_new (book t) (j_pubkey job)) - cost.
Proof.
  intros Hturns Ht1 Hb1 Hrow1 Hpk1 Hmod1.
  destruct (stmt_up (fun fault now => debit_observed_for_gateway_intent fault now (j_intent_id job)
    (j_pubkey job) cost (j_reference job) (j_model_id job) (pu_request_id (j_parsed job))) turns t1 Hturns)
    as (now2 & turns2 & Hturns2 & Hs2).
  destruct (debit_intent_total now2 (j_intent_id job) i1 cost (j_reference job) (pu_request_id (j_parsed job))
    "observed" t1) as (t2 & r & Hd); [done|done|lia|done|by rewrite Hpk1, Hb1|].
  rewrite Hpk1, Hmod1 in Hd.
  assert (debit_observed_for_gateway_intent DbUp now2 (j_intent_id job) (j_pubkey job) cost (j_reference job)
    (j_model_id job) (pu_request_id (j_parsed job)) t1 = (Ok r, t2)) as Hop.
  { unfold debit_observed_for_gateway_intent, debit_gateway_intent_internal, cost_i64.
    rewrite (proj2 (Z.leb_le _ _)) by lia. unfold run_tx. by rewrite Hd. }
  rewrite Hop in Hs2. cbn [fst snd] in Hs2.
  destruct (debit_intent_ok _ _ _ _ _ _ _ _ _ _ _ Hd Ht1)
    as (i2 & t3 & Hi2 & _ & _ & Hb & Hbook & _ & j & Hj & _ & _ & Hres).
  destruct (on_book_ok _ _ _ _ Hb) as (b & Hb' & ->).
  pose proof (entry_balance _ _ _ _ _ Hb' (to_book t1 Ht1) (j_pubkey job)) as Hbal.
  destruct (apply_entry_ok _ _ _ _ _ Hb' (to_book t1 Ht1)) as (_ & _ & Hr).
  destruct (applied r).
  2:{ destruct Hr as (_ & Hin & Hk & _). destruct Hnew. rewrite Hb1 in Hin. cbn in Hk. rewrite <- Hk.
      by apply list_elem_of_fmap_2. }
  destruct Hr as (_ & _ & He & _).
  exists r, turns2, t2, j. split; [done|]. split_and!; [by rewrite He|done|done|].
  rewrite Hbook. cbn [book with_book]. rewrite Hbal, Hb1. cbn. rewrite String.eqb_refl. lia.
Qed.

Lemma settle_one_up wall turns :
  Forall undisturbed turns ->
  exists s turns' t' j, settle_one prices wall job turns t = (Ok (Some s), turns', t')
    /\ sd_cost s = cost /\ intent_by_id (j_intent_id job) t' = Some j /\ i_reserved j = 0
    /\ balance (account_or_new (book t') (j_pubkey job))
       = balance (account_or_new (book t) (j_pubkey job)) - cost.
Proof.
  intros Hturns. unfold settle_one. rewrite Hstatus, Hstated. cbn [negb is_some mbind option_bind].
  unfold cost_i64. rewrite (proj2 (Z.leb_le _ _)) by lia. cbn [is_some negb andb].
  destruct (completed_up turns Hturns) as (r1 & turns1 & t1 & i1 & Hs1 & Hturns1 & Ht1 & Hb1 & Hi1 & Hp1 & Hm1).
  erewrite db_bind_ok by exact Hs1. unfold charge. rewrite Hstated.
  destruct (charged_up i1 t1 turns1 Hturns1 Ht1 Hb1 Hi1 Hp1 Hm1) as (r & turns2 & t2 & j & Hs2 & Hoc & Hj).
  erewrite db_bind_ok by exact Hs2. unfold settled_of. rewrite Hoc. cbn.
  by eexists _, turns2, t2, j.
Qed.

Lemma settle_job_up wall turns :
  Forall undisturbed turns ->
  exists s turns' t' j, settle_job prices wall (Some job) turns t = (Ok (Some s), turns', t')
    /\ sd_cost s = cost /\ intent_by_id (j_intent_id job) t' = Some j /\ i_reserved j = 0
    /\ balance (account_or_new (book t') (j_pubkey job))
       = balance (account_or_new (book t) (j_pubkey job)) - cost.
Proof.
  intros Hturns. destruct (settle_one_up (wall 2%nat) turns Hturns) as (s & turns' & t' & j & Hs & Hrest).
  exists s, turns', t', j. split; [|done].
  assert (forall {A B} (m : Db A) (k : Result A DbError -> Db B) a turns1 t1,
    m turns t = (Ok a, turns1, t1) -> (db! r := recover m in k r) turns t = k (Ok a) turns1 t1) as Hatt.
  { intros A B m k a turns1 t1 Hm. unfold db_bind, recover. by rewrite Hm. }
  unfold settle_job. rewrite Hstatus. cbn [negb].
  erewrite (Hatt _ _ (settle_with_retry prices wall job) _ (Some s) turns' t'); [done|].
  unfold settle_with_retry, SETTLE_MAX_ATTEMPTS. cbn [retry]. by erewrite Hatt by exact Hs.
Qed.
End Undisturbed.

(** ** The worker *)

Definition chunks_of (effects : list Effect) : list string :=
  filter_map (fun e => match e with Forwarded c => Some c | _ => None end) effects.
Definition settles (effects : list Effect) : list (option SettleJob) :=
  filter_map (fun e => match e with Settled j => Some j | _ => None end) effects.

Section Worker.
Context `{JsonLib, JsonFloatLib}.

(** The state of the worker after the chunks, the job it settles. *)
Definition take_chunk (tee : SettleTee) (chunk : string) : SettleTee :=
  set_pending (Some chunk) (accumulate chunk tee).
Definition job_of (tee : SettleTee) (chunks : list string) : option SettleJob :=
  fst (take_job (foldl take_chunk tee chunks)).

Lemma send_spec listens n e :
  send listens n e = ([e], true) \/ send listens n e = ([], false).
Proof. unfold send. case_match; auto. Qed.

Definition no_settle (e : Effect) : Prop := match e with Settled _ => False | _ => True end.

Lemma take_job_pending tee : pending (snd (take_job tee)) = pending tee.
Proof. unfold take_job. by destruct (meta tee). Qed.

(** The end of a stream: the settle, then what was held back. *)
Lemma finish_stream_spec listens n sender broken tee :
  exists rest, finish_stream listens n sender broken tee = Settled (fst (take_job tee)) :: rest
    /\ Forall no_settle rest
    /\ (chunks_of rest = [] \/ exists chunk, pending tee = Some chunk /\ chunks_of rest = [chunk])
    /\ ((forall n, listens n = true) -> sender = true ->
        chunks_of rest = match pending tee with Some chunk => [chunk] | None => [] end).
Proof.
  unfold finish_stream. pose proof (take_job_pending tee) as Hp. destruct (take_job tee) as [job tee'].
  cbn [snd fst] in *. rewrite Hp. eexists. split; [done|].
  assert (forall n, fst (send listens n Broken) = [Broken] \/ fst (send listens n Broken) = []) as Hb.
  { intros m. destruct (send_spec listens m Broken) as [-> | ->]; auto. }
  destruct sender; [|by split_and!; [constructor|left|]].
  destruct (pending tee) as [chunk|].
  - unfold send at 1 3 5 7. destruct (listens n) eqn:Hl.
    + destruct broken; cbn [andb]; [destruct (Hb (S n)) as [-> | ->]|];
        (split_and!; [repeat constructor|right; by exists chunk|done]).
    + rewrite andb_false_r. split_and!; [constructor|by left|]. intros Hall. by rewrite Hall in Hl.
  - destruct broken; [destruct (Hb n) as [-> | ->]|]; (split_and!; [repeat constructor|by left|done]).
Qed.

(** What the client has been given of [chunks]: some of them in their order, or,
    if it stays, all. *)
Definition given (stays : Prop) (got chunks : list string) : Prop :=
  sublist got chunks /\ (stays -> got = chunks).

(** [drive] settles once, what the wire said. Before it, all chunks but the last
    are forwarded; after it, the last. *)
Lemma drive_spec listens chunks breaks : forall n sender tee,
  let all := option_list (pending tee) ++ chunks in
  let stays := (forall n, listens n = true) /\ sender = true in
  exists before after,
    drive listens n sender chunks breaks tee = before ++ Settled (job_of tee chunks) :: after
    /\ Forall no_settle before /\ Forall no_settle after
    /\ given stays (chunks_of before) (removelast all)
    /\ given stays (chunks_of after) (option_list (last all)).
Proof.
  induction chunks as [|chunk chunks IH]; intros n sender tee; cbn zeta.
  - destruct (finish_stream_spec listens n sender breaks tee) as (rest & Hf & Hno & Hsome & Hall).
    exists [], rest. rewrite app_nil_r. cbn [drive app]. split; [exact Hf|]. split; [constructor|]. split; [done|].
    split; [destruct (pending tee); by split; [apply sublist_nil_l|]|].
    split; [|intros [Hl Hs]; rewrite Hall by done; by destruct (pending tee)].
    destruct Hsome as [-> | (chunk & -> & ->)]; [apply sublist_nil_l|done].
  - set (tee' := take_chunk tee chunk).
    assert (job_of tee (chunk :: chunks) = job_of tee' chunks) as -> by done.
    cbn [drive]. change (set_pending (Some chunk) (accumulate chunk tee)) with tee'.
    change (pending (accumulate chunk tee)) with (pending tee).
    assert (forall m s, (s = true -> sender = true) -> exists before after,
      drive listens m s chunks breaks tee' = before ++ Settled (job_of tee' chunks) :: after
      /\ Forall no_settle before /\ Forall no_settle after
      /\ given ((forall n, listens n = true) /\ s = true) (chunks_of before) (removelast (chunk :: chunks))
      /\ given ((forall n, listens n = true) /\ s = true) (chunks_of after) (option_list (last (chunk :: chunks))))
      as Hrest by (intros m s _; apply (IH m s tee')).
    destruct (pending tee) as [previous|].
    2:{ cbn [option_list app]. by apply (Hrest n sender). }
    destruct sender.
    + unfold send. destruct (listens n) eqn:Hl.
      * destruct (Hrest (S n) true) as (before & after & -> & Hb & Ha & [Hg1 Hg2] & Hg3); [done|].
        exists (Forwarded previous :: before), after. split; [done|].
        split; [by constructor|]. split; [done|]. split; [|exact Hg3].
        change (removelast (option_list (Some previous) ++ chunk :: chunks))
          with (previous :: removelast (chunk :: chunks)).
        cbn [chunks_of filter_map]. split; [by apply sublist_skip|]. intros Hst. f_equal. by apply Hg2.
      * destruct (Hrest (S n) false) as (before & after & -> & Hb & Ha & [Hg1 _] & [Hg3 _]); [done|].
        exists before, after. split; [done|]. split; [done|]. split; [done|].
        change (removelast (option_list (Some previous) ++ chunk :: chunks))
          with (previous :: removelast (chunk :: chunks)).
        split; (split; [|intros [Hall _]; by rewrite Hall in Hl]); [by apply sublist_cons|done].
    + destruct (Hrest n false) as (before & after & -> & Hb & Ha & [Hg1 _] & [Hg3 _]); [done|].
      exists before, after. split; [done|]. split; [done|]. split; [done|].
      change (removelast (option_list (Some previous) ++ chunk :: chunks))
        with (previous :: removelast (chunk :: chunks)).
      split; (split; [|by intros [_ ?]]); [by apply sublist_cons|done].
Qed.
End Worker.
