(* ===== verification/GatewayAuth.v ===== *)
(** * The AI gateway: who may call, and what goes upstream

    The tokens and the model catalog ([crates/buzz-db/src/gateway.rs] over
    migration 0050) and the handlers that read them
    ([crates/buzz-relay/src/gateway/mod.rs]): minting and revoking a token,
    authenticating a call, admitting its model, and the request that is sent to
    the provider in its place. Instants are nanoseconds. The header values and
    the hash are libraries' ([TokenLib]). *)

From Stdlib Require Import ZArith Lia Ascii.
From stdpp Require Import base gmap list strings numbers relations.
From S2P Require Import Prelude MachineInt RustStr Json Metering Credits Gateway GatewaySettle.
Local Open Scope Z_scope.
Local Open Scope colony_scope.

(** [Sha256], [hex::encode], and what [HeaderValue] accepts and shows as text. *)
Class TokenLib := {
  sha256 : string -> string;
  hex_encode : string -> string;
  header_to_str : string -> option string;
  header_from_str : string -> option string;
}.

(** [gateway_tokens], by hash. *)
Record GatewayToken := {
  tk_pubkey : string;
  tk_expires_at : Z;
  tk_session_scope : string;
  tk_revoked_at : option Z;
}.
#[export] Instance GatewayToken_eq_dec : EqDecision GatewayToken.
Proof. solve_decision. Defined.
Definition TokenTable : Type := gmap string GatewayToken.

(** [model_catalog], by model id. *)
Record CatalogModel := {
  vercel_slug : string;
  enabled : bool;
  display_price_nanousd : Z;
}.
Definition ModelCatalog : Type := gmap string CatalogModel.

(** ** The tables *)

(** [token_by_hash]. *)
Definition token_by_hash (hash : string) (tokens : TokenTable) : option GatewayToken := tokens !! hash.
(** [insert_token], with the checks of the table. *)
Definition insert_token (now : Z) (hash pubkey : string) (ttl_secs : Z) (scope : string)
    (tokens : TokenTable) : Result TokenTable DbError :=
  fail_if negb ((octet_length hash =? 32) && (octet_length pubkey =? 32)
                && mem ["session"; "provisioned"]%string scope) with Sqlx;
  match tokens !! hash with
  | Some _ => Err Sqlx
  | None => Ok (<[hash := {| tk_pubkey := pubkey; tk_expires_at := now + ttl_secs * second;
                             tk_session_scope := scope; tk_revoked_at := None |}]> tokens)
  end.
(** [revoke_token]: whether a live token was revoked. *)
Definition revoke_token (now : Z) (hash : string) (tokens : TokenTable) : bool * TokenTable :=
  match tokens !! hash with
  | Some row =>
      match tk_revoked_at row with
      | None => (true, <[hash := {| tk_pubkey := tk_pubkey row; tk_expires_at := tk_expires_at row;
                                    tk_session_scope := tk_session_scope row;
                                    tk_revoked_at := Some now |}]> tokens)
      | Some _ => (false, tokens)
      end
  | None => (false, tokens)
  end.
(** [model_by_id]. *)
Definition model_by_id (model_id : string) (catalog : ModelCatalog) : option CatalogModel := catalog !! model_id.
(** [enabled_models]: the ids, in order. *)
Definition enabled_models (catalog : ModelCatalog) : list string :=
  sort_by (fun a b => match string_cmp a b with Gt => false | _ => true end)
    (map_to_list (filter (fun m => enabled (snd m) = true) catalog)).*1.

(** ** Headers *)

(** A [HeaderMap]: the values in the order they were added; names are lower
    case. *)
Definition HeaderMap : Type := list (string * string).
Definition header_get (name : string) (headers : HeaderMap) : option string :=
  snd <$> find (fun h => String.eqb (fst h) name) headers.
(** [append], [insert]. *)
Definition header_append (name value : string) (headers : HeaderMap) : HeaderMap := headers ++ [(name, value)].
Definition header_insert (name value : string) (headers : HeaderMap) : HeaderMap :=
  List.filter (fun h => negb (String.eqb (fst h) name)) headers ++ [(name, value)].

(** [is_hop_by_hop], [is_stripped_request_header]. *)
Definition is_hop_by_hop (name : string) : bool :=
  mem ["connection"; "keep-alive"; "proxy-authenticate"; "proxy-authorization"; "proxy-connection"; "te";
       "trailer"; "transfer-encoding"; "upgrade"]%string name.
Definition is_stripped_request_header (name : string) : bool :=
  is_hop_by_hop name
  || mem ["host"; "content-length"; "x-api-key"; "authorization"; "accept-encoding"]%string name.

(** Errors of the handlers: a status and a message. *)
Definition HttpError : Type := Z * string.

Definition MIN_TOKEN_TTL_SECS : Z := 60.
Definition MAX_TOKEN_TTL_SECS : Z := 31536000.
Definition DEFAULT_TOKEN_TTL_SECS : Z := 2592000.
Definition TOKEN_PREFIX : string := "colony-gw-".

Section Handlers.
Context `{TokenLib}.

(** [build_upstream_headers]. *)
Definition bearer (api_key : string) : string :=
  default "Bearer "%string (header_from_str ("Bearer " +:+ api_key)).
Definition build_upstream_headers (headers : HeaderMap) (api_key : string) : HeaderMap :=
  let outbound := foldl (fun outbound h => if is_stripped_request_header (fst h) then outbound
                                           else header_append (fst h) (snd h) outbound) [] headers in
  header_insert "authorization" (bearer api_key) (header_insert "accept-encoding" "identity" outbound).

(** [extract_token]. *)
Definition bearer_token (headers : HeaderMap) : option string :=
  value ← header_get "authorization" headers;
  text ← header_to_str value;
  st ← split_once " " (trim text);
  if eq_ignore_ascii_case (fst st) "bearer" then
    let token := trim (snd st) in if str_is_empty token then None else Some token
  else None.
Definition extract_token (headers : HeaderMap) : option string :=
  match header_get "x-api-key" headers ≫= header_to_str with
  | Some value =>
      let token := trim value in if str_is_empty token then bearer_token headers else Some token
  | None => bearer_token headers
  end.

(** The token is in force. *)
Definition token_live (now : Z) (row : GatewayToken) : bool :=
  negb (is_some (tk_revoked_at row)) && (now <? tk_expires_at row).
(** [authenticate_gateway_call]; [up] is whether the database answers. *)
Definition authenticate_gateway_call (up : bool) (now : Z) (headers : HeaderMap) (tokens : TokenTable)
    : Result string HttpError :=
  let? token := ok_or (extract_token headers) (401, "missing or malformed gateway token"%string) in
  fail_if negb up with (500, "gateway token lookup failed"%string);
  match token_by_hash (sha256 token) tokens with
  | Some row => if token_live now row then Ok (tk_pubkey row)
                else Err (401, "invalid or expired gateway token"%string)
  | None => Err (401, "invalid or expired gateway token"%string)
  end.

(** [mint_token], once the session is authenticated as [pubkey] and the body is
    read: [bytes] are the random ones. *)
Definition mint_token (fault : DbFault) (now : Z) (bytes pubkey : string) (ttl_secs : option Z)
    (tokens : TokenTable) : Result string HttpError * TokenTable :=
  let ttl := default DEFAULT_TOKEN_TTL_SECS ttl_secs in
  if negb ((MIN_TOKEN_TTL_SECS <=? ttl) && (ttl <=? MAX_TOKEN_TTL_SECS))
  then (Err (400, "ttl_secs must be between 60 and 31536000"%string), tokens)
  else
    let token := (TOKEN_PREFIX +:+ hex_encode bytes)%string in
    match run_tx Sqlx fault (fun tokens => let? t := insert_token now (sha256 token) pubkey ttl "provisioned" tokens in
                                           Ok (t, tt)) tokens with
    | (Ok _, tokens) => (Ok token, tokens)
    | (Err _, tokens) => (Err (500, "gateway token mint failed"%string), tokens)
    end.
(** The handler [revoke_token], of any authenticated session that names the
    token. *)
Definition revoke_handler (fault : DbFault) (now : Z) (token : string) (tokens : TokenTable)
    : Result unit HttpError * TokenTable :=
  match run_tx Sqlx fault (fun tokens => let (revoked, t) := revoke_token now (sha256 token) tokens in
                                         Ok (t, revoked)) tokens with
  | (Ok true, tokens) => (Ok tt, tokens)
  | (Ok false, tokens) => (Err (404, "no live token matches"%string), tokens)
  | (Err _, tokens) => (Err (500, "gateway token revoke failed"%string), tokens)
  end.

(** The read of [GET /api/gateway/account]: the available balance and whether
    the account is active. *)
Definition account (a : AdmissionAccount) : Z * string :=
  let available := saturate_i64 (saturate_i64 (aa_balance a - aa_discovery_reserved a)
                                 - aa_gateway_reserved a) in
  (available, if 0 <? available then "active"%string else "depleted"%string).

(** [list_models]. *)
Definition list_models (up : bool) (now : Z) (headers : HeaderMap) (tokens : TokenTable)
    (catalog : ModelCatalog) : Result (list string) HttpError :=
  let? _ := authenticate_gateway_call up now headers tokens in
  fail_if negb up with (500, "gateway model catalog read failed"%string);
  Ok (enabled_models catalog).

(** What [chat_completions] has before it admits the call: who calls, which
    model, and the request for the provider. *)
Record PreparedCall := {
  pc_pubkey : string;
  pc_model_id : string;
  pc_headers : HeaderMap;
  pc_body : string;
}.
Definition prepare_call `{JsonLib} (up : bool) (now : Z) (headers : HeaderMap) (body api_key : string)
    (tokens : TokenTable) (catalog : ModelCatalog) : Result PreparedCall HttpError :=
  let? pubkey := authenticate_gateway_call up now headers tokens in
  let? request := ok_or (json_from_str body) (400, "invalid JSON request body"%string) in
  match get_str request "model" with
  | None => Err (400, "request must name a model"%string)
  | Some model_id =>
      fail_if str_is_empty model_id with (400, "request must name a model"%string);
      fail_if negb up with (500, "gateway model catalog lookup failed"%string);
      match model_by_id model_id catalog with
      | Some m =>
          fail_if negb (enabled m) with (404, "model not available: " +:+ model_id)%string;
          let outbound := json_to_string (jset "model" (JString (vercel_slug m)) request) in
          Ok {| pc_pubkey := pubkey; pc_model_id := model_id;
                pc_headers := build_upstream_headers headers api_key;
                pc_body := default outbound (openai_ensure_stream_usage outbound) |}
      | None => Err (404, "model not available: " +:+ model_id)%string
      end
  end.

(** A request to mint a token: when, the random bytes, the account of the session
    and the lifetime asked for. *)
Record Minting := { mn_at : Z; mn_bytes : string; mn_account : string; mn_ttl : option Z }.
Definition mint (fault : DbFault) (m : Minting) (tokens : TokenTable) : Result string HttpError * TokenTable :=
  mint_token fault (mn_at m) (mn_bytes m) (mn_account m) (mn_ttl m) tokens.

(** What the handlers do to the tokens, with the requests so far. *)
Inductive token_step : TokenTable * list Minting -> TokenTable * list Minting -> Prop :=
| token_mint fault m tokens ms : token_step (tokens, ms) (snd (mint fault m tokens), m :: ms)
| token_revoke fault now token tokens ms : token_step (tokens, ms) (snd (revoke_handler fault now token tokens), ms).

(** ** Facts *)

Lemma header_fold headers acc :
  foldl (fun outbound h => if is_stripped_request_header (fst h) then outbound
                           else header_append (fst h) (snd h) outbound) acc headers
  = acc ++ List.filter (fun h => negb (is_stripped_request_header (fst h))) headers.
Proof.
  revert acc. induction headers as [|[n v] headers IH]; intros acc; cbn; [by rewrite app_nil_r|].
  rewrite IH. destruct (is_stripped_request_header n); cbn; [done|]. unfold header_append. by rewrite <- app_assoc.
Qed.

Lemma header_insert_elem name value headers h :
  h ∈ header_insert name value headers <-> h = (name, value) \/ (h ∈ headers /\ fst h <> name).
Proof.
  unfold header_insert. rewrite elem_of_app, list_elem_of_singleton, !list_elem_of_In, List.filter_In,
    negb_true_iff, String.eqb_neq. tauto.
Qed.

(** What goes upstream: the caller's headers that are not stripped, the
    gateway's own credential, and a plain body; nothing else. *)
Lemma upstream_headers headers api_key h :
  h ∈ build_upstream_headers headers api_key <->
  h = ("authorization", bearer api_key)%string \/ h = ("accept-encoding", "identity")%string
  \/ (h ∈ headers /\ is_stripped_request_header (fst h) = false).
Proof.
  unfold build_upstream_headers. rewrite !header_insert_elem, header_fold. cbn [app].
  rewrite !list_elem_of_In, List.filter_In, negb_true_iff.
  split; [naive_solver|]. intros [?|[->|[Hin Hn]]]; [by left|by right; split; [left|]|].
  right. split; [|intros Heq; by rewrite Heq in Hn].
  right. split; [done|]. intros Heq. by rewrite Heq in Hn.
Qed.

(** The token a minting shows, and the row it writes. *)
Definition shown (bytes : string) : string := (TOKEN_PREFIX +:+ hex_encode bytes)%string.
Definition minted (now : Z) (pubkey : string) (ttl : option Z) : GatewayToken :=
  {| tk_pubkey := pubkey; tk_expires_at := now + default DEFAULT_TOKEN_TTL_SECS ttl * second;
     tk_session_scope := "provisioned"; tk_revoked_at := None |}.
Definition ttl_ok (ttl : option Z) : Prop :=
  MIN_TOKEN_TTL_SECS <= default DEFAULT_TOKEN_TTL_SECS ttl <= MAX_TOKEN_TTL_SECS.

Lemma mint_table fault now bytes pubkey ttl tokens :
  snd (mint_token fault now bytes pubkey ttl tokens) = tokens
  \/ tokens !! sha256 (shown bytes) = None /\ ttl_ok ttl
     /\ snd (mint_token fault now bytes pubkey ttl tokens)
        = <[sha256 (shown bytes) := minted now pubkey ttl]> tokens.
Proof.
  unfold mint_token. change (TOKEN_PREFIX +:+ hex_encode bytes)%string with (shown bytes).
  destruct (_ && _) eqn:Httl; cbn [negb]; [|by left].
  apply andb_true_iff in Httl as [Hlo%Z.leb_le Hhi%Z.leb_le].
  destruct (run_tx_state Sqlx fault (fun tokens => let? t := insert_token now (sha256 (shown bytes)) pubkey
    (default DEFAULT_TOKEN_TTL_SECS ttl) "provisioned" tokens in Ok (t, tt)) tokens) as [Hs|(s' & a & Hs' & Hs)];
    destruct (run_tx _ _ _ tokens) as [[|] tokens'] eqn:Hrun; cbn [snd] in *; subst; auto.
  all: unfold insert_token in Hs'; destruct (negb _); [done|];
    destruct (tokens !! _) eqn:Hh; [done|]; cbn in Hs'; injection Hs' as <- _; by right.
Qed.

Lemma revoke_table fault now token tokens :
  snd (revoke_handler fault now token tokens) = tokens
  \/ exists row, tokens !! sha256 token = Some row /\ tk_revoked_at row = None
     /\ snd (revoke_handler fault now token tokens)
        = <[sha256 token := {| tk_pubkey := tk_pubkey row; tk_expires_at := tk_expires_at row;
                               tk_session_scope := tk_session_scope row; tk_revoked_at := Some now |}]> tokens.
Proof.
  unfold revoke_handler.
  destruct (run_tx_state Sqlx fault (fun tokens => let (revoked, t) := revoke_token now (sha256 token) tokens in
    Ok (E := DbError) (t, revoked)) tokens) as [Hs|(s' & a & Hs' & Hs)];
    destruct (run_tx _ _ _ tokens) as [[[|]|] tokens'] eqn:Hrun; cbn [snd] in *; subst; auto.
  all: unfold revoke_token in Hs'; destruct (tokens !! sha256 token) as [row|]; [|injection Hs' as <- _; by left];
    destruct (tk_revoked_at row) eqn:Hr; injection Hs' as <- _; [by left|right; by exists row].
Qed.

(** A revocation that succeeds leaves the token revoked. *)
Lemma revoke_ok fault now token tokens tokens' :
  revoke_handler fault now token tokens = (Ok tt, tokens') ->
  exists row, tokens' !! sha256 token = Some row /\ is_Some (tk_revoked_at row).
Proof.
  unfold revoke_handler, run_tx, revoke_token. destruct (tokens !! sha256 token) as [row|]; [|by destruct fault].
  destruct (tk_revoked_at row); [by destruct fault|]. destruct fault; [|done|done]. intros [= <-].
  eexists. split; [by apply lookup_insert_eq|done].
Qed.

(** A revoked token stays in the table as it is. *)
Lemma revoked_row st st' hash row :
  token_step st st' -> st.1 !! hash = Some row -> is_Some (tk_revoked_at row) -> st'.1 !! hash = Some row.
Proof.
  intros [fault m tokens ms|fault now token tokens ms] Hrow [t Hr]; cbn [fst] in *.
  - destruct (mint_table fault (mn_at m) (mn_bytes m) (mn_account m) (mn_ttl m) tokens) as [Heq|(Hnone & _ & Heq)];
      unfold mint; rewrite Heq; [done|]. etransitivity; [apply lookup_insert_ne; congruence|done].
  - destruct (revoke_table fault now token tokens) as [-> | (r & Hold & Hlive & ->)]; [done|].
    etransitivity; [apply lookup_insert_ne; congruence|done].
Qed.
Lemma revoked_rows st st' hash row :
  rtc token_step st st' -> st.1 !! hash = Some row -> is_Some (tk_revoked_at row) -> st'.1 !! hash = Some row.
Proof.
  induction 1 as [|t1 t2 t3 Hstep _ IH]; [done|]. intros Hrow Hr. apply IH; [|done]. by eapply revoked_row.
Qed.

(** The row is what the request [m] asked for, but for its revocation. *)
Definition minted_by (m : Minting) (hash : string) (row : GatewayToken) : Prop :=
  hash = sha256 (shown (mn_bytes m)) /\ ttl_ok (mn_ttl m) /\ tk_pubkey row = mn_account m
  /\ tk_expires_at row = mn_at m + default DEFAULT_TOKEN_TTL_SECS (mn_ttl m) * second.
Definition all_minted (st : TokenTable * list Minting) : Prop :=
  forall hash row, st.1 !! hash = Some row -> exists m, m ∈ st.2 /\ minted_by m hash row.

Lemma all_minted_step st st' : token_step st st' -> all_minted st -> all_minted st'.
Proof.
  intros [fault m tokens ms|fault now token tokens ms] Hall hash row Hrow; unfold all_minted in Hall; cbn [fst snd] in *.
  - assert (tokens !! hash = Some row -> exists m', m' ∈ m :: ms /\ minted_by m' hash row) as Hold.
    { intros Ht. destruct (Hall _ _ Ht) as (m' & Hm' & ?). exists m'. split; [by right|done]. }
    destruct (mint_table fault (mn_at m) (mn_bytes m) (mn_account m) (mn_ttl m) tokens) as [Heq|(Hnone & Httl & Heq)];
      unfold mint in Hrow; rewrite Heq in Hrow; [by apply Hold|].
    apply lookup_insert_Some in Hrow as [[<- <-]|[_ ?]]; [|by apply Hold].
    exists m. split; [left|]. by split_and!.
  - destruct (revoke_table fault now token tokens) as [Heq|(r & Hr & _ & Heq)]; rewrite Heq in Hrow; [by apply Hall|].
    apply lookup_insert_Some in Hrow as [[<- <-]|[_ ?]]; [|by apply Hall].
    destruct (Hall _ _ Hr) as (m & Hm & Hb). by exists m.
Qed.

Lemma minted_rows st : rtc token_step (∅, []) st -> all_minted st.
Proof.
  assert (all_minted (∅, [])) as Hempty by (intros hash row Hrow; cbn in Hrow; by apply lookup_empty_Some in Hrow).
  intros Hsteps. revert Hempty. induction Hsteps as [|t1 t2 t3 Hstep _ IH]; [done|].
  intros H1. by apply IH, (all_minted_step t1).
Qed.

End Handlers.
