(* ===== verification/GatewayTheorems.v ===== *)
(** * What the AI gateway guarantees

    The theorems over [Gateway], [GatewayWorld], [GatewaySettle] and
    [GatewayAuth]. *)

From Stdlib Require Import ZArith Lia Ascii.
From stdpp Require Import base gmap fin_maps list strings numbers relations.
From S2P Require Import Prelude MachineInt RustStr Json Usage Prices Metering Credits CreditsFacts Resolver.
From S2P Require Import MoneyTheorems Gateway GatewayWorld GatewayWorldFacts GatewaySettle.
From S2P Require Import GatewaySettleFacts GatewayAuth.
Local Open Scope Z_scope.

(** ** Concurrent calls *)

(** The calls of an account that are admitted and not given back. *)
Definition calls (pk : string) (w : World) : Z :=
  count (fun t => String.eqb (t_pubkey t) pk && holds (t_phase t)) (tasks w).

(** C4. An account never has more than four calls at the provider, whatever
    its requests, their cancellations and the database do, in whatever order,
    within 2^32 steps of the relay's start; and once it has four, or its spend
    of the last hour has reached its cap, no further call gets through. *)
Theorem at_most_four_calls defaults n w pk :
  reach defaults n w -> Z.of_nat n <= users_modulus ->
  calls pk w <= MAX_MAX_IN_FLIGHT
  /\ forall k t account now r,
       tasks w !! k = Some t -> t_pubkey t = pk ->
       check defaults account now (runtime (entry_at (ctl w) (t_entry t))) = (Ok tt, r) ->
       calls pk w < flight_cap defaults account
       /\ spend_nanousd (prune now (runtime (entry_at (ctl w) (t_entry t)))) < burn_cap defaults account.
Proof.
  intros Hreach Hn. pose proof (reach_ok _ _ _ Hreach Hn) as Hw.
  assert (forall k t, tasks w !! k = Some t -> t_pubkey t = pk -> exists e,
    heap (ctl w) !! t_entry t = Some e /\ calls pk w <= in_flight (runtime e)
    /\ in_flight (runtime e) <= MAX_MAX_IN_FLIGHT) as Hcap.
  { intros k t Hk Hpk. pose proof (wo_authority n w Hw k t Hk) as Ha.
    destruct (mo_heap _ (wo_map n w Hw) _ _ Ha) as [e He]. exists e. split; [done|].
    pose proof (wo_entries n w Hw _ _ He) as Ho. split; [|apply Ho]. rewrite (eo_flight _ _ _ _ Ho).
    apply count_mono. intros k' t' Hk' [Hpk'%String.eqb_eq Hh]%andb_true_iff.
    pose proof (wo_authority n w Hw k' t' Hk') as Ha'. unfold on_entry. rewrite Hh, andb_true_r.
    apply Nat.eqb_eq. congruence. }
  split.
  - destruct (Z_le_gt_dec 1 (calls pk w)) as [Hone|]; [|unfold MAX_MAX_IN_FLIGHT; lia].
    destruct (count_exists _ _ Hone) as (k & t & Hk & [Hpk%String.eqb_eq _]%andb_true_iff).
    destruct (Hcap k t Hk Hpk) as (e & _ & Hle & Hmax). lia.
  - intros k t account now r Hk Hpk Hcheck. destruct (Hcap k t Hk Hpk) as (e & He & Hle & _).
    rewrite (entry_at_some _ _ _ He) in *. destruct (check_ok _ _ _ _ _ Hcheck) as (Hlt & _ & Hburn).
    split; [lia|done].
Qed.

(** C8. Every task of an account works on the one entry the map has for it,
    however often entries are evicted meanwhile; at most one of them is behind
    its gate; and the map never has more than 4096 entries. *)
Theorem one_authority_per_account defaults n w :
  reach defaults n w -> Z.of_nat n <= users_modulus ->
  (size (entries (ctl w)) <= MAX_ADMISSION_ENTRIES)%nat
  /\ (forall k t, tasks w !! k = Some t -> entries (ctl w) !! t_pubkey t = Some (t_entry t))
  /\ forall k1 k2 t1 t2, tasks w !! k1 = Some t1 -> tasks w !! k2 = Some t2 ->
       t_pubkey t1 = t_pubkey t2 -> inside (t_phase t1) = true -> inside (t_phase t2) = true -> k1 = k2.
Proof.
  intros Hreach Hn. pose proof (reach_ok _ _ _ Hreach Hn) as Hw.
  split; [apply (wo_map n w Hw)|]. split; [apply (wo_authority n w Hw)|].
  intros k1 k2 t1 t2 H1 H2 Hpk Hi1 Hi2. destruct (decide (k1 = k2)) as [|Hne]; [done|exfalso].
  pose proof (wo_authority n w Hw k1 t1 H1) as Ha1. pose proof (wo_authority n w Hw k2 t2 H2) as Ha2.
  destruct (mo_heap _ (wo_map n w Hw) _ _ Ha1) as [e He].
  pose proof (eo_gate _ _ _ _ (wo_entries n w Hw _ _ He)) as Hg.
  assert (t_entry t2 = t_entry t1) as Heq by congruence.
  assert (on_entry (t_entry t1) inside t1 = true) as Ho1 by (unfold on_entry; by rewrite Nat.eqb_refl).
  assert (on_entry (t_entry t1) inside t2 = true) as Ho2 by (unfold on_entry; by rewrite Heq, Nat.eqb_refl).
  pose proof (count_delete _ _ _ _ H1 : count (on_entry (t_entry t1) inside) _ = _) as Hd.
  pose proof (count_pos (on_entry (t_entry t1) inside) k2 t2 (delete k1 (tasks w))
                ltac:(by rewrite lookup_delete_ne) Ho2) as Hpos.
  rewrite Ho1 in Hd. cbn in Hd. destruct (gate e); cbn in Hg; lia.
Qed.

(** One step of the gateway that is not a new request. *)
Definition gateway_step (defaults : AdmissionDefaults) (w w' : World) : Prop :=
  exists l, l <> Outside /\ gstep defaults l w w'.

Lemma ranks_bound ts : (ranks ts <= 13 * size ts)%nat.
Proof.
  induction ts as [|k t ts Hk IH] using map_ind.
  - unfold ranks. rewrite map_fold_empty. lia.
  - rewrite ranks_insert, map_size_insert_None by done.
    assert (rank (t_phase t) <= 13)%nat by (destruct (t_phase t) as [[]|[]|[]|[]| |]; cbn; lia). lia.
Qed.

(** C15. Once it is closed the gateway drains: nothing enters any more, and only
    the handlers that had found it open before still become tasks or are refused;
    each of them and every task takes a bounded number of steps, and one of them
    can always take the next, so all end; and then no call is in flight and no
    gate is held. *)
Theorem the_gateway_drains defaults n w :
  reach defaults n w -> Z.of_nat n <= users_modulus ->
  (closed (ctl w) = true -> forall l w', gstep defaults l w w' ->
     closed (ctl w') = true /\ entering w' ⊆ entering w
     /\ (size (tasks w') + size (entering w') <= size (tasks w) + size (entering w))%nat)
  /\ (forall m w', nsteps (gateway_step defaults) m w w' -> (m <= 14 * (size (tasks w) + size (entering w)))%nat)
  /\ (tasks w <> ∅ \/ entering w <> ∅ -> exists l w', l <> Outside /\ (forall k, l <> Cut k) /\ gstep defaults l w w')
  /\ (tasks w = ∅ -> forall a e, heap (ctl w) !! a = Some e -> in_flight (runtime e) = 0 /\ gate e = false).
Proof.
  intros Hreach Hn. pose proof (reach_ok _ _ _ Hreach Hn) as Hw. split_and!.
  - intros Hc l w' Hstep. by eapply closed_step.
  - intros m w' Hsteps. pose proof (ranks_bound (tasks w)).
    assert (m + work_left w' <= work_left w)%nat; [|unfold work_left in *; lia].
    clear -Hsteps. induction Hsteps as [w|m w w1 w' (l & Hl & Hstep) _ IH]; [lia|].
    pose proof (task_step_ranks _ _ _ _ Hstep Hl). lia.
  - intros [(k & t & Hk)%map_choose|(j & pk & Hj)%map_choose].
    + destruct (someone_runs defaults n w k t Hw (reach_proper _ _ _ Hreach) Hk) as (k' & w' & Hstep). by exists (Run k'), w'.
    + destruct (enters defaults w j pk Hj) as [w' Hstep]. by exists (Enter j), w'.
  - intros He a e Ha. pose proof (wo_entries n w Hw _ _ Ha) as [Hf _ Hg _].
    rewrite He, count_empty in *. split; [done|]. by destruct (gate e).
Qed.

(** A call refused for its account's spend is told how long to wait, in
    whole seconds between one and an hour. Nothing added meanwhile, the spend is
    below the cap a millisecond past that wait, and is not a second before it. *)
Theorem the_wait_is_right defaults account now r message wait r' :
  runtime_ok r -> Forall (fun p => at_ p <= now) (spend r) -> 0 < burn_cap defaults account ->
  check defaults account now r = (Err (Rate message wait), r') -> in_flight r < flight_cap defaults account ->
  1 <= wait <= 3600
  /\ (forall later, now + wait * second + millisecond <= later ->
        spend_nanousd (prune later r) < burn_cap defaults account)
  /\ (forall sooner, now <= sooner <= now + (wait - 1) * second ->
        burn_cap defaults account <= spend_nanousd (prune sooner r)).
Proof.
  intros Hr Hpast Hcap. unfold check.
  change (in_flight (touch now (prune now r))) with (in_flight (prune now r)). rewrite prune_flight.
  destruct (Z.leb_spec (flight_cap defaults account) (in_flight r)); [lia|].
  change (spend_nanousd (touch now (prune now r))) with (spend_nanousd (prune now r)).
  destruct (Z.leb_spec (burn_cap defaults account) (spend_nanousd (prune now r))) as [Hover|]; [|done].
  intros [= <- <- <-] _. rewrite prune_spec in Hover by done. by apply retry_after_spec.
Qed.

(** ** Admission and the books *)

(** Closing the intent of a refused call gives its hold back. *)
Lemma no_charge_up now n status t i :
  tables_ok t -> intent_by_id n t = Some i ->
  exists j t', resolve_gateway_intent_no_charge DbUp now n status t = (Ok j, t')
    /\ book t' = book t /\ forall q, gateway_reserved_sum q t' = gateway_reserved_sum q t - hold_of q i.
Proof.
  intros Ht Hi. unfold resolve_gateway_intent_no_charge. set (f := fun i => amend i now _ _ _ _ _ _ _ _).
  destruct (intent_by_id_some _ _ _ Hi) as [Hel _].
  pose proof (io_rows t (to_intents t Ht) i Hel) as Hrow. unfold intent_row_ok in Hrow.
  apply andb_true_iff in Hrow as [[Hlen Hobs]%andb_true_iff _].
  destruct (update_intent_total n f t i Hi) as (t' & Hu & Hb).
  { apply released_row_ok; [done|done|]. cbn. by destruct (i_observed_cost i). }
  unfold run_tx. rewrite Hu. eexists _, t'. split; [done|]. split; [done|]. intros q.
  destruct (update_intent_holds _ _ _ _ _ q Hu ltac:(by intros ?) (to_intents t Ht)) as (i0 & Hi0 & ->).
  assert (i0 = i) as -> by congruence.
  assert (hold_of q (reservation_compat (book t) (f i)) = 0) as ->; [|lia].
  unfold hold_of, reservation_compat, f. cbn. by destruct (String.eqb _ _).
Qed.

(** The same when the statement may fail: the hold is given back, or nothing
    happened and the caller is told of an error. *)
Lemma no_charge_any fault now n status t i :
  tables_ok t -> intent_by_id n t = Some i ->
  exists r t', resolve_gateway_intent_no_charge fault now n status t = (r, t') /\ book t' = book t
    /\ ((forall q, gateway_reserved_sum q t' = gateway_reserved_sum q t - hold_of q i) /\ (fault = DbUp -> is_ok r = true)
        \/ t' = t /\ fault <> DbUp /\ exists e, r = Err e).
Proof.
  intros Ht Hi. destruct (no_charge_up now n status t i Ht Hi) as (j & t' & Hr & Hb & Hs).
  unfold resolve_gateway_intent_no_charge, run_tx in *. destruct fault.
  - eexists _, _. split; [exact Hr|]. split; [done|]. by left.
  - eexists _, _. split; [done|]. split; [done|]. right. split_and!; [done|done|by eexists].
  - destruct (update_intent _ _ _) as [[s a]|e]; [|done]. injection Hr as <- <-.
    eexists _, _. split; [done|]. split; [done|]. by left.
Qed.

(** What an admission leaves in the tables: [calm] when no statement failed. *)
Definition admitted (calm : Prop) (pk ref : string) (t t' : Tables)
    (verdict : Result GatewaySettlementIntent AdmissionError) : Prop :=
  book t' = book t /\
  match verdict with
  | Ok i =>
      intents t' = intents t ++ [i] /\ intent_key i = (pk, ref) /\ ADMISSION_FLOOR_NANOUSD <= i_reserved i
      /\ gateway_reserved_sum pk t' <= balance (account_or_new (book t) pk)
  | Err e =>
      (forall q, gateway_reserved_sum q t' = gateway_reserved_sum q t)
      \/ ~ calm /\ (exists error, e = Database error)
         /\ exists i, intents t' = intents t ++ [i] /\ intent_key i = (pk, ref)
  end.

Lemma admit_gated_spec defaults now d pk ref model a c t turns :
  tables_ok t -> Forall alone turns -> intent_by_key pk ref t = None ->
  exists verdict c' turns' t',
    admit_gated defaults now d pk ref model a c turns t = (Ok (verdict, c'), turns', t')
    /\ admitted (Forall undisturbed turns) pk ref t t' verdict.
Proof.
  intros Ht Hturns Hkey. unfold admit_gated.
  edestruct (@recover_alone Tables GatewayIntentReservation) as (fault & clock & turns1 & Hturns1 & Hcalm & Heq); [exact Hturns|].
  rewrite Heq. clear Heq. unfold create_gateway_settlement_intent, run_tx.
  destruct fault; [|by eexists _, _, _, _; split; [done|]; split; [done|left]|].
  all: destruct (create_intent_tx _ _ _ _ _ _ _ t) as [[t1 r]|e] eqn:Hc; cbn [fst snd];
    [|by eexists _, _, _, _; split; [done|]; split; [done|left]].
  all: destruct (create_intent_ok _ _ _ _ _ _ _ _ _ _ Hc Ht) as (Ht1 & Hb1 & Hr).
  2: { eexists _, _, _, _. split; [done|]. split; [done|]. destruct r as [i account|]; [|subst t1; by left].
       destruct Hr as [[_ ?]|(_ & Hl & Hk & _)]; [congruence|]. right.
       split; [intros Hu; by destruct (Hcalm Hu)|]. split; [by eexists|by exists i]. }
  destruct r as [i account|]; cbn [reservation]; [|by subst t1; eexists _, _, _, _; split; [done|]; split; [done|left]].
  destruct Hr as [[_ ?]|(_ & Hl & Hk & Hstate & acct & Hacct & Hres & Hsum)]; [congruence|].
  destruct (check defaults account now _) as [[[]|error] r].
  { eexists _, _, _, _. split; [done|]. split; [done|]. split_and!; [done|done| |].
    - rewrite Hres. unfold required_hold. lia.
    - unfold account_or_new. by rewrite Hacct. }
  edestruct (@recover_alone Tables GatewaySettlementIntent) as (fault2 & clock2 & turns2 & Hturns2 & Hcalm2 & Heq); [exact Hturns1|].
  rewrite Heq. clear Heq.
  assert (intent_by_id (i_id i) t1 = Some i) as Hi.
  { apply row_in; [done|rewrite Hl; apply elem_of_app; right; by apply list_elem_of_singleton|done]. }
  destruct (no_charge_any fault2 clock2 (i_id i) 0 t1 i Ht1 Hi) as (j & t2 & Hj & Hb2 & Hs).
  rewrite Hj. cbn [fst snd]. eexists _, _, _, _. split; [done|]. split; [congruence|].
  destruct Hs as [[Hs2 Hup]|(-> & Hdown & e & ->)].
  - assert (forall q, gateway_reserved_sum q t2 = gateway_reserved_sum q t) as Hsame.
    { intros q. rewrite Hs2, !gateway_reserved_sum_alt by (apply Ht || apply Ht1). rewrite Hl, zsum_app, zsum_cons.
      unfold zsum at 2. cbn [foldr]. lia. }
    destruct j; by left.
  - right. split; [|split; [by eexists|by exists i]]. intros Hu. by destruct (Hcalm2 (proj2 (Hcalm Hu))).
Qed.

(** C16. A call that is admitted has a new hold of at least the floor, which the
    balance of its account covers together with all the account's other holds; a
    call that is refused, for whatever reason, leaves every account's holds as
    they were, unless a statement failed: then it is told so, and the hold that
    may stay is its own. Neither moves money. *)
Theorem refused_calls_hold_nothing defaults entered checked d pk ref model c t turns :
  rtc money_step empty_tables t -> Forall alone turns -> intent_by_key pk ref t = None ->
  exists verdict c' turns' t',
    admit_call defaults entered checked d pk ref model c turns t = (Ok (verdict, c'), turns', t')
    /\ admitted (Forall undisturbed turns) pk ref t t' (let? permit := verdict in Ok (snd permit)).
Proof.
  intros Ht%money_steps_ok Hturns Hkey. unfold admit_call.
  destruct (closed c); [by eexists _, _, _, _; split; [done|]; split; [done|left]|].
  destruct (entry_for_admission entered pk c) as [[a|e] c1]; [|by eexists _, _, _, _; split; [done|]; split; [done|left]].
  destruct (admit_gated_spec defaults checked d pk ref model a (at_entry a (set_gate true) c1) t turns Ht Hturns Hkey)
    as (verdict & c2 & turns2 & t2 & Hg & Hv).
  erewrite db_bind_ok by exact Hg. destruct verdict; by eexists _, _, _, _.
Qed.

(** ** Settling *)

(** C5. However often its statements fail or their answers are lost, the settle
    of a call with its retries adds at most one entry to the ledger: the charge
    of this call, at the stated cost or the price book's estimate, under its
    reference, if nothing was ever written under that reference. It always
    answers, and a debit it reports is in the ledger. *)
Theorem settling_charges_once prices wall job t turns :
  rtc money_step empty_tables t -> Forall alone turns ->
  exists settled turns' t', settle_job prices wall (Some job) turns t = (Ok settled, turns', t')
    /\ (ledger (book t') = ledger (book t)
        \/ ((j_pubkey job, j_reference job) ∉ entry_key <$> ledger (book t))
           /\ exists e, ledger (book t') = ledger (book t) ++ [e] /\ is_charge prices job e)
    /\ forall s, settled = Some s -> in_ledger job s t'.
Proof.
  intros Ht%money_steps_ok Hturns.
  destruct (settle_job_answers prices wall (Some job) turns t) as (settled & turns' & t' & Heq).
  exists settled, turns', t'. split; [done|].
  pose proof (settle_job_once prices t job wall turns t Hturns (charged_start prices t job Ht)) as Honce.
  rewrite Heq in Honce. destruct Honce as (_ & [_ Hl] & Hs). done.
Qed.

(** A call whose provider stated its cost is charged exactly that, when
    nothing disturbs the settle: the balance falls by it and the hold of the
    call is gone. *)
Theorem a_stated_cost_is_charged prices wall job t i cost turns :
  rtc money_step empty_tables t -> Forall undisturbed turns ->
  intent_by_id (j_intent_id job) t = Some i -> i_pubkey i = j_pubkey job -> i_model i = j_model_id job ->
  is_success (j_http_status job) = true ->
  pu_observed_cost (j_parsed job) = Some cost -> 0 <= cost <= i64_max ->
  ((j_pubkey job, j_reference job) ∉ entry_key <$> ledger (book t)) ->
  in_i64 (balance (account_or_new (book t) (j_pubkey job)) - cost) = true ->
  exists s turns' t' j, settle_job prices wall (Some job) turns t = (Ok (Some s), turns', t')
    /\ sd_cost s = cost
    /\ balance (account_or_new (book t') (j_pubkey job))
       = balance (account_or_new (book t) (j_pubkey job)) - cost
    /\ intent_by_id (j_intent_id job) t' = Some j /\ i_reserved j = 0.
Proof.
  intros Ht%money_steps_ok Hturns Hi Hpk Hm Hst Hobs Hcost Hnew Hroom.
  destruct (settle_job_up prices t job i cost Ht Hi Hpk Hm Hst Hobs Hcost Hnew Hroom wall turns Hturns)
    as (s & turns' & t' & j & Hs & Hc & Hj & Hr & Hb).
  by exists s, turns', t', j.
Qed.

(** The worker settles each response once, whether the stream ends or
    breaks and whether the client stays or leaves, with all of its chunks read.
    Before that the client is given chunks in their order, but never the last;
    that one comes after. A client that stays is given them all. *)
Theorem the_last_chunk_waits_for_the_charge `{JsonLib, JsonFloatLib} listens chunks breaks m :
  let stays := forall n, listens n = true in
  exists before after,
    drive listens 0 true chunks breaks (new_tee m)
      = before ++ Settled (job_of (new_tee m) chunks) :: after
    /\ is_Some (job_of (new_tee m) chunks)
    /\ Forall no_settle before /\ Forall no_settle after
    /\ given stays (chunks_of before) (removelast chunks)
    /\ given stays (chunks_of after) (option_list (last chunks)).
Proof.
  destruct (drive_spec listens chunks breaks 0 true (new_tee m))
    as (before & after & Hd & Hb & Ha & [Hg1 Hg2] & [Hg3 Hg4]).
  exists before, after. split; [exact Hd|].
  split; [|by split_and!; [done|done|split; [|intros; apply Hg2]|split; [|intros; apply Hg4]]].
  unfold job_of. assert (forall chunks tee, meta (foldl take_chunk tee chunks) = meta tee) as Hm.
  { clear. induction chunks as [|c chunks IH]; intros tee; [done|]. cbn. by rewrite IH. }
  unfold take_job. rewrite Hm. cbn. by eexists.
Qed.

(** ** Tokens *)

(** C20. A token speaks for the account it was minted for, until it expires or
    is revoked, and for no other: whatever the handlers did since there was no
    token, a call that authenticates carries a token, up to a collision of the
    hash, that a session of the account it is charged to asked for, less than the
    lifetime it asked for ago; and once the token is revoked no call with it
    authenticates again. *)
Theorem tokens_speak_for_their_account `{TokenLib} tokens requests now headers pk :
  rtc token_step (∅, []) (tokens, requests) -> authenticate_gateway_call true now headers tokens = Ok pk ->
  exists token m, extract_token headers = Some token /\ m ∈ requests
    /\ mn_account m = pk /\ sha256 token = sha256 (shown (mn_bytes m)) /\ ttl_ok (mn_ttl m)
    /\ now < mn_at m + default DEFAULT_TOKEN_TTL_SECS (mn_ttl m) * second
    /\ forall fault at_ revoked later when, revoke_handler fault at_ token tokens = (Ok tt, revoked) ->
         rtc token_step (revoked, requests) later ->
         exists e, authenticate_gateway_call true when headers later.1 = Err e.
Proof.
  intros Hsteps Hauth. unfold authenticate_gateway_call in Hauth.
  destruct (extract_token headers) as [token|] eqn:Htok; [|done]. cbn [ok_or rbind negb] in Hauth.
  unfold token_by_hash in Hauth. destruct (tokens !! sha256 token) as [row|] eqn:Hrow; [|done].
  destruct (token_live now row) eqn:Hlive; [|done]. injection Hauth as <-.
  apply andb_true_iff in Hlive as [Hnr%negb_true_iff Hexp%Z.ltb_lt].
  destruct (minted_rows _ Hsteps (sha256 token) row Hrow) as (m & Hm & Hh & Httl & Hpk & He).
  exists token, m. split_and!; try done; [by rewrite <- He|].
  intros fault at_ revoked later when Hrev Hlater.
  destruct (revoke_ok _ _ _ _ _ Hrev) as (row' & Hr & Hrevoked).
  unfold authenticate_gateway_call. rewrite Htok. cbn [ok_or rbind negb]. unfold token_by_hash.
  rewrite (revoked_rows _ _ _ _ Hlater Hr Hrevoked). destruct Hrevoked as [? Hx].
  unfold token_live. rewrite Hx. cbn. eauto.
Qed.

(** What is sent to the provider for a call is of an authenticated account,
    for an enabled model, and carries the headers of the caller but those that
    are stripped, both of the caller's credentials among them, and the gateway's
    own credential. *)
Theorem the_callers_credentials_stay `{TokenLib, JsonLib} up now headers body api_key tokens catalog p :
  prepare_call up now headers body api_key tokens catalog = Ok p ->
  authenticate_gateway_call up now headers tokens = Ok (pc_pubkey p)
  /\ (exists m, catalog !! pc_model_id p = Some m /\ enabled m = true)
  /\ (forall value, ~ ("x-api-key"%string, value) ∈ pc_headers p)
  /\ (forall value, ("authorization"%string, value) ∈ pc_headers p <-> value = bearer api_key)
  /\ forall name value, (name, value) ∈ pc_headers p -> is_stripped_request_header name = false ->
       (name, value) ∈ headers.
Proof.
  unfold prepare_call. destruct (authenticate_gateway_call _ _ _ _) as [pk|]; [|done]. cbn [rbind].
  destruct (json_from_str body) as [request|]; [|done]. cbn [ok_or rbind].
  destruct (get_str request "model") as [model_id|]; [|done]. destruct (str_is_empty _); [done|].
  destruct (negb up); [done|]. unfold model_by_id. destruct (catalog !! model_id) as [m|] eqn:Hm; [|done].
  destruct (enabled m) eqn:He; [|done]. cbn [negb]. intros [= <-]. cbn [pc_pubkey pc_model_id pc_headers].
  split; [done|]. split; [by exists m|]. setoid_rewrite upstream_headers. split_and!.
  - intros value [?|[?|[_ Hs]]]; [done|done|]. by vm_compute in Hs.
  - intros value. split; [intros [?|[?|[_ Hs]]]; [congruence|done|by vm_compute in Hs]|intros ->; by left].
  - intros name value [[= -> _]|[[= -> _]|[Hin _]]] Hs; [by vm_compute in Hs..|done].
Qed.
