(* ===== verification/GatewayWitness.v ===== *)
(** * Runs of the AI gateway

    Each theorem of [GatewayTheorems] at a run of one account, and what
    modelling the gateway showed: an identifier inside a response stands for the
    response's own, a dropped admission pins its account's entry, and a wait can
    be a millisecond short. *)

From Stdlib Require Import ZArith Lia Ascii SpecFloat Sorted.
From stdpp Require Import base gmap fin_maps list strings numbers relations.
From S2P Require Import Prelude MachineInt RustStr Json Usage Prices Metering Credits CreditsFacts Resolver.
From S2P Require Import MoneyWitness MoneyTheorems Gateway GatewayWorld GatewayWorldFacts.
From S2P Require Import GatewaySettle GatewaySettleFacts GatewayAuth GatewayTheorems.
Local Open Scope Z_scope.

(** ** One call through the gate *)

Definition toy_defaults : AdmissionDefaults :=
  {| d_typical_call_cost := 10; d_max_in_flight := 4; d_hourly_burn_cap := 5000 |}.
Definition toy_account : AdmissionAccount :=
  {| aa_balance := 1000; aa_discovery_reserved := 0; aa_gateway_reserved := 10; aa_typical_call_cost := None;
     aa_max_in_flight := Some 1; aa_hourly_burn_cap := None |}.
Definition at_start : World := {| ctl := empty_controller; tasks := ∅; entering := ∅ |}.
Definition opened : World := {| ctl := empty_controller; tasks := ∅; entering := {[ 0%nat := toy_payer ]} |}.
Definition arrived : World :=
  {| ctl := snd (entry_for_admission 5 toy_payer empty_controller);
     tasks := {[ 0%nat := {| t_pubkey := toy_payer; t_entry := 0; t_phase := Waiting Admitting |} ]};
     entering := delete 0%nat (entering opened) |}.
Definition task (w : World) : Task :=
  default {| t_pubkey := ""; t_entry := 0; t_phase := Dropped |} (tasks w !! 0%nat).
Definition locked : World := goes 0 (task arrived) (set_gate true) (Inside Admitting) arrived.
Definition granted : World :=
  goes 0 (task locked)
    (on_runtime (fun _ => snd (check toy_defaults toy_account 6 (runtime (entry_at (ctl locked) 0)))))
    (Unlocking Granted) locked.

Lemma reach_arrived : reach toy_defaults 2 arrived.
Proof.
  eapply reach_step; [eapply reach_step; [apply (reach_start toy_defaults toy_defaults (fun _ => 5) [] empty_controller); reflexivity|]|].
  - by apply (s_open toy_defaults at_start toy_payer 0).
  - by apply (s_arrive toy_defaults opened 5 toy_payer 0 0 0).
Qed.
Lemma reach_granted : reach toy_defaults 4 granted.
Proof.
  eapply reach_step; [eapply reach_step; [exact reach_arrived|]|].
  - eapply (s_lock toy_defaults arrived 0 (task arrived) Admitting); vm_compute; reflexivity.
  - eapply (s_checked toy_defaults locked 0 (task locked) toy_account 6); [vm_compute; reflexivity..|].
    vm_compute. reflexivity.
Qed.

Lemma at_most_four_calls_witness : calls toy_payer granted = 1 /\ calls toy_payer granted <= MAX_MAX_IN_FLIGHT.
Proof.
  split; [vm_compute; reflexivity|].
  apply (at_most_four_calls toy_defaults 4 granted toy_payer reach_granted). vm_compute. congruence.
Defined.

Lemma one_authority_per_account_witness :
  entries (ctl granted) !! toy_payer = Some 0%nat /\ (size (entries (ctl granted)) <= MAX_ADMISSION_ENTRIES)%nat.
Proof.
  destruct (one_authority_per_account toy_defaults 4 granted reach_granted) as (Hs & Ha & _);
    [vm_compute; congruence|].
  split; [apply (Ha 0%nat (task granted)); vm_compute; reflexivity|exact Hs].
Defined.

(** While the call is granted a second handler finds the gateway open; then it is
    closed. The handler still becomes a task. *)
Definition half_open : World :=
  {| ctl := ctl granted; tasks := tasks granted; entering := <[1%nat := toy_payer]> (entering granted) |}.
Definition closing : World := {| ctl := close (ctl granted); tasks := tasks granted; entering := entering half_open |}.
Lemma reach_closing : reach toy_defaults 6 closing.
Proof.
  eapply reach_step; [eapply reach_step; [exact reach_granted|]|].
  - by apply (s_open toy_defaults granted toy_payer 1).
  - exact (s_close toy_defaults half_open).
Qed.
Lemma the_gateway_drains_witness :
  (size (tasks closing), size (entering closing)) = (1%nat, 1%nat)
  /\ (exists w', gstep toy_defaults (Enter 1) closing w' /\ size (tasks w') = 2%nat)
  /\ forall l w', gstep toy_defaults l closing w' -> (size (tasks w') + size (entering w') <= 2)%nat.
Proof.
  split; [vm_compute; reflexivity|]. split.
  - eexists. split; [by apply (s_arrive toy_defaults closing 7 toy_payer 1 1 0)|vm_compute; reflexivity].
  - intros l w' Hstep.
    destruct (the_gateway_drains toy_defaults 6 closing reach_closing) as (Hc & _); [vm_compute; congruence|].
    apply (Hc ltac:(vm_compute; reflexivity) l w' Hstep).
Defined.

(** A request dropped while it waits leaves its account registered for good:
    whatever the hour, its entry is not idle, although no task is left. *)
Definition cut : World := ends 0 (task arrived) same arrived.
Example a_dropped_admission_pins_its_entry :
  reach toy_defaults 3 cut /\ tasks cut = ∅ /\ forall now, entries (prune_idle_entries now (ctl cut)) !! toy_payer = Some 0%nat.
Proof.
  split; [|split; [vm_compute; reflexivity|]].
  - eapply reach_step; [exact reach_arrived|].
    eapply (s_cut_waiting toy_defaults arrived 0 (task arrived)); vm_compute; reflexivity.
  - intros now. cbn [prune_idle_entries entries]. apply map_lookup_filter_Some.
    split; [vm_compute; reflexivity|]. unfold prune_heap. rewrite map_lookup_imap.
    assert (heap (ctl cut) !! 0%nat = Some (add_users 1 blank_entry)) as He by (vm_compute; reflexivity).
    cbn [snd]. rewrite He. cbn. by case_match.
Qed.

(** ** The wait *)

Definition spent_at (t : Z) : AccountRuntime :=
  push_spend {| ledger_id := 7; sp_reference := "r"; at_ := t; cost_nanousd := 5000 |} new_runtime.
Lemma the_wait_is_right_witness :
  1 <= 3600 <= 3600 /\ spend_nanousd (prune (3601 * second) (spent_at 0)) < 5000.
Proof.
  destruct (the_wait_is_right toy_defaults toy_account 0 (spent_at 0) "gateway hourly spend limit reached" 3600
    (touch 0 (spent_at 0))) as (Hw & Hlater & _).
  - apply push_spend_ok; [apply new_runtime_ok|vm_compute; congruence].
  - repeat constructor. vm_compute. congruence.
  - reflexivity.
  - vm_compute. reflexivity.
  - vm_compute. reflexivity.
  - split; [exact Hw|]. apply Hlater. vm_compute. congruence.
Defined.

(** The wait drops what is left of a millisecond: told one second, the caller
    that comes back after one second is refused again. *)
Example a_wait_can_be_short :
  let now := BURN_WINDOW - second - 500000 in
  fst (check toy_defaults toy_account now (spent_at 0)) = Err (Rate "gateway hourly spend limit reached" 1)
  /\ spend_nanousd (prune (now + second) (spent_at 0)) = 5000.
Proof. vm_compute. done. Qed.

(** ** The books *)

(** Refused for its balance a call leaves no hold; and no money moves when the
    answer of its reservation is lost. *)
Definition lost_answer : list Turn := [{| fault := CommitUnknown; clock := 4; between := fun t => t |}].
Lemma refused_calls_hold_nothing_witness :
  (exists verdict c' turns' t',
    admit_call toy_defaults 5 6 0 toy_payer "call-1" "m" empty_controller [] call_bought = (Ok (verdict, c'), turns', t')
    /\ forall q, gateway_reserved_sum q t' = gateway_reserved_sum q call_bought)
  /\ exists verdict c' turns' t',
    admit_call toy_defaults 5 6 0 toy_payer "call-1" "m" empty_controller lost_answer call_bought = (Ok (verdict, c'), turns', t')
    /\ book t' = book call_bought.
Proof.
  assert (rtc money_step empty_tables call_bought) as Hsteps by (eapply rtc_l; [apply step_entry|]; apply rtc_refl).
  split.
  - destruct (refused_calls_hold_nothing toy_defaults 5 6 0 toy_payer "call-1" "m" empty_controller call_bought [])
      as (verdict & c' & turns' & t' & Ha & _ & Hv); [done|constructor|vm_compute; reflexivity|].
    exists verdict, c', turns', t'. split; [exact Ha|].
    assert (verdict = Err (Payment 1000 50000000)) as E.
    { apply (f_equal (fun r => fst (fst r))) in Ha. vm_compute in Ha. injection Ha as <- _. reflexivity. }
    rewrite E in Hv. destruct Hv as [Hv|[Hcalm _]]; [exact Hv|]. exfalso. apply Hcalm. constructor.
  - destruct (refused_calls_hold_nothing toy_defaults 5 6 0 toy_payer "call-1" "m" empty_controller call_bought lost_answer)
      as (verdict & c' & turns' & t' & Ha & Hb & _); [done|by repeat constructor|vm_compute; reflexivity|].
    by exists verdict, c', turns', t'.
Defined.

(** The response to the call: its cost and an identifier, read off the wire. *)
Definition parsed (cost : Z) : ParsedUsage :=
  {| pu_tokens := None; pu_model := None; pu_request_id := Some "r1"%string; pu_observed_cost := Some cost |}.
Definition toy_job : SettleJob :=
  {| j_pubkey := toy_payer; j_model_id := "m"; j_intent_id := 1; j_intent_reference := "call-1";
     j_parsed := parsed 12; j_http_status := 200; j_parseable := true; j_reference := "r1" |}.

Lemma call_admitted_steps : rtc money_step empty_tables call_admitted.
Proof. eapply rtc_l; [apply step_entry|]. eapply rtc_l; [apply step_create|]. apply rtc_refl. Qed.

(** The first attempt loses the acknowledgement of its charge. *)
Definition lost_charge : list Turn :=
  [calm 4; {| fault := CommitUnknown; clock := 4; between := fun t => t |}].
Lemma settling_charges_once_witness :
  exists settled turns' t', settle_job [] (fun _ => 4) (Some toy_job) lost_charge call_admitted
      = (Ok settled, turns', t')
    /\ (ledger (book t') = ledger (book call_admitted)
        \/ exists e, ledger (book t') = ledger (book call_admitted) ++ [e] /\ is_charge [] toy_job e).
Proof.
  destruct (settling_charges_once [] (fun _ => 4) toy_job call_admitted lost_charge)
    as (settled & turns' & t' & Hs & Hl & _); [exact call_admitted_steps|repeat constructor|].
  exists settled, turns', t'. split; [exact Hs|]. destruct Hl as [Hl|[_ He]]; [left; exact Hl|right; exact He].
Defined.

Lemma a_stated_cost_is_charged_witness :
  exists s turns' t', settle_job [] (fun _ => 4) (Some toy_job) [] call_admitted = (Ok (Some s), turns', t')
    /\ sd_cost s = 12 /\ balance (account_or_new (book t') toy_payer) = 1000 - 12.
Proof.
  destruct (a_stated_cost_is_charged [] (fun _ => 4) toy_job call_admitted (call_intent call_admitted) 12 [])
    as (s & turns' & t' & j & Hs & Hc & Hb & _); [exact call_admitted_steps|apply List.Forall_nil|vm_compute; reflexivity..| | | |].
  - vm_compute. split; congruence.
  - intros Hin. apply list_elem_of_In in Hin. vm_compute in Hin.
    destruct Hin as [Hin|[]]; discriminate.
  - vm_compute. reflexivity.
  - exists s, turns', t'. split; [exact Hs|]. split; [exact Hc|].
    change toy_payer with (j_pubkey toy_job). rewrite Hb. vm_compute. reflexivity.
Defined.

(** ** An identifier inside a response *)

Definition quoted (s : string) : string := (quote +:+ s +:+ quote)%string.
(** A response without an id of its own, whose tool call has one. *)
Definition nested_body : string :=
  ("{" +:+ quoted "choices" +:+ ":[{" +:+ quoted "id" +:+ ":" +:+ quoted "call_0" +:+ "}],"
   +:+ quoted "usage" +:+ ":{" +:+ quoted "cost" +:+ ":1}}")%string.
Definition nested_value : Json :=
  json_object [("choices", JArray [json_object [("id", JString "call_0")]]);
               ("usage", json_object [("cost", JInt 1)])]%string.
#[local] Instance gateway_json : JsonLib := {
  json_from_str s := if String.eqb s nested_body then Some nested_value
                     else if String.eqb s (quoted "call_0") then Some (JString "call_0") else None;
  json_to_string _ := EmptyString;
}.
#[local] Instance gateway_floats : JsonFloatLib := { float_of_text _ := S754_nan }.

Definition meta_of (n : Z) (ref : string) : SettleMeta :=
  {| m_pubkey := toy_payer; m_model_id := "m"; m_intent_id := n; m_intent_reference := ref; m_is_sse := false;
     m_parseable := true; m_http_status := 200 |}.
Definition two_admitted : Tables :=
  snd (create_gateway_settlement_intent DbUp 3 0 toy_payer "call-2" "m" 10 1 call_admitted).
Definition settle_response (n : Z) (ref : string) (t : Tables) : Tables :=
  snd (settle_job [] (fun _ => 4) (job_of (new_tee (meta_of n ref)) [nested_body]) [] t).

(** Two calls, a dollar each by their provider, are settled under the tool
    call's id: the second is a replay of the first, and free. *)
Example a_nested_id_makes_a_call_free :
  (j_reference <$> job_of (new_tee (meta_of 1 "call-1")) [nested_body]) = Some "call_0"%string
  /\ List.map (fun e => (kind e, reference e, delta e))
       (ledger (book (settle_response 2 "call-2" (settle_response 1 "call-1" two_admitted))))
     = [("credit", "stripe:1", 1000); ("debit", "call_0", -1000000000)]%string
  /\ List.map i_state (intents (settle_response 2 "call-2" (settle_response 1 "call-1" two_admitted)))
     = [Debited; Debited].
Proof. vm_compute. done. Qed.

(** ** Tokens *)

#[local] Instance gateway_tokens : TokenLib := {
  sha256 s := repeated_char 32 (match String.get 10 s with Some c => c | None => "0"%char end);
  hex_encode s := s;
  header_to_str s := Some s;
  header_from_str s := Some s;
}.
Definition toy_minting : Minting := {| mn_at := 0; mn_bytes := "a"; mn_account := toy_payer; mn_ttl := Some 60 |}.
Definition toy_tokens : gmap string GatewayToken := snd (mint DbUp toy_minting ∅).
Definition toy_headers : HeaderMap := [("x-api-key", "colony-gw-a")]%string.
Lemma tokens_speak_for_their_account_witness :
  authenticate_gateway_call true second toy_headers toy_tokens = Ok toy_payer
  /\ exists m, m ∈ [toy_minting] /\ mn_account m = toy_payer.
Proof.
  assert (authenticate_gateway_call true second toy_headers toy_tokens = Ok toy_payer) as Ha by (vm_compute; reflexivity).
  split; [exact Ha|].
  destruct (tokens_speak_for_their_account toy_tokens [toy_minting] second toy_headers toy_payer)
    as (token & m & _ & Hm & Hpk & _); [|exact Ha|].
  - eapply rtc_l; [apply (token_mint DbUp toy_minting ∅ [])|]. apply rtc_refl.
  - exists m. split; [exact Hm|exact Hpk].
Defined.

Definition toy_catalog : gmap string CatalogModel :=
  {[ "m"%string := {| vercel_slug := "v/m"; enabled := true; display_price_nanousd := 1 |} ]}.
#[local] Instance request_json : JsonLib := {
  json_from_str s := if String.eqb s "request" then Some (json_object [("model", JString "m")]%string) else None;
  json_to_string _ := EmptyString;
}.
Lemma the_callers_credentials_stay_witness :
  exists p, prepare_call (H0 := request_json) true second (("cookie", "c") :: toy_headers)%string "request" "vk"
              toy_tokens toy_catalog = Ok p
    /\ ~ ("x-api-key", "colony-gw-a")%string ∈ pc_headers p.
Proof.
  destruct (prepare_call (H0 := request_json) true second (("cookie", "c") :: toy_headers)%string "request" "vk"
              toy_tokens toy_catalog) as [p|e] eqn:Hp; [|exfalso; vm_compute in Hp; discriminate].
  exists p. split; [reflexivity|].
  destruct (the_callers_credentials_stay true second (("cookie", "c") :: toy_headers)%string "request" "vk"
              toy_tokens toy_catalog p Hp) as (_ & _ & Hx & _). apply Hx.
Defined.
