(* ===== verification/Network.v ===== *)
(** * Addresses: which ones are private, and how their text is read

    [crates/buzz-core/src/network.rs], which keeps webhooks away from internal
    networks, and [is_private_address] and [source_ip_from] of
    [crates/buzz-relay/src/api/payments.rs], which decide where a payment
    callback came from; with what they use of [std::net]. An IPv4 address is its
    four bytes, an IPv6 address its eight 16-bit segments. *)

From Stdlib Require Import ZArith Lia Ascii Btauto.
From stdpp Require Import base list strings numbers.
From S2P Require Import Prelude MachineInt RustStr.
Local Open Scope Z_scope.

(** ** [std::net] *)

Inductive Ipv4 := Ip4 (a b c d : Z).
Inductive Ipv6 := Ip6 (s0 s1 s2 s3 s4 s5 s6 s7 : Z).
Inductive IpAddr := V4 (ip : Ipv4) | V6 (ip : Ipv6).
#[export] Instance Ipv4_eq_dec : EqDecision Ipv4.
Proof. solve_decision. Defined.
#[export] Instance Ipv6_eq_dec : EqDecision Ipv6.
Proof. solve_decision. Defined.
#[export] Instance IpAddr_eq_dec : EqDecision IpAddr.
Proof. solve_decision. Defined.

(** [Ipv4Addr]'s predicates. *)
Definition v4_is_loopback '(Ip4 a _ _ _) : bool := a =? 127.
Definition v4_is_private '(Ip4 a b _ _) : bool :=
  (a =? 10) || ((a =? 172) && (16 <=? b) && (b <=? 31)) || ((a =? 192) && (b =? 168)).
Definition v4_is_link_local '(Ip4 a b _ _) : bool := (a =? 169) && (b =? 254).
Definition v4_is_unspecified '(Ip4 a b c d) : bool := (a =? 0) && (b =? 0) && (c =? 0) && (d =? 0).
Definition v4_is_broadcast '(Ip4 a b c d) : bool := (a =? 255) && (b =? 255) && (c =? 255) && (d =? 255).

(** [segments], [octets]. *)
Definition segments '(Ip6 s0 s1 s2 s3 s4 s5 s6 s7) : list Z := [s0; s1; s2; s3; s4; s5; s6; s7].
Definition octets (v6 : Ipv6) : list Z := segments v6 ≫= (fun s => [Z.shiftr s 8; Z.land s 255]).
(** [Ipv6Addr]'s predicates. *)
Definition v6_is_loopback (v6 : Ipv6) : bool := bool_decide (v6 = Ip6 0 0 0 0 0 0 0 1).
Definition v6_is_unspecified (v6 : Ipv6) : bool := bool_decide (v6 = Ip6 0 0 0 0 0 0 0 0).
(** [to_be_bytes] of two segments. *)
Definition v4_of_segments (ab cd : Z) : Ipv4 :=
  Ip4 (Z.shiftr ab 8) (Z.land ab 255) (Z.shiftr cd 8) (Z.land cd 255).
(** [to_ipv4]. *)
Definition to_ipv4 '(Ip6 s0 s1 s2 s3 s4 s5 ab cd) : option Ipv4 :=
  if (s0 =? 0) && (s1 =? 0) && (s2 =? 0) && (s3 =? 0) && (s4 =? 0) && ((s5 =? 0) || (s5 =? 65535))
  then Some (v4_of_segments ab cd) else None.

(** ** [network.rs] *)

Definition NAT64_WELL_KNOWN_PREFIX : list Z := [0; 100; 255; 155; 0; 0; 0; 0; 0; 0; 0; 0].
Definition IPV4_TRANSLATED_PREFIX : list Z := [0; 0; 0; 0; 0; 0; 0; 0; 255; 255; 0; 0].

(** [embedded_ipv4]. *)
Definition embedded_ipv4 (v6 : Ipv6) (prefix : list Z) : option Ipv4 :=
  if bool_decide (firstn (length prefix) (octets v6) = prefix) then
    match skipn 12 (octets v6) with
    | [a; b; c; d] => Some (Ip4 a b c d)
    | _ => None
    end
  else None.

(** The two arms of [is_private_ip]. *)
Definition private_v4 (v4 : Ipv4) : bool :=
  let '(Ip4 a b _ _) := v4 in
  v4_is_loopback v4 || v4_is_private v4 || v4_is_link_local v4 || (a =? 0) || v4_is_broadcast v4
  || ((a =? 100) && (Z.land b 192 =? 64))
  || ((a =? 198) && (Z.land b 254 =? 18)).
(** What is tested of an IPv6 address that carries no IPv4 address. *)
Definition own_v6 (v6 : Ipv6) : bool :=
  let '(Ip6 s0 s1 s2 _ _ _ _ _) := v6 in
  v6_is_loopback v6 || v6_is_unspecified v6
  || (Z.land s0 65024 =? 64512) || (Z.land s0 65472 =? 65152) || (Z.land s0 65280 =? 65280)
  || ((s0 =? 100) && (s1 =? 65435) && (s2 =? 1)) || ((s0 =? 8193) && (s1 =? 0)) || (s0 =? 8194)
  || ((s0 =? 8193) && (s1 =? 3512)).

Definition private_v6 (v6 : Ipv6) : bool :=
  match to_ipv4 v6 with
  | Some v4 => private_v4 v4
  | None =>
      match embedded_ipv4 v6 NAT64_WELL_KNOWN_PREFIX with
      | Some v4 => private_v4 v4
      | None =>
          match embedded_ipv4 v6 IPV4_TRANSLATED_PREFIX with
          | Some v4 => private_v4 v4
          | None => own_v6 v6
          end
      end
  end.
(** [is_private_ip]. *)
Definition is_private_ip (ip : IpAddr) : bool :=
  match ip with V4 v4 => private_v4 v4 | V6 v6 => private_v6 v6 end.

(** ** The address a callback came from *)

(** [is_private_address]. *)
Definition is_private_address (ip : IpAddr) : bool :=
  match ip with
  | V4 v4 => v4_is_private v4 || v4_is_loopback v4 || v4_is_link_local v4 || v4_is_unspecified v4
  | V6 v6 =>
      let '(Ip6 s0 _ _ _ _ _ _ _) := v6 in
      v6_is_loopback v6 || v6_is_unspecified v6
      || (Z.land s0 65024 =? 64512) || (Z.land s0 65472 =? 65152)
  end.

(** ** [IpAddr::from_str] *)

(** The value of a hexadecimal digit. *)
Definition hex_digit (c : ascii) : option Z :=
  if in_code_range 48 57 c then Some (code c - 48)
  else if in_code_range 97 102 c then Some (code c - 87)
  else if in_code_range 65 70 c then Some (code c - 55)
  else None.
Definition radix_digit (radix : Z) (c : ascii) : option Z :=
  d ← hex_digit c; if d <? radix then Some d else None.

(** The digits that begin [s]: their value, how many, and the rest; [None] as
    soon as there are more than [max_digits] of them or the value does not fit. *)
Fixpoint read_digits (radix limit : Z) (max_digits : nat) (value : Z) (count : nat) (s : string)
    : option (Z * nat * string) :=
  match s with
  | String c s' =>
      match radix_digit radix c with
      | Some d =>
          let value := value * radix + d in
          if limit <? value then None
          else if (max_digits <? S count)%nat then None
          else read_digits radix limit max_digits value (S count) s'
      | None => Some (value, count, s)
      end
  | EmptyString => Some (value, count, s)
  end.
(** [Parser::read_number]. *)
Definition read_number (radix limit : Z) (max_digits : nat) (allow_zero_prefix : bool) (s : string)
    : option (Z * string) :=
  '(value, count, rest) ← read_digits radix limit max_digits 0 0 s;
  if (count =? 0)%nat then None
  else if negb allow_zero_prefix && starts_with "0" s && (1 <? count)%nat then None
  else Some (value, rest).
(** [Parser::read_separator]: nothing before the first. *)
Definition read_separator {A} (sep : string) (index : nat) (read : string -> option (A * string)) (s : string)
    : option (A * string) :=
  rest ← (if (index =? 0)%nat then Some s else strip_prefix sep s); read rest.

(** [Parser::read_ipv4_addr]. *)
Definition read_octet (i : nat) : string -> option (Z * string) :=
  read_separator "." i (read_number 10 255 3 false).
Definition read_ipv4_addr (s : string) : option (Ipv4 * string) :=
  '(a, s) ← read_octet 0 s; '(b, s) ← read_octet 1 s; '(c, s) ← read_octet 2 s; '(d, s) ← read_octet 3 s;
  Some (Ip4 a b c d, s).

(** [read_groups], from group [i] of at most [i + left]: the groups, whether an
    IPv4 address was the last, and the rest. *)
Fixpoint read_groups (left i : nat) (s : string) : list Z * bool * string :=
  match left with
  | O => ([], false, s)
  | S left' =>
      match (if (1 <? left)%nat then read_separator ":" i read_ipv4_addr s else None) with
      | Some (Ip4 a b c d, rest) => ([a * 256 + b; c * 256 + d], true, rest)
      | None =>
          match read_separator ":" i (read_number 16 65535 4 true) s with
          | Some (g, rest) =>
              let '(groups, v4, rest) := read_groups left' (S i) rest in (g :: groups, v4, rest)
          | None => ([], false, s)
          end
      end
  end.
Definition of_segments (l : list Z) : option Ipv6 :=
  match l with
  | [s0; s1; s2; s3; s4; s5; s6; s7] => Some (Ip6 s0 s1 s2 s3 s4 s5 s6 s7)
  | _ => None
  end.
(** [Parser::read_ipv6_addr]. *)
Definition read_ipv6_addr (s : string) : option (Ipv6 * string) :=
  let '(head, head_v4, rest) := read_groups 8 0 s in
  if (length head =? 8)%nat then ip ← of_segments head; Some (ip, rest)
  else if head_v4 then None
  else
    rest ← strip_prefix "::" rest;
    let '(tail, _, rest) := read_groups (7 - length head) 0 rest in
    ip ← of_segments (head ++ repeat 0 (8 - length head - length tail) ++ tail);
    Some (ip, rest).
(** [str::parse::<IpAddr>]: all of the text. *)
Definition parse_ip (s : string) : option IpAddr :=
  let whole {A} (r : option (A * string)) : option A :=
    '(ip, rest) ← r; if str_is_empty rest then Some ip else None in
  match read_ipv4_addr s with
  | Some r => V4 <$> whole (Some r)
  | None => V6 <$> whole (read_ipv6_addr s)
  end.

(** ** The networks the guard names

    The ranges of [is_private_ip]'s documentation, as networks in the usual
    sense: the addresses whose first [len] bits are those of the prefix. *)

Definition v4_bits '(Ip4 a b c d) : Z := ((a * 256 + b) * 256 + c) * 256 + d.
(** The six segments an IPv4 address can be embedded under, and the last two. *)
Definition v6_high '(Ip6 s0 s1 s2 s3 s4 s5 _ _) : Z :=
  ((((s0 * 65536 + s1) * 65536 + s2) * 65536 + s3) * 65536 + s4) * 65536 + s5.
Definition v6_low '(Ip6 _ _ _ _ _ _ s6 s7) : Ipv4 := v4_of_segments s6 s7.
Definition v6_bits (v6 : Ipv6) : Z := v6_high v6 * 2 ^ 32 + v4_bits (v6_low v6).

Definition in_net (width bits : Z) '((prefix, len) : Z * Z) : bool :=
  Z.shiftr bits (width - len) =? Z.shiftr prefix (width - len).

Definition NETWORKS4 : list (Z * Z) :=
  [(v4_bits (Ip4 127 0 0 0), 8); (v4_bits (Ip4 10 0 0 0), 8); (v4_bits (Ip4 172 16 0 0), 12);
   (v4_bits (Ip4 192 168 0 0), 16); (v4_bits (Ip4 169 254 0 0), 16); (v4_bits (Ip4 0 0 0 0), 8);
   (v4_bits (Ip4 255 255 255 255), 32); (v4_bits (Ip4 100 64 0 0), 10); (v4_bits (Ip4 198 18 0 0), 15)].
(** The prefixes of 96 bits an IPv4 address is read under: compatible, mapped,
    translated, NAT64. *)
Definition EMBEDDINGS : list Z :=
  [v6_high (Ip6 0 0 0 0 0 0 0 0); v6_high (Ip6 0 0 0 0 0 65535 0 0);
   v6_high (Ip6 0 0 0 0 65535 0 0 0); v6_high (Ip6 100 65435 0 0 0 0 0 0)].
Definition embed (high : Z) '((prefix, len) : Z * Z) : Z * Z := (high * 2 ^ 32 + prefix, 96 + len).
Definition OWN_NETWORKS6 : list (Z * Z) :=
  [(v6_bits (Ip6 0 0 0 0 0 0 0 1), 128); (v6_bits (Ip6 0 0 0 0 0 0 0 0), 128);
   (v6_bits (Ip6 64512 0 0 0 0 0 0 0), 7); (v6_bits (Ip6 65152 0 0 0 0 0 0 0), 10);
   (v6_bits (Ip6 65280 0 0 0 0 0 0 0), 8); (v6_bits (Ip6 8193 3512 0 0 0 0 0 0), 32);
   (v6_bits (Ip6 100 65435 1 0 0 0 0 0), 48); (v6_bits (Ip6 8193 0 0 0 0 0 0 0), 32);
   (v6_bits (Ip6 8194 0 0 0 0 0 0 0), 16)].
Definition NETWORKS6 : list (Z * Z) :=
  OWN_NETWORKS6 ++ (EMBEDDINGS ≫= (fun high => embed high <$> NETWORKS4)).
Definition blocked (ip : IpAddr) : bool :=
  match ip with
  | V4 v4 => existsb (in_net 32 (v4_bits v4)) NETWORKS4
  | V6 v6 => existsb (in_net 128 (v6_bits v6)) NETWORKS6
  end.

Definition is_byte (x : Z) : Prop := 0 <= x < 256.
Definition is_segment (x : Z) : Prop := 0 <= x < 65536.
Definition v4_wf '(Ip4 a b c d) : Prop := is_byte a /\ is_byte b /\ is_byte c /\ is_byte d.
Definition v6_wf (v6 : Ipv6) : Prop := Forall is_segment (segments v6).
Definition ip_wf (ip : IpAddr) : Prop := match ip with V4 v4 => v4_wf v4 | V6 v6 => v6_wf v6 end.

(** ** Facts *)

(** A property of [n] numbers from [z] on, checked one by one. *)
Fixpoint all_from (n : nat) (z : Z) (f : Z -> bool) : bool :=
  match n with O => true | S n => f z && all_from n (z + 1) f end.
Lemma all_from_spec n z f x : all_from n z f = true -> z <= x < z + Z.of_nat n -> f x = true.
Proof.
  revert z. induction n as [|n IH]; intros z H Hx; [lia|]. cbn in H. apply andb_true_iff in H as [Hz Hn].
  destruct (decide (x = z)) as [->|]; [done|]. apply (IH (z + 1)); [done|lia].
Qed.

(** The masks, as divisions. *)
Definition byte_masks (x : Z) : bool :=
  Bool.eqb (Z.land x 192 =? 64) (x / 64 =? 1) && Bool.eqb (Z.land x 254 =? 18) (x / 2 =? 9).
Definition segment_masks (x : Z) : bool :=
  Bool.eqb (Z.land x 65024 =? 64512) (x / 512 =? 126) && Bool.eqb (Z.land x 65472 =? 65152) (x / 64 =? 1018)
  && Bool.eqb (Z.land x 65280 =? 65280) (x / 256 =? 255).
Lemma all_bytes : all_from 256 0 byte_masks = true.
Proof. by vm_compute. Qed.
Lemma all_segments : all_from (256 * 256) 0 segment_masks = true.
Proof. by vm_compute. Qed.

Lemma byte_mask x : is_byte x ->
  (Z.land x 192 =? 64) = (x / 64 =? 1) /\ (Z.land x 254 =? 18) = (x / 2 =? 9).
Proof.
  intros Hx. assert (byte_masks x = true) as H by (apply (all_from_spec _ _ _ _ all_bytes); exact Hx).
  unfold byte_masks in H. by rewrite !andb_true_iff, !Bool.eqb_true_iff in H.
Qed.
Lemma segment_mask x : is_segment x ->
  (Z.land x 65024 =? 64512) = (x / 512 =? 126) /\ (Z.land x 65472 =? 65152) = (x / 64 =? 1018)
  /\ (Z.land x 65280 =? 65280) = (x / 256 =? 255).
Proof.
  intros Hx. assert (segment_masks x = true) as H
    by (apply (all_from_spec _ _ _ _ all_segments); unfold is_segment in Hx; lia).
  unfold segment_masks in H. rewrite !andb_true_iff, !Bool.eqb_true_iff in H. tauto.
Qed.

Ltac div_lia := Z.to_euclidean_division_equations; lia.
(** Two tests of numbers that agree. *)
Ltac eqb_lia :=
  unfold is_byte, is_segment in *;
  apply eq_true_iff_eq; rewrite ?andb_true_iff, ?orb_true_iff, ?Z.eqb_eq, ?Z.leb_le;
  Z.to_euclidean_division_equations; lia.

(** The first bits of an address, from its first bytes. *)
Lemma v4_prefixes a b c d : v4_wf (Ip4 a b c d) ->
  let bits := v4_bits (Ip4 a b c d) in
  Z.shiftr bits 24 = a /\ Z.shiftr bits 22 = a * 4 + b / 64 /\ Z.shiftr bits 20 = a * 16 + b / 16
  /\ Z.shiftr bits 17 = a * 128 + b / 2 /\ Z.shiftr bits 16 = a * 256 + b.
Proof.
  unfold v4_wf, is_byte, v4_bits. intros (Ha & Hb & Hc & Hd). rewrite !Z.shiftr_div_pow2 by lia.
  change (2 ^ 24) with 16777216. change (2 ^ 22) with 4194304. change (2 ^ 20) with 1048576.
  change (2 ^ 17) with 131072. change (2 ^ 16) with 65536. split_and!; div_lia.
Qed.

Lemma v4_bits_inj a b c d a' b' c' d' : v4_wf (Ip4 a b c d) -> v4_wf (Ip4 a' b' c' d') ->
  v4_bits (Ip4 a b c d) = v4_bits (Ip4 a' b' c' d') -> a = a' /\ b = b' /\ c = c' /\ d = d'.
Proof. unfold v4_wf, is_byte, v4_bits. lia. Qed.

(** The nine networks, byte by byte. *)
Lemma blocked_v4 v4 : v4_wf v4 -> existsb (in_net 32 (v4_bits v4)) NETWORKS4 = private_v4 v4.
Proof.
  destruct v4 as [a b c d]. intros Hwf. destruct (v4_prefixes a b c d Hwf) as (H24 & H22 & H20 & H17 & H16).
  destruct Hwf as (Ha & Hb & Hc & Hd). destruct (byte_mask b Hb) as [Hm1 Hm2].
  unfold private_v4. rewrite Hm1, Hm2. set (bits := v4_bits (Ip4 a b c d)) in *.
  unfold NETWORKS4, in_net. cbn [existsb].
  change (Z.shiftr bits (32 - 8)) with (Z.shiftr bits 24). change (Z.shiftr bits (32 - 12)) with (Z.shiftr bits 20).
  change (Z.shiftr bits (32 - 16)) with (Z.shiftr bits 16). change (Z.shiftr bits (32 - 32)) with bits.
  change (Z.shiftr bits (32 - 10)) with (Z.shiftr bits 22). change (Z.shiftr bits (32 - 15)) with (Z.shiftr bits 17).
  rewrite H24, H22, H20, H17, H16.
  cbn [v4_is_loopback v4_is_private v4_is_link_local v4_is_broadcast].
  repeat match goal with |- context [Z.shiftr (v4_bits ?n) ?k] => let v := eval vm_compute in (Z.shiftr (v4_bits n) k) in
    change (Z.shiftr (v4_bits n) k) with v end.
  assert ((a * 16 + b / 16 =? 2753) = (a =? 172) && (16 <=? b) && (b <=? 31)) as -> by eqb_lia.
  assert ((a * 256 + b =? 49320) = (a =? 192) && (b =? 168)) as -> by eqb_lia.
  assert ((a * 256 + b =? 43518) = (a =? 169) && (b =? 254)) as -> by eqb_lia.
  assert ((a * 4 + b / 64 =? 401) = (a =? 100) && (b / 64 =? 1)) as -> by eqb_lia.
  assert ((a * 128 + b / 2 =? 25353) = (a =? 198) && (b / 2 =? 9)) as -> by eqb_lia.
  assert ((bits =? 4294967295) = (a =? 255) && (b =? 255) && (c =? 255) && (d =? 255)) as ->
    by (unfold bits, v4_bits; eqb_lia).
  btauto.
Qed.

(** ** IPv6 *)

Lemma segment_bytes s : s = Z.shiftr s 8 * 256 + Z.land s 255.
Proof. rewrite Z.shiftr_div_pow2 by lia. change 255 with (Z.ones 8). rewrite Z.land_ones by lia. div_lia. Qed.
Lemma segment_split s : is_segment s -> is_byte (Z.shiftr s 8) /\ is_byte (Z.land s 255).
Proof.
  unfold is_segment, is_byte. rewrite Z.shiftr_div_pow2 by lia. change 255 with (Z.ones 8).
  rewrite Z.land_ones by lia. change (2 ^ 8) with 256. intros. split; div_lia.
Qed.

Lemma v6_low_wf v6 : v6_wf v6 -> v4_wf (v6_low v6).
Proof.
  destruct v6 as [s0 s1 s2 s3 s4 s5 s6 s7]. unfold v6_wf. cbn [segments v6_low v4_of_segments v4_wf].
  rewrite !list.Forall_cons. intros (_ & _ & _ & _ & _ & _ & [H1 H2]%segment_split & [H3 H4]%segment_split & _).
  done.
Qed.
Lemma v4_bits_range v4 : v4_wf v4 -> 0 <= v4_bits v4 < 2 ^ 32.
Proof. destruct v4. unfold v4_wf, v4_bits, is_byte. lia. Qed.
Lemma v4_bits_segments s6 s7 : v4_bits (v4_of_segments s6 s7) = s6 * 65536 + s7.
Proof. cbn [v4_of_segments v4_bits]. pose proof (segment_bytes s6). pose proof (segment_bytes s7). lia. Qed.

Lemma shiftr_add x y k : 0 <= k -> 0 <= y < 2 ^ k -> Z.shiftr (x * 2 ^ k + y) k = x.
Proof. intros Hk Hy. rewrite Z.shiftr_div_pow2, Z.div_add_l, Z.div_small by lia. lia. Qed.

(** The first bits of an address, from its first segments. *)
Lemma v6_prefixes s0 s1 s2 s3 s4 s5 s6 s7 : let v6 := Ip6 s0 s1 s2 s3 s4 s5 s6 s7 in v6_wf v6 ->
  Z.shiftr (v6_bits v6) 112 = s0 /\ Z.shiftr (v6_bits v6) 96 = s0 * 65536 + s1
  /\ Z.shiftr (v6_bits v6) 80 = (s0 * 65536 + s1) * 65536 + s2.
Proof.
  intros v6 Hwf. pose proof (v4_bits_range _ (v6_low_wf _ Hwf)) as Hlow.
  assert (Z.shiftr (v6_bits v6) 32 = v6_high v6) as H32 by (apply shiftr_add; [done|exact Hlow]).
  unfold v6_wf, v6 in Hwf. cbn [segments] in Hwf. rewrite !list.Forall_cons in Hwf.
  destruct Hwf as (_ & H1 & H2 & H3 & H4 & H5 & _).
  assert (forall x y, is_segment y -> Z.shiftr (x * 65536 + y) 16 = x) as Hs by (intros x y Hy; by apply (shiftr_add x y 16)).
  assert (forall k, 0 <= k -> Z.shiftr (v6_bits v6) (32 + k) = Z.shiftr (v6_high v6) k) as Hk.
  { intros k Hk. by rewrite <- H32, Z.shiftr_shiftr by lia. }
  change 112 with (32 + (16 + (16 + (16 + (16 + 16))))). change 96 with (32 + (16 + (16 + (16 + 16)))).
  change 80 with (32 + (16 + (16 + 16))). rewrite !Hk by lia.
  cbn [v6_high v6]. rewrite <- !Z.shiftr_shiftr by lia. rewrite !Hs by done. done.
Qed.

Lemma embed_in_net high low P p len :
  0 <= low < 2 ^ 32 -> 0 <= p < 2 ^ 32 -> 0 <= len <= 32 ->
  in_net 128 (high * 2 ^ 32 + low) (embed P (p, len)) = (high =? P) && in_net 32 low (p, len).
Proof.
  intros Hl Hp Hlen. unfold in_net, embed. replace (128 - (96 + len)) with (32 - len) by lia.
  set (k := 32 - len). assert (2 ^ 32 = 2 ^ len * 2 ^ k) as Hpow by (rewrite <- Z.pow_add_r by lia; f_equal; lia).
  assert (0 < 2 ^ k) as Hk by (apply Z.pow_pos_nonneg; lia).
  rewrite !Z.shiftr_div_pow2 by lia. rewrite Hpow, !Z.mul_assoc, !Z.div_add_l by lia.
  assert (forall x, 0 <= x < 2 ^ 32 -> 0 <= x / 2 ^ k < 2 ^ len) as Hd.
  { intros x Hx. split; [apply Z.div_pos; lia|]. apply Z.div_lt_upper_bound; lia. }
  pose proof (Hd low Hl). pose proof (Hd p Hp). apply eq_true_iff_eq. rewrite andb_true_iff, !Z.eqb_eq. split.
  - rewrite !(Z.mul_comm _ (2 ^ len)). intros E. apply Z.div_mod_unique in E; [tauto|by left..].
  - by intros [-> ->].
Qed.

Lemma existsb_bind {A B} (f : B -> bool) (g : A -> list B) l :
  existsb f (l ≫= g) = existsb (fun x => existsb f (g x)) l.
Proof. induction l as [|x l IH]; [done|]. cbn. by rewrite existsb_app, IH. Qed.
Lemma existsb_fmap {A B} (f : B -> bool) (g : A -> B) l : existsb f (g <$> l) = existsb (fun x => f (g x)) l.
Proof. induction l as [|x l IH]; [done|]. cbn. by rewrite IH. Qed.
Lemma existsb_andb {A} (b : bool) (f : A -> bool) l : existsb (fun x => b && f x) l = b && existsb f l.
Proof. induction l as [|x l IH]; cbn; [by rewrite andb_false_r|]. rewrite IH. by destruct b. Qed.
Lemma existsb_ext {A} (f g : A -> bool) l : (forall x, x ∈ l -> f x = g x) -> existsb f l = existsb g l.
Proof.
  intros H. induction l as [|x l IH]; [done|]. cbn. rewrite H by left. f_equal. apply IH. intros y Hy. apply H. by right.
Qed.

(** The embedded networks: one of the four prefixes, and the IPv4 address under
    it. *)
Lemma blocked_embedded v6 : v6_wf v6 ->
  existsb (in_net 128 (v6_bits v6)) (EMBEDDINGS ≫= (fun high => embed high <$> NETWORKS4))
  = existsb (Z.eqb (v6_high v6)) EMBEDDINGS && private_v4 (v6_low v6).
Proof.
  intros Hwf. pose proof (v6_low_wf _ Hwf) as Hlow. rewrite existsb_bind.
  rewrite <- (blocked_v4 _ Hlow). rewrite andb_comm, <- existsb_andb. apply existsb_ext. intros P _.
  rewrite existsb_fmap, andb_comm, <- existsb_andb. apply existsb_ext. intros [p len] Hin.
  apply embed_in_net; [by apply v4_bits_range|..];
    repeat (apply elem_of_cons in Hin as [[= -> ->]|Hin]; [vm_compute; split; done|]); by apply elem_of_nil in Hin.
Qed.

Lemma v6_bits_small v6 n : v6_wf v6 -> 0 <= n < 65536 ->
  (v6_bits v6 =? n) = bool_decide (v6 = Ip6 0 0 0 0 0 0 0 n).
Proof.
  destruct v6 as [s0 s1 s2 s3 s4 s5 s6 s7]. intros Hwf Hn. apply eq_true_iff_eq. rewrite Z.eqb_eq, bool_decide_eq_true.
  unfold v6_bits. cbn [v6_low]. rewrite v4_bits_segments. unfold v6_wf in Hwf. cbn [segments] in Hwf.
  rewrite !list.Forall_cons in Hwf. unfold is_segment in Hwf. split.
  - cbn [v6_high]. intros Heq. f_equal; lia.
  - intros [= -> -> -> -> -> -> -> ->]. done.
Qed.

Lemma blocked_own v6 : v6_wf v6 -> existsb (in_net 128 (v6_bits v6)) OWN_NETWORKS6 = own_v6 v6.
Proof.
  destruct v6 as [s0 s1 s2 s3 s4 s5 s6 s7]. intros Hwf. destruct (v6_prefixes _ _ _ _ _ _ _ _ Hwf) as (H112 & H96 & H80).
  pose proof (v6_bits_small _ 1 Hwf ltac:(lia)) as Hone. pose proof (v6_bits_small _ 0 Hwf ltac:(lia)) as Hzero.
  set (bits := v6_bits _) in *.
  assert (forall k, 0 <= k -> Z.shiftr bits (112 + k) = s0 / 2 ^ k) as Hk.
  { intros k Hk. by rewrite <- H112, <- Z.shiftr_div_pow2, Z.shiftr_shiftr by lia. }
  pose proof (Hk 9 ltac:(lia) : Z.shiftr bits 121 = _) as H121.
  pose proof (Hk 6 ltac:(lia) : Z.shiftr bits 118 = _) as H118.
  pose proof (Hk 8 ltac:(lia) : Z.shiftr bits 120 = _) as H120.
  unfold v6_wf in Hwf. cbn [segments] in Hwf. rewrite !list.Forall_cons in Hwf. destruct Hwf as (Hs0 & Hs1 & Hs2 & _).
  destruct (segment_mask s0 Hs0) as (Hm1 & Hm2 & Hm3). unfold own_v6, v6_is_loopback, v6_is_unspecified.
  rewrite <- Hone, <- Hzero, Hm1, Hm2, Hm3. unfold OWN_NETWORKS6, in_net. cbn [existsb].
  repeat match goal with |- context [Z.shiftr (v6_bits ?n) ?k] => let v := eval vm_compute in (Z.shiftr (v6_bits n) k) in
    change (Z.shiftr (v6_bits n) k) with v end.
  change (Z.shiftr bits (128 - 128)) with bits. change (Z.shiftr bits (128 - 7)) with (Z.shiftr bits 121).
  change (Z.shiftr bits (128 - 10)) with (Z.shiftr bits 118). change (Z.shiftr bits (128 - 8)) with (Z.shiftr bits 120).
  change (Z.shiftr bits (128 - 32)) with (Z.shiftr bits 96). change (Z.shiftr bits (128 - 48)) with (Z.shiftr bits 80).
  change (Z.shiftr bits (128 - 16)) with (Z.shiftr bits 112). rewrite H121, H118, H120, H96, H80, H112.
  change (2 ^ 9) with 512. change (2 ^ 6) with 64. change (2 ^ 8) with 256.
  assert ((s0 * 65536 + s1 =? 536939960) = (s0 =? 8193) && (s1 =? 3512)) as -> by (clear -Hs0 Hs1 Hs2; eqb_lia).
  assert ((s0 * 65536 + s1 =? 536936448) = (s0 =? 8193) && (s1 =? 0)) as -> by (clear -Hs0 Hs1 Hs2; eqb_lia).
  assert (((s0 * 65536 + s1) * 65536 + s2 =? 433785077761) = (s0 =? 100) && (s1 =? 65435) && (s2 =? 1)) as -> by (clear -Hs0 Hs1 Hs2; eqb_lia).
  btauto.
Qed.

(** The embeddings, segment by segment. *)
Lemma embedded_spec v6 high prefix s0 s1 s2 s3 s4 s5 : v6_wf v6 ->
  high = v6_high (Ip6 s0 s1 s2 s3 s4 s5 0 0) -> v6_wf (Ip6 s0 s1 s2 s3 s4 s5 0 0) ->
  prefix = firstn 12 (octets (Ip6 s0 s1 s2 s3 s4 s5 0 0)) ->
  embedded_ipv4 v6 prefix = if v6_high v6 =? high then Some (v6_low v6) else None.
Proof.
  destruct v6 as [r0 r1 r2 r3 r4 r5 r6 r7]. intros Hwf -> Hwf' ->. unfold v6_wf in Hwf, Hwf'.
  cbn [segments] in Hwf, Hwf'. rewrite !list.Forall_cons in Hwf, Hwf'. unfold is_segment in *.
  unfold embedded_ipv4. destruct (Z.eqb_spec (v6_high (Ip6 r0 r1 r2 r3 r4 r5 r6 r7)) (v6_high (Ip6 s0 s1 s2 s3 s4 s5 0 0))) as [Heq|Hne].
  - cbn [v6_high] in Heq. assert (r0 = s0 /\ r1 = s1 /\ r2 = s2 /\ r3 = s3 /\ r4 = s4 /\ r5 = s5)
      as (-> & -> & -> & -> & -> & ->) by lia. by rewrite bool_decide_eq_true_2.
  - rewrite bool_decide_eq_false_2; [done|]. intros Heq. apply Hne.
    cbn [octets segments mbind list_bind app firstn length] in Heq. injection Heq. intros.
    cbn [v6_high]. rewrite (segment_bytes r0), (segment_bytes r1), (segment_bytes r2), (segment_bytes r3),
      (segment_bytes r4), (segment_bytes r5). 
    rewrite (segment_bytes s0), (segment_bytes s1), (segment_bytes s2), (segment_bytes s3),
      (segment_bytes s4), (segment_bytes s5). congruence.
Qed.

Lemma to_ipv4_spec v6 : v6_wf v6 ->
  to_ipv4 v6 = if (v6_high v6 =? 0) || (v6_high v6 =? 65535) then Some (v6_low v6) else None.
Proof.
  destruct v6 as [r0 r1 r2 r3 r4 r5 r6 r7]. unfold v6_wf. cbn [segments]. rewrite !list.Forall_cons. unfold is_segment.
  intros Hwf. unfold to_ipv4. cbn [v6_low].
  replace ((v6_high (Ip6 r0 r1 r2 r3 r4 r5 r6 r7) =? 0) || (v6_high (Ip6 r0 r1 r2 r3 r4 r5 r6 r7) =? 65535))
    with ((r0 =? 0) && (r1 =? 0) && (r2 =? 0) && (r3 =? 0) && (r4 =? 0) && ((r5 =? 0) || (r5 =? 65535))); [done|].
  cbn [v6_high]. apply eq_true_iff_eq. rewrite !andb_true_iff, !orb_true_iff, !Z.eqb_eq. lia.
Qed.

(** An address under an embedding is in no other network, but for the two
    addresses whose embedded one is blocked anyway. *)
Lemma own_embedded v6 : v6_wf v6 -> existsb (Z.eqb (v6_high v6)) EMBEDDINGS = true ->
  own_v6 v6 = true -> private_v4 (v6_low v6) = true.
Proof.
  destruct v6 as [r0 r1 r2 r3 r4 r5 r6 r7]. unfold v6_wf. cbn [segments]. rewrite !list.Forall_cons. unfold is_segment.
  intros Hwf Hemb. assert (r0 = 0 /\ r1 = 0 \/ r0 = 100 /\ r1 = 65435 /\ r2 = 0) as Hr.
  { cbn [existsb EMBEDDINGS v6_high] in Hemb. rewrite !orb_true_iff, !Z.eqb_eq in Hemb. lia. }
  unfold own_v6, v6_is_loopback, v6_is_unspecified.
  destruct (decide (Ip6 r0 r1 r2 r3 r4 r5 r6 r7 = Ip6 0 0 0 0 0 0 0 1)) as [[= -> -> -> -> -> -> -> ->]|H1]; [done|].
  destruct (decide (Ip6 r0 r1 r2 r3 r4 r5 r6 r7 = Ip6 0 0 0 0 0 0 0 0)) as [[= -> -> -> -> -> -> -> ->]|H0]; [done|].
  rewrite !bool_decide_eq_false_2 by done. by destruct Hr as [[-> ->]|(-> & -> & ->)].
Qed.

Example mapped_metadata_address :
  is_private_ip <$> parse_ip "::ffff:169.254.169.254" = Some true
  /\ is_private_ip <$> parse_ip "64:ff9b::8.8.8.8" = Some false
  /\ parse_ip "1:2:3:4:5:6:7:8" = Some (V6 (Ip6 1 2 3 4 5 6 7 8))
  /\ parse_ip "2001:db8::1" = Some (V6 (Ip6 8193 3512 0 0 0 0 0 1))
  /\ parse_ip "::" = Some (V6 (Ip6 0 0 0 0 0 0 0 0))
  /\ parse_ip "127.0.0.01" = None /\ parse_ip "1.2.3" = None /\ parse_ip "1::2::3" = None
  /\ parse_ip "1:2:3:4:5:6:7::" = Some (V6 (Ip6 1 2 3 4 5 6 7 0)).
Proof. by vm_compute. Qed.

(** C25. The guard refuses exactly the networks its documentation names: the nine
    of IPv4, the nine of IPv6, and the nine of IPv4 again under each of the four
    ways in which an IPv6 address can carry one. *)
Theorem is_private_ip_spec ip : ip_wf ip -> is_private_ip ip = blocked ip.
Proof.
  destruct ip as [v4|v6]; intros Hwf; cbn [is_private_ip blocked]; [by rewrite blocked_v4|].
  unfold NETWORKS6. rewrite existsb_app, blocked_own, blocked_embedded by done.
  unfold private_v6. rewrite to_ipv4_spec by done.
  assert (embedded_ipv4 v6 NAT64_WELL_KNOWN_PREFIX
    = if v6_high v6 =? v6_high (Ip6 100 65435 0 0 0 0 0 0) then Some (v6_low v6) else None) as ->
    by (eapply embedded_spec; [done|reflexivity| |reflexivity]; repeat constructor; unfold is_segment; lia).
  assert (embedded_ipv4 v6 IPV4_TRANSLATED_PREFIX
    = if v6_high v6 =? v6_high (Ip6 0 0 0 0 65535 0 0 0) then Some (v6_low v6) else None) as ->
    by (eapply embedded_spec; [done|reflexivity| |reflexivity]; repeat constructor; unfold is_segment; lia).
  pose proof (own_embedded v6 Hwf) as Hown. cbn [existsb EMBEDDINGS] in *.
  change (v6_high (Ip6 0 0 0 0 0 0 0 0)) with 0 in *. change (v6_high (Ip6 0 0 0 0 0 65535 0 0)) with 65535 in *.
  destruct (v6_high v6 =? 0), (v6_high v6 =? 65535), (v6_high v6 =? v6_high (Ip6 0 0 0 0 65535 0 0 0)),
    (v6_high v6 =? v6_high (Ip6 100 65435 0 0 0 0 0 0)); cbn [orb andb] in *;
    destruct (own_v6 v6), (private_v4 (v6_low v6)); try done; by specialize (Hown eq_refl eq_refl).
Qed.

Lemma is_private_ip_spec_witness :
  ip_wf (V6 (Ip6 0 0 0 0 0 65535 43518 43518))
  /\ is_private_ip (V6 (Ip6 0 0 0 0 0 65535 43518 43518)) = blocked (V6 (Ip6 0 0 0 0 0 65535 43518 43518))
  /\ blocked (V6 (Ip6 0 0 0 0 0 65535 43518 43518)) = true.
Proof.
  assert (ip_wf (V6 (Ip6 0 0 0 0 0 65535 43518 43518))) as Hwf by (repeat constructor; vm_compute; done).
  split; [exact Hwf|]. split; [exact (is_private_ip_spec _ Hwf)|by vm_compute].
Defined.

(** ** What parses is an address *)

Lemma hex_digit_nonneg c d : hex_digit c = Some d -> 0 <= d.
Proof.
  unfold hex_digit, in_code_range. repeat case_match; intros [= <-];
    repeat match goal with H : (_ && _) = true |- _ => apply andb_true_iff in H as [?%Z.leb_le ?] end; lia.
Qed.

Lemma read_digits_range radix limit n v k s v' k' s' : 0 <= radix -> 0 <= v <= limit ->
  read_digits radix limit n v k s = Some (v', k', s') -> 0 <= v' <= limit.
Proof.
  intros Hr. revert v k. induction s as [|c s IH]; intros v k Hv; cbn [read_digits]; [intros [= <- _ _]; lia|].
  destruct (radix_digit radix c) as [d|] eqn:Hd; [|intros [= <- _ _]; lia].
  destruct (Z.ltb_spec limit (v * radix + d)); [done|]. destruct (n <? S k)%nat; [done|].
  apply IH. split; [|done]. assert (0 <= d); [|nia].
  unfold radix_digit in Hd. apply bind_Some in Hd as (e & He%hex_digit_nonneg & Hd). case_match; [|done].
  by injection Hd as <-.
Qed.

Lemma read_number_range radix limit n z s v s' : 0 <= radix -> 0 <= limit ->
  read_number radix limit n z s = Some (v, s') -> 0 <= v <= limit.
Proof.
  intros Hr Hl. unfold read_number. destruct (read_digits radix limit n 0 0 s) as [[[v' k] rest]|] eqn:H; [|done].
  cbn. destruct (k =? 0)%nat; [done|]. destruct (_ && _); [done|]. intros [= <- _].
  eapply read_digits_range; [..|exact H]; lia.
Qed.

Lemma read_octet_range i s v s' : read_octet i s = Some (v, s') -> is_byte v.
Proof.
  unfold read_octet, read_separator, is_byte. destruct (if (i =? 0)%nat then _ else _); [|done]. cbn.
  intros H%read_number_range; lia.
Qed.

Lemma read_ipv4_wf s ip s' : read_ipv4_addr s = Some (ip, s') -> v4_wf ip.
Proof.
  unfold read_ipv4_addr. intros H.
  repeat (apply bind_Some in H as ([? ?] & ?%read_octet_range & H)). by injection H as <- _.
Qed.

Lemma read_groups_wf left i s l v4 s' : read_groups left i s = (l, v4, s') -> Forall is_segment l.
Proof.
  revert i s l v4 s'. induction left as [|left IH]; intros i s l v4 s'; cbn [read_groups]; [by intros [= <- _ _]|].
  destruct (if (1 <? S left)%nat then _ else _) as [[[a b c d] rest]|] eqn:H4.
  - intros [= <- _ _]. destruct (1 <? S left)%nat; [|done]. unfold read_separator in H4.
    destruct (if (i =? 0)%nat then _ else _); [|done]. cbn in H4. apply read_ipv4_wf in H4 as (? & ? & ? & ?).
    unfold is_byte, is_segment in *. repeat constructor; lia.
  - destruct (read_separator ":" i (read_number 16 65535 4 true) s) as [[g rest]|] eqn:Hg; [|by intros [= <- _ _]].
    destruct (read_groups left (S i) rest) as [[groups v4'] rest'] eqn:Hrec. intros [= <- _ _].
    constructor; [|by eapply IH]. unfold read_separator in Hg. destruct (if (i =? 0)%nat then _ else _); [|done].
    cbn in Hg. apply read_number_range in Hg; [unfold is_segment; lia|lia|lia].
Qed.

Lemma of_segments_wf l ip : of_segments l = Some ip -> Forall is_segment l -> v6_wf ip.
Proof.
  unfold of_segments. do 8 (destruct l as [|? l]; [done|]). destruct l; [|done]. by intros [= <-].
Qed.

Lemma read_ipv6_wf s ip s' : read_ipv6_addr s = Some (ip, s') -> v6_wf ip.
Proof.
  unfold read_ipv6_addr. destruct (read_groups 8 0 s) as [[head v4] rest] eqn:Hh. apply read_groups_wf in Hh.
  destruct (length head =? 8)%nat.
  - intros (ip' & Hip & [= -> _])%bind_Some. by eapply of_segments_wf.
  - destruct v4; [done|]. intros (rest' & _ & H)%bind_Some.
    destruct (read_groups (7 - length head) 0 rest') as [[tail w] rest''] eqn:Ht. apply read_groups_wf in Ht.
    apply bind_Some in H as (ip' & Hip & [= -> _]). eapply of_segments_wf; [exact Hip|].
    apply Forall_app. split; [done|]. apply Forall_app. split; [|done]. apply Forall_forall. intros x Hx%repeat_spec. subst.
    unfold is_segment. lia.
Qed.

(** What parses is an address. *)
Lemma parse_ip_wf s ip : parse_ip s = Some ip -> ip_wf ip.
Proof.
  unfold parse_ip. destruct (read_ipv4_addr s) as [[v4 rest]|] eqn:H4.
  - cbn. destruct (str_is_empty rest); [|done]. intros [= <-]. by eapply read_ipv4_wf.
  - intros (v6 & H & ->)%fmap_Some. destruct (read_ipv6_addr s) as [[v6' rest]|] eqn:H6; [|done].
    cbn in H. destruct (str_is_empty rest); [|done]. injection H as <-. by eapply read_ipv6_wf.
Qed.
