(* ===== verification/Payments.v ===== *)
(** * Card top-ups

    How money comes in: the credit packs ([buzz-relay/src/credit_packs.rs]), the
    two gateways and the verification of what they deliver
    ([payments_provider.rs], [paystack.rs], [payfast.rs]), the table of checkout
    attempts ([buzz-db/src/payment_intents.rs] over migrations 0063, 0064 and
    0067) and the routes ([api/payments.rs]). A delivery is a run of statements
    over the payment table and the Credits tables between which anything else can
    happen. What the network answers is an argument: PayFast's addresses and its
    confirmation, and the response of a request. *)

From Stdlib Require Import ZArith Lia Ascii.
From stdpp Require Import base gmap list strings numbers.
From S2P Require Import Prelude MachineInt RustStr Json Credits Gateway GatewaySettle GatewayAuth Network.
Local Open Scope Z_scope.
Local Open Scope colony_scope.

(** MD5, HMAC-SHA512 of a key and a body, hexadecimal text, the URL standard's
    form encoding of a value and reading of a body, and Unicode's lower case. *)
Class PayLib := {
  md5 : string -> string;
  hmac_sha512 : string -> string -> string;
  hex_decode : string -> option string;
  form_encode : string -> string;
  form_parse : string -> list (string * string);
  to_lowercase : string -> string;
}.

(** ** Credit packs *)

Definition NANO_USD_PER_CENT : Z := 10000000.

Inductive Currency := Zar | Usd.
#[export] Instance Currency_eq_dec : EqDecision Currency.
Proof. solve_decision. Defined.
Definition currency_code (c : Currency) : string := match c with Zar => "ZAR" | Usd => "USD" end.

Record CreditPack := {
  cp_id : string;
  zar_cents : Z;
  usd_cents : Z;
  cp_grant : Z;
}.
#[export] Instance CreditPack_eq_dec : EqDecision CreditPack.
Proof. solve_decision. Defined.
Definition price_in (c : Currency) (pack : CreditPack) : Z :=
  match c with Zar => zar_cents pack | Usd => usd_cents pack end.
Definition pack_of (id : string) (zar usd granted_cents : Z) : CreditPack :=
  {| cp_id := id; zar_cents := zar; usd_cents := usd; cp_grant := granted_cents * NANO_USD_PER_CENT |}.
Definition CREDIT_PACKS : list CreditPack :=
  [pack_of "starter" 11900 699 500; pack_of "growth" 29900 1799 1400; pack_of "scale" 89900 5499 4400;
   pack_of "pro" 244900 14899 12000; pack_of "studio" 508900 30799 25000;
   pack_of "agency" 1014900 60999 50000; pack_of "enterprise" 2024900 120999 100000].
(** [find_pack]. *)
Definition find_pack (id : string) : option CreditPack :=
  find (fun pack => String.eqb (cp_id pack) id) CREDIT_PACKS.

(** ** The gateways *)

Inductive ProviderError :=
| NegativeAmount
| AmountOverflow
| Request
| Status (status : Z)
| MalformedResponse
| MissingAuthorizationUrl
| RejectedCallback (reason : string).
#[export] Instance ProviderError_eq_dec : EqDecision ProviderError.
Proof. solve_decision. Defined.

Inductive ProviderEvent := PaidEvent (reference : string) (cents : Z) | Ignored.
#[export] Instance ProviderEvent_eq_dec : EqDecision ProviderEvent.
Proof. solve_decision. Defined.

(** [nano_usd_from_cents]. *)
Definition nano_usd_from_cents (cents : Z) : Result Z ProviderError :=
  fail_if cents <? 0 with NegativeAmount;
  ok_or (checked_i64 (cents * NANO_USD_PER_CENT)) AmountOverflow.

(** The trait [PaymentProvider]: opening a checkout for an amount, an address, a
    reference and the URL to call back on; and what a delivery with its headers
    and its source says. *)
Record PaymentProvider := {
  provider_name : string;
  provider_currency : Currency;
  provider_initialize : Z -> string -> string -> string -> Result string ProviderError;
  verify_callback : string -> HeaderMap -> option IpAddr -> Result ProviderEvent ProviderError;
}.

Section Gateways.
Context `{TokenLib, PayLib, JsonLib}.

(** *** Paystack *)

Definition SIGNATURE_HEADER : string := "x-paystack-signature".
(** [verify_signature]; an HMAC key has any length. *)
Definition verify_signature (raw_body signature_header secret : string) : bool :=
  match hex_decode signature_header with
  | Some candidate => String.eqb (hmac_sha512 secret raw_body) candidate
  | None => false
  end.

(** What a signed body says. *)
Definition parse_delivery (event : Json) : ProviderEvent :=
  match get_str event "event" with
  | Some "charge.success"%string =>
      match jget event "data" with
      | Some data =>
          match get_str data "reference" with
          | Some reference =>
              let foreign := match get_str data "currency" with
                             | Some currency => negb (eq_ignore_ascii_case currency "USD")
                             | None => false
                             end in
              if foreign then Ignored
              else match jget data "amount" ≫= as_i64 with
                   | Some cents => PaidEvent reference cents
                   | None => Ignored
                   end
          | None => Ignored
          end
      | None => Ignored
      end
  | _ => Ignored
  end.
(** [verify_and_parse_delivery]. *)
Definition verify_and_parse_delivery (raw_body signature_header secret : string)
    : Result ProviderEvent ProviderError :=
  fail_if negb (verify_signature raw_body signature_header secret) with RejectedCallback "invalid signature";
  Ok (match json_from_str raw_body with Some event => parse_delivery event | None => Ignored end).

(** [LivePaystack::initialize]; [post] is the response to the request, or its
    failure. *)
Definition paystack_initialize (post : Json -> Result (Z * string) ProviderError)
    (minor_units : Z) (email reference callback_url : string) : Result string ProviderError :=
  let? response := post (json_object [("amount", JInt minor_units); ("email", JString email);
                                      ("reference", JString reference); ("currency", JString "USD")]%string) in
  let '(status, text) := response in
  fail_if negb (is_success status) with Status status;
  let? value := ok_or (json_from_str text) MalformedResponse in
  ok_or (jget value "data" ≫= fun data => get_str data "authorization_url") MissingAuthorizationUrl.

(** [LivePaystack]. *)
Definition paystack (secret : string) (post : Json -> Result (Z * string) ProviderError) : PaymentProvider :=
  {| provider_name := "paystack"; provider_currency := Usd;
     provider_initialize := paystack_initialize post;
     verify_callback := fun raw_body headers _ =>
       verify_and_parse_delivery raw_body
         (default ""%string (header_get SIGNATURE_HEADER headers ≫= header_to_str)) secret |}.

(** *** PayFast *)

Definition PROCESS_URL_LIVE : string := "https://www.payfast.co.za/eng/process".
Definition PROCESS_URL_SANDBOX : string := "https://sandbox.payfast.co.za/eng/process".

Record PayFastCredentials := {
  merchant_id : string;
  merchant_key : string;
  passphrase : string;
  sandbox : bool;
}.
Inductive EmptyFields := Skip | Keep.

(** [parameter_string_with]: one more [name=value] after what is joined. *)
Definition join_pair (joined name value : string) : string :=
  ((if str_is_empty joined then joined else joined +:+ "&") +:+ name +:+ "=" +:+ value)%string.
Definition parameter_string_with (pairs : list (string * string)) (passphrase : string) (empty : EmptyFields)
    : string :=
  let joined := foldl (fun joined pair =>
    match empty with
    | Skip => if str_is_empty (snd pair) then joined else join_pair joined (fst pair) (snd pair)
    | Keep => join_pair joined (fst pair) (snd pair)
    end) ""%string pairs in
  if str_is_empty passphrase then joined else join_pair joined "passphrase" passphrase.
Definition parameter_string (pairs : list (string * string)) (passphrase : string) : string :=
  parameter_string_with pairs passphrase Skip.
Definition encode_values (pairs : list (string * string)) : list (string * string) :=
  (fun pair => (fst pair, form_encode (snd pair))) <$> pairs.

(** [md5_hex], [signatures_match]. *)
Definition md5_hex (input : string) : string := hex_encode (md5 input).
Definition signatures_match (computed_hex submitted : string) : bool :=
  match hex_decode (trim submitted), hex_decode computed_hex with
  | Some candidate, Some expected => String.eqb expected candidate
  | _, _ => false
  end.

(** [DnsSourceCheck::is_trusted_source]; [resolve] is the address set a host name
    has now, if it resolves. *)
Definition PAYFAST_HOSTS : list string :=
  ["www.payfast.co.za"; "sandbox.payfast.co.za"; "w1w.payfast.co.za"; "w2w.payfast.co.za"]%string.
Definition is_trusted_source (resolve : string -> option (list IpAddr)) (ip : IpAddr) : bool :=
  existsb (fun host => match resolve host with
                       | Some addrs => bool_decide (ip ∈ addrs)
                       | None => false
                       end) PAYFAST_HOSTS.

(** [parse_itn]: the pairs but the signature, in order, and the last signature. *)
Definition parse_itn (raw_body : string) : list (string * string) * option string :=
  foldl (fun '(pairs, signature) pair =>
           if String.eqb (fst pair) "signature" then (pairs, Some (snd pair)) else (pairs ++ [pair], signature))
    ([], None) (form_parse raw_body).

(** [parse_amount_cents]. *)
Definition parse_amount_cents (raw : string) : option Z :=
  let raw := trim raw in
  let '(whole, fraction) := default (raw, ""%string) (split_once "." raw) in
  if str_is_empty whole && str_is_empty fraction then None
  else if negb (str_all is_ascii_digit whole) || negb (str_all is_ascii_digit fraction)
          || (2 <? str_len fraction)
  then None
  else
    units ← parse_int i64_min i64_max whole;
    tenths ← (if str_len fraction =? 0 then Some 0
              else if str_len fraction =? 1 then tens ← parse_int i64_min i64_max fraction; Some (tens * 10)
              else parse_int i64_min i64_max fraction);
    hundreds ← checked_i64 (units * 100);
    checked_i64 (hundreds + tenths).
(** [format!("{}.{:02}", ...)]. *)
Definition amount_text (cents : Z) : string := (dec (cents / 100) +:+ "." +:+ dec_pad 2 (cents mod 100))%string.

(** [process_url_for]. *)
Definition checkout_fields (c : PayFastCredentials) (cents : Z) (email reference callback_url : string)
    : list (string * string) :=
  [("merchant_id", merchant_id c); ("merchant_key", merchant_key c); ("notify_url", callback_url);
   ("email_address", email); ("m_payment_id", reference); ("amount", amount_text cents);
   ("item_name", "Colony credit top-up"); ("item_description", "Adding money to your workspace")]%string.
Definition process_url_for (c : PayFastCredentials) (cents : Z) (email reference callback_url : string)
    : Result string ProviderError :=
  fail_if cents <? 0 with NegativeAmount;
  let encoded := encode_values (checkout_fields c cents email reference callback_url) in
  Ok ((if sandbox c then PROCESS_URL_SANDBOX else PROCESS_URL_LIVE) +:+ "?" +:+ parameter_string encoded ""
      +:+ "&signature=" +:+ md5_hex (parameter_string encoded (passphrase c)))%string.

(** The [HashMap] of the fields: the last of a name. *)
Definition itn_field (pairs : list (string * string)) (name : string) : option string :=
  snd <$> find (fun pair => String.eqb (fst pair) name) (rev pairs).
(** What an authenticated notification says. *)
Definition itn_event (c : PayFastCredentials) (pairs : list (string * string)) : ProviderEvent :=
  if negb (bool_decide (itn_field pairs "merchant_id" = Some (merchant_id c))) then Ignored
  else
    match itn_field pairs "m_payment_id" with
    | None => Ignored
    | Some reference =>
        if negb (bool_decide (itn_field pairs "payment_status" = Some "COMPLETE"%string)) then Ignored
        else match itn_field pairs "amount_gross" ≫= parse_amount_cents with
             | Some cents => PaidEvent reference cents
             | None => Ignored
             end
    end.
(** [PayFast::verify_callback]: [trusted] is whether an address belongs to one
    of PayFast's published hosts, [postback] its answer to the body. *)
Definition verify_itn (c : PayFastCredentials) (trusted : IpAddr -> bool)
    (postback : string -> Result bool ProviderError) (raw_body : string) (source_ip : option IpAddr)
    : Result ProviderEvent ProviderError :=
  let '(pairs, submitted) := parse_itn raw_body in
  let? submitted := ok_or submitted (RejectedCallback "missing signature") in
  let computed := md5_hex (parameter_string_with (encode_values pairs) (passphrase c) Keep) in
  fail_if negb (signatures_match computed submitted) with RejectedCallback "invalid signature";
  let? ip := ok_or source_ip (RejectedCallback "source address unavailable") in
  fail_if negb (trusted ip) with RejectedCallback "untrusted source";
  let? valid := postback raw_body in
  fail_if negb valid with RejectedCallback "postback not VALID";
  Ok (itn_event c pairs).
(** [LiveItnValidator::validate] on the response to the postback. *)
Definition postback_answer (response : Result (Z * string) ProviderError) : Result bool ProviderError :=
  let? r := response in
  fail_if negb (is_success (fst r)) with Status (fst r);
  Ok (String.eqb (trim (snd r)) "VALID").
(** [PayFast]. *)
Definition payfast (c : PayFastCredentials) (trusted : IpAddr -> bool)
    (postback : string -> Result (Z * string) ProviderError) : PaymentProvider :=
  {| provider_name := "payfast"; provider_currency := Zar; provider_initialize := process_url_for c;
     verify_callback := fun raw_body _ source_ip =>
       verify_itn c trusted (fun body => postback_answer (postback body)) raw_body source_ip |}.

(** *** The selection *)

Inductive Selected := SelectedPaystack (secret : string) | SelectedPayFast (credentials : PayFastCredentials).
Definition env_nonempty (env : string -> option string) (name : string) : option string :=
  value ← env name; if str_is_empty value then None else Some value.
(** [build_selected_provider]. *)
Definition build_selected_provider (env : string -> option string) : option Selected :=
  choice ← env_nonempty env "COLONY_PAYMENT_PROVIDER";
  let choice := to_ascii_lowercase choice in
  if String.eqb choice "paystack" then SelectedPaystack <$> env_nonempty env "PAYSTACK_SECRET_KEY"
  else if String.eqb choice "payfast" then
    id ← env_nonempty env "PAYFAST_MERCHANT_ID";
    key ← env_nonempty env "PAYFAST_MERCHANT_KEY";
    let sandbox := match env "PAYFAST_MODE"%string with
                   | Some mode => eq_ignore_ascii_case mode "sandbox"
                   | None => false
                   end in
    passphrase ← (if sandbox then Some (default ""%string (env "PAYFAST_PASSPHRASE"%string))
                  else env_nonempty env "PAYFAST_PASSPHRASE");
    Some (SelectedPayFast {| merchant_id := id; merchant_key := key; passphrase := passphrase;
                             sandbox := sandbox |})
  else None.

(** [callback_url_for]. *)
Definition trim_end_slashes (s : string) : string :=
  str_rev (strip_all (String.length s) ["/"%string] (str_rev s)).
Definition callback_url_for (env : string -> option string) (provider_name tenant_host : string) : string :=
  let origin := default ("https://" +:+ tenant_host)%string (env_nonempty env "COLONY_PAYMENT_CALLBACK_ORIGIN") in
  (trim_end_slashes origin +:+ "/api/payments/webhook/" +:+ provider_name)%string.

(** [source_ip_from]: the forwarded address is believed behind a local proxy. *)
Definition source_ip_from (headers : HeaderMap) (peer : option IpAddr) : option IpAddr :=
  let behind_local_proxy := match peer with Some ip => is_private_address ip | None => true end in
  let forwarded := value ← header_get "fly-client-ip" headers; text ← header_to_str value; parse_ip (trim text) in
  if behind_local_proxy then match forwarded with Some ip => Some ip | None => peer end else peer.
End Gateways.
