(* ===== verification/TopUps.v ===== *)
(** * Checkout attempts and the routes that settle them

    The table [payment_intents] ([buzz-db/src/payment_intents.rs] over migrations
    0063, 0064 and 0067, with the deletion fence of 0059) and the routes of
    [buzz-relay/src/api/payments.rs]. A route is a run of statements over the
    [Shop]: the Credits tables, the checkout attempts and the lifecycle of the
    communities. Between two statements anything else can happen. *)

From Stdlib Require Import ZArith Lia Ascii.
From stdpp Require Import base gmap list strings numbers.
From S2P Require Import Prelude MachineInt RustStr Json Credits GatewayAuth Network Payments.
Local Open Scope Z_scope.
Local Open Scope colony_scope.

(** ** The table *)

Record PackTerms := {
  pack_id : string;
  charge_minor_units : Z;
  charge_currency : string;
  grant_nanousd : Z;
}.
Inductive PaymentStatus := Pending | Paid | Failed | Abandoned.
#[export] Instance PaymentStatus_eq_dec : EqDecision PaymentStatus.
Proof. solve_decision. Defined.

(** A row, which its community and reference key. *)
Record PaymentIntent := {
  pi_pubkey : string;
  pi_usd_cents : Z;
  pi_status : PaymentStatus;
  pi_provider : string;
  pi_paid_cents : option Z;
  pi_pack : option PackTerms;
}.

(** [lifecycle] is the [deletion_state] of each community that has no
    [deleted_at]. *)
Record Shop := {
  money : Tables;
  payments : gmap (string * string) PaymentIntent;
  lifecycle : gmap string string;
}.
Definition with_tables (t : Tables) (s : Shop) : Shop :=
  {| money := t; payments := payments s; lifecycle := lifecycle s |}.
Definition with_payments (p : gmap (string * string) PaymentIntent) (s : Shop) : Shop :=
  {| money := money s; payments := p; lifecycle := lifecycle s |}.

(** The checks of [payment_intents]. *)
Definition pack_row_ok (terms : PackTerms) : bool :=
  (0 <? charge_minor_units terms) && mem ["ZAR"; "USD"]%string (charge_currency terms)
  && (0 <? grant_nanousd terms).
Definition payment_row_ok (i : PaymentIntent) : bool :=
  (octet_length (pi_pubkey i) =? 32) && (500 <=? pi_usd_cents i)
  && mem ["paystack"; "payfast"]%string (pi_provider i)
  && match pi_pack i with Some terms => pack_row_ok terms | None => true end.

(** [DeletionStore::guard_transaction]. *)
Definition guard_transaction (community : string) (s : Shop) : Result unit DbError :=
  match lifecycle s !! community with
  | Some state =>
      if String.eqb state "active" then Ok tt
      else Err (AccessDenied ("community " +:+ community +:+ " is write-fenced (" +:+ state +:+ ")"))%string
  | None => Err (AccessDenied ("community " +:+ community +:+ " is missing or tombstoned"))%string
  end.
(** The trigger [enforce_community_write_fence], for a caller without a lease. *)
Definition write_fence (community : string) (s : Shop) : Result unit DbError :=
  if bool_decide (lifecycle s !! community = Some "active"%string) then Ok tt else Err Sqlx.

(** [create_intent]. *)
Definition open_intent_tx (community ref pk : string) (usd : Z) (provider : string)
    (pack : option PackTerms) (s : Shop) : Result (Shop * unit) DbError :=
  let? _ := guard_transaction community s in
  let row := {| pi_pubkey := pk; pi_usd_cents := usd; pi_status := Pending; pi_provider := provider;
                pi_paid_cents := None; pi_pack := pack |} in
  let? _ := write_fence community s in
  fail_if negb (payment_row_ok row) with Sqlx;
  fail_if is_some (payments s !! (community, ref)) with Sqlx;
  Ok (with_payments (<[(community, ref) := row]> (payments s)) s, tt).
Definition create_intent (fault : DbFault) (community ref pk : string) (usd : Z) (provider : string)
    (pack : option PackTerms) (s : Shop) : Result unit DbError * Shop :=
  run_tx Sqlx fault (open_intent_tx community ref pk usd provider pack) s.

(** [find_intent]. *)
Definition find_intent (community ref : string) (s : Shop) : Result (option PaymentIntent) DbError :=
  Ok (payments s !! (community, ref)).

Definition settled_row (paid_cents : Z) (i : PaymentIntent) : PaymentIntent :=
  {| pi_pubkey := pi_pubkey i; pi_usd_cents := pi_usd_cents i; pi_status := Paid;
     pi_provider := pi_provider i; pi_paid_cents := Some paid_cents; pi_pack := pi_pack i |}.
(** [settle_intent]: one conditional [UPDATE]. *)
Definition settle_intent_tx (community ref : string) (paid_cents : Z) (s : Shop)
    : Result (Shop * bool) DbError :=
  match payments s !! (community, ref) with
  | Some row =>
      if bool_decide (pi_status row = Pending) then
        let? _ := write_fence community s in
        Ok (with_payments (<[(community, ref) := settled_row paid_cents row]> (payments s)) s, true)
      else Ok (s, false)
  | None => Ok (s, false)
  end.
Definition settle_intent (fault : DbFault) (community ref : string) (paid_cents : Z) (s : Shop)
    : Result bool DbError * Shop :=
  run_tx Sqlx fault (settle_intent_tx community ref paid_cents) s.

(** A statement on the Credits tables: [credits::credit]. *)
Definition credit_payment (fault : DbFault) (now : Z) (pk : string) (amount : Z) (ref : string) (s : Shop)
    : Result unit DbError * Shop :=
  let (r, t) := credit fault now pk amount ref (money s) in
  (let? _ := r in Ok tt, with_tables t s).

(** ** The routes *)

Definition internal_error : HttpError := (500, "internal server error"%string).
Definition MAX_EMAIL_LEN : Z := 254.
Definition MAX_REFERENCE_LEN : Z := 200.

Record InitializeRequest := { pack : string; email : string }.

(** [is_plausible_email]. *)
Fixpoint str_last (s : string) : option ascii :=
  match s with
  | EmptyString => None
  | String c EmptyString => Some c
  | String _ s' => str_last s'
  end.
Definition is_plausible_email (email : string) : bool :=
  (str_len email <=? MAX_EMAIL_LEN) && str_contains "@" email && negb (starts_with "@" email)
  && negb (bool_decide (str_last email = Some "@"%char)).

Section Routes.
Context `{TokenLib, PayLib, JsonLib}.

(** [normalise_email]. *)
Definition normalise_email (raw : string) : string := to_lowercase (trim raw).

(** [validate_initialize]. *)
Definition validate_initialize (request : InitializeRequest) : Result unit string :=
  match find_pack (pack request) with
  | None => Err "unknown_pack"%string
  | Some p =>
      fail_if negb (is_ok (nano_usd_from_cents (usd_cents p))) with "amount_too_large"%string;
      fail_if negb (is_plausible_email (normalise_email (email request))) with "invalid_email"%string;
      Ok tt
  end.

(** The row's terms, fixed at checkout. *)
Definition pack_terms (p : CreditPack) (c : Currency) : PackTerms :=
  {| pack_id := cp_id p; charge_minor_units := price_in c p; charge_currency := currency_code c;
     grant_nanousd := cp_grant p |}.

(** [initialize_payment]; [uuid] is the random one, [env] what the callback URL
    reads. *)
Definition initialize_payment (env : string -> option string) (provider : PaymentProvider)
    (community host signer uuid : string) (request : InitializeRequest)
    : DbOf Shop (Result Json HttpError) :=
  match validate_initialize request with
  | Err reason => db_ret (Ok (Err (400, reason)))
  | Ok _ =>
      match find_pack (pack request) with
      | None => db_ret (Ok (Err (400, "unknown_pack"%string)))
      | Some p =>
          let terms := pack_terms p (provider_currency provider) in
          let reference := ("topup-" +:+ uuid)%string in
          db! created := recover (stmt (fun fault _ =>
            create_intent fault community reference signer (usd_cents p) (provider_name provider)
              (Some terms))) in
          db_ret (Ok (
            match created with
            | Err _ => Err internal_error
            | Ok _ =>
                match provider_initialize provider (charge_minor_units terms)
                        (normalise_email (email request)) reference
                        (callback_url_for env (provider_name provider) host) with
                | Ok url => Ok (json_object [("authorizationUrl", JString url);
                                             ("reference", JString reference)]%string)
                | Err _ => Err (503, "payment_unavailable"%string)
                end
            end))
      end
  end.

(** [verify_payment]. *)
Definition verify_payment (community signer ref : string) : DbOf Shop (Result Json HttpError) :=
  if str_is_empty ref || (MAX_REFERENCE_LEN <? str_len ref)
  then db_ret (Ok (Err (400, "invalid_request"%string)))
  else
    db! found := recover (query (find_intent community ref)) in
    db_ret (Ok (
      match found with
      | Err _ => Err internal_error
      | Ok None => Err (404, "unknown_reference"%string)
      | Ok (Some intent) =>
          fail_if negb (String.eqb (pi_pubkey intent) signer) with (404, "unknown_reference"%string);
          Ok (json_object [("paid", JBool (bool_decide (pi_status intent = Paid)));
                           ("usdCents", JInt (default (pi_usd_cents intent) (pi_paid_cents intent)))]%string)
      end)).

(** [balance_payment]; [discovery_reserved] is what the account's Campaigns hold. *)
Definition balance_payment (discovery_reserved : Z) (signer : string) : DbOf Shop (Result Json HttpError) :=
  db! read := recover (query (fun s => account_balance discovery_reserved signer (money s))) in
  db_ret (Ok (
    match read with
    | Err _ => Err internal_error
    | Ok nanousd => Ok (json_object [("usdCents"%string, JInt (Z.quot nanousd NANO_USD_PER_CENT))])
    end)).

(** What a verified payment grants. *)
Definition grant_of (intent : PaymentIntent) (paid_cents : Z) : Result Z ProviderError :=
  match pi_pack intent with
  | Some terms => Ok (grant_nanousd terms)
  | None => nano_usd_from_cents paid_cents
  end.

(** The end of [webhook_payment]: the credit, then the settlement. *)
Definition credit_and_settle (community ref : string) (paid_cents : Z) (pk : string) (nanousd : Z)
    : DbOf Shop (Result Z HttpError) :=
  db! credited := recover (stmt (fun fault now => credit_payment fault now pk nanousd ref)) in
  match credited with
  | Err _ => db_ret (Ok (Err internal_error))
  | Ok _ =>
      db! done := recover (stmt (fun fault _ => settle_intent fault community ref paid_cents)) in
      db_ret (Ok (match done with Ok _ => Ok 200 | Err _ => Err internal_error end))
  end.
(** [webhook_payment], once the delivery is verified as the payment of a
    reference. *)
Definition settle_delivery (provider_name community ref : string) (paid_cents : Z)
    : DbOf Shop (Result Z HttpError) :=
  db! found := recover (query (find_intent community ref)) in
  match found with
  | Err _ => db_ret (Ok (Err internal_error))
  | Ok None => db_ret (Ok (Ok 200))
  | Ok (Some intent) =>
      if negb (String.eqb (pi_provider intent) provider_name) then db_ret (Ok (Ok 200))
      else if bool_decide (pi_status intent = Paid) then db_ret (Ok (Ok 200))
      else match grant_of intent paid_cents with
           | Err _ => db_ret (Ok (Ok 200))
           | Ok nanousd =>
               credit_and_settle community ref paid_cents (pi_pubkey intent) nanousd
           end
  end.
(** [webhook_payment]. *)
Definition webhook_payment (provider : PaymentProvider) (community : string) (headers : HeaderMap)
    (body : string) (source_ip : option IpAddr) : DbOf Shop (Result Z HttpError) :=
  match verify_callback provider body headers source_ip with
  | Err _ => db_ret (Ok (Err (401, "invalid_signature"%string)))
  | Ok Ignored => db_ret (Ok (Ok 200))
  | Ok (PaidEvent reference cents) => settle_delivery (provider_name provider) community reference cents
  end.

Definition WEBHOOK_BODY_LIMIT : Z := 1048576.
(** [webhook_for_route]: [tenant] is the community bound to the host, [body] what
    arrives. *)
Definition webhook_for_route (live : option PaymentProvider) (expected_provider : string)
    (tenant : option string) (headers : HeaderMap) (peer : option IpAddr) (body : string)
    : DbOf Shop (Result Z HttpError) :=
  match tenant with
  | None => db_ret (Ok (Err (404, "unknown_community"%string)))
  | Some community =>
      match live with
      | None => db_ret (Ok (Err (401, "invalid_signature"%string)))
      | Some provider =>
          if negb (String.eqb (provider_name provider) expected_provider)
          then db_ret (Ok (Err (401, "invalid_signature"%string)))
          else if WEBHOOK_BODY_LIMIT <? str_len body
          then db_ret (Ok (Err (400, "invalid_request"%string)))
          else webhook_payment provider community headers body (source_ip_from headers peer)
      end
  end.
End Routes.

(** ** The rate of the client routes

    One cache for the three routes, keyed by community and key. The clock counts
    nanoseconds. *)

Record PubkeyWindow := { count : Z; started_at : Z }.
Definition RateCache : Type := gmap (string * string) PubkeyWindow.
Definition RATE_WINDOW_SECS : Z := 3600.
Definition INITIALIZE_PER_HOUR : Z := 10.
Definition VERIFY_PER_HOUR : Z := 300.
Definition BALANCE_PER_HOUR : Z := 120.
Definition NANOS_PER_SEC : Z := 1000000000.

(** The entry [get_with] finds: its time to live runs from its insertion. *)
Definition live_window (now : Z) (key : string * string) (cache : RateCache) : PubkeyWindow :=
  match cache !! key with
  | Some w => if now - started_at w <? RATE_WINDOW_SECS * NANOS_PER_SEC then w
              else {| count := 0; started_at := now |}
  | None => {| count := 0; started_at := now |}
  end.
(** [charge_pubkey_window]: the seconds until the window resets, once the
    allowance is spent. *)
Definition charge_pubkey_window (now : Z) (key : string * string) (limit : Z) (cache : RateCache)
    : option Z * RateCache :=
  let w := live_window now key cache in
  let cache := <[key := {| count := (count w + 1) mod 2 ^ 32; started_at := started_at w |}]> cache in
  if count w <? limit then (None, cache)
  else (Some (Z.max 0 (RATE_WINDOW_SECS - (now - started_at w) / NANOS_PER_SEC)), cache).

(** What a client route answers when it refuses. *)
Inductive PayError := Refused (e : HttpError) | RateLimited (retry_after_secs : Z).

(** What the three routes do first with [authenticate]'s answer, the community,
    its host and the signing key, then [run]. *)
Definition charged (now limit : Z) (auth : Result (string * string * string) HttpError)
    (run : string -> string -> string -> DbOf Shop (Result Json HttpError)) (cache : RateCache)
    : DbOf Shop (Result Json PayError) * RateCache :=
  match auth with
  | Err e => (db_ret (Ok (Err (Refused e))), cache)
  | Ok (community, host, signer) =>
      match charge_pubkey_window now (community, signer) limit cache with
      | (Some retry, cache) => (db_ret (Ok (Err (RateLimited retry))), cache)
      | (None, cache) =>
          (db! r := run community host signer in
           db_ret (Ok (match r with Ok v => Ok v | Err e => Err (Refused e) end)), cache)
      end
  end.

Section ClientRoutes.
Context `{TokenLib, PayLib, JsonLib}.

(** [initialize]; [request] is the body as the derived reader reads it. *)
Definition initialize (now : Z) (env : string -> option string) (live : option PaymentProvider) (uuid : string)
    (auth : Result (string * string * string) HttpError) (request : option InitializeRequest)
    : RateCache -> DbOf Shop (Result Json PayError) * RateCache :=
  charged now INITIALIZE_PER_HOUR auth (fun community host signer =>
    match request with
    | None => db_ret (Ok (Err (400, "invalid_request"%string)))
    | Some request =>
        match live with
        | None => db_ret (Ok (Err (503, "payment_unavailable"%string)))
        | Some provider => initialize_payment env provider community host signer uuid request
        end
    end).
(** [verify]. *)
Definition verify (now : Z) (auth : Result (string * string * string) HttpError) (reference : option string)
    : RateCache -> DbOf Shop (Result Json PayError) * RateCache :=
  charged now VERIFY_PER_HOUR auth (fun community _ signer =>
    match reference with
    | None => db_ret (Ok (Err (400, "invalid_request"%string)))
    | Some reference => verify_payment community signer reference
    end).
(** [balance]. *)
Definition balance_route (now discovery_reserved : Z) (auth : Result (string * string * string) HttpError)
    : RateCache -> DbOf Shop (Result Json PayError) * RateCache :=
  charged now BALANCE_PER_HOUR auth (fun _ _ signer => balance_payment discovery_reserved signer).
(** [packs]: the catalogue and the currency that applies. *)
Definition packs (live : option PaymentProvider) : list CreditPack * option string :=
  (CREDIT_PACKS, currency_code ∘ provider_currency <$> live).
End ClientRoutes.
