(* ===== verification/TopUpFacts.v ===== *)
(** * Facts of the card top-ups

    The statements of the routes and of everyone else as steps of the [Shop], the
    invariant they keep, and runs of the routes as sequences of steps. *)

From Stdlib Require Import ZArith Lia Ascii.
From stdpp Require Import base gmap list strings numbers relations.
From S2P Require Import Prelude MachineInt RustStr Json Credits CreditsFacts Resolver GatewayAuth Network Payments TopUps.
Local Open Scope Z_scope.

(** ** One credit *)

Definition keys (s : Shop) : list (string * string) := entry_key <$> ledger (book (money s)).
Definition is_topup (ref : string) : bool := starts_with "topup-" ref.

Record credited_as (pk ref : string) (amount : Z) (e : LedgerEntry) : Prop := {
  ca_key : entry_key e = (pk, ref);
  ca_delta : delta e = amount;
  ca_kind : kind e = "credit"%string;
}.

(** A credit keeps the books right and writes one entry or none; an answer
    leaves an entry under the key. *)
Lemma credit_effect fault now pk amount ref t r t' :
  credit fault now pk amount ref t = (r, t') -> tables_ok t ->
  tables_ok t'
  /\ (ledger (book t') = ledger (book t)
      \/ exists e, ledger (book t') = ledger (book t) ++ [e] /\ credited_as pk ref amount e
           /\ (pk, ref) ∉ entry_key <$> ledger (book t))
  /\ (is_ok r = true -> (pk, ref) ∈ entry_key <$> ledger (book t')).
Proof.
  intros H Ht. split.
  { eapply money_step_ok; [|exact Ht]. pose proof (apply_entry_step fault now (money_in "credit" pk amount ref) t) as Hs.
    unfold credit in H. by rewrite H in Hs. }
  unfold credit, apply_entry, apply_entry_applied, apply_entry_inner, run_tx in H.
  cbn [p_kind p_delta money_in] in H. cbn [String.eqb orb andb] in H.
  destruct (amount <=? 0); cbn [andb] in H.
  { injection H as <- <-. split; [by left|done]. }
  change (String.eqb "credit" "debit") with false in H. cbn [andb] in H.
  destruct (on_book _ t) as [[t1 a]|err] eqn:Hob.
  - destruct (on_book_ok _ _ _ _ Hob) as (b & Hap & ->).
    destruct (apply_entry_ok _ _ _ _ _ Hap (to_book t Ht)) as (_ & _ & Ha).
    assert (t' = t \/ t' = with_book b t) as [->| ->].
    { destruct fault; cbn in H; simplify_eq; by auto. }
    + split; [by left|]. destruct fault; cbn in H; [|by simplify_eq..].
      injection H as _ Heq. cbn. assert (b = book t) as -> by (by rewrite <- Heq).
      intros _. destruct (applied a).
      * destruct Ha as (Hl & _). apply (f_equal length) in Hl. rewrite length_app in Hl. cbn in Hl. lia.
      * destruct Ha as (_ & Hin & Hkey & _). cbn in Hkey. rewrite <- Hkey. by apply list_elem_of_fmap_2.
    + cbn [book with_book]. destruct (applied a).
      * destruct Ha as (-> & Hnew & He & _). split.
        -- right. exists (entry a). split; [done|]. split; [|done]. by rewrite He.
        -- intros _. rewrite fmap_app, elem_of_app. right. apply list_elem_of_singleton. by rewrite He.
      * destruct Ha as (-> & Hin & Hkey & _). split; [by left|]. intros _. cbn in Hkey. rewrite <- Hkey. by apply list_elem_of_fmap_2.
  - destruct fault; cbn in H; simplify_eq; (split; [by left|done]).
Qed.

(** Money moves of everyone else: the books stay right and no entry is written
    under a reference of a checkout. *)
Definition foreign (t t' : Tables) : Prop :=
  (tables_ok t -> tables_ok t')
  /\ exists l, ledger (book t') = ledger (book t) ++ l /\ Forall (fun e => is_topup (reference e) = false) l.

Lemma foreign_refl t : foreign t t.
Proof. split; [done|]. exists []. by rewrite app_nil_r. Qed.

(** ** Steps of the shop

    [Issued] are the checkouts opened so far and later, as they are first
    written; [Delivered] the payments a gateway vouches for. A reference is
    issued once. *)
Section Shop.
Context (Issued : string -> string -> PaymentIntent -> Prop) (Delivered : string -> string -> Z -> Prop).

Record issues_ok : Prop := {
  is_once : forall c c' ref i i', Issued c ref i -> Issued c' ref i' -> c = c' /\ i = i';
  is_pending : forall c ref i, Issued c ref i -> pi_status i = Pending /\ pi_paid_cents i = None;
  is_named : forall c ref i, Issued c ref i -> is_topup ref = true;
}.

Inductive shop_step (s : Shop) : Shop -> Prop :=
| other_money t : foreign (money s) t -> shop_step s (with_tables t s)
| other_lifecycle l : shop_step s {| money := money s; payments := payments s; lifecycle := l |}
| purge community :
    shop_step s (with_payments (filter (fun kv => fst (fst kv) <> community) (payments s)) s)
| opened fault c ref i :
    Issued c ref i ->
    shop_step s (snd (create_intent fault c ref (pi_pubkey i) (pi_usd_cents i) (pi_provider i) (pi_pack i) s))
| credited fault now c ref i cents amount :
    Issued c ref i -> Delivered (pi_provider i) ref cents -> grant_of i cents = Ok amount ->
    shop_step s (snd (credit_payment fault now (pi_pubkey i) amount ref s))
| settles fault c ref i cents :
    Issued c ref i -> Delivered (pi_provider i) ref cents -> (pi_pubkey i, ref) ∈ keys s ->
    shop_step s (snd (settle_intent fault c ref cents s)).

(** A row is an issued one, or that row settled: for a payment its gateway vouches
    for, and with its entry in the ledger. *)
Definition row_ok (s : Shop) (c ref : string) (row : PaymentIntent) : Prop :=
  exists i, Issued c ref i
    /\ (row = i \/ exists cents, row = settled_row cents i /\ Delivered (pi_provider i) ref cents
                    /\ (pi_pubkey i, ref) ∈ keys s).
(** An entry under a checkout's reference is the grant of that checkout, for a
    payment its gateway vouches for. *)
Definition entry_ok (e : LedgerEntry) : Prop :=
  exists c i cents, Issued c (reference e) i /\ Delivered (pi_provider i) (reference e) cents
    /\ pubkey e = pi_pubkey i /\ kind e = "credit"%string /\ grant_of i cents = Ok (delta e).
Record shop_ok (s : Shop) : Prop := {
  so_money : tables_ok (money s);
  so_rows : forall c ref row, payments s !! (c, ref) = Some row -> row_ok s c ref row;
  so_entries : forall e, e ∈ ledger (book (money s)) -> is_topup (reference e) = true -> entry_ok e;
}.

Lemma row_ok_mono s s' c ref row : keys s ⊆ keys s' -> row_ok s c ref row -> row_ok s' c ref row.
Proof. intros Hk (i & Hi & Hrow). exists i. split; [done|]. naive_solver. Qed.

(** The rows stay, the money moves. *)
Lemma money_shop_ok s t :
  shop_ok s -> tables_ok t ->
  (exists l, ledger (book t) = ledger (book (money s)) ++ l
     /\ Forall (fun e => is_topup (reference e) = true -> entry_ok e) l) ->
  shop_ok (with_tables t s).
Proof.
  intros [Hm Hr He] Ht (l & Hl & Hnew). split; [done| |].
  - intros c ref row Hrow. eapply row_ok_mono; [|by apply Hr].
    unfold keys. cbn. rewrite Hl, fmap_app. set_solver.
  - intros e. cbn. rewrite Hl, elem_of_app. intros [Hin|Hin]; [by apply He|].
    rewrite list.Forall_forall in Hnew. by apply Hnew.
Qed.

(** The money stays, the rows change. *)
Lemma rows_shop_ok s p :
  shop_ok s -> (forall c ref row, p !! (c, ref) = Some row -> row_ok s c ref row) ->
  shop_ok (with_payments p s).
Proof. intros [Hm Hr He] Hp. by split. Qed.

Hypothesis issues : issues_ok.

Lemma credit_shop_ok fault now c ref i cents amount s :
  Issued c ref i -> Delivered (pi_provider i) ref cents -> grant_of i cents = Ok amount -> shop_ok s ->
  shop_ok (snd (credit_payment fault now (pi_pubkey i) amount ref s)).
Proof.
  intros Hi Hd Hg Hs. unfold credit_payment. destruct (credit _ _ _ _ _ _) as [r t] eqn:Hc.
  destruct (credit_effect _ _ _ _ _ _ _ _ Hc (so_money s Hs)) as (Ht & Hl & _). apply money_shop_ok; [done..|].
  destruct Hl as [Hl|(e & Hl & [Hk Hdel Hkind] & _)].
  - exists []. rewrite app_nil_r. split; [done|by constructor].
  - exists [e]. split; [done|]. constructor; [|constructor]. intros _. unfold entry_key in Hk. simplify_eq.
    by exists c, i, cents.
Qed.

Lemma settle_shop_ok fault c ref i cents s :
  Issued c ref i -> Delivered (pi_provider i) ref cents -> (pi_pubkey i, ref) ∈ keys s -> shop_ok s ->
  shop_ok (snd (settle_intent fault c ref cents s)).
Proof.
  intros Hi Hd Hk Hs. apply (run_tx_ind shop_ok); [done|]. intros s' b. unfold settle_intent_tx.
  destruct (payments s !! (c, ref)) as [row|] eqn:Hrow; [|by intros [= <- _]].
  case_bool_decide as Hst; [|by intros [= <- _]]. intros H. inv_bind. apply rows_shop_ok; [done|].
  intros c' ref' row'. rewrite lookup_insert_Some. intros [[[= <- <-] <-]|[_ H]]; [|by apply so_rows].
  exists i. split; [done|]. right. exists cents. split; [|done].
  destruct (so_rows s Hs _ _ _ Hrow) as (i' & Hi' & Hcase).
  destruct (is_once issues _ _ _ _ _ Hi Hi') as [_ <-].
  destruct Hcase as [->|(cents' & -> & _)]; [done|by cbn in Hst].
Qed.

Lemma create_shop_ok fault c ref i s :
  Issued c ref i -> shop_ok s ->
  shop_ok (snd (create_intent fault c ref (pi_pubkey i) (pi_usd_cents i) (pi_provider i) (pi_pack i) s)).
Proof.
  intros Hi Hs. apply (run_tx_ind shop_ok); [done|]. unfold open_intent_tx. intros s' u H. inv_bind.
  repeat case_match; try done. simplify_eq. apply rows_shop_ok; [done|].
  intros c' ref' row'. rewrite lookup_insert_Some. intros [[[= <- <-] <-]|[_ H']]; [|by apply so_rows].
  exists i. split; [done|]. left.
  destruct (is_pending issues _ _ _ Hi) as [Hst Hp]. destruct i; cbn in *; by subst.
Qed.

Lemma shop_step_ok s s' : shop_step s s' -> shop_ok s -> shop_ok s'.
Proof.
  intros [t [Ht (l & Hl & Hnew)]|lc|community|fault c ref i Hi|fault now c ref i cents amount Hi Hd Hg
         |fault c ref i cents Hi Hd Hk] Hs.
  - apply money_shop_ok; [done|by apply Ht, so_money|]. exists l. split; [done|].
    eapply Forall_impl; [exact Hnew|]. cbn. congruence.
  - destruct Hs as [Hm Hr He]. by split.
  - apply rows_shop_ok; [done|]. intros c ref row [H _]%map_lookup_filter_Some. by apply so_rows.
  - by apply create_shop_ok.
  - by eapply credit_shop_ok.
  - by eapply settle_shop_ok.
Qed.
Lemma shop_steps_ok s s' : rtc shop_step s s' -> shop_ok s -> shop_ok s'.
Proof. induction 1; [done|]. eauto using shop_step_ok. Qed.

(** The ledger is append-only. *)
Lemma shop_step_ledger s s' :
  shop_step s s' -> shop_ok s -> exists l, ledger (book (money s')) = ledger (book (money s)) ++ l.
Proof.
  intros Hstep Hs. assert (forall s', money s' = money s -> exists l,
    ledger (book (money s')) = ledger (book (money s)) ++ l) as Hsame.
  { intros ? ->. exists []. by rewrite app_nil_r. }
  destruct Hstep as [t [_ (l & Hl & _)]|lc|community|fault c ref i Hi|fault now c ref i cents amount Hi Hd Hg
    |fault c ref i cents Hi Hd Hk]; [by exists l|by apply Hsame..| | |].
  - apply Hsame. apply (run_tx_ind (fun s' => money s' = money s)); [done|].
    unfold open_intent_tx. intros s' u H. inv_bind. repeat case_match; by simplify_eq.
  - unfold credit_payment. destruct (credit _ _ _ _ _ _) as [r t] eqn:Hc. cbn.
    destruct (credit_effect _ _ _ _ _ _ _ _ Hc (so_money s Hs)) as (_ & [->|(e & -> & _)] & _); [|by exists [e]].
    exists []. by rewrite app_nil_r.
  - apply Hsame. apply (run_tx_ind (fun s' => money s' = money s)); [done|].
    unfold settle_intent_tx. intros s' b. repeat case_match; try (by intros [= <- _]). intros H'. by inv_bind.
Qed.
Lemma shop_steps_keys s s' : rtc shop_step s s' -> shop_ok s -> keys s ⊆ keys s'.
Proof.
  induction 1 as [|s s1 s' Hstep _ IH]; intros Hs; [done|]. etrans; [|by apply IH; eapply shop_step_ok].
  destruct (shop_step_ledger _ _ Hstep Hs) as [l Hl]. unfold keys. rewrite Hl, fmap_app. set_solver.
Qed.

(** ** The routes are made of steps *)

Section Runs.
Context (s0 : Shop).
Hypothesis ok0 : shop_ok s0.

Definition courteous (turn : TurnOf Shop) : Prop := forall s, rtc shop_step s (between turn s).
Definition Shop_reached (s : Shop) : Prop := rtc shop_step s0 s.

Lemma courteous_calm now : courteous (calm now).
Proof. by intros s. Qed.
Lemma courteous_reached turn s : courteous turn -> Shop_reached s -> Shop_reached (between turn s).
Proof. intros Hturn Hs. unfold Shop_reached in *. etrans; [exact Hs|apply Hturn]. Qed.
Lemma reached_ok s : Shop_reached s -> shop_ok s.
Proof. intros Hs. by eapply shop_steps_ok. Qed.

Notation tri := (triple courteous Shop_reached).

Lemma shop_ret {A} (P : Shop -> Prop) (r : Result A DbError) :
  (forall s, P s -> Shop_reached s) -> tri P (db_ret r) (fun _ => Shop_reached).
Proof. intros H turns s Ht HP. destruct r; split; by auto. Qed.

Lemma shop_bind {A B} P (m : DbOf Shop A) Q (k : Result A DbError -> DbOf Shop B) :
  tri P m Q -> (forall a, tri (Q a) (k (Ok a)) (fun _ => Shop_reached)) ->
  (forall e, tri Shop_reached (k (Err e)) (fun _ => Shop_reached)) ->
  tri P (db_bind (recover m) k) (fun _ => Shop_reached).
Proof.
  intros Hm Hok Herr. eapply triple_bind; [by apply triple_recover|]. intros [a|e]; [by apply Hok|by apply Herr].
Qed.

Lemma credit_and_settle_reached c ref i cents amount :
  Issued c ref i -> Delivered (pi_provider i) ref cents -> grant_of i cents = Ok amount ->
  tri Shop_reached (credit_and_settle c ref cents (pi_pubkey i) amount) (fun _ => Shop_reached).
Proof.
  intros Hi Hd Hg. apply shop_bind with (Q := fun _ s => Shop_reached s /\ (pi_pubkey i, ref) ∈ keys s);
    [|intros _|intros e; by apply shop_ret].
  - apply triple_stmt; [apply courteous_calm|]. intros turn Hturn s Hs.
    pose proof (courteous_reached _ _ Hturn Hs) as Hs1.
    pose proof (credited _ (fault turn) (clock turn) c ref i cents amount Hi Hd Hg : shop_step (between turn s) _) as Hstep.
    unfold credit_payment in *. destruct (credit _ _ _ _ _ _) as [r t] eqn:Hc.
    destruct (credit_effect _ _ _ _ _ _ _ _ Hc (so_money _ (reached_ok _ Hs1))) as (_ & _ & Hin).
    destruct r as [a|]; cbn [rbind]; [split; [|by apply Hin]|]; by (eapply rtc_r; [exact Hs1|]).
  - apply shop_bind with (Q := fun _ => Shop_reached); [|intros b; by apply shop_ret|intros e; by apply shop_ret].
    apply triple_stmt; [apply courteous_calm|]. intros turn Hturn s [Hs Hin].
    assert (shop_step (between turn s) (snd (settle_intent (fault turn) c ref cents (between turn s)))) as Hstep.
    { apply settles with (i := i); [done..|]. eapply shop_steps_keys; [apply Hturn|by apply reached_ok|done]. }
    pose proof (courteous_reached _ _ Hturn Hs) as Hs1.
    destruct (settle_intent _ _ _ _ _) as [[]]; by (eapply rtc_r; [exact Hs1|]).
Qed.

Lemma settle_delivery_reached name c ref cents :
  Delivered name ref cents ->
  tri Shop_reached (settle_delivery name c ref cents) (fun _ => Shop_reached).
Proof.
  intros Hd. unfold settle_delivery.
  apply shop_bind with (Q := fun found s => Shop_reached s /\ forall row, found = Some row ->
    row_ok s c ref row); [|intros [row|]|intros e; by apply shop_ret].
  { eapply triple_conseq; [apply (triple_query courteous Shop_reached)|done|];
      [apply courteous_calm|by intros; apply courteous_reached|done|].
    intros found s [Hs [= <-]]. split; [done|]. intros row Hrow. by apply so_rows; [apply reached_ok|]. }
  2:{ apply shop_ret. by intros s []. }
  destruct (negb _) eqn:Hname; [apply shop_ret; by intros s []|].
  case_bool_decide as Hst; [apply shop_ret; by intros s []|].
  destruct (grant_of row cents) as [amount|] eqn:Hg; [|apply shop_ret; by intros s []].
  assert (pi_provider row = name) as <- by (apply String.eqb_eq; by destruct (String.eqb _ _)).
  intros turns s Hturns [Hs Hrow]. destruct (Hrow row eq_refl) as (i & Hi & [->|(cents' & -> & _)]); [|by cbn in Hst].
  by apply (credit_and_settle_reached c ref i cents).
Qed.

Lemma webhook_reached provider c headers body ip :
  (forall ref cents, verify_callback provider body headers ip = Ok (PaidEvent ref cents) ->
     Delivered (provider_name provider) ref cents) ->
  tri Shop_reached (webhook_payment provider c headers body ip) (fun _ => Shop_reached).
Proof.
  intros Hd. unfold webhook_payment. destruct (verify_callback _ _ _ _) as [[ref cents|]|]; try by apply shop_ret.
  apply settle_delivery_reached. by apply Hd.
Qed.
End Runs.

(** What [initialize_payment] writes. *)
Definition opening (provider : PaymentProvider) (signer : string) (p : CreditPack) : PaymentIntent :=
  {| pi_pubkey := signer; pi_usd_cents := usd_cents p; pi_status := Pending;
     pi_provider := provider_name provider; pi_paid_cents := None;
     pi_pack := Some (pack_terms p (provider_currency provider)) |}.

Lemma initialize_reached `{TokenLib, PayLib} s0 env provider c host signer uuid request :
  (forall p, find_pack (pack request) = Some p ->
     Issued c ("topup-" +:+ uuid)%string (opening provider signer p)) ->
  triple courteous (Shop_reached s0) (Shop_reached s0)
    (initialize_payment env provider c host signer uuid request) (fun _ => Shop_reached s0).
Proof.
  intros Hi. unfold initialize_payment. destruct (validate_initialize request); [|by apply shop_ret].
  destruct (find_pack _) as [p|]; [|by apply shop_ret].
  apply shop_bind with (Q := fun _ => Shop_reached s0); [|intros u; by apply shop_ret|intros e; by apply shop_ret].
  apply triple_stmt; [apply courteous_calm|]. intros turn Hturn s Hs.
  pose proof (courteous_reached _ _ _ Hturn Hs) as Hs1.
  pose proof (opened (between turn s) (fault turn) _ _ _ (Hi p eq_refl)) as Hstep. cbn in Hstep.
  destruct (create_intent _ _ _ _ _ _ _) as [[]]; by (eapply rtc_r; [exact Hs1|]).
Qed.
End Shop.

(** ** An undisturbed delivery *)

Lemma credit_up now pk amount ref t :
  tables_ok t -> octet_length pk = 32 -> 0 < amount ->
  in_i64 (balance (account_or_new (book t) pk) + amount) = true ->
  exists e t', credit DbUp now pk amount ref t = (Ok e, t').
Proof.
  intros Ht Hlen Hpos Hfit. unfold credit, apply_entry, apply_entry_applied, apply_entry_inner, run_tx, on_book.
  cbn [p_kind p_delta money_in]. rewrite (proj2 (Z.leb_gt amount 0)) by lia. cbn [orb String.eqb andb].
  change (String.eqb "credit" "debit") with false. rewrite andb_false_r. cbn [andb].
  destruct (apply_entry_total now (money_in "credit" pk amount ref) (book t) (to_book t Ht)) as (b & r & Hap).
  - cbn. by rewrite Hlen.
  - unfold ledger_row_ok. cbn. by rewrite Hlen.
  - done.
  - rewrite Hap. cbn. eauto.
Qed.

(** The statements of [credit_and_settle] when nobody interferes. *)
Lemma credit_and_settle_up c ref cents row amount s turns :
  tables_ok (money s) -> payments s !! (c, ref) = Some row -> pi_status row = Pending ->
  lifecycle s !! c = Some "active"%string -> octet_length (pi_pubkey row) = 32 -> 0 < amount ->
  in_i64 (balance (account_or_new (book (money s)) (pi_pubkey row)) + amount) = true ->
  Forall undisturbed turns ->
  exists now e turns' t, credit DbUp now (pi_pubkey row) amount ref (money s) = (Ok e, t)
    /\ credit_and_settle c ref cents (pi_pubkey row) amount turns s
       = (Ok (Ok 200), turns', with_payments (<[(c, ref) := settled_row cents row]> (payments s)) (with_tables t s)).
Proof.
  intros Ht Hrow Hst Hact Hlen Hpos Hfit Hturns. unfold credit_and_settle.
  destruct (recover_stmt (fun fault now => credit_payment fault now (pi_pubkey row) amount ref)
    (fun credited => match credited with
     | Err _ => db_ret (Ok (Err internal_error))
     | Ok _ => db_bind (recover (stmt (fun fault _ => settle_intent fault c ref cents)))
         (fun done => db_ret (Ok (match done with Ok _ => Ok 200 | Err _ => Err internal_error end)))
     end) turns s Hturns) as (now & turns1 & Hturns1 & ->).
  destruct (credit_up now (pi_pubkey row) amount ref (money s) Ht Hlen Hpos Hfit) as (e & t & Hc).
  exists now, e. unfold credit_payment. rewrite Hc. cbn [rbind fst snd].
  destruct (recover_stmt (fun fault _ => settle_intent fault c ref cents)
    (fun done => db_ret (Ok (match done with Ok _ => Ok 200 | Err _ => Err internal_error end)))
    turns1 (with_tables t s) Hturns1) as (now' & turns2 & _ & Hs).
  rewrite Hs. exists turns2, t. split; [done|].
  unfold settle_intent, run_tx, settle_intent_tx. cbn [payments with_tables]. rewrite Hrow.
  rewrite bool_decide_eq_true_2 by done. unfold write_fence. cbn [lifecycle with_tables].
  by rewrite bool_decide_eq_true_2.
Qed.
