(* ===== verification/PaymentFacts.v ===== *)
(** * Facts of the gateways

    Amounts on the wire, what a notification must have been through before
    PayFast is believed, that a genuine one is believed, and who can speak for a
    gateway. *)

From Stdlib Require Import ZArith Lia Ascii.
From stdpp Require Import base gmap list strings numbers.
From S2P Require Import Prelude MachineInt RustStr Json Credits Resolver GatewaySettle GatewayAuth Network Payments TopUps MoneyWitness AskToy.
Local Open Scope Z_scope.

(** ** Amounts *)

(** What the checkout asks for is what the notification's amount reads as: no
    cent is lost or made on the wire, up to the largest amount of the column. *)
Theorem amounts_survive_the_wire cents :
  0 <= cents <= i64_max -> parse_amount_cents (amount_text cents) = Some cents.
Proof.
  intros Hc. pose proof (Z.mod_pos_bound cents 100 ltac:(lia)) as Hm.
  assert (0 <= cents / 100) as Hd by (apply Z.div_pos; lia).
  assert (String.length (dec_pad 2 (cents mod 100)) = 2%nat) as Hlen by (by apply dec_pad_length; [lia|]).
  assert (dec_pad 2 (cents mod 100) <> EmptyString) as Hne by (intros E; by rewrite E in Hlen).
  pose proof (dec_digits _ Hd) as Dd. pose proof (dec_pad_digits 2 _ (proj1 Hm)) as Dm.
  destruct (decimal_text (dec (cents / 100)) (dec_pad 2 (cents mod 100)) (dec_nonempty _) Hne Dd Dm) as [Ht Hs].
  unfold parse_amount_cents, amount_text.
  change (dec (cents / 100) +:+ "." +:+ dec_pad 2 (cents mod 100))%string
    with (dec (cents / 100) +:+ String "."%char (dec_pad 2 (cents mod 100)))%string.
  rewrite Ht, Hs. cbn [default Datatypes.id].
  replace (str_is_empty (dec (cents / 100))) with false
    by (symmetry; apply String.eqb_neq, dec_nonempty).
  rewrite Dd, Dm. unfold str_len. rewrite Hlen.
  change (2 <? Z.of_nat 2) with false. change (Z.of_nat 2 =? 0) with false. change (Z.of_nat 2 =? 1) with false.
  cbn [andb orb negb]. assert (cents = 100 * (cents / 100) + cents mod 100) as Hsum by (apply Z.div_mod; lia).
  rewrite (parse_int_digits i64_min i64_max (dec (cents / 100)) (cents / 100));
    [|apply dec_nonempty|done|by apply digits_value_dec|lia].
  rewrite (parse_int_digits i64_min i64_max (dec_pad 2 _) (cents mod 100));
    [|done|done|apply digits_value_dec_pad; lia|unfold i64_max in *; lia].
  cbn [mbind option_bind]. unfold checked_i64, in_i64, i64_min, i64_max in *.
  rewrite (proj2 (Z.leb_le _ (cents / 100 * 100))), (proj2 (Z.leb_le (cents / 100 * 100) _)) by lia.
  cbn [andb mbind option_bind]. replace (cents / 100 * 100 + cents mod 100) with cents by lia.
  by rewrite (proj2 (Z.leb_le _ cents)), (proj2 (Z.leb_le cents _)) by lia.
Qed.

(** ** What PayFast must have said and shown *)

Lemma header_of_payfast `{TokenLib, PayLib} c trusted postback body headers ip :
  verify_callback (payfast c trusted postback) body headers ip
  = verify_itn c trusted (fun body => postback_answer (postback body)) body ip.
Proof. done. Qed.

(** What an authenticated notification must say to be a payment. *)
Definition states_payment (c : PayFastCredentials) (pairs : list (string * string)) (ref : string) (cents : Z) : Prop :=
  itn_field pairs "merchant_id" = Some (merchant_id c)
  /\ itn_field pairs "payment_status" = Some "COMPLETE"%string
  /\ itn_field pairs "m_payment_id" = Some ref
  /\ (itn_field pairs "amount_gross" ≫= parse_amount_cents) = Some cents.

Lemma itn_event_paid c pairs ref cents :
  itn_event c pairs = PaidEvent ref cents <-> states_payment c pairs ref cents.
Proof.
  unfold itn_event, states_payment. split.
  - case_bool_decide; [|done]. destruct (itn_field pairs "m_payment_id") as [r|]; [|done].
    case_bool_decide; [|done]. destruct (_ ≫= _) as [v|]; [|done]. by intros [= -> ->].
  - intros (Hm & Hs & Hr & Ha). rewrite bool_decide_eq_true_2, Hr by done. cbn [negb].
    rewrite bool_decide_eq_true_2 by done. by rewrite Ha.
Qed.

(** The PayFast gateway vouches for a payment exactly when the notification
    carries the signature of its fields under our passphrase, arrived from a
    trusted address, was confirmed by PayFast itself, and is a completed payment
    of our merchant with the reference and an amount. *)
Theorem payfast_vouches_for `{TokenLib, PayLib} c trusted postback body headers ip ref cents :
  verify_callback (payfast c trusted postback) body headers ip = Ok (PaidEvent ref cents) <->
  exists pairs signature addr status text,
    parse_itn body = (pairs, Some signature)
    /\ signatures_match (md5_hex (parameter_string_with (encode_values pairs) (passphrase c) Keep)) signature = true
    /\ ip = Some addr /\ trusted addr = true
    /\ postback body = Ok (status, text) /\ is_success status = true /\ trim text = "VALID"%string
    /\ states_payment c pairs ref cents.
Proof.
  rewrite header_of_payfast. unfold verify_itn, postback_answer. split.
  - destruct (parse_itn body) as [pairs [signature|]]; [|done]. cbn [ok_or rbind].
    destruct (signatures_match _ _) eqn:Hsig; [|done]. cbn [negb].
    destruct ip as [addr|]; [|done]. cbn [ok_or rbind].
    destruct (trusted addr) eqn:Htr; [|done]. cbn [negb].
    destruct (postback body) as [[status text]|] eqn:Hpost; [|done]. cbn [rbind fst snd].
    destruct (is_success status) eqn:Hsuc; [|done]. cbn [negb rbind].
    destruct (String.eqb_spec (trim text) "VALID") as [Htext|]; [|done]. cbn [negb].
    intros [= Hev%itn_event_paid]. by exists pairs, signature, addr, status, text.
  - intros (pairs & signature & addr & status & text & -> & Hsig & -> & Htr & -> & Hsuc & Htext & Hev).
    cbn [ok_or rbind fst snd]. rewrite Hsig, Htr, Hsuc. cbn [negb rbind]. rewrite Htext. cbn.
    by rewrite (proj2 (itn_event_paid _ _ _ _) Hev).
Qed.

(** ** A genuine notification *)

(** The name of a field, and what the libraries document: a form encoding is read
    back, and hexadecimal text is what it says. *)
Definition name_char (ch : ascii) : bool := is_ascii_alphanumeric ch || Ascii.eqb ch "_".
Definition field_name (n : string) : bool := negb (str_is_empty n) && str_all name_char n.
Class PayLaws `{TokenLib, PayLib} : Prop := {
  form_read_back pairs : Forall (fun p => field_name (fst p) = true) pairs ->
    form_parse (parameter_string_with (encode_values pairs) "" Keep) = pairs;
  hex_read_back s : hex_decode (hex_encode s) = Some s;
  hex_text s : str_all is_ascii_hexdigit (hex_encode s) = true;
}.

Lemma strip_white_hex ch s :
  is_ascii_hexdigit ch = true ->
  strip_one white_space (String ch s) = None /\ strip_one (str_rev <$> white_space) (String ch s) = None.
Proof. intros Hc. destruct ch as [[][][][][][][][]]; try discriminate Hc; by split. Qed.

Lemma trim_hex s : str_all is_ascii_hexdigit s = true -> trim s = s.
Proof.
  intros Hs. destruct s as [|ch s]; [done|]. unfold trim.
  assert (trim_start (String ch s) = String ch s) as ->.
  { apply andb_true_iff in Hs as [Hc _]. unfold trim_start. cbn [String.length strip_all].
    by rewrite (proj1 (strip_white_hex ch s Hc)). }
  unfold trim_end. rewrite <- str_all_rev in Hs.
  destruct (str_rev (String ch s)) as [|d t] eqn:Hr.
  { apply (f_equal str_rev) in Hr. by rewrite str_rev_involutive in Hr. }
  apply andb_true_iff in Hs as [Hd _]. cbn [String.length strip_all].
  rewrite (proj2 (strip_white_hex d t Hd)), <- Hr. apply str_rev_involutive.
Qed.

(** The pairs of a body, the signature apart. *)
Lemma split_signature (pairs acc : list (string * string)) (signature : string) (sig0 : option string) :
  Forall (fun p => fst p <> "signature"%string) pairs ->
  foldl (fun '(pairs, signature) pair =>
           if String.eqb (fst pair) "signature" then (pairs, Some (snd pair)) else (pairs ++ [pair], signature))
    (acc, sig0) (pairs ++ [("signature"%string, signature)]) = (acc ++ pairs, Some signature).
Proof.
  intros Hp. revert acc. induction Hp as [|[n v] pairs Hn _ IH]; intros acc; cbn.
  - by rewrite app_nil_r.
  - rewrite (proj2 (String.eqb_neq n "signature") Hn), IH. by rewrite <- app_assoc.
Qed.

Section Genuine.
Context `{PayLaws}.

(** What PayFast posts: the fields and their signature under the passphrase. *)
Definition signed_pairs (c : PayFastCredentials) (pairs : list (string * string)) : list (string * string) :=
  pairs ++ [("signature"%string, md5_hex (parameter_string_with (encode_values pairs) (passphrase c) Keep))].
Definition notification (c : PayFastCredentials) (pairs : list (string * string)) : string :=
  parameter_string_with (encode_values (signed_pairs c pairs)) "" Keep.

(** C26. A notification PayFast signs with our passphrase, posts from one of its
    hosts and confirms, is the payment it states, to the cent. *)
Theorem genuine_payments_are_believed c trusted postback pairs headers addr ref cents status text :
  Forall (fun p => field_name (fst p) = true /\ fst p <> "signature"%string) pairs ->
  itn_field pairs "merchant_id" = Some (merchant_id c) ->
  itn_field pairs "payment_status" = Some "COMPLETE"%string ->
  itn_field pairs "m_payment_id" = Some ref ->
  itn_field pairs "amount_gross" = Some (amount_text cents) -> 0 <= cents <= i64_max ->
  trusted addr = true -> postback (notification c pairs) = Ok (status, text) -> is_success status = true ->
  trim text = "VALID"%string ->
  verify_callback (payfast c trusted postback) (notification c pairs) headers (Some addr) = Ok (PaidEvent ref cents).
Proof.
  intros Hn Hm Hs Hr Ha Hc Htr Hpost Hsuc Htext. rewrite header_of_payfast.
  assert (parse_itn (notification c pairs)
    = (pairs, Some (md5_hex (parameter_string_with (encode_values pairs) (passphrase c) Keep)))) as Hitn.
  { unfold parse_itn, notification. rewrite form_read_back.
    - apply split_signature. eapply list.Forall_impl; [exact Hn|]. by intros p [? ?].
    - apply list.Forall_app. split; [|by repeat constructor].
      eapply list.Forall_impl; [exact Hn|]. by intros p [? ?]. }
  unfold verify_itn, postback_answer. rewrite Hitn, Hpost. cbn [ok_or rbind fst snd].
  unfold signatures_match, md5_hex. rewrite trim_hex by apply hex_text. rewrite hex_read_back, String.eqb_refl.
  rewrite Htr, Hsuc. cbn [negb rbind]. rewrite Htext. cbn.
  f_equal. apply itn_event_paid. unfold states_payment. rewrite Ha. cbn. by rewrite amounts_survive_the_wire.
Qed.
End Genuine.

(** ** Who can speak for a gateway *)

(** Paystack is believed on a body that carries the HMAC of its bytes under our
    secret, and then on what the body says. *)
Lemma paystack_vouches_for `{TokenLib, PayLib, JsonLib} secret post body headers ip event :
  verify_callback (paystack secret post) body headers ip = Ok event <->
  hex_decode (default ""%string (header_get SIGNATURE_HEADER headers ≫= header_to_str))
    = Some (hmac_sha512 secret body)
  /\ event = match json_from_str body with Some v => parse_delivery v | None => Ignored end.
Proof.
  cbn [verify_callback paystack]. unfold verify_and_parse_delivery, verify_signature.
  set (signature := default _ _). destruct (hex_decode signature) as [candidate|]; [|cbn; naive_solver].
  destruct (String.eqb_spec (hmac_sha512 secret body) candidate) as [->|Hne]; cbn; naive_solver.
Qed.

(** A caller from a public address outside PayFast's hosts is refused whatever it
    sends, forwarding headers included, and nothing of the shop is read or
    moved. *)
Theorem outsiders_cannot_pose_as_payfast `{TokenLib, PayLib} c trusted postback community headers peer body turns s :
  is_private_address peer = false -> trusted peer = false -> str_len body <= WEBHOOK_BODY_LIMIT ->
  webhook_for_route (Some (payfast c trusted postback)) "payfast" (Some community) headers (Some peer) body turns s
  = (Ok (Err (401, "invalid_signature"%string)), turns, s).
Proof.
  intros Hpub Htr Hlen. unfold webhook_for_route. cbn [provider_name payfast].
  change (String.eqb "payfast" "payfast") with true. cbn [negb].
  rewrite (proj2 (Z.ltb_ge WEBHOOK_BODY_LIMIT (str_len body))) by done.
  unfold source_ip_from. rewrite Hpub. unfold webhook_payment. rewrite header_of_payfast. unfold verify_itn.
  destruct (parse_itn body) as [pairs [signature|]]; [|done]. cbn [ok_or rbind].
  destruct (signatures_match _ _); [|done]. cbn [negb ok_or rbind]. by rewrite Htr.
Qed.

(** ** The rate of the client routes *)

(** Counting [n] calls of a key within the hour of the first. *)
Fixpoint charges (now : Z) (key : string * string) (limits : list Z) (cache : RateCache) : RateCache :=
  match limits with
  | [] => cache
  | limit :: limits => charges now key limits (snd (charge_pubkey_window now key limit cache))
  end.

Lemma charges_count now key limits cache w :
  cache !! key = Some w -> now - started_at w < RATE_WINDOW_SECS * NANOS_PER_SEC -> 0 <= count w ->
  count w + Z.of_nat (length limits) < 2 ^ 32 ->
  charges now key limits cache !! key
  = Some {| count := count w + Z.of_nat (length limits); started_at := started_at w |}.
Proof.
  revert cache w. induction limits as [|limit limits IH]; intros cache w Hw Hnow Hpos Hlen; cbn [charges length].
  { rewrite Hw. destruct w as [n t]. cbn. do 2 f_equal. lia. }
  cbn [length] in Hlen. unfold charge_pubkey_window, live_window. rewrite Hw, (proj2 (Z.ltb_lt _ _) Hnow).
  set (w' := {| count := (count w + 1) mod 2 ^ 32; started_at := started_at w |}).
  assert (count w' = count w + 1) as Hcount by (cbn [count w']; apply Z.mod_small; lia).
  assert (charges now key limits (<[key:=w']> cache) !! key
          = Some {| count := count w' + Z.of_nat (length limits); started_at := started_at w' |}) as Hrest.
  { apply IH; [apply lookup_insert_eq|done|lia|lia]. }
  destruct (count w <? limit); cbn [snd]; rewrite Hrest, Hcount; do 2 f_equal; lia.
Qed.

(** The three routes share one window: ten calls of any of them, status polls
    say, and the next checkout of the hour is refused. *)
Lemma polls_block_checkout now key limits cache :
  cache !! key = None -> (10 <= length limits)%nat -> Z.of_nat (length limits) < 2 ^ 32 ->
  fst (charge_pubkey_window now key INITIALIZE_PER_HOUR (charges now key limits cache)) = Some RATE_WINDOW_SECS.
Proof.
  intros Hnone Hten Hlen. destruct limits as [|limit limits]; [cbn in Hten; lia|]. cbn [length] in *.
  assert (charges now key (limit :: limits) cache !! key
          = Some {| count := 1 + Z.of_nat (length limits); started_at := now |}) as Hw.
  { cbn [charges]. unfold charge_pubkey_window at 1, live_window at 1. rewrite Hnone. cbn [count started_at].
    change ((0 + 1) mod 2 ^ 32) with 1. unfold live_window. rewrite Hnone. cbn [started_at].
    assert (forall cache', cache' !! key = Some {| count := 1; started_at := now |} ->
      charges now key limits cache' !! key = Some {| count := 1 + Z.of_nat (length limits); started_at := now |}) as H.
    { intros cache' Hc. apply (charges_count now key limits cache' {| count := 1; started_at := now |} Hc); cbn;
        unfold RATE_WINDOW_SECS, NANOS_PER_SEC; lia. }
    destruct (0 <? limit); cbn [snd]; apply H; apply lookup_insert_eq. }
  assert (live_window now key (charges now key (limit :: limits) cache)
          = {| count := 1 + Z.of_nat (length limits); started_at := now |}) as Hlive.
  { unfold live_window. rewrite Hw. cbn [started_at]. rewrite Z.sub_diag. done. }
  unfold charge_pubkey_window. rewrite Hlive. cbn [count started_at]. unfold INITIALIZE_PER_HOUR.
  rewrite (proj2 (Z.ltb_ge _ _)) by lia. cbn [fst]. rewrite Z.sub_diag. done.
Qed.

(** ** Witnesses *)

Lemma amounts_survive_the_wire_witness :
  amount_text 11905 = "119.05"%string /\ parse_amount_cents (amount_text 11905) = Some 11905.
Proof. split; [vm_compute; reflexivity|]. apply (amounts_survive_the_wire 11905). unfold i64_max. lia. Defined.

(** Concrete libraries with the documented laws: values travel in hexadecimal. *)
Section ToyPay.
#[local] Instance toy_pay_tokens : TokenLib := {
  sha256 s := s;
  hex_encode := to_hex;
  header_to_str s := Some s;
  header_from_str s := Some s;
}.
Definition toy_field (part : string) : string * string :=
  match split_once "=" part with
  | Some (n, v) => (n, default ""%string (of_hex v))
  | None => (part, ""%string)
  end.
#[local] Instance toy_pay : PayLib := {
  md5 s := ("md5:" +:+ s)%string;
  hmac_sha512 key body := (key +:+ ":" +:+ body)%string;
  hex_decode := of_hex;
  form_encode := to_hex;
  form_parse body := if str_is_empty body then [] else toy_field <$> split_on "&" body;
  to_lowercase := to_ascii_lowercase;
}.

Lemma name_no_char ch n : name_char ch = false -> field_name n = true -> str_contains ch n = false.
Proof.
  unfold field_name. intros Hc [_ Hn]%andb_true_iff. induction n as [|d n IH]; [done|]. cbn in Hn |- *.
  apply andb_true_iff in Hn as [Hd Hn]. rewrite IH by done. rewrite orb_false_r.
  destruct (Ascii.eqb_spec ch d); [congruence|done].
Qed.
Lemma hex_no_char ch s : hex_char ch = false -> str_contains ch (to_hex s) = false.
Proof.
  intros Hc. pose proof (to_hex_chars s) as Hs. induction (to_hex s) as [|d t IH]; [done|]. cbn in Hs |- *.
  apply andb_true_iff in Hs as [Hd Hs]. rewrite IH by done. rewrite orb_false_r.
  destruct (Ascii.eqb_spec ch d); [congruence|done].
Qed.

Lemma toy_part n v :
  field_name n = true ->
  str_contains "&" (n +:+ "=" +:+ to_hex v)%string = false /\ toy_field (n +:+ "=" +:+ to_hex v)%string = (n, v).
Proof.
  intros Hn. split.
  - rewrite !str_contains_app. rewrite (name_no_char "&" n) by done. cbn. by apply hex_no_char.
  - unfold toy_field. rewrite (proj2 (split_once_spec "=" _ n (to_hex v))).
    + by rewrite of_to_hex.
    + split; [done|]. by apply name_no_char.
Qed.

Lemma toy_join pairs acc :
  acc <> ""%string -> Forall (fun p => field_name (fst p) = true) pairs ->
  toy_field <$> split_on "&" (foldl (fun joined p => join_pair joined (fst p) (snd p)) acc (encode_values pairs))
  = (toy_field <$> split_on "&" acc) ++ pairs.
Proof.
  intros Hacc Hp. revert acc Hacc. induction Hp as [|[n v] pairs Hn _ IH]; intros acc Hacc; cbn.
  { by rewrite app_nil_r. }
  assert (join_pair acc n (to_hex v) = acc +:+ String "&" (n +:+ "=" +:+ to_hex v))%string as ->.
  { unfold join_pair. rewrite (proj2 (String.eqb_neq acc "") Hacc : str_is_empty acc = false).
    by rewrite <- str_append_assoc. }
  destruct (toy_part n v Hn) as [Hamp Hfield]. rewrite IH by (by destruct acc).
  rewrite split_on_snoc by done. rewrite fmap_app, list_fmap_singleton, Hfield, <- app_assoc. done.
Qed.

Lemma joined_nonempty pairs acc :
  acc <> ""%string -> foldl (fun joined p => join_pair joined (fst p) (snd p)) acc pairs <> ""%string.
Proof.
  revert acc. induction pairs as [|p pairs IH]; intros acc Hacc; cbn; [done|]. apply IH. unfold join_pair.
  rewrite (proj2 (String.eqb_neq acc "") Hacc : str_is_empty acc = false). by destruct acc.
Qed.

#[local] Instance toy_pay_laws : PayLaws.
Proof.
  split.
  - intros pairs Hp. destruct Hp as [|[n v] pairs Hn Hp]; [done|].
    assert (parameter_string_with (encode_values ((n, v) :: pairs)) "" Keep
      = foldl (fun joined p => join_pair joined (fst p) (snd p)) (n +:+ "=" +:+ to_hex v)%string (encode_values pairs))
      as -> by done.
    destruct (toy_part n v Hn) as [Hamp Hfield].
    pose proof (toy_join pairs (n +:+ "=" +:+ to_hex v)%string) as Hjoin.
    assert (n +:+ "=" +:+ to_hex v <> "")%string as Hne by (by destruct n).
    specialize (Hjoin Hne Hp). rewrite (split_on_none _ _ Hamp), list_fmap_singleton, Hfield in Hjoin.
    pose proof (joined_nonempty (encode_values pairs) _ Hne) as Hj.
    set (j := foldl _ _ _) in *.
    change (form_parse j) with (if str_is_empty j then [] else toy_field <$> split_on "&" j).
    by rewrite (proj2 (String.eqb_neq j "") Hj : str_is_empty j = false), Hjoin.
  - exact of_to_hex.
  - intros s. cbn. pose proof (to_hex_chars s) as Hs. induction (to_hex s) as [|d t IH]; [done|]. cbn in Hs |- *.
    apply andb_true_iff in Hs as [Hd Hs]. rewrite IH by done. unfold hex_char in Hd. unfold is_ascii_hexdigit.
    by rewrite Hd.
Qed.
(** A starter pack, paid in Rands. *)
Definition toy_merchant : PayFastCredentials :=
  {| merchant_id := "10000100"; merchant_key := "46f0cd694581a"; passphrase := "jt7NOE43FZPn"; sandbox := false |}.
Definition toy_paid : list (string * string) :=
  [("m_payment_id", "topup-1"); ("payment_status", "COMPLETE"); ("amount_gross", "119.00");
   ("merchant_id", "10000100")]%string.
Definition payfast_host : IpAddr := V4 (Ip4 197 97 145 144).
Definition is_payfast_host (ip : IpAddr) : bool := match ip with V4 (Ip4 197 97 145 _) => true | _ => false end.

Lemma genuine_payments_are_believed_witness :
  verify_callback (payfast toy_merchant is_payfast_host (fun _ => Ok (200, "VALID"%string)))
    (notification toy_merchant toy_paid) [] (Some payfast_host) = Ok (PaidEvent "topup-1" 11900).
Proof.
  apply (genuine_payments_are_believed toy_merchant is_payfast_host (fun _ => Ok (200, "VALID"%string)) toy_paid []
           payfast_host "topup-1" 11900 200 "VALID"); try (vm_compute; reflexivity).
  - repeat constructor; done.
  - unfold i64_max. lia.
Defined.

Definition closed_shop : Shop := {| money := empty_tables; payments := ∅; lifecycle := ∅ |}.
Lemma outsiders_cannot_pose_as_payfast_witness :
  is_private_address (V4 (Ip4 8 8 8 8)) = false
  /\ webhook_for_route (Some (payfast toy_merchant is_payfast_host (fun _ => Ok (200, "VALID"%string)))) "payfast"
       (Some "acme"%string) [("fly-client-ip", "197.97.145.144")]%string (Some (V4 (Ip4 8 8 8 8)))
       (notification toy_merchant toy_paid) [] closed_shop
     = (Ok (Err (401, "invalid_signature"%string)), [], closed_shop).
Proof.
  split; [vm_compute; reflexivity|].
  apply (outsiders_cannot_pose_as_payfast toy_merchant is_payfast_host (fun _ => Ok (200, "VALID"%string)) "acme"
           [("fly-client-ip", "197.97.145.144")]%string (V4 (Ip4 8 8 8 8)) (notification toy_merchant toy_paid) [] closed_shop);
    vm_compute; done.
Defined.
End ToyPay.
