(* ===== verification/TopUpTheorems.v ===== *)
(** * Theorems of the card top-ups

    What money comes in for, what the routes do to the shop, that a delivery that
    is retried lands, and what a gateway must have said and shown. *)

From Stdlib Require Import ZArith Lia Ascii.
From stdpp Require Import base gmap list strings numbers relations.
From S2P Require Import Prelude MachineInt RustStr Json Credits CreditsFacts Resolver MoneyTheorems GatewayAuth GatewaySettle Network Payments TopUps TopUpFacts PaymentFacts.
Local Open Scope Z_scope.

(** ** Money and checkouts *)

Lemma entry_key_inj b e e' :
  book_ok b -> e ∈ ledger b -> e' ∈ ledger b -> entry_key e = entry_key e' -> e = e'.
Proof.
  intros Hb He He' Hk. apply list_elem_of_lookup in He as [m Hm], He' as [n Hn].
  assert (m = n) as ->; [|congruence].
  eapply (NoDup_lookup (entry_key <$> ledger b)); [apply Hb| |]; rewrite list_lookup_fmap.
  - by rewrite Hm.
  - rewrite Hn. cbn. by rewrite Hk.
Qed.

Lemma ledger_NoDup b : book_ok b -> NoDup (ledger b).
Proof. intros Hb. by eapply (NoDup_fmap_1 entry_key), bo_refs. Qed.

Lemma same_ref_true pk ref e : same_ref pk ref e = true <-> entry_key e = (pk, ref).
Proof. unfold same_ref, entry_key. rewrite andb_true_iff, !String.eqb_eq. naive_solver. Qed.

(** One entry has a key. *)
Lemma filter_same_ref b e pk ref :
  book_ok b -> e ∈ ledger b -> entry_key e = (pk, ref) -> List.filter (same_ref pk ref) (ledger b) = [e].
Proof.
  intros Hb He Hk. pose proof (ledger_NoDup b Hb) as Hnd.
  apply NoDup_ListNoDup, (List.NoDup_filter (same_ref pk ref)) in Hnd.
  assert (forall x, In x (List.filter (same_ref pk ref) (ledger b)) <-> x = e) as Hx.
  { intros x. rewrite filter_In, same_ref_true, <- list_elem_of_In. split; [|by intros ->].
    intros [Hin Hxk]. by eapply entry_key_inj; [| | |etrans; [exact Hxk|]]. }
  destruct (List.filter _ _) as [|x [|y l]].
  - by destruct (proj2 (Hx e) eq_refl).
  - f_equal. apply Hx. by left.
  - assert (x = e) as -> by (apply Hx; by left). assert (y = e) as -> by (apply Hx; right; by left).
    inversion Hnd as [|? ? Hn]. destruct Hn. by left.
Qed.

(** The entries of a shop under the references of checkouts. *)
Definition topup_entries (s : Shop) : list LedgerEntry :=
  List.filter (fun e => is_topup (reference e)) (ledger (book (money s))).
(** A checkout's row and its entry agree. *)
Definition shop_fair (Issued : string -> string -> PaymentIntent -> Prop) (Delivered : string -> string -> Z -> Prop)
    (s : Shop) : Prop :=
  Forall (entry_ok Issued Delivered) (topup_entries s)
  /\ NoDup (reference <$> topup_entries s)
  /\ forall c ref row, payments s !! (c, ref) = Some row -> pi_status row = Paid ->
     exists e, e ∈ topup_entries s /\ reference e = ref /\ pubkey e = pi_pubkey row
       /\ forall terms, pi_pack row = Some terms -> delta e = grant_nanousd terms.

Section Fair.
Context (Issued : string -> string -> PaymentIntent -> Prop) (Delivered : string -> string -> Z -> Prop).
Hypothesis issues : issues_ok Issued.

Lemma topup_entry s e :
  e ∈ topup_entries s <-> e ∈ ledger (book (money s)) /\ is_topup (reference e) = true.
Proof. unfold topup_entries. rewrite !list_elem_of_In. apply filter_In. Qed.

(** The entry a settled row stands for. *)
Lemma entry_of_row s c ref i :
  shop_ok Issued Delivered s -> Issued c ref i -> (pi_pubkey i, ref) ∈ keys s ->
  exists e, e ∈ topup_entries s /\ reference e = ref /\ pubkey e = pi_pubkey i
    /\ exists cents, Delivered (pi_provider i) ref cents /\ grant_of i cents = Ok (delta e).
Proof.
  intros Hs Hi Hk. apply list_elem_of_fmap in Hk as (e & Hkey & He). unfold entry_key in Hkey. injection Hkey as Hp ->.
  pose proof (is_named Issued issues _ _ _ Hi) as Htop.
  destruct (so_entries _ _ s Hs e He Htop) as (c' & i' & cents & Hi' & Hd & _ & _ & Hg).
  destruct (is_once Issued issues _ _ _ _ _ Hi Hi') as [_ <-].
  exists e. split; [by apply topup_entry|]. eauto.
Qed.

Lemma shop_ok_fair s : shop_ok Issued Delivered s -> shop_fair Issued Delivered s.
Proof.
  intros Hs. split_and!.
  - apply list.Forall_forall. intros e [He Htop]%topup_entry. by apply (so_entries _ _ s Hs).
  - assert (NoDup (topup_entries s)) as Hnd.
    { apply NoDup_ListNoDup, List.NoDup_filter, NoDup_ListNoDup, ledger_NoDup, to_book, (so_money _ _ s Hs). }
    apply NoDup_fmap_2_strong; [|done]. intros e e' [He Ht]%topup_entry [He' Ht']%topup_entry Href.
    destruct (so_entries _ _ s Hs e He Ht) as (c & i & cents & Hi & _ & Hp & _).
    destruct (so_entries _ _ s Hs e' He' Ht') as (c' & i' & cents' & Hi' & _ & Hp' & _).
    rewrite <- Href in Hi'. destruct (is_once Issued issues _ _ _ _ _ Hi Hi') as [_ <-].
    eapply entry_key_inj; [apply to_book, (so_money _ _ s Hs)|done..|]. unfold entry_key. congruence.
  - intros c ref row Hrow Hpaid. destruct (so_rows _ _ s Hs _ _ _ Hrow) as (i & Hi & Hcase).
    destruct Hcase as [->|(cents & -> & _ & Hk)].
    { by rewrite (proj1 (is_pending Issued issues _ _ _ Hi)) in Hpaid. }
    destruct (entry_of_row s c ref i Hs Hi Hk) as (e & He & Href & Hp & cents' & _ & Hg).
    exists e. split_and!; [done..|]. cbn. unfold grant_of in Hg. intros terms Hterms. rewrite Hterms in Hg. congruence.
Qed.
End Fair.

(** C6. In every state the shop can reach by payments, crashes, purges and
    everyone else's moves, each credit under a checkout's reference is the only
    one of it and is the grant of that checkout, for a payment its own gateway
    vouches for; and each paid row has its credit, of the grant fixed at
    checkout. *)
Theorem topups_are_paid_for Issued Delivered s s' :
  issues_ok Issued -> shop_ok Issued Delivered s -> rtc (shop_step Issued Delivered) s s' ->
  shop_fair Issued Delivered s'.
Proof. intros Hi Hs Hsteps. apply shop_ok_fair; [done|]. by eapply shop_steps_ok. Qed.

(** C23. Whatever the database, the crash points and the interleaving, opening a
    checkout and handling a delivery are made of the shop's steps, the credit
    and the settlement among them only when the live gateway has verified the
    delivery as the payment of that reference. *)
Theorem routes_take_shop_steps `{TokenLib, PayLib} Issued Delivered s provider c host signer uuid request
    env headers body ip turns :
  issues_ok Issued -> shop_ok Issued Delivered s -> Forall (courteous Issued Delivered) turns ->
  (forall p, find_pack (pack request) = Some p ->
     Issued c ("topup-" +:+ uuid)%string (opening provider signer p)) ->
  (forall ref cents, verify_callback provider body headers ip = Ok (PaidEvent ref cents) ->
     Delivered (provider_name provider) ref cents) ->
  rtc (shop_step Issued Delivered) s (snd (initialize_payment env provider c host signer uuid request turns s))
  /\ rtc (shop_step Issued Delivered) s (snd (webhook_payment provider c headers body ip turns s)).
Proof.
  intros Hissues Hs Hturns Hopen Hd.
  pose proof (initialize_reached Issued Delivered s env provider c host signer uuid request Hopen turns s Hturns (rtc_refl _ _)) as H1.
  pose proof (webhook_reached Issued Delivered Hissues s Hs provider c headers body ip Hd turns s Hturns (rtc_refl _ _)) as H2.
  split.
  - by destruct (initialize_payment _ _ _ _ _ _ _ _ _) as [[[] ?] ?]; destruct H1.
  - by destruct (webhook_payment _ _ _ _ _ _ _) as [[[] ?] ?]; destruct H2.
Qed.

(** A redelivery of a settled payment changes nothing. *)
Lemma settled_is_final provider c headers body ip ref cents row s turns :
  verify_callback provider body headers ip = Ok (PaidEvent ref cents) ->
  payments s !! (c, ref) = Some row -> pi_status row = Paid -> Forall undisturbed turns ->
  exists turns', webhook_payment provider c headers body ip turns s = (Ok (Ok 200), turns', s).
Proof.
  intros Hv Hrow Hpaid Hturns. unfold webhook_payment. rewrite Hv. unfold settle_delivery.
  destruct (query_up (find_intent c ref) turns s Hturns) as (turns1 & _ & Hq).
  exists turns1. unfold db_bind at 1, recover at 1. rewrite Hq. unfold find_intent. rewrite Hrow.
  destruct (negb _); [done|]. by rewrite bool_decide_eq_true_2.
Qed.

(** An undisturbed verified delivery of an issued row is answered 200, the row is
    then paid and its entry in the ledger. *)
Lemma delivery_lands Issued Delivered s c ref i cents amount provider headers body ip turns row :
  issues_ok Issued -> shop_ok Issued Delivered s -> Issued c ref i -> grant_of i cents = Ok amount ->
  verify_callback provider body headers ip = Ok (PaidEvent ref cents) ->
  provider_name provider = pi_provider i -> Delivered (pi_provider i) ref cents ->
  payments s !! (c, ref) = Some row -> lifecycle s !! c = Some "active"%string ->
  octet_length (pi_pubkey i) = 32 -> 0 < amount ->
  in_i64 (balance (account_or_new (book (money s)) (pi_pubkey i)) + amount) = true ->
  Forall undisturbed turns ->
  exists turns' s', webhook_payment provider c headers body ip turns s = (Ok (Ok 200), turns', s')
    /\ pi_status <$> payments s' !! (c, ref) = Some Paid /\ shop_ok Issued Delivered s'
    /\ (pi_pubkey i, ref) ∈ keys s'.
Proof.
  intros Hissues Hs Hi Hg Hv Hname Hd Hrow Hact Hlen Hpos Hfit Hturns.
  destruct (so_rows _ _ s Hs _ _ _ Hrow) as (i' & Hi' & Hcase).
  destruct (is_once Issued Hissues _ _ _ _ _ Hi Hi') as [_ <-]. clear Hi'.
  destruct Hcase as [->|(cents' & -> & _ & Hk)].
  2:{ destruct (settled_is_final provider c headers body ip ref cents (settled_row cents' i) s turns) as (turns' & Hrun);
        [done..|]. exists turns', s. by rewrite Hrow. }
  pose proof (proj1 (is_pending Issued Hissues _ _ _ Hi)) as Hst.
  destruct (query_up (find_intent c ref) turns s Hturns) as (turns1 & Hturns1 & Hq).
  destruct (credit_and_settle_up c ref cents i amount s turns1) as (now & e & turns2 & t & Hc & Hrun);
    [apply (so_money _ _ _ Hs)|done..|].
  destruct (credit_effect _ _ _ _ _ _ _ _ Hc (so_money _ _ _ Hs)) as (_ & _ & Hin).
  pose proof (Hin eq_refl) as Hk. exists turns2, (with_payments (<[(c, ref) := settled_row cents i]> (payments s)) (with_tables t s)).
  split_and!.
  - unfold webhook_payment. rewrite Hv. unfold settle_delivery, db_bind at 1, recover at 1. rewrite Hq.
    unfold find_intent. rewrite Hrow, Hname, String.eqb_refl. cbn [negb].
    rewrite bool_decide_eq_false_2 by congruence. by rewrite Hg.
  - cbn. by rewrite lookup_insert_eq.
  - assert (shop_ok Issued Delivered (with_tables t s)) as Ht.
    { pose proof (credit_shop_ok Issued Delivered DbUp now c ref i cents amount s Hi Hd Hg Hs) as H.
      unfold credit_payment in H. by rewrite Hc in H. }
    apply rows_shop_ok; [done|]. intros c' ref' row'. rewrite lookup_insert_Some.
    intros [[[= <- <-] <-]|[_ H]]; [|by apply (so_rows _ _ _ Ht)]. exists i. split; [done|]. right. by exists cents.
  - done.
Qed.

(** C7. Once the last delivery of a verified payment is let through undisturbed, the
    gateway is answered 200, the row is paid and the account holds the grant
    exactly once, whatever earlier deliveries did or left undone; and any later
    delivery changes nothing. *)
Theorem topup_converges Issued Delivered s c ref i terms cents provider headers body ip turns row :
  issues_ok Issued -> shop_ok Issued Delivered s -> Issued c ref i -> pi_pack i = Some terms ->
  verify_callback provider body headers ip = Ok (PaidEvent ref cents) ->
  provider_name provider = pi_provider i -> Delivered (pi_provider i) ref cents ->
  payments s !! (c, ref) = Some row -> lifecycle s !! c = Some "active"%string ->
  octet_length (pi_pubkey i) = 32 -> 0 < grant_nanousd terms ->
  in_i64 (balance (account_or_new (book (money s)) (pi_pubkey i)) + grant_nanousd terms) = true ->
  Forall undisturbed turns ->
  exists turns' s', webhook_payment provider c headers body ip turns s = (Ok (Ok 200), turns', s')
    /\ pi_status <$> payments s' !! (c, ref) = Some Paid
    /\ (exists e, List.filter (same_ref (pi_pubkey i) ref) (ledger (book (money s'))) = [e]
          /\ delta e = grant_nanousd terms)
    /\ forall later, Forall undisturbed later -> exists later',
       webhook_payment provider c headers body ip later s' = (Ok (Ok 200), later', s').
Proof.
  intros Hissues Hs Hi Hterms Hv Hname Hd Hrow Hact Hlen Hpos Hfit Hturns.
  assert (grant_of i cents = Ok (grant_nanousd terms)) as Hg by (unfold grant_of; by rewrite Hterms).
  assert (exists turns' s', webhook_payment provider c headers body ip turns s = (Ok (Ok 200), turns', s')
    /\ pi_status <$> payments s' !! (c, ref) = Some Paid /\ shop_ok Issued Delivered s'
    /\ (pi_pubkey i, ref) ∈ keys s') as (turns' & s' & Hrun & Hpaid & Hs' & Hk).
  { eapply delivery_lands; by eauto. }
  exists turns', s'. split_and!; [done|done| |].
  - destruct (entry_of_row Issued Delivered Hissues s' c ref i Hs' Hi Hk) as (e & [He _]%topup_entry & Href & Hp & cents' & _ & Hg').
    exists e. split.
    + apply filter_same_ref; [apply to_book, (so_money _ _ _ Hs')|done|]. unfold entry_key. congruence.
    + unfold grant_of in Hg'. rewrite Hterms in Hg'. congruence.
  - intros later Hlater. destruct (payments s' !! (c, ref)) as [row'|] eqn:Hrow'; [|done].
    injection Hpaid as Hpaid. by eapply settled_is_final.
Qed.

(** ** Witnesses

    One checkout of the starter pack through a gateway that vouches for it. *)

Definition toy_member : string := String.string_of_list_ascii (replicate 32 "m"%char).
Definition toy_gateway : PaymentProvider :=
  {| provider_name := "payfast"; provider_currency := Zar;
     provider_initialize := fun _ _ _ _ => Ok "https://gateway.example/pay"%string;
     verify_callback := fun body _ _ => if String.eqb body "genuine" then Ok (PaidEvent "topup-1" 11900)
                                        else Err (RejectedCallback "invalid signature") |}.
Definition toy_pack : CreditPack := pack_of "starter" 11900 699 500.
Definition toy_intent : PaymentIntent := opening toy_gateway toy_member toy_pack.
Definition toy_issued (c ref : string) (i : PaymentIntent) : Prop :=
  c = "acme"%string /\ ref = "topup-1"%string /\ i = toy_intent.
Definition toy_delivered (provider ref : string) (cents : Z) : Prop :=
  provider = "payfast"%string /\ ref = "topup-1"%string /\ cents = 11900.
Definition empty_shop : Shop :=
  {| money := empty_tables; payments := ∅; lifecycle := {[ "acme" := "active" ]}%string |}.
Definition opened_shop : Shop :=
  snd (create_intent DbUp "acme" "topup-1" toy_member 699 "payfast" (pi_pack toy_intent) empty_shop).
(** A delivery whose settlement the database dropped after the credit. *)
Definition credited_shop : Shop := snd (credit_payment DbUp 5 toy_member 5000000000 "topup-1" opened_shop).

Lemma toy_issues : issues_ok toy_issued.
Proof. split; unfold toy_issued; [naive_solver|by intros c ref i (_ & _ & ->)|by intros c ref i (_ & -> & _)]. Qed.
Lemma empty_shop_ok : shop_ok toy_issued toy_delivered empty_shop.
Proof.
  split; cbn; [|intros c ref row; by rewrite lookup_empty|by intros e ?%elem_of_nil].
  apply empty_tables_ok.
Qed.
Lemma toy_opened : shop_step toy_issued toy_delivered empty_shop opened_shop.
Proof. by apply (opened toy_issued toy_delivered empty_shop DbUp "acme" "topup-1" toy_intent). Qed.
Lemma toy_credited : shop_step toy_issued toy_delivered opened_shop credited_shop.
Proof.
  by apply (credited toy_issued toy_delivered opened_shop DbUp 5 "acme" "topup-1" toy_intent 11900 5000000000).
Qed.
Lemma credited_shop_ok : shop_ok toy_issued toy_delivered credited_shop.
Proof.
  eapply shop_step_ok; [exact toy_issues|exact toy_credited|].
  eapply shop_step_ok; [exact toy_issues|exact toy_opened|exact empty_shop_ok].
Qed.

Lemma topups_are_paid_for_witness :
  length (topup_entries credited_shop) = 1%nat /\ shop_fair toy_issued toy_delivered credited_shop.
Proof.
  split; [vm_compute; reflexivity|].
  apply (topups_are_paid_for toy_issued toy_delivered empty_shop credited_shop toy_issues empty_shop_ok).
  eapply rtc_l; [exact toy_opened|]. eapply rtc_l; [exact toy_credited|apply rtc_refl].
Defined.

Lemma topup_converges_witness :
  (pi_status <$> payments credited_shop !! ("acme", "topup-1")%string) = Some Pending
  /\ exists turns' s',
     webhook_payment toy_gateway "acme" [] "genuine" None [calm 9] credited_shop = (Ok (Ok 200), turns', s')
     /\ pi_status <$> payments s' !! ("acme", "topup-1")%string = Some Paid
     /\ (exists e, List.filter (same_ref toy_member "topup-1") (ledger (book (money s'))) = [e] /\ delta e = 5000000000)
     /\ forall later, Forall undisturbed later -> exists later',
        webhook_payment toy_gateway "acme" [] "genuine" None later s' = (Ok (Ok 200), later', s').
Proof.
  split; [vm_compute; reflexivity|].
  apply (topup_converges toy_issued toy_delivered credited_shop "acme" "topup-1" toy_intent
           (pack_terms toy_pack Zar) 11900 toy_gateway [] "genuine" None [calm 9] toy_intent);
    [exact toy_issues|exact credited_shop_ok|done..|vm_compute; reflexivity|vm_compute; reflexivity|vm_compute; reflexivity
    |vm_compute; reflexivity|vm_compute; reflexivity|].
  constructor; [done|constructor].
Defined.

(** The commit of the credit is lost, and the settlement runs. *)
Definition toy_turns : list (TurnOf Shop) :=
  [calm 3; {| fault := CommitUnknown; clock := 5; between := fun s => s |}].
Lemma routes_take_shop_steps_witness :
  let _ := toy_pay_tokens in
  let _ := toy_pay in
  let request := {| pack := "starter"; email := "founder@example.com" |}%string in
  money (snd (webhook_payment toy_gateway "acme" [] "genuine" None toy_turns opened_shop)) = money credited_shop
  /\ rtc (shop_step toy_issued toy_delivered) opened_shop
       (snd (initialize_payment (fun _ => None) toy_gateway "acme" "acme.example" toy_member "1" request toy_turns opened_shop))
  /\ rtc (shop_step toy_issued toy_delivered) opened_shop
       (snd (webhook_payment toy_gateway "acme" [] "genuine" None toy_turns opened_shop)).
Proof.
  intros H H0 request. split; [vm_compute; reflexivity|].
  apply (routes_take_shop_steps toy_issued toy_delivered opened_shop toy_gateway "acme" "acme.example" toy_member "1" request
           (fun _ => None) [] "genuine" None toy_turns).
  - exact toy_issues.
  - eapply shop_step_ok; [exact toy_issues|exact toy_opened|exact empty_shop_ok].
  - repeat constructor; intros s; apply rtc_refl.
  - intros p Hp. vm_compute in Hp. injection Hp as <-. done.
  - intros ref cents [= <- <-]. done.
Defined.

(** ** What a settled checkout looks like *)

Definition toy_gateway_paying (cents : Z) : PaymentProvider :=
  {| provider_name := "payfast"; provider_currency := Zar;
     provider_initialize := fun _ _ _ _ => Ok "https://gateway.example/pay"%string;
     verify_callback := fun _ _ _ => Ok (PaidEvent "topup-1" cents) |}.
Definition after_delivery (cents : Z) : Shop :=
  snd (webhook_payment (toy_gateway_paying cents) "acme" [] "" None [] opened_shop).

(** The starter pack's 119 Rand are reported back as 119 dollars. *)
Example rands_are_reported_as_dollars :
  fst (fst (verify_payment "acme" toy_member "topup-1" [] (after_delivery 11900)))
  = Ok (Ok (json_object [("paid", JBool true); ("usdCents", JInt 11900)]%string))
  /\ usd_cents toy_pack = 699.
Proof. vm_compute. done. Qed.

(** A notification of one cent settles the checkout with the full grant. *)
Example one_cent_is_granted_in_full :
  List.map delta (ledger (book (money (after_delivery 1)))) = [5000000000]
  /\ (pi_paid_cents <$> payments (after_delivery 1) !! ("acme", "topup-1")%string) = Some (Some 1).
Proof. vm_compute. done. Qed.
