(* ===== verification/QrCode.v ===== *)
(** * Pairing QR codes

    [crates/buzz-core/src/pairing/qr.rs]: the [nostrpair://] URI a source device
    shows and a target device scans. Keys are their hexadecimal text, secrets and
    texts byte strings; curve points and URLs are the libraries' ([QrLib]). *)

From Stdlib Require Import ZArith Lia Ascii.
From stdpp Require Import base list strings numbers.
From S2P Require Import Prelude MachineInt RustStr Network Metering Pairing MoneyWitness.
Local Open Scope Z_scope.
Local Open Scope colony_scope.

(** [PublicKey::from_hex] succeeds; [hex::encode] and [hex::decode]; what
    [Url::parse] finds: the scheme, and whether there is a host. *)
Class QrLib := {
  public_key_ok : string -> bool;
  hex_of : string -> string;
  of_hex_text : string -> option string;
  url_parse : string -> option (string * bool);
}.

(** The texts of [PairingError::InvalidQr], by what they say. *)
Inductive InvalidQr :=
| TooLong (chars : Z)
| WrongScheme
| MissingQuery
| PubkeyFormat (pubkey_hex : string)
| UnknownPubkey
| UnsupportedVersion (version : Z)
| MissingSecret
| SecretFormat (secret : string)
| SecretHex
| SecretLength
| SecretZero
| NoRelay
| RelayUrl (relay : string)
| RelayScheme (scheme : string)
| RelayHost (relay : string).
#[export] Instance InvalidQr_eq_dec : EqDecision InvalidQr.
Proof. solve_decision. Defined.

(** ** Percent encoding *)

Definition upper_hex (n : Z) : ascii := ascii_of_N (Z.to_N (if n <? 10 then 48 + n else 55 + n)).
(** [url_encode]: everything but ASCII letters and digits. *)
Fixpoint url_encode (s : string) : string :=
  match s with
  | EmptyString => EmptyString
  | String c s' =>
      if is_ascii_alphanumeric c then String c (url_encode s')
      else String "%" (String (upper_hex (code c / 16)) (String (upper_hex (code c mod 16)) (url_encode s')))
  end.
(** [percent_decode_str]: a percent sign that no two digits follow stays. *)
Fixpoint percent_decode (s : string) : string :=
  match s with
  | EmptyString => EmptyString
  | String c s' =>
      match s' with
      | String a (String b rest) =>
          match (if Ascii.eqb c "%" then hex_digit a else None), hex_digit b with
          | Some hi, Some lo => String (ascii_of_N (Z.to_N (16 * hi + lo))) (percent_decode rest)
          | _, _ => String c (percent_decode s')
          end
      | _ => String c (percent_decode s')
      end
  end.
(** [url_decode]. *)
Definition url_decode (s : string) : string := utf8_lossy (percent_decode s).

(** [is_lowercase_hex]. *)
Definition is_lowercase_hex (c : ascii) : bool := is_ascii_digit c || in_code_range 97 102 c.

Section Qr.
Context `{QrLib}.

Definition QR_SCHEME : string := "nostrpair://".
Definition relay_params (relays : list string) : string :=
  foldr (fun relay rest => "&relay=" +:+ url_encode relay +:+ rest)%string ""%string relays.
(** [encode_qr]. *)
Definition encode_qr (payload : QrPayload) : string :=
  (QR_SCHEME +:+ qr_source_pubkey payload +:+ "?secret=" +:+ hex_of (qr_session_secret payload)
   +:+ relay_params (qr_relays payload) +:+ "&v=1")%string.

(** What the loop over the parameters has read. *)
Record Params := { secret_hex : option string; relays : list string; version : option Z }.
Definition no_params : Params := {| secret_hex := None; relays := []; version := None |}.
Definition read_param (p : Params) (pair : string) : Params :=
  match split_once "=" pair with
  | Some (key, value) =>
      if String.eqb key "secret" then {| secret_hex := Some value; relays := relays p; version := version p |}
      else if String.eqb key "relay"
      then {| secret_hex := secret_hex p; relays := relays p ++ [url_decode value]; version := version p |}
      else if String.eqb key "v"
      then {| secret_hex := secret_hex p; relays := relays p; version := parse_uint u32_max value |}
      else p
  | None => p
  end.

(** One relay of the list. *)
Definition check_relay (relay : string) : Result unit InvalidQr :=
  let? parsed := ok_or (url_parse relay) (RelayUrl relay) in
  fail_if negb (String.eqb (fst parsed) "wss" || String.eqb (fst parsed) "ws") with RelayScheme (fst parsed);
  fail_if negb (snd parsed) with RelayHost relay;
  Ok tt.

Definition zero_secret : string := String.string_of_list_ascii (replicate 32 (ascii_of_N 0)).
(** The secret's text to its bytes. *)
Definition read_secret (text : option string) : Result string InvalidQr :=
  let? secret := ok_or text MissingSecret in
  fail_if negb ((str_len secret =? 64) && str_all is_lowercase_hex secret) with SecretFormat secret;
  let? bytes := ok_or (of_hex_text secret) SecretHex in
  fail_if negb (str_len bytes =? 32) with SecretLength;
  fail_if String.eqb bytes zero_secret with SecretZero;
  Ok bytes.

(** [decode_qr]. *)
Definition decode_qr (uri : string) : Result QrPayload InvalidQr :=
  fail_if 2048 <? str_len uri with TooLong (str_len uri);
  let? rest := ok_or (strip_prefix QR_SCHEME uri) WrongScheme in
  let? parts := ok_or (split_once "?" rest) MissingQuery in
  let pubkey_hex := fst parts in
  fail_if negb ((str_len pubkey_hex =? 64) && str_all is_lowercase_hex pubkey_hex) with PubkeyFormat pubkey_hex;
  fail_if negb (public_key_ok pubkey_hex) with UnknownPubkey;
  let p := foldl read_param no_params (split_on "&" (snd parts)) in
  let v := default 1 (version p) in
  fail_if negb (v =? 1) with UnsupportedVersion v;
  let? secret := read_secret (secret_hex p) in
  fail_if bool_decide (relays p = []) with NoRelay;
  let? _ := try_map check_relay (relays p) in
  Ok {| qr_source_pubkey := pubkey_hex; qr_session_secret := secret; qr_relays := relays p |}.
End Qr.

(** ** Facts *)

Lemma percent_char c t :
  percent_decode (String "%" (String (upper_hex (code c / 16)) (String (upper_hex (code c mod 16)) t)))
  = String c (percent_decode t).
Proof. destruct c as [[][][][][][][][]]; reflexivity. Qed.
Lemma percent_plain c s : is_ascii_alphanumeric c = true -> percent_decode (String c s) = String c (percent_decode s).
Proof.
  intros Hc. assert (Ascii.eqb c "%" = false) as Hne by (destruct c as [[][][][][][][][]]; done).
  destruct s as [|a [|b s]]; [done..|]. cbn [percent_decode]. by rewrite Hne.
Qed.
Lemma percent_roundtrip s : percent_decode (url_encode s) = s.
Proof.
  induction s as [|c s IH]; [done|]. cbn [url_encode]. destruct (is_ascii_alphanumeric c) eqn:Hc.
  - rewrite percent_plain by done. by rewrite IH.
  - rewrite percent_char. by rewrite IH.
Qed.

(** What an encoded text is made of. *)
Definition encoded_char (c : ascii) : bool := is_ascii_alphanumeric c || Ascii.eqb c "%".
Lemma url_encode_chars s : str_all encoded_char (url_encode s) = true.
Proof.
  assert (forall c, encoded_char (upper_hex (code c / 16)) = true /\ encoded_char (upper_hex (code c mod 16)) = true) as Hhex.
  { intros c. destruct c as [[][][][][][][][]]; done. }
  induction s as [|c s IH]; [done|]. cbn [url_encode]. destruct (is_ascii_alphanumeric c) eqn:Hc; cbn [str_all].
  - rewrite IH. unfold encoded_char. by rewrite Hc.
  - destruct (Hhex c) as [-> ->]. by rewrite IH.
Qed.
Lemma all_not_contains (p : ascii -> bool) ch s : p ch = false -> str_all p s = true -> str_contains ch s = false.
Proof.
  intros Hc. induction s as [|d s IH]; [done|]. cbn. intros [Hd Hs]%andb_true_iff. rewrite IH by done.
  rewrite orb_false_r. destruct (Ascii.eqb_spec ch d); [congruence|done].
Qed.
Lemma split_on_cons ch a b : str_contains ch a = false -> split_on ch (a +:+ String ch b)%string = a :: split_on ch b.
Proof.
  induction a as [|d a IH]; cbn.
  - by rewrite Ascii.eqb_refl.
  - intros [Hd Ha]%orb_false_iff. by rewrite Hd, IH.
Qed.

Class QrLaws `{QrLib} : Prop := {
  hex_is_lower s : str_all is_lowercase_hex (hex_of s) = true;
  hex_length s : str_len (hex_of s) = 2 * str_len s;
  hex_back s : of_hex_text (hex_of s) = Some s;
}.

Section Laws.
Context `{QrLaws}.

(** A payload a device may show: a known key, a secret of 32 bytes that are not
    all zero, at least one relay, each a WebSocket URL in UTF-8, and a URI within
    the limit. *)
Record qr_ok (p : QrPayload) : Prop := {
  qo_length : str_len (qr_source_pubkey p) = 64;
  qo_lower : str_all is_lowercase_hex (qr_source_pubkey p) = true;
  qo_key : public_key_ok (qr_source_pubkey p) = true;
  qo_secret : str_len (qr_session_secret p) = 32;
  qo_random : qr_session_secret p <> zero_secret;
  qo_some : qr_relays p <> [];
  qo_relays : Forall (fun r => check_relay r = Ok tt) (qr_relays p);
}.

Lemma split_query x rs :
  str_contains "&" x = false ->
  split_on "&" (x +:+ relay_params rs +:+ "&v=1")%string
  = x :: ((fun r => "relay=" +:+ url_encode r)%string <$> rs) ++ ["v=1"%string].
Proof.
  revert x. induction rs as [|r rs IH]; intros x Hx; cbn [relay_params foldr].
  - change ("" +:+ "&v=1")%string with (String "&" "v=1"). by rewrite split_on_cons.
  - fold (relay_params rs). rewrite <- !str_append_assoc.
    change ("&relay=" +:+ ?t)%string with (String "&" ("relay=" +:+ t)%string).
    rewrite split_on_cons by done. f_equal. rewrite str_append_assoc. rewrite IH; [done|].
    rewrite str_contains_app. cbn. by apply (all_not_contains encoded_char), url_encode_chars.
Qed.

Lemma read_relays rs p :
  Forall (fun r => utf8_lossy r = r) rs ->
  foldl read_param p ((fun r => "relay=" +:+ url_encode r)%string <$> rs)
  = {| secret_hex := secret_hex p; relays := relays p ++ rs; version := version p |}.
Proof.
  intros Hrs. revert p. induction Hrs as [|r rs Hr _ IH]; intros p; cbn [fmap list_fmap foldl].
  - rewrite app_nil_r. by destruct p.
  - rewrite IH. assert (read_param p ("relay=" +:+ url_encode r)%string
      = {| secret_hex := secret_hex p; relays := relays p ++ [r]; version := version p |}) as ->.
    { unfold read_param. change (split_once "=" ("relay=" +:+ url_encode r)%string) with (Some ("relay"%string, url_encode r)).
      cbn. unfold url_decode. by rewrite percent_roundtrip, Hr. }
    cbn. by rewrite <- app_assoc.
Qed.

Lemma read_query secret rs :
  Forall (fun r => utf8_lossy r = r) rs -> str_contains "&" secret = false ->
  foldl read_param no_params (split_on "&" ("secret=" +:+ secret +:+ relay_params rs +:+ "&v=1")%string)
  = {| secret_hex := Some secret; relays := rs; version := Some 1 |}.
Proof.
  intros Hrs Hs. rewrite str_append_assoc, split_query by done. cbn [foldl].
  assert (read_param no_params ("secret=" +:+ secret)%string
    = {| secret_hex := Some secret; relays := []; version := None |}) as -> by done.
  rewrite foldl_app, read_relays by done. done.
Qed.

Lemma read_secret_back secret :
  str_len secret = 32 -> secret <> zero_secret -> read_secret (Some (hex_of secret)) = Ok secret.
Proof.
  intros Hlen Hne. unfold read_secret. cbn [ok_or rbind]. rewrite hex_length, hex_is_lower, Hlen.
  change (2 * 32 =? 64) with true. cbn [andb negb]. rewrite hex_back. cbn [ok_or rbind]. rewrite Hlen.
  change (32 =? 32) with true. cbn [negb]. by rewrite (proj2 (String.eqb_neq secret zero_secret) Hne).
Qed.

(** C40. A code that a device may show is read by the other device as the key, the
    secret and the relays it was made from. *)
Theorem shown_codes_are_read p :
  qr_ok p -> Forall (fun r => utf8_lossy r = r) (qr_relays p) -> str_len (encode_qr p) <= 2048 ->
  decode_qr (encode_qr p) = Ok p.
Proof.
  intros [Hlen Hlow Hkey Hsec Hrand Hsome Hrel] Hutf Hfit. unfold decode_qr.
  rewrite (proj2 (Z.ltb_ge 2048 _)) by done. unfold encode_qr. rewrite strip_prefix_app. cbn [ok_or rbind].
  assert (split_once "?" (qr_source_pubkey p +:+ "?secret=" +:+ hex_of (qr_session_secret p)
      +:+ relay_params (qr_relays p) +:+ "&v=1")
    = Some (qr_source_pubkey p, "secret=" +:+ hex_of (qr_session_secret p) +:+ relay_params (qr_relays p) +:+ "&v=1"))%string
    as ->.
  { apply split_once_spec. split; [done|]. by apply (all_not_contains is_lowercase_hex). }
  cbn [ok_or rbind fst snd]. rewrite Hlen, Hlow, Hkey. change (64 =? 64) with true. cbn [andb negb].
  rewrite read_query by (done || by apply (all_not_contains is_lowercase_hex), hex_is_lower).
  cbn [version default secret_hex relays]. change (negb (1 =? 1)) with false. cbn iota.
  rewrite read_secret_back by done. cbn [rbind]. rewrite bool_decide_eq_false_2 by done.
  assert (exists us, try_map check_relay (qr_relays p) = Ok us) as [us ->].
  { exists (replicate (length (qr_relays p)) tt). apply try_map_ok. clear -Hrel.
    induction Hrel; cbn; constructor; done. }
  by destruct p.
Qed.

Lemma try_map_all {A B E} (f : A -> Result B E) l bs :
  try_map f l = Ok bs -> Forall (fun a => exists b, f a = Ok b) l.
Proof. intros Hl%try_map_ok. induction Hl; constructor; eauto. Qed.

(** Whatever is scanned, what is accepted is a payload a device may show. *)
Theorem scanned_codes_are_sound uri p : decode_qr uri = Ok p -> qr_ok p.
Proof.
  unfold decode_qr. intros Hd. destruct (2048 <? str_len uri); [done|].
  destruct (strip_prefix _ _) as [rest|]; [|done]. cbn [ok_or rbind] in Hd.
  destruct (split_once _ _) as [[pk query]|]; [|done]. cbn [ok_or rbind fst snd] in Hd.
  destruct ((str_len pk =? 64) && str_all is_lowercase_hex pk) eqn:Hpk; [|done]. cbn [negb] in Hd.
  apply andb_true_iff in Hpk as [Hlen%Z.eqb_eq Hlow].
  destruct (public_key_ok pk) eqn:Hkey; [|done]. cbn [negb] in Hd.
  set (q := foldl read_param no_params (split_on "&" query)) in *.
  destruct (negb (default 1 (version q) =? 1)); [done|].
  destruct (read_secret (secret_hex q)) as [secret|] eqn:Hsec; [|done]. cbn [rbind] in Hd.
  case_bool_decide as Hsome; [done|].
  destruct (try_map check_relay (relays q)) as [us|] eqn:Hrel; [|done]. cbn [rbind] in Hd. injection Hd as <-.
  assert (str_len secret = 32 /\ secret <> zero_secret) as [Hsl Hne].
  { unfold read_secret in Hsec. destruct (secret_hex q) as [text|]; [|done]. cbn [ok_or rbind] in Hsec.
    destruct (negb _); [done|]. destruct (of_hex_text text) as [bytes|]; [|done]. cbn [ok_or rbind] in Hsec.
    destruct (Z.eqb_spec (str_len bytes) 32); [|done]. cbn [negb] in Hsec.
    destruct (String.eqb_spec bytes zero_secret); [done|]. injection Hsec as <-. done. }
  split; cbn; try done. apply try_map_all in Hrel. eapply list.Forall_impl; [exact Hrel|]. by intros r [[] Hr].
Qed.
End Laws.

(** ** Witnesses *)

Section Toy.
#[local] Instance toy_qr : QrLib := {
  public_key_ok _ := true;
  hex_of := to_hex;
  of_hex_text := of_hex;
  url_parse url := match strip_prefix "wss://" url with
                   | Some host => Some ("wss"%string, negb (str_is_empty host))
                   | None => None
                   end;
}.
#[local] Instance toy_qr_laws : QrLaws.
Proof. split; [exact to_hex_chars|exact to_hex_length|exact of_to_hex]. Qed.

Definition toy_qr_payload : QrPayload :=
  {| qr_source_pubkey := to_hex (repeated_char 32 "k"); qr_session_secret := repeated_char 32 "s";
     qr_relays := ["wss://relay.example.com/nostr"; "wss://two.example.com"]%string |}.
Lemma shown_codes_are_read_witness : decode_qr (encode_qr toy_qr_payload) = Ok toy_qr_payload.
Proof.
  apply (shown_codes_are_read toy_qr_payload).
  - split; try (vm_compute; reflexivity); [vm_compute; discriminate..|]. repeat constructor; vm_compute; reflexivity.
  - repeat constructor; vm_compute; reflexivity.
  - vm_compute. discriminate.
Defined.

(** A version that is no [u32] is taken for the missing one, that is, for 1. *)
Definition future_uri (v : string) : string :=
  (QR_SCHEME +:+ to_hex (repeated_char 32 "k") +:+ "?secret=" +:+ to_hex (repeated_char 32 "s")
   +:+ "&relay=wss%3A%2F%2Frelay&v=" +:+ v)%string.
Example an_unreadable_version_is_version_one :
  decode_qr (future_uri "2") = Err (UnsupportedVersion 2)
  /\ is_ok (decode_qr (future_uri "4294967297")) = true /\ is_ok (decode_qr (future_uri "2.0")) = true.
Proof. vm_compute. done. Qed.
End Toy.
