(* ===== verification/Workflow.v ===== *)
(** * Workflow definitions, templates and conditions

    [crates/buzz-workflow/src/schema.rs], the pure part of [executor.rs] (trigger
    contexts, templates, conditions, durations, the address check of webhooks)
    and [crates/buzz-relay/src/webhook_secret.rs]. A [HashMap] is a [gmap] with
    an order of iteration nobody knows; instants count nanoseconds; what the
    crates [evalexpr], [cron], [nostr], [serde] and [uuid] do is the library
    [WorkflowLib]. *)

From Stdlib Require Import ZArith Lia Ascii.
From stdpp Require Import base gmap list strings numbers.
From S2P Require Import Prelude MachineInt RustStr Json Event Metering Network.
Local Open Scope Z_scope.
Local Open Scope colony_scope.

(** ** Values *)

(** [WorkflowError], the texts of its causes included. *)
Inductive WorkflowError :=
| InvalidYaml (m : string)
| InvalidDefinition (m : string)
| ConditionError (m : string)
| TemplateError (m : string)
| StepTimeout (step_id : string) (timeout_secs : Z)
| WebhookError (m : string)
| CapacityExceeded
| DatabaseError (m : string)
| Unauthorized (m : string)
| NotImplemented (m : string).
#[export] Instance WorkflowError_eq_dec : EqDecision WorkflowError.
Proof. solve_decision. Defined.

Inductive TriggerDef :=
| MessagePosted (filter : option string)
| ReactionAdded (emoji : option string)
| DiffPosted (filter : option string)
| Schedule (cron interval : option string)
| Webhook.
#[export] Instance TriggerDef_eq_dec : EqDecision TriggerDef.
Proof. solve_decision. Defined.

Inductive ActionDef :=
| SendMessage (text : string) (channel : option string)
| SendDm (to text : string)
| SetChannelTopic (topic : string)
| AddReaction (emoji : string)
| CallWebhook (url : string) (method : option string) (headers : option (gmap string string)) (body : option string)
| RequestApproval (from message : string) (timeout : option string)
| Delay (duration : string).

Record Step := {
  step_id : string;
  step_name : option string;
  if_expr : option string;
  timeout_secs : option Z;
  action : ActionDef;
}.

Record WorkflowDef := {
  wf_name : string;
  wf_description : option string;
  trigger : TriggerDef;
  steps : list Step;
  def_enabled : bool;
}.

(** [TriggerContext]. *)
Record TriggerContext := {
  ctx_text : string;
  ctx_author : string;
  ctx_channel_id : string;
  ctx_timestamp : string;
  ctx_emoji : string;
  ctx_message_id : string;
  webhook_fields : gmap string string;
}.
(** [TriggerContext::default]. *)
Definition no_context : TriggerContext := {|
  ctx_text := ""; ctx_author := ""; ctx_channel_id := ""; ctx_timestamp := "";
  ctx_emoji := ""; ctx_message_id := ""; webhook_fields := ∅ |}.

(** [evalexpr::Value], as far as the crate builds or reads it. A float is the one
    nearest to its text. *)
Inductive EvalValue :=
| EVString (s : string)
| EVBoolean (b : bool)
| EVInt (n : Z)
| EVFloat (text : string)
| EVTuple (items : list EvalValue)
| EVEmpty.
Definition same_type (a b : EvalValue) : bool :=
  match a, b with
  | EVString _, EVString _ | EVBoolean _, EVBoolean _ | EVInt _, EVInt _ | EVFloat _, EVFloat _
  | EVTuple _, EVTuple _ | EVEmpty, EVEmpty => true
  | _, _ => false
  end.

(** What the libraries do. [hash_iter] is the order a [HashMap] iterates in;
    [ctx_set] is [HashMapContext::set_value], which refuses to change the type of
    a variable; [eval_boolean] is [eval_boolean_with_context]; [cron_includes]
    is [Schedule::includes], [cron_next] the first instant of a schedule after a
    given one, each a whole second; [date_ok] holds of the seconds
    [DateTime::from_timestamp] accepts. *)
Class WorkflowLib := {
  hash_iter : forall {A : Type}, gmap string A -> list (string * A);
  eval_ctx : Type;
  ctx_new : eval_ctx;
  ctx_get : eval_ctx -> string -> option EvalValue;
  ctx_set : eval_ctx -> string -> EvalValue -> Result eval_ctx string;
  ctx_set_function : eval_ctx -> string -> (EvalValue -> option EvalValue) -> Result eval_ctx string;
  eval_boolean : string -> eval_ctx -> Result bool string;
  cron_schedule : Type;
  cron_parse : string -> Result cron_schedule string;
  cron_includes : cron_schedule -> Z -> bool;
  cron_next : cron_schedule -> Z -> option Z;
  date_ok : Z -> bool;
  nostr_key : Type;
  key_from_hex : string -> option nostr_key;
  to_bech32 : nostr_key -> option string;
  uuid_from_text : string -> option string;
  def_from_yaml : string -> Result WorkflowDef string;
  def_to_json : WorkflowDef -> Json;
  def_from_json : Json -> Result WorkflowDef string;
}.

(** What their documentation promises. *)
Class WorkflowLaws `{WorkflowLib} : Prop := {
  hash_iter_all : forall A (m : gmap string A), hash_iter m ≡ₚ map_to_list m;
  ctx_new_empty : forall k, ctx_get ctx_new k = None;
  ctx_set_get : forall c k v c', ctx_set c k v = Ok c' ->
    forall j, ctx_get c' j = if String.eqb j k then Some v else ctx_get c j;
  ctx_set_ok : forall c k v,
    match ctx_get c k with Some old => same_type old v | None => true end = true ->
    is_ok (ctx_set c k v) = true;
  ctx_set_function_get : forall c k f, exists c', ctx_set_function c k f = Ok c' /\ forall j, ctx_get c' j = ctx_get c j;
  cron_next_first : forall s t t', cron_next s t = Some t' ->
    t < t' /\ cron_includes s t' = true
    /\ forall u, t < u < t' -> u mod 1000000000 = 0 -> cron_includes s u = false;
}.

(** ** Text *)

(** [str::find] of a text and the slices around it: what is before its first
    occurrence and what is after. *)
Fixpoint split_str (p s : string) : option (string * string) :=
  match strip_prefix p s with
  | Some rest => Some (EmptyString, rest)
  | None =>
      match s with
      | EmptyString => None
      | String c s' =>
          match split_str p s' with
          | Some (a, b) => Some (String c a, b)
          | None => None
          end
      end
  end.
(** [str::contains] of a text. *)
Definition contains_str (p s : string) : bool := is_some (split_str p s).

(** [str::strip_suffix] of an ASCII character. *)
Fixpoint strip_last (c : ascii) (s : string) : option string :=
  match s with
  | EmptyString => None
  | String d EmptyString => if Ascii.eqb c d then Some EmptyString else None
  | String d s' =>
      match strip_last c s' with
      | Some r => Some (String d r)
      | None => None
      end
  end.
(** [str::ends_with] of a text. *)
Definition ends_with (p s : string) : bool := is_some (strip_prefix (str_rev p) (str_rev s)).

(** [chars().take(n)]. *)
Fixpoint chars_take (n : Z) (s : string) : string :=
  match s with
  | EmptyString => EmptyString
  | String c s' =>
      if is_continuation c then String c (chars_take n s')
      else if n <=? 0 then EmptyString else String c (chars_take (n - 1) s')
  end.

(** [split_whitespace().count()]. *)
Fixpoint count_words (fuel : nat) (in_word : bool) (s : string) : nat :=
  match fuel, s with
  | O, _ | _, EmptyString => O
  | S fuel', String _ s' =>
      match strip_one white_space s with
      | Some rest => count_words fuel' false rest
      | None => ((if in_word then 0 else 1) + count_words fuel' true s')%nat
      end
  end.
Definition word_count (s : string) : nat := count_words (String.length s) false s.

(** ** Definitions *)

(** [WorkflowDef::requires_elevated_authority]. *)
Definition is_call_webhook (a : ActionDef) : bool := match a with CallWebhook _ _ _ _ => true | _ => false end.
Definition requires_elevated_authority (def : WorkflowDef) : bool :=
  existsb (fun s => is_call_webhook (action s)) (steps def).

(** [parse_duration_secs]. *)
Definition parse_duration_secs (duration : string) : Result Z WorkflowError :=
  let duration := trim duration in
  let invalid := InvalidDefinition ("invalid duration: " +:+ duration)%string in
  let overflow := InvalidDefinition ("duration overflow: " +:+ duration)%string in
  match strip_last "h" duration with
  | Some n =>
      let? hours := ok_or (parse_uint u64_max (trim n)) invalid in
      ok_or (checked_mul64 hours 3600) overflow
  | None =>
      match strip_last "m" duration with
      | Some n =>
          let? mins := ok_or (parse_uint u64_max (trim n)) invalid in
          ok_or (checked_mul64 mins 60) overflow
      | None =>
          match strip_last "s" duration with
          | Some n => ok_or (parse_uint u64_max (trim n)) invalid
          | None => ok_or (parse_uint u64_max duration) invalid
          end
      end
  end.

(** [normalize_cron]. *)
Definition normalize_cron (expr : string) : string :=
  match word_count expr with
  | 5%nat => "0 " +:+ expr +:+ " *"
  | 6%nat => expr +:+ " *"
  | _ => expr
  end%string.

Definition valid_step_id (id : string) : bool :=
  negb (str_is_empty id) && (str_len id <=? 64)
  && str_all (fun c => is_ascii_alphanumeric c || Ascii.eqb c "_") id.

(** The loop of [validate] over the steps. *)
Fixpoint check_step_ids (seen : list string) (l : list Step) : Result unit WorkflowError :=
  match l with
  | [] => Ok tt
  | step :: l' =>
      let id := step_id step in
      fail_if str_is_empty (trim id) with InvalidDefinition "step id must not be empty";
      fail_if negb (valid_step_id id) with InvalidDefinition
        ("step id '" +:+ id +:+ "' is invalid: must contain only alphanumeric characters and underscores");
      fail_if existsb (String.eqb id) seen with InvalidDefinition ("duplicate step id: " +:+ id);
      check_step_ids (id :: seen) l'
  end%string.

Section Definitions.
Context `{WorkflowLib}.

(** [validate_cron]. *)
Definition validate_cron (expr : string) : Result unit WorkflowError :=
  match cron_parse (normalize_cron expr) with
  | Ok _ => Ok tt
  | Err e => Err (InvalidDefinition ("invalid cron expression '" +:+ expr +:+ "': " +:+ e))
  end%string.

(** What [validate] asks of a schedule. *)
Definition check_schedule (cron interval : option string) : Result unit WorkflowError :=
  match cron, interval with
  | None, None => Err (InvalidDefinition "schedule trigger requires either 'cron' or 'interval'")
  | Some _, Some _ => Err (InvalidDefinition
      "schedule trigger cannot specify both 'cron' and 'interval'; use one or the other")
  | Some expr, None => validate_cron expr
  | None, Some dur =>
      let? secs := map_err (fun _ => InvalidDefinition
        ("invalid interval '" +:+ dur +:+ "': expected a duration like '30m', '1h', or '60s'"))
        (parse_duration_secs dur) in
      fail_if secs <? 60 with InvalidDefinition
        "interval must be at least 60s (cron loop ticks every 60 seconds)";
      Ok tt
  end.
(** [WorkflowDef::validate]. *)
Definition validate (def : WorkflowDef) : Result unit WorkflowError :=
  fail_if str_is_empty (trim (wf_name def)) with InvalidDefinition "name is required and must not be empty";
  fail_if bool_decide (length (steps def) = 0%nat) with InvalidDefinition "at least one step is required";
  let? _ := check_step_ids [] (steps def) in
  match trigger def with
  | Schedule cron interval => check_schedule cron interval
  | _ => Ok tt
  end.
(** [parse_yaml], with the canonical JSON as a value. *)
Definition parse_yaml (yaml : string) : Result (WorkflowDef * Json) WorkflowError :=
  let? def := map_err InvalidYaml (def_from_yaml yaml) in
  let? _ := validate def in
  Ok (def, def_to_json def).
End Definitions.

(** ** Templates *)

(** [TriggerContext::get_field]. *)
Definition get_field (ctx : TriggerContext) (name : string) : option string :=
  if String.eqb name "text" then Some (ctx_text ctx)
  else if String.eqb name "author" then Some (ctx_author ctx)
  else if String.eqb name "channel_id" then Some (ctx_channel_id ctx)
  else if String.eqb name "timestamp" then Some (ctx_timestamp ctx)
  else if String.eqb name "emoji" then Some (ctx_emoji ctx)
  else if String.eqb name "message_id" then Some (ctx_message_id ctx)
  else webhook_fields ctx !! name.

Section Templates.
Context `{WorkflowLib, JsonLib}.

(** [json_to_string] of [executor.rs]. *)
Definition value_text (v : Json) : string :=
  match v with
  | JString s => s
  | JBool b => if b then "true" else "false"
  | JNull => ""
  | other => json_to_string other
  end%string.
(** [json_get_str]. *)
Definition json_get_str (value : Json) (key : string) : option string :=
  match value with
  | JObject fields => value_text <$> bt_get key fields
  | _ => None
  end.

(** [resolve_variable]. *)
Definition resolve_variable (path : string) (ctx : TriggerContext) (outputs : gmap string Json)
    : option string :=
  match strip_prefix "trigger." path with
  | Some field => get_field ctx field
  | None =>
      rest ← strip_prefix "steps." path;
      '(id, rest) ← split_once "." rest;
      '(middle, field) ← split_once "." rest;
      if negb (String.eqb middle "output") then None
      else output ← outputs !! id; json_get_str output field
  end.

(** [apply_filter]. *)
Definition apply_filter (value filter : string) : Result string WorkflowError :=
  let filter := trim filter in
  match (inner ← strip_prefix "truncate(" filter; strip_last ")" inner) with
  | Some inner =>
      let? n := ok_or (parse_uint u64_max (trim inner))
        (TemplateError ("truncate() requires a number, got: " +:+ inner)%string) in
      Ok (chars_take n value)
  | None =>
      if String.eqb filter "npub" || String.eqb filter "truncate_pubkey" then
        match key_from_hex value with
        | Some pk => Ok (default value (to_bech32 pk))
        | None => Ok value
        end
      else Err (TemplateError ("unknown filter: " +:+ filter)%string)
  end.

(** What takes the place of a placeholder, whose trimmed text is [expr]. *)
Definition fill (ctx : TriggerContext) (outputs : gmap string Json) (expr : string)
    : Result string WorkflowError :=
  let '(path, filter) := match split_once "|" expr with
                         | Some (v, f) => (trim v, Some (trim f))
                         | None => (trim expr, None)
                         end in
  match resolve_variable path ctx outputs, filter with
  | Some v, Some f => apply_filter v f
  | Some v, None => Ok v
  | None, _ => Ok ("{{" +:+ expr +:+ "}}")%string
  end.

(** The loop of [resolve_template]; each round takes at least two characters off
    [remaining]. *)
Fixpoint template_loop (fuel : nat) (ctx : TriggerContext) (outputs : gmap string Json)
    (result remaining : string) : Result string WorkflowError :=
  match fuel, split_str "{{" remaining with
  | O, _ | _, None => Ok (result +:+ remaining)%string
  | S fuel', Some (before, rest) =>
      let result := (result +:+ before)%string in
      match split_str "}}" rest with
      | None => Ok (result +:+ "{{" +:+ rest)%string
      | Some (inside, rest) =>
          let? value := fill ctx outputs (trim inside) in
          template_loop fuel' ctx outputs (result +:+ value)%string rest
      end
  end.
(** [resolve_template]. *)
Definition resolve_template (ctx : TriggerContext) (outputs : gmap string Json) (template : string)
    : Result string WorkflowError :=
  if negb (contains_str "{{" template) then Ok template
  else template_loop (String.length template) ctx outputs EmptyString template.

(** [t_opt] of [resolve_step_templates]. *)
Definition resolve_opt (ctx : TriggerContext) (outputs : gmap string Json) (s : option string)
    : Result (option string) WorkflowError := map_transpose (resolve_template ctx outputs) s.
(** [resolve_step_templates]. *)
Definition resolve_step_templates (step : Step) (ctx : TriggerContext) (outputs : gmap string Json)
    : Result ActionDef WorkflowError :=
  let t := resolve_template ctx outputs in
  match action step with
  | SendMessage text channel =>
      let? text := t text in let? channel := resolve_opt ctx outputs channel in Ok (SendMessage text channel)
  | SendDm to text => let? to := t to in let? text := t text in Ok (SendDm to text)
  | SetChannelTopic topic => let? topic := t topic in Ok (SetChannelTopic topic)
  | AddReaction emoji => let? emoji := t emoji in Ok (AddReaction emoji)
  | CallWebhook url method headers body =>
      let? headers := map_transpose (fun h =>
        let? l := try_map (fun kv => let? v := t (snd kv) in Ok (fst kv, v)) (hash_iter h) in
        Ok (list_to_map l)) headers in
      let? url := t url in let? body := resolve_opt ctx outputs body in
      Ok (CallWebhook url method headers body)
  | RequestApproval from message timeout =>
      let? from := t from in let? message := t message in Ok (RequestApproval from message timeout)
  | Delay duration => Ok (Delay duration)
  end.

(** ** Conditions *)

(** The four functions conditions may call. *)
Definition eval_str_contains (args : EvalValue) : option EvalValue :=
  match args with
  | EVTuple [EVString haystack; EVString needle] => Some (EVBoolean (contains_str needle haystack))
  | _ => None
  end.
Definition eval_str_starts_with (args : EvalValue) : option EvalValue :=
  match args with
  | EVTuple [EVString s; EVString prefix] => Some (EVBoolean (starts_with prefix s))
  | _ => None
  end.
Definition eval_str_ends_with (args : EvalValue) : option EvalValue :=
  match args with
  | EVTuple [EVString s; EVString suffix] => Some (EVBoolean (ends_with suffix s))
  | _ => None
  end.
Definition eval_str_len (arg : EvalValue) : option EvalValue :=
  match arg with EVString s => Some (EVInt (str_len s)) | _ => None end.

(** [json_value_to_eval]. *)
Definition json_value_to_eval (v : Json) : EvalValue :=
  match v with
  | JString s => EVString s
  | JBool b => EVBoolean b
  | JInt n => if in_i64 n then EVInt n else EVFloat (json_to_string v)
  | JFloat text => EVFloat text
  | JNull => EVEmpty
  | other => EVString (json_to_string other)
  end.

(** A run of [set_value]s. *)
Fixpoint set_values (vars : list (string * EvalValue)) (c : eval_ctx) : Result eval_ctx string :=
  match vars with
  | [] => Ok c
  | (k, v) :: vars => let? c := ctx_set c k v in set_values vars c
  end.
Definition is_reserved (key : string) : bool := starts_with "trigger_" key || starts_with "steps_" key.
Definition webhook_vars (ctx : TriggerContext) : list (string * EvalValue) :=
  filter_map (fun kv => if is_reserved (fst kv) then None
                        else Some (("trigger_" +:+ fst kv)%string, EVString (snd kv)))
    (hash_iter (webhook_fields ctx)).
Definition trigger_vars (ctx : TriggerContext) : list (string * EvalValue) := [
  ("trigger_text", EVString (ctx_text ctx)); ("trigger_author", EVString (ctx_author ctx));
  ("trigger_channel_id", EVString (ctx_channel_id ctx)); ("trigger_timestamp", EVString (ctx_timestamp ctx));
  ("trigger_emoji", EVString (ctx_emoji ctx)); ("trigger_message_id", EVString (ctx_message_id ctx))]%string.
Definition step_vars (outputs : gmap string Json) : list (string * EvalValue) :=
  hash_iter outputs ≫= (fun io =>
    match snd io with
    | JObject fields => (fun fv => (("steps_" +:+ fst io +:+ "_output_" +:+ fst fv)%string,
                                    json_value_to_eval (snd fv))) <$> fields
    | _ => []
    end).
(** [build_eval_context]. *)
Definition build_eval_context (ctx : TriggerContext) (outputs : gmap string Json)
    : Result eval_ctx WorkflowError :=
  map_err ConditionError (
    let? c := ctx_set_function ctx_new "str_contains" eval_str_contains in
    let? c := ctx_set_function c "str_starts_with" eval_str_starts_with in
    let? c := ctx_set_function c "str_ends_with" eval_str_ends_with in
    let? c := ctx_set_function c "str_len" eval_str_len in
    let? c := set_values (webhook_vars ctx) c in
    let? c := set_values (trigger_vars ctx) c in
    set_values (step_vars outputs) c).

Definition MAX_EXPR_LEN : Z := 4096.
(** How the evaluation's thread does: done within [EVAL_TIMEOUT], later, or a
    panic. *)
Inductive EvalMood := InTime | Late | Panicked (e : string).
(** [evaluate_condition]. *)
Definition evaluate_condition (mood : EvalMood) (expr : string) (ctx : TriggerContext)
    (outputs : gmap string Json) : Result bool WorkflowError :=
  let? c := build_eval_context ctx outputs in
  fail_if (MAX_EXPR_LEN <? str_len expr)%Z with ConditionError "condition expression exceeds 4096 byte limit";
  match mood with
  | Late => Err (ConditionError ("'" +:+ expr +:+ "': evaluation timed out after 100ms"))
  | Panicked e => Err (ConditionError ("'" +:+ expr +:+ "': eval task panicked: " +:+ e))
  | InTime => map_err (fun e => ConditionError ("'" +:+ expr +:+ "': " +:+ e)) (eval_boolean expr c)
  end%string.
End Templates.

(** ** Webhook secrets *)

Definition SECRET_KEY : string := "_webhook_secret".
(** [inject_secret]. *)
Definition inject_secret (secret : string) (def : Json) : Json := jset SECRET_KEY (JString secret) def.
(** [extract_secret]. *)
Definition extract_secret (def : Json) : option string := get_str def SECRET_KEY.
(** [strip_secret]. *)
Definition strip_secret (def : Json) : Json :=
  match def with
  | JObject fields => JObject (List.filter (fun f => negb (String.eqb (fst f) SECRET_KEY)) fields)
  | _ => def
  end.
Fixpoint xor_fold (acc : Z) (a b : string) : Z :=
  match a, b with
  | String c a', String d b' => xor_fold (Z.lor acc (Z.lxor (code c) (code d))) a' b'
  | _, _ => acc
  end.
(** [verify_secret]. *)
Definition verify_secret (provided stored : string) : bool :=
  if negb (str_len provided =? str_len stored) then false else xor_fold 0 provided stored =? 0.

(** ** Where a step may send *)

Section Destinations.
Context `{WorkflowLib}.

(** [resolve_send_message_channel]. *)
Definition resolve_send_message_channel (explicit : option string) (trigger_channel : string)
    (workflow_channel_id : option string) : Result string WorkflowError :=
  let explicit := c ← trim <$> explicit; if str_is_empty c then None else Some c in
  let parsed c := ok_or (uuid_from_text c) (InvalidDefinition "SendMessage: invalid channel override UUID") in
  match workflow_channel_id with
  | Some own =>
      let? _ := match explicit with
                | Some c =>
                    let? over := parsed c in
                    fail_if negb (String.eqb over own) with InvalidDefinition
                      ("SendMessage: channel override must match the workflow channel (" +:+ own +:+ ")");
                    Ok tt
                | None => Ok tt
                end in
      Ok own
  | None =>
      match explicit with
      | Some c => parsed c
      | None =>
          fail_if str_is_empty (trim trigger_channel) with InvalidDefinition
            "SendMessage: no channel_id available (trigger has no channel context and no channel override was specified)";
          Ok (trim trigger_channel)
      end
  end.
End Destinations.

(** The request [call_webhook_impl] makes: the address its host is pinned to is
    the one that was checked. *)
Record WebhookRequest := {
  wr_url : string;
  wr_host : string;
  wr_port : Z;
  wr_pinned : IpAddr;
  wr_method : string;
  wr_headers : option (gmap string string);
  wr_body : option string;
}.
(** What the network and the HTTP library do: [host_str] and
    [port_or_known_default] of a URL, the resolver, the methods that exist, the
    answer to a request as its status and chunks. *)
Record Web := {
  web_url : string -> Result (option string * option Z) string;
  web_resolve : string -> Z -> Result (list IpAddr) string;
  web_method : string -> Result unit string;
  web_answer : WebhookRequest -> Result (Z * list (Result string string)) string;
}.

(** [check_ssrf]; the text of the refusal leaves out the address. *)
Definition check_ssrf (web : Web) (host : string) (port : Z) : Result IpAddr WorkflowError :=
  let? addrs := map_err (fun e => WebhookError ("DNS resolution failed: " +:+ e)) (web_resolve web host port) in
  match addrs with
  | [] => Err (WebhookError "DNS resolution returned no addresses")
  | first :: _ =>
      fail_if existsb is_private_ip addrs with WebhookError
        ("SSRF blocked: '" +:+ host +:+ "' resolved to private/reserved address");
      Ok first
  end.

Definition WEBHOOK_MAX_RESPONSE_BYTES : Z := 1048576.
(** The loop that reads the response. *)
Fixpoint read_body (acc : string) (chunks : list (Result string string)) : Result string WorkflowError :=
  match chunks with
  | [] => Ok acc
  | Err e :: _ => Err (WebhookError ("reading response body: " +:+ e))
  | Ok bytes :: chunks =>
      let acc := (acc +:+ bytes)%string in
      fail_if (WEBHOOK_MAX_RESPONSE_BYTES <? str_len acc)%Z with
        WebhookError "response body exceeds 1048576 byte limit";
      read_body acc chunks
  end.

(** [call_webhook_impl] up to the request it sends. *)
Definition webhook_request (web : Web) (url method : string) (headers : option (gmap string string))
    (body : option string) : Result WebhookRequest WorkflowError :=
  let? parsed := map_err (fun e => WebhookError ("invalid URL: " +:+ e)) (web_url web url) in
  let? host := ok_or (fst parsed) (WebhookError "URL has no host") in
  let port := default 80 (snd parsed) in
  let? safe_ip := check_ssrf web host port in
  let? _ := map_err WebhookError (web_method web method) in
  Ok {| wr_url := url; wr_host := host; wr_port := port; wr_pinned := safe_ip; wr_method := method;
        wr_headers := headers; wr_body := body |}.
(** The rest of [call_webhook_impl]. *)
Definition webhook_response (web : Web) (req : WebhookRequest) : Result Json WorkflowError :=
  let? answer := map_err WebhookError (web_answer web req) in
  let? body := read_body EmptyString (snd answer) in
  Ok (json_object [("status", JInt (fst answer)); ("body", JString (utf8_lossy body))])%string.

(** ** Facts: text *)

Lemma split_str_some p s a b : split_str p s = Some (a, b) -> s = (a +:+ p +:+ b)%string.
Proof.
  revert a b. induction s as [|c s IH]; intros a b; cbn [split_str].
  - destruct (strip_prefix p EmptyString) eqn:Hp; [|done]. intros [= <- <-]. by apply strip_prefix_spec in Hp.
  - destruct (strip_prefix p (String c s)) eqn:Hp.
    { intros [= <- <-]. by apply strip_prefix_spec in Hp. }
    destruct (split_str p s) as [[a' b']|]; [|done]. intros [= <- <-]. cbn. by rewrite (IH a' b').
Qed.

Lemma string_app_length a b : String.length (a +:+ b) = (String.length a + String.length b)%nat.
Proof. induction a as [|c a IH]; cbn; [done|]. by rewrite IH. Qed.

Lemma split_str_shorter p s a b :
  split_str p s = Some (a, b) -> (String.length p + String.length b <= String.length s)%nat.
Proof. intros ->%split_str_some. rewrite !string_app_length. lia. Qed.

Lemma starts_with_spec p s : starts_with p s = true <-> exists r, s = (p +:+ r)%string.
Proof.
  unfold starts_with. destruct (strip_prefix p s) eqn:H; cbn.
  - apply strip_prefix_spec in H. split; [by eexists|done].
  - split; [done|]. intros [r ->]. by rewrite strip_prefix_app in H.
Qed.

(** ** Templates are filled in place

    What a template is made of is read off the template alone. *)

Inductive Piece := Text (s : string) | Hole (inside : string) | Open (rest : string).
Definition piece_text (p : Piece) : string :=
  match p with
  | Text s => s
  | Hole inside => "{{" +:+ inside +:+ "}}"
  | Open rest => "{{" +:+ rest
  end.
Definition joined (l : list string) : string := foldr String.append EmptyString l.

Inductive reads : string -> list Piece -> Prop :=
| reads_text s : split_str "{{" s = None -> reads s [Text s]
| reads_open s before rest :
    split_str "{{" s = Some (before, rest) -> split_str "}}" rest = None -> reads s [Text before; Open rest]
| reads_hole s before rest inside s' ps :
    split_str "{{" s = Some (before, rest) -> split_str "}}" rest = Some (inside, s') -> reads s' ps ->
    reads s (Text before :: Hole inside :: ps).

Lemma reads_unique s ps ps' : reads s ps -> reads s ps' -> ps' = ps.
Proof.
  intros H. revert ps'. induction H as [s Hs|s a r Hs Hr|s a r i s' ps Hs Hr _ IH];
    intros ps'; inversion 1; subst; simplify_eq; [done|done|]. f_equal. f_equal. by apply IH.
Qed.

Lemma reads_joined s ps : reads s ps -> joined (piece_text <$> ps) = s.
Proof.
  induction 1 as [s Hs|s a r Hs Hr|s a r i s' ps Hs Hr _ IH]; cbn.
  - apply str_append_nil_r.
  - apply split_str_some in Hs as ->. by rewrite str_append_nil_r.
  - apply split_str_some in Hs as ->. apply split_str_some in Hr as ->.
    unfold joined in IH. rewrite IH. by rewrite <- !str_append_assoc.
Qed.

Lemma reads_exists s : exists ps, reads s ps.
Proof.
  remember (String.length s) as n eqn:Hn. revert s Hn. induction (lt_wf n) as [n _ IH]. intros s ->.
  destruct (split_str "{{" s) as [[a r]|] eqn:Hs; [|by eexists; constructor].
  destruct (split_str "}}" r) as [[i s']|] eqn:Hr; [|by eexists; econstructor].
  apply split_str_shorter in Hs as Hl. apply split_str_shorter in Hr as Hl'. cbn in Hl, Hl'.
  destruct (IH (String.length s') ltac:(lia) s' eq_refl) as [ps Hps]. eexists. by econstructor.
Qed.

Section TemplateFacts.
Context `{WorkflowLib, JsonLib}.

Definition render (ctx : TriggerContext) (outputs : gmap string Json) (p : Piece)
    : Result string WorkflowError :=
  match p with
  | Text s => Ok s
  | Hole inside => fill ctx outputs (trim inside)
  | Open rest => Ok (piece_text (Open rest))
  end.

Lemma template_loop_spec ctx outputs ps s : reads s ps -> forall fuel result,
  (String.length s <= fuel)%nat ->
  template_loop fuel ctx outputs result s
  = (let? l := try_map (render ctx outputs) ps in Ok (result +:+ joined l)%string).
Proof.
  induction 1 as [s Hs|s a r Hs Hr|s a r i s' ps Hs Hr _ IH]; intros fuel result Hf.
  - destruct fuel; cbn [template_loop]; rewrite ?Hs; cbn; by rewrite str_append_nil_r.
  - apply split_str_shorter in Hs as Hl. cbn in Hl. destruct fuel; [lia|]. cbn [template_loop]. rewrite Hs, Hr.
    cbn [try_map render rbind piece_text]. unfold joined. cbn [foldr].
    by rewrite str_append_nil_r, !str_append_assoc.
  - apply split_str_shorter in Hs as Hl. apply split_str_shorter in Hr as Hl'. cbn in Hl, Hl'.
    destruct fuel; [lia|]. cbn [template_loop]. rewrite Hs, Hr. cbn [try_map render rbind].
    destruct (fill ctx outputs (trim i)) as [v|e]; cbn [rbind]; [|done].
    rewrite IH by lia. destruct (try_map _ ps) as [l|e]; cbn; [|done]. by rewrite !str_append_assoc.
Qed.

(** C22. A template is read once, whatever the values: its pieces are found in its own
    text, each placeholder is replaced by its value, and what a value contains is
    never read as a placeholder. *)
Theorem templates_are_filled_in_place template : exists ps,
  reads template ps /\ (forall ps', reads template ps' -> ps' = ps)
  /\ joined (piece_text <$> ps) = template
  /\ forall ctx outputs,
       resolve_template ctx outputs template
       = (let? l := try_map (render ctx outputs) ps in Ok (joined l)).
Proof.
  destruct (reads_exists template) as [ps Hps]. exists ps. split_and!; [done| |by apply reads_joined|].
  - intros ps' H'. by apply reads_unique with template.
  - intros ctx outputs. unfold resolve_template, contains_str.
    destruct (split_str "{{" template) as [[a r]|] eqn:Hs; cbn.
    + by rewrite (template_loop_spec _ _ ps) by done.
    + inversion Hps; subst; simplify_eq. cbn. by rewrite str_append_nil_r.
Qed.
End TemplateFacts.

(** A placeholder no one knows loses the blanks around its name. *)
Example unknown_placeholders_are_trimmed `{WorkflowLib, JsonLib} :
  resolve_template no_context ∅ "{{ nobody }}" = Ok "{{nobody}}"%string.
Proof. reflexivity. Qed.

(** ** Conditions read the event *)

Section ConditionFacts.
Context `{WorkflowLaws, JsonLib}.

(** The last value a run of [set_value]s gives a variable. *)
Fixpoint last_value (k : string) (vars : list (string * EvalValue)) : option EvalValue :=
  match vars with
  | [] => None
  | (k', v) :: vars =>
      match last_value k vars with
      | Some x => Some x
      | None => if String.eqb k k' then Some v else None
      end
  end.

Lemma set_values_get vars c c' : set_values vars c = Ok c' ->
  forall k, ctx_get c' k = match last_value k vars with Some v => Some v | None => ctx_get c k end.
Proof.
  revert c. induction vars as [|[k' v] vars IH]; intros c Hs k; cbn in *; [by injection Hs as ->|].
  destruct (ctx_set c k' v) as [c1|e] eqn:Hset; [|done]. cbn in Hs. rewrite (IH _ Hs k).
  destruct (last_value k vars); [done|]. rewrite (ctx_set_get _ _ _ _ Hset). by destruct (String.eqb k k').
Qed.

Lemma last_value_in k vars v : last_value k vars = Some v -> (k, v) ∈ vars.
Proof.
  induction vars as [|[k' v'] vars IH]; cbn; [done|]. destruct (last_value k vars) as [x|].
  - intros [= <-]. right. by apply IH.
  - destruct (String.eqb_spec k k') as [->|]; [|done]. intros [= <-]. left.
Qed.
Lemma last_value_none k vars v : last_value k vars = None -> (k, v) ∉ vars.
Proof.
  induction vars as [|[k' v'] vars IH]; cbn; [by intros _ ?%not_elem_of_nil|].
  destruct (last_value k vars) as [x|]; [done|]. destruct (String.eqb_spec k k') as [->|Hne]; [done|].
  intros _ [Hin|Hin]%elem_of_cons; [by simplify_eq|]. by apply IH.
Qed.
(** When all values a variable is given agree. *)
Lemma last_value_spec k vars o :
  (forall v, (k, v) ∈ vars <-> o = Some v) -> last_value k vars = o.
Proof.
  intros Ho. destruct (last_value k vars) as [v|] eqn:Hl.
  - symmetry. apply Ho. by apply last_value_in.
  - destruct o as [v|]; [|done]. exfalso. apply (last_value_none _ _ v Hl). by apply Ho.
Qed.

Definition all_text (c : eval_ctx) : Prop :=
  forall k v, ctx_get c k = Some v -> same_type v (EVString EmptyString) = true.
Lemma set_values_text vars c :
  all_text c -> Forall (fun kv => same_type (snd kv) (EVString EmptyString) = true) vars ->
  exists c', set_values vars c = Ok c' /\ all_text c'.
Proof.
  revert c. induction vars as [|[k v] vars IH]; intros c Hc Hv; cbn; [by exists c|].
  apply list.Forall_cons in Hv as [Hv Hvs]. cbn in Hv.
  assert (is_ok (ctx_set c k v) = true) as Hok.
  { apply ctx_set_ok. destruct (ctx_get c k) as [old|] eqn:Hk; [|done]. specialize (Hc k old Hk).
    by destruct old, v. }
  destruct (ctx_set c k v) as [c1|] eqn:Hset; [|done]. cbn. apply IH; [|done].
  intros j x Hj. rewrite (ctx_set_get _ _ _ _ Hset) in Hj.
  destruct (String.eqb j k); [by injection Hj as <-|by apply (Hc j)].
Qed.

(** The variables of a webhook and of the event, those of steps apart. *)
Lemma webhook_vars_spec ctx name v :
  (("trigger_" +:+ name)%string, v) ∈ webhook_vars ctx
  <-> is_reserved name = false /\ EVString <$> webhook_fields ctx !! name = Some v.
Proof.
  unfold webhook_vars. rewrite elem_of_filter_map. split.
  - intros ([k s] & Hin & Hk). rewrite hash_iter_all, elem_of_map_to_list in Hin. cbn in Hk.
    destruct (is_reserved k) eqn:Hr; [done|]. injection Hk as -> <-. split; [done|]. by rewrite Hin.
  - intros [Hr Hv]. apply fmap_Some in Hv as (s & Hs & ->). exists (name, s). cbn. rewrite Hr.
    split; [|done]. by rewrite hash_iter_all, elem_of_map_to_list.
Qed.

Definition standard_fields : list string :=
  ["text"; "author"; "channel_id"; "timestamp"; "emoji"; "message_id"]%string.
Lemma trigger_vars_spec ctx name :
  last_value ("trigger_" +:+ name) (trigger_vars ctx)
  = if existsb (String.eqb name) standard_fields then EVString <$> get_field ctx name else None.
Proof.
  assert (forall x, String.eqb ("trigger_" +:+ name) ("trigger_" +:+ x) = String.eqb name x) as Hp by done.
  unfold trigger_vars, get_field. cbn [last_value existsb standard_fields].
  change "trigger_text"%string with ("trigger_" +:+ "text")%string.
  change "trigger_author"%string with ("trigger_" +:+ "author")%string.
  change "trigger_channel_id"%string with ("trigger_" +:+ "channel_id")%string.
  change "trigger_timestamp"%string with ("trigger_" +:+ "timestamp")%string.
  change "trigger_emoji"%string with ("trigger_" +:+ "emoji")%string.
  change "trigger_message_id"%string with ("trigger_" +:+ "message_id")%string.
  rewrite !Hp.
  repeat match goal with
  | |- context [String.eqb name ?x] => destruct (String.eqb_spec name x) as [->|?]; [reflexivity|]
  end.
  done.
Qed.

Lemma step_vars_apart name outputs : last_value ("trigger_" +:+ name) (step_vars outputs) = None.
Proof.
  apply last_value_spec. intros v. split; [|done]. intros Hin. unfold step_vars in Hin.
  apply list_elem_of_bind in Hin as ([i o] & Hin & _). cbn in Hin. destruct o; try by apply not_elem_of_nil in Hin.
  apply list_elem_of_fmap in Hin as ([f x] & Heq & _). done.
Qed.

Lemma get_field_webhook ctx name :
  existsb (String.eqb name) standard_fields = false -> get_field ctx name = webhook_fields ctx !! name.
Proof.
  cbn. unfold get_field. repeat (intros [-> Hx]%orb_false_iff; revert Hx). done.
Qed.
Lemma standard_not_reserved name :
  existsb (String.eqb name) standard_fields = true -> is_reserved name = false.
Proof.
  cbn. repeat (intros [Hn|Hx]%orb_true_iff; [apply String.eqb_eq in Hn as ->; done|revert Hx]). done.
Qed.

(** A condition sees of the event what a template sees: the author and the other
    standard fields are those of the event itself, whatever a webhook body or an
    earlier step is called; any other field is the webhook's, unless its name
    could be taken for a variable. Without outputs of steps the context is always
    built. *)
Theorem conditions_read_the_event ctx outputs :
  (forall c, build_eval_context ctx outputs = Ok c ->
     forall name, ctx_get c ("trigger_" +:+ name)%string
       = if is_reserved name then None else EVString <$> get_field ctx name)
  /\ is_ok (build_eval_context ctx ∅) = true.
Proof.
  destruct (ctx_set_function_get ctx_new "str_contains" eval_str_contains) as (c1 & E1 & G1).
  destruct (ctx_set_function_get c1 "str_starts_with" eval_str_starts_with) as (c2 & E2 & G2).
  destruct (ctx_set_function_get c2 "str_ends_with" eval_str_ends_with) as (c3 & E3 & G3).
  destruct (ctx_set_function_get c3 "str_len" eval_str_len) as (c4 & E4 & G4).
  unfold build_eval_context. rewrite E1. cbn [rbind]. rewrite E2. cbn [rbind]. rewrite E3. cbn [rbind].
  rewrite E4. cbn [rbind]. assert (forall k, ctx_get c4 k = None) as H4.
  { intros k. rewrite G4, G3, G2, G1. apply ctx_new_empty. }
  split.
  - intros c Hc name. destruct (set_values (webhook_vars ctx) c4) as [c5|] eqn:E5; [|done]. cbn [rbind] in Hc.
    destruct (set_values (trigger_vars ctx) c5) as [c6|] eqn:E6; [|done]. cbn [rbind] in Hc.
    destruct (set_values (step_vars outputs) c6) as [c7|] eqn:E7; [|done]. injection Hc as ->.
    rewrite (set_values_get _ _ _ E7), step_vars_apart, (set_values_get _ _ _ E6), trigger_vars_spec.
    destruct (existsb (String.eqb name) standard_fields) eqn:Hstd.
    + rewrite (standard_not_reserved name) by done. unfold get_field.
      revert Hstd. cbn. repeat case_match; done.
    + rewrite get_field_webhook by done. rewrite (set_values_get _ _ _ E5), H4.
      erewrite (last_value_spec _ _ (if is_reserved name then None else EVString <$> webhook_fields ctx !! name)).
      { by repeat case_match. }
      intros v. rewrite webhook_vars_spec. destruct (is_reserved name); naive_solver.
  - destruct (set_values_text (webhook_vars ctx) c4) as (c5 & -> & T5).
    { intros k v Hk. by rewrite H4 in Hk. }
    { apply Forall_elem. intros [k v] Hin. unfold webhook_vars in Hin. apply elem_of_filter_map in Hin as ([i s] & _ & Hk).
      cbn in Hk. destruct (is_reserved i); [done|]. by injection Hk as <- <-. }
    cbn [rbind]. destruct (set_values_text (trigger_vars ctx) c5) as (c6 & -> & T6); [done|by repeat constructor|].
    cbn [rbind]. assert (step_vars ∅ = []) as ->; [|done]. unfold step_vars.
    assert (hash_iter (∅ : gmap string Json) = []) as ->; [|done].
    apply Permutation_nil_r. by rewrite hash_iter_all, map_to_list_empty.
Qed.
End ConditionFacts.

(** ** Definitions that were accepted *)

Lemma parse_duration_range d secs : parse_duration_secs d = Ok secs -> 0 <= secs <= u64_max.
Proof.
  assert (forall n k x, match parse_uint u64_max n with Some m => checked_mul64 m k | None => None end = Some x ->
            0 <= k -> 0 <= x <= u64_max) as Hmul.
  { intros n k x. destruct (parse_uint u64_max n) as [m|] eqn:Hm; [|done]. apply parse_uint_range in Hm.
    unfold checked_mul64. destruct (Z.leb_spec (m * k) u64_max); [|done]. intros [= <-] Hk. nia. }
  unfold parse_duration_secs. generalize (trim d). clear d. intros d.
  destruct (strip_last "h" d) as [n|].
  { intros Hd. apply (Hmul (trim n) 3600); [|done]. revert Hd. destruct (parse_uint _ _); [|done]. cbn.
    by destruct (checked_mul64 _ _); [intros [= ->]|]. }
  destruct (strip_last "m" d) as [n|].
  { intros Hd. apply (Hmul (trim n) 60); [|done]. revert Hd. destruct (parse_uint _ _); [|done]. cbn.
    by destruct (checked_mul64 _ _); [intros [= ->]|]. }
  destruct (strip_last "s" d) as [n|]; intros Hd%ok_or_ok; by apply parse_uint_range in Hd.
Qed.

Lemma check_step_ids_ok seen l : check_step_ids seen l = Ok tt ->
  NoDup (step_id <$> l) /\ Forall (fun s => valid_step_id (step_id s) = true /\ step_id s ∉ seen) l.
Proof.
  revert seen. induction l as [|s l IH]; intros seen; cbn [check_step_ids]; [repeat constructor|].
  destruct (str_is_empty _); [done|]. destruct (valid_step_id (step_id s)) eqn:Hv; [|done].
  destruct (existsb _ seen) eqn:Hs; [done|]. cbn [negb]. intros (Hnd & Hall)%IH.
  assert (step_id s ∉ seen) as Hnot.
  { intros Hin. rewrite existsb_false in Hs. specialize (Hs _ Hin). by rewrite String.eqb_refl in Hs. }
  rewrite Forall_elem in Hall. split.
  - cbn. constructor; [|done]. intros (x & Heq & Hx)%list_elem_of_fmap. destruct (Hall x Hx) as [_ Hn].
    apply Hn. rewrite <- Heq. left.
  - apply Forall_elem. intros x [->|Hx]%elem_of_cons; [done|]. destruct (Hall x Hx) as [? Hn].
    split; [done|]. intros Hin. apply Hn. by right.
Qed.

(** What [validate] lets through: steps whose identifiers are names of variables
    and differ, and a schedule the scheduler can follow. *)
Theorem validated_definitions `{WorkflowLib} def : validate def = Ok tt ->
  steps def <> [] /\ NoDup (step_id <$> steps def)
  /\ Forall (fun s => valid_step_id (step_id s) = true) (steps def)
  /\ match trigger def with
     | Schedule (Some expr) None => is_ok (cron_parse (normalize_cron expr)) = true
     | Schedule None (Some dur) => exists secs, parse_duration_secs dur = Ok secs /\ 60 <= secs <= u64_max
     | Schedule _ _ => False
     | _ => True
     end.
Proof.
  unfold validate. destruct (str_is_empty _); [done|]. case_bool_decide as Hlen; [done|].
  destruct (check_step_ids [] (steps def)) as [[]|] eqn:Hids; [|done]. cbn [rbind].
  apply check_step_ids_ok in Hids as [Hnd Hall]. intros Ht. split_and!; [by intros Hn; rewrite Hn in Hlen|done| |].
  { eapply list.Forall_impl; [exact Hall|]. by intros x []. }
  destruct (trigger def) as [| | |[expr|] [dur|]|]; try done; cbn in Ht.
  - unfold validate_cron in Ht. by destruct (cron_parse _).
  - destruct (parse_duration_secs dur) as [secs|] eqn:Hd; [|done]. cbn in Ht.
    destruct (Z.ltb_spec secs 60); [done|]. exists secs. apply parse_duration_range in Hd. split; [done|lia].
Qed.

(** ** Secrets and destinations *)

Lemma xor_fold_zero a b acc : str_len a = str_len b -> 0 <= acc ->
  (xor_fold acc a b = 0 <-> acc = 0 /\ a = b).
Proof.
  assert (forall x, 0 <= code x) as Hc by (intros x; unfold code; lia).
  revert b acc. induction a as [|c a IH]; intros [|d b] acc Hl Hacc; unfold str_len in Hl; cbn in *; try lia.
  - naive_solver.
  - rewrite IH; [|unfold str_len; lia|].
    + rewrite Z.lor_eq_0_iff, Z.lxor_eq_0_iff. split.
      * intros [[-> Hcd] ->]. split; [done|]. f_equal. unfold code in Hcd. apply N2Z.inj in Hcd.
        by rewrite <- (ascii_N_embedding c), <- (ascii_N_embedding d), Hcd.
      * by intros [-> [= -> ->]].
    + apply Z.lor_nonneg. split; [done|]. apply Z.lxor_nonneg. split; auto.
Qed.

(** The comparison in constant time accepts the stored secret only. *)
Theorem verify_secret_spec provided stored : verify_secret provided stored = true <-> provided = stored.
Proof.
  unfold verify_secret. destruct (Z.eqb_spec (str_len provided) (str_len stored)) as [Hl|Hl]; cbn.
  - rewrite Z.eqb_eq, xor_fold_zero by done. naive_solver.
  - split; [done|]. by intros ->.
Qed.

(** A message never leaves the channel of its workflow. *)
Lemma message_stays_in_channel `{WorkflowLib} explicit trig own c :
  resolve_send_message_channel explicit trig (Some own) = Ok c -> c = own.
Proof.
  unfold resolve_send_message_channel. destruct (_ ≫= _) as [e|]; cbn; [|by intros [= <-]].
  destruct (uuid_from_text e) as [u|]; cbn; [|done]. destruct (String.eqb_spec u own); cbn; [|done].
  by intros [= <-].
Qed.

(** A webhook is sent to an address that was found public, as all addresses of its
    host were. *)
Lemma webhook_request_public web url method headers body req :
  webhook_request web url method headers body = Ok req ->
  wr_url req = url /\ is_private_ip (wr_pinned req) = false
  /\ exists addrs, web_resolve web (wr_host req) (wr_port req) = Ok addrs
       /\ wr_pinned req ∈ addrs /\ Forall (fun ip => is_private_ip ip = false) addrs.
Proof.
  unfold webhook_request. intros Hr. destruct (web_url web url) as [parsed|]; [|done]. cbn in Hr.
  destruct (fst parsed) as [host|]; [|done]. cbn in Hr. unfold check_ssrf in Hr.
  destruct (web_resolve web host _) as [addrs|] eqn:Ha; [|done]. cbn [map_err rbind] in Hr.
  destruct addrs as [|first addrs]; [done|]. destruct (existsb _ _) eqn:Hp; [done|]. cbn [rbind] in Hr.
  destruct (web_method web method); [|done]. cbn in Hr. injection Hr as <-. cbn.
  rewrite existsb_false in Hp. split_and!; [done|apply Hp; left|]. exists (first :: addrs).
  split_and!; [done|left|]. apply Forall_elem. exact Hp.
Qed.
