(* ===== verification/WorkflowRuns.v ===== *)
(** * Workflow runs: the tables, the executor, the doors that start a run

    [crates/buzz-db/src/workflow.rs] (with the tables of the schema and the write
    fence of migration 0059), the executor of [crates/buzz-workflow/src/executor.rs]
    and the engine of [lib.rs], with the two routes of the relay that start a run:
    [handle_workflow_trigger] of [command_executor.rs] and [workflow_webhook] of
    [api/bridge.rs]. Keys are hexadecimal, identifiers the texts of their [Uuid],
    instants nanoseconds. A handler is a run of statements, as in [Credits]. *)

From Stdlib Require Import ZArith Lia Ascii.
From stdpp Require Import base gmap list strings numbers.
From S2P Require Import Prelude MachineInt RustStr Json Event Credits Resolver GatewayAuth Network Workflow.
Local Open Scope Z_scope.
Local Open Scope colony_scope.

(** ** The tables *)

Inductive WorkflowStatus := WfActive | WfDisabled | WfArchived.
#[export] Instance WorkflowStatus_eq_dec : EqDecision WorkflowStatus.
Proof. solve_decision. Defined.
Inductive RunStatus := RunPending | RunRunning | RunWaitingApproval | RunCompleted | RunFailed | RunCancelled.
#[export] Instance RunStatus_eq_dec : EqDecision RunStatus.
Proof. solve_decision. Defined.

(** Rows of [workflows], [workflow_runs] and [scheduled_workflow_fires], which
    their primary keys key. *)
Record WorkflowRow := {
  row_name : string;
  row_owner : string;
  row_channel : option string;
  row_definition : Json;
  row_hash : string;
  row_status : WorkflowStatus;
  row_enabled : bool;
  row_created_at : Z;
  row_updated_at : Z;
}.
Record RunRow := {
  run_workflow : string;
  run_status : RunStatus;
  run_event : option string;
  current_step : Z;
  execution_trace : list Json;
  run_context : option TriggerContext;
  run_started_at : option Z;
  run_completed_at : option Z;
  error_message : option string;
  run_created_at : Z;
}.
Record FireRow := { claimed_at : Z; fire_run : option string }.

(** A community and an identifier in it; a fire also names its instant. *)
Definition RowKey : Type := string * string.
Definition Instant : Type := RowKey * Z.

(** [member_roles] is what [get_member_role] reads: active members of channels
    that are not deleted. [fenced] are the communities whose writes are fenced,
    [archived_communities] those with [archived_at]. *)
Record Flows := {
  workflows : gmap RowKey WorkflowRow;
  runs : gmap RowKey RunRow;
  fires : gmap Instant FireRow;
  live_channels : gset RowKey;
  member_roles : gmap (RowKey * string) string;
  fenced : gset string;
  archived_communities : gset string;
}.
Definition with_workflows (m : gmap RowKey WorkflowRow) (s : Flows) : Flows := {|
  workflows := m; runs := runs s; fires := fires s; live_channels := live_channels s;
  member_roles := member_roles s; fenced := fenced s; archived_communities := archived_communities s |}.
Definition with_runs (m : gmap RowKey RunRow) (s : Flows) : Flows := {|
  workflows := workflows s; runs := m; fires := fires s; live_channels := live_channels s;
  member_roles := member_roles s; fenced := fenced s; archived_communities := archived_communities s |}.
Definition with_fires (m : gmap Instant FireRow) (s : Flows) : Flows := {|
  workflows := workflows s; runs := runs s; fires := m; live_channels := live_channels s;
  member_roles := member_roles s; fenced := fenced s; archived_communities := archived_communities s |}.

(** The trigger [enforce_community_write_fence], for a caller without a lease. *)
Definition flow_fence (community : string) (s : Flows) : Result unit DbError :=
  if bool_decide (community ∈ fenced s) then Err Sqlx else Ok tt.

(** ** Statements on workflows *)

Definition LIST_MAX_LIMIT : nat := 1000.

(** The constraints of the table, those on users apart: the relay stores the user
    first. *)
Definition workflow_row_ok (community : string) (row : WorkflowRow) (s : Flows) : bool :=
  (chars_count (row_name row) <=? 255)
  && match row_channel row with Some ch => bool_decide ((community, ch) ∈ live_channels s) | None => true end.

(** [upsert_workflow]. *)
Definition upsert_workflow_tx (now : Z) (community id : string) (channel : option string)
    (owner name : string) (definition : Json) (hash : string) (s : Flows) : Result (Flows * unit) DbError :=
  let? _ := flow_fence community s in
  let fresh := {| row_name := name; row_owner := owner; row_channel := channel; row_definition := definition;
                  row_hash := hash; row_status := WfActive; row_enabled := true; row_created_at := now;
                  row_updated_at := now |} in
  fail_if negb (workflow_row_ok community fresh s) with Sqlx;
  match workflows s !! (community, id) with
  | None => Ok (with_workflows (<[(community, id) := fresh]> (workflows s)) s, tt)
  | Some row =>
      fail_if negb (String.eqb (row_owner row) owner && bool_decide (row_channel row = channel)) with
        AccessDenied ("workflow " +:+ id +:+ " belongs to a different owner or channel");
      let row := {| row_name := name; row_owner := row_owner row; row_channel := row_channel row;
                    row_definition := definition; row_hash := hash; row_status := row_status row;
                    row_enabled := row_enabled row; row_created_at := row_created_at row;
                    row_updated_at := now |} in
      Ok (with_workflows (<[(community, id) := row]> (workflows s)) s, tt)
  end.

(** [get_workflow]. *)
Definition get_workflow (community id : string) (s : Flows) : Result WorkflowRow DbError :=
  ok_or (workflows s !! (community, id)) (NotFound ("workflow " +:+ id)).

Definition may_fire (row : WorkflowRow) : bool := bool_decide (row_status row = WfActive) && row_enabled row.
(** [list_enabled_channel_workflows]: newest first. *)
Definition list_enabled_channel_workflows (community channel : string) (s : Flows)
    : Result (list (string * WorkflowRow)) DbError :=
  let wanted := filter_map (fun kr =>
    if String.eqb (fst (fst kr)) community && bool_decide (row_channel (snd kr) = Some channel)
       && may_fire (snd kr)
    then Some (snd (fst kr), snd kr) else None) (map_to_list (workflows s)) in
  Ok (firstn LIST_MAX_LIMIT
        (sort_by (fun a b => row_created_at (snd b) <=? row_created_at (snd a)) wanted)).

(** [definition->'trigger'->>'on' = 'schedule']. *)
Definition is_scheduled (definition : Json) : bool :=
  bool_decide ((t ← jget definition "trigger"; get_str t "on") = Some "schedule"%string).
(** [list_all_enabled_workflows]: oldest first. *)
Definition list_all_enabled_workflows (s : Flows) : Result (list (RowKey * WorkflowRow)) DbError :=
  let wanted := List.filter (fun kr : RowKey * WorkflowRow => may_fire (snd kr) && is_scheduled (row_definition (snd kr))
    && negb (bool_decide (fst (fst kr) ∈ archived_communities s))) (map_to_list (workflows s)) in
  Ok (firstn LIST_MAX_LIMIT (sort_by (fun a b => row_created_at (snd a) <=? row_created_at (snd b)) wanted)).

(** [disable_workflows_for_owner_in_channel]: how many there were. *)
Definition departs (community channel owner : string) (key : RowKey) (row : WorkflowRow) : bool :=
  String.eqb (fst key) community && bool_decide (row_channel row = Some channel)
  && String.eqb (row_owner row) owner && row_enabled row.
Definition disabled_row (row : WorkflowRow) : WorkflowRow := {|
  row_name := row_name row; row_owner := row_owner row; row_channel := row_channel row;
  row_definition := row_definition row; row_hash := row_hash row; row_status := row_status row;
  row_enabled := false; row_created_at := row_created_at row; row_updated_at := row_updated_at row |}.
Definition disable_workflows_tx (community channel owner : string) (s : Flows) : Result (Flows * Z) DbError :=
  let leaving := length (List.filter (fun kr : RowKey * WorkflowRow => departs community channel owner (fst kr) (snd kr))
                           (map_to_list (workflows s))) in
  let? _ := if bool_decide (leaving = 0%nat) then Ok tt else flow_fence community s in
  Ok (with_workflows
        (map_imap (fun key row => Some (if departs community channel owner key row then disabled_row row else row))
           (workflows s)) s, Z.of_nat leaving).

(** [delete_workflow_for_owner], with the rows that go with the workflow. *)
Definition delete_workflow_tx (community id owner : string) (s : Flows) : Result (Flows * option string) DbError :=
  match workflows s !! (community, id) with
  | Some row =>
      fail_if negb (String.eqb (row_owner row) owner) with NotFound ("workflow " +:+ id);
      let? _ := flow_fence community s in
      Ok (with_fires (filter (fun kf : Instant * FireRow => kf.1.1 <> (community, id)) (fires s))
           (with_runs (filter (fun kr : RowKey * RunRow => kr.1.1 <> community \/ run_workflow kr.2 <> id) (runs s))
             (with_workflows (delete (community, id) (workflows s)) s)), row_channel row)
  | None => Err (NotFound ("workflow " +:+ id))
  end.

(** [get_member_role]. *)
Definition get_member_role (community channel pk : string) (s : Flows) : Result (option string) DbError :=
  Ok (member_roles s !! ((community, channel), pk)).

(** ** Statements on runs and fires *)

(** [create_workflow_run]; [id] is the random one. *)
Definition create_workflow_run_tx (now : Z) (id community workflow : string) (event : option string)
    (ctx : option TriggerContext) (s : Flows) : Result (Flows * string) DbError :=
  let? _ := flow_fence community s in
  fail_if is_some (runs s !! (community, id)) with Sqlx;
  fail_if negb (is_some (workflows s !! (community, workflow))) with Sqlx;
  let row := {| run_workflow := workflow; run_status := RunPending; run_event := event; current_step := 0;
                execution_trace := []; run_context := ctx; run_started_at := None; run_completed_at := None;
                error_message := None; run_created_at := now |} in
  Ok (with_runs (<[(community, id) := row]> (runs s)) s, id).
Definition create_workflow_run (id community workflow : string) (event : option string)
    (ctx : option TriggerContext) (fault : DbFault) (now : Z) (s : Flows) : Result string DbError * Flows :=
  run_tx Sqlx fault (create_workflow_run_tx now id community workflow event ctx) s.

(** [get_workflow_run]. *)
Definition get_workflow_run (community id : string) (s : Flows) : Result RunRow DbError :=
  ok_or (runs s !! (community, id)) (NotFound ("workflow_run " +:+ id)).

(** [update_workflow_run]. *)
Definition run_over (status : RunStatus) : bool :=
  match status with RunCompleted | RunFailed | RunCancelled => true | _ => false end.
Definition update_workflow_run_tx (now : Z) (community id : string) (status : RunStatus) (step : Z)
    (trace : list Json) (error : option string) (s : Flows) : Result (Flows * unit) DbError :=
  match runs s !! (community, id) with
  | None => Err (NotFound ("workflow_run " +:+ id))
  | Some row =>
      let? _ := flow_fence community s in
      let row := {|
        run_workflow := run_workflow row; run_status := status; run_event := run_event row;
        current_step := step; execution_trace := trace; run_context := run_context row;
        run_started_at := if bool_decide (status = RunRunning) && negb (is_some (run_started_at row))
                          then Some now else run_started_at row;
        run_completed_at := if run_over status then Some now else run_completed_at row;
        error_message := error; run_created_at := run_created_at row |} in
      Ok (with_runs (<[(community, id) := row]> (runs s)) s, tt)
  end.
Definition update_workflow_run (community id : string) (status : RunStatus) (step : Z) (trace : list Json)
    (error : option string) (fault : DbFault) (now : Z) (s : Flows) : Result unit DbError * Flows :=
  run_tx Sqlx fault (update_workflow_run_tx now community id status step trace error) s.

(** [claim_scheduled_workflow_fire]: whether this caller won. *)
Definition claim_fire_tx (now : Z) (key : RowKey) (at_ : Z) (s : Flows) : Result (Flows * bool) DbError :=
  match workflows s !! key with
  | None => Ok (s, false)
  | Some _ =>
      let? _ := flow_fence (fst key) s in
      match fires s !! (key, at_) with
      | Some _ => Ok (s, false)
      | None => Ok (with_fires (<[(key, at_) := {| claimed_at := now; fire_run := None |}]> (fires s)) s, true)
      end
  end.
Definition claim_scheduled_workflow_fire (key : RowKey) (at_ : Z) (fault : DbFault) (now : Z) (s : Flows)
    : Result bool DbError * Flows :=
  run_tx Sqlx fault (claim_fire_tx now key at_) s.

(** [latest_scheduled_workflow_fire]. *)
Definition latest_scheduled_workflow_fire (key : RowKey) (s : Flows) : Result (option Z) DbError :=
  Ok (foldr (fun (kf : Instant * FireRow) acc =>
        if bool_decide (kf.1.1 = key) then Some (Z.max kf.1.2 (default kf.1.2 acc)) else acc)
      None (map_to_list (fires s))).

(** [attach_scheduled_workflow_run]. *)
Definition attach_run_tx (key : RowKey) (at_ : Z) (run : string) (s : Flows) : Result (Flows * bool) DbError :=
  match fires s !! (key, at_) with
  | Some {| claimed_at := c; fire_run := None |} =>
      let? _ := flow_fence (fst key) s in
      fail_if negb (is_some (runs s !! (fst key, run))) with Sqlx;
      Ok (with_fires (<[(key, at_) := {| claimed_at := c; fire_run := Some run |}]> (fires s)) s, true)
  | _ => Ok (s, false)
  end.
Definition attach_scheduled_workflow_run (key : RowKey) (at_ : Z) (run : string) (fault : DbFault) (now : Z)
    (s : Flows) : Result bool DbError * Flows :=
  run_tx Sqlx fault (attach_run_tx key at_ run) s.

(** [prune_scheduled_workflow_fires_before]. *)
Definition prune_fires_tx (older_than : Z) (s : Flows) : Result (Flows * Z) DbError :=
  let stays (kf : Instant * FireRow) := older_than <= claimed_at kf.2 \/ kf.1.1.1 ∈ fenced s in
  let kept := filter stays (fires s) in
  Ok (with_fires kept s, Z.of_nat (size (fires s)) - Z.of_nat (size kept)).

(** ** Dispatch of one step *)

Inductive StepResult := Completed (output : Json) | Suspended (approval_token : string) | Skipped.

(** What leaves the engine. *)
Inductive Effect :=
| Posted (community channel text author : string)
| Reacted (message_id emoji : string)
| Requested (req : WebhookRequest).

(** The lease on the community's writes: refused, lost before the action, lost
    during it or just after, not given back, or held throughout. *)
Inductive Lease := LeaseRefused (e : string) | LeaseLost (e : string) | LeaseLostDuring (e : string)
| LeaseStuck (e : string) | LeaseHeld.

(** The world during a step: how its condition's evaluation does, its lease,
    whether its timer goes off (and then whether the action had got out), the
    tables as they stand and whether they can be read, what the action sink, the
    relay's reaction route (the HTTP status and text) and the network answer, and
    the random token. *)
Record StepWeather := {
  sw_mood : EvalMood;
  sw_lease : Lease;
  sw_timer : option bool;
  sw_tables : Flows;
  sw_db : bool;
  sw_sink : option (Result string string);
  sw_reaction : Result (Z * string) string;
  sw_web : Web;
  sw_token : string;
}.

(** The texts of errors; those of the driver are left out. *)
Definition db_error_text (e : DbError) : string :=
  match e with
  | Sqlx => "database error"
  | InvalidAmount m => "invalid amount: " +:+ m
  | InvalidData m => "invalid data: " +:+ m
  | NotFound m => "not found: " +:+ m
  | AccessDenied m => "access denied: " +:+ m
  end.
Definition error_text (e : WorkflowError) : string :=
  match e with
  | InvalidYaml m => "invalid YAML: " +:+ m
  | InvalidDefinition m => "invalid definition: " +:+ m
  | ConditionError m => "condition evaluation error: " +:+ m
  | TemplateError m => "template error: " +:+ m
  | StepTimeout id secs => "step '" +:+ id +:+ "' timed out after " +:+ dec secs +:+ "s"
  | WebhookError m => "webhook error: " +:+ m
  | CapacityExceeded => "capacity exceeded"
  | DatabaseError m => "database error: " +:+ m
  | Unauthorized m => "unauthorized: " +:+ m
  | NotImplemented m => "action not implemented: " +:+ m
  end.

Definition MAX_DELAY_SECS : Z := 270.

Section Executor.
Context `{WorkflowLib, JsonLib}.

(** [add_reaction_impl], the answer to its request given. *)
Definition add_reaction_impl (message_id : string) (answer : Result (Z * string) string)
    : Result Json WorkflowError :=
  match answer with
  | Err e => Err (WebhookError ("AddReaction HTTP error: " +:+ e))
  | Ok (status, body) =>
      fail_if negb ((200 <=? status) && (status <=? 299)) with WebhookError
        ("AddReaction: relay returned " +:+ dec status +:+ " for message " +:+ message_id +:+ ": " +:+ body);
      let response := default (json_object [("raw"%string, JString body)]) (json_from_str body) in
      Ok (json_object [("added", JBool true); ("status", JInt status); ("response", response)]%string)
  end.

(** The action itself, inside the lease: its answer and what it lets out. *)
Definition perform (w : StepWeather) (community run : string) (ctx : TriggerContext) (a : ActionDef)
    : Result StepResult WorkflowError * list Effect :=
  match a with
  | SendMessage text channel =>
      let target :=
        let? row := map_err (fun e => WebhookError ("SendMessage: failed to load workflow run " +:+ run +:+ ": " +:+ db_error_text e))
          (if sw_db w then get_workflow_run community run (sw_tables w) else Err Sqlx) in
        let? wf := map_err (fun e => WebhookError ("SendMessage: failed to load workflow " +:+ run_workflow row +:+ ": " +:+ db_error_text e))
          (if sw_db w then get_workflow community (run_workflow row) (sw_tables w) else Err Sqlx) in
        let? channel := resolve_send_message_channel channel (ctx_channel_id ctx) (row_channel wf) in
        Ok (channel, row_owner wf) in
      match target with
      | Err e => (Err e, [])
      | Ok (channel, author) =>
          match sw_sink w with
          | None => (Err (InvalidDefinition "action_sink not initialized — call set_action_sink() before executing workflows"), [])
          | Some answer =>
              (let? event_id := map_err WebhookError answer in
               Ok (Completed (json_object [("sent", JBool true); ("event_id", JString event_id)]%string)),
               [Posted community channel text author])
          end
      end
  | SendDm _ _ => (Err (NotImplemented "SendDm"), [])
  | SetChannelTopic _ => (Err (NotImplemented "SetChannelTopic"), [])
  | AddReaction emoji =>
      if str_is_empty (ctx_message_id ctx)
      then (Err (InvalidDefinition "AddReaction: no trigger.message_id available"), [])
      else (let? result := add_reaction_impl (ctx_message_id ctx) (sw_reaction w) in Ok (Completed result),
            [Reacted (ctx_message_id ctx) emoji])
  | CallWebhook url method headers body =>
      match webhook_request (sw_web w) url (default "POST"%string method) headers body with
      | Err e => (Err e, [])
      | Ok req => (let? result := webhook_response (sw_web w) req in Ok (Completed result), [Requested req])
      end
  | RequestApproval _ _ _ => (Ok (Suspended (sw_token w)), [])
  | Delay duration =>
      (let? secs := parse_duration_secs duration in
       fail_if MAX_DELAY_SECS <? secs with InvalidDefinition
         ("delay exceeds maximum of 270 seconds (got " +:+ dec secs
          +:+ "s); use the scheduled resume pattern for long delays");
       Ok (Completed (json_object [("slept_secs"%string, JInt secs)])), [])
  end.

(** [dispatch_action]. *)
Definition dispatch_action (w : StepWeather) (community run : string) (ctx : TriggerContext) (a : ActionDef)
    : Result StepResult WorkflowError * list Effect :=
  match sw_lease w with
  | LeaseRefused e => (Err (WebhookError ("community write fence rejected workflow side effect: " +:+ e)), [])
  | LeaseLost e => (Err (WebhookError ("community write lease lost: " +:+ e)), [])
  | LeaseLostDuring e =>
      (Err (WebhookError ("community write lease lost: " +:+ e)), (perform w community run ctx a).2)
  | LeaseStuck e =>
      let '(r, effects) := perform w community run ctx a in
      (let? _ := r in Err (WebhookError ("community write lease release failed: " +:+ e)), effects)
  | LeaseHeld => perform w community run ctx a
  end.

(** ** A run *)

Record WorkflowConfig := { max_concurrent : Z; default_timeout_secs : Z }.
Record PartialProgress := { failed_index : nat; failed_trace : list Json }.
Definition no_progress : PartialProgress := {| failed_index := 0; failed_trace := [] |}.
Record ExecutionResult := {
  approval_token : option string;
  step_index : nat;
  step_outputs : gmap string Json;
  exec_trace : list Json;
}.

Definition trace_skipped (step : Step) : Json :=
  json_object [("step_id", JString (step_id step)); ("status", JString "skipped")]%string.
Definition trace_completed (step : Step) (output : Json) : Json :=
  json_object [("step_id", JString (step_id step)); ("status", JString "completed"); ("output", output)]%string.

(** Whether the step is to run. *)
Definition step_runs (mood : EvalMood) (step : Step) (ctx : TriggerContext) (outputs : gmap string Json)
    : Result bool WorkflowError :=
  match if_expr step with Some expr => evaluate_condition mood expr ctx outputs | None => Ok true end.

(** [tokio::time::timeout] around the dispatch. *)
Definition timed_dispatch (config : WorkflowConfig) (w : StepWeather) (community run : string) (step : Step)
    (ctx : TriggerContext) (a : ActionDef) : Result StepResult WorkflowError * list Effect :=
  match sw_timer w with
  | None => dispatch_action w community run ctx a
  | Some got_out =>
      (Err (StepTimeout (step_id step) (default (default_timeout_secs config) (timeout_secs step))),
       if got_out : bool then (dispatch_action w community run ctx a).2 else [])
  end.

(** The loop of [execute_steps] from the step of index [i]. *)
Fixpoint run_steps (config : WorkflowConfig) (weather : nat -> StepWeather) (community run : string)
    (ctx : TriggerContext) (start i : nat) (l : list Step) (outputs : gmap string Json) (trace : list Json)
    : Result ExecutionResult (WorkflowError * PartialProgress) * list Effect :=
  match l with
  | [] => (Ok {| approval_token := None; step_index := i; step_outputs := outputs; exec_trace := trace |}, [])
  | step :: l =>
      if (i <? start)%nat then run_steps config weather community run ctx start (S i) l outputs trace
      else
        let failed e := Err (e, {| failed_index := i; failed_trace := trace |}) in
        match step_runs (sw_mood (weather i)) step ctx outputs with
        | Err e => (failed e, [])
        | Ok false =>
            run_steps config weather community run ctx start (S i) l outputs (trace ++ [trace_skipped step])
        | Ok true =>
            match resolve_step_templates step ctx outputs with
            | Err e => (failed e, [])
            | Ok a =>
                let '(result, effects) := timed_dispatch config (weather i) community run step ctx a in
                match result with
                | Err e => (failed e, effects)
                | Ok (Completed output) =>
                    let '(r, later) := run_steps config weather community run ctx start (S i) l
                      (<[step_id step := output]> outputs) (trace ++ [trace_completed step output]) in
                    (r, effects ++ later)
                | Ok (Suspended token) =>
                    (Ok {| approval_token := Some token; step_index := i; step_outputs := outputs;
                           exec_trace := trace |}, effects)
                | Ok Skipped =>
                    let '(r, later) := run_steps config weather community run ctx start (S i) l outputs
                      (trace ++ [trace_skipped step]) in
                    (r, effects ++ later)
                end
            end
        end
  end.
(** [execute_steps]. *)
Definition execute_steps (config : WorkflowConfig) (weather : nat -> StepWeather) (community run : string)
    (def : WorkflowDef) (ctx : TriggerContext) (start : nat) (initial : option (gmap string Json))
    : Result ExecutionResult (WorkflowError * PartialProgress) * list Effect :=
  run_steps config weather community run ctx start 0 (steps def) (default ∅ initial) [].

(** [step_index as i32]. *)
Definition as_i32 (n : nat) : Z := (Z.of_nat n + 2 ^ 31) mod 2 ^ 32 - 2 ^ 31.

(** [execute_from_step], which [execute_run] is for the first step; [permit] is
    the answer of the semaphore. *)
Definition execute_from_step (config : WorkflowConfig) (permit : bool) (weather : nat -> StepWeather)
    (community run : string) (def : WorkflowDef) (ctx : TriggerContext) (start : nat)
    (initial : option (gmap string Json))
    : DbOf Flows (Result ExecutionResult (WorkflowError * PartialProgress) * list Effect) :=
  if negb permit then db_ret (Ok (Err (CapacityExceeded, no_progress), []))
  else
    db! found := recover (query (get_workflow_run community run)) in
    let existing := match found with Ok row => execution_trace row | Err _ => [] end in
    db! marked := recover (stmt (update_workflow_run community run RunRunning (as_i32 start) existing None)) in
    db_ret (Ok match marked with
               | Err e => (Err (DatabaseError (db_error_text e), no_progress), [])
               | Ok _ => execute_steps config weather community run def ctx start initial
               end).
(** [execute_run]. *)
Definition execute_run (config : WorkflowConfig) (permit : bool) (weather : nat -> StepWeather)
    (community run : string) (def : WorkflowDef) (ctx : TriggerContext)
    : DbOf Flows (Result ExecutionResult (WorkflowError * PartialProgress) * list Effect) :=
  if negb permit then db_ret (Ok (Err (CapacityExceeded, no_progress), []))
  else
    db! marked := recover (stmt (update_workflow_run community run RunRunning 0 [] None)) in
    db_ret (Ok match marked with
               | Err e => (Err (DatabaseError (db_error_text e), no_progress), [])
               | Ok _ => execute_steps config weather community run def ctx 0 None
               end).

(** How [finalize_run] writes a result: status, step, trace, error. *)
Definition final_row (result : Result ExecutionResult (WorkflowError * PartialProgress)) (prefix : list Json)
    : RunStatus * Z * list Json * option string :=
  match result with
  | Ok r =>
      let trace := prefix ++ exec_trace r in
      if is_some (approval_token r)
      then (RunFailed, as_i32 (step_index r), trace, Some "approval gates not yet implemented — see WF-08"%string)
      else (RunCompleted, as_i32 (step_index r), trace, None)
  | Err (e, progress) =>
      (RunFailed, as_i32 (failed_index progress), prefix ++ failed_trace progress, Some (error_text e))
  end.
(** [finalize_run]: a write that fails is only logged. *)
Definition finalize_run (community run : string)
    (result : Result ExecutionResult (WorkflowError * PartialProgress)) (existing : option (list Json))
    : DbOf Flows unit :=
  let '(status, step, trace, error) := final_row result (default [] existing) in
  db! _ := recover (stmt (update_workflow_run community run status step trace error)) in
  db_ret (Ok tt).

(** The task an event or the scheduler spawns for a run. *)
Definition run_task (config : WorkflowConfig) (permit : bool) (weather : nat -> StepWeather)
    (community run : string) (def : WorkflowDef) (ctx : TriggerContext) : DbOf Flows (list Effect) :=
  db! done := execute_run config permit weather community run def ctx in
  db! _ := finalize_run community run (fst done) None in
  db_ret (Ok (snd done)).
End Executor.

(** ** What fires a workflow *)

Definition KIND_REACTION : Z := 7.
Definition KIND_STREAM_MESSAGE_DIFF : Z := 40008.
Definition KIND_WORKFLOW_TRIGGERED : Z := 46001.
Definition KIND_WORKFLOW_APPROVAL_DENIED : Z := 46012.
(** [is_workflow_execution_kind]. *)
Definition is_workflow_execution_kind (kind : Z) : bool :=
  (KIND_WORKFLOW_TRIGGERED <=? kind) && (kind <=? KIND_WORKFLOW_APPROVAL_DENIED).

(** [trigger_matches_event]. *)
Definition trigger_matches_event (t : TriggerDef) (kind : Z) : bool :=
  match t with
  | MessagePosted _ => kind =? KIND_STREAM_MESSAGE
  | ReactionAdded _ => kind =? KIND_REACTION
  | DiffPosted _ => kind =? KIND_STREAM_MESSAGE_DIFF
  | Schedule _ _ | Webhook => false
  end.

(** The message a reaction is about: its last [e] tag with an event's identifier. *)
Definition reaction_target (tags : list (list string)) : option string :=
  head (filter_map (fun tag =>
    match tag with
    | key :: value :: _ =>
        if String.eqb key "e" && (str_len value =? 64) && str_all is_ascii_hexdigit value then Some value else None
    | _ => None
    end) (rev tags)).
(** [build_trigger_context]. *)
Definition build_trigger_context (ev : StoredEvent) : TriggerContext :=
  let event := stored_event ev in
  let reaction := ev_kind event =? KIND_REACTION in
  {| ctx_text := ev_content event;
     ctx_author := ev_pubkey event;
     ctx_channel_id := default EmptyString (stored_channel ev);
     ctx_timestamp := dec (ev_created_at event);
     ctx_emoji := if reaction then ev_content event else EmptyString;
     ctx_message_id := if reaction then default (ev_id event) (reaction_target (ev_tags event)) else ev_id event;
     webhook_fields := ∅ |}.

(** [owner_authority_allows]. *)
Definition owner_authority_allows (role : option string) (needs_elevated : bool) : bool :=
  match role with
  | None => false
  | Some r => if needs_elevated then String.eqb r "owner" || String.eqb r "admin" else true
  end.

(** What a task is spawned with. *)
Record Spawned := { sp_run : string; sp_def : WorkflowDef; sp_ctx : TriggerContext }.

Section Engine.
Context `{WorkflowLib, JsonLib}.

(** [check_owner_authority]. *)
Definition check_owner_authority (community channel owner : string) (def : WorkflowDef)
    : DbOf Flows (Result unit WorkflowError) :=
  db! role := recover (query (get_member_role community channel owner)) in
  db_ret (Ok match role with
             | Err e => Err (Unauthorized ("owner authority lookup failed (fail-closed): " +:+ db_error_text e))
             | Ok role =>
                 if owner_authority_allows role (requires_elevated_authority def) then Ok tt
                 else Err (Unauthorized "workflow owner lacks current channel authority")
             end).

(** [should_fire_workflow]. *)
Definition filter_passes (mood : EvalMood) (filter : option string) (ctx : TriggerContext) : bool :=
  match filter with
  | Some expr => match evaluate_condition mood expr ctx ∅ with Ok b => b | Err _ => false end
  | None => true
  end.
Definition should_fire_workflow (mood : EvalMood) (def : WorkflowDef) (ctx : TriggerContext) : bool :=
  match trigger def with
  | ReactionAdded (Some expected) => String.eqb (ctx_emoji ctx) expected
  | MessagePosted filter | DiffPosted filter => filter_passes mood filter ctx
  | _ => true
  end.

(** One workflow of [on_event]; [id] is the random identifier of the run. *)
Definition on_event_workflow (mood : EvalMood) (id community channel : string) (ev : Event)
    (ctx : TriggerContext) (wf : string * WorkflowRow) : DbOf Flows (option Spawned) :=
  match def_from_json (row_definition (snd wf)) with
  | Err _ => db_ret (Ok None)
  | Ok def =>
      if negb (def_enabled def) || negb (trigger_matches_event (trigger def) (ev_kind ev)) then db_ret (Ok None)
      else if negb (should_fire_workflow mood def ctx) then db_ret (Ok None)
      else
        db! allowed := check_owner_authority community channel (row_owner (snd wf)) def in
        match allowed with
        | Err _ => db_ret (Ok None)
        | Ok _ =>
            db! created := recover (stmt (create_workflow_run id community (fst wf) (Some (ev_id ev)) (Some ctx))) in
            db_ret (Ok match created with
                       | Ok run => Some {| sp_run := run; sp_def := def; sp_ctx := ctx |}
                       | Err _ => None
                       end)
        end
  end.
Fixpoint on_event_workflows (moods : nat -> EvalMood) (ids : nat -> string) (i : nat) (community channel : string)
    (ev : Event) (ctx : TriggerContext) (l : list (string * WorkflowRow)) : DbOf Flows (list Spawned) :=
  match l with
  | [] => db_ret (Ok [])
  | wf :: l =>
      db! first := on_event_workflow (moods i) (ids i) community channel ev ctx wf in
      db! rest := on_event_workflows moods ids (S i) community channel ev ctx l in
      db_ret (Ok (option_list first ++ rest))
  end.

(** The cache of [on_event]: the workflows of a community's channel. *)
Definition WorkflowCache : Type := gmap (string * string) (list (string * WorkflowRow)).
(** [on_event]: the spawned tasks and the cache. *)
Definition on_event (moods : nat -> EvalMood) (ids : nat -> string) (cache : WorkflowCache) (community : string)
    (ev : StoredEvent) : DbOf Flows (Result (list Spawned) WorkflowError * WorkflowCache) :=
  match stored_channel ev with
  | None => db_ret (Ok (Ok [], cache))
  | Some channel =>
      if is_workflow_execution_kind (ev_kind (stored_event ev)) then db_ret (Ok (Ok [], cache))
      else
        db! listed := match cache !! (community, channel) with
                      | Some l => db_ret (Ok (Ok l))
                      | None => recover (query (list_enabled_channel_workflows community channel))
                      end in
        match listed with
        | Err e => db_ret (Ok (Err (DatabaseError (db_error_text e)), cache))
        | Ok l =>
            db! spawned := on_event_workflows moods ids 0 community channel (stored_event ev)
              (build_trigger_context ev) l in
            db_ret (Ok (Ok spawned, <[(community, channel) := l]> cache))
        end
  end.

(** ** The two routes that start a run *)

(** The fields of a JSON object as texts. *)
Definition body_fields (body : Json) : gmap string string :=
  match body with
  | JObject fields => list_to_map ((fun kv => (fst kv, match snd kv with JString s => s | other => json_to_string other end)) <$> fields)
  | _ => ∅
  end.

Inductive IngestError := Rejected (m : string) | Internal (m : string).
(** What [persist_command_event] answers. *)
Inductive Persisted := AlreadyStored | Superseded (winner : string) | Inserted.
Inductive TriggerAnswer := NotStored (p : Persisted) | Triggered (s : Spawned).

(** [handle_workflow_trigger] by the owner [signer]; [reference] is the first [d]
    or [e] tag, [content] the body, [persist] the answer of
    [persist_command_event], [commit] whether its transaction commits. *)
Definition handle_workflow_trigger (id community signer : string) (reference : option string)
    (event_id content : string) (persist : Result Persisted IngestError) (commit : bool)
    : DbOf Flows (Result TriggerAnswer IngestError) :=
  match reference with
  | None => db_ret (Ok (Err (Rejected "invalid: missing workflow reference (d or e tag)")))
  | Some reference =>
      match uuid_from_text reference with
      | None => db_ret (Ok (Err (Rejected "invalid: bad workflow_id format")))
      | Some workflow =>
          db! found := recover (query (get_workflow community workflow)) in
          match found with
          | Err _ => db_ret (Ok (Err (Rejected "invalid: workflow not found")))
          | Ok row =>
              let forbidden := Rejected "forbidden: not authorized to trigger this workflow" in
              if negb (String.eqb (row_owner row) signer) then db_ret (Ok (Err forbidden))
              else if negb (may_fire row)
              then db_ret (Ok (Err (Rejected "forbidden: workflow is disabled or inactive")))
              else match def_from_json (row_definition row), row_channel row with
                   | Err e, _ => db_ret (Ok (Err (Internal ("error: corrupt workflow definition: " +:+ e))))
                   | Ok _, None => db_ret (Ok (Err (Rejected "forbidden: workflow has no channel scope")))
                   | Ok def, Some channel =>
                       db! allowed := check_owner_authority community channel (row_owner row) def in
                       match allowed, persist with
                       | Err _, _ => db_ret (Ok (Err forbidden))
                       | Ok _, Err e => db_ret (Ok (Err e))
                       | Ok _, Ok Inserted =>
                           let ctx := {| ctx_text := ""; ctx_author := signer; ctx_channel_id := channel;
                                         ctx_timestamp := ""; ctx_emoji := ""; ctx_message_id := "";
                                         webhook_fields := if str_is_empty content then ∅
                                           else default ∅ (body_fields <$> json_from_str content) |} in
                           db! created := recover (stmt (create_workflow_run id community workflow
                             (Some event_id) (Some ctx))) in
                           db_ret (Ok match created with
                                      | Err e => Err (Internal ("error: db create_workflow_run: " +:+ db_error_text e))
                                      | Ok run =>
                                          if commit then Ok (Triggered {| sp_run := run; sp_def := def; sp_ctx := ctx |})
                                          else Err (Internal "error: commit transaction")
                                      end)
                       | Ok _, Ok other => db_ret (Ok (Ok (NotStored other)))
                       end
                   end
          end
      end
  end.

(** [workflow_webhook]; [tenant] is the community bound to the host, [header] and
    [secret] what the caller presents, [body] what arrives. *)
Definition workflow_webhook (id id_text : string) (tenant header secret : option string) (body : string)
    : DbOf Flows (Result Spawned HttpError) :=
  let not_found := (404, "workflow not found"%string) in
  match uuid_from_text id_text, tenant with
  | None, _ => db_ret (Ok (Err (400, "invalid workflow UUID"%string)))
  | Some _, None => db_ret (Ok (Err not_found))
  | Some workflow, Some community =>
      db! found := recover (query (get_workflow community workflow)) in
      match found with
      | Err _ => db_ret (Ok (Err not_found))
      | Ok row =>
          let checked :=
            let? def := map_err (fun _ => (500, "internal server error"%string)) (def_from_json (row_definition row)) in
            fail_if negb (bool_decide (trigger def = Webhook)) with (400, "workflow does not have a webhook trigger"%string);
            let provided := default EmptyString (match header with Some h => Some h | None => secret end) in
            let? stored := ok_or (extract_secret (row_definition row))
              (401, "webhook secret required but not configured — re-save the workflow to generate one"%string) in
            fail_if negb (verify_secret provided stored) with (401, "authentication failed"%string);
            let? body := if str_is_empty body then Ok None
                         else let? v := ok_or (json_from_str body) (400, "invalid JSON body"%string) in Ok (Some v) in
            fail_if negb (may_fire row) with not_found;
            let? channel := ok_or (row_channel row) not_found in
            Ok (def, channel, {| ctx_text := ""; ctx_author := ""; ctx_channel_id := channel; ctx_timestamp := "";
                                 ctx_emoji := ""; ctx_message_id := "";
                                 webhook_fields := default ∅ (body_fields <$> body) |}) in
          match checked with
          | Err e => db_ret (Ok (Err e))
          | Ok (def, channel, ctx) =>
              db! allowed := check_owner_authority community channel (row_owner row) def in
              match allowed with
              | Err _ => db_ret (Ok (Err not_found))
              | Ok _ =>
                  db! created := recover (stmt (create_workflow_run id community workflow None (Some ctx))) in
                  db_ret (Ok match created with
                             | Err _ => Err (500, "internal server error"%string)
                             | Ok run => Ok {| sp_run := run; sp_def := def; sp_ctx := ctx |}
                             end)
              end
          end
      end
  end.

(** ** Saving a definition *)

(** The secret a saved definition carries, and the one its owner is told. *)
Definition secret_for (def : WorkflowDef) (existing : option WorkflowRow) (fresh : string) (json : Json)
    : Json * option string :=
  if bool_decide (trigger def = Webhook) then
    let kept := row ← existing; extract_secret (row_definition row) in
    (inject_secret (default fresh kept) json, if is_some kept then None else Some fresh)
  else (json, None).

Inductive DefAnswer := NotSaved (p : Persisted) | Saved (id : string) (webhook_secret : option string).

(** [handle_workflow_def] by [signer]; [h_tag], [d_tag] and [name_tag] are the
    event's first tags of those names, [member] the answer of [is_member_cached],
    [yaml] the content, [fresh] the random secret. With the answer comes whether
    the channel's cache is dropped. *)
Definition handle_workflow_def (community signer : string) (h_tag d_tag name_tag : option string)
    (member : Result bool DbError) (yaml fresh : string) (sha256 : string -> string)
    (persist : Result Persisted IngestError) (commit : bool)
    : DbOf Flows (Result DefAnswer IngestError * option string) :=
  let no e := db_ret (Ok (Err e, None)) in
  let checked :=
    let? h := ok_or h_tag (Rejected "invalid: missing h tag (channel_id)") in
    let? channel := ok_or (uuid_from_text h) (Rejected "invalid: bad channel_id format") in
    let? d := ok_or d_tag (Rejected "invalid: missing d tag (workflow_id)") in
    let? id := ok_or (uuid_from_text d) (Rejected "invalid: bad workflow_id format") in
    let? is_member := map_err (fun e => Internal ("error: membership check: " +:+ db_error_text e)) member in
    fail_if negb is_member with Rejected "forbidden: not a member of this channel";
    let? parsed := map_err (fun e => Rejected ("invalid: workflow YAML parse error: " +:+ error_text e)) (parse_yaml yaml) in
    Ok (channel, id, fst parsed, snd parsed) in
  match checked with
  | Err e => no e
  | Ok (channel, id, def, json) =>
      db! elevated := if requires_elevated_authority def
                      then db! role := recover (query (get_member_role community channel signer)) in
                           db_ret (Ok match role with
                             | Err e => Err (Internal ("error: role check: " +:+ db_error_text e))
                             | Ok role =>
                                 if bool_decide (role = Some "owner"%string) || bool_decide (role = Some "admin"%string) then Ok tt
                                 else Err (Rejected "forbidden: workflows with call_webhook actions require the owner or admin role")
                             end)
                      else db_ret (Ok (Ok tt)) in
      match elevated with
      | Err e => no e
      | Ok _ =>
          db! found := recover (query (get_workflow community id)) in
          let belongs := Rejected "forbidden: workflow belongs to a different owner or channel" in
          let existing :=
            match found with
            | Ok row =>
                fail_if negb (String.eqb (row_owner row) signer) || negb (bool_decide (row_channel row = Some channel))
                  with belongs;
                Ok (Some row)
            | Err (NotFound _) => Ok None
            | Err e => Err (Internal ("error: db get_workflow: " +:+ db_error_text e))
            end in
          match existing, persist with
          | Err e, _ => no e
          | Ok _, Err e => no e
          | Ok existing, Ok Inserted =>
              let '(json, told) := secret_for def existing fresh json in
              db! there := recover (query (fun s =>
                if bool_decide ((community, channel) ∈ live_channels s) then Ok tt else Err (NotFound channel))) in
              match there with
              | Err _ => no (Rejected "invalid: workflow channel not found")
              | Ok _ =>
                  db! saved := recover (stmt (fun fault now => run_tx Sqlx fault
                    (upsert_workflow_tx now community id (Some channel) signer (default (wf_name def) name_tag) json
                       (sha256 (json_to_string json))))) in
                  match saved with
                  | Err (AccessDenied _) => no belongs
                  | Err e => no (Internal ("error: db upsert_workflow: " +:+ db_error_text e))
                  | Ok _ =>
                      db_ret (Ok (if commit then Ok (Saved id told) else Err (Internal "error: commit transaction"),
                                  Some channel))
                  end
              end
          | Ok _, Ok other => db_ret (Ok (Ok (NotSaved other), None))
          end
      end
  end.
End Engine.

(** ** What a run lets out, and what it leaves behind *)

Section RunFacts.
Context `{WorkflowLib, JsonLib}.

(** What a step of a run may let out: a message in the channel of the run's
    workflow, in its owner's name and community; a reaction to the message that
    triggered the run; a request to a public address, from a definition that
    needs elevated authority. *)
Definition effect_ok (weather : nat -> StepWeather) (community run : string) (ctx : TriggerContext)
    (elevated : bool) (e : Effect) : Prop :=
  match e with
  | Posted c channel _ author =>
      c = community /\ exists i row wf,
        runs (sw_tables (weather i)) !! (community, run) = Some row
        /\ workflows (sw_tables (weather i)) !! (community, run_workflow row) = Some wf
        /\ author = row_owner wf /\ forall own, row_channel wf = Some own -> channel = own
  | Reacted message_id _ => message_id = ctx_message_id ctx
  | Requested req => elevated = true /\ is_private_ip (wr_pinned req) = false
  end.

Lemma resolve_keeps_webhook step ctx outputs a :
  resolve_step_templates step ctx outputs = Ok a -> is_call_webhook a = is_call_webhook (action step).
Proof. unfold resolve_step_templates. destruct (action step); intros Hr; inv_bind; done. Qed.

Lemma perform_effects weather i community run ctx a :
  Forall (effect_ok weather community run ctx (is_call_webhook a)) (perform (weather i) community run ctx a).2
  /\ (length (perform (weather i) community run ctx a).2 <= 1)%nat.
Proof.
  destruct a as [text channel| | |emoji|url method headers body| |]; cbn; try (split; [constructor|lia]).
  - destruct (sw_db (weather i)); cbn; [|split; [constructor|lia]].
    unfold get_workflow_run, get_workflow.
    destruct (runs (sw_tables (weather i)) !! (community, run)) as [row|] eqn:Hrow; cbn; [|split; [constructor|lia]].
    destruct (workflows _ !! _) as [wf|] eqn:Hwf; cbn; [|split; [constructor|lia]].
    destruct (resolve_send_message_channel _ _ _) as [ch|] eqn:Hch; cbn; [|split; [constructor|lia]].
    destruct (sw_sink (weather i)); cbn; [|split; [constructor|lia]]. split; [|lia]. constructor; [|constructor].
    split; [done|]. exists i, row, wf. split_and!; [done..|]. intros own Hown. rewrite Hown in Hch.
    by apply message_stays_in_channel in Hch.
  - destruct (str_is_empty _); cbn; (split; [repeat constructor|lia]).
  - destruct (webhook_request _ _ _ _ _) as [req|] eqn:Hreq; cbn; [|split; [constructor|lia]].
    split; [|lia]. constructor; [|constructor]. split; [done|]. by apply webhook_request_public in Hreq as (_ & ? & _).
Qed.

Lemma dispatch_effects config weather i community run step ctx a :
  Forall (effect_ok weather community run ctx (is_call_webhook a))
    (timed_dispatch config (weather i) community run step ctx a).2
  /\ (length (timed_dispatch config (weather i) community run step ctx a).2 <= 1)%nat.
Proof.
  assert (Forall (effect_ok weather community run ctx (is_call_webhook a)) (dispatch_action (weather i) community run ctx a).2
          /\ (length (dispatch_action (weather i) community run ctx a).2 <= 1)%nat) as Hd.
  { pose proof (perform_effects weather i community run ctx a) as Hp. unfold dispatch_action.
    destruct (sw_lease (weather i)); cbn; try (split; [constructor|lia]); try exact Hp.
    destruct (perform _ _ _ _ _) as [r fx]. exact Hp. }
  unfold timed_dispatch. destruct (sw_timer (weather i)) as [[]|]; cbn; [done|split; [constructor|lia]|done].
Qed.

(** The end of a run that began with step [start] of [n]. *)
Definition ended_at (start n done_ : nat) (trace : list Json) : Prop :=
  (done_ <= n /\ length trace = done_ - start)%nat.
Definition run_ended (start n : nat) (r : Result ExecutionResult (WorkflowError * PartialProgress)) : Prop :=
  match r with
  | Ok res => ended_at start n (step_index res) (exec_trace res)
              /\ (if is_some (approval_token res) then step_index res < n else step_index res = n)%nat
  | Err (_, p) => ended_at start n (failed_index p) (failed_trace p) /\ (failed_index p < n)%nat
  end.
Definition result_trace (r : Result ExecutionResult (WorkflowError * PartialProgress)) : list Json :=
  match r with Ok res => exec_trace res | Err (_, p) => failed_trace p end.

Lemma run_steps_spec config weather community run ctx elevated start l : forall i outputs trace,
  (forall step, step ∈ l -> is_call_webhook (action step) = true -> elevated = true) ->
  length trace = (i - start)%nat ->
  let '(r, fx) := run_steps config weather community run ctx start i l outputs trace in
  Forall (effect_ok weather community run ctx elevated) fx
  /\ (length fx + length trace <= length (result_trace r) + 1)%nat
  /\ run_ended start (i + length l) r.
Proof.
  induction l as [|step l IH]; intros i outputs trace Hel Htr; cbn [run_steps].
  { cbn. unfold ended_at. split_and!; [constructor|lia|lia|lia|lia]. }
  assert (forall s, s ∈ l -> is_call_webhook (action s) = true -> elevated = true) as Hel'.
  { intros s Hs. apply Hel. by right. }
  replace (i + length (step :: l))%nat with (S i + length l)%nat by (cbn; lia).
  destruct (Nat.ltb_spec i start) as [Hi|Hi].
  { apply IH; [done|lia]. }
  assert (forall e, run_ended start (S i + length l) (Err (e, {| failed_index := i; failed_trace := trace |}))) as Hfail.
  { intros e. cbn. unfold ended_at. lia. }
  destruct (step_runs _ _ _ _) as [[]|e].
  2: { specialize (IH (S i) outputs (trace ++ [trace_skipped step]) Hel'). rewrite length_app in IH. cbn in IH.
       specialize (IH ltac:(lia)). destruct (run_steps _ _ _ _ _ _ _ _ _ _) as [r fx]. destruct IH as (? & ? & ?).
       split_and!; [done|lia|done]. }
  2: { split_and!; [constructor|cbn; lia|apply Hfail]. }
  destruct (resolve_step_templates step ctx outputs) as [a|e] eqn:Ha.
  2: { split_and!; [constructor|cbn; lia|apply Hfail]. }
  pose proof (dispatch_effects config weather i community run step ctx a) as [Hfx Hone].
  assert (Forall (effect_ok weather community run ctx elevated) (timed_dispatch config (weather i) community run step ctx a).2) as Hok.
  { eapply list.Forall_impl; [exact Hfx|]. intros [| |req] He; [exact He..|]. destruct He as [He ?]. split; [|done].
    apply (Hel step); [left|]. by rewrite <- (resolve_keeps_webhook _ _ _ _ Ha). }
  destruct (timed_dispatch _ _ _ _ _ _ _) as [result fx]. cbn in Hok, Hone.
  destruct result as [[output|token|]|e].
  - specialize (IH (S i) (<[step_id step := output]> outputs) (trace ++ [trace_completed step output]) Hel').
    rewrite length_app in IH. cbn [length] in IH. specialize (IH ltac:(lia)).
    destruct (run_steps _ _ _ _ _ _ _ _ _ _) as [r later]. destruct IH as (? & ? & ?).
    split_and!; [by apply list.Forall_app|rewrite length_app; lia|done].
  - split_and!; [done|cbn; lia|]. cbn. unfold ended_at. lia.
  - specialize (IH (S i) outputs (trace ++ [trace_skipped step]) Hel').
    rewrite length_app in IH. cbn [length] in IH. specialize (IH ltac:(lia)).
    destruct (run_steps _ _ _ _ _ _ _ _ _ _) as [r later]. destruct IH as (? & ? & ?).
    split_and!; [by apply list.Forall_app|rewrite length_app; lia|done].
  - split_and!; [done|cbn; lia|apply Hfail].
Qed.

(** C21. Whatever the weather, a run does its steps in order up to the first that fails
    or asks for approval, lets out at most one effect for each, and only such as
    its workflow may: messages in the workflow's own channel and its owner's name,
    and requests to public addresses, these only from a definition that needs
    elevated authority. *)
Theorem runs_keep_to_their_workflow config weather community run def ctx start initial :
  let '(r, fx) := execute_steps config weather community run def ctx start initial in
  Forall (effect_ok weather community run ctx (requires_elevated_authority def)) fx
  /\ (length fx <= length (result_trace r) + 1)%nat
  /\ run_ended start (length (steps def)) r.
Proof.
  unfold execute_steps. pose proof (run_steps_spec config weather community run ctx (requires_elevated_authority def)
    start (steps def) 0 (default ∅ initial) []) as Hs.
  destruct (run_steps _ _ _ _ _ _ _ _ _ _) as [r fx]. cbn [length Nat.add] in Hs.
  destruct Hs as (? & ? & ?); [|done|split_and!; [done|lia|done]].
  intros step Hin Hw. unfold requires_elevated_authority. apply existsb_exists. exists step.
  by rewrite <- list_elem_of_In.
Qed.
End RunFacts.

(** ** Every run is closed *)

Section ClosedRuns.
Context `{WorkflowLib, JsonLib}.

Lemma update_run_works now community id status step trace error row s :
  runs s !! (community, id) = Some row -> community ∉ fenced s ->
  exists row', update_workflow_run community id status step trace error DbUp now s
               = (Ok tt, with_runs (<[(community, id) := row']> (runs s)) s)
    /\ run_status row' = status /\ (run_over status = true -> run_completed_at row' = Some now)
    /\ execution_trace row' = trace /\ error_message row' = error.
Proof.
  intros Hrow Hf. unfold update_workflow_run, run_tx, update_workflow_run_tx, flow_fence. rewrite Hrow.
  rewrite bool_decide_eq_false_2 by done. cbn. eexists. split; [reflexivity|]. cbn. split_and!; [done| |done..].
  by intros ->.
Qed.

(** A run whose task is not disturbed is over when the task ends: completed
    without an error, or failed with one, out of capacity and at an approval
    too. *)
Theorem every_run_is_closed config permit weather community run def ctx row turns s :
  runs s !! (community, run) = Some row -> community ∉ fenced s -> Forall undisturbed turns ->
  exists fx turns' s' row' now, run_task config permit weather community run def ctx turns s = (Ok fx, turns', s')
    /\ runs s' !! (community, run) = Some row' /\ run_completed_at row' = Some now
    /\ (run_status row' = RunCompleted /\ error_message row' = None
        \/ run_status row' = RunFailed /\ is_some (error_message row') = true).
Proof.
  intros Hrow Hf Hturns.
  assert (forall result row turns s, runs s !! (community, run) = Some row -> community ∉ fenced s ->
    Forall undisturbed turns ->
    exists turns' s' row' now, finalize_run community run result None turns s = (Ok tt, turns', s')
      /\ runs s' !! (community, run) = Some row' /\ run_completed_at row' = Some now
      /\ (run_status row' = RunCompleted /\ error_message row' = None
          \/ run_status row' = RunFailed /\ is_some (error_message row') = true)) as Hfin.
  { clear. intros result row turns s Hrow Hf Hturns. unfold finalize_run.
    destruct (final_row result _) as [[[status step] trace] error] eqn:Hfr.
    edestruct (@recover_stmt Flows unit unit) as (now & turns1 & Hturns1 & ->); [exact Hturns|].
    destruct (update_run_works now community run status step trace error row s Hrow Hf)
      as (row' & -> & Hst & Hover & Htr & He). cbn [fst snd].
    exists turns1, (with_runs (<[(community, run) := row']> (runs s)) s), row', now.
    assert (run_over status = true /\ (status = RunCompleted /\ error = None \/ status = RunFailed /\ is_some error = true)) as [Ho Hcase].
    { unfold final_row in Hfr. destruct result as [res|[e p]]; [destruct (is_some (approval_token res))|];
        injection Hfr as <- <- <- <-; cbn; by auto. }
    split_and!; [done|apply lookup_insert_eq|by apply Hover|]. rewrite Hst, He. destruct Hcase as [[-> ->]|[-> ?]]; by auto. }
  unfold run_task, execute_run. destruct permit; cbn [negb].
  - unfold db_bind at 1. edestruct (@recover_stmt Flows unit) as (now & turns1 & Hturns1 & ->); [exact Hturns|].
    destruct (update_run_works now community run RunRunning 0 [] None row s Hrow Hf) as (row1 & -> & _). cbn [fst snd].
    unfold db_ret at 1.
    match goal with |- context [finalize_run community run (fst ?d)] => set (done_ := d) end.
    destruct (Hfin (fst done_) row1 turns1 (with_runs (<[(community, run) := row1]> (runs s)) s))
      as (turns' & s' & row' & now' & Hrun & ?); [apply lookup_insert_eq|done|done|].
    exists (snd done_), turns', s', row', now'. unfold db_bind. by rewrite Hrun.
  - unfold db_bind at 1, db_ret at 1.
    destruct (Hfin (Err (CapacityExceeded, no_progress)) row turns s Hrow Hf Hturns)
      as (turns' & s' & row' & now' & Hrun & ?).
    exists [], turns', s', row', now'. unfold db_bind. cbn [fst]. by rewrite Hrun.
Qed.
End ClosedRuns.

(** ** Who lost the channel starts nothing *)

(** A role that does not suffice: none, or, for a workflow that calls webhooks, any
    below owner and admin. *)
Definition lacks (webhooks : bool) (role : option string) : Prop :=
  if webhooks then role <> Some "owner"%string /\ role <> Some "admin"%string else role = None.
Definition calls_webhook `{WorkflowLib} (definition : Json) : Prop := forall def,
  def_from_json definition = Ok def -> exists step, step ∈ steps def /\ is_call_webhook (action step) = true.
(** The workflow [w] is of [o] and of the channel [ch], where the role of [o] does
    not suffice. *)
Definition workflow_of `{WorkflowLib} (webhooks : bool) (ch o : string) (row : WorkflowRow) : Prop :=
  row_owner row = o /\ (row_channel row = Some ch \/ row_channel row = None)
  /\ (webhooks = true -> calls_webhook (row_definition row)).
Definition departed `{WorkflowLib} (webhooks : bool) (c w ch o : string) (s : Flows) : Prop :=
  lacks webhooks (member_roles s !! ((c, ch), o))
  /\ forall row, workflows s !! (c, w) = Some row -> workflow_of webhooks ch o row.
(** The runs of a workflow. *)
Definition runs_of (c w : string) (s : Flows) : gmap RowKey RunRow :=
  filter (fun kr : RowKey * RunRow => kr.1.1 = c /\ run_workflow kr.2 = w) (runs s).

Section Departed.
Context `{WorkflowLib, JsonLib} (webhooks : bool) (c w ch o : string) (R : gmap RowKey RunRow).

Definition nothing_new (s : Flows) : Prop := departed webhooks c w ch o s /\ runs_of c w s = R.
(** Others neither bring the owner back nor start the workflow. *)
Definition others_leave_it (turn : TurnOf Flows) : Prop := forall s, nothing_new s -> nothing_new (between turn s).

Notation tri := (triple others_leave_it nothing_new).

Lemma others_calm : others_leave_it (calm 0).
Proof. by intros s. Qed.

Lemma quiet_read {A} (f : Flows -> Result A DbError) :
  tri nothing_new (recover (query f)) (fun r s => nothing_new s /\ (forall a, r = Ok a -> f s = Ok a)).
Proof.
  intros turns s Ht Hs. unfold recover.
  pose proof (triple_query others_leave_it nothing_new others_calm nothing_new f (fun turn H => H) (fun t H => H) turns s Ht Hs) as Hq.
  destruct (query f turns s) as [[[a|e] turns'] s']; [destruct Hq as (? & ? & ?)|destruct Hq]; naive_solver.
Qed.

Lemma create_other id community workflow event ctx fault now s :
  nothing_new s -> (community <> c \/ workflow <> w) ->
  nothing_new (create_workflow_run id community workflow event ctx fault now s).2.
Proof.
  intros [Hd HR] Hne. unfold create_workflow_run, run_tx, create_workflow_run_tx.
  destruct (flow_fence community s); cbn [rbind]; [|destruct fault; done].
  destruct (runs s !! (community, id)) as [r|] eqn:Hid; cbn [is_some]; [destruct fault; done|].
  destruct (negb _); [destruct fault; done|].
  assert (nothing_new (with_runs (<[(community, id) := {|
    run_workflow := workflow; run_status := RunPending; run_event := event; current_step := 0;
    execution_trace := []; run_context := ctx; run_started_at := None; run_completed_at := None;
    error_message := None; run_created_at := now |}]> (runs s)) s)) as Hnew.
  { split; [exact Hd|]. unfold runs_of. cbn [runs with_runs]. rewrite map_filter_insert_False.
    - rewrite map_filter_delete, delete_id; [exact HR|]. rewrite map_lookup_filter_None. by left.
    - cbn. naive_solver. }
  by destruct fault.
Qed.
Lemma quiet_create id community workflow event ctx : (community <> c \/ workflow <> w) ->
  tri nothing_new (recover (stmt (create_workflow_run id community workflow event ctx))) (fun _ => nothing_new).
Proof.
  intros Hne turns s Ht Hs. unfold recover.
  pose proof (triple_stmt others_leave_it nothing_new others_calm nothing_new (create_workflow_run id community workflow event ctx)
    (fun _ => nothing_new)) as Hst.
  assert (forall turn, others_leave_it turn -> forall t, nothing_new t ->
    match create_workflow_run id community workflow event ctx (fault turn) (clock turn) (between turn t) with
    | (Ok _, t') | (Err _, t') => nothing_new t' end) as Hop.
  { intros turn Hturn t Ht'. pose proof (create_other id community workflow event ctx (fault turn) (clock turn) _ (Hturn t Ht') Hne) as Hc.
    by destruct (create_workflow_run _ _ _ _ _ _ _ _) as [[] ?]. }
  specialize (Hst Hop turns s Ht Hs). by destruct (stmt _ turns s) as [[[a|e] turns'] s'].
Qed.

Lemma elevated_def definition def : calls_webhook definition -> def_from_json definition = Ok def ->
  requires_elevated_authority def = true.
Proof.
  intros Hc Hd. destruct (Hc def Hd) as (step & Hin & Hw). unfold requires_elevated_authority.
  apply existsb_exists. exists step. by rewrite <- list_elem_of_In.
Qed.
Lemma lacks_refused role def : lacks webhooks role -> (webhooks = true -> requires_elevated_authority def = true) ->
  owner_authority_allows role (requires_elevated_authority def) = false.
Proof.
  unfold lacks. destruct webhooks; [|by intros ->]. intros [Ho Ha] ->; [|done]. destruct role as [role|]; [|done]. cbn.
  destruct (String.eqb_spec role "owner") as [->|]; [done|]. destruct (String.eqb_spec role "admin") as [->|]; done.
Qed.

(** The check refuses the departed owner. *)
Lemma departed_refused community channel owner def :
  tri nothing_new (check_owner_authority community channel owner def)
    (fun r s => nothing_new s /\ (community = c -> channel = ch -> owner = o ->
       (webhooks = true -> requires_elevated_authority def = true) -> is_ok r = false)).
Proof.
  unfold check_owner_authority. eapply triple_bind; [apply quiet_read|]. intros role turns s Ht [Hs Hrole].
  cbn. split; [done|]. split; [done|]. intros -> -> -> Hel. destruct role as [role|]; [|done].
  specialize (Hrole _ eq_refl). unfold get_member_role in Hrole. injection Hrole as <-.
  by rewrite (lacks_refused _ _ (proj1 (proj1 Hs)) Hel).
Qed.

(** An entry of the workflow names its owner and its channel, and calls webhooks if
    it is to. *)
Definition entry_ok (community channel : string) (wf : string * WorkflowRow) : Prop :=
  community = c -> fst wf = w ->
  row_owner (snd wf) = o /\ channel = ch /\ (webhooks = true -> calls_webhook (row_definition (snd wf))).

Lemma still_ret {A} (r : Result A DbError) : tri nothing_new (db_ret r) (fun _ => nothing_new).
Proof. by intros turns s; destruct r. Qed.

Lemma on_event_workflow_quiet mood id community channel ev ctx wf : entry_ok community channel wf ->
  tri nothing_new (on_event_workflow mood id community channel ev ctx wf) (fun _ => nothing_new).
Proof.
  intros Hwf. unfold on_event_workflow. destruct (def_from_json _) as [def|] eqn:Hdef; [|apply still_ret].
  destruct (_ || _); [apply still_ret|]. destruct (negb _); [apply still_ret|].
  eapply triple_bind; [apply departed_refused|]. intros [[]|e].
  - eapply triple_conseq with (P := fun s => nothing_new s /\ (community <> c \/ fst wf <> w));
      [|intros s [Hs Hr]; split; [exact Hs|]|intros a s Hs; exact Hs].
    + apply triple_pure. intros Hne. eapply triple_bind; [by apply quiet_create|]. intros r. apply still_ret.
    + destruct (decide (community = c)) as [->|]; [|by left]. destruct (decide (fst wf = w)) as [Hw|]; [|by right].
      destruct (Hwf eq_refl Hw) as (Ho & Hch & Hc).
      exfalso. enough (is_ok (Ok () : Result unit WorkflowError) = false) by done.
      apply Hr; [done..|]. intros Ht. eapply elevated_def; [by apply Hc|done].
  - eapply triple_conseq; [apply still_ret|by intros s []|done].
Qed.

Lemma on_event_workflows_quiet moods ids community channel ev ctx l : forall i, Forall (entry_ok community channel) l ->
  tri nothing_new (on_event_workflows moods ids i community channel ev ctx l) (fun _ => nothing_new).
Proof.
  induction l as [|wf l IH]; intros i Hl; cbn [on_event_workflows]; [apply still_ret|].
  apply list.Forall_cons in Hl as [Hwf Hl].
  eapply triple_bind; [by apply on_event_workflow_quiet|]. intros first.
  eapply triple_bind; [by apply IH|]. intros rest. apply still_ret.
Qed.

Lemma listed_ok community channel s l : nothing_new s ->
  list_enabled_channel_workflows community channel s = Ok l -> Forall (entry_ok community channel) l.
Proof.
  intros [[_ Hd] _] [= <-]. apply Forall_elem. intros [id row] Hin.
  apply elem_of_take in Hin as (k & Hin & _). apply list_elem_of_lookup_2 in Hin. rewrite sort_by_perm in Hin.
  apply elem_of_filter_map in Hin as ([[c' id'] row'] & Hin & Hk). apply elem_of_map_to_list in Hin.
  cbn in Hk. destruct (_ && _) eqn:Hb in Hk; [|done]. injection Hk as -> ->.
  apply andb_true_iff in Hb as [[Hc Hch]%andb_true_iff _]. apply String.eqb_eq in Hc as ->.
  apply bool_decide_eq_true in Hch. intros -> Hid. cbn in Hid. subst id. specialize (Hd row Hin) as (Ho & Hr & Hc).
  split; [done|]. split; [|done]. rewrite Hch in Hr. destruct Hr; by simplify_eq.
Qed.

Lemma on_event_quiet moods ids cache community ev :
  (forall channel l, cache !! (community, channel) = Some l -> Forall (entry_ok community channel) l) ->
  tri nothing_new (on_event moods ids cache community ev) (fun _ => nothing_new).
Proof.
  intros Hcache. unfold on_event. destruct (stored_channel ev) as [channel|]; [|apply still_ret].
  destruct (is_workflow_execution_kind _); [apply still_ret|].
  eapply triple_bind with (Q := fun listed s => nothing_new s /\ (forall l, listed = Ok l -> Forall (entry_ok community channel) l)).
  - destruct (cache !! (community, channel)) as [l|] eqn:Hl.
    + intros turns s Ht Hs. split; [done|]. split; [done|]. intros l' [= <-]. by apply Hcache.
    + intros turns s Ht Hs. pose proof (quiet_read (list_enabled_channel_workflows community channel) turns s Ht Hs) as Hq.
      destruct (recover _ turns s) as [[[r|e] turns'] s']; [|done]. destruct Hq as (Ht' & Hs' & Hr).
      split; [done|]. split; [done|]. intros l ->. by apply (listed_ok _ _ s'), Hr.
  - intros [l|e].
    + eapply triple_conseq with (P := fun s => nothing_new s /\ Forall (entry_ok community channel) l);
        [|intros s [Hs Hl]; split; [done|by apply Hl]|intros a s Hs; exact Hs].
      apply triple_pure. intros Hl. eapply triple_bind; [by apply on_event_workflows_quiet|].
      intros spawned. apply still_ret.
    + eapply triple_conseq; [apply still_ret|by intros s []|done].
Qed.

(** The end of the two routes: the check, then whatever follows it creates only
    runs of the workflow that was read. *)
Lemma checked_start_quiet {A} community workflow row channel def
    (k : Result unit WorkflowError -> DbOf Flows A) :
  (community = c -> workflow = w -> workflow_of webhooks ch o row) ->
  row_channel row = Some channel -> def_from_json (row_definition row) = Ok def ->
  (forall r, (is_ok r = true -> community <> c \/ workflow <> w) -> tri nothing_new (k r) (fun _ => nothing_new)) ->
  tri nothing_new (db_bind (check_owner_authority community channel (row_owner row) def) k) (fun _ => nothing_new).
Proof.
  intros Hrow Hch Hdef Hk. eapply triple_bind; [apply departed_refused|]. intros r.
  eapply triple_conseq with (P := fun s => nothing_new s /\ (is_ok r = true -> community <> c \/ workflow <> w));
    [apply triple_pure, Hk| |intros a s Hs; exact Hs].
  intros s [Hs Hr]. split; [done|]. intros Hok.
  destruct (decide (community = c)) as [Hc|]; [|by left]. destruct (decide (workflow = w)) as [Hw|]; [|by right].
  destruct (Hrow Hc Hw) as (Ho & Hchs & Hcw). rewrite Hch in Hchs. rewrite Hr in Hok; [done|done| |done|].
  - destruct Hchs; by simplify_eq.
  - intros Ht. eapply elevated_def; [by apply Hcw|done].
Qed.

(** A workflow that is read. *)
Lemma read_workflow {A} community workflow (k : Result WorkflowRow DbError -> DbOf Flows A) :
  (forall e, tri nothing_new (k (Err e)) (fun _ => nothing_new)) ->
  (forall row,
     (community = c -> workflow = w -> workflow_of webhooks ch o row) ->
     tri nothing_new (k (Ok row)) (fun _ => nothing_new)) ->
  tri nothing_new (db_bind (recover (query (get_workflow community workflow))) k) (fun _ => nothing_new).
Proof.
  intros Herr Hrow. eapply triple_bind; [apply quiet_read|]. intros [row|e].
  - eapply triple_conseq with (P := fun s => nothing_new s /\
        (community = c -> workflow = w -> workflow_of webhooks ch o row));
      [apply triple_pure, Hrow| |intros a s Hs; exact Hs].
    intros s [Hs Hr]. split; [done|]. intros -> ->. apply (proj2 (proj1 Hs)).
    specialize (Hr _ eq_refl). by apply ok_or_ok in Hr.
  - eapply triple_conseq; [apply Herr|by intros s []|done].
Qed.

Lemma trigger_quiet id community signer reference event_id content persist commit :
  tri nothing_new (handle_workflow_trigger id community signer reference event_id content persist commit)
    (fun _ => nothing_new).
Proof.
  unfold handle_workflow_trigger. destruct reference as [reference|]; [|apply still_ret].
  destruct (uuid_from_text reference) as [workflow|]; [|apply still_ret].
  apply read_workflow; [intros e; apply still_ret|]. intros row Hrow.
  destruct (negb _); [apply still_ret|]. destruct (negb _); [apply still_ret|].
  destruct (def_from_json _) as [def|] eqn:Hdef; [|apply still_ret].
  destruct (row_channel row) as [channel|] eqn:Hch; [|apply still_ret].
  apply (checked_start_quiet community workflow); [done..|]. intros [[]|e] Hne; [|apply still_ret].
  destruct persist as [[]|]; try apply still_ret.
  eapply triple_bind; [apply quiet_create; by apply Hne|]. intros r. apply still_ret.
Qed.

Lemma webhook_quiet id id_text tenant header secret body :
  tri nothing_new (workflow_webhook id id_text tenant header secret body) (fun _ => nothing_new).
Proof.
  unfold workflow_webhook. destruct (uuid_from_text id_text) as [workflow|]; [|apply still_ret].
  destruct tenant as [community|]; [|apply still_ret].
  apply read_workflow; [intros e; apply still_ret|]. intros row Hrow.
  match goal with |- tri _ (match ?m with Ok _ => _ | Err _ => _ end) _ => destruct m as [[[def channel] ctx]|] eqn:Hm end;
    [|apply still_ret].
  assert (row_channel row = Some channel /\ def_from_json (row_definition row) = Ok def) as [Hch Hdef].
  { inv_bind. repeat match goal with E : ok_or _ _ = Ok _ |- _ => apply ok_or_ok in E end.
    split; [done|]. clear -Hb. destruct (def_from_json (row_definition row)); cbn in Hb; congruence. }
  apply (checked_start_quiet community workflow); [done..|]. intros [[]|e] Hne; [|apply still_ret].
  eapply triple_bind; [apply quiet_create; by apply Hne|]. intros r. apply still_ret.
Qed.
End Departed.

