(* ===== verification/WorkflowSchedule.v ===== *)
(** * The workflow scheduler

    The loop of [WorkflowEngine::run] ([crates/buzz-workflow/src/lib.rs]) on any
    number of relay processes over one database. A process goes through the
    workflows of a tick one statement at a time; between two statements anything
    else can happen, other processes and its own restart included. *)

From Stdlib Require Import ZArith Lia Ascii.
From stdpp Require Import base gmap list strings numbers relations.
From S2P Require Import Prelude MachineInt RustStr Json Event Credits GatewayAuth Network Workflow WorkflowRuns.
Local Open Scope Z_scope.
Local Open Scope colony_scope.

(** ** When a schedule fires *)

Definition NANOS : Z := 1000000000.
(** [DateTime::timestamp]. *)
Definition timestamp (t : Z) : Z := t / NANOS.
(** [u64 as i64] and [i64::div_euclid]. *)
Definition as_i64 (n : Z) : Z := if n <=? i64_max then n else n - 2 ^ 64.
Definition div_euclid (a b : Z) : Z := if 0 <? b then a / b else - (a / (- b)).

Section Instants.
Context `{WorkflowLib}.

(** [cron_fire_instant]. *)
Definition cron_fire_instant (expr : string) (now window_secs : Z) : option Z :=
  match cron_parse (normalize_cron expr) with
  | Ok sched =>
      match cron_next sched (now - window_secs * NANOS) with
      | Some t => if t <=? now then Some t else None
      | None => None
      end
  | Err _ => None
  end.
(** [interval_fire_instant]. *)
Definition interval_fire_instant (dur : string) (now : Z) : option Z :=
  match parse_duration_secs dur with
  | Ok interval_secs =>
      if 0 <? interval_secs then
        let secs := as_i64 interval_secs in
        let bucket := div_euclid (timestamp now) secs * secs in
        if date_ok bucket then Some (bucket * NANOS) else None
      else None
  | Err _ => None
  end.
End Instants.
(** [interval_should_fire]. *)
Definition interval_should_fire (dur : string) (last : option Z) (now : Z) : bool :=
  match parse_duration_secs dur with
  | Ok interval_secs => interval_secs <=? Z.abs (Z.quot (now - default now last) NANOS)
  | Err _ => false
  end.
(** [interval_prefilter_should_fire]. *)
Definition interval_prefilter_should_fire (last_fired : gmap RowKey Z) (key : RowKey) (dur : string)
    (last : option Z) (now : Z) : bool * gmap RowKey Z :=
  if interval_should_fire dur last now then (true, last_fired)
  else (false, if is_some last then last_fired else <[key := now]> last_fired).

(** ** One relay process *)

(** The workflow at hand, read at the scan. *)
Record Job := {
  job_key : RowKey;
  job_owner : string;
  job_channel : string;
  job_def : WorkflowDef;
}.
(** Where the body of the loop stands: nowhere, or before the statement that
    reads the anchor of an interval, the role of the owner, the claim of an
    instant, the run's insertion, its link to the claim. [by_interval] is the
    trigger type. *)
Inductive Phase :=
| Resting
| AtAnchor (job : Job) (dur : string)
| AtAuthority (job : Job) (instant : Z) (by_interval : bool)
| AtClaim (job : Job) (instant : Z) (by_interval : bool)
| AtCreate (job : Job) (instant : Z) (by_interval : bool)
| AtAttach (job : Job) (instant : Z) (by_interval : bool) (run : string).

(** [scanned] are the workflows of the tick, while it lasts; [now] is its clock. *)
Record Pod := {
  last_fired : gmap RowKey Z;
  tick_now : Z;
  scanned : option (list RowKey);
  todo : list (RowKey * WorkflowRow);
  phase : Phase;
}.
Definition new_pod : Pod := {| last_fired := ∅; tick_now := 0; scanned := None; todo := []; phase := Resting |}.
Definition at_phase (ph : Phase) (p : Pod) : Pod := {|
  last_fired := last_fired p; tick_now := tick_now p; scanned := scanned p; todo := todo p; phase := ph |}.
Definition with_fired (m : gmap RowKey Z) (p : Pod) : Pod := {|
  last_fired := m; tick_now := tick_now p; scanned := scanned p; todo := todo p; phase := phase p |}.
(** [last_fired.insert], for an interval. *)
Definition note_fired (job : Job) (by_interval : bool) (p : Pod) : Pod :=
  if by_interval then with_fired (<[job_key job := tick_now p]> (last_fired p)) p else p.

Section Pods.
Context `{WorkflowLib}.

(** The start of a tick: the workflows to go through. *)
Definition begin_tick (now : Z) (l : list (RowKey * WorkflowRow)) (p : Pod) : Pod := {|
  last_fired := last_fired p; tick_now := now; scanned := Some (l.*1); todo := l; phase := Resting |}.
(** Its end: entries of other workflows go. *)
Definition end_tick (active : list RowKey) (p : Pod) : Pod := {|
  last_fired := filter (fun kv : RowKey * Z => kv.1 ∈ active) (last_fired p); tick_now := tick_now p;
  scanned := None; todo := []; phase := Resting |}.

(** After the prefilter of an interval. *)
Definition after_anchor (job : Job) (dur : string) (last : option Z) (p : Pod) : Pod :=
  let '(fires, fired) := interval_prefilter_should_fire (last_fired p) (job_key job) dur last (tick_now p) in
  let p := with_fired fired p in
  if negb fires then at_phase Resting p
  else match interval_fire_instant dur (tick_now p) with
       | Some instant => at_phase (AtAuthority job instant true) p
       | None => at_phase Resting p
       end.
(** The first part of the loop's body, up to its first statement. *)
Definition take_workflow (row : RowKey * WorkflowRow) (rest : list (RowKey * WorkflowRow)) (p : Pod) : Pod :=
  let p := {| last_fired := last_fired p; tick_now := tick_now p; scanned := scanned p; todo := rest;
              phase := Resting |} in
  match def_from_json (row_definition (snd row)), row_channel (snd row) with
  | Ok def, Some channel =>
      if negb (def_enabled def) then p
      else
        let job := {| job_key := fst row; job_owner := row_owner (snd row); job_channel := channel; job_def := def |} in
        match trigger def with
        | Schedule (Some expr) None =>
            match cron_fire_instant expr (tick_now p) 60 with
            | Some instant => at_phase (AtAuthority job instant false) p
            | None => p
            end
        | Schedule None (Some dur) =>
            match last_fired p !! fst row with
            | Some t => after_anchor job dur (Some t) p
            | None => at_phase (AtAnchor job dur) p
            end
        | _ => p
        end
  | _, _ => p
  end.

(** The context of a scheduled run. *)
Definition schedule_context (job : Job) (now : Z) : TriggerContext := {|
  ctx_text := ""; ctx_author := ""; ctx_channel_id := job_channel job;
  ctx_timestamp := if 0 <=? timestamp now then dec (timestamp now) else "-" +:+ dec (- timestamp now);
  ctx_emoji := ""; ctx_message_id := ""; webhook_fields := ∅ |}.

(** The statement the process is before, with how it does, the database's clock
    and a random identifier: the process and the database after it, and the run
    that was inserted. *)
Definition pod_statement (fault : DbFault) (db_now : Z) (id : string) (p : Pod) (s : Flows)
    : Pod * Flows * option (Job * Z * string) :=
  match phase p with
  | Resting => (p, s, None)
  | AtAnchor job dur =>
      let last := match fault with
                  | DbUp => match latest_scheduled_workflow_fire (job_key job) s with Ok a => a | Err _ => None end
                  | _ => None
                  end in
      (after_anchor job dur last p, s, None)
  | AtAuthority job instant iv =>
      let role := match fault with
                  | DbUp => get_member_role (fst (job_key job)) (job_channel job) (job_owner job) s
                  | _ => Err Sqlx
                  end in
      (at_phase (match role with
                 | Ok role => if owner_authority_allows role (requires_elevated_authority (job_def job))
                              then AtClaim job instant iv else Resting
                 | Err _ => Resting
                 end) p, s, None)
  | AtClaim job instant iv =>
      let '(r, s) := claim_scheduled_workflow_fire (job_key job) instant fault db_now s in
      (match r with
       | Ok true => at_phase (AtCreate job instant iv) p
       | Ok false => at_phase Resting (note_fired job iv p)
       | Err _ => at_phase Resting p
       end, s, None)
  | AtCreate job instant iv =>
      let community := fst (job_key job) in
      let '(r, s') := create_workflow_run id community (snd (job_key job)) None
                        (Some (schedule_context job (tick_now p))) fault db_now s in
      (match r with
       | Ok run => at_phase (AtAttach job instant iv run) p
       | Err _ => at_phase Resting p
       end, s', if is_some (runs s' !! (community, id)) && negb (is_some (runs s !! (community, id)))
                then Some (job, instant, id) else None)
  | AtAttach job instant iv run =>
      let '(_, s) := attach_scheduled_workflow_run (job_key job) instant run fault db_now s in
      (at_phase Resting (note_fired job iv p), s, None)
  end.
End Pods.

(** ** All processes *)

(** Besides the database and the processes, what has happened: the instants that
    were claimed, the claims that were taken off the table again, and the runs
    that were inserted, with the job and the clock of their tick. *)
Record Cluster := {
  db : Flows;
  pods : list Pod;
  won : list Instant;
  removed : list Instant;
  started : list (Job * Z * Z * string);
}.
Definition start_key (e : Job * Z * Z * string) : Instant := (job_key e.1.1.1, e.1.1.2).

Section Clusters.
Context `{WorkflowLib}.

Definition rows_of (s : Flows) : list Instant := (map_to_list (fires s)).*1.
(** The claim a statement won, read off the process before and after. *)
Definition claim_of (p : Pod) : option Instant :=
  match phase p with AtCreate job instant _ => Some (job_key job, instant) | _ => None end.

Inductive cluster_step (c : Cluster) : Cluster -> Prop :=
(** A process wakes and scans, or its scan fails and it sleeps on. *)
| step_begin i p now l :
    pods c !! i = Some p -> scanned p = None -> list_all_enabled_workflows (db c) = Ok l ->
    cluster_step c {| db := db c; pods := <[i := begin_tick now l p]> (pods c); won := won c;
                      removed := removed c; started := started c |}
| step_take i p row rest :
    pods c !! i = Some p -> phase p = Resting -> todo p = row :: rest ->
    cluster_step c {| db := db c; pods := <[i := take_workflow row rest p]> (pods c); won := won c;
                      removed := removed c; started := started c |}
| step_statement i p fault now id p' s' out :
    pods c !! i = Some p -> phase p <> Resting ->
    pod_statement fault now id p (db c) = (p', s', out) ->
    cluster_step c {| db := s'; pods := <[i := p']> (pods c);
                      won := option_list (claim_of p') ++ won c; removed := removed c;
                      started := option_list ((fun e : Job * Z * string => (e.1.1, e.1.2, tick_now p, e.2)) <$> out) ++ started c |}
| step_end i p active :
    pods c !! i = Some p -> phase p = Resting -> todo p = [] -> scanned p = Some active ->
    cluster_step c {| db := db c; pods := <[i := end_tick active p]> (pods c); won := won c;
                      removed := removed c; started := started c |}
(** A process dies, at any point, and a new one takes its place. *)
| step_restart i :
    (i < length (pods c))%nat ->
    cluster_step c {| db := db c; pods := <[i := new_pod]> (pods c); won := won c;
                      removed := removed c; started := started c |}
(** Everyone else changes anything, but adds no claim; claims may go with their
    workflow or with the janitor. *)
| step_others s' gone :
    rows_of (db c) ≡ₚ gone ++ rows_of s' ->
    cluster_step c {| db := s'; pods := pods c; won := won c; removed := gone ++ removed c;
                      started := started c |}.

Definition cluster_start (s : Flows) (n : nat) : Cluster :=
  {| db := s; pods := replicate n new_pod; won := rows_of s; removed := []; started := [] |}.
End Clusters.

(** ** Facts *)

Lemma zsum_insert {A} (f : A -> Z) l i p p' : l !! i = Some p -> zsum f (<[i := p']> l) = zsum f l - f p + f p'.
Proof.
  revert i. induction l as [|x l IH]; intros [|i] Hi; try done; cbn in Hi.
  - injection Hi as ->. change (<[0%nat := p']> (p :: l)) with (p' :: l). rewrite !zsum_cons. lia.
  - change (<[S i := p']> (x :: l)) with (x :: <[i := p']> l). rewrite !zsum_cons, (IH i) by done. lia.
Qed.

(** How often an instant occurs. *)
Definition cnt (k : Instant) (l : list Instant) : Z := zsum (fun x => if decide (x = k) then 1 else 0) l.

Lemma cnt_app k l1 l2 : cnt k (l1 ++ l2) = cnt k l1 + cnt k l2.
Proof. apply zsum_app. Qed.
Lemma cnt_perm k l1 l2 : l1 ≡ₚ l2 -> cnt k l1 = cnt k l2.
Proof. apply zsum_perm. Qed.
Lemma cnt_absent k l : k ∉ l -> cnt k l = 0.
Proof.
  induction l as [|x l IH]; [done|]. intros [Hx Hl]%not_elem_of_cons.
  change (cnt k (x :: l)) with ((if decide (x = k) then 1 else 0) + cnt k l).
  rewrite decide_False by done. by rewrite IH.
Qed.
Lemma cnt_option k o : cnt k (option_list o) = if decide (o = Some k) then 1 else 0.
Proof.
  destruct o as [x|]; [|done]. change (cnt k (option_list (Some x))) with ((if decide (x = k) then 1 else 0) + 0).
  repeat case_decide; simplify_eq; done.
Qed.
Lemma cnt_nodup k l : NoDup l -> cnt k l = if decide (k ∈ l) then 1 else 0.
Proof.
  induction 1 as [|x l Hx Hnd IH]; [done|]. change (cnt k (x :: l)) with ((if decide (x = k) then 1 else 0) + cnt k l).
  rewrite IH. destruct (decide (x = k)) as [->|Hne].
  - rewrite decide_False by done. rewrite decide_True by left. done.
  - destruct (decide (k ∈ l)); [rewrite decide_True by by right|rewrite decide_False]; [done|done|].
    intros [|]%elem_of_cons; congruence.
Qed.

Lemma cnt_rows k s : cnt k (rows_of s) = match fires s !! k with Some _ => 1 | None => 0 end.
Proof.
  unfold rows_of. rewrite cnt_nodup by apply NoDup_fst_map_to_list.
  destruct (fires s !! k) as [f|] eqn:Hk.
  - rewrite decide_True; [done|]. apply list_elem_of_fmap. exists (k, f). split; [done|]. by apply elem_of_map_to_list.
  - rewrite decide_False; [done|]. intros ([k' f] & -> & Hin)%list_elem_of_fmap. apply elem_of_map_to_list in Hin.
    cbn in Hk. by rewrite Hk in Hin.
Qed.

Section ClusterFacts.
Context `{WorkflowLaws}.

(** What a job's schedule says of the tick's clock. *)
Definition due (job : Job) (now instant : Z) : Prop :=
  match trigger (job_def job) with
  | Schedule (Some expr) None => cron_fire_instant expr now 60 = Some instant
  | Schedule None (Some dur) => interval_fire_instant dur now = Some instant
  | _ => False
  end.
Definition phase_ok (p : Pod) : Prop :=
  match phase p with
  | Resting => True
  | AtAnchor job dur => trigger (job_def job) = Schedule None (Some dur)
  | AtAuthority job instant _ | AtClaim job instant _ | AtCreate job instant _ | AtAttach job instant _ _ =>
      due job (tick_now p) instant
  end.
Definition pending (k : Instant) (p : Pod) : Z := if decide (claim_of p = Some k) then 1 else 0.

Record cluster_ok (c : Cluster) : Prop := {
  co_won : forall k, cnt k (won c) <= cnt k (removed c) + cnt k (rows_of (db c));
  co_started : forall k, cnt k (start_key <$> started c) + zsum (pending k) (pods c) <= cnt k (won c);
  co_phases : Forall phase_ok (pods c);
  co_due : Forall (fun e : Job * Z * Z * string => due e.1.1.1 e.1.2 e.1.1.2) (started c);
}.

Lemma pending_range k p : 0 <= pending k p <= 1.
Proof. unfold pending. case_decide; lia. Qed.
Lemma pending_resting k p : claim_of p = None -> pending k p = 0.
Proof. intros Hp. unfold pending. rewrite Hp. by case_decide. Qed.

(** Nothing but a won claim puts a process before an insertion. *)
Ltac resting := split; [reflexivity|intros; exact I].
Lemma after_anchor_quiet job dur last p :
  claim_of (after_anchor job dur last p) = None
  /\ (trigger (job_def job) = Schedule None (Some dur) -> phase_ok (after_anchor job dur last p)).
Proof.
  unfold after_anchor, interval_prefilter_should_fire. destruct (interval_should_fire _ _ _); [|by resting].
  cbn [negb tick_now with_fired]. destruct (interval_fire_instant dur (tick_now p)) as [t|] eqn:Ht; [|by resting].
  split; [done|]. intros Htr. unfold phase_ok, due. cbn. by rewrite Htr.
Qed.
Lemma take_workflow_quiet row rest p : claim_of (take_workflow row rest p) = None /\ phase_ok (take_workflow row rest p).
Proof.
  unfold take_workflow. destruct (def_from_json _) as [def|]; [|by resting].
  destruct (row_channel _) as [ch|]; [|by resting]. destruct (negb _); [by resting|].
  destruct (trigger def) as [| | |[expr|] [dur|]|] eqn:Htr; try by resting.
  - cbn [tick_now]. destruct (cron_fire_instant _ _ _) as [t|] eqn:Ht; [|by resting]. split; [done|].
    unfold phase_ok, due. cbn. by rewrite Htr.
  - cbn [last_fired]. destruct (_ !! _); [|by split; [reflexivity|exact Htr]].
    split; apply after_anchor_quiet; exact Htr.
Qed.

(** One statement: what it claims, what it starts, and what it leaves. *)
Record statement_ok (p : Pod) (s : Flows) (p' : Pod) (s' : Flows) (out : option (Job * Z * string)) : Prop := {
  so_phase : phase_ok p';
  so_claim : forall k, pending k p' + cnt k (rows_of s) <= cnt k (rows_of s');
  so_start : forall k, (match out with Some (job, instant, _) => if decide ((job_key job, instant) = k) then 1 else 0 | None => 0 end)
                       <= pending k p;
  so_due : forall job instant run, out = Some (job, instant, run) -> due job (tick_now p) instant;
}.

Lemma statement_quiet p s q s' : claim_of q = None -> phase_ok q ->
  (forall k, cnt k (rows_of s') = cnt k (rows_of s)) -> statement_ok p s q s' None.
Proof.
  intros Hq Hok Hrows. split; [done| | |discriminate].
  - intros k. by rewrite pending_resting, Hrows.
  - intros k. pose proof (pending_range k p). lia.
Qed.

Lemma create_keeps_fires id community workflow event ctx fault now s r s' :
  create_workflow_run id community workflow event ctx fault now s = (r, s') -> fires s' = fires s.
Proof.
  unfold create_workflow_run, run_tx. destruct (create_workflow_run_tx _ _ _ _ _ _ s) as [[s1 a]|e] eqn:Hc.
  - unfold create_workflow_run_tx in Hc. inv_bind. destruct fault; by intros [= <- <-].
  - destruct fault; by intros [= <- <-].
Qed.
Lemma attach_keeps_claims key at_ run fault now s r s' k :
  attach_scheduled_workflow_run key at_ run fault now s = (r, s') -> cnt k (rows_of s') = cnt k (rows_of s).
Proof.
  unfold attach_scheduled_workflow_run, run_tx. destruct (attach_run_tx key at_ run s) as [[s1 a]|e] eqn:Hc;
    [|destruct fault; by intros [= <- <-]].
  intros Hs. assert (s' = s \/ s' = s1) as [->| ->] by (destruct fault; injection Hs as <- <-; auto); [done|].
  unfold attach_run_tx in Hc. destruct (fires s !! (key, at_)) as [[c [f|]]|] eqn:Hf; try (by injection Hc as <- <-).
  inv_bind. rewrite !cnt_rows. cbn [fires with_fires]. destruct (decide (((key, at_) : Instant) = k)) as [<-|Hne].
  - rewrite lookup_insert_eq. by rewrite (Hf : fires s !! ((key, at_) : Instant) = _).
  - by rewrite lookup_insert_ne.
Qed.

Lemma pod_statement_spec fault now id p s p' s' out :
  phase p <> Resting -> pod_statement fault now id p s = (p', s', out) -> phase_ok p -> statement_ok p s p' s' out.
Proof.
  intros Hph Hst Hok. unfold pod_statement in Hst. unfold phase_ok in Hok.
  destruct (phase p) as [|job dur|job instant iv|job instant iv|job instant iv|job instant iv run] eqn:Hp; [done|..].
  - injection Hst as <- <- <-. apply statement_quiet; [apply after_anchor_quiet; done..|done].
  - injection Hst as <- <- <-. apply statement_quiet; [..|done];
      (destruct fault; [cbn; destruct (owner_authority_allows _ _)|..]; done).
  - assert (forall q, q = at_phase Resting p \/ q = at_phase Resting (note_fired job iv p) -> statement_ok p s q s None) as Hrest.
    { intros q [->| ->]; by apply statement_quiet. }
    unfold claim_scheduled_workflow_fire, run_tx, claim_fire_tx in Hst.
    destruct (workflows s !! job_key job) as [row|]; [|destruct fault; injection Hst as <- <- <-; by auto].
    destruct (flow_fence _ s); cbn [rbind] in Hst; [|destruct fault; injection Hst as <- <- <-; by auto].
    destruct (fires s !! (job_key job, instant)) as [f|] eqn:Hf; [destruct fault; injection Hst as <- <- <-; by auto|].
    assert (forall k, cnt k (rows_of (with_fires (<[(job_key job, instant) := {| claimed_at := now; fire_run := None |}]> (fires s)) s))
              = cnt k (rows_of s) + if decide ((job_key job, instant) = k) then 1 else 0) as Hins.
    { intros k. rewrite !cnt_rows. cbn [fires with_fires]. destruct (decide ((job_key job, instant) = k)) as [<-|Hne].
      - rewrite lookup_insert_eq. by rewrite (Hf : fires s !! ((job_key job, instant) : Instant) = None).
      - rewrite lookup_insert_ne by done. lia. }
    assert (forall k, 0 <= if decide ((job_key job, instant) = k) then 1 else 0) as Hpos by (intros k; case_decide; lia).
    destruct fault; injection Hst as <- <- <-; [|by auto|].
    + split; [exact Hok| | |discriminate].
      * intros k. rewrite Hins. unfold pending. cbn.
        destruct (decide ((job_key job, instant) = k)) as [<-|Hne]; [rewrite decide_True by done|rewrite decide_False by congruence]; lia.
      * intros k. apply pending_range.
    + split; [done| | |discriminate].
      * intros k. rewrite Hins, pending_resting by done. specialize (Hpos k). lia.
      * intros k. apply pending_range.
  - destruct (create_workflow_run _ _ _ _ _ _ _ _) as [r s1] eqn:Hc. injection Hst as <- <- <-.
    apply create_keeps_fires in Hc as Hsame.
    split.
    + destruct r; done.
    + intros k. rewrite pending_resting, !cnt_rows, Hsame by (by destruct r). done.
    + intros k. destruct (is_some _ && _); [|apply pending_range]. unfold pending, claim_of. rewrite Hp.
      repeat case_decide; simplify_eq; lia.
    + intros job' instant' run'. destruct (is_some _ && _); [|discriminate]. by intros [= <- <- <-].
  - destruct (attach_scheduled_workflow_run _ _ _ _ _ _) as [r s1] eqn:Ha. injection Hst as <- <- <-.
    apply statement_quiet; [by destruct iv..|]. intros k. by eapply attach_keeps_claims.
Qed.


Lemma cluster_start_ok s n : cluster_ok (cluster_start s n).
Proof.
  split; cbn.
  - intros k. change (cnt k []) with 0. lia.
  - intros k. assert (zsum (pending k) (replicate n new_pod) = 0) as ->.
    { induction n as [|n IH]; [done|]. change (replicate (S n) new_pod) with (new_pod :: replicate n new_pod).
      by rewrite zsum_cons, IH. }
    change (0 + 0 <= cnt k (rows_of s)). rewrite cnt_rows. by case_match.
  - apply Forall_elem. by intros p [-> _]%elem_of_replicate.
  - constructor.
Qed.

(** A step of one process that inserts nothing and claims nothing. *)
Lemma quiet_step_ok c i p q : cluster_ok c -> pods c !! i = Some p -> claim_of q = None -> phase_ok q ->
  cluster_ok {| db := db c; pods := <[i := q]> (pods c); won := won c; removed := removed c; started := started c |}.
Proof.
  intros [Hw Hs Hp Hd] Hi Hq Hqok. split; cbn; [done| |by apply list.Forall_insert|done].
  intros k. rewrite (zsum_insert _ _ _ p) by done. rewrite (pending_resting k q) by done.
  specialize (Hs k). pose proof (pending_range k p). lia.
Qed.

Lemma cluster_step_ok c c' : cluster_ok c -> cluster_step c c' -> cluster_ok c'.
Proof.
  intros Hc Hstep. destruct Hstep as [i p now l Hi|i p row rest Hi|i p fault now id p' s' out Hi Hph Hst|i p active Hi|i Hi|s' gone Hg].
  - by eapply quiet_step_ok.
  - destruct (take_workflow_quiet row rest p). by eapply quiet_step_ok.
  - destruct Hc as [Hw Hs Hp Hd].
    destruct (pod_statement_spec _ _ _ _ _ _ _ _ Hph Hst) as [Sphase Sclaim Sstart Sdue].
    { rewrite Forall_elem in Hp. apply Hp. by eapply list_elem_of_lookup_2. }
    split; cbn.
    + intros k. rewrite cnt_app, cnt_option. specialize (Hw k). specialize (Sclaim k). unfold pending in Sclaim. lia.
    + intros k. rewrite cnt_app, cnt_option, fmap_app, cnt_app, (zsum_insert _ _ _ p) by done.
      specialize (Hs k). specialize (Sstart k). fold (pending k p').
      assert (cnt k (start_key <$> option_list ((fun e : Job * Z * string => (e.1.1, e.1.2, tick_now p, e.2)) <$> out))
        = match out with Some (job, instant, _) => if decide ((job_key job, instant) = k) then 1 else 0 | None => 0 end) as ->.
      { destruct out as [[[job instant] run]|]; [|done].
        change (cnt k (option_list (Some ((job_key job, instant) : Instant))) = if decide ((job_key job, instant) = k) then 1 else 0).
        rewrite cnt_option. repeat case_decide; congruence. }
      lia.
    + by apply list.Forall_insert.
    + apply list.Forall_app. split; [|done]. destruct out as [[[job instant] run]|]; [|constructor].
      repeat constructor. by eapply Sdue.
  - by eapply quiet_step_ok.
  - destruct (lookup_lt_is_Some_2 _ _ Hi) as [p Hp]. by eapply quiet_step_ok.
  - destruct Hc as [Hw Hs Hp Hd]. split; cbn; [|done..]. intros k. specialize (Hw k).
    rewrite (cnt_perm k _ _ Hg), cnt_app in Hw. rewrite cnt_app. lia.
Qed.

(** An instant of a cron expression: one of its schedule's, within the last minute,
    and the first of them. *)
Definition cron_due (expr : string) (now instant : Z) : Prop :=
  exists sched, cron_parse (normalize_cron expr) = Ok sched /\ cron_includes sched instant = true
  /\ now - 60 * NANOS < instant <= now
  /\ forall u, now - 60 * NANOS < u < instant -> u mod NANOS = 0 -> cron_includes sched u = false.

(** The instants of a schedule: cron's own within the last minute, or the start of
    the interval that holds the clock. *)
Lemma due_window job now instant : due job now instant ->
  match trigger (job_def job) with
  | Schedule (Some expr) None => cron_due expr now instant
  | Schedule None (Some dur) => exists secs, parse_duration_secs dur = Ok secs /\ 0 < secs
      /\ (secs <= i64_max -> instant <= now < instant + secs * NANOS /\ exists n, instant = n * (secs * NANOS))
  | _ => False
  end.
Proof.
  unfold due. destruct (trigger _) as [| | |[expr|] [dur|]|]; try done.
  - unfold cron_fire_instant. destruct (cron_parse _) as [sched|] eqn:Hparse; [|done].
    destruct (cron_next sched _) as [t|] eqn:Ht; [|done]. apply cron_next_first in Ht as (Hlo & Hin & Hfirst).
    destruct (Z.leb_spec t now); [|done]. intros [= <-]. by exists sched.
  - unfold interval_fire_instant. destruct (parse_duration_secs dur) as [secs|] eqn:Hd; [|done].
    destruct (Z.ltb_spec 0 secs); [|done]. destruct (date_ok _); [|done]. intros [= <-].
    exists secs. split_and!; [done..|]. intros Hmax. unfold as_i64, div_euclid, timestamp.
    rewrite (proj2 (Z.leb_le _ _)) by done. rewrite (proj2 (Z.ltb_lt _ _)) by done.
    assert (0 < NANOS) as Hn by done. generalize dependent NANOS. intros N Hn.
    rewrite Z.div_div by lia. pose proof (Z.div_mod now (N * secs) ltac:(nia)) as Hdm.
    pose proof (Z.mod_pos_bound now (N * secs) ltac:(nia)) as Hm.
    set (q := now / (N * secs)) in *. split; [nia|]. exists q. lia.
Qed.

(** C18. However many processes run, whatever fails, restarts or is edited meanwhile: a
    scheduled instant of a workflow starts at most one run for each time its
    claim was off the table, so at most one while claims are kept; and a run
    starts only when it is due: its instant is the first that the workflow's cron
    schedule has in the last minute of the tick's clock, or the start of the
    interval that holds that clock, so processes whose clocks fall into one
    interval compete for one instant. *)
Theorem scheduled_instants_fire_once s n c : rtc cluster_step (cluster_start s n) c ->
  (forall k, cnt k (start_key <$> started c) <= 1 + cnt k (removed c))
  /\ forall job instant now run, (job, instant, now, run) ∈ started c ->
       match trigger (job_def job) with
       | Schedule (Some expr) None => cron_due expr now instant
       | Schedule None (Some dur) => exists secs, parse_duration_secs dur = Ok secs /\ 0 < secs
           /\ (secs <= i64_max -> instant <= now < instant + secs * NANOS /\ exists n, instant = n * (secs * NANOS))
       | _ => False
       end.
Proof.
  intros Hc. assert (cluster_ok c) as [Hw Hs Hp Hd].
  { remember (cluster_start s n) as c0 eqn:Hstart. assert (cluster_ok c0) as Hok by (subst; apply cluster_start_ok).
    clear Hstart. induction Hc as [|c1 c2 c3 H12 _ IH]; [done|]. apply IH. by eapply cluster_step_ok. }
  split.
  - intros k. specialize (Hw k). specialize (Hs k). rewrite cnt_rows in Hw.
    assert (0 <= zsum (pending k) (pods c)) as Hz.
    { clear. induction (pods c) as [|p l IH]; [done|]. rewrite zsum_cons. pose proof (pending_range k p). lia. }
    case_match; lia.
  - intros job instant now run Hin. rewrite Forall_elem in Hd. by apply due_window, (Hd _ Hin).
Qed.
End ClusterFacts.

(** ** Who lost the channel is not scheduled *)

Section DepartedSchedule.
Context `{WorkflowLib} (webhooks : bool) (c w ch o : string) (R : gmap RowKey RunRow).
Local Abbreviation unmoved := (nothing_new webhooks c w ch o R).

Definition row_departed (kr : RowKey * WorkflowRow) : Prop :=
  fst kr = (c, w) -> workflow_of webhooks ch o (snd kr).
Definition job_departed (job : Job) : Prop := job_key job = (c, w) ->
  job_owner job = o /\ job_channel job = ch /\ (webhooks = true -> requires_elevated_authority (job_def job) = true).
(** A process that holds no passed check of the workflow, and whose reading of it
    names its owner and channel. *)
Definition pod_harmless (p : Pod) : Prop :=
  Forall row_departed (todo p)
  /\ match phase p with
     | Resting => True
     | AtAnchor job _ | AtAuthority job _ _ => job_departed job
     | AtClaim job _ _ | AtCreate job _ _ | AtAttach job _ _ _ => job_key job <> (c, w)
     end.

Lemma scan_departed l s : unmoved s -> list_all_enabled_workflows s = Ok l -> Forall row_departed l.
Proof.
  intros [[_ Hd] _] [= <-]. apply Forall_elem. intros [key row] Hin.
  apply elem_of_take in Hin as (k & Hin & _). apply list_elem_of_lookup_2 in Hin. rewrite sort_by_perm in Hin.
  apply elem_of_filterb in Hin as [Hin _]. apply elem_of_map_to_list in Hin.
  intros Hk. cbn in Hk. subst key. by apply Hd.
Qed.

Lemma harmless_rest p q : pod_harmless p -> todo q = todo p -> phase q = Resting -> pod_harmless q.
Proof. intros [Ht _] Hq Hph. split; [by rewrite Hq|by rewrite Hph]. Qed.
Lemma after_anchor_harmless job dur last p : Forall row_departed (todo p) -> job_departed job ->
  pod_harmless (after_anchor job dur last p).
Proof.
  intros Ht Hj. unfold after_anchor, interval_prefilter_should_fire. destruct (interval_should_fire _ _ _); cbn [negb].
  - destruct (interval_fire_instant _ _); split; done.
  - split; done.
Qed.
Lemma take_harmless row rest p : row_departed row -> Forall row_departed rest -> pod_harmless (take_workflow row rest p).
Proof.
  intros Hrow Hrest. unfold take_workflow.
  assert (forall ch' def, row_channel (snd row) = Some ch' -> def_from_json (row_definition (snd row)) = Ok def ->
    job_departed {| job_key := fst row; job_owner := row_owner (snd row); job_channel := ch'; job_def := def |}) as Hjob.
  { intros ch' def Hch Hdef Hk. cbn in *. destruct (Hrow Hk) as (Ho & Hc & Hcw). rewrite Hch in Hc.
    split_and!; [done|destruct Hc; by simplify_eq|]. intros Ht. eapply elevated_def; [by apply Hcw|done]. }
  destruct (def_from_json _) as [def|] eqn:Hdef; [|split; done]. destruct (row_channel (snd row)) as [ch'|] eqn:Hch; [|split; done].
  destruct (negb _); [split; done|]. specialize (Hjob ch' def eq_refl eq_refl).
  destruct (trigger def) as [| | |[expr|] [dur|]|]; try (split; done).
  - cbn [tick_now]. destruct (cron_fire_instant _ _ _); split; done.
  - cbn [last_fired]. destruct (_ !! _); [by apply after_anchor_harmless|split; done].
Qed.

Lemma statement_harmless fault now id p s p' s' out : pod_harmless p -> unmoved s ->
  pod_statement fault now id p s = (p', s', out) -> pod_harmless p' /\ unmoved s'.
Proof.
  intros [Ht Hph] Hs Hst. unfold pod_statement in Hst.
  destruct (phase p) as [|job dur|job instant iv|job instant iv|job instant iv|job instant iv run] eqn:Hp.
  - injection Hst as <- <- <-. split; [|done]. split; [done|by rewrite Hp].
  - injection Hst as <- <- <-. split; [by apply after_anchor_harmless|done].
  - injection Hst as <- <- <-. split; [|done]. destruct fault; [|split; done..]. cbn [get_member_role].
    destruct (owner_authority_allows _ _) eqn:Ha; [|split; done]. split; [done|]. cbn. intros Hk.
    destruct (Hph Hk) as (Ho & Hc & Hel). rewrite Ho, Hc, Hk in Ha. cbn in Ha.
    by rewrite (lacks_refused webhooks _ _ (proj1 (proj1 Hs)) Hel) in Ha.
  - destruct (claim_scheduled_workflow_fire _ _ _ _ _) as [r s1] eqn:Hc. injection Hst as <- <- <-. split.
    + destruct r as [[]|]; [split; done|apply (harmless_rest p)..]; try (by split; [|rewrite Hp]); by destruct iv.
    + unfold claim_scheduled_workflow_fire, run_tx, claim_fire_tx in Hc.
      destruct (workflows s !! _); [|destruct fault; by injection Hc as <- <-].
      destruct (flow_fence _ s); cbn [rbind] in Hc; [|destruct fault; by injection Hc as <- <-].
      destruct (fires s !! _); destruct fault; by injection Hc as <- <-.
  - destruct (create_workflow_run _ _ _ _ _ _ _ _) as [r s1] eqn:Hc. injection Hst as <- <- <-. split.
    + destruct r; [split; done|]. apply (harmless_rest p); [by split; [|rewrite Hp]|done..].
    + replace s1 with (create_workflow_run id (fst (job_key job)) (snd (job_key job)) None
        (Some (schedule_context job (tick_now p))) fault now s).2 by (by rewrite Hc).
      apply create_other; [done|]. destruct (job_key job) as [c' w'] eqn:Hk. cbn. cbn in Hph.
      destruct (decide (c' = c)) as [->|]; [|by left]. right. intros ->. by apply Hph.
  - destruct (attach_scheduled_workflow_run _ _ _ _ _ _) as [r s1] eqn:Hc. injection Hst as <- <- <-. split.
    + apply (harmless_rest p); [by split; [|rewrite Hp]|by destruct iv..].
    + unfold attach_scheduled_workflow_run, run_tx, attach_run_tx in Hc.
      destruct (fires s !! _) as [[t [f|]]|]; [destruct fault; by injection Hc as <- <-| |destruct fault; by injection Hc as <- <-].
      destruct (flow_fence _ s); cbn [rbind] in Hc; [|destruct fault; by injection Hc as <- <-].
      destruct (negb _); destruct fault; by injection Hc as <- <-.
Qed.

(** Steps among which others leave the workflow alone. *)
Definition guarded_step (a b : Cluster) : Prop :=
  cluster_step a b /\ (pods b = pods a -> unmoved (db a) -> unmoved (db b)).

(** A scheduled workflow whose owner's role does not suffice starts no run either, on
    any process, once no process holds a check the owner passed before. *)
Theorem a_departed_owner_is_not_scheduled cl cl' :
  Forall pod_harmless (pods cl) -> unmoved (db cl) -> rtc guarded_step cl cl' -> unmoved (db cl').
Proof.
  intros Hp Hs Hr. enough (Forall pod_harmless (pods cl') /\ unmoved (db cl')) as [_ H'] by exact H'.
  assert (Forall pod_harmless (pods cl) /\ unmoved (db cl)) as H0 by done. clear Hp Hs.
  induction Hr as [|a b d [Hab Hothers] _ IH]; [done|]. apply IH. clear IH. destruct H0 as [Hp Hs].
  assert (forall i p, pods a !! i = Some p -> pod_harmless p) as Hat.
  { intros i p Hi. rewrite Forall_elem in Hp. apply Hp. by eapply list_elem_of_lookup_2. }
  destruct Hab as [i p now l Hi Hsc Hl|i p row rest Hi Hph Htodo|i p fault now id p' s' out Hi Hph Hst|i p active Hi|i Hi|s' gone Hg];
    cbn [pods db] in *.
  - split; [|done]. apply list.Forall_insert; [done|]. split; [by apply (scan_departed _ (db a))|done].
  - split; [|done]. apply list.Forall_insert; [done|]. destruct (Hat i p Hi) as [Ht _]. rewrite Htodo in Ht.
    apply list.Forall_cons in Ht as [? ?]. by apply take_harmless.
  - destruct (statement_harmless _ _ _ _ _ _ _ _ (Hat i p Hi) Hs Hst). split; [by apply list.Forall_insert|done].
  - split; [|done]. apply list.Forall_insert; [done|]. split; constructor.
  - split; [|done]. apply list.Forall_insert; [done|]. split; constructor.
  - split; [done|]. by apply Hothers.
Qed.
End DepartedSchedule.

(** ** What is due is run *)

Section Liveness.
Context `{WorkflowLib}.

(** Four statements in a row that nothing disturbs. *)
Definition undisturbed_statements (db_now : Z) (id : string) (ps : Pod * Flows) : Pod * Flows :=
  Nat.iter 4 (fun ps => (pod_statement DbUp db_now id ps.1 ps.2).1) ps.

(** An interval workflow whose anchor is an interval old, whose owner may run it
    and whose instant nobody has claimed is run at the next tick of any process:
    the claim is taken, the run inserted and linked to it, and the anchor moves to
    the tick. A process without an anchor, of a workflow that never fired, takes
    its tick for one. *)
Theorem due_intervals_are_run (key : RowKey) row def channel dur secs role instant p rest db_now id s :
  def_from_json (row_definition row) = Ok def -> def_enabled def = true ->
  trigger def = Schedule None (Some dur) -> row_channel row = Some channel ->
  parse_duration_secs dur = Ok secs -> interval_fire_instant dur (tick_now p) = Some instant ->
  (forall t, last_fired p !! key = Some t ->
     secs <= Z.abs (Z.quot (tick_now p - t) NANOS) ->
     workflows s !! key = Some row -> fst key ∉ fenced s ->
     member_roles s !! ((fst key, channel), row_owner row) = Some role ->
     owner_authority_allows (Some role) (requires_elevated_authority def) = true ->
     fires s !! (key, instant) = None -> runs s !! (fst key, id) = None ->
     let '(p', s') := undisturbed_statements db_now id (take_workflow (key, row) rest p, s) in
     phase p' = Resting /\ todo p' = rest /\ last_fired p' !! key = Some (tick_now p)
     /\ fires s' !! (key, instant) = Some {| claimed_at := db_now; fire_run := Some id |}
     /\ exists run, runs s' !! (fst key, id) = Some run /\ run_workflow run = snd key /\ run_status run = RunPending)
  /\ (last_fired p !! key = None -> 0 < secs ->
     latest_scheduled_workflow_fire key s = Ok None ->
     let '(p', s', _) := pod_statement DbUp db_now id (take_workflow (key, row) rest p) s in
     phase p' = Resting /\ last_fired p' !! key = Some (tick_now p) /\ s' = s).
Proof.
  intros Hdef Hen Htr Hch Hsecs Hinst. split.
  - intros t Hlast Helapsed Hwf Hfence Hrole Hallow Hfire Hrun.
    assert (take_workflow (key, row) rest p
      = {| last_fired := last_fired p; tick_now := tick_now p; scanned := scanned p; todo := rest;
           phase := AtAuthority {| job_key := key; job_owner := row_owner row;
             job_channel := channel; job_def := def |} instant true |}) as ->.
    { unfold take_workflow. cbn [fst snd last_fired]. rewrite Hdef, Hch, Hen, Htr, Hlast. cbn [negb].
      unfold after_anchor, interval_prefilter_should_fire, interval_should_fire. cbn [tick_now last_fired default].
      rewrite Hsecs. rewrite (proj2 (Z.leb_le _ _)) by done. cbn [negb with_fired tick_now]. by rewrite Hinst. }
    set (job := {| job_key := key; job_owner := row_owner row; job_channel := channel; job_def := def |}).
    set (q ph fired := {| last_fired := fired; tick_now := tick_now p; scanned := scanned p; todo := rest; phase := ph |}).
    set (s2 := with_fires (<[(key, instant) := {| claimed_at := db_now; fire_run := None |}]> (fires s)) s).
    set (run := {| run_workflow := snd key; run_status := RunPending; run_event := None; current_step := 0;
      execution_trace := []; run_context := Some (schedule_context job (tick_now p)); run_started_at := None;
      run_completed_at := None; error_message := None; run_created_at := db_now |}).
    set (s3 := with_runs (<[(fst key, id) := run]> (runs s2)) s2).
    set (s4 := with_fires (<[(key, instant) := {| claimed_at := db_now; fire_run := Some id |}]> (fires s3)) s3).
    assert (flow_fence (fst key) s = Ok tt) as Hff by (unfold flow_fence; by rewrite bool_decide_eq_false_2).
    assert ((pod_statement DbUp db_now id (q (AtAuthority job instant true) (last_fired p)) s).1
      = (q (AtClaim job instant true) (last_fired p), s)) as S1.
    { unfold pod_statement. cbn [phase q get_member_role job_key job_channel job_owner job_def job fst].
      by rewrite Hrole, Hallow. }
    assert ((pod_statement DbUp db_now id (q (AtClaim job instant true) (last_fired p)) s).1
      = (q (AtCreate job instant true) (last_fired p), s2)) as S2.
    { unfold pod_statement. cbn [phase q]. unfold claim_scheduled_workflow_fire, run_tx, claim_fire_tx.
      change (job_key job) with key. rewrite Hwf, Hff. cbn [rbind].
      by rewrite Hfire. }
    assert ((pod_statement DbUp db_now id (q (AtCreate job instant true) (last_fired p)) s2).1
      = (q (AtAttach job instant true id) (last_fired p), s3)) as S3.
    { unfold pod_statement. cbn [phase q]. unfold create_workflow_run, run_tx, create_workflow_run_tx.
      change (job_key job) with key. change (flow_fence (fst key) s2) with (flow_fence (fst key) s). rewrite Hff.
      cbn [rbind]. change (runs s2) with (runs s). change (workflows s2) with (workflows s).
      rewrite Hrun. cbn [is_some negb].
      replace (workflows s !! (fst key, snd key)) with (Some row) by (by destruct key). done. }
    assert ((pod_statement DbUp db_now id (q (AtAttach job instant true id) (last_fired p)) s3).1
      = (q Resting (<[key := tick_now p]> (last_fired p)), s4)) as S4.
    { unfold pod_statement. cbn [phase q]. unfold attach_scheduled_workflow_run, run_tx, attach_run_tx.
      change (job_key job) with key. change (fires s3) with (fires s2). cbn [fires s2 with_fires].
      rewrite lookup_insert_eq. change (flow_fence (fst key) s3) with (flow_fence (fst key) s). rewrite Hff.
      cbn [rbind]. cbn [runs s3 with_runs]. rewrite lookup_insert_eq. done. }
    unfold undisturbed_statements. cbn [Nat.iter nat_rect]. fold (q (AtAuthority job instant true) (last_fired p)).
    cbn [fst snd]. rewrite S1. cbn [fst snd]. rewrite S2. cbn [fst snd]. rewrite S3. cbn [fst snd]. rewrite S4.
    cbn [q phase todo last_fired]. split_and!; [done..| | |].
    + apply lookup_insert_eq.
    + cbn [s4 fires with_fires]. apply lookup_insert_eq.
    + exists run. cbn [s4 s3 runs with_fires with_runs]. by rewrite lookup_insert_eq.
  - intros Hnone Hpos Hlatest.
    assert (take_workflow (key, row) rest p
      = {| last_fired := last_fired p; tick_now := tick_now p; scanned := scanned p; todo := rest;
           phase := AtAnchor {| job_key := key; job_owner := row_owner row;
             job_channel := channel; job_def := def |} dur |}) as ->.
    { unfold take_workflow. cbn [fst snd last_fired]. by rewrite Hdef, Hch, Hen, Htr, Hnone. }
    unfold pod_statement. cbn [phase job_key]. rewrite Hlatest.
    unfold after_anchor, interval_prefilter_should_fire, interval_should_fire. cbn [tick_now last_fired default].
    rewrite Hsecs. cbn [from_option]. rewrite Z.sub_diag. change (Z.abs (0 ÷ NANOS)) with 0. rewrite (proj2 (Z.leb_gt _ _)) by lia.
    cbn. split_and!; [done|apply lookup_insert_eq|done].
Qed.
End Liveness.

(** ** A small office

    Three workflows of one channel: an hourly one, one with a webhook, and one
    that answers messages. *)

Definition toy_step (id : string) (a : ActionDef) : Step :=
  {| step_id := id; step_name := None; if_expr := None; timeout_secs := None; action := a |}.
Definition toy_workflow_def (name : string) (t : TriggerDef) (l : list Step) : WorkflowDef :=
  {| wf_name := name; wf_description := None; trigger := t; steps := l; def_enabled := true |}.
Definition hourly : WorkflowDef := toy_workflow_def "hourly" (Schedule (Some "0 * * * *") None)%string
  [toy_step "tick" (SendMessage "on the hour" None)].
Definition hook : WorkflowDef := toy_workflow_def "hook" Webhook
  [toy_step "call" (CallWebhook "https://example.com" None None (Some "{{trigger.text}}"%string))].
Definition answering : WorkflowDef := toy_workflow_def "answering" (MessagePosted None)
  [toy_step "answer" (SendMessage "{{trigger.author}} said {{trigger.text}}" None)].
Definition toy_def (name : string) : option WorkflowDef :=
  if String.eqb name "hourly" then Some hourly else if String.eqb name "hook" then Some hook
  else if String.eqb name "answering" then Some answering else None.

(** Variables as a map, a schedule on the hour, texts for identifiers. *)
#[local] Instance toy_workflows : WorkflowLib := {
  hash_iter A m := map_to_list m;
  eval_ctx := gmap string EvalValue;
  ctx_new := ∅;
  ctx_get c k := c !! k;
  ctx_set c k v :=
    if match c !! k with Some old => same_type old v | None => true end
    then Ok (<[k := v]> c) else Err "expected another type"%string;
  ctx_set_function c _ _ := Ok c;
  eval_boolean e c := match c !! e with Some (EVBoolean b) => Ok b | _ => Err "not a boolean"%string end;
  cron_schedule := unit;
  cron_parse _ := Ok tt;
  cron_includes _ t := t mod (3600 * NANOS) =? 0;
  cron_next _ t := Some ((t / (3600 * NANOS) + 1) * (3600 * NANOS));
  date_ok _ := true;
  nostr_key := string;
  key_from_hex k := Some k;
  to_bech32 k := Some ("npub1" +:+ k)%string;
  uuid_from_text u := Some u;
  def_from_yaml y := ok_or (toy_def y) "unknown"%string;
  def_to_json d := json_object [("name"%string, JString (wf_name d));
    ("trigger"%string, json_object [("on"%string, JString (match trigger d with Schedule _ _ => "schedule" | _ => "other" end))])];
  def_from_json j := ok_or (name ← get_str j "name"; toy_def name) "unknown"%string;
}.
#[local] Instance toy_flow_json : JsonLib := { json_from_str _ := None; json_to_string _ := EmptyString }.
#[local] Instance toy_workflow_laws : WorkflowLaws.
Proof.
  split; cbn.
  - done.
  - intros k. apply lookup_empty.
  - intros c k v c'. destruct (match c !! k with Some _ => _ | None => _ end); [|done]. intros [= <-] j.
    destruct (String.eqb_spec j k) as [->|]; [apply lookup_insert_eq|by apply lookup_insert_ne].
  - intros c k v ->. done.
  - intros c k f. by exists c.
  - intros _ t t' [= <-]. assert (0 < 3600 * NANOS) as Hp by done. generalize dependent (3600 * NANOS). intros n Hn.
    pose proof (Z.div_mod t n ltac:(lia)). pose proof (Z.mod_pos_bound t n Hn). split_and!.
    + nia.
    + rewrite Z.mod_mul by lia. done.
    + intros u Hu _. apply Z.eqb_neq. intros Hz. pose proof (Z.div_mod u n ltac:(lia)).
      assert (t / n < u / n) by nia. assert (u / n < t / n + 1) by nia. lia.
Qed.

Definition toy_row (def : WorkflowDef) : WorkflowRow := {|
  row_name := wf_name def; row_owner := "alice"; row_channel := Some "office"%string;
  row_definition := def_to_json def; row_hash := ""; row_status := WfActive; row_enabled := true;
  row_created_at := 0; row_updated_at := 0 |}.
Definition toy_flows (role : option string) : Flows := {|
  workflows := list_to_map ((fun d => (("colony", wf_name d)%string, toy_row d)) <$> [hourly; hook; answering]);
  runs := ∅; fires := ∅; live_channels := {[("colony", "office")%string]};
  member_roles := match role with Some r => {[(("colony", "office"), "alice")%string := r]} | None => ∅ end;
  fenced := ∅; archived_communities := ∅ |}.
Definition toy_message : StoredEvent := {|
  stored_event := {| ev_id := "e1"; ev_pubkey := "bob"; ev_created_at := 7; ev_kind := KIND_STREAM_MESSAGE;
                     ev_tags := []; ev_content := "hello {{trigger.author}}"; ev_sig := "" |};
  stored_channel := Some "office"%string; verified := true |}.
Definition toy_ids (n : nat) : string := dec (Z.of_nat n).

(** With her role, a message starts the one workflow it triggers; without it,
    none. *)
Example messages_start_what_they_trigger :
  (fun s => (map_to_list (runs (on_event (fun _ => InTime) toy_ids ∅ "colony" toy_message [] s).2)).*1)
    <$> [toy_flows (Some "member"%string); toy_flows None]
  = [[("colony", "0")]; []]%string.
Proof. vm_compute. reflexivity. Qed.


(** Two processes at half a minute past the hour. *)
Definition toy_now : Z := 7200 * NANOS + 30 * NANOS.
Definition run_begin (i : nat) (c : Cluster) : Cluster :=
  match pods c !! i, list_all_enabled_workflows (db c) with
  | Some p, Ok l => {| db := db c; pods := <[i := begin_tick toy_now l p]> (pods c); won := won c;
                       removed := removed c; started := started c |}
  | _, _ => c
  end.
Definition run_take (i : nat) (c : Cluster) : Cluster :=
  match pods c !! i with
  | Some p => match todo p with
              | row :: rest => {| db := db c; pods := <[i := take_workflow row rest p]> (pods c); won := won c;
                                  removed := removed c; started := started c |}
              | [] => c
              end
  | None => c
  end.
Definition run_statement (i : nat) (id : string) (c : Cluster) : Cluster :=
  match pods c !! i with
  | Some p =>
      let '(p', s', out) := pod_statement DbUp toy_now id p (db c) in
      {| db := s'; pods := <[i := p']> (pods c); won := option_list (claim_of p') ++ won c; removed := removed c;
         started := option_list ((fun e : Job * Z * string => (e.1.1, e.1.2, tick_now p, e.2)) <$> out) ++ started c |}
  | None => c
  end.
Definition can_begin (i : nat) (c : Cluster) : bool :=
  match pods c !! i with Some p => negb (is_some (scanned p)) | None => false end.
Definition at_rest (p : Pod) : bool := match phase p with Resting => true | _ => false end.
Definition can_take (i : nat) (c : Cluster) : bool :=
  match pods c !! i with Some p => at_rest p && negb (bool_decide (length (todo p) = 0%nat)) | None => false end.
Definition can_run (i : nat) (c : Cluster) : bool :=
  match pods c !! i with Some p => negb (at_rest p) | None => false end.

Lemma run_begin_step i c : can_begin i c = true -> cluster_step c (run_begin i c).
Proof.
  unfold can_begin, run_begin. destruct (pods c !! i) as [p|] eqn:Hp; [|done]. intros Hs.
  destruct (list_all_enabled_workflows (db c)) as [l|] eqn:Hl; [|done].
  eapply step_begin; [exact Hp| |exact Hl]. by destruct (scanned p).
Qed.
Lemma run_take_step i c : can_take i c = true -> cluster_step c (run_take i c).
Proof.
  unfold can_take, run_take, at_rest. destruct (pods c !! i) as [p|] eqn:Hp; [|done].
  destruct (phase p) eqn:Hph; try done. destruct (todo p) as [|row rest] eqn:Ht; [done|]. intros _.
  by eapply step_take.
Qed.
Lemma run_statement_step i id c : can_run i c = true -> cluster_step c (run_statement i id c).
Proof.
  unfold can_run, run_statement, at_rest. destruct (pods c !! i) as [p|] eqn:Hp; [|done]. intros Hph.
  destruct (pod_statement DbUp toy_now id p (db c)) as [[p' s'] out] eqn:Hst.
  eapply step_statement; [exact Hp| |exact Hst]. intros Hr. by rewrite Hr in Hph.
Qed.

Inductive Move := Begins (i : nat) | Takes (i : nat) | Does (i : nat) (id : string).
Definition move (m : Move) : Cluster -> Cluster :=
  match m with Begins i => run_begin i | Takes i => run_take i | Does i id => run_statement i id end.
Definition can_move (m : Move) : Cluster -> bool :=
  match m with Begins i => can_begin i | Takes i => can_take i | Does i _ => can_run i end.
Fixpoint moves (l : list Move) (c : Cluster) : option Cluster :=
  match l with
  | [] => Some c
  | m :: l => if can_move m c then moves l (move m c) else None
  end.
Lemma moves_steps l c c' : moves l c = Some c' -> rtc cluster_step c c'.
Proof.
  revert c. induction l as [|m l IH]; intros c; cbn; [by intros [= ->]|].
  destruct (can_move m c) eqn:Hm; [|done]. intros Hl%IH. eapply rtc_l; [|exact Hl].
  destruct m; [by apply run_begin_step|by apply run_take_step|by apply run_statement_step].
Qed.

Definition toy_start : Cluster := cluster_start (toy_flows (Some "member"%string)) 2.
Definition toy_script : list Move :=
  [Begins 0; Begins 1; Takes 0; Takes 1; Does 0 "r0"; Does 1 "r1"; Does 0 "r0"; Does 1 "r1"; Does 0 "r0"; Does 0 "r0"]%string.
Definition toy_cluster : Cluster := default toy_start (moves toy_script toy_start).
Lemma toy_cluster_reached : rtc cluster_step toy_start toy_cluster.
Proof.
  apply (moves_steps toy_script). assert (is_some (moves toy_script toy_start) = true) as Hs by (vm_compute; reflexivity).
  unfold toy_cluster. by destruct (moves toy_script toy_start).
Qed.

(** Both processes are at the hour's instant; one run starts. *)
Lemma scheduled_instants_fire_once_witness :
  (won toy_cluster, start_key <$> started toy_cluster)
    = ([(("colony", "hourly")%string, 7200 * NANOS)], [(("colony", "hourly")%string, 7200 * NANOS)])
  /\ (forall k, cnt k (start_key <$> started toy_cluster) <= 1 + cnt k (removed toy_cluster)).
Proof.
  split; [vm_compute; reflexivity|].
  destruct (scheduled_instants_fire_once _ 2 _ toy_cluster_reached) as [H _]. exact H.
Defined.

(** A restart in the middle of an interval brings the next run forward: half an
    hour after the last one, though the interval is an hour. *)
Example a_restart_brings_a_run_forward :
  let last_run := 12 * 3600 * NANOS + 1800 * NANOS in
  let now := 13 * 3600 * NANOS in
  interval_fire_instant "1h" last_run = Some (12 * 3600 * NANOS)
  /\ interval_should_fire "1h" (Some last_run) now = false
  /\ interval_should_fire "1h" (Some (12 * 3600 * NANOS)) now = true
  /\ interval_fire_instant "1h" now = Some now.
Proof. vm_compute. by split_and!. Qed.

(** When the event's transaction does not commit, the run stays, pending. *)
Example a_failed_commit_leaves_a_run :
  let '(r, _, s) := handle_workflow_trigger "r9" "colony" "alice" (Some "answering"%string) "e9" "" (Ok Inserted) false []
                      (toy_flows (Some "member"%string)) in
  r = Ok (Err (Internal "error: commit transaction"))
  /\ (run_status <$> runs s !! ("colony", "r9")%string) = Some RunPending.
Proof. vm_compute. by split. Qed.

(** And a webhook's secret is stored but told to nobody: the repeated save finds
    it there. *)
Example a_failed_commit_hides_the_secret :
  let save s commit := handle_workflow_def "colony" "alice" (Some "office"%string) (Some "mine"%string) None (Ok true) "hook"
                         "s3cret" (fun t => t) (Ok Inserted) commit [] s in
  let '(first, _, s) := save (toy_flows (Some "admin"%string)) false in
  let '(second, _, s) := save s true in
  first = Ok (Err (Internal "error: commit transaction"), Some "office"%string)
  /\ second = Ok (Ok (Saved "mine" None), Some "office"%string)
  /\ (row ← workflows s !! ("colony", "mine")%string; extract_secret (row_definition row)) = Some "s3cret"%string.
Proof. vm_compute. by split_and!. Qed.
